(* ===== verification/_CoqProject ===== *)
-Q . S2P
Prelude.v
Kv.v
Crypto.v
UnlockRing.v
World.v
Toy.v
Session.v
Captcha.v
Auth.v
Jobs.v
Pool.v
Scheduler.v
Labels.v
Netsec.v
MailStore.v
Imap.v
ImapLoop.v
Blobs.v
Jmap.v
JmapLoop.v
Mbox.v
Backup.v
Upload.v
Spam.v
OAuth.v
Ai.v
JmapWrite.v
Desk.v
Actions.v
SpamPass.v
ToyDesk.v
Isolation.v
Moves.v
Judge.v
Search.v
AiAssist.v
Dav.v
PimDav.v
Accounts.v
Media.v
Pim.v
Ics.v
OpenPgp.v
PgpRead.v
PgpRoutes.v
Outbound.v
JmapSend.v
SigningIn.v
Compose.v
Drafts.v
Privacy.v
