(* ===== verification/Prelude.v ===== *)
(** * Lyra backend: a verification development

    Lyra is a self-hosted mail client.  Its backend ([src/backend/src], Rust) keeps users,
    accounts, folders and messages in a SQL database, message bytes in a content-addressed
    blob directory, and sessions, counters and small registries in a key-value store.  It
    talks to mail servers over IMAP, JMAP and SMTP, to CardDAV and CalDAV servers and to a
    language model, and runs its long work (syncs, sends, archive jobs) as rows of a durable
    job table that a worker pool claims.  This library models that core as executable
    definitions and proves what makes each part correct.

    ** Parts, and where they are

    - Storage seams.  [Kv]: the trait of [kv/mod.rs] as the class [KvStore] with its laws
      [KvLaws]; [kv/memory.rs] is the instance [MemoryKv], proved against an eager timed map.
      [Blobs]: [blobs/mod.rs] over a file system that may fill up or be read-only.
    - Accounts and access.  [Crypto]: [crypto.rs].  [UnlockRing]: [opengpg/session.rs].
      [World]: the user and account tables and the keys of [auth/dek.rs].  [Session],
      [Captcha], [Auth]: the files of [auth/], each HTTP handler one computation.
      [OAuth]: the files of [oauth/], the refresh of a token as a step relation and the
      sign-in as a flow through the key-value store.  [Accounts]: every route of
      [accounts.rs], with the cascade of a deletion and the probe of a mail server.
      [Toy], [ToyDesk]: instances of the classes for the witnesses.
    - Background work.  [Jobs]: the job table and the handlers of [jobs.rs], one definition
      per statement.  [Pool]: the worker pool, as the sequential program [process_job] and as
      a step relation whose steps lie between two await points.  [Scheduler]: [scheduler.rs].
    - Mail.  [Labels]: [sync/labels.rs].  [Netsec]: the address and URL guards of [netsec.rs].
      [MailStore]: [sync/store.rs] over the folder, message and cursor tables, with
      transactions.  [Imap]: the client of [imap.rs]; [ImapLoop]: [sync/imap_loop.rs].
      [Jmap]: the reads of [sync/jmap_client.rs], [JmapWrite] its writes; [JmapLoop]:
      [sync/jmap_loop.rs] and [sync/recovery.rs].
    - The mailbox of a user.  [Desk]: the tables a request reaches and the loading of a message
      for its owner ([sync/http.rs], [sync/queries.rs]); [Actions]: the handlers that flag,
      label, move, copy, snooze and discard; [Moves]: what they do to the server and the row;
      [Isolation]: that they stay within the user.  [Spam]: [spam.rs]; [SpamPass]: the pass
      over unjudged mail of [sync/http.rs]; [Judge]: what it decides.  [Search]: the lists
      and the SQLite searches of [search/mod.rs] and [sync/queries.rs].
    - The assistant.  [Ai]: settings, store, client and prompts of [ai/]; [AiAssist]: the chat
      with its tool rounds, the suggestions and the routes.
    - Contacts and calendars.  [Dav]: the client of [dav.rs] and [dav_protocol.rs], its XML
      scanner included; [PimDav]: the incremental sync of [pim_dav.rs] and the writes of
      [pim_write.rs];
      [Pim]: the routes of [pim.rs].  [Ics]: the feed reader of [ics.rs] and the refresh of
      [pim_subscriptions.rs].
    - OpenPGP.  [OpenPgp]: the keys of a user and the wrapping of an outgoing mail
      ([opengpg/keys.rs], [opengpg/store.rs], [opengpg/send.rs]); [PgpRead]: the opening of a
      received one ([opengpg/read.rs]); [PgpRoutes]: the routes of [opengpg/http.rs].
    - Sending.  [Outbound]: the message, its forms and its MIME tree ([smtp.rs], the texts of
      [sync/send.rs]); [JmapSend]: submission and drafts of [sync/jmap_client.rs], and a
      network that keeps a record of what it is told, over which the statements about sending
      and saving are made; [SigningIn]: what opening a session leaves alone; [Compose]: the
      send route and the send plugins ([sync/send.rs], [plugins/]); [Drafts]: saving a draft
      ([sync/http.rs]), with the account pass it ends in.
    - Pictures in mail.  [Media]: the proxy of [media.rs], its signatures, its guarded fetch and
      its cache; [Privacy]: the rewriting of a shown mail ([privacy.rs]) - read again, a mail whose
      pictures are blocked has just the tags that are not remote - and the settings, which
      refine a mode and a set of senders.
    - Archives.  [Mbox]: the formats of [backup/format.rs] and the text side of
      [backup/export.rs]; [Backup]: one folder out and back in ([backup/export.rs],
      [backup/import.rs]); [Upload]: [backup/upload.rs] and [backup/artifacts.rs].
    A definition carries the name of the function it translates; where a body is long, its
    loops and closures are definitions of their own next to it.

    ** How it is put together

    Fallible code is [result], code with effects is [io W E A := W -> result E A * W] for a
    record [W] of what the code can reach: the store, the tables, the clock, the random
    source.  A failure keeps what was written before it, as in the code; transactions
    restore the tables.  Databases, networks and disks may fail at any statement: the worlds
    carry a flag, a fuse of statements left, or an oracle of answers.  Step relations model
    what interleaves (the pool and its tasks, the refresh of a token by two requests);
    everything else is sequential, as one request or one job is.  The worlds nest: a handler
    of [Actions] runs over the [office] of [Desk], which holds the world of [World] and the
    tables of [MailStore], and lifts the computations of the parts it calls.

    What is not under [src/] is a class with its laws: the ciphers and codecs ([CryptoLib]),
    Argon2, TOTP and JSON values ([AuthLib]), siteverify ([CaptchaNet]), timestamps and UUIDs
    ([JobLib], [Chrono], [UploadLib]), JSON ([JsonLib], [MetaLib], [TokenJsonLaws]), URLs
    ([UrlLib]), the IMAP session ([ImapSession], [ImapCommands]), MIME ([MimeLib]), the JMAP
    crate and HTTP ([JmapWire], [JmapWrites]), SHA-256 ([BlobLib]), the token endpoints and
    PKCE ([OAuthNet], [PkceLib]), Unicode case ([LowerLaws], [UpperLib]), the language model
    ([LlmNet], [FeaturesLib]), dates ([DateLib], [CivilLib]), full-text matching ([Fts]), the
    rows of a calendar a suggestion writes ([Calendar]), WebDAV requests ([DavNet]), DNS and
    anonymous HTTP ([ProbeNet], [MediaNet]), the
    proxy's HMAC ([MediaLib]), calendar feeds and gzip ([IcsNet], [GzipLib]), OpenPGP keys and messages ([PgpLib],
    [PgpReader]), MIME building and the SMTP dialogue ([LettreLib], [SmtpNet]), the batches of
    a JMAP submission ([JmapSender]), the wording of foreign errors ([ErrorTexts]).  Every class
    has an instance, so the hypotheses can hold, and each theorem that has hypotheses is
    followed by a witness on concrete data.  Clients are proved against the classes:
    sessions, rate limits and uploads hold on every lawful store.

    ** What is shown

    - Access: password change, TOTP and invalidation evict what they must; a code is not
      accepted twice; guesses are bounded; sessions slide and end; bootstrap happens once;
      keys are minted once and legacy secrets re-sealed under them.  An OAuth sign-in ends
      with the tokens of the one who started it, and a token is refreshed without being lost.
      A user's accounts are beyond the reach of another user's requests, a deleted account
      leaves no row behind, a saved password opens again, a probe dials public hosts only.
    - Work: along every interleaving, failure and restart the pool runs each job once at a
      time; a mail goes out a bounded number of times; the scheduler queues what is due, once.
    - Sync: from a cursor that tells the truth a pass over an IMAP folder mirrors it when
      nothing fails, and under an unchanged UIDVALIDITY it loses no mail or local state when
      something does; on a server that answers whole pages a JMAP state is stored only once
      the mail it stands for is; mail that moved survives while the server can resume from the
      stored state within the pages the code reads; the preflight of discovery carries no
      credentials to a host of other last labels; removal takes no other message along.  The
      sync of an address book leaves what the server says while the database answers.  A
      refresh of a subscribed calendar leaves the events of the feed, or those it had.
    - Use: an action touches the user's own mail only, a message that moves is on the server in
      one place and its row follows, the spam pass obeys the user's lists before any score and
      judges no message twice, the lists and searches answer live mail of the user only where
      every message stands in a folder of its own account, the assistant reads only what
      the user may read and every turn of a chat is recorded.
      The routes of contacts and calendars stay within the user; the image proxy fetches from
      public hosts only, and only what the server signed.
    - Letters: the text of a mail to be encrypted goes out sealed to a key of every recipient or
      not at all (its files go beside it in the clear), and is signed by a key of the sending
      account; the requests to the key routes keep the keyring in order and a secret key leaves
      it for the current password only; what a reader is shown is the stored bodies, a text
      signed in the clear, or what a piece of the mail holds opened with a key this session
      unlocked.  A message that is built carries its texts, its files and its recipients once,
      and so does what JMAP accepts of a mail without an OpenPGP wrapper.  A mail is answered
      as sent only when in that run a server accepted it, and a draft that cannot be saved anew
      keeps its old copy.
    - Storage: pages are all or nothing, refetching keeps local state, blobs read back.
    - Archives: an exported folder that is merged without a failure comes back, read and starred
      as it was, its bytes unchanged; an upload that finishes is what was sent, as long as an
      index always carries the same bytes.
    Loops that are not structural take fuel or a measure, and are proved to end or to answer
    whatever the fuel above a stated bound (the IMAP metadata fetch, the redirect chains of
    five hops, the paging of changes, the SSE buffer, the rounds of a chat).  Integers keep
    their width where the code wraps, clamps or saturates ([i32] counts, [u32] UIDs, [i64]
    stamps, the expiry of a token).  Some lemmas state behaviour the code does not intend,
    next to the definitions they concern; the manifest lists them as findings.

    ** What is not modelled

    - Not this language or no logic of its own: the frontend, migrations, the entities SeaORM
      generates, the Redis store (a client of a server), the HTTP routers, start-up and
      configuration from the environment, telemetry, the test harnesses.
    - The SQL text for three drivers: rows are lists and the dialect is SQLite's, so the
      PostgreSQL and MySQL searches are left out.
    - Wrappers of foreign formats: zip and age of an archive, DKIM and BIMI verification, the
      sanitizer, web push encryption; rPGP and lettre are classes.
    - Long connections: IDLE, the push listeners' sockets, the event stream to the browser.
    - Not reached: the rest of [sync/http.rs] (attachments, filling bodies), the backup of accounts, contacts and calendars, avatars,
      statistics.
    The manifest lists each part with its reason. *)
From Stdlib Require Export Ascii Sorted.
From Stdlib Require Import DecimalString DecimalN DecimalFacts.
From stdpp Require Export base numbers strings gmap list.
Local Open Scope string_scope.
Local Open Scope Z_scope.

Declare Scope lyra_scope.
Delimit Scope lyra_scope with lyra.
Open Scope lyra_scope.

(** ** Results and the state-and-error monad

    [result] is Rust's [Result]; [io W E A] is a fallible computation over a
    mutable world [W].  The world is returned on the error path too: a handler
    that records a failed attempt and then answers an error keeps the record. *)

Inductive result (E A : Type) : Type :=
  | Ok (a : A)
  | Err (e : E).
Arguments Ok {E A} a.
Arguments Err {E A} e.

Definition rbind {E A B} (r : result E A) (f : A -> result E B) : result E B :=
  match r with Ok a => f a | Err e => Err e end.

Definition rmap_err {E F A} (f : E -> F) (r : result E A) : result F A :=
  match r with Ok a => Ok a | Err e => Err (f e) end.

(** [Result::ok] and [Option::ok_or]. *)
Definition rok {E A} (r : result E A) : option A :=
  match r with Ok a => Some a | Err _ => None end.
Definition ok_or {E A} (e : E) (o : option A) : result E A :=
  match o with Some a => Ok a | None => Err e end.
Definition is_ok {E A} (r : result E A) : bool :=
  match r with Ok _ => true | Err _ => false end.

Definition io (W E A : Type) : Type := W -> result E A * W.

Definition ret {W E A} (a : A) : io W E A := fun w => (Ok a, w).
Definition throw {W E A} (e : E) : io W E A := fun w => (Err e, w).
Definition bind {W E A B} (m : io W E A) (f : A -> io W E B) : io W E B :=
  fun w => match m w with
           | (Ok a, w') => f a w'
           | (Err e, w') => (Err e, w')
           end.
Definition gets {W E A} (f : W -> A) : io W E A := fun w => (Ok (f w), w).
Definition modify {W E} (f : W -> W) : io W E unit := fun w => (Ok tt, f w).
Definition lift {W E A} (r : result E A) : io W E A := fun w => (r, w).
Definition map_err {W E F A} (f : E -> F) (m : io W E A) : io W F A :=
  fun w => let '(r, w') := m w in (rmap_err f r, w').
(** The outcome of a call as a value, the way [match call().await] reads it. *)
Definition attempt {W E F A} (m : io W E A) : io W F (result E A) :=
  fun w => let '(r, w') := m w in (Ok r, w').
Definition when {W E} (b : bool) (m : io W E unit) : io W E unit :=
  if b then m else ret tt.
Definition ensure {W E} (b : bool) (e : E) : io W E unit :=
  if b then ret tt else throw e.

Notation "'let!' x ':=' m 'in' k" := (bind m (fun x => k))
  (at level 10, x pattern, m at level 200, k at level 200) : lyra_scope.
Notation "'let?' x ':=' r 'in' k" := (rbind r (fun x => k))
  (at level 10, x pattern, r at level 200, k at level 200) : lyra_scope.

Section Io.
  Context {W E : Type}.

Lemma bind_Ok {A B} (m : io W E A) (f : A -> io W E B) w w' b :
    bind m f w = (Ok b, w') <->
    exists a w1, m w = (Ok a, w1) /\ f a w1 = (Ok b, w').
Proof.
  unfold bind. split.
  - destruct (m w) as [[a|e] w1]; intros H; [eauto|discriminate].
  - intros (a & w1 & -> & H). exact H.
Qed.

Lemma bind_step {A B} (m : io W E A) (f : A -> io W E B) w a w1 :
    m w = (Ok a, w1) -> bind m f w = f a w1.
Proof. unfold bind. by intros ->. Qed.

Lemma bind_fail {A B} (m : io W E A) (f : A -> io W E B) w e w1 :
    m w = (Err e, w1) -> bind m f w = (Err e, w1).
Proof. unfold bind. by intros ->. Qed.

Lemma bind_inv {A B} (m : io W E A) (f : A -> io W E B) w r w' :
    bind m f w = (r, w') ->
    (exists e, m w = (Err e, w') /\ r = Err e) \/ exists a w1, m w = (Ok a, w1) /\ f a w1 = (r, w').
Proof. unfold bind. destruct (m w) as [[a|e] w1]; [eauto|]. intros [= <- <-]. eauto. Qed.

Lemma bind_assoc {A B C} (m : io W E A) (f : A -> io W E B) (g : B -> io W E C) w :
    bind (bind m f) g w = bind m (fun a => bind (f a) g) w.
Proof. unfold bind. by destruct (m w) as [[a|e] w1]. Qed.

Lemma ret_bind {A B} (a : A) (f : A -> io W E B) w : bind (ret a) f w = f a w.
Proof. done. Qed.
End Io.

(** The answer of a run, its world left as it is: for concrete runs whose world is
    large. *)
Lemma answer {A B} (p : A * B) a : fst p = a -> p = (a, snd p).
Proof. destruct p. simpl. congruence. Qed.

(** Resolve one step of a monadic run from an equation about its head. *)
Ltac step_with H := first [ rewrite (bind_step _ _ _ _ _ H) | rewrite (bind_fail _ _ _ _ _ H) ].

(** Split every conjunction and existential of the context. *)
Ltac deex_all :=
  repeat match goal with
         | H : exists x, _ |- _ => let y := fresh x in destruct H as [y H]
         | H : _ /\ _ |- _ => destruct H
         end.

(** Case on every remaining [decide] and close by first-order reasoning. *)
Ltac decide_all := repeat case_decide; naive_solver.

(** ** Outcomes

    [outcome m w Q]: the answer of [m] from [w] and the world it leaves satisfy [Q]. *)

Definition outcome {W E A} (m : io W E A) (w : W) (Q : result E A -> W -> Prop) : Prop :=
  let '(r, w') := m w in Q r w'.

Section Outcome.
Context {W : Type}.
Lemma outcome_run {E A} (m : io W E A) w Q r w' : outcome m w Q -> m w = (r, w') -> Q r w'.
Proof. unfold outcome. intros Hm He. by rewrite He in Hm. Qed.
Lemma outcome_intro {E A} (m : io W E A) w (Q : result E A -> W -> Prop) :
  (forall r w', m w = (r, w') -> Q r w') -> outcome m w Q.
Proof. unfold outcome. intros HQ. destruct (m w) as [r w']. by apply HQ. Qed.
Lemma outcome_mono {E A} (m : io W E A) w (P Q : result E A -> W -> Prop) :
  outcome m w P -> (forall r w', P r w' -> Q r w') -> outcome m w Q.
Proof. unfold outcome. destruct (m w). auto. Qed.
Lemma outcome_bind {E A B} (m : io W E A) (f : A -> io W E B) w Q :
  outcome m w (fun r w1 => match r with Ok a => outcome (f a) w1 Q | Err e => Q (Err e) w1 end) ->
  outcome (bind m f) w Q.
Proof. unfold outcome, bind. by destruct (m w) as [[a|e] w1]. Qed.
Lemma outcome_attempt {E F A} (m : io W E A) w (Q : result F (result E A) -> W -> Prop) :
  outcome m w (fun r w1 => Q (Ok r) w1) -> outcome (attempt m) w Q.
Proof. unfold outcome, attempt. by destruct (m w) as [r w1]. Qed.
Lemma outcome_map_err {E F A} (f : E -> F) (m : io W E A) w (Q : result F A -> W -> Prop) :
  outcome m w (fun r w1 => Q (rmap_err f r) w1) -> outcome (map_err f m) w Q.
Proof. unfold outcome, map_err. by destruct (m w) as [r w1]. Qed.
End Outcome.

Lemma map_err_inv {W E F A} (f : E -> F) (m : io W E A) w r w' : map_err f m w = (r, w') ->
  exists x, m w = (x, w') /\ r = rmap_err f x.
Proof. unfold map_err. destruct (m w) as [x w1]. intros [= <- <-]. by exists x. Qed.

(** ** What a computation preserves

    [preserves P m]: whatever [m] answers, the worlds before and after are
    related by the preorder [P].  The tactic [preserve] goes through a monadic
    program along its binds and case splits; calls are closed by hints. *)

Definition preserves {W E A} (P : W -> W -> Prop) (m : io W E A) : Prop :=
  forall w r w', m w = (r, w') -> P w w'.

Section Preserves.
Context {W : Type} (P : W -> W -> Prop) `{HP : !PreOrder P}.

Lemma pres_ret {E A} (a : A) : preserves P (ret (E := E) a).
Proof using HP. by intros w r w' [= _ <-]. Qed.
Lemma pres_throw {E A} (e : E) : preserves P (throw (A := A) e).
Proof using HP. by intros w r w' [= _ <-]. Qed.
Lemma pres_lift {E A} (o : result E A) : preserves P (lift o).
Proof using HP. by intros w r w' [= _ <-]. Qed.
Lemma pres_gets {E A} (f : W -> A) : preserves P (gets (E := E) f).
Proof using HP. by intros w r w' [= _ <-]. Qed.
Lemma pres_ensure {E} b (e : E) : preserves P (ensure b e).
Proof using HP. destruct b; [apply pres_ret|apply pres_throw]. Qed.
Lemma pres_bind {E A B} (m : io W E A) (f : A -> io W E B) :
  preserves P m -> (forall a, preserves P (f a)) -> preserves P (bind m f).
Proof using HP.
  intros Hm Hf w r w'. unfold bind. destruct (m w) as [[a|e] w1] eqn:Hw; apply Hm in Hw.
  - intros Hfa. apply Hf in Hfa. by etrans.
  - by intros [= _ <-].
Qed.
Lemma pres_map_err {E F A} (f : E -> F) (m : io W E A) : preserves P m -> preserves P (map_err f m).
Proof using Type. intros Hm w r w'. unfold map_err. destruct (m w) as [x w1] eqn:Hw. intros [= _ <-]. by eapply Hm. Qed.
Lemma pres_attempt {E F A} (m : io W E A) : preserves P m -> preserves P (attempt (F := F) m).
Proof using Type. intros Hm w r w'. unfold attempt. destruct (m w) as [x w1] eqn:Hw. intros [= _ <-]. by eapply Hm. Qed.
Lemma pres_when {E} b (m : io W E unit) : preserves P m -> preserves P (when b m).
Proof using HP. intros Hm. destruct b; [done|apply pres_ret]. Qed.
End Preserves.

Create HintDb preserve.
Ltac preserve :=
  cbv beta zeta;
  match goal with
  | |- preserves _ (let '(_, _) := ?p in _) => destruct p; preserve
  | |- preserves _ (if ?b then _ else _) => destruct b; preserve
  | |- preserves _ (match ?o with _ => _ end) => destruct o; preserve
  | |- preserves _ (ret _) => apply pres_ret; apply _
  | |- preserves _ (throw _) => apply pres_throw; apply _
  | |- preserves _ (lift _) => apply pres_lift; apply _
  | |- preserves _ (gets _) => apply pres_gets; apply _
  | |- preserves _ (ensure _ _) => apply pres_ensure; apply _
  | |- preserves _ (bind _ _) => apply pres_bind; [apply _|preserve|intros ?; preserve]
  | |- preserves _ (map_err _ _) => apply pres_map_err; preserve
  | |- preserves _ (attempt _) => apply pres_attempt; preserve
  | |- preserves _ (when _ _) => apply pres_when; [apply _|preserve]
  | |- _ => solve [eauto with preserve]
  | |- _ => idtac
  end.

(** ** Machine integers *)

Definition u8_max : Z := 2 ^ 8 - 1.
Definition u32_max : Z := 2 ^ 32 - 1.
Definition u64_max : Z := 2 ^ 64 - 1.
Definition i64_max : Z := 2 ^ 63 - 1.
Definition i64_min : Z := - 2 ^ 63.
Definition i32_max : Z := 2 ^ 31 - 1.

(** [i64::saturating_add]. *)
Definition i64_saturating_add (a b : Z) : Z := Z.max i64_min (Z.min i64_max (a + b)).

(** Durations and instants are counted in nanoseconds, as [std::time] does. *)
Definition nanos_per_sec : Z := 1000000000.
Definition from_secs (s : Z) : Z := s * nanos_per_sec.

(** ** Strings

    A Rust [str] is its UTF-8 bytes.  [len], prefixes, equality and the
    ASCII-only operations act on bytes; [trim] recognises every code point with
    the Unicode [White_Space] property by its byte sequence. *)

Definition byte (a : ascii) : N := N_of_ascii a.
Definition in_range (lo hi n : N) : bool := (lo <=? n)%N && (n <=? hi)%N.
Definition is_upper (a : ascii) : bool := in_range 65 90 (byte a).
Definition is_lower (a : ascii) : bool := in_range 97 122 (byte a).
Definition is_digit (a : ascii) : bool := in_range 48 57 (byte a).
Definition is_alpha (a : ascii) : bool := is_upper a || is_lower a.
Definition is_alnum (a : ascii) : bool := is_alpha a || is_digit a.
Definition ascii_lower (a : ascii) : ascii :=
  if is_upper a then ascii_of_N (byte a + 32) else a.
Definition ascii_upper (a : ascii) : ascii :=
  if is_lower a then ascii_of_N (byte a - 32) else a.

Fixpoint smap (f : ascii -> ascii) (s : string) : string :=
  match s with EmptyString => EmptyString | String a s' => String (f a) (smap f s') end.
Definition to_ascii_lowercase (s : string) : string := smap ascii_lower s.
Definition to_ascii_uppercase (s : string) : string := smap ascii_upper s.
Definition eq_ignore_ascii_case (s t : string) : bool :=
  String.eqb (to_ascii_lowercase s) (to_ascii_lowercase t).

Fixpoint sforall (p : ascii -> bool) (s : string) : bool :=
  match s with EmptyString => true | String a s' => p a && sforall p s' end.
Definition sexists (p : ascii -> bool) (s : string) : bool := negb (sforall (fun a => negb (p a)) s).
Fixpoint scount (p : ascii -> bool) (s : string) : nat :=
  match s with EmptyString => O | String a s' => ((if p a then 1 else 0) + scount p s')%nat end.
Definition contains_char (c : ascii) (s : string) : bool := sexists (Ascii.eqb c) s.
Definition is_empty (s : string) : bool := String.eqb s "".

(** A byte that starts a code point (not 0b10xxxxxx). *)
Definition char_start (a : ascii) : bool := negb (in_range 128 191 (byte a)).
(** [s.chars().count()]. *)
Definition char_count (s : string) : nat := scount char_start s.
(** [s.chars().take(n).collect()]. *)
Fixpoint take_chars (n : nat) (s : string) : string :=
  match s with
  | EmptyString => EmptyString
  | String a s' =>
      if char_start a then match n with O => EmptyString | S m => String a (take_chars m s') end
      else String a (take_chars n s')
  end.

Definition starts_with (p s : string) : bool := String.prefix p s.
Fixpoint strip_prefix (p s : string) : option string :=
  match p, s with
  | EmptyString, _ => Some s
  | String a p', String b s' => if Ascii.eqb a b then strip_prefix p' s' else None
  | String _ _, EmptyString => None
  end.
Fixpoint contains_str (p s : string) : bool :=
  starts_with p s || match s with EmptyString => false | String _ s' => contains_str p s' end.
Fixpoint srev (s acc : string) : string :=
  match s with EmptyString => acc | String a s' => srev s' (String a acc) end.
Definition string_rev (s : string) : string := srev s "".
Definition ends_with (p s : string) : bool := starts_with (string_rev p) (string_rev s).
Definition strip_suffix (p s : string) : option string :=
  option_map string_rev (strip_prefix (string_rev p) (string_rev s)).

Definition is_ascii_ws (a : ascii) : bool := in_range 9 13 (byte a) || (byte a =? 32)%N.
(** Two- and three-byte White_Space code points: U+0085, U+00A0; U+1680,
    U+2000..200A, U+2028, U+2029, U+202F, U+205F, U+3000. *)
Definition is_ws2 (a b : ascii) : bool :=
  (byte a =? 194)%N && ((byte b =? 133)%N || (byte b =? 160)%N).
Definition is_ws3 (a b c : ascii) : bool :=
  ((byte a =? 225)%N && (byte b =? 154)%N && (byte c =? 128)%N)
  || ((byte a =? 226)%N && (byte b =? 128)%N
      && (in_range 128 138 (byte c) || (byte c =? 168)%N || (byte c =? 169)%N || (byte c =? 175)%N))
  || ((byte a =? 226)%N && (byte b =? 129)%N && (byte c =? 159)%N)
  || ((byte a =? 227)%N && (byte b =? 128)%N && (byte c =? 128)%N).

Fixpoint trim_start (s : string) : string :=
  match s with
  | EmptyString => EmptyString
  | String a s1 =>
      if is_ascii_ws a then trim_start s1 else
      match s1 with
      | EmptyString => s
      | String b s2 =>
          if is_ws2 a b then trim_start s2 else
          match s2 with
          | EmptyString => s
          | String c s3 => if is_ws3 a b c then trim_start s3 else s
          end
      end
  end.
(** The same over the reversed bytes: the last byte of a code point first. *)
Fixpoint trim_start_rev (s : string) : string :=
  match s with
  | EmptyString => EmptyString
  | String a s1 =>
      if is_ascii_ws a then trim_start_rev s1 else
      match s1 with
      | EmptyString => s
      | String b s2 =>
          if is_ws2 b a then trim_start_rev s2 else
          match s2 with
          | EmptyString => s
          | String c s3 => if is_ws3 c b a then trim_start_rev s3 else s
          end
      end
  end.
Definition trim_end (s : string) : string := string_rev (trim_start_rev (string_rev s)).
Definition trim (s : string) : string := trim_end (trim_start s).

(** [trim_end_matches] / [trim_matches] of one ASCII character. *)
Fixpoint drop_while (p : ascii -> bool) (s : string) : string :=
  match s with
  | EmptyString => EmptyString
  | String a s' => if p a then drop_while p s' else s
  end.
Definition drop_while_end (p : ascii -> bool) (s : string) : string :=
  string_rev (drop_while p (string_rev s)).

(** [s.split(c).collect()]: at least one segment. *)
Fixpoint split_char (c : ascii) (s : string) : list string :=
  match s with
  | EmptyString => [""]
  | String a s' =>
      if Ascii.eqb a c then "" :: split_char c s'
      else match split_char c s' with
           | h :: t => String a h :: t
           | [] => [String a ""]
           end
  end.
(** [Option::or]. *)
Definition or_else {A} (o p : option A) : option A := match o with Some _ => o | None => p end.
(** [s.rsplit(c).next()]. *)
Definition rsplit_next (c : ascii) (s : string) : string :=
  List.last (split_char c s) s.
(** [str::split_whitespace]: [acc] is the word so far, backwards. *)
Definition flush_word (acc : string) (words : list string) : list string := if is_empty acc then words else string_rev acc :: words.
Fixpoint words_from (fuel : nat) (acc s : string) : list string :=
  match fuel, s with
  | S n, String a s' =>
      let t := trim_start s in
      if (String.length t <? String.length s)%nat then flush_word acc (words_from n "" t) else words_from n (String a acc) s'
  | _, _ => flush_word acc []
  end.
Definition split_whitespace (s : string) : list string := words_from (String.length s) "" s.
(** [s.split_once(c)]. *)
Fixpoint split_once (c : ascii) (s : string) : option (string * string) :=
  match s with
  | EmptyString => None
  | String a s' =>
      if Ascii.eqb a c then Some ("", s')
      else match split_once c s' with
           | Some (l, r) => Some (String a l, r)
           | None => None
           end
  end.

Definition nl : ascii := ascii_of_N 10.
Definition cr : ascii := ascii_of_N 13.
Definition lf : string := String nl "".
Definition crlf : string := String cr (String nl "").
Definition strip_cr (s : string) : string :=
  match string_rev s with
  | String a s' => if Ascii.eqb a cr then string_rev s' else s
  | EmptyString => s
  end.
(** [s.lines()]: split at line feeds, a trailing empty piece is not a line, one
    carriage return is dropped from the end of each line. *)
Definition lines (s : string) : list string :=
  let ps := split_char nl s in
  let ps := match List.last ps "" with EmptyString => removelast ps | _ => ps end in
  map strip_cr ps.

Fixpoint join (sep : string) (l : list string) : string :=
  match l with
  | [] => ""
  | [s] => s
  | s :: l' => s +:+ sep +:+ join sep l'
  end.

(** ** Decimal integers: [Display] and [FromStr] *)

Definition show_N (n : N) : string := NilZero.string_of_uint (N.to_uint n).
Definition show_Z (z : Z) : string :=
  if z <? 0 then "-" +:+ show_N (Z.to_N (- z)) else show_N (Z.to_N z).
(** Digits only, at least one (leading zeros allowed). *)
Definition parse_digits (s : string) : option Z :=
  match NilZero.uint_of_string s with
  | Some d => Some (Z.of_N (N.of_uint d))
  | None => None
  end.
Definition bounded (lo hi : Z) (o : option Z) : option Z :=
  match o with
  | Some z => if (lo <=? z) && (z <=? hi) then Some z else None
  | None => None
  end.
(** [str::parse] of an unsigned type: an optional leading plus sign. *)
Definition parse_unsigned (max : Z) (s : string) : option Z :=
  match strip_prefix "+" s with
  | Some s' => bounded 0 max (parse_digits s')
  | None => bounded 0 max (parse_digits s)
  end.
Definition parse_i64 (s : string) : option Z :=
  match strip_prefix "-" s with
  | Some s' => bounded i64_min i64_max (option_map Z.opp (parse_digits s'))
  | None =>
      match strip_prefix "+" s with
      | Some s' => bounded i64_min i64_max (parse_digits s')
      | None => bounded i64_min i64_max (parse_digits s)
      end
  end.
Definition parse_u32 : string -> option Z := parse_unsigned u32_max.
Definition parse_u64 : string -> option Z := parse_unsigned u64_max.

(** ** Facts about strings *)

Create HintDb lyra.
Create Rewrite HintDb lyra.
#[local] Arguments String.append : simpl nomatch.

Lemma app_cons_s (a : ascii) (s t : string) : String a s +:+ t = String a (s +:+ t).
Proof. done. Qed.

Lemma app_nil_r_s (s : string) : s +:+ "" = s.
Proof. induction s; simpl; congruence. Qed.

Lemma app_assoc_s (s t u : string) : (s +:+ t) +:+ u = s +:+ (t +:+ u).
Proof. induction s; simpl; congruence. Qed.

Lemma slength_app (s t : string) :
  String.length (s +:+ t) = (String.length s + String.length t)%nat.
Proof. induction s; simpl; congruence. Qed.

Lemma app_inj_l_s (s t u : string) : s +:+ t = s +:+ u -> t = u.
Proof. induction s; simpl; [done|]. intros [= H]. auto. Qed.

Lemma srev_app (s acc : string) : srev s acc = string_rev s +:+ acc.
Proof.
  unfold string_rev. revert acc. induction s as [|a s IH]; intros acc; simpl; [done|].
  by rewrite (IH (String a acc)), (IH (String a "")), app_assoc_s.
Qed.

Lemma string_rev_cons a s : string_rev (String a s) = string_rev s +:+ String a "".
Proof. unfold string_rev at 1. simpl. apply srev_app. Qed.

Lemma string_rev_app s t : string_rev (s +:+ t) = string_rev t +:+ string_rev s.
Proof.
  induction s as [|a s IH]; simpl.
  - change (string_rev "") with "". by rewrite app_nil_r_s.
  - by rewrite !string_rev_cons, IH, app_assoc_s.
Qed.

Lemma string_rev_involutive s : string_rev (string_rev s) = s.
Proof.
  induction s as [|a s IH]; [done|]. by rewrite string_rev_cons, string_rev_app, IH.
Qed.

Lemma sforall_app p s t : sforall p (s +:+ t) = sforall p s && sforall p t.
Proof. induction s as [|a s IH]; simpl; [done|]. by rewrite IH, andb_assoc. Qed.

Lemma sforall_rev p s : sforall p (string_rev s) = sforall p s.
Proof.
  induction s as [|a s IH]; [done|].
  rewrite string_rev_cons, sforall_app, IH. simpl. by rewrite andb_true_r, andb_comm.
Qed.

Lemma sforall_impl (p q : ascii -> bool) s :
  (forall a, p a = true -> q a = true) -> sforall p s = true -> sforall q s = true.
Proof.
  intros Hpq. induction s as [|a s IH]; simpl; [done|].
  intros [Ha Hs]%andb_true_iff. by rewrite (Hpq _ Ha), (IH Hs).
Qed.

Lemma scount_app p a b : scount p (a +:+ b) = (scount p a + scount p b)%nat.
Proof. induction a as [|x a IH]; [done|]. rewrite app_cons_s. cbn. rewrite IH. lia. Qed.
Lemma take_chars_count n s : (char_count (take_chars n s) <= n)%nat.
Proof.
  unfold char_count. revert n. induction s as [|a s IH]; intros n; cbn; [lia|].
  destruct (char_start a) eqn:Ha; [destruct n as [|n]; cbn; [lia|]|]; cbn; rewrite Ha; [specialize (IH n); lia|].
  apply IH.
Qed.

(** A string of ASCII characters that are not blanks is its own [trim]. *)
Definition plain (a : ascii) : bool := (byte a <? 128)%N && negb (is_ascii_ws a).
Lemma plain_ws a : plain a = true ->
  is_ascii_ws a = false /\ (forall b, is_ws2 a b = false) /\ (forall b c, is_ws3 a b c = false) /\
  (forall b, is_ws2 b a = false) /\ (forall b c, is_ws3 c b a = false).
Proof.
  intros [Hb%N.ltb_lt Hw%negb_true_iff]%andb_prop.
  split_and!; [done|..]; intros; unfold is_ws2, is_ws3;
    rewrite ?(proj2 (N.eqb_neq (byte a) _)) by lia; rewrite ?andb_false_r; try done.
  unfold in_range. replace (128 <=? byte a)%N with false by (symmetry; apply N.leb_gt; lia).
  by rewrite ?andb_false_r.
Qed.
Lemma trim_start_plain s : sforall plain s = true -> trim_start s = s.
Proof.
  intros Hs. destruct s as [|a s]; [done|]. cbn [sforall] in Hs. apply andb_prop in Hs as [Ha _].
  destruct (plain_ws a Ha) as (Hw & H2 & H3 & _). cbn. rewrite Hw.
  destruct s as [|b s]; [done|]. rewrite H2. destruct s as [|c s]; [done|]. by rewrite H3.
Qed.
Lemma trim_plain s : sforall plain s = true -> trim s = s.
Proof.
  intros Hs. unfold trim, trim_end. rewrite (trim_start_plain s Hs). rewrite <- (string_rev_involutive s) at 2. f_equal.
  rewrite <- sforall_rev in Hs. destruct (string_rev s) as [|a r]; [done|]. cbn [sforall] in Hs.
  apply andb_prop in Hs as [Ha _]. destruct (plain_ws a Ha) as (Hw & _ & _ & H2 & H3).
  cbn. rewrite Hw. destruct r as [|b r]; [done|]. rewrite H2. destruct r as [|c r]; [done|]. by rewrite H3.
Qed.

Lemma prefix_app p s : starts_with p (p +:+ s) = true.
Proof.
  unfold starts_with. induction p as [|a p IH]; simpl; [by destruct s|].
  destruct (ascii_dec a a); [apply IH|done].
Qed.

Lemma starts_with_spec p s : starts_with p s = true <-> exists t, s = p +:+ t.
Proof.
  split; [|intros [t ->]; apply prefix_app].
  unfold starts_with. revert s. induction p as [|a p IH]; intros s; [exists s; reflexivity|].
  destruct s as [|b s]; [done|]. simpl. destruct (ascii_dec a b) as [->|Hne]; [|done].
  intros H. destruct (IH s H) as [t ->]. by exists t.
Qed.

Lemma strip_prefix_app p s : strip_prefix p (p +:+ s) = Some s.
Proof.
  induction p as [|a p IH]; simpl; [by destruct s|]. by rewrite Ascii.eqb_refl.
Qed.

Lemma strip_prefix_spec p s t : strip_prefix p s = Some t <-> s = p +:+ t.
Proof.
  split; [|intros ->; apply strip_prefix_app].
  revert s. induction p as [|a p IH]; intros s; simpl; [destruct s; congruence|].
  destruct s as [|b s]; [done|]. destruct (Ascii.eqb_spec a b) as [->|]; [|done].
  intros H. by rewrite (IH _ H).
Qed.
Lemma strip_suffix_app s p : strip_suffix p (s +:+ p) = Some s.
Proof.
  unfold strip_suffix. rewrite string_rev_app, strip_prefix_app. cbn. by rewrite string_rev_involutive.
Qed.

Lemma char_eqb_not_digit c a : is_digit c = false -> is_digit a = true -> Ascii.eqb a c = false.
Proof. intros Hc Ha. destruct (Ascii.eqb_spec a c); congruence. Qed.

(** Splitting at a separator the left part does not contain. *)
Lemma split_char_app c s t :
  sforall (fun a => negb (Ascii.eqb a c)) s = true ->
  split_char c (s +:+ String c t) = s :: split_char c t.
Proof.
  induction s as [|a s IH]; simpl; [by rewrite Ascii.eqb_refl|].
  intros [Ha Hs]%andb_true_iff. apply negb_true_iff in Ha. by rewrite Ha, IH.
Qed.

Lemma split_char_none c s :
  sforall (fun a => negb (Ascii.eqb a c)) s = true -> split_char c s = [s].
Proof.
  induction s as [|a s IH]; simpl; [done|].
  intros [Ha Hs]%andb_true_iff. apply negb_true_iff in Ha. by rewrite Ha, IH.
Qed.

Lemma split_char_nonempty c s : split_char c s <> [].
Proof.
  induction s as [|a s IH]; simpl; [done|].
  destruct (Ascii.eqb a c); [done|]. by destruct (split_char c s).
Qed.

Lemma split_char_last_app c s t :
  sforall (fun a => negb (Ascii.eqb a c)) t = true ->
  forall d, List.last (split_char c (s +:+ String c t)) d = t.
Proof.
  intros Ht. induction s as [|a s IH]; intros d; simpl.
  - by rewrite Ascii.eqb_refl, (split_char_none _ _ Ht).
  - destruct (Ascii.eqb a c).
    + specialize (IH d). pose proof (split_char_nonempty c (s +:+ String c t)) as Hne.
      by destruct (split_char c (s +:+ String c t)).
    + pose proof (IH d) as IHd. pose proof (split_char_nonempty c (s +:+ String c t)) as Hne.
      destruct (split_char c (s +:+ String c t)) as [|h l] eqn:Hs; [done|].
      destruct l as [|h' l]; simpl in *; [|done].
      exfalso. assert (Hlen : (2 <= length (split_char c (s +:+ String c t)))%nat).
      { clear. induction s as [|b s IH]; simpl.
        - rewrite Ascii.eqb_refl. simpl. pose proof (split_char_nonempty c t).
          destruct (split_char c t); simpl; [done|lia].
        - destruct (Ascii.eqb b c); simpl; [lia|].
          destruct (split_char c (s +:+ String c t)); simpl in *; lia. }
      rewrite Hs in Hlen. simpl in Hlen. lia.
Qed.

Lemma split_join c l :
  l <> [] -> Forall (fun s => sforall (fun a => negb (Ascii.eqb a c)) s = true) l ->
  split_char c (join (String c "") l) = l.
Proof.
  intros Hne Hl. destruct l as [|s l]; [done|]. clear Hne. revert s Hl.
  induction l as [|t l IH]; intros s [Hs Hl]%Forall_cons; [by apply split_char_none|].
  change (join (String c "") (s :: t :: l)) with (s +:+ String c (join (String c "") (t :: l))).
  by rewrite split_char_app, IH.
Qed.

Lemma join_split c s : join (String c "") (split_char c s) = s.
Proof.
  induction s as [|a s IH]; [done|]. cbn [split_char]. pose proof (split_char_nonempty c s) as Hne.
  destruct (Ascii.eqb_spec a c) as [->|].
  - destruct (split_char c s) as [|h t]; [done|]. change (String c (join (String c "") (h :: t)) = String c s).
    by rewrite IH.
  - destruct (split_char c s) as [|h t]; [done|].
    transitivity (String a (join (String c "") (h :: t))); [by destruct t|by rewrite IH].
Qed.
Lemma split_no_sep c s : Forall (fun l => sforall (fun a => negb (Ascii.eqb a c)) l = true) (split_char c s).
Proof.
  induction s as [|a s IH]; cbn; [by repeat constructor|]. destruct (Ascii.eqb_spec a c); [by constructor|].
  destruct (split_char c s) as [|h t]; inversion IH; subst; constructor; cbn; [|done| |done].
  - by destruct (Ascii.eqb_spec a c).
  - destruct (Ascii.eqb_spec a c); [done|]. by simpl.
Qed.

Lemma split_once_app c s t :
  sforall (fun a => negb (Ascii.eqb a c)) s = true ->
  split_once c (s +:+ String c t) = Some (s, t).
Proof.
  induction s as [|a s IH]; simpl; [by rewrite Ascii.eqb_refl|].
  intros [Ha Hs]%andb_true_iff. apply negb_true_iff in Ha. by rewrite Ha, IH.
Qed.

Lemma digits_no_char c s :
  is_digit c = false -> sforall is_digit s = true ->
  sforall (fun a => negb (Ascii.eqb a c)) s = true.
Proof.
  intros Hc. apply sforall_impl. intros a Ha. apply negb_true_iff.
  by apply char_eqb_not_digit.
Qed.

(** ** Decimal round trips *)

Lemma show_N_digits n : sforall is_digit (show_N n) = true.
Proof.
  unfold show_N, NilZero.string_of_uint.
  assert (H : forall d, sforall is_digit (NilEmpty.string_of_uint d) = true)
    by (induction d; simpl; auto).
  destruct (N.to_uint n); try apply H; done.
Qed.

Lemma show_N_nonempty n : show_N n <> "".
Proof. unfold show_N, NilZero.string_of_uint. by destruct (N.to_uint n). Qed.

Lemma parse_show_N n : parse_digits (show_N n) = Some (Z.of_N n).
Proof.
  unfold parse_digits, show_N. rewrite NilZero.usu; [by rewrite DecimalN.Unsigned.of_to|].
  intros Hnil. pose proof (DecimalN.Unsigned.of_to n) as Hof. rewrite Hnil in Hof.
  change (N.of_uint Decimal.Nil) with 0%N in Hof. subst n. discriminate Hnil.
Qed.

Lemma strip_sign_digits c s :
  is_digit c = false -> sforall is_digit s = true -> strip_prefix (String c "") s = None.
Proof.
  intros Hc. destruct s as [|a s]; simpl; [done|].
  intros [Ha _]%andb_true_iff. destruct (Ascii.eqb_spec c a); [congruence|done].
Qed.

Lemma parse_show_unsigned max z :
  0 <= z <= max -> parse_unsigned max (show_Z z) = Some z.
Proof.
  intros Hz. unfold parse_unsigned, show_Z. destruct (Z.ltb_spec z 0); [lia|].
  rewrite strip_sign_digits by (done || apply show_N_digits).
  rewrite parse_show_N, Z2N.id by lia. simpl.
  destruct (Z.leb_spec 0 z), (Z.leb_spec z max); simpl; try lia; done.
Qed.

Lemma parse_show_i64 z : i64_min <= z <= i64_max -> parse_i64 (show_Z z) = Some z.
Proof.
  intros Hz. unfold parse_i64, show_Z. destruct (Z.ltb_spec z 0).
  - rewrite strip_prefix_app, parse_show_N, Z2N.id by lia. simpl.
    destruct (Z.leb_spec i64_min (- - z)), (Z.leb_spec (- - z) i64_max); simpl; try lia.
    f_equal. lia.
  - rewrite !strip_sign_digits by (done || apply show_N_digits).
    rewrite parse_show_N, Z2N.id by lia. simpl.
    destruct (Z.leb_spec i64_min z), (Z.leb_spec z i64_max); simpl; try lia; done.
Qed.

Lemma show_Z_digits z : 0 <= z -> sforall is_digit (show_Z z) = true.
Proof. intros. unfold show_Z. destruct (Z.ltb_spec z 0); [lia|]. apply show_N_digits. Qed.

#[export] Hint Resolve show_N_digits show_Z_digits prefix_app : lyra.
#[export] Hint Rewrite app_assoc_s slength_app string_rev_cons string_rev_app
  string_rev_involutive sforall_app sforall_rev : lyra.

(** ** Facts about lists *)

Lemma filter_length_le {A} (P : A -> bool) (l : list A) :
  (length (List.filter P l) <= length l)%nat.
Proof. apply List.filter_length_le. Qed.

Lemma Forall2_impl_elem {A B} (P Q : A -> B -> Prop) l k :
  Forall2 P l k -> (forall a b, a ∈ l -> P a b -> Q a b) -> Forall2 Q l k.
Proof. induction 1; intros HPQ; constructor; [apply HPQ; set_solver|set_solver]. Qed.

Lemma Forall2_self {A} (P : A -> A -> Prop) l : (forall a, a ∈ l -> P a a) -> Forall2 P l l.
Proof. induction l; intros HP; constructor; [apply HP; set_solver|set_solver]. Qed.

Lemma find_Some_In {A} (p : A -> bool) l x : List.find p l = Some x -> In x l /\ p x = true.
Proof. apply List.find_some. Qed.

(** ** UTF-8 validation: [str::from_utf8] and [String::from_utf8_lossy]

    [utf8_step] reads one code point at the head of a byte string: whether it is
    valid, and how many bytes it takes; an invalid head takes its maximal valid
    prefix, at least one byte. *)

Definition cont (a : ascii) : bool := in_range 128 191 (byte a).
Definition second_ok (w : N) (b : ascii) : bool :=
  if (w =? 224)%N then in_range 160 191 (byte b)
  else if (w =? 237)%N then in_range 128 159 (byte b)
  else if (w =? 240)%N then in_range 144 191 (byte b)
  else if (w =? 244)%N then in_range 128 143 (byte b)
  else cont b.

Definition utf8_step (s : string) : bool * nat :=
  match s with
  | EmptyString => (true, O)
  | String a s1 =>
      let w := byte a in
      if (w <? 128)%N then (true, 1%nat)
      else if in_range 194 223 w then
        match s1 with
        | String b _ => if cont b then (true, 2%nat) else (false, 1%nat)
        | EmptyString => (false, 1%nat)
        end
      else if in_range 224 239 w then
        match s1 with
        | String b s2 =>
            if negb (second_ok w b) then (false, 1%nat) else
            match s2 with
            | String c _ => if cont c then (true, 3%nat) else (false, 2%nat)
            | EmptyString => (false, 2%nat)
            end
        | EmptyString => (false, 1%nat)
        end
      else if in_range 240 244 w then
        match s1 with
        | String b s2 =>
            if negb (second_ok w b) then (false, 1%nat) else
            match s2 with
            | String c s3 =>
                if negb (cont c) then (false, 2%nat) else
                match s3 with
                | String d _ => if cont d then (true, 4%nat) else (false, 3%nat)
                | EmptyString => (false, 3%nat)
                end
            | EmptyString => (false, 2%nat)
            end
        | EmptyString => (false, 1%nat)
        end
      else (false, 1%nat)
  end.

Fixpoint stake (n : nat) (s : string) : string :=
  match n, s with
  | S n', String a s' => String a (stake n' s')
  | _, _ => ""
  end.
Fixpoint sdrop (n : nat) (s : string) : string :=
  match n, s with
  | S n', String _ s' => sdrop n' s'
  | _, _ => s
  end.

(** U+FFFD, the replacement character. *)
Definition replacement : string :=
  String (ascii_of_N 239) (String (ascii_of_N 191) (String (ascii_of_N 189) "")).

(** Each round consumes at least one byte: the byte length is enough fuel. *)
Fixpoint utf8_walk (fuel : nat) (s : string) : bool * string :=
  match fuel, s with
  | O, _ | _, EmptyString => (true, "")
  | S fuel', _ =>
      let '(ok, n) := utf8_step s in
      let '(ok', out) := utf8_walk fuel' (sdrop n s) in
      (ok && ok', (if ok then stake n s else replacement) +:+ out)
  end.
Definition utf8_valid (s : string) : bool := fst (utf8_walk (String.length s) s).
Definition from_utf8_lossy (s : string) : string := snd (utf8_walk (String.length s) s).

Lemma stake_sdrop n s : stake n s +:+ sdrop n s = s.
Proof. revert s. induction n as [|n IH]; intros [|a s]; simpl; try done. by rewrite IH. Qed.

Lemma stake_app s t : stake (String.length s) (s +:+ t) = s.
Proof. induction s as [|a s IH]; [by destruct t|]. rewrite app_cons_s. simpl. by rewrite IH. Qed.

Lemma sdrop_app s t : sdrop (String.length s) (s +:+ t) = t.
Proof. induction s as [|a s IH]; [by destruct t|]. rewrite app_cons_s. simpl. by rewrite IH. Qed.

Lemma slength_stake n s : String.length (stake n s) = Nat.min n (String.length s).
Proof. revert s. induction n as [|n IH]; intros [|a s]; simpl; try done. by rewrite IH. Qed.

Lemma slength_sdrop n s : String.length (sdrop n s) = (String.length s - n)%nat.
Proof. revert s. induction n as [|n IH]; intros [|a s]; simpl; auto. Qed.

Lemma utf8_step_pos a s : (1 <= snd (utf8_step (String a s)))%nat.
Proof.
  unfold utf8_step. repeat (case_match; simpl; try lia).
Qed.

Lemma utf8_walk_valid n s :
  (String.length s <= n)%nat -> fst (utf8_walk n s) = true -> snd (utf8_walk n s) = s.
Proof.
  revert s. induction n as [|n IH]; intros [|a s] Hn; try done; [simpl in Hn; lia|].
  cbn [utf8_walk]. pose proof (utf8_step_pos a s) as Hp.
  destruct (utf8_step (String a s)) as [ok k]. simpl in Hp.
  specialize (IH (sdrop k (String a s))).
  destruct (utf8_walk n (sdrop k (String a s))) as [ok' out]. cbn [fst snd] in *.
  intros [-> ->]%andb_true_iff. rewrite IH; [apply stake_sdrop| |done].
  rewrite slength_sdrop. cbn [String.length] in *. lia.
Qed.

(** Valid text is unchanged by the lossy conversion. *)
Lemma lossy_valid s : utf8_valid s = true -> from_utf8_lossy s = s.
Proof. apply utf8_walk_valid. done. Qed.

Lemma utf8_valid_ascii s :
  sforall (fun a => (byte a <? 128)%N) s = true -> utf8_valid s = true.
Proof.
  unfold utf8_valid. induction s as [|a s IH]; [done|]. cbn [sforall String.length utf8_walk utf8_step].
  intros [Ha Hs]%andb_true_iff. rewrite Ha. cbn [sdrop]. specialize (IH Hs).
  by destruct (utf8_walk (String.length s) s).
Qed.

(** ** ORDER BY

    A stable insertion sort by a boolean order: rows the order does not separate
    stay in table order. *)

Section OrderBy.
Context {A : Type} (leb : A -> A -> bool).
Fixpoint sort_insert (x : A) (l : list A) : list A :=
  match l with
  | [] => [x]
  | y :: l' => if leb x y then x :: l else y :: sort_insert x l'
  end.
Definition order_by (l : list A) : list A := foldr sort_insert [] l.

Lemma sort_insert_perm x l : sort_insert x l ≡ₚ x :: l.
Proof.
  induction l as [|y l IH]; [done|]. simpl. destruct (leb x y); [done|]. rewrite IH. constructor.
Qed.
Lemma order_by_perm l : order_by l ≡ₚ l.
Proof. induction l as [|x l IH]; [done|]. simpl. by rewrite sort_insert_perm, IH. Qed.

Definition le_rel (x y : A) : Prop := leb x y = true.
Context (Htotal : forall x y, leb x y = false -> leb y x = true)
  (Htrans : forall x y z, leb x y = true -> leb y z = true -> leb x z = true).
Lemma sort_insert_sorted x l : StronglySorted le_rel l -> StronglySorted le_rel (sort_insert x l).
Proof using Htotal Htrans.
  induction 1 as [|y l Hs IH Hy]; simpl; [repeat constructor|].
  destruct (leb x y) eqn:Hxy.
  - constructor; [by constructor|]. constructor; [done|].
    eapply Forall_impl; [exact Hy|]. intros z. by apply Htrans.
  - constructor; [done|]. rewrite sort_insert_perm. constructor; [by apply Htotal|done].
Qed.
Lemma order_by_sorted l : StronglySorted le_rel (order_by l).
Proof using Htotal Htrans. induction l; simpl; [constructor|]. by apply sort_insert_sorted. Qed.
End OrderBy.

(** Text comparison of a TEXT column: bytewise. *)
Fixpoint text_le (a b : string) : bool :=
  match a, b with
  | EmptyString, _ => true
  | String _ _, EmptyString => false
  | String x a', String y b' =>
      if (byte x <? byte y)%N then true
      else if (byte y <? byte x)%N then false else text_le a' b'
  end.
Lemma text_le_refl a : text_le a a = true.
Proof. induction a as [|x a IH]; [done|]. simpl. by rewrite N.ltb_irrefl. Qed.
Lemma text_le_total a : forall b, text_le a b = false -> text_le b a = true.
Proof.
  induction a as [|x a IH]; intros [|y b]; simpl; [done..|].
  destruct (N.ltb_spec (byte x) (byte y)), (N.ltb_spec (byte y) (byte x)); (done || auto).
Qed.
Lemma text_le_trans a : forall b c, text_le a b = true -> text_le b c = true -> text_le a c = true.
Proof.
  induction a as [|x a IH]; intros [|y b] [|z c]; simpl; try done.
  destruct (N.ltb_spec (byte x) (byte y)), (N.ltb_spec (byte y) (byte x)),
    (N.ltb_spec (byte y) (byte z)), (N.ltb_spec (byte z) (byte y)),
    (N.ltb_spec (byte x) (byte z)), (N.ltb_spec (byte z) (byte x)); try done; try lia. apply IH.
Qed.

(** Rows with distinct keys: equal keys, equal rows. *)
Lemma same_key {A B} (key : A -> B) l x y : NoDup (key <$> l) -> x ∈ l -> y ∈ l -> key x = key y -> x = y.
Proof.
  intros Hnd [i Hi]%list_elem_of_lookup [j Hj]%list_elem_of_lookup Hk. assert (i = j) as ->; [|congruence].
  eapply (NoDup_lookup _ i j (key x) Hnd); rewrite list_lookup_fmap; [by rewrite Hi|by rewrite Hj, Hk].
Qed.
