(* ===== verification/Kv.v ===== *)
(** * Key-value store seam ([kv/mod.rs], [kv/memory.rs])

    [KvStore] is the trait of [kv/mod.rs] as a class over the store's state;
    [KvLaws] is what a lawful store promises its clients, in terms of the value
    a key has at an instant; [MemoryKv] is the process-local store, and its
    instances discharge both classes. *)
From S2P Require Import Prelude.
Local Open Scope string_scope.
Local Open Scope Z_scope.

(** [KvError] of [kv/mod.rs]. *)
Module KvError.
Inductive t : Type :=
  | Internal (msg : string).
End KvError.

(** The trait [KvStore]: every operation runs at an instant, takes the store
    and answers a result and the store after the call. *)
Class KvStore (K : Type) := {
  kv_get : Z -> string -> K -> result KvError.t (option string) * K;
  kv_set : Z -> string -> string -> option Z -> K -> result KvError.t unit * K;
  kv_del : Z -> string -> K -> result KvError.t unit * K;
  kv_del_prefix : Z -> string -> K -> result KvError.t unit * K;
  kv_incr : Z -> string -> Z -> option Z -> K -> result KvError.t Z * K;
}.

(** Abstract store: what each key holds, with its expiry.  [live e now] is the
    value a reader sees at [now]. *)
Definition cell : Type := string * option Z.
Definition deadline (now : Z) (ttl : option Z) : option Z :=
  match ttl with Some s => Some (now + from_secs s) | None => None end.
Definition live (now : Z) (c : option cell) : option string :=
  match c with
  | None => None
  | Some (v, None) => Some v
  | Some (v, Some t) => if t <=? now then None else Some v
  end.

(** The laws of a store that does not fail: [cells] is its abstract contents.
    An expired cell may be dropped or kept, so contents are compared by the
    values they show from [now] on ([sees]). *)
Definition sees (now : Z) (c d : option cell) : Prop :=
  forall t, now <= t -> live t c = live t d.

Class KvLaws (K : Type) `{KvStore K} := {
  cells : K -> string -> option cell;
  kv_get_law now k s :
    exists s', kv_get now k s = (Ok (live now (cells s k)), s')
    /\ forall j, sees now (cells s' j) (cells s j);
  kv_set_law now k v ttl s :
    exists s', kv_set now k v ttl s = (Ok tt, s')
    /\ cells s' k = Some (v, deadline now ttl)
    /\ forall j, j <> k -> cells s' j = cells s j;
  kv_del_law now k s :
    exists s', kv_del now k s = (Ok tt, s')
    /\ cells s' k = None /\ forall j, j <> k -> cells s' j = cells s j;
  kv_del_prefix_law now p s :
    exists s', kv_del_prefix now p s = (Ok tt, s')
    /\ forall j, cells s' j = if starts_with p j then None else cells s j;
  kv_incr_fresh_law now k d ttl s :
    live now (cells s k) = None ->
    exists s', kv_incr now k d ttl s = (Ok d, s')
    /\ cells s' k = Some (show_Z d, deadline now ttl)
    /\ forall j, j <> k -> cells s' j = cells s j;
  kv_incr_live_law now k d ttl s v e n :
    cells s k = Some (v, e) -> live now (cells s k) = Some v ->
    parse_i64 v = Some n ->
    exists s', kv_incr now k d ttl s = (Ok (i64_saturating_add n d), s')
    /\ cells s' k = Some (show_Z (i64_saturating_add n d), e)
    /\ forall j, j <> k -> cells s' j = cells s j;
  kv_incr_bad_law now k d ttl s v :
    live now (cells s k) = Some v -> parse_i64 v = None ->
    exists e s', kv_incr now k d ttl s = (Err e, s')
    /\ forall j, sees now (cells s' j) (cells s j);
}.

(** ** [kv/memory.rs] *)
Module MemoryKv.

Record Entry := mkEntry { value : string; expires_at : option Z }.
Abbreviation t := (gmap string Entry).
Definition new : t := ∅.

Definition expired (now : Z) (e : Entry) : bool :=
  match expires_at e with Some at_ => at_ <=? now | None => false end.

Definition get (now : Z) (key : string) (map : t) : result KvError.t (option string) * t :=
  match map !! key with
  | None => (Ok None, map)
  | Some entry =>
      if expired now entry then (Ok None, delete key map)
      else (Ok (Some (value entry)), map)
  end.

Definition set (now : Z) (key v : string) (ttl_secs : option Z) (map : t)
    : result KvError.t unit * t :=
  let expires_at := match ttl_secs with Some s => Some (now + from_secs s) | None => None end in
  (Ok tt, <[key := mkEntry v expires_at]> map).

Definition del (now : Z) (key : string) (map : t) : result KvError.t unit * t :=
  (Ok tt, delete key map).

Definition del_prefix (now : Z) (prefix : string) (map : t) : result KvError.t unit * t :=
  (Ok tt, filter (fun kv => starts_with prefix kv.1 = false) map).

(** The text of the [ParseIntError]; no caller inspects it. *)
Definition not_an_integer : string := "invalid digit found in string".

Definition incr (now : Z) (key : string) (delta : Z) (ttl_secs : option Z) (map : t)
    : result KvError.t Z * t :=
  let map := match map !! key with
             | Some entry => if expired now entry then delete key map else map
             | None => map
             end in
  match map !! key with
  | Some entry =>
      match parse_i64 (value entry) with
      | None => (Err (KvError.Internal not_an_integer), map)
      | Some current =>
          let next := i64_saturating_add current delta in
          (Ok next, <[key := mkEntry (show_Z next) (expires_at entry)]> map)
      end
  | None =>
      (Ok delta,
       <[key := mkEntry (show_Z delta)
                  (match ttl_secs with Some s => Some (now + from_secs s) | None => None end)]> map)
  end.

End MemoryKv.

#[export] Instance memory_kv : KvStore MemoryKv.t := {
  kv_get := MemoryKv.get;
  kv_set := MemoryKv.set;
  kv_del := MemoryKv.del;
  kv_del_prefix := MemoryKv.del_prefix;
  kv_incr := MemoryKv.incr;
}.

(** ** Live values *)

Lemma sees_refl now c : sees now c c.
Proof. by intros t Ht. Qed.

Lemma sees_trans now c d e : sees now c d -> sees now d e -> sees now c e.
Proof. intros H1 H2 t Ht. by rewrite (H1 t Ht), (H2 t Ht). Qed.

Lemma sees_sym now c d : sees now c d -> sees now d c.
Proof. intros H t Ht. by rewrite (H t Ht). Qed.

Lemma sees_later now now' c d : now <= now' -> sees now c d -> sees now' c d.
Proof. intros Hle H t Ht. apply H. lia. Qed.

Lemma live_dead_later now t c : now <= t -> live now c = None -> live t c = None.
Proof.
  destruct c as [[v [e|]]|]; simpl; intros Ht; try done.
  destruct (Z.leb_spec e now), (Z.leb_spec e t); try done; lia.
Qed.

Lemma live_earlier now t c v : now <= t -> live t c = Some v -> live now c = Some v.
Proof.
  destruct c as [[w [e|]]|]; simpl; intros Ht; try done.
  destruct (Z.leb_spec e now), (Z.leb_spec e t); try done; lia.
Qed.

Lemma sees_dead now c : live now c = None -> sees now c None.
Proof. intros H t Ht. by rewrite (live_dead_later now t c). Qed.

(** Two cells that show the same live value for ever are the same cell. *)
Lemma sees_live_eq now c d v : sees now c d -> live now c = Some v -> c = d.
Proof.
  intros Hs Hl. pose proof (Hs now ltac:(lia)) as Hn. rewrite Hl in Hn.
  destruct c as [[v1 e1]|], d as [[v2 e2]|]; simpl in *; try done.
  assert (Hv : v1 = v /\ v2 = v).
  { split.
    - destruct e1; [destruct (_ <=? _); congruence|congruence].
    - destruct e2; [destruct (_ <=? _); congruence|congruence]. }
  destruct Hv as [-> ->]. do 2 f_equal.
  assert (Hex : forall e, Some e = e1 \/ Some e = e2 -> now < e).
  { intros e [<-|<-]; simpl in *; destruct (Z.leb_spec e now); (done || lia). }
  assert (Hcmp : forall e, live e (Some (v, e1)) = live e (Some (v, e2)) \/ e < now).
  { intros e. destruct (decide (now <= e)) as [Hle|]; [left; by apply Hs|right; lia]. }
  destruct e1 as [e1|], e2 as [e2|]; simpl in *; try done.
  - pose proof (Hex e1 (or_introl eq_refl)). pose proof (Hex e2 (or_intror eq_refl)).
    destruct (Hcmp e1) as [H1|]; [|lia]. destruct (Hcmp e2) as [H2|]; [|lia].
    rewrite !Z.leb_refl in *.
    destruct (Z.leb_spec e2 e1), (Z.leb_spec e1 e2); try done. f_equal; lia.
  - pose proof (Hex e1 (or_introl eq_refl)). destruct (Hcmp e1) as [H1|]; [|lia].
    by rewrite Z.leb_refl in H1.
  - pose proof (Hex e2 (or_intror eq_refl)). destruct (Hcmp e2) as [H1|]; [|lia].
    by rewrite Z.leb_refl in H1.
Qed.

#[export] Hint Resolve sees_refl : lyra.

(** ** The in-memory store keeps the laws *)
Module MemoryKvLaws.
Import MemoryKv.

Definition cells_of (m : t) (k : string) : option cell :=
  match m !! k with Some e => Some (value e, expires_at e) | None => None end.

Lemma cells_insert m k e j :
  cells_of (<[k := e]> m) j = if decide (k = j) then Some (value e, expires_at e) else cells_of m j.
Proof. unfold cells_of. rewrite lookup_insert. by case_decide. Qed.

Lemma cells_delete m k j :
  cells_of (delete k m) j = if decide (k = j) then None else cells_of m j.
Proof. unfold cells_of. rewrite lookup_delete. by case_decide. Qed.

Lemma cells_prefix m p j :
  cells_of (filter (fun kv : string * Entry => starts_with p kv.1 = false) m) j
  = if starts_with p j then None else cells_of m j.
Proof.
  unfold cells_of. rewrite map_lookup_filter. destruct (m !! j) as [e|]; simpl; [|by destruct starts_with].
  case_guard as Hg; simpl in *; [by rewrite Hg|]. by apply not_false_is_true in Hg as ->.
Qed.

Lemma live_cells now m k :
  live now (cells_of m k) =
  match m !! k with Some e => if expired now e then None else Some (value e) | None => None end.
Proof. unfold cells_of, expired. destruct (m !! k) as [[v [e|]]|]; done. Qed.

Lemma get_spec now k m :
  exists m', get now k m = (Ok (live now (cells_of m k)), m')
  /\ forall j, sees now (cells_of m' j) (cells_of m j).
Proof.
  rewrite live_cells. unfold get. destruct (m !! k) as [e|] eqn:Hk; [|eauto with lyra].
  destruct (expired now e) eqn:He; [|eauto with lyra].
  eexists; split; [done|]. intros j. rewrite cells_delete. case_decide; [subst j|auto with lyra].
  apply sees_sym, sees_dead. rewrite live_cells, Hk. by rewrite He.
Qed.

Lemma incr_fresh now k d ttl m :
  live now (cells_of m k) = None ->
  exists m', incr now k d ttl m = (Ok d, m')
  /\ cells_of m' k = Some (show_Z d, deadline now ttl)
  /\ forall j, j <> k -> cells_of m' j = cells_of m j.
Proof.
  rewrite live_cells. unfold incr. intros Hl.
  assert (Hgone : (match m !! k with
                   | Some e => if expired now e then delete k m else m
                   | None => m end) !! k = None).
  { destruct (m !! k) as [e|] eqn:Hk; [|done]. destruct (expired now e); [|done].
    apply lookup_delete_eq. }
  rewrite Hgone. eexists; split; [done|]. split.
  - rewrite cells_insert, decide_True by done. by destruct ttl.
  - intros j Hj. rewrite cells_insert, decide_False by done.
    destruct (m !! k) as [e|]; [|done]. destruct (expired now e); [|done].
    by rewrite cells_delete, decide_False.
Qed.

Lemma incr_live now k d ttl m v :
  live now (cells_of m k) = Some v ->
  incr now k d ttl m =
  match parse_i64 v with
  | None => (Err (KvError.Internal not_an_integer), m)
  | Some n =>
      (Ok (i64_saturating_add n d),
       <[k := mkEntry (show_Z (i64_saturating_add n d)) (cells_of m k ≫= snd)]> m)
  end.
Proof.
  rewrite live_cells. unfold incr, cells_of. destruct (m !! k) as [e|] eqn:Hk; [|done].
  destruct (expired now e); [done|]. rewrite Hk. intros [= ->]. by destruct (parse_i64 v).
Qed.

End MemoryKvLaws.

#[export] Program Instance memory_kv_laws : KvLaws MemoryKv.t := {
  cells := MemoryKvLaws.cells_of;
}.
Next Obligation. apply MemoryKvLaws.get_spec. Qed.
Next Obligation.
  intros now k v ttl m. eexists; split; [done|]. split.
  - rewrite MemoryKvLaws.cells_insert, decide_True by done. by destruct ttl.
  - intros j Hj. by rewrite MemoryKvLaws.cells_insert, decide_False.
Qed.
Next Obligation.
  intros now k m. eexists; split; [done|]. split.
  - by rewrite MemoryKvLaws.cells_delete, decide_True.
  - intros j Hj. by rewrite MemoryKvLaws.cells_delete, decide_False.
Qed.
Next Obligation.
  intros now p m. eexists; split; [done|]. intros j. apply MemoryKvLaws.cells_prefix.
Qed.
Next Obligation. apply MemoryKvLaws.incr_fresh. Qed.
Next Obligation.
  simpl. intros now k d ttl m v e n Hc Hl Hp. rewrite (MemoryKvLaws.incr_live _ _ _ _ _ _ Hl), Hp, Hc.
  eexists; split; [done|]. split.
  - by rewrite MemoryKvLaws.cells_insert, decide_True.
  - intros j Hj. by rewrite MemoryKvLaws.cells_insert, decide_False.
Qed.
Next Obligation.
  simpl. intros now k d ttl m v Hl Hp. rewrite (MemoryKvLaws.incr_live _ _ _ _ _ _ Hl), Hp.
  eauto with lyra.
Qed.

#[global] Arguments kv_get : simpl never.
#[global] Arguments kv_set : simpl never.
#[global] Arguments kv_del : simpl never.
#[global] Arguments kv_del_prefix : simpl never.
#[global] Arguments kv_incr : simpl never.
#[global] Arguments cells : simpl never.

(** ** Refinement: the lazy store implements an eager timed map

    [Spec.step] is the store a client reasons about: reads drop nothing,
    an expired cell is simply dead.  [MemoryKv] drops expired cells when it meets
    them; the two give the same answers along any run whose clock does not go
    back. *)
Module Spec.

Inductive op :=
  | Get (k : string)
  | Set_ (k v : string) (ttl : option Z)
  | Del (k : string)
  | DelPrefix (p : string)
  | Incr (k : string) (delta : Z) (ttl : option Z).

Inductive reply :=
  | RValue (r : result KvError.t (option string))
  | RUnit (r : result KvError.t unit)
  | RCount (r : result KvError.t Z).

Definition store : Type := string -> option cell.
Definition put (k : string) (c : option cell) (s : store) : store :=
  fun j => if decide (k = j) then c else s j.

Definition step (now : Z) (o : op) (s : store) : reply * store :=
  match o with
  | Get k => (RValue (Ok (live now (s k))), s)
  | Set_ k v ttl => (RUnit (Ok tt), put k (Some (v, deadline now ttl)) s)
  | Del k => (RUnit (Ok tt), put k None s)
  | DelPrefix p => (RUnit (Ok tt), fun j => if starts_with p j then None else s j)
  | Incr k d ttl =>
      match live now (s k) with
      | None => (RCount (Ok d), put k (Some (show_Z d, deadline now ttl)) s)
      | Some v =>
          match parse_i64 v with
          | None => (RCount (Err (KvError.Internal MemoryKv.not_an_integer)), s)
          | Some n => (RCount (Ok (i64_saturating_add n d)),
                       put k (Some (show_Z (i64_saturating_add n d), s k ≫= snd)) s)
          end
      end
  end.

(** The same operation on any implementation of the trait. *)
Definition exec {K} `{KvStore K} (now : Z) (o : op) (s : K) : reply * K :=
  match o with
  | Get k => let '(r, s') := kv_get now k s in (RValue r, s')
  | Set_ k v ttl => let '(r, s') := kv_set now k v ttl s in (RUnit r, s')
  | Del k => let '(r, s') := kv_del now k s in (RUnit r, s')
  | DelPrefix p => let '(r, s') := kv_del_prefix now p s in (RUnit r, s')
  | Incr k d ttl => let '(r, s') := kv_incr now k d ttl s in (RCount r, s')
  end.

Fixpoint run {S} (f : Z -> op -> S -> reply * S) (tr : list (Z * op)) (s : S) : list reply :=
  match tr with
  | [] => []
  | (now, o) :: tr' => let '(r, s') := f now o s in r :: run f tr' s'
  end.

(** The clock of a run never goes back. *)
Fixpoint clocked (t0 : Z) (tr : list (Z * op)) : Prop :=
  match tr with
  | [] => True
  | (now, _) :: tr' => t0 <= now /\ clocked now tr'
  end.

Definition rel (now : Z) (m : MemoryKv.t) (s : store) : Prop :=
  forall j, sees now (cells m j) (s j).

Lemma rel_put now m m' s k c d :
  rel now m s -> cells m' k = c -> sees now c d ->
  (forall j, j <> k -> cells m' j = cells m j) -> rel now m' (put k d s).
Proof.
  intros Hr Hk Hc Ho j. unfold put. case_decide as Hj; [subst j; by rewrite Hk|].
  rewrite Ho by done. apply Hr.
Qed.

Lemma rel_step now m s o :
  rel now m s ->
  exists m', exec now o m = ((step now o s).1, m') /\ rel now m' (step now o s).2.
Proof.
  intros Hr. destruct o as [k|k v ttl|k|p|k d ttl]; unfold exec, step.
  - destruct (kv_get_law now k m) as (m' & Heq & Hs). rewrite Heq.
    pose proof (Hr k now ltac:(lia)) as Hl. rewrite Hl. eexists; split; [done|].
    intros j. eapply sees_trans; [apply Hs|apply Hr].
  - destruct (kv_set_law now k v ttl m) as (m' & Heq & Hk & Ho). rewrite Heq.
    eexists; split; [done|]. eapply rel_put; eauto with lyra.
  - destruct (kv_del_law now k m) as (m' & Heq & Hk & Ho). rewrite Heq.
    eexists; split; [done|]. eapply rel_put; eauto with lyra.
  - destruct (kv_del_prefix_law now p m) as (m' & Heq & Ho). rewrite Heq.
    eexists; split; [done|]. intros j. rewrite Ho. cbn. destruct starts_with; [apply sees_refl|apply Hr].
  - pose proof (Hr k now ltac:(lia)) as Hl.
    destruct (live now (s k)) as [v|] eqn:Hv.
    + pose proof (MemoryKvLaws.incr_live now k d ttl m v Hl) as Heq.
      change (MemoryKv.incr now k d ttl m) with (kv_incr now k d ttl m) in Heq. rewrite Heq.
      pose proof (sees_live_eq _ _ _ _ (Hr k) Hl) as Hc.
      destruct (parse_i64 v) as [n|]; [|by eexists].
      eexists; split; [done|]. change (MemoryKvLaws.cells_of m k) with (cells m k). rewrite Hc.
      apply rel_put with (m := m) (c := Some (show_Z (i64_saturating_add n d), s k ≫= snd));
        [done| |apply sees_refl|].
      * unfold cells; simpl. by rewrite MemoryKvLaws.cells_insert, decide_True.
      * intros j Hj. unfold cells; simpl. by rewrite MemoryKvLaws.cells_insert, decide_False.
    + destruct (kv_incr_fresh_law now k d ttl m Hl) as (m' & Heq & Hk & Ho).
      rewrite Heq. eexists; split; [done|]. eapply rel_put; eauto with lyra.
Qed.

Lemma rel_run tr : forall t0 m s,
  rel t0 m s -> clocked t0 tr -> run exec tr m = run step tr s.
Proof.
  induction tr as [|[now o] tr IH]; intros t0 m s Hr Hc; simpl; [done|].
  destruct Hc as [Hle Hc].
  assert (Hr' : rel now m s) by (intros j; eapply sees_later; [exact Hle|apply Hr]).
  destruct (rel_step now m s o Hr') as (m' & -> & Hrel).
  destruct (step now o s) as [r s'] eqn:Hs. simpl in *. f_equal. by apply IH with (t0 := now).
Qed.

End Spec.

(** ** Properties *)

(** C10: along every run of reads, writes, deletes, prefix deletes and counter
    increments whose clock does not go back, the in-memory store gives the same
    answers, errors included, as the timed map [Spec.step] in which an expired
    key is simply absent. *)
Theorem memory_kv_refines tr t0 :
  Spec.clocked t0 tr ->
  Spec.run Spec.exec tr MemoryKv.new = Spec.run Spec.step tr (fun _ => None).
Proof. apply Spec.rel_run. intros j. unfold cells; simpl. apply sees_refl. Qed.

Definition demo_ops : list (Z * Spec.op) :=
  [(0, Spec.Incr "c" 1 (Some 1)); (5, Spec.Incr "c" 1 None);
   (from_secs 1, Spec.Get "c"); (from_secs 1, Spec.Incr "c" 1 (Some 60));
   (from_secs 2, Spec.Set_ "s" "x" None); (from_secs 2, Spec.Incr "s" 1 None);
   (from_secs 3, Spec.DelPrefix "c"); (from_secs 3, Spec.Get "c")].

Lemma memory_kv_refines_witness :
  Spec.run Spec.exec demo_ops MemoryKv.new = Spec.run Spec.step demo_ops (fun _ => None).
Proof.
  apply (memory_kv_refines demo_ops 0). vm_compute. repeat split; discriminate.
Defined.
