(* ===== verification/Crypto.v ===== *)
(** * Credential encryption ([crypto.rs])

    AES-256-GCM, base64, base32, HKDF-SHA256 and serde_json are third-party crates:
    they are the operations of the class [CryptoLib], with what the code relies
    on in [CryptoLaws].  Byte vectors are strings of bytes.  Randomness is read
    from the world through [HasRng]. *)
From S2P Require Import Prelude.
Local Open Scope string_scope.
Local Open Scope Z_scope.

(** [EncryptedCredential]: base64 ciphertext and base64 96-bit nonce. *)
Record EncryptedCredential := mkEncrypted { ciphertext : string; nonce : string }.

Module CryptoError.
Inductive t : Type :=
  | Encrypt (msg : string)
  | Decrypt (msg : string)
  | InvalidKeyLength
  | InvalidNonceLength
  | Base64
  | MasterKeyNotInitialized
  | MissingDek
  | Storage (msg : string).
End CryptoError.

Class CryptoLib := {
  aes_encrypt : string -> string -> string -> option string;
  aes_decrypt : string -> string -> string -> option string;
  b64_encode : string -> string;
  b64_decode : string -> option string;
  hkdf_expand : string -> string -> string;
  base32_encode : string -> string;
  base32_decode : string -> option string;
  cred_to_json : EncryptedCredential -> string;
  cred_of_json : string -> option EncryptedCredential;
}.

(** Documented behaviour of the crates: GCM opens what it sealed under the same
    key and nonce, the two text encodings round-trip, HKDF fills its output. *)
Class CryptoLaws `{CryptoLib} := {
  aes_roundtrip k n p :
    String.length k = 32%nat -> String.length n = 12%nat ->
    exists c, aes_encrypt k n p = Some c /\ aes_decrypt k n c = Some p;
  b64_roundtrip s : b64_decode (b64_encode s) = Some s;
  base32_roundtrip s : base32_decode (base32_encode s) = Some s;
  hkdf_length m i : String.length (hkdf_expand m i) = 32%nat;
  json_roundtrip c : cred_of_json (cred_to_json c) = Some c;
}.

(** A source of random bytes inside a world ([rand::thread_rng]). *)
Class HasRng (W : Type) := fill_bytes : nat -> W -> string * W.
Class RngLaws (W : Type) `{HasRng W} :=
  fill_bytes_length : forall n w, String.length (fst (fill_bytes n w)) = n.

Definition draw {W E} `{HasRng W} (n : nat) : io W E string :=
  fun w => let '(b, w') := fill_bytes n w in (Ok b, w').

Section Crypto.
Context `{CryptoLib} {W : Type} `{HasRng W}.

Definition encrypt (key plaintext : string) : io W CryptoError.t EncryptedCredential :=
  if negb (String.length key =? 32)%nat then throw CryptoError.InvalidKeyLength else
  let! nonce_arr := draw 12 in
  match aes_encrypt key nonce_arr plaintext with
  | None => throw (CryptoError.Encrypt "aead::Error")
  | Some ct => ret (mkEncrypted (b64_encode ct) (b64_encode nonce_arr))
  end.

Definition decrypt (key : string) (encrypted : EncryptedCredential)
    : result CryptoError.t string :=
  if negb (String.length key =? 32)%nat then Err CryptoError.InvalidKeyLength else
  match b64_decode (nonce encrypted) with
  | None => Err CryptoError.Base64
  | Some nonce_bytes =>
      if negb (String.length nonce_bytes =? 12)%nat then Err CryptoError.InvalidNonceLength else
      match b64_decode (ciphertext encrypted) with
      | None => Err CryptoError.Base64
      | Some ct =>
          match aes_decrypt key nonce_bytes ct with
          | None => Err (CryptoError.Decrypt "aead::Error")
          | Some pt => Ok pt
          end
      end
  end.

(** [generate_key]: 32 random bytes. *)
Definition generate_key {E} : io W E string := draw 32.

Definition KEK_INFO_PREFIX : string := "lyra-user-kek:v1:".
Definition LEGACY_DEFAULT_MASTER_KEY : string := "lyra-default-master-key-for-dev-only".

Fixpoint zeros (n : nat) : string :=
  match n with O => "" | S n' => String (ascii_of_N 0) (zeros n') end.

(** First 32 bytes, padded with zeros. *)
Definition pad_master_key_to_dek (master : string) : string :=
  let n := Nat.min (String.length master) 32 in
  stake n master +:+ zeros (32 - n).

Definition legacy_dek_candidates (master_key : string) : list string :=
  let current := pad_master_key_to_dek master_key in
  let default_ := pad_master_key_to_dek LEGACY_DEFAULT_MASTER_KEY in
  if String.eqb current default_ then [current] else [current; default_].

Fixpoint first_decrypt (keys : list string) (blob : EncryptedCredential) : option string :=
  match keys with
  | [] => None
  | key :: keys' =>
      match decrypt key blob with
      | Ok pt => Some pt
      | Err _ => first_decrypt keys' blob
      end
  end.
Definition try_decrypt_with_legacy_keys (blob : EncryptedCredential) (master_key : string)
    : option string :=
  first_decrypt (legacy_dek_candidates master_key) blob.

Definition derive_user_kek (master_key user_id : string) : string :=
  hkdf_expand master_key (KEK_INFO_PREFIX +:+ user_id).

Definition wrap_dek (kek dek : string) : io W CryptoError.t string :=
  let! encrypted := encrypt kek dek in ret (cred_to_json encrypted).

Definition unwrap_dek (kek wrapped_json : string) : result CryptoError.t string :=
  match cred_of_json wrapped_json with
  | None => Err (CryptoError.Decrypt "stored DEK is not a wrapped key blob")
  | Some encrypted => decrypt kek encrypted
  end.

(** ** Lemmas *)
Context `{!CryptoLaws} `{!RngLaws W}.

Lemma draw_spec {E} n (w : W) :
  exists b w', draw (E := E) n w = (Ok b, w') /\ String.length b = n.
Proof.
  unfold draw. pose proof (fill_bytes_length n w) as Hl.
  destruct (fill_bytes n w) as [b w']. eauto.
Qed.

(** Sealing under a 32-byte key succeeds and opens to the plaintext. *)
Lemma encrypt_opens key pt (w : W) :
  String.length key = 32%nat ->
  exists enc w', encrypt key pt w = (Ok enc, w') /\ decrypt key enc = Ok pt.
Proof.
  intros Hk. unfold encrypt, decrypt. rewrite Hk. simpl.
  destruct (draw_spec (E := CryptoError.t) 12 w) as (n & w' & Hd & Hn).
  rewrite (bind_step _ _ _ _ _ Hd).
  destruct (aes_roundtrip key n pt Hk Hn) as (c & Hc & Ho). rewrite Hc.
  eexists _, _. split; [done|]. simpl. by rewrite !b64_roundtrip, Hn, Ho.
Qed.

Lemma wrap_unwraps kek dek (w : W) :
  String.length kek = 32%nat ->
  exists j w', wrap_dek kek dek w = (Ok j, w') /\ unwrap_dek kek j = Ok dek.
Proof.
  intros Hk. destruct (encrypt_opens kek dek w Hk) as (enc & w' & He & Hd).
  exists (cred_to_json enc), w'. unfold wrap_dek, unwrap_dek.
  by rewrite (bind_step _ _ _ _ _ He), json_roundtrip.
Qed.

Lemma slength_zeros n : String.length (zeros n) = n.
Proof. induction n; simpl; congruence. Qed.

Lemma pad_master_key_length m : String.length (pad_master_key_to_dek m) = 32%nat.
Proof.
  unfold pad_master_key_to_dek. rewrite slength_app, slength_stake, slength_zeros. lia.
Qed.

Lemma legacy_current_opens master pt enc :
  decrypt (pad_master_key_to_dek master) enc = Ok pt ->
  try_decrypt_with_legacy_keys enc master = Some pt.
Proof.
  intros Hd. unfold try_decrypt_with_legacy_keys, legacy_dek_candidates.
  destruct (String.eqb _ _); simpl; by rewrite Hd.
Qed.

End Crypto.
