(* ===== verification/UnlockRing.v ===== *)
(** * OpenPGP unlock ring ([opengpg/session.rs])

    Passphrases cached per auth session token and key id.  The mutex-protected
    map of maps is the state; every operation runs at an instant. *)
From S2P Require Import Prelude.
Local Open Scope string_scope.
Local Open Scope Z_scope.

Inductive CacheMode : Type := Once | Timed | Session.
#[export] Instance CacheMode_eq_dec : EqDecision CacheMode.
Proof. solve_decision. Defined.

Definition parse_cache_mode (s : string) : result string CacheMode :=
  let s := to_ascii_lowercase (trim s) in
  if String.eqb s "once" then Ok Once
  else if String.eqb s "timed" then Ok Timed
  else if String.eqb s "session" then Ok Session
  else Err ("cache must be once, timed, or session (got '" +:+ s +:+ "')").

Definition cache_mode_str (m : CacheMode) : string :=
  match m with Once => "once" | Timed => "timed" | Session => "session" end.

Definition DEFAULT_TTL_MINUTES : Z := 10.
Definition MAX_TTL_MINUTES : Z := 120.
Definition IDLE_TIMEOUT : Z := from_secs (10 * 60).

Record CachedUnlock := mkCached {
  passphrase : string;
  mode : CacheMode;
  expires_at : option Z;
  last_used : Z;
}.

Abbreviation ring := (gmap string CachedUnlock).
Abbreviation rings := (gmap string ring).

Definition clamp (lo hi x : Z) : Z := Z.max lo (Z.min hi x).

Definition entry_alive (e : CachedUnlock) (now : Z) : bool :=
  if IDLE_TIMEOUT <? Z.max 0 (now - last_used e) then false
  else match expires_at e with
       | Some exp => negb (exp <=? now)
       | None => true
       end.

Definition put (now : Z) (session_token key_id pass : string) (m : CacheMode)
    (ttl_minutes : Z) (guard : rings) : rings :=
  if decide (m = Once) then guard else
  let ttl := clamp 1 MAX_TTL_MINUTES ttl_minutes in
  let entry := mkCached pass m
    (match m with
     | Timed => Some (now + from_secs (ttl * 60))
     | Session | Once => None
     end) now in
  let r := default ∅ (guard !! session_token) in
  <[session_token := <[key_id := entry]> r]> guard.

(** [ring.retain(|_, e| entry_alive(e, now))]. *)
Definition prune (now : Z) (r : ring) : ring :=
  filter (fun kv : string * CachedUnlock => entry_alive kv.2 now = true) r.

Definition get (now : Z) (session_token key_id : string) (guard : rings)
    : option string * rings :=
  match guard !! session_token with
  | None => (None, guard)
  | Some r =>
      let r := prune now r in
      match r !! key_id with
      | None => (None, <[session_token := r]> guard)
      | Some e =>
          let e' := mkCached (passphrase e) (mode e) (expires_at e) now in
          (Some (passphrase e), <[session_token := <[key_id := e']> r]> guard)
      end
  end.

Definition is_unlocked (now : Z) (session_token key_id : string) (guard : rings) : bool * rings :=
  let '(o, guard') := get now session_token key_id guard in (bool_decide (is_Some o), guard').

Definition lock (session_token : string) (key_id : option string) (guard : rings) : rings :=
  match key_id with
  | Some id =>
      match guard !! session_token with
      | None => guard
      | Some r =>
          let r := delete id r in
          if decide (r = ∅) then delete session_token guard
          else <[session_token := r]> guard
      end
  | None => delete session_token guard
  end.

(** Key ids, in the map's own order. *)
Definition unlocked_ids (now : Z) (session_token : string) (guard : rings)
    : list string * rings :=
  match guard !! session_token with
  | None => ([], guard)
  | Some r => let r := prune now r in ((map_to_list r).*1, <[session_token := r]> guard)
  end.

(** ** The entry of one key of one session *)

Definition entry (guard : rings) (s k : string) : option CachedUnlock :=
  guard !! s ≫= fun r => r !! k.

Lemma entry_put now s k p m ttl g s' k' :
  entry (put now s k p m ttl g) s' k' =
  if decide (m <> Once /\ s' = s /\ k' = k)
  then Some (mkCached p m
         (match m with Timed => Some (now + from_secs (clamp 1 MAX_TTL_MINUTES ttl * 60)) | _ => None end) now)
  else entry g s' k'.
Proof.
  unfold put. destruct (decide (m = Once)) as [->|Hm].
  { case_decide; [tauto|done]. }
  unfold entry.
  destruct (decide (s = s')) as [->|Hs]; simplify_map_eq.
  - destruct (decide (k = k')) as [->|Hk]; simplify_map_eq.
    + decide_all.
    + repeat case_decide; [naive_solver|]. by destruct (g !! s') as [r|]; simpl; simplify_map_eq.
  - decide_all.
Qed.

Lemma entry_prune now (r : ring) k :
  prune now r !! k = match r !! k with
                     | Some e => if entry_alive e now then Some e else None
                     | None => None
                     end.
Proof.
  unfold prune. rewrite map_lookup_filter. destruct (r !! k) as [e|]; simpl; [|done].
  case_guard as Hg; simpl in *; [by rewrite Hg|]. by destruct (entry_alive e now).
Qed.

(** A read answers the live passphrase, and keeps the absolute expiry. *)
Lemma get_value now s k g :
  (get now s k g).1 =
  match entry g s k with
  | Some e => if entry_alive e now then Some (passphrase e) else None
  | None => None
  end.
Proof.
  unfold get, entry. destruct (g !! s) as [r|]; simpl; [|done]. rewrite entry_prune.
  destruct (r !! k) as [e|]; [|done]. by destruct (entry_alive e now).
Qed.

Lemma entry_get now s k g s' k' :
  entry (get now s k g).2 s' k' = entry g s' k' \/
  entry (get now s k g).2 s' k' = None \/
  exists e, entry g s' k' = Some e /\ entry_alive e now = true /\
    entry (get now s k g).2 s' k' = Some (mkCached (passphrase e) (mode e) (expires_at e) now).
Proof.
  unfold get, entry. destruct (g !! s) as [r|] eqn:Hr; [|by left].
  pose proof (entry_prune now r) as Hp.
  destruct (decide (s = s')) as [<-|Hs].
  2:{ left. destruct (prune now r !! k); by simplify_map_eq. }
  rewrite Hr. simpl.
  destruct (prune now r !! k) as [e|] eqn:Hk; simplify_map_eq; simpl.
  - destruct (decide (k = k')) as [<-|Hkk]; simplify_map_eq.
    + rewrite Hp in Hk. destruct (r !! k) as [e'|]; [|done].
      destruct (entry_alive e' now) eqn:Ha; [|done]. simplify_eq.
      right; right. exists e. simplify_map_eq. done.
    + rewrite Hp. destruct (r !! k') as [e'|]; [|by left]. destruct (entry_alive e' now); auto.
  - rewrite Hp. destruct (r !! k') as [e'|]; [|by left]. destruct (entry_alive e' now); auto.
Qed.

Lemma entry_lock s k g s' k' :
  entry (lock s k g) s' k' =
  if decide (s' = s /\ (k = None \/ k = Some k')) then None else entry g s' k'.
Proof.
  unfold lock, entry. destruct k as [id|].
  - destruct (g !! s) as [r|] eqn:Hr.
    2:{ case_decide as Hd; [|done]. destruct Hd as [-> _]. by rewrite Hr. }
    destruct (decide (s = s')) as [<-|Hs].
    + rewrite Hr. simpl. case_decide as He; simplify_map_eq; simpl.
      * case_decide as Hd; [done|].
        assert (Hk : delete id r !! k' = None) by (rewrite He; apply lookup_empty).
        destruct (decide (id = k')) as [->|]; [naive_solver|].
        by rewrite lookup_delete_ne in Hk.
      * destruct (decide (id = k')) as [->|Hk]; simplify_map_eq.
        -- decide_all.
        -- decide_all.
    + repeat case_decide; simplify_map_eq; naive_solver.
  - destruct (decide (s = s')) as [<-|Hs]; simplify_map_eq.
    + decide_all.
    + decide_all.
Qed.

(** ** Runs of the ring *)

Inductive op :=
  | OPut (session_token key_id pass : string) (m : CacheMode) (ttl_minutes : Z)
  | OGet (session_token key_id : string)
  | OLock (session_token : string) (key_id : option string)
  | OIds (session_token : string).

Definition exec (now : Z) (o : op) (g : rings) : rings :=
  match o with
  | OPut s k p m ttl => put now s k p m ttl g
  | OGet s k => (get now s k g).2
  | OLock s k => lock s k g
  | OIds s => (unlocked_ids now s g).2
  end.

Fixpoint run (tr : list (Z * op)) (g : rings) : rings :=
  match tr with [] => g | (now, o) :: tr' => run tr' (exec now o g) end.

Definition is_put (s k : string) (o : op) : bool :=
  match o with OPut s' k' _ _ _ => String.eqb s s' && String.eqb k k' | _ => false end.

Lemma entry_ids now s g s' k' :
  entry (unlocked_ids now s g).2 s' k' = entry g s' k' \/ entry (unlocked_ids now s g).2 s' k' = None.
Proof.
  unfold unlocked_ids, entry. destruct (g !! s) as [r|] eqn:Hr; [|by left]. simpl.
  destruct (decide (s = s')) as [<-|Hs]; simplify_map_eq; [|by left]. simpl.
  rewrite entry_prune. destruct (r !! k') as [e|]; [|by left]. destruct (entry_alive e now); auto.
Qed.

(** Only a new [put] of the same key can change an entry's absolute expiry or
    passphrase; every other operation keeps or drops the entry. *)
Lemma exec_entry now o g s k e' :
  is_put s k o = false -> entry (exec now o g) s k = Some e' ->
  exists e, entry g s k = Some e /\ expires_at e = expires_at e' /\ passphrase e = passphrase e'.
Proof.
  intros Hp He. destruct o as [s0 k0 p m ttl|s0 k0|s0 k0|s0]; simpl in *.
  - rewrite entry_put in He. rewrite decide_False in He; [eauto|].
    intros (_ & -> & ->). by rewrite !String.eqb_refl in Hp.
  - destruct (entry_get now s0 k0 g s k) as [H|[H|(e & H1 & _ & H2)]]; rewrite ?H, ?H2 in He.
    + eauto.
    + done.
    + simplify_eq. eauto.
  - rewrite entry_lock in He. case_decide; [done|eauto].
  - destruct (entry_ids now s0 g s k) as [H|H]; rewrite H in He; [eauto|done].
Qed.

Lemma run_entry tr : forall g s k e',
  Forall (fun x : Z * op => is_put s k x.2 = false) tr -> entry (run tr g) s k = Some e' ->
  exists e, entry g s k = Some e /\ expires_at e = expires_at e' /\ passphrase e = passphrase e'.
Proof.
  induction tr as [|[now o] tr IH]; intros g s k e' Hf He; simpl in *; [eauto|].
  apply Forall_cons in Hf as [Hp Hf]. simpl in Hp.
  destruct (IH _ _ _ _ Hf He) as (e1 & H1 & H2 & H3).
  destruct (exec_entry _ _ _ _ _ _ Hp H1) as (e & ? & ? & ?). exists e. repeat split; congruence.
Qed.

(** ** Properties *)

Lemma expired_not_alive e now exp :
  expires_at e = Some exp -> exp <= now -> entry_alive e now = false.
Proof.
  intros He Hle. unfold entry_alive. rewrite He.
  destruct (_ <? _); [done|]. by apply Z.leb_le in Hle as ->.
Qed.

(** A passphrase cached in timed mode is never answered again once its
    time-to-live (at most 120 minutes, whatever was asked for) is over, however
    often it was read, listed or locked in between, unless the same key is put
    again. *)
Theorem timed_unlock_expires g s k p ttl t0 tr now :
  Forall (fun x : Z * op => is_put s k x.2 = false) tr ->
  t0 + from_secs (clamp 1 MAX_TTL_MINUTES ttl * 60) <= now ->
  (get now s k (run tr (put t0 s k p Timed ttl g))).1 = None
  /\ clamp 1 MAX_TTL_MINUTES ttl <= 120.
Proof.
  intros Htr Hnow. split; [|unfold clamp, MAX_TTL_MINUTES; lia]. rewrite get_value.
  destruct (entry _ s k) as [e|] eqn:He; [|done].
  destruct (run_entry _ _ _ _ _ Htr He) as (e0 & H0 & Hexp & _).
  rewrite entry_put, decide_True in H0 by done. injection H0 as <-. simpl in Hexp.
  by rewrite (expired_not_alive e now _ (eq_sym Hexp) Hnow).
Qed.

Definition demo_trace : list (Z * op) :=
  [(from_secs 60, OGet "tok" "key"); (from_secs 500, OIds "tok"); (from_secs 590, OGet "tok" "key")].

Lemma timed_unlock_expires_witness :
  (get (from_secs 300) "tok" "key" (put 0 "tok" "key" "pw" Timed 10 ∅)).1 = Some "pw"
  /\ (get (from_secs 600) "tok" "key" (run demo_trace (put 0 "tok" "key" "pw" Timed 10 ∅))).1 = None
  /\ clamp 1 MAX_TTL_MINUTES 10 <= 120.
Proof.
  split; [vm_compute; reflexivity|].
  apply (timed_unlock_expires ∅ "tok" "key" "pw" 10 0 demo_trace (from_secs 600)).
  - repeat constructor.
  - vm_compute. discriminate.
Defined.

(** Locking a key, or a whole session ring as logout does, forgets the
    passphrase: until the same key of the same session is put again no read
    answers it; and locking leaves every other session's entries as they were. *)
Theorem lock_forgets g s k ok tr now :
  ok = None \/ ok = Some k ->
  Forall (fun x : Z * op => is_put s k x.2 = false) tr ->
  (get now s k (run tr (lock s ok g))).1 = None
  /\ forall s' k', s' <> s -> entry (lock s ok g) s' k' = entry g s' k'.
Proof.
  intros Hok Htr. split.
  - rewrite get_value. destruct (entry (run tr _) s k) as [e|] eqn:He; [|done].
    destruct (run_entry _ _ _ _ _ Htr He) as (e0 & H0 & _).
    rewrite entry_lock, decide_True in H0 by naive_solver. done.
  - intros s' k' Hs. rewrite entry_lock. by rewrite decide_False by naive_solver.
Qed.

Lemma lock_forgets_witness :
  (get 5 "tok" "key" (run [(3, OGet "tok" "key")] (lock "tok" None
     (put 1 "tok" "key" "pw" Session 10 ∅)))).1 = None
  /\ forall s' k', s' <> "tok" ->
     entry (lock "tok" None (put 1 "tok" "key" "pw" Session 10 ∅)) s' k'
     = entry (put 1 "tok" "key" "pw" Session 10 ∅) s' k'.
Proof.
  apply (lock_forgets (put 1 "tok" "key" "pw" Session 10 ∅) "tok" "key" None [(3, OGet "tok" "key")] 5).
  - by left.
  - repeat constructor.
Defined.
