(* ===== verification/World.v ===== *)
(** * Users, accounts and data-encryption keys ([auth/db.rs], [auth/dek.rs],
    [auth/state.rs])

    The tables [lyra_user] and [mail_account] as lists of rows (only the columns
    the modelled code reads or writes), the world the auth handlers run in, and
    the per-user key hierarchy with the rotation of legacy secrets.  Ids bind as
    text (the SQLite dialect).  Every statement fails when the database is down. *)
From S2P Require Import Prelude Kv Crypto UnlockRing.
Local Open Scope string_scope.
Local Open Scope Z_scope.

(** [entities/lyra_user.rs]. *)
Record LyraUser := mkUser {
  u_id : string;
  u_username : string;
  u_password_hash : string;
  u_totp_secret : option string;
  u_totp_enabled : bool;
  u_display_name : option string;
  u_locale : string;
  u_encrypted_dek : option string;
  u_sess_epoch : Z;
  u_mark_read_policy : string;
  u_ui_state : option string;
}.

(** [entities/mail_account.rs]: the columns read here. *)
Record MailAccount := mkAccount {
  a_id : string;
  a_user_id : string;
  a_credential : string;
  a_send_protocol : string;
  a_is_active : bool;
  a_sync_enabled : bool;
}.

Record world (K R : Type) := mkWorld {
  w_now : Z;                    (* nanoseconds since the Unix epoch *)
  w_kv : K;
  w_rng : R;
  w_users : list LyraUser;
  w_accounts : list MailAccount;
  w_db_up : bool;
  w_unlock : rings;
  w_master : option string;     (* the process-wide master key cell *)
}.
Arguments mkWorld {K R}.
Arguments w_now {K R}. Arguments w_kv {K R}. Arguments w_rng {K R}.
Arguments w_users {K R}. Arguments w_accounts {K R}. Arguments w_db_up {K R}.
Arguments w_unlock {K R}. Arguments w_master {K R}.

Section Setters.
Context {K R : Type}.
Implicit Types w : world K R.
Definition set_kv s w : world K R :=
  mkWorld (w_now w) s (w_rng w) (w_users w) (w_accounts w) (w_db_up w) (w_unlock w) (w_master w).
Definition set_rng r w : world K R :=
  mkWorld (w_now w) (w_kv w) r (w_users w) (w_accounts w) (w_db_up w) (w_unlock w) (w_master w).
Definition set_users u w : world K R :=
  mkWorld (w_now w) (w_kv w) (w_rng w) u (w_accounts w) (w_db_up w) (w_unlock w) (w_master w).
Definition set_accounts a w : world K R :=
  mkWorld (w_now w) (w_kv w) (w_rng w) (w_users w) a (w_db_up w) (w_unlock w) (w_master w).
Definition set_unlock u w : world K R :=
  mkWorld (w_now w) (w_kv w) (w_rng w) (w_users w) (w_accounts w) (w_db_up w) u (w_master w).
Definition set_now t w : world K R :=
  mkWorld t (w_kv w) (w_rng w) (w_users w) (w_accounts w) (w_db_up w) (w_unlock w) (w_master w).
End Setters.

#[export] Instance world_rng {K R} `{HasRng R} : HasRng (world K R) :=
  fun n w => let '(b, r) := fill_bytes n (w_rng w) in (b, set_rng r w).
#[export] Instance world_rng_laws {K R} `{HasRng R} `{!RngLaws R} : RngLaws (world K R).
Proof.
  intros n w. unfold fill_bytes, world_rng. pose proof (fill_bytes_length n (w_rng w)) as Hl.
  by destruct (fill_bytes n (w_rng w)).
Qed.

Section Dek.
Context {K R : Type} `{HasRng R} `{CryptoLib}.
Local Abbreviation W := (world K R).

(** ** Master key cell ([install_master_key], [master_key]) *)

Definition install_master_key (key : string) (w : W) : W :=
  match w_master w with
  | Some _ => w                                     (* the first install wins *)
  | None => mkWorld (w_now w) (w_kv w) (w_rng w) (w_users w) (w_accounts w)
              (w_db_up w) (w_unlock w) (Some key)
  end.
Definition master_key : io W CryptoError.t string :=
  fun w => (ok_or CryptoError.MasterKeyNotInitialized (w_master w), w).

(** ** Statements *)

Definition db_down : CryptoError.t := CryptoError.Storage "database unavailable".

Definition find_user (user_id : string) (us : list LyraUser) : option LyraUser :=
  List.find (fun u => String.eqb (u_id u) user_id) us.
(** [UPDATE lyra_user SET ... WHERE id = ?]. *)
Definition update_user (user_id : string) (f : LyraUser -> LyraUser) (us : list LyraUser)
    : list LyraUser :=
  map (fun u => if String.eqb (u_id u) user_id then f u else u) us.

Definition set_dek (d : string) (u : LyraUser) : LyraUser :=
  mkUser (u_id u) (u_username u) (u_password_hash u) (u_totp_secret u) (u_totp_enabled u)
    (u_display_name u) (u_locale u) (Some d) (u_sess_epoch u) (u_mark_read_policy u) (u_ui_state u).
Definition set_totp (secret : option string) (enabled : bool) (u : LyraUser) : LyraUser :=
  mkUser (u_id u) (u_username u) (u_password_hash u) secret enabled
    (u_display_name u) (u_locale u) (u_encrypted_dek u) (u_sess_epoch u) (u_mark_read_policy u)
    (u_ui_state u).
Definition set_credential (c : string) (a : MailAccount) : MailAccount :=
  mkAccount (a_id a) (a_user_id a) c (a_send_protocol a) (a_is_active a) (a_sync_enabled a).

Definition fetch_encrypted_dek (user_id : string) : io W CryptoError.t string :=
  fun w => if negb (w_db_up w) then (Err db_down, w) else
    (ok_or CryptoError.MissingDek (find_user user_id (w_users w) ≫= u_encrypted_dek), w).

Definition lacks_dek (user_id : string) (u : LyraUser) : bool :=
  String.eqb (u_id u) user_id && bool_decide (u_encrypted_dek u = None).
Definition store_dek (user_id wrapped : string) (us : list LyraUser) : list LyraUser :=
  map (fun u => if lacks_dek user_id u then set_dek wrapped u else u) us.

(** The user exists and has no key yet: write it; answers the rows affected. *)
Definition store_wrapped_dek_if_missing (user_id wrapped : string) : io W CryptoError.t nat :=
  fun w => if negb (w_db_up w) then (Err db_down, w) else
    (Ok (length (List.filter (lacks_dek user_id) (w_users w))),
     set_users (store_dek user_id wrapped (w_users w)) w).

(** [(id, credential)] of the user's accounts. *)
Definition account_rows (user_id : string) (accs : list MailAccount) : list (string * string) :=
  map (fun a => (a_id a, a_credential a))
    (List.filter (fun a => String.eqb (a_user_id a) user_id) accs).

Definition fetch_account_credentials (user_id : string)
    : io W CryptoError.t (list (string * string)) :=
  fun w => if negb (w_db_up w) then (Err db_down, w) else
    (Ok (account_rows user_id (w_accounts w)), w).

Definition update_account_credential (account_id credential : string)
    : io W CryptoError.t unit :=
  fun w => if negb (w_db_up w) then (Err db_down, w) else
    (Ok tt, set_accounts
       (map (fun a => if String.eqb (a_id a) account_id then set_credential credential a else a)
          (w_accounts w)) w).

(** ** Rotation of secrets stored under the padded master key *)

Definition encrypt_totp_secret (dek secret_base32 : string) : io W CryptoError.t string :=
  let! encrypted := encrypt dek secret_base32 in ret (cred_to_json encrypted).

Definition decrypt_totp_secret (dek stored : string) : result CryptoError.t string :=
  match cred_of_json stored with
  | None => Err (CryptoError.Decrypt "stored TOTP secret is not an encrypted blob")
  | Some encrypted =>
      let? bytes := decrypt dek encrypted in
      if utf8_valid bytes then Ok bytes
      else Err (CryptoError.Decrypt "TOTP secret is not valid UTF-8")
  end.

Fixpoint rotate_accounts (dek master : string) (accounts : list (string * string))
    : io W CryptoError.t unit :=
  match accounts with
  | [] => ret tt
  | (account_id, credential) :: rest =>
      match cred_of_json credential with
      | None => rotate_accounts dek master rest
      | Some blob =>
          match try_decrypt_with_legacy_keys blob master with
          | None => rotate_accounts dek master rest
          | Some plaintext =>
              let! rotated := encrypt dek plaintext in
              let! _ := update_account_credential account_id (cred_to_json rotated) in
              rotate_accounts dek master rest
          end
      end
  end.

Definition rotate_legacy_totp_secret (user_id dek master : string) : io W CryptoError.t unit :=
  let! up := gets w_db_up in
  let! _ := ensure up db_down in
  let! us := gets w_users in
  match find_user user_id us ≫= u_totp_secret with
  | None => ret tt
  | Some stored =>
      let plaintext :=
        match cred_of_json stored with
        | Some blob => option_map from_utf8_lossy (try_decrypt_with_legacy_keys blob master)
        | None => Some stored
        end in
      match plaintext with
      | None => ret tt
      | Some pt =>
          let! rotated := encrypt_totp_secret dek pt in
          modify (fun w => set_users
            (update_user user_id (fun u => set_totp (Some rotated) (u_totp_enabled u) u)
               (w_users w)) w)
      end
  end.

Definition rotate_legacy_secrets (user_id dek : string) : io W CryptoError.t unit :=
  let! master := master_key in
  let! accounts := fetch_account_credentials user_id in
  let! _ := rotate_accounts dek master accounts in
  rotate_legacy_totp_secret user_id dek master.

Definition provision_and_rotate_legacy_dek (user_id kek : string) : io W CryptoError.t string :=
  let! dek := generate_key in
  let! wrapped := wrap_dek kek dek in
  let! wrote := store_wrapped_dek_if_missing user_id wrapped in
  if (wrote =? 0)%nat then
    let! existing := fetch_encrypted_dek user_id in
    lift (unwrap_dek kek existing)
  else
    let! _ := rotate_legacy_secrets user_id dek in
    ret dek.

(** ** [AuthState::get_user_dek] *)

Definition get_user_dek (user_id : string) : io W CryptoError.t string :=
  let! master := master_key in
  let kek := derive_user_kek master user_id in
  let! stored := attempt (fetch_encrypted_dek user_id) in
  match stored with
  | Ok wrapped => lift (unwrap_dek kek wrapped)
  | Err CryptoError.MissingDek => provision_and_rotate_legacy_dek user_id kek
  | Err e => throw e
  end.

Definition get_user_dek_and_credential (user_id account_id : string)
    : io W CryptoError.t (string * string) :=
  let! dek := get_user_dek user_id in
  let! up := gets w_db_up in
  let! _ := ensure up db_down in
  let! accs := gets w_accounts in
  match List.find (fun a => String.eqb (a_id a) account_id && String.eqb (a_user_id a) user_id) accs with
  | Some a => ret (dek, a_credential a)
  | None => throw (CryptoError.Storage "mail account not found while loading credentials")
  end.

End Dek.

(** ** Lemmas *)

Section DekLemmas.
Context {K R : Type} `{HasRng R} `{!RngLaws R} `{!CryptoLib} `{!CryptoLaws}.
Local Abbreviation W := (world K R).
Implicit Types w : W.

Lemma draw_world {E} n w :
  exists b g, draw (E := E) n w = (Ok b, set_rng g w) /\ String.length b = n.
Proof.
  unfold draw, fill_bytes, world_rng. pose proof (fill_bytes_length n (w_rng w)) as Hl.
  destruct (fill_bytes n (w_rng w)) as [b g]. eauto.
Qed.

(** Sealing touches nothing but the random source. *)
Lemma encrypt_world key pt w :
  String.length key = 32%nat ->
  exists enc g, encrypt key pt w = (Ok enc, set_rng g w) /\ decrypt key enc = Ok pt.
Proof.
  intros Hk. unfold encrypt, decrypt. rewrite Hk. simpl.
  destruct (draw_world (E := CryptoError.t) 12 w) as (n & g & Hd & Hn).
  rewrite (bind_step _ _ _ _ _ Hd).
  destruct (aes_roundtrip key n pt Hk Hn) as (c & Hc & Ho). rewrite Hc.
  eexists _, _. split; [done|]. simpl. by rewrite !b64_roundtrip, Hn, Ho.
Qed.

Lemma wrap_world kek dek w :
  String.length kek = 32%nat ->
  exists j g, wrap_dek kek dek w = (Ok j, set_rng g w) /\ unwrap_dek kek j = Ok dek.
Proof.
  intros Hk. destruct (encrypt_world kek dek w Hk) as (enc & g & He & Hd).
  exists (cred_to_json enc), g. unfold wrap_dek, unwrap_dek.
  by rewrite (bind_step _ _ _ _ _ He), json_roundtrip.
Qed.

(** The plaintext a stored credential had under the pre-DEK scheme. *)
Definition legacy_plain (master credential : string) : option string :=
  cred_of_json credential ≫= fun blob => try_decrypt_with_legacy_keys blob master.

(** What rotation may do to one account: those of [ids] that opened under a
    legacy key are re-sealed under [dek], every other one is untouched. *)
Definition rotated (master dek : string) (ids : list string) (a a' : MailAccount) : Prop :=
  match legacy_plain master (a_credential a) with
  | Some pt =>
      if bool_decide (a_id a ∈ ids)
      then exists enc, a' = set_credential (cred_to_json enc) a /\ decrypt dek enc = Ok pt
      else a' = a
  | None => a' = a
  end.

Lemma rotated_id m d ids a a' : rotated m d ids a a' -> a_id a' = a_id a.
Proof.
  unfold rotated. destruct legacy_plain; [|by intros ->].
  case_bool_decide; [by intros (enc & -> & _)|by intros ->].
Qed.

Lemma rotated_nil m d (l : list MailAccount) : Forall2 (rotated m d []) l l.
Proof.
  induction l as [|a l IH]; constructor; [|done].
  unfold rotated. destruct legacy_plain; [|done]. by case_bool_decide; [set_solver|].
Qed.

(** Only the accounts and the random source differ. *)
Definition frame w w' : Prop :=
  exists g accs, w' = set_rng g (set_accounts accs w).

Lemma update_credential_run i c w :
  w_db_up w = true ->
  update_account_credential i c w =
  (Ok tt, set_accounts ((fun a => if String.eqb (a_id a) i then set_credential c a else a)
                        <$> w_accounts w) w).
Proof. intros Hup. unfold update_account_credential. by rewrite Hup. Qed.

Lemma rotate_accounts_spec master dek l : forall w,
  String.length dek = 32%nat -> w_db_up w = true -> NoDup l.*1 ->
  Forall (fun a => forall c, (a_id a, c) ∈ l -> c = a_credential a) (w_accounts w) ->
  exists w', rotate_accounts dek master l w = (Ok tt, w') /\ frame w w'
    /\ Forall2 (rotated master dek l.*1) (w_accounts w) (w_accounts w').
Proof.
  induction l as [|[i c] l IH]; intros w Hk Hup Hnd Hc; cbn [rotate_accounts].
  { exists w. split; [done|]. split; [|apply rotated_nil]. by exists (w_rng w), (w_accounts w); destruct w. }
  rewrite fmap_cons in Hnd |- *. cbn [fst] in *. apply NoDup_cons in Hnd as [Hni Hnd].
  assert (Hstep : forall w1 f,
    w_accounts w1 = f <$> w_accounts w -> frame w w1 -> w_db_up w1 = true ->
    (forall a, a ∈ w_accounts w -> rotated master dek [i] a (f a)) ->
    exists w', rotate_accounts dek master l w1 = (Ok tt, w') /\ frame w w'
      /\ Forall2 (rotated master dek (i :: l.*1)) (w_accounts w) (w_accounts w')).
  { intros w1 f Hf Hfr Hup1 Hrot.
    destruct (IH w1 Hk Hup1 Hnd) as (w' & Hr & Hfr' & Hall).
    { rewrite Hf. apply Forall_fmap, Forall_forall. intros a Ha c' Hc'. simpl in Hc'.
      pose proof (Hrot a Ha) as Hra. rewrite (rotated_id _ _ _ _ _ Hra) in Hc'.
      assert (a_id a <> i) as Hne.
      { intros Heq. apply Hni. apply list_elem_of_fmap. exists (a_id a, c'). by rewrite Heq in *. }
      unfold rotated in Hra. destruct legacy_plain as [pt|].
      - rewrite bool_decide_false in Hra by set_solver. rewrite Hra.
        rewrite Forall_forall in Hc. apply (Hc a Ha). set_solver.
      - rewrite Hra. rewrite Forall_forall in Hc. apply (Hc a Ha). set_solver. }
    exists w'. split; [done|]. split.
    { destruct Hfr as (g & ac & ->), Hfr' as (g' & ac' & ->). by exists g', ac'. }
    rewrite Hf in Hall. apply (Forall2_fmap_l f) in Hall.
    eapply Forall2_impl_elem; [exact Hall|]. intros a a' Ha Hra'.
    pose proof (Hrot a Ha) as Hra. change (rotated master dek l.*1 (f a) a') in Hra'. unfold rotated in Hra, Hra' |- *.
    destruct (decide (a_id a = i)) as [Heq|Hne].
    - destruct (legacy_plain master (a_credential a)) as [pt|] eqn:Hl.
      + rewrite bool_decide_true in Hra by set_solver.
        rewrite bool_decide_true by set_solver. destruct Hra as (enc & Hfa & Hd).
        exists enc. split; [|done]. rewrite Hfa in Hra'. simpl in Hra'.
        destruct legacy_plain; [|done]. by rewrite bool_decide_false in Hra' by set_solver.
      + rewrite Hra, Hl in Hra'. done.
    - destruct (legacy_plain master (a_credential a)) as [pt|] eqn:Hl.
      + rewrite bool_decide_false in Hra by set_solver. rewrite Hra, Hl in Hra'.
        destruct (decide (a_id a ∈ l.*1)).
        * rewrite bool_decide_true in Hra' by done. by rewrite bool_decide_true by set_solver.
        * rewrite bool_decide_false in Hra' by done. by rewrite bool_decide_false by set_solver.
      + rewrite Hra, Hl in Hra'. done. }
  assert (Hother : forall a, a_id a <> i -> rotated master dek [i] a a).
  { intros a Hne. unfold rotated. destruct legacy_plain; [|done].
    by rewrite bool_decide_false by set_solver. }
  assert (Hplain : forall a, a ∈ w_accounts w -> a_id a = i ->
            legacy_plain master (a_credential a) = legacy_plain master c).
  { intros a Ha Hi. rewrite Forall_forall in Hc. specialize (Hc a Ha c). rewrite Hc; [done|set_solver]. }
  assert (Hskip : legacy_plain master c = None ->
    exists w', rotate_accounts dek master l w = (Ok tt, w') /\ frame w w'
      /\ Forall2 (rotated master dek (i :: l.*1)) (w_accounts w) (w_accounts w')).
  { intros Hn. apply (Hstep w id); [by rewrite list_fmap_id|exists (w_rng w), (w_accounts w); by destruct w|done|].
    intros a Ha. destruct (decide (a_id a = i)) as [Heq|Hne]; [|by apply Hother].
    unfold rotated. by rewrite (Hplain a Ha Heq), Hn. }
  unfold legacy_plain in Hskip.
  destruct (cred_of_json c) as [blob|] eqn:Hj; [|by apply Hskip]. simpl in Hskip.
  destruct (try_decrypt_with_legacy_keys blob master) as [pt|] eqn:Ht; [|by apply Hskip].
  destruct (encrypt_world dek pt w Hk) as (enc & g & He & Hd).
  rewrite (bind_step _ _ _ _ _ He), (bind_step _ _ _ _ _ (update_credential_run i _ (set_rng g w) Hup)).
  apply Hstep with (f := fun a => if String.eqb (a_id a) i then set_credential (cred_to_json enc) a else a);
    [done|by eexists _, _|done|].
  intros a Ha. destruct (String.eqb_spec (a_id a) i) as [Heq|Hne]; [|by apply Hother].
  unfold rotated. rewrite (Hplain a Ha Heq). unfold legacy_plain. rewrite Hj. simpl. rewrite Ht.
  rewrite bool_decide_true by set_solver. eauto.
Qed.

Lemma find_user_map id (f : LyraUser -> LyraUser) us :
  (forall u, u_id (f u) = u_id u) ->
  find_user id (map f us) = option_map f (find_user id us).
Proof.
  intros Hf. unfold find_user. induction us as [|u us IH]; simpl; [done|].
  rewrite Hf. by destruct (String.eqb (u_id u) id).
Qed.

Lemma find_user_id id us u : find_user id us = Some u -> u_id u = id /\ u ∈ us.
Proof.
  intros [Hin Heq]%find_Some_In. split; [by apply String.eqb_eq|by apply list_elem_of_In].
Qed.

Lemma find_user_update id f us :
  (forall u, u_id (f u) = u_id u) ->
  find_user id (update_user id f us) = option_map f (find_user id us).
Proof.
  intros Hf. unfold update_user. rewrite find_user_map.
  - destruct (find_user id us) as [u|] eqn:Hu; [|done]. simpl.
    apply find_user_id in Hu as [-> _]. by rewrite String.eqb_refl.
  - intros u. by destruct (String.eqb (u_id u) id).
Qed.

(** The base32 secret a stored TOTP column stood for before rotation. *)
Definition totp_plain (master stored : string) : option string :=
  match cred_of_json stored with
  | Some blob => option_map from_utf8_lossy (try_decrypt_with_legacy_keys blob master)
  | None => Some stored
  end.

Definition sealed (dek j pt : string) : Prop :=
  exists enc, cred_of_json j = Some enc /\ decrypt dek enc = Ok pt.

Lemma rotate_totp_spec id dek m w :
  String.length dek = 32%nat -> w_db_up w = true ->
  exists g us, rotate_legacy_totp_secret id dek m w = (Ok tt, set_rng g (set_users us w)) /\
  match (find_user id (w_users w) ≫= u_totp_secret) ≫= totp_plain m with
  | None => us = w_users w
  | Some pt => exists j, sealed dek j pt /\
      us = update_user id (fun u => set_totp (Some j) (u_totp_enabled u) u) (w_users w)
  end.
Proof.
  intros Hk Hup. unfold rotate_legacy_totp_secret, ensure, gets, bind. rewrite Hup. simpl.
  assert (Hid : w = set_rng (w_rng w) (set_users (w_users w) w)) by by destruct w.
  destruct (find_user id (w_users w) ≫= u_totp_secret) as [st|]; simpl;
    [|by exists (w_rng w), (w_users w); rewrite <-Hid].
  fold (totp_plain m st). destruct (totp_plain m st) as [pt|];
    [|by exists (w_rng w), (w_users w); rewrite <-Hid].
  destruct (encrypt_world dek pt w Hk) as (enc & g & He & Hd).
  unfold encrypt_totp_secret, bind. rewrite He. simpl. eexists g, _. split; [by destruct w|].
  exists (cred_to_json enc). split; [|done]. exists enc. by rewrite json_roundtrip.
Qed.

Lemma fetch_run id w :
  w_db_up w = true ->
  fetch_encrypted_dek id w =
  (ok_or CryptoError.MissingDek (find_user id (w_users w) ≫= u_encrypted_dek), w).
Proof. intros Hup. unfold fetch_encrypted_dek. by rewrite Hup. Qed.

(** A stored key is answered as it is, and nothing changes. *)
Lemma get_user_dek_stored id m u j dek w :
  w_db_up w = true -> w_master w = Some m ->
  find_user id (w_users w) = Some u -> u_encrypted_dek u = Some j ->
  unwrap_dek (derive_user_kek m id) j = Ok dek ->
  get_user_dek id w = (Ok dek, w).
Proof.
  intros Hup Hm Hu Hj Hd. unfold get_user_dek, master_key, attempt, bind. rewrite Hm. simpl.
  rewrite fetch_run, Hu by done. simpl. rewrite Hj. simpl. unfold lift. by rewrite Hd.
Qed.

Lemma store_run id wrapped w :
  w_db_up w = true ->
  store_wrapped_dek_if_missing id wrapped w =
  (Ok (length (List.filter (lacks_dek id) (w_users w))), set_users (store_dek id wrapped (w_users w)) w).
Proof. intros Hup. unfold store_wrapped_dek_if_missing. by rewrite Hup. Qed.

Lemma fetch_accounts_run id w :
  w_db_up w = true ->
  fetch_account_credentials id w = (Ok (account_rows id (w_accounts w)), w).
Proof. intros Hup. unfold fetch_account_credentials. by rewrite Hup. Qed.

Lemma store_hits id us u :
  find_user id us = Some u -> u_encrypted_dek u = None ->
  (length (List.filter (lacks_dek id) us) =? 0)%nat = false.
Proof.
  intros Hu Hd. apply find_user_id in Hu as [Hi Hin]. apply Nat.eqb_neq.
  assert (u ∈ List.filter (lacks_dek id) us) as Hf.
  { apply list_elem_of_In, List.filter_In. split; [by apply list_elem_of_In|].
    unfold lacks_dek. by rewrite Hi, String.eqb_refl, bool_decide_true. }
  intros Hz. apply length_zero_iff_nil in Hz. rewrite Hz in Hf. set_solver.
Qed.

Lemma account_rows_NoDup id (l : list MailAccount) :
  NoDup (a_id <$> l) -> NoDup (account_rows id l).*1.
Proof.
  unfold account_rows. induction l as [|a l IH]; simpl; [constructor|].
  intros [Hni Hnd]%NoDup_cons. destruct (String.eqb _ _); simpl; [|by apply IH].
  constructor; [|by apply IH]. intros (x & Hx & Hin)%list_elem_of_fmap. apply Hni.
  apply list_elem_of_In, in_map_iff in Hin as (b & <- & Hb). simpl in Hx.
  apply List.filter_In in Hb as [Hb _]. rewrite Hx. apply list_elem_of_fmap. exists b.
  split; [done|]. by apply list_elem_of_In.
Qed.

Lemma same_id (l : list MailAccount) a b :
  NoDup (a_id <$> l) -> a ∈ l -> b ∈ l -> a_id a = a_id b -> a = b.
Proof.
  intros Hnd Ha Hb Heq. apply list_elem_of_lookup in Ha as [n1 Hn1], Hb as [n2 Hn2].
  assert (n1 = n2) as ->; [|congruence].
  apply (NoDup_lookup (a_id <$> l) n1 n2 (a_id a) Hnd); rewrite list_lookup_fmap.
  - by rewrite Hn1.
  - rewrite Hn2. simpl. congruence.
Qed.

Lemma account_rows_elem id l i c :
  (i, c) ∈ account_rows id l <->
  exists a, a ∈ l /\ a_user_id a = id /\ i = a_id a /\ c = a_credential a.
Proof.
  unfold account_rows. rewrite list_elem_of_In, in_map_iff. split.
  - intros (a & Heq & [Hin Hown]%List.filter_In). exists a. apply String.eqb_eq in Hown.
    rewrite list_elem_of_In. naive_solver.
  - intros (a & Hin & Hown & -> & ->). exists a. split; [done|]. apply List.filter_In.
    split; [by apply list_elem_of_In|by apply String.eqb_eq].
Qed.

Lemma account_rows_functional id (l : list MailAccount) :
  NoDup (a_id <$> l) ->
  Forall (fun a => forall c, (a_id a, c) ∈ account_rows id l -> c = a_credential a) l.
Proof.
  intros Hnd. apply Forall_forall. intros a Ha c (b & Hb & _ & Hid & ->)%account_rows_elem.
  by rewrite (same_id l a b).
Qed.

(** What an account of the user, or of somebody else, becomes. *)
Definition resealed (master dek user_id : string) (a a' : MailAccount) : Prop :=
  match legacy_plain master (a_credential a) with
  | Some pt =>
      if String.eqb (a_user_id a) user_id
      then exists j, a' = set_credential j a /\ sealed dek j pt
      else a' = a
  | None => a' = a
  end.

Lemma rotated_resealed m dek id (l l' : list MailAccount) :
  NoDup (a_id <$> l) ->
  Forall2 (rotated m dek (account_rows id l).*1) l l' -> Forall2 (resealed m dek id) l l'.
Proof.
  intros Hnd Hall. eapply Forall2_impl_elem; [exact Hall|].
  intros a a' Ha. unfold rotated, resealed. destruct (legacy_plain m (a_credential a)) as [pt|]; [|done].
  assert (Hids : a_id a ∈ (account_rows id l).*1 <-> a_user_id a = id).
  { rewrite list_elem_of_fmap. split.
    - intros ([i c] & Hi & (b & Hb & Hown & -> & ->)%account_rows_elem). simpl in Hi.
      by rewrite (same_id l a b).
    - intros Hown. exists (a_id a, a_credential a). split; [done|].
      apply account_rows_elem. eauto. }
  case_bool_decide as Hb.
  - rewrite (proj2 (String.eqb_eq _ _) (proj1 Hids Hb)). intros (enc & -> & Hd).
    exists (cred_to_json enc). split; [done|]. exists enc. by rewrite json_roundtrip.
  - destruct (String.eqb_spec (a_user_id a) id); [tauto|done].
Qed.

(** The first key lookup of a user who has none mints a 32-byte key that every
    later lookup answers without changing anything, and re-seals under it exactly
    the secrets stored under the old scheme: each mail credential of that user
    that opened under a legacy key, and the TOTP secret (legacy-sealed or bare),
    now open under the new key to the same plaintext; all other accounts are left
    as they were. *)
Theorem get_user_dek_provisions id m u w :
  w_db_up w = true -> w_master w = Some m ->
  find_user id (w_users w) = Some u -> u_encrypted_dek u = None ->
  NoDup (a_id <$> w_accounts w) ->
  exists dek w', get_user_dek id w = (Ok dek, w') /\ String.length dek = 32%nat
    /\ get_user_dek id w' = (Ok dek, w')
    /\ Forall2 (resealed m dek id) (w_accounts w) (w_accounts w')
    /\ exists u', find_user id (w_users w') = Some u' /\
       match u_totp_secret u ≫= totp_plain m with
       | Some pt => exists j, u_totp_secret u' = Some j /\ sealed dek j pt
       | None => u_totp_secret u' = u_totp_secret u
       end.
Proof.
  intros Hup Hm Hu Hd Hnd.
  destruct (draw_world (E := CryptoError.t) 32 w) as (dek & g & Hdraw & Hlen).
  destruct (wrap_world (derive_user_kek m id) dek (set_rng g w)) as (j & g1 & Hw & Hun);
    [apply hkdf_length|].
  set (w1 := set_users (store_dek id j (w_users w)) (set_rng g1 w)).
  destruct (rotate_accounts_spec m dek (account_rows id (w_accounts w)) w1) as (w2 & Hr & Hf & Hall);
    [done|done|by apply account_rows_NoDup|by apply account_rows_functional|].
  destruct Hf as (g2 & accs & ->).
  destruct (rotate_totp_spec id dek m (set_rng g2 (set_accounts accs w1)) Hlen Hup)
    as (g3 & us & Ht & Hus).
  exists dek, (set_rng g3 (set_users us (set_rng g2 (set_accounts accs w1)))).
  assert (Hu1 : find_user id (w_users w1) = Some (set_dek j u)).
  { simpl. unfold store_dek. rewrite find_user_map by (intros v; by destruct (lacks_dek id v)).
    rewrite Hu. simpl. unfold lacks_dek. apply find_user_id in Hu as [-> _].
    by rewrite String.eqb_refl, bool_decide_true. }
  assert (Hu' : exists u', find_user id us = Some u' /\ u_encrypted_dek u' = Some j /\
     match u_totp_secret u ≫= totp_plain m with
     | Some pt => exists j', u_totp_secret u' = Some j' /\ sealed dek j' pt
     | None => u_totp_secret u' = u_totp_secret u
     end).
  { change (w_users (set_rng g2 (set_accounts accs w1))) with (w_users w1) in Hus.
    rewrite Hu1 in Hus. simpl in Hus. destruct (u_totp_secret u ≫= totp_plain m) as [pt|].
    - destruct Hus as (j' & Hs & ->).
      exists (set_totp (Some j') (u_totp_enabled u) (set_dek j u)). split; [|by eauto].
      rewrite find_user_update by done. exact (f_equal (option_map _) Hu1).
    - subst us. eauto. }
  destruct Hu' as (u' & Hfu & Hfd & Htot). split; [|split; [done|split; [|split]]].
  - unfold get_user_dek. rewrite (bind_step _ _ w m w) by (unfold master_key; by rewrite Hm).
    unfold attempt, bind at 1. rewrite fetch_run, Hu by done. cbn [mbind option_bind]. rewrite Hd. cbn [ok_or].
    unfold provision_and_rotate_legacy_dek, generate_key.
    rewrite (bind_step _ _ _ _ _ Hdraw), (bind_step _ _ _ _ _ Hw),
      (bind_step _ _ _ _ _ (store_run id j (set_rng g1 w) Hup)).
    cbn [w_users set_rng]. rewrite (store_hits _ _ _ Hu Hd). fold w1.
    erewrite bind_step; [done|]. unfold rotate_legacy_secrets.
    rewrite (bind_step _ _ w1 m w1) by (unfold master_key; cbn; by rewrite Hm).
    rewrite (bind_step _ _ _ _ _ (fetch_accounts_run id w1 Hup)), (bind_step _ _ _ _ _ Hr). apply Ht.
  - eapply get_user_dek_stored; [done|done|exact Hfu|exact Hfd|exact Hun].
  - apply rotated_resealed; [done|exact Hall].
  - by exists u'.
Qed.

(** Key management leaves the clock, the store, the unlock ring and the master
    key alone. *)
Definition dek_frame w w' : Prop :=
  w_now w' = w_now w /\ w_kv w' = w_kv w /\ w_db_up w' = w_db_up w /\
  w_unlock w' = w_unlock w /\ w_master w' = w_master w.
#[local] Instance dek_frame_pre : PreOrder dek_frame.
Proof.
  split; [by intros w|]. intros x y z (?&?&?&?&?) (?&?&?&?&?). unfold dek_frame. split_and!; congruence.
Qed.

Lemma encrypt_frame key pt : preserves dek_frame (encrypt (W := W) key pt).
Proof.
  unfold encrypt. preserve. unfold draw, fill_bytes, world_rng. intros w r w'.
  destruct (fill_bytes 12 (w_rng w)). by intros [= _ <-].
Qed.

Ltac frame_leaf :=
  intros w r w'; repeat match goal with |- context [if ?b then _ else _] => destruct b end;
  intros [= _ <-]; by destruct w.

Lemma rotate_accounts_frame dek m l : preserves dek_frame (rotate_accounts (K := K) (R := R) dek m l).
Proof.
  induction l as [|[i c] l IH]; cbn [rotate_accounts]; preserve; try done.
  - apply encrypt_frame.
  - unfold update_account_credential. frame_leaf.
Qed.

Lemma get_user_dek_frame id : preserves dek_frame (get_user_dek (K := K) (R := R) id).
Proof.
  unfold get_user_dek, provision_and_rotate_legacy_dek, rotate_legacy_secrets,
    rotate_legacy_totp_secret, encrypt_totp_secret, generate_key, wrap_dek.
  preserve; auto using encrypt_frame, rotate_accounts_frame.
  all: unfold master_key, fetch_encrypted_dek, fetch_account_credentials,
    store_wrapped_dek_if_missing, modify; try frame_leaf.
  unfold draw, fill_bytes, world_rng. intros w r w'.
  destruct (fill_bytes 32 (w_rng w)). by intros [= _ <-].
Qed.

(** ** Whose accounts key management touches

    Rotation re-seals accounts of its own user only. *)
Definition spare (u : string) (a a' : MailAccount) : Prop :=
  a_id a' = a_id a /\ a_user_id a' = a_user_id a /\ (a_user_id a <> u -> a' = a).
Definition spares (u : string) w w' : Prop :=
  NoDup (a_id <$> w_accounts w) -> Forall2 (spare u) (w_accounts w) (w_accounts w').

Lemma spare_ids u l l' : Forall2 (spare u) l l' -> a_id <$> l' = a_id <$> l.
Proof. induction 1 as [|a b l l' (Hi & _) _ IH]; [done|]. cbn. by rewrite Hi, IH. Qed.
Lemma spare_refl u l : Forall2 (spare u) l l.
Proof. induction l; constructor; [by split_and!|done]. Qed.
Lemma spare_trans u l1 l2 l3 : Forall2 (spare u) l1 l2 -> Forall2 (spare u) l2 l3 -> Forall2 (spare u) l1 l3.
Proof.
  intros H12. revert l3. induction H12 as [|a b l1 l2 (Hi & Hu & Hs) _ IH]; intros l3 H23; inv H23; constructor; [|by apply IH].
  match goal with H : spare u b _ |- _ => destruct H as (Hi' & Hu' & Hs') end.
  split_and!; [congruence|congruence|]. intros Hne. rewrite Hs' by congruence. by apply Hs.
Qed.
#[export] Instance spares_pre u : PreOrder (spares u).
Proof.
  split; [intros w _; apply spare_refl|]. intros x y z Hxy Hyz Hnd. specialize (Hxy Hnd).
  eapply spare_trans; [exact Hxy|]. apply Hyz. by rewrite (spare_ids _ _ _ Hxy).
Qed.
Lemma spares_same u w w' : w_accounts w' = w_accounts w -> spares u w w'.
Proof. intros Ha _. rewrite Ha. apply spare_refl. Qed.

Lemma encrypt_accounts key pt w r w' : encrypt key pt w = (r, w') -> w_accounts w' = w_accounts w.
Proof.
  unfold encrypt, bind, draw, fill_bytes, world_rng. destruct (negb _); [by intros [= _ <-]|].
  destruct (fill_bytes 12 (w_rng w)). destruct (aes_encrypt _ _ _); by intros [= _ <-].
Qed.
Definition owns (u i : string) w : Prop := exists a, a ∈ w_accounts w /\ a_id a = i /\ a_user_id a = u.
Lemma spares_owns u i w w' : Forall2 (spare u) (w_accounts w) (w_accounts w') -> owns u i w -> owns u i w'.
Proof.
  intros Hf (a & Ha & Hi & Hu). apply list_elem_of_lookup in Ha as [k Hk].
  destruct (Forall2_lookup_l _ _ _ _ _ Hf Hk) as (b & Hb & Hib & Hub & _). exists b.
  split_and!; [by eapply list_elem_of_lookup_2|congruence|congruence].
Qed.
Lemma reseal_spares u i c w : NoDup (a_id <$> w_accounts w) -> owns u i w ->
  Forall2 (spare u) (w_accounts w) (map (fun a => if String.eqb (a_id a) i then set_credential c a else a) (w_accounts w)).
Proof.
  intros Hnd (a & Ha & Hi & Hu). apply list_elem_of_lookup in Ha as [k Hk].
  apply Forall2_fmap_r, Forall_Forall2_diag, Forall_lookup. intros j b Hb. unfold compose, spare.
  cbn beta. destruct (String.eqb_spec (a_id b) i) as [Hbi|]; [|by split_and!]. split_and!; [done|done|]. intros Hne.
  assert (k = j) as <-; [|congruence].
  eapply (NoDup_lookup _ k j i Hnd); rewrite list_lookup_fmap; [by rewrite Hk, <-Hi|by rewrite Hb, <-Hbi].
Qed.
Lemma rotate_accounts_spares u dek m l : forall w r w', NoDup (a_id <$> w_accounts w) ->
  Forall (fun ic => owns u (fst ic) w) l -> rotate_accounts dek m l w = (r, w') -> Forall2 (spare u) (w_accounts w) (w_accounts w').
Proof.
  induction l as [|[i c] l IH]; intros w r w' Hnd Hl Hr; cbn [rotate_accounts] in Hr; [injection Hr as _ <-; apply spare_refl|].
  inv Hl. destruct (cred_of_json c) as [blob|]; [|by eapply IH]. destruct (try_decrypt_with_legacy_keys blob m) as [pt|]; [|by eapply IH].
  apply bind_inv in Hr as [(e & He & _)|(enc & w1 & He & Hr)]; apply encrypt_accounts in He; [rewrite He; apply spare_refl|].
  unfold update_account_credential in Hr. unfold bind in Hr. destruct (w_db_up w1); cbn in Hr; [|injection Hr as _ <-; rewrite He; apply spare_refl].
  assert (Hs : Forall2 (spare u) (w_accounts w) (map (fun a => if String.eqb (a_id a) i then set_credential (cred_to_json enc) a else a) (w_accounts w1))).
  { rewrite He. by apply reseal_spares. }
  eapply spare_trans; [exact Hs|]. refine (IH _ _ _ _ _ Hr).
  - cbn. by rewrite (spare_ids _ _ _ Hs).
  - eapply Forall_impl; [eassumption|]. intros [j d] Ho. by eapply spares_owns; [exact Hs|].
Qed.
Lemma account_rows_owned u w : Forall (fun ic => owns u (fst ic) w) (account_rows u (w_accounts w)).
Proof.
  apply List.Forall_forall. intros [i c] Hin. apply in_map_iff in Hin as (a & [= <- <-] & [Ha Hu]%filter_In).
  exists a. split_and!; [by apply list_elem_of_In|done|by apply String.eqb_eq].
Qed.
Definition same_accounts w w' : Prop := w_accounts w' = w_accounts w.
#[local] Instance same_accounts_pre : PreOrder same_accounts.
Proof. split; [by intros w|]. intros x y z ? ?. unfold same_accounts in *. congruence. Qed.
Lemma encrypt_same key pt : preserves same_accounts (encrypt (W := W) key pt).
Proof. intros w r w'. apply encrypt_accounts. Qed.
Lemma totp_same u dek m : preserves same_accounts (rotate_legacy_totp_secret (K := K) (R := R) u dek m).
Proof.
  unfold rotate_legacy_totp_secret, encrypt_totp_secret. preserve; auto using encrypt_same.
  unfold modify. by intros w r w' [= _ <-].
Qed.
Lemma same_spares {E A} u (m : io W E A) : preserves same_accounts m -> preserves (spares u) m.
Proof. intros Hm w r w' Hw. by eapply spares_same, Hm. Qed.
Lemma rotate_legacy_spares u dek : preserves (spares u) (rotate_legacy_secrets (K := K) (R := R) u dek).
Proof.
  unfold rotate_legacy_secrets. apply pres_bind; [apply _|apply same_spares; by intros ??? [= _ <-]|].
  intros m w r w' Hr Hnd. unfold fetch_account_credentials in Hr. unfold bind at 1 in Hr.
  destruct (w_db_up w); [|injection Hr as _ <-; apply spare_refl]. cbn in Hr.
  apply bind_inv in Hr as [(e & Hr & _)|([] & w1 & Hr & Ht)];
    pose proof (rotate_accounts_spares u dek m _ _ _ _ Hnd (account_rows_owned u w) Hr) as Hs; [done|].
  apply totp_same in Ht. unfold same_accounts in Ht. by rewrite Ht.
Qed.
Lemma get_user_dek_spares u : preserves (spares u) (get_user_dek (K := K) (R := R) u).
Proof.
  unfold get_user_dek, provision_and_rotate_legacy_dek, generate_key, wrap_dek.
  preserve; try apply rotate_legacy_spares; apply same_spares; try apply encrypt_same.
  all: unfold master_key, fetch_encrypted_dek, store_wrapped_dek_if_missing, draw, fill_bytes, world_rng; intros w r w'.
  all: try (destruct (w_db_up w)); try (destruct (fill_bytes 32 (w_rng w))); by intros [= _ <-].
Qed.

End DekLemmas.
