(* ===== verification/Toy.v ===== *)
(** * Concrete instances for the witnesses

    A tagging "cipher" that satisfies the laws of [CryptoLib], and a counter as
    the random source: enough to run the modelled code and to show that the
    hypotheses of the theorems can hold. *)
From S2P Require Import Prelude Kv Crypto World.
Local Open Scope string_scope.
Local Open Scope Z_scope.

Definition toy_to_json (c : EncryptedCredential) : string :=
  show_N (N.of_nat (String.length (nonce c))) +:+ String ":" (nonce c +:+ ciphertext c).
Definition toy_of_json (s : string) : option EncryptedCredential :=
  match split_once ":" s with
  | None => None
  | Some (len, rest) =>
      match parse_digits len with
      | None => None
      | Some n => let k := Z.to_nat n in Some (mkEncrypted (sdrop k rest) (stake k rest))
      end
  end.

#[export] Instance toy_lib : CryptoLib := {
  aes_encrypt k n p := Some (k +:+ n +:+ p);
  aes_decrypt k n c := strip_prefix (k +:+ n) c;
  b64_encode s := s;
  b64_decode s := Some s;
  base32_encode s := s;
  base32_decode s := Some s;
  hkdf_expand m i := pad_master_key_to_dek (i +:+ m);
  cred_to_json := toy_to_json;
  cred_of_json := toy_of_json;
}.

#[export] Instance toy_laws : CryptoLaws.
Proof.
  split.
  - intros k n p _ _. exists (k +:+ n +:+ p). split; [done|]. cbn.
    rewrite <-app_assoc_s. apply strip_prefix_app.
  - done.
  - done.
  - intros m i. apply pad_master_key_length.
  - intros [ct n]. cbn. unfold toy_to_json, toy_of_json. cbn [nonce ciphertext].
    rewrite split_once_app by (apply digits_no_char; [done|apply show_N_digits]).
    rewrite parse_show_N, nat_N_Z, Nat2Z.id. by rewrite sdrop_app, stake_app.
Qed.

Fixpoint repeat_byte (n : nat) (a : ascii) : string :=
  match n with O => "" | S n' => String a (repeat_byte n' a) end.
#[export] Instance toy_rng : HasRng N :=
  fun n g => (repeat_byte n (ascii_of_N (97 + g)), (g + 1)%N).
#[export] Instance toy_rng_laws : RngLaws N.
Proof.
  intros n g. cbn. induction n as [|n IH]; simpl; [done|]. by rewrite IH.
Qed.

(** Binary text of a number: with stdpp's [encode], a codec for any countable type. *)
Fixpoint bits (p : positive) : string :=
  match p with
  | xH => ""
  | xO p => String "0" (bits p)
  | xI p => String "1" (bits p)
  end.
Fixpoint unbits (s : string) : positive :=
  match s with
  | "" => xH
  | String a s => if Ascii.eqb a "0" then xO (unbits s) else xI (unbits s)
  end.
Lemma unbits_bits p : unbits (bits p) = p.
Proof. induction p as [p IH|p IH|]; simpl; by rewrite ?IH. Qed.

Definition toy_master : string := "lyra-toy-master-key-0123456789abcdef".
Definition toy_user (dek totp : option string) : LyraUser :=
  mkUser "u1" "alice" "hash:pw" totp false None "en" dek 1 "on_open" None.
Definition toy_world (us : list LyraUser) (accs : list MailAccount) : world MemoryKv.t N :=
  mkWorld (from_secs 1000000) MemoryKv.new 0%N us accs true ∅ (Some toy_master).

(** ** Witness of the key provisioning theorem *)

(** A credential sealed under the padded master key, one that is not a sealed
    blob, and an account of somebody else. *)
Definition legacy_blob (pt : string) : string :=
  let k := pad_master_key_to_dek toy_master in
  let n := repeat_byte 12 "n" in
  cred_to_json (mkEncrypted (k +:+ n +:+ pt) n).
Definition legacy_accounts : list MailAccount :=
  [mkAccount "a1" "u1" (legacy_blob "imap-pw") "smtp" true true;
   mkAccount "a2" "u1" "not json" "smtp" true true;
   mkAccount "a3" "u2" (legacy_blob "other") "smtp" true true].
Definition legacy_world : world MemoryKv.t N :=
  toy_world [toy_user None (Some "BASE32SECRET")] legacy_accounts.

Lemma get_user_dek_provisions_witness :
  exists dek w', get_user_dek "u1" legacy_world = (Ok dek, w') /\ String.length dek = 32%nat
    /\ get_user_dek "u1" w' = (Ok dek, w')
    /\ Forall2 (resealed toy_master dek "u1") (w_accounts legacy_world) (w_accounts w')
    /\ exists u', find_user "u1" (w_users w') = Some u' /\
       match Some "BASE32SECRET" ≫= totp_plain toy_master with
       | Some pt => exists j, u_totp_secret u' = Some j /\ sealed dek j pt
       | None => u_totp_secret u' = Some "BASE32SECRET"
       end.
Proof.
  assert (Hnd : NoDup (a_id <$> w_accounts legacy_world)).
  { apply (bool_decide_unpack _). vm_compute. exact I. }
  exact (get_user_dek_provisions "u1" toy_master (toy_user None (Some "BASE32SECRET")) legacy_world
           eq_refl eq_refl eq_refl eq_refl Hnd).
Defined.
