(* ===== verification/Session.v ===== *)
(** * Sessions and rate limits ([auth/session.rs], constants of [auth/mod.rs])

    Sessions live in the key-value store under three keys per token: the
    epoch-scoped session, the reverse index from token to user, and the renewal
    throttle.  Everything is written against the class [KvStore]. *)
From S2P Require Import Prelude Kv Crypto UnlockRing World Toy.
Local Open Scope string_scope.
Local Open Scope Z_scope.

Definition SESSION_TTL_SECS : Z := 30 * 24 * 60 * 60.
Definition PENDING_TTL_SECS : Z := 5 * 60.
Definition RATE_LIMIT_MAX_ATTEMPTS : Z := 5.
Definition RATE_LIMIT_WINDOW_SECS : Z := 15 * 60.
Definition TOTP_LAST_STEP_TTL_SECS : Z := 120.
Definition MAX_PASSWORD_LENGTH : Z := 1024.

(** The HTTP status codes the session layer answers as errors. *)
Inductive StatusCode := INTERNAL_SERVER_ERROR | NOT_FOUND.

Module AuthError.
Inductive t : Type :=
  | BadRequest (msg : string)
  | Unauthorized (msg : string)
  | TooManyRequests
  | Conflict (msg : string)
  | Internal (msg : string)
  | Crypto (e : CryptoError.t).

Definition status (e : t) : Z :=
  match e with
  | BadRequest _ => 400
  | Unauthorized _ => 401
  | TooManyRequests => 429
  | Conflict _ => 409
  | Internal _ | Crypto _ => 500
  end.
Definition error_code (e : t) : string :=
  match e with
  | BadRequest _ => "bad_request"
  | Unauthorized _ => "unauthorized"
  | TooManyRequests => "too_many_requests"
  | Conflict _ => "conflict"
  | Internal _ | Crypto _ => "internal_error"
  end.
Definition invalid_credentials : t := Unauthorized "Invalid username or password".
End AuthError.

(** ** Keys *)
Definition sess_key (epoch : Z) (token : string) : string :=
  "sess:" +:+ show_Z epoch +:+ ":" +:+ token.
Definition tok_key (token : string) : string := "tok:" +:+ token.
Definition pending_key (token : string) : string := "pending:" +:+ token.
Definition refresh_key (token : string) : string := "sess-refresh:" +:+ token.
Definition login_rl_key (username : string) : string := "rl:login:" +:+ username.
Definition totp_rl_key (user_id : string) : string := "rl:totp:" +:+ user_id.
Definition pwd_rl_key (user_id : string) : string := "rl:pwd:" +:+ user_id.
Definition totp_step_key (user_id : string) : string := "totp_last_step:" +:+ user_id.

Section Session.
Context {K R : Type} `{KvStore K} `{HasRng R} `{CryptoLib}.
Local Abbreviation W := (world K R).

(** One call of the store, at the current instant. *)
Definition kv_call {A} (f : Z -> K -> result KvError.t A * K) : io W KvError.t A :=
  fun w => let '(r, s) := f (w_now w) (w_kv w) in (r, set_kv s w).
Definition kvget (k : string) : io W KvError.t (option string) := kv_call (fun t => kv_get t k).
Definition kvset (k v : string) (ttl : option Z) : io W KvError.t unit :=
  kv_call (fun t => kv_set t k v ttl).
Definition kvdel (k : string) : io W KvError.t unit := kv_call (fun t => kv_del t k).
Definition kvdel_prefix (p : string) : io W KvError.t unit := kv_call (fun t => kv_del_prefix t p).
Definition kvincr (k : string) (d : Z) (ttl : option Z) : io W KvError.t Z :=
  kv_call (fun t => kv_incr t k d ttl).

Definition internal500 {E} (_ : E) : StatusCode := INTERNAL_SERVER_ERROR.

(** ** Rate limiting *)

Definition is_rate_limited (key : string) (max_attempts : Z) : io W StatusCode bool :=
  let! v := map_err internal500 (kvget key) in
  let attempts := default 0 (v ≫= parse_i64) in
  ret (max_attempts <=? attempts).

Definition record_failed_attempt (key : string) (window_secs : Z) : io W StatusCode Z :=
  map_err internal500 (kvincr key 1 (Some window_secs)).

(** Best effort: a failing store only logs. *)
Definition clear_failed_attempts {E} (key : string) : io W E unit :=
  let! _ := attempt (kvdel key) in ret tt.

Definition ensure_not_rate_limited (key op : string) : io W AuthError.t unit :=
  let! limited := map_err (fun _ => AuthError.Internal op)
                    (is_rate_limited key RATE_LIMIT_MAX_ATTEMPTS) in
  if limited then throw AuthError.TooManyRequests else ret tt.

Definition note_failed_attempt (key op : string) : io W AuthError.t unit :=
  let! _ := map_err (fun _ => AuthError.Internal op)
              (record_failed_attempt key RATE_LIMIT_WINDOW_SECS) in
  ret tt.

(** ** Session store *)

Definition fetch_sess_epoch (user_id : string) : io W StatusCode Z :=
  fun w => if negb (w_db_up w) then (Err INTERNAL_SERVER_ERROR, w) else
    (ok_or NOT_FOUND (option_map u_sess_epoch (find_user user_id (w_users w))), w).

Definition bump_epoch (u : LyraUser) : LyraUser :=
  mkUser (u_id u) (u_username u) (u_password_hash u) (u_totp_secret u) (u_totp_enabled u)
    (u_display_name u) (u_locale u) (u_encrypted_dek u) (u_sess_epoch u + 1)
    (u_mark_read_policy u) (u_ui_state u).

Definition update_users (user_id : string) (f : LyraUser -> LyraUser) : io W StatusCode unit :=
  fun w => if negb (w_db_up w) then (Err INTERNAL_SERVER_ERROR, w) else
    (Ok tt, set_users (update_user user_id f (w_users w)) w).

Definition invalidate_user_sessions (user_id : string) : io W StatusCode unit :=
  let! old_epoch := fetch_sess_epoch user_id in
  let! _ := update_users user_id bump_epoch in
  map_err internal500 (kvdel_prefix ("sess:" +:+ show_Z old_epoch +:+ ":")).

(** 32 random bytes in lowercase base32. *)
Definition generate_token {E} : io W E string :=
  let! bytes := draw 32 in ret (to_ascii_lowercase (base32_encode bytes)).

Definition create_session (user_id : string) : io W StatusCode string :=
  let! epoch := fetch_sess_epoch user_id in
  let! token := generate_token in
  let! _ := map_err internal500 (kvset (sess_key epoch token) user_id (Some SESSION_TTL_SECS)) in
  let! _ := map_err internal500 (kvset (tok_key token) user_id (Some SESSION_TTL_SECS)) in
  let! _ := map_err internal500
              (kvset (refresh_key token) user_id (Some (SESSION_TTL_SECS / 2))) in
  ret token.

Definition create_pending_session (user_id : string) : io W StatusCode string :=
  let! token := generate_token in
  let! _ := map_err internal500 (kvset (pending_key token) user_id (Some PENDING_TTL_SECS)) in
  ret token.

(** [kv.get(..).await.ok().flatten()]. *)
Definition try_get {E} (k : string) : io W E (option string) :=
  let! r := attempt (kvget k) in
  ret (match r with Ok (Some v) => Some v | _ => None end).

Definition get_session {E} (token : string) : io W E (option string) :=
  let! user := try_get (tok_key token) in
  match user with
  | None => ret None
  | Some user_id =>
      let! ep := attempt (fetch_sess_epoch user_id) in
      match ep with
      | Err _ => ret None
      | Ok epoch =>
          let! stored := try_get (sess_key epoch token) in
          match stored with
          | None => ret None
          | Some s =>
              if negb (String.eqb s user_id) then ret None else
              let! marker := try_get (refresh_key token) in
              let! _ := when (bool_decide (marker = None))
                (let! _ := attempt (kvset (tok_key token) user_id (Some SESSION_TTL_SECS)) in
                 let! _ := attempt (kvset (sess_key epoch token) user_id (Some SESSION_TTL_SECS)) in
                 let! _ := attempt (kvset (refresh_key token) user_id
                                      (Some (SESSION_TTL_SECS / 2))) in
                 ret tt) in
              ret (Some user_id)
          end
      end
  end.

Definition get_pending_session {E} (token : string) : io W E (option string) :=
  try_get (pending_key token).

Definition promote_pending_session (pending_token : string) : io W StatusCode (option string) :=
  let! user := get_pending_session pending_token in
  match user with
  | None => ret None
  | Some user_id =>
      let! _ := map_err internal500 (kvdel (pending_key pending_token)) in
      let! token := create_session user_id in
      ret (Some token)
  end.

Definition remove_session {E} (token : string) : io W E unit :=
  let! user := try_get (tok_key token) in
  let! _ := match user with
            | None => ret tt
            | Some user_id =>
                let! ep := attempt (fetch_sess_epoch user_id) in
                match ep with
                | Err _ => ret tt
                | Ok epoch => let! _ := attempt (kvdel (sess_key epoch token)) in ret tt
                end
            end in
  let! _ := attempt (kvdel (tok_key token)) in
  let! _ := attempt (kvdel (refresh_key token)) in
  ret tt.

End Session.

(** ** Keys never collide *)

Lemma tok_refresh a b : tok_key a <> refresh_key b.
Proof. discriminate. Qed.
Lemma sess_tok e a b : sess_key e a <> tok_key b.
Proof. discriminate. Qed.
Lemma sess_refresh e a b : sess_key e a <> refresh_key b.
Proof. discriminate. Qed.
Lemma pending_sess e a b : pending_key a <> sess_key e b.
Proof. discriminate. Qed.
Lemma pending_tok a b : pending_key a <> tok_key b.
Proof. discriminate. Qed.
Lemma pending_refresh a b : pending_key a <> refresh_key b.
Proof. discriminate. Qed.

Lemma sess_key_prefix e e' tok :
  0 <= e -> 0 <= e' ->
  starts_with ("sess:" +:+ show_Z e +:+ ":") (sess_key e' tok) = true <-> e = e'.
Proof.
  intros He He'. rewrite starts_with_spec. unfold sess_key. split; [|intros ->; exists tok].
  - intros [t Ht]. rewrite !app_assoc_s in Ht. apply app_inj_l_s in Ht.
    apply (f_equal (split_once ":")) in Ht. change (":" +:+ t) with (String ":" t) in Ht.
    change (":" +:+ tok) with (String ":" tok) in Ht.
    rewrite !split_once_app in Ht by (apply digits_no_char; auto with lyra).
    simplify_eq. assert (Heq : show_Z e = show_Z e') by congruence.
    pose proof (parse_show_unsigned (Z.max e e') e ltac:(lia)) as H1.
    pose proof (parse_show_unsigned (Z.max e e') e' ltac:(lia)) as H2. congruence.
  - by rewrite !app_assoc_s.
Qed.

Lemma sess_key_inj e e' a b : 0 <= e -> 0 <= e' -> sess_key e a = sess_key e' b -> e = e' /\ a = b.
Proof.
  intros He He' Heq. assert (e = e') as ->.
  { apply (sess_key_prefix e e' b He He'). rewrite <- Heq. by apply sess_key_prefix. }
  split; [done|]. unfold sess_key in Heq. by do 3 apply app_inj_l_s in Heq.
Qed.

#[export] Hint Resolve tok_refresh sess_tok sess_refresh pending_sess pending_tok
  pending_refresh : lyra.

(** ** What a caller sees of the store *)

Section SessionLemmas.
Context {K R : Type} `{KvLaws K} `{HasRng R} `{!RngLaws R} `{CryptoLib}.
Local Abbreviation W := (world K R).
Implicit Types w : W.

(** The value key [k] will show at instant [t] if nothing else happens. *)
Definition look w (t : Z) (k : string) : option string := live t (cells (w_kv w) k).
Definition now_look w (k : string) : option string := look w (w_now w) k.
(** Same views from now on. *)
Definition views w w' : Prop := forall t j, w_now w <= t -> look w' t j = look w t j.
(** [w'] differs from [w] in the store (and random source) only. *)
Definition kv_only w w' : Prop := exists s g, w' = set_kv s (set_rng g w).

Lemma kv_only_refl w : kv_only w w.
Proof. exists (w_kv w), (w_rng w). by destruct w. Qed.
Lemma kv_only_trans w w' w'' : kv_only w w' -> kv_only w' w'' -> kv_only w w''.
Proof. intros (s & g & ->) (s' & g' & ->). by exists s', g'. Qed.
Lemma kv_only_now w w' : kv_only w w' -> w_now w' = w_now w.
Proof. by intros (s & g & ->). Qed.
Lemma kv_only_users w w' : kv_only w w' -> w_users w' = w_users w.
Proof. by intros (s & g & ->). Qed.
Lemma kv_only_up w w' : kv_only w w' -> w_db_up w' = w_db_up w.
Proof. by intros (s & g & ->). Qed.

Lemma kv_only_kv s w : kv_only w (set_kv s w).
Proof. exists s, (w_rng w). by destruct w. Qed.

Lemma kvget_run k w :
  exists w', kvget k w = (Ok (now_look w k), w') /\ kv_only w w' /\ views w w'.
Proof.
  unfold kvget, kv_call. destruct (kv_get_law (w_now w) k (w_kv w)) as (s' & -> & Hs).
  eexists. split; [done|]. split; [apply kv_only_kv|]. intros t j Ht. by apply Hs.
Qed.

Lemma kvset_run k v ttl w :
  exists w', kvset k v ttl w = (Ok tt, w') /\ kv_only w w' /\
  forall t j, w_now w <= t ->
    look w' t j = if decide (j = k) then live t (Some (v, deadline (w_now w) ttl)) else look w t j.
Proof.
  unfold kvset, kv_call. destruct (kv_set_law (w_now w) k v ttl (w_kv w)) as (s' & -> & Hk & Ho).
  eexists. split; [done|]. split; [apply kv_only_kv|]. intros t j Ht. unfold look. cbn.
  case_decide; subst; [by rewrite Hk|by rewrite Ho].
Qed.

Lemma kvdel_run k w :
  exists w', kvdel k w = (Ok tt, w') /\ kv_only w w' /\
  forall t j, look w' t j = if decide (j = k) then None else look w t j.
Proof.
  unfold kvdel, kv_call. destruct (kv_del_law (w_now w) k (w_kv w)) as (s' & -> & Hk & Ho).
  eexists. split; [done|]. split; [apply kv_only_kv|]. intros t j. unfold look. cbn.
  case_decide; subst; [by rewrite Hk|by rewrite Ho].
Qed.

Lemma kvdel_prefix_run p w :
  exists w', kvdel_prefix p w = (Ok tt, w') /\ kv_only w w' /\
  forall t j, look w' t j = if starts_with p j then None else look w t j.
Proof.
  unfold kvdel_prefix, kv_call. destruct (kv_del_prefix_law (w_now w) p (w_kv w)) as (s' & -> & Ho).
  eexists. split; [done|]. split; [apply kv_only_kv|]. intros t j. unfold look. cbn.
  rewrite Ho. by destruct starts_with.
Qed.

Lemma try_get_run {E} k w :
  exists w', try_get (E := E) k w = (Ok (now_look w k), w') /\ kv_only w w' /\ views w w'.
Proof.
  destruct (kvget_run k w) as (w' & Hg & Hk & Hv). exists w'. split; [|done].
  unfold try_get, attempt, bind. rewrite Hg. by destruct (now_look w k).
Qed.

Lemma attempt_Ok {E F A} (m : io W E A) w a w' :
  m w = (Ok a, w') -> attempt (F := F) m w = (Ok (Ok a), w').
Proof. unfold attempt. by intros ->. Qed.

Lemma map_err_Ok {E F A} (f : E -> F) (m : io W E A) w a w' :
  m w = (Ok a, w') -> map_err f m w = (Ok a, w').
Proof. unfold map_err. by intros ->. Qed.

Lemma fetch_epoch_run u w :
  w_db_up w = true ->
  fetch_sess_epoch u w = (ok_or NOT_FOUND (option_map u_sess_epoch (find_user u (w_users w))), w).
Proof. intros Hup. unfold fetch_sess_epoch. by rewrite Hup. Qed.

(** ** Renewal: the three keys of a token written at [now] *)

Definition written (now : Z) (u tok : string) (e t : Z) (j : string) (old : option string)
    : option string :=
  if decide (j = refresh_key tok)
  then live t (Some (u, Some (now + from_secs (SESSION_TTL_SECS / 2))))
  else if decide (j = tok_key tok) then live t (Some (u, Some (now + from_secs SESSION_TTL_SECS)))
  else if decide (j = sess_key e tok) then live t (Some (u, Some (now + from_secs SESSION_TTL_SECS)))
  else old.

Lemma create_session_run u row w :
  w_db_up w = true -> find_user u (w_users w) = Some row ->
  exists tok w', create_session u w = (Ok tok, w') /\ kv_only w w' /\
  forall t j, w_now w <= t ->
    look w' t j = written (w_now w) u tok (u_sess_epoch row) t j (look w t j).
Proof.
  intros Hup Hu. destruct (draw_world (E := StatusCode) 32 w) as (b & g & Hd & _).
  set (tok := to_ascii_lowercase (base32_encode b)). set (e := u_sess_epoch row).
  destruct (kvset_run (sess_key e tok) u (Some SESSION_TTL_SECS) (set_rng g w)) as (w1 & Hs1 & K1 & V1).
  destruct (kvset_run (tok_key tok) u (Some SESSION_TTL_SECS) w1) as (w2 & Hs2 & K2 & V2).
  destruct (kvset_run (refresh_key tok) u (Some (SESSION_TTL_SECS / 2)) w2) as (w3 & Hs3 & K3 & V3).
  exists tok, w3.
  assert (Hw1 : kv_only w w1) by (destruct K1 as (s & g' & ->); by exists s, g').
  assert (Hw2 : kv_only w w2) by (by eapply kv_only_trans).
  split; [|split; [by eapply kv_only_trans|]].
  - unfold create_session. rewrite (bind_step _ _ w e w) by (rewrite fetch_epoch_run, Hu; done).
    unfold generate_token. rewrite bind_assoc, (bind_step _ _ _ _ _ Hd).
    rewrite ret_bind. fold tok e.
    rewrite (bind_step _ _ _ _ _ (map_err_Ok _ _ _ _ _ Hs1)),
      (bind_step _ _ _ _ _ (map_err_Ok _ _ _ _ _ Hs2)),
      (bind_step _ _ _ _ _ (map_err_Ok _ _ _ _ _ Hs3)). done.
  - intros t j Ht. rewrite V3, V2, V1 by (rewrite ?(kv_only_now _ _ Hw2), ?(kv_only_now _ _ Hw1); done).
    rewrite (kv_only_now _ _ Hw2), (kv_only_now _ _ Hw1). unfold written, deadline. done.
Qed.

(** Who a token speaks for, read off the store and the user table. *)
Definition session_user w (token : string) : option string :=
  if negb (w_db_up w) then None else
  now_look w (tok_key token) ≫= fun u =>
  find_user u (w_users w) ≫= fun row =>
  now_look w (sess_key (u_sess_epoch row) token) ≫= fun s =>
  if String.eqb s u then Some u else None.
Definition epoch_of w (u : string) : Z :=
  match find_user u (w_users w) with Some row => u_sess_epoch row | None => 0 end.

Definition after_read w (token : string) (t : Z) (j : string) : option string :=
  match session_user w token, now_look w (refresh_key token) with
  | Some u, None => written (w_now w) u token (epoch_of w u) t j (look w t j)
  | _, _ => look w t j
  end.

Lemma views_now w w' k : kv_only w w' -> views w w' -> now_look w' k = now_look w k.
Proof. intros Hk Hv. unfold now_look. rewrite (kv_only_now _ _ Hk). apply Hv. lia. Qed.

Lemma views_trans w w' w'' : kv_only w w' -> views w w' -> views w' w'' -> views w w''.
Proof.
  intros Hk Hv1 Hv2 t j Ht. rewrite Hv2; [by apply Hv1|]. by rewrite (kv_only_now _ _ Hk).
Qed.

Lemma written_ext now u tok e t j o o' : o = o' -> written now u tok e t j o = written now u tok e t j o'.
Proof. by intros ->. Qed.

(** The three renewal writes of [get_session]. *)
Lemma renew_run {E} u tok e w :
  exists w', (let! _ := attempt (kvset (tok_key tok) u (Some SESSION_TTL_SECS)) in
              let! _ := attempt (kvset (sess_key e tok) u (Some SESSION_TTL_SECS)) in
              let! _ := attempt (kvset (refresh_key tok) u (Some (SESSION_TTL_SECS / 2))) in
              ret (E := E) tt) w = (Ok tt, w') /\ kv_only w w' /\
  forall t j, w_now w <= t -> look w' t j = written (w_now w) u tok e t j (look w t j).
Proof.
  destruct (kvset_run (tok_key tok) u (Some SESSION_TTL_SECS) w) as (w1 & Hs1 & K1 & V1).
  destruct (kvset_run (sess_key e tok) u (Some SESSION_TTL_SECS) w1) as (w2 & Hs2 & K2 & V2).
  destruct (kvset_run (refresh_key tok) u (Some (SESSION_TTL_SECS / 2)) w2) as (w3 & Hs3 & K3 & V3).
  assert (Hw2 : kv_only w w2) by (by eapply kv_only_trans).
  exists w3. split; [|split; [by eapply kv_only_trans|]].
  - by rewrite (bind_step _ _ _ _ _ (attempt_Ok _ _ _ _ Hs1)),
      (bind_step _ _ _ _ _ (attempt_Ok _ _ _ _ Hs2)),
      (bind_step _ _ _ _ _ (attempt_Ok _ _ _ _ Hs3)).
  - intros t j Ht. rewrite V3, V2, V1 by (rewrite ?(kv_only_now _ _ Hw2), ?(kv_only_now _ _ K1); done).
    rewrite (kv_only_now _ _ Hw2), (kv_only_now _ _ K1). unfold written, deadline.
    repeat case_decide; subst; naive_solver.
Qed.

Lemma get_session_run {E} tok w :
  exists w', get_session (E := E) tok w = (Ok (session_user w tok), w') /\ kv_only w w' /\
  forall t j, w_now w <= t -> look w' t j = after_read w tok t j.
Proof.
  destruct (try_get_run (E := E) (tok_key tok) w) as (w1 & Hg1 & K1 & V1).
  unfold get_session, after_read, session_user. rewrite (bind_step _ _ _ _ _ Hg1).
  destruct (now_look w (tok_key tok)) as [u|]; cbn [mbind option_bind].
  2: { exists w1. split; [by destruct (w_db_up w)|]. split; [done|]. intros t j Ht. rewrite V1 by done. by destruct (w_db_up w). }
  unfold attempt at 1, bind at 1. unfold fetch_sess_epoch. rewrite (kv_only_up _ _ K1), (kv_only_users _ _ K1).
  unfold epoch_of.
  destruct (w_db_up w); cbn [negb ok_or option_map]; [|by exists w1].
  destruct (find_user u (w_users w)) as [row|] eqn:Hu; cbn [option_map ok_or mbind option_bind]; [|by exists w1].
  destruct (try_get_run (E := E) (sess_key (u_sess_epoch row) tok) w1) as (w2 & Hg2 & K2 & V2).
  rewrite (bind_step _ _ _ _ _ Hg2), (views_now _ _ _ K1 V1).
  pose proof (kv_only_trans _ _ _ K1 K2) as K12. pose proof (views_trans _ _ _ K1 V1 V2) as V12.
  destruct (now_look w (sess_key (u_sess_epoch row) tok)) as [s|]; cbn [mbind option_bind]; [|by exists w2].
  destruct (String.eqb_spec s u) as [->|Hne]; cbn [negb]; [|by exists w2].
  destruct (try_get_run (E := E) (refresh_key tok) w2) as (w3 & Hg3 & K3 & V3).
  rewrite (bind_step _ _ _ _ _ Hg3), (views_now _ _ _ K12 V12).
  pose proof (kv_only_trans _ _ _ K12 K3) as K13. pose proof (views_trans _ _ _ K12 V12 V3) as V13.
  destruct (now_look w (refresh_key tok)) as [m|]; cbn [when bool_decide].
  { rewrite bool_decide_false by done. by exists w3. }
  rewrite bool_decide_true by done. unfold when. rewrite Hu.
  destruct (renew_run (E := E) u tok (u_sess_epoch row) w3) as (w4 & Hr & K4 & V4).
  rewrite (bind_step _ _ _ _ _ Hr). exists w4. split; [done|]. split; [by eapply kv_only_trans|].
  intros t j Ht. rewrite V4 by (by rewrite (kv_only_now _ _ K13)). rewrite (kv_only_now _ _ K13).
  apply written_ext. by apply V13.
Qed.

(** ** What an operation may do to the epoch-scoped session keys *)

Definition epochs_ok w : Prop := forall u, 0 <= epoch_of w u.

(** A session value seen after the step was there before, or was written for
    its owner at the owner's epoch: for a token the step issued, or for one that
    already spoke for the owner. *)
Definition sess_step w (issued : option string) w' : Prop :=
  w_now w <= w_now w' /\ (forall u, epoch_of w u <= epoch_of w' u) /\
  forall e tok t v, 0 <= e -> w_now w' <= t -> look w' t (sess_key e tok) = Some v ->
    look w t (sess_key e tok) = Some v \/
    (e = epoch_of w v /\ (issued = Some tok \/ session_user w tok = Some v)).

Lemma written_sess now u tok e e' tok' t old v :
  0 <= e -> 0 <= e' -> written now u tok e t (sess_key e' tok') old = Some v ->
  old = Some v \/ (e' = e /\ tok' = tok /\ v = u).
Proof.
  intros He He'. unfold written. rewrite !decide_False by done. case_decide as Hk; [|by left].
  apply sess_key_inj in Hk as [-> ->]; [|done..]. intros Hl. right.
  cbn in Hl. destruct (_ <=? t); by simplify_eq.
Qed.

Lemma sess_step_views i w w' : kv_only w w' -> views w w' -> sess_step w i w'.
Proof.
  intros Hk Hv. unfold sess_step. rewrite (kv_only_now _ _ Hk). split; [done|]. split.
  - intros u. unfold epoch_of. by rewrite (kv_only_users _ _ Hk).
  - intros e tok t v _ Ht. rewrite Hv by done. by left.
Qed.

Lemma sess_step_refl i w : sess_step w i w.
Proof. apply sess_step_views; [apply kv_only_refl|by intros t j _]. Qed.

Lemma epoch_of_kv_only w w' u : kv_only w w' -> epoch_of w' u = epoch_of w u.
Proof. intros Hk. unfold epoch_of. by rewrite (kv_only_users _ _ Hk). Qed.

(** Removing keys, or writing keys that are not session keys, is a step. *)
Lemma sess_step_less i w w' :
  kv_only w w' ->
  (forall e tok t v, 0 <= e -> w_now w <= t -> look w' t (sess_key e tok) = Some v ->
     look w t (sess_key e tok) = Some v) -> sess_step w i w'.
Proof.
  intros Hk Hl. unfold sess_step. rewrite (kv_only_now _ _ Hk). split; [done|]. split.
  - intros u. by rewrite (epoch_of_kv_only _ _ _ Hk).
  - intros e tok t v He Ht Hv. left. by apply Hl.
Qed.

(** A step after one that only forgets. *)
Lemma sess_step_after i w w1 w2 :
  kv_only w w1 -> w_db_up w1 = w_db_up w ->
  (forall t k v, w_now w <= t -> look w1 t k = Some v -> look w t k = Some v) ->
  sess_step w1 i w2 -> sess_step w i w2.
Proof.
  intros Hk Hup Hl (Hn & He & Hs). rewrite (kv_only_now _ _ Hk) in Hn.
  split; [done|]. split.
  { intros u. rewrite <- (epoch_of_kv_only _ _ u Hk). apply He. }
  intros e tok t v H0e Ht Hv. destruct (Hs e tok t v H0e Ht Hv) as [Ho|[-> Ho]].
  { left. apply Hl; [lia|done]. }
  right. split; [by apply epoch_of_kv_only|]. destruct Ho as [Ho|Ho]; [by left|right].
  unfold session_user, now_look in *. rewrite Hup, (kv_only_now _ _ Hk), (kv_only_users _ _ Hk) in Ho.
  destruct (w_db_up w); [|done]. cbn [negb] in *.
  destruct (look w1 _ (tok_key tok)) as [u|] eqn:Hu; [|done]. cbn [mbind option_bind] in Ho.
  rewrite (Hl _ _ _ (Z.le_refl _) Hu). cbn [mbind option_bind].
  destruct (find_user u _) as [row|]; [|done]. cbn [mbind option_bind] in *.
  destruct (look w1 _ (sess_key _ tok)) as [s|] eqn:Hse; [|done]. cbn [mbind option_bind] in Ho.
  by rewrite (Hl _ _ _ (Z.le_refl _) Hse).
Qed.

Lemma create_session_fails u w :
  w_db_up w = false \/ find_user u (w_users w) = None ->
  exists e, create_session u w = (Err e, w).
Proof.
  intros Hd. unfold create_session, bind, fetch_sess_epoch.
  destruct (w_db_up w); cbn [negb]; [|eauto]. destruct Hd as [|Hd]; [done|]. rewrite Hd. cbn. eauto.
Qed.

Lemma create_session_step u w r w' :
  epochs_ok w -> create_session u w = (r, w') -> sess_step w (match r with Ok t => Some t | Err _ => None end) w'.
Proof.
  intros He Hc.
  destruct (w_db_up w) eqn:Hup; [destruct (find_user u (w_users w)) as [row|] eqn:Hu|].
  - destruct (create_session_run u row w Hup Hu) as (tok & w1 & Hr & Hk & Hl).
    rewrite Hr in Hc. simplify_eq. unfold sess_step. rewrite (kv_only_now _ _ Hk).
    split; [done|]. split; [by intros v; rewrite (epoch_of_kv_only _ _ _ Hk)|].
    intros e tok' t v H0e Ht Hv. rewrite Hl in Hv by done.
    pose proof (He u) as Heu. unfold epoch_of in Heu. rewrite Hu in Heu.
    apply written_sess in Hv as [Hv|(-> & -> & ->)]; [by left| |done..].
    right. split; [unfold epoch_of; by rewrite Hu|]. by left.
  - destruct (create_session_fails u w (or_intror Hu)) as [e Hf]. rewrite Hf in Hc. simplify_eq.
    apply sess_step_refl.
  - destruct (create_session_fails u w (or_introl Hup)) as [e Hf]. rewrite Hf in Hc. simplify_eq.
    apply sess_step_refl.
Qed.

Lemma get_session_step {E} tok w r w' :
  epochs_ok w -> get_session (E := E) tok w = (r, w') -> sess_step w None w'.
Proof.
  intros He Hg. destruct (get_session_run (E := E) tok w) as (w1 & Hr & Hk & Hl).
  rewrite Hr in Hg. simplify_eq. unfold sess_step. rewrite (kv_only_now _ _ Hk).
  split; [done|]. split; [by intros v; rewrite (epoch_of_kv_only _ _ _ Hk)|].
  intros e tok' t v H0e Ht Hv. rewrite Hl in Hv by done. unfold after_read in Hv.
  destruct (session_user w tok) as [u|] eqn:Hu; [|by left].
  destruct (now_look w (refresh_key tok)); [by left|].
  apply written_sess in Hv as [Hv|(-> & -> & ->)]; [by left| |apply He|done].
  right. split; [done|]. by right.
Qed.

Lemma kvdel_forgets k w w' : kvdel k w = (Ok tt, w') ->
  kv_only w w' /\ forall t j v, look w' t j = Some v -> look w t j = Some v.
Proof.
  intros Hd. destruct (kvdel_run k w) as (w1 & Hr & Hk & Hl). rewrite Hr in Hd. simplify_eq.
  split; [done|]. intros t j v Hv. rewrite Hl in Hv. by destruct (decide _).
Qed.

Lemma kvdel_ok k w : exists w', kvdel k w = (Ok tt, w').
Proof. destruct (kvdel_run k w) as (w1 & Hr & _). eauto. Qed.

Lemma remove_session_step {E} tok w r w' :
  remove_session (E := E) tok w = (r, w') -> sess_step w None w'.
Proof.
  intros Hrem. destruct (try_get_run (E := E) (tok_key tok) w) as (w1 & Hg & K1 & V1).
  unfold remove_session in Hrem. rewrite (bind_step _ _ _ _ _ Hg) in Hrem.
  set (mid := match now_look w (tok_key tok) with None => _ | Some _ => _ end) in Hrem.
  assert (Hmid : exists w2, mid w1 = (Ok tt, w2) /\ kv_only w w2 /\
    forall t j v, w_now w <= t -> look w2 t j = Some v -> look w t j = Some v).
  { unfold mid. destruct (now_look w (tok_key tok)) as [u|].
    2: { exists w1. split; [done|]. split; [done|]. intros t j v Ht. by rewrite V1. }
    unfold bind, attempt, fetch_sess_epoch. destruct (w_db_up w1); cbn [negb].
    2: { exists w1. split; [done|]. split; [done|]. intros t j v Ht. by rewrite V1. }
    destruct (find_user u (w_users w1)) as [row|]; cbn [option_map ok_or].
    2: { exists w1. split; [done|]. split; [done|]. intros t j v Ht. by rewrite V1. }
    destruct (kvdel_ok (sess_key (u_sess_epoch row) tok) w1) as (w2 & Hd). rewrite Hd.
    apply kvdel_forgets in Hd as [Kd Hd]. exists w2. split; [done|]. split; [by eapply kv_only_trans|].
    intros t j v Ht Hv. rewrite <- (V1 t j Ht). eapply Hd, Hv. }
  destruct Hmid as (w2 & Hm & K2 & L2). rewrite (bind_step _ _ _ _ _ Hm) in Hrem.
  destruct (kvdel_ok (tok_key tok) w2) as (w3 & Hd3).
  destruct (kvdel_ok (refresh_key tok) w3) as (w4 & Hd4).
  rewrite (bind_step _ _ _ _ _ (attempt_Ok _ _ _ _ Hd3)), (bind_step _ _ _ _ _ (attempt_Ok _ _ _ _ Hd4)) in Hrem.
  injection Hrem as _ <-. apply kvdel_forgets in Hd3 as [K3 L3], Hd4 as [K4 L4].
  apply sess_step_less; [eapply kv_only_trans, K4; by eapply kv_only_trans|].
  intros e t v v' _ Ht Hv. eapply L2, L3, L4, Hv. done.
Qed.

Lemma promote_step ptok w r w' :
  epochs_ok w -> promote_pending_session ptok w = (r, w') ->
  sess_step w (match r with Ok (Some t) => Some t | _ => None end) w'.
Proof.
  intros He Hp. destruct (try_get_run (E := StatusCode) (pending_key ptok) w) as (w1 & Hg & K1 & V1).
  unfold promote_pending_session, get_pending_session in Hp. rewrite (bind_step _ _ _ _ _ Hg) in Hp.
  destruct (now_look w (pending_key ptok)) as [u|]; [|injection Hp as <- <-; by apply sess_step_views].
  destruct (kvdel_ok (pending_key ptok) w1) as (w2 & Hd).
  rewrite (bind_step _ _ _ _ _ (map_err_Ok internal500 _ _ _ _ Hd)) in Hp.
  apply kvdel_forgets in Hd as [K2 L2]. pose proof (kv_only_trans _ _ _ K1 K2) as K12.
  unfold bind in Hp. destruct (create_session u w2) as [r2 w3] eqn:Hc.
  apply create_session_step in Hc; [|by intros v; rewrite (epoch_of_kv_only _ _ _ K12)].
  eapply sess_step_after with (w1 := w2); [done|by apply kv_only_up| |].
  { intros t k v Ht Hv. rewrite <- (V1 t k Ht). eapply L2, Hv. }
  destruct r2; injection Hp as <- <-; exact Hc.
Qed.

Lemma find_user_update_ne id id' f us :
  id <> id' -> (forall u, u_id (f u) = u_id u) ->
  find_user id' (update_user id f us) = find_user id' us.
Proof.
  intros Hne Hf. unfold find_user, update_user. induction us as [|x us IH]; [done|]. cbn [map find].
  destruct (String.eqb_spec (u_id x) id) as [Hx|Hx].
  - rewrite Hf. destruct (String.eqb_spec (u_id x) id'); [congruence|done].
  - by rewrite IH.
Qed.

Lemma invalidate_run u row w :
  w_db_up w = true -> find_user u (w_users w) = Some row ->
  exists w', invalidate_user_sessions u w = (Ok tt, w') /\ w_now w' = w_now w /\
    w_db_up w' = true /\
    (forall v, epoch_of w' v = if decide (v = u) then epoch_of w v + 1 else epoch_of w v) /\
    forall t j, look w' t j =
      if starts_with ("sess:" +:+ show_Z (u_sess_epoch row) +:+ ":") j then None else look w t j.
Proof.
  intros Hup Hu. set (p := "sess:" +:+ show_Z (u_sess_epoch row) +:+ ":").
  set (w1 := set_users (update_user u bump_epoch (w_users w)) w).
  destruct (kvdel_prefix_run p w1) as (w2 & Hd & K2 & L2). exists w2.
  split; [|split; [by apply (kv_only_now _ _ K2)|split]].
  - unfold invalidate_user_sessions. rewrite (bind_step _ _ w (u_sess_epoch row) w) by (rewrite fetch_epoch_run, Hu; done).
    rewrite (bind_step _ _ w tt w1) by (unfold update_users; by rewrite Hup).
    by apply map_err_Ok.
  - by rewrite (kv_only_up _ _ K2).
  - split; [|exact L2]. intros v. rewrite (epoch_of_kv_only _ _ _ K2). unfold epoch_of, w1. cbn [w_users set_users].
    case_decide as Hv; [subst v; rewrite find_user_update, Hu by done; done|].
    by rewrite find_user_update_ne.
Qed.

Lemma invalidate_fails u w :
  w_db_up w = false \/ find_user u (w_users w) = None ->
  exists e, invalidate_user_sessions u w = (Err e, w).
Proof.
  intros Hd. unfold invalidate_user_sessions, bind, fetch_sess_epoch.
  destruct (w_db_up w); cbn [negb]; [|eauto]. destruct Hd as [|Hd]; [done|]. rewrite Hd. cbn. eauto.
Qed.

Lemma invalidate_step u w r w' : invalidate_user_sessions u w = (r, w') -> sess_step w None w'.
Proof.
  intros Hi.
  destruct (w_db_up w) eqn:Hup; [destruct (find_user u (w_users w)) as [row|] eqn:Hu|].
  - destruct (invalidate_run u row w Hup Hu) as (w1 & Hr & Hn & _ & He & Hl).
    rewrite Hr in Hi. simplify_eq. unfold sess_step. rewrite Hn. split; [done|]. split.
    + intros v. rewrite He. case_decide; lia.
    + intros e tok t v _ _ Hv. rewrite Hl in Hv. left. by destruct starts_with.
  - destruct (invalidate_fails u w (or_intror Hu)) as [e Hf]. rewrite Hf in Hi. simplify_eq.
    apply sess_step_refl.
  - destruct (invalidate_fails u w (or_introl Hup)) as [e Hf]. rewrite Hf in Hi. simplify_eq.
    apply sess_step_refl.
Qed.

(** ** Histories *)

(** One step of a history and the token it handed out.  [s_other] is everything
    else the process does: the clock moves, other keys and other columns change,
    rows appear, the database comes and goes. *)
Inductive sstep : W -> option string -> W -> Prop :=
  | s_create u w r w' : create_session u w = (r, w') ->
      sstep w (match r with Ok t => Some t | Err _ => None end) w'
  | s_get tok w (r : result StatusCode (option string)) w' :
      get_session tok w = (r, w') -> sstep w None w'
  | s_promote tok w r w' : promote_pending_session tok w = (r, w') ->
      sstep w (match r with Ok (Some t) => Some t | _ => None end) w'
  | s_remove tok w (r : result StatusCode unit) w' : remove_session tok w = (r, w') -> sstep w None w'
  | s_invalidate u w r w' : invalidate_user_sessions u w = (r, w') -> sstep w None w'
  | s_other w w' : w_now w <= w_now w' -> (forall u, epoch_of w u <= epoch_of w' u) ->
      (forall e tok t, w_now w' <= t -> look w' t (sess_key e tok) = look w t (sess_key e tok)) ->
      sstep w None w'.

Inductive history : W -> list string -> W -> Prop :=
  | h_nil w : history w [] w
  | h_cons w i w1 ts w2 : sstep w i w1 -> history w1 ts w2 ->
      history w (option_list i ++ ts) w2.

(** No session key of the store belongs to a future epoch of its owner. *)
Definition bounded w : Prop := epochs_ok w /\
  forall e tok t v, 0 <= e -> w_now w <= t -> look w t (sess_key e tok) = Some v -> e <= epoch_of w v.
(** [tok] does not and will not speak for [u] by itself. *)
Definition dead u tok w : Prop :=
  forall e t, epoch_of w u <= e -> w_now w <= t -> look w t (sess_key e tok) <> Some u.

Lemma epochs_ok_step w i w' : epochs_ok w -> sess_step w i w' -> epochs_ok w'.
Proof. intros He (_ & Hm & _) u. specialize (He u). specialize (Hm u). lia. Qed.

Lemma sstep_sess w i w' : epochs_ok w -> sstep w i w' -> sess_step w i w'.
Proof.
  intros He Hs. destruct Hs as [u w r w' Hr|tok w r w' Hr|tok w r w' Hr|tok w r w' Hr|u w r w' Hr|w w' Hn Hm Hl].
  - eapply create_session_step; eauto.
  - eapply get_session_step; eauto.
  - eapply promote_step; eauto.
  - eapply remove_session_step; eauto.
  - eapply invalidate_step; eauto.
  - split; [done|]. split; [done|]. intros e tok t v _ Ht Hv. left. by rewrite <- Hl.
Qed.

Lemma dead_session u tok w : dead u tok w -> session_user w tok <> Some u.
Proof.
  intros Hd Hs. unfold session_user in Hs. destruct (w_db_up w); [|done]. cbn [negb] in Hs.
  destruct (now_look w (tok_key tok)) as [v|]; [|done]. cbn [mbind option_bind] in Hs.
  destruct (find_user v (w_users w)) as [row|] eqn:Hv; [|done]. cbn [mbind option_bind] in Hs.
  destruct (now_look w (sess_key (u_sess_epoch row) tok)) as [s|] eqn:Hk; [|done]. cbn [mbind option_bind] in Hs.
  destruct (String.eqb_spec s v); [|done]. simplify_eq.
  apply (Hd (u_sess_epoch row) (w_now w)); [unfold epoch_of; by rewrite Hv|lia|done].
Qed.

Lemma bounded_step w i w' : bounded w -> sess_step w i w' -> bounded w'.
Proof.
  intros [He Hb] Hs. split; [by eapply epochs_ok_step|]. destruct Hs as (Hn & Hm & Hs).
  intros e tok t v H0e Ht Hv. specialize (Hm v).
  destruct (Hs e tok t v H0e Ht Hv) as [Ho|[-> _]]; [|lia].
  pose proof (Hb e tok t v H0e ltac:(lia) Ho). lia.
Qed.

Lemma dead_step u tok w i w' :
  epochs_ok w -> dead u tok w -> sess_step w i w' -> i <> Some tok -> dead u tok w'.
Proof.
  intros He Hd (Hn & Hm & Hs) Hi e t Hle Ht Hv. specialize (Hm u). specialize (He u).
  destruct (Hs e tok t u ltac:(lia) Ht Hv) as [Ho|[-> [Ho|Ho]]]; [|done|].
  - by apply (Hd e t); [lia|lia|].
  - by apply (dead_session u tok w).
Qed.

Lemma bounded_history w ts w' : history w ts w' -> bounded w -> bounded w'.
Proof.
  induction 1 as [|w i w1 ts w2 Hs Hh IH]; [done|]. intros Hb. apply IH.
  eapply bounded_step; [done|]. apply sstep_sess; [apply Hb|done].
Qed.

Lemma dead_history u tok w ts w' :
  history w ts w' -> tok ∉ ts -> bounded w -> dead u tok w -> dead u tok w'.
Proof.
  induction 1 as [|w i w1 ts w2 Hs Hh IH]; [done|]. intros Hni Hb Hd.
  apply sstep_sess in Hs; [|apply Hb]. apply IH; [set_solver|by eapply bounded_step|].
  eapply dead_step; [apply Hb|done..|]. intros ->. set_solver.
Qed.

Lemma invalidate_dead u tok w w' :
  bounded w -> invalidate_user_sessions u w = (Ok tt, w') -> dead u tok w'.
Proof.
  intros [He Hb] Hi e t Hle Ht Hv.
  destruct (w_db_up w) eqn:Hup; [destruct (find_user u (w_users w)) as [row|] eqn:Hu|].
  - destruct (invalidate_run u row w Hup Hu) as (w1 & Hr & Hn & _ & He1 & Hl).
    rewrite Hr in Hi. simplify_eq. rewrite He1, decide_True in Hle by done. rewrite Hn in Ht.
    rewrite Hl in Hv. destruct starts_with; [done|]. specialize (He u).
    pose proof (Hb e tok t u ltac:(lia) Ht Hv). lia.
  - destruct (invalidate_fails u w (or_intror Hu)) as [x Hf]. congruence.
  - destruct (invalidate_fails u w (or_introl Hup)) as [x Hf]. congruence.
Qed.

(** Once [invalidate_user_sessions] has answered for a user, whatever the
    process does next, no token handed out before opens a session of that
    user: in any history from a store without sessions, only a token issued after
    the invalidation can make [get_session] answer the user again. *)
Theorem invalidated_sessions_stay_dead (w0 w w1 w2 w3 : W) (before after : list string)
    (u tok : string) (r : result StatusCode (option string)) :
  epochs_ok w0 -> (forall e tok' t, look w0 t (sess_key e tok') = None) ->
  history w0 before w -> invalidate_user_sessions u w = (Ok tt, w1) ->
  history w1 after w2 -> tok ∉ after -> get_session tok w2 = (r, w3) ->
  r <> Ok (Some u).
Proof.
  intros He Hempty Hb Hi Ha Hni Hg ->.
  assert (Hb0 : bounded w).
  { eapply bounded_history; [done|]. split; [done|]. intros e t' t v _ _ Hv. by rewrite Hempty in Hv. }
  assert (Hd : dead u tok w1) by (by eapply invalidate_dead).
  apply (dead_history u tok _ _ _ Ha Hni) in Hd.
  - destruct (get_session_run (E := StatusCode) tok w2) as (w4 & Hr & _). rewrite Hr in Hg.
    injection Hg as Hs _. by apply (dead_session u tok w2).
  - eapply bounded_step; [done|]. by eapply invalidate_step.
Qed.

(** ** The sliding window *)

Definition full_window : Z := from_secs SESSION_TTL_SECS.
Definition half_window : Z := from_secs (SESSION_TTL_SECS / 2).

(** [tok] speaks for [u], whose epoch is [e]; its last renewal was at [r]. *)
Definition alive u tok e r w : Prop :=
  r <= w_now w /\ w_db_up w = true /\ (exists row, find_user u (w_users w) = Some row /\ u_sess_epoch row = e) /\
  forall t, w_now w <= t ->
    look w t (tok_key tok) = live t (Some (u, Some (r + full_window))) /\
    look w t (sess_key e tok) = live t (Some (u, Some (r + full_window))) /\
    look w t (refresh_key tok) = live t (Some (u, Some (r + half_window))).

(** Time passes and other things happen, but nothing touches the three keys of
    [tok] or the row of [u]. *)
Definition idle u tok w w' : Prop :=
  w_now w <= w_now w' /\ w_db_up w' = w_db_up w /\ find_user u (w_users w') = find_user u (w_users w) /\
  forall t, w_now w' <= t ->
    look w' t (tok_key tok) = look w t (tok_key tok) /\
    (forall e, look w' t (sess_key e tok) = look w t (sess_key e tok)) /\
    look w' t (refresh_key tok) = look w t (refresh_key tok).

(** The requests that present [tok]: instant and answer of each. *)
Inductive visits u tok : W -> list (Z * result StatusCode (option string)) -> W -> Prop :=
  | v_nil w : visits u tok w [] w
  | v_cons w w1 r w2 tr w3 : idle u tok w w1 -> get_session tok w1 = (r, w2) ->
      visits u tok w2 tr w3 -> visits u tok w ((w_now w1, r) :: tr) w3.

(** No gap between requests exceeds half the window. *)
Fixpoint spaced {A} (t : Z) (tr : list (Z * A)) : Prop :=
  match tr with [] => True | (s, _) :: tr' => s - t <= half_window /\ spaced s tr' end.
Fixpoint last_visit {A} (t : Z) (tr : list (Z * A)) : Z :=
  match tr with [] => t | (s, _) :: tr' => last_visit s tr' end.

Lemma alive_idle u tok e r w w' : alive u tok e r w -> idle u tok w w' -> alive u tok e r w'.
Proof.
  intros (Hr & Hup & Hrow & Hl) (Hn & Hup' & Hu & Hi).
  split; [lia|]. split; [congruence|]. split; [by rewrite Hu|]. intros t Ht.
  destruct (Hi t Ht) as (-> & -> & ->). apply Hl. lia.
Qed.

Lemma alive_session u tok e r w :
  alive u tok e r w ->
  session_user w tok = if r + full_window <=? w_now w then None else Some u.
Proof.
  intros (Hr & Hup & (row & Hu & He) & Hl). destruct (Hl (w_now w) (Z.le_refl _)) as (H1' & H2' & _).
  unfold session_user, now_look. rewrite Hup, H1'. cbn [live negb].
  destruct (r + full_window <=? w_now w) eqn:Hc; [done|]. cbn [mbind option_bind].
  rewrite Hu. cbn [mbind option_bind]. rewrite He, H2'. cbn [live]. rewrite Hc.
  cbn [mbind option_bind]. by rewrite String.eqb_refl.
Qed.

Lemma alive_written u tok e w w' :
  w_db_up w = true -> (exists row, find_user u (w_users w) = Some row /\ u_sess_epoch row = e) ->
  kv_only w w' ->
  (forall t j, w_now w <= t -> look w' t j = written (w_now w) u tok e t j (look w t j)) ->
  alive u tok e (w_now w) w'.
Proof.
  intros Hup Hrow Hk Hl. unfold alive.
  rewrite (kv_only_now _ _ Hk), (kv_only_up _ _ Hk), (kv_only_users _ _ Hk).
  split; [done|]. split; [done|]. split; [done|]. intros t Ht. rewrite !Hl by done.
  unfold written, full_window, half_window. rewrite (decide_False (P := tok_key tok = _)) by done.
  rewrite !(decide_False (P := sess_key e tok = _)) by done. by rewrite !decide_True.
Qed.

Lemma alive_get {E} u tok e r w r0 w' :
  alive u tok e r w -> w_now w < r + full_window -> get_session (E := E) tok w = (r0, w') ->
  r0 = Ok (Some u) /\ w_now w' = w_now w /\
  alive u tok e (if r + half_window <=? w_now w then w_now w else r) w'.
Proof.
  intros Ha Hlt Hg. destruct (get_session_run (E := E) tok w) as (w1 & Hrun & Hk & Hl).
  rewrite Hrun in Hg. simplify_eq. pose proof (alive_session _ _ _ _ _ Ha) as Hs.
  rewrite (proj2 (Z.leb_gt _ _) Hlt) in Hs.
  split; [by rewrite Hs|]. split; [by apply kv_only_now|].
  unfold after_read in Hl. rewrite Hs in Hl.
  pose proof Ha as (Hr & Hup & Hrow & Hv).
  destruct (Hv (w_now w) (Z.le_refl _)) as (_ & _ & Hm). unfold now_look in Hl. rewrite Hm in Hl.
  cbn [live] in Hl. destruct (r + half_window <=? w_now w).
  - apply alive_written; [done|done|done|]. destruct Hrow as (row & Hu & He).
    replace e with (epoch_of w u); [done|]. unfold epoch_of. by rewrite Hu.
  - apply (alive_idle u tok e r w); [done|]. split; [by rewrite (kv_only_now _ _ Hk)|].
    split; [by apply kv_only_up|]. split; [by rewrite (kv_only_users _ _ Hk)|].
    intros t Ht. rewrite (kv_only_now _ _ Hk) in Ht.
    split; [by apply Hl|]. split; [intros e'; by apply Hl|by apply Hl].
Qed.

Lemma visits_alive u tok e w tr w' : visits u tok w tr w' -> forall r s,
  alive u tok e r w -> spaced s tr -> r <= s < r + half_window -> s <= w_now w ->
  (forall v, v ∈ tr -> v.2 = Ok (Some u)) /\
  exists r', alive u tok e r' w' /\ r' <= last_visit s tr.
Proof.
  induction 1 as [w|w w1 r0 w2 tr w3 Hi Hg Hv IH]; intros r s Ha Hsp Hrs Hsn.
  { split; [by intros v ?%not_elem_of_nil|]. exists r. split; [done|]. simpl. lia. }
  destruct Hsp as [Hgap Hsp]. pose proof (alive_idle _ _ _ _ _ _ Ha Hi) as Ha1.
  assert (full_window = half_window + half_window) as Hfull by done.
  destruct (alive_get _ _ _ _ _ _ _ Ha1 ltac:(lia) Hg) as (-> & Hn & Ha2).
  destruct Hi as (Hn1 & _). destruct (IH _ (w_now w1) Ha2 Hsp) as (Hall & r' & Hr' & Hle).
  - assert (0 < half_window) by done. destruct (Z.leb_spec (r + half_window) (w_now w1)); lia.
  - rewrite Hn. lia.
  - split; [|by exists r']. intros v [->|Hin]%elem_of_cons; [done|by apply Hall].
Qed.

(** C11: the session window slides.  A session whose requests are never more than
    half the window (15 days) apart answers its user to every request, however
    long it lives; and once a full window (30 days) has passed since the last
    request, the token answers nobody. *)
Theorem session_window_slides (w w0 w1 w2 w3 : W) (u tok : string)
    (tr : list (Z * result StatusCode (option string))) (r : result StatusCode (option string)) :
  create_session u w = (Ok tok, w0) -> visits u tok w0 tr w1 -> spaced (w_now w) tr ->
  idle u tok w1 w2 -> last_visit (w_now w) tr + full_window <= w_now w2 ->
  get_session tok w2 = (r, w3) ->
  Forall (fun v => v.2 = Ok (Some u)) tr /\ r = Ok None.
Proof.
  intros Hc Hv Hsp Hi Hlast Hg.
  destruct (w_db_up w) eqn:Hup; [destruct (find_user u (w_users w)) as [row|] eqn:Hu|].
  - destruct (create_session_run u row w Hup Hu) as (tok' & w0' & Hr & Hk & Hl).
    rewrite Hr in Hc. simplify_eq.
    assert (Ha : alive u tok (u_sess_epoch row) (w_now w) w0) by (apply alive_written; eauto).
    destruct (visits_alive _ _ _ _ _ _ Hv _ _ Ha Hsp) as (Hall & r' & Ha' & Hle).
    { assert (0 < half_window) by done. lia. }
    { rewrite (kv_only_now _ _ Hk). lia. }
    split; [by apply Forall_forall|].
    pose proof (alive_session _ _ _ _ _ (alive_idle _ _ _ _ _ _ Ha' Hi)) as Hs.
    rewrite (proj2 (Z.leb_le _ _)) in Hs by lia.
    destruct (get_session_run (E := StatusCode) tok w2) as (w4 & Hrun & _). rewrite Hrun, Hs in Hg.
    by injection Hg as <- _.
  - destruct (create_session_fails u w (or_intror Hu)) as [x Hf]. congruence.
  - destruct (create_session_fails u w (or_introl Hup)) as [x Hf]. congruence.
Qed.

(** ** Failure counters *)

(** The counter [key] stands at [n] until [d]. *)
Definition counter (key : string) (n d : Z) w : Prop :=
  w_now w < d /\
  forall t, w_now w <= t -> look w t key = live t (Some (show_Z n, Some d)).
(** [w'] shows the same as [w] under every other key. *)
Definition others (key : string) w w' : Prop :=
  forall t j, w_now w <= t -> j <> key -> look w' t j = look w t j.

Lemma counter_look key n d w : counter key n d w -> now_look w key = Some (show_Z n).
Proof.
  intros [Hd Hl]. unfold now_look. rewrite Hl by lia. cbn. by rewrite (proj2 (Z.leb_gt _ _) Hd).
Qed.

Lemma kvincr_fresh key d ttl w :
  now_look w key = None ->
  exists w', kvincr key d ttl w = (Ok d, w') /\ kv_only w w' /\ others key w w' /\
  forall t, w_now w <= t -> look w' t key = live t (Some (show_Z d, deadline (w_now w) ttl)).
Proof.
  intros Hn. unfold kvincr, kv_call.
  destruct (kv_incr_fresh_law (w_now w) key d ttl (w_kv w) Hn) as (s' & -> & Hk & Ho).
  eexists. split; [done|]. split; [apply kv_only_kv|]. split.
  - intros t j Ht Hj. unfold look. cbn. by rewrite Ho.
  - intros t Ht. unfold look. cbn. by rewrite Hk.
Qed.

Lemma kvincr_counter key n d delta ttl w :
  counter key n d w -> i64_min <= n <= i64_max ->
  exists w', kvincr key delta ttl w = (Ok (i64_saturating_add n delta), w') /\ kv_only w w' /\
    others key w w' /\ counter key (i64_saturating_add n delta) d w'.
Proof.
  intros Hc Hn. pose proof (counter_look _ _ _ _ Hc) as Hl. destruct Hc as [Hd Hc].
  assert (Hcell : cells (w_kv w) key = Some (show_Z n, Some d)).
  { apply (sees_live_eq (w_now w) _ _ (show_Z n)); [|exact Hl]. intros t Ht. by apply Hc. }
  destruct (kv_incr_live_law (w_now w) key delta ttl (w_kv w) (show_Z n) (Some d) n)
    as (s' & Hr & Hk & Ho); [done|exact Hl|by apply parse_show_i64|].
  unfold kvincr, kv_call. rewrite Hr. eexists. split; [done|]. split; [apply kv_only_kv|]. split.
  - intros t j Ht Hj. unfold look. cbn. by rewrite Ho.
  - split; [done|]. intros t Ht. unfold look. cbn. by rewrite Hk.
Qed.

Lemma is_rate_limited_run key max_attempts w :
  exists w', is_rate_limited key max_attempts w
    = (Ok (max_attempts <=? default 0 (now_look w key ≫= parse_i64)), w') /\
    kv_only w w' /\ views w w'.
Proof.
  destruct (kvget_run key w) as (w1 & Hg & Hk & Hv). exists w1. split; [|done].
  unfold is_rate_limited. by rewrite (bind_step _ _ _ _ _ (map_err_Ok internal500 _ _ _ _ Hg)).
Qed.

Lemma ensure_not_limited_run key op w :
  exists w', ensure_not_rate_limited key op w
    = ((if RATE_LIMIT_MAX_ATTEMPTS <=? default 0 (now_look w key ≫= parse_i64)
        then Err AuthError.TooManyRequests else Ok tt), w') /\
    kv_only w w' /\ views w w'.
Proof.
  destruct (is_rate_limited_run key RATE_LIMIT_MAX_ATTEMPTS w) as (w1 & Hg & Hk & Hv).
  exists w1. split; [|done]. unfold ensure_not_rate_limited.
  rewrite (bind_step _ _ _ _ _ (map_err_Ok (fun _ => AuthError.Internal op) _ _ _ _ Hg)).
  by destruct (_ <=? _).
Qed.

Lemma counter_views key n d w w' :
  kv_only w w' -> views w w' -> counter key n d w -> counter key n d w'.
Proof.
  intros Hk Hv [Hd Hc]. split; rewrite (kv_only_now _ _ Hk); [done|].
  intros t Ht. rewrite Hv by done. by apply Hc.
Qed.

Lemma parse_counter n : i64_min <= n <= i64_max -> parse_i64 (show_Z n) = Some n.
Proof. apply parse_show_i64. Qed.

(** A failed attempt starts a window or adds to the open one. *)
Lemma note_failed_fresh key op w :
  now_look w key = None ->
  exists w', note_failed_attempt key op w = (Ok tt, w') /\ kv_only w w' /\ others key w w' /\
    counter key 1 (w_now w + from_secs RATE_LIMIT_WINDOW_SECS) w'.
Proof.
  intros Hn. destruct (kvincr_fresh key 1 (Some RATE_LIMIT_WINDOW_SECS) w Hn) as (w1 & Hr & Hk & Ho & Hl).
  exists w1. split; [|split; [done|split; [done|]]].
  - unfold note_failed_attempt, record_failed_attempt.
    by rewrite (bind_step _ _ _ _ _ (map_err_Ok _ _ _ _ _ (map_err_Ok internal500 _ _ _ _ Hr))).
  - unfold counter. rewrite (kv_only_now _ _ Hk). split; [|done].
    assert (0 < from_secs RATE_LIMIT_WINDOW_SECS) by done. lia.
Qed.

Lemma note_failed_counter key op n d w :
  counter key n d w -> 0 <= n < i64_max ->
  exists w', note_failed_attempt key op w = (Ok tt, w') /\ kv_only w w' /\ others key w w' /\
    counter key (n + 1) d w'.
Proof.
  intros Hc Hn. destruct (kvincr_counter key n d 1 (Some RATE_LIMIT_WINDOW_SECS) w Hc) as (w1 & Hr & Hk & Ho & Hc').
  { unfold i64_min. lia. }
  exists w1. split; [|split; [done|split; [done|]]].
  - unfold note_failed_attempt, record_failed_attempt.
    by rewrite (bind_step _ _ _ _ _ (map_err_Ok _ _ _ _ _ (map_err_Ok internal500 _ _ _ _ Hr))).
  - unfold i64_saturating_add in Hc'. rewrite Z.min_r, Z.max_r in Hc' by (unfold i64_min; lia). done.
Qed.

Lemma clear_failed_run {E} key w :
  exists w', clear_failed_attempts (E := E) key w = (Ok tt, w') /\ kv_only w w' /\
    forall t j, look w' t j = if decide (j = key) then None else look w t j.
Proof.
  destruct (kvdel_run key w) as (w1 & Hd & Hk & Hl). exists w1. split; [|done].
  unfold clear_failed_attempts. by rewrite (bind_step _ _ _ _ _ (attempt_Ok _ _ _ _ Hd)).
Qed.

(** ** Keys a computation leaves alone *)

Definition guards (q : string -> Prop) w w' : Prop :=
  kv_only w w' /\ forall t j, w_now w <= t -> q j -> look w' t j = look w t j.
#[export] Instance guards_pre q : PreOrder (guards q).
Proof.
  split; [by intros w; split; [apply kv_only_refl|]|]. intros x y z [K1 L1] [K2 L2].
  split; [by eapply kv_only_trans|]. intros t j Ht Hj. rewrite L2; [by apply L1| |done].
  by rewrite (kv_only_now _ _ K1).
Qed.

Lemma guards_get q k : preserves (guards q) (kvget (K := K) (R := R) k).
Proof.
  intros w r w' Hg. destruct (kvget_run k w) as (w1 & Hr & Hk & Hv). rewrite Hr in Hg. injection Hg as _ <-.
  split; [done|]. intros t j Ht _. by apply Hv.
Qed.
Lemma guards_set q k v ttl : ~ q k -> preserves (guards q) (kvset (K := K) (R := R) k v ttl).
Proof.
  intros Hq w r w' Hg. destruct (kvset_run k v ttl w) as (w1 & Hr & Hk & Hv). rewrite Hr in Hg.
  injection Hg as _ <-. split; [done|]. intros t j Ht Hj. rewrite Hv, decide_False; congruence.
Qed.
Lemma guards_del q k : ~ q k -> preserves (guards q) (kvdel (K := K) (R := R) k).
Proof.
  intros Hq w r w' Hg. destruct (kvdel_run k w) as (w1 & Hr & Hk & Hv). rewrite Hr in Hg.
  injection Hg as _ <-. split; [done|]. intros t j Ht Hj. rewrite Hv, decide_False; congruence.
Qed.
Lemma kvincr_others key d ttl w :
  exists r w', kvincr key d ttl w = (r, w') /\ kv_only w w' /\ others key w w'.
Proof.
  unfold kvincr, kv_call, others, look.
  destruct (live (w_now w) (cells (w_kv w) key)) as [v|] eqn:Hl.
  - destruct (parse_i64 v) as [n|] eqn:Hp.
    + destruct (cells (w_kv w) key) as [[v' e]|] eqn:Hc; [|done].
      assert (v' = v) as -> by (destruct e; cbn in Hl; [destruct (_ <=? _)|]; by simplify_eq).
      rewrite <- Hc in Hl.
      destruct (kv_incr_live_law (w_now w) key d ttl (w_kv w) v e n Hc Hl Hp) as (s' & -> & _ & Ho).
      eexists _, _. split; [done|]. split; [apply kv_only_kv|]. intros t j _ Hj. cbn. by rewrite Ho.
    + destruct (kv_incr_bad_law (w_now w) key d ttl (w_kv w) v Hl Hp) as (e & s' & -> & Ho).
      eexists _, _. split; [done|]. split; [apply kv_only_kv|]. intros t j Ht Hj. by apply Ho.
  - destruct (kv_incr_fresh_law (w_now w) key d ttl (w_kv w) Hl) as (s' & -> & _ & Ho).
    eexists _, _. split; [done|]. split; [apply kv_only_kv|]. intros t j _ Hj. cbn. by rewrite Ho.
Qed.
Lemma guards_incr q k d ttl : ~ q k -> preserves (guards q) (kvincr (K := K) (R := R) k d ttl).
Proof.
  intros Hq w r w' Hg. destruct (kvincr_others k d ttl w) as (r1 & w1 & Hr & Hk & Ho). rewrite Hr in Hg.
  injection Hg as _ <-. split; [done|]. intros t j Ht Hj. apply Ho; [done|congruence].
Qed.
Lemma guards_draw q n {E} : preserves (guards q) (draw (W := W) (E := E) n).
Proof.
  intros w r w'. unfold draw, fill_bytes, world_rng. destruct (fill_bytes n (w_rng w)) as [b g].
  intros [= _ <-]. split; [exists (w_kv w), g; by destruct w|done].
Qed.

(** The keys a session rests on. *)
Definition session_keys (j : string) : Prop :=
  (exists e tok, j = sess_key e tok) \/ exists tok, j = tok_key tok.

End SessionLemmas.

(** ** Witnesses *)

Definition demo_world : world MemoryKv.t N := toy_world [toy_user None None] [].
Definition demo_login := create_session "u1" demo_world.
Definition demo_token : string := match fst demo_login with Ok t => t | Err _ => "" end.
Definition demo_in : world MemoryKv.t N := snd demo_login.

Lemma demo_login_ok : create_session "u1" demo_world = (Ok demo_token, demo_in).
Proof. apply answer. vm_compute. reflexivity. Qed.
Lemma demo_epochs_ok : epochs_ok demo_world.
Proof. intros u. unfold epoch_of, find_user. cbn -[String.eqb]. by destruct (String.eqb _ u). Qed.
Lemma demo_empty e tok t : look demo_world t (sess_key e tok) = None.
Proof. change (live t (MemoryKvLaws.cells_of ∅ (sess_key e tok)) = None). unfold MemoryKvLaws.cells_of. by rewrite lookup_empty. Qed.
Lemma demo_history : history demo_world [demo_token] demo_in.
Proof.
  change [demo_token] with (option_list (Some demo_token) ++ [])%list.
  eapply h_cons, h_nil. exact (s_create "u1" _ _ _ demo_login_ok).
Qed.

(** A session is opened, the user's sessions are invalidated, the token is dead. *)
Lemma invalidated_sessions_stay_dead_witness :
  fst (get_session (E := StatusCode) demo_token demo_in) = Ok (Some "u1") /\
  fst (get_session (E := StatusCode) demo_token (snd (invalidate_user_sessions "u1" demo_in)))
    <> Ok (Some "u1").
Proof.
  split; [vm_compute; reflexivity|].
  set (w1 := snd (invalidate_user_sessions "u1" demo_in)).
  apply (invalidated_sessions_stay_dead demo_world demo_in w1 w1
           (snd (get_session (E := StatusCode) demo_token w1)) [demo_token] [] "u1" demo_token
           (fst (get_session (E := StatusCode) demo_token w1)) demo_epochs_ok demo_empty demo_history).
  - apply answer. vm_compute. reflexivity.
  - apply h_nil.
  - intros Hin. inversion Hin.
  - apply surjective_pairing.
Defined.

Definition days (n : Z) : Z := from_secs (n * 24 * 60 * 60).
Definition demo_visit1 := set_now (w_now demo_world + days 14) demo_in.
Definition demo_in1 := snd (get_session (E := StatusCode) demo_token demo_visit1).
Definition demo_visit2 := set_now (w_now demo_world + days 28) demo_in1.
Definition demo_in2 := snd (get_session (E := StatusCode) demo_token demo_visit2).
Definition demo_visit3 := set_now (w_now demo_world + days 43) demo_in2.
Definition demo_in3 := snd (get_session (E := StatusCode) demo_token demo_visit3).
Definition demo_late := set_now (w_now demo_world + days 73) demo_in3.

Lemma idle_set_now u tok t (w : world MemoryKv.t N) : w_now w <= t -> idle u tok w (set_now t w).
Proof. intros Ht. by split_and!. Qed.

(** Requests after 14, 28 and 43 days keep the session; 30 idle days end it. *)
Lemma session_window_slides_witness :
  Forall (fun v : Z * result StatusCode (option string) => v.2 = Ok (Some "u1"))
    [(w_now demo_visit1, fst (get_session demo_token demo_visit1));
     (w_now demo_visit2, fst (get_session demo_token demo_visit2));
     (w_now demo_visit3, fst (get_session demo_token demo_visit3))] /\
  fst (get_session (E := StatusCode) demo_token demo_late) = Ok None.
Proof.
  apply (session_window_slides demo_world demo_in demo_in3 demo_late
           (snd (get_session (E := StatusCode) demo_token demo_late)) "u1" demo_token
           _ (fst (get_session (E := StatusCode) demo_token demo_late)) demo_login_ok).
  - apply (v_cons "u1" demo_token demo_in demo_visit1 _ demo_in1);
      [apply idle_set_now; vm_compute; discriminate|apply surjective_pairing|].
    apply (v_cons "u1" demo_token demo_in1 demo_visit2 _ demo_in2);
      [apply idle_set_now; vm_compute; discriminate|apply surjective_pairing|].
    apply (v_cons "u1" demo_token demo_in2 demo_visit3 _ demo_in3);
      [apply idle_set_now; vm_compute; discriminate|apply surjective_pairing|apply v_nil].
  - cbn [spaced]. vm_compute. repeat split; discriminate.
  - apply idle_set_now; vm_compute; discriminate.
  - vm_compute. discriminate.
  - apply surjective_pairing.
Defined.
