(* ===== verification/Captcha.v ===== *)
(** * Captcha settings and verification ([auth/captcha.rs], [CaptchaConfig] of [config.rs])

    The siteverify services are a parameter ([CaptchaNet]); so is serde's codec of
    the settings blob ([SettingsJson]).  The map of provider pairs is a
    [BTreeMap] in the code: a finite map here. *)
From Stdlib Require Import QArith.
From S2P Require Import Prelude Kv Crypto UnlockRing World Toy Session.
Local Open Scope string_scope.
Local Open Scope Z_scope.

(** [CaptchaConfig] of [config.rs]. *)
Module CaptchaConfig.
Inductive t : Type :=
  | None_
  | Turnstile (site_key secret : string)
  | HCaptcha (site_key secret : string)
  | Recaptcha (site_key secret : string)
  | RecaptchaV3 (site_key secret : string).

Definition provider_name (c : t) : string :=
  match c with
  | None_ => "none"
  | Turnstile _ _ => "turnstile"
  | HCaptcha _ _ => "hcaptcha"
  | Recaptcha _ _ => "recaptcha"
  | RecaptchaV3 _ _ => "recaptcha-v3"
  end.

Definition credentials (c : t) : option string * option string :=
  match c with
  | None_ => (None, None)
  | Turnstile k s | HCaptcha k s | Recaptcha k s | RecaptchaV3 k s => (Some k, Some s)
  end.

(** The public slice: provider and site key, never the secret. *)
Definition public (c : t) : option (string * string) :=
  match c with
  | None_ => None
  | Turnstile k _ => Some ("turnstile", k)
  | HCaptcha k _ => Some ("hcaptcha", k)
  | Recaptcha k _ => Some ("recaptcha", k)
  | RecaptchaV3 k _ => Some ("recaptcha-v3", k)
  end.
End CaptchaConfig.

Inductive CaptchaError := Invalid | Unavailable.

(** A decoded siteverify answer: [success] and the v3 [score]. *)
Record SiteverifyResponse := mkSiteverify { sv_success : bool; sv_score : option Q }.

(** One form POST: the status and the decoded body, [None] when the request
    itself fails; an undecodable body is [None] inside. *)
Class CaptchaNet :=
  siteverify_post : string -> string -> string -> option (Z * option SiteverifyResponse).

Definition TURNSTILE_SITEVERIFY_URL : string :=
  "https://challenges.cloudflare.com/turnstile/v0/siteverify".
Definition HCAPTCHA_SITEVERIFY_URL : string := "https://api.hcaptcha.com/siteverify".
Definition RECAPTCHA_SITEVERIFY_URL : string :=
  "https://www.google.com/recaptcha/api/siteverify".
Definition RECAPTCHA_V3_MIN_SCORE : Q := 1 # 2.

Definition verify_at `{CaptchaNet} (url secret token : string)
    : result CaptchaError SiteverifyResponse :=
  match siteverify_post url secret token with
  | None => Err Unavailable
  | Some (status, body) =>
      if negb ((200 <=? status) && (status <? 300)) then Err Unavailable else
      match body with
      | None => Err Unavailable
      | Some b => if sv_success b then Ok b else Err Invalid
      end
  end.

Definition verify_captcha `{CaptchaNet} (captcha : CaptchaConfig.t) (token : string)
    : result CaptchaError unit :=
  match captcha with
  | CaptchaConfig.None_ => Ok tt
  | CaptchaConfig.Turnstile _ secret =>
      let? _ := verify_at TURNSTILE_SITEVERIFY_URL secret token in Ok tt
  | CaptchaConfig.HCaptcha _ secret =>
      let? _ := verify_at HCAPTCHA_SITEVERIFY_URL secret token in Ok tt
  | CaptchaConfig.Recaptcha _ secret =>
      let? _ := verify_at RECAPTCHA_SITEVERIFY_URL secret token in Ok tt
  | CaptchaConfig.RecaptchaV3 _ secret =>
      let? body := verify_at RECAPTCHA_SITEVERIFY_URL secret token in
      match sv_score body with
      | Some score => if Qle_bool RECAPTCHA_V3_MIN_SCORE score then Ok tt else Err Invalid
      | None => Err Invalid
      end
  end.

(** ** Stored settings *)

Definition SETTINGS_KV_KEY : string := "server:captcha-settings".

Record StoredPair := mkPair { sp_site_key : string; sp_secret : option EncryptedCredential }.
Record StoredSettings := mkSettings {
  st_active : string;
  st_providers : gmap string StoredPair;
  st_provider : option string;                      (* legacy v1 fields *)
  st_site_key : option string;
  st_secret_encrypted : option EncryptedCredential;
}.
(** The derived [Default]s. *)
Definition default_pair : StoredPair := mkPair "" None.
Definition default_settings : StoredSettings := mkSettings "" ∅ None None None.

(** serde_json on the blob; the legacy fields are read but never written. *)
Class SettingsJson := {
  settings_to_json : StoredSettings -> string;
  settings_of_json : string -> option StoredSettings;
}.
Definition without_legacy (s : StoredSettings) : StoredSettings :=
  mkSettings (st_active s) (st_providers s) None None None.
Class SettingsJsonLaws `{SettingsJson} :=
  settings_roundtrip : forall s, settings_of_json (settings_to_json s) = Some (without_legacy s).

Definition nonempty (o : option string) : bool :=
  match o with Some s => negb (is_empty s) | None => false end.

Definition normalize (s : StoredSettings) : StoredSettings :=
  let '(active, providers) :=
    match st_provider s with
    | None => (st_active s, st_providers s)
    | Some legacy =>
        let active := if is_empty (st_active s) then legacy else st_active s in
        let has_pair := nonempty (st_site_key s) || bool_decide (st_secret_encrypted s <> None) in
        if negb (String.eqb legacy "none") && has_pair
           && bool_decide (st_providers s !! legacy = None)
        then (active, <[legacy := mkPair (default "" (st_site_key s)) (st_secret_encrypted s)]>
                        (st_providers s))
        else (active, st_providers s)
    end in
  mkSettings (if is_empty active then "none" else active) providers None None None.

Definition parse_provider (provider : string) : option string :=
  let p := to_ascii_lowercase (trim provider) in
  if String.eqb p "none" then Some "none"
  else if String.eqb p "turnstile" then Some "turnstile"
  else if String.eqb p "hcaptcha" then Some "hcaptcha"
  else if String.eqb p "recaptcha" then Some "recaptcha"
  else if String.eqb p "recaptcha-v3" || String.eqb p "recaptcha_v3" then Some "recaptcha-v3"
  else None.

Definition config_from_parts (provider site_key : string) (secret : option string)
    : result CryptoError.t CaptchaConfig.t :=
  if String.eqb provider "none" then Ok CaptchaConfig.None_
  else if String.eqb provider "turnstile" || String.eqb provider "hcaptcha"
       || String.eqb provider "recaptcha" || String.eqb provider "recaptcha-v3" then
    match secret with
    | None => Err (CryptoError.Storage
                     ("captcha settings for " +:+ provider +:+ " are missing the secret"))
    | Some secret =>
        Ok (if String.eqb provider "turnstile" then CaptchaConfig.Turnstile site_key secret
            else if String.eqb provider "hcaptcha" then CaptchaConfig.HCaptcha site_key secret
            else if String.eqb provider "recaptcha" then CaptchaConfig.Recaptcha site_key secret
            else CaptchaConfig.RecaptchaV3 site_key secret)
    end
  else Err (CryptoError.Storage ("unknown captcha provider in settings: " +:+ provider)).

(** Errors of this layer are texts for the log; only their presence matters. *)
Definition logged : string := "captcha settings unavailable".

Inductive SaveSettingsError := IncompleteActive | Store (msg : string).
Record PairUpdate := mkUpdate { pu_site_key : option string; pu_secret : option string }.
Record PairView := mkPairView { pv_site_key : string; pv_has_secret : bool }.
Record SettingsView := mkView {
  sw_active : string; sw_providers : gmap string PairView; sw_source : string }.

Section Captcha.
Context {K R : Type} `{KvStore K} `{HasRng R} `{CryptoLib} `{SettingsJson}.
Local Abbreviation W := (world K R).

Definition settings_key : io W CryptoError.t string :=
  let! master := master_key in ret (derive_user_kek master "server:captcha-settings").

Definition decrypt_pair (sp : StoredPair) : io W string (string * option string) :=
  match sp_secret sp with
  | None => ret (sp_site_key sp, None)
  | Some enc =>
      let! key := map_err (fun _ => logged) settings_key in
      let! bytes := lift (rmap_err (fun _ => logged) (decrypt key enc)) in
      if utf8_valid bytes then ret (sp_site_key sp, Some bytes) else throw logged
  end.

Definition read_blob : io W string (option StoredSettings) :=
  let! raw := map_err (fun _ => logged) (kvget SETTINGS_KV_KEY) in
  match raw with
  | None => ret None
  | Some json =>
      match settings_of_json json with
      | None => throw logged
      | Some stored => ret (Some (normalize stored))
      end
  end.

Definition load_stored : io W string (option CaptchaConfig.t) :=
  let! blob := read_blob in
  match blob with
  | None => ret None
  | Some stored =>
      if String.eqb (st_active stored) "none" then ret (Some CaptchaConfig.None_) else
      match st_providers stored !! st_active stored with
      | None => ret (Some CaptchaConfig.None_)
      | Some sp =>
          let! (site_key, secret) := decrypt_pair sp in
          if is_empty site_key || bool_decide (secret = None)
          then ret (Some CaptchaConfig.None_)
          else
            let! c := lift (rmap_err (fun _ => logged)
                              (config_from_parts (st_active stored) site_key secret)) in
            ret (Some c)
      end
  end.

Definition env_complete (env_config : CaptchaConfig.t) (active : string) : bool :=
  String.eqb (CaptchaConfig.provider_name env_config) active &&
  match CaptchaConfig.credentials env_config with (Some _, Some _) => true | _ => false end.

Definition load_effective {E} (env_config : CaptchaConfig.t)
    : io W E (CaptchaConfig.t * string) :=
  let! r := attempt load_stored in
  match r with
  | Ok (Some CaptchaConfig.None_) =>
      let! again := attempt read_blob in
      match again with
      | Ok (Some stored) =>
          if negb (String.eqb (st_active stored) "none") && env_complete env_config (st_active stored)
          then ret (env_config, "settings")
          else ret (CaptchaConfig.None_, "settings")
      | _ => ret (CaptchaConfig.None_, "settings")
      end
  | Ok (Some config) => ret (config, "settings")
  | Ok None => ret (env_config, "env")
  | Err _ => ret (env_config, "env")
  end.

(** The views of the stored pairs; an unreadable one is left out. *)
Fixpoint pair_views {E} (pairs : list (string * StoredPair)) (acc : gmap string PairView)
    : io W E (gmap string PairView) :=
  match pairs with
  | [] => ret acc
  | (name, sp) :: rest =>
      let! r := attempt (decrypt_pair sp) in
      match r with
      | Ok (site_key, secret) =>
          pair_views rest (<[name := mkPairView site_key (bool_decide (secret <> None))]> acc)
      | Err _ => pair_views rest acc
      end
  end.

Definition env_pair (env_config : CaptchaConfig.t) : option (string * PairView) :=
  match CaptchaConfig.credentials env_config with
  | (Some site_key, secret) =>
      Some (CaptchaConfig.provider_name env_config,
            mkPairView site_key (bool_decide (secret <> None)))
  | (None, _) => None
  end.

Definition env_view (env_config : CaptchaConfig.t) : SettingsView :=
  mkView (CaptchaConfig.provider_name env_config)
    (match env_pair env_config with Some (n, v) => {[ n := v ]} | None => ∅ end) "env".

Definition load_view {E} (env_config : CaptchaConfig.t) : io W E SettingsView :=
  let! r := attempt read_blob in
  match r with
  | Ok (Some stored) =>
      let! providers := pair_views (map_to_list (st_providers stored)) ∅ in
      let providers :=
        match env_pair env_config with
        | Some (n, v) => match providers !! n with Some _ => providers | None => <[n := v]> providers end
        | None => providers
        end in
      ret (mkView (st_active stored) providers "settings")
  | Ok None => ret (env_view env_config)
  | Err _ => ret (env_view env_config)
  end.

(** The merge loop of [save_settings]. *)
Fixpoint apply_updates (updates : list (string * option PairUpdate)) (providers : gmap string StoredPair)
    : io W SaveSettingsError (gmap string StoredPair) :=
  match updates with
  | [] => ret providers
  | (provider, None) :: rest => apply_updates rest (delete provider providers)
  | (provider, Some update) :: rest =>
      let sp := default default_pair (providers !! provider) in
      let sp := match pu_site_key update with
                  | Some site_key => mkPair (trim site_key) (sp_secret sp)
                  | None => sp
                  end in
      match option_map trim (pu_secret update) with
      | Some secret =>
          if is_empty secret then apply_updates rest (<[provider := sp]> providers) else
          let! key := map_err (fun _ => Store logged) settings_key in
          let! enc := map_err (fun _ => Store logged) (encrypt key secret) in
          apply_updates rest (<[provider := mkPair (sp_site_key sp) (Some enc)]> providers)
      | None => apply_updates rest (<[provider := sp]> providers)
      end
  end.

Definition save_settings (env_config : CaptchaConfig.t) (active : string)
    (updates : list (string * option PairUpdate)) : io W SaveSettingsError unit :=
  let! blob := map_err Store read_blob in
  let stored := default default_settings blob in
  let! providers := apply_updates updates (st_providers stored) in
  let stored := mkSettings active providers (st_provider stored) (st_site_key stored)
                  (st_secret_encrypted stored) in
  let! _ :=
    if String.eqb active "none" then ret tt else
    let! complete_in_settings :=
      match st_providers stored !! active with
      | Some sp =>
          let! (site_key, secret) := map_err Store (decrypt_pair sp) in
          ret (negb (is_empty site_key) && bool_decide (secret <> None))
      | None => ret false
      end in
    ensure (complete_in_settings || env_complete env_config active) IncompleteActive in
  map_err (fun _ => Store logged) (kvset SETTINGS_KV_KEY (settings_to_json stored) None).

End Captcha.

(** ** Lemmas *)

(** The providers [parse_provider] can answer. *)
Lemma parse_provider_cases x active :
  parse_provider x = Some active ->
  In active ["none"; "turnstile"; "hcaptcha"; "recaptcha"; "recaptcha-v3"].
Proof.
  unfold parse_provider.
  repeat match goal with |- context [if ?b then _ else _] => destruct b end;
    intros [= <-]; simpl; tauto.
Qed.

(** A recognised provider with a secret builds the configuration of that name. *)
Lemma config_from_parts_name active site secret :
  In active ["none"; "turnstile"; "hcaptcha"; "recaptcha"; "recaptcha-v3"] -> active <> "none" ->
  exists c, config_from_parts active site (Some secret) = Ok c /\
    CaptchaConfig.provider_name c = active /\
    CaptchaConfig.credentials c = (Some site, Some secret).
Proof.
  intros Hin Hne. simpl in Hin.
  destruct Hin as [<-|[<-|[<-|[<-|[<-|[]]]]]]; [done|..]; eexists; split_and!; reflexivity.
Qed.

Section CaptchaLemmas.
Context {K R : Type} `{KvLaws K} `{HasRng R} `{CryptoLib} `{SettingsJson}.
Local Abbreviation W := (world K R).
Implicit Types w : W.

Lemma kv_only_master w w' : kv_only w w' -> w_master w' = w_master w.
Proof. by intros (s & g & ->). Qed.

Lemma decrypt_pair_master p w w' :
  w_master w' = w_master w -> decrypt_pair p w' = (fst (decrypt_pair p w), w').
Proof.
  intros Hm. unfold decrypt_pair. destruct (sp_secret p) as [enc|]; [|done].
  unfold settings_key, master_key, bind, map_err, lift, ret, throw. rewrite Hm.
  destruct (w_master w) as [m|]; cbn; [|done].
  destruct (decrypt _ enc) as [bytes|]; cbn; [|done]. by destruct (utf8_valid bytes).
Qed.

(** What a reader of the settings blob gets. *)
Definition blob_of w : result string (option StoredSettings) :=
  match now_look w SETTINGS_KV_KEY with
  | None => Ok None
  | Some json => match settings_of_json json with
                 | None => Err logged
                 | Some s => Ok (Some (normalize s))
                 end
  end.

Lemma read_blob_run w :
  exists w', read_blob w = (blob_of w, w') /\ kv_only w w' /\ views w w'.
Proof.
  destruct (kvget_run SETTINGS_KV_KEY w) as (w1 & Hg & Hk & Hv). exists w1. split; [|done].
  unfold read_blob, blob_of. rewrite (bind_step _ _ _ _ _ (map_err_Ok _ _ _ _ _ Hg)).
  destruct (now_look w SETTINGS_KV_KEY) as [json|]; [|done]. by destruct (settings_of_json json).
Qed.

Lemma blob_of_views w w' : kv_only w w' -> views w w' -> blob_of w' = blob_of w.
Proof. intros Hk Hv. unfold blob_of. by rewrite (views_now _ _ _ Hk Hv). Qed.

Lemma encrypt_kv_only key pt w r w' : encrypt key pt w = (r, w') -> kv_only w w'.
Proof.
  unfold encrypt. destruct (negb _).
  { intros [= _ <-]. apply kv_only_refl. }
  unfold bind, draw, fill_bytes, world_rng. destruct (fill_bytes 12 (w_rng w)) as [n g].
  destruct (aes_encrypt key n pt); intros [= _ <-]; exists (w_kv w), g; by destruct w.
Qed.

Lemma apply_updates_kv_only us : forall ps w r w',
  apply_updates us ps w = (r, w') -> kv_only w w'.
Proof.
  induction us as [|[name [u|]] us IH]; intros ps w r w'; cbn [apply_updates].
  - intros [= _ <-]. apply kv_only_refl.
  - destruct (option_map trim (pu_secret u)) as [secret|]; [|apply IH].
    destruct (is_empty secret); [apply IH|].
    unfold bind, map_err, settings_key, master_key, bind, ret.
    destruct (w_master w) as [m|]; cbn; [|intros [= _ <-]; apply kv_only_refl].
    destruct (encrypt _ secret w) as [[enc|e] w1] eqn:He; apply encrypt_kv_only in He; cbn.
    + intros Hr. by eapply kv_only_trans, IH.
    + by intros [= _ <-].
  - apply IH.
Qed.

(** The check [save_settings] makes on the active provider. *)
Definition resolves (env_config : CaptchaConfig.t) (active : string) (ps : gmap string StoredPair)
    w : Prop :=
  match ps !! active with
  | None => env_complete env_config active = true
  | Some p => exists site secret, fst (decrypt_pair p w) = Ok (site, secret) /\
      ((is_empty site = false /\ secret <> None) \/ env_complete env_config active = true)
  end.

Lemma save_settings_run env_config active us w w' :
  active <> "none" -> save_settings env_config active us w = (Ok tt, w') ->
  exists s, st_active s = active /\ resolves env_config active (st_providers s) w /\
    kv_only w w' /\ forall t, w_now w <= t -> look w' t SETTINGS_KV_KEY = Some (settings_to_json s).
Proof.
  intros Hne Hs. destruct (read_blob_run w) as (w1 & Hb & K1 & _).
  unfold save_settings in Hs. apply bind_Ok in Hs as (blob & w1' & Hb' & Hs).
  assert (w1' = w1) as -> by (unfold map_err in Hb'; rewrite Hb in Hb'; by injection Hb').
  apply bind_Ok in Hs as (ps & w2 & Hu & Hs). apply apply_updates_kv_only in Hu.
  pose proof (kv_only_trans _ _ _ K1 Hu) as K2.
  rewrite (proj2 (String.eqb_neq _ _) Hne) in Hs. cbn [st_providers] in Hs.
  apply bind_Ok in Hs as ([] & w3 & Hc & Hs). apply bind_Ok in Hc as (complete & w3' & Hp & Hc).
  set (s := mkSettings active ps _ _ _) in *.
  assert (w3' = w2 /\ (if complete then match ps !! active with Some p => exists site secret,
      fst (decrypt_pair p w) = Ok (site, secret) /\ is_empty site = false /\ secret <> None | None => False end
    else match ps !! active with Some p => exists x, fst (decrypt_pair p w) = Ok x | None => True end))
    as [-> Hcomp].
  { destruct (ps !! active) as [p|]; [|by injection Hp as <- <-].
    apply bind_Ok in Hp as ([site secret] & wx & Hd & Hp). unfold map_err in Hd.
    rewrite (decrypt_pair_master p w w2 (kv_only_master _ _ K2)) in Hd.
    destruct (fst (decrypt_pair p w)) as [x|]; [|done]. injection Hd as -> ->.
    injection Hp as <- <-. split; [done|].
    destruct (is_empty site) eqn:Hsite; cbn; [eauto|]. case_bool_decide; eauto. }
  unfold ensure in Hc. destruct (complete || env_complete env_config active) eqn:Hok; [|done].
  injection Hc as <-. exists s. split; [done|]. split.
  { unfold resolves, s. cbn. destruct complete, (ps !! active) as [p|]; try done.
    - destruct Hcomp as (site & secret & Hd & ? & ?). exists site, secret. eauto.
    - destruct Hcomp as [[site secret] Hd]. exists site, secret. auto. }
  destruct (kvset_run SETTINGS_KV_KEY (settings_to_json s) None w2) as (w4 & Hset & K4 & V4).
  unfold map_err in Hs. rewrite Hset in Hs. injection Hs as <-.
  split; [by eapply kv_only_trans|]. intros t Ht.
  rewrite V4, decide_True by (rewrite ?(kv_only_now _ _ K2); done). done.
Qed.

(** Saving captcha settings never leaves login unprotected: when a save with a
    recognised, non-[none] provider is accepted, then as long as nothing rewrites
    the blob the effective configuration is one of exactly that provider
    with a site key and a secret, taken from the settings or from the environment. *)
Theorem saved_captcha_is_enforced `{!SettingsJsonLaws} (raw active : string)
    (env_config : CaptchaConfig.t) (us : list (string * option PairUpdate)) (w w1 w2 : W) :
  parse_provider raw = Some active -> active <> "none" ->
  save_settings env_config active us w = (Ok tt, w1) ->
  w_now w1 <= w_now w2 -> w_master w2 = w_master w1 ->
  (forall t, look w2 t SETTINGS_KV_KEY = look w1 t SETTINGS_KV_KEY) ->
  exists c w3 site secret,
    load_effective (E := AuthError.t) env_config w2 = (Ok (c, "settings"), w3) /\
    CaptchaConfig.provider_name c = active /\
    CaptchaConfig.credentials c = (Some site, Some secret).
Proof.
  intros Hp Hne Hs Hn Hm Hl. apply parse_provider_cases in Hp.
  destruct (save_settings_run _ _ _ _ _ Hne Hs) as (s & <- & Hres & Hk & Hv).
  set (active := st_active s) in *.
  assert (Hb : blob_of w2 = Ok (Some (mkSettings active (st_providers s) None None None))).
  { unfold blob_of, now_look. rewrite Hl, Hv, settings_roundtrip by (rewrite <- (kv_only_now _ _ Hk); done).
    do 2 f_equal. unfold normalize, without_legacy. cbn -[is_empty]. fold active.
    destruct (is_empty active) eqn:He; [|done]. by destruct Hp as [<-|[<-|[<-|[<-|[<-|[]]]]]]. }
  destruct (read_blob_run w2) as (w3 & Hr & K3 & V3). rewrite Hb in Hr.
  destruct (read_blob_run w3) as (w4 & Hr4 & K4 & V4).
  rewrite (blob_of_views _ _ K3 V3), Hb in Hr4.
  assert (Henv : env_complete env_config active = true ->
    load_stored w2 = (Ok (Some CaptchaConfig.None_), w3) ->
    exists c w5 site secret, load_effective (E := AuthError.t) env_config w2 = (Ok (c, "settings"), w5) /\
      CaptchaConfig.provider_name c = active /\ CaptchaConfig.credentials c = (Some site, Some secret)).
  { intros He Hls. unfold load_effective. rewrite (bind_step _ _ _ _ _ (attempt_Ok _ _ _ _ Hls)).
    rewrite (bind_step _ _ _ _ _ (attempt_Ok _ _ _ _ Hr4)). cbn [st_active].
    rewrite (proj2 (String.eqb_neq _ _) Hne), He. cbn [negb andb].
    unfold env_complete in He. apply andb_prop in He as [He1%String.eqb_eq He2].
    destruct (CaptchaConfig.credentials env_config) as [[site|] [secret|]] eqn:Hc; try done.
    by exists env_config, w4, site, secret. }
  assert (Hload : load_stored w2 = match st_providers s !! active with
    | None => (Ok (Some CaptchaConfig.None_), w3)
    | Some p => (let! (site_key, secret) := decrypt_pair p in
        if is_empty site_key || bool_decide (secret = None) then ret (Some CaptchaConfig.None_)
        else let! c := lift (rmap_err (fun _ => logged) (config_from_parts active site_key secret)) in
             ret (Some c)) w3 end).
  { unfold load_stored. rewrite (bind_step _ _ _ _ _ Hr). cbn [st_active st_providers].
    rewrite (proj2 (String.eqb_neq _ _) Hne). by destruct (st_providers s !! active). }
  unfold resolves in Hres. destruct (st_providers s !! active) as [p|]; [|by apply Henv].
  destruct Hres as (site & secret & Hd & Hcomp).
  assert (Hd3 : decrypt_pair p w3 = (Ok (site, secret), w3)).
  { rewrite (decrypt_pair_master p w w3), Hd; [done|].
    by rewrite (kv_only_master _ _ K3), Hm, (kv_only_master _ _ Hk). }
  rewrite (bind_step _ _ _ _ _ Hd3) in Hload.
  destruct (is_empty site || bool_decide (secret = None)) eqn:Hinc.
  - destruct Hcomp as [[Hsite Hsec]|He]; [|by apply Henv].
    rewrite Hsite, bool_decide_false in Hinc by done. done.
  - apply orb_false_iff in Hinc as [_ Hsec]. destruct secret as [secret|]; [|done].
    destruct (config_from_parts_name active site secret Hp Hne) as (c & Hc & Hname & Hcred).
    rewrite Hc in Hload. exists c, w3, site, secret. split; [|done].
    unfold load_effective. rewrite (bind_step _ _ _ _ _ (attempt_Ok _ _ _ _ Hload)).
    by destruct c.
Qed.

End CaptchaLemmas.

(** ** Witness *)

(** A toy settings codec: the countable encoding, written in binary. *)
#[export] Instance encrypted_eq_dec : EqDecision EncryptedCredential.
Proof. solve_decision. Defined.
#[export] Instance encrypted_countable : Countable EncryptedCredential :=
  inj_countable' (fun c => (ciphertext c, nonce c)) (fun p => mkEncrypted p.1 p.2)
    (fun c => match c with mkEncrypted _ _ => eq_refl end).
#[export] Instance stored_pair_eq_dec : EqDecision StoredPair.
Proof. solve_decision. Defined.
#[export] Instance stored_pair_countable : Countable StoredPair :=
  inj_countable' (fun p => (sp_site_key p, sp_secret p)) (fun p => mkPair p.1 p.2)
    (fun c => match c with mkPair _ _ => eq_refl end).

#[export] Instance toy_settings_json : SettingsJson := {
  settings_to_json s := bits (encode (st_active s, st_providers s));
  settings_of_json j := option_map (fun p => mkSettings p.1 p.2 None None None) (decode (unbits j));
}.
#[export] Instance toy_settings_laws : SettingsJsonLaws.
Proof.
  intros [a ps l k e]. cbn [settings_to_json settings_of_json toy_settings_json st_active st_providers].
  by rewrite unbits_bits, decode_encode.
Qed.

Definition captcha_world : world MemoryKv.t N := toy_world [] [].
Definition captcha_updates : list (string * option PairUpdate) :=
  [("hcaptcha", Some (mkUpdate (Some " site ") (Some "s3cret")))].

Lemma saved_captcha_is_enforced_witness :
  exists w1 c w3 site secret,
    save_settings CaptchaConfig.None_ "hcaptcha" captcha_updates captcha_world = (Ok tt, w1) /\
    load_effective (E := AuthError.t) CaptchaConfig.None_ w1 = (Ok (c, "settings"), w3) /\
    CaptchaConfig.provider_name c = "hcaptcha" /\
    CaptchaConfig.credentials c = (Some site, Some secret).
Proof.
  set (o := save_settings CaptchaConfig.None_ "hcaptcha" captcha_updates captcha_world).
  assert (Hok : fst o = Ok tt) by (vm_compute; reflexivity).
  destruct o as [r w1] eqn:Ho. simpl in Hok. subst r.
  destruct (saved_captcha_is_enforced " HCaptcha " "hcaptcha" CaptchaConfig.None_ captcha_updates
              captcha_world w1 w1 ltac:(reflexivity) ltac:(discriminate) Ho (Z.le_refl _) eq_refl
              (fun t => eq_refl)) as (c & w3 & site & secret & Hl).
  exists w1, c, w3, site, secret. split; [done|exact Hl].
Defined.
