(* ===== verification/Auth.v ===== *)
(** * Authentication handlers ([auth/handlers.rs], [auth/db.rs], [auth/password.rs],
    [auth/totp.rs], [auth/mod.rs])

    Each HTTP handler is one [io] computation over the world; JSON bodies are
    records.  Argon2, the TOTP crate, UUIDs and serde's [Value] are parameters
    ([AuthLib]). *)
From S2P Require Import Prelude Kv Crypto UnlockRing World Toy Session Captcha.
Local Open Scope string_scope.
Local Open Scope Z_scope.

Class AuthLib := {
  (** argon2: hash of a password under a salt; [None] is an unparsable hash *)
  argon2_hash : string -> string -> option string;
  argon2_verify : string -> string -> option bool;
  (** totp-rs: is the secret and account name accepted; the code of an instant
      (seconds); [check_current]; the otpauth URL *)
  totp_accepts : string -> string -> bool;
  totp_generate : string -> Z -> string;
  totp_check : string -> Z -> string -> option bool;
  totp_url : string -> string -> string;
  (** a UUIDv7 of an instant and random bytes *)
  uuid_v7 : Z -> string -> string;
  (** serde_json values *)
  json : Type;
  json_is_object : json -> bool;
  json_to_string : json -> option string;
  json_of_string : string -> option json;
}.

(** What the handlers' correctness needs of Argon2. *)
Class AuthLaws `{AuthLib} :=
  argon2_roundtrip : forall p salt h, argon2_hash p salt = Some h -> argon2_verify p h = Some true.

(** ** [password.rs] *)

Definition classes_of (password : string) : nat :=
  length (List.filter id
    [sexists is_upper password; sexists is_lower password; sexists is_digit password;
     sexists (fun c => negb (is_alnum c)) password]).

Definition validate_password (password : string) (min_length : Z) : result string unit :=
  if MAX_PASSWORD_LENGTH <? Z.of_nat (String.length password)
  then Err ("Password must be at most " +:+ show_Z MAX_PASSWORD_LENGTH +:+ " characters") else
  let chars := Z.of_nat (char_count password) in
  if chars <? min_length
  then Err ("Password must be at least " +:+ show_Z min_length +:+ " characters") else
  if (classes_of password <? 3)%nat && (chars <? 20)
  then Err "Password must combine at least 3 of uppercase, lowercase, digits, symbols — or be at least 20 characters (passphrase)"
  else Ok tt.

(** ** [db.rs]: rows and small conversions *)

Record UserData := mkUserData {
  ud_id : string; ud_username : string; ud_password_hash : option string;
  ud_totp_enabled : bool; ud_totp_secret : option string; ud_display_name : option string;
  ud_locale : string; ud_mark_read_policy : string; ud_ui_state : option string }.

Definition is_mark_read_policy (raw : string) : bool :=
  String.eqb raw "on_open" || String.eqb raw "on_scroll_end" || String.eqb raw "manual".
Definition parse_mark_read_policy (raw : string) : result AuthError.t string :=
  if is_mark_read_policy raw then Ok raw
  else Err (AuthError.BadRequest "markReadPolicy must be on_open, on_scroll_end, or manual").
Definition parse_stored_mark_read_policy (raw : string) : string :=
  if is_mark_read_policy raw then raw else "on_open".

Definition user_data_from (row : LyraUser) : UserData :=
  mkUserData (u_id row) (u_username row) (Some (u_password_hash row)) (u_totp_enabled row)
    (u_totp_secret row) (u_display_name row) (u_locale row)
    (parse_stored_mark_read_policy (u_mark_read_policy row)) (u_ui_state row).

Record UserInfo `{AuthLib} := mkUserInfo {
  ui_id : string; ui_username : string; ui_display_name : option string; ui_locale : string;
  ui_totp_enabled : bool; ui_mark_read_policy : string; ui_state : option json }.

Definition user_info_from `{AuthLib} (user : UserData) : UserInfo :=
  mkUserInfo _ (ud_id user) (ud_username user) (ud_display_name user) (ud_locale user)
    (ud_totp_enabled user) (ud_mark_read_policy user) (ud_ui_state user ≫= json_of_string).

(** Answers of the handlers. *)
Record LoginResponse `{AuthLib} := mkLogin {
  lr_token : string; lr_user : UserInfo; lr_requires_totp : bool }.
Record AuthStatus := mkStatus {
  as_has_user : bool; as_totp_enabled : bool; as_captcha : option (string * string) }.
Record TotpEnrollResponse := mkEnroll { te_secret : string; te_otpauth_uri : string }.

(** The part of [AuthState] the handlers read besides the stores. *)
Record AuthState := mkState { captcha : CaptchaConfig.t; min_password_length : Z }.

Definition BOOTSTRAP_TAKEN : string :=
  "A user already exists. Bootstrap is only available for first-time setup.".
Definition MAX_UI_STATE_BYTES : Z := 16 * 1024.

(** ** [HeaderMap] access: the [Authorization] header's bytes, if present *)
Definition visible_ascii (a : ascii) : bool := in_range 32 126 (byte a) || (byte a =? 9)%N.
Definition extract_token_from_headers (authorization : option string) : option string :=
  authorization ≫= fun v => if sforall visible_ascii v then strip_prefix "Bearer " v else None.

Section Auth.
Context {K R : Type} `{KvStore K} `{HasRng R} `{CryptoLib} `{SettingsJson} `{CaptchaNet} `{AuthLib}.
Local Abbreviation W := (world K R).
Local Abbreviation M := (io W AuthError.t).

Definition hash_password (password : string) : M string :=
  let! salt := draw 16 in
  lift (ok_or (AuthError.Internal "Failed to hash password") (argon2_hash password salt)).

Definition verify_password (password hash : string) : result StatusCode bool :=
  ok_or INTERNAL_SERVER_ERROR (argon2_verify password hash).

(** ** [totp.rs] *)

(** A TOTP generator of [build_totp]: its secret bytes; the account name only
    matters for the URL. *)
Definition build_totp_from_raw (secret_bytes username : string) : result AuthError.t string :=
  if totp_accepts secret_bytes username then Ok secret_bytes
  else Err (AuthError.Internal "Failed to build TOTP").
Definition build_totp (secret_base32 username : string) : result AuthError.t string :=
  match base32_decode secret_base32 with
  | None => Err (AuthError.Internal "Failed to build TOTP")
  | Some secret_bytes => build_totp_from_raw secret_bytes username
  end.

Definition totp_step : Z := 30.
Definition unix_secs (now : Z) : option Z :=
  if now <? 0 then None else Some (now / nanos_per_sec).
(** First matching step of [current - 1 ..= current + 1] (saturating at 0). *)
Definition matched_totp_step (now : Z) (totp code : string) : option Z :=
  unix_secs now ≫= fun secs =>
  let current := secs / totp_step in
  let first := Z.max 0 (current - 1) in
  List.find (fun s => String.eqb (totp_generate totp (s * totp_step)) code)
    (map (fun i => first + Z.of_nat i) (seq 0 (Z.to_nat (current + 1 - first + 1)))).

(** ** Statements of [db.rs] *)

Definition stmt {E A} (e : E) (f : W -> A * W) : io W E A :=
  fun w => if negb (w_db_up w) then (Err e, w) else let '(a, w') := f w in (Ok a, w').

Definition has_any_user : io W StatusCode bool :=
  stmt INTERNAL_SERVER_ERROR (fun w => ((0 <? length (w_users w))%nat, w)).
Definition find_first_user_totp_enabled : io W StatusCode bool :=
  stmt INTERNAL_SERVER_ERROR
    (fun w => (match w_users w with u :: _ => u_totp_enabled u | [] => false end, w)).

Inductive DbErr := UniqueViolation | DbOther.
Definition is_unique_violation (e : DbErr) : bool :=
  match e with UniqueViolation => true | DbOther => false end.

(** The [singleton] unique index rejects every row after the first. *)
Definition insert_user (id username password_hash : string) (display_name : option string)
    (locale encrypted_dek : string) : io W DbErr unit :=
  fun w => if negb (w_db_up w) then (Err DbOther, w) else
    match w_users w with
    | _ :: _ => (Err UniqueViolation, w)
    | [] => (Ok tt, set_users [mkUser id username password_hash None false display_name locale
                                 (Some encrypted_dek) 0 "on_open" None] w)
    end.

Definition find_user_by_username (username : string) : M (option UserData) :=
  stmt (AuthError.Internal "Authentication failed")
    (fun w => (option_map user_data_from
                 (List.find (fun u => String.eqb (u_username u) username) (w_users w)), w)).
Definition find_user_by_id (user_id : string) : M (option UserData) :=
  stmt (AuthError.Internal "Failed to look up user")
    (fun w => (option_map user_data_from (find_user user_id (w_users w)), w)).

Definition set_password (h : string) (u : LyraUser) : LyraUser :=
  mkUser (u_id u) (u_username u) h (u_totp_secret u) (u_totp_enabled u) (u_display_name u)
    (u_locale u) (u_encrypted_dek u) (u_sess_epoch u) (u_mark_read_policy u) (u_ui_state u).
Definition set_locale (l : string) (u : LyraUser) : LyraUser :=
  mkUser (u_id u) (u_username u) (u_password_hash u) (u_totp_secret u) (u_totp_enabled u)
    (u_display_name u) l (u_encrypted_dek u) (u_sess_epoch u) (u_mark_read_policy u) (u_ui_state u).
Definition set_policy (p : string) (u : LyraUser) : LyraUser :=
  mkUser (u_id u) (u_username u) (u_password_hash u) (u_totp_secret u) (u_totp_enabled u)
    (u_display_name u) (u_locale u) (u_encrypted_dek u) (u_sess_epoch u) p (u_ui_state u).
Definition set_ui_state (s : string) (u : LyraUser) : LyraUser :=
  mkUser (u_id u) (u_username u) (u_password_hash u) (u_totp_secret u) (u_totp_enabled u)
    (u_display_name u) (u_locale u) (u_encrypted_dek u) (u_sess_epoch u) (u_mark_read_policy u)
    (Some s).

Definition update_user_totp (user_id : string) (secret : option string) (enabled : bool)
    : io W StatusCode unit := update_users user_id (set_totp secret enabled).
Definition update_user_password (user_id hash : string) : io W StatusCode unit :=
  update_users user_id (set_password hash).

Definition update_prefs (user_id : string) (f : LyraUser -> LyraUser) : M unit :=
  map_err (fun _ => AuthError.Internal "Failed to update preferences") (update_users user_id f).
Definition update_locale (user_id locale : string) : M unit := update_prefs user_id (set_locale locale).
Definition update_ui_state (user_id s : string) : M unit := update_prefs user_id (set_ui_state s).
Definition update_mark_read_policy (user_id p : string) : M unit :=
  update_prefs user_id (set_policy p).

Definition crypto_err (e : CryptoError.t) : AuthError.t := AuthError.Crypto e.

(** The user row of a handler, [500] when it is gone. *)
Definition require_user (user_id : string) : M UserData :=
  let! user := find_user_by_id user_id in
  lift (ok_or (AuthError.Internal "User not found") user).

(** ** Captcha gate *)

Definition ensure_captcha (st : AuthState) (token : option string) : M unit :=
  let! (c, _) := load_effective (captcha st) in
  match c with
  | CaptchaConfig.None_ => ret tt
  | _ =>
      match token with
      | Some t =>
          if is_empty (trim t) then throw (AuthError.BadRequest "Captcha verification required")
          else lift (rmap_err (fun _ => AuthError.BadRequest "Captcha verification failed")
                       (verify_captcha c t))
      | None => throw (AuthError.BadRequest "Captcha verification required")
      end
  end.

Definition auth_status (st : AuthState) : M AuthStatus :=
  let! any := attempt has_any_user in
  let has_user := match any with Ok b => b | Err _ => false end in
  let! totp_enabled :=
    if has_user then
      let! t := attempt find_first_user_totp_enabled in
      ret (match t with Ok b => b | Err _ => false end)
    else ret false in
  let! (c, _) := load_effective (captcha st) in
  ret (mkStatus has_user totp_enabled (CaptchaConfig.public c)).

(** ** Captcha settings handlers *)

Definition get_captcha_settings (st : AuthState) : M SettingsView := load_view (captcha st).

Fixpoint captcha_updates_of (providers : list (string * option PairUpdate))
    : result AuthError.t (list (string * option PairUpdate)) :=
  match providers with
  | [] => Ok []
  | (p, u) :: rest =>
      match parse_provider p with
      | Some p' =>
          if String.eqb p' "none"
          then Err (AuthError.BadRequest "providers keys must be turnstile, hcaptcha, recaptcha, or recaptcha-v3")
          else let? us := captcha_updates_of rest in Ok ((p', u) :: us)
      | None => Err (AuthError.BadRequest "providers keys must be turnstile, hcaptcha, recaptcha, or recaptcha-v3")
      end
  end.

Definition put_captcha_settings (st : AuthState) (req_active : string)
    (req_providers : list (string * option PairUpdate)) : M SettingsView :=
  match parse_provider req_active with
  | None => throw (AuthError.BadRequest
                     "active must be none, turnstile, hcaptcha, recaptcha, or recaptcha-v3")
  | Some active =>
      let! updates := lift (captcha_updates_of req_providers) in
      let! _ := map_err (fun e => match e with
                  | IncompleteActive =>
                      AuthError.BadRequest "the active provider needs a site key and secret"
                  | Store _ => AuthError.Internal "Failed to save captcha settings"
                  end) (save_settings (captcha st) active updates) in
      load_view (captcha st)
  end.

(** ** Bootstrap and login *)

Definition auth_bootstrap (st : AuthState) (username password : string)
    (display_name locale captcha_token : option string) : M LoginResponse :=
  let! any := attempt has_any_user in
  let! _ := ensure (negb (match any with Ok b => b | Err _ => false end))
              (AuthError.Conflict BOOTSTRAP_TAKEN) in
  let! _ := ensure_captcha st captcha_token in
  let! _ := ensure (negb (is_empty username || (64 <? Z.of_nat (String.length username))))
              (AuthError.BadRequest "Username must be between 1 and 64 characters") in
  let! _ := lift (rmap_err AuthError.BadRequest
                    (validate_password password (min_password_length st))) in
  let! password_hash := hash_password password in
  let! now := gets w_now in
  let! entropy := draw 10 in
  let user_id := uuid_v7 now entropy in
  let locale := default "en" locale in
  let! dek := generate_key in
  let! master := map_err crypto_err master_key in
  let kek := derive_user_kek master user_id in
  let! wrapped_dek := map_err crypto_err (wrap_dek kek dek) in
  let! _ := map_err (fun e => if is_unique_violation e then AuthError.Conflict BOOTSTRAP_TAKEN
                              else AuthError.Internal "Failed to create user")
              (insert_user user_id username password_hash display_name locale wrapped_dek) in
  let! token := map_err (fun _ => AuthError.Internal "Failed to create session")
                  (create_session user_id) in
  ret (mkLogin _ token (mkUserInfo _ user_id username display_name locale false "on_open" None) false).

Definition auth_login (st : AuthState) (username password : string) (captcha_token : option string)
    : M LoginResponse :=
  let rl_key := login_rl_key username in
  let! _ := ensure_not_rate_limited rl_key "Authentication failed" in
  let! _ := ensure_captcha st captcha_token in
  let! found := find_user_by_username username in
  match found with
  | None =>
      let! _ := note_failed_attempt rl_key "Authentication failed" in
      throw AuthError.invalid_credentials
  | Some user =>
      let! hash := lift (ok_or (AuthError.Internal "Password hash not available")
                           (ud_password_hash user)) in
      let! valid := lift (rmap_err (fun _ => AuthError.Internal "Authentication failed")
                            (verify_password password hash)) in
      if negb (valid : bool) then
        let! _ := note_failed_attempt rl_key "Authentication failed" in
        throw AuthError.invalid_credentials
      else
      let! _ := clear_failed_attempts rl_key in
      if ud_totp_enabled user then
        let! pending_token := map_err (fun _ => AuthError.Internal "Failed to create pending session")
                                (create_pending_session (ud_id user)) in
        ret (mkLogin _ pending_token (user_info_from user) true)
      else
      let! token := map_err (fun _ => AuthError.Internal "Failed to create session")
                      (create_session (ud_id user)) in
      ret (mkLogin _ token (user_info_from user) false)
  end.

(** ** TOTP *)

Definition verify_totp_code (rl_key user_id : string) (user : UserData) (code : string) : M unit :=
  let! stored_secret := lift (ok_or (AuthError.Internal "TOTP not configured")
                                (ud_totp_secret user)) in
  let! dek := map_err crypto_err (get_user_dek user_id) in
  let! secret := lift (rmap_err crypto_err (decrypt_totp_secret dek stored_secret)) in
  let! totp := lift (build_totp secret (ud_username user)) in
  let! now := gets w_now in
  match matched_totp_step now totp code with
  | None =>
      let! _ := note_failed_attempt rl_key "Verification failed" in
      throw (AuthError.Unauthorized "Invalid TOTP code")
  | Some step =>
      let step_key := totp_step_key user_id in
      let! last := try_get step_key in
      let last_step := last ≫= parse_u64 in
      if match last_step with Some s => step <=? s | None => false end then
        let! _ := note_failed_attempt rl_key "Verification failed" in
        throw (AuthError.Unauthorized "TOTP code already used")
      else
      let! _ := map_err (fun _ => AuthError.Internal "Verification failed")
                  (kvset step_key (show_Z step) (Some TOTP_LAST_STEP_TTL_SECS)) in
      clear_failed_attempts rl_key
  end.

Definition totp_verify (code pending_token : string) : M LoginResponse :=
  let! pending := get_pending_session pending_token in
  let! user_id := lift (ok_or (AuthError.Unauthorized "Invalid or expired pending session") pending) in
  let rl_key := totp_rl_key user_id in
  let! _ := ensure_not_rate_limited rl_key "Verification failed" in
  let! user := require_user user_id in
  let! _ := verify_totp_code rl_key user_id user code in
  let! promoted := map_err (fun _ => AuthError.Internal "Failed to promote session")
                     (promote_pending_session pending_token) in
  let! token := lift (ok_or (AuthError.Unauthorized "Invalid or expired pending session") promoted) in
  ret (mkLogin _ token (user_info_from user) false).

Definition totp_enroll (user_id : string) : M TotpEnrollResponse :=
  let! user := require_user user_id in
  if ud_totp_enabled user
  then throw (AuthError.Conflict "TOTP is already enabled. Disable it before re-enrolling.") else
  let! secret_bytes := draw 20 in
  let secret_base32 := base32_encode secret_bytes in
  let! dek := map_err crypto_err (get_user_dek user_id) in
  let! stored_secret := map_err crypto_err (encrypt_totp_secret dek secret_base32) in
  let! _ := map_err (fun _ => AuthError.Internal "Failed to store TOTP secret")
              (update_user_totp user_id (Some stored_secret) false) in
  let! totp := lift (build_totp_from_raw secret_bytes (ud_username user)) in
  ret (mkEnroll secret_base32 (totp_url totp (ud_username user))).

Definition totp_enroll_confirm (st : AuthState) (user_id code : string) : M AuthStatus :=
  let! user := require_user user_id in
  let! stored := lift (ok_or (AuthError.BadRequest "TOTP enrollment not started")
                         (ud_totp_secret user)) in
  let! dek := map_err crypto_err (get_user_dek user_id) in
  let! secret := lift (rmap_err crypto_err (decrypt_totp_secret dek stored)) in
  let! totp := lift (build_totp secret (ud_username user)) in
  let! now := gets w_now in
  let checked := match unix_secs now with Some t => default false (totp_check totp t code) | None => false end in
  if negb checked then throw (AuthError.Unauthorized "Invalid TOTP code. Please try again.") else
  let! _ := map_err (fun _ => AuthError.Internal "Failed to enable TOTP")
              (update_user_totp user_id (Some stored) true) in
  ret (mkStatus true true (CaptchaConfig.public (captcha st))).

(** The rate-limited password check of every password-gated action. *)
Definition check_password (user_id password message : string) : M UserData :=
  let rl_key := pwd_rl_key user_id in
  let! _ := ensure_not_rate_limited rl_key "Verification failed" in
  let! user := require_user user_id in
  let! hash := lift (ok_or (AuthError.Internal "Password hash not available")
                       (ud_password_hash user)) in
  let! valid := lift (rmap_err (fun _ => AuthError.Internal "Verification failed")
                        (verify_password password hash)) in
  if negb (valid : bool) then
    let! _ := note_failed_attempt rl_key "Verification failed" in
    throw (AuthError.Unauthorized message)
  else
    let! _ := clear_failed_attempts rl_key in
    ret user.

Definition verify_current_password (user_id password : string) : M unit :=
  let! _ := check_password user_id password "Current password is incorrect" in ret tt.

Definition totp_disable (st : AuthState) (user_id password : string) : M AuthStatus :=
  let! _ := check_password user_id password "Invalid password" in
  let! _ := map_err (fun _ => AuthError.Internal "Failed to disable TOTP")
              (update_user_totp user_id None false) in
  ret (mkStatus true false (CaptchaConfig.public (captcha st))).

Definition change_password (st : AuthState) (user_id current_password new_password : string)
    : M unit :=
  let! user := check_password user_id current_password "Current password is incorrect" in
  let! _ := lift (rmap_err AuthError.BadRequest
                    (validate_password new_password (min_password_length st))) in
  let! new_hash := hash_password new_password in
  let! _ := map_err (fun _ => AuthError.Internal "Failed to update password")
              (update_user_password user_id new_hash) in
  let! _ := map_err (fun _ => AuthError.Internal "Failed to invalidate sessions")
              (invalidate_user_sessions user_id) in
  clear_failed_attempts (login_rl_key (ud_username user)).

(** ** Sessions of requests *)

Definition extract_session (authorization : option string) : M string :=
  let! token := lift (ok_or (AuthError.Unauthorized "Missing authorization header")
                        (extract_token_from_headers authorization)) in
  let! user := get_session token in
  lift (ok_or (AuthError.Unauthorized "Invalid or expired session") user).

Definition auth_logout (authorization : option string) : M unit :=
  match extract_token_from_headers authorization with
  | Some token =>
      let! _ := modify (fun w => set_unlock (lock token None (w_unlock w)) w) in
      remove_session token
  | None => ret tt
  end.

Definition auth_me (user_id : string) : M UserInfo :=
  let! user := require_user user_id in ret (user_info_from user).

Definition patch_preferences (user_id : string) (mark_read_policy locale : option string)
    (ui : option json) : M UserInfo :=
  let! _ := ensure (negb (bool_decide (mark_read_policy = None) && bool_decide (locale = None)
                          && match ui with None => true | Some _ => false end))
              (AuthError.BadRequest "provide markReadPolicy, locale, and/or uiState") in
  let! _ := match mark_read_policy with
            | Some raw => let! policy := lift (parse_mark_read_policy raw) in
                          update_mark_read_policy user_id policy
            | None => ret tt
            end in
  let! _ := match locale with
            | Some l =>
                let! _ := ensure (String.eqb l "en" || String.eqb l "zh")
                            (AuthError.BadRequest "unsupported locale") in
                update_locale user_id l
            | None => ret tt
            end in
  let! _ := match ui with
            | Some v =>
                let! _ := ensure (json_is_object v) (AuthError.BadRequest "uiState must be a JSON object") in
                let! encoded := lift (ok_or (AuthError.BadRequest "uiState is not serializable")
                                        (json_to_string v)) in
                let! _ := ensure (Z.of_nat (String.length encoded) <=? MAX_UI_STATE_BYTES)
                            (AuthError.BadRequest "uiState too large") in
                update_ui_state user_id encoded
            | None => ret tt
            end in
  auth_me user_id.

End Auth.

(** ** Lemmas *)

Section AuthLemmas.
Context {K R : Type} `{KvLaws K} `{HasRng R} `{!RngLaws R} `{CryptoLib} `{SettingsJson} `{CaptchaNet}
  `{AuthLib}.
Local Abbreviation W := (world K R).
Implicit Types w : W.

Lemma require_user_run u row w :
  w_db_up w = true -> find_user u (w_users w) = Some row ->
  require_user u w = (Ok (user_data_from row), w).
Proof.
  intros Hup Hu. unfold require_user, find_user_by_id, stmt, bind. rewrite Hup. cbn. by rewrite Hu.
Qed.

(** The password gate below the cap: a right password resets the counter, a wrong
    one is counted. *)
Lemma check_password_open u row pw msg w :
  w_db_up w = true -> find_user u (w_users w) = Some row ->
  default 0 (now_look w (pwd_rl_key u) ≫= parse_i64) < RATE_LIMIT_MAX_ATTEMPTS ->
  exists w1, kv_only w w1 /\ views w w1 /\
    check_password u pw msg w =
    match argon2_verify pw (u_password_hash row) with
    | Some true => (let! _ := clear_failed_attempts (pwd_rl_key u) in ret (user_data_from row)) w1
    | Some false => (let! _ := note_failed_attempt (pwd_rl_key u) "Verification failed" in
                     throw (AuthError.Unauthorized msg)) w1
    | None => (Err (AuthError.Internal "Verification failed"), w1)
    end.
Proof.
  intros Hup Hu Hn.
  destruct (ensure_not_limited_run (pwd_rl_key u) "Verification failed" w) as (w1 & Hg & Hk & Hv).
  exists w1. split; [done|]. split; [done|]. rewrite (proj2 (Z.leb_gt _ _) Hn) in Hg.
  unfold check_password. rewrite (bind_step _ _ _ _ _ Hg).
  rewrite (bind_step _ _ _ _ _ (require_user_run u row w1 ltac:(by rewrite (kv_only_up _ _ Hk))
             ltac:(by rewrite (kv_only_users _ _ Hk)))).
  cbn [user_data_from ud_password_hash ok_or]. unfold bind at 1, lift, verify_password.
  unfold bind at 1. destruct (argon2_verify pw (u_password_hash row)) as [[]|]; done.
Qed.

Lemma check_password_limited u pw msg w :
  RATE_LIMIT_MAX_ATTEMPTS <= default 0 (now_look w (pwd_rl_key u) ≫= parse_i64) ->
  exists w1, kv_only w w1 /\ views w w1 /\ check_password u pw msg w = (Err AuthError.TooManyRequests, w1).
Proof.
  intros Hn.
  destruct (ensure_not_limited_run (pwd_rl_key u) "Verification failed" w) as (w1 & Hg & Hk & Hv).
  exists w1. split; [done|]. split; [done|]. rewrite (proj2 (Z.leb_le _ _) Hn) in Hg.
  unfold check_password. by rewrite (bind_fail _ _ _ _ _ Hg).
Qed.

Lemma verify_of_check u pw w r w' :
  check_password u pw "Current password is incorrect" w = (r, w') ->
  verify_current_password u pw w = (match r with Ok _ => Ok tt | Err e => Err e end, w').
Proof. intros Hc. unfold verify_current_password, bind. rewrite Hc. by destruct r. Qed.

(** Time passes; the row of [u] and its password counter are left alone. *)
Definition calm u w w' : Prop :=
  w_now w <= w_now w' /\ w_db_up w' = w_db_up w /\ w_users w' = w_users w /\
  forall t, w_now w' <= t -> look w' t (pwd_rl_key u) = look w t (pwd_rl_key u).

(** A run of password checks with the guess and the answer of each. *)
Inductive guesses u : W -> list (string * result AuthError.t unit) -> W -> Prop :=
  | g_nil w : guesses u w [] w
  | g_cons w w1 pw r w2 tr w3 : calm u w w1 -> verify_current_password u pw w1 = (r, w2) ->
      guesses u w2 tr w3 -> guesses u w ((pw, r) :: tr) w3.

Lemma counter_calm u n d w w' :
  calm u w w' -> w_now w' < d -> counter (pwd_rl_key u) n d w -> counter (pwd_rl_key u) n d w'.
Proof. intros (Hn & _ & _ & Hl) Hd [_ Hc]. split; [done|]. intros t Ht. rewrite Hl by done. apply Hc. lia. Qed.

Definition wrong_pw : AuthError.t := AuthError.Unauthorized "Current password is incorrect".

(** One wrong guess while the counter stands at [n] below the cap. *)
Lemma wrong_guess u row pw n d w :
  w_db_up w = true -> find_user u (w_users w) = Some row ->
  argon2_verify pw (u_password_hash row) = Some false ->
  counter (pwd_rl_key u) n d w -> 0 <= n < RATE_LIMIT_MAX_ATTEMPTS ->
  exists w', verify_current_password u pw w = (Err wrong_pw, w') /\ kv_only w w' /\
    counter (pwd_rl_key u) (n + 1) d w'.
Proof.
  intros Hup Hu Hv Hc Hn. unfold RATE_LIMIT_MAX_ATTEMPTS in Hn.
  destruct (check_password_open u row pw "Current password is incorrect" w Hup Hu) as (w1 & K1 & V1 & Hr).
  { rewrite (counter_look _ _ _ _ Hc). cbn [mbind option_bind].
    rewrite parse_counter by (unfold i64_min, i64_max; lia). cbn. unfold RATE_LIMIT_MAX_ATTEMPTS. lia. }
  rewrite Hv in Hr. pose proof (counter_views _ _ _ _ _ K1 V1 Hc) as Hc1.
  destruct (note_failed_counter _ "Verification failed" _ _ _ Hc1) as (w2 & Hf & K2 & _ & Hc2).
  { unfold i64_max. lia. }
  exists w2. rewrite (bind_step _ _ _ _ _ Hf) in Hr. apply verify_of_check in Hr.
  split; [done|]. split; [by eapply kv_only_trans|done].
Qed.

(** Any guess at the cap. *)
Lemma capped_guess u pw n d w :
  counter (pwd_rl_key u) n d w -> RATE_LIMIT_MAX_ATTEMPTS <= n <= i64_max ->
  exists w', verify_current_password u pw w = (Err AuthError.TooManyRequests, w') /\ kv_only w w' /\
    counter (pwd_rl_key u) n d w'.
Proof.
  intros Hc Hn. unfold RATE_LIMIT_MAX_ATTEMPTS in Hn.
  destruct (check_password_limited u pw "Current password is incorrect" w) as (w1 & K1 & V1 & Hr).
  { rewrite (counter_look _ _ _ _ Hc). cbn [mbind option_bind].
    rewrite parse_counter by (unfold i64_min; lia). cbn. unfold RATE_LIMIT_MAX_ATTEMPTS. lia. }
  exists w1. apply verify_of_check in Hr. split; [done|]. split; [done|]. by eapply counter_views.
Qed.

Lemma guesses_now u w tr w' : guesses u w tr w' -> w_now w <= w_now w'.
Proof.
  induction 1 as [|w w1 pw r w2 tr w3 [Hn _] Hv Hg IH]; [done|].
  assert (w_now w2 = w_now w1); [|lia].
  unfold verify_current_password, check_password in Hv.
  assert (Hp : preserves (fun a b : W => w_now b = w_now a)
                 (verify_current_password (K := K) (R := R) u pw)); [|by apply Hp in Hv].
  assert (PreOrder (fun a b : W => w_now b = w_now a)) by (split; [by intros ?|intros ?????; congruence]).
  assert (Hkv : forall A (f : Z -> K -> result KvError.t A * K),
            preserves (fun a b : W => w_now b = w_now a) (kv_call f)).
  { intros A f x o y. unfold kv_call. destruct (f _ _). by intros [= _ <-]. }
  unfold verify_current_password, check_password, ensure_not_rate_limited, is_rate_limited,
    note_failed_attempt, record_failed_attempt, clear_failed_attempts, require_user, find_user_by_id.
  preserve; try apply Hkv. intros x o y. unfold stmt. destruct (w_db_up x); by intros [= _ <-].
Qed.

(** What the [i]-th guess gets when [n] failures were counted before. *)
Definition verdict (n i : nat) : result AuthError.t unit :=
  if (n + i <? 5)%nat then Err wrong_pw else Err AuthError.TooManyRequests.

Lemma guesses_counted u row w tr w' : guesses u w tr w' -> forall n d,
  w_db_up w = true -> find_user u (w_users w) = Some row ->
  counter (pwd_rl_key u) (Z.of_nat n) d w -> (n <= 5)%nat -> w_now w' < d ->
  (forall i pw r, (n + i < 5)%nat -> tr !! i = Some (pw, r) ->
     argon2_verify pw (u_password_hash row) = Some false) ->
  (forall i pw r, tr !! i = Some (pw, r) -> r = verdict n i) /\
  w_db_up w' = true /\ w_users w' = w_users w /\ exists n', counter (pwd_rl_key u) n' d w'.
Proof.
  induction 1 as [w|w w1 pw r w2 tr w3 Hcalm Hg Hgs IH]; intros n d Hup Hu Hc Hn Hd Hw.
  { split; [done|]. eauto. }
  assert (Hn1 : w_now w1 <= w_now w3).
  { apply (guesses_now u w1 ((pw, r) :: tr)). econstructor; [|done|done]. by split_and!; try lia. }
  apply (counter_calm u _ d _ _ Hcalm ltac:(lia)) in Hc.
  destruct Hcalm as (_ & Hup1 & Hu1 & _). rewrite <- Hup1 in Hup. rewrite <- Hu1 in Hu.
  assert (Hstep : exists n' : nat, (n' <= 5)%nat /\ r = verdict n 0 /\ kv_only w1 w2 /\
    counter (pwd_rl_key u) (Z.of_nat n') d w2 /\ forall i, verdict n' i = verdict n (S i) /\
      ((n' + i < 5)%nat -> (n + S i < 5)%nat)).
  { unfold verdict. rewrite Nat.add_0_r. destruct (Nat.ltb_spec n 5) as [Hlt|Hge].
    - destruct (wrong_guess u row pw (Z.of_nat n) d w1 Hup Hu) as (w2' & Hr & Hk & Hc2); [|done| |].
      { apply (Hw 0%nat pw r); [lia|done]. }
      { unfold RATE_LIMIT_MAX_ATTEMPTS. lia. }
      rewrite Hr in Hg. injection Hg as <- <-. exists (S n). rewrite Nat2Z.inj_succ.
      split; [lia|]. split; [done|]. split; [done|]. split; [done|]. intros i.
      replace (S n + i)%nat with (n + S i)%nat by lia. done.
    - destruct (capped_guess u pw (Z.of_nat n) d w1 Hc) as (w2' & Hr & Hk & Hc2).
      { unfold RATE_LIMIT_MAX_ATTEMPTS, i64_max. lia. }
      rewrite Hr in Hg. injection Hg as <- <-. exists n. split; [lia|]. split; [done|].
      split; [done|]. split; [done|]. intros i.
      rewrite !(proj2 (Nat.ltb_ge _ 5)) by lia. split; [done|lia]. }
  destruct Hstep as (n' & Hn' & -> & Hk & Hc2 & Hv).
  destruct (IH n' d) as (Hall & Hup3 & Hu3 & Hc3); [by rewrite (kv_only_up _ _ Hk)| |done|done|done| |].
  { by rewrite (kv_only_users _ _ Hk). }
  { intros i pw' r' Hi Hl. apply (Hw (S i) pw' r'); [by apply Hv|done]. }
  split; [|split; [done|split; [by rewrite Hu3, (kv_only_users _ _ Hk)|done]]].
  intros [|i] pw' r' Hl; [by simplify_eq/=|]. rewrite <- (proj1 (Hv i)). by apply (Hall i pw').
Qed.

(** A stolen session is no password oracle.  After a first wrong guess opens
    a window, the password gate answers "incorrect" to at most four more guesses of
    the next 15 minutes; every further guess in the window, right or wrong, is
    refused with 429 before the password is looked at; and when the window has
    passed the right password is accepted again. *)
Theorem password_guesses_bounded (u pw0 good : string) row w w1 w2 w3
    (r0 : result AuthError.t unit) (tr : list (string * result AuthError.t unit)) :
  w_db_up w = true -> find_user u (w_users w) = Some row ->
  now_look w (pwd_rl_key u) = None ->
  argon2_verify pw0 (u_password_hash row) = Some false ->
  verify_current_password u pw0 w = (r0, w1) ->
  guesses u w1 tr w2 -> w_now w2 < w_now w + from_secs RATE_LIMIT_WINDOW_SECS ->
  (forall i pw r, (i < 4)%nat -> tr !! i = Some (pw, r) ->
     argon2_verify pw (u_password_hash row) = Some false) ->
  calm u w2 w3 -> w_now w + from_secs RATE_LIMIT_WINDOW_SECS <= w_now w3 ->
  argon2_verify good (u_password_hash row) = Some true ->
  r0 = Err wrong_pw /\
  (forall i pw r, tr !! i = Some (pw, r) ->
     r = if (i <? 4)%nat then Err wrong_pw else Err AuthError.TooManyRequests) /\
  exists w4, verify_current_password u good w3 = (Ok tt, w4).
Proof.
  intros Hup Hu Hn Hv0 Hg0 Hgs Hd Hw Hcalm Hd3 Hgood.
  destruct (check_password_open u row pw0 "Current password is incorrect" w Hup Hu) as (wa & Ka & Va & Hr).
  { rewrite Hn. done. }
  rewrite Hv0 in Hr.
  destruct (note_failed_fresh (pwd_rl_key u) "Verification failed" wa) as (wb & Hf & Kb & _ & Hc).
  { by rewrite (views_now _ _ _ Ka Va). }
  rewrite (bind_step _ _ _ _ _ Hf) in Hr. apply verify_of_check in Hr. rewrite Hr in Hg0.
  injection Hg0 as <- <-. pose proof (kv_only_trans _ _ _ Ka Kb) as Kab.
  rewrite (kv_only_now _ _ Ka) in Hc.
  destruct (guesses_counted u row _ _ _ Hgs 1 _ ltac:(by rewrite (kv_only_up _ _ Kab))
              ltac:(by rewrite (kv_only_users _ _ Kab)) Hc ltac:(lia) Hd) as (Hall & Hup2 & Hu2 & n' & Hc2).
  { intros i pw r Hi. apply Hw. lia. }
  split; [done|]. split; [intros i pw r Hl; by rewrite (Hall i pw r Hl)|].
  destruct Hcalm as (Hn3 & Hup3 & Hu3 & Hl3).
  destruct (check_password_open u row good "Current password is incorrect" w3) as (wc & Kc & Vc & Hrc).
  { congruence. }
  { by rewrite Hu3, Hu2, (kv_only_users _ _ Kab). }
  { unfold now_look. rewrite Hl3 by lia. destruct Hc2 as [_ Hc2]. rewrite Hc2 by lia.
    cbn. by rewrite (proj2 (Z.leb_le _ _) Hd3). }
  rewrite Hgood in Hrc. destruct (clear_failed_run (E := AuthError.t) (pwd_rl_key u) wc) as (w4 & Hcl & _).
  rewrite (bind_step _ _ _ _ _ Hcl) in Hrc. apply verify_of_check in Hrc. by exists w4.
Qed.

(** ** TOTP *)

(** The generator a stored secret stands for. *)
Definition totp_of (u : string) (user : UserData) w : option string :=
  ud_totp_secret user ≫= fun stored =>
  rok (fst (get_user_dek u w)) ≫= fun dek =>
  rok (decrypt_totp_secret dek stored) ≫= fun secret =>
  rok (build_totp secret (ud_username user)).

Definition current_step w : Z := w_now w / nanos_per_sec / totp_step.

Lemma matched_step_bounds w totp code s :
  matched_totp_step (w_now w) totp code = Some s ->
  0 <= w_now w /\ 0 <= s /\ current_step w - 1 <= s <= current_step w + 1 /\
  totp_generate totp (s * totp_step) = code.
Proof.
  unfold matched_totp_step, unix_secs, current_step. destruct (Z.ltb_spec (w_now w) 0) as [|Hn]; [done|].
  cbn [mbind option_bind]. set (c := w_now w / nanos_per_sec / totp_step).
  assert (0 <= c) by (unfold c, nanos_per_sec, totp_step; do 2 (apply Z.div_pos; [|done]); done).
  intros [Hin Heq%String.eqb_eq]%find_Some_In. apply in_map_iff in Hin as (i & <- & Hi%in_seq).
  split; [done|]. split; [lia|]. split; [lia|done].
Qed.

Lemma kv_view_frame w w' k : dek_frame w w' -> now_look w' k = now_look w k.
Proof. intros (Hn & Hk & _). unfold now_look, look. by rewrite Hn, Hk. Qed.

(** An accepted code: it matches a step newer than the remembered one, which is
    remembered from now on. *)
Lemma verify_totp_accepts u user code w w' :
  verify_totp_code (totp_rl_key u) u user code w = (Ok tt, w') ->
  exists totp s, totp_of u user w = Some totp /\ matched_totp_step (w_now w) totp code = Some s /\
    (forall l, now_look w (totp_step_key u) ≫= parse_u64 = Some l -> l < s) /\
    w_now w' = w_now w /\
    forall t, w_now w <= t -> look w' t (totp_step_key u)
      = live t (Some (show_Z s, Some (w_now w + from_secs TOTP_LAST_STEP_TTL_SECS))).
Proof.
  intros Hv. unfold verify_totp_code in Hv.
  apply bind_Ok in Hv as (stored & wa & Hs & Hv). apply bind_Ok in Hv as (dek & wb & Hd & Hv).
  apply bind_Ok in Hv as (secret & wc & Hsec & Hv). apply bind_Ok in Hv as (totp & wd & Ht & Hv).
  apply bind_Ok in Hv as (now & we & Hn & Hv). injection Hn as <- <-.
  injection Ht as Ht <-. injection Hsec as Hsec <-. injection Hs as Hs <-.
  destruct (ud_totp_secret user) as [st|] eqn:Hst; [|done]. injection Hs as ->.
  unfold map_err in Hd. destruct (get_user_dek u w) as [rd wb'] eqn:Hg. injection Hd as Hd ->.
  destruct rd as [dek'|]; [|done]. injection Hd as ->.
  pose proof (get_user_dek_frame u _ _ _ Hg) as Hfr. pose proof Hfr as (Hnow & _).
  assert (Htotp : totp_of u user w = Some totp).
  { unfold totp_of. rewrite Hst, Hg. cbn. destruct (decrypt_totp_secret dek stored); [|done].
    injection Hsec as ->. cbn. by rewrite Ht. }
  rewrite Hnow in Hv. destruct (matched_totp_step (w_now w) totp code) as [s|] eqn:Hm.
  2: { apply bind_Ok in Hv as (? & ? & _ & Hv). done. }
  destruct (try_get_run (E := AuthError.t) (totp_step_key u) wb) as (wf & Hl & Kf & Vf).
  rewrite (bind_step _ _ _ _ _ Hl), (kv_view_frame _ _ _ Hfr) in Hv.
  set (last := now_look w (totp_step_key u)) in *.
  destruct (match last ≫= parse_u64 with Some l => s <=? l | None => false end) eqn:Hlast.
  { apply bind_Ok in Hv as (? & ? & _ & Hv). done. }
  destruct (kvset_run (totp_step_key u) (show_Z s) (Some TOTP_LAST_STEP_TTL_SECS) wf) as (wg & Hset & Kg & Vg).
  rewrite (bind_step _ _ _ _ _ (map_err_Ok _ _ _ _ _ Hset)) in Hv.
  destruct (clear_failed_run (E := AuthError.t) (totp_rl_key u) wg) as (wh & Hc & Kh & Vh).
  rewrite Hc in Hv. injection Hv as <-. exists totp, s. split; [done|]. split; [done|].
  pose proof (kv_only_trans _ _ _ (kv_only_trans _ _ _ Kf Kg) Kh) as Kall.
  split; [|split; [by rewrite (kv_only_now _ _ Kall)|]].
  - intros l Hll. rewrite Hll in Hlast. lia.
  - intros t Ht0. rewrite Vh, decide_False by done.
    rewrite Vg, decide_True by (rewrite ?(kv_only_now _ _ Kf), ?Hnow; done).
    by rewrite (kv_only_now _ _ Kf), Hnow.
Qed.

(** C9: a TOTP code is never accepted twice.  Of two codes accepted for a user, the
    later one belongs to a strictly later timestep, whatever the time between them:
    the last accepted step is remembered for longer than a code stays valid. *)
Theorem totp_code_not_replayed (u code code' : string) (user user' : UserData) w w1 w2 w3 :
  w_now w / nanos_per_sec <= u64_max - 30 ->
  verify_totp_code (totp_rl_key u) u user code w = (Ok tt, w1) ->
  w_now w1 <= w_now w2 ->
  (forall t, w_now w2 <= t -> look w2 t (totp_step_key u) = look w1 t (totp_step_key u)) ->
  verify_totp_code (totp_rl_key u) u user' code' w2 = (Ok tt, w3) ->
  exists totp s totp' s', totp_of u user w = Some totp /\ code = totp_generate totp (s * totp_step) /\
    totp_of u user' w2 = Some totp' /\ code' = totp_generate totp' (s' * totp_step) /\ s < s'.
Proof.
  intros Hb (totp & s & Ht & Hm & _ & Hn1 & Hl1)%verify_totp_accepts Hn2 Hl2
    (totp' & s' & Ht' & Hm' & Hnew & _ & _)%verify_totp_accepts.
  apply matched_step_bounds in Hm as (H0n & H0s & Hs & Hc), Hm' as (_ & H0s' & Hs' & Hc').
  exists totp, s, totp', s'. split_and!; [done..|].
  unfold now_look in Hnew. rewrite Hl2, Hl1 in Hnew by lia. cbn [live] in Hnew.
  destruct (Z.leb_spec (w_now w + from_secs TOTP_LAST_STEP_TTL_SECS) (w_now w2)) as [Hlate|Hearly].
  - assert (current_step w + 4 <= current_step w2); [|lia].
    replace (w_now w + from_secs TOTP_LAST_STEP_TTL_SECS) with (w_now w + 4 * (nanos_per_sec * totp_step))
      in Hlate by (unfold from_secs, TOTP_LAST_STEP_TTL_SECS, nanos_per_sec, totp_step; lia).
    unfold current_step. rewrite !Z.div_div by done.
    rewrite <- Z.div_add by (unfold nanos_per_sec, totp_step; lia). apply Z.div_le_mono; [|done].
    unfold nanos_per_sec, totp_step. lia.
  - apply Hnew. cbn. apply parse_show_unsigned. split; [done|].
    assert (current_step w <= w_now w / nanos_per_sec); [|unfold current_step in *; lia].
    unfold current_step. apply Z.div_le_upper_bound; [done|].
    assert (0 <= w_now w / nanos_per_sec) by (apply Z.div_pos; [done|unfold nanos_per_sec; lia]).
    unfold totp_step. lia.
Qed.

(** ** Login *)

Lemma not_session_rl name : ~ session_keys (login_rl_key name).
Proof. by intros [(e & tok & Hk)|(tok & Hk)]. Qed.
Lemma not_session_pending tok : ~ session_keys (pending_key tok).
Proof. by intros [(e & t & Hk)|(t & Hk)]. Qed.

Lemma guards_ensure q key op : preserves (guards q) (ensure_not_rate_limited (K := K) (R := R) key op).
Proof. unfold ensure_not_rate_limited, is_rate_limited. preserve. apply guards_get. Qed.
Lemma guards_note q key op : ~ q key -> preserves (guards q) (note_failed_attempt (K := K) (R := R) key op).
Proof. intros Hq. unfold note_failed_attempt, record_failed_attempt. preserve. by apply guards_incr. Qed.
Lemma guards_clear q key {E} : ~ q key -> preserves (guards q) (clear_failed_attempts (K := K) (R := R) (E := E) key).
Proof. intros Hq. unfold clear_failed_attempts. preserve. by apply guards_del. Qed.
Lemma guards_captcha q st tok : preserves (guards q) (ensure_captcha (K := K) (R := R) st tok).
Proof.
  unfold ensure_captcha, load_effective, load_stored, read_blob, decrypt_pair, settings_key.
  preserve; try apply guards_get.
  all: unfold master_key; by intros w r w' [= _ <-].
Qed.

Lemma create_pending_run u w r w' :
  create_pending_session u w = (r, w') -> guards session_keys w w'.
Proof.
  apply (fun Hp : preserves (guards session_keys) (create_pending_session (K := K) (R := R) u) => Hp w r w').
  unfold create_pending_session, generate_token. preserve; [apply guards_draw|].
  apply guards_set, not_session_pending.
Qed.

(** The password step of a two-factor user: every branch keeps the session keys. *)
Lemma login_totp_frame st name pw cap row w r w' :
  List.find (fun u => String.eqb (u_username u) name) (w_users w) = Some row ->
  u_totp_enabled row = true -> auth_login st name pw cap w = (r, w') ->
  (forall resp, r = Ok resp -> lr_requires_totp resp = true) /\ guards session_keys w w'.
Proof.
  intros Hrow Htotp Hl. unfold auth_login in Hl.
  apply bind_inv in Hl as [(e & Hm & ->)|(a & w1 & Hm & Hl)];
    apply guards_ensure with (q := session_keys) in Hm; [done|].
  apply bind_inv in Hl as [(e & Hm2 & ->)|(a2 & w2 & Hm2 & Hl)];
    apply guards_captcha with (q := session_keys) in Hm2; [split; [done|by etrans]|].
  assert (Hg2 : guards session_keys w w2) by (by etrans). clear Hm Hm2.
  apply bind_inv in Hl as [(e & Hf & ->)|(found & w3 & Hf & Hl)]; unfold find_user_by_username, stmt in Hf;
    destruct (w_db_up w2); try done; [injection Hf as _ <-; done|].
  rewrite (kv_only_users _ _ (proj1 Hg2)), Hrow in Hf. injection Hf as <- <-. cbn [option_map] in Hl.
  cbn [user_data_from ud_password_hash ok_or] in Hl. unfold bind at 1, lift in Hl.
  unfold verify_password, bind at 1 in Hl.
  destruct (argon2_verify pw (u_password_hash row)) as [[]|]; cbn [ok_or rmap_err negb] in Hl; change (ud_totp_enabled (user_data_from row)) with (u_totp_enabled row) in Hl.
  - rewrite Htotp in Hl.
    apply bind_inv in Hl as [(e & Hc & ->)|(? & w4 & Hc & Hl)];
      apply (guards_clear session_keys _ (not_session_rl name)) in Hc; [split; [done|by etrans]|].
    apply bind_inv in Hl as [(e & Hp & ->)|(ptok & w5 & Hp & Hl)]; unfold map_err in Hp;
      destruct (create_pending_session _ w4) as [rp wp] eqn:Hcp; apply create_pending_run in Hcp;
      injection Hp as Hp ->.
    + split; [done|]. etrans; [done|]. by etrans.
    + injection Hl as <- <-. split; [by intros resp [= <-]|]. etrans; [done|]. by etrans.
  - apply bind_inv in Hl as [(e & Hc & ->)|(? & w4 & Hc & Hl)];
      apply (guards_note session_keys _ _ (not_session_rl name)) in Hc; [split; [done|by etrans]|].
    injection Hl as <- <-. split; [done|by etrans].
  - injection Hl as <- <-. done.
Qed.

Lemma guards_session_user w w' tok : guards session_keys w w' -> session_user w' tok = session_user w tok.
Proof.
  intros [Hk Hg]. unfold session_user, now_look.
  rewrite (kv_only_up _ _ Hk), (kv_only_users _ _ Hk), (kv_only_now _ _ Hk).
  rewrite Hg by (try done; right; eauto).
  destruct (w_db_up w); [|done]. destruct (look w (w_now w) (tok_key tok)) as [u|]; [|done].
  cbn [negb mbind option_bind]. destruct (find_user u (w_users w)) as [x|]; [|done]. cbn [mbind option_bind].
  by rewrite Hg by (try done; left; eauto).
Qed.

(** With two-factor login on, a password is never enough.  Whatever the request
    and the state of the store, [auth_login] for such a user never hands out a
    session: a success is the challenge for the second factor, and no session key
    changes, so no token starts to speak for anybody. *)
Theorem login_needs_second_factor st name pw cap row w r w' :
  List.find (fun u => String.eqb (u_username u) name) (w_users w) = Some row ->
  u_totp_enabled row = true -> auth_login st name pw cap w = (r, w') ->
  (forall resp, r = Ok resp -> lr_requires_totp resp = true) /\
  forall tok, session_user w' tok = session_user w tok.
Proof.
  intros Hrow Htotp Hl. destruct (login_totp_frame _ _ _ _ _ _ _ _ Hrow Htotp Hl) as [Hr Hg].
  split; [done|]. intros tok. by apply guards_session_user.
Qed.

(** ** Changing the password *)

Lemma check_password_guards q u pw msg :
  ~ q (pwd_rl_key u) -> preserves (guards q) (check_password (K := K) (R := R) u pw msg).
Proof.
  intros Hq. unfold check_password, require_user, find_user_by_id.
  preserve; auto using guards_ensure, guards_note, guards_clear.
  intros w r w'. unfold stmt. destruct (w_db_up w); by intros [= _ <-].
Qed.

Lemma find_password_update u h row us :
  find_user u us = Some row -> find_user u (update_user u (set_password h) us) = Some (set_password h row).
Proof. intros Hu. by rewrite find_user_update, Hu. Qed.

Lemma guards_sess_step w w' : guards session_keys w w' -> sess_step w None w'.
Proof.
  intros [Hk Hg]. apply sess_step_less; [done|]. intros e tok t v _ Ht. rewrite Hg; [done..|left; eauto].
Qed.

(** The stages of a successful change. *)
Lemma change_password_stages st u row cur new w w1 :
  find_user u (w_users w) = Some row -> change_password st u cur new w = (Ok tt, w1) ->
  argon2_verify cur (u_password_hash row) = Some true /\
  validate_password new (min_password_length st) = Ok tt /\
  exists wb wc wd salt h, guards session_keys w wb /\ argon2_hash new salt = Some h /\
    wc = set_users (update_user u (set_password h) (w_users w)) wb /\
    invalidate_user_sessions u wc = (Ok tt, wd) /\ guards session_keys wd w1.
Proof.
  intros Hu Hc. unfold change_password in Hc. apply bind_Ok in Hc as (user & wa & Hchk & Hc).
  assert (Hnk : ~ session_keys (pwd_rl_key u)) by (by intros [(e & tok & Hk)|(tok & Hk)]).
  pose proof (check_password_guards _ _ _ _ Hnk _ _ _ Hchk) as Ga.
  assert (Hv : argon2_verify cur (u_password_hash row) = Some true).
  { unfold check_password in Hchk. apply bind_Ok in Hchk as ([] & wx & Hx & Hchk).
    apply guards_ensure with (q := session_keys) in Hx.
    apply bind_Ok in Hchk as (ud & wy & Hy & Hchk). unfold require_user in Hy.
    apply bind_Ok in Hy as (o & wz & Hz & Hy). unfold find_user_by_id, stmt in Hz.
    destruct (w_db_up wx); [|done]. injection Hz as <- <-.
    rewrite (kv_only_users _ _ (proj1 Hx)), Hu in Hy. injection Hy as <- <-.
    unfold bind, lift in Hchk. cbn in Hchk. unfold verify_password in Hchk.
    destruct (argon2_verify cur (u_password_hash row)) as [[]|]; [done| |done].
    cbn in Hchk. by destruct (note_failed_attempt _ _ wx) as [[]]. }
  apply bind_Ok in Hc as ([] & wa' & Hval & Hc). injection Hval as Hval <-.
  apply bind_Ok in Hc as (h & wb & Hh & Hc). unfold hash_password in Hh.
  apply bind_Ok in Hh as (salt & wb' & Hd & Hh). apply guards_draw with (q := session_keys) in Hd.
  injection Hh as Hh <-. apply bind_Ok in Hc as ([] & wc & Hup & Hc).
  apply bind_Ok in Hc as ([] & wd & Hinv & Hc). unfold map_err in Hup, Hinv.
  destruct (update_user_password u h wb') as [ru wc'] eqn:Hupd. injection Hup as Hup ->.
  unfold update_user_password, update_users in Hupd. destruct (negb _) in Hupd; [by injection Hupd as <- _|].
  injection Hupd as <- <-. rewrite (kv_only_users _ _ (proj1 Hd)), (kv_only_users _ _ (proj1 Ga)) in *.
  destruct (invalidate_user_sessions _ _) as [ri wd'] eqn:Hi. injection Hinv as Hinv ->.
  assert (ri = Ok tt) as -> by (by destruct ri as [[]|]).
  apply guards_clear with (q := session_keys) in Hc; [|apply not_session_rl].
  split; [done|]. split; [by destruct (validate_password new _) as [[]|]|].
  exists wb', (set_users (update_user u (set_password h) (w_users w)) wb'), wd, salt, h.
  split; [by etrans|]. split; [by destruct (argon2_hash new salt); simplify_eq/=|done].
Qed.

(** C1: changing the password evicts everybody.  After [change_password] has
    succeeded, the user's stored hash verifies exactly the new password's text, the new
    password satisfies the policy, and no token handed out before - the caller's
    included - opens a session of the user, whatever the process does next. *)
Theorem change_password_evicts `{!AuthLaws} st u row cur new w0 before w w1 after w2 tok
    (r : result StatusCode (option string)) w3 :
  epochs_ok w0 -> (forall e tok' t, look w0 t (sess_key e tok') = None) -> history w0 before w ->
  find_user u (w_users w) = Some row ->
  change_password st u cur new w = (Ok tt, w1) ->
  history w1 after w2 -> tok ∉ after -> get_session tok w2 = (r, w3) ->
  r <> Ok (Some u) /\
  argon2_verify cur (u_password_hash row) = Some true /\
  validate_password new (min_password_length st) = Ok tt /\
  exists row', find_user u (w_users w1) = Some row' /\
    argon2_verify new (u_password_hash row') = Some true /\ u_sess_epoch row' = u_sess_epoch row + 1.
Proof.
  intros He Hempty Hb Hu Hc Ha Hni Hg.
  destruct (change_password_stages _ _ _ _ _ _ _ Hu Hc) as (Hv & Hval & wb & wc & wd & salt & h & Gb & Hh & -> & Hi & Gd).
  set (wc := set_users _ wb) in *.
  assert (B : bounded w).
  { eapply bounded_history; [done|]. split; [done|]. intros e t' t v _ _ Hl. by rewrite Hempty in Hl. }
  apply (bounded_step w None wb) in B; [|by apply guards_sess_step].
  assert (Hep : forall v, epoch_of wc v = epoch_of wb v).
  { intros v. unfold epoch_of, wc. cbn [w_users set_users]. rewrite (kv_only_users _ _ (proj1 Gb)).
    destruct (decide (u = v)) as [<-|Hne].
    - rewrite (find_password_update _ _ _ _ Hu). by rewrite Hu.
    - by rewrite find_user_update_ne. }
  assert (Bc : bounded wc).
  { destruct B as [Be B]. split; [by intros v; rewrite Hep|]. intros e tk t v. rewrite Hep. apply B. }
  assert (Dd : dead u tok wd) by (by eapply invalidate_dead).
  assert (Bd : bounded wd) by (eapply bounded_step, invalidate_step; done).
  assert (D1 : dead u tok w1).
  { eapply dead_step; [apply Bd|done|by apply guards_sess_step|done]. }
  assert (B1 : bounded w1) by (eapply bounded_step, guards_sess_step; done).
  split; [|split; [done|split; [done|]]].
  - intros ->. apply (dead_history u tok _ _ _ Ha Hni B1) in D1.
    destruct (get_session_run (E := StatusCode) tok w2) as (w4 & Hr & _). rewrite Hr in Hg.
    injection Hg as Hs _. by apply (dead_session u tok w2).
  - assert (Hrow : find_user u (w_users wc) = Some (set_password h row)) by by apply find_password_update.
    unfold invalidate_user_sessions in Hi. apply bind_Ok in Hi as (e & wx & Hf & Hi).
    unfold fetch_sess_epoch in Hf. destruct (negb _) in Hf; [done|]. rewrite Hrow in Hf. injection Hf as <- <-.
    apply bind_Ok in Hi as ([] & wy & Hup & Hi). unfold update_users in Hup. destruct (negb _) in Hup; [done|].
    injection Hup as <-. unfold map_err in Hi.
    match type of Hi with context [kvdel_prefix ?p ?x] =>
      destruct (kvdel_prefix_run p x) as (wz & Hz & Kz & _) end.
    rewrite Hz in Hi. injection Hi as <-.
    exists (bump_epoch (set_password h row)).
    rewrite (kv_only_users _ _ (proj1 Gd)), (kv_only_users _ _ Kz).
    assert (Hfin : find_user u (update_user u bump_epoch (w_users wc)) = Some (bump_epoch (set_password h row)))
      by (by rewrite find_user_update, Hrow).
    split; [exact Hfin|]. split; [by eapply argon2_roundtrip|done].
Qed.

(** ** Bootstrap *)

Definition any_guards := guards (K := K) (R := R) (fun _ => False).
#[local] Instance any_guards_pre : PreOrder any_guards := guards_pre _.

Lemma encrypt_guards key pt : preserves any_guards (encrypt (W := W) key pt).
Proof. intros w r w' Hw. split; [by eapply encrypt_kv_only|done]. Qed.
Lemma stmt_guards {E A} (e : E) (f : W -> A) : preserves any_guards (stmt e (fun w => (f w, w))).
Proof. intros w r w'. unfold stmt. destruct (negb _); by intros [= _ <-]. Qed.

Lemma captcha_any st tok : preserves any_guards (ensure_captcha (K := K) (R := R) st tok).
Proof. apply guards_captcha. Qed.
Lemma draw_any {E} n : preserves any_guards (draw (W := W) (E := E) n).
Proof. apply guards_draw. Qed.

(** Existing users survive a bootstrap attempt. *)
Definition keeps_users w w' : Prop := w_users w <> [] -> w_users w' = w_users w.
#[local] Instance keeps_users_pre : PreOrder keeps_users.
Proof.
  split; [by intros w|]. intros x y z K1 K2 Hx. rewrite <- (K1 Hx). apply K2. by rewrite (K1 Hx).
Qed.
Lemma any_keeps {E A} (m : io W E A) : preserves any_guards m -> preserves keeps_users m.
Proof. intros Hm w r w' Hw _. apply Hm in Hw as [Hk _]. by apply kv_only_users. Qed.

Lemma bootstrap_keeps st name pw disp loc cap :
  preserves keeps_users (auth_bootstrap (K := K) (R := R) st name pw disp loc cap).
Proof.
  unfold auth_bootstrap, has_any_user, hash_password, generate_key, wrap_dek, master_key, insert_user,
    create_session, fetch_sess_epoch, generate_token.
  preserve; eauto using any_keeps, captcha_any, draw_any, encrypt_guards, stmt_guards.
  all: try (apply any_keeps, guards_set; tauto).
  all: intros w r w' Hw Hne; try destruct (negb (w_db_up w)); try by injection Hw as _ <-.
  destruct (w_users w) eqn:Hus; [done|]. by injection Hw as _ <-.
Qed.

(** Everything [auth_bootstrap] does before its insert, and the insert. *)
Lemma bootstrap_stages `{!CryptoLaws} st name pw disp loc cap w resp w' :
  auth_bootstrap st name pw disp loc cap w = (Ok resp, w') ->
  validate_password pw (min_password_length st) = Ok tt /\ w_users w = [] /\
  exists id hash salt m dek j wa,
    kv_only w wa /\ w_db_up wa = true /\ w_master wa = Some m /\ argon2_hash pw salt = Some hash /\
    String.length dek = 32%nat /\ unwrap_dek (derive_user_kek m id) j = Ok dek /\
    create_session id (set_users [mkUser id name hash None false disp (default "en" loc) (Some j) 0
                                    "on_open" None] wa) = (Ok (lr_token resp), w').
Proof.
  intros Hb. unfold auth_bootstrap in Hb.
  apply bind_Ok in Hb as (any & w1 & Hm & Hb). apply (pres_attempt _ _ (stmt_guards _ _)) in Hm as [K1 _].
  apply bind_Ok in Hb as ([] & w1' & He & Hb). apply (pres_ensure any_guards) in He as [K1' _].
  apply bind_Ok in Hb as ([] & w2 & Hm & Hb). apply (guards_captcha (fun _ => False)) in Hm as [K2 _].
  apply bind_Ok in Hb as ([] & w2' & He & Hb). apply (pres_ensure any_guards) in He as [K2' _].
  apply bind_Ok in Hb as ([] & w3 & Hval & Hb). injection Hval as Hval <-.
  split; [by destruct (validate_password pw _) as [[]|]|].
  apply bind_Ok in Hb as (hash & w4 & Hh & Hb). unfold hash_password in Hh.
  apply bind_Ok in Hh as (salt & w4' & Hd & Hh). apply (guards_draw (fun _ => False)) in Hd as [K3 _].
  injection Hh as Hh <-. apply bind_Ok in Hb as (now & w5 & Hn & Hb). injection Hn as _ <-.
  apply bind_Ok in Hb as (ent & w6 & Hd & Hb). apply (guards_draw (fun _ => False)) in Hd as [K4 _].
  apply bind_Ok in Hb as (dek & w7 & Hd & Hb). unfold generate_key in Hd.
  destruct (draw_world (E := AuthError.t) 32 w6) as (dek' & g & Hd' & Hlen). rewrite Hd' in Hd.
  injection Hd as -> <-. apply bind_Ok in Hb as (m & w8 & Hm & Hb). unfold map_err, master_key in Hm.
  destruct (w_master (set_rng g w6)) as [m'|] eqn:Hmaster; [|done]. injection Hm as -> <-.
  set (id := uuid_v7 now ent) in *. apply bind_Ok in Hb as (j & w9 & Hw & Hb). unfold map_err in Hw.
  destruct (wrap_world (derive_user_kek m id) dek (set_rng g w6) (hkdf_length _ _)) as (j' & g' & Hw' & Hun).
  rewrite Hw' in Hw. injection Hw as -> <-.
  set (wa := set_rng g' (set_rng g w6)) in *.
  assert (Kall : kv_only w wa).
  { assert (K5 : kv_only w6 wa) by (exists (w_kv w6), g'; by destruct w6).
    repeat (eapply kv_only_trans; [eassumption|]). apply kv_only_refl. }
  apply bind_Ok in Hb as ([] & wi & Hi & Hb). unfold map_err, insert_user in Hi.
  destruct (w_db_up wa) eqn:Hup; cbn [negb] in Hi; [|done].
  destruct (w_users wa) as [|x us] eqn:Hus; [|done]. injection Hi as <-.
  split; [by rewrite <- (kv_only_users _ _ Kall)|].
  apply bind_Ok in Hb as (token & wz & Hc & Hb). injection Hb as <- <-. unfold map_err in Hc.
  destruct (create_session id _) as [rc wc] eqn:Hcs. injection Hc as Hc ->.
  destruct rc as [tk|]; [|done]. injection Hc as ->.
  exists id, hash, salt, m, dek, j, wa. split_and!; try done. by destruct (argon2_hash pw salt); simplify_eq/=.
Qed.

(** Bootstrap works exactly once.  An attempt on a populated instance answers an
    error and leaves the users as they were, database failures included; a success
    means the table was empty and leaves one user whose hash verifies the chosen
    password, whose 32-byte data key opens, and for whom the returned token is a
    live session. *)
Theorem bootstrap_once `{!CryptoLaws, !AuthLaws} st name pw disp loc cap w r w' :
  auth_bootstrap st name pw disp loc cap w = (r, w') ->
  (w_users w <> [] -> is_ok r = false /\ w_users w' = w_users w) /\
  (forall resp, r = Ok resp ->
    exists row dek, w_users w' = [row] /\ u_username row = name /\
      argon2_verify pw (u_password_hash row) = Some true /\
      String.length dek = 32%nat /\ fst (get_user_dek (u_id row) w') = Ok dek /\
      session_user w' (lr_token resp) = Some (u_id row)).
Proof.
  intros Hb. split.
  - intros Hne. split; [|by eapply bootstrap_keeps]. destruct r as [resp|]; [|done].
    apply bootstrap_stages in Hb as (_ & Hemp & _). done.
  - intros resp ->.
    apply bootstrap_stages in Hb as (_ & _ & id & hash & salt & m & dek & j & wa & Ka & Hup & Hm & Hh & Hlen & Hun & Hc).
    set (row := mkUser id name hash _ _ _ _ _ _ _ _) in *. set (wi := set_users [row] wa) in *.
    assert (Hrow : find_user id (w_users wi) = Some row).
    { unfold find_user, wi. cbn. by rewrite String.eqb_refl. }
    destruct (create_session_run id row wi Hup Hrow) as (tok & w1 & Hr & Hk & Hl).
    rewrite Hr in Hc. injection Hc as <- <-.
    exists row, dek. rewrite (kv_only_users _ _ Hk). split; [done|]. split; [done|].
    split; [by eapply argon2_roundtrip|]. split; [done|]. split.
    + erewrite (get_user_dek_stored id m row j dek); [done|by rewrite (kv_only_up _ _ Hk)| |
        by rewrite (kv_only_users _ _ Hk)|done|done].
      by rewrite (kv_only_master _ _ Hk).
    + erewrite (alive_session id tok 0 (w_now wi) w1); [|apply alive_written; eauto].
      rewrite (kv_only_now _ _ Hk). assert (0 < full_window) by done.
      by rewrite (proj2 (Z.leb_gt _ _)) by lia.
Qed.

End AuthLemmas.

(** ** Witnesses *)

#[export] Instance toy_auth : AuthLib := {
  argon2_hash p salt := Some ("hash:" +:+ p);
  argon2_verify p h := Some (String.eqb ("hash:" +:+ p) h);
  totp_accepts secret name := true;
  totp_generate secret t := "code:" +:+ show_Z t;
  totp_check secret t code := Some (String.eqb code ("code:" +:+ show_Z (t / 30 * 30)));
  totp_url secret name := "otpauth://totp/" +:+ name;
  uuid_v7 t r := "uuid-" +:+ r;
  json := string;
  json_is_object s := starts_with "{" s;
  json_to_string s := Some s;
  json_of_string s := Some s;
}.
#[export] Instance toy_auth_laws : AuthLaws.
Proof. intros p salt h [= <-]. cbn. by rewrite String.eqb_refl. Qed.
#[export] Instance toy_captcha_net : CaptchaNet := fun url secret token => None.

Definition toy_state : AuthState := mkState CaptchaConfig.None_ 8.
Definition fresh_world : world MemoryKv.t N := toy_world [] [].
Definition boot := auth_bootstrap toy_state "alice" "correct horse battery staple" None None None fresh_world.

(** A first bootstrap succeeds. *)
Lemma bootstrap_once_witness :
  is_ok (fst boot) = true /\
  (w_users fresh_world <> [] -> is_ok (fst boot) = false /\ w_users (snd boot) = w_users fresh_world) /\
  forall resp, fst boot = Ok resp ->
    exists row dek, w_users (snd boot) = [row] /\ u_username row = "alice" /\
      argon2_verify "correct horse battery staple" (u_password_hash row) = Some true /\
      String.length dek = 32%nat /\ fst (get_user_dek (u_id row) (snd boot)) = Ok dek /\
      session_user (snd boot) (lr_token resp) = Some (u_id row).
Proof.
  split; [vm_compute; reflexivity|].
  apply (bootstrap_once toy_state "alice" "correct horse battery staple" None None None fresh_world).
  apply surjective_pairing.
Defined.

(** A first wrong guess, five more and, a window later, the right password. *)
Definition guess (pw : string) (w : world MemoryKv.t N) := verify_current_password "u1" pw w.
Definition g1 := guess "no" demo_world.
Definition g2 := guess "no" (snd g1).
Definition g3 := guess "no" (snd g2).
Definition g4 := guess "no" (snd g3).
Definition g5 := guess "no" (snd g4).
Definition g6 := guess "pw" (snd g5).
Definition later_world : world MemoryKv.t N :=
  set_now (w_now demo_world + from_secs RATE_LIMIT_WINDOW_SECS) (snd g6).

Lemma calm_set_now u t (w : world MemoryKv.t N) : w_now w <= t -> calm u w (set_now t w).
Proof. intros Ht. by split_and!. Qed.
Lemma calm_refl u (w : world MemoryKv.t N) : calm u w w.
Proof. by split_and!. Qed.

Lemma some_pair_fst {A B} (a c : A) (b d : B) : Some (a, b) = Some (c, d) -> c = a.
Proof. congruence. Qed.

Lemma password_guesses_bounded_witness :
  fst g1 = Err wrong_pw /\
  (forall i pw r, [("no", fst g2); ("no", fst g3); ("no", fst g4); ("no", fst g5); ("pw", fst g6)] !! i = Some (pw, r) ->
     r = if (i <? 4)%nat then Err wrong_pw else Err AuthError.TooManyRequests) /\
  exists w4, verify_current_password "u1" "pw" later_world = (Ok tt, w4).
Proof.
  apply (password_guesses_bounded "u1" "no" "pw" (toy_user None None) demo_world (snd g1) (snd g6)
           later_world (fst g1)).
  - reflexivity.
  - reflexivity.
  - vm_compute. reflexivity.
  - reflexivity.
  - apply surjective_pairing.
  - apply (g_cons "u1" _ (snd g1) "no" (fst g2) (snd g2)); [apply calm_refl|apply surjective_pairing|].
    apply (g_cons "u1" _ (snd g2) "no" (fst g3) (snd g3)); [apply calm_refl|apply surjective_pairing|].
    apply (g_cons "u1" _ (snd g3) "no" (fst g4) (snd g4)); [apply calm_refl|apply surjective_pairing|].
    apply (g_cons "u1" _ (snd g4) "no" (fst g5) (snd g5)); [apply calm_refl|apply surjective_pairing|].
    apply (g_cons "u1" _ (snd g5) "pw" (fst g6) (snd g6)); [apply calm_refl|apply surjective_pairing|].
    apply g_nil.
  - vm_compute. reflexivity.
  - intros i pw r Hi. destruct i as [|[|[|[|i]]]]; [..|lia]; intros Heq;
      rewrite (some_pair_fst _ _ _ _ Heq); reflexivity.
  - apply calm_set_now. vm_compute. discriminate.
  - vm_compute. discriminate.
  - reflexivity.
Defined.

(** Enrolment, then two codes of successive steps. *)
Definition enrolled_id : string :=
  match w_users (snd boot) with u :: _ => u_id u | [] => "" end.
Definition enrolled : world MemoryKv.t N := snd (totp_enroll enrolled_id (snd boot)).
Definition enrolled_user : UserData :=
  match w_users enrolled with u :: _ => user_data_from u | [] => user_data_from (toy_user None None) end.
Definition code_at (w : world MemoryKv.t N) : string :=
  "code:" +:+ show_Z (current_step w * totp_step).
Definition verified := verify_totp_code (totp_rl_key enrolled_id) enrolled_id enrolled_user (code_at enrolled) enrolled.
Definition next_step : world MemoryKv.t N := set_now (w_now enrolled + from_secs 30) (snd verified).
Definition verified2 :=
  verify_totp_code (totp_rl_key enrolled_id) enrolled_id enrolled_user (code_at next_step) next_step.

Lemma totp_code_not_replayed_witness :
  exists totp s totp' s', totp_of enrolled_id enrolled_user enrolled = Some totp /\
    code_at enrolled = totp_generate totp (s * totp_step) /\
    totp_of enrolled_id enrolled_user next_step = Some totp' /\
    code_at next_step = totp_generate totp' (s' * totp_step) /\ s < s'.
Proof.
  apply (totp_code_not_replayed enrolled_id (code_at enrolled) (code_at next_step) enrolled_user
           enrolled_user enrolled (snd verified) next_step (snd verified2)).
  - vm_compute. discriminate.
  - apply answer. vm_compute. reflexivity.
  - vm_compute. discriminate.
  - reflexivity.
  - apply answer. vm_compute. reflexivity.
Defined.

(** A user with the second factor on. *)
Definition totp_world : world MemoryKv.t N :=
  toy_world [set_totp (Some "secret") true (toy_user None None)] [].
Definition totp_login := auth_login toy_state "alice" "pw" None totp_world.

Lemma login_needs_second_factor_witness :
  is_ok (fst totp_login) = true /\
  (forall resp, fst totp_login = Ok resp -> lr_requires_totp resp = true) /\
  forall tok, session_user (snd totp_login) tok = session_user totp_world tok.
Proof.
  split; [vm_compute; reflexivity|].
  apply (login_needs_second_factor toy_state "alice" "pw" None
           (set_totp (Some "secret") true (toy_user None None))); [reflexivity..|].
  apply surjective_pairing.
Defined.

Definition new_pw : string := "another good passphrase!".
Definition changed := change_password toy_state "u1" "pw" new_pw demo_in.

Lemma change_password_evicts_witness :
  fst (get_session (E := StatusCode) demo_token (snd changed)) <> Ok (Some "u1") /\
  argon2_verify "pw" (u_password_hash (toy_user None None)) = Some true /\
  validate_password new_pw (min_password_length toy_state) = Ok tt /\
  exists row', find_user "u1" (w_users (snd changed)) = Some row' /\
    argon2_verify new_pw (u_password_hash row') = Some true /\ u_sess_epoch row' = 1 + 1.
Proof.
  apply (change_password_evicts toy_state "u1" (toy_user None None) "pw" new_pw demo_world [demo_token]
           demo_in (snd changed) [] (snd changed) demo_token
           (fst (get_session (E := StatusCode) demo_token (snd changed)))
           (snd (get_session (E := StatusCode) demo_token (snd changed)))
           demo_epochs_ok demo_empty demo_history).
  - reflexivity.
  - apply answer. vm_compute. reflexivity.
  - apply h_nil.
  - intros Hin. inversion Hin.
  - apply surjective_pairing.
Defined.
