(* ===== verification/Jobs.v ===== *)
(** * Durable job queue ([jobs.rs])

    The [jobs] table as a list of rows, one definition per statement and function,
    and the worker pool as a step relation ([Pool]).  Stamps are TEXT and compared
    bytewise, as SQLite does.  Formatting of stamps, UUIDs, serde and the regex
    scrubber are parameters ([JobLib]). *)
From S2P Require Import Prelude Kv Crypto UnlockRing World Toy.
Local Open Scope string_scope.
Local Open Scope Z_scope.

(** [serde_json::Value] of an outbound message: its text, when it serializes. *)
Record outbound_value := mkOutbound { ob_text : option string }.

Inductive JobPayload : Type :=
  | SyncAccount (account_id user_id : string)
  | UnsnoozeMessage (message_id : string)
  | SendMessage (account_id : string) (outbound : outbound_value)
  | ExportBackup (user_id artifact_id password_wrapped : string)
  | ImportBackup (user_id upload_id password_wrapped : string).

Definition payload_kind (payload : JobPayload) : string :=
  match payload with
  | SyncAccount _ _ => "sync_account"
  | UnsnoozeMessage _ => "unsnooze_message"
  | SendMessage _ _ => "send_message"
  | ExportBackup _ _ _ => "export_backup"
  | ImportBackup _ _ _ => "import_backup"
  end.

(** The texts the code writes to [jobs.status]. *)
Inductive Status := Pending | Running | Completed | Failed.
#[export] Instance Status_eq_dec : EqDecision Status.
Proof. solve_decision. Defined.
Definition status_str (s : Status) : string :=
  match s with
  | Pending => "pending" | Running => "running" | Completed => "completed" | Failed => "failed"
  end.

Record JobRow := mkJob {
  j_id : string; j_kind : string; j_run_at : string; j_payload : string; j_status : Status;
  j_attempts : Z; j_last_error : option string; j_last_error_detail : option string;
  j_created_at : string; j_updated_at : string }.

Record ClaimedJob := mkClaimed { c_id : string; c_status : Status; c_payload : JobPayload }.
Record JobStatus := mkJobStatus {
  js_status : Status; js_last_error : option string; js_payload : option JobPayload }.

(** What a failed statement or a bad row answers ([sqlx::Error]). *)
Inductive SqlxError := DbDown | Decode | Encode.

Class JobLib := {
  payload_to_json : JobPayload -> option string;
  payload_of_json : string -> option JobPayload;
  job_uuid : N -> string;               (* the n-th UUIDv7 drawn by the process *)
  rfc3339 : Z -> string;                (* instant (ns) to RFC3339 text *)
  db_stamp : Z -> string;               (* instant to "%Y-%m-%d %H:%M:%S" *)
  parse_rfc3339 : string -> option Z;
  parse_naive : string -> option Z;     (* the two naive formats, in order *)
  scrub_spans : string -> string;       (* the five regex replacements *)
  report_json : string -> string;       (* the failure report of an error text *)
  serde_text : string -> string;        (* serde's message for an unreadable text *)
  utf8_text : string -> string;         (* [Utf8Error] of a byte string *)
  base64_text : string;                 (* [base64::DecodeError] *)
}.

(** Documented behaviour of serde: it round-trips what it wrote, and a payload of plain
    strings always serializes. *)
Class JobLaws `{JobLib} := {
  payload_roundtrip p j : payload_to_json p = Some j -> payload_of_json j = Some p;
  sync_serializes a u : payload_to_json (SyncAccount a u) <> None;
}.

(** [kernel/events.rs]. *)
Inductive AppEvent :=
  | SyncStarted (account_id : string)
  | SyncComplete (account_id : string)
  | SyncErrored (account_id error : string).

(** What the job code writes besides the [jobs] table: the event bus (newest first),
    the [backup:report:] keys, and the snoozed messages with their dates. *)
Record side := mkSide {
  sd_events : list AppEvent; sd_reports : gmap string string; sd_snoozed : gmap string string }.

(** The state the statements touch. *)
Record jworld := mkJWorld {
  jw_now : Z;
  jw_rows : list JobRow;
  jw_accounts : list MailAccount;
  jw_seq : N;                           (* UUIDs drawn so far *)
  jw_up : bool;
  jw_side : side;
}.
Definition set_rows (r : list JobRow) (w : jworld) : jworld :=
  mkJWorld (jw_now w) r (jw_accounts w) (jw_seq w) (jw_up w) (jw_side w).
Definition bump_seq (w : jworld) : jworld :=
  mkJWorld (jw_now w) (jw_rows w) (jw_accounts w) (N.succ (jw_seq w)) (jw_up w) (jw_side w).
Definition set_side (s : side) (w : jworld) : jworld :=
  mkJWorld (jw_now w) (jw_rows w) (jw_accounts w) (jw_seq w) (jw_up w) s.
Definition emit (e : AppEvent) (w : jworld) : jworld :=
  let s := jw_side w in set_side (mkSide (e :: sd_events s) (sd_reports s) (sd_snoozed s)) w.
Definition no_side : side := mkSide [] ∅ ∅.

(** ** [InFlight] *)
Module InFlight.
Definition t : Type := gset string.
Definition new : t := ∅.
Definition try_begin (account_id : string) (s : t) : bool * t :=
  (bool_decide (account_id ∉ s), {[ account_id ]} ∪ s).
Definition finish (account_id : string) (s : t) : t := s ∖ {[ account_id ]}.
Definition contains (account_id : string) (s : t) : bool := bool_decide (account_id ∈ s).
End InFlight.

Section Jobs.
Context `{JobLib}.

(** A statement: fails when the database is down. *)
Definition jstmt {A} (f : jworld -> A * jworld) : io jworld SqlxError A :=
  fun w => if negb (jw_up w) then (Err DbDown, w) else let '(a, w') := f w in (Ok a, w').

Definition update_rows (p : JobRow -> bool) (f : JobRow -> JobRow) (rows : list JobRow)
    : list JobRow := map (fun r => if p r then f r else r) rows.
Definition by_id (id : string) (r : JobRow) : bool := String.eqb (j_id r) id.

(** Row updates of the status writes; [stamp] is [updated_at_value]. *)
Definition set_status (s : Status) (stamp : string) (r : JobRow) : JobRow :=
  mkJob (j_id r) (j_kind r) (j_run_at r) (j_payload r) s (j_attempts r) (j_last_error r)
    (j_last_error_detail r) (j_created_at r) stamp.
Definition set_completed (stamp : string) (r : JobRow) : JobRow :=
  mkJob (j_id r) (j_kind r) (j_run_at r) (j_payload r) Completed (j_attempts r) None None
    (j_created_at r) stamp.
Definition set_failed (err : string) (detail : option string) (stamp : string) (r : JobRow) : JobRow :=
  mkJob (j_id r) (j_kind r) (j_run_at r) (j_payload r) Failed (j_attempts r + 1) (Some err) detail
    (j_created_at r) stamp.
Definition set_rescheduled (err run_at stamp : string) (r : JobRow) : JobRow :=
  mkJob (j_id r) (j_kind r) run_at (j_payload r) Pending (j_attempts r + 1) (Some err)
    (j_last_error_detail r) (j_created_at r) stamp.

Definition updated_at_value (w : jworld) : string := db_stamp (jw_now w).

(** ** Queueing *)

Definition enqueue (payload : JobPayload) (run_at : string) : io jworld SqlxError string :=
  fun w =>
    let id := job_uuid (jw_seq w) in
    let w := bump_seq w in
    match payload_to_json payload with
    | None => (Err Encode, w)
    | Some json =>
        jstmt (fun w =>
          (id, set_rows (jw_rows w ++ [mkJob id (payload_kind payload) run_at json Pending 0 None None
                                       (db_stamp (jw_now w)) (db_stamp (jw_now w))])%list w)) w
    end.

Definition job_status (job_id : string) : io jworld SqlxError (option JobStatus) :=
  jstmt (fun w =>
    (option_map (fun r => mkJobStatus (j_status r) (j_last_error r) (payload_of_json (j_payload r)))
       (List.find (by_id job_id) (jw_rows w)), w)).

(** ** Claiming *)

(** [ORDER BY run_at ASC, created_at ASC]. *)
Definition run_order (a b : JobRow) : bool :=
  if text_le (j_run_at a) (j_run_at b) then
    if text_le (j_run_at b) (j_run_at a) then text_le (j_created_at a) (j_created_at b) else true
  else false.
Definition is_due (now : string) (r : JobRow) : bool :=
  bool_decide (j_status r = Pending) && text_le (j_run_at r) now.
Definition select_due (now : string) (rows : list JobRow) : list JobRow :=
  order_by run_order (List.filter (is_due now) rows).

Definition claimed_from_row (r : JobRow) : result SqlxError ClaimedJob :=
  match payload_of_json (j_payload r) with
  | Some p => Ok (mkClaimed (j_id r) (j_status r) p)
  | None => Err Decode
  end.

(** Single-statement claim: the row is [running] even when its payload is bad. *)
Definition claim_due (now : string) : io jworld SqlxError (option ClaimedJob) :=
  let! row := jstmt (fun w =>
    match select_due now (jw_rows w) with
    | [] => (None, w)
    | r :: _ =>
        let f := set_status Running (updated_at_value w) in
        (Some (f r), set_rows (update_rows (by_id (j_id r)) f (jw_rows w)) w)
    end) in
  match row with
  | None => ret None
  | Some r => let! c := lift (claimed_from_row r) in ret (Some c)
  end.

(** The compare-and-set: rows affected and the table after it. *)
Definition cas_pred (id : string) (r : JobRow) : bool := by_id id r && bool_decide (j_status r = Pending).
Definition cas_claim (id stamp : string) (rows : list JobRow) : nat * list JobRow :=
  (length (List.filter (cas_pred id) rows), update_rows (cas_pred id) (set_status Running stamp) rows).

(** Whether the scan passes over a selected row. *)
Definition skip_row (inflight : InFlight.t) (payload : JobPayload) : bool :=
  match payload with
  | SyncAccount account_id _ => InFlight.contains account_id inflight
  | _ => false
  end.

Fixpoint claim_scan (inflight : InFlight.t) (rows : list JobRow) : io jworld SqlxError (option ClaimedJob) :=
  match rows with
  | [] => ret None
  | row :: rest =>
      match payload_of_json (j_payload row) with
      | None => claim_scan inflight rest
      | Some payload =>
          if skip_row inflight payload then claim_scan inflight rest else
          let! affected := jstmt (fun w =>
            let '(n, rows') := cas_claim (j_id row) (updated_at_value w) (jw_rows w) in
            (n, set_rows rows' w)) in
          if (affected =? 1)%nat then ret (Some (mkClaimed (j_id row) Running payload))
          else claim_scan inflight rest
      end
  end.

Definition claim_next (now : string) (inflight : InFlight.t) : io jworld SqlxError (option ClaimedJob) :=
  let! rows := jstmt (fun w => (select_due now (jw_rows w), w)) in
  claim_scan inflight rows.

Definition reclaim_rows (stamp : string) (rows : list JobRow) : list JobRow :=
  update_rows (fun r => bool_decide (j_status r = Running)) (set_status Pending stamp) rows.
Definition reclaim_stale_running : io jworld SqlxError nat :=
  jstmt (fun w =>
    (length (List.filter (fun r => bool_decide (j_status r = Running)) (jw_rows w)),
     set_rows (reclaim_rows (updated_at_value w) (jw_rows w)) w)).

(** [try_claim_with_permit]: the permits left after the attempt. *)
Definition try_claim_with_permit (now : string) (inflight : InFlight.t) (permits : nat)
    : io jworld SqlxError (option ClaimedJob * nat) :=
  match permits with
  | O => ret (None, O)
  | S avail =>
      let! job := claim_next now inflight in
      match job with
      | Some j => ret (Some j, avail)
      | None => ret (None, S avail)
      end
  end.

(** ** Outcomes *)

Definition write_row (id : string) (f : string -> JobRow -> JobRow) : io jworld SqlxError unit :=
  jstmt (fun w => (tt, set_rows (update_rows (by_id id) (f (updated_at_value w)) (jw_rows w)) w)).
Definition mark_completed (id : string) : io jworld SqlxError unit := write_row id set_completed.
Definition mark_failed (id last_error : string) (detail : option string) : io jworld SqlxError unit :=
  write_row id (set_failed last_error detail).
Definition reschedule_transient (id last_error : string) (delay_secs : Z) : io jworld SqlxError unit :=
  fun w => write_row id (set_rescheduled last_error (rfc3339 (jw_now w + from_secs delay_secs))) w.
Definition revert_pending (id : string) : io jworld SqlxError unit :=
  write_row id (set_status Pending).

Definition SMTP_TRANSIENT_MAX_ATTEMPTS : Z := 3.
Definition is_transient (err_cat : string) : bool :=
  String.eqb err_cat "SMTP transient" || String.eqb err_cat "JMAP transient".
(** [30 * (1 << attempts.min(4))]. *)
Definition send_delay (attempts : Z) : Z := 30 * Z.shiftl 1 (Z.min attempts 4).
Definition send_category (err_cat : string) : string :=
  if starts_with "SMTP " err_cat || starts_with "JMAP " err_cat then err_cat else "send error".

(** The tail of [handle_send_message] once the plugin has answered. *)
Definition finish_send (job_id : string) (answer : result string unit) : io jworld SqlxError unit :=
  match answer with
  | Ok _ => mark_completed job_id
  | Err err_cat =>
      let! attempts := jstmt (fun w =>
        (match List.find (by_id job_id) (jw_rows w) with Some r => j_attempts r | None => 0 end, w)) in
      if is_transient err_cat && (attempts + 1 <? SMTP_TRANSIENT_MAX_ATTEMPTS)
      then reschedule_transient job_id err_cat (send_delay attempts)
      else mark_failed job_id (send_category err_cat) None
  end.

(** [send] is [app.send]: the plugin registered for a protocol; running it may
    change nothing of this state. *)
Definition send_plan (send : string -> option (string -> string -> result string unit))
    (account_id : string) (outbound : outbound_value)
    : io jworld SqlxError (string + (string -> string -> result string unit) * string) :=
  match ob_text outbound with
  | None => ret (inl "invalid outbound payload")
  | Some raw =>
      let! protocol := jstmt (fun w =>
        (option_map a_send_protocol
           (List.find (fun a => String.eqb (a_id a) account_id) (jw_accounts w)), w)) in
      match protocol with
      | None => ret (inl "send protocol not configured")
      | Some p =>
          if is_empty p then ret (inl "send protocol not configured") else
          match send p with
          | None => ret (inl "unknown send protocol")
          | Some plugin => ret (inr (plugin, raw))
          end
      end
  end.

Definition handle_send_message (send : string -> option (string -> string -> result string unit))
    (job_id account_id : string) (outbound : outbound_value) : io jworld SqlxError unit :=
  let! plan := send_plan send account_id outbound in
  match plan with
  | inl err => mark_failed job_id err None
  | inr (plugin, raw) => finish_send job_id (plugin account_id raw)
  end.

Definition backup_failed : string := "backup job failed".
Definition ERROR_DETAIL_CAP : nat := 2048.

Definition scrub_error_detail (raw : string) : string :=
  let s := scrub_spans raw in
  if (ERROR_DETAIL_CAP <? char_count s)%nat then take_chars ERROR_DETAIL_CAP s +:+ "…" else s.

(** [backup::BackupError]; a wrapped library error is its [Display]. *)
Inductive BackupError := InvalidPassword | CorruptArchive | UnsupportedFormat | UploadIncomplete
  | BackupCrypto (m : string) | BackupIo (m : string) | BackupDb (m : string) | BackupZip (m : string)
  | BackupJson (m : string) | BackupInternal (m : string).
Definition backup_error_text (e : BackupError) : string :=
  match e with
  | InvalidPassword => "invalid backup password"
  | CorruptArchive => "corrupt archive"
  | UnsupportedFormat => "unsupported backup format"
  | UploadIncomplete => "upload incomplete"
  | BackupCrypto m => "crypto: " +:+ m
  | BackupIo m => "io: " +:+ m
  | BackupDb m => "db: " +:+ m
  | BackupZip m => "zip: " +:+ m
  | BackupJson m => "json: " +:+ m
  | BackupInternal m => "internal: " +:+ m
  end.
Definition crypto_error_text (e : CryptoError.t) : string :=
  match e with
  | CryptoError.Encrypt m => "encryption failed: " +:+ m
  | CryptoError.Decrypt m => "decryption failed (" +:+ m +:+
      "); data was likely encrypted under a different key — re-add the account or reset the database"
  | CryptoError.InvalidKeyLength => "invalid key length"
  | CryptoError.InvalidNonceLength => "invalid nonce length"
  | CryptoError.Base64 => "base64 decode error: " +:+ base64_text
  | CryptoError.MasterKeyNotInitialized => "master key not initialized; set LYRA_MASTER_KEY at startup"
  | CryptoError.MissingDek =>
      "no encrypted DEK stored for this user; re-add the mail account or reset the database"
  | CryptoError.Storage m => "database error while loading the user DEK: " +:+ m
  end.

Definition finalize_backup_job (job_id : string) (res : result BackupError unit) : io jworld SqlxError unit :=
  match res with
  | Ok _ => mark_completed job_id
  | Err err => mark_failed job_id backup_failed (Some (scrub_error_detail (backup_error_text err)))
  end.

(** The message update of an [UnsnoozeMessage] job. *)
Definition unsnooze (message_id : string) : io jworld SqlxError unit :=
  jstmt (fun w => let s := jw_side w in
    (tt, set_side (mkSide (sd_events s) (sd_reports s) (delete message_id (sd_snoozed s))) w)).

(** Best effort: the store's error is dropped. *)
Definition write_backup_failure_report (job_id : string) (err : BackupError) (w : jworld) : jworld :=
  let s := jw_side w in
  set_side (mkSide (sd_events s)
    (<["backup:report:" +:+ job_id := report_json (scrub_error_detail (backup_error_text err))]> (sd_reports s)) (sd_snoozed s)) w.

(** [dek] is the answer of [get_user_dek], an error being its [Display]. *)
Definition unwrap_backup_password `{CryptoLib} (dek : result string string) (password_wrapped : string)
    : result BackupError string :=
  match dek with
  | Err e => Err (BackupCrypto e)
  | Ok key =>
      match cred_of_json password_wrapped with
      | None => Err (BackupJson (serde_text password_wrapped))
      | Some envelope =>
          match decrypt key envelope with
          | Err e => Err (BackupCrypto (crypto_error_text e))
          | Ok bytes => if utf8_valid bytes then Ok bytes else Err (BackupCrypto (utf8_text bytes))
          end
      end
  end.

(** ** The Settings error log *)

Definition job_stamp_to_rfc3339 (raw : string) : string :=
  match parse_rfc3339 raw with
  | Some t => rfc3339 t
  | None => match parse_naive raw with Some t => rfc3339 t | None => raw end
  end.

Record SyncErrorLogItem := mkLogItem {
  li_id : string; li_at : string; li_category : string; li_detail : option string; li_attempts : Z }.

Definition log_item (account_id user_id : string) (r : JobRow) : option SyncErrorLogItem :=
  match payload_of_json (j_payload r) with
  | Some (SyncAccount aid uid) =>
      if String.eqb aid account_id && String.eqb uid user_id then
        match j_last_error r with
        | Some category =>
            Some (mkLogItem (j_id r) (job_stamp_to_rfc3339 (j_updated_at r)) category
                    (j_last_error_detail r) (j_attempts r))
        | None => None
        end
      else None
  | _ => None
  end.

Definition list_sync_account_errors (account_id user_id : string) (limit : Z)
    : io jworld SqlxError (list SyncErrorLogItem) :=
  jstmt (fun w =>
    let rows := take 200 (order_by (fun a b => text_le (j_updated_at b) (j_updated_at a))
      (List.filter (fun r => bool_decide (j_status r = Failed) && String.eqb (j_kind r) "sync_account")
         (jw_rows w))) in
    (take (Z.to_nat (Z.max 1 (Z.min 50 limit))) (omap (log_item account_id user_id) rows), w)).

End Jobs.

(** ** Error categories ([sanitize_error], [SmtpError::job_category]) *)

Inductive ImapError := ImapConnection (m : string) | ImapTls (m : string) | ImapLogin (m : string)
  | ImapProtocol (m : string) | ImapTimeout | ImapCrypto (m : string) | ImapLib (m : string).
(** [jmap_client::Error], with the codes the backend tells apart. *)
Inductive MethodErrorType := CannotCalculateChanges | ServerUnavailable | ServerPartialFail | TooManyChanges
  | AccountReadOnly | OtherMethodError (code : string).
Inductive SetErrorType := RateLimit | OverQuota | OtherSetError (code : string).
Inductive ClientError := Transport (m : string) | Server (status : string) | Problem (status : option Z)
  | MethodE (code : MethodErrorType) | SetE (code : SetErrorType) | OtherClient (m : string).
Inductive JmapError := JmapHttp (m : string) | JmapSession (m : string) | JmapAuth (m : string)
  | JmapCrypto (m : string) | JmapInvalid (m : string) | JmapUrl (m : string)
  | JmapCrossOrigin (m : string) | JmapClient (e : ClientError).
Inductive SmtpError := SmtpTransient (m : string) | SmtpPermanent (m : string)
  | SmtpTransport (m : string) | SmtpBuild (m : string) | SmtpAddress (m : string)
  | SmtpCrypto (m : string) | SmtpCredential (m : string) | SmtpConfig (m : string).
Inductive SyncError := AccountNotFound | MessageNotFound | AccountDisabled | Database (e : string)
  | Imap (e : ImapError) | Jmap (e : JmapError) | Smtp (e : SmtpError) | CryptoE (m : string)
  | InvalidInput (m : string) | InternalE (m : string) | ProtocolE (m : string).

Definition job_category (e : SmtpError) : string :=
  match e with
  | SmtpTransient _ => "SMTP transient"
  | SmtpPermanent _ => "SMTP permanent"
  | SmtpCredential _ | SmtpConfig _ => "SMTP error"
  | SmtpTransport _ | SmtpBuild _ | SmtpAddress _ | SmtpCrypto _ => "SMTP error"
  end.

Definition sanitize_error (err : SyncError) : string :=
  match err with
  | Imap (ImapLogin _) => "auth error"
  | Imap ImapTimeout => "IMAP timeout"
  | Imap _ => "IMAP error"
  | Jmap (JmapAuth _) => "auth error"
  | Jmap _ => "JMAP error"
  | Smtp smtp => job_category smtp
  | Database _ => "database error"
  | ProtocolE _ => "protocol error"
  | CryptoE _ => "credential error"
  | _ => "sync failed"
  end.

(** ** Lemmas *)

Lemma run_order_total a b : run_order a b = false -> run_order b a = true.
Proof.
  unfold run_order.
  destruct (text_le (j_run_at a) (j_run_at b)) eqn:Hab, (text_le (j_run_at b) (j_run_at a)) eqn:Hba;
    try done.
  - apply text_le_total.
  - apply text_le_total in Hab. congruence.
Qed.

Lemma run_order_trans a b c : run_order a b = true -> run_order b c = true -> run_order a c = true.
Proof.
  unfold run_order.
  destruct (text_le (j_run_at a) (j_run_at b)) eqn:Hab; [|done].
  destruct (text_le (j_run_at b) (j_run_at c)) eqn:Hbc; [|by destruct (text_le (j_run_at b) (j_run_at a))].
  intros H1 H2. rewrite (text_le_trans _ _ _ Hab Hbc).
  destruct (text_le (j_run_at c) (j_run_at a)) eqn:Hca; [|done].
  rewrite (text_le_trans _ _ _ Hbc Hca) in H1. rewrite (text_le_trans _ _ _ Hca Hab) in H2.
  by eapply text_le_trans.
Qed.

Lemma select_due_elem now rows r : r ∈ select_due now rows <-> r ∈ rows /\ is_due now r = true.
Proof.
  unfold select_due. rewrite order_by_perm, !list_elem_of_In. apply List.filter_In.
Qed.

Lemma select_due_sorted now rows : StronglySorted (le_rel run_order) (select_due now rows).
Proof. apply order_by_sorted; [apply run_order_total|apply run_order_trans]. Qed.

(** In a table without repeated ids a predicate that pins the id selects one row. *)
Lemma filter_one (p : JobRow -> bool) rows r :
  NoDup (j_id <$> rows) -> r ∈ rows -> p r = true -> (forall x, p x = true -> j_id x = j_id r) ->
  List.filter p rows = [r].
Proof.
  intros Hnd Hin Hp Hid. induction rows as [|x rows IH]; [by apply not_elem_of_nil in Hin|].
  apply NoDup_cons in Hnd as [Hx Hnd]. apply elem_of_cons in Hin as [->|Hin]; simpl.
  - rewrite Hp. f_equal. clear IH Hnd. induction rows as [|y rows IH]; [done|].
    apply not_elem_of_cons in Hx as [Hxy Hx]. simpl.
    destruct (p y) eqn:Hy; [|by apply IH]. apply Hid in Hy. by rewrite Hy in Hxy.
  - destruct (p x) eqn:Hpx; [|by apply IH]. apply Hid in Hpx. exfalso. apply Hx. rewrite Hpx.
    apply list_elem_of_fmap. eauto.
Qed.

Lemma update_rows_id p f rows :
  (forall r, j_id (f r) = j_id r) -> j_id <$> update_rows p f rows = j_id <$> rows.
Proof.
  intros Hf. unfold update_rows. change (map ?g rows) with (g <$> rows). rewrite <- list_fmap_compose.
  apply list_fmap_ext. intros _ r _. unfold compose. by destruct (p r).
Qed.

Lemma update_rows_elem p f rows r :
  r ∈ update_rows p f rows <-> exists x, x ∈ rows /\ r = if p x then f x else x.
Proof.
  unfold update_rows. rewrite list_elem_of_In, in_map_iff. setoid_rewrite list_elem_of_In. naive_solver.
Qed.

Lemma update_rows_ext p q f rows :
  (forall x, x ∈ rows -> p x = q x) -> update_rows p f rows = update_rows q f rows.
Proof.
  intros Hpq. unfold update_rows. apply map_ext_in. intros x Hx%list_elem_of_In. by rewrite Hpq.
Qed.

Lemma same_row rows r x : NoDup (j_id <$> rows) -> r ∈ rows -> x ∈ rows -> j_id x = j_id r -> x = r.
Proof.
  intros Hnd Hr Hx Heq. apply list_elem_of_lookup in Hr as [n Hn], Hx as [m Hm].
  assert (n = m) as ->; [|congruence].
  apply (NoDup_lookup (j_id <$> rows) n m (j_id r) Hnd); rewrite list_lookup_fmap.
  - by rewrite Hn.
  - rewrite Hm. simpl. congruence.
Qed.

Section JobLemmas.
Context `{JobLib}.

Lemma jstmt_run {A} (f : jworld -> A * jworld) w :
  jw_up w = true -> jstmt f w = (Ok (fst (f w)), snd (f w)).
Proof. intros Hup. unfold jstmt. rewrite Hup. by destruct (f w). Qed.

Lemma cas_hits rows r stamp :
  NoDup (j_id <$> rows) -> r ∈ rows -> j_status r = Pending ->
  cas_claim (j_id r) stamp rows = (1%nat, update_rows (by_id (j_id r)) (set_status Running stamp) rows).
Proof.
  intros Hnd Hin Hp. unfold cas_claim.
  assert (Hr : cas_pred (j_id r) r = true).
  { unfold cas_pred, by_id. by rewrite String.eqb_refl, bool_decide_true. }
  rewrite (filter_one _ rows r Hnd Hin Hr).
  - f_equal. apply update_rows_ext. intros x Hx. unfold cas_pred, by_id.
    destruct (String.eqb_spec (j_id x) (j_id r)) as [Heq|]; [|done].
    by rewrite (same_row rows r x Hnd Hin Hx Heq), bool_decide_true.
  - intros x [Hx%String.eqb_eq _]%andb_prop. done.
Qed.

(** A row the pool may take: due, readable, and not a sync of a busy account. *)
Definition claimable (now : string) (inflight : InFlight.t) (r : JobRow) : Prop :=
  is_due now r = true /\ exists p, payload_of_json (j_payload r) = Some p /\ skip_row inflight p = false.

Lemma claim_scan_run now inflight l : forall w,
  jw_up w = true -> NoDup (j_id <$> jw_rows w) ->
  (forall r, r ∈ l -> r ∈ jw_rows w /\ is_due now r = true) ->
  (claim_scan inflight l w = (Ok None, w) /\ forall r, r ∈ l -> ~ claimable now inflight r) \/
  (exists before r after p, l = (before ++ r :: after)%list /\ claimable now inflight r /\
     payload_of_json (j_payload r) = Some p /\
     (forall x, x ∈ before -> ~ claimable now inflight x) /\
     claim_scan inflight l w = (Ok (Some (mkClaimed (j_id r) Running p)),
       set_rows (update_rows (by_id (j_id r)) (set_status Running (updated_at_value w)) (jw_rows w)) w)).
Proof.
  induction l as [|r l IH]; intros w Hup Hnd Hl.
  { left. split; [done|]. by intros r ?%not_elem_of_nil. }
  assert (Htail : ~ claimable now inflight r -> claim_scan inflight (r :: l) w = claim_scan inflight l w ->
    (claim_scan inflight (r :: l) w = (Ok None, w) /\ forall x, x ∈ r :: l -> ~ claimable now inflight x) \/
    (exists before r0 after p, r :: l = (before ++ r0 :: after)%list /\ claimable now inflight r0 /\
       payload_of_json (j_payload r0) = Some p /\ (forall x, x ∈ before -> ~ claimable now inflight x) /\
       claim_scan inflight (r :: l) w = (Ok (Some (mkClaimed (j_id r0) Running p)),
         set_rows (update_rows (by_id (j_id r0)) (set_status Running (updated_at_value w)) (jw_rows w)) w))).
  { intros Hr ->. destruct (IH w Hup Hnd) as [[-> Hno]|(b & r0 & a & p & -> & Hc & Hp & Hb & ->)].
    - intros x Hx. apply Hl. by right.
    - left. split; [done|]. intros x [->|Hx]%elem_of_cons; [done|by apply Hno].
    - right. exists (r :: b), r0, a, p. split_and!; try done.
      intros x [->|Hx]%elem_of_cons; [done|by apply Hb]. }
  destruct (Hl r ltac:(by left)) as [Hin Hdue]. cbn [claim_scan] in *.
  destruct (payload_of_json (j_payload r)) as [p|] eqn:Hp.
  - destruct (skip_row inflight p) eqn:Hs.
    + apply Htail; [|done]. intros (_ & p' & Hp' & Hs'). congruence.
    + right. exists [], r, l, p. split; [done|]. split; [split; eauto|]. split; [done|].
      split; [by intros x ?%not_elem_of_nil|].
      rewrite (bind_step _ _ w 1%nat (set_rows (update_rows (by_id (j_id r))
                 (set_status Running (updated_at_value w)) (jw_rows w)) w)); [done|].
      rewrite jstmt_run by done. rewrite cas_hits; [done..|].
      unfold is_due in Hdue. apply andb_prop in Hdue as [Hd _]. by apply bool_decide_eq_true in Hd.
  - apply Htail; [|done]. intros (_ & p' & Hp' & _). congruence.
Qed.

(** [claim_next] is exact.  With the database up it always answers; it answers no
    job only when no due pending row can be taken, and otherwise takes the oldest
    such row in (run_at, created_at) order, answers its payload, and flips exactly that
    row from pending to running. *)
Theorem claim_next_takes_oldest (now : string) (inflight : InFlight.t) (w : jworld) :
  jw_up w = true -> NoDup (j_id <$> jw_rows w) ->
  (claim_next now inflight w = (Ok None, w) /\ forall r, r ∈ jw_rows w -> ~ claimable now inflight r) \/
  (exists r p, r ∈ jw_rows w /\ claimable now inflight r /\ payload_of_json (j_payload r) = Some p /\
     (forall x, x ∈ jw_rows w -> claimable now inflight x -> run_order r x = true) /\
     claim_next now inflight w = (Ok (Some (mkClaimed (j_id r) Running p)),
       set_rows (update_rows (by_id (j_id r)) (set_status Running (updated_at_value w)) (jw_rows w)) w)).
Proof.
  intros Hup Hnd. unfold claim_next. rewrite (bind_step _ _ w (select_due now (jw_rows w)) w)
    by (by rewrite jstmt_run).
  destruct (claim_scan_run now inflight (select_due now (jw_rows w)) w Hup Hnd) as
    [[-> Hno]|(b & r & a & p & Heq & Hc & Hp & Hb & ->)].
  - intros r. apply select_due_elem.
  - left. split; [done|]. intros r Hin Hcl. apply (Hno r); [|done].
    apply select_due_elem. split; [done|apply Hcl].
  - right. exists r, p.
    assert (Hin : r ∈ select_due now (jw_rows w)) by (rewrite Heq; set_solver).
    split; [by apply select_due_elem in Hin as [? _]|]. split; [done|]. split; [done|].
    split; [|done]. intros x Hx Hcx.
    assert (Hxs : x ∈ select_due now (jw_rows w)).
    { apply select_due_elem. split; [done|apply Hcx]. }
    pose proof (select_due_sorted now (jw_rows w)) as Hs. rewrite Heq in Hs, Hxs.
    apply elem_of_app in Hxs as [Hxb|[->|Hxa]%elem_of_cons]; [by destruct (Hb x Hxb)| |].
    + unfold run_order. by rewrite !text_le_refl.
    + clear - Hs Hxa. induction b as [|y b IH]; [|by inversion Hs; auto].
      inversion Hs as [|? ? _ Hall]. by apply (proj1 (Forall_forall _ _) Hall x).
Qed.

End JobLemmas.
