(* ===== verification/Pool.v ===== *)
(** * The worker pool ([jobs.rs]: [spawn_workers], [process_job], [InFlight])

    [process_job] as one sequential program, and the pool as a step relation: one
    dispatcher that takes a permit, selects, and claims row by row with a
    compare-and-set, and one task per claimed job.  A step is what runs between two
    await points: a statement, a change of the in-flight set, or an external call.
    Any statement of the dispatcher or of a task may fail, and the process may
    restart at any point. *)
From S2P Require Import Prelude Kv Crypto UnlockRing World Toy Jobs.
Local Open Scope string_scope.
Local Open Scope Z_scope.

(** What the external parts of a job answer. *)
Record externals := mkExternals {
  ex_sync : string -> string -> result SyncError unit;       (* [run_account_sync] *)
  ex_error_chain : SyncError -> string;
  ex_send : string -> option (string -> string -> result string unit);   (* [App::send] *)
  ex_dek : string -> result string string;                   (* [get_user_dek] *)
  ex_backup : JobPayload -> string -> result BackupError unit;    (* export or import run *)
}.

Section ProcessJob.
Context `{JobLib} `{CryptoLib}.

(** How a task ends: its last write to the job row. *)
Inductive outcome :=
  | ORevert                                  (* the account is already syncing *)
  | OCompleted
  | OFailed (err : string) (detail : option string)
  | OSent (answer : result string unit)
  | OBackup (res : result BackupError unit).

Definition sync_outcome (chain : SyncError -> string) (r : result SyncError unit) : outcome :=
  match r with
  | Ok _ => OCompleted
  | Err e => OFailed (sanitize_error e) (Some (scrub_error_detail (chain e)))
  end.

Definition write_outcome (id : string) (o : outcome) : io jworld SqlxError unit :=
  match o with
  | ORevert => revert_pending id
  | OCompleted => mark_completed id
  | OFailed err detail => mark_failed id err detail
  | OSent answer => finish_send id answer
  | OBackup res => finalize_backup_job id res
  end.

Definition sync_event (account_id : string) (r : result SyncError unit) : AppEvent :=
  match r with
  | Ok _ => SyncComplete account_id
  | Err e => SyncErrored account_id (sanitize_error e)
  end.

(** A backup job up to its last write: the result and the failure report. *)
Definition run_backup (ex : externals) (job_id user_id wrapped : string) (payload : JobPayload) (w : jworld)
    : result BackupError unit * jworld :=
  match unwrap_backup_password (ex_dek ex user_id) wrapped with
  | Ok password => (ex_backup ex payload password, w)
  | Err err => (Err err, write_backup_failure_report job_id err w)
  end.

(** [process_job], run without interruption: the in-flight set and the world after. *)
Definition process_job (ex : externals) (inflight : InFlight.t) (job : ClaimedJob) (w : jworld)
    : (result SqlxError unit * jworld) * InFlight.t :=
  match c_payload job with
  | SyncAccount account_id user_id =>
      let '(began, inflight1) := InFlight.try_begin account_id inflight in
      if negb began then (write_outcome (c_id job) ORevert w, inflight1) else
      let w := emit (SyncStarted account_id) w in
      let r := ex_sync ex user_id account_id in
      let inflight2 := InFlight.finish account_id inflight1 in
      let w := emit (sync_event account_id r) w in
      (write_outcome (c_id job) (sync_outcome (ex_error_chain ex) r) w, inflight2)
  | UnsnoozeMessage message_id =>
      ((let! _ := unsnooze message_id in write_outcome (c_id job) OCompleted) w, inflight)
  | SendMessage account_id outbound =>
      (handle_send_message (ex_send ex) (c_id job) account_id outbound w, inflight)
  | ExportBackup user_id _ wrapped | ImportBackup user_id _ wrapped =>
      let '(res, w) := run_backup ex (c_id job) user_id wrapped (c_payload job) w in
      (write_outcome (c_id job) (OBackup res) w, inflight)
  end.

(** ** The pool *)

Inductive pc :=
  | PStart
  | PSyncing (account_id : string)
  | PWrite (o : outcome).
Record task := mkTask { t_id : string; t_payload : JobPayload; t_pc : pc }.

Inductive dispatcher :=
  | DIdle
  | DHolding (now : string)                              (* has a permit *)
  | DScan (rows : list JobRow)                           (* selected rows left *)
  | DCas (row : JobRow) (p : JobPayload) (rest : list JobRow).

Record pool := mkPool {
  p_world : jworld;
  p_inflight : InFlight.t;
  p_avail : nat;                                         (* free permits *)
  p_disp : dispatcher;
  p_tasks : list task;
  p_sends : list string;                                 (* job ids handed to a send plugin *)
}.
Definition p_rows (p : pool) : list JobRow := jw_rows (p_world p).
Definition with_rows (rows : list JobRow) (p : pool) : jworld := set_rows rows (p_world p).

(** [max(1)] of [spawn_workers]. *)
Definition pool_size (max_concurrent : nat) : nat := Nat.max max_concurrent 1.
Definition pool_start (max_concurrent : nat) (w : jworld) : pool :=
  mkPool w InFlight.new (pool_size max_concurrent) DIdle [] [].

(** One step of one task; [None] is the end of the task. *)
Inductive task_step (p : pool) (t : task) : option pc -> jworld -> InFlight.t -> list string -> Prop :=
  | t_begin account user :
      t_pc t = PStart -> t_payload t = SyncAccount account user ->
      fst (InFlight.try_begin account (p_inflight p)) = true ->
      task_step p t (Some (PSyncing account)) (emit (SyncStarted account) (p_world p))
        (snd (InFlight.try_begin account (p_inflight p))) (p_sends p)
  | t_busy account user :
      t_pc t = PStart -> t_payload t = SyncAccount account user ->
      fst (InFlight.try_begin account (p_inflight p)) = false ->
      task_step p t (Some (PWrite ORevert)) (p_world p)
        (snd (InFlight.try_begin account (p_inflight p))) (p_sends p)
  | t_synced account chain r :
      t_pc t = PSyncing account ->
      task_step p t (Some (PWrite (sync_outcome chain r))) (emit (sync_event account r) (p_world p))
        (InFlight.finish account (p_inflight p)) (p_sends p)
  | t_unsnoozed m w' :
      t_pc t = PStart -> t_payload t = UnsnoozeMessage m -> unsnooze m (p_world p) = (Ok tt, w') ->
      task_step p t (Some (PWrite OCompleted)) w' (p_inflight p) (p_sends p)
  | t_send_refused account outbound err :
      t_pc t = PStart -> t_payload t = SendMessage account outbound ->
      task_step p t (Some (PWrite (OFailed err None))) (p_world p) (p_inflight p) (p_sends p)
  | t_sent account outbound answer :
      t_pc t = PStart -> t_payload t = SendMessage account outbound ->
      task_step p t (Some (PWrite (OSent answer))) (p_world p) (p_inflight p) (t_id t :: p_sends p)
  | t_backup ex user wrapped :
      t_pc t = PStart ->
      (exists a, t_payload t = ExportBackup user a wrapped \/ t_payload t = ImportBackup user a wrapped) ->
      task_step p t (Some (PWrite (OBackup (fst (run_backup ex (t_id t) user wrapped (t_payload t) (p_world p))))))
        (snd (run_backup ex (t_id t) user wrapped (t_payload t) (p_world p))) (p_inflight p) (p_sends p)
  | t_write o w' :
      t_pc t = PWrite o -> write_outcome (t_id t) o (p_world p) = (Ok tt, w') ->
      task_step p t None w' (p_inflight p) (p_sends p)
  | t_fails :
      (forall account, t_pc t <> PSyncing account) ->
      task_step p t None (p_world p) (p_inflight p) (p_sends p).

Inductive pool_step (size : nat) (p : pool) : bool -> pool -> Prop :=
  | d_permit now n : p_disp p = DIdle -> p_avail p = S n ->
      pool_step size p false
        (mkPool (p_world p) (p_inflight p) n (DHolding now) (p_tasks p) (p_sends p))
  | d_select now : p_disp p = DHolding now ->
      pool_step size p false
        (mkPool (p_world p) (p_inflight p) (p_avail p) (DScan (select_due now (p_rows p)))
           (p_tasks p) (p_sends p))
  | d_skip row rest : p_disp p = DScan (row :: rest) ->
      match payload_of_json (j_payload row) with
      | Some pl => skip_row (p_inflight p) pl = true | None => True end ->
      pool_step size p false
        (mkPool (p_world p) (p_inflight p) (p_avail p) (DScan rest) (p_tasks p) (p_sends p))
  | d_try row rest pl : p_disp p = DScan (row :: rest) ->
      payload_of_json (j_payload row) = Some pl -> skip_row (p_inflight p) pl = false ->
      pool_step size p false
        (mkPool (p_world p) (p_inflight p) (p_avail p) (DCas row pl rest) (p_tasks p) (p_sends p))
  | d_claim row pl rest stamp : p_disp p = DCas row pl rest ->
      fst (cas_claim (j_id row) stamp (p_rows p)) = 1%nat ->
      pool_step size p false
        (mkPool (with_rows (snd (cas_claim (j_id row) stamp (p_rows p))) p) (p_inflight p) (p_avail p)
           DIdle (mkTask (j_id row) pl PStart :: p_tasks p) (p_sends p))
  | d_miss row pl rest stamp : p_disp p = DCas row pl rest ->
      fst (cas_claim (j_id row) stamp (p_rows p)) <> 1%nat ->
      pool_step size p false
        (mkPool (with_rows (snd (cas_claim (j_id row) stamp (p_rows p))) p) (p_inflight p) (p_avail p)
           (DScan rest) (p_tasks p) (p_sends p))
  | d_release : p_disp p <> DIdle ->                     (* nothing left, or a failed statement *)
      pool_step size p false
        (mkPool (p_world p) (p_inflight p) (S (p_avail p)) DIdle (p_tasks p) (p_sends p))
  | s_task_goes before t after c w' i' s' : p_tasks p = (before ++ t :: after)%list ->
      task_step p t (Some c) w' i' s' ->
      pool_step size p false
        (mkPool w' i' (p_avail p) (p_disp p)
           (before ++ mkTask (t_id t) (t_payload t) c :: after)%list s')
  | s_task_ends before t after w' i' s' : p_tasks p = (before ++ t :: after)%list ->
      task_step p t None w' i' s' ->
      pool_step size p false
        (mkPool w' i' (S (p_avail p)) (p_disp p) (before ++ after)%list s')
  | s_enqueue payload run_at id w' : enqueue payload run_at (p_world p) = (Ok id, w') ->
      id ∉ (j_id <$> p_rows p) ->
      pool_step size p false
        (mkPool w' (p_inflight p) (p_avail p) (p_disp p) (p_tasks p) (p_sends p))
  | s_elsewhere w' : jw_rows w' = p_rows p ->            (* clock, accounts, availability *)
      pool_step size p false
        (mkPool w' (p_inflight p) (p_avail p) (p_disp p) (p_tasks p) (p_sends p))
  | s_restart r w' : reclaim_stale_running (p_world p) = (r, w') ->
      pool_step size p true (mkPool w' InFlight.new size DIdle [] (p_sends p)).

(** A run and the number of restarts in it. *)
Inductive pool_run (size : nat) : pool -> nat -> pool -> Prop :=
  | r_nil p : pool_run size p 0 p
  | r_cons p b p1 n p2 : pool_step size p b p1 -> pool_run size p1 n p2 ->
      pool_run size p (n + Nat.b2n b) p2.

End ProcessJob.

(** ** Invariant *)

Section PoolLemmas.
Context `{JobLib} `{CryptoLib}.
Implicit Types (p : pool) (t : task).

Definition holding (d : dispatcher) : nat := match d with DIdle => 0 | _ => 1 end.
Definition syncing t : option string := match t_pc t with PSyncing a => Some a | _ => None end.
Definition running_row (rows : list JobRow) (id : string) : Prop :=
  exists r, r ∈ rows /\ j_id r = id /\ j_status r = Running.

Record pool_ok (size : nat) p : Prop := {
  ok_permits : (length (p_tasks p) + holding (p_disp p) + p_avail p)%nat = size;
  ok_rows : NoDup (j_id <$> p_rows p);
  ok_owners : NoDup (t_id <$> p_tasks p);
  ok_running : forall t, t ∈ p_tasks p -> running_row (p_rows p) (t_id t);
  ok_inflight : forall a, a ∈ p_inflight p <-> a ∈ omap syncing (p_tasks p);
  ok_syncing : NoDup (omap syncing (p_tasks p));
}.

(** The write of an outcome touches only the rows of that job. *)
Definition only_row (id : string) (rows rows' : list JobRow) : Prop :=
  exists f, (forall r, j_id (f r) = j_id r) /\ rows' = update_rows (by_id id) f rows.

Lemma write_row_only id f w r w' :
  (forall s x, j_id (f s x) = j_id x) -> write_row id f w = (r, w') ->
  (r = Ok tt /\ exists s, jw_rows w' = update_rows (by_id id) (f s) (jw_rows w)) \/ (r = Err DbDown /\ w' = w).
Proof.
  intros Hf. unfold write_row, jstmt. destruct (negb (jw_up w)); intros [= <- <-]; [by right|left].
  split; [done|]. by eexists.
Qed.

Lemma finish_send_write id answer w w' :
  finish_send id answer w = (Ok tt, w') ->
  exists f, (forall r, j_id (f r) = j_id r) /\ jw_rows w' = update_rows (by_id id) f (jw_rows w) /\
  match answer with
  | Ok _ => exists s, f = set_completed s
  | Err cat =>
      let attempts := match List.find (by_id id) (jw_rows w) with Some r => j_attempts r | None => 0 end in
      if is_transient cat && (attempts + 1 <? SMTP_TRANSIENT_MAX_ATTEMPTS)
      then exists run_at s, f = set_rescheduled cat run_at s
      else exists s, f = set_failed (send_category cat) None s
  end.
Proof.
  intros Hw. unfold finish_send in Hw. destruct answer as [u|cat].
  - apply write_row_only in Hw as [(_ & s & Hr)|[? _]]; [|done..]. exists (set_completed s). by split_and!; eauto.
  - apply bind_Ok in Hw as (attempts & w1 & Ha & Hw). unfold jstmt in Ha.
    destruct (negb (jw_up w)); [done|]. injection Ha as <- <-. cbv zeta. destruct (is_transient cat && _).
    + unfold reschedule_transient in Hw.
      apply write_row_only in Hw as [(_ & s & Hr)|[? _]]; [|done..]. eexists. split; [|split; [exact Hr|by eauto]]. done.
    + apply write_row_only in Hw as [(_ & s & Hr)|[? _]]; [|done..]. eexists. split; [|split; [exact Hr|by eauto]]. done.
Qed.

Lemma write_outcome_only id o w w' :
  write_outcome id o w = (Ok tt, w') -> only_row id (jw_rows w) (jw_rows w').
Proof.
  destruct o as [| |err detail|answer|[u|err]]; cbn; intros Hw.
  4: { apply finish_send_write in Hw as (f & Hf & -> & _). by exists f. }
  all: apply write_row_only in Hw as [(_ & s & ->)|[? _]]; [|done..]; eexists; (split; [|reflexivity]); done.
Qed.

Lemma only_row_ids id rows rows' : only_row id rows rows' -> j_id <$> rows' = j_id <$> rows.
Proof. intros (f & Hf & ->). by apply update_rows_id. Qed.

Lemma only_row_running id id' rows rows' :
  only_row id rows rows' -> id' <> id -> running_row rows id' -> running_row rows' id'.
Proof.
  intros (f & Hf & ->) Hne (r & Hr & Hid & Hs). exists r. split; [|done].
  apply update_rows_elem. exists r. split; [done|]. unfold by_id.
  rewrite (proj2 (String.eqb_neq _ _)); [done|congruence].
Qed.

Lemma cas_ids id s rows : j_id <$> (cas_claim id s rows).2 = j_id <$> rows.
Proof. by apply update_rows_id. Qed.

Lemma cas_running id id' s rows : running_row rows id' -> running_row (cas_claim id s rows).2 id'.
Proof.
  intros (r & Hr & Hid & Hs). exists r. split; [|done]. apply update_rows_elem. exists r. split; [done|].
  unfold cas_pred. rewrite Hs. by rewrite (bool_decide_false (Running = Pending)), andb_false_r.
Qed.

Lemma cas_claimed id s rows : (cas_claim id s rows).1 = 1%nat ->
  running_row (cas_claim id s rows).2 id /\ exists r, r ∈ rows /\ j_id r = id /\ j_status r = Pending.
Proof.
  cbn. intros Hn. destruct (List.filter (cas_pred id) rows) as [|r l] eqn:Hf; [done|].
  assert (Hin : In r (List.filter (cas_pred id) rows)) by (rewrite Hf; by left).
  apply List.filter_In in Hin as [Hr%list_elem_of_In Hp]. pose proof Hp as Hp'.
  apply andb_prop in Hp as [Hi%String.eqb_eq Hs%bool_decide_eq_true]. split; [|by exists r].
  exists (set_status Running s r). split; [|done]. apply update_rows_elem. exists r. by rewrite Hp'.
Qed.

Lemma not_owned rows id (tasks : list task) r :
  NoDup (j_id <$> rows) -> (forall t, t ∈ tasks -> running_row rows (t_id t)) ->
  r ∈ rows -> j_id r = id -> j_status r = Pending -> id ∉ (t_id <$> tasks).
Proof.
  intros Hnd Hrun Hr Hid Hs (t & Ht & Hin)%list_elem_of_fmap.
  destruct (Hrun t Hin) as (x & Hx & Hxid & Hxs). rewrite (same_row rows r x) in Hxs; [congruence|done..|congruence].
Qed.

(** Omitting or replacing one task. *)
Lemma NoDup_omit {A} (l1 l2 : list A) x : NoDup (l1 ++ x :: l2) -> NoDup (l1 ++ l2) /\ x ∉ (l1 ++ l2)%list.
Proof. rewrite <- Permutation_middle. by intros [? ?]%NoDup_cons. Qed.

Lemma task_ids_mid (l1 l2 : list task) t c :
  t_id <$> (l1 ++ mkTask (t_id t) (t_payload t) c :: l2)%list = t_id <$> (l1 ++ t :: l2)%list.
Proof. by rewrite !fmap_app. Qed.

Lemma sync_mid (l1 l2 : list task) t :
  omap syncing (l1 ++ t :: l2)%list ≡ₚ option_list (syncing t) ++ omap syncing (l1 ++ l2)%list.
Proof.
  rewrite !omap_app. cbn. destruct (syncing t); cbn; [|done]. by rewrite <- Permutation_middle.
Qed.

Lemma omit_others (l1 l2 : list task) t x :
  NoDup (t_id <$> (l1 ++ t :: l2)%list) -> x ∈ (l1 ++ l2)%list ->
  x ∈ (l1 ++ t :: l2)%list /\ t_id x <> t_id t.
Proof.
  rewrite fmap_app, fmap_cons. intros [_ Hnot]%NoDup_omit Hx. rewrite <- fmap_app in Hnot. split.
  - rewrite elem_of_app, elem_of_cons. apply elem_of_app in Hx. tauto.
  - intros Heq. apply Hnot. rewrite <- Heq. apply list_elem_of_fmap. eauto.
Qed.
Lemma mid_others (l1 l2 : list task) t c x :
  NoDup (t_id <$> (l1 ++ t :: l2)%list) -> x ∈ (l1 ++ mkTask (t_id t) (t_payload t) c :: l2)%list ->
  x = mkTask (t_id t) (t_payload t) c \/ (x ∈ (l1 ++ t :: l2)%list /\ t_id x <> t_id t).
Proof.
  intros Hnd Hx. assert (x = mkTask (t_id t) (t_payload t) c \/ x ∈ (l1 ++ l2)%list) as [->|Hx'].
  { rewrite elem_of_app, elem_of_cons in Hx. rewrite elem_of_app. tauto. }
  - by left.
  - right. by apply omit_others.
Qed.

(** The parts of the invariant about the in-flight set, for a task that moves. *)
Definition inflight_ok (i : InFlight.t) (l : list string) : Prop :=
  (forall a, a ∈ i <-> a ∈ l) /\ NoDup l.
Lemma inflight_perm i l l' : l ≡ₚ l' -> inflight_ok i l -> inflight_ok i l'.
Proof. intros Hp [Hi Hn]. split; [intros a; by rewrite Hi, Hp|by rewrite <- Hp]. Qed.

Lemma begin_ok a i l : fst (InFlight.try_begin a i) = true -> inflight_ok i l ->
  inflight_ok (snd (InFlight.try_begin a i)) (a :: l).
Proof.
  cbn. intros Hn%bool_decide_eq_true [Hi Hl]. split.
  - intros b. rewrite elem_of_union, elem_of_singleton, elem_of_cons, Hi. done.
  - constructor; [by rewrite <- Hi|done].
Qed.
Lemma busy_ok a i l : fst (InFlight.try_begin a i) = false -> inflight_ok i l ->
  inflight_ok (snd (InFlight.try_begin a i)) l.
Proof.
  cbn. intros Hn%bool_decide_eq_false [Hi Hl]. split; [|done]. intros b.
  rewrite elem_of_union, elem_of_singleton, Hi. split; [|by right].
  intros [->|Hb]; [|done]. rewrite <- Hi. destruct (decide (a ∈ i)); [done|by destruct Hn].
Qed.
Lemma finish_ok a i l : inflight_ok i (a :: l) -> inflight_ok (InFlight.finish a i) l.
Proof.
  intros [Hi [Ha Hl]%NoDup_cons]. split; [|done]. intros b. unfold InFlight.finish.
  rewrite elem_of_difference, elem_of_singleton, Hi, elem_of_cons. split; [naive_solver|].
  intros Hb. split; [by right|]. by intros ->.
Qed.

(** A task step keeps the in-flight set in accord with the tasks. *)
Lemma task_step_inflight p t c w' i' s' l :
  task_step p t c w' i' s' -> inflight_ok (p_inflight p) (option_list (syncing t) ++ l)%list ->
  inflight_ok i' (option_list (c ≫= fun c => syncing (mkTask (t_id t) (t_payload t) c)) ++ l)%list.
Proof.
  intros Hs. destruct Hs as [a u Hpc Hpl Hb|a u Hpc Hpl Hb|a chain r Hpc|m w' Hpc Hpl Hu|a o err Hpc Hpl|a o ans Hpc Hpl
    |ex us wr Hpc Hbk|o w' Hpc Hw|Hpc]; unfold syncing; try rewrite Hpc; cbn.
  - by apply begin_ok.
  - by apply busy_ok.
  - apply finish_ok.
  - done.
  - done.
  - done.
  - done.
  - done.
  - destruct (t_pc t) as [|a|o]; [done|by destruct (Hpc a)|done].
Qed.

Lemma task_step_rows p t c w' i' s' :
  task_step p t c w' i' s' -> only_row (t_id t) (p_rows p) (jw_rows w') /\ (c <> None -> jw_rows w' = p_rows p).
Proof.
  assert (Hsame : only_row (t_id t) (p_rows p) (p_rows p)).
  { exists id. split; [done|]. unfold update_rows. symmetry. erewrite map_ext; [apply map_id|].
    intros r. by destruct (by_id _ r). }
  intros Hs. destruct Hs as [| | |m w' Hpc Hpl Hu| | |ex us wr Hpc Hbk|o w' Hpc Hw|Hpc]; try (split; [done|done]).
  - unfold unsnooze, jstmt in Hu. destruct (negb _); [done|]. by injection Hu as <-.
  - unfold run_backup. by destruct (unwrap_backup_password _ _).
  - split; [by eapply write_outcome_only|done].
Qed.

Lemma pool_step_ok size p b p' : pool_step size p b p' -> pool_ok size p -> pool_ok size p'.
Proof.
  intros Hs [Hperm Hrows Hown Hrun Hinf Hsync].
  destruct Hs as [now n Hd Ha|now Hd|row rest Hd Hsk|row rest pl Hd Hpl Hsk|row pl rest stamp Hd Hc
    |row pl rest stamp Hd Hc|Hd|l1 t l2 c w' i' s' Ht Hst|l1 t l2 w' i' s' Ht Hst|pl ra id w' He Hid|w' Hw|r w' Hr].
  - split; try done; cbn. rewrite Hd, Ha in Hperm. cbn in Hperm. lia.
  - split; try done; cbn. by rewrite Hd in Hperm.
  - split; try done; cbn. by rewrite Hd in Hperm.
  - split; try done; cbn. by rewrite Hd in Hperm.
  - destruct (cas_claimed _ _ _ Hc) as (Hnew & r & Hr & Hrid & Hrs).
    pose proof (not_owned _ _ _ _ Hrows Hrun Hr Hrid Hrs) as Hno.
    split; unfold p_rows; cbn [p_tasks p_disp p_avail p_world p_inflight with_rows set_rows jw_rows].
    + rewrite Hd in Hperm. cbn in *. lia.
    + by rewrite cas_ids.
    + cbn. by constructor.
    + intros t [->|Ht]%elem_of_cons; [done|]. by apply cas_running, Hrun.
    + intros a. cbn. apply Hinf.
    + cbn. done.
  - split; unfold p_rows; cbn [p_tasks p_disp p_avail p_world p_inflight with_rows set_rows jw_rows]; try done.
    + by rewrite Hd in Hperm.
    + by rewrite cas_ids.
    + intros t Ht. by apply cas_running, Hrun.
  - split; try done; cbn. destruct (p_disp p); [done|..]; cbn in *; lia.
  - destruct (task_step_rows _ _ _ _ _ _ Hst) as [_ Hsame]. specialize (Hsame ltac:(done)).
    assert (Hio : inflight_ok (p_inflight p) (omap syncing (p_tasks p))) by done.
    rewrite Ht in *. apply (inflight_perm _ _ _ (sync_mid l1 l2 t)) in Hio.
    apply (task_step_inflight _ _ _ _ _ _ _ Hst) in Hio.
    apply (inflight_perm _ _ _ (symmetry (sync_mid l1 l2 (mkTask (t_id t) (t_payload t) c)))) in Hio as [Hi Hn].
    split; unfold p_rows; cbn [p_tasks p_disp p_avail p_world p_inflight]; rewrite ?Hsame; try done.
    + rewrite length_app in *. cbn in *. done.
    + by rewrite task_ids_mid.
    + intros x Hx. apply elem_of_app in Hx as [Hx|[->|Hx]%elem_of_cons].
      * apply Hrun. apply elem_of_app. by left.
      * apply (Hrun t). apply elem_of_app. right. by left.
      * apply Hrun. apply elem_of_app. right. by right.
  - destruct (task_step_rows _ _ _ _ _ _ Hst) as [Honly _].
    assert (Hio : inflight_ok (p_inflight p) (omap syncing (p_tasks p))) by done.
    rewrite Ht in *. apply (inflight_perm _ _ _ (sync_mid l1 l2 t)) in Hio.
    apply (task_step_inflight _ _ _ _ _ _ _ Hst) in Hio as [Hi Hn].
    rewrite fmap_app, fmap_cons in Hown. apply NoDup_omit in Hown as [Hown Hnot].
    rewrite <- fmap_app in Hown, Hnot.
    split; unfold p_rows; cbn [p_tasks p_disp p_avail p_world p_inflight]; try done.
    + rewrite length_app in *. cbn in *. lia.
    + by rewrite (only_row_ids _ _ _ Honly).
    + intros x Hx. eapply only_row_running; [done| |].
      * intros Heq. apply Hnot. rewrite <- Heq. apply list_elem_of_fmap. eauto.
      * apply Hrun. apply elem_of_app. apply elem_of_app in Hx as [Hx|Hx]; [by left|right; by right].
  - unfold enqueue in He. destruct (payload_to_json pl) as [json|]; [|done]. unfold jstmt in He.
    destruct (negb _); [done|]. injection He as <- <-.
    split; unfold p_rows in *; cbn in *; try done.
    + rewrite fmap_app. cbn. apply NoDup_app. split; [done|]. split; [|by constructor; [apply not_elem_of_nil|constructor]].
      intros x Hx ->%list_elem_of_singleton. done.
    + intros t Ht. destruct (Hrun t Ht) as (r & Hr & Hrid & Hrs). exists r. split; [|done].
      apply elem_of_app. by left.
  - split; unfold p_rows in *; cbn in *; rewrite ?Hw; done.
  - assert (Hids : j_id <$> jw_rows w' = j_id <$> p_rows p).
    { unfold reclaim_stale_running, jstmt in Hr. destruct (negb _); injection Hr as _ <-; [done|].
      by apply update_rows_id. }
    split; unfold p_rows; cbn [p_tasks p_disp p_avail p_world p_inflight]; cbn.
    + lia.
    + by rewrite Hids.
    + constructor.
    + by intros t ?%not_elem_of_nil.
    + intros a. split; [by intros ?%not_elem_of_empty|by intros ?%not_elem_of_nil].
    + constructor.
Qed.

Lemma pool_run_ok size p n p' : pool_run size p n p' -> pool_ok size p -> pool_ok size p'.
Proof. induction 1; [done|]. eauto using pool_step_ok. Qed.

Lemma pool_start_ok m w : NoDup (j_id <$> jw_rows w) -> pool_ok (pool_size m) (pool_start m w).
Proof.
  intros Hnd. split; cbn -[pool_size]; try done.
  - constructor.
  - by intros t ?%not_elem_of_nil.
  - intros a. split; [by intros ?%not_elem_of_empty|by intros ?%not_elem_of_nil].
  - constructor.
Qed.

(** C8: the pool is safe under every interleaving, statement failure and restart.  At
    any moment at most [max(1, max_concurrent)] jobs are being processed, no two
    tasks hold the same job, every task's row is [running] in the table, and at most one sync
    of any account is in flight. *)
Theorem pool_safe (m : nat) (w : jworld) (restarts : nat) (p : pool) :
  NoDup (j_id <$> jw_rows w) -> pool_run (pool_size m) (pool_start m w) restarts p ->
  (length (p_tasks p) <= Nat.max m 1)%nat /\ NoDup (t_id <$> p_tasks p) /\
  (forall t, t ∈ p_tasks p -> running_row (p_rows p) (t_id t)) /\
  NoDup (omap syncing (p_tasks p)).
Proof.
  intros Hnd Hr. apply pool_run_ok in Hr as [Hp _ Ho Hrun _ Hs]; [|by apply pool_start_ok].
  split; [unfold pool_size in Hp; lia|done].
Qed.

(** ** Finished jobs *)

Definition terminal (r : JobRow) : Prop := j_status r = Completed \/ j_status r = Failed.

Lemma update_keeps (q : JobRow -> bool) f rows r : r ∈ rows -> q r = false -> r ∈ update_rows q f rows.
Proof. intros Hr Hq. apply update_rows_elem. exists r. by rewrite Hq. Qed.

Lemma terminal_step size p b p' r :
  pool_step size p b p' -> pool_ok size p -> terminal r -> r ∈ p_rows p -> r ∈ p_rows p'.
Proof.
  intros Hs [_ Hrows _ Hrun _ _] Ht Hr.
  assert (Hcas : forall id s, r ∈ (cas_claim id s (p_rows p)).2).
  { intros id s. apply update_keeps; [done|]. unfold cas_pred.
    rewrite bool_decide_false; [apply andb_false_r|]. by destruct Ht as [->| ->]. }
  destruct Hs as [now n Hd Ha|now Hd|row rest Hd Hsk|row rest pl Hd Hpl Hsk|row pl rest stamp Hd Hc
    |row pl rest stamp Hd Hc|Hd|l1 t l2 c w' i' s' Htk Hst|l1 t l2 w' i' s' Htk Hst|pl ra id w' He Hid|w' Hw|x w' Hx];
    unfold p_rows in *; cbn in *; try done; try apply Hcas.
  - destruct (task_step_rows _ _ _ _ _ _ Hst) as [_ Hsame]. unfold p_rows in Hsame. by rewrite Hsame.
  - destruct (task_step_rows _ _ _ _ _ _ Hst) as [(f & Hf & Hrow) _]. unfold p_rows in Hrow. rewrite Hrow.
    apply update_keeps; [done|]. unfold by_id. apply String.eqb_neq. intros Heq.
    destruct (Hrun t) as (y & Hy & Hyid & Hys); [rewrite Htk; apply elem_of_app; right; by left|].
    assert (y = r) as -> by (eapply same_row; [done..|congruence]). destruct Ht; congruence.
  - unfold enqueue in He. destruct (payload_to_json pl) as [json|]; [|done]. unfold jstmt in He.
    destruct (negb _); [done|]. injection He as <- <-. cbn. apply elem_of_app. by left.
  - by rewrite Hw.
  - unfold reclaim_stale_running, jstmt in Hx. destruct (negb _); injection Hx as _ <-; [done|].
    apply update_keeps; [done|]. apply bool_decide_eq_false. by destruct Ht as [->| ->].
Qed.

(** A finished job is finished for good.  A row that is [completed] or [failed]
    stays in the table exactly as it is, whatever the pool, other writers of the queue
    and restarts do afterwards. *)
Theorem finished_jobs_stay (size : nat) (p p' : pool) (restarts : nat) (r : JobRow) :
  pool_ok size p -> pool_run size p restarts p' -> r ∈ p_rows p ->
  j_status r = Completed \/ j_status r = Failed -> r ∈ p_rows p'.
Proof.
  intros Hok Hr Hin Ht. induction Hr as [p|p b p1 n p2 Hs Hr IH]; [done|].
  apply IH; [by eapply pool_step_ok|]. by eapply terminal_step.
Qed.

(** ** How often a mail is handed to a send plugin *)

Definition sends_of (id : string) (sends : list string) : Z :=
  Z.of_nat (length (List.filter (String.eqb id) sends)).
Definition slack (s : Status) : Z :=
  match s with Pending | Failed => 0 | Running | Completed => 1 end.
Definition mid_send t : Prop := exists a, t_pc t = PWrite (OSent a).

Record row_bound (k : Z) (tasks : list task) (sends : list string) (r : JobRow) : Prop := {
  rb_total : sends_of (j_id r) sends <= j_attempts r + slack (j_status r) + k;
  rb_open : j_status r <> Failed -> 0 <= j_attempts r < SMTP_TRANSIENT_MAX_ATTEMPTS;
  rb_failed : j_status r = Failed -> 0 <= j_attempts r <= SMTP_TRANSIENT_MAX_ATTEMPTS;
  rb_owner : forall t, t ∈ tasks -> t_id t = j_id r -> ~ mid_send t ->
    sends_of (j_id r) sends <= j_attempts r + k;
}.
Definition sends_ok (k : Z) p : Prop :=
  (forall r, r ∈ p_rows p -> row_bound k (p_tasks p) (p_sends p) r) /\
  (forall id, id ∉ (j_id <$> p_rows p) -> sends_of id (p_sends p) = 0).

Lemma row_bound_fewer k tasks tasks' sends r :
  (forall t, t ∈ tasks' -> t ∈ tasks) -> row_bound k tasks sends r -> row_bound k tasks' sends r.
Proof. intros Hsub [H1 H2 H3 H4]. split; eauto. Qed.

Lemma sends_of_cons id x sends :
  sends_of id (x :: sends) = sends_of id sends + (if String.eqb id x then 1 else 0).
Proof. unfold sends_of. cbn. destruct (String.eqb id x); cbn; lia. Qed.

Lemma sends_of_nonneg id sends : 0 <= sends_of id sends.
Proof. unfold sends_of. lia. Qed.

(** A claimed row and its new task. *)
Lemma row_bound_claim k tasks sends rows id pl s r :
  NoDup (j_id <$> rows) -> (cas_claim id s rows).1 = 1%nat ->
  (forall x, x ∈ rows -> row_bound k tasks sends x) ->
  r ∈ (cas_claim id s rows).2 -> row_bound k (mkTask id pl PStart :: tasks) sends r.
Proof.
  intros Hnd Hc Hb (x & Hx & ->)%update_rows_elem.
  destruct (cas_claimed _ _ _ Hc) as (_ & y & Hy & Hyid & Hys). destruct (Hb x Hx) as [B1 B2 B3 B4].
  unfold cas_pred, by_id. destruct (String.eqb_spec (j_id x) id) as [Hid|Hid]; cbn [andb].
  - assert (x = y) as -> by (eapply same_row; [done..|congruence]).
    rewrite bool_decide_true by done. rewrite Hys in *. cbn in *.
    split; cbn; [lia|intros _; by apply B2|done|]. intros t _ _ _. lia.
  - split; [done..|]. intros t [->|Ht]%elem_of_cons Hti Hm; [done|]. by apply (B4 t).
Qed.

Lemma find_by_id rows r : NoDup (j_id <$> rows) -> r ∈ rows -> List.find (by_id (j_id r)) rows = Some r.
Proof.
  intros Hnd Hr. destruct (List.find (by_id (j_id r)) rows) as [x|] eqn:Hf.
  - apply List.find_some in Hf as [Hx%list_elem_of_In Hid%String.eqb_eq]. f_equal. by eapply same_row.
  - apply list_elem_of_In in Hr. pose proof (List.find_none _ _ Hf r Hr) as Hn. unfold by_id in Hn.
    by rewrite String.eqb_refl in Hn.
Qed.

(** What an outcome leaves of its own row. *)
Lemma write_outcome_row id o w w' r k tasks sends :
  NoDup (j_id <$> jw_rows w) -> r ∈ jw_rows w -> j_id r = id -> j_status r = Running ->
  write_outcome id o w = (Ok tt, w') ->
  sends_of id sends <= j_attempts r + 1 + k ->
  ((forall a, o <> OSent a) -> sends_of id sends <= j_attempts r + k) ->
  0 <= j_attempts r < SMTP_TRANSIENT_MAX_ATTEMPTS -> 0 <= k ->
  (forall t, t ∈ tasks -> t_id t <> id) ->
  exists f, jw_rows w' = update_rows (by_id id) f (jw_rows w) /\ (forall x, j_id (f x) = j_id x) /\
    row_bound k tasks sends (f r).
Proof.
  intros Hnd Hr Hid Hs Hw Hn Hno Ha Hk Ht.
  assert (Hfree : forall x, j_id x = id -> forall t, t ∈ tasks -> t_id t = j_id x -> ~ mid_send t ->
            sends_of (j_id x) sends <= j_attempts x + k).
  { intros x Hx t Htin Hti. destruct (Ht t Htin). congruence. }
  destruct o as [| |err detail|answer|res]; cbn in Hw; subst id.
  - apply write_row_only in Hw as [(_ & s & ->)|[? _]]; [|done..]. eexists. split; [done|]. split; [done|].
    specialize (Hno ltac:(done)). split; cbn; [lia|done|done|by apply Hfree].
  - apply write_row_only in Hw as [(_ & s & ->)|[? _]]; [|done..]. eexists. split; [done|]. split; [done|].
    split; cbn; [lia|done|done|by apply (Hfree (set_completed s r))].
  - apply write_row_only in Hw as [(_ & s & ->)|[? _]]; [|done..]. eexists. split; [done|]. split; [done|].
    specialize (Hno ltac:(done)).
    split; cbn; [lia|done|unfold SMTP_TRANSIENT_MAX_ATTEMPTS in *; lia|by apply (Hfree (set_failed err detail s r))].
  - apply finish_send_write in Hw as (f & Hf & -> & Hcase). exists f. split; [done|]. split; [done|].
    destruct answer as [u|cat].
    + destruct Hcase as (s & ->). split; cbn; [lia|done|done|by apply (Hfree (set_completed s r))].
    + rewrite (find_by_id _ _ Hnd Hr) in Hcase. cbv zeta in Hcase.
      destruct (is_transient cat && _) eqn:Hc.
      * apply andb_prop in Hc as [_ Hlt%Z.ltb_lt]. destruct Hcase as (ra & s & ->).
        split; cbn; [lia|intros _; lia|done|by apply (Hfree (set_rescheduled cat ra s r))].
      * destruct Hcase as (s & ->). split; cbn; [lia|done|unfold SMTP_TRANSIENT_MAX_ATTEMPTS in *; lia|].
        by apply (Hfree (set_failed (send_category cat) None s r)).
  - assert (exists f, jw_rows w' = update_rows (by_id (j_id r)) f (jw_rows w) /\ (forall x, j_id (f x) = j_id x) /\
      ((exists s, f = set_completed s) \/ exists e d s, f = set_failed e d s)) as (f & -> & Hf & Hcase).
    { destruct res; apply write_row_only in Hw as [(_ & s & ->)|[? _]]; try done; eexists; split_and!; eauto 6. }
    exists f. split; [done|]. split; [done|]. specialize (Hno ltac:(done)).
    destruct Hcase as [(s & ->)|(e & d & s & ->)].
    + split; cbn; [lia|done|done|by apply (Hfree (set_completed s r))].
    + split; cbn; [lia|done|unfold SMTP_TRANSIENT_MAX_ATTEMPTS in *; lia|by apply (Hfree (set_failed e d s r))].
Qed.

Lemma task_goes_sends p t c w' i' s' :
  task_step p t (Some c) w' i' s' -> ~ mid_send t /\
  ((s' = p_sends p /\ ~ mid_send (mkTask (t_id t) (t_payload t) c)) \/
   (s' = t_id t :: p_sends p /\ mid_send (mkTask (t_id t) (t_payload t) c))).
Proof.
  intros Hs. remember (Some c) as oc eqn:Hoc.
  destruct Hs as [a u Hpc Hpl Hb|a u Hpc Hpl Hb|a chain r Hpc|m w' Hpc Hpl Hu|a o err Hpc Hpl|a o ans Hpc Hpl
    |ex us wr Hpc Hbk|o w' Hpc Hw|Hpc]; simplify_eq; (split; [intros [x Hx]; congruence|]);
    try (left; split; [done|by intros [x Hx]]).
  - left. split; [done|]. intros [x Hx]. by destruct r.
  - right. split; [done|]. by exists ans.
Qed.

Lemma sends_step size p b p' k :
  pool_step size p b p' -> pool_ok size p -> 0 <= k -> sends_ok k p ->
  sends_ok (k + Z.b2z b) p'.
Proof.
  intros Hs [Hperm Hrows Hown Hrun _ _] Hk [Hb Hout].
  destruct Hs as [now n Hd Ha|now Hd|row rest Hd Hsk|row rest pl Hd Hpl Hsk|row pl rest stamp Hd Hc
    |row pl rest stamp Hd Hc|Hd|l1 t l2 c w' i' s' Htk Hst|l1 t l2 w' i' s' Htk Hst|pl ra id w' He Hid|w' Hw|x w' Hx];
    cbn [Z.b2z]; rewrite ?Z.add_0_r; unfold sends_ok, p_rows in *;
    cbn [p_tasks p_world p_sends with_rows set_rows jw_rows]; try done.
  - split; [|by rewrite cas_ids]. intros r Hr. by eapply row_bound_claim.
  - split; [|by rewrite cas_ids]. intros r (x & Hx & ->)%update_rows_elem.
    destruct (cas_pred (j_id row) x) eqn:Hp; [|by apply Hb].
    exfalso. apply Hc. unfold cas_claim. cbn. pose proof Hp as Hp'.
    apply andb_prop in Hp as [Hxid%String.eqb_eq _]. rewrite (filter_one _ (jw_rows (p_world p)) x); try done.
    intros y [Hy%String.eqb_eq _]%andb_prop. congruence.
  - destruct (task_step_rows _ _ _ _ _ _ Hst) as [_ Hsame]. unfold p_rows in Hsame.
    rewrite (Hsame ltac:(done)). apply task_goes_sends in Hst.
    assert (Hin : t ∈ p_tasks p) by (rewrite Htk; apply elem_of_app; right; by left).
    assert (Hothers : forall x, x ∈ (l1 ++ mkTask (t_id t) (t_payload t) c :: l2)%list ->
              x = mkTask (t_id t) (t_payload t) c \/ (x ∈ p_tasks p /\ t_id x <> t_id t)).
    { rewrite Htk in Hown |- *. intros x. by apply mid_others. }
    destruct Hst as [Hmid Hst]. split.
    + intros r Hr. destruct (Hb r Hr) as [B1 B2 B3 B4]. destruct Hst as [[-> Hmid']|[-> Hmid']].
      * split; try done. intros y Hy Hyid Hnm. destruct (Hothers y Hy) as [->|[Hyp _]]; [|by apply (B4 y)].
        by apply (B4 t).
      * destruct (String.eqb_spec (j_id r) (t_id t)) as [Heq|Hne].
        -- specialize (B4 t Hin (eq_sym Heq) Hmid). destruct (Hrun t Hin) as (y & Hy & Hyid & Hys).
           assert (y = r) as -> by (eapply same_row; [done..|congruence]). rewrite Hys in *. cbn in *.
           split; rewrite ?sends_of_cons, ?Heq, ?String.eqb_refl, ?Hys in *; cbn; [lia|done|done|].
           intros z Hz Hzid Hnm. destruct (Hothers z Hz) as [->|[_ Hz']]; [done|congruence].
        -- split; rewrite ?sends_of_cons, ?(proj2 (String.eqb_neq _ _) Hne), ?Z.add_0_r; try done.
           intros z Hz Hzid Hnm. destruct (Hothers z Hz) as [->|[Hz' _]]; [by cbn in Hzid|by apply (B4 z)].
    + intros id Hid. destruct Hst as [[-> _]|[-> _]]; [by apply Hout|].
      rewrite sends_of_cons, Hout by done. destruct (String.eqb_spec id (t_id t)) as [->|]; [|done].
      destruct (Hrun t Hin) as (y & Hy & Hyid & _). exfalso. apply Hid. rewrite <- Hyid.
      apply list_elem_of_fmap. eauto.
  - assert (Hsub : forall x, x ∈ (l1 ++ l2)%list -> x ∈ p_tasks p /\ t_id x <> t_id t).
    { rewrite Htk in Hown |- *. intros x. by apply omit_others. }
    assert (Hin : t ∈ p_tasks p) by (rewrite Htk; apply elem_of_app; right; by left).
    remember None as oc eqn:Hoc.
    destruct Hst as [| | | | | | |o w' Hpc Hw|Hpc]; try done.
    2: { split; [|done]. intros r Hr. eapply row_bound_fewer; [|by apply Hb]. intros x Hx. by apply Hsub. }
    destruct (Hrun t Hin) as (r & Hr & Hrid & Hrs). destruct (Hb r Hr) as [B1 B2 B3 B4].
    rewrite Hrs in *. cbn in B1.
    destruct (write_outcome_row (t_id t) o (p_world p) w' r k (l1 ++ l2) (p_sends p))
      as (f & Hf & Hfid & Hfb); try done.
    { rewrite <- Hrid. lia. }
    { intros Hno. rewrite <- Hrid. apply (B4 t); [done|done|]. intros [a Ha]. rewrite Ha in Hpc.
      injection Hpc as <-. by apply (Hno a). }
    { by apply B2. }
    { intros x Hx. by apply Hsub. }
    rewrite Hf. split; [|by rewrite update_rows_id].
    intros x (y & Hy & ->)%update_rows_elem. unfold by_id.
    destruct (String.eqb_spec (j_id y) (t_id t)) as [Heq|Hne].
    + assert (y = r) as -> by (eapply same_row; [done..|congruence]). done.
    + eapply row_bound_fewer; [|by apply Hb]. intros z Hz. by apply Hsub.
  - unfold enqueue in He. destruct (payload_to_json pl) as [json|]; [|done]. unfold jstmt in He.
    destruct (negb _); [done|]. injection He as <- <-. cbn. split.
    + intros r [Hr|Hr%list_elem_of_singleton]%elem_of_app; [by apply Hb|subst r].
      unfold SMTP_TRANSIENT_MAX_ATTEMPTS. split; cbn; [rewrite Hout by done; lia|intros _; by split|done|].
      intros t Ht Hti. destruct (Hrun t Ht) as (y & Hy & Hyid & _). exfalso. apply Hid.
      rewrite <- Hti, <- Hyid. apply list_elem_of_fmap. eauto.
    + intros x Hx. apply Hout. rewrite fmap_app in Hx. intros Hin. apply Hx. apply elem_of_app. by left.
  - rewrite Hw. done.
  - assert (Hempty : forall r, row_bound k (p_tasks p) (p_sends p) r -> row_bound (k + 1) [] (p_sends p) r).
    { intros r [B1 B2 B3 B4]. split; [lia|done|done|by intros t ?%not_elem_of_nil]. }
    unfold reclaim_stale_running, jstmt in Hx.
    destruct (negb _); injection Hx as _ <-; cbn; [split; [auto|done]|].
    unfold reclaim_rows. split; [|by rewrite update_rows_id].
    intros r (y & Hy & ->)%update_rows_elem. case_bool_decide as Hys; [|by apply Hempty, Hb].
    destruct (Hb y Hy) as [B1 B2 B3 B4]. rewrite Hys in *. cbn in B1.
    split; cbn; [lia|intros _; by apply B2|done|by intros t ?%not_elem_of_nil].
Qed.

(** A mail is handed to its send plugin a bounded number of times.  Starting from
    fresh jobs, however the pool runs, a job's mail is given to a send plugin at most
    three times plus once per restart of the process, transient failures included. *)
Theorem sends_bounded (m : nat) (w : jworld) (restarts : nat) (p : pool) (id : string) :
  NoDup (j_id <$> jw_rows w) -> (forall r, r ∈ jw_rows w -> j_status r = Pending /\ j_attempts r = 0) ->
  pool_run (pool_size m) (pool_start m w) restarts p ->
  sends_of id (p_sends p) <= 3 + Z.of_nat restarts.
Proof.
  intros Hnd Hfresh Hr.
  assert (Hgen : forall size p0 n p1, pool_run size p0 n p1 -> forall k, 0 <= k -> pool_ok size p0 ->
            sends_ok k p0 -> sends_ok (k + Z.of_nat n) p1).
  { induction 1 as [q|q b q1 n q2 Hs _ IH]; intros k Hk Hok Hso; [by rewrite Z.add_0_r|].
    replace (k + Z.of_nat (n + Nat.b2n b)) with ((k + Z.b2z b) + Z.of_nat n) by (destruct b; cbn; lia).
    apply IH; [destruct b; cbn; lia|by eapply pool_step_ok|by eapply sends_step]. }
  destruct (Hgen _ _ _ _ Hr 0) as [Hb Hout]; [done|by apply pool_start_ok| |].
  { split; [|done]. intros r Hin. destruct (Hfresh r Hin) as [Hs Ha].
    split; cbn; rewrite ?Hs, ?Ha; cbn; done. }
  destruct (decide (id ∈ (j_id <$> p_rows p))) as [(r & -> & Hin)%list_elem_of_fmap|Hni];
    [|rewrite Hout by done; lia].
  destruct (Hb r Hin) as [B1 B2 B3 _]. unfold SMTP_TRANSIENT_MAX_ATTEMPTS in *.
  destruct (j_status r) eqn:Hs; cbn in B1; try (specialize (B2 ltac:(done)); lia).
  specialize (B3 eq_refl). lia.
Qed.

(** ** The sequential program is one schedule of the pool *)

Lemma write_row_err id f w e w' : write_row id f w = (Err e, w') -> w' = w.
Proof. unfold write_row, jstmt. destruct (negb (jw_up w)); by intros [= _ <-]. Qed.

Lemma write_outcome_err id o w e w' : write_outcome id o w = (Err e, w') -> w' = w.
Proof.
  destruct o as [| |err detail|[u|cat]|[u|err]]; cbn; try (apply write_row_err).
  intros [(x & Ha & _)|(n & w1 & Ha & Hw)]%bind_inv; unfold jstmt in Ha;
    destruct (negb (jw_up w)); try done; injection Ha as _ <-; [done|].
  by destruct (is_transient cat && _); apply write_row_err in Hw.
Qed.

(** The end of a task whose last write is known. *)
Lemma run_write size p l1 t l2 o r w' :
  p_tasks p = (l1 ++ t :: l2)%list -> t_pc t = PWrite o -> write_outcome (t_id t) o (p_world p) = (r, w') ->
  pool_run size p 0 (mkPool w' (p_inflight p) (S (p_avail p)) (p_disp p) (l1 ++ l2) (p_sends p)).
Proof.
  intros Ht Hpc Hw. refine (r_cons _ _ false _ 0 _ _ (r_nil _ _)).
  eapply s_task_ends; [exact Ht|]. destruct r as [[]|e].
  - by eapply t_write.
  - apply write_outcome_err in Hw as ->. apply t_fails. congruence.
Qed.

Lemma run_goes size p l1 t l2 c w' i' s' p2 :
  p_tasks p = (l1 ++ t :: l2)%list -> task_step p t (Some c) w' i' s' ->
  pool_run size (mkPool w' i' (p_avail p) (p_disp p) (l1 ++ mkTask (t_id t) (t_payload t) c :: l2) s') 0 p2 ->
  pool_run size p 0 p2.
Proof. intros Ht Hs Hr. refine (r_cons _ _ false _ 0 _ _ Hr). by eapply s_task_goes. Qed.

Lemma run_fails size p l1 t l2 :
  p_tasks p = (l1 ++ t :: l2)%list -> t_pc t = PStart ->
  pool_run size p 0 (mkPool (p_world p) (p_inflight p) (S (p_avail p)) (p_disp p) (l1 ++ l2) (p_sends p)).
Proof.
  intros Ht Hpc. refine (r_cons _ _ false _ 0 _ _ (r_nil _ _)). eapply s_task_ends; [exact Ht|].
  apply t_fails. congruence.
Qed.

Lemma send_plan_world send a ob w r w' : send_plan send a ob w = (r, w') -> w' = w.
Proof.
  unfold send_plan. destruct (ob_text ob) as [raw|]; [|by intros [= _ <-]].
  intros [(e & Hp & _)|(o & w1 & Hp & Hs)]%bind_inv; unfold jstmt in Hp; destruct (negb (jw_up w)); try done;
    injection Hp as _ <-; [done|].
  destruct o as [pr|]; [|by injection Hs as _ <-]. destruct (is_empty pr); [by injection Hs as _ <-|].
  destruct (send pr); by injection Hs as _ <-.
Qed.

(** The pool's steps are the program's.  Whatever the external parts answer,
    [process_job] run without interruption on a claimed job leaves the table and the
    in-flight set in a state the pool reaches by steps of that task alone, which end
    with the task gone and its permit free. *)
Theorem process_job_is_a_run (size : nat) (ex : externals) (p : pool) (l1 l2 : list task) (t : task)
    (r : result SqlxError unit) (w' : jworld) (i' : InFlight.t) :
  p_tasks p = (l1 ++ t :: l2)%list -> t_pc t = PStart ->
  process_job ex (p_inflight p) (mkClaimed (t_id t) Running (t_payload t)) (p_world p) = ((r, w'), i') ->
  exists sends, pool_run size p 0 (mkPool w' i' (S (p_avail p)) (p_disp p) (l1 ++ l2) sends).
Proof.
  intros Ht Hpc Hp. unfold process_job in Hp. cbn [c_payload c_id] in Hp.
  destruct (t_payload t) as [a u|m|a ob|u a pw|u a pw] eqn:Hpl; try rewrite <- Hpl in Hp.
  - destruct (InFlight.try_begin a (p_inflight p)) as [[] i1] eqn:Hb; cbn [negb] in Hp; injection Hp as Hw <-.
    + eexists. eapply run_goes; [exact Ht|eapply t_begin; [done..|by rewrite Hb]|]. rewrite Hb. cbn [snd].
      eapply run_goes; [done|by eapply (t_synced _ _ a (ex_error_chain ex) (ex_sync ex u a))|].
      by eapply (run_write size (mkPool _ _ _ _ _ _)).
    + eexists. eapply run_goes; [exact Ht|eapply t_busy; [done..|by rewrite Hb]|]. rewrite Hb. cbn [snd].
      by eapply (run_write size (mkPool _ _ _ _ _ _)).
  - injection Hp as Hw <-. apply bind_inv in Hw as [(e & Hs & ->)|([] & w1 & Hs & Hw)].
    + unfold unsnooze, jstmt in Hs. destruct (negb (jw_up (p_world p))); [|done].
      injection Hs as _ <-. eexists. by eapply run_fails.
    + eexists. eapply run_goes; [exact Ht|by eapply t_unsnoozed|].
      by eapply (run_write size (mkPool _ _ _ _ _ _)).
  - injection Hp as Hw <-. unfold handle_send_message in Hw.
    apply bind_inv in Hw as [(e & Hs & ->)|(plan & w1 & Hs & Hw)].
    + apply send_plan_world in Hs as ->. eexists. by eapply run_fails.
    + apply send_plan_world in Hs as ->. destruct plan as [err|[plugin raw]].
      * eexists. eapply run_goes; [exact Ht|by eapply (t_send_refused _ _ a ob err)|].
        by eapply (run_write size (mkPool _ _ _ _ _ _)).
      * eexists. eapply run_goes; [exact Ht|by eapply (t_sent _ _ a ob (plugin a raw))|].
        by eapply (run_write size (mkPool _ _ _ _ _ _)).
  - destruct (run_backup ex (t_id t) u pw (t_payload t) (p_world p)) as [res w1] eqn:Hb.
    injection Hp as Hw <-. eexists.
    eapply run_goes; [exact Ht|apply (t_backup _ _ ex u pw); [done|by exists a; rewrite Hpl; auto]|].
    rewrite Hb. by eapply (run_write size (mkPool _ _ _ _ _ _)).
  - destruct (run_backup ex (t_id t) u pw (t_payload t) (p_world p)) as [res w1] eqn:Hb.
    injection Hp as Hw <-. eexists.
    eapply run_goes; [exact Ht|apply (t_backup _ _ ex u pw); [done|by exists a; rewrite Hpl; auto]|].
    rewrite Hb. by eapply (run_write size (mkPool _ _ _ _ _ _)).
Qed.

End PoolLemmas.

(** ** What a failed sync leaves in the table *)

Definition safe_categories : list string :=
  ["auth error"; "IMAP timeout"; "IMAP error"; "JMAP error"; "SMTP transient"; "SMTP permanent";
   "SMTP error"; "database error"; "protocol error"; "credential error"; "sync failed"].

(** What a failed sync stores cannot leak or grow.  Whatever error a sync ends
    with and whatever its cause chain says, the job row gets one of eleven fixed
    categories, never text of the error, and a detail of at most 2048 characters of
    scrubbed text and an ellipsis. *)
Theorem failed_sync_is_sanitized `{JobLib} (chain : SyncError -> string) (err : SyncError) :
  exists category detail, sync_outcome chain (Err err) = OFailed category (Some detail) /\
    In category safe_categories /\ (char_count detail <= 2049)%nat.
Proof.
  eexists _, _. split; [reflexivity|]. split.
  - destruct err as [| | |e|[]|[]|[]|e|e|e|e]; vm_compute; tauto.
  - unfold scrub_error_detail. destruct (Nat.ltb_spec ERROR_DETAIL_CAP (char_count (scrub_spans (chain err)))) as [Hl|Hl].
    + unfold char_count. rewrite scount_app. pose proof (take_chars_count ERROR_DETAIL_CAP (scrub_spans (chain err))) as Ht.
      unfold char_count in Ht. change (scount char_start "…") with 1%nat. unfold ERROR_DETAIL_CAP in *. lia.
    + unfold ERROR_DETAIL_CAP in Hl. lia.
Qed.

(** ** Witnesses *)

#[export] Instance toy_jobs : JobLib := {
  payload_to_json p :=
    match p with
    | SyncAccount a u =>
        Some ("sync:" +:+ show_N (N.of_nat (String.length a)) +:+ String ":" (a +:+ u))
    | SendMessage a (mkOutbound (Some t)) => if String.eqb t "mail" then Some ("send:" +:+ a) else None
    | _ => None
    end;
  payload_of_json s :=
    match strip_prefix "sync:" s with
    | Some r =>
        match split_once ":" r with
        | Some (len, rest) =>
            option_map (fun n => SyncAccount (stake (Z.to_nat n) rest) (sdrop (Z.to_nat n) rest))
              (parse_digits len)
        | None => None
        end
    | None => option_map (fun a => SendMessage a (mkOutbound (Some "mail"))) (strip_prefix "send:" s)
    end;
  job_uuid n := "job-" +:+ show_N n;
  rfc3339 t := show_Z t;
  db_stamp t := show_Z t;
  parse_rfc3339 s := None;
  parse_naive s := None;
  scrub_spans s := s;
  report_json s := s;
  serde_text _ := "serde";
  utf8_text _ := "utf-8";
  base64_text := "base64";
}.

#[export] Instance toy_job_laws : JobLaws.
Proof.
  split.
  - intros p j. destruct p as [a u|m|a [[t|]]|u a w|u a w]; cbn -[strip_prefix]; try done.
    + intros [= <-]. rewrite strip_prefix_app.
      rewrite split_once_app by (apply digits_no_char; [done|apply show_N_digits]).
      rewrite parse_show_N. cbn. by rewrite nat_N_Z, Nat2Z.id, stake_app, sdrop_app.
    + destruct (String.eqb_spec t "mail") as [->|]; [|done]. intros [= <-].
      change (strip_prefix "sync:" ("send:" +:+ a)) with (@None string). by rewrite strip_prefix_app.
  - done.
Qed.

Definition toy_job (id run_at payload : string) : JobRow :=
  mkJob id "sync_account" run_at payload Pending 0 None None "1" "1".
Definition toy_rows : list JobRow :=
  [toy_job "j1" "30" "sync:2:a1u1"; toy_job "j2" "20" "sync:2:a2u1"; toy_job "j3" "10" "sync:2:a3u1";
   toy_job "j4" "05" "not json"; toy_job "j5" "90" "sync:2:a5u1"].
Definition toy_jworld : jworld := mkJWorld 0 toy_rows [mkAccount "a1" "u1" "c" "smtp" true true] 0 true no_side.

(** [a3] is busy and [j4] unreadable: [j2] is taken. *)
Lemma claim_next_takes_oldest_witness :
  let w := toy_jworld in let i := {[ "a3" ]} in
  (claim_next "50" i w = (Ok None, w) /\ forall r, r ∈ jw_rows w -> ~ claimable "50" i r) \/
  (exists r p, r ∈ jw_rows w /\ claimable "50" i r /\ payload_of_json (j_payload r) = Some p /\
     (forall x, x ∈ jw_rows w -> claimable "50" i x -> run_order r x = true) /\
     claim_next "50" i w = (Ok (Some (mkClaimed (j_id r) Running p)),
       set_rows (update_rows (by_id (j_id r)) (set_status Running (updated_at_value w)) (jw_rows w)) w)).
Proof.
  apply claim_next_takes_oldest; [reflexivity|].
  apply (bool_decide_unpack _). vm_compute. exact I.
Defined.

Definition send_rows : list JobRow := [toy_job "m1" "10" "send:a1"].
Definition send_world : jworld := mkJWorld 0 send_rows [mkAccount "a1" "u1" "c" "smtp" true true] 0 true no_side.
Definition claimed_rows : list JobRow := (cas_claim "m1" "0" send_rows).2.
Definition send_task (c : pc) : task := mkTask "m1" (SendMessage "a1" (mkOutbound (Some "mail"))) c.
Definition send_claimed : pool :=
  mkPool (set_rows claimed_rows send_world) InFlight.new 0 DIdle [send_task PStart] [].
Definition send_tried : pool :=
  mkPool (set_rows claimed_rows send_world) InFlight.new 0 DIdle
    [send_task (PWrite (OSent (Err "SMTP transient")))] ["m1"].

Lemma send_nodup : NoDup (j_id <$> jw_rows send_world).
Proof. apply (bool_decide_unpack _). vm_compute. exact I. Qed.

(** One permit: it is taken, the job claimed, and the mail handed over once. *)
Lemma send_run : pool_run (pool_size 1) (pool_start 1 send_world) 0 send_tried.
Proof.
  eapply (r_cons _ _ false _ 0); [by apply (d_permit _ (pool_start 1 send_world) "50" 0)|].
  eapply (r_cons _ _ false _ 0); [by apply (d_select _ _ "50")|].
  eapply (r_cons _ _ false _ 0); [by apply (d_try _ _ (toy_job "m1" "10" "send:a1") []
            (SendMessage "a1" (mkOutbound (Some "mail"))))|].
  eapply (r_cons _ _ false _ 0); [by apply (d_claim _ _ (toy_job "m1" "10" "send:a1")
            (SendMessage "a1" (mkOutbound (Some "mail"))) [] "0")|].
  eapply (r_cons _ _ false _ 0); [|apply r_nil].
  apply (s_task_goes _ send_claimed [] (send_task PStart) []); [reflexivity|].
  by eapply (t_sent send_claimed (send_task PStart)).
Qed.

Lemma pool_safe_witness :
  (length (p_tasks send_tried) <= Nat.max 1 1)%nat /\ NoDup (t_id <$> p_tasks send_tried) /\
  (forall t, t ∈ p_tasks send_tried -> running_row (p_rows send_tried) (t_id t)) /\
  NoDup (omap syncing (p_tasks send_tried)).
Proof. exact (pool_safe 1 send_world 0 send_tried send_nodup send_run). Defined.

Lemma sends_bounded_witness : sends_of "m1" (p_sends send_tried) <= 3 + Z.of_nat 0.
Proof.
  apply (sends_bounded 1 send_world 0 send_tried "m1" send_nodup); [|exact send_run].
  intros r Hr. apply list_elem_of_singleton in Hr as ->. by split.
Defined.

Definition done_row : JobRow := set_completed "9" (toy_job "m0" "10" "send:a1").
Definition done_world : jworld := mkJWorld 0 [done_row] [] 0 true no_side.
Lemma finished_jobs_stay_witness :
  done_row ∈ p_rows (mkPool (snd (reclaim_stale_running done_world)) InFlight.new 1 DIdle [] []).
Proof.
  apply (finished_jobs_stay 1 (pool_start 1 done_world) _ 1).
  - apply (pool_start_ok 1 done_world). apply (bool_decide_unpack _). vm_compute. exact I.
  - refine (r_cons _ _ true _ 0 _ _ (r_nil _ _)). apply (s_restart 1 (pool_start 1 done_world) (fst (reclaim_stale_running done_world))).
    apply surjective_pairing.
  - apply list_elem_of_singleton. reflexivity.
  - by left.
Defined.

Definition transient_ex : externals :=
  mkExternals (fun _ _ => Ok tt) (fun _ => "")
    (fun p => if String.eqb p "smtp" then Some (fun _ _ => Err "SMTP transient") else None)
    (fun _ => Err "user not found") (fun _ _ => Ok tt).
Definition processed := process_job transient_ex InFlight.new
  (mkClaimed "m1" Running (SendMessage "a1" (mkOutbound (Some "mail")))) (p_world send_claimed).

Lemma process_job_is_a_run_witness :
  j_attempts <$> jw_rows (snd (fst processed)) = [1] /\
  exists sends, pool_run 1 send_claimed 0
    (mkPool (snd (fst processed)) (snd processed) 1 DIdle [] sends).
Proof.
  split; [vm_compute; reflexivity|].
  apply (process_job_is_a_run 1 transient_ex send_claimed [] [] (send_task PStart) (fst (fst processed))
           (snd (fst processed)) (snd processed) eq_refl eq_refl).
  unfold processed. by destruct (process_job _ _ _ _) as [[? ?] ?].
Defined.
