(* ===== verification/Scheduler.v ===== *)
(** * Poll scheduler ([scheduler.rs])

    The per-account backoff and one poll pass.  [Instant::now] and [Utc::now] are
    the clock of the world; durations are nanoseconds. *)
From S2P Require Import Prelude Kv Crypto UnlockRing World Toy Jobs Pool.
Local Open Scope string_scope.
Local Open Scope Z_scope.

Definition BASE_POLL_SECS : Z := 300.
Definition MAX_BACKOFF_SECS : Z := 3600.

Module Backoff.
Record t := mk {
  delays : gmap string Z;
  next_due : gmap string Z;
  applied_job : gmap string string;
  base : Z;
  max : Z;
}.

Definition with_base_secs (base_secs : Z) : t :=
  mk ∅ ∅ ∅ (from_secs (Z.max base_secs 1)) (from_secs MAX_BACKOFF_SECS).

Definition delay (a : string) (b : t) : Z := default (base b) (delays b !! a).
Definition fail (a : string) (b : t) : t :=
  mk (<[a := Z.min (2 * delay a b) (max b)]> (delays b)) (next_due b) (applied_job b) (base b) (max b).
Definition ok (a : string) (b : t) : t :=
  mk (delete a (delays b)) (next_due b) (applied_job b) (base b) (max b).
Definition set_due (a : string) (at_ : Z) (b : t) : t :=
  mk (delays b) (<[a := at_]> (next_due b)) (applied_job b) (base b) (max b).

Definition observe_outcome (now : Z) (a job_id : string) (status : Status) (b : t) : t :=
  if bool_decide (applied_job b !! a = Some job_id) then b else
  let b := mk (delays b) (next_due b) (<[a := job_id]> (applied_job b)) (base b) (max b) in
  match status with
  | Failed => let b := fail a b in set_due a (now + delay a b) b
  | Completed => ok a b
  | _ => b
  end.

Definition is_due (a : string) (now : Z) (b : t) : bool :=
  match next_due b !! a with None => true | Some due => due <=? now end.
Definition mark_enqueued (now : Z) (a : string) (b : t) : t := set_due a (now + delay a b) b.
End Backoff.

Section Poll.
Context `{JobLib}.

(** The database and the backoff, which a pass mutates together. *)
Record sworld := mkS { s_db : jworld; s_backoff : Backoff.t }.
Definition on_db {E A} (m : io jworld E A) : io sworld E A :=
  fun s => let '(r, w) := m (s_db s) in (r, mkS w (s_backoff s)).
Definition on_backoff {E} (f : Backoff.t -> Backoff.t) : io sworld E unit :=
  modify (fun s => mkS (s_db s) (f (s_backoff s))).

Definition list_active_accounts : io jworld SqlxError (list (string * string)) :=
  jstmt (fun w => (map (fun a => (a_id a, a_user_id a))
    (List.filter (fun a => a_is_active a && a_sync_enabled a) (jw_accounts w)), w)).

(** A readable sync row of the account. *)
Definition sync_of (account_id : string) (r : JobRow) : bool :=
  match payload_of_json (j_payload r) with
  | Some (SyncAccount aid _) => String.eqb aid account_id
  | _ => false
  end.
Definition is_sync (r : JobRow) : bool := String.eqb (j_kind r) "sync_account".
Definition is_open (r : JobRow) : bool :=
  bool_decide (j_status r = Pending) || bool_decide (j_status r = Running).
Definition is_done (r : JobRow) : bool :=
  bool_decide (j_status r = Completed) || bool_decide (j_status r = Failed).

Definition pending_or_running_sync_job_id (account_id : string) : io jworld SqlxError (option string) :=
  jstmt (fun w =>
    (option_map j_id (List.find (sync_of account_id)
       (order_by run_order (List.filter (fun r => is_sync r && is_open r) (jw_rows w)))), w)).
Definition has_pending_or_running_sync (account_id : string) : io jworld SqlxError bool :=
  let! id := pending_or_running_sync_job_id account_id in ret (bool_decide (id <> None)).

(** [ORDER BY updated_at DESC, created_at DESC]. *)
Definition recent_order (a b : JobRow) : bool :=
  if text_le (j_updated_at b) (j_updated_at a) then
    if text_le (j_updated_at a) (j_updated_at b) then text_le (j_created_at b) (j_created_at a) else true
  else false.
Definition latest_terminal_sync (account_id : string) : io jworld SqlxError (option (string * Status)) :=
  jstmt (fun w =>
    (option_map (fun r => (j_id r, j_status r)) (List.find (sync_of account_id)
       (order_by recent_order (List.filter (fun r => is_sync r && is_done r) (jw_rows w)))), w)).

Fixpoint poll_accounts (accounts : list (string * string)) (now : Z) (run_at : string) (enqueued : nat)
    : io sworld SqlxError nat :=
  match accounts with
  | [] => ret enqueued
  | (id, user_id) :: rest =>
      let! latest := on_db (latest_terminal_sync id) in
      let! _ := match latest with
                | Some (job_id, status) => on_backoff (Backoff.observe_outcome now id job_id status)
                | None => ret tt
                end in
      let! b := gets s_backoff in
      if negb (Backoff.is_due id now b) then poll_accounts rest now run_at enqueued else
      let! queued := on_db (has_pending_or_running_sync id) in
      if (queued : bool) then poll_accounts rest now run_at enqueued else
      let! _ := on_db (enqueue (SyncAccount id user_id) run_at) in
      let! _ := on_backoff (Backoff.mark_enqueued now id) in
      poll_accounts rest now run_at (S enqueued)
  end.

Definition poll_tick : io sworld SqlxError nat :=
  let! accounts := on_db list_active_accounts in
  let! now := gets (fun s => jw_now (s_db s)) in
  poll_accounts accounts now (rfc3339 now) 0.

End Poll.

(** ** Backoff *)

Fixpoint failures (n : nat) (a : string) (b : Backoff.t) : Backoff.t :=
  match n with O => b | S n => Backoff.fail a (failures n a b) end.

Lemma failures_fixed n a b :
  Backoff.base (failures n a b) = Backoff.base b /\ Backoff.max (failures n a b) = Backoff.max b.
Proof. induction n; [done|]. done. Qed.

(** The poll delay backs off and recovers.  From a reset account, [n] failures in
    a row make the delay the base interval doubled [n] times, capped at an hour; one
    success brings it back to the base interval, and other accounts never notice. *)
Theorem backoff_doubles (n : nat) (a : string) (b : Backoff.t) :
  0 < Backoff.base b -> 0 < Backoff.max b -> Backoff.delays b !! a = None ->
  Backoff.delay a (failures (S n) a b) = Z.min (Backoff.base b * 2 ^ Z.of_nat (S n)) (Backoff.max b) /\
  Backoff.delay a (Backoff.ok a (failures n a b)) = Backoff.base b /\
  forall a', a' <> a -> Backoff.delay a' (failures n a b) = Backoff.delay a' b.
Proof.
  intros Hb Hm Ha. split_and!.
  - induction n as [|n IH]; simpl failures in *.
    + unfold Backoff.fail, Backoff.delay. cbn. rewrite lookup_insert_eq, Ha. cbn. f_equal. lia.
    + unfold Backoff.fail at 1, Backoff.delay at 1. cbn. rewrite lookup_insert_eq. cbn.
      change (Backoff.mk _ _ _ _ _) with (Backoff.fail a (failures n a b)). rewrite IH.
      rewrite (proj2 (failures_fixed n a b)).
      rewrite !Nat2Z.inj_succ, !Z.pow_succ_r by lia.
      set (e := Backoff.base b * (2 * 2 ^ Z.of_nat n)).
      replace (Backoff.base b * (2 * (2 * 2 ^ Z.of_nat n))) with (2 * e) by (unfold e; lia). lia.
  - unfold Backoff.ok, Backoff.delay. cbn. rewrite lookup_delete_eq. apply failures_fixed.
  - intros a' Hne. induction n as [|n IH]; [done|]. rewrite <- IH. unfold Backoff.delay. cbn.
    by rewrite lookup_insert_ne.
Qed.

(** A poll interval above the cap shortens on failure.  When [SYNC_POLL_SECS] is
    longer than an hour, the first failure makes the delay the one-hour cap, shorter than
    the interval it was meant to stretch. *)
Theorem long_interval_shrinks (secs : Z) (a : string) :
  MAX_BACKOFF_SECS < secs ->
  let b := Backoff.with_base_secs secs in
  Backoff.delay a (Backoff.fail a b) = from_secs MAX_BACKOFF_SECS /\
  Backoff.delay a (Backoff.fail a b) < Backoff.delay a b.
Proof.
  intros Hs b. unfold Backoff.fail, Backoff.delay, b, Backoff.with_base_secs, from_secs, nanos_per_sec,
    MAX_BACKOFF_SECS in *. cbn -[Z.mul Z.min Z.max]. rewrite lookup_insert_eq, !lookup_empty. cbn -[Z.mul Z.min Z.max].
  lia.
Qed.

Lemma backoff_doubles_witness :
  let b := Backoff.with_base_secs 300 in
  Backoff.delay "a" (failures 4 "a" b) = Z.min (Backoff.base b * 2 ^ Z.of_nat 4) (Backoff.max b) /\
  Backoff.delay "a" (Backoff.ok "a" (failures 3 "a" b)) = Backoff.base b /\
  forall a', a' <> "a" -> Backoff.delay a' (failures 3 "a" b) = Backoff.delay a' b.
Proof. apply (backoff_doubles 3); reflexivity. Defined.

Lemma long_interval_shrinks_witness :
  Backoff.delay "a" (Backoff.fail "a" (Backoff.with_base_secs 7200)) = from_secs 3600 /\
  Backoff.delay "a" (Backoff.fail "a" (Backoff.with_base_secs 7200))
    < Backoff.delay "a" (Backoff.with_base_secs 7200).
Proof. apply (long_interval_shrinks 7200 "a"). reflexivity. Defined.

(** ** One poll pass *)

Section PollLemmas.
Context `{JobLib} `{!JobLaws}.

(** The open sync jobs of an account. *)
Definition queued_pred (a : string) (r : JobRow) : bool := is_sync r && is_open r && sync_of a r.
Definition queued (a : string) (rows : list JobRow) : list JobRow := List.filter (queued_pred a) rows.
Definition last_done (a : string) (rows : list JobRow) : option (string * Status) :=
  option_map (fun r => (j_id r, j_status r)) (List.find (sync_of a)
    (order_by recent_order (List.filter (fun r => is_sync r && is_done r) rows))).
(** The backoff after the pass has looked at the account's latest outcome. *)
Definition observed (now : Z) (a : string) (rows : list JobRow) (b : Backoff.t) : Backoff.t :=
  match last_done a rows with
  | Some (job_id, status) => Backoff.observe_outcome now a job_id status b
  | None => b
  end.

Lemma queued_app a rows new : queued a (rows ++ new) = (queued a rows ++ queued a new)%list.
Proof. apply List.filter_app. Qed.

Lemma has_queued_run a w :
  jw_up w = true -> has_pending_or_running_sync a w = (Ok (bool_decide (queued a (jw_rows w) <> [])), w).
Proof.
  intros Hup. unfold has_pending_or_running_sync, pending_or_running_sync_job_id.
  set (l := order_by run_order (List.filter (fun r => is_sync r && is_open r) (jw_rows w))).
  rewrite (bind_step _ _ w (option_map j_id (List.find (sync_of a) l)) w)
    by (by rewrite jstmt_run).
  unfold ret. do 2 f_equal. apply bool_decide_ext.
  assert (Hl : forall r, In r l <-> In r (List.filter (fun r => is_sync r && is_open r) (jw_rows w))).
  { intros r. unfold l. rewrite <- !list_elem_of_In, order_by_perm. done. }
  unfold queued. destruct (List.find (sync_of a) l) as [r|] eqn:Hf; cbn.
  - split; [|done]. intros _ Hnil. apply List.find_some in Hf as [Hin Hs]. apply Hl, List.filter_In in Hin as [Hr Hq].
    assert (Hin : In r (List.filter (queued_pred a) (jw_rows w))).
    { apply List.filter_In. unfold queued_pred. by rewrite Hq, Hs. }
    by rewrite Hnil in Hin.
  - split; [done|]. intros Hne _. apply Hne. destruct (List.filter (queued_pred a) (jw_rows w)) as [|r q] eqn:Hq; [done|].
    assert (Hin : In r (List.filter (queued_pred a) (jw_rows w))) by (rewrite Hq; by left).
    apply List.filter_In in Hin as [Hr Hp]. unfold queued_pred in Hp. apply andb_prop in Hp as [Hp Hs].
    assert (Hin : In r l) by (apply Hl, List.filter_In; done).
    pose proof (List.find_none _ _ Hf r Hin). congruence.
Qed.

Lemma latest_run a w :
  jw_up w = true -> latest_terminal_sync a w = (Ok (last_done a (jw_rows w)), w).
Proof. intros Hup. unfold latest_terminal_sync. by rewrite jstmt_run. Qed.

(** The row a pass adds for an account. *)
Definition fresh_sync (a : string) (r : JobRow) : Prop :=
  j_status r = Pending /\ (forall x, queued_pred x r = String.eqb a x) /\ is_sync r && is_done r = false.

Lemma enqueue_sync_run a u run_at w :
  jw_up w = true ->
  exists id r w', enqueue (SyncAccount a u) run_at w = (Ok id, w') /\ jw_up w' = true /\
    jw_rows w' = (jw_rows w ++ [r])%list /\ jw_accounts w' = jw_accounts w /\ fresh_sync a r.
Proof.
  intros Hup. unfold enqueue. destruct (payload_to_json (SyncAccount a u)) as [json|] eqn:Hj;
    [|by destruct (sync_serializes a u)].
  rewrite jstmt_run by done. cbn. eexists _, _, _. split; [done|]. split; [done|]. split; [done|]. split; [done|].
  split; [done|]. split; [|done]. intros x. unfold queued_pred, sync_of. cbn. by rewrite (payload_roundtrip _ _ Hj).
Qed.

Lemma last_done_app a rows r :
  is_sync r && is_done r = false -> last_done a (rows ++ [r]) = last_done a rows.
Proof. intros Hr. unfold last_done. rewrite List.filter_app. cbn. by rewrite Hr, app_nil_r. Qed.

(** Two backoffs that agree on an account. *)
Definition agree (a : string) (b b' : Backoff.t) : Prop :=
  Backoff.delays b !! a = Backoff.delays b' !! a /\ Backoff.next_due b !! a = Backoff.next_due b' !! a /\
  Backoff.applied_job b !! a = Backoff.applied_job b' !! a /\
  Backoff.base b = Backoff.base b' /\ Backoff.max b = Backoff.max b'.

Lemma agree_due now a rows b b' :
  agree a b b' -> Backoff.is_due a now (observed now a rows b) = Backoff.is_due a now (observed now a rows b').
Proof.
  intros (H1 & H2 & H3 & H4 & H5). unfold observed. destruct (last_done a rows) as [[j s]|].
  2: { unfold Backoff.is_due. by rewrite H2. }
  unfold Backoff.observe_outcome. rewrite H3. case_bool_decide; [unfold Backoff.is_due; by rewrite H2|].
  destruct s; unfold Backoff.is_due, Backoff.set_due, Backoff.fail, Backoff.ok, Backoff.delay; cbn;
    rewrite ?lookup_insert_eq; cbn; rewrite ?H1, ?H2, ?H4, ?H5; done.
Qed.

Lemma agree_observed now a a' rows b : a' <> a -> agree a' (observed now a rows b) b.
Proof.
  intros Hne. unfold observed. destruct (last_done a rows) as [[j s]|]; [|done].
  unfold Backoff.observe_outcome. case_bool_decide; [done|].
  destruct s; unfold agree, Backoff.set_due, Backoff.fail, Backoff.ok; cbn;
    rewrite ?lookup_insert_ne, ?lookup_delete_ne by done; done.
Qed.

Lemma agree_marked now a a' b b' : a' <> a -> agree a' b b' -> agree a' (Backoff.mark_enqueued now a b) b'.
Proof. intros Hne Hab. unfold agree, Backoff.mark_enqueued. cbn. by rewrite lookup_insert_ne. Qed.

(** What a pass over [accounts] adds to [rows]. *)
Definition pass_adds (now : Z) (accounts : list (string * string)) (rows : list JobRow) (b : Backoff.t)
    (new : list JobRow) : Prop :=
  (forall r, r ∈ new -> exists a, a ∈ accounts.*1 /\ fresh_sync a r /\ queued a rows = []) /\
  (forall a, a ∈ accounts.*1 -> Backoff.is_due a now (observed now a rows b) = true ->
     queued a (rows ++ new) <> []) /\
  (forall a, (length (queued a rows) <= 1)%nat -> (length (queued a (rows ++ new)) <= 1)%nat).

Lemma queued_fresh a x r : fresh_sync a r -> queued x [r] = if String.eqb a x then [r] else [].
Proof. intros (_ & Hq & _). unfold queued. cbn. by rewrite Hq. Qed.

(** An account that is skipped adds nothing. *)
Lemma pass_skip now a u rest rows b b' new :
  (forall a', a' <> a -> agree a' b' b) -> a ∉ rest.*1 ->
  Backoff.is_due a now (observed now a rows b) = false \/ queued a rows <> [] ->
  pass_adds now rest rows b' new -> pass_adds now ((a, u) :: rest) rows b new.
Proof.
  intros Hag Hni Hskip (P1 & P2 & P3). split; [|split; [|done]].
  - intros r Hr. destruct (P1 r Hr) as (x & Hx & Hf). exists x. split; [by right|done].
  - intros x [->|Hx]%elem_of_cons Hdue.
    + cbn in *. destruct Hskip as [Hskip|Hskip]; [congruence|]. rewrite queued_app. by destruct (queued a rows).
    + apply P2; [done|]. rewrite (agree_due _ _ _ b' b); [done|]. apply Hag. by intros ->.
Qed.

Lemma pass_add now a u rest rows b b' r new :
  (forall a', a' <> a -> agree a' b' b) -> a ∉ rest.*1 -> queued a rows = [] -> fresh_sync a r ->
  pass_adds now rest (rows ++ [r]) b' new -> pass_adds now ((a, u) :: rest) rows b (r :: new).
Proof.
  intros Hag Hni Hq Hf (P1 & P2 & P3). unfold pass_adds.
  assert (Happ : forall x, queued x (rows ++ r :: new) = queued x ((rows ++ [r]) ++ new)).
  { intros x. by rewrite <- app_assoc. }
  split; [|split].
  - intros y [->|Hy]%elem_of_cons; [exists a; split; [by left|done]|].
    destruct (P1 y Hy) as (x & Hx & Hfx & Hqx). exists x. split; [by right|]. split; [done|].
    rewrite queued_app in Hqx. by apply app_eq_nil in Hqx as [? _].
  - intros x [->|Hx]%elem_of_cons Hdue; rewrite Happ.
    + cbn. rewrite !queued_app, (queued_fresh _ _ _ Hf), Hq, String.eqb_refl. done.
    + apply P2; [done|]. assert (x <> a) by (by intros ->).
      unfold observed in *. rewrite last_done_app by apply Hf.
      fold (observed now x rows b'). fold (observed now x rows b) in Hdue.
      rewrite (agree_due _ _ _ b' b); [done|]. by apply Hag.
  - intros x Hx. rewrite Happ. apply P3. rewrite queued_app, (queued_fresh _ _ _ Hf).
    destruct (String.eqb_spec a x) as [<-|]; [by rewrite Hq|by rewrite app_nil_r].
Qed.

Lemma poll_accounts_run now run_at accounts : forall k w b,
  jw_up w = true -> NoDup accounts.*1 ->
  exists new w' b', poll_accounts accounts now run_at k (mkS w b) = (Ok (k + length new)%nat, mkS w' b') /\
    jw_rows w' = (jw_rows w ++ new)%list /\ pass_adds now accounts (jw_rows w) b new.
Proof.
  induction accounts as [|[a u] rest IH]; intros k w b Hup Hnd.
  { exists [], w, b. cbn. rewrite Nat.add_0_r, app_nil_r. split; [done|]. split; [done|].
    split; [by intros r ?%not_elem_of_nil|]. split; [by intros a ?%not_elem_of_nil|]. intros a. by rewrite app_nil_r. }
  apply NoDup_cons in Hnd as [Hni Hnd]. cbn [poll_accounts fst] in *.
  rewrite (bind_step _ _ _ (last_done a (jw_rows w)) (mkS w b))
    by (unfold on_db; cbn; by rewrite latest_run).
  rewrite (bind_step _ _ _ tt (mkS w (observed now a (jw_rows w) b)))
    by (unfold observed; by destruct (last_done a (jw_rows w)) as [[j s]|]).
  set (b1 := observed now a (jw_rows w) b). rewrite (bind_step _ _ _ b1 (mkS w b1)) by done.
  assert (Hag : forall a', a' <> a -> agree a' b1 b) by (intros a'; apply agree_observed).
  destruct (Backoff.is_due a now b1) eqn:Hdue; cbn [negb].
  2: { destruct (IH k w b1 Hup Hnd) as (new & w' & b' & Hr & Hrows & Hp). exists new, w', b'.
       split; [done|]. split; [done|]. eapply pass_skip; eauto. }
  rewrite (bind_step _ _ _ (bool_decide (queued a (jw_rows w) <> [])) (mkS w b1))
    by (unfold on_db; cbn; by rewrite has_queued_run).
  case_bool_decide as Hq.
  { destruct (IH k w b1 Hup Hnd) as (new & w' & b' & Hr & Hrows & Hp). exists new, w', b'.
    split; [done|]. split; [done|]. eapply pass_skip; eauto. }
  destruct (enqueue_sync_run a u run_at w Hup) as (id & r & w1 & He & Hup1 & Hrows1 & _ & Hf).
  rewrite (bind_step _ _ _ id (mkS w1 b1)) by (unfold on_db; cbn; by rewrite He).
  rewrite (bind_step _ _ _ tt (mkS w1 (Backoff.mark_enqueued now a b1))) by done.
  destruct (IH (S k) w1 (Backoff.mark_enqueued now a b1) Hup1 Hnd) as (new & w' & b' & Hr & Hrows & Hp).
  exists (r :: new), w', b'. rewrite Hr, Hrows, Hrows1, <- app_assoc. split; [cbn; do 2 f_equal; lia|].
  split; [done|]. rewrite Hrows1 in Hp. eapply pass_add; [|done|by destruct (queued a (jw_rows w)); [|destruct Hq]|done|exact Hp].
  intros a' Hne. apply agree_marked; [done|by apply Hag].
Qed.

(** A poll pass queues exactly what is due, once.  With the database up a pass
    always succeeds and answers the number of jobs it added at the end of the
    queue; every added job is a pending sync of an active account that had none open;
    every active account that is due - after its latest finished job has been taken
    into account - has an open sync job afterwards; and no account that had at most
    one open sync job gets a second. *)
Theorem poll_queues_due_once (w : jworld) (b : Backoff.t) :
  jw_up w = true -> NoDup (a_id <$> jw_accounts w) ->
  let active := List.filter (fun a => a_is_active a && a_sync_enabled a) (jw_accounts w) in
  exists new w' b', poll_tick (mkS w b) = (Ok (length new), mkS w' b') /\
    jw_rows w' = (jw_rows w ++ new)%list /\
    (forall r, r ∈ new -> exists a, a ∈ (a_id <$> active) /\ fresh_sync a r /\ queued a (jw_rows w) = []) /\
    (forall a, a ∈ (a_id <$> active) ->
       Backoff.is_due a (jw_now w) (observed (jw_now w) a (jw_rows w) b) = true ->
       queued a (jw_rows w') <> []) /\
    (forall a, (length (queued a (jw_rows w)) <= 1)%nat -> (length (queued a (jw_rows w')) <= 1)%nat).
Proof.
  intros Hup Hnd active. unfold poll_tick, list_active_accounts.
  set (accounts := map (fun a => (a_id a, a_user_id a)) active).
  assert (Hids : accounts.*1 = a_id <$> active).
  { unfold accounts. change (map ?f active) with (f <$> active). by rewrite <- list_fmap_compose. }
  rewrite (bind_step _ _ _ accounts (mkS w b)) by (unfold on_db; by rewrite jstmt_run).
  rewrite (bind_step _ _ _ (jw_now w) (mkS w b)) by done.
  destruct (poll_accounts_run (jw_now w) (rfc3339 (jw_now w)) accounts 0 w b Hup) as (new & w' & b' & Hr & Hrows & Hp).
  { rewrite Hids. unfold active. clear - Hnd. induction (jw_accounts w) as [|a l IH]; [constructor|].
    apply NoDup_cons in Hnd as [Hni Hnd]. cbn [List.filter]. destruct (_ && _); [|by apply IH].
    apply NoDup_cons. split; [|by apply IH]. intros (x & Hx & Hin)%list_elem_of_fmap. apply Hni.
    rewrite Hx. apply list_elem_of_fmap. exists x. split; [done|].
    apply list_elem_of_In, List.filter_In in Hin as [Hin _]. by apply list_elem_of_In. }
  exists new, w', b'. split; [done|]. split; [done|]. unfold pass_adds in Hp. rewrite Hids in Hp.
  rewrite Hrows. exact Hp.
Qed.

End PollLemmas.

(** Two active accounts, one of which already has an open job. *)
Definition poll_world : jworld :=
  mkJWorld (from_secs 1000) toy_rows
    [mkAccount "a1" "u1" "c" "smtp" true true; mkAccount "a9" "u1" "c" "smtp" true true;
     mkAccount "a8" "u1" "c" "smtp" false true] 7 true no_side.

Lemma poll_queues_due_once_witness :
  let b := Backoff.with_base_secs 300 in
  exists new w' b', poll_tick (mkS poll_world b) = (Ok (length new), mkS w' b') /\
    jw_rows w' = (jw_rows poll_world ++ new)%list /\
    (forall r, r ∈ new -> exists a, a ∈ ["a1"; "a9"] /\ fresh_sync a r /\ queued a (jw_rows poll_world) = []) /\
    (forall a, a ∈ ["a1"; "a9"] ->
       Backoff.is_due a (jw_now poll_world) (observed (jw_now poll_world) a (jw_rows poll_world) b) = true ->
       queued a (jw_rows w') <> []) /\
    (forall a, (length (queued a (jw_rows poll_world)) <= 1)%nat -> (length (queued a (jw_rows w')) <= 1)%nat).
Proof.
  apply (poll_queues_due_once poll_world (Backoff.with_base_secs 300)); [reflexivity|].
  apply (bool_decide_unpack _). vm_compute. exact I.
Defined.
