(* ===== verification/Labels.v ===== *)
(** * Message labels and server keywords ([sync/labels.rs])

    Labels are slugs kept in a JSON column and mirrored to the server as keywords
    [label-<slug>].  [serde_json] is the class [JsonLib]. *)
From S2P Require Import Prelude.
Local Open Scope string_scope.

(** [serde_json::Value]. *)
Inductive Json :=
  | JNull
  | JBool (b : bool)
  | JNumber (text : string)
  | JString (s : string)
  | JArray (items : list Json)
  | JObject (fields : list (string * Json)).

Class JsonLib := {
  json_text : Json -> string;                  (* [to_string] *)
  json_parse : string -> option Json;          (* [from_str] *)
}.
(** Documented behaviour of serde: it reads back an array of strings it wrote. *)
Class JsonLaws `{JsonLib} := json_roundtrip : forall l,
  json_parse (json_text (JArray (map JString l))) = Some (JArray (map JString l)).

Definition KEYWORD_PREFIX : string := "label-".
Definition MAX_LABELS : nat := 8.
Definition MAX_LABEL_LEN : nat := 40.

Definition is_dash (a : ascii) : bool := Ascii.eqb a "-".

(** The loop of [sanitize_label]; a byte of a non-ASCII character is passed over. *)
Fixpoint slug_chars (s : string) (last_dash : bool) : string :=
  match s with
  | EmptyString => ""
  | String ch s' =>
      if is_lower ch || is_digit ch then String ch (slug_chars s' false)
      else if is_upper ch then String (ascii_lower ch) (slug_chars s' false)
      else if (is_dash ch || Ascii.eqb ch "_" || Ascii.eqb ch " ") && negb last_dash
      then String "-" (slug_chars s' true)
      else slug_chars s' last_dash
  end.

Definition sanitize_label (raw : string) : option string :=
  let out := drop_while_end is_dash (slug_chars (trim raw) true) in
  let slug := drop_while_end is_dash (drop_while is_dash (take_chars MAX_LABEL_LEN out)) in
  if is_empty slug then None else Some slug.

(** The loop of [sanitize_labels]; [room] is what the cap leaves. *)
Fixpoint collect_labels (raw : list string) (room : nat) (out : list string) : list string :=
  match raw with
  | [] => out
  | label :: rest =>
      match sanitize_label label with
      | None => collect_labels rest room out
      | Some slug =>
          if bool_decide (slug ∈ out) then collect_labels rest room out
          else match room with
               | S (S m) => collect_labels rest (S m) (out ++ [slug])%list
               | _ => (out ++ [slug])%list
               end
      end
  end.
Definition sanitize_labels (raw : list string) : list string := collect_labels raw MAX_LABELS [].

Definition label_keyword (label : string) : string := KEYWORD_PREFIX +:+ label.

Definition label_diff (old next : list string) : list string * list string :=
  (map label_keyword (List.filter (fun l => bool_decide (l ∉ old)) next),
   map label_keyword (List.filter (fun l => bool_decide (l ∉ next)) old)).

Definition labels_json `{JsonLib} (labels : list string) : option string :=
  match labels with [] => None | _ => Some (json_text (JArray (map JString labels))) end.

(** The closure [push]. *)
Definition push_label (out : list string) (flag : string) : list string :=
  match strip_prefix KEYWORD_PREFIX flag with
  | Some label => if is_empty label || bool_decide (label ∈ out) then out else (out ++ [label])%list
  | None => out
  end.
Definition item_flag (v : Json) : option string := match v with JString flag => Some flag | _ => None end.

Definition labels_from_flags_json `{JsonLib} (flags_json : string) : list string :=
  match json_parse flags_json with
  | None => []
  | Some (JArray items) => take MAX_LABELS (fold_left push_label (omap item_flag items) [])
  | Some (JObject fields) => take MAX_LABELS (fold_left push_label (map fst fields) [])
  | Some _ => []
  end.

(** ** Slugs *)

(** What a slug is made of: letters, digits, and dashes that do not follow a dash
    ([last] at the start). *)
Fixpoint slug_shape (s : string) (last : bool) : bool :=
  match s with
  | EmptyString => true
  | String a s' =>
      if is_lower a || is_digit a then slug_shape s' false
      else is_dash a && negb last && slug_shape s' true
  end.
Definition is_slug (s : string) : Prop :=
  s <> "" /\ slug_shape s true = true /\ ends_with "-" s = false /\ (String.length s <= MAX_LABEL_LEN)%nat.

Lemma slug_chars_shape s : forall last, slug_shape (slug_chars s last) last = true.
Proof.
  induction s as [|a s IH]; intros last; [done|]. cbn [slug_chars].
  destruct (is_lower a || is_digit a) eqn:Ha; [cbn [slug_shape]; by rewrite Ha, IH|].
  destruct (is_upper a) eqn:Hu.
  - cbn [slug_shape]. replace (is_lower (ascii_lower a) || is_digit (ascii_lower a)) with true; [apply IH|].
    clear - Hu. by destruct a as [[] [] [] [] [] [] [] []].
  - destruct ((is_dash a || Ascii.eqb a "_" || Ascii.eqb a " ") && negb last) eqn:Hd; [|apply IH].
    apply andb_prop in Hd as [_ Hl]. cbn. by rewrite Hl, IH.
Qed.

(** A shape is all ASCII, and has no blank. *)
Definition slug_byte (a : ascii) : bool := is_lower a || is_digit a || is_dash a.
Lemma slug_shape_bytes s : forall last, slug_shape s last = true -> sforall slug_byte s = true.
Proof.
  induction s as [|a s IH]; intros last; [done|]. cbn. unfold slug_byte at 1.
  destruct (is_lower a || is_digit a); [apply IH|].
  intros [[-> _]%andb_prop Hs]%andb_prop. by apply IH in Hs.
Qed.
Lemma slug_shape_app s t : forall last, slug_shape (s +:+ t) last = true -> slug_shape s last = true.
Proof.
  induction s as [|a s IH]; intros last; [done|]. rewrite app_cons_s. cbn.
  destruct (is_lower a || is_digit a); [apply IH|]. intros [-> Hs]%andb_prop. by apply IH in Hs.
Qed.

Lemma take_chars_prefix n s : exists t, s = take_chars n s +:+ t.
Proof.
  revert n. induction s as [|a s IH]; intros n; [by exists ""|]. cbn.
  destruct (char_start a), n as [|n]; try (by exists (String a s)).
  - destruct (IH n) as [t Ht]. exists t. rewrite app_cons_s. by f_equal.
  - destruct (IH 0%nat) as [t Ht]. exists t. rewrite app_cons_s. by f_equal.
  - destruct (IH (S n)) as [t Ht]. exists t. rewrite app_cons_s. by f_equal.
Qed.
Lemma drop_while_end_prefix p s : exists t, s = drop_while_end p s +:+ t.
Proof.
  unfold drop_while_end.
  assert (Hd : forall u, exists t, u = t +:+ drop_while p u).
  { induction u as [|a u [t Ht]]; [by exists ""|]. cbn. destruct (p a); [|by exists ""].
    exists (String a t). rewrite app_cons_s. by f_equal. }
  destruct (Hd (string_rev s)) as [t Ht]. apply (f_equal string_rev) in Ht.
  rewrite string_rev_involutive, string_rev_app in Ht. eauto.
Qed.
Lemma drop_while_end_last s : ends_with "-" (drop_while_end is_dash s) = false.
Proof.
  unfold ends_with, drop_while_end. rewrite string_rev_involutive.
  assert (Hd : forall u, starts_with "-" (drop_while is_dash u) = false).
  { induction u as [|a u IH]; [done|]. cbn [drop_while]. destruct (is_dash a) eqn:Ha; [done|].
    unfold is_dash in Ha. unfold starts_with. cbn [String.prefix].
    destruct (ascii_dec "-" a) as [<-|]; [done|done]. }
  apply Hd.
Qed.
Lemma drop_while_shape s : slug_shape s true = true -> drop_while is_dash s = s.
Proof.
  destruct s as [|a s]; [done|]. cbn. destruct (is_lower a || is_digit a) eqn:Ha.
  - intros _. unfold is_dash. destruct (Ascii.eqb_spec a "-") as [->|]; done.
  - by rewrite andb_false_r.
Qed.
Lemma slug_plain a : slug_byte a = true -> plain a = true.
Proof. by destruct a as [[] [] [] [] [] [] [] []]. Qed.
Lemma slug_start a : slug_byte a = true -> char_start a = true.
Proof. by destruct a as [[] [] [] [] [] [] [] []]. Qed.

Lemma trim_slug s : sforall slug_byte s = true -> trim s = s.
Proof. intros Hs. apply trim_plain. by eapply sforall_impl; [exact slug_plain|]. Qed.
Lemma slug_chars_id s : forall last, slug_shape s last = true -> slug_chars s last = s.
Proof.
  induction s as [|a s IH]; intros last; [done|]. cbn.
  destruct (is_lower a || is_digit a); [intros Hs; by rewrite IH|].
  intros [[Hd Hl]%andb_prop Hs]%andb_prop. rewrite Hd, Hl. unfold is_dash in Hd.
  apply Ascii.eqb_eq in Hd as ->. change (is_upper "-") with false. cbn. by rewrite IH.
Qed.
Lemma drop_while_end_id s : ends_with "-" s = false -> drop_while_end is_dash s = s.
Proof.
  unfold ends_with, drop_while_end. intros He. rewrite <- (string_rev_involutive s) at 2. f_equal.
  destruct (string_rev s) as [|a r] eqn:Hr; [done|]. clear Hr. cbn [drop_while]. unfold is_dash.
  destruct (Ascii.eqb_spec a "-") as [->|]; [|done].
  change (starts_with "-" (String "-" r) = false) in He. unfold starts_with in He. cbn in He. by destruct r.
Qed.
Lemma ascii_count s : sforall slug_byte s = true -> char_count s = String.length s.
Proof.
  unfold char_count. induction s as [|a s IH]; [done|]. cbn. intros [Ha Hs]%andb_prop.
  rewrite (slug_start a Ha). by rewrite IH.
Qed.
Lemma take_chars_all n s : sforall slug_byte s = true -> (String.length s <= n)%nat -> take_chars n s = s.
Proof.
  revert n. induction s as [|a s IH]; intros n; [done|]. cbn. intros [Ha Hs]%andb_prop Hl.
  rewrite (slug_start a Ha). destruct n as [|n]; [lia|]. f_equal. apply IH; [done|lia].
Qed.

Lemma sanitize_slug raw slug : sanitize_label raw = Some slug -> is_slug slug.
Proof.
  unfold sanitize_label.
  set (out := drop_while_end is_dash (slug_chars (trim raw) true)).
  assert (Ho : slug_shape out true = true).
  { destruct (drop_while_end_prefix is_dash (slug_chars (trim raw) true)) as [t Ht]. fold out in Ht.
    apply (slug_shape_app _ t). rewrite <- Ht. apply slug_chars_shape. }
  destruct (take_chars_prefix MAX_LABEL_LEN out) as [t Ht].
  assert (Hs : slug_shape (take_chars MAX_LABEL_LEN out) true = true).
  { apply (slug_shape_app _ t). by rewrite <- Ht. }
  rewrite (drop_while_shape _ Hs). set (cut := take_chars MAX_LABEL_LEN out) in *.
  destruct (drop_while_end_prefix is_dash cut) as [u Hu].
  destruct (is_empty _) eqn:He; intros [= <-]. split_and!.
  - intros Heq. by rewrite Heq in He.
  - apply (slug_shape_app _ u). by rewrite <- Hu.
  - apply drop_while_end_last.
  - pose proof (take_chars_count MAX_LABEL_LEN out) as Hc. fold cut in Hc.
    rewrite (ascii_count cut) in Hc by (by eapply slug_shape_bytes). rewrite Hu, slength_app in Hc. lia.
Qed.

(** A label is a slug, and stays one.  What [sanitize_label] answers is a nonempty
    run of at most 40 lowercase letters, digits and single inner dashes, and a slug
    (and nothing else) is answered as it is, so that labels survive being saved
    again. *)
Theorem sanitize_label_normal_form (raw slug : string) :
  (sanitize_label raw = Some slug -> is_slug slug) /\
  (is_slug slug <-> sanitize_label slug = Some slug).
Proof.
  split; [apply sanitize_slug|]. split; [|apply sanitize_slug].
  intros (Hne & Hs & He & Hl). unfold sanitize_label.
  pose proof (slug_shape_bytes _ _ Hs) as Hb.
  rewrite (trim_slug _ Hb), (slug_chars_id _ _ Hs), (drop_while_end_id _ He), (take_chars_all _ _ Hb Hl),
    (drop_while_shape _ Hs), (drop_while_end_id _ He).
  unfold is_empty. by rewrite (proj2 (String.eqb_neq _ _) Hne).
Qed.

(** ** Label lists *)

Lemma collect_labels_ok raw : forall room out, (1 <= room)%nat -> NoDup out -> (length out + room = MAX_LABELS)%nat ->
  (forall l, l ∈ out -> is_slug l) ->
  let res := collect_labels raw room out in
  NoDup res /\ (length res <= MAX_LABELS)%nat /\ (forall l, l ∈ res -> is_slug l).
Proof.
  induction raw as [|label raw IH]; intros room out Hroom Hnd Hlen Hok; cbn.
  { split_and!; [done|lia|done]. }
  destruct (sanitize_label label) as [slug|] eqn:Hs; [|by apply IH].
  case_bool_decide as Hin; [by apply IH|].
  assert (Hnd' : NoDup (out ++ [slug])).
  { apply NoDup_app. split_and!; [done| |apply NoDup_singleton].
    intros x Hx ->%list_elem_of_singleton. done. }
  assert (Hok' : forall l, l ∈ (out ++ [slug])%list -> is_slug l).
  { intros l [Hl| ->%list_elem_of_singleton]%elem_of_app; [by apply Hok|by eapply sanitize_slug]. }
  destruct room as [|[|m]]; [lia| |].
  - split_and!; [done| |done]. rewrite length_app. cbn. lia.
  - apply IH; [lia|done| |done]. rewrite length_app. cbn. lia.
Qed.

Lemma push_keywords l : forall out, NoDup (out ++ l) -> (forall x, x ∈ l -> x <> "") ->
  fold_left push_label (map label_keyword l) out = (out ++ l)%list.
Proof.
  induction l as [|x l IH]; intros out Hnd Hne; [by rewrite app_nil_r|]. cbn.
  unfold push_label at 2, label_keyword at 1. rewrite strip_prefix_app. unfold is_empty.
  rewrite (proj2 (String.eqb_neq _ _)) by (apply Hne; by left).
  apply NoDup_app in Hnd as Hnd'. destruct Hnd' as (_ & Hd & _).
  rewrite bool_decide_false by (intros Hx; apply (Hd x Hx); by left). cbn.
  rewrite IH; [by rewrite <- app_assoc|by rewrite <- app_assoc|].
  intros y Hy. apply Hne. by right.
Qed.

(** Labels survive the server.  The labels of a request, sanitized and written as
    keywords, are read back from the stored keyword array unchanged and in order. *)
Theorem labels_read_back `{JsonLaws} (raw : list string) :
  let labels := sanitize_labels raw in
  labels_from_flags_json (json_text (JArray (map JString (map label_keyword labels)))) = labels.
Proof.
  intros labels. destruct (collect_labels_ok raw MAX_LABELS []) as (Hnd & Hlen & Hok);
    [by compute; lia|by apply NoDup_nil|done|by intros ? ?%not_elem_of_nil|].
  fold (sanitize_labels raw) in Hnd, Hlen, Hok. fold labels in Hnd, Hlen, Hok.
  unfold labels_from_flags_json. rewrite json_roundtrip.
  replace (omap item_flag (map JString (map label_keyword labels))) with (map label_keyword labels).
  2: { generalize (map label_keyword labels). intros l. induction l as [|x l IH]; [done|]. cbn. by f_equal. }
  rewrite push_keywords; [by rewrite take_ge|done|]. intros x Hx. apply Hok in Hx as (Hne & _). done.
Qed.

(** A label edit reaches the server exactly.  Adding and removing the keywords of
    [label_diff] turns a server keyword set whose labels are the old ones into one
    whose labels are the new ones, and touches no other keyword. *)
Theorem label_diff_applies (server : gset string) (old next : list string) :
  (forall l, label_keyword l ∈ server <-> l ∈ old) ->
  let '(add, remove) := label_diff old next in
  let after := (server ∪ list_to_set add) ∖ list_to_set remove in
  (forall l, label_keyword l ∈ after <-> l ∈ next) /\
  (forall k, (forall l, k <> label_keyword l) -> (k ∈ after <-> k ∈ server)).
Proof.
  intros Hold. unfold label_diff.
  assert (Hmem : forall (l : string) (p : string -> bool) xs,
    label_keyword l ∈ map label_keyword (List.filter p xs) <-> l ∈ xs /\ p l = true).
  { intros l p xs. rewrite list_elem_of_In, in_map_iff. split.
    - intros (x & Hx%app_inj_l_s & [Hin Hp]%List.filter_In). subst x. by rewrite list_elem_of_In.
    - intros [Hin%list_elem_of_In Hp]. exists l. split; [done|]. by apply List.filter_In. }
  split.
  - intros l. rewrite elem_of_difference, elem_of_union, !elem_of_list_to_set, !Hmem, Hold, !bool_decide_eq_true.
    destruct (decide (l ∈ old)), (decide (l ∈ next)); tauto.
  - intros k Hk. rewrite elem_of_difference, elem_of_union, !elem_of_list_to_set.
    assert (Hno : forall xs, k ∉ map label_keyword xs).
    { intros xs (x & Hx & _)%list_elem_of_In%in_map_iff. by eapply Hk. }
    split; [intros [[?|?%Hno] _]; done|]. intros Hin. split; [by left|apply Hno].
Qed.

(** ** Witnesses *)

Fixpoint toy_text (l : list string) : string :=
  match l with
  | [] => "]"
  | s :: l' => show_N (N.of_nat (String.length s)) +:+ String ":" (s +:+ toy_text l')
  end.
Fixpoint toy_parse (fuel : nat) (s : string) : option (list Json) :=
  match fuel with
  | O => None
  | S n =>
      if String.eqb s "]" then Some [] else
      match split_once ":" s with
      | Some (len, rest) =>
          match parse_digits len with
          | Some k => option_map (cons (JString (stake (Z.to_nat k) rest))) (toy_parse n (sdrop (Z.to_nat k) rest))
          | None => None
          end
      | None => None
      end
  end.
#[export] Instance toy_json : JsonLib := {
  json_text v :=
    match v with
    | JArray items => toy_text (omap item_flag items)
    | JString s => s
    | _ => ""
    end;
  json_parse s := option_map JArray (toy_parse (S (String.length s)) s);
}.

Lemma toy_text_length l : (length l < String.length (toy_text l))%nat.
Proof.
  induction l as [|s l IH]; cbn -[show_N]; [lia|]. rewrite slength_app. cbn. rewrite slength_app. lia.
Qed.
Lemma toy_parse_text l : forall fuel, (length l < fuel)%nat -> toy_parse fuel (toy_text l) = Some (map JString l).
Proof.
  induction l as [|s l IH]; intros [|fuel] Hf; [lia|done|lia|]. cbn [length] in Hf. cbn [toy_parse toy_text].
  destruct (String.eqb_spec (show_N (N.of_nat (String.length s)) +:+ String ":" (s +:+ toy_text l)) "]") as [He|].
  { exfalso. apply (f_equal String.length) in He. rewrite slength_app in He. cbn in He. rewrite slength_app in He.
    pose proof (show_N_nonempty (N.of_nat (String.length s))) as Hn.
    destruct (show_N _); [done|]. cbn in He. lia. }
  rewrite split_once_app by (apply digits_no_char; [done|apply show_N_digits]).
  rewrite parse_show_N. rewrite nat_N_Z, Nat2Z.id, stake_app, sdrop_app, IH by lia. done.
Qed.
#[export] Instance toy_json_laws : JsonLaws.
Proof.
  intros l. cbn -[toy_parse]. replace (omap item_flag (map JString l)) with l.
  - rewrite toy_parse_text; [done|]. pose proof (toy_text_length l). lia.
  - induction l as [|x l IH]; [done|]. cbn. by f_equal.
Qed.

Lemma sanitize_label_normal_form_witness :
  sanitize_label "  Projects_2026 - Q1 " = Some "projects-2026-q1" /\
  sanitize_label "projects-2026-q1" = Some "projects-2026-q1".
Proof.
  split; [reflexivity|].
  apply (sanitize_label_normal_form "" "projects-2026-q1"), (sanitize_label_normal_form "  Projects_2026 - Q1 ").
  reflexivity.
Defined.

Lemma labels_read_back_witness :
  labels_from_flags_json (json_text (JArray (map JString (map label_keyword
    (sanitize_labels ["Work"; "!!!"; "work"; "Travel 2026"]))))) = ["work"; "travel-2026"].
Proof. exact (labels_read_back ["Work"; "!!!"; "work"; "Travel 2026"]). Defined.

Lemma label_diff_applies_witness :
  let after := (({[ "label-work"; "label-old"; "Seen" ]} : gset string) ∪
                list_to_set (fst (label_diff ["work"; "old"] ["travel"; "work"]))) ∖
               list_to_set (snd (label_diff ["work"; "old"] ["travel"; "work"])) in
  (forall l, label_keyword l ∈ after <-> l ∈ ["travel"; "work"]) /\
  (forall k, (forall l, k <> label_keyword l) ->
     (k ∈ after <-> k ∈ ({[ "label-work"; "label-old"; "Seen" ]} : gset string))).
Proof.
  apply (label_diff_applies {[ "label-work"; "label-old"; "Seen" ]} ["work"; "old"] ["travel"; "work"]).
  intros l. rewrite !elem_of_union, !elem_of_singleton, !elem_of_cons. split.
  - intros [[Hl|Hl]|Hl]; [| |by cbn in Hl].
    + apply (app_inj_l_s KEYWORD_PREFIX l "work") in Hl. auto.
    + apply (app_inj_l_s KEYWORD_PREFIX l "old") in Hl. auto.
  - intros [->|[->|[]%elem_of_nil]]; auto.
Defined.
