(* ===== verification/Netsec.v ===== *)
(** * Network guards ([netsec.rs])

    Addresses are octets and 16-bit segments; the classification methods of
    [std::net] are written out.  URL parsing (the [url] crate) and the text form of
    IPv6 addresses are the class [UrlLib]. *)
From S2P Require Import Prelude.
Local Open Scope string_scope.
Local Open Scope Z_scope.

Inductive IpAddr :=
  | V4 (a b c d : Z)
  | V6 (s0 s1 s2 s3 s4 s5 s6 s7 : Z).

(** [url::Url]: what is read of it. *)
Record Url := mkUrl { url_scheme : string; url_host : option string; url_port : option Z }.

Class UrlLib := {
  url_parse : string -> result string Url;
  parse_ipv6 : string -> option IpAddr;
}.

(** ** Domain names *)

(** [Ipv4Addr::from_str]: four decimal octets without leading zeros. *)
Definition parse_octet (s : string) : option Z :=
  if (String.length s <=? 3)%nat && (negb (starts_with "0" s) || String.eqb s "0")
  then bounded 0 255 (parse_digits s) else None.
Definition parse_ipv4 (s : string) : option IpAddr :=
  match map parse_octet (split_char "." s) with
  | [Some a; Some b; Some c; Some d] => Some (V4 a b c d)
  | _ => None
  end.
Definition parse_ip `{UrlLib} (s : string) : option IpAddr :=
  match parse_ipv4 s with Some ip => Some ip | None => parse_ipv6 s end.

Definition is_dot (a : ascii) : bool := Ascii.eqb a ".".
Definition dns_byte (a : ascii) : bool := is_alnum a || Ascii.eqb a "-".
Fixpoint check_labels (domain : string) (labels : list string) : result string unit :=
  match labels with
  | [] => Ok tt
  | label :: rest =>
      if is_empty label then Err ("domain '" +:+ domain +:+ "' contains an empty label")
      else if (63 <? String.length label)%nat then Err ("domain '" +:+ domain +:+ "' has a label over 63 bytes")
      else if starts_with "-" label || ends_with "-" label
      then Err ("domain '" +:+ domain +:+ "' has a label starting/ending with '-'")
      else if negb (sforall dns_byte label) then Err ("domain '" +:+ domain +:+ "' contains non-DNS characters")
      else check_labels domain rest
  end.
Definition validate_domain `{UrlLib} (domain : string) : result string string :=
  let d := to_ascii_lowercase (drop_while_end is_dot (trim domain)) in
  if is_empty d then Err "domain is empty"
  else if (253 <? String.length d)%nat then Err ("domain '" +:+ domain +:+ "' is too long")
  else if bool_decide (is_Some (parse_ip d)) || contains_char ":" d || contains_char "[" d || contains_char "]" d
  then Err ("domain '" +:+ domain +:+ "' is an IP literal, not a DNS name")
  else let? _ := check_labels domain (split_char "." d) in Ok d.

(** ** Addresses *)

Definition is_blocked_v4 (a b c d : Z) : bool :=
  (a =? 127)                                                       (* is_loopback *)
  || ((a =? 10) || ((a =? 172) && (16 <=? b) && (b <=? 31)) || ((a =? 192) && (b =? 168)))   (* is_private *)
  || ((a =? 169) && (b =? 254))                                    (* is_link_local *)
  || ((a =? 0) && (b =? 0) && (c =? 0) && (d =? 0))                (* is_unspecified *)
  || (a =? 0)
  || ((a =? 255) && (b =? 255) && (c =? 255) && (d =? 255))        (* is_broadcast *)
  || ((a =? 100) && (64 <=? b) && (b <=? 127))
  || (((a =? 192) && (b =? 0) && (c =? 2)) || ((a =? 198) && (b =? 51) && (c =? 100))
      || ((a =? 203) && (b =? 0) && (c =? 113)))                   (* is_documentation *)
  || ((a =? 198) && (Z.land b 254 =? 18))
  || (240 <=? a)
  || ((224 <=? a) && (a <=? 239)).                                 (* is_multicast *)

(** [Ipv6Addr::to_ipv4_mapped] and [to_ipv4]: [::ffff:a.b.c.d] and also [::a.b.c.d]. *)
Definition hi (s : Z) : Z := Z.shiftr s 8.
Definition lo (s : Z) : Z := Z.land s 255.
Definition to_ipv4 (s0 s1 s2 s3 s4 s5 s6 s7 : Z) : option (Z * Z * Z * Z) :=
  if (s0 =? 0) && (s1 =? 0) && (s2 =? 0) && (s3 =? 0) && (s4 =? 0) && ((s5 =? 0) || (s5 =? 65535))
  then Some (hi s6, lo s6, hi s7, lo s7) else None.
Definition to_ipv4_mapped (s0 s1 s2 s3 s4 s5 s6 s7 : Z) : option (Z * Z * Z * Z) :=
  if (s0 =? 0) && (s1 =? 0) && (s2 =? 0) && (s3 =? 0) && (s4 =? 0) && (s5 =? 65535)
  then Some (hi s6, lo s6, hi s7, lo s7) else None.

Definition u16_not (s : Z) : Z := 65535 - s.
Definition is_blocked_addr (ip : IpAddr) : bool :=
  match ip with
  | V4 a b c d => is_blocked_v4 a b c d
  | V6 s0 s1 s2 s3 s4 s5 s6 s7 =>
      match (match to_ipv4_mapped s0 s1 s2 s3 s4 s5 s6 s7 with
             | Some v => Some v | None => to_ipv4 s0 s1 s2 s3 s4 s5 s6 s7 end) with
      | Some (a, b, c, d) => is_blocked_v4 a b c d
      | None =>
          if s0 =? 8194 (* 0x2002 *) then is_blocked_v4 (hi s1) (lo s1) (hi s2) (lo s2)
          else if (s0 =? 8193) && (s1 =? 0) (* 0x2001 *)
          then is_blocked_v4 (hi (u16_not s6)) (lo (u16_not s6)) (hi (u16_not s7)) (lo (u16_not s7))
          else
            ((s0 =? 0) && (s1 =? 0) && (s2 =? 0) && (s3 =? 0) && (s4 =? 0) && (s5 =? 0) && (s6 =? 0) && (s7 =? 1))
            || ((s0 =? 0) && (s1 =? 0) && (s2 =? 0) && (s3 =? 0) && (s4 =? 0) && (s5 =? 0) && (s6 =? 0) && (s7 =? 0))
            || (hi s0 =? 255)                           (* is_multicast *)
            || (Z.land s0 65024 =? 64512)               (* is_unique_local: & 0xfe00 = 0xfc00 *)
            || (Z.land s0 65472 =? 65152)               (* is_unicast_link_local: & 0xffc0 = 0xfe80 *)
            || ((s0 =? 8193) && (s1 =? 3512))           (* 2001:db8 *)
            || ((s0 =? 100) && (s1 =? 65435) && (s2 =? 1))   (* 64:ff9b:1 *)
      end
  end.

Definition filter_public_addrs (addrs : list IpAddr) : list IpAddr :=
  List.filter (fun a => negb (is_blocked_addr a)) addrs.

(** ** Security modes and server URLs *)

Definition normalize_security_mode (value : string) : result string string :=
  let v := to_ascii_lowercase value in
  if String.eqb v "tls" then Ok "tls"
  else if String.eqb v "starttls" then Ok "starttls"
  else Err ("unsupported security mode '" +:+ v +:+ "': only 'tls' and 'starttls' are supported " +:+
            "(insecure plaintext mode was removed); update the account to fix this").

Definition is_bracket (a : ascii) : bool := Ascii.eqb a "[" || Ascii.eqb a "]".
Definition host_is_local `{UrlLib} (host : string) : bool :=
  let bare := drop_while_end is_bracket (drop_while is_bracket host) in
  if eq_ignore_ascii_case bare "localhost" || ends_with ".localhost" (to_ascii_lowercase bare) then true
  else match parse_ip bare with Some ip => is_blocked_addr ip | None => false end.

Definition validate_server_url `{UrlLib} (url : string) : result string unit :=
  let? parsed := rmap_err (fun e => "invalid server URL '" +:+ url +:+ "': " +:+ e) (url_parse url) in
  let scheme := url_scheme parsed in
  if negb (String.eqb scheme "http") && negb (String.eqb scheme "https")
  then Err ("server URL '" +:+ url +:+ "' uses unsupported scheme '" +:+ scheme +:+ "': use https://") else
  let? host := ok_or ("server URL '" +:+ url +:+ "' has no host") (url_host parsed) in
  if String.eqb scheme "http" && negb (host_is_local host)
  then Err ("server URL '" +:+ url +:+ "' uses insecure http:// for a public host: use https://")
  else Ok tt.

Definition origin_of `{UrlLib} (url : string) : result string string :=
  let? parsed := rmap_err (fun e => "invalid URL '" +:+ url +:+ "': " +:+ e) (url_parse url) in
  let scheme := url_scheme parsed in
  if negb (String.eqb scheme "http") && negb (String.eqb scheme "https")
  then Err ("URL '" +:+ url +:+ "' uses unsupported scheme '" +:+ scheme +:+ "'") else
  let? host := ok_or ("URL '" +:+ url +:+ "' has no host") (url_host parsed) in
  let? port := ok_or ("URL '" +:+ url +:+ "' has no usable port") (url_port parsed) in
  Ok (scheme +:+ "://" +:+ host +:+ ":" +:+ show_Z port).

(** ** Reference: the address blocks *)

Definition addr32 (a b c d : Z) : Z := ((a * 256 + b) * 256 + c) * 256 + d.
(** Base address and prefix length, as registered. *)
Definition blocked_v4 : list (Z * Z) :=
  [(addr32 0 0 0 0, 8); (addr32 10 0 0 0, 8); (addr32 100 64 0 0, 10); (addr32 127 0 0 0, 8);
   (addr32 169 254 0 0, 16); (addr32 172 16 0 0, 12); (addr32 192 0 2 0, 24); (addr32 192 168 0 0, 16);
   (addr32 198 18 0 0, 15); (addr32 198 51 100 0, 24); (addr32 203 0 113 0, 24); (addr32 224 0 0 0, 4);
   (addr32 240 0 0 0, 4)].
Definition in_block (ip : Z) (block : Z * Z) : bool :=
  let '(base, len) := block in Z.shiftr ip (32 - len) =? Z.shiftr base (32 - len).
Definition octet (z : Z) : Prop := 0 <= z < 256.
Definition seg16 (z : Z) : Prop := 0 <= z < 65536.

Lemma octet_all (p : Z -> bool) :
  forallb p (Z.of_nat <$> seq 0 256) = true -> forall z, octet z -> p z = true.
Proof.
  intros Hall z Hz. rewrite forallb_forall in Hall. apply Hall, list_elem_of_In, list_elem_of_fmap.
  exists (Z.to_nat z). unfold octet in Hz. split; [lia|]. apply list_elem_of_In, in_seq. lia.
Qed.
Lemma benchmark_block b : octet b -> (Z.land b 254 =? 18) = (18 <=? b) && (b <=? 19).
Proof.
  intros Hb. apply eqb_prop.
  apply (octet_all (fun b => eqb (Z.land b 254 =? 18) ((18 <=? b) && (b <=? 19)))); [by vm_compute|done].
Qed.

Lemma in_block_range a b c d base len : octet a -> octet b -> octet c -> octet d -> 0 <= len <= 32 ->
  in_block (addr32 a b c d) (base, len) =
  (base / 2 ^ (32 - len) * 2 ^ (32 - len) <=? addr32 a b c d) &&
  (addr32 a b c d <? (base / 2 ^ (32 - len) + 1) * 2 ^ (32 - len)).
Proof.
  intros. unfold in_block. rewrite !Z.shiftr_div_pow2 by lia.
  set (x := addr32 a b c d). assert (Hp : 0 < 2 ^ (32 - len)) by (apply Z.pow_pos_nonneg; lia).
  set (q := 2 ^ (32 - len)) in *. apply eq_iff_eq_true. rewrite andb_true_iff, Z.eqb_eq, Z.leb_le, Z.ltb_lt.
  pose proof (Z.div_mod x q ltac:(lia)). pose proof (Z.mod_pos_bound x q Hp). split; [intros <-; nia|].
  intros [Hl Hu]. symmetry. apply (Z.div_unique_pos x q _ (x - base / q * q)); nia.
Qed.

Ltac block_lia :=
  intros; rewrite in_block_range by (done || lia);
  repeat match goal with |- context [?u / ?v] =>
    let r := eval vm_compute in (u / v) in change (u / v) with r end;
  repeat match goal with |- context [2 ^ ?v] =>
    let r := eval vm_compute in (2 ^ v) in change (2 ^ v) with r end;
  unfold addr32, octet in *; apply eq_iff_eq_true;
  rewrite ?andb_true_iff, ?Z.eqb_eq, ?Z.leb_le, ?Z.ltb_lt; lia.

Section Blocks.
Context (a b c d : Z) (Ha : octet a) (Hb : octet b) (Hc : octet c) (Hd : octet d).
Local Abbreviation within A len := (in_block (addr32 a b c d) (A, len)).
Lemma block_8 A : octet A -> within (addr32 A 0 0 0) 8 = (a =? A).
Proof using Ha Hb Hc Hd.
  intros. rewrite in_block_range by (done || lia). change (2 ^ (32 - 8)) with 16777216. 
  replace (addr32 A 0 0 0) with (A * 16777216) by (unfold addr32; lia).
  rewrite Z.div_mul by done. unfold addr32, octet in *.
  apply eq_iff_eq_true. rewrite andb_true_iff, Z.eqb_eq, Z.leb_le, Z.ltb_lt. lia.
Qed.
Lemma block_16 A B : octet A -> octet B -> within (addr32 A B 0 0) 16 = (a =? A) && (b =? B).
Proof using Ha Hb Hc Hd.
  intros. rewrite in_block_range by (done || lia). change (2 ^ (32 - 16)) with 65536. 
  replace (addr32 A B 0 0) with ((A * 256 + B) * 65536) by (unfold addr32; lia).
  rewrite Z.div_mul by done. unfold addr32, octet in *.
  apply eq_iff_eq_true. rewrite !andb_true_iff, !Z.eqb_eq, Z.leb_le, Z.ltb_lt. lia.
Qed.
Lemma block_24 A B C : octet A -> octet B -> octet C ->
  within (addr32 A B C 0) 24 = (a =? A) && (b =? B) && (c =? C).
Proof using Ha Hb Hc Hd.
  intros. rewrite in_block_range by (done || lia). change (2 ^ (32 - 24)) with 256. 
  replace (addr32 A B C 0) with (((A * 256 + B) * 256 + C) * 256) by (unfold addr32; lia).
  rewrite Z.div_mul by done. unfold addr32, octet in *.
  apply eq_iff_eq_true. rewrite !andb_true_iff, !Z.eqb_eq, Z.leb_le, Z.ltb_lt. lia.
Qed.
Lemma block_cgnat : within (addr32 100 64 0 0) 10 = (a =? 100) && (64 <=? b) && (b <=? 127).
Proof using Ha Hb Hc Hd. block_lia. Qed.
Lemma block_172 : within (addr32 172 16 0 0) 12 = (a =? 172) && (16 <=? b) && (b <=? 31).
Proof using Ha Hb Hc Hd. block_lia. Qed.
Lemma block_198 : within (addr32 198 18 0 0) 15 = (a =? 198) && ((18 <=? b) && (b <=? 19)).
Proof using Ha Hb Hc Hd. block_lia. Qed.
Lemma block_224 : within (addr32 224 0 0 0) 4 = (224 <=? a) && (a <=? 239).
Proof using Ha Hb Hc Hd. block_lia. Qed.
Lemma block_240 : within (addr32 240 0 0 0) 4 = (240 <=? a).
Proof using Ha Hb Hc Hd. block_lia. Qed.

Lemma blocked_v4_blocks : is_blocked_v4 a b c d = existsb (in_block (addr32 a b c d)) blocked_v4.
Proof using Ha Hb Hc Hd.
  unfold blocked_v4. cbn [existsb].
  rewrite !block_8, !block_16, !block_24, block_cgnat, block_172, block_198, block_224, block_240
    by (unfold octet; lia).
  rewrite orb_false_r. unfold is_blocked_v4. rewrite benchmark_block by done. apply eq_iff_eq_true.
  rewrite ?orb_true_iff, ?andb_true_iff, ?Z.eqb_eq, ?Z.leb_le.
  assert (a = 255 -> 240 <= a) by lia.
  assert (240 <= a -> a < 256) by (unfold octet in Ha; lia). tauto.
Qed.
End Blocks.

(** No internal address is taken for a public one.  An IPv4 address is blocked
    exactly when it lies in one of the thirteen registered non-public blocks. *)
Theorem blocked_exactly_the_blocks (a b c d : Z) : octet a -> octet b -> octet c -> octet d ->
  is_blocked_addr (V4 a b c d) = existsb (in_block (addr32 a b c d)) blocked_v4.
Proof. apply blocked_v4_blocks. Qed.

Lemma hi_lo a b : octet a -> octet b -> hi (a * 256 + b) = a /\ lo (a * 256 + b) = b.
Proof.
  unfold octet, hi, lo. intros Ha Hb. split.
  - rewrite Z.shiftr_div_pow2 by lia. change (2 ^ 8) with 256. Z.to_euclidean_division_equations. lia.
  - change 255 with (Z.ones 8). rewrite Z.land_ones by lia. change (2 ^ 8) with 256.
    Z.to_euclidean_division_equations. lia.
Qed.

(** An internal IPv4 address cannot be smuggled through IPv6.  Mapped (::ffff:a.b.c.d),
    compatible (::a.b.c.d), 6to4 and Teredo addresses are blocked exactly when the IPv4
    address they carry is. *)
Theorem embedded_v4_not_smuggled (a b c d x y z u v : Z) : octet a -> octet b -> octet c -> octet d ->
  let blocked := is_blocked_addr (V4 a b c d) in
  is_blocked_addr (V6 0 0 0 0 0 65535 (a * 256 + b) (c * 256 + d)) = blocked /\
  is_blocked_addr (V6 0 0 0 0 0 0 (a * 256 + b) (c * 256 + d)) = blocked /\
  is_blocked_addr (V6 8194 (a * 256 + b) (c * 256 + d) x y z u v) = blocked /\
  is_blocked_addr (V6 8193 0 x y z u (u16_not (a * 256 + b)) (u16_not (c * 256 + d))) = blocked.
Proof.
  intros Ha Hb Hc Hd. destruct (hi_lo a b Ha Hb) as [H1 H2], (hi_lo c d Hc Hd) as [H3 H4].
  cbn -[hi lo u16_not is_blocked_v4]. rewrite H1, H2, H3, H4. split; [done|]. split; [done|]. split; [done|].
  unfold u16_not. replace (65535 - (65535 - (a * 256 + b))) with (a * 256 + b) by lia.
  replace (65535 - (65535 - (c * 256 + d))) with (c * 256 + d) by lia. by rewrite H1, H2, H3, H4.
Qed.

(** ** Domain names *)

Definition label_ok (label : string) : Prop :=
  label <> "" /\ (String.length label <= 63)%nat /\ starts_with "-" label = false /\ ends_with "-" label = false /\
  sforall dns_byte label = true.
Record domain_ok `{UrlLib} (d : string) : Prop := {
  dom_length : (String.length d <= 253)%nat;
  dom_lower : to_ascii_lowercase d = d;
  dom_labels : Forall label_ok (split_char "." d);
  dom_name : parse_ip d = None;
}.

Lemma check_labels_ok domain labels : check_labels domain labels = Ok tt <-> Forall label_ok labels.
Proof.
  induction labels as [|l labels IH]; [by split|]. cbn [check_labels]. rewrite Forall_cons, <- IH.
  unfold label_ok, is_empty.
  destruct (String.eqb_spec l "") as [->|Hne]; [by split; [|intros [[? _] _]]|].
  destruct (Nat.ltb_spec 63 (String.length l)) as [Hl|Hl]; [split; [done|intros [(_ & ? & _) _]; lia]|].
  destruct (starts_with "-" l) eqn:Hs; [by split; [|intros [(_ & _ & ? & _) _]]|].
  destruct (ends_with "-" l) eqn:He; [by split; [|intros [(_ & _ & _ & ? & _) _]]|]. cbn [orb].
  destruct (sforall dns_byte l) eqn:Hd; cbn [negb]; [|by split; [|intros [(_ & _ & _ & _ & ?) _]]].
  split; [|by intros [_ ?]]. intros Hc. by split_and!.
Qed.

Lemma lower_idem s : to_ascii_lowercase (to_ascii_lowercase s) = to_ascii_lowercase s.
Proof.
  induction s as [|a s IH]; [done|]. unfold to_ascii_lowercase in *. cbn [smap]. rewrite IH. f_equal.
  unfold ascii_lower at 1. destruct (is_upper (ascii_lower a)) eqn:Hu; [|done].
  exfalso. revert Hu. clear. by destruct a as [[] [] [] [] [] [] [] []].
Qed.

Lemma split_all (p : ascii -> bool) c s : Forall (fun l => sforall p l = true) (split_char c s) ->
  sforall (fun a => p a || Ascii.eqb a c) s = true.
Proof.
  induction s as [|a s IH]; [done|]. cbn [split_char sforall]. destruct (Ascii.eqb a c) eqn:Ha.
  - rewrite Forall_cons. intros [_ Hs]. rewrite orb_true_r. by apply IH.
  - destruct (split_char c s) as [|h t] eqn:Hsp; [by apply split_char_nonempty in Hsp|].
    rewrite !Forall_cons. cbn [sforall]. intros [[Hpa Hh]%andb_prop Ht]. rewrite Hpa. cbn. apply IH.
    by constructor.
Qed.
Lemma dns_plain a : dns_byte a || Ascii.eqb a "." = true -> plain a = true.
Proof. by destruct a as [[] [] [] [] [] [] [] []]. Qed.
Lemma dns_not a c : dns_byte a || Ascii.eqb a "." = true -> dns_byte c || Ascii.eqb c "." = false -> Ascii.eqb c a = false.
Proof. intros Ha Hc. by destruct (Ascii.eqb_spec c a) as [->|]; [congruence|]. Qed.

Lemma last_dot s : List.last (split_char "." s) "x" <> "" -> drop_while_end is_dot s = s.
Proof.
  intros Hl. unfold drop_while_end. rewrite <- (string_rev_involutive s) at 2. f_equal.
  destruct (string_rev s) as [|a r] eqn:Hr; [done|]. cbn [drop_while]. unfold is_dot.
  destruct (Ascii.eqb_spec a ".") as [->|]; [|done]. exfalso. apply Hl.
  rewrite <- (string_rev_involutive s), Hr, string_rev_cons. by apply (split_char_last_app "." (string_rev r) "").
Qed.

Lemma domain_fixed `{UrlLib} d : domain_ok d -> validate_domain d = Ok d.
Proof.
  intros [Hlen Hlow Hlab Hip]. unfold validate_domain.
  assert (Hall : sforall (fun a => dns_byte a || Ascii.eqb a ".") d = true).
  { apply split_all. eapply Forall_impl; [exact Hlab|]. intros l (_ & _ & _ & _ & ?). done. }
  assert (Hno : forall c, dns_byte c || Ascii.eqb c "." = false -> contains_char c d = false).
  { intros c Hc. unfold contains_char, sexists. apply negb_false_iff.
    eapply sforall_impl; [|exact Hall]. intros a Ha. cbn in Ha. by rewrite (dns_not a c). }
  rewrite trim_plain by (eapply sforall_impl; [exact dns_plain|exact Hall]).
  rewrite last_dot, Hlow.
  - destruct d as [|x d]; [by inversion Hlab as [|? ? (? & _)]|]. cbn [is_empty]. unfold is_empty. cbn [String.eqb].
    destruct (Nat.ltb_spec 253 (String.length (String x d))) as [Hl|_]; [lia|].
    rewrite Hip, !Hno by done. cbn [orb]. rewrite bool_decide_false by (by intros [? ?]).
    by rewrite (proj2 (check_labels_ok _ _) Hlab).
  - destruct (split_char "." d) as [|h t] eqn:Hs; [by apply split_char_nonempty in Hs|].
    assert (Hin : In (List.last (h :: t) "x") (h :: t)).
    { clear. revert h. induction t as [|y t IH]; intros h; [by left|]. right. apply IH. }
    apply list_elem_of_In in Hin. apply (proj1 (Forall_forall _ _) Hlab) in Hin as (? & _). done.
Qed.

(** C17: a validated domain is a DNS name in normal form.  What [validate_domain] answers
    is lowercase, at most 253 bytes, made of labels of 1 to 63 letters, digits and inner
    dashes, is not an address, and is accepted again unchanged; and every such name is
    accepted. *)
Theorem validated_domain_is_normal `{UrlLib} (raw d : string) :
  (validate_domain raw = Ok d -> domain_ok d) /\ (domain_ok d -> validate_domain d = Ok d).
Proof.
  split; [|apply domain_fixed]. unfold validate_domain.
  set (e := to_ascii_lowercase _). destruct (is_empty e); [done|].
  destruct (Nat.ltb_spec 253 (String.length e)) as [|Hl]; [done|].
  case_bool_decide as Hip; [done|]. cbn [orb]. destruct (_ || _); [done|].
  destruct (check_labels raw (split_char "." e)) as [[]|] eqn:Hc; [|done]. intros [= <-].
  split; [done|apply lower_idem|by apply check_labels_ok in Hc|]. destruct (parse_ip e); [|done]. by destruct Hip.
Qed.

(** Credentials are configured for encrypted or local servers only.  A server URL
    is accepted exactly when it parses, has a host, and is https, or http to localhost or
    to an address that is not public. *)
Theorem server_url_is_safe `{UrlLib} (url : string) :
  validate_server_url url = Ok tt <->
  exists parsed host, url_parse url = Ok parsed /\ url_host parsed = Some host /\
    (url_scheme parsed = "https" \/ (url_scheme parsed = "http" /\ host_is_local host = true)).
Proof.
  unfold validate_server_url. destruct (url_parse url) as [[scheme host port]|e] eqn:Hp; cbn -[String.eqb].
  2: { split; [done|]. by intros (? & ? & [= ] & _). }
  assert (Hiff : forall P : Prop, P <-> (exists host', host = Some host' /\
      (scheme = "https" \/ (scheme = "http" /\ host_is_local host' = true))) ->
    P <-> (exists parsed host', @Ok string _ (mkUrl scheme host port) = Ok parsed /\ url_host parsed = Some host' /\
      (url_scheme parsed = "https" \/ (url_scheme parsed = "http" /\ host_is_local host' = true)))).
  { intros P ->. split.
    - intros (h & Hh & Hs). by exists (mkUrl scheme host port), h.
    - intros (p & h & [= <-] & Hh & Hs). by exists h. }
  apply Hiff. clear Hiff Hp. destruct host as [h|]; [|destruct (negb _ && _); by split; [|intros (? & ? & _)]].
  cbn -[String.eqb]. destruct (String.eqb_spec scheme "http") as [Hh|Hh], (String.eqb_spec scheme "https") as [Hs|Hs];
    cbn.
  - congruence.
  - destruct (host_is_local h) eqn:Hl; cbn.
    + split; [intros _|done]. exists h. auto.
    + split; [done|]. intros (? & [= <-] & [?|[_ ?]]); congruence.
  - split; [intros _|done]. exists h. auto.
  - split; [done|]. by intros (? & _ & [?|[? _]]).
Qed.

(** ** Witnesses *)

(** URLs [scheme:host] with a default port. *)
#[export] Instance toy_urls : UrlLib := {
  url_parse s :=
    match split_once ":" s with
    | Some (scheme, host) => Ok (mkUrl scheme (if is_empty host then None else Some host) (Some 443))
    | None => Err "relative URL without a base"
    end;
  parse_ipv6 s := if String.eqb s "::1" then Some (V6 0 0 0 0 0 0 0 1) else None;
}.

Lemma blocked_exactly_the_blocks_witness :
  is_blocked_addr (V4 198 19 7 1) = existsb (in_block (addr32 198 19 7 1)) blocked_v4 /\
  is_blocked_addr (V4 198 19 7 1) = true.
Proof. split; [apply (blocked_exactly_the_blocks 198 19 7 1); unfold octet; lia|reflexivity]. Defined.

Lemma embedded_v4_not_smuggled_witness :
  is_blocked_addr (V4 10 0 0 5) = true /\
  let blocked := is_blocked_addr (V4 10 0 0 5) in
  is_blocked_addr (V6 0 0 0 0 0 65535 (10 * 256 + 0) (0 * 256 + 5)) = blocked /\
  is_blocked_addr (V6 0 0 0 0 0 0 (10 * 256 + 0) (0 * 256 + 5)) = blocked /\
  is_blocked_addr (V6 8194 (10 * 256 + 0) (0 * 256 + 5) 1 2 3 4 5) = blocked /\
  is_blocked_addr (V6 8193 0 1 2 3 4 (u16_not (10 * 256 + 0)) (u16_not (0 * 256 + 5))) = blocked.
Proof. split; [reflexivity|]. apply (embedded_v4_not_smuggled 10 0 0 5 1 2 3 4 5); unfold octet; lia. Defined.

Lemma validated_domain_is_normal_witness :
  domain_ok "imap.example.org" /\ validate_domain "imap.example.org" = Ok "imap.example.org".
Proof.
  assert (Hd : domain_ok "imap.example.org").
  { apply (validated_domain_is_normal " IMAP.Example.org. "). reflexivity. }
  split; [exact Hd|]. apply (validated_domain_is_normal "" "imap.example.org"), Hd.
Defined.

Lemma server_url_is_safe_witness :
  validate_server_url "http:127.0.0.1" = Ok tt /\ validate_server_url "http:example.org" <> Ok tt /\
  exists parsed host, url_parse "http:127.0.0.1" = Ok parsed /\ url_host parsed = Some host /\
    (url_scheme parsed = "https" \/ (url_scheme parsed = "http" /\ host_is_local host = true)).
Proof. split; [reflexivity|]. split; [discriminate|]. apply server_url_is_safe. reflexivity. Defined.
