(* ===== verification/MailStore.v ===== *)
(** * Mail storage ([sync/store.rs])

    The tables [folder], [message] and [sync_cursor] as lists of rows (the columns
    the sync engine reads or writes, SQLite dialect) and one definition per store
    function.  A statement may fail at any point: [ml_fuse] counts the statements
    left before the database goes down.  A transaction that fails leaves the tables
    as they were. *)
From S2P Require Import Prelude Labels Jobs.
Local Open Scope string_scope.
Local Open Scope Z_scope.

Record FolderRow := mkFolder {
  f_id : string; f_account : string; f_external : string; f_name : string; f_parent : option string;
  f_role : option string; f_role_override : option string; f_sort : Z; f_total : Z; f_unread : Z;
  f_created_at : string; f_updated_at : string }.

Record MessageRow := mkMessage {
  m_id : string; m_account : string; m_folder : string; m_external : option string;
  m_message_id : option string; m_subject : option string; m_from : option string;
  m_to : option string; m_cc : option string; m_date : option string;
  m_read : bool; m_starred : bool; m_deleted : bool; m_flags : option string; m_labels : option string;
  m_size : option Z; m_in_reply_to : option string; m_references : option string;
  m_mailer : option string; m_snippet : option string; m_has_attachments : bool;
  m_body_text : option string; m_body_html : option string; m_jmap_thread : option string;
  m_snoozed_until : option string; m_raw_blob : option string; m_updated_at : string }.

Record CursorRow := mkCursor {
  cu_id : string; cu_account : string; cu_folder : string; cu_protocol : string;
  cu_type : string; cu_value : string; cu_updated_at : string }.

Record mail := mkMail {
  ml_now : Z;
  ml_folders : list FolderRow;
  ml_messages : list MessageRow;
  ml_cursors : list CursorRow;
  ml_seq : N;                            (* UUIDs drawn so far *)
  ml_fuse : option nat;                  (* statements left before the database fails *)
}.

(** [imap::ImapMessage], without the parts the store ignores. *)
Record ImapMessage := mkImap {
  im_uid : Z; im_message_id : option string; im_subject : option string; im_from : option string;
  im_to : option string; im_cc : option string; im_date : option string; im_in_reply_to : option string;
  im_references : option string; im_mailer : option string; im_flags : list string; im_size : option Z;
  im_body_text : option string; im_body_html : option string; im_has_attachments : bool }.

(** [jmap_client::JmapMailbox], [JmapEmailAddress] and [JmapEmail]: the fields read here. *)
Record JmapMailbox := mkMailbox {
  jm_id : string; jm_name : string; jm_role : option string; jm_parent_id : option string }.
Record JmapEmailAddress := mkAddress { ja_name : option string; ja_email : option string }.
Record JmapAttachmentMeta := mkAttMeta {
  at_blob_id : string; at_filename : string; at_content_type : string; at_size : Z;
  at_content_id : option string; at_is_inline : bool }.
Record JmapEmail := mkEmail {
  je_id : string; je_thread_id : option string; je_mailbox_ids : option Json; je_keywords : option Json; je_size : option Z;
  je_received_at : option string; je_message_id : option (list string);
  je_in_reply_to : option (list string); je_references : option (list string);
  je_from : option (list JmapEmailAddress); je_to : option (list JmapEmailAddress);
  je_cc : option (list JmapEmailAddress); je_subject : option string; je_mailer : option string;
  je_body_values : option (list (string * Json)); je_text_body : option (list Json);
  je_html_body : option (list Json); je_has_attachment : option bool; je_preview : option string;
  je_attachments_meta : list JmapAttachmentMeta }.

Class StoreLib := {
  store_uuid : N -> string;                     (* the n-th UUIDv7 drawn *)
  sql_now : Z -> string;                        (* [CURRENT_TIMESTAMP] *)
  ingest_date : string -> option string;        (* [parse_ts] and the SQLite format *)
  sanitize_email_html : string -> string;       (* [ammonia] *)
  decode_utf7_imap : string -> string;          (* [utf7_imap] *)
  to_lowercase : string -> string;              (* [str::to_lowercase] *)
  alphanumeric : string -> string;              (* the characters that are [is_alphanumeric] *)
}.

Section Setters.
Implicit Types w : mail.
Definition set_folders l w := mkMail (ml_now w) l (ml_messages w) (ml_cursors w) (ml_seq w) (ml_fuse w).
Definition set_messages l w := mkMail (ml_now w) (ml_folders w) l (ml_cursors w) (ml_seq w) (ml_fuse w).
Definition set_cursors l w := mkMail (ml_now w) (ml_folders w) (ml_messages w) l (ml_seq w) (ml_fuse w).
Definition set_seq n w := mkMail (ml_now w) (ml_folders w) (ml_messages w) (ml_cursors w) n (ml_fuse w).
Definition set_fuse n w := mkMail (ml_now w) (ml_folders w) (ml_messages w) (ml_cursors w) (ml_seq w) n.
End Setters.

Local Abbreviation M := (io mail SyncError).

(** One statement. *)
Definition mstmt {A} (f : mail -> A * mail) : M A :=
  fun w =>
    match ml_fuse w with
    | Some O => (Err (Database "closed"), w)
    | fuse => let '(a, w') := f w in (Ok a, set_fuse (option_map pred fuse) w')
    end.

(** [begin], the body, [commit]; on an error the tables roll back. *)
Definition transaction {A} (body : M A) : M A :=
  fun w =>
    match (let! _ := mstmt (fun w => (tt, w)) in let! a := body in
           let! _ := mstmt (fun w => (tt, w)) in ret a) w with
    | (Ok a, w') => (Ok a, w')
    | (Err e, w') => (Err e, set_folders (ml_folders w) (set_messages (ml_messages w)
                               (set_cursors (ml_cursors w) w')))
    end.

Definition new_uuid_text `{StoreLib} {E} : io mail E string :=
  fun w => (Ok (store_uuid (ml_seq w)), set_seq (N.succ (ml_seq w)) w).

(** ** Text helpers *)

(** [s.split_once(p)], [s.rsplit_once(p)] and [s.matches(p).count()] of a nonempty [p]. *)
Fixpoint split_once_str (p s : string) : option (string * string) :=
  match strip_prefix p s with
  | Some r => Some ("", r)
  | None =>
      match s with
      | EmptyString => None
      | String a s' => option_map (fun '(l, r) => (String a l, r)) (split_once_str p s')
      end
  end.
Definition rsplit_once_str (p s : string) : option (string * string) :=
  option_map (fun '(l, r) => (string_rev r, string_rev l)) (split_once_str (string_rev p) (string_rev s)).
Fixpoint count_matches (fuel : nat) (p s : string) : nat :=
  match fuel with
  | O => O
  | S n => match split_once_str p s with Some (_, r) => S (count_matches n p r) | None => O end
  end.
Definition matches (p s : string) : nat := count_matches (String.length s) p s.

Definition nonempty (o : option string) : option string :=
  match o with Some s => if is_empty s then None else Some s | None => None end.

Definition truncate_for_snippet (s : string) : string :=
  if (char_count s <=? 120)%nat then s else take_chars 117 s +:+ "...".

Definition split_imap_folder_path (wire_name : string) (delimiter : option string) : option string * string :=
  match nonempty delimiter with
  | None => (None, wire_name)
  | Some delim =>
      match rsplit_once_str delim wire_name with
      | None => (None, wire_name)
      | Some (parent, leaf) => if is_empty parent then (None, leaf) else (Some parent, leaf)
      end
  end.

Definition imap_folder_depth (wire_name : string) (delimiter : option string) : nat :=
  match nonempty delimiter with None => 0 | Some d => matches d wire_name end.

Definition effective_folder_role (role role_override : option string) : option string :=
  match nonempty role_override with Some r => Some r | None => role end.

Definition first_of {A B} (f : A -> option B) (l : list A) : option B :=
  match omap f l with b :: _ => Some b | [] => None end.

Section MailStore.
Context `{StoreLib} `{JsonLib}.

Definition decode_imap_mailbox_name (encoded : string) : string :=
  if contains_char "&" encoded then decode_utf7_imap encoded else encoded.
Definition imap_folder_display_name (wire_name : string) (delimiter : option string) : string :=
  decode_imap_mailbox_name (snd (split_imap_folder_path wire_name delimiter)).

Definition special_suffixes : list (string * string) :=
  [("archive", "archive"); ("all", "archive"); ("drafts", "drafts"); ("junk", "spam"); ("sent", "sent");
   ("trash", "trash")].
Definition special_use_role (attributes : list string) : option string :=
  first_of (fun attr =>
    let token := to_lowercase (alphanumeric attr) in
    first_of (fun '(suffix, role) => if ends_with suffix token then Some role else None) special_suffixes)
    attributes.

Definition infer_folder_role (name : string) : option string :=
  let lower := to_lowercase name in
  let any l := existsb (String.eqb lower) l in
  if any ["inbox"] then Some "inbox"
  else if any ["sent"; "sent mail"; "sent messages"] then Some "sent"
  else if any ["drafts"; "draft"] then Some "drafts"
  else if any ["trash"; "deleted"; "deleted messages"] then Some "trash"
  else if any ["spam"; "junk"; "bulk mail"] then Some "spam"
  else if any ["archive"; "all mail"; "all messages"] then Some "archive"
  else None.

(** ** Folders *)

Definition update_folders (p : FolderRow -> bool) (f : FolderRow -> FolderRow) (rows : list FolderRow)
    : list FolderRow := map (fun r => if p r then f r else r) rows.
Definition folder_by_id (id : string) (r : FolderRow) : bool := String.eqb (f_id r) id.
Definition folder_by_external (account_id external_id : string) (r : FolderRow) : bool :=
  String.eqb (f_account r) account_id && String.eqb (f_external r) external_id.

Definition find_folder_id_by_external_id (account_id external_id : string) : M (option string) :=
  mstmt (fun w => (option_map f_id (List.find (folder_by_external account_id external_id) (ml_folders w)), w)).
Definition find_folder_id : string -> string -> M (option string) := find_folder_id_by_external_id.

Definition get_folder_id (account_id name : string) : M string :=
  let! id := find_folder_id_by_external_id account_id name in
  lift (ok_or (Database "RowNotFound") id).

(** The two [UPDATE]s; a role override is kept. *)
Definition refresh_folder (name : string) (role parent : option string) (stamp : string) (r : FolderRow) : FolderRow :=
  mkFolder (f_id r) (f_account r) (f_external r) name parent role (f_role_override r) (f_sort r)
    (f_total r) (f_unread r) (f_created_at r) stamp.
Definition set_parent (parent : option string) (stamp : string) (r : FolderRow) : FolderRow :=
  mkFolder (f_id r) (f_account r) (f_external r) (f_name r) parent (f_role r) (f_role_override r) (f_sort r)
    (f_total r) (f_unread r) (f_created_at r) stamp.
Definition set_counts (total unread : Z) (stamp : string) (r : FolderRow) : FolderRow :=
  mkFolder (f_id r) (f_account r) (f_external r) (f_name r) (f_parent r) (f_role r) (f_role_override r)
    (f_sort r) total unread (f_created_at r) stamp.

Definition update_folder (id : string) (f : string -> FolderRow -> FolderRow) : M unit :=
  mstmt (fun w => (tt, set_folders (update_folders (folder_by_id id) (f (sql_now (ml_now w))) (ml_folders w)) w)).
Definition insert_folder (account_id external_id name : string) (role parent : option string) : M unit :=
  let! id := new_uuid_text in
  mstmt (fun w =>
    let now := sql_now (ml_now w) in
    (tt, set_folders (ml_folders w ++
           [mkFolder id account_id external_id name parent role None 0 0 0 now now])%list w)).

Definition upsert_folder (account_id wire_name : string) (delimiter : option string) (attributes : list string)
    : M unit :=
  let display_name := imap_folder_display_name wire_name delimiter in
  let role := match special_use_role attributes with
              | Some r => Some r | None => infer_folder_role display_name end in
  let! parent_id := match fst (split_imap_folder_path wire_name delimiter) with
                    | Some parent_wire => find_folder_id_by_external_id account_id parent_wire
                    | None => ret None
                    end in
  let! existing := find_folder_id_by_external_id account_id wire_name in
  match existing with
  | Some id => update_folder id (refresh_folder display_name role parent_id)
  | None => insert_folder account_id wire_name display_name role parent_id
  end.

Definition upsert_jmap_folder (account_id : string) (mailbox : JmapMailbox) : M unit :=
  let role := match jm_role mailbox with Some r => Some r | None => infer_folder_role (jm_name mailbox) end in
  let! existing := find_folder_id_by_external_id account_id (jm_id mailbox) in
  match existing with
  | Some id => update_folder id (fun stamp r => refresh_folder (jm_name mailbox) role (f_parent r) stamp r)
  | None => insert_folder account_id (jm_id mailbox) (jm_name mailbox) role None
  end.

Definition link_jmap_folder_parent (account_id child_external_id parent_external_id : string) : M unit :=
  let! child_id := get_folder_id account_id child_external_id in
  let! parent_id := get_folder_id account_id parent_external_id in
  update_folder child_id (set_parent (Some parent_id)).

(** [ORDER BY sort_order] and [ORDER BY sort_order, created_at]. *)
Definition folder_id_for_role (account_id role : string) : M (option string) :=
  mstmt (fun w =>
    (option_map f_id (head (order_by (fun a b => f_sort a <=? f_sort b)
      (List.filter (fun r => String.eqb (f_account r) account_id &&
         bool_decide (match f_role_override r with Some x => Some x | None => f_role r end = Some role))
         (ml_folders w)))), w)).
Definition first_folder_id (account_id : string) : M (option string) :=
  mstmt (fun w =>
    (option_map f_id (head (order_by
      (fun a b => (f_sort a <? f_sort b) || ((f_sort a =? f_sort b) && text_le (f_created_at a) (f_created_at b)))
      (List.filter (fun r => String.eqb (f_account r) account_id) (ml_folders w)))), w)).

(** ** Sync cursors *)

Record SyncCursorInfo := mkCursorInfo { ci_uid_validity : Z; ci_last_uid : Z; ci_last_modseq : Z }.

Definition or_zero (o : option Z) : Z := match o with Some z => z | None => 0 end.
Definition parse_cursor_value (value : string) : SyncCursorInfo :=
  match split_char ":" value with
  | [uv; lu; ms] => mkCursorInfo (or_zero (parse_u32 uv)) (or_zero (parse_u32 lu)) (or_zero (parse_u64 ms))
  | [uv; lu] => mkCursorInfo (or_zero (parse_u32 uv)) (or_zero (parse_u32 lu)) 0
  | _ => mkCursorInfo 0 0 0
  end.
Definition format_cursor_value (uid_validity last_uid last_modseq : Z) : string :=
  if 0 <? last_modseq
  then show_Z uid_validity +:+ ":" +:+ show_Z last_uid +:+ ":" +:+ show_Z last_modseq
  else show_Z uid_validity +:+ ":" +:+ show_Z last_uid.

Definition cursor_is (account_id folder_id cursor_type : string) (c : CursorRow) : bool :=
  String.eqb (cu_account c) account_id && String.eqb (cu_folder c) folder_id && String.eqb (cu_type c) cursor_type.
Definition load_cursor_value (account_id folder_id cursor_type : string) : M (option string) :=
  mstmt (fun w => (option_map cu_value (List.find (cursor_is account_id folder_id cursor_type) (ml_cursors w)), w)).
Definition load_cursor (account_id folder_id : string) : M (option SyncCursorInfo) :=
  let! value := load_cursor_value account_id folder_id "uidvalidity_uid" in
  ret (option_map parse_cursor_value value).

(** [INSERT ... ON CONFLICT (account, folder, type) DO UPDATE value, updated_at]. *)
Definition upsert_cursor (row : CursorRow) (rows : list CursorRow) : list CursorRow :=
  let hit := cursor_is (cu_account row) (cu_folder row) (cu_type row) in
  if existsb hit rows
  then map (fun c => if hit c
              then mkCursor (cu_id c) (cu_account c) (cu_folder c) (cu_protocol c) (cu_type c)
                     (cu_value row) (cu_updated_at row)
              else c) rows
  else (rows ++ [row])%list.
Definition write_cursor (account_id folder_id protocol cursor_type cursor_value : string) : M unit :=
  let! id := new_uuid_text in
  mstmt (fun w => (tt, set_cursors (upsert_cursor
    (mkCursor id account_id folder_id protocol cursor_type cursor_value (sql_now (ml_now w))) (ml_cursors w)) w)).
Definition save_cursor_in_tx (account_id folder_id protocol : string) (uid_validity last_uid last_modseq : Z) : M unit :=
  write_cursor account_id folder_id protocol "uidvalidity_uid" (format_cursor_value uid_validity last_uid last_modseq).
Definition save_state_cursor_in_tx (account_id folder_id cursor_type cursor_value : string) : M unit :=
  write_cursor account_id folder_id "jmap" cursor_type cursor_value.
Definition save_jmap_cursor_in_tx (account_id folder_id query_state : string) : M unit :=
  save_state_cursor_in_tx account_id folder_id "state_token" query_state.
Definition save_jmap_email_state (account_id anchor_folder_id state : string) : M unit :=
  transaction (save_state_cursor_in_tx account_id anchor_folder_id "email_state" state).

Definition load_jmap_cursor (account_id folder_id : string) : M (option string) :=
  load_cursor_value account_id folder_id "state_token".
Definition load_jmap_email_state (account_id anchor_folder_id : string) : M (option string) :=
  load_cursor_value account_id anchor_folder_id "email_state".
Definition clear_state_cursor (account_id folder_id cursor_type : string) : M unit :=
  mstmt (fun w => (tt, set_cursors
    (List.filter (fun c => negb (cursor_is account_id folder_id cursor_type c)) (ml_cursors w)) w)).
Definition clear_jmap_cursor (account_id folder_id : string) : M unit :=
  clear_state_cursor account_id folder_id "state_token".
Definition clear_jmap_email_state (account_id anchor_folder_id : string) : M unit :=
  clear_state_cursor account_id anchor_folder_id "email_state".

(** ** Messages *)

Definition imap_message_external_id (folder_id : string) (uid : Z) : string := folder_id +:+ ":" +:+ show_Z uid.
Definition parse_imap_uid (external_id : option string) : result SyncError Z :=
  match external_id with
  | None => Err (InvalidInput "message has no IMAP UID")
  | Some raw => ok_or (InvalidInput "message has no IMAP UID") (parse_u32 (rsplit_next ":" raw))
  end.

(** [LIKE '%=?%?=%'] and [LIKE '%U+FFFD%']. *)
Definition like_encoded_word (s : string) : bool :=
  match split_once_str "=?" s with Some (_, r) => contains_str "?=" r | None => false end.
Definition mojibake (o : option string) : bool :=
  match o with Some s => contains_str replacement s | None => false end.
Definition stale_text (o : option string) : bool :=
  match o with None => true | Some s => is_empty s || like_encoded_word s || contains_str replacement s end.

Definition message_is (account_id external_id : string) (m : MessageRow) : bool :=
  String.eqb (m_account m) account_id && bool_decide (m_external m = Some external_id).
Definition find_message_id_in_tx (account_id external_id : string) : M (option string) :=
  mstmt (fun w => (option_map m_id (List.find (message_is account_id external_id) (ml_messages w)), w)).

(** The [DO UPDATE] clauses of [apply_fill_in_on_conflict]: [new] is [excluded]. *)
Definition refresh (cur new : option string) : option string := if stale_text cur then new else cur.
Definition coalesce (cur new : option string) : option string := match cur with Some _ => cur | None => new end.
Definition fill_in (new cur : MessageRow) : MessageRow :=
  mkMessage (m_id cur) (m_account cur) (m_folder cur) (m_external cur)
    (coalesce (m_message_id cur) (m_message_id new)) (refresh (m_subject cur) (m_subject new))
    (refresh (m_from cur) (m_from new)) (refresh (m_to cur) (m_to new)) (refresh (m_cc cur) (m_cc new))
    (coalesce (m_date cur) (m_date new)) (m_read new) (m_starred new) (m_deleted cur) (m_flags new)
    (m_labels cur) (m_size cur) (m_in_reply_to cur) (m_references cur)
    (coalesce (m_mailer cur) (m_mailer new)) (refresh (m_snippet cur) (m_snippet new))
    (m_has_attachments cur) (m_body_text cur) (m_body_html cur) (m_jmap_thread cur)
    (m_snoozed_until cur) (m_raw_blob cur) (m_updated_at new).

Definition upsert_row (row : MessageRow) (rows : list MessageRow) : list MessageRow :=
  let hit := match m_external row with Some e => message_is (m_account row) e | None => fun _ => false end in
  if existsb hit rows then map (fun m => if hit m then fill_in row m else m) rows else (rows ++ [row])%list.

Definition flag_seen (flags : list string) : bool := existsb (contains_str "Seen") flags.
Definition flag_flagged (flags : list string) : bool := existsb (contains_str "Flagged") flags.
Definition bounded_i32 (z : Z) : option Z := if (0 <=? z) && (z <=? i32_max) then Some z else None.

(** [message_insert] of an IMAP message: schema defaults elsewhere. *)
Definition imap_row (id account_id folder_id stamp : string) (msg : ImapMessage) : MessageRow :=
  let flags_json := json_text (JArray (map JString (im_flags msg))) in
  mkMessage id account_id folder_id (Some (imap_message_external_id folder_id (im_uid msg)))
    (im_message_id msg) (im_subject msg)
    (option_map (fun f => json_text (JObject [("raw", JString f)])) (im_from msg))
    (option_map (fun t => json_text (JArray [JString t])) (im_to msg))
    (im_cc msg) (im_date msg ≫= ingest_date)
    (flag_seen (im_flags msg)) (flag_flagged (im_flags msg)) false (Some flags_json)
    (labels_json (labels_from_flags_json flags_json))
    (im_size msg ≫= bounded_i32) (im_in_reply_to msg) (im_references msg) (im_mailer msg)
    (option_map truncate_for_snippet (im_subject msg)) (im_has_attachments msg)
    (im_body_text msg) (option_map sanitize_email_html (im_body_html msg)) None None None stamp.

Definition upsert_message_in_tx (account_id folder_id : string) (msg : ImapMessage) : M bool :=
  let! existing := find_message_id_in_tx account_id (imap_message_external_id folder_id (im_uid msg)) in
  let! id := new_uuid_text in
  let! _ := mstmt (fun w => (tt, set_messages
    (upsert_row (imap_row id account_id folder_id (sql_now (ml_now w)) msg) (ml_messages w)) w)) in
  ret (bool_decide (existing = None)).

(** The wipe on a UIDVALIDITY change: two statements. *)
Definition clear_folder_messages_in_tx (folder_id : string) : M unit :=
  let! _ := mstmt (fun w => (tt, set_messages
    (List.filter (fun m => negb (String.eqb (m_folder m) folder_id)) (ml_messages w)) w)) in
  mstmt (fun w => (tt, set_cursors
    (List.filter (fun c => negb (String.eqb (cu_folder c) folder_id && negb (String.eqb (cu_type c) "email_state")))
       (ml_cursors w)) w)).

(** [folder_count_stmt]: live rows that are not snoozed into the future. *)
Definition counts_in (now folder_id : string) (m : MessageRow) : bool :=
  String.eqb (m_folder m) folder_id && negb (m_deleted m)
  && match m_snoozed_until m with None => true | Some t => text_le t now end.
Definition folder_count (unread_only : bool) (now folder_id : string) (rows : list MessageRow) : Z :=
  Z.of_nat (length (List.filter (fun m => counts_in now folder_id m && (negb unread_only || negb (m_read m))) rows)).
Definition clamp_i32 (z : Z) : Z := if z <=? i32_max then z else i32_max.
Definition update_folder_counts_in_tx (folder_id : string) : M unit :=
  let! total := mstmt (fun w => (folder_count false (sql_now (ml_now w)) folder_id (ml_messages w), w)) in
  let! unread := mstmt (fun w => (folder_count true (sql_now (ml_now w)) folder_id (ml_messages w), w)) in
  update_folder folder_id (set_counts (clamp_i32 total) (clamp_i32 unread)).
Definition update_folder_counts (folder_id : string) : M unit :=
  transaction (update_folder_counts_in_tx folder_id).

Fixpoint upsert_all (account_id folder_id : string) (messages : list ImapMessage) (new updated : nat)
    : M (nat * nat) :=
  match messages with
  | [] => ret (new, updated)
  | msg :: rest =>
      let! was_new := upsert_message_in_tx account_id folder_id msg in
      if (was_new : bool) then upsert_all account_id folder_id rest (S new) updated
      else upsert_all account_id folder_id rest new (S updated)
  end.

Definition persist_imap_folder_batch (account_id folder_id : string) (messages : list ImapMessage)
    (uid_validity last_uid last_modseq : Z) (clear_first : bool) : M (nat * nat) :=
  transaction (
    let! _ := when clear_first (clear_folder_messages_in_tx folder_id) in
    let! counts := upsert_all account_id folder_id messages 0 0 in
    let! _ := save_cursor_in_tx account_id folder_id "imap" uid_validity last_uid last_modseq in
    let! _ := update_folder_counts_in_tx folder_id in
    ret counts).

(** ** Self-heal and reconciliation *)

Definition heals (folder_id : string) (m : MessageRow) : bool :=
  String.eqb (m_folder m) folder_id &&
  (mojibake (m_subject m) || mojibake (m_snippet m) || mojibake (m_from m) || mojibake (m_to m)
   || mojibake (m_body_text m) || mojibake (m_body_html m)).
Definition mojibake_message_uids (folder_id : string) (limit : nat) : M (list Z) :=
  mstmt (fun w => (omap (fun m => rok (parse_imap_uid (m_external m)))
    (take limit (List.filter (heals folder_id) (ml_messages w))), w)).

Definition update_messages (p : MessageRow -> bool) (f : MessageRow -> MessageRow) (rows : list MessageRow)
    : list MessageRow := map (fun m => if p m then f m else m) rows.
Definition clear_body (m : MessageRow) : MessageRow :=
  mkMessage (m_id m) (m_account m) (m_folder m) (m_external m) (m_message_id m) (m_subject m) (m_from m)
    (m_to m) (m_cc m) (m_date m) (m_read m) (m_starred m) (m_deleted m) (m_flags m) (m_labels m) (m_size m)
    (m_in_reply_to m) (m_references m) (m_mailer m) (m_snippet m) (m_has_attachments m) None None
    (m_jmap_thread m) (m_snoozed_until m) (m_raw_blob m) (m_updated_at m).
Definition soft_delete (m : MessageRow) : MessageRow :=
  mkMessage (m_id m) (m_account m) (m_folder m) (m_external m) (m_message_id m) (m_subject m) (m_from m)
    (m_to m) (m_cc m) (m_date m) (m_read m) (m_starred m) true (m_flags m) (m_labels m) (m_size m)
    (m_in_reply_to m) (m_references m) (m_mailer m) (m_snippet m) (m_has_attachments m) (m_body_text m)
    (m_body_html m) (m_jmap_thread m) (m_snoozed_until m) (m_raw_blob m) (m_updated_at m).
Definition bad_body (folder_id : string) (m : MessageRow) : bool :=
  String.eqb (m_folder m) folder_id && (mojibake (m_body_text m) || mojibake (m_body_html m)).

Definition repair_imap_messages (account_id folder_id : string) (messages : list ImapMessage) : M nat :=
  transaction (
    let! _ := upsert_all account_id folder_id messages 0 0 in
    let! _ := mstmt (fun w => (tt, set_messages
                (update_messages (bad_body folder_id) clear_body (ml_messages w)) w)) in
    let! _ := update_folder_counts_in_tx folder_id in
    ret (length messages)).

Definition stale_imap_row_ids (local_rows : list (string * option string)) (server_uids : gset Z) : list string :=
  omap (fun '(id, external_id) =>
    match parse_imap_uid external_id with
    | Ok uid => if bool_decide (uid ∈ server_uids) then None else Some id
    | Err _ => None
    end) local_rows.

Definition live_in (account_id folder_id : string) (m : MessageRow) : bool :=
  String.eqb (m_account m) account_id && String.eqb (m_folder m) folder_id && negb (m_deleted m).
Definition reconcile_folder_deletions (account_id folder_id : string) (server_uids : gset Z) : M nat :=
  let! local_rows := mstmt (fun w =>
    (map (fun m => (m_id m, m_external m)) (List.filter (live_in account_id folder_id) (ml_messages w)), w)) in
  let stale := stale_imap_row_ids local_rows server_uids in
  match stale with
  | [] => ret 0%nat
  | _ =>
      transaction (
        let! _ := mstmt (fun w => (tt, set_messages
                    (update_messages (fun m => bool_decide (m_id m ∈ stale)) soft_delete (ml_messages w)) w)) in
        let! _ := update_folder_counts_in_tx folder_id in
        ret (length stale))
  end.

(** ** Single-column writes *)

Definition set_raw_blob (path stamp : string) (m : MessageRow) : MessageRow :=
  mkMessage (m_id m) (m_account m) (m_folder m) (m_external m) (m_message_id m) (m_subject m) (m_from m)
    (m_to m) (m_cc m) (m_date m) (m_read m) (m_starred m) (m_deleted m) (m_flags m) (m_labels m) (m_size m)
    (m_in_reply_to m) (m_references m) (m_mailer m) (m_snippet m) (m_has_attachments m) (m_body_text m)
    (m_body_html m) (m_jmap_thread m) (m_snoozed_until m) (Some path) stamp.
Definition set_mailer (mailer stamp : string) (m : MessageRow) : MessageRow :=
  mkMessage (m_id m) (m_account m) (m_folder m) (m_external m) (m_message_id m) (m_subject m) (m_from m)
    (m_to m) (m_cc m) (m_date m) (m_read m) (m_starred m) (m_deleted m) (m_flags m) (m_labels m) (m_size m)
    (m_in_reply_to m) (m_references m) (Some mailer) (m_snippet m) (m_has_attachments m) (m_body_text m)
    (m_body_html m) (m_jmap_thread m) (m_snoozed_until m) (m_raw_blob m) stamp.
Definition message_by_id (id : string) (m : MessageRow) : bool := String.eqb (m_id m) id.
Definition set_message_raw_blob (message_id rel_path : string) : M unit :=
  mstmt (fun w => (tt, set_messages (update_messages (message_by_id message_id)
    (set_raw_blob rel_path (sql_now (ml_now w))) (ml_messages w)) w)).
Definition set_message_mailer (message_id mailer : string) : M unit :=
  mstmt (fun w => (tt, set_messages
    (update_messages (fun m => message_by_id message_id m && bool_decide (m_mailer m = None))
       (set_mailer mailer (sql_now (ml_now w))) (ml_messages w)) w)).
Definition get_message_raw_blob_path (message_id : string) : M (option string) :=
  mstmt (fun w => (List.find (message_by_id message_id) (ml_messages w) ≫= m_raw_blob, w)).

(** ** JMAP messages *)

Definition json_field (key : string) (v : Json) : option Json :=
  match v with
  | JObject fields => option_map snd (List.find (fun '(k, _) => String.eqb k key) fields)
  | _ => None
  end.
Definition json_str (v : Json) : option string := match v with JString s => Some s | _ => None end.

Definition has_keyword (key : string) (email : JmapEmail) : bool :=
  match je_keywords email ≫= json_field key with Some (JBool b) => b | _ => false end.
Definition is_seen : JmapEmail -> bool := has_keyword "$seen".
Definition is_flagged : JmapEmail -> bool := has_keyword "$flagged".

Definition format_address (a : JmapEmailAddress) : string :=
  match ja_name a, ja_email a with
  | Some name, Some email => name +:+ " <" +:+ email +:+ ">"
  | None, Some email => email
  | Some name, None => name
  | None, None => ""
  end.
Definition format_from (email : JmapEmail) : option string := option_map format_address (je_from email ≫= head).
Definition to_string_list (email : JmapEmail) : option string :=
  option_map (fun addrs => join ", " (map format_address addrs)) (je_to email).
Definition format_cc (a : JmapEmailAddress) : string :=
  match ja_name a, ja_email a with
  | Some name, Some email => name +:+ " <" +:+ email +:+ ">"
  | None, Some email => email
  | _, None => ""
  end.
Definition message_id_header (email : JmapEmail) : option string := je_message_id email ≫= head.
Definition mailer (email : JmapEmail) : option string := nonempty (option_map trim (je_mailer email)).
Definition extract_body_part (email : JmapEmail) (parts : option (list Json)) : option string :=
  part ← parts ≫= head;
  part_id ← json_field "partId" part ≫= json_str;
  value ← je_body_values email ≫= fun fields => json_field part_id (JObject fields);
  json_field "value" value ≫= json_str.
Definition body_text (email : JmapEmail) : option string := extract_body_part email (je_text_body email).
Definition body_html (email : JmapEmail) : option string := extract_body_part email (je_html_body email).

Definition keywords_json (email : JmapEmail) : string :=
  json_text (match je_keywords email with Some v => v | None => JNull end).
Definition jmap_refresh (email : JmapEmail) (folder_id stamp : string) (m : MessageRow) : MessageRow :=
  mkMessage (m_id m) (m_account m) folder_id (m_external m) (m_message_id m) (m_subject m) (m_from m)
    (m_to m) (m_cc m) (m_date m) (is_seen email) (is_flagged email) (m_deleted m) (Some (keywords_json email))
    (m_labels m) (m_size m) (m_in_reply_to m) (m_references m) (m_mailer m) (m_snippet m)
    (m_has_attachments m) (m_body_text m) (m_body_html m) (je_thread_id email) (m_snoozed_until m)
    (m_raw_blob m) stamp.
Definition jmap_row (id account_id folder_id stamp : string) (email : JmapEmail) : MessageRow :=
  mkMessage id account_id folder_id (Some (je_id email)) (message_id_header email) (je_subject email)
    (option_map (fun f => json_text (JObject [("raw", JString f)])) (format_from email))
    (option_map (fun t => json_text (JArray [JString t])) (to_string_list email))
    (option_map (fun l => json_text (JArray (map JString (map format_cc l)))) (je_cc email))
    (je_received_at email ≫= ingest_date) (is_seen email) (is_flagged email) false
    (Some (keywords_json email)) (labels_json (labels_from_flags_json (keywords_json email)))
    (option_map clamp_i32 (je_size email)) (je_in_reply_to email ≫= head)
    (option_map (join " ") (je_references email)) (mailer email)
    (match je_preview email with Some p => Some p | None => option_map truncate_for_snippet (je_subject email) end)
    (match je_has_attachment email with Some b => b | None => false end)
    (body_text email) (option_map sanitize_email_html (body_html email)) (je_thread_id email) None None stamp.

(** A plain insert: the unique index on [(account_id, external_id)] refuses a second row. *)
Definition insert_message (row : MessageRow) : M unit :=
  let! clash := mstmt (fun w =>
    if existsb (fun m => String.eqb (m_account m) (m_account row) &&
                         bool_decide (m_external m = m_external row)) (ml_messages w)
    then (true, w) else (false, set_messages (ml_messages w ++ [row])%list w)) in
  if (clash : bool) then throw (Database "UNIQUE") else ret tt.

Definition upsert_jmap_message_in_tx (account_id folder_id : string) (email : JmapEmail) : M (bool * string) :=
  let! existing := find_message_id_in_tx account_id (je_id email) in
  match existing with
  | Some id =>
      let! _ := mstmt (fun w => (tt, set_messages (update_messages (message_by_id id)
                  (jmap_refresh email folder_id (sql_now (ml_now w))) (ml_messages w)) w)) in
      ret (false, id)
  | None =>
      let! uuid := new_uuid_text in
      let! stamp := gets (fun w => sql_now (ml_now w)) in
      let! _ := insert_message (jmap_row uuid account_id folder_id stamp email) in
      let! found := find_message_id_in_tx account_id (je_id email) in
      let! id := lift (ok_or (InternalE "JMAP message insert lost its row") found) in
      ret (true, id)
  end.

Fixpoint upsert_jmap_all (account_id folder_id : string) (emails : list JmapEmail) (new updated : nat)
    (persisted : list (string * bool)) : M (nat * nat * list (string * bool)) :=
  match emails with
  | [] => ret (new, updated, persisted)
  | email :: rest =>
      let! r := upsert_jmap_message_in_tx account_id folder_id email in
      let '(was_new, local_id) := r in
      let persisted := (persisted ++ [(local_id, was_new)])%list in
      if (was_new : bool) then upsert_jmap_all account_id folder_id rest (S new) updated persisted
      else upsert_jmap_all account_id folder_id rest new (S updated) persisted
  end.
Definition persist_jmap_folder_batch (account_id folder_id : string) (emails : list JmapEmail)
    (query_state : option string) : M (nat * nat * list (string * bool)) :=
  transaction (
    let! counts := upsert_jmap_all account_id folder_id emails 0 0 [] in
    let! _ := match query_state with
              | Some qs => save_jmap_cursor_in_tx account_id folder_id qs
              | None => ret tt
              end in
    let! _ := update_folder_counts_in_tx folder_id in
    ret counts).

Definition IDS_CHUNK : nat := 1000.
(** [slice.chunks(n)]: [fuel] bounds the number of pieces. *)
Fixpoint chunks_of {A} (fuel n : nat) (l : list A) : list (list A) :=
  match fuel, l with
  | O, _ | _, [] => []
  | S k, _ => take n l :: chunks_of k n (drop n l)
  end.
Definition chunks {A} (n : nat) (l : list A) : list (list A) := chunks_of (length l) n l.

Definition external_in (account_id : string) (ids : list string) (m : MessageRow) : bool :=
  String.eqb (m_account m) account_id &&
  match m_external m with Some e => bool_decide (e ∈ ids) | None => false end.
Fixpoint delete_chunks (account_id : string) (pieces : list (list string)) (folder_ids : gset string) (deleted : nat)
    : M (gset string * nat) :=
  match pieces with
  | [] => ret (folder_ids, deleted)
  | ids :: rest =>
      let! touched := mstmt (fun w =>
        (m_folder <$> List.filter (external_in account_id ids) (ml_messages w), w)) in
      let! gone := mstmt (fun w =>
        (length (List.filter (external_in account_id ids) (ml_messages w)),
         set_messages (List.filter (fun m => negb (external_in account_id ids m)) (ml_messages w)) w)) in
      delete_chunks account_id rest (folder_ids ∪ list_to_set touched) (deleted + gone)
  end.
Fixpoint refresh_counts (folder_ids : list string) : M unit :=
  match folder_ids with
  | [] => ret tt
  | folder_id :: rest => let! _ := update_folder_counts folder_id in refresh_counts rest
  end.
Definition delete_jmap_messages_by_external_ids (account_id : string) (external_ids : list string) : M nat :=
  match external_ids with
  | [] => ret 0%nat
  | _ =>
      let! r := delete_chunks account_id (chunks IDS_CHUNK external_ids) ∅ 0 in
      let '(folder_ids, deleted) := r in
      let! _ := refresh_counts (elements folder_ids) in
      ret deleted
  end.

End MailStore.

(** ** Lemmas *)

(** Documented behaviour of the UUID crate: no value is drawn twice. *)
Class StoreLaws `{StoreLib} := store_uuid_inj : Inj (=) (=) store_uuid.

(** The message table seen as a map. *)
Definition row_at (w : mail) (account_id external_id : string) : option MessageRow :=
  List.find (message_is account_id external_id) (ml_messages w).
Definition cursor_at (w : mail) (account_id folder_id cursor_type : string) : option string :=
  option_map cu_value (List.find (cursor_is account_id folder_id cursor_type) (ml_cursors w)).

Definition message_key (m : MessageRow) : option (string * string) := option_map (pair (m_account m)) (m_external m).
Definition cursor_key (c : CursorRow) : string * string * string := (cu_account c, cu_folder c, cu_type c).
Definition folder_key (r : FolderRow) : string * string := (f_account r, f_external r).

(** The invariant of the tables: the unique indexes hold, and no id is a UUID that is
    still to be drawn. *)
Record mail_ok `{StoreLib} (w : mail) : Prop := {
  ok_external : NoDup (omap message_key (ml_messages w));
  ok_ids : NoDup (m_id <$> ml_messages w);
  ok_cursors : NoDup (cursor_key <$> ml_cursors w);
  ok_folders : NoDup (folder_key <$> ml_folders w);
  ok_folder_ids : NoDup (f_id <$> ml_folders w);
  ok_fresh : forall n, (ml_seq w <= n)%N -> store_uuid n ∉ (m_id <$> ml_messages w) /\ store_uuid n ∉ (f_id <$> ml_folders w);
}.
Definition same_tables (w w' : mail) : Prop :=
  ml_messages w' = ml_messages w /\ ml_cursors w' = ml_cursors w /\ ml_folders w' = ml_folders w.
(** What every operation keeps. *)
Definition keeps_ok `{StoreLib} (w w' : mail) : Prop := mail_ok w -> mail_ok w' /\ (ml_seq w <= ml_seq w')%N.

#[export] Instance keeps_ok_preorder `{StoreLib} : PreOrder keeps_ok.
Proof.
  split; [intros w Hw; split; [done|lia]|]. intros w1 w2 w3 H12 H23 Hw.
  destruct (H12 Hw) as [Hw2 Hs]. destruct (H23 Hw2) as [Hw3 Hs']. split; [done|lia].
Qed.

Lemma mstmt_Ok {A} (f : mail -> A * mail) w a w' :
  mstmt f w = (Ok a, w') -> exists w1 n, f w = (a, w1) /\ w' = set_fuse n w1.
Proof.
  unfold mstmt. destruct (ml_fuse w) as [[|k]|]; [done| |]; destruct (f w) as [b w1]; intros [= <- <-]; eauto.
Qed.
Lemma mstmt_Err {A} (f : mail -> A * mail) w e w' : mstmt f w = (Err e, w') -> w' = w.
Proof. unfold mstmt. destruct (ml_fuse w) as [[|k]|]; [congruence| |]; by destruct (f w). Qed.

Lemma transaction_Ok {A} (body : io mail SyncError A) w a w' :
  transaction body w = (Ok a, w') ->
  exists n n' w1, body (set_fuse n w) = (Ok a, w1) /\ w' = set_fuse n' w1.
Proof.
  unfold transaction. destruct (bind _ _ w) as [[b|e] w2] eqn:Hb; intros [= <- <-].
  apply bind_Ok in Hb as ([] & w0 & (w0' & n & [= <-] & ->)%mstmt_Ok & Hb).
  apply bind_Ok in Hb as (b' & w1 & Hbody & Hb).
  apply bind_Ok in Hb as ([] & w3 & (w3' & n' & [= <-] & ->)%mstmt_Ok & Hb). injection Hb as <- <-. eauto.
Qed.
Lemma transaction_Err {A} (body : io mail SyncError A) w e w' :
  transaction body w = (Err e, w') -> same_tables w w'.
Proof. unfold transaction. destruct (bind _ _ w) as [[b|e'] w2]; [done|]. by intros [= <- <-]. Qed.

(** ** The invariant *)

Section Invariant.
Context `{StoreLaws} `{JsonLib}.

Lemma pres_mstmt {A} (f : mail -> A * mail) :
  (forall w, keeps_ok w (snd (f w))) -> preserves keeps_ok (mstmt f).
Proof.
  intros Hf w r w' Hm. destruct r as [a|e]; [|apply mstmt_Err in Hm as ->; reflexivity].
  apply mstmt_Ok in Hm as (w1 & n & Hw & ->). specialize (Hf w). rewrite Hw in Hf. cbn in Hf.
  intros Hok. destruct (Hf Hok) as [[] Hs]. split; [split; done|done].
Qed.
Lemma pres_read {A} (f : mail -> A) : preserves keeps_ok (mstmt (fun w => (f w, w))).
Proof. apply pres_mstmt. intros w. reflexivity. Qed.
Lemma pres_transaction {A} (body : io mail SyncError A) :
  preserves keeps_ok body -> preserves keeps_ok (transaction body).
Proof.
  intros Hb w r w' Ht. unfold transaction in Ht.
  destruct (bind _ _ w) as [r1 w1] eqn:Hall.
  assert (Hk : keeps_ok w w1).
  { revert Hall. apply pres_bind; [apply _|apply pres_read|]. intros _. apply pres_bind; [apply _|done|].
    intros a. apply pres_bind; [apply _|apply pres_read|]. intros _. apply pres_ret, _. }
  destruct r1 as [a|e]; injection Ht as <- <-; [done|].
  intros Hw. destruct (Hk Hw) as [_ Hs]. split; [|done]. destruct Hw as [? ? ? ? ? Hf]. split; try done.
  cbn. intros n Hn. apply Hf. lia.
Qed.
Lemma pres_uuid {E} : preserves keeps_ok (new_uuid_text (E := E)).
Proof.
  intros w r w' [= _ <-] [? ? ? ? ? Hf]. cbn. split; [|lia]. split; try done. cbn. intros n Hn. apply Hf. lia.
Qed.
Hint Resolve pres_read pres_transaction pres_uuid : preserve.

Lemma map_keeps {A B} (key : A -> B) (f : A -> A) l : (forall x, key (f x) = key x) -> key <$> map f l = key <$> l.
Proof.
  intros Hf. change (map f l) with (f <$> l). rewrite <- list_fmap_compose. apply list_fmap_ext.
  intros _ x _. apply Hf.
Qed.
Lemma map_omap_keeps {A B} (key : A -> option B) (f : A -> A) l :
  (forall x, key (f x) = key x) -> omap key (map f l) = omap key l.
Proof. intros Hf. induction l as [|x l IH]; [done|]. cbn. rewrite Hf. destruct (key x); [by f_equal|done]. Qed.
Lemma filter_sublist {A} (p : A -> bool) l : sublist (List.filter p l) l.
Proof. induction l as [|x l IH]; [done|]. cbn. destruct (p x); by constructor. Qed.
Lemma fmap_sublist {A B} (f : A -> B) l k : sublist l k -> sublist (f <$> l) (f <$> k).
Proof. induction 1; cbn; by constructor. Qed.
Lemma omap_sublist {A B} (f : A -> option B) l k : sublist l k -> sublist (omap f l) (omap f k).
Proof. induction 1 as [|x l k _ IH|x l k _ IH]; cbn; [done| |]; destruct (f x); by try constructor. Qed.

(** Changing rows in place without touching keys, and dropping rows. *)
Lemma keeps_messages l w :
  sublist (omap message_key l) (omap message_key (ml_messages w)) ->
  sublist (m_id <$> l) (m_id <$> ml_messages w) -> keeps_ok w (set_messages l w).
Proof.
  intros He Hi [? ? ? ? ? Hf]. split; [|done]. split; cbn; try done.
  - by eapply sublist_NoDup; [|exact He].
  - by eapply sublist_NoDup; [|exact Hi].
  - intros n Hn. destruct (Hf n Hn) as [Hm Hfo]. split; [|done]. intros Hin. apply Hm.
    by eapply elem_of_sublist.
Qed.
Lemma keeps_update_messages p f w :
  (forall m, message_key (f m) = message_key m) -> (forall m, m_id (f m) = m_id m) ->
  keeps_ok w (set_messages (update_messages p f (ml_messages w)) w).
Proof.
  intros Hk Hi. apply keeps_messages; unfold update_messages.
  - rewrite map_omap_keeps; [done|]. intros m. by destruct (p m).
  - rewrite map_keeps; [done|]. intros m. by destruct (p m).
Qed.
Lemma keeps_filter_messages p w : keeps_ok w (set_messages (List.filter p (ml_messages w)) w).
Proof. apply keeps_messages; [apply omap_sublist|apply fmap_sublist]; apply filter_sublist. Qed.

Lemma keeps_cursors l w : NoDup (cursor_key <$> l) -> keeps_ok w (set_cursors l w).
Proof. intros Hl [? ? ? ? ? Hf]. split; [|done]. split; cbn; done. Qed.
Lemma keeps_filter_cursors p w : keeps_ok w (set_cursors (List.filter p (ml_cursors w)) w).
Proof.
  intros Hw. apply keeps_cursors; [|done]. eapply sublist_NoDup; [apply Hw|].
  apply fmap_sublist, filter_sublist.
Qed.

Lemma keeps_update_folders p f w :
  (forall r, folder_key (f r) = folder_key r) -> (forall r, f_id (f r) = f_id r) ->
  keeps_ok w (set_folders (update_folders p f (ml_folders w)) w).
Proof.
  intros Hk Hi [? ? ? ? ? Hf]. split; [|done]. unfold update_folders. split; cbn; try done.
  - rewrite map_keeps; [done|]. intros r. by destruct (p r).
  - rewrite map_keeps; [done|]. intros r. by destruct (p r).
  - intros n Hn. rewrite map_keeps; [by apply Hf|]. intros r. by destruct (p r).
Qed.
Lemma pres_update_folder id f :
  (forall s r, folder_key (f s r) = folder_key r) -> (forall s r, f_id (f s r) = f_id r) ->
  preserves keeps_ok (update_folder id f).
Proof. intros Hk Hi. apply pres_mstmt. intros w. apply keeps_update_folders; auto. Qed.

Lemma cursor_is_spec a f t c : cursor_is a f t c = true <-> cursor_key c = (a, f, t).
Proof.
  unfold cursor_is, cursor_key. rewrite !andb_true_iff, !String.eqb_eq. split; [by intros [[-> ->] ->]|].
  by intros [= -> -> ->].
Qed.
Lemma existsb_key {A B} `{EqDecision B} (p : A -> bool) (key : A -> B) k l :
  (forall x, p x = true <-> key x = k) -> existsb p l = false -> k ∉ (key <$> l).
Proof.
  intros Hp He (x & -> & Hx)%list_elem_of_fmap. apply not_true_iff_false in He. apply He, existsb_exists.
  exists x. split; [by apply list_elem_of_In|by apply Hp].
Qed.
Lemma NoDup_snoc {A} (l : list A) x : NoDup l -> x ∉ l -> NoDup (l ++ [x]).
Proof.
  intros Hl Hx. apply NoDup_app. split_and!; [done| |apply NoDup_singleton].
  by intros y Hy ->%list_elem_of_singleton.
Qed.
Lemma keeps_upsert_cursor row w : keeps_ok w (set_cursors (upsert_cursor row (ml_cursors w)) w).
Proof.
  intros Hw. apply keeps_cursors; [|done]. unfold upsert_cursor. destruct (existsb _ _) eqn:He.
  - rewrite map_keeps; [apply Hw|]. intros c. by destruct (cursor_is _ _ _ c).
  - rewrite fmap_app. apply NoDup_snoc; [apply Hw|].
    apply (existsb_key _ _ _ _ (cursor_is_spec _ _ _) He).
Qed.
Lemma pres_write_cursor a f p t v : preserves keeps_ok (write_cursor a f p t v).
Proof.
  unfold write_cursor. apply pres_bind; [apply _|apply pres_uuid|]. intros id. apply pres_mstmt.
  intros w. apply keeps_upsert_cursor.
Qed.

(** A new row under a drawn id. *)
Lemma keeps_insert_folder r n w :
  f_id r = store_uuid n -> (n < ml_seq w)%N ->
  (mail_ok w -> store_uuid n ∉ (f_id <$> ml_folders w)) -> folder_key r ∉ (folder_key <$> ml_folders w) ->
  keeps_ok w (set_folders (ml_folders w ++ [r])%list w).
Proof.
  intros Hid Hn Hfr Hk Hw. pose proof (Hfr Hw) as Hnew. destruct Hw as [? ? ? ? ? Hf]. split; [|done].
  split; cbn; rewrite ?fmap_app; try done.
  - by apply NoDup_snoc.
  - apply NoDup_snoc; [done|]. cbn. by rewrite Hid.
  - intros k Hk'. destruct (Hf k Hk') as [Hm Hfo]. split; [done|].
    intros [?|Hx]%elem_of_app; [done|]. apply list_elem_of_singleton in Hx. rewrite Hid in Hx.
    apply store_uuid_inj in Hx. lia.
Qed.
Lemma keeps_insert_message m n w :
  m_id m = store_uuid n -> (n < ml_seq w)%N ->
  (mail_ok w -> store_uuid n ∉ (m_id <$> ml_messages w)) ->
  (forall k, message_key m = Some k -> k ∉ omap message_key (ml_messages w)) ->
  keeps_ok w (set_messages (ml_messages w ++ [m])%list w).
Proof.
  intros Hid Hn Hfr Hk Hw. pose proof (Hfr Hw) as Hnew. destruct Hw as [? ? ? ? ? Hf]. split; [|done].
  split; cbn; rewrite ?fmap_app, ?omap_app; try done.
  - destruct (message_key m) as [k|] eqn:Hm; cbn; rewrite Hm; [|by rewrite app_nil_r].
    apply NoDup_snoc; [done|by apply Hk].
  - apply NoDup_snoc; [done|]. cbn. by rewrite Hid.
  - intros k Hk'. destruct (Hf k Hk') as [Hm Hfo]. split; [|done].
    intros [?|Hx]%elem_of_app; [done|]. apply list_elem_of_singleton in Hx. rewrite Hid in Hx.
    apply store_uuid_inj in Hx. lia.
Qed.

(** The same at a given world, with what the calls before answered. *)
Definition keeps {A} (m : io mail SyncError A) (w : mail) : Prop := forall r w', m w = (r, w') -> keeps_ok w w'.
Lemma keeps_bind {A B} (m : io mail SyncError A) (f : A -> io mail SyncError B) w :
  keeps m w -> (forall a w1, m w = (Ok a, w1) -> keeps (f a) w1) -> keeps (bind m f) w.
Proof.
  intros Hm Hf r w' [(e & Hw & _)|(a & w1 & Hw & Ha)]%bind_inv; [by eapply Hm|].
  etrans; [by eapply Hm|by eapply Hf].
Qed.
Lemma keeps_pres {A} (m : io mail SyncError A) w : preserves keeps_ok m -> keeps m w.
Proof. intros Hm r w'. apply Hm. Qed.
Lemma keeps_mstmt {A} (f : mail -> A * mail) w : keeps_ok w (snd (f w)) -> keeps (mstmt f) w.
Proof.
  intros Hf r w' Hm. destruct r as [a|e]; [|apply mstmt_Err in Hm as ->; reflexivity].
  apply mstmt_Ok in Hm as (w1 & n & Hw & ->). rewrite Hw in Hf. cbn in Hf.
  intros Hok. destruct (Hf Hok) as [[] Hs]. split; [split; done|done].
Qed.

Lemma folder_by_external_spec a e r : folder_by_external a e r = true <-> folder_key r = (a, e).
Proof.
  unfold folder_by_external, folder_key. rewrite andb_true_iff, !String.eqb_eq.
  split; [by intros [-> ->]|by intros [= -> ->]].
Qed.
Lemma message_is_spec a e m : message_is a e m = true <-> message_key m = Some (a, e).
Proof.
  unfold message_is, message_key. rewrite andb_true_iff, String.eqb_eq, bool_decide_eq_true.
  destruct (m_external m) as [x|]; cbn; [|by split; [intros [_ ?]|]].
  split; [by intros [-> [= ->]]|by intros [= -> ->]].
Qed.
Lemma find_none_key {A B} (p : A -> bool) (key : A -> B) k l :
  (forall x, p x = true <-> key x = k) -> List.find p l = None -> k ∉ (key <$> l).
Proof.
  intros Hp Hf (x & -> & Hx)%list_elem_of_fmap. apply list_elem_of_In in Hx.
  pose proof (find_none _ _ Hf x Hx) as Hn. by rewrite (proj2 (Hp x)) in Hn.
Qed.
Lemma find_none_omap {A B} (p : A -> bool) (key : A -> option B) k l :
  (forall x, p x = true <-> key x = Some k) -> List.find p l = None -> k ∉ omap key l.
Proof.
  intros Hp Hf (x & Hx & Hk)%list_elem_of_omap. apply list_elem_of_In in Hx.
  pose proof (find_none _ _ Hf x Hx) as Hn. by rewrite (proj2 (Hp x)) in Hn.
Qed.

(** A statement under a drawn id, which no row has. *)
Lemma keeps_fresh (f : string -> mail -> mail) w :
  (mail_ok w -> keeps_ok (set_seq (N.succ (ml_seq w)) w) (f (store_uuid (ml_seq w)) (set_seq (N.succ (ml_seq w)) w))) ->
  keeps (let! id := new_uuid_text in mstmt (fun w => (tt, f id w))) w.
Proof.
  intros Hf r w' Hi Hw.
  assert (Hu : keeps_ok w (set_seq (N.succ (ml_seq w)) w)).
  { by apply (pres_uuid (E := SyncError) w (Ok (store_uuid (ml_seq w)))). }
  destruct (bind_inv _ _ _ _ _ Hi) as [(? & ? & _)|(id & w1 & [= <- <-] & Hs)]; [done|].
  destruct (Hu Hw) as [Hw1 Hn]. destruct (keeps_mstmt (fun w0 => (tt, f (store_uuid (ml_seq w)) w0)) _ (Hf Hw) _ _ Hs Hw1).
  split; [done|lia].
Qed.

Lemma insert_folder_keeps a e name role parent w :
  List.find (folder_by_external a e) (ml_folders w) = None -> keeps (insert_folder a e name role parent) w.
Proof.
  intros Hno. unfold insert_folder.
  apply (keeps_fresh (fun id w => set_folders (ml_folders w ++
    [mkFolder id a e name parent role None 0 0 0 (sql_now (ml_now w)) (sql_now (ml_now w))])%list w)).
  intros Hw. apply (keeps_insert_folder _ (ml_seq w)); [done|cbn; lia| |].
  - intros _. by apply (ok_fresh w Hw).
  - by apply (find_none_key _ _ _ _ (folder_by_external_spec a e)).
Qed.

Lemma upsert_row_keeps a f msg w :
  keeps (let! id := new_uuid_text in mstmt (fun w => (tt, set_messages
    (upsert_row (imap_row id a f (sql_now (ml_now w)) msg) (ml_messages w)) w))) w.
Proof.
  apply (keeps_fresh (fun id w => set_messages
    (upsert_row (imap_row id a f (sql_now (ml_now w)) msg) (ml_messages w)) w)).
  intros Hw. set (w1 := set_seq _ w). unfold upsert_row.
  destruct (existsb _ (ml_messages w1)) eqn:He.
  - apply (keeps_update_messages _ (fill_in _)); done.
  - apply (keeps_insert_message _ (ml_seq w)); [done|cbn; lia|intros _; by apply (ok_fresh w Hw)|].
    intros k [= <-] (m & Hm & Hk)%list_elem_of_omap. apply not_true_iff_false in He. apply He.
    apply existsb_exists. exists m. split; [by apply list_elem_of_In|]. cbn. by apply message_is_spec.
Qed.

Lemma keeps_assoc {A B C} (m : io mail SyncError A) (f : A -> io mail SyncError B) (g : B -> io mail SyncError C) w :
  keeps (bind (bind m f) g) w -> keeps (bind m (fun a => bind (f a) g)) w.
Proof. intros Hk r w' Hm. apply (Hk r w'). by rewrite bind_assoc. Qed.
Lemma keeps_then {A B} (m : io mail SyncError A) (f : A -> io mail SyncError B) w :
  keeps m w -> (forall a, preserves keeps_ok (f a)) -> keeps (bind m f) w.
Proof. intros Hm Hf. apply keeps_bind; [done|]. intros a w1 _. apply keeps_pres, Hf. Qed.

Lemma pres_upsert_message a f msg : preserves keeps_ok (upsert_message_in_tx a f msg).
Proof.
  apply pres_bind; [apply _|apply pres_read|]. intros existing w. apply keeps_assoc, keeps_then.
  - apply upsert_row_keeps.
  - intros _. apply pres_ret, _.
Qed.
Lemma pres_upsert_all a f msgs : forall n u, preserves keeps_ok (upsert_all a f msgs n u).
Proof.
  induction msgs as [|msg msgs IH]; intros n u; cbn [upsert_all]; [apply pres_ret, _|].
  apply pres_bind; [apply _|apply pres_upsert_message|]. intros []; apply IH.
Qed.

Lemma found_external a e w w1 o :
  find_folder_id_by_external_id a e w = (Ok o, w1) ->
  ml_folders w1 = ml_folders w /\ o = option_map f_id (List.find (folder_by_external a e) (ml_folders w)).
Proof. by intros (w0 & n & [= <- <-] & ->)%mstmt_Ok. Qed.

Lemma upsert_found a e (upd : string -> io mail SyncError unit) name role parent :
  (forall id, preserves keeps_ok (upd id)) ->
  preserves keeps_ok (let! existing := find_folder_id_by_external_id a e in
    match existing with Some id => upd id | None => insert_folder a e name role parent end).
Proof.
  intros Hu w. apply keeps_bind; [apply keeps_pres, pres_read|]. intros o w1 [Hw ->]%found_external.
  destruct (List.find _ _) as [row|] eqn:Hfind; cbn; [apply keeps_pres, Hu|].
  apply insert_folder_keeps. by rewrite Hw.
Qed.
Lemma pres_upsert_folder a name d attrs : preserves keeps_ok (upsert_folder a name d attrs).
Proof.
  unfold upsert_folder. apply pres_bind; [apply _| |].
  - destruct (fst _); [apply pres_read|apply pres_ret, _].
  - intros parent. apply (upsert_found _ _ (fun id => update_folder id _)).
    intros id. by apply pres_update_folder.
Qed.
Lemma pres_upsert_jmap_folder a mb : preserves keeps_ok (upsert_jmap_folder a mb).
Proof.
  apply (upsert_found _ _ (fun id => update_folder id _)). intros id. by apply pres_update_folder.
Qed.

Lemma pres_clear_folder f : preserves keeps_ok (clear_folder_messages_in_tx f).
Proof.
  apply pres_bind; [apply _| |intros _]; apply pres_mstmt; intros w.
  - apply keeps_filter_messages.
  - apply keeps_filter_cursors.
Qed.
Lemma pres_counts f : preserves keeps_ok (update_folder_counts_in_tx f).
Proof.
  apply pres_bind; [apply _|apply pres_read|intros ?]. apply pres_bind; [apply _|apply pres_read|intros ?].
  by apply pres_update_folder.
Qed.
Lemma pres_update_stmt (p : MessageRow -> bool) (f : mail -> MessageRow -> MessageRow) :
  (forall w m, message_key (f w m) = message_key m) -> (forall w m, m_id (f w m) = m_id m) ->
  preserves keeps_ok (mstmt (fun w => (tt, set_messages (update_messages p (f w) (ml_messages w)) w))).
Proof. intros Hk Hi. apply pres_mstmt. intros w. by apply keeps_update_messages. Qed.

Hint Resolve pres_upsert_message pres_upsert_all pres_upsert_folder pres_upsert_jmap_folder pres_clear_folder
  pres_counts pres_write_cursor : preserve.

Lemma pres_persist a f msgs uv last ms c : preserves keeps_ok (persist_imap_folder_batch a f msgs uv last ms c).
Proof. apply pres_transaction. preserve. Qed.
Lemma pres_repair a f msgs : preserves keeps_ok (repair_imap_messages a f msgs).
Proof. apply pres_transaction. preserve. by apply (pres_update_stmt _ (fun _ => clear_body)). Qed.
Lemma pres_reconcile a f uids : preserves keeps_ok (reconcile_folder_deletions a f uids).
Proof.
  unfold reconcile_folder_deletions. preserve. apply pres_transaction. preserve.
  by apply (pres_update_stmt _ (fun _ => soft_delete)).
Qed.

Lemma pres_set_counts f : preserves keeps_ok (update_folder_counts f).
Proof. apply pres_transaction, pres_counts. Qed.
Lemma pres_clear_cursor a f t : preserves keeps_ok (clear_state_cursor a f t).
Proof. apply pres_mstmt. intros w. apply keeps_filter_cursors. Qed.
Lemma pres_link a c p : preserves keeps_ok (link_jmap_folder_parent a c p).
Proof.
  unfold link_jmap_folder_parent, get_folder_id, find_folder_id_by_external_id. preserve.
  by apply pres_update_folder.
Qed.
Lemma pres_raw_blob id path : preserves keeps_ok (set_message_raw_blob id path).
Proof. by apply (pres_update_stmt _ (fun w => set_raw_blob path (sql_now (ml_now w)))). Qed.
Lemma pres_mailer id m : preserves keeps_ok (set_message_mailer id m).
Proof. by apply (pres_update_stmt _ (fun w => set_mailer m (sql_now (ml_now w)))). Qed.

(** A JMAP insert, which checks the unique index itself. *)
Lemma jmap_insert_keeps (g : string -> string -> MessageRow) w :
  (forall id s, m_id (g id s) = id) ->
  keeps (let! uuid := new_uuid_text in let! stamp := gets (fun w => sql_now (ml_now w)) in
         insert_message (g uuid stamp)) w.
Proof.
  intros Hid r w' Hi Hw.
  destruct (bind_inv _ _ _ _ _ Hi) as [(? & ? & _)|(id & w1 & [= <- <-] & Hs)]; [done|].
  assert (Hu : keeps_ok w (set_seq (N.succ (ml_seq w)) w)).
  { by apply (pres_uuid (E := SyncError) w (Ok (store_uuid (ml_seq w)))). }
  destruct (Hu Hw) as [Hw1 Hn]. set (w1 := set_seq _ w) in *. cbn in Hs. unfold insert_message in Hs.
  set (row := g _ _) in Hs.
  assert (Hk : keeps_ok w1 w').
  { destruct (bind_inv _ _ _ _ _ Hs) as [(er & ->%mstmt_Err & _)|(clash & w2 & Hc & Ht)]; [reflexivity|].
    apply mstmt_Ok in Hc as (w3 & n & Hc & ->).
    assert (Hw3 : keeps_ok w1 w3).
    { destruct (existsb _ _) eqn:He in Hc; injection Hc as <- <-; [reflexivity|].
      apply (keeps_insert_message row (ml_seq w) w1); [apply Hid|cbn; lia|intros _; by apply (ok_fresh w Hw)|].
      intros k Hk (m & Hm & Hkm)%list_elem_of_omap. apply not_true_iff_false in He. apply He.
      apply existsb_exists. exists m. split; [by apply list_elem_of_In|].
      unfold message_key in Hk, Hkm. destruct (m_external row) as [x|] eqn:Hx; [|done].
      destruct (m_external m) as [y|] eqn:Hy; [|done]. cbn in *. simplify_eq.
      rewrite bool_decide_true by congruence. rewrite andb_true_r. apply String.eqb_eq. congruence. }
    etrans; [exact Hw3|]. intros Hok. destruct clash; injection Ht as _ <-; (split; [by destruct Hok; split|done]). }
  destruct (Hk Hw1). split; [done|]. cbn in *. lia.
Qed.
Lemma pres_upsert_jmap a f e : preserves keeps_ok (upsert_jmap_message_in_tx a f e).
Proof.
  apply pres_bind; [apply _|apply pres_read|]. intros [id|] w.
  - apply keeps_pres. preserve.
    by apply (pres_update_stmt _ (fun w => jmap_refresh e f (sql_now (ml_now w)))).
  - intros r w' Hm. revert r w' Hm.
    change (keeps (let! uuid := new_uuid_text in let! stamp := gets (fun w => sql_now (ml_now w)) in
      let! _ := insert_message (jmap_row uuid a f stamp e) in
      let! found := find_message_id_in_tx a (je_id e) in
      let! id := lift (ok_or (InternalE "JMAP message insert lost its row") found) in ret (true, id)) w).
    assert (Htail : forall u : unit, preserves keeps_ok (let! found := find_message_id_in_tx a (je_id e) in
      let! id := lift (ok_or (InternalE "JMAP message insert lost its row") found) in ret (true, id))).
    { intros _. unfold find_message_id_in_tx. preserve. }
    intros r w' Hm.
    apply (keeps_then (let! uuid := new_uuid_text in let! stamp := gets (fun w => sql_now (ml_now w)) in
      insert_message (jmap_row uuid a f stamp e)) _ w (jmap_insert_keeps (fun id s => jmap_row id a f s e) w
        (fun _ _ => eq_refl)) Htail r w').
    rewrite <- Hm. unfold bind, gets. cbn. by destruct (insert_message _ _) as [[]].
Qed.
Lemma pres_upsert_jmap_all a f es : forall n u acc, preserves keeps_ok (upsert_jmap_all a f es n u acc).
Proof.
  induction es as [|e es IH]; intros n u acc; cbn [upsert_jmap_all]; [apply pres_ret, _|].
  apply pres_bind; [apply _|apply pres_upsert_jmap|]. intros [[] id]; apply IH.
Qed.
Hint Resolve pres_upsert_jmap_all pres_set_counts : preserve.
Lemma pres_persist_jmap a f es q : preserves keeps_ok (persist_jmap_folder_batch a f es q).
Proof. apply pres_transaction. preserve. Qed.

Lemma pres_delete_chunks a pieces : forall fs n, preserves keeps_ok (delete_chunks a pieces fs n).
Proof.
  induction pieces as [|ids pieces IH]; intros fs n; cbn [delete_chunks]; [apply pres_ret, _|].
  apply pres_bind; [apply _|apply pres_read|intros touched].
  apply pres_bind; [apply _| |intros gone; apply IH].
  apply pres_mstmt. intros w. apply keeps_filter_messages.
Qed.
Lemma pres_refresh_counts fs : preserves keeps_ok (refresh_counts fs).
Proof. induction fs as [|f fs IH]; cbn [refresh_counts]; preserve. Qed.
Hint Resolve pres_delete_chunks pres_refresh_counts : preserve.
Lemma pres_delete_jmap a ids : preserves keeps_ok (delete_jmap_messages_by_external_ids a ids).
Proof. unfold delete_jmap_messages_by_external_ids. preserve. Qed.
End Invariant.

(** ** What the operations do *)

Lemma app_inj_r_s (s t u : string) : t +:+ s = u +:+ s -> t = u.
Proof.
  intros He. apply (f_equal string_rev) in He. rewrite !string_rev_app in He. apply app_inj_l_s in He.
  by rewrite <- (string_rev_involutive t), He, string_rev_involutive.
Qed.

Definition u32 (z : Z) : Prop := 0 <= z <= u32_max.
Definition u64 (z : Z) : Prop := 0 <= z <= u64_max.

Lemma show_Z_no_colon z : 0 <= z -> sforall (fun a => negb (Ascii.eqb a ":")) (show_Z z) = true.
Proof. intros Hz. apply digits_no_char; [done|by apply show_Z_digits]. Qed.

Lemma parse_external folder uid : u32 uid -> parse_imap_uid (Some (imap_message_external_id folder uid)) = Ok uid.
Proof.
  intros Hu. unfold parse_imap_uid, imap_message_external_id.
  change (":" +:+ show_Z uid) with (String ":" (show_Z uid)).
  replace (rsplit_next ":" (folder +:+ String ":" (show_Z uid))) with (show_Z uid).
  - unfold parse_u32. rewrite parse_show_unsigned; [done|]. unfold u32 in Hu. lia.
  - symmetry. unfold rsplit_next. apply split_char_last_app, show_Z_no_colon. unfold u32 in Hu. lia.
Qed.
Lemma external_inj f f' u u' : u32 u -> u32 u' ->
  imap_message_external_id f u = imap_message_external_id f' u' -> f = f' /\ u = u'.
Proof.
  intros Hu Hu' He. pose proof (parse_external f u Hu) as Hp. rewrite He, parse_external in Hp by done.
  injection Hp as ->. split; [|done]. by eapply app_inj_r_s.
Qed.

(** The stored id of an IMAP message identifies it.  The UID is recovered from the
    external id whatever characters the folder id has, and no two messages of any two
    folders share an id. *)
Theorem external_id_roundtrip (folder folder' : string) (uid uid' : Z) :
  u32 uid -> u32 uid' ->
  parse_imap_uid (Some (imap_message_external_id folder uid)) = Ok uid /\
  (imap_message_external_id folder uid = imap_message_external_id folder' uid' -> folder = folder' /\ uid = uid').
Proof. intros Hu Hu'. split; [by apply parse_external|by apply external_inj]. Qed.

Lemma cursor_value_parses uv lu ms : u32 uv -> u32 lu -> u64 ms ->
  parse_cursor_value (format_cursor_value uv lu ms) = mkCursorInfo uv lu ms.
Proof.
  intros Hu Hl Hm. unfold u32, u64 in *. unfold format_cursor_value, parse_cursor_value.
  assert (Hsplit : forall z t, 0 <= z -> split_char ":" (show_Z z +:+ ":" +:+ t) = show_Z z :: split_char ":" t).
  { intros z t Hz. change (":" +:+ t) with (String ":" t). apply split_char_app. by apply show_Z_no_colon. }
  assert (Hlast : forall z, 0 <= z -> split_char ":" (show_Z z) = [show_Z z]).
  { intros z Hz. apply split_char_none. by apply show_Z_no_colon. }
  assert (Hp : forall z max, 0 <= z <= max -> parse_unsigned max (show_Z z) = Some z).
  { intros z max Hz. by apply parse_show_unsigned. }
  unfold parse_u32, parse_u64. destruct (Z.ltb_spec 0 ms).
  - rewrite !Hsplit, Hlast by lia. by rewrite !Hp by lia.
  - rewrite Hsplit, Hlast by lia. rewrite !Hp by lia. cbn. f_equal. lia.
Qed.

(** Cursors survive storage.  A formatted cursor is parsed back to its three numbers,
    over the full ranges of u32 and u64, with and without a mod-sequence. *)
Theorem cursor_roundtrip (uid_validity last_uid last_modseq : Z) :
  u32 uid_validity -> u32 last_uid -> u64 last_modseq ->
  parse_cursor_value (format_cursor_value uid_validity last_uid last_modseq) =
  mkCursorInfo uid_validity last_uid last_modseq.
Proof. apply cursor_value_parses. Qed.

Lemma find_map_keeps {A} (p : A -> bool) (g : A -> A) l :
  (forall x, p (g x) = p x) -> List.find p (map g l) = option_map g (List.find p l).
Proof. intros Hp. induction l as [|x l IH]; [done|]. cbn. rewrite Hp. by destruct (p x). Qed.
Lemma find_app_new {A} (p : A -> bool) l x :
  List.find p (l ++ [x])%list = match List.find p l with Some y => Some y | None => if p x then Some x else None end.
Proof. induction l as [|y l IH]; cbn; [done|]. by destruct (p y). Qed.
Lemma existsb_find {A} (p : A -> bool) l : existsb p l = match List.find p l with Some _ => true | None => false end.
Proof. induction l as [|x l IH]; [done|]. cbn. by destruct (p x). Qed.

(** Operations that leave the cursors alone. *)
Definition same_cursors (db db' : mail) : Prop := ml_cursors db' = ml_cursors db.
#[export] Instance same_cursors_preorder : PreOrder same_cursors.
Proof. split; [done|]. intros x y z Hxy Hyz. unfold same_cursors in *. congruence. Qed.
Lemma cursors_stmt {A} (g : mail -> A * mail) : (forall w, ml_cursors (snd (g w)) = ml_cursors w) ->
  preserves same_cursors (mstmt g).
Proof.
  intros Hg db [x|e] db' Hr; [|by apply mstmt_Err in Hr as ->]. apply mstmt_Ok in Hr as (w1 & n & Hw & ->).
  specialize (Hg db). by rewrite Hw in Hg.
Qed.
Lemma cursors_transaction {A} (body : io mail SyncError A) :
  preserves same_cursors body -> preserves same_cursors (transaction body).
Proof.
  intros Hb db [x|e] db' Hr; [|by apply transaction_Err in Hr as (_ & ? & _)].
  apply transaction_Ok in Hr as (n & n' & w1 & Hw & ->). by apply Hb in Hw.
Qed.
Lemma cursors_counts `{StoreLib} f : preserves same_cursors (update_folder_counts_in_tx f).
Proof.
  unfold update_folder_counts_in_tx, update_folder. apply pres_bind; [apply _|by apply cursors_stmt|intros ?].
  apply pres_bind; [apply _|by apply cursors_stmt|intros ?]. by apply cursors_stmt.
Qed.

Section Specs.
Context `{StoreLaws} `{JsonLib}.

(** The row an upsert leaves under its key. *)
Definition stored (row : MessageRow) (old : option MessageRow) : MessageRow :=
  match old with Some cur => fill_in row cur | None => row end.

Lemma upsert_row_find row a e rows a' e' :
  m_account row = a -> m_external row = Some e ->
  List.find (message_is a' e') (upsert_row row rows) =
  if decide ((a', e') = (a, e)) then Some (stored row (List.find (message_is a e) rows))
  else List.find (message_is a' e') rows.
Proof.
  intros Ha He. unfold upsert_row. rewrite He, Ha, existsb_find.
  assert (Hrow : forall x y, message_is x y row = true <-> (x, y) = (a, e)).
  { intros x y. rewrite message_is_spec. unfold message_key. rewrite He, Ha. cbn. split; [by intros [= -> ->]|by intros ->]. }
  assert (Hmap : List.find (message_is a' e') (map (fun m => if message_is a e m then fill_in row m else m) rows) =
    option_map (fun m => if message_is a e m then fill_in row m else m) (List.find (message_is a' e') rows)).
  { apply find_map_keeps. intros m. by destruct (message_is a e m). }
  destruct (List.find (message_is a e) rows) as [cur|] eqn:Hf.
  - rewrite Hmap. destruct (decide _) as [[= -> ->]|Hne].
    + rewrite Hf. cbn. apply find_some in Hf as [_ ->]. done.
    + destruct (List.find (message_is a' e') rows) as [x|] eqn:Hx; [|done]. cbn. do 2 f_equal.
      apply find_some in Hx as [_ Hx]. destruct (message_is a e x) eqn:Hxa; [|done].
      apply message_is_spec in Hx, Hxa. congruence.
  - rewrite find_app_new. destruct (decide _) as [[= -> ->]|Hne].
    + rewrite Hf, (proj2 (Hrow a e)); done.
    + destruct (message_is a' e' row) eqn:Hx; [by apply Hrow in Hx|]. by destruct (List.find _ rows).
Qed.

Lemma imap_row_key id a f stamp msg :
  m_account (imap_row id a f stamp msg) = a /\
  m_external (imap_row id a f stamp msg) = Some (imap_message_external_id f (im_uid msg)).
Proof. done. Qed.

(** Tables other than [message], and the clock. *)
Definition rest_same (w w' : mail) : Prop :=
  ml_cursors w' = ml_cursors w /\ ml_folders w' = ml_folders w /\ ml_now w' = ml_now w.

Lemma upsert_message_Ok a f msg w was w' :
  upsert_message_in_tx a f msg w = (Ok was, w') ->
  exists id, ml_messages w' = upsert_row (imap_row id a f (sql_now (ml_now w)) msg) (ml_messages w) /\
    was = bool_decide (row_at w a (imap_message_external_id f (im_uid msg)) = None) /\ rest_same w w'.
Proof.
  intros (ex & w1 & (w1' & n & [= <- <-] & ->)%mstmt_Ok & Hb)%bind_Ok.
  apply bind_Ok in Hb as (id & w2 & [= <- <-] & Hb).
  apply bind_Ok in Hb as ([] & w3 & (w3' & n' & [= <-] & ->)%mstmt_Ok & Hb). injection Hb as <- <-.
  eexists. split; [reflexivity|]. split; [|by split_and!].
  unfold row_at. by destruct (List.find _ _).
Qed.

Lemma upsert_message_at a f msg w was w' :
  upsert_message_in_tx a f msg w = (Ok was, w') ->
  let e := imap_message_external_id f (im_uid msg) in
  rest_same w w' /\ was = bool_decide (row_at w a e = None) /\
  exists id, forall a' e', row_at w' a' e' =
    if decide ((a', e') = (a, e)) then Some (stored (imap_row id a f (sql_now (ml_now w)) msg) (row_at w a e))
    else row_at w a' e'.
Proof.
  intros (id & Hm & -> & Hr)%upsert_message_Ok e. split; [done|]. split; [done|]. exists id. intros a' e'.
  unfold row_at. rewrite Hm. by apply upsert_row_find.
Qed.

(** A batch: every message ends up under its key, nothing else moves. *)
Definition is_new (a f : string) (w : mail) (msg : ImapMessage) : bool :=
  bool_decide (row_at w a (imap_message_external_id f (im_uid msg)) = None).

Lemma upsert_all_at a f msgs : forall n u w k w',
  NoDup (im_uid <$> msgs) -> Forall (fun msg => u32 (im_uid msg)) msgs ->
  upsert_all a f msgs n u w = (Ok k, w') ->
  rest_same w w' /\ (fst k + snd k = n + u + length msgs)%nat /\
  fst k = (n + length (List.filter (is_new a f w) msgs))%nat /\
  (forall msg, msg ∈ msgs -> exists id, row_at w' a (imap_message_external_id f (im_uid msg)) =
     Some (stored (imap_row id a f (sql_now (ml_now w)) msg) (row_at w a (imap_message_external_id f (im_uid msg))))) /\
  (forall a' e', (forall msg, msg ∈ msgs -> (a', e') <> (a, imap_message_external_id f (im_uid msg))) ->
     row_at w' a' e' = row_at w a' e').
Proof.
  induction msgs as [|msg msgs IH]; intros n u w k w' Hnd Hu Hall.
  { injection Hall as <- <-. split; [done|]. split; [cbn; lia|]. split; [cbn; lia|].
    split; [by intros ? ?%not_elem_of_nil|done]. }
  cbn [upsert_all] in Hall. apply bind_Ok in Hall as (was & w1 & Hm & Hall).
  apply NoDup_cons in Hnd as [Hni Hnd]. apply Forall_cons in Hu as [Hum Hus].
  apply upsert_message_at in Hm as ((Hc & Hf & Hn) & Hwas & id & Hat).
  assert (Hne : forall m, m ∈ msgs -> imap_message_external_id f (im_uid m) <> imap_message_external_id f (im_uid msg)).
  { intros m Hin Heq. apply external_inj in Heq as [_ Heq]; [|by apply (proj1 (Forall_forall _ _) Hus)|done].
    apply Hni. rewrite <- Heq. by apply list_elem_of_fmap_2. }
  assert (Hkeep : forall m, m ∈ msgs -> row_at w1 a (imap_message_external_id f (im_uid m)) =
                                   row_at w a (imap_message_external_id f (im_uid m))).
  { intros m Hin. rewrite Hat, decide_False; [done|]. intros [= Heq]. by eapply Hne. }
  assert (Hsum : exists n' u', (n' + u' = S (n + u))%nat /\ n' = (n + (if was then 1 else 0))%nat /\
            upsert_all a f msgs n' u' w1 = (Ok k, w')).
  { destruct was; eexists _, _; (split; [|split; [|exact Hall]]); lia. }
  destruct Hsum as (n' & u' & Hs & Hn' & Hall').
  apply IH in Hall' as ((Hc' & Hf' & Hnow') & Hcount & Hnew & Hin' & Hout'); [|done..].
  split; [split_and!; congruence|]. split; [cbn; lia|]. split; [|split].
  - rewrite Hnew, Hn'. cbn [List.filter]. unfold is_new at 2. rewrite <- Hwas.
    rewrite (filter_ext_in (is_new a f w1) (is_new a f w)).
    + destruct was; cbn; lia.
    + intros m Hin%list_elem_of_In. unfold is_new. by rewrite Hkeep.
  - intros m [->|Hin]%elem_of_cons.
    + exists id. rewrite Hout' by (intros m' Hm' [= Heq]; by eapply Hne). by rewrite Hat, decide_True.
    + destruct (Hin' m Hin) as [id' ->]. exists id'. by rewrite Hnow', Hkeep || rewrite Hn, Hkeep.
  - intros a' e' Hno. rewrite Hout' by (intros m Hm; apply Hno; by right). rewrite Hat, decide_False; [done|].
    apply Hno. by left.
Qed.

(** The wipe, seen through the keys. *)
Lemma find_filter_key {A B} `{EqDecision B} (p q : A -> bool) (key : A -> option B) k l :
  (forall x, p x = true <-> key x = Some k) -> NoDup (omap key l) ->
  List.find p (List.filter q l) = match List.find p l with Some x => if q x then Some x else None | None => None end.
Proof.
  intros Hp. induction l as [|x l IH]; [done|]. cbn. intros Hnd.
  destruct (p x) eqn:Hx.
  - apply Hp in Hx as Hk. rewrite Hk in Hnd. apply NoDup_cons in Hnd as [Hni Hnd].
    destruct (q x); cbn; [by rewrite Hx|].
    destruct (List.find p (List.filter q l)) as [y|] eqn:Hy; [|done]. exfalso. apply Hni.
    apply find_some in Hy as [[Hin _]%List.filter_In Hpy]. apply list_elem_of_omap.
    exists y. split; [by apply list_elem_of_In|by apply Hp].
  - assert (Hnd' : NoDup (omap key l)) by (destruct (key x); [by apply NoDup_cons in Hnd as [_ ?]|done]).
    destruct (q x); cbn; [rewrite Hx|]; by apply IH.
Qed.

Definition kept (clear : bool) (f : string) (old : option MessageRow) : option MessageRow :=
  match old with Some m => if clear && String.eqb (m_folder m) f then None else Some m | None => None end.
Definition cursor_kept (clear : bool) (f f' t' : string) (old : option string) : option string :=
  if clear && String.eqb f' f && negb (String.eqb t' "email_state") then None else old.

Lemma clear_Ok clear f w w' : mail_ok w -> when clear (clear_folder_messages_in_tx f) w = (Ok tt, w') ->
  ml_folders w' = ml_folders w /\ ml_now w' = ml_now w /\
  (forall a e, row_at w' a e = kept clear f (row_at w a e)) /\
  (forall a f' t, cursor_at w' a f' t = cursor_kept clear f f' t (cursor_at w a f' t)).
Proof.
  intros Hok Hw. destruct clear; cbn in Hw.
  2: { injection Hw as <-. split; [done|]. split; [done|]. split; [|done]. intros a e. by destruct (row_at w a e). }
  apply bind_Ok in Hw as ([] & w1 & (w1' & n & [= <-] & ->)%mstmt_Ok & Hw).
  apply mstmt_Ok in Hw as (w2 & n' & [= <-] & ->). split; [done|]. split; [done|]. split.
  - intros a e. unfold row_at. cbn.
    rewrite (find_filter_key _ _ message_key (a, e)); [|intros; apply message_is_spec|by apply Hok].
    destruct (List.find _ _) as [m|]; [|done]. cbn. by destruct (m_folder m =? f)%string.
  - intros a f' t. unfold cursor_at, cursor_kept. cbn.
    rewrite (find_filter_key _ _ (fun c => Some (cursor_key c)) (a, f', t)).
    + destruct (List.find _ _) as [c|] eqn:Hc; cbn; [|by destruct (_ && _)].
      apply find_some in Hc as [_ Hc]. apply cursor_is_spec in Hc. unfold cursor_key in Hc.
      assert (cu_folder c = f' /\ cu_type c = t) as [-> ->] by (by simplify_eq).
      by destruct ((f' =? f)%string && negb (t =? "email_state")%string).
    + intros c. rewrite cursor_is_spec. split; [by intros ->|congruence].
    + replace (omap (fun c => Some (cursor_key c)) (ml_cursors w)) with (cursor_key <$> ml_cursors w); [by apply Hok|].
      generalize (ml_cursors w). intros l. induction l as [|c l IHl]; [done|]. cbn. by f_equal.
Qed.

Lemma write_cursor_Ok a f p t v w w' : write_cursor a f p t v w = (Ok tt, w') ->
  ml_messages w' = ml_messages w /\ ml_folders w' = ml_folders w /\ ml_now w' = ml_now w /\
  forall a' f' t', cursor_at w' a' f' t' =
    if decide ((a', f', t') = (a, f, t)) then Some v else cursor_at w a' f' t'.
Proof.
  intros (id & w1 & [= <- <-] & Hw)%bind_Ok. apply mstmt_Ok in Hw as (w2 & n & [= <-] & ->).
  split_and!; try done. intros a' f' t'. unfold cursor_at, upsert_cursor. cbn.
  assert (Hkey : forall c, cursor_is a' f' t' c = true -> cursor_is a f t c = true -> (a', f', t') = (a, f, t)).
  { intros c Hc Hc'. apply cursor_is_spec in Hc, Hc'. congruence. }
  rewrite existsb_find. destruct (List.find (cursor_is a f t) (ml_cursors w)) as [c|] eqn:Hc.
  - rewrite find_map_keeps by (intros x; by destruct (cursor_is a f t x)).
    destruct (decide _) as [[= -> -> ->]|Hne].
    + rewrite Hc. cbn. apply find_some in Hc as [_ ->]. done.
    + destruct (List.find (cursor_is a' f' t') _) as [x|] eqn:Hx; [|done]. cbn. f_equal.
      apply find_some in Hx as [_ Hx]. destruct (cursor_is a f t x) eqn:Hx'; [|done]. by destruct Hne; eapply Hkey.
  - rewrite find_app_new. destruct (decide _) as [[= -> -> ->]|Hne].
    + rewrite Hc. unfold cursor_is. cbn. by rewrite !String.eqb_refl.
    + destruct (List.find (cursor_is a' f' t') _); [done|].
      destruct (cursor_is a' f' t' _) eqn:Hx; [|done]. apply cursor_is_spec in Hx. unfold cursor_key in Hx.
      cbn in Hx. by destruct Hne.
Qed.

Definition counted (f : string) (w : mail) (r : FolderRow) : Prop :=
  f_total r = clamp_i32 (folder_count false (sql_now (ml_now w)) f (ml_messages w)) /\
  f_unread r = clamp_i32 (folder_count true (sql_now (ml_now w)) f (ml_messages w)).
Lemma counts_Ok f w w' : update_folder_counts_in_tx f w = (Ok tt, w') ->
  ml_messages w' = ml_messages w /\ ml_cursors w' = ml_cursors w /\ ml_now w' = ml_now w /\
  (forall r, r ∈ ml_folders w' -> f_id r = f -> counted f w' r) /\
  (forall r, f_id r <> f -> (r ∈ ml_folders w' <-> r ∈ ml_folders w)).
Proof.
  intros (total & w1 & (w1' & n1 & [= <- <-] & ->)%mstmt_Ok & Hw)%bind_Ok.
  apply bind_Ok in Hw as (unread & w2 & (w2' & n2 & [= <- <-] & ->)%mstmt_Ok & Hw).
  apply mstmt_Ok in Hw as (w3 & n3 & [= <-] & ->). split_and!; try done; cbn; unfold update_folders.
  - intros r (x & Hx & Hin)%list_elem_of_In%in_map_iff Hid. unfold folder_by_id in Hx.
    destruct (String.eqb_spec (f_id x) f) as [He|He]; subst r; [done|done].
  - intros r Hid. rewrite !list_elem_of_In, in_map_iff. unfold folder_by_id. split.
    + intros (x & Hx & Hin). destruct (String.eqb_spec (f_id x) f) as [He|He]; subst r; done.
    + intros Hin. exists r. by rewrite (proj2 (String.eqb_neq _ _) Hid).
Qed.

(** What a batch of fetched messages leaves in the tables. *)
Record batch_stored (a f : string) (msgs : list ImapMessage) (uv last ms : Z) (clear : bool)
    (w w' : mail) (counts : nat * nat) : Prop := {
  bs_new : fst counts = length (List.filter (fun msg => bool_decide
      (kept clear f (row_at w a (imap_message_external_id f (im_uid msg))) = None)) msgs);
  bs_updated : (fst counts + snd counts = length msgs)%nat;
  bs_rows : forall msg, msg ∈ msgs -> exists id, row_at w' a (imap_message_external_id f (im_uid msg)) =
      Some (stored (imap_row id a f (sql_now (ml_now w)) msg)
              (kept clear f (row_at w a (imap_message_external_id f (im_uid msg)))));
  bs_others : forall a' e, (forall msg, msg ∈ msgs -> (a', e) <> (a, imap_message_external_id f (im_uid msg))) ->
      row_at w' a' e = kept clear f (row_at w a' e);
  bs_cursor : option_map parse_cursor_value (cursor_at w' a f "uidvalidity_uid") = Some (mkCursorInfo uv last ms);
  bs_cursors : forall a' f' t, (a', f', t) <> (a, f, "uidvalidity_uid") ->
      cursor_at w' a' f' t = cursor_kept clear f f' t (cursor_at w a' f' t);
  bs_counts : forall r, r ∈ ml_folders w' -> f_id r = f -> counted f w' r;
  bs_folders : forall r, f_id r <> f -> (r ∈ ml_folders w' <-> r ∈ ml_folders w);
}.

Lemma set_fuse_ok n w : mail_ok w -> mail_ok (set_fuse n w).
Proof. intros [? ? ? ? ? ?]. by split. Qed.

Lemma persist_run a f msgs uv last ms clear w r w' :
  mail_ok w -> NoDup (im_uid <$> msgs) -> Forall (fun msg => u32 (im_uid msg)) msgs ->
  u32 uv -> u32 last -> u64 ms ->
  persist_imap_folder_batch a f msgs uv last ms clear w = (r, w') ->
  match r with
  | Ok counts => batch_stored a f msgs uv last ms clear w w' counts /\ ml_now w' = ml_now w
  | Err _ => same_tables w w'
  end.
Proof.
  intros Hok Hnd Hu Huv Hl Hms Hp. destruct r as [counts|e]; [|by apply transaction_Err in Hp].
  apply transaction_Ok in Hp as (n0 & n1 & w1 & Hp & ->). apply (set_fuse_ok n0) in Hok.
  apply bind_Ok in Hp as ([] & wa & Hclear & Hp). apply clear_Ok in Hclear as (Hfa & Hna & Hra & Hca); [|done].
  apply bind_Ok in Hp as (k & wb & Hall & Hp).
  apply upsert_all_at in Hall as ((Hcb & Hfb & Hnb) & Hsum & Hnew & Hin & Hout); [|done..].
  apply bind_Ok in Hp as ([] & wc & Hcur & Hp). apply write_cursor_Ok in Hcur as (Hmc & Hfc & Hnc & Hcc).
  apply bind_Ok in Hp as ([] & wd & Hcnt & Hp). injection Hp as <- <-.
  apply counts_Ok in Hcnt as (Hmd & Hcd & Hnd' & Hct & Hfo).
  assert (Hrow : forall a' e, row_at (set_fuse n1 wd) a' e = row_at wb a' e).
  { intros a' e. unfold row_at. cbn. by rewrite Hmd, Hmc. }
  assert (Hcur : forall a' f' t, cursor_at (set_fuse n1 wd) a' f' t =
    if decide ((a', f', t) = (a, f, "uidvalidity_uid")) then Some (format_cursor_value uv last ms)
    else cursor_kept clear f f' t (cursor_at w a' f' t)).
  { intros a' f' t. replace (cursor_at (set_fuse n1 wd) a' f' t) with (cursor_at wc a' f' t)
      by (unfold cursor_at; cbn; by rewrite Hcd).
    rewrite Hcc. destruct (decide _); [done|]. pose proof (Hca a' f' t) as Hx.
    unfold cursor_at in Hx |- *. by rewrite Hcb. }
  cbn in Hna, Hfa. split; [|cbn; congruence]. split.
  - rewrite Hnew. cbn. f_equal. apply filter_ext_in. intros m _. unfold is_new. by rewrite Hra.
  - done.
  - intros msg Hmsg. destruct (Hin msg Hmsg) as [id Hat]. exists id. by rewrite Hrow, Hat, Hra, Hna.
  - intros a' e Hno. by rewrite Hrow, Hout, Hra.
  - rewrite Hcur, decide_True by done. cbn. f_equal. by apply cursor_value_parses.
  - intros a' f' t Hne. by rewrite Hcur, decide_False.
  - intros r Hr Hid. by apply Hct.
  - intros r Hid. cbn. rewrite Hfo by done. rewrite Hfc, Hfb, Hfa. done.
Qed.

(** A folder page is stored whole or not at all.  On a failure at any statement the
    three tables are as they were.  On success every fetched message has its row: a new
    one as fetched, an old one by the fill-in rule; the wipe removed exactly the
    folder's old rows and cursors; every other row and cursor is as it was; the cursor
    reads back as written; and the folder's two counters count its live rows. *)
Theorem folder_page_stored (a f : string) (msgs : list ImapMessage) (uv last ms : Z) (clear : bool)
    (w : mail) (r : result SyncError (nat * nat)) (w' : mail) :
  mail_ok w -> NoDup (im_uid <$> msgs) -> Forall (fun msg => u32 (im_uid msg)) msgs ->
  u32 uv -> u32 last -> u64 ms ->
  persist_imap_folder_batch a f msgs uv last ms clear w = (r, w') ->
  match r with
  | Ok counts => batch_stored a f msgs uv last ms clear w w' counts
  | Err _ => same_tables w w'
  end.
Proof.
  intros Hok Hnd Hu Huv Hl Hms Hp. apply persist_run in Hp; [|done..]. destruct r; [by destruct Hp|done].
Qed.

(** A sync never undoes local state.  When a message that has a row is fetched
    again, the row keeps its id, folder, labels, snooze, soft deletion, body and blob; a
    subject, sender, recipient or snippet that reads well is kept, and one that is
    missing, empty, still encoded or mangled is replaced; a date, Message-ID or mailer
    is only filled in; read, starred and flags are the server's. *)
Theorem refetch_keeps_local_state (a f : string) (msg : ImapMessage) (w w' : mail) (was : bool) (cur : MessageRow) :
  let e := imap_message_external_id f (im_uid msg) in
  row_at w a e = Some cur -> upsert_message_in_tx a f msg w = (Ok was, w') ->
  was = false /\ exists m, row_at w' a e = Some m /\
    m_id m = m_id cur /\ m_folder m = m_folder cur /\ m_labels m = m_labels cur /\ m_deleted m = m_deleted cur /\
    m_snoozed_until m = m_snoozed_until cur /\ m_body_text m = m_body_text cur /\ m_body_html m = m_body_html cur /\
    m_raw_blob m = m_raw_blob cur /\
    (stale_text (m_subject cur) = false -> m_subject m = m_subject cur) /\
    (stale_text (m_subject cur) = true -> m_subject m = im_subject msg) /\
    (stale_text (m_from cur) = false -> m_from m = m_from cur) /\
    (stale_text (m_snippet cur) = false -> m_snippet m = m_snippet cur) /\
    (forall d, m_date cur = Some d -> m_date m = Some d) /\
    (m_mailer cur = None -> m_mailer m = im_mailer msg) /\
    m_read m = flag_seen (im_flags msg) /\ m_starred m = flag_flagged (im_flags msg).
Proof.
  intros e Hcur Hup. apply upsert_message_at in Hup as (_ & Hwas & id & Hat). fold e in Hwas, Hat.
  rewrite Hcur in Hwas, Hat. split; [done|]. eexists. rewrite Hat, decide_True by done. split; [done|].
  cbn. unfold refresh, coalesce. split_and!; try done; try by intros ->.
  all: intros; by destruct (m_date cur), (m_mailer cur).
Qed.

(** ** Reconciliation *)

Definition stale_row (a f : string) (uids : gset Z) (m : MessageRow) : bool :=
  live_in a f m && match parse_imap_uid (m_external m) with Ok uid => bool_decide (uid ∉ uids) | Err _ => false end.

Lemma stale_ids_spec a f uids rows :
  stale_imap_row_ids (map (fun m => (m_id m, m_external m)) (List.filter (live_in a f) rows)) uids =
  m_id <$> List.filter (stale_row a f uids) rows.
Proof.
  induction rows as [|m rows IH]; [done|]. cbn. unfold stale_row at 1.
  destruct (live_in a f m); cbn [andb]; [|apply IH]. cbn. unfold stale_imap_row_ids in IH.
  destruct (parse_imap_uid (m_external m)) as [uid|]; cbn; [|apply IH].
  destruct (decide (uid ∈ uids)) as [Hin|Hin].
  - rewrite (bool_decide_true (uid ∈ uids)), (bool_decide_false (uid ∉ uids)) by tauto. apply IH.
  - rewrite (bool_decide_false (uid ∈ uids)), (bool_decide_true (uid ∉ uids)) by tauto. cbn. f_equal. apply IH.
Qed.

Lemma row_by_id w x y : mail_ok w -> x ∈ ml_messages w -> y ∈ ml_messages w -> m_id x = m_id y -> x = y.
Proof.
  intros [_ Hnd _ _ _ _] [i Hi]%list_elem_of_lookup [j Hj]%list_elem_of_lookup He.
  assert (i = j) as ->; [|congruence]. apply (NoDup_lookup _ i j (m_id x) Hnd); rewrite list_lookup_fmap.
  - by rewrite Hi.
  - rewrite Hj. cbn. congruence.
Qed.

Lemma reconcile_Ok a f uids w n w' : mail_ok w ->
  reconcile_folder_deletions a f uids w = (Ok n, w') ->
  ml_messages w' = update_messages (stale_row a f uids) soft_delete (ml_messages w) /\
  n = length (List.filter (stale_row a f uids) (ml_messages w)) /\
  ml_cursors w' = ml_cursors w /\ ml_now w' = ml_now w.
Proof.
  intros Hok (rows & w1 & (w1' & n1 & [= <- <-] & ->)%mstmt_Ok & Hr)%bind_Ok. cbn in Hr.
  rewrite stale_ids_spec in Hr. set (hit := stale_row a f uids) in *.
  assert (Hupd : update_messages (fun m => bool_decide (m_id m ∈ (m_id <$> List.filter hit (ml_messages w))))
                   soft_delete (ml_messages w) = update_messages hit soft_delete (ml_messages w)).
  { unfold update_messages. apply map_ext_in. intros m Hm%list_elem_of_In.
    replace (bool_decide _) with (hit m); [done|]. symmetry. destruct (hit m) eqn:Hh.
    - apply bool_decide_true. apply list_elem_of_fmap_2, list_elem_of_In, List.filter_In.
      split; [by apply list_elem_of_In|done].
    - apply bool_decide_false. intros (x & Hid & Hx)%list_elem_of_fmap.
      apply list_elem_of_In, List.filter_In in Hx as [Hx%list_elem_of_In Hhx].
      by rewrite (row_by_id w m x Hok Hm Hx Hid), Hhx in Hh. }
  destruct (m_id <$> List.filter hit (ml_messages w)) as [|i ids] eqn:Hids.
  - injection Hr as <- <-. assert (Hnil : List.filter hit (ml_messages w) = []).
    { by apply fmap_nil_inv in Hids. }
    rewrite Hnil. split_and!; try done. cbn. rewrite <- Hupd. unfold update_messages.
    symmetry. rewrite (map_ext _ id), map_id; [done|]. intros m.
    by rewrite bool_decide_false by apply not_elem_of_nil.
  - apply transaction_Ok in Hr as (n2 & n3 & w2 & Hb & ->).
    apply bind_Ok in Hb as ([] & w3 & (w3' & n4 & [= <-] & ->)%mstmt_Ok & Hb).
    apply bind_Ok in Hb as ([] & w4 & Hc & [= <- <-]).
    apply counts_Ok in Hc as (Hm & Hc & Hn & _). cbn in *. rewrite Hm, <- Hupd. split_and!; try done.
    apply (f_equal length) in Hids. rewrite length_fmap in Hids. by rewrite Hids.
Qed.

(** Reconciliation deletes exactly the vanished mail.  Given a complete UID listing
    of a folder, a live row of that account and folder is soft-deleted when its UID is
    not in the listing; rows with a listed UID, rows without a readable UID, other
    folders and other accounts keep their state; nothing else about any row changes. *)
Theorem reconcile_is_exact (a f : string) (uids : gset Z) (w : mail) (n : nat) (w' : mail) :
  mail_ok w -> reconcile_folder_deletions a f uids w = (Ok n, w') ->
  n = length (List.filter (stale_row a f uids) (ml_messages w)) /\
  Forall2 (fun m m' => m' = if stale_row a f uids m then soft_delete m else m) (ml_messages w) (ml_messages w') /\
  (forall m uid, m ∈ ml_messages w' -> live_in a f m = true -> parse_imap_uid (m_external m) = Ok uid -> uid ∈ uids).
Proof.
  intros Hok Hr. apply reconcile_Ok in Hr as (Hm & -> & _ & _); [|done]. split; [done|]. rewrite Hm. split.
  - unfold update_messages. clear. induction (ml_messages w) as [|m l IH]; constructor; done.
  - intros m uid (x & Hx & Hin)%list_elem_of_In%in_map_iff Hlive Hp. destruct (stale_row a f uids x) eqn:Hs.
    + subst m. unfold live_in in Hlive. cbn in Hlive. by rewrite andb_false_r in Hlive.
    + subst m. unfold stale_row in Hs. rewrite Hlive, Hp in Hs. cbn in Hs.
      apply bool_decide_eq_false in Hs. by destruct (decide (uid ∈ uids)).
Qed.

(** ** JMAP pages *)

Lemma find_in (p : MessageRow -> bool) w m : List.find p (ml_messages w) = Some m -> m ∈ ml_messages w /\ p m = true.
Proof. intros [Hin Hp]%find_some. split; [by apply list_elem_of_In|done]. Qed.
Lemma omap_key_unique {A B} (key : A -> option B) l x y k :
  NoDup (omap key l) -> x ∈ l -> y ∈ l -> key x = Some k -> key y = Some k -> x = y.
Proof.
  induction l as [|z l IH]; [by intros _ ?%not_elem_of_nil|]. cbn. intros Hnd Hx Hy Hkx Hky.
  assert (Hno : forall v, v ∈ l -> key v = Some k -> key z = Some k -> False).
  { intros v Hv Hkv Hz. rewrite Hz in Hnd. apply NoDup_cons in Hnd as [Hni _]. apply Hni, list_elem_of_omap. eauto. }
  apply elem_of_cons in Hx as [->|Hx], Hy as [->|Hy]; [done|by edestruct Hno|by edestruct Hno|].
  apply IH; try done. destruct (key z); [by apply NoDup_cons in Hnd as [_ ?]|done].
Qed.
Lemma row_at_elem w a e x : mail_ok w -> (row_at w a e = Some x <-> x ∈ ml_messages w /\ message_key x = Some (a, e)).
Proof.
  intros Hok. unfold row_at. split; [intros [Hin Hk%message_is_spec]%find_in; done|]. intros [Hin Hk].
  destruct (List.find (message_is a e) (ml_messages w)) as [y|] eqn:Hy.
  - apply find_in in Hy as [Hyin Hyk%message_is_spec]. f_equal. by eapply omap_key_unique; [apply Hok|..].
  - apply list_elem_of_In in Hin. pose proof (find_none _ _ Hy x Hin) as Hn.
    by rewrite (proj2 (message_is_spec a e x)) in Hn.
Qed.

(** What one JMAP message leaves: [row] is the row under its id. *)
Definition jmap_stored (a f stamp : string) (e : JmapEmail) (old : option MessageRow) (row : MessageRow) : Prop :=
  match old with
  | Some cur => row = jmap_refresh e f stamp cur
  | None => exists id, row = jmap_row id a f stamp e
  end.

Lemma upsert_jmap_at a f e w was id w' : mail_ok w ->
  upsert_jmap_message_in_tx a f e w = (Ok (was, id), w') ->
  mail_ok w' /\ rest_same w w' /\ was = bool_decide (row_at w a (je_id e) = None) /\
  (exists row, row_at w' a (je_id e) = Some row /\ m_id row = id /\
     jmap_stored a f (sql_now (ml_now w)) e (row_at w a (je_id e)) row) /\
  (forall a' e', (a', e') <> (a, je_id e) -> row_at w' a' e' = row_at w a' e').
Proof.
  intros Hok Hup. assert (Hok' : mail_ok w') by (by apply (pres_upsert_jmap a f e w _ w' Hup)). split; [done|].
  apply bind_Ok in Hup as (ex & w1 & (w1' & n & [= <- <-] & ->)%mstmt_Ok & Hb). change (List.find _ _) with (row_at w a (je_id e)) in Hb.
  destruct (row_at w a (je_id e)) as [cur|] eqn:Hcur; cbn [option_map] in Hb.
  - apply bind_Ok in Hb as ([] & w2 & (w2' & n' & [= <-] & ->)%mstmt_Ok & [= <- <- <-]).
    split; [done|]. split; [done|]. apply (row_at_elem w a _ cur Hok) in Hcur as [Hin Hkey].
    assert (Hmiss : forall m, m ∈ ml_messages w -> m <> cur -> message_by_id (m_id cur) m = false).
    { intros m Hm Hne. apply String.eqb_neq. intros He. by apply Hne, (row_by_id w). }
    split.
    + eexists. split; [|split; [|reflexivity]]; [|done]. apply row_at_elem; [done|]. split; [|done].
      cbn. apply list_elem_of_In, in_map_iff. exists cur. split; [|by apply list_elem_of_In].
      unfold message_by_id. by rewrite String.eqb_refl.
    + intros a' e' Hne. unfold row_at. cbn. unfold update_messages.
      rewrite find_map_keeps by (intros m; by destruct (message_by_id _ m)).
      destruct (List.find (message_is a' e') _) as [x|] eqn:Hx; [|done]. cbn. f_equal.
      apply find_in in Hx as [Hxin Hxk%message_is_spec]. rewrite Hmiss; [done..|]. congruence.
  - apply bind_Ok in Hb as (uuid & w2 & [= <- <-] & Hb). apply bind_Ok in Hb as (stamp & w3 & [= <- <-] & Hb).
    apply bind_Ok in Hb as ([] & w4 & Hins & Hb). unfold insert_message in Hins.
    apply bind_Ok in Hins as (clash & w5 & (w5' & n5 & Hc & ->)%mstmt_Ok & Hins).
    destruct clash; [done|]. injection Hins as <-. destruct (existsb _ _) in Hc; [done|]. injection Hc as <-.
    apply bind_Ok in Hb as (found & w6 & (w6' & n6 & [= <- <-] & ->)%mstmt_Ok & Hb).
    apply bind_Ok in Hb as (i & w7 & Hl & [= <- <- <-]).
    set (row := jmap_row _ a f _ e) in *. cbn in Hl.
    assert (Hrow : message_is a (je_id e) row = true).
    { apply message_is_spec. done. }
    assert (Hat : forall a' e', List.find (message_is a' e') (ml_messages w ++ [row])%list =
      if decide ((a', e') = (a, je_id e)) then Some row else row_at w a' e').
    { intros a' e'. rewrite find_app_new. change (List.find (message_is a' e') (ml_messages w)) with (row_at w a' e').
      destruct (decide _) as [[= -> ->]|Hne]; [by rewrite Hcur, Hrow|].
      destruct (row_at w a' e'); [done|]. destruct (message_is a' e' row) eqn:Hx; [|done].
      apply message_is_spec in Hx, Hrow. congruence. }
    rewrite Hat, decide_True in Hl by done. injection Hl as Hl <-.
    split; [done|]. split; [done|]. split.
    + exists row. split; [unfold row_at; cbn; by rewrite Hat, decide_True|]. split; [done|]. by eexists.
    + intros a' e' Hne. unfold row_at at 1. cbn. by rewrite Hat, decide_False.
Qed.

Lemma upsert_jmap_all_at a f es : forall n u acc w k w', mail_ok w -> NoDup (je_id <$> es) ->
  upsert_jmap_all a f es n u acc w = (Ok k, w') ->
  rest_same w w' /\ (fst (fst k) + snd (fst k) = n + u + length es)%nat /\
  (exists p, snd k = (acc ++ p)%list /\ Forall2 (fun e '(id, was) =>
     was = bool_decide (row_at w a (je_id e) = None) /\
     exists row, row_at w' a (je_id e) = Some row /\ m_id row = id /\
       jmap_stored a f (sql_now (ml_now w)) e (row_at w a (je_id e)) row) es p) /\
  (forall a' e', (forall e, e ∈ es -> (a', e') <> (a, je_id e)) -> row_at w' a' e' = row_at w a' e').
Proof.
  induction es as [|e es IH]; intros n u acc w k w' Hok Hnd Hall.
  { injection Hall as <- <-. split; [done|]. split; [cbn; lia|]. split; [|done].
    exists []. by rewrite app_nil_r. }
  cbn [upsert_jmap_all] in Hall. apply bind_Ok in Hall as ([was id] & w1 & Hm & Hall).
  apply NoDup_cons in Hnd as [Hni Hnd].
  apply upsert_jmap_at in Hm as (Hok1 & (Hc & Hf & Hn) & Hwas & (row & Hrow & Hid & Hst) & Hout); [|done].
  assert (Hne : forall e', e' ∈ es -> (a, je_id e') <> (a, je_id e)).
  { intros e' Hin [= Heq]. apply Hni. rewrite <- Heq. by apply list_elem_of_fmap_2. }
  assert (Hsum : exists n' u', (n' + u' = S (n + u))%nat /\
            upsert_jmap_all a f es n' u' (acc ++ [(id, was)]) w1 = (Ok k, w')).
  { destruct was; eexists _, _; (split; [|exact Hall]); lia. }
  destruct Hsum as (n' & u' & Hs & Hall').
  apply IH in Hall' as ((Hc' & Hf' & Hn') & Hcount & (p & Hp & Hfa) & Hout'); [|done..].
  split; [split_and!; congruence|]. split; [cbn; lia|]. split.
  - exists ((id, was) :: p). split; [by rewrite Hp, <- app_assoc|]. constructor.
    + split; [done|]. exists row. split; [|done]. rewrite Hout'; [done|]. intros e' Hin Heq. by eapply Hne.
    + eapply Forall2_impl_elem; [exact Hfa|]. intros e' [id' was'] Hin. by rewrite (Hout a _ (Hne e' Hin)), Hn.
  - intros a' e' Hno. rewrite Hout' by (intros e'' Hin; apply Hno; by right). apply Hout, Hno. by left.
Qed.

(** What a page of JMAP messages leaves in the tables: the answered ids are those of the
    rows, in the order of the page. *)
Record jmap_page (a f : string) (es : list JmapEmail) (q : option string) (w w' : mail)
    (k : nat * nat * list (string * bool)) : Prop := {
  jp_counts : (fst (fst k) + snd (fst k) = length es)%nat;
  jp_rows : Forall2 (fun e '(id, was) =>
     was = bool_decide (row_at w a (je_id e) = None) /\
     exists row, row_at w' a (je_id e) = Some row /\ m_id row = id /\
       jmap_stored a f (sql_now (ml_now w)) e (row_at w a (je_id e)) row) es (snd k);
  jp_others : forall a' e', (forall e, e ∈ es -> (a', e') <> (a, je_id e)) -> row_at w' a' e' = row_at w a' e';
  jp_state : cursor_at w' a f "state_token" =
     match q with Some qs => Some qs | None => cursor_at w a f "state_token" end;
  jp_counters : forall r, r ∈ ml_folders w' -> f_id r = f -> counted f w' r;
}.

Lemma jmap_page_run (a f : string) (es : list JmapEmail) (q : option string) (w : mail)
    (r : result SyncError (nat * nat * list (string * bool))) (w' : mail) :
  mail_ok w -> NoDup (je_id <$> es) -> persist_jmap_folder_batch a f es q w = (r, w') ->
  match r with Ok k => jmap_page a f es q w w' k | Err _ => same_tables w w' end.
Proof.
  intros Hok Hnd Hp. destruct r as [k|e]; [|by apply transaction_Err in Hp].
  apply transaction_Ok in Hp as (n0 & n1 & w1 & Hp & ->). apply (set_fuse_ok n0) in Hok.
  apply bind_Ok in Hp as (k' & wa & Hall & Hp).
  apply upsert_jmap_all_at in Hall as ((Hca & Hfa & Hna) & Hsum & (p & Hk & Hrows) & Hout); [|done..].
  apply bind_Ok in Hp as ([] & wb & Hcur & Hp). apply bind_Ok in Hp as ([] & wc & Hcnt & [= <- <-]).
  apply counts_Ok in Hcnt as (Hmc & Hcc & Hnc & Hct & _).
  assert (Hb : ml_messages wb = ml_messages wa /\ cursor_at wb a f "state_token" =
            match q with Some qs => Some qs | None => cursor_at w a f "state_token" end).
  { destruct q as [qs|].
    - apply write_cursor_Ok in Hcur as (Hm & _ & _ & Hc). by rewrite Hc, decide_True.
    - injection Hcur as <-. unfold cursor_at. by rewrite Hca. }
  destruct Hb as [Hmb Hcb].
  assert (Hrow : forall a' e, row_at (set_fuse n1 wc) a' e = row_at wa a' e).
  { intros a' e. unfold row_at. cbn. by rewrite Hmc, Hmb. }
  split; [done| | | |].
  - rewrite Hk. change ([] ++ p)%list with p. eapply Forall2_impl_elem; [exact Hrows|]. intros e [id was] _ (Hw & row & Hr).
    split; [done|]. exists row. by rewrite Hrow.
  - intros a' e' Hno. by rewrite Hrow, Hout.
  - rewrite <- Hcb. unfold cursor_at. cbn. by rewrite Hcc.
  - intros r Hr Hid. by apply Hct.
Qed.

(** A JMAP page is stored whole or not at all.  On a failure at any statement the
    tables are as they were.  On success each message of the page has its row, under
    the id that is answered for it and in its place: a new row as received, or the old
    row moved to this folder with the server's read, starred and keyword state and all
    else kept; no other row changes; the query state is stored verbatim. *)
Theorem jmap_page_stored (a f : string) (es : list JmapEmail) (q : option string) (w : mail)
    (r : result SyncError (nat * nat * list (string * bool))) (w' : mail) :
  mail_ok w -> NoDup (je_id <$> es) -> persist_jmap_folder_batch a f es q w = (r, w') ->
  match r with Ok k => jmap_page a f es q w w' k | Err _ => same_tables w w' end.
Proof. apply jmap_page_run. Qed.

Lemma chunks_of_concat {A} (n : nat) (l : list A) : (0 < n)%nat -> forall fuel, (length l <= fuel)%nat ->
  concat (chunks_of fuel n l) = l.
Proof.
  intros Hn fuel. revert l. induction fuel as [|fuel IH]; intros l Hl; [destruct l; [done|cbn in Hl; lia]|].
  cbn [chunks_of]. destruct l as [|x l]; [done|]. cbn [concat]. rewrite IH, take_drop; [done|].
  rewrite length_drop. cbn in *. lia.
Qed.
Lemma chunks_concat {A} (n : nat) (l : list A) : (0 < n)%nat -> concat (chunks n l) = l.
Proof. intros Hn. by apply chunks_of_concat. Qed.

Lemma filter_twice {A} (p q : A -> bool) l :
  List.filter q (List.filter p l) = List.filter (fun x => p x && q x) l.
Proof. induction l as [|x l IH]; [done|]. cbn. destruct (p x); cbn; [|done]. destruct (q x); by rewrite IH. Qed.
Lemma filter_split {A} (p : A -> bool) l :
  (length (List.filter p l) + length (List.filter (fun x => negb (p x)) l) = length l)%nat.
Proof. induction l as [|x l IH]; [done|]. cbn. destruct (p x); cbn; lia. Qed.

Lemma delete_chunks_Ok a pieces : forall fs n w fs' n' w',
  delete_chunks a pieces fs n w = (Ok (fs', n'), w') ->
  ml_messages w' = List.filter (fun m => negb (external_in a (concat pieces) m)) (ml_messages w) /\
  (n' + length (ml_messages w') = n + length (ml_messages w))%nat.
Proof.
  induction pieces as [|ids pieces IH]; intros fs n w fs' n' w' Hd.
  { injection Hd as <- <- <-. split; [|done]. symmetry. cbn. unfold external_in.
    induction (ml_messages w) as [|m l IHl]; [done|]. cbn.
    replace (match m_external m with Some e => bool_decide (e ∈ []) | None => false end) with false.
    - rewrite andb_false_r. cbn. by f_equal.
    - destruct (m_external m); [|done]. symmetry. apply bool_decide_false, not_elem_of_nil. }
  cbn [delete_chunks] in Hd. apply bind_Ok in Hd as (touched & w1 & (w1' & n1 & [= <- <-] & ->)%mstmt_Ok & Hd).
  apply bind_Ok in Hd as (gone & w2 & (w2' & n2 & [= <- <-] & ->)%mstmt_Ok & Hd).
  apply IH in Hd as [Hm Hn]. cbn in Hm, Hn. split.
  - rewrite Hm, filter_twice. apply filter_ext. intros m. rewrite <- negb_orb. f_equal. unfold external_in. cbn.
    destruct (String.eqb (m_account m) a); [|done]. destruct (m_external m) as [e|]; [|done]. cbn.
    destruct (decide (e ∈ ids)) as [Hi|Hi], (decide (e ∈ concat pieces)) as [Hj|Hj];
      rewrite ?(bool_decide_true _ Hi), ?(bool_decide_false _ Hi), ?(bool_decide_true _ Hj),
        ?(bool_decide_false _ Hj); cbn; symmetry;
      (apply bool_decide_true || apply bool_decide_false); rewrite elem_of_app; tauto.
  - pose proof (filter_split (external_in a ids) (ml_messages w)). lia.
Qed.

Lemma refresh_counts_Ok fs : forall w w', refresh_counts fs w = (Ok tt, w') -> ml_messages w' = ml_messages w.
Proof.
  induction fs as [|f fs IH]; intros w w' Hr; [by injection Hr as <-|]. cbn [refresh_counts] in Hr.
  apply bind_Ok in Hr as ([] & w1 & Hc & Hr). apply IH in Hr as ->.
  apply transaction_Ok in Hc as (n0 & n1 & w2 & Hc & ->). apply counts_Ok in Hc as (Hm & _). exact Hm.
Qed.

(** A JMAP removal deletes the named mail, all of it and nothing else, whatever the
    number of ids and however it is cut into statements: the rows left are those of
    other accounts and of other ids, and the answer counts the rows that went. *)
Theorem jmap_delete_is_exact (a : string) (ids : list string) (w : mail) (n : nat) (w' : mail) :
  delete_jmap_messages_by_external_ids a ids w = (Ok n, w') ->
  ml_messages w' = List.filter (fun m => negb (external_in a ids m)) (ml_messages w) /\
  n = length (List.filter (external_in a ids) (ml_messages w)).
Proof.
  intros Hd. assert (Hlen : ml_messages w' = List.filter (fun m => negb (external_in a ids m)) (ml_messages w) /\
    (n + length (ml_messages w') = length (ml_messages w))%nat).
  { destruct ids as [|i ids].
    - injection Hd as <- <-. split; [|done].
      assert (Hc : delete_chunks a [] ∅ 0 w = (Ok (∅, 0%nat), w)) by done.
      by apply delete_chunks_Ok in Hc as [Hc _].
    - unfold delete_jmap_messages_by_external_ids in Hd.
      apply bind_Ok in Hd as ([fs k] & w1 & Hc & Hd). apply bind_Ok in Hd as ([] & w2 & Hr & [= <- <-]).
      apply refresh_counts_Ok in Hr as ->. apply delete_chunks_Ok in Hc.
      rewrite chunks_concat in Hc by (unfold IDS_CHUNK; lia). done. }
  destruct Hlen as [Hm Hl]. split; [done|]. rewrite Hm in Hl.
  pose proof (filter_split (external_in a ids) (ml_messages w)). lia.
Qed.

(** ** Every operation keeps the invariant *)

Inductive store_op :=
  | OpFolder (a name : string) (d : option string) (attrs : list string)
  | OpJmapFolder (a : string) (mb : JmapMailbox)
  | OpLink (a child parent : string)
  | OpPersist (a f : string) (msgs : list ImapMessage) (uv last ms : Z) (clear : bool)
  | OpRepair (a f : string) (msgs : list ImapMessage)
  | OpReconcile (a f : string) (uids : gset Z)
  | OpCounts (f : string)
  | OpJmapPage (a f : string) (es : list JmapEmail) (q : option string)
  | OpJmapDelete (a : string) (ids : list string)
  | OpClearCursor (a f t : string)
  | OpEmailState (a f state : string)
  | OpBlob (id path : string)
  | OpMailer (id m : string)
  | OpFault (fuse : option nat).                  (* the database goes down, or comes back *)
Definition exec (op : store_op) (w : mail) : mail :=
  match op with
  | OpFolder a name d attrs => snd (upsert_folder a name d attrs w)
  | OpJmapFolder a mb => snd (upsert_jmap_folder a mb w)
  | OpLink a child parent => snd (link_jmap_folder_parent a child parent w)
  | OpPersist a f msgs uv last ms clear => snd (persist_imap_folder_batch a f msgs uv last ms clear w)
  | OpRepair a f msgs => snd (repair_imap_messages a f msgs w)
  | OpReconcile a f uids => snd (reconcile_folder_deletions a f uids w)
  | OpCounts f => snd (update_folder_counts f w)
  | OpJmapPage a f es q => snd (persist_jmap_folder_batch a f es q w)
  | OpJmapDelete a ids => snd (delete_jmap_messages_by_external_ids a ids w)
  | OpClearCursor a f t => snd (clear_state_cursor a f t w)
  | OpEmailState a f state => snd (save_jmap_email_state a f state w)
  | OpBlob id path => snd (set_message_raw_blob id path w)
  | OpMailer id m => snd (set_message_mailer id m w)
  | OpFault fuse => set_fuse fuse w
  end.

Lemma pres_snd {A} (m : io mail SyncError A) w : preserves keeps_ok m -> mail_ok w -> mail_ok (snd (m w)).
Proof. intros Hm Hw. destruct (m w) as [r w'] eqn:He. by apply (Hm _ _ _ He). Qed.

(** The tables stay well formed.  In every history of store operations, failures
    included, no two messages of an account share an external id, no folder or cursor
    is duplicated, and every id is unique and was drawn once. *)
Theorem store_invariant (ops : list store_op) (w : mail) : mail_ok w -> mail_ok (foldl (fun w op => exec op w) w ops).
Proof.
  revert w. induction ops as [|op ops IH]; intros w Hw; [done|]. cbn. apply IH.
  destruct op; cbn; try (apply pres_snd; [|exact Hw]).
  - apply pres_upsert_folder.
  - apply pres_upsert_jmap_folder.
  - apply pres_link.
  - apply pres_persist.
  - apply pres_repair.
  - apply pres_reconcile.
  - apply pres_set_counts.
  - apply pres_persist_jmap.
  - apply pres_delete_jmap.
  - apply pres_clear_cursor.
  - apply pres_transaction, pres_write_cursor.
  - apply pres_raw_blob.
  - apply pres_mailer.
  - by apply set_fuse_ok.
Qed.

End Specs.

(** ** Witnesses *)

#[export] Instance toy_store : StoreLib := {
  store_uuid n := "id" +:+ show_N n;
  sql_now t := show_Z t;
  ingest_date s := if is_empty s then None else Some s;
  sanitize_email_html s := s;
  decode_utf7_imap s := s;
  to_lowercase s := to_ascii_lowercase s;
  alphanumeric s := s;
}.
#[export] Instance toy_store_laws : StoreLaws.
Proof.
  intros n m He. apply app_inj_l_s in He. apply (f_equal parse_digits) in He. rewrite !parse_show_N in He.
  injection He as He. lia.
Qed.

Definition empty_mail : mail := mkMail 0 [] [] [] 0 None.
Lemma empty_ok : mail_ok empty_mail.
Proof.
  split; try apply NoDup_nil_2. intros n _. split; apply not_elem_of_nil.
Qed.
(** One folder, then two messages of it. *)
Definition toy_msg (uid : Z) (flags : list string) : ImapMessage :=
  mkImap uid (Some "<m@x>") (Some "hello") (Some "Ann") None None (Some "2026-01-01") None None None flags (Some 10)
    None None false.
Definition toy_mail : mail := snd (upsert_folder "a1" "INBOX" (Some "/") [] empty_mail).
Definition toy_page := persist_imap_folder_batch "a1" "id0" [toy_msg 7 ["Seen"]; toy_msg 9 []] 3 9 0 false.
Definition toy_mail2 : mail := snd (toy_page toy_mail).
Lemma toy_mail_ok : mail_ok toy_mail.
Proof. apply pres_snd, empty_ok. apply pres_upsert_folder. Qed.
Lemma toy_mail2_ok : mail_ok toy_mail2.
Proof. apply pres_snd, toy_mail_ok. apply pres_persist. Qed.

Lemma external_id_roundtrip_witness :
  parse_imap_uid (Some (imap_message_external_id "a:1" 4294967295)) = Ok 4294967295 /\
  (imap_message_external_id "a:1" 4294967295 = imap_message_external_id "a" 1 -> "a:1" = "a" /\ 4294967295 = 1).
Proof. apply external_id_roundtrip; vm_compute; split; discriminate. Defined.

Lemma cursor_roundtrip_witness :
  parse_cursor_value (format_cursor_value 4294967295 12 18446744073709551615) =
  mkCursorInfo 4294967295 12 18446744073709551615.
Proof. apply cursor_roundtrip; vm_compute; split; discriminate. Defined.

Lemma folder_page_stored_witness :
  fst (toy_page toy_mail) = Ok (2, 0)%nat /\
  match fst (toy_page toy_mail) with
  | Ok counts => batch_stored "a1" "id0" [toy_msg 7 ["Seen"]; toy_msg 9 []] 3 9 0 false toy_mail toy_mail2 counts
  | Err _ => same_tables toy_mail toy_mail2
  end.
Proof.
  split; [vm_compute; reflexivity|].
  apply (folder_page_stored "a1" "id0" [toy_msg 7 ["Seen"]; toy_msg 9 []] 3 9 0 false toy_mail _ toy_mail2 toy_mail_ok).
  - apply (bool_decide_unpack _). vm_compute. exact I.
  - repeat apply Forall_cons_2; [| |by apply Forall_nil_2]; unfold u32, u32_max; cbn; lia.
  - unfold u32, u32_max. lia.
  - unfold u32, u32_max. lia.
  - unfold u64, u64_max. lia.
  - unfold toy_mail2, toy_page. apply surjective_pairing.
Defined.

Definition toy_again := upsert_message_in_tx "a1" "id0" (toy_msg 7 ["Flagged"]) toy_mail2.
Definition toy_cur : MessageRow := imap_row "id1" "a1" "id0" "0" (toy_msg 7 ["Seen"]).
Lemma refetch_keeps_local_state_witness :
  let e := imap_message_external_id "id0" 7 in
  false = false /\ exists m, row_at (snd toy_again) "a1" e = Some m /\
    m_id m = m_id toy_cur /\ m_folder m = m_folder toy_cur /\ m_labels m = m_labels toy_cur /\
    m_deleted m = m_deleted toy_cur /\
    m_snoozed_until m = m_snoozed_until toy_cur /\ m_body_text m = m_body_text toy_cur /\
    m_body_html m = m_body_html toy_cur /\ m_raw_blob m = m_raw_blob toy_cur /\
    (stale_text (m_subject toy_cur) = false -> m_subject m = m_subject toy_cur) /\
    (stale_text (m_subject toy_cur) = true -> m_subject m = im_subject (toy_msg 7 ["Flagged"])) /\
    (stale_text (m_from toy_cur) = false -> m_from m = m_from toy_cur) /\
    (stale_text (m_snippet toy_cur) = false -> m_snippet m = m_snippet toy_cur) /\
    (forall d, m_date toy_cur = Some d -> m_date m = Some d) /\
    (m_mailer toy_cur = None -> m_mailer m = im_mailer (toy_msg 7 ["Flagged"])) /\
    m_read m = flag_seen ["Flagged"] /\ m_starred m = flag_flagged ["Flagged"].
Proof.
  apply (refetch_keeps_local_state "a1" "id0" (toy_msg 7 ["Flagged"]) toy_mail2 (snd toy_again) false toy_cur).
  - vm_compute. reflexivity.
  - apply answer. vm_compute. reflexivity.
Defined.

Definition toy_reconciled := reconcile_folder_deletions "a1" "id0" {[ 9 ]} toy_mail2.
Lemma reconcile_is_exact_witness :
  1%nat = length (List.filter (stale_row "a1" "id0" {[ 9 ]}) (ml_messages toy_mail2)) /\
  Forall2 (fun m m' => m' = if stale_row "a1" "id0" {[ 9 ]} m then soft_delete m else m)
    (ml_messages toy_mail2) (ml_messages (snd toy_reconciled)) /\
  (forall m uid, m ∈ ml_messages (snd toy_reconciled) -> live_in "a1" "id0" m = true ->
     parse_imap_uid (m_external m) = Ok uid -> uid ∈ ({[ 9 ]} : gset Z)).
Proof.
  apply (reconcile_is_exact "a1" "id0" {[ 9 ]} toy_mail2 1 (snd toy_reconciled) toy_mail2_ok).
  apply answer. vm_compute. reflexivity.
Defined.

Definition toy_email (id : string) : JmapEmail :=
  mkEmail id (Some "t1") None (Some (JObject [("$seen", JBool true)])) (Some 5) None (Some ["m@x"]) None None
    (Some [mkAddress (Some "Ann") (Some "ann@x")]) None None (Some "hi") None None None None None None [].
Definition toy_jmap := persist_jmap_folder_batch "a1" "id0" [toy_email "e1"; toy_email "e2"] (Some "q7") toy_mail2.
Lemma jmap_page_stored_witness :
  match fst toy_jmap with
  | Ok k => jmap_page "a1" "id0" [toy_email "e1"; toy_email "e2"] (Some "q7") toy_mail2 (snd toy_jmap) k
  | Err _ => same_tables toy_mail2 (snd toy_jmap)
  end /\ option_map (fun k => (fst k)) (rok (fst toy_jmap)) = Some (2, 0)%nat.
Proof.
  split; [|vm_compute; reflexivity].
  apply (jmap_page_stored "a1" "id0" [toy_email "e1"; toy_email "e2"] (Some "q7") toy_mail2 _ _ toy_mail2_ok).
  - apply (bool_decide_unpack _). vm_compute. exact I.
  - unfold toy_jmap. apply surjective_pairing.
Defined.

Definition toy_deleted := delete_jmap_messages_by_external_ids "a1" ["e2"; "nothing"] (snd toy_jmap).
Lemma jmap_delete_is_exact_witness :
  ml_messages (snd toy_deleted) =
    List.filter (fun m => negb (external_in "a1" ["e2"; "nothing"] m)) (ml_messages (snd toy_jmap)) /\
  1%nat = length (List.filter (external_in "a1" ["e2"; "nothing"]) (ml_messages (snd toy_jmap))).
Proof.
  apply (jmap_delete_is_exact "a1" ["e2"; "nothing"] (snd toy_jmap) 1 (snd toy_deleted)).
  unfold toy_deleted. apply answer. vm_compute. reflexivity.
Defined.

Lemma store_invariant_witness :
  mail_ok (foldl (fun w op => exec op w) empty_mail
    [OpFolder "a1" "INBOX" None []; OpFault (Some 3%nat);
     OpPersist "a1" "id0" [toy_msg 7 []] 3 7 0 false; OpFault None; OpJmapDelete "a1" ["x"]]).
Proof. apply store_invariant, empty_ok. Defined.
