(* ===== verification/Imap.v ===== *)
(** * IMAP adapter ([imap.rs])

    [async_imap], the network and [mail_parser] are classes ([ImapSession],
    [MimeLib]); a session operation answers a result, a timeout being one of its
    errors.  The client keeps the session, its capabilities and the selected
    mailbox, and adds reconnection, chunked metadata fetches and the safe expunge. *)
From S2P Require Import Prelude Labels Jobs MailStore Netsec.
Local Open Scope string_scope.
Local Open Scope Z_scope.

Inductive ImapSecurity := Tls | Starttls.
Record ImapConfig := mkConfig {
  cf_host : string; cf_port : Z; cf_security : ImapSecurity; cf_username : string;
  cf_password : string; cf_xoauth2 : bool }.
Record ImapFolder := mkImapFolder { if_name : string; if_delimiter : option string; if_attributes : list string }.
Record ImapSelectResult := mkSelect { sel_uid_validity : Z; sel_highest_modseq : option Z }.
Definition METADATA_CHUNK : nat := 8.
Definition MAX_RETRIES_PER_CHUNK : Z := 3.

(** [async_imap::types::Flag] and [Fetch]. *)
Inductive Flag := Seen | Answered | Flagged | Deleted | Draft | Recent | MayCreate | Custom (keyword : string).
Record Fetch := mkFetch {
  ft_uid : option Z; ft_flags : list Flag; ft_size : option Z; ft_header : option string; ft_body : option string }.

(** A header of [mail_parser]: its name and where its value lies. *)
Inductive HeaderName := Known (name : string) | Other (name : string).
Record Header := mkHeader { hd_name : HeaderName; hd_start : nat; hd_end : nat }.
#[export] Instance HeaderName_eq_dec : EqDecision HeaderName.
Proof. solve_decision. Defined.

(** A parsed MIME attachment. *)
Record ExtractedAttachment := mkExtracted {
  xa_filename : string; xa_content_type : string; xa_data : string; xa_content_id : option string;
  xa_is_inline : bool }.

Class MimeLib := {
  parse_headers : string -> option (list Header);     (* [MessageParser::parse_headers] *)
  parse_subject : string -> option string;            (* the subject of a parsed message *)
  gb18030_decode : string -> option string;           (* [None]: with errors *)
  str_debug : string -> string;                       (* [Debug] of a string *)
  extract_mime : string -> option string * option string * list ExtractedAttachment;   (* text, HTML, attachments *)
}.

(** A session of [async_imap] over TLS. *)
Class ImapSession (T : Type) := {
  sess_connect : ImapConfig -> io T ImapError (list string);       (* logged in: the capabilities *)
  sess_list : io T ImapError (list ImapFolder);
  sess_select : string -> io T ImapError (option Z * option Z);    (* uid validity, highest mod-sequence *)
  sess_uid_search : string -> io T ImapError (list Z);             (* a hash set, in iteration order *)
  sess_uid_fetch : string -> string -> io T ImapError (list Fetch);
  sess_uid_store : string -> string -> io T ImapError unit;
  sess_uid_copy : string -> string -> io T ImapError unit;
  sess_uid_mv : string -> string -> io T ImapError unit;
  sess_uid_expunge : string -> io T ImapError unit;
  sess_expunge : io T ImapError unit;
  sess_append : string -> string -> string -> io T ImapError unit;
  sess_logout : io T ImapError unit;
}.

(** ** Header text *)

Definition drop_blanks : string -> string := drop_while (fun a => Ascii.eqb a " " || Ascii.eqb a (ascii_of_N 9)).
(** [unfold_bytes] and [unfold_header]: a line break and the blanks after it are one
    space.  [blanks]: after a line break. *)
Fixpoint unfold_from (blanks : bool) (raw : string) : string :=
  match raw with
  | EmptyString => EmptyString
  | String a rest =>
      if blanks && (Ascii.eqb a " " || Ascii.eqb a (ascii_of_N 9)) then unfold_from true rest
      else if Ascii.eqb a cr then
        match rest with
        | String b rest' => if Ascii.eqb b nl then String " " (unfold_from true rest') else String a (unfold_from false rest)
        | EmptyString => String a EmptyString
        end
      else String a (unfold_from false rest)
  end.
Definition unfold_bytes (raw : string) : string := unfold_from false raw.
Definition unfold_header (raw : string) : string := unfold_from false raw.

Definition decode_mime_header `{MimeLib} (raw : string) : string :=
  if negb (contains_str "=?" raw) then raw else
  let bytes := "Subject: " +:+ raw +:+ (if ends_with (String nl "") raw then "" else crlf +:+ crlf) in
  match nonempty (parse_subject bytes) with Some s => s | None => raw end.
Definition decode_mime_header_bytes `{MimeLib} (raw : string) : string :=
  if utf8_valid raw then decode_mime_header raw
  else match gb18030_decode raw with Some s => s | None => from_utf8_lossy raw end.

Record HeaderMetadata := mkMeta {
  md_message_id : option string; md_subject : option string; md_from : option string; md_to : option string;
  md_cc : option string; md_date : option string; md_in_reply_to : option string; md_references : option string;
  md_mailer : option string }.
Definition no_meta : HeaderMetadata := mkMeta None None None None None None None None None.

Definition header_slice (bytes : string) (h : Header) : string := stake (hd_end h - hd_start h) (sdrop (hd_start h) bytes).
Definition header_named (name : string) (h : Header) : bool := bool_decide (hd_name h = Known name).
Definition header_text (h : Header) : string := match hd_name h with Known n => n | Other n => n end.

Definition parse_header_metadata `{MimeLib} (header_bytes : string) : HeaderMetadata :=
  match parse_headers header_bytes with
  | None => no_meta
  | Some headers =>
      let find p := List.find p headers in
      let text h := trim (unfold_header (from_utf8_lossy (header_slice header_bytes h))) in
      let raw_text name := nonempty (option_map text (find (header_named name))) in
      let addr_text name := nonempty (option_map (fun h =>
        trim (decode_mime_header_bytes (unfold_bytes (header_slice header_bytes h)))) (find (header_named name))) in
      let subject := nonempty (option_map (fun h => decode_mime_header_bytes (header_slice header_bytes h))
                       (find (header_named "Subject"))) in
      let mailer_header name := nonempty (option_map text
        (find (fun h => eq_ignore_ascii_case (header_text h) name))) in
      let mailer := match mailer_header "User-Agent" with
                    | Some m => Some m
                    | None => match mailer_header "X-Mailer" with Some m => Some m | None => mailer_header "X-MimeOLE" end
                    end in
      mkMeta (raw_text "Message-ID") subject (addr_text "From") (addr_text "To") (addr_text "Cc") (raw_text "Date")
        (raw_text "In-Reply-To") (raw_text "References") mailer
  end.

(** The derived [Debug] of a flag. *)
Definition flag_debug `{MimeLib} (f : Flag) : string :=
  match f with
  | Seen => "Seen" | Answered => "Answered" | Flagged => "Flagged" | Deleted => "Deleted" | Draft => "Draft"
  | Recent => "Recent" | MayCreate => "MayCreate"
  | Custom keyword => "Custom(" +:+ str_debug keyword +:+ ")"
  end.

Definition parse_fetch_to_message `{MimeLib} (fetch : Fetch) (include_body : bool) : ImapMessage :=
  let meta := match (if include_body then ft_body fetch else ft_header fetch) with
              | Some bytes => parse_header_metadata bytes
              | None => no_meta
              end in
  let '(text, html, atts) := match (if include_body then ft_body fetch else None) with
                             | Some raw => extract_mime raw
                             | None => (None, None, [])
                             end in
  mkImap (match ft_uid fetch with Some u => u | None => 0 end) (md_message_id meta) (md_subject meta) (md_from meta)
    (md_to meta) (md_cc meta) (md_date meta) (md_in_reply_to meta) (md_references meta) (md_mailer meta)
    (map flag_debug (ft_flags fetch)) (ft_size fetch) text html (match atts with [] => false | _ => true end).

(** ** UID sets *)

Definition parenthesize_fetch_atts (atts : string) : string :=
  let trimmed := trim atts in
  if starts_with "(" trimmed && ends_with ")" trimmed then trimmed else "(" +:+ trimmed +:+ ")".

(** [sort_unstable] and [dedup]. *)
Fixpoint dedup (l : list Z) : list Z :=
  match l with
  | x :: (y :: _) as rest => if x =? y then dedup rest else x :: dedup rest
  | _ => l
  end.
Definition sorted_uids (uids : list Z) : list Z := dedup (order_by Z.leb uids).
Definition uid_range (start stop : Z) : string :=
  if start =? stop then show_Z start else show_Z start +:+ ":" +:+ show_Z stop.
Fixpoint uid_parts (start stop : Z) (rest : list Z) : list string :=
  match rest with
  | [] => [uid_range start stop]
  | uid :: rest' =>
      if uid =? (stop + 1) mod 2 ^ 32 then uid_parts start uid rest' else uid_range start stop :: uid_parts uid uid rest'
  end.
(** The addition of [uid_parts] is on [u32].  [None]: the index of an empty list panics. *)
Definition format_uid_set (uids : list Z) : option string :=
  match sorted_uids uids with
  | [] => None
  | first :: rest => Some (join "," (uid_parts first first rest))
  end.

(** ** The client *)

Record ImapClient (T : Type) := mkClient {
  cl_session : T;
  cl_caps : list string;
  cl_config : ImapConfig;
  cl_selected : option string;
}.
Arguments mkClient {T}. Arguments cl_session {T}. Arguments cl_caps {T}. Arguments cl_config {T}.
Arguments cl_selected {T}.

Section Client.
Context {T : Type} `{ImapSession T} `{MimeLib}.
Local Abbreviation C := (io (ImapClient T) ImapError).

Definition on_session {A} (m : io T ImapError A) : C A :=
  fun c => let '(r, s) := m (cl_session c) in (r, mkClient s (cl_caps c) (cl_config c) (cl_selected c)).
Definition has_cap (cap : string) (c : ImapClient T) : bool := existsb (String.eqb cap) (cl_caps c).
Definition supports_condstore (c : ImapClient T) : bool := has_cap "CONDSTORE" c || has_cap "QRESYNC" c.
Definition supports_move : ImapClient T -> bool := has_cap "MOVE".

(** [connect]: from a network state to a client. *)
Definition connect (config : ImapConfig) (s : T) : result ImapError (ImapClient T) * T :=
  match sess_connect config s with
  | (Ok caps, s') => (Ok (mkClient s' caps config None), s')
  | (Err e, s') => (Err e, s')
  end.

Definition list_folders : C (list ImapFolder) := on_session sess_list.
Definition set_selected (o : option string) (c : ImapClient T) : ImapClient T :=
  mkClient (cl_session c) (cl_caps c) (cl_config c) o.
Definition select (folder_name : string) : C ImapSelectResult :=
  let! mailbox := on_session (sess_select folder_name) in
  let! _ := modify (set_selected (Some folder_name)) in
  ret (mkSelect (or_zero (fst mailbox)) (snd mailbox)).

Definition reconnect : C unit :=
  let! config := gets cl_config in
  let! caps := on_session (sess_connect config) in
  let! _ := modify (fun c => mkClient (cl_session c) caps (cl_config c) (cl_selected c)) in
  let! selected := gets cl_selected in
  match selected with
  | Some folder =>
      let! _ := modify (set_selected None) in
      let! _ := select folder in ret tt
  | None => ret tt
  end.

(** The addition is on [u32], which wraps in a release build. *)
Definition search_uids (after_uid : option Z) : C (list Z) :=
  let query := match after_uid with
               | Some uid => show_Z ((uid + 1) mod 2 ^ 32) +:+ ":*"
               | None => "1:*"
               end in
  on_session (sess_uid_search query).

Definition metadata_atts : string :=
  "UID FLAGS RFC822.SIZE BODY.PEEK[HEADER.FIELDS (DATE FROM TO CC SUBJECT MESSAGE-ID IN-REPLY-TO REFERENCES USER-AGENT X-MAILER X-MIMEOLE)]".
Definition fetch_metadata_once (uids : list Z) : C (list ImapMessage) :=
  match format_uid_set uids with
  | None => ret []
  | Some uid_set =>
      let! fetches := on_session (sess_uid_fetch uid_set (parenthesize_fetch_atts metadata_atts)) in
      ret (map (fun f => parse_fetch_to_message f false) fetches)
  end.

(** The loop of [fetch_metadata]; [None] is a loop cut short by the fuel. *)
Fixpoint fetch_loop (fuel : nat) (pieces : list (list Z)) (idx : nat) (retries : Z) (out : list ImapMessage)
    : C (option (list ImapMessage)) :=
  match fuel with
  | O => ret None
  | S fuel =>
      match pieces !! idx with
      | None => ret (Some out)
      | Some chunk =>
          let! r := attempt (fetch_metadata_once chunk) in
          match r with
          | Ok msgs => fetch_loop fuel pieces (S idx) 0 (out ++ msgs)%list
          | Err err =>
              let retries := retries + 1 in
              if MAX_RETRIES_PER_CHUNK <? retries then throw err
              else let! _ := reconnect in fetch_loop fuel pieces idx retries out
          end
      end
  end.
(** Four tries a chunk, and the last test. *)
Definition fetch_fuel (pieces : list (list Z)) : nat := S (4 * length pieces).
Definition fetch_metadata (uids : list Z) : C (list ImapMessage) :=
  if (length uids <=? METADATA_CHUNK)%nat then fetch_metadata_once uids
  else
    let pieces := chunks METADATA_CHUNK uids in
    let! out := fetch_loop (fetch_fuel pieces) pieces 0 0 [] in
    ret (match out with Some msgs => msgs | None => [] end).

Definition fetch_changed_since (modseq : Z) : C (list ImapMessage) :=
  let! condstore := gets supports_condstore in
  if (modseq =? 0) || negb condstore then ret [] else
  let query := parenthesize_fetch_atts metadata_atts +:+ " (CHANGEDSINCE " +:+ show_Z modseq +:+ ")" in
  let! fetches := on_session (sess_uid_fetch "1:*" query) in
  ret (map (fun f => parse_fetch_to_message f false) fetches).

Definition fetch_bodies (uids : list Z) : C (list ImapMessage) :=
  match format_uid_set uids with
  | None => ret []
  | Some uid_set =>
      let! fetches := on_session (sess_uid_fetch uid_set (parenthesize_fetch_atts "UID FLAGS RFC822.SIZE BODY.PEEK[]")) in
      ret (map (fun f => parse_fetch_to_message f true) fetches)
  end.

Definition uid_store_flags (uid : Z) (op : string) (flags : list string) : C unit :=
  match flags with
  | [] => ret tt
  | _ => on_session (sess_uid_store (show_Z uid) (op +:+ "FLAGS (" +:+ join " " flags +:+ ")"))
  end.
Definition add_flags (uid : Z) (flags : list string) : C unit := uid_store_flags uid "+" flags.
Definition remove_flags (uid : Z) (flags : list string) : C unit := uid_store_flags uid "-" flags.

Definition expunge_uid_if_safe (uid : Z) : C unit :=
  let! uidplus := gets (has_cap "UIDPLUS") in
  if (uidplus : bool) then on_session (sess_uid_expunge (show_Z uid)) else
  let! flagged := on_session (sess_uid_search "DELETED") in
  if (length flagged =? 1)%nat && bool_decide (uid ∈ flagged) then on_session sess_expunge else ret tt.
Definition delete_uid (uid : Z) : C unit :=
  let! _ := on_session (sess_uid_store (show_Z uid) "+FLAGS (\Deleted)") in
  expunge_uid_if_safe uid.
Definition move_uid (uid : Z) (destination : string) : C unit :=
  let! mv := gets supports_move in
  if (mv : bool) then on_session (sess_uid_mv (show_Z uid) destination) else
  let! _ := on_session (sess_uid_copy (show_Z uid) destination) in
  let! _ := on_session (sess_uid_store (show_Z uid) "+FLAGS (\Deleted)") in
  expunge_uid_if_safe uid.
Definition copy_uid (uid : Z) (destination : string) : C unit :=
  on_session (sess_uid_copy (show_Z uid) destination).
Definition append_draft (mailbox content : string) : C unit :=
  on_session (sess_append mailbox "(\Draft \Seen)" content).
Definition logout : C unit := on_session sess_logout.
End Client.

(** ** UID sets denote what they list *)

(** Reference reading of a UID set (RFC 3501 [sequence-set] of numbers and ranges). *)
Definition parse_range (part : string) : option (Z * Z) :=
  match split_char ":" part with
  | [a] => option_map (fun u => (u, u)) (parse_u32 a)
  | [a; b] => match parse_u32 a, parse_u32 b with Some u, Some v => Some (u, v) | _, _ => None end
  | _ => None
  end.
Definition parse_uid_set (s : string) : option (list (Z * Z)) := mapM parse_range (split_char "," s).
Definition in_range_of (r : Z * Z) (uid : Z) : Prop := fst r <= uid <= snd r.
Definition in_ranges (ranges : list (Z * Z)) (uid : Z) : Prop := Exists (fun r => in_range_of r uid) ranges.
(** Nonempty ranges in ascending order, no two of which could be joined. *)
Inductive separated : Z -> list (Z * Z) -> Prop :=
  | sep_nil low : separated low []
  | sep_cons low a b l : low < a -> a <= b -> separated (b + 1) l -> separated low ((a, b) :: l).

Section UidSets.
Fixpoint ranges_of (start stop : Z) (rest : list Z) : list (Z * Z) :=
  match rest with
  | [] => [(start, stop)]
  | uid :: rest' => if uid =? stop + 1 then ranges_of start uid rest' else (start, stop) :: ranges_of uid uid rest'
  end.
Definition show_range (r : Z * Z) : string := uid_range (fst r) (snd r).

Lemma uid_parts_ranges rest : forall start stop, 0 <= stop ->
  StronglySorted Z.lt (stop :: rest) -> Forall u32 (stop :: rest) ->
  uid_parts start stop rest = map show_range (ranges_of start stop rest).
Proof.
  induction rest as [|uid rest IH]; intros start stop H0 Hs Hu; [done|]. cbn.
  apply StronglySorted_inv in Hs as [Hs Hlt]. apply Forall_cons in Hu as [Hst Hu].
  apply Forall_cons in Hlt as [Hlt _]. pose proof (Forall_inv Hu) as Huid. unfold u32, u32_max in *.
  rewrite Z.mod_small by lia. destruct (uid =? stop + 1); [apply IH; by try lia|].
  cbn. f_equal. apply IH; by try lia.
Qed.
Lemma ranges_denote rest : forall start stop uid, start <= stop ->
  StronglySorted Z.lt (stop :: rest) ->
  in_ranges (ranges_of start stop rest) uid <-> start <= uid <= stop \/ uid ∈ rest.
Proof.
  induction rest as [|u rest IH]; intros start stop uid Hle Hs; cbn.
  { unfold in_ranges, in_range_of. rewrite Exists_cons, Exists_nil, elem_of_nil. cbn. tauto. }
  apply StronglySorted_inv in Hs as [Hs Hlt]. apply Forall_cons in Hlt as [Hlt _].
  rewrite elem_of_cons. destruct (Z.eqb_spec u (stop + 1)) as [->|Hne].
  - rewrite IH by (try done; lia). destruct (Z.eq_dec uid (stop + 1)); split; intros; destruct_or?; try tauto;
      first [left; lia|right; left; lia].
  - unfold in_ranges. rewrite Exists_cons. fold (in_ranges (ranges_of u u rest) uid).
    rewrite IH by (try done; lia). unfold in_range_of. cbn.
    destruct (Z.eq_dec uid u); split; intros; destruct_or?; try tauto; first [left; lia|right; left; lia].
Qed.
Lemma ranges_separated rest : forall low start stop, low < start -> start <= stop ->
  StronglySorted Z.lt (stop :: rest) -> separated low (ranges_of start stop rest).
Proof.
  induction rest as [|u rest IH]; intros low start stop Hl Hle Hs; cbn; [repeat constructor; done|].
  apply StronglySorted_inv in Hs as [Hs Hlt]. apply Forall_cons in Hlt as [Hlt _].
  destruct (Z.eqb_spec u (stop + 1)) as [->|Hne]; [apply IH; by try lia|].
  constructor; [done..|]. apply IH; by try lia.
Qed.
Lemma ranges_u32 rest : forall start stop, u32 start -> Forall u32 (stop :: rest) ->
  Forall (fun r => u32 (fst r) /\ u32 (snd r)) (ranges_of start stop rest).
Proof.
  induction rest as [|u rest IH]; intros start stop Hst [Hsp Hr]%Forall_cons; cbn; [by apply Forall_singleton|].
  destruct (u =? stop + 1); [by apply IH|]. apply Forall_cons in Hr as Hr'. destruct Hr'.
  constructor; [done|by apply IH].
Qed.

Lemma parse_u32_show u : u32 u -> parse_u32 (show_Z u) = Some u.
Proof. intros Hu. apply parse_show_unsigned. unfold u32 in Hu. lia. Qed.
Lemma parse_show_range r : u32 (fst r) -> u32 (snd r) -> parse_range (show_range r) = Some r.
Proof.
  destruct r as [a b]. cbn. intros Ha Hb. unfold parse_range, show_range, uid_range. cbn.
  assert (Hc : forall u, u32 u -> sforall (fun x => negb (Ascii.eqb x ":")) (show_Z u) = true).
  { intros u [Hu _]. by apply show_Z_no_colon. }
  destruct (Z.eqb_spec a b) as [->|Hne].
  - rewrite split_char_none by auto. by rewrite parse_u32_show.
  - change (":" +:+ show_Z b) with (String ":" (show_Z b)).
    rewrite split_char_app, split_char_none by auto. by rewrite !parse_u32_show.
Qed.
Lemma show_range_no_comma r : u32 (fst r) -> u32 (snd r) ->
  sforall (fun x => negb (Ascii.eqb x ",")) (show_range r) = true.
Proof.
  destruct r as [a b]. intros [Ha _] [Hb _]. cbn in *. unfold show_range, uid_range. cbn.
  assert (Hc : forall u, 0 <= u -> sforall (fun x => negb (Ascii.eqb x ",")) (show_Z u) = true).
  { intros u Hu. apply digits_no_char; [done|by apply show_Z_digits]. }
  destruct (a =? b); [auto|]. by rewrite !sforall_app, !Hc.
Qed.

Lemma dedup_sorted l : StronglySorted (le_rel Z.leb) l ->
  StronglySorted Z.lt (dedup l) /\ forall u, u ∈ dedup l <-> u ∈ l.
Proof.
  induction 1 as [|x l Hs [IHs IHm] Hx]; [split; [constructor|done]|]. destruct l as [|y l].
  { split; [repeat constructor|done]. }
  change (dedup (x :: y :: l)) with (if x =? y then dedup (y :: l) else x :: dedup (y :: l)).
  destruct (Z.eqb_spec x y) as [->|Hne].
  - split; [done|]. intros u. rewrite IHm, !elem_of_cons. tauto.
  - split; [|intros u; by rewrite !(elem_of_cons _ u), IHm, elem_of_cons]. constructor; [done|].
    apply Forall_forall. intros u Hu%IHm. apply StronglySorted_inv in Hs as [_ Hy].
    apply Forall_cons in Hx as [Hxy%Z.leb_le Hx]. apply elem_of_cons in Hu as [->|Hu]; [lia|].
    apply (proj1 (Forall_forall _ _) Hy), Z.leb_le in Hu. lia.
Qed.
Lemma sorted_uids_spec uids :
  StronglySorted Z.lt (sorted_uids uids) /\ forall u, u ∈ sorted_uids uids <-> u ∈ uids.
Proof.
  unfold sorted_uids. destruct (dedup_sorted (order_by Z.leb uids)) as [Hs Hm].
  - apply order_by_sorted; intros; lia.
  - split; [done|]. intros u. rewrite Hm. by rewrite (order_by_perm Z.leb uids).
Qed.

Lemma uid_set_ranges uids : uids <> [] -> Forall u32 uids ->
  exists s ranges, format_uid_set uids = Some s /\ parse_uid_set s = Some ranges /\ separated (-1) ranges /\
    forall u, in_ranges ranges u <-> u ∈ uids.
Proof.
  intros Hne Hu. destruct (sorted_uids_spec uids) as [Hs Hm]. unfold format_uid_set.
  assert (Hu' : Forall u32 (sorted_uids uids)).
  { apply Forall_forall. intros u Hin%Hm. by apply (proj1 (Forall_forall _ _) Hu). }
  destruct (sorted_uids uids) as [|first rest] eqn:He.
  { destruct uids as [|u uids]; [done|]. exfalso. apply (not_elem_of_nil u), Hm. by left. }
  pose proof (Forall_inv Hu') as Hf. assert (Hf0 : 0 <= first) by (unfold u32 in Hf; lia).
  exists (join "," (uid_parts first first rest)), (ranges_of first first rest). split; [done|].
  assert (Hr : Forall (fun r => u32 (fst r) /\ u32 (snd r)) (ranges_of first first rest)) by by apply ranges_u32.
  split; [|split; [apply ranges_separated; by try lia|]].
  - rewrite uid_parts_ranges by done. unfold parse_uid_set. rewrite split_join.
    + clear -Hr. induction Hr as [|r l [Ha Hb] Hr IH]; [done|]. cbn. by rewrite parse_show_range, IH.
    + intros Hnil%map_eq_nil. clear -Hnil. revert Hnil. generalize first at 1. revert first.
      induction rest as [|u rest IH]; intros stop start; [done|]. cbn. destruct (u =? stop + 1); [apply IH|done].
    + clear -Hr. induction Hr as [|r l [Ha Hb] Hr IH]; constructor; [by apply show_range_no_comma|done].
  - intros u. rewrite ranges_denote by (try done; lia). rewrite <- Hm, elem_of_cons.
    split; intros; destruct_or?; try tauto; left; lia.
Qed.
End UidSets.

(** A UID set asks for exactly the UIDs given.  Whatever order and repetitions the list
    has, up to the largest u32 (where the successor wraps), the formatted set reads back
    (by the grammar of RFC 3501) as ascending ranges that hold those UIDs and no other,
    no two of which could be joined. *)
Theorem uid_set_denotes (uids : list Z) : uids <> [] -> Forall u32 uids ->
  exists s ranges, format_uid_set uids = Some s /\ parse_uid_set s = Some ranges /\ separated (-1) ranges /\
    forall u, in_ranges ranges u <-> u ∈ uids.
Proof. apply uid_set_ranges. Qed.
Lemma uid_set_denotes_witness :
  format_uid_set [7; 4294967295; 5; 6; 7; 1] = Some "1,5:7,4294967295" /\
  exists s ranges, format_uid_set [7; 4294967295; 5; 6; 7; 1] = Some s /\ parse_uid_set s = Some ranges /\
    separated (-1) ranges /\ forall u, in_ranges ranges u <-> u ∈ [7; 4294967295; 5; 6; 7; 1].
Proof.
  split; [reflexivity|]. apply uid_set_denotes; [discriminate|].
  repeat constructor; unfold u32, u32_max; lia.
Defined.

(** ** Metadata fetches end *)

Section Fetching.
Context {T : Type} `{ImapSession T} `{MimeLib}.
Local Abbreviation C := (io (ImapClient T) ImapError).

(** Reference: a chunk is tried once and once more after each of at most [reconnects]
    reconnections; the chunks are taken in order. *)
Fixpoint try_chunk (reconnects : nat) (chunk : list Z) : C (list ImapMessage) :=
  let! r := attempt (fetch_metadata_once chunk) in
  match r with
  | Ok msgs => ret msgs
  | Err err =>
      match reconnects with
      | O => throw err
      | S n => let! _ := reconnect in try_chunk n chunk
      end
  end.
Fixpoint try_chunks (pieces : list (list Z)) : C (list ImapMessage) :=
  match pieces with
  | [] => ret []
  | chunk :: rest =>
      let! msgs := try_chunk 3 chunk in
      let! more := try_chunks rest in
      ret (msgs ++ more)%list
  end.

Lemma loop_chunk pieces chunk rest idx :
  pieces !! idx = Some chunk ->
  (forall fuel out c, (4 * length rest < fuel)%nat -> fetch_loop fuel pieces (S idx) 0 out c =
     (let! more := try_chunks rest in ret (Some (out ++ more)%list)) c) ->
  forall k fuel out c, (k <= 3)%nat -> (4 * length rest + k + 1 < fuel)%nat ->
  fetch_loop fuel pieces idx (3 - Z.of_nat k) out c =
  (let! msgs := try_chunk k chunk in let! more := try_chunks rest in ret (Some (out ++ msgs ++ more)%list)) c.
Proof.
  intros Hidx Hrest. induction k as [|k IH]; intros fuel out c Hk Hf; (destruct fuel as [|fuel]; [lia|]).
  all: cbn [fetch_loop try_chunk]; rewrite Hidx; unfold bind, attempt.
  all: destruct (fetch_metadata_once chunk c) as [[msgs|err] c1].
  1, 3: rewrite Hrest by lia; unfold bind, ret; destruct (try_chunks rest c1) as [[more|e] c2]; rewrite <- ?app_assoc; done.
  - done.
  - replace (MAX_RETRIES_PER_CHUNK <? 3 - Z.of_nat (S k) + 1) with false
      by (symmetry; apply Z.ltb_ge; unfold MAX_RETRIES_PER_CHUNK; lia).
    replace (3 - Z.of_nat (S k) + 1) with (3 - Z.of_nat k) by lia.
    destruct (reconnect c1) as [[[]|e] c2]; [|done]. apply IH; lia.
Qed.
Lemma loop_pieces pieces rest : forall idx fuel out c, drop idx pieces = rest -> (4 * length rest < fuel)%nat ->
  fetch_loop fuel pieces idx 0 out c = (let! more := try_chunks rest in ret (Some (out ++ more)%list)) c.
Proof.
  induction rest as [|chunk rest IH]; intros idx fuel out c Hd Hf; (destruct fuel as [|fuel]; [lia|]).
  - cbn. rewrite (lookup_ge_None_2 pieces idx) by (apply (f_equal length) in Hd; rewrite length_drop in Hd; cbn in Hd; lia).
    unfold bind, ret. by rewrite app_nil_r.
  - assert (Hidx : pieces !! idx = Some chunk).
    { rewrite <- (Nat.add_0_r idx), <- lookup_drop, Hd. done. }
    change 0 with (3 - Z.of_nat 3). rewrite (loop_chunk pieces chunk rest idx); [|done| |lia|cbn in Hf; lia].
    + cbn [try_chunks]. unfold bind. destruct (try_chunk 3 chunk c) as [[msgs|e] c1]; [|done].
      by destruct (try_chunks rest c1) as [[more|e] c2].
    + intros fuel' out' c' Hf'. apply IH; [|done]. rewrite <- (Nat.add_1_r idx), <- drop_drop, Hd. done.
Qed.
Lemma loop_reference pieces fuel c : (fetch_fuel pieces <= fuel)%nat ->
  fetch_loop fuel pieces 0 0 [] c = (let! msgs := try_chunks pieces in ret (Some msgs)) c.
Proof. intros Hf. unfold fetch_fuel in Hf. rewrite (loop_pieces pieces pieces); [done|done|lia]. Qed.

(** C14: a metadata fetch ends.  The loop of [fetch_metadata] is never cut by its fuel, and
    answers what the bounded reference does: the chunks of eight in order, each tried at
    most four times with a reconnection before every retry, the counter starting over
    at each chunk; the first chunk that fails four times, or whose reconnection fails,
    ends the fetch with that error. *)
Theorem fetch_metadata_terminates (uids : list Z) (c : ImapClient T) : (METADATA_CHUNK < length uids)%nat ->
  concat (chunks METADATA_CHUNK uids) = uids /\
  (forall fuel, (fetch_fuel (chunks METADATA_CHUNK uids) <= fuel)%nat ->
     fst (fetch_loop fuel (chunks METADATA_CHUNK uids) 0 0 [] c) <> Ok None) /\
  fetch_metadata uids c = try_chunks (chunks METADATA_CHUNK uids) c.
Proof.
  intros Hlen. split; [apply chunks_concat; unfold METADATA_CHUNK; lia|]. split.
  - intros fuel Hf. rewrite loop_reference by done. unfold bind, ret.
    by destruct (try_chunks _ c) as [[]].
  - unfold fetch_metadata. apply Nat.leb_gt in Hlen. rewrite Hlen. cbv zeta. unfold bind at 1.
    rewrite loop_reference by done. unfold bind, ret. by destruct (try_chunks _ c) as [[]].
Qed.
End Fetching.

(** ** The selected mailbox

    What IMAP4rev1 (RFC 3501), UIDPLUS (RFC 4315) and MOVE (RFC 6851) document of the
    commands used here, as long as no other session writes to the mailbox.  [held] are
    the UIDs in the selected mailbox, [marked] those flagged [\Deleted], [copies] the
    copies made so far.  A command that fails may or may not have been carried out. *)
Class MailboxLaws (T : Type) `{ImapSession T} := {
  held : T -> gset Z;
  marked : T -> gset Z;
  copies : T -> list (Z * string);
  held_nz : forall s u, u ∈ held s -> 1 <= u <= u32_max;
  marked_held : forall s, marked s ⊆ held s;
  search_from : forall n s r s', 1 <= n <= u32_max -> sess_uid_search (show_Z n +:+ ":*") s = (r, s') ->
    held s' = held s /\ forall l, r = Ok l -> NoDup l /\ (forall u, u ∈ l -> u ∈ held s) /\
      (forall u, u ∈ held s -> n <= u -> u ∈ l);
  search_deleted : forall s r s', sess_uid_search "DELETED" s = (r, s') ->
    held s' = held s /\ marked s' = marked s /\ copies s' = copies s /\
    forall l, r = Ok l -> NoDup l /\ forall u, u ∈ l <-> u ∈ marked s;
  fetch_some : forall set atts s r s', sess_uid_fetch set atts s = (r, s') ->
    held s' = held s /\ forall l, r = Ok l -> NoDup (ft_uid <$> l) /\
      Forall (fun x => exists u, ft_uid x = Some u /\ u ∈ held s) l;
  fetch_set : forall set atts ranges s l s', parse_uid_set set = Some ranges ->
    sess_uid_fetch set atts s = (Ok l, s') ->
    forall u, Some u ∈ ft_uid <$> l <-> u ∈ held s /\ in_ranges ranges u;
  store_deleted : forall uid s r s', u32 uid -> sess_uid_store (show_Z uid) "+FLAGS (\Deleted)" s = (r, s') ->
    held s' = held s /\ copies s' = copies s /\
    (marked s' = marked s ∪ ({[ uid ]} ∩ held s) \/ is_ok r = false /\ marked s' = marked s);
  expunge_uid : forall uid s r s', u32 uid -> sess_uid_expunge (show_Z uid) s = (r, s') ->
    copies s' = copies s /\
    (held s' = held s ∖ ({[ uid ]} ∩ marked s) \/ is_ok r = false /\ held s' = held s);
  expunge_all : forall s r s', sess_expunge s = (r, s') ->
    copies s' = copies s /\ (held s' = held s ∖ marked s \/ is_ok r = false /\ held s' = held s);
  copy_one : forall uid dest s r s', u32 uid -> sess_uid_copy (show_Z uid) dest s = (r, s') ->
    held s' = held s /\ marked s' = marked s /\
    (uid ∈ held s /\ copies s' = (copies s ++ [(uid, dest)])%list \/
     (uid ∉ held s \/ is_ok r = false) /\ copies s' = copies s);
  move_one : forall uid dest s r s', u32 uid -> sess_uid_mv (show_Z uid) dest s = (r, s') ->
    uid ∈ held s /\ held s' = held s ∖ {[ uid ]} /\ copies s' = (copies s ++ [(uid, dest)])%list \/
    held s' = held s /\ (uid ∉ held s \/ is_ok r = false);
}.

(** The same documents on selection: [open_box] is the mailbox selected on the server,
    [remote] what each mailbox holds.  A new connection has no mailbox selected; a failed
    SELECT leaves none or the old one; without one, searches and fetches are refused. *)
Class SelectLaws (T : Type) `{MailboxLaws T} := {
  open_box : T -> option string;
  remote : T -> string -> gset Z;
  held_open : forall s, held s = match open_box s with Some n => remote s n | None => ∅ end;
  connect_closes : forall config s r s', sess_connect config s = (r, s') ->
    remote s' = remote s /\ open_box s' = if is_ok r then None else open_box s;
  select_opens : forall n s r s', sess_select n s = (r, s') ->
    remote s' = remote s /\ (if is_ok r then open_box s' = Some n else open_box s' = None \/ open_box s' = open_box s);
  search_keeps : forall q s r s', sess_uid_search q s = (r, s') ->
    remote s' = remote s /\ open_box s' = open_box s /\ (open_box s = None -> is_ok r = false);
  fetch_keeps : forall set atts s r s', sess_uid_fetch set atts s = (r, s') ->
    remote s' = remote s /\ open_box s' = open_box s /\ (open_box s = None -> is_ok r = false);
}.

(** A session on which no command of a pass fails; [validity] is the UIDVALIDITY of a
    mailbox.  The numbers of a SELECT answer are u32 and u64 by type. *)
Class UpLaws (T : Type) `{SelectLaws T} := {
  up : T -> Prop;
  validity : T -> string -> Z;
  up_select : forall n s r s', up s -> sess_select n s = (r, s') ->
    up s' /\ exists v m, r = Ok (v, m) /\ or_zero v = validity s n /\ u32 (or_zero v) /\ u64 (or_zero m);
  up_search : forall q s r s', up s -> sess_uid_search q s = (r, s') -> up s' /\ (open_box s <> None -> is_ok r = true);
  up_fetch : forall set atts s r s', up s -> sess_uid_fetch set atts s = (r, s') ->
    up s' /\ (open_box s <> None -> is_ok r = true);
}.

Section Mailbox.
Context {T : Type} `{MailboxLaws T} `{MimeLib}.
Local Abbreviation C := (io (ImapClient T) ImapError).

Lemma on_session_run {A} (m : io T ImapError A) (c : ImapClient T) r c' : on_session m c = (r, c') ->
  m (cl_session c) = (r, cl_session c') /\ c' = mkClient (cl_session c') (cl_caps c) (cl_config c) (cl_selected c).
Proof. unfold on_session. destruct (m (cl_session c)) as [r1 s1]. by intros [= <- <-]. Qed.

(** The client apart from its session. *)
Definition same_client (c c' : ImapClient T) : Prop :=
  cl_caps c' = cl_caps c /\ cl_config c' = cl_config c /\ cl_selected c' = cl_selected c.
Lemma on_session_same {A} (m : io T ImapError A) (c : ImapClient T) r c' :
  on_session m c = (r, c') -> same_client c c'.
Proof. intros [_ ->]%on_session_run. done. Qed.

Definition box (c : ImapClient T) : gset Z := held (cl_session c).
Definition dels (c : ImapClient T) : gset Z := marked (cl_session c).
Definition made (c : ImapClient T) : list (Z * string) := copies (cl_session c).

Lemma search_answers o (c : ImapClient T) r c' : (forall u, o = Some u -> 0 <= u < u32_max) ->
  search_uids o c = (r, c') ->
  same_client c c' /\ box c' = box c /\ forall l, r = Ok l ->
    NoDup l /\ (forall u, u ∈ l -> u ∈ box c) /\ forall u, u ∈ box c -> (forall v, o = Some v -> v < u) -> u ∈ l.
Proof.
  intros Ho Hs. assert (Hq : exists n, 1 <= n <= u32_max /\ (n = match o with Some v => v + 1 | None => 1 end) /\
    on_session (sess_uid_search (show_Z n +:+ ":*")) c = (r, c')).
  { destruct o as [u|]; [|exists 1; unfold u32_max; split; [lia|done]].
    specialize (Ho u eq_refl). exists (u + 1). split; [lia|]. split; [done|]. unfold search_uids in Hs.
    rewrite Z.mod_small in Hs; [done|]. unfold u32_max in Ho. lia. }
  destruct Hq as (n & Hn & Hno & Hr). split; [by eapply on_session_same|].
  apply on_session_run in Hr as [Hr _]. apply search_from in Hr as [Hh Hl]; [|done]. split; [done|].
  intros l Hok. destruct (Hl l Hok) as (Hnd & Hsub & Hall). split; [done|]. split; [done|].
  intros u Hu Hlt. apply Hall; [done|]. subst n. destruct o as [v|]; [specialize (Hlt v eq_refl); lia|].
  apply held_nz in Hu. lia.
Qed.

Lemma fetched_uids (l : list Fetch) (P : Z -> Prop) :
  Forall (fun x => exists u, ft_uid x = Some u /\ P u) l -> NoDup (ft_uid <$> l) ->
  let uids := im_uid <$> map (fun f => parse_fetch_to_message f false) l in
  NoDup uids /\ (forall u, u ∈ uids -> P u) /\ forall u, u ∈ uids <-> Some u ∈ ft_uid <$> l.
Proof.
  intros Hl Hnd uids. assert (He : Some <$> uids = ft_uid <$> l).
  { subst uids. clear Hnd. induction Hl as [|x l (u & Hu & _) Hl IH]; [done|].
    change (Some (im_uid (parse_fetch_to_message x false)) ::
      (Some <$> (im_uid <$> map (fun f => parse_fetch_to_message f false) l)) = ft_uid x :: (ft_uid <$> l)).
    rewrite <- IH. f_equal. unfold parse_fetch_to_message. by rewrite Hu. }
  rewrite <- He in Hnd. split; [by apply NoDup_fmap_1 in Hnd|].
  assert (Hiff : forall u, u ∈ uids <-> Some u ∈ ft_uid <$> l).
  { intros u. rewrite <- He, list_elem_of_fmap. split; [intros Hu; by exists u|by intros (v & [= ->] & ?)]. }
  split; [|done]. intros u (x & Hx & Hin)%Hiff%list_elem_of_fmap.
  apply (proj1 (Forall_forall _ _) Hl) in Hin as (v & Hv & Hp). congruence.
Qed.
Lemma fetch_once_answers uids (c : ImapClient T) r c' : Forall u32 uids ->
  fetch_metadata_once uids c = (r, c') ->
  same_client c c' /\ box c' = box c /\ forall msgs, r = Ok msgs ->
    NoDup (im_uid <$> msgs) /\ forall u, u ∈ im_uid <$> msgs <-> u ∈ uids /\ u ∈ box c.
Proof.
  intros Hu Hf. unfold fetch_metadata_once in Hf. destruct uids as [|u0 uids].
  { injection Hf as <- <-. split; [done|]. split; [done|]. intros msgs [= <-]. split; [constructor|].
    intros u. cbn. rewrite !elem_of_nil. tauto. }
  destruct (uid_set_ranges (u0 :: uids)) as (set & ranges & Hfmt & Hp & _ & Hden); [done|done|].
  rewrite Hfmt in Hf.
  apply bind_inv in Hf as [(e & Hf & ->)|(l & c1 & Hf & [= <- <-])].
  { split; [by eapply on_session_same|]. apply on_session_run in Hf as [Hf _]. by apply fetch_some in Hf as [? _]. }
  split; [by eapply on_session_same|]. apply on_session_run in Hf as [Hf _].
  pose proof (fetch_set _ _ _ _ _ _ Hp Hf) as Hset. apply fetch_some in Hf as [Hh Hl]. split; [done|].
  destruct (Hl l eq_refl) as [Hnd Hall]. intros msgs [= <-].
  destruct (fetched_uids l _ Hall Hnd) as (Hnd' & _ & Hiff). split; [done|]. intros u. rewrite Hiff, Hset, <- Hden.
  unfold box. tauto.
Qed.
Lemma fetch_changed_answers ms (c : ImapClient T) r c' : fetch_changed_since ms c = (r, c') ->
  same_client c c' /\ box c' = box c /\ forall msgs, r = Ok msgs ->
    NoDup (im_uid <$> msgs) /\ forall u, u ∈ im_uid <$> msgs -> u ∈ box c.
Proof.
  unfold fetch_changed_since. intros Hf. unfold bind at 1, gets in Hf.
  destruct (_ || _) in Hf.
  { injection Hf as <- <-. split; [done|]. split; [done|]. intros msgs [= <-]. split; [constructor|].
    by intros u ?%not_elem_of_nil. }
  apply bind_inv in Hf as [(e & Hf & ->)|(l & c1 & Hf & [= <- <-])].
  { split; [by eapply on_session_same|]. apply on_session_run in Hf as [Hf _]. by apply fetch_some in Hf as [? _]. }
  split; [by eapply on_session_same|]. apply on_session_run in Hf as [Hf _]. apply fetch_some in Hf as [Hh Hl].
  split; [done|]. destruct (Hl l eq_refl) as [Hnd Hall]. intros msgs [= <-].
  by destruct (fetched_uids l _ Hall Hnd) as (Hnd' & Hsub & _).
Qed.

(** Removal: what an expunge, a delete and a move may take away. *)
Definition only_leaves (uid : Z) (c c' : ImapClient T) : Prop := forall u, u <> uid -> (u ∈ box c' <-> u ∈ box c).

Lemma expunge_safe uid (c : ImapClient T) r c' : u32 uid -> expunge_uid_if_safe uid c = (r, c') ->
  same_client c c' /\ made c' = made c /\ only_leaves uid c c' /\ box c' ⊆ box c /\
  (r = Ok tt -> uid ∈ dels c -> has_cap "UIDPLUS" c = true \/ dels c ⊆ {[ uid ]} -> uid ∉ box c').
Proof.
  unfold expunge_uid_if_safe, bind at 1, gets. unfold only_leaves, box, dels, made.
  destruct (has_cap "UIDPLUS" c).
  - intros Hu He. split; [by eapply on_session_same|]. apply on_session_run in He as [He _].
    apply expunge_uid in He as [-> Hh]; [|done]. destruct Hh as [-> | [Hr ->]].
    + split_and!; set_solver.
    + do 3 (split; [done|]). by intros ->.
  - intros _ [(e & Hs & ->)|(l & c1 & Hs & He)]%bind_inv.
    + split; [by eapply on_session_same|]. apply on_session_run in Hs as [Hs _].
      apply search_deleted in Hs as (-> & _ & -> & _). by split_and!.
    + pose proof (on_session_same _ _ _ _ Hs) as Hc1. apply on_session_run in Hs as [Hs _].
      apply search_deleted in Hs as (Hh & Hm & Hc & Hl). destruct (Hl l eq_refl) as [Hnd Hin].
      rewrite <- Hh, <- Hc, <- Hm. destruct (_ && _) eqn:Hone.
      * apply andb_true_iff in Hone as [Hlen%Nat.eqb_eq Huid%bool_decide_eq_true].
        assert (Hdel : marked (cl_session c1) = {[ uid ]}).
        { destruct l as [|x [|]]; [done| |done]. apply list_elem_of_singleton in Huid as ->.
          apply set_eq. intros u. rewrite Hm, <- Hin. set_solver. }
        pose proof (on_session_same _ _ _ _ He) as Hc2. split; [by unfold same_client in *; intuition congruence|].
        apply on_session_run in He as [He _]. apply expunge_all in He as [-> Hh']. rewrite Hdel in Hh'.
        destruct Hh' as [-> | [Hr ->]].
        { split_and!; set_solver. }
        do 3 (split; [done|]). by intros ->.
      * injection He as <- <-. do 4 (split; [done|]). intros _ Hd [?|Hsub]; [done|].
        exfalso. apply andb_false_iff in Hone.
        assert (Hall : forall u, u ∈ l <-> u = uid) by (intros u; rewrite Hin, <- Hm; set_solver).
        destruct Hone as [Hlen%Nat.eqb_neq|Huid%bool_decide_eq_false]; [|by apply Huid, Hall].
        apply Hlen. destruct l as [|x [|y l]]; [|done|].
        -- exfalso. apply (not_elem_of_nil uid). by apply Hall.
        -- exfalso. apply NoDup_cons in Hnd as [Hx _]. apply Hx.
           assert (x = uid) as -> by (apply Hall; by left). assert (y = uid) as -> by (apply Hall; right; by left). by left.
Qed.

Lemma flag_then_expunge uid (c : ImapClient T) r c' : u32 uid ->
  (let! _ := on_session (sess_uid_store (show_Z uid) "+FLAGS (\Deleted)") in expunge_uid_if_safe uid) c = (r, c') ->
  same_client c c' /\ made c' = made c /\ only_leaves uid c c' /\ box c' ⊆ box c /\
  (r = Ok tt -> has_cap "UIDPLUS" c = true \/ dels c ⊆ {[ uid ]} -> uid ∉ box c').
Proof.
  intros Hu [(e & Hs & ->)|(l & c1 & Hs & He)]%bind_inv.
  - split; [by eapply on_session_same|]. apply on_session_run in Hs as [Hs _].
    apply store_deleted in Hs as (Hh & Hc & _); [|done]. unfold only_leaves, box, made. rewrite Hh, Hc. by split_and!.
  - pose proof (on_session_same _ _ _ _ Hs) as Hc1. apply on_session_run in Hs as [Hs _].
    apply store_deleted in Hs as (Hh & Hc & Hm); [|done]. destruct Hm as [Hm|[? _]]; [|done].
    apply expunge_safe in He as (Hc2 & Hmade & Honly & Hsub & Hgone); [|done].
    assert (Hcaps : has_cap "UIDPLUS" c1 = has_cap "UIDPLUS" c) by (unfold has_cap; by rewrite (proj1 Hc1)).
    unfold same_client, only_leaves, box, made, dels in *. rewrite Hh in Honly, Hsub. rewrite Hc in Hmade.
    split; [intuition congruence|]. split; [done|]. split; [done|]. split; [done|]. intros Hr Hsafe Hin.
    apply Hgone; [done| | |done].
    + rewrite Hm. apply Hsub in Hin. set_solver.
    + rewrite Hm, Hcaps. destruct Hsafe as [?|?]; [by left|right; set_solver].
Qed.

Lemma move_run uid dest (c : ImapClient T) r c' : u32 uid -> move_uid uid dest c = (r, c') ->
  only_leaves uid c c' /\ (uid ∈ box c -> uid ∉ box c' \/ r = Ok tt -> made c' = (made c ++ [(uid, dest)])%list).
Proof.
  unfold move_uid, bind at 1, gets. intros Hu. destruct (supports_move c).
  - intros [Hs _]%on_session_run. apply move_one in Hs; [|done]. unfold only_leaves, box, made.
    destruct Hs as [(Hin & -> & ->)|[-> Hno]]; [split; [set_solver|done]|]. split; [done|]. intros Hin [? | ->]; [done|].
    by destruct Hno.
  - intros [(e & Hs & ->)|(l & c1 & Hs & He)]%bind_inv.
    + apply on_session_run in Hs as [Hs _]. apply copy_one in Hs as (Hh & _ & _); [|done]. unfold only_leaves, box. rewrite Hh.
      split; [done|]. by intros Hin [?|?].
    + apply on_session_run in Hs as [Hs _]. apply copy_one in Hs as (Hh & Hm & Hc); [|done].
      replace (let! _ := on_session (sess_uid_store (show_Z uid) "+FLAGS (\Deleted)") in expunge_uid_if_safe uid)
        with (delete_uid uid) in He by done.
      apply flag_then_expunge in He as (_ & Hmade & Honly & _); [|done]. unfold only_leaves, box, made in *. rewrite Hh in Honly.
      split; [done|]. intros Hin _. rewrite Hmade. destruct Hc as [[_ ->] | [[Hno | Hno] _]]; done.
Qed.

(** C12: removing a message removes no other.  Whatever happens on the way (a failure, a
    timeout after which the command was or was not carried out), a delete and a move
    take no UID out of the mailbox but the one given, although a plain EXPUNGE would take
    every message flagged for deletion; a delete that succeeds does remove it when the
    server has UIDPLUS or nothing else is flagged; and a moved message is copied to the
    destination before it leaves. *)
Theorem removal_is_safe (uid : Z) (dest : string) (c : ImapClient T) : u32 uid ->
  (forall r c', delete_uid uid c = (r, c') ->
     made c' = made c /\ (forall u, u <> uid -> (u ∈ box c' <-> u ∈ box c)) /\
     (r = Ok tt -> has_cap "UIDPLUS" c = true \/ dels c ⊆ {[ uid ]} -> uid ∉ box c')) /\
  (forall r c', move_uid uid dest c = (r, c') ->
     (forall u, u <> uid -> (u ∈ box c' <-> u ∈ box c)) /\
     (uid ∈ box c -> uid ∉ box c' \/ r = Ok tt -> made c' = (made c ++ [(uid, dest)])%list)).
Proof.
  intros Hu. split; intros r c' Hr; [|by apply move_run].
  by apply flag_then_expunge in Hr as (_ & Hmade & Honly & _ & Hgone).
Qed.
End Mailbox.

(** ** A server that keeps the laws *)

Module ToyServer.
Record server := mkServer {
  sv_caps : list string; sv_validity : Z; sv_modseq : option Z; sv_up : nat -> bool; sv_clock : nat;
  sv_box : gmap Z (list Flag * option string); sv_copied : list (Z * string); sv_open : option string }.
Local Abbreviation M := (io server ImapError).

Definition set_box b (s : server) : server :=
  mkServer (sv_caps s) (sv_validity s) (sv_modseq s) (sv_up s) (sv_clock s) b (sv_copied s) (sv_open s).
Definition set_copied l (s : server) : server :=
  mkServer (sv_caps s) (sv_validity s) (sv_modseq s) (sv_up s) (sv_clock s) (sv_box s) l (sv_open s).
Definition tick (s : server) : server :=
  mkServer (sv_caps s) (sv_validity s) (sv_modseq s) (sv_up s) (S (sv_clock s)) (sv_box s) (sv_copied s) (sv_open s).
Definition set_open o (s : server) : server :=
  mkServer (sv_caps s) (sv_validity s) (sv_modseq s) (sv_up s) (sv_clock s) (sv_box s) (sv_copied s) o.
(** A command: it times out while the server is down. *)
Definition command {A} (f : server -> A * server) : M A := fun s =>
  if sv_up s (sv_clock s) then let '(a, s') := f s in (Ok a, tick s') else (Err ImapTimeout, tick s).
(** A command on the selected mailbox. *)
Definition in_box {A} (f : server -> A * server) : M A := fun s =>
  match sv_open s with Some _ => command f s | None => (Err (ImapProtocol "no mailbox"), tick s) end.

(** Every name is the same mailbox. *)
Definition all_uids (s : server) : gset Z := filter (fun u => 1 <= u <= u32_max) (dom (sv_box s)).
Definition held_uids (s : server) : gset Z := match sv_open s with Some _ => all_uids s | None => ∅ end.
Definition is_deleted (o : option (list Flag * option string)) : bool :=
  match o with Some (flags, _) => existsb (fun f => match f with Deleted => true | _ => false end) flags | None => false end.
Definition marked_uids (s : server) : gset Z := filter (fun u => is_deleted (sv_box s !! u) = true) (held_uids s).
Definition parse_from (q : string) : option Z :=
  match split_char ":" q with [a; b] => if String.eqb b "*" then parse_u32 a else None | _ => None end.
Definition in_rangeb (uid : Z) (r : Z * Z) : bool := (fst r <=? uid) && (uid <=? snd r).
Definition to_fetch (s : server) (u : Z) : Fetch :=
  match sv_box s !! u with
  | Some (flags, header) => mkFetch (Some u) flags None header None
  | None => mkFetch (Some u) [] None None None
  end.
Definition search (q : string) (s : server) : list Z :=
  match parse_from q with
  | Some n => elements (filter (fun u => n <= u \/ forallb (fun v => v <=? u) (elements (held_uids s)) = true) (held_uids s))
  | None => elements (marked_uids s)
  end.
Definition fetch (set : string) (s : server) : list Fetch :=
  match parse_uid_set set with
  | Some ranges => map (to_fetch s) (List.filter (fun u => existsb (in_rangeb u) ranges) (elements (held_uids s)))
  | None => map (to_fetch s) (elements (held_uids s))
  end.
Definition mark (uid : Z) (s : server) : server :=
  set_box (alter (fun '(flags, header) => (Deleted :: flags, header)) uid (sv_box s)) s.
Definition expunge (uids : gset Z) (s : server) : server :=
  set_box (filter (fun p => fst p ∉ uids) (sv_box s)) s.
Definition record_copy (uid : Z) (dest : string) (s : server) : server :=
  if decide (uid ∈ held_uids s) then set_copied (sv_copied s ++ [(uid, dest)])%list s else s.
Definition on_uid {A} (text : string) (s : A) (f : Z -> A) : A :=
  match parse_u32 text with Some uid => f uid | None => s end.
End ToyServer.

Section ToyInstance.
Import ToyServer.
#[export] Instance toy_session : ImapSession server := {|
  sess_connect config := command (fun s => (sv_caps s, set_open None s));
  sess_list := command (fun s => ([mkImapFolder "INBOX" (Some "/") []], s));
  sess_select name := command (fun s => ((Some (sv_validity s), sv_modseq s), set_open (Some name) s));
  sess_uid_search q := in_box (fun s => (search q s, s));
  sess_uid_fetch set atts := in_box (fun s => (fetch set s, s));
  sess_uid_store text q := in_box (fun s => (tt, on_uid text s (fun uid =>
    if String.eqb q "+FLAGS (\Deleted)" then mark uid s else s)));
  sess_uid_copy text dest := in_box (fun s => (tt, on_uid text s (fun uid => record_copy uid dest s)));
  sess_uid_mv text dest := in_box (fun s => (tt, on_uid text s (fun uid =>
    expunge ({[ uid ]} ∩ held_uids s) (record_copy uid dest s))));
  sess_uid_expunge text := in_box (fun s => (tt, on_uid text s (fun uid => expunge ({[ uid ]} ∩ marked_uids s) s)));
  sess_expunge := in_box (fun s => (tt, expunge (marked_uids s) s));
  sess_append mailbox flags content := command (fun s => (tt, s));
  sess_logout := command (fun s => (tt, s));
|}.

Lemma command_run {A} (f : server -> A * server) s r s' : command f s = (r, s') ->
  (exists a s1, f s = (a, s1) /\ r = Ok a /\ s' = tick s1) \/ (r = Err ImapTimeout /\ s' = tick s).
Proof.
  unfold command. destruct (sv_up s (sv_clock s)); [|intros [= <- <-]; by right].
  destruct (f s) as [a s1]. intros [= <- <-]. left. eauto.
Qed.
Lemma in_box_run {A} (f : server -> A * server) s r s' : in_box f s = (r, s') ->
  (exists a s1, f s = (a, s1) /\ r = Ok a /\ s' = tick s1 /\ is_Some (sv_open s)) \/ (is_ok r = false /\ s' = tick s).
Proof.
  unfold in_box. destruct (sv_open s); [|intros [= <- <-]; by right].
  intros [(a & s1 & ? & -> & ->)|[-> ->]]%command_run; [|by right]. left. exists a, s1. by split_and!.
Qed.
Lemma all_uids_spec s u : u ∈ all_uids s <-> is_Some (sv_box s !! u) /\ 1 <= u <= u32_max.
Proof. unfold all_uids. rewrite elem_of_filter, elem_of_dom. tauto. Qed.
Lemma held_uids_spec s u : u ∈ held_uids s <-> (is_Some (sv_box s !! u) /\ 1 <= u <= u32_max) /\ is_Some (sv_open s).
Proof.
  unfold held_uids. rewrite <- all_uids_spec. destruct (sv_open s); [by split; [|intros []]|].
  split; [by intros ?%elem_of_empty|by intros [_ []]].
Qed.
Lemma marked_uids_spec s u : u ∈ marked_uids s <-> u ∈ held_uids s /\ is_deleted (sv_box s !! u) = true.
Proof. unfold marked_uids. rewrite elem_of_filter. tauto. Qed.
Lemma expunge_held uids s : held_uids (expunge uids s) = held_uids s ∖ uids.
Proof.
  apply set_eq. intros u. rewrite elem_of_difference, !held_uids_spec. unfold expunge. cbn.
  rewrite map_lookup_filter. destruct (sv_box s !! u) as [v|]; cbn.
  - case_guard; cbn; unfold is_Some in *; naive_solver.
  - unfold is_Some. naive_solver.
Qed.
Lemma on_uid_known {A} uid (s : A) f : u32 uid -> on_uid (show_Z uid) s f = f uid.
Proof. intros Hu. unfold on_uid. by rewrite parse_u32_show. Qed.
Lemma mark_held uid s : held_uids (mark uid s) = held_uids s.
Proof.
  apply set_eq. intros u. rewrite !held_uids_spec. unfold mark. cbn. destruct (decide (uid = u)) as [->|Hne].
  - rewrite lookup_alter_eq. by destruct (sv_box s !! u) as [[]|]; cbn; unfold is_Some; naive_solver.
  - by rewrite lookup_alter_ne.
Qed.
Lemma mark_marked uid s : marked_uids (mark uid s) = marked_uids s ∪ ({[ uid ]} ∩ held_uids s).
Proof.
  apply set_eq. intros u. rewrite elem_of_union, elem_of_intersection, elem_of_singleton, !marked_uids_spec, mark_held.
  unfold mark. cbn. destruct (decide (uid = u)) as [->|Hne].
  - rewrite lookup_alter_eq. split; [tauto|]. intros [[Hu Hd]|[_ Hu]]; split; try tauto.
    + by destruct (sv_box s !! u) as [[]|].
    + apply held_uids_spec in Hu as [[[[] ->] _] _]. done.
  - rewrite lookup_alter_ne by done. naive_solver.
Qed.
Lemma parse_from_show n : 1 <= n <= u32_max -> parse_from (show_Z n +:+ ":*") = Some n.
Proof.
  intros Hn. unfold parse_from. change ":*" with (String ":" "*").
  rewrite split_char_app by (apply show_Z_no_colon; lia). cbn. apply parse_u32_show. unfold u32. lia.
Qed.
Lemma in_rangeb_spec u ranges : existsb (in_rangeb u) ranges = true <-> in_ranges ranges u.
Proof.
  unfold in_ranges, in_range_of, in_rangeb. rewrite existsb_exists, Exists_exists.
  split; intros (r & Hin & Hr); exists r; rewrite <- ?list_elem_of_In in *; split; try done.
  - by apply andb_true_iff in Hr as [?%Z.leb_le ?%Z.leb_le].
  - apply andb_true_iff. by rewrite !Z.leb_le.
Qed.
Lemma fetch_uids s l : ft_uid <$> map (to_fetch s) l = Some <$> l.
Proof.
  induction l as [|u l IH]; [done|]. rewrite !fmap_cons, <- IH. cbn. f_equal. unfold to_fetch.
  by destruct (sv_box s !! u) as [[]|].
Qed.
Lemma fetch_list set s : exists l, fetch set s = map (to_fetch s) l /\ NoDup l /\ (forall u, u ∈ l -> u ∈ held_uids s) /\
  forall ranges, parse_uid_set set = Some ranges -> forall u, u ∈ l <-> u ∈ held_uids s /\ in_ranges ranges u.
Proof.
  unfold fetch. destruct (parse_uid_set set) as [ranges|]; eexists; (split; [reflexivity|]).
  - split; [|split].
    + eapply sublist_NoDup; [apply (NoDup_elements (held_uids s))|]. apply filter_sublist.
    + by intros u [Hu%list_elem_of_In%elem_of_elements _]%list_elem_of_In%List.filter_In.
    + intros ? [= <-] u. rewrite list_elem_of_In, List.filter_In, <- list_elem_of_In, elem_of_elements.
      by rewrite in_rangeb_spec.
  - split; [apply NoDup_elements|]. split; [by intros u ?%elem_of_elements|done].
Qed.

#[export] Instance toy_mailbox : MailboxLaws server.
Proof.
  refine {| held := held_uids; marked := marked_uids; copies := sv_copied |}.
  - by intros s u [[_ ?] _]%held_uids_spec.
  - by intros s u [? _]%marked_uids_spec.
  - intros n s r s' Hn [(a & s1 & [= <- <-] & -> & -> & _)|[Hr ->]]%in_box_run; (split; [done|]); [|by intros l ->].
    intros l [= <-]. unfold search. rewrite parse_from_show by done. split; [apply NoDup_elements|].
    split; intros u; rewrite elem_of_elements, elem_of_filter; tauto.
  - intros s r s' [(a & s1 & [= <- <-] & -> & -> & _)|[Hr ->]]%in_box_run; (split_and!; [done..|]); [|by intros l ->].
    intros l [= <-]. split; [apply NoDup_elements|]. intros u. apply elem_of_elements.
  - intros set atts s r s' [(a & s1 & [= <- <-] & -> & -> & _)|[Hr ->]]%in_box_run; (split; [done|]); [|by intros l ->].
    intros l [= <-]. destruct (fetch_list set s) as (us & -> & Hnd & Hsub & _). split.
    + rewrite fetch_uids. apply NoDup_fmap_2; [apply _|done].
    + apply Forall_forall. intros x (u & -> & Hu)%list_elem_of_fmap. exists u. split; [|by apply Hsub].
      unfold to_fetch. by destruct (sv_box s !! u) as [[]|].
  - intros set atts ranges s l s' Hp [(a & s1 & [= <- <-] & [= ->] & -> & _)|[? ?]]%in_box_run u; [|done].
    destruct (fetch_list set s) as (us & -> & _ & _ & Hall). rewrite fetch_uids, <- (Hall ranges Hp), list_elem_of_fmap.
    split; [by intros (v & [= ->] & ?)|intros Hu; by exists u].
  - intros uid s r s' Hu [(a & s1 & [= <- <-] & -> & -> & _)|[Hr ->]]%in_box_run; [|split_and!; by auto].
    rewrite on_uid_known by done. split; [apply mark_held|]. split; [done|]. left. apply mark_marked.
  - intros uid s r s' Hu [(a & s1 & [= <- <-] & -> & -> & _)|[Hr ->]]%in_box_run; [|split_and!; by auto].
    rewrite on_uid_known by done. split; [done|]. left. apply expunge_held.
  - intros s r s' [(a & s1 & [= <- <-] & -> & -> & _)|[Hr ->]]%in_box_run; [|split_and!; by auto].
    split; [done|]. left. apply expunge_held.
  - intros uid dest s r s' Hu [(a & s1 & [= <- <-] & -> & -> & _)|[Hr ->]]%in_box_run; [|split_and!; by auto].
    rewrite on_uid_known by done. unfold record_copy. destruct (decide (uid ∈ held_uids s)); cbn; split_and!; auto.
  - intros uid dest s r s' Hu [(a & s1 & [= <- <-] & -> & -> & _)|[Hr ->]]%in_box_run; [|right; by auto].
    rewrite on_uid_known by done. unfold record_copy. destruct (decide (uid ∈ held_uids s)) as [Hin|Hni]; [left|right].
    + split; [done|]. split; [|done]. change (held_uids (tick ?x)) with (held_uids x). rewrite expunge_held.
      change (held_uids (set_copied ?l s)) with (held_uids s). set_solver.
    + split; [|by left]. change (held_uids (tick ?x)) with (held_uids x). rewrite expunge_held. set_solver.
Defined.
#[export] Instance toy_select : SelectLaws server.
Proof.
  refine {| open_box := sv_open; remote := fun s _ => all_uids s |}.
  - intros s. unfold held, toy_mailbox, held_uids. by destruct (sv_open s).
  - by intros config s r s' [(a & s1 & [= <- <-] & -> & ->)|[-> ->]]%command_run.
  - intros n s r s' [(a & s1 & [= <- <-] & -> & ->)|[-> ->]]%command_run; (split; [done|]); [done|by right].
  - by intros q s r s' [(a & s1 & [= <- <-] & -> & -> & [o Ho])|[Hr ->]]%in_box_run; split_and!; try done; rewrite ?Ho.
  - by intros set atts s r s' [(a & s1 & [= <- <-] & -> & -> & [o Ho])|[Hr ->]]%in_box_run; split_and!; try done; rewrite ?Ho.
Defined.

#[export] Instance toy_up : UpLaws server.
Proof.
  refine {| up := fun s => (forall n, sv_up s n = true) /\ u32 (sv_validity s) /\ u64 (or_zero (sv_modseq s));
            validity := fun s _ => sv_validity s |}.
  - intros n s r s' (Hup & Hv & Hm) Hr. cbn in Hr. unfold command in Hr. rewrite Hup in Hr. injection Hr as <- <-.
    split; [done|]. by exists (Some (sv_validity s)), (sv_modseq s).
  - intros q s r s' (Hup & Hv & Hm) Hr. cbn in Hr. unfold in_box, command in Hr. rewrite Hup in Hr.
    destruct (sv_open s) eqn:Ho; injection Hr as <- <-; (split; [done|]); [done|]. intros Hn. by destruct Hn.
  - intros set atts s r s' (Hup & Hv & Hm) Hr. cbn in Hr. unfold in_box, command in Hr. rewrite Hup in Hr.
    destruct (sv_open s) eqn:Ho; injection Hr as <- <-; (split; [done|]); [done|]. intros Hn. by destruct Hn.
Defined.

#[export] Instance toy_mime : MimeLib := {|
  parse_headers _ := Some []; parse_subject _ := None; gb18030_decode _ := None; str_debug s := s;
  extract_mime _ := (None, None, []) |}.

Definition toy_config : ImapConfig := mkConfig "imap.example.org" 993 Tls "ada" "pw" false.
Definition toy_box (l : list (Z * list Flag)) : gmap Z (list Flag * option string) :=
  list_to_map (map (fun '(u, flags) => (u, (flags, None))) l).
Definition toy_server (caps : list string) (l : list (Z * list Flag)) : server :=
  mkServer caps 3 None (fun _ => true) 0 (toy_box l) [] (Some "INBOX").
Definition toy_client (caps : list string) (l : list (Z * list Flag)) : ImapClient server :=
  mkClient (toy_server caps l) caps toy_config (Some "INBOX").

Lemma removal_is_safe_witness :
  let c := toy_client [] [(4, []); (7, [Deleted]); (9, [])] in
  box c = {[ 4; 7; 9 ]} /\ box (snd (delete_uid 4 c)) = {[ 4; 7; 9 ]} /\ dels (snd (delete_uid 4 c)) = {[ 4; 7 ]} /\
  box (snd (delete_uid 7 c)) = {[ 4; 9 ]} /\ box (snd (delete_uid 4 (toy_client ["UIDPLUS"] [(4, []); (7, [Deleted])]))) = {[ 7 ]} /\
  (forall r c', delete_uid 7 c = (r, c') ->
     made c' = made c /\ (forall u, u <> 7 -> (u ∈ box c' <-> u ∈ box c)) /\
     (r = Ok tt -> has_cap "UIDPLUS" c = true \/ dels c ⊆ {[ 7 ]} -> 7 ∉ box c')).
Proof.
  split; [vm_compute; reflexivity|]. split; [vm_compute; reflexivity|]. split; [vm_compute; reflexivity|].
  split; [vm_compute; reflexivity|]. split; [vm_compute; reflexivity|].
  apply (removal_is_safe 7 "Trash"). unfold u32, u32_max. lia.
Defined.

Lemma fetch_metadata_terminates_witness :
  let c := toy_client [] (map (fun u => (u, [])) (Z.of_nat <$> seq 1 10)) in
  let uids := Z.of_nat <$> seq 1 12 in
  option_map (fun msgs => order_by Z.leb (map im_uid msgs)) (rok (fst (fetch_metadata uids c))) = Some (Z.of_nat <$> seq 1 10) /\
  concat (chunks METADATA_CHUNK uids) = uids /\
  (forall fuel, (fetch_fuel (chunks METADATA_CHUNK uids) <= fuel)%nat ->
     fst (fetch_loop fuel (chunks METADATA_CHUNK uids) 0 0 [] c) <> Ok None) /\
  fetch_metadata uids c = try_chunks (chunks METADATA_CHUNK uids) c.
Proof.
  intros c uids. split; [vm_compute; reflexivity|]. apply fetch_metadata_terminates.
  apply Nat.ltb_lt. vm_compute. reflexivity.
Defined.
End ToyInstance.

(** ** Flags and labels *)

(** A flag is stored as its [Debug] text, which never starts with the keyword prefix of a
    label: no label keyword of an IMAP server is ever read back. *)
Theorem imap_labels_never_read `{JsonLaws} `{MimeLib} (flags : list Flag) :
  labels_from_flags_json (json_text (JArray (map JString (map flag_debug flags)))) = [].
Proof.
  unfold labels_from_flags_json. rewrite json_roundtrip.
  replace (fold_left push_label _ []) with (@nil string); [done|]. symmetry.
  induction flags as [|f flags IH]; [done|]. cbn. rewrite <- IH at 2. f_equal. by destruct f.
Qed.
