(* ===== verification/ImapLoop.v ===== *)
(** * The IMAP pass ([sync/imap_loop.rs])

    One pass over an account: list the folders, and for each select it, heal mangled
    rows, reconcile deletions, and store what is new.  The world is the database and the
    client; an IMAP command may fail at any point, and so may a statement. *)
From S2P Require Import Prelude Labels Jobs MailStore Netsec Imap.
Local Open Scope string_scope.
Local Open Scope Z_scope.

(** [store::AccountSyncRow] and [types::SyncResponse]. *)
Record AccountSyncRow := mkSyncRow {
  sr_email_address : string; sr_imap_host : option string; sr_imap_port : option Z; sr_imap_security : option string;
  sr_auth_type : string; sr_credential : string; sr_jmap_base_url : option string }.
Record SyncResponse := mkResponse {
  rs_account_id : string; rs_status : string; rs_folders_synced : nat; rs_messages_synced : nat;
  rs_messages_updated : nat; rs_messages_deleted : nat }.

Definition session_may_be_poisoned (err : ImapError) : bool :=
  match err with ImapTimeout | ImapLib _ | ImapConnection _ | ImapTls _ => true | _ => false end.

(** The counters of a pass, and how the work on a folder ends: [continue] (also after a
    soft failure) or [break 'folder] with the error that poisoned the session. *)
Record totals := mkTotals { tt_new : nat; tt_updated : nat; tt_deleted : nat }.
Definition add_batch (counts : nat * nat) (t : totals) : totals :=
  mkTotals (tt_new t + fst counts) (tt_updated t + snd counts) (tt_deleted t).
Definition add_deleted (n : nat) (t : totals) : totals := mkTotals (tt_new t) (tt_updated t) (tt_deleted t + n).
Inductive flow := Continue (t : totals) | Poisoned (err : ImapError).

Section ImapLoop.
Context {T : Type} `{ImapSession T} `{MimeLib} `{UrlLib} `{StoreLib} `{JsonLib}.
Local Abbreviation world := (mail * ImapClient T)%type.
Local Abbreviation M := (io world SyncError).

Definition on_db {A E} (m : io mail E A) : io world E A :=
  fun w => let '(r, db) := m (fst w) in (r, (db, snd w)).
Definition on_client {A E} (m : io (ImapClient T) E A) : io world E A :=
  fun w => let '(r, c) := m (snd w) in (r, (fst w, c)).

Definition uid_max (msgs : list ImapMessage) : Z := foldr Z.max 0 (map im_uid msgs).

Definition repair_folder_mojibake (account_id folder_id : string) : M nat :=
  let! uids := on_db (mojibake_message_uids folder_id 200) in
  match uids with
  | [] => ret 0%nat
  | _ =>
      let! fetched := map_err Imap (on_client (fetch_metadata uids)) in
      match fetched with
      | [] => ret 0%nat
      | _ => on_db (repair_imap_messages account_id folder_id fetched)
      end
  end.

(** The deletion reconcile of a folder; a failure is logged only. *)
Definition reconcile_step (account_id folder_id : string) (t : totals) : M totals :=
  let! listing := attempt (on_client (search_uids None)) in
  match listing with
  | Ok server_uids =>
      let! r := attempt (on_db (reconcile_folder_deletions account_id folder_id (list_to_set server_uids))) in
      match r : result SyncError nat with
      | Ok n => ret (add_deleted n t)
      | Err _ => ret t
      end
  | Err _ => ret t
  end.

Definition soft_fail (err : ImapError) (t : totals) : M flow :=
  ret (if session_may_be_poisoned err then Poisoned err else Continue t).

(** The loop over the chunks of new UIDs: the cursor, whether the folder was cleared, the
    counters, and the error that poisoned the session. *)
Record chunk_state := mkChunk { ck_cursor : Z; ck_cleared : bool; ck_totals : totals }.
Fixpoint store_chunks (account_id folder_id : string) (uid_validity new_modseq : Z) (uidvalidity_changed : bool)
    (pieces : list (list Z)) (st : chunk_state) : M (chunk_state * option ImapError) :=
  match pieces with
  | [] => ret (st, None)
  | chunk :: rest =>
      let! r := attempt (on_client (fetch_metadata chunk)) in
      match r with
      | Ok [] => store_chunks account_id folder_id uid_validity new_modseq uidvalidity_changed rest st
      | Ok msgs =>
          let chunk_cursor := Z.max (ck_cursor st) (uid_max msgs) in
          let! counts := on_db (persist_imap_folder_batch account_id folder_id msgs uid_validity chunk_cursor
                                  new_modseq (uidvalidity_changed && negb (ck_cleared st))) in
          store_chunks account_id folder_id uid_validity new_modseq uidvalidity_changed rest
            (mkChunk chunk_cursor true (add_batch counts (ck_totals st)))
      | Err err => ret (st, if session_may_be_poisoned err then Some err else None)
      end
  end.

(** What follows the chunks: the changed messages, or the cursor alone. *)
Definition finish_folder (account_id folder_id : string) (uid_validity stored_modseq new_modseq : Z)
    (uidvalidity_changed : bool) (messages : list ImapMessage) (st : chunk_state) : M flow :=
  match messages with
  | [] =>
      let! _ :=
        if uidvalidity_changed && negb (ck_cleared st)
        then on_db (persist_imap_folder_batch account_id folder_id [] uid_validity 0 new_modseq true)
        else if stored_modseq <? new_modseq
        then on_db (persist_imap_folder_batch account_id folder_id [] uid_validity (ck_cursor st) new_modseq false)
        else ret (0, 0)%nat in
      ret (Continue (ck_totals st))
  | _ =>
      let new_cursor_uid := Z.max (uid_max messages) (ck_cursor st) in
      let! counts := on_db (persist_imap_folder_batch account_id folder_id messages uid_validity new_cursor_uid
                              new_modseq uidvalidity_changed) in
      ret (Continue (add_batch counts (ck_totals st)))
  end.

Definition info (f : SyncCursorInfo -> Z) (cursor : option SyncCursorInfo) : Z :=
  match cursor with Some c => f c | None => 0 end.

(** What follows the cursor: the new UIDs, the changed messages, and their metadata. *)
Definition sync_since (account_id folder_id : string) (uid_validity highest_modseq : Z)
    (cursor : option SyncCursorInfo) (t : totals) : M flow :=
  let uidvalidity_changed := match cursor with Some c => negb (ci_uid_validity c =? uid_validity) | None => false end in
  let after_uid := if uidvalidity_changed then None else option_map ci_last_uid cursor in
  let stored_modseq := if uidvalidity_changed then 0 else info ci_last_modseq cursor in
  let! found := attempt (on_client (search_uids after_uid)) in
  match found with
  | Err err => soft_fail err t
  | Ok new_uids =>
      let! condstore := on_client (gets supports_condstore) in
      let! changed := attempt (if (condstore : bool) && (0 <? stored_modseq)
                               then on_client (fetch_changed_since stored_modseq) else ret []) in
      match changed with
      | Err err => soft_fail err t
      | Ok messages =>
          let fetch_uids := List.filter (fun uid => bool_decide (uid ∉ map im_uid messages)) new_uids in
          let new_modseq := if (condstore : bool) && (0 <? highest_modseq) then highest_modseq else 0 in
          let! done := store_chunks account_id folder_id uid_validity new_modseq uidvalidity_changed
                         (chunks METADATA_CHUNK fetch_uids) (mkChunk (info ci_last_uid cursor) false t) in
          let '(st, poison) := done in
          match poison with
          | Some err => ret (Poisoned err)
          | None => finish_folder account_id folder_id uid_validity stored_modseq new_modseq uidvalidity_changed
                      messages st
          end
      end
  end.

(** The body of the loop once the folder is selected. *)
Definition sync_selected (account_id folder_id : string) (uid_validity highest_modseq : Z) (t : totals) : M flow :=
  let! _ := attempt (F := SyncError) (repair_folder_mojibake account_id folder_id) in
  let! t := reconcile_step account_id folder_id t in
  let! cursor := on_db (load_cursor account_id folder_id) in
  sync_since account_id folder_id uid_validity highest_modseq cursor t.

Definition sync_folder (account_id : string) (folder : ImapFolder) (t : totals) : M flow :=
  if existsb (contains_str "Noselect") (if_attributes folder) then ret (Continue t) else
  let! folder_id := on_db (get_folder_id account_id (if_name folder)) in
  let! selected := attempt (on_client (select (if_name folder))) in
  match selected with
  | Err err => soft_fail err t
  | Ok sel => sync_selected account_id folder_id (sel_uid_validity sel) (or_zero (sel_highest_modseq sel)) t
  end.

Fixpoint sync_folders (account_id : string) (folders : list ImapFolder) (t : totals) : M flow :=
  match folders with
  | [] => ret (Continue t)
  | folder :: rest =>
      let! end_ := sync_folder account_id folder t in
      match end_ with
      | Continue t => sync_folders account_id rest t
      | Poisoned err => ret (Poisoned err)
      end
  end.

Fixpoint upsert_folders (account_id : string) (folders : list ImapFolder) : M unit :=
  match folders with
  | [] => ret tt
  | folder :: rest =>
      let! _ := on_db (upsert_folder account_id (if_name folder) (if_delimiter folder) (if_attributes folder)) in
      upsert_folders account_id rest
  end.

Definition depth_le (a b : ImapFolder) : bool :=
  (imap_folder_depth (if_name a) (if_delimiter a) <=? imap_folder_depth (if_name b) (if_delimiter b))%nat.

(** The pass once connected. *)
Definition sync_account (account_id : string) : M SyncResponse :=
  let! folders := map_err Imap (on_client list_folders) in
  let folders := order_by depth_le folders in
  let! _ := upsert_folders account_id folders in
  let! end_ := sync_folders account_id folders (mkTotals 0 0 0) in
  let! _ := attempt (F := SyncError) (on_client logout) in
  match end_ with
  | Poisoned err => throw (Imap err)
  | Continue t => ret (mkResponse account_id "completed" (length folders) (tt_new t) (tt_updated t) (tt_deleted t))
  end.

Definition imap_config (row : AccountSyncRow) (password : string) (xoauth2 : bool) : result SyncError ImapConfig :=
  let? host := ok_or (CryptoE "IMAP host not configured") (sr_imap_host row) in
  let port := match bounded 0 65535 (Some (match sr_imap_port row with Some p => p | None => 993 end)) with
              | Some p => p | None => 993 end in
  let? security := match sr_imap_security row with
                   | Some s =>
                       let? mode := rmap_err InvalidInput (normalize_security_mode s) in
                       Ok (if String.eqb mode "starttls" then Starttls else Tls)
                   | None => Ok Tls
                   end in
  Ok (mkConfig host port security (sr_email_address row) password xoauth2).

Definition run_imap_sync (account_id : string) (row : AccountSyncRow) (password : string) (xoauth2 : bool)
    : io (mail * T) SyncError SyncResponse :=
  fun w =>
    match imap_config row password xoauth2 with
    | Err e => (Err e, w)
    | Ok config =>
        match connect config (snd w) with
        | (Err e, net) => (Err (Imap e), (fst w, net))
        | (Ok client, _) =>
            let '(r, (db, client)) := sync_account account_id (fst w, client) in (r, (db, cl_session client))
        end
    end.
End ImapLoop.

(** ** What a pass may change

    The folder [f] of account [a] is the mailbox [name], which holds [B] throughout. *)

(** A row as local actions left it. *)
Record kept_row (m m' : MessageRow) : Prop := {
  kr_id : m_id m' = m_id m; kr_account : m_account m' = m_account m; kr_folder : m_folder m' = m_folder m;
  kr_deleted : m_deleted m' = m_deleted m; kr_labels : m_labels m' = m_labels m;
  kr_snoozed : m_snoozed_until m' = m_snoozed_until m }.
#[export] Instance kept_row_preorder : PreOrder kept_row.
Proof. split; [by split|]. intros x y z [] []. split; congruence. Qed.
Lemma fill_in_kept row m : kept_row m (fill_in row m).
Proof. by split. Qed.

Section Pass.
Context {T : Type} `{SelectLaws T} `{MimeLib} `{StoreLaws} `{JsonLib}.
Context (a f name : string) (B : gset Z).
Local Abbreviation world := (mail * ImapClient T)%type.
Local Abbreviation ext := (imap_message_external_id f).

(** *** The client *)

Definition client_ok (c : ImapClient T) : Prop :=
  remote (cl_session c) name = B /\ (open_box (cl_session c) = None \/ open_box (cl_session c) = Some name) /\
  (cl_selected c = None \/ cl_selected c = Some name).
Definition stays (c c' : ImapClient T) : Prop := client_ok c -> client_ok c'.
#[local] Instance stays_preorder : PreOrder stays.
Proof. split; [by intros c Hc|]. intros x y z Hxy Hyz Hx. auto. Qed.

Lemma pres_session {A} (m : io T ImapError A) :
  (forall s r s', m s = (r, s') -> remote s' = remote s /\ (open_box s' = open_box s \/ open_box s' = None)) ->
  preserves stays (on_session m).
Proof.
  intros Hm c r c' [Hr ->]%on_session_run (Hb & Ho & Hs). destruct (Hm _ _ _ Hr) as [Hrem Hop].
  split; [by rewrite <- Hb, <- Hrem|]. split; [|done]. cbn. destruct Hop as [->| ->]; [done|by left].
Qed.
Lemma pres_search q : preserves stays (on_session (sess_uid_search q)).
Proof. apply pres_session. intros s r s' (Hr & Ho & _)%search_keeps. auto. Qed.
Lemma pres_fetch set atts : preserves stays (on_session (sess_uid_fetch set atts)).
Proof. apply pres_session. intros s r s' (Hr & Ho & _)%fetch_keeps. auto. Qed.
Lemma pres_once uids : preserves stays (fetch_metadata_once uids).
Proof.
  unfold fetch_metadata_once. destruct (format_uid_set uids); [|apply pres_ret, _].
  apply pres_bind; [apply _|apply pres_fetch|]. intros l. apply pres_ret, _.
Qed.
Lemma pres_reconnect : preserves stays reconnect.
Proof.
  intros c r c' Hr Hc. unfold reconnect, bind at 1, gets in Hr.
  apply bind_inv in Hr as [(e & Hs & _)|(caps & c1 & Hs & Hr)].
  - eapply pres_session; [|exact Hs|exact Hc]. intros s r0 s' [Hrem Ho]%connect_closes.
    split; [done|]. destruct (is_ok r0); auto.
  - assert (Hc1 : client_ok c1).
    { eapply pres_session; [|exact Hs|exact Hc]. intros s r0 s' [Hrem Ho]%connect_closes.
      split; [done|]. destruct (is_ok r0); auto. }
    clear Hs Hc c. unfold bind at 1, modify in Hr. cbn in Hr.
    set (c2 := mkClient _ _ _ _) in Hr. assert (Hc2 : client_ok c2) by exact Hc1.
    destruct (cl_selected c1) as [n|] eqn:Hn; [|by injection Hr as <- <-].
    assert (n = name) as ->. { destruct Hc1 as (_ & _ & [Hx|Hx]); congruence. }
    clearbody c2. clear Hc1 Hn c1. unfold select in Hr.
    assert (Hsel : forall c r c', on_session (sess_select name) c = (r, c') -> client_ok c -> client_ok c').
    { intros c0 r0 c0' [Hs ->]%on_session_run (Hb & Ho & Hx). apply select_opens in Hs as [Hrem Hop].
      split; [by rewrite <- Hb, <- Hrem|]. split; [|done]. cbn. destruct (is_ok r0); [by right|].
      destruct Hop as [->| ->]; [by left|done]. }
    assert (Hc3 : client_ok (set_selected None c2)).
    { destruct Hc2 as (? & ? & _). split; [done|]. split; [done|by left]. }
    apply bind_inv in Hr as [(e & ? & _)|([] & c3 & [= <-] & Hr)]; [done|].
    apply bind_inv in Hr as [(e & Hr & _)|(sel & c4 & Hr & Hx)]; [|injection Hx as <- <-].
    + apply bind_inv in Hr as [(e' & Hr & _)|(mb & c4 & Hr & Hx)]; [by eapply Hsel|].
      discriminate Hx.
    + apply bind_inv in Hr as [(e' & _ & ?)|(mb & c5 & Hr & Hx)]; [done|].
      apply (Hsel _ _ _ Hr) in Hc3 as (? & ? & _). injection Hx as <- <-.
      split; [done|]. split; [done|by right].
Qed.

Lemma pres_loop pieces : forall fuel idx retries out, preserves stays (fetch_loop fuel pieces idx retries out).
Proof.
  induction fuel as [|fuel IH]; intros idx retries out; cbn [fetch_loop]; [apply pres_ret, _|].
  destruct (pieces !! idx) as [chunk|]; [|apply pres_ret, _].
  apply pres_bind; [apply _|apply pres_attempt, pres_once|]. intros [msgs|err]; [apply IH|]. cbv zeta.
  destruct (_ <? _); [apply pres_throw, _|]. apply pres_bind; [apply _|apply pres_reconnect|]. intros _. apply IH.
Qed.
Lemma pres_metadata uids : preserves stays (fetch_metadata uids).
Proof.
  unfold fetch_metadata. destruct (_ <=? _)%nat; [apply pres_once|]. cbv zeta.
  apply pres_bind; [apply _|apply pres_loop|]. intros o. apply pres_ret, _.
Qed.
Lemma pres_changed ms : preserves stays (fetch_changed_since ms).
Proof.
  unfold fetch_changed_since. apply pres_bind; [apply _|apply pres_gets, _|]. intros cs.
  destruct (_ || _); [apply pres_ret, _|]. apply pres_bind; [apply _|apply pres_fetch|]. intros l. apply pres_ret, _.
Qed.

(** A command that is answered was answered from the mailbox. *)
Lemma box_open (c : ImapClient T) : client_ok c -> open_box (cl_session c) <> None -> box c = B.
Proof. intros (Hr & [Ho|Ho] & _) Hn; [done|]. unfold box. by rewrite held_open, Ho, Hr. Qed.
Lemma box_sub (c : ImapClient T) : client_ok c -> box c ⊆ B.
Proof.
  intros Hc. destruct (open_box (cl_session c)) as [n|] eqn:Ho; [by rewrite (box_open c Hc) by by rewrite Ho|].
  unfold box. rewrite held_open, Ho. set_solver.
Qed.
Lemma search_listing o (c : ImapClient T) l c' : client_ok c -> (forall u, o = Some u -> 0 <= u < u32_max) ->
  search_uids o c = (Ok l, c') ->
  NoDup l /\ (forall u, u ∈ l -> u ∈ B) /\ forall u, u ∈ B -> (forall v, o = Some v -> v < u) -> u ∈ l.
Proof.
  intros Hc Ho Hs. assert (Hb : box c = B).
  { apply box_open; [done|]. intros Hn. unfold search_uids in Hs. apply on_session_run in Hs as [Hs _].
    apply search_keeps in Hs as (_ & _ & Hx). by specialize (Hx Hn). }
  destruct (search_answers o c _ c' Ho Hs) as (_ & _ & Hl). rewrite Hb in Hl. by apply Hl.
Qed.
Lemma once_answers uids (c : ImapClient T) msgs c' : client_ok c -> Forall u32 uids ->
  fetch_metadata_once uids c = (Ok msgs, c') ->
  NoDup (im_uid <$> msgs) /\ (forall u, u ∈ im_uid <$> msgs -> u ∈ B) /\
  forall u, u ∈ uids -> u ∈ B -> u ∈ im_uid <$> msgs.
Proof.
  intros Hc Hu Hf. destruct uids as [|u0 uids].
  { injection Hf as <- _. split; [constructor|]. by split; intros u ?%not_elem_of_nil. }
  assert (Hb : box c = B).
  { apply box_open; [done|]. intros Hn. unfold fetch_metadata_once in Hf.
    destruct (format_uid_set (u0 :: uids)) as [set|] eqn:He.
    - apply bind_inv in Hf as [(e & _ & ?)|(l & c1 & Hf & _)]; [done|]. apply on_session_run in Hf as [Hf _].
      apply fetch_keeps in Hf as (_ & _ & Hx). by specialize (Hx Hn).
    - destruct (uid_set_ranges (u0 :: uids)) as (? & ? & Hx & _); [done|done|]. by rewrite He in Hx. }
  destruct (fetch_once_answers _ _ _ _ Hu Hf) as (_ & _ & Hl). destruct (Hl msgs eq_refl) as [Hnd Hiff].
  rewrite Hb in Hiff. split; [done|]. split; intros u; rewrite Hiff; tauto.
Qed.
Lemma changed_answers ms (c : ImapClient T) msgs c' : client_ok c -> fetch_changed_since ms c = (Ok msgs, c') ->
  NoDup (im_uid <$> msgs) /\ forall u, u ∈ im_uid <$> msgs -> u ∈ B.
Proof.
  intros Hc Hf. destruct (fetch_changed_answers _ _ _ _ Hf) as (_ & _ & Hl). destruct (Hl msgs eq_refl) as [Hnd Hs].
  split; [done|]. intros u Hu. by apply (box_sub c Hc), Hs.
Qed.

(** *** The database *)

Context (HB : forall u, u ∈ B -> 1 <= u <= u32_max).
Lemma B_is_u32 u : u ∈ B -> u32 u.
Proof. intros Hu%HB. unfold u32. lia. Qed.

Definition rows_kept (db db' : mail) : Prop := forall u m, u ∈ B -> row_at db a (ext u) = Some m ->
  exists m', row_at db' a (ext u) = Some m' /\ kept_row m m'.
Definition live_uid (db : mail) (u : Z) : Prop :=
  exists m, m ∈ ml_messages db /\ live_in a f m = true /\ parse_imap_uid (m_external m) = Ok u.
Definition live_from (db db' : mail) : Prop := forall u, live_uid db' u -> u ∈ B \/ live_uid db u.
Definition db_moves (db db' : mail) : Prop := mail_ok db ->
  (mail_ok db' /\ (ml_seq db <= ml_seq db')%N) /\ rows_kept db db' /\ live_from db db'.
#[local] Instance db_moves_preorder : PreOrder db_moves.
Proof.
  split.
  - intros db Hok. split; [split; [done|lia]|]. split; [|intros u Hu; by right].
    intros u m _ Hm. by exists m.
  - intros x y z Hxy Hyz Hx. destruct (Hxy Hx) as ((Hy & Hs) & Hr & Hl). destruct (Hyz Hy) as ((Hz & Hs') & Hr' & Hl').
    split; [split; [done|lia]|]. split.
    + intros u m Hu Hm. destruct (Hr u m Hu Hm) as (m1 & Hm1 & Hk). destruct (Hr' u m1 Hu Hm1) as (m2 & Hm2 & Hk').
      exists m2. split; [done|by etrans].
    + intros u Hu. destruct (Hl' u Hu) as [?|Hu']; [by left|by apply Hl].
Qed.

(** An operation that keeps the tables well formed and the messages as they are. *)
Lemma moves_same {A} (m : io mail SyncError A) : preserves keeps_ok m ->
  (forall db r db', m db = (r, db') -> ml_messages db' = ml_messages db) -> preserves db_moves m.
Proof.
  intros Hk Hm db r db' Hr Hok. split; [by apply (Hk _ _ _ Hr)|]. apply Hm in Hr.
  unfold rows_kept, live_from, live_uid, row_at. rewrite Hr. split; [|by auto]. intros u x _ Hx. by exists x.
Qed.
Lemma moves_read {A} (g : mail -> A) : preserves db_moves (mstmt (fun w => (g w, w))).
Proof.
  apply moves_same; [apply pres_read|]. intros db [x|e] db'.
  - by intros (w1 & n & [= _ <-] & ->)%mstmt_Ok.
  - by intros ->%mstmt_Err.
Qed.
Lemma moves_transaction {A} (body : io mail SyncError A) :
  preserves db_moves body -> preserves keeps_ok body -> preserves db_moves (transaction body).
Proof.
  intros Hb Hk db r db' Ht Hok. split; [by apply (pres_transaction _ Hk _ _ _ Ht)|]. destruct r as [x|e].
  - apply transaction_Ok in Ht as (n & n' & w1 & Hbody & ->). apply (set_fuse_ok n) in Hok.
    by destruct (Hb _ _ _ Hbody Hok) as (_ & Hr & Hl).
  - apply transaction_Err in Ht as (Hm & _ & _). unfold rows_kept, live_from, live_uid, row_at. rewrite Hm.
    split; [|by auto]. intros u x _ Hx. by exists x.
Qed.
Lemma moves_counts : preserves db_moves (update_folder_counts_in_tx f).
Proof.
  unfold update_folder_counts_in_tx. apply pres_bind; [apply _|apply moves_read|intros ?].
  apply pres_bind; [apply _|apply moves_read|intros ?]. apply moves_same; [by apply pres_update_folder|].
  intros db [x|e] db'; [by intros (w1 & n & [= _ <-] & ->)%mstmt_Ok|by intros ->%mstmt_Err].
Qed.
Lemma moves_cursor p t v : preserves db_moves (write_cursor a f p t v).
Proof.
  apply moves_same; [apply pres_write_cursor|]. unfold write_cursor.
  intros db r db' [(e & ? & _)|(id & w1 & [= _ <-] & Hw)]%bind_inv; [done|].
  destruct r as [x|e]; [by apply mstmt_Ok in Hw as (w2 & n & [= _ <-] & ->)|by apply mstmt_Err in Hw as ->].
Qed.

(** Rows changed in place. *)
Lemma moves_update (p : MessageRow -> bool) (g : mail -> MessageRow -> MessageRow) :
  (forall w m, message_key (g w m) = message_key m) -> (forall w m, kept_row m (g w m)) ->
  preserves db_moves (mstmt (fun w => (tt, set_messages (update_messages p (g w) (ml_messages w)) w))).
Proof.
  intros Hk Hg db r db' Hr Hok. split.
  { revert Hok. eapply (pres_update_stmt p g Hk); [|exact Hr]. intros w m. apply Hg. }
  destruct r as [[]|e]; [|apply mstmt_Err in Hr as ->; split; [intros u m _ Hm; by exists m|intros u Hu; by right]].
  apply mstmt_Ok in Hr as (w1 & n & [= <-] & ->). split.
  - intros u m Hu Hm. unfold row_at in *. cbn. unfold update_messages. rewrite find_map_keeps.
    + rewrite Hm. cbn. destruct (p m); eauto. by exists m.
    + intros x. apply eq_true_iff_eq. rewrite !message_is_spec. by destruct (p x); rewrite ?Hk.
  - intros u (m & Hin & Hlive & Hp). right. cbn in Hin.
    apply list_elem_of_In, in_map_iff in Hin as (x & Hx & Hin%list_elem_of_In). destruct (p x); subst; [|by exists m].
    exists x. split; [done|]. destruct (Hg db x) as [_ Ha Hf Hd _ _].
    specialize (Hk db x). unfold message_key in Hk. unfold live_in in *. rewrite Ha, Hf, Hd in Hlive. split; [done|].
    destruct (m_external (g db x)), (m_external x); cbn in Hk; try done. rewrite Ha in Hk. by injection Hk as ->.
Qed.

(** One fetched message. *)
Lemma upsert_message_table msg db r db' : upsert_message_in_tx a f msg db = (r, db') ->
  ml_messages db' = ml_messages db \/
  exists id s, ml_messages db' = upsert_row (imap_row id a f s msg) (ml_messages db).
Proof.
  unfold upsert_message_in_tx.
  intros [(e & ->%mstmt_Err & _)|(o & w1 & (w1' & n & [= _ <-] & ->)%mstmt_Ok & Hr)]%bind_inv; [by left|].
  apply bind_inv in Hr as [(e & ? & _)|(id & w2 & [= <- <-] & Hr)]; [done|].
  apply bind_inv in Hr as [(e & ->%mstmt_Err & _)|([] & w3 & (w3' & n' & [= <-] & ->)%mstmt_Ok & [= _ <-])]; [by left|].
  right. by eexists _, _.
Qed.
Lemma moves_message msg : im_uid msg ∈ B -> preserves db_moves (upsert_message_in_tx a f msg).
Proof.
  intros Hu db r db' Hr Hok. pose proof (pres_upsert_message a f msg _ _ _ Hr Hok) as Hok'. split; [done|].
  destruct Hok' as [Hok' _]. apply upsert_message_table in Hr as [Hm|(id & s & Hm)].
  { unfold rows_kept, live_from, live_uid, row_at. rewrite Hm. split; [intros u m _ Hx; by exists m|by auto]. }
  assert (Hat : forall a' e', row_at db' a' e' = if decide ((a', e') = (a, ext (im_uid msg)))
    then Some (stored (imap_row id a f s msg) (row_at db a (ext (im_uid msg)))) else row_at db a' e').
  { intros a' e'. unfold row_at. rewrite Hm. by apply upsert_row_find. }
  split.
  - intros u m HuB Hx. rewrite Hat. destruct (decide _) as [[= He]|_]; [|by exists m]. rewrite <- He, Hx.
    eexists. split; [done|]. apply fill_in_kept.
  - intros u (m & Hin & Hlive & Hp). destruct (m_external m) as [e|] eqn:He; [|done].
    assert (Hacc : m_account m = a). { unfold live_in in Hlive. by apply andb_true_iff in Hlive as [[?%String.eqb_eq _]%andb_true_iff _]. }
    assert (Hkey : message_key m = Some (a, e)) by (unfold message_key; by rewrite He, Hacc).
    pose proof (proj2 (row_at_elem db' a e m Hok') (conj Hin Hkey)) as Hrow. rewrite Hat in Hrow.
    destruct (decide _) as [[= ->]|_].
    + left. rewrite parse_external in Hp by (by apply B_is_u32). by injection Hp as <-.
    + right. apply (row_at_elem db a e m Hok) in Hrow as [Hin' _]. exists m. by rewrite He.
Qed.
Lemma moves_all msgs : forall n u, Forall (fun msg => im_uid msg ∈ B) msgs ->
  preserves db_moves (upsert_all a f msgs n u).
Proof.
  induction msgs as [|msg msgs IH]; intros n u; cbn [upsert_all]; [intros _; apply pres_ret, _|].
  intros [Hm Hms]%Forall_cons. apply pres_bind; [apply _|by apply moves_message|]. intros []; by apply IH.
Qed.
Lemma moves_persist msgs uv last ms : Forall (fun msg => im_uid msg ∈ B) msgs ->
  preserves db_moves (persist_imap_folder_batch a f msgs uv last ms false).
Proof.
  intros Hm. apply moves_transaction.
  - apply pres_bind; [apply _|apply pres_ret, _|intros _]. apply pres_bind; [apply _|by apply moves_all|intros k].
    apply pres_bind; [apply _|apply moves_cursor|intros _]. apply pres_bind; [apply _|apply moves_counts|intros _].
    apply pres_ret, _.
  - apply pres_bind; [apply _|apply pres_ret, _|intros _]. apply pres_bind; [apply _|apply pres_upsert_all|intros k].
    apply pres_bind; [apply _|apply pres_write_cursor|intros _]. apply pres_bind; [apply _|apply pres_counts|intros _].
    apply pres_ret, _.
Qed.
Lemma moves_repair msgs : Forall (fun msg => im_uid msg ∈ B) msgs ->
  preserves db_moves (repair_imap_messages a f msgs).
Proof.
  intros Hm. apply moves_transaction.
  - apply pres_bind; [apply _|by apply moves_all|intros k].
    apply pres_bind; [apply _|by apply (moves_update _ (fun _ => clear_body))|intros _].
    apply pres_bind; [apply _|apply moves_counts|intros _]. apply pres_ret, _.
  - apply pres_bind; [apply _|apply pres_upsert_all|intros k].
    apply pres_bind; [apply _|by apply (pres_update_stmt _ (fun _ => clear_body))|intros _].
    apply pres_bind; [apply _|apply pres_counts|intros _]. apply pres_ret, _.
Qed.

Lemma reconcile_table uids db r db' : mail_ok db -> reconcile_folder_deletions a f uids db = (r, db') ->
  ml_messages db' = ml_messages db \/
  ml_messages db' = update_messages (stale_row a f uids) soft_delete (ml_messages db).
Proof.
  intros Hok Hr. destruct r as [n|e]; [right; by apply reconcile_Ok in Hr as (? & _)|left].
  apply bind_inv in Hr as [(e' & ->%mstmt_Err & _)|(rows & w1 & (w1' & n & [= <- <-] & ->)%mstmt_Ok & Hr)]; [done|].
  cbv zeta in Hr. destruct (stale_imap_row_ids _ _); [done|]. by apply transaction_Err in Hr as (-> & _).
Qed.
Lemma live_soft m : live_in a f (soft_delete m) = false.
Proof. unfold live_in. cbn. by rewrite andb_false_r. Qed.
Lemma moves_reconcile : preserves db_moves (reconcile_folder_deletions a f B).
Proof.
  intros db r db' Hr Hok. split; [by apply (pres_reconcile a f B _ _ _ Hr)|].
  destruct (reconcile_table B db r db' Hok Hr) as [Hm|Hm].
  { unfold rows_kept, live_from, live_uid, row_at. rewrite Hm. split; [intros u m _ Hx; by exists m|by auto]. }
  split.
  - intros u m Hu Hx. exists m. split; [|done]. unfold row_at in *. rewrite Hm. unfold update_messages.
    rewrite find_map_keeps, Hx; [|intros x; by destruct (stale_row a f B x)]. cbn.
    replace (stale_row a f B m) with false; [done|]. symmetry. apply find_some in Hx as [_ Hx%message_is_spec].
    unfold message_key in Hx. destruct (m_external m) as [e|] eqn:He; [|done]. cbn in Hx. injection Hx as _ ->.
    unfold stale_row. rewrite He, parse_external by (by apply B_is_u32). rewrite bool_decide_false by tauto. apply andb_false_r.
  - intros u (m & Hin & Hlive & Hp). right. rewrite Hm in Hin. unfold update_messages in Hin.
    apply list_elem_of_In, in_map_iff in Hin as (x & Hx & Hin%list_elem_of_In).
    destruct (stale_row a f B x); subst m; [by rewrite live_soft in Hlive|by exists x].
Qed.
Lemma reconciled_live db n db' u : mail_ok db -> reconcile_folder_deletions a f B db = (Ok n, db') ->
  live_uid db' u -> u ∈ B.
Proof.
  intros Hok Hr (m & Hin & Hlive & Hp). apply reconcile_Ok in Hr as (Hm & _); [|done]. rewrite Hm in Hin.
  unfold update_messages in Hin. apply list_elem_of_In, in_map_iff in Hin as (x & Hx & _).
  destruct (stale_row a f B x) eqn:Hs; subst m; [by rewrite live_soft in Hlive|].
  unfold stale_row in Hs. rewrite Hlive, Hp in Hs. cbn in Hs. apply bool_decide_eq_false in Hs.
  by destruct (decide (u ∈ B)).
Qed.

(** *** Both together *)

Definition moves (w w' : world) : Prop :=
  client_ok (snd w) -> client_ok (snd w') /\ db_moves (fst w) (fst w').
#[local] Instance moves_preorder : PreOrder moves.
Proof.
  split; [intros w Hw; split; [done|reflexivity]|]. intros x y z Hxy Hyz Hx.
  destruct (Hxy Hx) as [Hy Hd]. destruct (Hyz Hy) as [Hz Hd']. split; [done|by etrans].
Qed.
Lemma moves_db {A E} (m : io mail E A) : preserves db_moves m -> preserves moves (on_db (T := T) m).
Proof.
  intros Hm w r w'. unfold on_db. destruct (m (fst w)) as [r1 db1] eqn:Hr. intros [= <- <-] Hc. split; [done|].
  by apply (Hm _ _ _ Hr).
Qed.
Lemma moves_client {A E} (m : io (ImapClient T) E A) : preserves stays m -> preserves moves (on_client m).
Proof.
  intros Hm w r w'. unfold on_client. destruct (m (snd w)) as [r1 c1] eqn:Hr. intros [= <- <-] Hc.
  split; [by apply (Hm _ _ _ Hr)|reflexivity].
Qed.
Lemma on_client_run {A E} (m : io (ImapClient T) E A) (w : world) r w' : on_client m w = (r, w') ->
  m (snd w) = (r, snd w') /\ fst w' = fst w.
Proof. unfold on_client. destruct (m (snd w)) as [r1 c1]. by intros [= <- <-]. Qed.
Lemma on_db_run {A E} (m : io mail E A) (w : world) r w' : on_db m w = (r, w') ->
  m (fst w) = (r, fst w') /\ snd w' = snd w.
Proof. unfold on_db. destruct (m (fst w)) as [r1 c1]. by intros [= <- <-]. Qed.

(** The same from one world, with what the calls before answered. *)
Definition moves_at {A E} (m : io world E A) (w : world) : Prop := forall r w', m w = (r, w') -> moves w w'.
Lemma at_pres {A E} (m : io world E A) w : preserves moves m -> moves_at m w.
Proof. intros Hm r w'. apply Hm. Qed.
Lemma at_bind {A C E} (m : io world E A) (k : A -> io world E C) w :
  moves_at m w -> (forall x w1, m w = (Ok x, w1) -> client_ok (snd w) -> client_ok (snd w1) -> moves_at (k x) w1) ->
  moves_at (bind m k) w.
Proof.
  intros Hm Hk r w' [(e & Hw & _)|(x & w1 & Hw & Hr)]%bind_inv; [by eapply Hm|]. intros Hc.
  destruct (Hm _ _ Hw Hc) as [Hc1 Hd]. destruct (Hk _ _ Hw Hc Hc1 _ _ Hr Hc1) as [Hc2 Hd']. split; [done|by etrans].
Qed.
Lemma at_attempt {A E F} (m : io world E A) w : moves_at m w -> moves_at (attempt (F := F) m) w.
Proof. intros Hm r w'. unfold attempt. destruct (m w) as [r1 w1] eqn:Hw. intros [= _ <-]. by eapply Hm. Qed.
Lemma at_map_err {A E F} (g : E -> F) (m : io world E A) w : moves_at m w -> moves_at (map_err g m) w.
Proof. intros Hm r w'. unfold map_err. destruct (m w) as [r1 w1] eqn:Hw. intros [= _ <-]. by eapply Hm. Qed.
Lemma attempt_run {W A E F} (m : io W E A) w r w' : attempt (F := F) m w = (Ok r, w') -> m w = (r, w').
Proof. unfold attempt. destruct (m w). by intros [= -> ->]. Qed.
Lemma at_ret {A E} (x : A) w : moves_at (ret (E := E) x) w.
Proof. by intros r w' [= _ <-]. Qed.

(** *** Healing *)

Lemma parse_unsigned_bounds max s z : parse_unsigned max s = Some z -> 0 <= z <= max.
Proof.
  unfold parse_unsigned, bounded. destruct (strip_prefix "+" s) as [t|].
  - destruct (parse_digits t) as [x|]; [|done]. destruct (_ && _) eqn:Hb; [|done]. intros [= ->].
    by apply andb_true_iff in Hb as [?%Z.leb_le ?%Z.leb_le].
  - destruct (parse_digits s) as [x|]; [|done]. destruct (_ && _) eqn:Hb; [|done]. intros [= ->].
    by apply andb_true_iff in Hb as [?%Z.leb_le ?%Z.leb_le].
Qed.
Lemma mojibake_u32 n db uids db' : mojibake_message_uids f n db = (Ok uids, db') -> Forall u32 uids.
Proof.
  intros (w1 & k & [= <- _] & _)%mstmt_Ok. apply Forall_forall. intros u (m & _ & Hp)%list_elem_of_omap.
  unfold parse_imap_uid in Hp. destruct (m_external m); [|done].
  destruct (parse_u32 _) as [z|] eqn:Hz; [|done]. injection Hp as <-. by apply parse_unsigned_bounds in Hz.
Qed.
Lemma Forall_lookup_u32 pieces idx (chunk : list Z) : Forall (Forall u32) pieces -> pieces !! idx = Some chunk -> Forall u32 chunk.
Proof. intros Hp Hl. by apply (Forall_lookup_1 _ _ _ _ Hp Hl). Qed.
Lemma uids_in_B (msgs : list ImapMessage) :
  (forall u, u ∈ im_uid <$> msgs -> u ∈ B) <-> Forall (fun msg => im_uid msg ∈ B) msgs.
Proof.
  rewrite Forall_forall. split.
  - intros Hm x Hx. by apply Hm, list_elem_of_fmap_2.
  - intros Hm u (x & -> & Hx)%list_elem_of_fmap. by apply Hm.
Qed.
Lemma loop_in_B pieces : Forall (Forall u32) pieces -> forall fuel idx retries out (c : ImapClient T) msgs c',
  client_ok c -> Forall (fun msg => im_uid msg ∈ B) out ->
  fetch_loop fuel pieces idx retries out c = (Ok (Some msgs), c') -> Forall (fun msg => im_uid msg ∈ B) msgs.
Proof.
  intros Hp. induction fuel as [|fuel IH]; intros idx retries out c msgs c' Hc Hout Hr; [done|]. cbn [fetch_loop] in Hr.
  destruct (pieces !! idx) as [chunk|] eqn:Hi; [|by injection Hr as <- <-].
  apply bind_Ok in Hr as (r1 & c1 & Hf%attempt_run & Hr).
  assert (Hc1 : client_ok c1) by (by apply (pres_once _ _ _ _ Hf)). destruct r1 as [l|err].
  - apply IH in Hr; [done..|]. apply Forall_app. split; [done|]. apply uids_in_B.
    apply once_answers in Hf as (_ & Hb & _); [done..|]. by eapply Forall_lookup_u32.
  - cbv zeta in Hr. destruct (_ <? _); [done|]. apply bind_Ok in Hr as ([] & c2 & Hrc & Hr).
    assert (Hc2 : client_ok c2) by (by apply (pres_reconnect _ _ _ Hrc)). by apply IH in Hr.
Qed.
Lemma chunks_forall (P : Z -> Prop) n l : (0 < n)%nat -> Forall P l -> Forall (Forall P) (chunks n l).
Proof.
  intros Hn Hl. apply Forall_forall. intros piece Hpiece. apply Forall_forall. intros x Hx.
  apply (proj1 (Forall_forall _ _) Hl). rewrite <- (chunks_concat n l Hn). apply list_elem_of_In, in_concat.
  exists piece. split; by apply list_elem_of_In.
Qed.
Lemma metadata_in_B uids (c : ImapClient T) msgs c' : client_ok c -> Forall u32 uids ->
  fetch_metadata uids c = (Ok msgs, c') -> Forall (fun msg => im_uid msg ∈ B) msgs.
Proof.
  intros Hc Hu Hf. unfold fetch_metadata in Hf. destruct (_ <=? _)%nat.
  - apply uids_in_B. by apply once_answers in Hf as (_ & ? & _).
  - cbv zeta in Hf. apply bind_Ok in Hf as (o & c1 & Hl & Hx). injection Hx as <- _.
    destruct o as [l|]; [|done]. eapply loop_in_B; [| |by apply Forall_nil|exact Hl]; [|done].
    apply chunks_forall; [unfold METADATA_CHUNK; lia|done].
Qed.
Lemma moves_heal w : client_ok (snd w) -> moves_at (repair_folder_mojibake a f) w.
Proof.
  intros Hc. apply at_bind; [apply at_pres, moves_db, moves_read|]. intros uids w1 [Hu _]%on_db_run _ Hc1.
  apply mojibake_u32 in Hu. destruct uids as [|u uids]; [apply at_ret|].
  apply at_bind; [apply at_map_err, at_pres, moves_client, pres_metadata|]. intros fetched w2 Hf _ Hc2.
  assert (Hin : Forall (fun msg => im_uid msg ∈ B) fetched).
  { unfold map_err in Hf. destruct (on_client _ w1) as [[l|e] w3] eqn:Hr; [|done]. injection Hf as <- <-.
    apply on_client_run in Hr as [Hr _]. apply (metadata_in_B (u :: uids) (snd w1) l (snd w3) Hc1 Hu Hr). }
  destruct fetched as [|m l]; [apply at_ret|]. by apply at_pres, moves_db, moves_repair.
Qed.

(** *** The cursor table *)

Lemma cursors_all msgs : forall n u, preserves same_cursors (upsert_all a f msgs n u).
Proof.
  induction msgs as [|msg msgs IH]; intros n u; cbn [upsert_all]; [apply pres_ret, _|].
  apply pres_bind; [apply _| |intros []; apply IH]. unfold upsert_message_in_tx, find_message_id_in_tx.
  apply pres_bind; [apply _|by apply cursors_stmt|intros o].
  apply pres_bind; [apply _|by intros db r db' [= _ <-]|intros id].
  apply pres_bind; [apply _|by apply cursors_stmt|intros ?]. apply pres_ret, _.
Qed.
Lemma cursors_reconcile uids : preserves same_cursors (reconcile_folder_deletions a f uids).
Proof.
  unfold reconcile_folder_deletions. apply pres_bind; [apply _|by apply cursors_stmt|intros rows]. cbv zeta.
  destruct (stale_imap_row_ids rows uids); [apply pres_ret, _|]. apply cursors_transaction.
  apply pres_bind; [apply _|by apply cursors_stmt|intros ?]. apply pres_bind; [apply _|apply cursors_counts|intros ?].
  apply pres_ret, _.
Qed.
Definition world_cursors (w w' : world) : Prop := same_cursors (fst w) (fst w').
#[local] Instance world_cursors_preorder : PreOrder world_cursors.
Proof. split; [done|]. intros x y z. unfold world_cursors. by etrans. Qed.
Lemma wc_db {A E} (m : io mail E A) : preserves same_cursors m -> preserves world_cursors (on_db (T := T) m).
Proof. intros Hm w r w' [Hr _]%on_db_run. by apply Hm in Hr. Qed.
Lemma wc_client {A E} (m : io (ImapClient T) E A) : preserves world_cursors (on_client m).
Proof. intros w r w' [_ Hr]%on_client_run. unfold world_cursors, same_cursors. by rewrite Hr. Qed.
Lemma cursors_heal : preserves world_cursors (repair_folder_mojibake (T := T) a f).
Proof.
  apply pres_bind; [apply _|by apply wc_db, cursors_stmt|intros uids]. destruct uids as [|u uids]; [apply pres_ret, _|].
  apply pres_bind; [apply _|apply pres_map_err, wc_client|intros l]. destruct l as [|m l]; [apply pres_ret, _|].
  apply wc_db, cursors_transaction. apply pres_bind; [apply _|apply cursors_all|intros ?].
  apply pres_bind; [apply _|by apply cursors_stmt|intros ?]. apply pres_bind; [apply _|apply cursors_counts|intros ?].
  apply pres_ret, _.
Qed.
Lemma cursors_step t : preserves world_cursors (reconcile_step (T := T) a f t).
Proof.
  apply pres_bind; [apply _|apply pres_attempt, wc_client|intros [l|e]]; [|apply pres_ret, _].
  apply pres_bind; [apply _|apply pres_attempt, wc_db, cursors_reconcile|intros [n|e]]; apply pres_ret, _.
Qed.

Definition cursor_of (db : mail) : option SyncCursorInfo :=
  option_map parse_cursor_value (cursor_at db a f "uidvalidity_uid").
Lemma cursor_same (db db' : mail) : same_cursors db db' -> cursor_of db' = cursor_of db.
Proof. unfold same_cursors, cursor_of, cursor_at. by intros ->. Qed.
Lemma load_cursor_run (w w1 : world) cursor : on_db (load_cursor a f) w = (Ok cursor, w1) ->
  cursor = cursor_of (fst w) /\ same_tables (fst w) (fst w1) /\ snd w1 = snd w.
Proof.
  intros [Hr ->]%on_db_run. unfold load_cursor, load_cursor_value in Hr.
  apply bind_Ok in Hr as (v & db1 & (w1' & n & [= <- <-] & ->)%mstmt_Ok & Hx). injection Hx as <- <-. done.
Qed.
Lemma moves_load : preserves moves (on_db (T := T) (load_cursor a f)).
Proof. apply moves_db. apply pres_bind; [apply _|apply moves_read|intros ?]. apply pres_ret, _. Qed.
Lemma cursor_u32 db info : cursor_of db = Some info -> u32 (ci_uid_validity info) /\ u32 (ci_last_uid info) /\ u64 (ci_last_modseq info).
Proof.
  unfold cursor_of. destruct (cursor_at db a f _) as [v|]; [|done]. intros [= <-].
  assert (Hz : forall max s, 0 <= max -> 0 <= or_zero (parse_unsigned max s) <= max).
  { intros max s Hm. destruct (parse_unsigned max s) eqn:Hp; cbn; [by apply parse_unsigned_bounds in Hp|lia]. }
  unfold parse_cursor_value, u32, u64, parse_u32, parse_u64.
  assert (0 <= u32_max /\ 0 <= u64_max) as [? ?] by done.
  destruct (split_char ":" v) as [|x [|y [|z [|]]]]; cbn; split_and!; try lia; by apply Hz.
Qed.

(** *** One folder, whatever fails *)

Lemma listing_set l : NoDup l -> (forall u, u ∈ l -> u ∈ B) -> (forall u, u ∈ B -> u ∈ l) -> list_to_set l = B.
Proof. intros _ Hs Hc. apply set_eq. intros u. rewrite elem_of_list_to_set. split; auto. Qed.
Lemma moves_step t w : client_ok (snd w) -> moves_at (reconcile_step a f t) w.
Proof.
  intros Hc. apply at_bind; [apply at_attempt, at_pres, moves_client, pres_search|].
  intros listing w1 Hl%attempt_run _ Hc1. destruct listing as [l|e]; [|apply at_ret].
  apply on_client_run in Hl as [Hl _]. apply search_listing in Hl as (Hnd & Hs & Hall); [|done..].
  rewrite (listing_set l); [|done..|by intros u Hu; apply Hall].
  apply at_bind; [apply at_attempt, at_pres, moves_db, moves_reconcile|]. intros [n|e] w2 _ _ _; apply at_ret.
Qed.
Lemma moves_chunks uv ms pieces : Forall (Forall u32) pieces -> forall st w, client_ok (snd w) ->
  moves_at (store_chunks a f uv ms false pieces st) w.
Proof.
  induction pieces as [|chunk pieces IH]; intros Hp st w Hc; cbn [store_chunks]; [apply at_ret|].
  apply Forall_cons in Hp as [Hch Hp].
  apply at_bind; [apply at_attempt, at_pres, moves_client, pres_metadata|]. intros r w1 Hr%attempt_run _ Hc1.
  destruct r as [msgs|e]; [|apply at_ret].
  apply on_client_run in Hr as [Hr _]. apply metadata_in_B in Hr; [|done..].
  destruct msgs as [|m msgs]; [by apply IH|].
  apply at_bind; [by apply at_pres, moves_db, moves_persist|]. intros k w2 _ _ Hc2. by apply IH.
Qed.
Lemma moves_finish uv sm nm msgs st w : client_ok (snd w) -> Forall (fun msg => im_uid msg ∈ B) msgs ->
  moves_at (finish_folder a f uv sm nm false msgs st) w.
Proof.
  intros Hc Hm. unfold finish_folder. destruct msgs as [|m msgs]; cbn [andb].
  - apply at_bind; [|intros; apply at_ret]. destruct (_ <? _); [|apply at_ret].
    apply at_pres, moves_db, moves_persist. by apply Forall_nil.
  - apply at_bind; [by apply at_pres, moves_db, moves_persist|intros; apply at_ret].
Qed.

(** A cursor to go on from. *)
Definition resumes (uv : Z) (cursor : option SyncCursorInfo) : Prop :=
  forall c, cursor = Some c -> ci_uid_validity c = uv /\ 0 <= ci_last_uid c < u32_max.
Lemma resumes_unchanged uv cursor : resumes uv cursor ->
  match cursor with Some c => negb (ci_uid_validity c =? uv) | None => false end = false.
Proof. intros Hc. destruct cursor as [c|]; [|done]. destruct (Hc c eq_refl) as [<- _]. by rewrite Z.eqb_refl. Qed.
Lemma resumes_after uv cursor u : resumes uv cursor -> option_map ci_last_uid cursor = Some u -> 0 <= u < u32_max.
Proof. intros Hc. destruct cursor as [c|]; [|done]. intros [= <-]. by apply (Hc c). Qed.

Lemma moves_since uv hm cursor t w : client_ok (snd w) -> resumes uv cursor ->
  moves_at (sync_since a f uv hm cursor t) w.
Proof.
  intros Hc Hcur. unfold sync_since. rewrite (resumes_unchanged uv cursor Hcur). cbv zeta.
  apply at_bind; [apply at_attempt, at_pres, moves_client, pres_search|]. intros found w4 Hf%attempt_run _ Hc4.
  destruct found as [new_uids|e]; [|apply at_ret]. apply on_client_run in Hf as [Hf _].
  apply search_listing in Hf as (_ & Hnew & _); [|done|intros u; by apply (resumes_after uv)].
  apply at_bind; [apply at_pres, moves_client, pres_gets, _|]. intros cs w5 _ _ Hc5.
  apply at_bind; [apply at_attempt, at_pres; destruct (_ && _); [apply moves_client, pres_changed|apply pres_ret, _]|].
  intros changed w6 Hch%attempt_run _ Hc6. destruct changed as [msgs|e]; [|apply at_ret].
  assert (Hms : Forall (fun msg => im_uid msg ∈ B) msgs).
  { destruct (_ && _) in Hch; [|injection Hch as <- _; by apply Forall_nil]. apply on_client_run in Hch as [Hch _].
    apply uids_in_B. by apply changed_answers in Hch as [_ ?]. }
  apply at_bind.
  - apply moves_chunks; [|done]. apply chunks_forall; [unfold METADATA_CHUNK; lia|]. apply Forall_forall.
    intros u [Hu%list_elem_of_In _]%list_elem_of_In%List.filter_In. by apply B_is_u32, Hnew.
  - intros [st [err|]] w7 _ _ Hc7; [apply at_ret|by apply moves_finish].
Qed.
Lemma moves_selected uv hm t w : client_ok (snd w) -> resumes uv (cursor_of (fst w)) ->
  moves_at (sync_selected a f uv hm t) w.
Proof.
  intros Hc Hcur. unfold sync_selected.
  apply at_bind; [by apply at_attempt, moves_heal|]. intros rh w1 Hh%attempt_run _ Hc1. apply cursors_heal in Hh.
  apply at_bind; [by apply moves_step|]. intros t2 w2 Hs _ Hc2. apply cursors_step in Hs.
  apply at_bind; [apply at_pres, moves_load|]. intros cursor w3 Hl _ Hc3.
  apply load_cursor_run in Hl as (-> & _ & Hw3). apply moves_since; [done|].
  by rewrite (cursor_same (fst w1)), (cursor_same (fst w)).
Qed.
End Pass.

(** ** A pass that nothing disturbs *)

(** Statements of a database that is up succeed and leave it up. *)
Definition db_up (db : mail) : Prop := ml_fuse db = None.
Definition succeeds {A} (m : io mail SyncError A) : Prop :=
  forall db, db_up db -> exists x db', m db = (Ok x, db') /\ db_up db'.
Lemma succ_ret {A} (x : A) : succeeds (ret x).
Proof. intros db Hu. by exists x, db. Qed.
Lemma succ_bind {A C} (m : io mail SyncError A) (k : A -> io mail SyncError C) :
  succeeds m -> (forall x, succeeds (k x)) -> succeeds (bind m k).
Proof.
  intros Hm Hk db Hu. destruct (Hm db Hu) as (x & db1 & Hr & Hu1). destruct (Hk x db1 Hu1) as (y & db2 & Hr2 & Hu2).
  exists y, db2. split; [|done]. by rewrite (bind_step _ _ _ _ _ Hr).
Qed.
Lemma succ_stmt {A} (g : mail -> A * mail) : (forall db, ml_fuse (snd (g db)) = ml_fuse db) -> succeeds (mstmt g).
Proof.
  intros Hg db Hu. specialize (Hg db). unfold db_up in *. unfold mstmt. rewrite Hu. destruct (g db) as [x db1].
  by exists x, (set_fuse None db1).
Qed.
Lemma succ_transaction {A} (body : io mail SyncError A) : succeeds body -> succeeds (transaction body).
Proof.
  intros Hb db Hu. destruct (succ_bind (mstmt (fun w => (tt, w)))
    (fun _ => let! a := body in let! _ := mstmt (fun w => (tt, w)) in ret a)) with (db := db) as (x & db1 & Hr & Hu1).
  - by apply succ_stmt.
  - intros _. apply succ_bind; [done|intros a]. apply succ_bind; [by apply succ_stmt|intros _; apply succ_ret].
  - done.
  - exists x, db1. unfold transaction. by rewrite Hr.
Qed.
Create HintDb succeed.
Ltac succeed :=
  cbv beta zeta;
  match goal with
  | |- succeeds (ret _) => apply succ_ret
  | |- succeeds (bind _ _) => apply succ_bind; [succeed|intros ?; succeed]
  | |- succeeds (mstmt _) => apply succ_stmt; intros ?; reflexivity
  | |- succeeds (transaction _) => apply succ_transaction; succeed
  | |- succeeds (if ?b then _ else _) => destruct b; succeed
  | |- succeeds (match ?o with _ => _ end) => destruct o; succeed
  | |- _ => solve [eauto with succeed]
  | |- _ => idtac
  end.

Section Succeed.
Context `{StoreLib} `{JsonLib}.
Lemma succ_uuid : succeeds new_uuid_text.
Proof. intros db Hu. by eexists _, _. Qed.
Hint Resolve succ_uuid : succeed.
Lemma succ_message a f msg : succeeds (upsert_message_in_tx a f msg).
Proof. unfold upsert_message_in_tx, find_message_id_in_tx. succeed. Qed.
Hint Resolve succ_message : succeed.
Lemma succ_all a f msgs : forall n u, succeeds (upsert_all a f msgs n u).
Proof. induction msgs as [|m msgs IH]; intros n u; cbn [upsert_all]; succeed. Qed.
Lemma succ_counts f : succeeds (update_folder_counts_in_tx f).
Proof. unfold update_folder_counts_in_tx, update_folder. succeed. Qed.
Hint Resolve succ_all succ_counts : succeed.
Lemma succ_clear f : succeeds (clear_folder_messages_in_tx f).
Proof. unfold clear_folder_messages_in_tx. succeed. Qed.
Hint Resolve succ_clear : succeed.
Lemma succ_persist a f msgs uv last ms c : succeeds (persist_imap_folder_batch a f msgs uv last ms c).
Proof. unfold persist_imap_folder_batch, save_cursor_in_tx, write_cursor, when. succeed. Qed.
Lemma succ_repair a f msgs : succeeds (repair_imap_messages a f msgs).
Proof. unfold repair_imap_messages. succeed. Qed.
Lemma succ_reconcile a f uids : succeeds (reconcile_folder_deletions a f uids).
Proof. unfold reconcile_folder_deletions. succeed. Qed.
Lemma succ_cursor a f : succeeds (load_cursor a f).
Proof. unfold load_cursor, load_cursor_value. succeed. Qed.
Lemma succ_mojibake f n : succeeds (mojibake_message_uids f n).
Proof. unfold mojibake_message_uids. succeed. Qed.
End Succeed.

Section Mirror.
Context {T : Type} `{UpLaws T} `{MimeLib} `{StoreLaws} `{JsonLib}.
Context (a f name : string) (B : gset Z) (HB : forall u, u ∈ B -> 1 <= u <= u32_max).
Local Abbreviation world := (mail * ImapClient T)%type.
Local Abbreviation ext := (imap_message_external_id f).

Definition client_up (c : ImapClient T) : Prop :=
  client_ok name B c /\ open_box (cl_session c) = Some name /\ up (cl_session c).
Definition ready (w : world) : Prop := mail_ok (fst w) /\ db_up (fst w) /\ client_up (snd w).

Lemma up_session {A} (m : io T ImapError A) (c : ImapClient T) : client_up c ->
  (forall s r s', up s -> m s = (r, s') -> up s' /\ remote s' = remote s /\ open_box s' = open_box s /\
     (open_box s <> None -> is_ok r = true)) ->
  exists x c', on_session m c = (Ok x, c') /\ client_up c'.
Proof.
  intros ((Hb & _ & Hs) & Ho & Hu) Hm. destruct (on_session m c) as [r c'] eqn:Hr.
  apply on_session_run in Hr as [Hr Hc]. destruct (Hm _ _ _ Hu Hr) as (Hu' & Hrem & Hop & Hok).
  assert (Hc' : client_up c').
  { rewrite Hc. split; [|cbn; by rewrite Hop]. split; [by rewrite <- Hb, <- Hrem|]. split; [|done]. cbn. right. congruence. }
  destruct r as [x|e]; [by exists x, c'|]. exfalso. rewrite Ho in Hok. by discriminate (Hok ltac:(done)).
Qed.
Lemma up_searches q (c : ImapClient T) : client_up c ->
  exists l c', on_session (sess_uid_search q) c = (Ok l, c') /\ client_up c'.
Proof.
  intros Hc. apply up_session; [done|]. intros s r s' Hu Hr. destruct (up_search _ _ _ _ Hu Hr) as [? ?].
  by apply search_keeps in Hr as (? & ? & _).
Qed.
Lemma up_fetches set atts (c : ImapClient T) : client_up c ->
  exists l c', on_session (sess_uid_fetch set atts) c = (Ok l, c') /\ client_up c'.
Proof.
  intros Hc. apply up_session; [done|]. intros s r s' Hu Hr. destruct (up_fetch _ _ _ _ _ Hu Hr) as [? ?].
  by apply fetch_keeps in Hr as (? & ? & _).
Qed.
Lemma up_once uids (c : ImapClient T) : client_up c ->
  exists msgs c', fetch_metadata_once uids c = (Ok msgs, c') /\ client_up c'.
Proof.
  intros Hc. unfold fetch_metadata_once. destruct (format_uid_set uids) as [set|]; [|by exists [], c].
  destruct (up_fetches set (parenthesize_fetch_atts metadata_atts) c Hc) as (l & c' & Hr & Hc').
  eexists _, c'. split; [|done]. by rewrite (bind_step _ _ _ _ _ Hr).
Qed.
Lemma up_pieces pieces : forall c : ImapClient T, client_up c ->
  exists msgs c', try_chunks pieces c = (Ok msgs, c') /\ client_up c'.
Proof.
  induction pieces as [|chunk pieces IH]; intros c Hc; [by exists [], c|].
  destruct (up_once chunk c Hc) as (msgs & c1 & Hr & Hc1). destruct (IH c1 Hc1) as (more & c2 & Hr2 & Hc2).
  exists (msgs ++ more)%list, c2. split; [|done].
  assert (Hr1 : try_chunk 3 chunk c = (Ok msgs, c1)) by (cbn [try_chunk]; unfold bind, attempt; by rewrite Hr).
  cbn [try_chunks]. by rewrite (bind_step _ _ _ _ _ Hr1), (bind_step _ _ _ _ _ Hr2).
Qed.
Lemma up_metadata uids (c : ImapClient T) : client_up c ->
  exists msgs c', fetch_metadata uids c = (Ok msgs, c') /\ client_up c'.
Proof.
  intros Hc. unfold fetch_metadata. destruct (_ <=? _)%nat; [by apply up_once|]. cbv zeta. unfold bind at 1.
  rewrite loop_reference by done.
  destruct (up_pieces (chunks METADATA_CHUNK uids) c Hc) as (msgs & c' & Hr & Hc').
  exists msgs, c'. split; [|done]. unfold bind, ret. by rewrite Hr.
Qed.
Lemma up_changed ms (c : ImapClient T) : client_up c ->
  exists msgs c', fetch_changed_since ms c = (Ok msgs, c') /\ client_up c'.
Proof.
  intros Hc. unfold fetch_changed_since, bind at 1, gets. destruct (_ || _); [by exists [], c|].
  match goal with |- context [sess_uid_fetch ?s ?q] => destruct (up_fetches s q c Hc) as (l & c' & Hr & Hc') end.
  eexists _, c'. split; [|done]. by rewrite (bind_step _ _ _ _ _ Hr).
Qed.

(** Steps of the pass on a ready world: an answer, and a ready world. *)
Lemma client_step {A E} (m : io (ImapClient T) E A) (w : world) : ready w ->
  (exists x c', m (snd w) = (Ok x, c') /\ client_up c') ->
  exists x w', on_client m w = (Ok x, w') /\ ready w' /\ fst w' = fst w /\ m (snd w) = (Ok x, snd w').
Proof.
  intros (Hm & Hd & _) (x & c' & Hr & Hc). exists x, (fst w, c'). unfold on_client. rewrite Hr. by split_and!.
Qed.
Lemma db_step {A} (m : io mail SyncError A) (w : world) : ready w -> succeeds m -> preserves keeps_ok m ->
  exists x w', on_db m w = (Ok x, w') /\ ready w' /\ snd w' = snd w /\ m (fst w) = (Ok x, fst w').
Proof.
  intros (Hm & Hd & Hc) Hs Hk. destruct (Hs (fst w) Hd) as (x & db' & Hr & Hd'). exists x, (db', snd w).
  unfold on_db. rewrite Hr. split; [done|]. split; [split; [by apply (Hk _ _ _ Hr)|by split]|]. by split.
Qed.

Definition has_row (db : mail) (u : Z) : Prop := is_Some (row_at db a (ext u)).
Definition live_ok (db : mail) : Prop := forall u, live_uid a f db u -> u ∈ B.
Lemma moves_has_row (w w' : world) u : moves a f name B w w' -> ready w -> u ∈ B -> has_row (fst w) u -> has_row (fst w') u.
Proof.
  intros Hmv (Hm & _ & Hc & _) Hu [m Hrow]. destruct (Hmv Hc) as [_ Hd]. destruct (Hd Hm) as (_ & Hr & _).
  destruct (Hr u m Hu Hrow) as (m' & Hm' & _). by exists m'.
Qed.
Lemma moves_live (w w' : world) : moves a f name B w w' -> ready w -> live_ok (fst w) -> live_ok (fst w').
Proof.
  intros Hmv (Hm & _ & Hc & _) Hl u Hu. destruct (Hmv Hc) as [_ Hd]. destruct (Hd Hm) as (_ & _ & Hlf).
  destruct (Hlf u Hu); auto.
Qed.

Lemma heal_ready (w : world) : ready w ->
  exists x w', attempt (F := SyncError) (repair_folder_mojibake a f) w = (Ok x, w') /\ ready w' /\
    moves a f name B w w' /\ world_cursors w w'.
Proof.
  intros Hw. assert (Hrun : exists x w', repair_folder_mojibake a f w = (Ok x, w') /\ ready w').
  { unfold repair_folder_mojibake.
    destruct (db_step _ w Hw (succ_mojibake f 200) (pres_read _)) as (uids & w1 & Hr & Hw1 & _).
    rewrite (bind_step _ _ _ _ _ Hr). destruct uids as [|u uids]; [by eexists _, _|].
    destruct (client_step (fetch_metadata (u :: uids)) w1 Hw1) as (msgs & w2 & Hr2 & Hw2 & _); [apply up_metadata, Hw1|].
    assert (Hr2' : map_err Imap (on_client (fetch_metadata (u :: uids))) w1 = (Ok msgs, w2)) by (unfold map_err; by rewrite Hr2).
    rewrite (bind_step _ _ _ _ _ Hr2'). destruct msgs as [|m msgs]; [by eexists _, _|].
    destruct (db_step _ w2 Hw2 (succ_repair a f (m :: msgs)) (pres_repair a f _)) as (n & w3 & Hr3 & Hw3 & _). eauto. }
  destruct Hrun as (x & w' & Hr & Hw'). exists (Ok x), w'. unfold attempt. rewrite Hr. split_and!; try done.
  - eapply (moves_heal a f name B HB); [apply Hw|exact Hr].
  - by eapply cursors_heal.
Qed.
Lemma step_ready t (w : world) : ready w ->
  exists t' w', reconcile_step a f t w = (Ok t', w') /\ ready w' /\ moves a f name B w w' /\ world_cursors w w' /\
    live_ok (fst w').
Proof.
  intros Hw. assert (Hrun : exists t' w', reconcile_step a f t w = (Ok t', w') /\ ready w' /\ live_ok (fst w')).
  { unfold reconcile_step.
    destruct (client_step (search_uids None) w Hw) as (l & w1 & Hr & Hw1 & Hdb & Hs); [apply up_searches, Hw|].
    apply (search_listing name B) in Hs as (Hnd & Hs & Hall); [|apply Hw|done].
    assert (Hr' : attempt (F := SyncError) (on_client (search_uids None)) w = (Ok (Ok l), w1)) by (unfold attempt; by rewrite Hr).
    rewrite (bind_step _ _ _ _ _ Hr'). rewrite (listing_set B l); [|done..|by intros u Hu; apply Hall].
    destruct (db_step _ w1 Hw1 (succ_reconcile a f B) (pres_reconcile a f B)) as (n & w2 & Hr2 & Hw2 & _ & Hrec).
    assert (Hr2' : attempt (F := SyncError) (on_db (T := T) (reconcile_folder_deletions a f B)) w1 = (Ok (Ok n), w2))
      by (unfold attempt; by rewrite Hr2).
    rewrite (bind_step _ _ _ _ _ Hr2'). eexists _, w2. split; [done|]. split; [done|].
    intros u Hu. eapply (reconciled_live a f B); [apply Hw1|exact Hrec|done]. }
  destruct Hrun as (t' & w' & Hr & Hw' & Hl). exists t', w'. split_and!; try done.
  - eapply (moves_step a f name B HB); [apply Hw|exact Hr].
  - by eapply cursors_step.
Qed.

Lemma persist_ready msgs uv last ms clear (w : world) : ready w -> NoDup (im_uid <$> msgs) ->
  (forall u, u ∈ im_uid <$> msgs -> u ∈ B) -> u32 uv -> u32 last -> u64 ms -> live_ok (fst w) ->
  exists counts w', on_db (persist_imap_folder_batch a f msgs uv last ms clear) w = (Ok counts, w') /\ ready w' /\
    live_ok (fst w') /\ cursor_of a f (fst w') = Some (mkCursorInfo uv last ms) /\
    (forall u, u ∈ im_uid <$> msgs -> has_row (fst w') u) /\
    (clear = false -> forall u, u ∈ B -> has_row (fst w) u -> has_row (fst w') u).
Proof.
  intros Hw Hnd Hsub Huv Hlast Hms Hlive.
  assert (Hu : Forall (fun msg => u32 (im_uid msg)) msgs).
  { apply Forall_forall. intros m Hm. apply (B_is_u32 B HB), Hsub. by apply list_elem_of_fmap_2. }
  destruct (db_step _ w Hw (succ_persist a f msgs uv last ms clear) (pres_persist a f msgs uv last ms clear))
    as (k & w' & Hr & Hw' & _ & Hp).
  exists k, w'. split; [done|]. split; [done|].
  apply persist_run in Hp as [[_ _ Hrows Hothers Hcur _ _ _] _]; [|by try apply Hw..].
  assert (Hmsg : forall u, u ∈ im_uid <$> msgs -> exists msg, msg ∈ msgs /\ u = im_uid msg).
  { intros u (m & -> & Hm)%list_elem_of_fmap. by exists m. }
  split; [|split; [done|split]].
  - intros u (m & Hin & Hl & Hpar). destruct (m_external m) as [e|] eqn:He; [|done].
    assert (Hacc : m_account m = a /\ m_folder m = f).
    { unfold live_in in Hl. by apply andb_true_iff in Hl as [[?%String.eqb_eq ?%String.eqb_eq]%andb_true_iff _]. }
    destruct Hacc as [Hacc Hfol].
    assert (Hrow : row_at (fst w') a e = Some m).
    { apply row_at_elem; [apply Hw'|]. split; [done|]. unfold message_key. by rewrite He, Hacc. }
    destruct (decide (e ∈ (fun msg => ext (im_uid msg)) <$> msgs)) as [(msg & -> & Hm)%list_elem_of_fmap|Hni].
    + rewrite parse_external in Hpar by (by apply (proj1 (Forall_forall _ _) Hu)). injection Hpar as <-.
      by apply Hsub, list_elem_of_fmap_2.
    + rewrite Hothers in Hrow.
      * apply Hlive. unfold kept in Hrow. destruct (row_at (fst w) a e) as [m0|] eqn:Hold; [|done].
        destruct (clear && (m_folder m0 =? f)%string); [done|]. injection Hrow as ->.
        apply row_at_elem in Hold as [Hin0 _]; [|apply Hw]. exists m. by rewrite He.
      * intros msg Hm [= Heq]. apply Hni. rewrite Heq. by apply (list_elem_of_fmap_2 (fun msg => ext (im_uid msg))).
  - intros u (msg & Hm & ->)%Hmsg. destruct (Hrows msg Hm) as [id Hat]. unfold has_row. by rewrite Hat.
  - intros -> u HuB [m Hm]. destruct (decide (u ∈ im_uid <$> msgs)) as [(msg & Hin & ->)%Hmsg|Hni].
    + destruct (Hrows msg Hin) as [id Hat]. unfold has_row. by rewrite Hat.
    + unfold has_row. rewrite Hothers, Hm; [by exists m|]. intros msg Hin [= Heq%external_inj].
      * destruct Heq as [_ ->]. by apply Hni, list_elem_of_fmap_2.
      * by apply (B_is_u32 B HB).
      * by apply (proj1 (Forall_forall _ _) Hu).
Qed.

Lemma uid_max_bound msgs u : u ∈ im_uid <$> msgs -> u <= uid_max msgs.
Proof.
  unfold uid_max. change (map im_uid msgs) with (im_uid <$> msgs). induction (im_uid <$> msgs) as [|x l IH]; [by intros ?%not_elem_of_nil|].
  intros [->|Hu]%elem_of_cons; cbn; [lia|]. specialize (IH Hu). lia.
Qed.
Lemma uid_max_u32 msgs : (forall u, u ∈ im_uid <$> msgs -> u ∈ B) -> u32 (uid_max msgs).
Proof.
  unfold uid_max, u32. change (map im_uid msgs) with (im_uid <$> msgs). induction (im_uid <$> msgs) as [|x l IH]; intros Hs.
  - cbn. split; [lia|done].
  - assert (Hx : x ∈ B) by (apply Hs; by left). apply HB in Hx.
    assert (Hl : 0 <= foldr Z.max 0 l <= u32_max) by (apply IH; intros u Hu; apply Hs; by right). cbn. lia.
Qed.
Lemma max_u32 x y : u32 x -> u32 y -> u32 (Z.max x y).
Proof. unfold u32. lia. Qed.

(** The chunk loop stores every chunk. *)
Lemma chunks_ready uv ms changed pieces : u32 uv -> u64 ms ->
  Forall (fun p => p <> [] /\ (length p <= METADATA_CHUNK)%nat /\ forall u, u ∈ p -> u ∈ B) pieces ->
  forall st (w : world), ready w -> live_ok (fst w) -> u32 (ck_cursor st) ->
  exists st' w', store_chunks a f uv ms changed pieces st w = (Ok (st', None), w') /\ ready w' /\ live_ok (fst w') /\
    u32 (ck_cursor st') /\ ck_cursor st <= ck_cursor st' /\
    (forall u, u ∈ concat pieces -> u <= ck_cursor st' /\ has_row (fst w') u) /\
    (changed && negb (ck_cleared st) = false -> forall u, u ∈ B -> has_row (fst w) u -> has_row (fst w') u) /\
    (pieces = [] -> st' = st /\ w' = w) /\
    (pieces <> [] -> ck_cleared st' = true /\ cursor_of a f (fst w') = Some (mkCursorInfo uv (ck_cursor st') ms)).
Proof.
  intros Huv Hms. induction pieces as [|chunk pieces IH]; intros Hp st w Hw Hlive Hck.
  { exists st, w. split_and!; try done. by intros u ?%not_elem_of_nil. }
  apply Forall_cons in Hp as [(Hne & Hlen & Hsub) Hp]. cbn [store_chunks].
  assert (Hmeta : forall c, fetch_metadata (T := T) chunk c = fetch_metadata_once chunk c).
  { intros c. unfold fetch_metadata. by rewrite (proj2 (Nat.leb_le _ _) Hlen). }
  destruct (client_step (fetch_metadata chunk) w Hw) as (msgs & w1 & Hr & Hw1 & Hdb & Hf); [apply up_metadata, Hw|].
  assert (Hr' : attempt (F := SyncError) (on_client (fetch_metadata chunk)) w = (Ok (Ok msgs), w1)) by (unfold attempt; by rewrite Hr).
  rewrite (bind_step _ _ _ _ _ Hr'). rewrite Hmeta in Hf. apply (once_answers name B) in Hf as (Hnd & Hin & Hall); [|apply Hw|].
  2: { apply Forall_forall. intros u Hu. by apply (B_is_u32 B HB), Hsub. }
  assert (Hmsgs : msgs <> []).
  { destruct chunk as [|u chunk]; [done|]. assert (Hu : u ∈ im_uid <$> msgs) by (apply Hall; [|apply Hsub]; by left).
    intros ->. by apply not_elem_of_nil in Hu. }
  destruct msgs as [|m0 msgs0]; [done|]. set (msgs := m0 :: msgs0) in *. cbv zeta.
  set (cur := Z.max (ck_cursor st) (uid_max msgs)).
  assert (Hcur : u32 cur) by (apply max_u32; [done|by apply uid_max_u32]). rewrite <- Hdb in Hlive.
  destruct (persist_ready msgs uv cur ms (changed && negb (ck_cleared st)) w1) as (k & w2 & Hr2 & Hw2 & Hl2 & Hc2 & Hrow2 & Hkeep2);
    try done.
  rewrite (bind_step _ _ _ _ _ Hr2).
  destruct (IH Hp (mkChunk cur true (add_batch k (ck_totals st))) w2) as (st' & w' & Hr3 & Hw' & Hl' & Hc' & Hle & Hrows & Hkeep & Hnil & Hcons);
    try done.
  exists st', w'. cbn in Hle, Hkeep. split; [exact Hr3|]. do 3 (split; [done|]). split; [lia|]. split; [|split; [|split; [done|]]].
  - intros u [Hu|Hu]%elem_of_app; [|by apply Hrows]. assert (Hm : u ∈ im_uid <$> msgs) by (apply Hall; auto).
    split; [apply uid_max_bound in Hm; lia|]. apply Hkeep; [by rewrite andb_false_r|by apply Hin|by apply Hrow2].
  - intros Hno u Hu Hold. apply Hkeep; [by rewrite andb_false_r|done|]. apply Hkeep2; [done|done|]. by rewrite Hdb.
  - intros _. destruct pieces as [|p ps]; [|by apply Hcons]. destruct (Hnil eq_refl) as [-> ->]. done.
Qed.

Lemma persist_cursor uv last ms clear (w : world) : ready w -> u32 uv -> u32 last -> u64 ms -> live_ok (fst w) ->
  exists counts w', on_db (persist_imap_folder_batch a f [] uv last ms clear) w = (Ok counts, w') /\ ready w' /\
    live_ok (fst w') /\ cursor_of a f (fst w') = Some (mkCursorInfo uv last ms) /\
    (clear = false -> forall u, u ∈ B -> has_row (fst w) u -> has_row (fst w') u).
Proof.
  intros Hw Huv Hlast Hms Hl.
  destruct (persist_ready [] uv last ms clear w) as (k & w' & Hr & Hw' & Hl' & Hc' & _ & Hk); try done.
  - constructor.
  - intros u Hu. by apply not_elem_of_nil in Hu.
  - by exists k, w'.
Qed.

(** What the folder looks like when it mirrors the mailbox. *)
Record mirrors (uv : Z) (db : mail) : Prop := {
  mi_rows : forall u, u ∈ B -> has_row db u;
  mi_live : live_ok db;
  mi_cursor : forall u, u ∈ B -> exists info, cursor_of a f db = Some info /\ ci_uid_validity info = uv /\ u <= ci_last_uid info }.

Lemma finish_ready uv sm nm changed msgs st (w : world) :
  u32 uv -> u64 nm -> NoDup (im_uid <$> msgs) -> (forall u, u ∈ im_uid <$> msgs -> u ∈ B) -> (changed = true -> msgs = []) ->
  ready w -> live_ok (fst w) -> u32 (ck_cursor st) ->
  (forall u, u ∈ B -> u ∈ im_uid <$> msgs \/ has_row (fst w) u /\ u <= ck_cursor st) ->
  (changed && negb (ck_cleared st) = true -> B = ∅) ->
  (changed = false \/ ck_cleared st = true -> B <> ∅ -> msgs = [] ->
     exists info, cursor_of a f (fst w) = Some info /\ ci_uid_validity info = uv /\ ci_last_uid info = ck_cursor st) ->
  exists t' w', finish_folder a f uv sm nm changed msgs st w = (Ok (Continue t'), w') /\ ready w' /\ mirrors uv (fst w').
Proof.
  intros Huv Hnm Hnd Hsub Hch Hw Hl Hck Hall Hempty Hcur. unfold finish_folder. destruct msgs as [|m msgs].
  - assert (Hrows : forall u, u ∈ B -> has_row (fst w) u /\ u <= ck_cursor st).
    { intros u Hu. destruct (Hall u Hu) as [Hx|?]; [by apply not_elem_of_nil in Hx|done]. }
    destruct (changed && negb (ck_cleared st)) eqn:Hclear.
    + destruct (persist_cursor uv 0 nm true w) as (k & w' & Hr & Hw' & Hl' & Hc' & _); try done.
      rewrite (bind_step _ _ _ _ _ Hr). eexists _, w'. split; [done|]. split; [done|].
      split; [|done|]; rewrite (Hempty eq_refl); set_solver.
    + assert (Hold : changed = false \/ ck_cleared st = true) by (destruct changed, (ck_cleared st); auto).
      destruct (sm <? nm).
      * destruct (persist_cursor uv (ck_cursor st) nm false w) as (k & w' & Hr & Hw' & Hl' & Hc' & Hkeep); try done.
        rewrite (bind_step _ _ _ _ _ Hr). eexists _, w'. split; [done|]. split; [done|]. split; [|done|].
        -- intros u Hu. apply Hkeep; [done|done|by apply Hrows].
        -- intros u Hu. eexists. split; [exact Hc'|]. split; [done|]. by apply Hrows.
      * eexists _, w. split; [done|]. split; [done|]. split; [by intros u Hu; apply Hrows|done|].
        intros u Hu. destruct (Hcur Hold) as (info & Hi & Hv & Hlast); [set_solver|done|].
        exists info. split; [done|]. split; [done|]. rewrite Hlast. by apply Hrows.
  - assert (changed = false) as -> by (destruct changed; [by specialize (Hch eq_refl)|done]). cbv zeta.
    destruct (persist_ready (m :: msgs) uv (Z.max (uid_max (m :: msgs)) (ck_cursor st)) nm false w)
      as (k & w' & Hr & Hw' & Hl' & Hc' & Hnew & Hkeep); try done.
    { apply max_u32; [by apply uid_max_u32|done]. }
    rewrite (bind_step _ _ _ _ _ Hr). eexists _, w'. split; [done|]. split; [done|]. split; [|done|].
    + intros u Hu. destruct (Hall u Hu) as [Hm|[Hrow _]]; [by apply Hnew|by apply Hkeep].
    + intros u Hu. eexists. split; [exact Hc'|]. split; [done|]. cbn [ci_last_uid].
      destruct (Hall u Hu) as [Hm%uid_max_bound|[_ Hle]]; lia.
Qed.

Lemma chunks_shape {A} n (l : list A) : (0 < n)%nat -> Forall (fun p => p <> [] /\ (length p <= n)%nat) (chunks n l).
Proof.
  intros Hn. unfold chunks. generalize (length l). intros k. revert l.
  induction k as [|k IH]; intros l; cbn; [by apply Forall_nil|]. destruct l as [|x l]; [by apply Forall_nil|].
  apply Forall_cons. split; [|apply IH]. split; [destruct n; [lia|done]|]. rewrite length_take. lia.
Qed.
Lemma chunks_nil {A} n (l : list A) : (0 < n)%nat -> chunks n l = [] -> l = [].
Proof. intros Hn Hc. rewrite <- (chunks_concat n l Hn), Hc. done. Qed.

Lemma since_ready uv hm cursor t (w : world) :
  u32 uv -> u64 hm -> ready w -> live_ok (fst w) -> cursor = cursor_of a f (fst w) ->
  (forall info, cursor = Some info -> ci_last_uid info < u32_max) ->
  (forall info u, cursor = Some info -> ci_uid_validity info = uv -> u ∈ B -> u <= ci_last_uid info -> has_row (fst w) u) ->
  exists t' w', sync_since a f uv hm cursor t w = (Ok (Continue t'), w') /\ ready w' /\ mirrors uv (fst w').
Proof.
  intros Huv Hhm Hw Hl Hcur Hmax Hcov. unfold sync_since.
  set (changed := match cursor with Some c => negb (ci_uid_validity c =? uv) | None => false end).
  set (after := if changed then None else option_map ci_last_uid cursor). cbv zeta.
  assert (Hinfo : forall c, cursor = Some c -> u32 (ci_last_uid c)).
  { intros c Hc. symmetry in Hcur. rewrite Hc in Hcur. by apply cursor_u32 in Hcur as (_ & ? & _). }
  assert (Hafter : forall v, after = Some v -> changed = false /\ exists c, cursor = Some c /\ ci_uid_validity c = uv /\ ci_last_uid c = v).
  { intros v Hv. unfold after in Hv. destruct changed eqn:Hch; [done|]. split; [done|]. destruct cursor as [c|]; [|done].
    injection Hv as <-. exists c. split_and!; try done. unfold changed in Hch. apply negb_false_iff in Hch. lia. }
  destruct (client_step (search_uids after) w Hw) as (new & w1 & Hr & Hw1 & Hdb1 & Hs); [apply up_searches, Hw|].
  apply (search_listing name B) in Hs as (Hnd & Hnew & Hall); [|apply Hw|].
  2: { intros u Hu. apply Hafter in Hu as (_ & c & Hc & _ & <-). specialize (Hinfo c Hc). specialize (Hmax c Hc).
       unfold u32 in Hinfo. lia. }
  assert (Hr' : attempt (F := SyncError) (on_client (search_uids after)) w = (Ok (Ok new), w1)) by (unfold attempt; by rewrite Hr).
  rewrite (bind_step _ _ _ _ _ Hr'). clear Hr Hr'.
  destruct (client_step (E := SyncError) (gets supports_condstore) w1 Hw1) as (cs & w2 & Hr & Hw2 & Hdb2 & _); [by eexists _, _; split; [done|apply Hw1]|].
  rewrite (bind_step _ _ _ _ _ Hr). clear Hr. set (sm := if changed then 0 else info ci_last_modseq cursor).
  assert (Hmsgs : exists msgs w3, (if (cs : bool) && (0 <? sm) then on_client (fetch_changed_since sm) else ret []) w2 = (Ok msgs, w3) /\
    ready w3 /\ fst w3 = fst w2 /\ NoDup (im_uid <$> msgs) /\ (forall u, u ∈ im_uid <$> msgs -> u ∈ B) /\ (changed = true -> msgs = [])).
  { destruct (cs && (0 <? sm)) eqn:Hcond.
    - destruct (client_step (fetch_changed_since sm) w2 Hw2) as (msgs & w3 & Hr & Hw3 & Hdb3 & Hf); [apply up_changed, Hw2|].
      apply (changed_answers name B) in Hf as [? ?]; [|apply Hw2]. exists msgs, w3. split_and!; try done.
      intros Hch. unfold sm in Hcond. rewrite Hch, andb_false_r in Hcond. done.
    - exists [], w2. split_and!; try done; [constructor|by intros u ?%not_elem_of_nil]. }
  destruct Hmsgs as (msgs & w3 & Hr & Hw3 & Hdb3 & Hndm & Hsubm & Hchm).
  match type of Hr with ?m w2 = _ =>
    assert (Hr' : attempt (F := SyncError) m w2 = (Ok (Ok msgs), w3)) by (unfold attempt; by rewrite Hr) end.
  rewrite (bind_step _ _ _ _ _ Hr'). clear Hr Hr'.
  set (fetch := List.filter _ new). set (nm := if (cs : bool) && (0 <? hm) then hm else 0).
  assert (Hnm : u64 nm) by (unfold nm; destruct (_ && _); [done|]; unfold u64; split; [lia|done]).
  assert (Hfetch : forall u, u ∈ fetch <-> u ∈ new /\ u ∉ im_uid <$> msgs).
  { intros u. unfold fetch. rewrite list_elem_of_In, List.filter_In, <- list_elem_of_In, bool_decide_eq_true. done. }
  assert (Hk : (0 < METADATA_CHUNK)%nat) by (unfold METADATA_CHUNK; lia).
  assert (Hdb : fst w3 = fst w) by congruence. rewrite <- Hdb in Hl, Hcur, Hcov.
  assert (Hc0 : u32 (info ci_last_uid cursor)).
  { destruct cursor as [c|]; cbn; [by apply Hinfo|]. unfold u32. split; [lia|done]. }
  destruct (chunks_ready uv nm changed (chunks METADATA_CHUNK fetch) Huv Hnm) with (st := mkChunk (info ci_last_uid cursor) false t) (w := w3)
    as (st & w4 & Hr & Hw4 & Hl4 & Hck & Hle & Hrows & Hkeep & Hnil & Hcons); try done.
  { apply Forall_forall. intros p Hp. pose proof (proj1 (Forall_forall _ _) (chunks_shape METADATA_CHUNK fetch Hk) p Hp) as [? ?].
    split_and!; try done. intros u Hu. apply Hnew. apply Hfetch. rewrite <- (chunks_concat METADATA_CHUNK fetch Hk).
    apply list_elem_of_In, in_concat. exists p. by rewrite <- !list_elem_of_In. }
  rewrite (bind_step _ _ _ _ _ Hr). clear Hr. rewrite (chunks_concat METADATA_CHUNK fetch Hk) in Hrows. cbn in Hle, Hkeep.
  assert (Hsplit : forall u, u ∈ B -> u ∈ new \/ changed = false /\ exists c, cursor = Some c /\ ci_uid_validity c = uv /\ u <= ci_last_uid c).
  { intros u Hu. destruct after as [v|] eqn:Hv; [|left; by apply Hall].
    destruct (Z.lt_decidable v u); [left; apply Hall; [done|]; by intros ? [= <-]|right].
    destruct (Hafter v eq_refl) as (? & c & ? & ? & ?). split; [done|]. exists c. split_and!; try done. lia. }
  apply finish_ready; try done.
  - intros u Hu. destruct (Hsplit u Hu) as [Hin|(Hch & c & Hc & Hv & Hlast)].
    + destruct (decide (u ∈ im_uid <$> msgs)); [by left|right]. by apply and_comm, Hrows, Hfetch.
    + right. split; [|rewrite Hc in Hle; cbn in Hle; lia]. apply Hkeep; [by rewrite Hch|done|]. by eapply Hcov.
  - intros [Hch Hcl]%andb_true_iff. apply set_eq. intros u. split; [|by intros ?%elem_of_empty]. intros Hu. exfalso.
    destruct (chunks METADATA_CHUNK fetch) as [|p ps] eqn:Hp; [|destruct (Hcons ltac:(done)) as [Hx _]; by rewrite Hx in Hcl].
    apply (chunks_nil _ _ Hk) in Hp. destruct (Hsplit u Hu) as [Hin|[? _]]; [|congruence].
    apply (not_elem_of_nil u). rewrite <- Hp. apply Hfetch. split; [done|]. rewrite (Hchm Hch). apply not_elem_of_nil.
  - intros Hold HBne Hm0. destruct (chunks METADATA_CHUNK fetch) as [|p ps] eqn:Hp.
    + destruct (Hnil eq_refl) as [-> ->]. cbn. destruct Hold as [Hch|?]; [|done].
      destruct cursor as [c|] eqn:Hc.
      * exists c. split; [done|]. split; [|done]. unfold changed in Hch. apply negb_false_iff in Hch. lia.
      * exfalso. apply HBne, set_eq. intros u. split; [|by intros ?%elem_of_empty]. intros Hu. exfalso.
        apply (chunks_nil _ _ Hk) in Hp. destruct (Hsplit u Hu) as [Hin|(_ & c & ? & _)]; [|done].
        apply (not_elem_of_nil u). rewrite <- Hp. apply Hfetch. split; [done|]. subst msgs. apply not_elem_of_nil.
    + destruct (Hcons ltac:(done)) as [_ Hc4]. eexists. split; [exact Hc4|]. done.
Qed.
End Mirror.

(** ** The theorems *)

Section Theorems.
Context {T : Type} `{UpLaws T} `{MimeLib} `{StoreLaws} `{JsonLib}.

(** C2: a pass over a folder mirrors the mailbox, when the cursor it starts from tells the
    truth: under the mailbox's UIDVALIDITY every UID up to the cursor's that the mailbox
    holds has its row, and the cursor's UID is not the last there is.  Then, on a server
    that answers and a database that is up, the pass over a selectable folder succeeds,
    and afterwards every message of the mailbox has its row, every live row of the folder
    that has a UID is in the mailbox (whatever moved or vanished while the client was
    away), and the cursor covers the mailbox under its UIDVALIDITY - so it tells the truth
    again.  Without a cursor, or under a changed UIDVALIDITY, the folder starts over.
    ([interrupted_pass_skips_mail] and [uidvalidity_cursor_skips_mail] are the runs that
    leave a cursor that does not.) *)
Theorem pass_mirrors_folder (a f : string) (folder : ImapFolder) (t : totals) (db : mail) (c : ImapClient T) :
  let name := if_name folder in
  let uv := validity (cl_session c) name in
  let B := remote (cl_session c) name in
  mail_ok db -> db_up db -> up (cl_session c) ->
  existsb (contains_str "Noselect") (if_attributes folder) = false ->
  option_map f_id (List.find (folder_by_external a name) (ml_folders db)) = Some f ->
  (forall info, cursor_of a f db = Some info -> ci_last_uid info < u32_max) ->
  (forall info u, cursor_of a f db = Some info -> ci_uid_validity info = uv -> u ∈ B -> u <= ci_last_uid info ->
     is_Some (row_at db a (imap_message_external_id f u))) ->
  exists t' db' c', sync_folder a folder t (db, c) = (Ok (Continue t'), (db', c')) /\ mail_ok db' /\
    mirrors a f B uv db'.
Proof.
  intros name uv B Hok Hup Hc Hsel Hfind Hmax Hcov. unfold sync_folder. rewrite Hsel.
  assert (Hget : exists db1, on_db (T := T) (get_folder_id a name) (db, c) = (Ok f, (db1, c)) /\ mail_ok db1 /\ db_up db1 /\
    same_tables db db1).
  { unfold on_db, get_folder_id, find_folder_id_by_external_id, bind, mstmt, lift. cbn. unfold db_up in Hup.
    rewrite Hup. cbn. rewrite Hfind. cbn. eexists. split; [done|]. split; [by apply set_fuse_ok|done]. }
  destruct Hget as (db1 & Hr & Hok1 & Hup1 & Hm1 & Hcu1 & _). rewrite (bind_step _ _ _ _ _ Hr). clear Hr.
  destruct (select name c) as [r c1] eqn:Hs. assert (Hrun : attempt (F := SyncError) (on_client (select name)) (db1, c) = (Ok r, (db1, c1))).
  { unfold attempt, on_client. cbn. by rewrite Hs. }
  rewrite (bind_step _ _ _ _ _ Hrun). clear Hrun. unfold select in Hs.
  destruct (on_session (sess_select name) c) as [r0 c0] eqn:Hos. pose proof Hos as [Hos' Hc0]%on_session_run.
  destruct (up_select _ _ _ _ Hc Hos') as (Hup0 & v & m & -> & Hv & Huv & Hm). rewrite (bind_step _ _ _ _ _ Hos) in Hs.
  injection Hs as <- <-. apply select_opens in Hos' as [Hrem Hopen]. cbn in Hopen.
  cbn [sel_uid_validity sel_highest_modseq or_zero]. rewrite Hv. fold uv in Hv.
  set (c1 := set_selected (Some name) c0).
  assert (HB : forall u, u ∈ B -> 1 <= u <= u32_max).
  { intros u Hu. apply (held_nz (cl_session c0)). by rewrite held_open, Hopen, Hrem. }
  assert (Hw : ready name B (db1, c1)).
  { split; [done|]. split; [done|]. split; [|done]. split; [unfold B, c1; cbn; by rewrite Hrem|]. split; by right. }
  unfold sync_selected. destruct (heal_ready a f name B HB (db1, c1) Hw) as (x & w2 & Hr2 & Hw2 & Hmv2 & Hcs2).
  rewrite (bind_step _ _ _ _ _ Hr2).
  destruct (step_ready a f name B HB t w2 Hw2) as (t' & w3 & Hr3 & Hw3 & Hmv3 & Hcs3 & Hl3).
  rewrite (bind_step _ _ _ _ _ Hr3).
  destruct (db_step name B (load_cursor a f) w3 Hw3 (succ_cursor a f)) as (cursor & w4 & Hr4 & Hw4 & Hcl4 & _).
  { apply pres_bind; [apply _|apply pres_read|intros ?; apply pres_ret, _]. }
  rewrite (bind_step _ _ _ _ _ Hr4). apply load_cursor_run in Hr4 as (Hcur & (Hm4 & Hcu4 & _) & _).
  assert (Hcur0 : cursor = cursor_of a f db).
  { rewrite Hcur, (cursor_same a f (fst w2) (fst w3)), (cursor_same a f db1 (fst w2)), (cursor_same a f db db1) by done. done. }
  assert (Hcur4 : cursor = cursor_of a f (fst w4)) by (by rewrite Hcur, (cursor_same a f (fst w3) (fst w4))).
  assert (Hrows : forall u, u ∈ B -> has_row a f db u -> has_row a f (fst w4) u).
  { intros u Hu [m0 Hm0]. assert (Hx : has_row a f db1 u) by (unfold has_row, row_at; rewrite Hm1; by exists m0).
    apply (moves_has_row a f name B _ w2 u Hmv2 Hw Hu) in Hx.
    apply (moves_has_row a f name B _ w3 u Hmv3 Hw2 Hu) in Hx. destruct Hx as [m3 Hx3]. exists m3.
    unfold row_at in *. by rewrite Hm4. }
  destruct (since_ready a f name B HB uv (or_zero m) cursor t' w4) as (t2 & w5 & Hr5 & Hw5 & Hmir); try done.
  - by rewrite <- Hv.
  - unfold live_ok, live_uid in *. by rewrite Hm4.
  - intros info Hi. apply Hmax. by rewrite <- Hcur0.
  - intros info u Hi Hval Hu Hle. apply Hrows; [done|]. rewrite Hcur0 in Hi. by apply (Hcov info).
  - exists t2, (fst w5), (snd w5). split; [etrans; [exact Hr5|by destruct w5]|]. split; [apply Hw5|done].
Qed.

(** C3: a pass over a folder it can go on with loses no mail.  The folder is selected and
    the stored cursor, if there is one, carries the mailbox's UIDVALIDITY; then, whatever
    fails on the way (any command, any statement, a connection lost and taken up again),
    the tables are well formed after the pass, every row of a message that is still in the
    mailbox is there with its id, deletion, labels and snooze as they were, and no live
    row appeared for a message the mailbox does not hold.  (Under a changed UIDVALIDITY
    the rows of the folder are deleted and fetched anew: their UIDs name other mail.) *)
Theorem pass_keeps_mail (a f name : string) (uv hm : Z) (t : totals) (db db' : mail) (c c' : ImapClient T)
    (r : result SyncError flow) :
  let B := box c in
  mail_ok db -> open_box (cl_session c) = Some name -> cl_selected c = Some name ->
  resumes uv (cursor_of a f db) ->
  sync_selected a f uv hm t (db, c) = (r, (db', c')) ->
  mail_ok db' /\
  (forall u m, u ∈ B -> row_at db a (imap_message_external_id f u) = Some m ->
     exists m', row_at db' a (imap_message_external_id f u) = Some m' /\ kept_row m m') /\
  (forall m' u, m' ∈ ml_messages db' -> live_in a f m' = true -> parse_imap_uid (m_external m') = Ok u ->
     u ∈ B \/ exists m, m ∈ ml_messages db /\ live_in a f m = true /\ parse_imap_uid (m_external m) = Ok u).
Proof.
  intros B Hok Ho Hs Hres Hr.
  assert (HB : forall u, u ∈ B -> 1 <= u <= u32_max) by (intros u Hu; by apply (held_nz (cl_session c))).
  assert (Hc : client_ok name B c).
  { split; [unfold B, box; by rewrite held_open, Ho|]. split; by right. }
  destruct (moves_selected a f name B HB uv hm t (db, c) Hc Hres _ _ Hr Hc) as [_ Hd].
  destruct (Hd Hok) as ((Hok' & _) & Hrows & Hlive). split; [done|]. split; [exact Hrows|].
  intros m' u Hin Hl Hp. apply (Hlive u). by exists m'.
Qed.
End Theorems.

(** ** Witnesses *)

Section Witnesses.
Import ToyServer.
Definition inbox : ImapFolder := mkImapFolder "INBOX" (Some "/") [].
Definition toy_imap (v : Z) (up_at : nat -> bool) (uids : list Z) : ImapClient server :=
  mkClient (mkServer [] v None up_at 0 (toy_box (map (fun u => (u, [])) uids)) [] (Some "INBOX")) [] toy_config
    (Some "INBOX").
Definition up_to (n : Z) : list Z := Z.of_nat <$> seq 1 (Z.to_nat n).
Definition no_totals : totals := mkTotals 0 0 0.
Definition pass_over (db : mail) (c : ImapClient server) : result SyncError flow * (mail * ImapClient server) :=
  sync_folder "a1" inbox no_totals (db, c).

Lemma toy_up_ok v uids : u32 v -> up (cl_session (toy_imap v (fun _ => true) uids)).
Proof. intros Hv. split; [done|]. split; [exact Hv|]. unfold u64. cbn. split; [lia|done]. Qed.

(** [toy_mail2] holds the rows of 7 and 9 and the cursor [3:9]. *)
Definition grown : ImapClient server := toy_imap 3 (fun _ => true) [7; 9; 10; 11; 12].
Lemma pass_mirrors_folder_witness :
  fst (pass_over toy_mail2 grown) = Ok (Continue (mkTotals 3 0 0)) /\
  remote (cl_session grown) "INBOX" = {[ 7; 9; 10; 11; 12 ]} /\ validity (cl_session grown) "INBOX" = 3 /\
  exists t' db' c', sync_folder "a1" inbox no_totals (toy_mail2, grown) = (Ok (Continue t'), (db', c')) /\ mail_ok db' /\
    mirrors "a1" "id0" (remote (cl_session grown) (if_name inbox)) (validity (cl_session grown) (if_name inbox)) db'.
Proof.
  split; [vm_compute; reflexivity|]. split; [vm_compute; reflexivity|]. split; [reflexivity|].
  apply (pass_mirrors_folder "a1" "id0" inbox no_totals toy_mail2 grown toy_mail2_ok).
  - vm_compute. reflexivity.
  - apply toy_up_ok. unfold u32, u32_max. lia.
  - reflexivity.
  - vm_compute. reflexivity.
  - assert (Hc : cursor_of "a1" "id0" toy_mail2 = Some (mkCursorInfo 3 9 0)) by (vm_compute; reflexivity).
    rewrite Hc. intros info [= <-]. cbn. unfold u32_max. lia.
  - assert (Hc : cursor_of "a1" "id0" toy_mail2 = Some (mkCursorInfo 3 9 0)) by (vm_compute; reflexivity).
    rewrite Hc. intros info u [= <-] _ Hu Hle. cbn in Hle.
    assert (Hbox : remote (cl_session grown) (if_name inbox) = {[ 7; 9; 10; 11; 12 ]}) by (vm_compute; reflexivity).
    rewrite Hbox in Hu. assert (u = 7 \/ u = 9) as [-> | ->]; [|vm_compute; eauto..].
    rewrite !elem_of_union, !elem_of_singleton in Hu. lia.
Defined.

(** The third command of the pass, the fetch, times out. *)
Definition flaky : ImapClient server := toy_imap 3 (fun n => negb (n =? 2)%nat) [9; 10; 11].
Definition flaky_pass := sync_selected "a1" "id0" 3 0 no_totals (toy_mail2, flaky).
Lemma pass_keeps_mail_witness :
  fst flaky_pass = Ok (Poisoned ImapTimeout) /\
  mail_ok (fst (snd flaky_pass)) /\
  (forall u m, u ∈ box flaky -> row_at toy_mail2 "a1" (imap_message_external_id "id0" u) = Some m ->
     exists m', row_at (fst (snd flaky_pass)) "a1" (imap_message_external_id "id0" u) = Some m' /\ kept_row m m') /\
  (forall m' u, m' ∈ ml_messages (fst (snd flaky_pass)) -> live_in "a1" "id0" m' = true ->
     parse_imap_uid (m_external m') = Ok u ->
     u ∈ box flaky \/ exists m, m ∈ ml_messages toy_mail2 /\ live_in "a1" "id0" m = true /\ parse_imap_uid (m_external m) = Ok u).
Proof.
  split; [vm_compute; reflexivity|].
  apply (pass_keeps_mail "a1" "id0" "INBOX" 3 0 no_totals toy_mail2 (fst (snd flaky_pass)) flaky (snd (snd flaky_pass))
    (fst flaky_pass)).
  - apply toy_mail2_ok.
  - reflexivity.
  - reflexivity.
  - assert (Hc : cursor_of "a1" "id0" toy_mail2 = Some (mkCursorInfo 3 9 0)) by (vm_compute; reflexivity).
    rewrite Hc. intros info [= <-]. cbn. unfold u32_max. lia.
  - unfold flaky_pass. destruct (sync_selected _ _ _ _ _ _) as [r [db' c']]. reflexivity.
Defined.

(** ** Where the cursor runs ahead *)

(** A server answers a UID search in no order, the pass fetches in that order, and the
    cursor of a chunk is its largest UID.  A connection lost after the first of two
    chunks leaves a cursor above messages that were never fetched, and a later pass,
    on a server that answers everything, succeeds without them. *)
Definition interrupted := pass_over toy_mail (toy_imap 3 (fun n => negb (n =? 4)%nat) (up_to 12)).
Definition resumed := pass_over (fst (snd interrupted)) (toy_imap 3 (fun _ => true) (up_to 12)).
Definition missing (db : mail) (uids : list Z) : list Z :=
  List.filter (fun u => negb (bool_decide (is_Some (row_at db "a1" (imap_message_external_id "id0" u))))) uids.
Theorem interrupted_pass_skips_mail :
  fst interrupted = Ok (Poisoned ImapTimeout) /\ fst resumed = Ok (Continue (mkTotals 0 1 0)) /\
  missing (fst (snd resumed)) (up_to 12) = [1; 2; 4; 8].
Proof. split; [|split]; vm_compute; reflexivity. Qed.

(** After a change of UIDVALIDITY the chunk cursor starts at the old last UID: with the
    cursor [3:9], a mailbox that restarted under validity 4 with UIDs 1 and 2 is left with
    the cursor [4:9], and of the messages 3 and 4 that arrive then, 3 is never fetched. *)
Definition restarted := pass_over toy_mail2 (toy_imap 4 (fun _ => true) (up_to 2)).
Definition regrown := pass_over (fst (snd restarted)) (toy_imap 4 (fun _ => true) (up_to 4)).
Theorem uidvalidity_cursor_skips_mail :
  cursor_of "a1" "id0" (fst (snd restarted)) = Some (mkCursorInfo 4 9 0) /\
  fst regrown = Ok (Continue (mkTotals 1 0 0)) /\ missing (fst (snd regrown)) (up_to 4) = [3].
Proof. split; [|split]; vm_compute; reflexivity. Qed.
End Witnesses.

(** The chunks of the pass are never longer than one metadata chunk, so the retry loop of
    [fetch_metadata] is not entered: a chunk that fails is not tried again. *)
Theorem chunks_are_not_retried {T : Type} `{ImapSession T} `{MimeLib} (uids chunk : list Z) (c : ImapClient T) :
  chunk ∈ chunks METADATA_CHUNK uids -> fetch_metadata chunk c = fetch_metadata_once chunk c.
Proof.
  intros Hin. assert (Hk : (0 < METADATA_CHUNK)%nat) by (unfold METADATA_CHUNK; lia).
  pose proof (proj1 (Forall_forall _ _) (chunks_shape METADATA_CHUNK uids Hk) chunk Hin) as [_ Hlen].
  unfold fetch_metadata. by rewrite (proj2 (Nat.leb_le _ _) Hlen).
Qed.
