(* ===== verification/Blobs.v ===== *)
(** * Blob storage ([blobs/mod.rs])

    Files of [<data_dir>/blobs/] addressed by the SHA-256 of their content.  The file
    system is a map from paths to contents; a write may fail half way. *)
From S2P Require Import Prelude.
Local Open Scope string_scope.

Class BlobLib := sha256_hex : string -> string.

(** [d_free] is what the device still takes ([None]: enough), [d_read_only] refuses every
    change. *)
Record disk := mkDisk { d_files : gmap string string; d_free : option nat; d_read_only : bool }.

Inductive BlobError := Io (m : string).

Definition set_files (fs : gmap string string) (d : disk) : disk := mkDisk fs (d_free d) (d_read_only d).

(** [std::fs]: [Path::is_absolute], [Path::join], [exists], [create_dir_all], [write]
    (creates or truncates, then writes as much as fits) and [read]. *)
Definition is_absolute (p : string) : bool := starts_with "/" p.
Definition path_join (dir p : string) : string :=
  if is_absolute p || is_empty dir then p
  else if ends_with "/" dir then dir +:+ p else dir +:+ "/" +:+ p.
Definition path_exists (full : string) (d : disk) : bool := bool_decide (is_Some (d_files d !! full)).
Definition create_dir_all : io disk BlobError unit :=
  fun d => if d_read_only d then (Err (Io "read-only file system"), d) else (Ok tt, d).
Definition fs_write (full data : string) : io disk BlobError unit :=
  fun d =>
    if d_read_only d then (Err (Io "read-only file system"), d) else
    match d_free d with
    | None => (Ok tt, set_files (<[full := data]> (d_files d)) d)
    | Some n =>
        let d' := mkDisk (<[full := stake n data]> (d_files d)) (Some (n - String.length data)%nat) false in
        if (String.length data <=? n)%nat then (Ok tt, d') else (Err (Io "no space left on device"), d')
    end.
Definition fs_read (full : string) : io disk BlobError string :=
  fun d => (ok_or (Io "entity not found") (d_files d !! full), d).

Definition relative_blob_path (account_id hash : string) : string :=
  let prefix := if (2 <=? String.length hash)%nat then stake 2 hash else hash in
  "blobs/" +:+ account_id +:+ "/" +:+ prefix +:+ "/" +:+ hash.

Definition resolve_storage_path (data_dir storage_path : string) : string :=
  if is_absolute storage_path then storage_path else path_join data_dir storage_path.

Section Blobs.
Context `{BlobLib}.

Definition store (data_dir account_id data : string) : io disk BlobError string :=
  let hash := sha256_hex data in
  let rel := relative_blob_path account_id hash in
  let full := path_join data_dir rel in
  let! there := gets (path_exists full) in
  if (there : bool) then ret rel else
  let! _ := create_dir_all in
  let! _ := fs_write full data in
  ret rel.

Definition read (data_dir storage_path : string) : io disk BlobError string :=
  fs_read (resolve_storage_path data_dir storage_path).
End Blobs.

(** ** Lemmas *)

Section Paths.
Context `{BlobLib}.

Lemma relative_is_relative a h : is_absolute (relative_blob_path a h) = false.
Proof. done. Qed.
Lemma path_join_app dir p : is_absolute p = false -> exists pre, forall q, is_absolute q = false ->
  path_join dir q = pre +:+ q.
Proof.
  intros _. exists (if is_empty dir then "" else if ends_with "/" dir then dir else dir +:+ "/").
  intros q Hq. unfold path_join. rewrite Hq. cbn [orb]. destruct (is_empty dir); [done|].
  destruct (ends_with "/" dir); [done|]. by rewrite app_assoc_s.
Qed.
Lemma resolve_relative dir a h :
  resolve_storage_path dir (relative_blob_path a h) = path_join dir (relative_blob_path a h).
Proof. unfold resolve_storage_path. by rewrite relative_is_relative. Qed.

(** The digests of an account are apart in the tree: one path, one digest. *)
Lemma app_inj_tail_s (s t u v : string) : String.length s = String.length t -> u +:+ s = v +:+ t -> s = t.
Proof.
  intros Hl. revert v. induction u as [|x u IH]; intros [|y v] He; [done| | |].
  1-2: exfalso; apply (f_equal String.length) in He; rewrite !slength_app in He; cbn in He; lia.
  rewrite !app_cons_s in He. injection He as _ He. by eapply IH.
Qed.
Lemma blob_path_inj dir a h h' : String.length h = String.length h' ->
  path_join dir (relative_blob_path a h) = path_join dir (relative_blob_path a h') -> h = h'.
Proof.
  intros Hl He. destruct (path_join_app dir (relative_blob_path a h)) as [pre Hpre]; [done|].
  rewrite !Hpre in He by done. apply app_inj_l_s in He.
  unfold relative_blob_path in He. apply app_inj_l_s, app_inj_l_s, app_inj_l_s in He.
  rewrite Hl in He. destruct (2 <=? String.length h')%nat eqn:H2.
  - rewrite <- !app_assoc_s in He. by eapply app_inj_tail_s.
  - rewrite <- !app_assoc_s in He. by eapply app_inj_tail_s.
Qed.
End Paths.

(** A digest has a fixed length. *)
Class BlobLaws `{BlobLib} := sha256_length : forall s t, String.length (sha256_hex s) = String.length (sha256_hex t).

(** The tree of an account holds, under each digest, something of that digest. *)
Definition addressed `{BlobLib} (dir a : string) (d : disk) : Prop :=
  forall data x, d_files d !! path_join dir (relative_blob_path a (sha256_hex data)) = Some x ->
    sha256_hex x = sha256_hex data.

Section Specs.
Context `{BlobLaws}.

Lemma blob_store_run dir a data d r d' : store dir a data d = (r, d') ->
  let full := path_join dir (relative_blob_path a (sha256_hex data)) in
  (forall p, p <> full -> d_files d' !! p = d_files d !! p) /\
  match r with
  | Ok rel => rel = relative_blob_path a (sha256_hex data) /\
      d_files d' !! full = match d_files d !! full with Some x => Some x | None => Some data end
  | Err _ => d_files d !! full = None /\ (d_files d' !! full = None \/ exists n, d_files d' !! full = Some (stake n data))
  end.
Proof.
  intros Hs full. unfold store, bind at 1, gets, path_exists in Hs. cbv beta iota zeta in Hs.
  fold full in Hs. case_bool_decide as He.
  - injection Hs as <- <-. split; [done|]. split; [done|]. by destruct He as [x ->].
  - apply eq_None_not_Some in He. unfold create_dir_all, fs_write, bind, ret in Hs.
    cbv beta iota in Hs. destruct (d_read_only d) eqn:Hro; cbv beta iota in Hs; rewrite ?Hro in Hs;
      [injection Hs as <- <-; by auto|].
    destruct (d_free d) as [n|].
    + destruct (_ <=? n)%nat eqn:Hn; cbv beta iota zeta in Hs; injection Hs as <- <-; cbn;
        (split; [by intros p Hp; rewrite lookup_insert_ne|]).
      * split; [done|]. rewrite He, lookup_insert_eq. f_equal.
        apply Nat.leb_le in Hn. clear -Hn. revert n Hn. induction data as [|c s IH]; intros [|n] Hn; cbn in *; try done; [lia|].
        f_equal. apply IH. lia.
      * split; [done|]. right. exists n. by rewrite lookup_insert_eq.
    + injection Hs as <- <-. cbn. split; [by intros p Hp; rewrite lookup_insert_ne|].
      split; [done|]. by rewrite He, lookup_insert_eq.
Qed.

(** What was stored is read back.  Unless two contents share a digest, a blob that
    was stored reads back byte for byte from the path that [store] answers, whether it was
    written now or found there; no other file changes, and the tree stays addressed. *)
Theorem blob_roundtrip (dir account data : string) (d : disk) (rel : string) (d' : disk) :
  addressed dir account d ->
  (forall x, sha256_hex x = sha256_hex data -> x = data) ->
  store dir account data d = (Ok rel, d') ->
  read dir rel d' = (Ok data, d') /\
  (forall p, p <> resolve_storage_path dir rel -> d_files d' !! p = d_files d !! p) /\
  addressed dir account d'.
Proof.
  intros Ha Hc Hs. apply blob_store_run in Hs as [Hother [-> Hfull]].
  assert (Hd : d_files d' !! path_join dir (relative_blob_path account (sha256_hex data)) = Some data).
  { rewrite Hfull. destruct (d_files d !! _) as [x|] eqn:Hx; [|done]. f_equal. by apply Hc, (Ha _ _ Hx). }
  rewrite resolve_relative. split; [|split; [done|]].
  - unfold read, fs_read. rewrite resolve_relative. unfold ok_or. by rewrite Hd.
  - intros data' x Hx. destruct (decide (sha256_hex data' = sha256_hex data)) as [He|He].
    + rewrite He in *. rewrite Hd in Hx. by injection Hx as <-.
    + rewrite Hother in Hx; [by apply Ha|]. intros Hp. apply He.
      eapply blob_path_inj; [apply sha256_length|exact Hp].
Qed.
End Specs.

(** The write is not atomic and the check is for existence only: when the device fills up
    half way, the next [store] of the same content accepts the torn file. *)
Definition toy_digest (s : string) : string := if String.eqb s "hello" then "ab01" else "cd02".
#[export] Instance toy_sha : BlobLib := toy_digest.
#[export] Instance toy_sha_laws : BlobLaws.
Proof. intros s t. unfold sha256_hex, toy_sha, toy_digest. by do 2 destruct (String.eqb _ _). Qed.

Definition toy_disk (free : option nat) : disk := mkDisk ∅ free false.
Definition make_room (d : disk) : disk := mkDisk (d_files d) None (d_read_only d).
Theorem torn_blob_is_accepted :
  let d1 := make_room (snd (store "/data" "a1" "hello" (toy_disk (Some 2%nat)))) in
  let '(again, d2) := store "/data" "a1" "hello" d1 in
  again = Ok "blobs/a1/ab/ab01" /\ fst (read "/data" "blobs/a1/ab/ab01" d2) = Ok "he".
Proof. vm_compute. done. Qed.

Lemma blob_roundtrip_witness :
  let d' := snd (store "/data" "a1" "hello" (toy_disk None)) in
  read "/data" "blobs/a1/ab/ab01" d' = (Ok "hello", d') /\
  (forall p, p <> resolve_storage_path "/data" "blobs/a1/ab/ab01" -> d_files d' !! p = d_files (toy_disk None) !! p) /\
  addressed "/data" "a1" d'.
Proof.
  apply (blob_roundtrip "/data" "a1" "hello" (toy_disk None) "blobs/a1/ab/ab01").
  - intros data x Hx. cbn in Hx. by rewrite lookup_empty in Hx.
  - intros x. unfold sha256_hex, toy_sha, toy_digest. destruct (String.eqb_spec x "hello"); [done|]. discriminate.
  - vm_compute. reflexivity.
Defined.
