(* ===== verification/Jmap.v ===== *)
(** * JMAP client ([sync/jmap_client.rs])

    The seam over the [jmap-client] crate: error classes, discovery with the credentials
    pinned, the session cache, the requests and their paging, the mapping to the store's
    records, and the push stream.  The crate and HTTP are the class [JmapWire]; its
    accessors are the [Wire...] records. *)
From S2P Require Import Prelude Labels Jobs Netsec MailStore.
Local Open Scope string_scope.
Local Open Scope Z_scope.

(** ** Errors *)

Definition jmap_of_client (err : ClientError) : JmapError :=
  let is_auth := match err with
                 | Problem status => bool_decide (status = Some 401)
                 | Server s => starts_with "401" s
                 | _ => false
                 end in
  if is_auth then JmapAuth "JMAP server rejected credentials (HTTP 401)" else JmapClient err.

Definition is_stale_query_state (e : JmapError) : bool :=
  match e with JmapClient (MethodE CannotCalculateChanges) => true | _ => false end.

Definition is_transient (e : JmapError) : bool :=
  match e with
  | JmapHttp _ => true
  | JmapClient (Transport _) => true
  | JmapClient (Server status) => starts_with "429" status || starts_with "5" status
  | JmapClient (Problem (Some s)) => (s =? 429) || (500 <=? s)
  | JmapClient (MethodE (ServerUnavailable | ServerPartialFail | TooManyChanges)) => true
  | JmapClient (SetE (RateLimit | OverQuota)) => true
  | _ => false
  end.

Definition is_auth (e : JmapError) : bool :=
  match e with
  | JmapAuth _ => true
  | JmapClient (Problem status) => bool_decide (status = Some 401) || bool_decide (status = Some 403)
  | JmapClient (Server s) => starts_with "401" s || starts_with "403" s
  | _ => false
  end.

Definition is_read_only (e : JmapError) : bool :=
  match e with JmapClient (MethodE AccountReadOnly) => true | _ => false end.

(** ** Discovery *)

Class UrlJoin := {
  url_join : string -> string -> result string string;   (* [Url::join], as text *)
  basic_encoded : string -> string -> string;            (* base64 of [user:password] *)
}.

Definition dot_labels (host : string) : list string := split_char "." (drop_while_end is_dot host).
Definition last_two (labels : list string) : list string := drop (length labels - 2) labels.

Section Discovery.
Context `{UrlLib} `{UrlJoin}.

Definition registrable_host (o : string) : string :=
  let host := match rok (url_parse o) ≫= url_host with Some h => h | None => o end in
  let labels := dot_labels host in
  if (2 <=? length labels)%nat then to_ascii_lowercase (join "." (last_two labels)) else to_ascii_lowercase host.
Definition same_registrable_domain (a_origin b_origin : string) : bool :=
  String.eqb (registrable_host a_origin) (registrable_host b_origin).

Definition resolve_discovery_redirect (current_url location origin : string) : result JmapError string :=
  let? _ := rmap_err (fun e => JmapSession ("invalid current URL '" +:+ current_url +:+ "': " +:+ e))
              (url_parse current_url) in
  let? resolved := rmap_err (fun e => JmapSession ("invalid redirect target '" +:+ location +:+ "': " +:+ e))
                     (url_join current_url location) in
  let? target_origin := rmap_err JmapUrl (origin_of resolved) in
  if negb (String.eqb target_origin origin) &&
     negb (starts_with "https://" target_origin && same_registrable_domain target_origin origin)
  then Err (JmapCrossOrigin resolved) else Ok resolved.

Fixpoint validate_session_urls (configured_origin : string) (urls : list string) : result JmapError unit :=
  match urls with
  | [] => Ok tt
  | url :: rest =>
      if is_empty url then validate_session_urls configured_origin rest else
      let? _ := rmap_err JmapUrl (validate_server_url url) in
      let? _ := rmap_err JmapUrl (origin_of url) in
      validate_session_urls configured_origin rest
  end.

Inductive Credentials := Basic (encoded : string) | Bearer (token : string).
Definition credentials_for (auth_type email secret : string) : Credentials :=
  if eq_ignore_ascii_case auth_type "bearer" then Bearer secret else Basic (basic_encoded email secret).
Definition authorization_header (c : Credentials) : string :=
  match c with Basic encoded => "Basic " +:+ encoded | Bearer token => "Bearer " +:+ token end.
End Discovery.

(** ** What the crate answers *)

(** An HTTP response to a discovery request: its status and [Location]. *)
Record http_reply := mkReply { hr_redirection : bool; hr_location : option string }.

(** The pieces of the [eventSourceUrl] template. *)
Inductive URLPart := Value (value : string) | Types | CloseAfter | Ping.
(** [jmap_client::core::session::Session]; [ss_primary] pairs a capability with an account. *)
Record WireSession := mkSession {
  ss_api_url : string; ss_upload_url : string; ss_download_url : string; ss_event_source_url : string;
  ss_primary : list (string * string); ss_accounts : list string; ss_max_calls : option nat;
  ss_capabilities : list string; ss_event_source_parts : list URLPart }.
Definition mail_uri : string := "urn:ietf:params:jmap:mail".
Definition submission_uri : string := "urn:ietf:params:jmap:submission".

Inductive WireRole := RInbox | RSent | RTrash | RDrafts | RJunk | RArchive | RImportant | ROther (name : string) | RNone.
Record WireMailbox := mkWireMailbox {
  wm_id : option string; wm_name : option string; wm_role : WireRole; wm_parent_id : option string }.

Inductive HeaderValue := AsText (s : string) | AsTextAll (l : list string) | OtherHeader.
Record WireAddress := mkWireAddress { wa_name : option string; wa_email : string }.
Record WirePart := mkWirePart {
  wp_part_id : option string; wp_blob_id : option string; wp_name : option string;
  wp_content_type : option string; wp_size : Z; wp_content_id : option string; wp_disposition : option string }.
Record WireEmail := mkWireEmail {
  we_id : option string; we_keywords : list string; we_mailbox_ids : list string; we_thread_id : option string;
  we_size : Z; we_received_at : option Z; we_message_id : option (list string);
  we_in_reply_to : option (list string); we_references : option (list string);
  we_from : option (list WireAddress); we_to : option (list WireAddress); we_cc : option (list WireAddress);
  we_subject : option string; we_headers : list (string * HeaderValue);
  we_body_values : list (string * (string * bool)); we_text_body : option (list WirePart);
  we_html_body : option (list WirePart); we_has_attachment : bool; we_attachments : option (list WirePart);
  we_preview : option string }.

(** One entry of a batched response. *)
Inductive BatchReply :=
  | QueryReply (ids : list string) (query_state : string)
  | GetReply (emails : list WireEmail) (state : string)
  | ErrorReply (code : MethodErrorType).
Definition unwrap_query_email (r : BatchReply) : result ClientError (list string * string) :=
  match r with
  | QueryReply ids st => Ok (ids, st)
  | GetReply _ _ => Err (OtherClient "unexpected method response")
  | ErrorReply code => Err (MethodE code)
  end.
Definition unwrap_get_email (r : BatchReply) : result ClientError (list WireEmail * string) :=
  match r with
  | GetReply emails st => Ok (emails, st)
  | QueryReply _ _ => Err (OtherClient "unexpected method response")
  | ErrorReply code => Err (MethodE code)
  end.

Record changes_reply := mkChanges {
  cr_updated : list string; cr_destroyed : list string; cr_new_state : string; cr_more : bool }.
Record query_changes_reply := mkQueryChanges {
  qr_added : list string; qr_removed : list string; qr_new_query_state : string }.

(** What a read of the push stream gives: bytes, nothing within the watchdog, a failure. *)
Inductive StreamEvent := Chunk (bytes : string) | Elapsed | Broken (m : string).

(** The network [T]; a [Handle] is a connected [jmap_client::client::Client]. *)
Class JmapWire (T : Type) := {
  Handle : Type;
  http_get : string -> string -> io T string http_reply;         (* URL, [Authorization]; as below *)
  client_connect : Credentials -> string -> list string -> io T ClientError Handle;
  session : Handle -> T -> WireSession;
  set_default_account_id : Handle -> string -> Handle;
  is_session_updated : Handle -> T -> bool;
  refresh_session : Handle -> io T ClientError unit;
  get_mailbox : Handle -> io T ClientError (list WireMailbox);
  query_email : Handle -> string -> Z -> nat -> io T ClientError (list string * string);
  query_and_get : Handle -> string -> Z -> nat -> io T ClientError (list BatchReply);
  get_email : Handle -> list string -> io T ClientError (list WireEmail * string);
  query_email_changes_req : Handle -> string -> string -> nat -> io T ClientError query_changes_reply;
  changes_email : Handle -> string -> nat -> io T ClientError changes_reply;
  download : Handle -> string -> io T ClientError string;
  event_stream : string -> string -> io T string (result string (list StreamEvent));
}.

(** ** Mapping to the store's records *)

Class JmapTime := rfc3339_of_timestamp : Z -> option string.   (* [chrono], whole seconds *)

(** [serde_json::Map] is ordered by key; a repeated key overwrites. *)
Fixpoint json_insert (k : string) (v : Json) (fields : list (string * Json)) : list (string * Json) :=
  match fields with
  | [] => [(k, v)]
  | (k', v') :: rest =>
      if String.eqb k k' then (k, v) :: rest
      else if text_le k k' then (k, v) :: (k', v') :: rest
      else (k', v') :: json_insert k v rest
  end.
Definition json_map (fields : list (string * Json)) : list (string * Json) :=
  foldl (fun m '(k, v) => json_insert k v m) [] fields.
Definition true_map (keys : list string) : option Json :=
  match keys with [] => None | _ => Some (JObject (json_map (map (fun k => (k, JBool true)) keys))) end.

Section Mapping.
Context `{JmapTime}.

Definition map_addresses (l : list WireAddress) : list JmapEmailAddress :=
  map (fun a => mkAddress (wa_name a) (Some (wa_email a))) l.

Definition parts_of (o : option (list WirePart)) : list WirePart := match o with Some l => l | None => [] end.
Definition map_body_values (email : WireEmail) : option (list (string * Json)) :=
  let value part :=
    part_id ← wp_part_id part;
    '(_, (text, cut)) ← List.find (fun '(k, _) => String.eqb k part_id) (we_body_values email);
    Some (part_id, JObject [("isTruncated", JBool cut); ("value", JString text)]) in
  match json_map (omap value (parts_of (we_text_body email) ++ parts_of (we_html_body email))%list) with
  | [] => None
  | m => Some m
  end.
Definition json_opt (o : option string) : Json := match o with Some s => JString s | None => JNull end.
Definition map_body_refs (parts : option (list WirePart)) : option (list Json) :=
  option_map (map (fun p => JObject [("partId", json_opt (wp_part_id p)); ("type", json_opt (wp_content_type p))])) parts.

Definition map_attachments (email : WireEmail) : list JmapAttachmentMeta :=
  omap (fun p =>
    blob_id ← wp_blob_id p;
    Some (mkAttMeta blob_id (default "attachment" (wp_name p))
            (default "application/octet-stream" (wp_content_type p)) (wp_size p) (wp_content_id p)
            (bool_decide (wp_disposition p = Some "inline")))) (parts_of (we_attachments email)).

Definition mailer_header (email : WireEmail) (name : string) : option string :=
  nonempty (match List.find (fun '(k, _) => String.eqb k name) (we_headers email) with
            | Some (_, AsText s) => Some (trim s)
            | Some (_, AsTextAll l) => option_map trim (head l)
            | _ => None
            end).

Definition map_email (email : WireEmail) : option JmapEmail :=
  id ← we_id email;
  Some (mkEmail id (we_thread_id email) (true_map (we_mailbox_ids email)) (true_map (we_keywords email))
    (Some (we_size email)) (we_received_at email ≫= rfc3339_of_timestamp) (we_message_id email)
    (we_in_reply_to email) (we_references email) (option_map map_addresses (we_from email))
    (option_map map_addresses (we_to email)) (option_map map_addresses (we_cc email)) (we_subject email)
    (match mailer_header email "User-Agent" with Some m => Some m | None => mailer_header email "X-Mailer" end)
    (map_body_values email) (map_body_refs (we_text_body email)) (map_body_refs (we_html_body email))
    (Some (we_has_attachment email)) (we_preview email) (map_attachments email)).

Definition map_mailbox (mb : WireMailbox) : option JmapMailbox :=
  id ← wm_id mb;
  let role := match wm_role mb with
              | RInbox => Some "inbox" | RSent => Some "sent" | RTrash => Some "trash" | RDrafts => Some "drafts"
              | RJunk => Some "spam" | RArchive => Some "archive" | RImportant => Some "important"
              | ROther other => Some other | RNone => None
              end in
  Some (mkMailbox id (default "" (wm_name mb)) role (wm_parent_id mb)).
End Mapping.

Definition mailbox_ids_from_json (value : option Json) : list string :=
  match value with
  | Some (JObject fields) => omap (fun '(k, v) => match v with JBool true => Some k | _ => None end) fields
  | _ => []
  end.

(** ** The seam *)

Definition MAX_DISCOVERY_HOPS : nat := 5.
Definition CHANGES_PAGE_SIZE : nat := 500.
Definition CHANGES_MAX_PAGES : nat := 8.

Record JmapSeam {T} `{JmapWire T} := mkSeam { sm_client : Handle; sm_origin : string; sm_auth_header : string }.
Arguments JmapSeam T {_}.

Record EmailQueryChanges := mkEqc {
  eq_added_ids : list string; eq_removed_ids : list string; eq_new_query_state : option string }.
Record EmailPage := mkPage {
  pg_ids : list string; pg_emails : list JmapEmail; pg_query_state : option string; pg_email_state : option string }.
Record JmapEmailChanges := mkEc {
  ec_updated_ids : list string; ec_destroyed_ids : list string; ec_new_state : option string }.

Section Seam.
Context {T : Type} `{JmapWire T} `{UrlLib} `{UrlJoin} `{JmapTime}.
Local Abbreviation M := (io T JmapError).

Definition client {A} (m : io T ClientError A) : M A := map_err jmap_of_client m.

(** The hop loop; the [n] hops left make it structural. *)
Fixpoint follow_hops (n : nat) (base auth_header origin url : string) (redirected : bool) : M (bool * string) :=
  match n with
  | O => throw (JmapSession ("too many redirects from " +:+ base +:+ "/.well-known/jmap"))
  | S n =>
      let! resp := map_err JmapHttp (http_get url auth_header) in
      if negb (hr_redirection resp) then ret (redirected, url) else
      let! location := lift (ok_or (JmapSession ("redirect from " +:+ url +:+ " has no Location")) (hr_location resp)) in
      let! url := lift (resolve_discovery_redirect url location origin) in
      follow_hops n base auth_header origin url true
  end.
Definition preflight_discovery (base auth_header origin : string) : M (bool * string) :=
  follow_hops MAX_DISCOVERY_HOPS base auth_header origin (base +:+ "/.well-known/jmap") false.

Definition is_slash (a : ascii) : bool := Ascii.eqb a "/".

Definition session_urls (s : WireSession) : list string :=
  [ss_api_url s; ss_upload_url s; ss_download_url s; ss_event_source_url s].

Definition connect_with (base_url : string) (credentials : Credentials) : M (JmapSeam T) :=
  let! _ := lift (rmap_err JmapUrl (validate_server_url base_url)) in
  let trimmed := drop_while_end is_slash base_url in
  let base := default trimmed (strip_suffix "/.well-known/jmap" trimmed) in
  let! origin := lift (rmap_err JmapUrl (origin_of base)) in
  let! host := lift (ok_or (JmapUrl ("no host in '" +:+ base +:+ "'")) (rok (url_parse base) ≫= url_host)) in
  let auth_header := authorization_header credentials in
  let! found := preflight_discovery base auth_header origin in
  let '(redirected, discovery_url) := found in
  let session_base := default discovery_url (strip_suffix "/.well-known/jmap" discovery_url) in
  let hosts :=
    if (redirected : bool) then
      match rok (url_parse discovery_url) ≫= url_host with
      | Some h => if String.eqb h host then [host] else [host; h]
      | None => [host]
      end
    else [] in
  let! handle := client (client_connect credentials session_base hosts) in
  let! sess := gets (session handle) in
  let! _ := lift (validate_session_urls origin (session_urls sess)) in
  let! mail_account := lift (ok_or (JmapSession "no mail account in JMAP session")
    (match List.find (fun '(uri, _) => String.eqb uri mail_uri) (ss_primary sess) with
     | Some (_, id) => Some id
     | None => head (ss_accounts sess)
     end)) in
  ret (mkSeam T _ (set_default_account_id handle mail_account) origin auth_header).

Definition connect (base_url email secret auth_type : string) : M (JmapSeam T) :=
  let! first := attempt (connect_with base_url (credentials_for auth_type email secret)) in
  match first with
  | Ok seam => ret seam
  | Err (JmapAuth m) =>
      if eq_ignore_ascii_case auth_type "bearer" then
        let! second := attempt (connect_with base_url (Basic (basic_encoded secret "X"))) in
        match second with
        | Ok seam => ret seam
        | Err (JmapAuth _) => connect_with base_url (Basic (basic_encoded email secret))
        | Err e => throw e
        end
      else throw (JmapAuth m)
  | Err e => throw e
  end.

Definition refresh_if_stale (seam : JmapSeam T) : M unit :=
  let! fresh := gets (is_session_updated (sm_client seam)) in
  if (fresh : bool) then ret tt else
  let! _ := client (refresh_session (sm_client seam)) in
  let! sess := gets (session (sm_client seam)) in
  lift (validate_session_urls (sm_origin seam) (session_urls sess)).

Definition max_calls_in_request (seam : JmapSeam T) (net : T) : nat :=
  default 8%nat (ss_max_calls (session (sm_client seam) net)).
Definition supports_submission (seam : JmapSeam T) (net : T) : bool :=
  bool_decide (submission_uri ∈ ss_capabilities (session (sm_client seam) net)).

Definition list_mailboxes (seam : JmapSeam T) : M (list JmapMailbox) :=
  let! l := client (get_mailbox (sm_client seam)) in ret (omap map_mailbox l).

Definition get_emails (seam : JmapSeam T) (ids : list string) : M (list JmapEmail * option string) :=
  match ids with
  | [] => ret ([], None)
  | _ =>
      let! r := client (get_email (sm_client seam) ids) in
      ret (omap map_email (fst r), Some (snd r))
  end.

Definition query_position (position : nat) : Z := if Z.of_nat position <=? i32_max then Z.of_nat position else i32_max.
Definition query_emails_page (seam : JmapSeam T) (mailbox_id : string) (position limit : nat) : M EmailPage :=
  let position := query_position position in
  let! calls := gets (max_calls_in_request seam) in
  if (calls <? 2)%nat then
    let! q := client (query_email (sm_client seam) mailbox_id position limit) in
    let! r := get_emails seam (fst q) in
    ret (mkPage (fst q) (fst r) (Some (snd q)) (snd r))
  else
    let! responses := client (query_and_get (sm_client seam) mailbox_id position limit) in
    match responses with
    | [q; g] =>
        let! q := lift (rmap_err jmap_of_client (unwrap_query_email q)) in
        let! g := lift (rmap_err jmap_of_client (unwrap_get_email g)) in
        ret (mkPage (fst q) (omap map_email (fst g)) (Some (snd q)) (Some (snd g)))
    | _ => throw (JmapInvalid "expected Email/query + Email/get responses")
    end.

Definition query_email_changes (seam : JmapSeam T) (mailbox_id since_query_state : string) : M EmailQueryChanges :=
  let! r := client (query_email_changes_req (sm_client seam) mailbox_id since_query_state CHANGES_PAGE_SIZE) in
  ret (mkEqc (qr_added r) (qr_removed r) (Some (qr_new_query_state r))).

(** The paging loop of [Email/changes]; [pages] pages are left. *)
Fixpoint changes_pages (pages : nat) (seam : JmapSeam T) (since : string) (updated destroyed : list string)
    : M JmapEmailChanges :=
  match pages with
  | O => ret (mkEc updated destroyed (Some since))
  | S n =>
      let! r := client (changes_email (sm_client seam) since CHANGES_PAGE_SIZE) in
      let updated := (updated ++ cr_updated r)%list in
      let destroyed := (destroyed ++ cr_destroyed r)%list in
      if cr_more r then changes_pages n seam (cr_new_state r) updated destroyed
      else ret (mkEc updated destroyed (Some (cr_new_state r)))
  end.
Definition email_changes (seam : JmapSeam T) (since_state : string) : M JmapEmailChanges :=
  changes_pages CHANGES_MAX_PAGES seam since_state [] [].

Definition download_blob (seam : JmapSeam T) (blob_id : string) : M string :=
  client (download (sm_client seam) blob_id).

(** The process-wide cache of sessions, one per account. *)
Local Abbreviation cache := (gmap string (JmapSeam T)).
Definition connect_for_account (account_id base_url email secret auth_type : string)
    : io (cache * T) JmapError (JmapSeam T) :=
  fun w =>
    match fst w !! account_id with
    | Some seam => (Ok seam, w)
    | None =>
        match connect base_url email secret auth_type (snd w) with
        | (Ok seam, net) => (Ok seam, (<[account_id := seam]> (fst w), net))
        | (Err e, net) => (Err e, (fst w, net))
        end
    end.
Definition evict (account_id : string) (c : cache) : cache := delete account_id c.
End Seam.

(** ** Push: the EventSource stream *)

Definition StateChange : Type := list (string * list (string * string)).
Class PushLib := parse_state_change : string -> option StateChange.   (* the derived [Deserialize] *)

Definition MAIL_TYPES : list string := ["Email"; "Mailbox"; "Thread"; "EmailSubmission"].
Definition push_implies_sync (change : StateChange) : bool :=
  existsb (fun t => bool_decide (t ∈ MAIL_TYPES)) (concat (map (fun c => map fst (snd c)) change)).

(** The length of the first frame: up to and with its blank line. *)
Fixpoint find_sse_frame_end (buf : string) : option nat :=
  match buf with
  | String a (String b _ as rest) =>
      if Ascii.eqb a nl && Ascii.eqb b nl then Some 2%nat else option_map S (find_sse_frame_end rest)
  | _ => None
  end.

(** The loop over the lines of a frame: the data so far, and whether it is a ping. *)
Fixpoint frame_lines (ls : list string) (data : string) (is_ping : bool) : string * bool :=
  match ls with
  | [] => (data, is_ping)
  | line :: rest =>
      let line := strip_cr line in
      if is_empty line || starts_with ":" line then frame_lines rest data is_ping
      else match strip_prefix "data:" line with
           | Some value =>
               let value := default value (strip_prefix " " value) in
               let data := if is_empty data then data else data +:+ String nl "" in
               frame_lines rest (data +:+ value) is_ping
           | None => frame_lines rest data (is_ping || String.eqb line "event: ping")
           end
  end.

Inductive EventSourceOutcome := StateChanged | Unsupported | StreamEnded.

Section Push.
Context `{PushLib}.

Definition parse_sse_frame (frame : string) : option StateChange :=
  let '(data, is_ping) := frame_lines (split_char nl frame) "" false in
  if is_ping || is_empty data then None else parse_state_change data.

Definition frame_syncs (frame : string) : bool :=
  match parse_sse_frame frame with Some change => push_implies_sync change | None => false end.

(** The inner loop: drain whole frames from the buffer. *)
Fixpoint drain (fuel : nat) (buf : string) : bool * string :=
  match fuel with
  | O => (false, buf)
  | S n =>
      match find_sse_frame_end buf with
      | None => (false, buf)
      | Some pos => if frame_syncs (stake pos buf) then (true, sdrop pos buf) else drain n (sdrop pos buf)
      end
  end.
Definition drain_frames (buf : string) : bool * string := drain (String.length buf) buf.

Fixpoint read_stream (events : list StreamEvent) (buf : string) : result JmapError EventSourceOutcome :=
  match events with
  | [] => Ok StreamEnded
  | Elapsed :: _ => Ok StreamEnded
  | Broken m :: _ => Err (JmapHttp m)
  | Chunk bytes :: rest =>
      let '(found, buf) := drain_frames (buf +:+ bytes) in
      if (found : bool) then Ok StateChanged else read_stream rest buf
  end.

Context {T : Type} `{JmapWire T}.
Definition event_source_url (sess : WireSession) : option string :=
  match ss_event_source_parts sess with
  | [] => None
  | parts =>
      if is_empty (ss_event_source_url sess) then None
      else Some (foldl (fun url part => url +:+ match part with
                                                | Value v => v | Types => "*" | CloseAfter => "no" | Ping => "30"
                                                end) "" parts)
  end.
Definition wait_for_state_change (seam : JmapSeam T) : io T JmapError EventSourceOutcome :=
  let! sess := gets (session (sm_client seam)) in
  match event_source_url sess with
  | None => ret Unsupported
  | Some url =>
      let! resp := map_err JmapHttp (event_stream url (sm_auth_header seam)) in
      let! events := lift (rmap_err (fun status => JmapSession ("event stream: HTTP " +:+ status +:+ " from " +:+ url)) resp) in
      lift (read_stream events "")
  end.
End Push.

(** ** Flags *)

(** [true] sets a keyword, [null] removes it. *)
Definition keyword_patch (is_read is_starred : option bool) : list (string * Json) :=
  let patch key (o : option bool) m :=
    match o with Some b => json_insert key (if b then JBool true else JNull) m | None => m end in
  patch "keywords/$flagged" is_starred (patch "keywords/$seen" is_read []).
Definition keywords_update (is_read is_starred : option bool) (label_add label_remove : list string)
    : list (string * Json) :=
  let update := keyword_patch is_read is_starred in
  let update := foldl (fun m l => json_insert ("keywords/" +:+ label_keyword l) (JBool true) m) update label_add in
  foldl (fun m l => json_insert ("keywords/" +:+ label_keyword l) JNull m) update label_remove.

(** ** Discovery keeps the credentials in *)

(** The URLs that were sent the [Authorization] header. *)
Class HttpLog (T : Type) `{JmapWire T} := {
  sent : T -> list string;
  http_logs : forall url auth s r s', http_get url auth s = (r, s') -> sent s' = (sent s ++ [url])%list;
}.

Section Pinned.
Context {T : Type} `{HttpLog T} `{UrlLib} `{UrlJoin}.

(** Two hosts of one site, as far as their names tell: the same name, or names that end in the same two labels - a dot
    between them, none inside, nothing but dots after -, in either case of the letters. *)
Definition two_labels (site : string) : Prop := exists x y, site = x +:+ "." +:+ y /\ contains_char "." x = false /\ contains_char "." y = false.
Definition ends_in (site host : string) : Prop := exists front dots, host = front +:+ site +:+ dots /\
  sforall is_dot dots = true /\ (front = "" \/ exists f, front = f +:+ ".").
Definition one_site (h1 h2 : string) : Prop :=
  let h1 := to_ascii_lowercase h1 in let h2 := to_ascii_lowercase h2 in
  h1 = h2 \/ exists site, two_labels site /\ ends_in site h1 /\ ends_in site h2.
Definition origin_host (o : string) : string := default o (rok (url_parse o) ≫= url_host).
Definition pinned (origin url : string) : Prop := exists o, origin_of url = Ok o /\
  (o = origin \/ (starts_with "https://" o = true /\ one_site (origin_host o) (origin_host origin))).

Lemma smap_app f s t : smap f (s +:+ t) = smap f s +:+ smap f t.
Proof using Type. induction s as [|a s IH]; [done|]. rewrite app_cons_s. cbn [smap]. by rewrite IH. Qed.
Lemma lower_dots s : sforall is_dot s = true -> sforall is_dot (to_ascii_lowercase s) = true.
Proof using Type.
  induction s as [|a s IH]; [done|]. cbn. intros [Ha%Ascii.eqb_eq Hs]%andb_true_iff. rewrite Ha. cbn. by apply IH.
Qed.
Lemma lower_no_dot s : contains_char "." s = false -> contains_char "." (to_ascii_lowercase s) = false.
Proof using Type.
  unfold contains_char, sexists. rewrite !negb_false_iff. induction s as [|a s IH]; [done|]. cbn [sforall]. intros [Ha Hs]%andb_true_iff.
  change (to_ascii_lowercase (String a s)) with (String (ascii_lower a) (to_ascii_lowercase s)). cbn [sforall]. rewrite IH by done.
  rewrite andb_true_r. clear -Ha. destruct a as [[] [] [] [] [] [] [] []]; done.
Qed.
Lemma drop_end_dots s : exists dots, s = drop_while_end is_dot s +:+ dots /\ sforall is_dot dots = true.
Proof using Type.
  unfold drop_while_end. assert (Hd : forall u, exists t, u = t +:+ drop_while is_dot u /\ sforall is_dot t = true).
  { induction u as [|a u (t & Ht & Hp)]; [by exists ""|]. cbn. destruct (is_dot a) eqn:Ha; [|by exists ""].
    exists (String a t). rewrite app_cons_s. split; [by f_equal|]. cbn. by rewrite Ha. }
  destruct (Hd (string_rev s)) as (t & Ht & Hp). exists (string_rev t). split; [|by rewrite sforall_rev].
  apply (f_equal string_rev) in Ht. by rewrite string_rev_involutive, string_rev_app in Ht.
Qed.
(** The last two of at least two labels end the name. *)
Lemma labels_end l : (2 <= length l)%nat -> Forall (fun s => contains_char "." s = false) l ->
  two_labels (join "." (last_two l)) /\ exists front, join "." l = front +:+ join "." (last_two l) /\ (front = "" \/ exists f, front = f +:+ ".").
Proof using Type.
  induction l as [|x l IH]; cbn [length]; intros Hl Hf; [lia|]. apply Forall_cons in Hf as [Hx Hf]. destruct l as [|y [|z l]]; cbn [length] in Hl.
  - lia.
  - change (last_two [x; y]) with [x; y]. split; [|exists ""; by split; [|left]]. exists x, y. apply Forall_cons in Hf as [Hy _]. done.
  - destruct IH as (Ht & front & Hj & Hfr); [cbn; lia|done|].
    assert (Hlast : last_two (x :: y :: z :: l) = last_two (y :: z :: l)) by (unfold last_two; cbn [length]; by replace (S (S (S (length l))) - 2)%nat with (S (S (length l))  - 2 + 1)%nat by lia; rewrite Nat.add_1_r).
    rewrite Hlast. split; [done|]. exists (x +:+ "." +:+ front). change (join "." (x :: y :: z :: l)) with (x +:+ "." +:+ join "." (y :: z :: l)).
    rewrite Hj, !app_assoc_s. split; [done|]. right. destruct Hfr as [->|[f ->]]; [by exists x|]. exists (x +:+ "." +:+ f). by rewrite !app_assoc_s.
Qed.
(** A host against its registrable host: that ends it, or is its whole name. *)
Lemma registrable_ends o : two_labels (registrable_host o) /\ ends_in (registrable_host o) (to_ascii_lowercase (origin_host o)) \/
  registrable_host o = to_ascii_lowercase (origin_host o).
Proof using Type.
  unfold registrable_host. fold (origin_host o). change (match rok (url_parse o) ≫= url_host with Some h => h | None => o end) with (origin_host o).
  set (h := origin_host o). destruct (2 <=? length (dot_labels h))%nat eqn:Hn; [left|by right]. apply Nat.leb_le in Hn.
  assert (Hno : Forall (fun s => contains_char "." s = false) (dot_labels h)).
  { eapply Forall_impl; [apply split_no_sep|]. intros s Hs. unfold contains_char, sexists. apply negb_false_iff.
    eapply sforall_impl; [|exact Hs]. intros b Hb. by rewrite Ascii.eqb_sym. }
  destruct (labels_end _ Hn Hno) as ((x & y & Hxy & Hx & Hy) & front & Hj & Hfr). rewrite Hxy in Hj |- *.
  destruct (drop_end_dots h) as (dots & Hh & Hd). unfold dot_labels in Hj. rewrite join_split in Hj.
  assert (Hl : to_ascii_lowercase (x +:+ "." +:+ y) = to_ascii_lowercase x +:+ "." +:+ to_ascii_lowercase y)
    by (unfold to_ascii_lowercase; by rewrite !smap_app). rewrite Hl. split.
  - exists (to_ascii_lowercase x), (to_ascii_lowercase y). split; [done|]. split; by apply lower_no_dot.
  - exists (to_ascii_lowercase front), (to_ascii_lowercase dots). split; [|split; [by apply lower_dots|]].
    + rewrite Hh, Hj. unfold to_ascii_lowercase. by rewrite !smap_app, !app_assoc_s.
    + destruct Hfr as [->|[f ->]]; [by left|right]. exists (to_ascii_lowercase f). unfold to_ascii_lowercase. by rewrite smap_app.
Qed.
Lemma ends_itself s : ends_in s s.
Proof using Type. exists "", "". rewrite app_nil_r_s. by split; [|split; [|left]]. Qed.
Lemma registrable_one_site o1 o2 : same_registrable_domain o1 o2 = true -> one_site (origin_host o1) (origin_host o2).
Proof using Type.
  intros Heq%String.eqb_eq. unfold one_site. cbn zeta. destruct (registrable_ends o1) as [[Ht1 He1]|Hr1], (registrable_ends o2) as [[Ht2 He2]|Hr2].
  - right. exists (registrable_host o1). rewrite Heq at 3. done.
  - right. exists (registrable_host o1). split; [done|]. split; [done|]. rewrite Heq, Hr2. apply ends_itself.
  - right. exists (registrable_host o2). split; [done|]. split; [|done]. rewrite <-Heq, Hr1. apply ends_itself.
  - left. congruence.
Qed.

Lemma redirect_pinned url location origin url' :
  resolve_discovery_redirect url location origin = Ok url' -> pinned origin url'.
Proof.
  unfold resolve_discovery_redirect, rbind. destruct (rmap_err _ (url_parse url)); [|done].
  destruct (url_join url location) as [resolved|e]; cbn; [|done]. destruct (origin_of resolved) as [o|e] eqn:Ho; cbn; [|done].
  destruct (_ && _) eqn:Hp; [done|]. intros [= <-]. exists o. split; [done|]. apply andb_false_iff in Hp as [Hp|Hp].
  - left. apply negb_false_iff, String.eqb_eq in Hp. done.
  - right. apply negb_false_iff, andb_true_iff in Hp as [Hs Hp]. split; [done|]. by apply registrable_one_site.
Qed.
Lemma hops_pinned n base auth origin : forall url redirected s r s', pinned origin url ->
  follow_hops n base auth origin url redirected s = (r, s') ->
  exists urls, sent s' = (sent s ++ urls)%list /\ Forall (pinned origin) urls /\ (length urls <= n)%nat /\
    forall b u, r = Ok (b, u) -> last urls = Some u.
Proof.
  induction n as [|n IH]; intros url redirected s r s' Hurl Hr; cbn [follow_hops] in Hr.
  { injection Hr as <- <-. exists []. rewrite app_nil_r. by repeat split. }
  assert (Hget : forall x s1, map_err JmapHttp (http_get url auth) s = (x, s1) -> sent s1 = (sent s ++ [url])%list).
  { intros x s1 Hg. unfold map_err in Hg. destruct (http_get url auth s) as [y s2] eqn:Hy. injection Hg as _ <-. by eapply http_logs. }
  apply bind_inv in Hr as [(e & Hg & ->)|(resp & s1 & Hg & Hr)]; apply Hget in Hg.
  { exists [url]. split; [done|]. split; [by apply Forall_singleton|]. split; [cbn; lia|done]. }
  destruct (negb _).
  { injection Hr as <- <-. exists [url]. split; [done|]. split; [by apply Forall_singleton|]. split; [cbn; lia|].
    by intros b u [= <- <-]. }
  assert (Hone : exists urls, sent s1 = (sent s ++ urls)%list /\ Forall (pinned origin) urls /\ (length urls <= S n)%nat).
  { exists [url]. split; [done|]. split; [by apply Forall_singleton|]. cbn; lia. }
  apply bind_inv in Hr as [(e & Hl & ->)|(location & s2 & Hl & Hr)];
    [injection Hl as _ <-; destruct Hone as (urls & ? & ? & ?); by exists urls|]. injection Hl as _ <-.
  apply bind_inv in Hr as [(e & Hl & ->)|(url' & s2 & Hl & Hr)];
    [injection Hl as _ <-; destruct Hone as (urls & ? & ? & ?); by exists urls|]. injection Hl as Hl <-.
  apply redirect_pinned in Hl. apply IH in Hr as (urls & Hs & Hf & Hn & Hu); [|done].
  exists (url :: urls). rewrite Hs, Hg, <- app_assoc. split; [done|]. split; [by constructor|]. split; [cbn; lia|].
  intros b u Hbu. specialize (Hu b u Hbu). destruct urls as [|x urls]; [done|exact Hu].
Qed.

(** C7: the preflight of discovery keeps the credentials with the provider.  However a
    server redirects it, the [Authorization] header goes to at most five URLs, each of the
    configured origin, or https on a host whose name ends in the same two labels as the
    configured one, and the session is read from the last.  (Two labels are not always a
    registrable domain: [suffix_neighbours_are_same_site].) *)
Theorem discovery_pins_credentials (base auth origin : string) (s : T) (r : result JmapError (bool * string)) (s' : T) :
  origin_of (base +:+ "/.well-known/jmap") = Ok origin ->
  preflight_discovery base auth origin s = (r, s') ->
  exists urls, sent s' = (sent s ++ urls)%list /\ Forall (pinned origin) urls /\ (length urls <= 5)%nat /\
    forall redirected url, r = Ok (redirected, url) -> last urls = Some url.
Proof. intros Ho Hr. eapply hops_pinned; [|exact Hr]. exists origin. by split; [|left]. Qed.
End Pinned.

(** ** The push stream does not depend on how it is cut *)

Lemma frame_end_cons a b x : find_sse_frame_end (String a (String b x)) =
  if Ascii.eqb a nl && Ascii.eqb b nl then Some 2%nat else option_map S (find_sse_frame_end (String b x)).
Proof. done. Qed.

Section Stream.
Context `{PushLib}.

Lemma frame_end_app x y p : find_sse_frame_end x = Some p -> find_sse_frame_end (x +:+ y) = Some p.
Proof.
  revert p. induction x as [|a x IH]; intros p Hp; [done|]. destruct x as [|b x]; [done|].
  rewrite frame_end_cons in Hp. rewrite !app_cons_s, frame_end_cons, <- app_cons_s.
  destruct (_ && _); [done|]. destruct (find_sse_frame_end (String b x)) as [q|]; [|done]. by rewrite (IH q eq_refl).
Qed.
Lemma frame_end_bounds x p : find_sse_frame_end x = Some p -> (2 <= p <= String.length x)%nat.
Proof.
  revert p. induction x as [|a x IH]; intros p Hp; [done|]. destruct x as [|b x]; [done|]. rewrite frame_end_cons in Hp.
  destruct (_ && _); [injection Hp as <-; cbn; lia|]. destruct (find_sse_frame_end (String b x)) as [q|]; [|done].
  injection Hp as <-. specialize (IH q eq_refl). cbn in *. lia.
Qed.
Lemma stake_app_le n x y : (n <= String.length x)%nat -> stake n (x +:+ y) = stake n x.
Proof. revert n. induction x as [|a x IH]; intros [|n] Hn; cbn in *; try done; [lia|]. f_equal. apply IH. lia. Qed.
Lemma sdrop_app_le n x y : (n <= String.length x)%nat -> sdrop n (x +:+ y) = sdrop n x +:+ y.
Proof. revert n. induction x as [|a x IH]; intros [|n] Hn; cbn in *; try done; [lia|]. apply IH. lia. Qed.

Lemma slength_0 x : (String.length x <= 0)%nat -> x = "".
Proof. destruct x; [done|]. intros Hx. inversion Hx. Qed.

(** Enough fuel is the length of the buffer, and more does not matter. *)
Lemma drain_fuel n : forall m x, (String.length x <= n)%nat -> (String.length x <= m)%nat -> drain n x = drain m x.
Proof.
  induction n as [|n IH]; intros m x Hn Hm.
  - apply slength_0 in Hn as ->. by destruct m.
  - destruct m as [|m]; [by apply slength_0 in Hm as ->|]. cbn [drain].
    destruct (find_sse_frame_end x) as [p|] eqn:Hp; [|done]. apply frame_end_bounds in Hp.
    destruct (frame_syncs _); [done|]. apply IH; rewrite slength_sdrop; lia.
Qed.
Lemma drain_app n : forall x y, (String.length x <= n)%nat ->
  drain_frames (x +:+ y) = let '(found, buf) := drain n x in if found then (true, buf +:+ y) else drain_frames (buf +:+ y).
Proof.
  induction n as [|n IH]; intros x y Hn; [done|]. cbn [drain].
  destruct (find_sse_frame_end x) as [p|] eqn:Hp; [|done]. pose proof (frame_end_bounds x p Hp) as Hb.
  assert (Hlen : (p <= String.length (x +:+ y))%nat) by (rewrite slength_app; lia).
  unfold drain_frames at 1. destruct (String.length (x +:+ y)) as [|k] eqn:Hk; [lia|]. cbn [drain].
  rewrite (frame_end_app x y p Hp), (stake_app_le p x y), (sdrop_app_le p x y) by lia.
  destruct (frame_syncs (stake p x)); [done|]. rewrite <- IH by (rewrite slength_sdrop; lia).
  apply drain_fuel; [|done]. rewrite slength_app, slength_sdrop. rewrite slength_app in Hk. lia.
Qed.
Lemma drain_done n : forall x rest, drain n x = (false, rest) -> (String.length x <= n)%nat -> drain_frames rest = (false, rest).
Proof.
  induction n as [|n IH]; intros x rest Hd Hn; cbn [drain] in Hd.
  - injection Hd as <-. by apply slength_0 in Hn as ->.
  - destruct (find_sse_frame_end x) as [p|] eqn:Hp.
    + destruct (frame_syncs _); [done|]. apply IH in Hd; [done|]. apply frame_end_bounds in Hp. rewrite slength_sdrop. lia.
    + injection Hd as <-. unfold drain_frames. destruct (String.length x); [done|]. cbn [drain]. by rewrite Hp.
Qed.

Definition joined (chunks : list string) : string := foldr String.append "" chunks.

Lemma read_chunks cs : forall buf events, drain_frames buf = (false, buf) ->
  read_stream (map Chunk cs ++ events) buf =
    let '(found, rest) := drain_frames (buf +:+ joined cs) in
    if found then Ok StateChanged else read_stream events rest.
Proof.
  induction cs as [|c cs IH]; intros buf events Hb.
  { cbn [map app joined foldr]. by rewrite app_nil_r_s, Hb. }
  cbn [map app read_stream joined foldr]. fold (joined cs). rewrite <- (app_assoc_s buf c).
  rewrite (drain_app (String.length (buf +:+ c)) (buf +:+ c) (joined cs)) by done. unfold drain_frames at 1.
  destruct (drain _ (buf +:+ c)) as [[] rest] eqn:Hd; [done|]. apply IH. by eapply drain_done.
Qed.

(** C13: push does not depend on how the network cuts the stream.  Reading any sequence of
    chunks gives what reading their concatenation at once gives, found frames and
    buffered rest alike, before whatever event follows. *)
Theorem push_is_chunk_independent (chunks : list string) (events : list StreamEvent) :
  read_stream (map Chunk chunks ++ events) "" = read_stream (Chunk (joined chunks) :: events) "".
Proof. rewrite read_chunks by done. done. Qed.
End Stream.

(** The comment on the frame end says it tolerates CRLF; a stream with CRLF line ends never
    has one. *)
Definition crlf_lines (ls : list string) : string := foldr (fun l s => l +:+ crlf +:+ s) "" ls.
Lemma no_frame_in_line l s : contains_char nl l = false -> find_sse_frame_end s = None ->
  starts_with (String nl "") s = false ->
  find_sse_frame_end (l +:+ s) = None /\ starts_with (String nl "") (l +:+ s) = false.
Proof.
  intros Hl Hs Hn. unfold contains_char, sexists in Hl. apply negb_false_iff in Hl.
  induction l as [|a l IH]; [done|]. cbn [sforall] in Hl. apply andb_true_iff in Hl as [Ha Hl].
  destruct (IH Hl) as [IH1 _]. apply negb_true_iff in Ha. rewrite app_cons_s. split.
  - destruct (l +:+ s) as [|b t] eqn:Ht; [done|]. rewrite frame_end_cons.
    rewrite Ascii.eqb_sym in Ha. rewrite Ha. cbn [andb]. by rewrite IH1.
  - destruct (starts_with _ (String a _)) eqn:Hst; [|done]. apply starts_with_spec in Hst as [t Ht].
    rewrite app_cons_s in Ht. injection Ht as -> _. by rewrite Ascii.eqb_refl in Ha.
Qed.
Theorem crlf_frames_never_end (ls : list string) :
  Forall (fun l => contains_char nl l = false) ls -> find_sse_frame_end (crlf_lines ls) = None.
Proof.
  intros Hls. apply (proj1 (B := starts_with (String nl "") (crlf_lines ls) = false)).
  induction Hls as [|l ls Hl _ [IH Hs]]; [done|]. cbn [crlf_lines foldr]. fold (crlf_lines ls).
  apply no_frame_in_line; [done| |done]. unfold crlf. rewrite !app_cons_s.
  change ("" +:+ crlf_lines ls) with (crlf_lines ls). rewrite frame_end_cons. cbn [andb Ascii.eqb].
  destruct (crlf_lines ls) as [|b t] eqn:Ht; [done|]. rewrite frame_end_cons.
  assert (Hb : Ascii.eqb b nl = false).
  { destruct (Ascii.eqb_spec b nl) as [->|]; [|done].
    change (String nl t) with (String nl "" +:+ t) in Hs. by rewrite prefix_app in Hs. }
  rewrite Hb, andb_false_r. by rewrite IH.
Qed.

(** ** Concrete runs *)

(** URLs [scheme://host/path] on port 443, and a server that redirects its apex to [www]. *)
Definition web_host (rest : string) : string := match split_once "/" rest with Some (h, _) => h | None => rest end.
Definition web_urls : UrlLib := {|
  url_parse s := match strip_prefix "https://" s with
                 | Some rest => Ok (mkUrl "https" (Some (drop_while_end is_digit (web_host rest))) (Some 443))
                 | None => Err "relative URL without a base"
                 end;
  parse_ipv6 _ := None;
|}.
Definition web_join : UrlJoin := {| url_join _ l := Ok l; basic_encoded u p := u +:+ ":" +:+ p |}.
Definition apex : string := "https://example.org/.well-known/jmap".
Definition www : string := "https://www.example.org/.well-known/jmap".
Definition web_wire : JmapWire (list string) := {|
  Handle := unit;
  http_get url _ := fun log =>
    (Ok (if String.eqb url apex then mkReply true (Some www) else mkReply false None), (log ++ [url])%list);
  client_connect _ _ _ := fun log => (Ok tt, log);
  session _ _ := mkSession "" "" "" "" [] [] None [] [];
  set_default_account_id h _ := h;
  is_session_updated _ _ := true;
  refresh_session _ := ret tt;
  get_mailbox _ := ret [];
  query_email _ _ _ _ := ret ([], "");
  query_and_get _ _ _ _ := ret [];
  get_email _ _ := ret ([], "");
  query_email_changes_req _ _ _ _ := ret (mkQueryChanges [] [] "");
  changes_email _ _ _ := ret (mkChanges [] [] "" false);
  download _ _ := ret "";
  event_stream _ _ := ret (Ok []);
|}.
#[local] Existing Instances web_urls web_join web_wire.
Lemma web_logs (url auth : string) (s : list string) r s' : http_get url auth s = (r, s') -> s' = (s ++ [url])%list.
Proof. by intros [= _ <-]. Qed.
#[local] Instance web_log : HttpLog (list string) := {| sent s := s; http_logs := web_logs |}.

Lemma discovery_pins_credentials_witness :
  preflight_discovery "https://example.org" "Bearer t" "https://example.org:443" [] = (Ok (true, www), [apex; www]) /\
  exists urls, sent [apex; www] = (sent [] ++ urls)%list /\ Forall (pinned "https://example.org:443") urls /\
    (length urls <= 5)%nat /\
    forall redirected url, Ok (E := JmapError) (true, www) = Ok (redirected, url) -> last urls = Some url.
Proof.
  assert (Hr : preflight_discovery "https://example.org" "Bearer t" "https://example.org:443" [] =
               (Ok (true, www), [apex; www])) by (vm_compute; reflexivity). split; [exact Hr|].
  apply (discovery_pins_credentials "https://example.org" "Bearer t" "https://example.org:443" [] (Ok (true, www)) [apex; www]);
    [vm_compute; reflexivity|exact Hr].
Defined.

(** The last two labels of a host are taken for its registrable domain, so two registrants
    below a two-label public suffix count as one site. *)
Theorem suffix_neighbours_are_same_site :
  resolve_discovery_redirect "https://mail.victim.co.uk/.well-known/jmap" "https://attacker.co.uk/jmap"
    "https://mail.victim.co.uk:443" = Ok "https://attacker.co.uk/jmap".
Proof. vm_compute. reflexivity. Qed.

(** The caller passes what [label_diff] answers, which is prefixed already. *)
Theorem jmap_label_push_doubles_prefix :
  let '(add, remove) := label_diff [] ["work"] in
  keywords_update None None add remove = [("keywords/label-label-work", JBool true)].
Proof. vm_compute. reflexivity. Qed.
