(* ===== verification/JmapLoop.v ===== *)
(** * The JMAP pass ([sync/jmap_loop.rs], [sync/recovery.rs])

    One pass over an account: mailboxes, account-level changes, then per mailbox the
    delta or the whole listing, page by page, then the deletions, and the account-level
    state last.  The world holds the database, the blob directory, the session cache and
    the network; a request or a statement may fail at any point. *)
From S2P Require Import Prelude Crypto Labels Jobs MailStore Netsec Imap ImapLoop Blobs Jmap.
Local Open Scope string_scope.
Local Open Scope Z_scope.

Record AttachmentRow := mkAttachment {
  ar_id : string; ar_message_id : string; ar_filename : string; ar_content_type : string; ar_size : Z;
  ar_storage_path : string; ar_content_id : option string; ar_is_inline : bool }.
(** [mail_account]: the key, the sync columns and the two switches. *)
Record AccountRow := mkAccountRow {
  ac_id : string; ac_user_id : string; ac_sync : AccountSyncRow; ac_is_active : bool; ac_sync_enabled : bool }.

Record jmap_world (T : Type) `{JmapWire T} := mkJl {
  jl_mail : mail; jl_accounts : list AccountRow; jl_attachments : list AttachmentRow; jl_disk : disk;
  jl_cache : gmap string (JmapSeam T); jl_net : T }.
Arguments mkJl {T _}. Arguments jl_mail {T _}. Arguments jl_accounts {T _}. Arguments jl_attachments {T _}.
Arguments jl_disk {T _}. Arguments jl_cache {T _}. Arguments jl_net {T _}.

(** The iteration order of a [HashMap]. *)
Class HashOrder := hash_order : list string -> list string.

Definition QUERY_PAGE : nat := 100.
Definition JMAP_TRANSIENT_ATTEMPTS : nat := 3.
Definition MAX_ATTACHMENT_DOWNLOAD_BYTES : Z := 25 * 1024 * 1024.
Definition MAX_MESSAGE_BODY_BYTES : Z := 25 * 1024 * 1024.
Definition body_exceeds_limit (size_bytes : option Z) : bool :=
  match size_bytes with Some s => (0 <? s) && (MAX_MESSAGE_BODY_BYTES <? s) | None => false end.

(** What a pass carries along: the counters, the ids it fetched again, those reported
    gone, and the account-level state to commit. *)
Record pass := mkPass {
  ps_new : nat; ps_updated : nat; ps_refetched : gset string; ps_removed : list string;
  ps_email_state : option string }.
Definition add_counts (c : nat * nat) (p : pass) : pass :=
  mkPass (ps_new p + fst c) (ps_updated p + snd c) (ps_refetched p) (ps_removed p) (ps_email_state p).
Definition add_refetched (ids : list string) (p : pass) : pass :=
  mkPass (ps_new p) (ps_updated p) (list_to_set ids ∪ ps_refetched p) (ps_removed p) (ps_email_state p).
Definition add_removed (ids : list string) (p : pass) : pass :=
  mkPass (ps_new p) (ps_updated p) (ps_refetched p) (ps_removed p ++ ids)%list (ps_email_state p).
Definition set_email_state (s : option string) (p : pass) : pass :=
  mkPass (ps_new p) (ps_updated p) (ps_refetched p) (ps_removed p) s.
(** [if new_email_state.is_none() { new_email_state = ... }]. *)
Definition seed (s : option string) (p : pass) : pass :=
  match ps_email_state p with Some _ => p | None => set_email_state s p end.

Definition plan_deletions (removed : list string) (refetched : gset string) : list string :=
  List.filter (fun id => bool_decide (id ∉ refetched)) removed.

(** A loop that ran out of fuel stops the pass with [None]. *)
Notation "'let!?' x ':=' m 'in' k" :=
  (bind m (fun o => match o with Some x => k | None => ret None end)) (at level 200, x pattern, right associativity).

Section JmapLoop.
Context {T : Type} `{JmapWire T} `{UrlLib} `{UrlJoin} `{JmapTime} `{StoreLib} `{JsonLib} `{BlobLib} `{HashOrder}.
Local Abbreviation world := (jmap_world T).
Local Abbreviation M := (io world SyncError).

Definition on_mail {A E} (m : io mail E A) : io world E A :=
  fun w => let '(r, db) := m (jl_mail w) in
           (r, mkJl db (jl_accounts w) (jl_attachments w) (jl_disk w) (jl_cache w) (jl_net w)).
Definition on_disk {A E} (m : io disk E A) : io world E A :=
  fun w => let '(r, d) := m (jl_disk w) in
           (r, mkJl (jl_mail w) (jl_accounts w) (jl_attachments w) d (jl_cache w) (jl_net w)).
Definition on_net {A E} (m : io T E A) : io world E A :=
  fun w => let '(r, net) := m (jl_net w) in
           (r, mkJl (jl_mail w) (jl_accounts w) (jl_attachments w) (jl_disk w) (jl_cache w) net).
Definition on_cache {A E} (m : io (gmap string (JmapSeam T) * T) E A) : io world E A :=
  fun w => let '(r, (c, net)) := m (jl_cache w, jl_net w) in
           (r, mkJl (jl_mail w) (jl_accounts w) (jl_attachments w) (jl_disk w) c net).
Definition jmap {A} (m : io T JmapError A) : M A := map_err Jmap (on_net m).

(** A statement on another table of the same database. *)
Definition on_tables (f : list AccountRow * list AttachmentRow -> list AccountRow * list AttachmentRow) : M unit :=
  let! _ := on_mail (mstmt (fun db => (tt, db))) in
  modify (fun w => let '(acs, atts) := f (jl_accounts w, jl_attachments w) in
                   mkJl (jl_mail w) acs atts (jl_disk w) (jl_cache w) (jl_net w)).

(** ** Recovery *)

Definition deactivate (r : AccountRow) : AccountRow := mkAccountRow (ac_id r) (ac_user_id r) (ac_sync r) false false.
Definition deactivate_account (account_id : string) : M unit :=
  on_tables (fun '(acs, atts) => (map (fun r => if String.eqb (ac_id r) account_id then deactivate r else r) acs, atts)).
Definition fail_credential_decrypt {A} (account_id : string) : M A :=
  let! _ := attempt (F := SyncError) (deactivate_account account_id) in
  throw (CryptoE "credential decrypt failed; re-enter account password").

Definition set_flags (flags stamp : string) (m : MessageRow) : MessageRow :=
  mkMessage (m_id m) (m_account m) (m_folder m) (m_external m) (m_message_id m) (m_subject m) (m_from m)
    (m_to m) (m_cc m) (m_date m) (m_read m) (m_starred m) (m_deleted m) (Some flags) (m_labels m) (m_size m)
    (m_in_reply_to m) (m_references m) (m_mailer m) (m_snippet m) (m_has_attachments m) (m_body_text m)
    (m_body_html m) (m_jmap_thread m) (m_snoozed_until m) (m_raw_blob m) stamp.
Definition fetch_error_flags (existing : option string) (reason : string) : string :=
  let fields := match existing ≫= json_parse with Some (JObject fields) => fields | _ => [] end in
  json_text (JObject (json_insert "fetch_error" (JString reason) fields)).
Definition mark_message_fetch_error (message_id reason : string) : io mail SyncError unit :=
  let! existing := mstmt (fun db => (List.find (message_by_id message_id) (ml_messages db) ≫= m_flags, db)) in
  mstmt (fun db => (tt, set_messages (update_messages (message_by_id message_id)
    (set_flags (fetch_error_flags existing reason) (sql_now (ml_now db))) (ml_messages db)) db)).

(** ** Attachments *)

Definition set_has_attachments (stamp : string) (m : MessageRow) : MessageRow :=
  mkMessage (m_id m) (m_account m) (m_folder m) (m_external m) (m_message_id m) (m_subject m) (m_from m)
    (m_to m) (m_cc m) (m_date m) (m_read m) (m_starred m) (m_deleted m) (m_flags m) (m_labels m) (m_size m)
    (m_in_reply_to m) (m_references m) (m_mailer m) (m_snippet m) true (m_body_text m)
    (m_body_html m) (m_jmap_thread m) (m_snoozed_until m) (m_raw_blob m) stamp.
Fixpoint insert_attachments (data_dir account_id message_id : string) (atts : list ExtractedAttachment) : M unit :=
  match atts with
  | [] => ret tt
  | att :: rest =>
      let! id := on_mail new_uuid_text in
      let! storage_path := map_err (fun '(Io m) => InvalidInput ("cannot write attachment blob: io error: " +:+ m))
                             (on_disk (store data_dir account_id (xa_data att))) in
      let! _ := on_tables (fun '(acs, rows) => (acs, rows ++
        [mkAttachment id message_id (xa_filename att) (xa_content_type att) (Z.of_nat (String.length (xa_data att)))
           storage_path (xa_content_id att) (xa_is_inline att)]))%list in
      insert_attachments data_dir account_id message_id rest
  end.
Definition persist_attachments (data_dir account_id message_id : string) (atts : list ExtractedAttachment) : M unit :=
  match atts with
  | [] => ret tt
  | _ =>
      let! _ := on_tables (fun '(acs, rows) =>
        (acs, List.filter (fun r => negb (String.eqb (ar_message_id r) message_id)) rows)) in
      let! _ := insert_attachments data_dir account_id message_id atts in
      on_mail (mstmt (fun db => (tt, set_messages (update_messages (message_by_id message_id)
        (set_has_attachments (sql_now (ml_now db))) (ml_messages db)) db)))
  end.

(** [more] attempts remain after this one. *)
Fixpoint download_attempts (more : nat) (seam : JmapSeam T) (meta : JmapAttachmentMeta) : io T JmapError string :=
  let! r := attempt (download_blob seam (at_blob_id meta)) in
  match r, more with
  | Ok bytes, _ => ret bytes
  | Err e, S more => if is_transient e then download_attempts more seam meta else throw e
  | Err e, O => throw e
  end.
Definition download_blob_with_retry (seam : JmapSeam T) (meta : JmapAttachmentMeta) : io T JmapError string :=
  download_attempts (JMAP_TRANSIENT_ATTEMPTS - 1) seam meta.

Fixpoint collect_attachments (message_id : string) (seam : JmapSeam T) (metas : list JmapAttachmentMeta)
    (extracted : list ExtractedAttachment) : M (list ExtractedAttachment) :=
  match metas with
  | [] => ret extracted
  | meta :: rest =>
      if MAX_ATTACHMENT_DOWNLOAD_BYTES <? at_size meta then
        let! _ := on_mail (mark_message_fetch_error message_id "attachment too large") in
        collect_attachments message_id seam rest extracted
      else
        let! r := attempt (on_net (download_blob_with_retry seam meta)) in
        match r with
        | Ok bytes =>
            if MAX_ATTACHMENT_DOWNLOAD_BYTES <? Z.of_nat (String.length bytes) then
              let! _ := on_mail (mark_message_fetch_error message_id "attachment exceeds size cap") in
              collect_attachments message_id seam rest extracted
            else collect_attachments message_id seam rest (extracted ++
              [mkExtracted (at_filename meta) (at_content_type meta) bytes (at_content_id meta) (at_is_inline meta)])%list
        | Err _ =>
            let! _ := on_mail (mark_message_fetch_error message_id "attachment download failed") in
            collect_attachments message_id seam rest extracted
        end
  end.
Definition download_attachments (account_id message_id : string) (metas : list JmapAttachmentMeta)
    (seam : JmapSeam T) (data_dir : string) : M unit :=
  let! extracted := collect_attachments message_id seam metas [] in
  match extracted with
  | [] => ret tt
  | _ =>
      let! r := attempt (persist_attachments data_dir account_id message_id extracted) in
      match r with
      | Ok _ => ret tt
      | Err error =>
          let! _ := attempt (F := SyncError) (on_mail (mark_message_fetch_error message_id "attachment persist failed")) in
          throw error
      end
  end.

(** ** A page *)

Fixpoint download_new (account_id : string) (pairs : list (JmapEmail * (string * bool))) (seam : JmapSeam T)
    (data_dir : string) : M unit :=
  match pairs with
  | [] => ret tt
  | (email, (local_id, was_new)) :: rest =>
      if negb was_new || bool_decide (je_attachments_meta email = []) then download_new account_id rest seam data_dir
      else
        let! _ := download_attachments account_id local_id (je_attachments_meta email) seam data_dir in
        download_new account_id rest seam data_dir
  end.
Definition persist_and_download (account_id folder_id : string) (emails : list JmapEmail)
    (query_state : option string) (seam : JmapSeam T) (data_dir : string) : M (nat * nat) :=
  let! stored := on_mail (persist_jmap_folder_batch account_id folder_id emails query_state) in
  let '(counts, persisted) := stored in
  let! _ := download_new account_id (combine emails persisted) seam data_dir in
  ret counts.

(** The pages of a mailbox; every page but the last is full. *)
Fixpoint full_folder_query (fuel : nat) (account_id folder_id mailbox_id : string) (seam : JmapSeam T)
    (data_dir : string) (position : nat) (p : pass) : M (option pass) :=
  match fuel with
  | O => ret None
  | S fuel =>
      let! page := jmap (query_emails_page seam mailbox_id position QUERY_PAGE) in
      let last := (length (pg_ids page) <? QUERY_PAGE)%nat in
      let p := seed (pg_email_state page) (add_refetched (pg_ids page) p) in
      let! counts := persist_and_download account_id folder_id (pg_emails page)
                       (if last then pg_query_state page else None) seam data_dir in
      let p := add_counts counts p in
      if last then ret (Some p)
      else full_folder_query fuel account_id folder_id mailbox_id seam data_dir (position + QUERY_PAGE) p
  end.

Definition seed_email_state (seam : JmapSeam T) (mailboxes : list JmapMailbox) (p : pass) : M pass :=
  match mailboxes with
  | [] => ret p
  | first :: _ =>
      let! page := jmap (query_emails_page seam (jm_id first) 0 1) in
      ret (seed (pg_email_state page) p)
  end.

(** ** Account-level changes *)

Fixpoint first_folder (account_id : string) (mailbox_ids : list string) : io mail SyncError (option string) :=
  match mailbox_ids with
  | [] => ret None
  | mailbox_id :: rest =>
      let! folder_id := find_folder_id account_id mailbox_id in
      match folder_id with Some id => ret (Some id) | None => first_folder account_id rest end
  end.
Definition resolve_jmap_email_folder (account_id : string) (email : JmapEmail) : io mail SyncError (option string) :=
  match je_mailbox_ids email with
  | Some (JObject fields) => first_folder account_id (map fst fields)
  | _ => ret None
  end.

(** [by_folder]: the messages in the order they came, under their folder. *)
Fixpoint group_emails (account_id : string) (emails : list JmapEmail) (groups : list (string * JmapEmail))
    : io mail SyncError (list (string * JmapEmail)) :=
  match emails with
  | [] => ret groups
  | email :: rest =>
      let! folder_id := resolve_jmap_email_folder account_id email in
      match folder_id with
      | Some f => group_emails account_id rest (groups ++ [(f, email)])%list
      | None => group_emails account_id rest groups
      end
  end.
Definition group_of (f : string) (groups : list (string * JmapEmail)) : list JmapEmail :=
  map snd (List.filter (fun g => String.eqb (fst g) f) groups).
Fixpoint persist_groups (account_id : string) (folders : list string) (groups : list (string * JmapEmail))
    (seam : JmapSeam T) (data_dir : string) (p : pass) : M pass :=
  match folders with
  | [] => ret p
  | f :: rest =>
      let! counts := persist_and_download account_id f (group_of f groups) None seam data_dir in
      persist_groups account_id rest groups seam data_dir (add_counts counts p)
  end.
Fixpoint refetch_chunks (account_id : string) (seam : JmapSeam T) (pieces : list (list string)) (data_dir : string)
    (p : pass) : M pass :=
  match pieces with
  | [] => ret p
  | chunk :: rest =>
      let! r := jmap (get_emails seam chunk) in
      let emails := fst r in
      let! groups := on_mail (group_emails account_id emails []) in
      let! p := persist_groups account_id (hash_order (remove_dups (map fst groups))) groups seam data_dir
                  (add_refetched (map je_id emails) p) in
      refetch_chunks account_id seam rest data_dir p
  end.
Definition refetch_updated_emails (account_id : string) (seam : JmapSeam T) (updated_ids : list string)
    (data_dir : string) (p : pass) : M pass :=
  refetch_chunks account_id seam (chunks QUERY_PAGE updated_ids) data_dir p.

Definition email_state_anchor (account_id : string) : io mail SyncError (option string) :=
  let! anchor := folder_id_for_role account_id "inbox" in
  match anchor with Some f => ret (Some f) | None => first_folder_id account_id end.

Definition account_changes (account_id : string) (seam : JmapSeam T) (mailboxes : list JmapMailbox)
    (anchor : option string) (data_dir : string) (p : pass) : M pass :=
  match anchor with
  | None => ret p
  | Some anchor =>
      let! since := on_mail (load_jmap_email_state account_id anchor) in
      match since with
      | None => seed_email_state seam mailboxes p
      | Some since =>
          let! r := attempt (on_net (email_changes seam since)) in
          match r with
          | Ok changes =>
              refetch_updated_emails account_id seam (ec_updated_ids changes) data_dir
                (set_email_state (ec_new_state changes) (add_removed (ec_destroyed_ids changes) p))
          | Err e =>
              if is_stale_query_state e then
                let! _ := on_mail (clear_jmap_email_state account_id anchor) in
                seed_email_state seam mailboxes p
              else throw (Jmap e)
          end
      end
  end.

(** ** Mailboxes *)

(** The chunks of added ids; the cursor commits with the last. *)
Fixpoint added_chunks (account_id folder_id : string) (pieces : list (list string)) (new_state : option string)
    (seam : JmapSeam T) (data_dir : string) (p : pass) : M pass :=
  match pieces with
  | [] => ret p
  | chunk :: rest =>
      let! r := jmap (get_emails seam chunk) in
      let p := seed (snd r) p in
      let! counts := persist_and_download account_id folder_id (fst r)
                       (match rest with [] => new_state | _ => None end) seam data_dir in
      added_chunks account_id folder_id rest new_state seam data_dir (add_counts counts p)
  end.
Definition mailbox_delta (account_id folder_id : string) (changes : EmailQueryChanges) (seam : JmapSeam T)
    (data_dir : string) (p : pass) : M pass :=
  let p := add_refetched (eq_added_ids changes) (add_removed (eq_removed_ids changes) p) in
  match eq_added_ids changes with
  | [] =>
      let! _ := persist_and_download account_id folder_id [] (eq_new_query_state changes) seam data_dir in ret p
  | added => added_chunks account_id folder_id (chunks QUERY_PAGE added) (eq_new_query_state changes) seam data_dir p
  end.
Definition sync_mailbox (fuel : nat) (account_id : string) (seam : JmapSeam T) (mb : JmapMailbox) (data_dir : string)
    (p : pass) : M (option pass) :=
  let! folder_id := on_mail (get_folder_id account_id (jm_id mb)) in
  let! since := on_mail (load_jmap_cursor account_id folder_id) in
  match since with
  | None => full_folder_query fuel account_id folder_id (jm_id mb) seam data_dir 0 p
  | Some state =>
      let! r := attempt (on_net (query_email_changes seam (jm_id mb) state)) in
      match r with
      | Ok changes => let! p := mailbox_delta account_id folder_id changes seam data_dir p in ret (Some p)
      | Err e =>
          if is_stale_query_state e then
            let! _ := on_mail (clear_jmap_cursor account_id folder_id) in
            full_folder_query fuel account_id folder_id (jm_id mb) seam data_dir 0 p
          else throw (Jmap e)
      end
  end.
Fixpoint sync_mailboxes (fuel : nat) (account_id : string) (seam : JmapSeam T) (mailboxes : list JmapMailbox)
    (data_dir : string) (p : pass) : M (option pass) :=
  match mailboxes with
  | [] => ret (Some p)
  | mb :: rest =>
      let!? p := sync_mailbox fuel account_id seam mb data_dir p in
      sync_mailboxes fuel account_id seam rest data_dir p
  end.

(** ** The pass *)

Fixpoint upsert_mailboxes (account_id : string) (mailboxes : list JmapMailbox) : io mail SyncError unit :=
  match mailboxes with
  | [] => ret tt
  | mb :: rest => let! _ := upsert_jmap_folder account_id mb in upsert_mailboxes account_id rest
  end.
Fixpoint link_parents (account_id : string) (mailboxes : list JmapMailbox) : io mail SyncError unit :=
  match mailboxes with
  | [] => ret tt
  | mb :: rest =>
      let! _ := match jm_parent_id mb with
                | Some parent_id => link_jmap_folder_parent account_id (jm_id mb) parent_id
                | None => ret tt
                end in
      link_parents account_id rest
  end.

(** Steps 4 and 5: the deletions, then the account-level state. *)
Definition finish_pass (account_id : string) (anchor : option string) (p : pass) : io mail SyncError nat :=
  let! deleted := delete_jmap_messages_by_external_ids account_id (plan_deletions (ps_removed p) (ps_refetched p)) in
  let! _ := match anchor, ps_email_state p with
            | Some anchor, Some state => save_jmap_email_state account_id anchor state
            | _, _ => ret tt
            end in
  ret deleted.

(** What comes before the changes: the folders, and where the account-level state lives. *)
Definition prepare_pass (account_id : string) (seam : JmapSeam T) : M (list JmapMailbox * option string) :=
  let! _ := jmap (refresh_if_stale seam) in
  let! mailboxes := jmap (list_mailboxes seam) in
  let! _ := on_mail (upsert_mailboxes account_id mailboxes) in
  let! _ := on_mail (link_parents account_id mailboxes) in
  let! anchor := on_mail (email_state_anchor account_id) in
  ret (mailboxes, anchor).
Definition pass_from (fuel : nat) (account_id : string) (seam : JmapSeam T) (mailboxes : list JmapMailbox)
    (anchor : option string) (data_dir : string) : M (option SyncResponse) :=
  let! p := account_changes account_id seam mailboxes anchor data_dir (mkPass 0 0 ∅ [] None) in
  let!? p := sync_mailboxes fuel account_id seam mailboxes data_dir p in
  let! deleted := on_mail (finish_pass account_id anchor p) in
  ret (Some (mkResponse account_id "completed" (length mailboxes) (ps_new p) (ps_updated p) deleted)).
Definition pass_body (fuel : nat) (account_id : string) (seam : JmapSeam T) (data_dir : string)
    : M (option SyncResponse) :=
  let! found := prepare_pass account_id seam in
  pass_from fuel account_id seam (fst found) (snd found) data_dir.

Definition run_jmap_sync (fuel : nat) (account_id jmap_base_url email secret auth_type data_dir : string)
    : M (option SyncResponse) :=
  let! seam := map_err Jmap (on_cache (connect_for_account account_id jmap_base_url email secret auth_type)) in
  pass_body fuel account_id seam data_dir.
End JmapLoop.

(** ** The account, with the IMAP fallback *)

Record SyncOutcome := mkOutcome { so_folders_synced : Z; so_messages_synced : Z }.
Definition to_u32 (n : nat) : Z := Z.min (Z.of_nat n) u32_max.
Definition outcome_from_response (r : SyncResponse) : SyncOutcome :=
  mkOutcome (to_u32 (rs_folders_synced r)) (to_u32 (rs_messages_synced r)).

Section Account.
Context {T : Type} `{JmapWire T} `{ImapSession T} `{MimeLib} `{UrlLib} `{UrlJoin} `{JmapTime} `{StoreLib}
  `{JsonLib} `{BlobLib} `{HashOrder} `{CryptoLib} `{JobLib}.
Local Abbreviation world := (jmap_world T).
Local Abbreviation M := (io world SyncError).

Definition open_credential {E} (invalid crypto : string -> E) (credential_json dek : string) : result E string :=
  match cred_of_json credential_json with
  | None => Err (invalid "invalid credential blob")
  | Some encrypted =>
      match decrypt dek encrypted with
      | Err e => Err (crypto (crypto_error_text e))
      | Ok plaintext => if utf8_valid plaintext then Ok plaintext else Err (invalid "credential not valid UTF-8")
      end
  end.
Definition decrypt_account_password : string -> string -> result JmapError string := open_credential JmapInvalid JmapCrypto.
Definition imap_decrypt_account_password : string -> string -> result ImapError string :=
  open_credential ImapProtocol ImapCrypto.

Definition load_account_sync_row (user_id account_id : string) : M AccountSyncRow :=
  let! _ := on_mail (mstmt (fun db => (tt, db))) in
  let! row := gets (fun w => List.find (fun r => String.eqb (ac_id r) account_id && String.eqb (ac_user_id r) user_id)
                                (jl_accounts w)) in
  lift (ok_or AccountNotFound (option_map ac_sync row)).

Definition on_imap {A E} (m : io (mail * T) E A) : io world E A :=
  fun w => let '(r, (db, net)) := m (jl_mail w, jl_net w) in
           (r, mkJl db (jl_accounts w) (jl_attachments w) (jl_disk w) (jl_cache w) net).
Definition imap_fallback (account_id dek : string) (row : AccountSyncRow) : M (option SyncResponse) :=
  match imap_decrypt_account_password (sr_credential row) dek with
  | Err _ => fail_credential_decrypt account_id
  | Ok password => let! r := on_imap (run_imap_sync account_id row password false) in ret (Some r)
  end.

(** The in-run retries; the sleeps between them change nothing here. *)
Fixpoint jmap_attempts (more fuel : nat) (account_id base_url secret : string) (row : AccountSyncRow)
    (data_dir : result string string) : M (option SyncResponse) :=
  let! r := attempt (match data_dir with
                     | Ok data_dir => run_jmap_sync fuel account_id base_url (sr_email_address row) secret
                                        (sr_auth_type row) data_dir
                     | Err e => throw (InternalE e)
                     end) in
  match r, more with
  | Err (Jmap j), S more =>
      if is_transient j then jmap_attempts more fuel account_id base_url secret row data_dir else throw (Jmap j)
  | Err e, _ => throw e
  | Ok o, _ => ret o
  end.

Definition evict_on_auth (account_id : string) (e : SyncError) : M unit :=
  when (match e with Jmap j => is_auth j | _ => false end)
    (modify (fun w => mkJl (jl_mail w) (jl_accounts w) (jl_attachments w) (jl_disk w)
                        (evict account_id (jl_cache w)) (jl_net w))).

(** [dek] is the answer of [get_user_dek], [data_dir] that of [plugins::data_dir]. *)
Definition jmap_sync_account (fuel : nat) (user_id account_id : string) (dek : option string)
    (data_dir : result string string) : M (option SyncOutcome) :=
  match dek with
  | None => fail_credential_decrypt account_id
  | Some dek =>
      let! row := load_account_sync_row user_id account_id in
      let!? result :=
        match sr_jmap_base_url row with
        | None => imap_fallback account_id dek row
        | Some base_url =>
            match decrypt_account_password (sr_credential row) dek with
            | Err _ => fail_credential_decrypt account_id
            | Ok secret =>
                let! r := attempt (jmap_attempts (JMAP_TRANSIENT_ATTEMPTS - 1) fuel account_id base_url secret row data_dir) in
                match r with
                | Ok o => ret o
                | Err e =>
                    let! _ := evict_on_auth account_id e in
                    if eq_ignore_ascii_case (sr_auth_type row) "bearer" then throw e
                    else imap_fallback account_id dek row
                end
            end
        end in
      ret (Some (outcome_from_response result))
  end.
End Account.

(** ** Laws of the walk *)

(** What every step but a deletion keeps of a row. *)
Record same_mail (m m' : MessageRow) : Prop := {
  sm_id : m_id m' = m_id m; sm_key : message_key m' = message_key m; sm_deleted : m_deleted m' = m_deleted m;
  sm_labels : m_labels m' = m_labels m; sm_snoozed : m_snoozed_until m' = m_snoozed_until m;
  sm_text : m_body_text m' = m_body_text m; sm_html : m_body_html m' = m_body_html m }.
#[export] Instance same_mail_preorder : PreOrder same_mail.
Proof. split; [by split|]. intros x y z [] []. split; congruence. Qed.
Lemma flags_same flags stamp m : same_mail m (set_flags flags stamp m).
Proof. by split. Qed.
Lemma has_attachments_same stamp m : same_mail m (set_has_attachments stamp m).
Proof. by split. Qed.
Lemma refresh_same `{JsonLib} e f stamp m : same_mail m (jmap_refresh e f stamp m).
Proof. by split. Qed.

(** A relation on the tables, seen on the world. *)
Definition lifted {T} `{JmapWire T} (R : mail -> mail -> Prop) (w w' : jmap_world T) : Prop := R (jl_mail w) (jl_mail w').
#[export] Instance lifted_preorder {T} `{JmapWire T} R `{!PreOrder R} : PreOrder (lifted R).
Proof. split; [intros w; unfold lifted; reflexivity|]. intros x y z Hxy Hyz. unfold lifted in *. by etrans. Qed.

Section Touch.
Context {T : Type} `{JmapWire T} `{UrlLib} `{UrlJoin} `{JmapTime} `{StoreLib} `{JsonLib} `{BlobLib} `{HashOrder}.
Context (R : mail -> mail -> Prop) `{!PreOrder R}.
Context (R_read : forall A (g : mail -> A), preserves R (mstmt (fun db => (g db, db)))).
Context (R_uuid : preserves R (new_uuid_text (E := SyncError))).
Context (R_touch : forall id (g : mail -> MessageRow -> MessageRow), (forall db m, same_mail m (g db m)) ->
  preserves R (mstmt (fun db => (tt, set_messages (update_messages (message_by_id id) (g db) (ml_messages db)) db)))).
Local Abbreviation walks m := (preserves (lifted R) m).

Lemma lift_mail {A E} (m : io mail E A) : preserves R m -> walks (on_mail (T := T) m).
Proof using Type. intros Hm w r w' Hr. unfold on_mail in Hr. destruct (m (jl_mail w)) as [x db] eqn:Hx. injection Hr as _ <-. by apply (Hm _ _ _ Hx). Qed.
Lemma lift_net {A E} (m : io T E A) : walks (on_net m).
Proof using PreOrder0. intros w r w' Hr. unfold on_net in Hr. destruct (m (jl_net w)). injection Hr as _ <-. unfold lifted. reflexivity. Qed.
Lemma lift_disk {A E} (m : io disk E A) : walks (on_disk (T := T) m).
Proof using PreOrder0. intros w r w' Hr. unfold on_disk in Hr. destruct (m (jl_disk w)). injection Hr as _ <-. unfold lifted. reflexivity. Qed.
Lemma lift_jmap {A} (m : io T JmapError A) : walks (jmap m).
Proof using PreOrder0. apply pres_map_err, lift_net. Qed.
Lemma lift_tables f : walks (on_tables (T := T) f).
Proof using PreOrder0 R_read.
  unfold on_tables. apply pres_bind; [apply _|apply lift_mail, R_read|]. intros _ w r w' Hr.
  unfold modify in Hr. destruct (f _). injection Hr as _ <-. unfold lifted. reflexivity.
Qed.
Hint Resolve lift_mail lift_net lift_disk lift_jmap lift_tables : preserve.

Lemma keep_mark id reason : preserves R (mark_message_fetch_error id reason).
Proof using All. unfold mark_message_fetch_error. apply pres_bind; [apply _|apply R_read|]. intros old. apply (R_touch id (fun db => set_flags _ _)). intros. apply flags_same. Qed.
Hint Resolve keep_mark : preserve.
Lemma keep_insert dir a id atts : walks (insert_attachments (T := T) dir a id atts).
Proof using All. induction atts as [|x atts IH]; cbn [insert_attachments]; preserve. Qed.
Lemma keep_persist_attachments dir a id atts : walks (persist_attachments (T := T) dir a id atts).
Proof using All.
  unfold persist_attachments. destruct atts as [|x atts]; [preserve|]. apply pres_bind; [apply _|preserve|intros _].
  apply pres_bind; [apply _|apply keep_insert|intros _]. apply lift_mail.
  apply (R_touch id (fun db => set_has_attachments _)). intros. apply has_attachments_same.
Qed.
Hint Resolve keep_persist_attachments : preserve.
Lemma keep_collect id (seam : JmapSeam T) metas : forall out, walks (collect_attachments id seam metas out).
Proof using All. induction metas as [|x metas IH]; intros out; cbn [collect_attachments]; preserve. Qed.
Hint Resolve keep_collect : preserve.
Lemma keep_new a pairs (seam : JmapSeam T) dir : walks (download_new a pairs seam dir).
Proof using All.
  induction pairs as [|[e [id was]] pairs IH]; cbn [download_new]; [preserve|]. unfold download_attachments. preserve.
Qed.
End Touch.

Section Walk.
Context {T : Type} `{JmapWire T} `{UrlLib} `{UrlJoin} `{JmapTime} `{StoreLib} `{JsonLib} `{BlobLib} `{HashOrder}.
Context (a : string) (R : mail -> mail -> Prop) `{!PreOrder R}.
Context (R_read : forall A (g : mail -> A), preserves R (mstmt (fun db => (g db, db)))).
Context (R_uuid : preserves R (new_uuid_text (E := SyncError))).
Context (R_touch : forall id (g : mail -> MessageRow -> MessageRow), (forall db m, same_mail m (g db m)) ->
  preserves R (mstmt (fun db => (tt, set_messages (update_messages (message_by_id id) (g db) (ml_messages db)) db)))).
Context (R_page : forall f es q, preserves R (persist_jmap_folder_batch a f es q)).
Context (R_clear : forall f, preserves R (clear_jmap_cursor a f)).
Local Abbreviation walks m := (preserves (lifted R) m).

Hint Resolve lift_mail lift_net lift_disk lift_jmap lift_tables keep_new R_read R_page R_clear : preserve.

Lemma walk_page f es q (seam : JmapSeam T) dir : walks (persist_and_download a f es q seam dir).
Proof using All. unfold persist_and_download. preserve. Qed.
Hint Resolve walk_page : preserve.
Lemma walk_query fuel f mb (seam : JmapSeam T) dir : forall pos p, walks (full_folder_query fuel a f mb seam dir pos p).
Proof using All. induction fuel as [|fuel IH]; intros pos p; cbn [full_folder_query]; preserve. Qed.
Hint Resolve walk_query : preserve.
Lemma walk_seed (seam : JmapSeam T) mbs p : walks (seed_email_state seam mbs p).
Proof using All. unfold seed_email_state. preserve. Qed.
Hint Resolve walk_seed : preserve.
Lemma walk_first ids : preserves R (first_folder a ids).
Proof using All. induction ids as [|i ids IH]; cbn [first_folder]; [preserve|]. apply pres_bind; [apply _|apply R_read|]. intros o. preserve. Qed.
Hint Resolve walk_first : preserve.
Lemma walk_group es : forall g, preserves R (group_emails a es g).
Proof using All.
  induction es as [|e es IH]; intros g; cbn [group_emails]; [preserve|]. apply pres_bind; [apply _| |intros o; preserve].
  unfold resolve_jmap_email_folder. preserve.
Qed.
Hint Resolve walk_group : preserve.
Lemma walk_groups fs g (seam : JmapSeam T) dir : forall p, walks (persist_groups a fs g seam dir p).
Proof using All. induction fs as [|f fs IH]; intros p; cbn [persist_groups]; preserve. Qed.
Hint Resolve walk_groups : preserve.
Lemma walk_refetch (seam : JmapSeam T) pieces dir : forall p, walks (refetch_chunks a seam pieces dir p).
Proof using All. induction pieces as [|l pieces IH]; intros p; cbn [refetch_chunks]; preserve. Qed.
Hint Resolve walk_refetch : preserve.
Lemma walk_changes (seam : JmapSeam T) mbs anchor dir p : (forall f, preserves R (clear_jmap_email_state a f)) ->
  walks (account_changes a seam mbs anchor dir p).
Proof using All.
  intros R_forget. unfold account_changes, refetch_updated_emails, load_jmap_email_state, load_cursor_value.
  destruct anchor as [f|]; [|preserve]. apply pres_bind; [apply _|apply lift_mail, R_read|]. intros o. preserve.
Qed.
(** A server that remembers the states it gave out: nothing has to be forgotten. *)
Lemma walk_known (seam : JmapSeam T) mbs anchor dir p :
  (forall s net e net', email_changes seam s net = (Err e, net') -> is_stale_query_state e = false) ->
  walks (account_changes a seam mbs anchor dir p).
Proof using All.
  intros Hknown. unfold account_changes, refetch_updated_emails, load_jmap_email_state, load_cursor_value.
  destruct anchor as [f|]; [|preserve]. apply pres_bind; [apply _|apply lift_mail, R_read|]. intros [s|]; [|preserve].
  intros w r w' Hr. unfold bind, attempt, on_net in Hr. destruct (email_changes seam s (jl_net w)) as [y net] eqn:Hc.
  destruct y as [c|e]; [by apply walk_refetch in Hr|]. rewrite (Hknown _ _ _ _ Hc) in Hr. injection Hr as _ <-. unfold lifted. reflexivity.
Qed.
Lemma walk_added f pieces q (seam : JmapSeam T) dir : forall p, walks (added_chunks a f pieces q seam dir p).
Proof using All. induction pieces as [|l pieces IH]; intros p; cbn [added_chunks]; preserve. Qed.
Hint Resolve walk_added : preserve.
Lemma walk_mailbox fuel (seam : JmapSeam T) mb dir p : walks (sync_mailbox fuel a seam mb dir p).
Proof using All.
  unfold sync_mailbox, get_folder_id, load_jmap_cursor, load_cursor_value, mailbox_delta.
  apply pres_bind; [apply _| |intros f].
  { apply lift_mail. apply pres_bind; [apply _|apply R_read|intros ?]. preserve. }
  apply pres_bind; [apply _|apply lift_mail, R_read|intros o]. preserve.
Qed.
Hint Resolve walk_mailbox : preserve.
Lemma walk_mailboxes fuel (seam : JmapSeam T) mbs dir : forall p, walks (sync_mailboxes fuel a seam mbs dir p).
Proof using All. induction mbs as [|mb mbs IH]; intros p; cbn [sync_mailboxes]; preserve. Qed.
End Walk.

(** *** Rows stay *)

Definition rows_stay (db db' : mail) : Prop := forall a e m, row_at db a e = Some m ->
  exists m', row_at db' a e = Some m' /\ same_mail m m'.
Definition mail_stays `{StoreLib} (db db' : mail) : Prop := mail_ok db -> mail_ok db' /\ rows_stay db db'.
Definition holds (db : mail) (a e : string) : Prop := is_Some (row_at db a e).

#[export] Instance rows_stay_preorder : PreOrder rows_stay.
Proof.
  split; [intros db a e m Hm; by exists m|]. intros x y z Hxy Hyz a e m Hm.
  apply Hxy in Hm as (m1 & Hm1 & Hs). apply Hyz in Hm1 as (m2 & Hm2 & Hs'). exists m2. split; [done|by etrans].
Qed.
#[export] Instance mail_stays_preorder `{StoreLib} : PreOrder mail_stays.
Proof.
  split; [by intros db Hok|]. intros x y z Hxy Hyz Hx. destruct (Hxy Hx) as [Hy Hr]. destruct (Hyz Hy) as [Hz Hr'].
  split; [done|by etrans].
Qed.
Lemma same_rows_stay (db db' : mail) : ml_messages db' = ml_messages db -> rows_stay db db'.
Proof. intros He a e m Hm. exists m. unfold row_at in *. by rewrite He. Qed.
Lemma stay_holds db db' a e : rows_stay db db' -> holds db a e -> holds db' a e.
Proof. intros Hs [m Hm]. apply Hs in Hm as (m' & Hm' & _). by exists m'. Qed.

Section Rows.
Context `{StoreLaws} `{JsonLib}.

Lemma stay_same {A} (m : io mail SyncError A) : preserves keeps_ok m ->
  (forall db r db', m db = (r, db') -> ml_messages db' = ml_messages db) -> preserves mail_stays m.
Proof. intros Hk Hm db r db' Hr Hok. split; [by apply (Hk _ _ _ Hr)|]. by eapply same_rows_stay, Hm. Qed.
Lemma stay_read A (g : mail -> A) : preserves mail_stays (mstmt (fun db => (g db, db))).
Proof.
  apply stay_same; [apply pres_read|]. intros db [x|e] db'; [by intros (w1 & n & [= _ <-] & ->)%mstmt_Ok|].
  by intros ->%mstmt_Err.
Qed.
Lemma stay_uuid : preserves mail_stays (new_uuid_text (E := SyncError)).
Proof. apply stay_same; [apply pres_uuid|]. by intros db r db' [= _ <-]. Qed.
Lemma stay_clear a f t : preserves mail_stays (clear_state_cursor a f t).
Proof.
  apply stay_same; [apply pres_clear_cursor|]. intros db [x|e] db'; [by intros (w1 & n & [= _ <-] & ->)%mstmt_Ok|].
  by intros ->%mstmt_Err.
Qed.
Lemma stay_touch id (g : mail -> MessageRow -> MessageRow) : (forall db m, same_mail m (g db m)) ->
  preserves mail_stays (mstmt (fun db => (tt, set_messages (update_messages (message_by_id id) (g db) (ml_messages db)) db))).
Proof.
  intros Hg db r db' Hr Hok. split.
  { revert Hok. eapply (pres_update_stmt (message_by_id id) g); [| |exact Hr]; intros w m; apply Hg. }
  destruct r as [[]|e]; [|apply mstmt_Err in Hr as ->; reflexivity].
  apply mstmt_Ok in Hr as (w1 & n & [= <-] & ->). intros a e m Hm. unfold row_at in *. cbn. unfold update_messages.
  rewrite find_map_keeps.
  - rewrite Hm. cbn. destruct (message_by_id id m); eauto. exists m. split; [done|reflexivity].
  - intros x. apply eq_true_iff_eq. rewrite !message_is_spec. destruct (message_by_id id x); [|done].
    by destruct (Hg db x) as [_ -> _ _ _ _ _].
Qed.

(** One message, a page of them, and a page in its transaction. *)
Lemma upsert_jmap_stays a f e w x w' : mail_ok w -> upsert_jmap_message_in_tx a f e w = (Ok x, w') ->
  mail_ok w' /\ rows_stay w w' /\ holds w' a (je_id e).
Proof.
  intros Hok Hu. destruct x as [was id].
  apply upsert_jmap_at in Hu as (Hok' & _ & _ & (row & Hrow & _ & Hst) & Hout); [|done]. split; [done|].
  split; [|by exists row]. intros a' e' m Hm. destruct (decide ((a', e') = (a, je_id e))) as [[= -> ->]|Hne].
  - rewrite Hm in Hst. cbn in Hst. exists row. split; [done|]. subst row. apply refresh_same.
  - exists m. rewrite Hout by done. split; [done|reflexivity].
Qed.
Lemma upsert_all_stays a f es : forall n u acc w k w', mail_ok w -> upsert_jmap_all a f es n u acc w = (Ok k, w') ->
  mail_ok w' /\ rows_stay w w' /\ forall e, e ∈ es -> holds w' a (je_id e).
Proof.
  induction es as [|e es IH]; intros n u acc w k w' Hok Hall.
  { injection Hall as <- <-. split; [done|]. split; [reflexivity|]. by intros e ?%not_elem_of_nil. }
  cbn [upsert_jmap_all] in Hall. apply bind_Ok in Hall as ([was id] & w1 & Hm & Hall).
  apply upsert_jmap_stays in Hm as (Hok1 & Hs1 & Hh1); [|done].
  assert (Hr : exists n' u', upsert_jmap_all a f es n' u' (acc ++ [(id, was)]) w1 = (Ok k, w'))
    by (destruct was; by eexists _, _).
  destruct Hr as (n' & u' & Hr). apply IH in Hr as (Hok2 & Hs2 & Hh2); [|done]. split; [done|].
  split; [by etrans|]. intros e' [->|He']%elem_of_cons; [by eapply stay_holds|by apply Hh2].
Qed.
Lemma page_run a f es q w r w' : mail_ok w -> persist_jmap_folder_batch a f es q w = (r, w') ->
  mail_ok w' /\ rows_stay w w' /\
  match r with
  | Ok _ => (forall e, e ∈ es -> holds w' a (je_id e)) /\
      forall f' t, cursor_at w' a f' t =
        if decide ((f', t) = (f, "state_token")) then match q with Some qs => Some qs | None => cursor_at w a f' t end
        else cursor_at w a f' t
  | Err _ => ml_cursors w' = ml_cursors w
  end.
Proof.
  intros Hok Hp. split; [by apply (pres_persist_jmap a f es q _ _ _ Hp)|]. destruct r as [k|e].
  2: { apply transaction_Err in Hp as (Hm & Hc & _). split; [by apply same_rows_stay|done]. }
  apply transaction_Ok in Hp as (n0 & n1 & w1 & Hp & ->). apply (set_fuse_ok n0) in Hok.
  apply bind_Ok in Hp as (k' & wa & Hall & Hp).
  assert (Hca : ml_cursors wa = ml_cursors w).
  { assert (Hpc : forall n u acc, preserves same_cursors (upsert_jmap_all a f es n u acc)).
    { clear. induction es as [|e es IH]; intros n u acc; cbn [upsert_jmap_all]; [apply pres_ret, _|].
      apply pres_bind; [apply _| |intros [[] id]; apply IH]. unfold upsert_jmap_message_in_tx, find_message_id_in_tx, insert_message.
      apply pres_bind; [apply _|by apply cursors_stmt|intros [id|]].
      - apply pres_bind; [apply _|by apply cursors_stmt|intros _; apply pres_ret, _].
      - apply pres_bind; [apply _|by intros db r db' [= _ <-]|intros id]. apply pres_bind; [apply _|apply pres_gets, _|intros s].
        apply pres_bind; [apply _| |intros _].
        + apply pres_bind; [apply _| |intros []; preserve]. apply cursors_stmt. intros db. by destruct (existsb _ _).
        + apply pres_bind; [apply _|by apply cursors_stmt|intros o]. preserve. }
    by apply Hpc in Hall. }
  apply upsert_all_stays in Hall as (_ & Hs & Hh); [|done].
  apply bind_Ok in Hp as ([] & wb & Hcur & Hp). apply bind_Ok in Hp as ([] & wc & Hcnt & [= <- <-]).
  apply counts_Ok in Hcnt as (Hmc & Hcc & _).
  assert (Hb : ml_messages wb = ml_messages wa /\ forall f' t, cursor_at wb a f' t =
        if decide ((f', t) = (f, "state_token")) then match q with Some qs => Some qs | None => cursor_at w a f' t end
        else cursor_at w a f' t).
  { assert (Hsame : forall f' t, cursor_at wa a f' t = cursor_at w a f' t) by (intros; unfold cursor_at; by rewrite Hca).
    destruct q as [qs|].
    - apply write_cursor_Ok in Hcur as (Hm & _ & _ & Hc). split; [done|]. intros f' t. rewrite Hc, Hsame.
      by repeat case_decide; simplify_eq.
    - injection Hcur as <-. split; [done|]. intros f' t. rewrite Hsame. by case_decide. }
  destruct Hb as [Hmb Hcb]. split; [|split].
  - etrans; [exact Hs|]. apply same_rows_stay. cbn. congruence.
  - intros e He. destruct (Hh e He) as [m Hm]. exists m. unfold row_at in *. cbn. by rewrite Hmc, Hmb.
  - intros f' t. rewrite <- Hcb. unfold cursor_at. cbn. by rewrite Hcc.
Qed.
Lemma stay_page a f es q : preserves mail_stays (persist_jmap_folder_batch a f es q).
Proof. intros db r db' Hr Hok. destruct (page_run _ _ _ _ _ _ _ Hok Hr) as (? & ? & _). done. Qed.

(** A deletion leaves every other row as it was. *)
Definition row_same (a e : string) (db db' : mail) : Prop := row_at db' a e = row_at db a e.
#[local] Instance row_same_preorder a e : PreOrder (row_same a e).
Proof. split; [done|]. intros x y z. unfold row_same. congruence. Qed.
Lemma row_same_stmt a e {A} (g : mail -> A * mail) : (forall db, row_same a e db (snd (g db))) ->
  preserves (row_same a e) (mstmt g).
Proof.
  intros Hg db [x|err] db' Hr; [|by apply mstmt_Err in Hr as ->]. apply mstmt_Ok in Hr as (w1 & n & Hw & ->).
  specialize (Hg db). by rewrite Hw in Hg.
Qed.
Lemma filter_row_same a e ids db : e ∉ ids ->
  row_same a e db (set_messages (List.filter (fun m => negb (external_in a ids m)) (ml_messages db)) db).
Proof.
  intros He. unfold row_same, row_at. cbn. induction (ml_messages db) as [|m l IH]; [done|]. cbn.
  destruct (message_is a e m) eqn:Hm.
  - unfold external_in. apply andb_true_iff in Hm as [Ha Hx%bool_decide_eq_true]. rewrite Ha, Hx. cbn.
    rewrite bool_decide_false by done. cbn. unfold message_is. rewrite Ha, Hx. by rewrite bool_decide_true.
  - destruct (external_in a ids m); cbn; [done|]. by rewrite Hm.
Qed.
Lemma delete_row_same a e ids : e ∉ ids -> preserves (row_same a e) (delete_jmap_messages_by_external_ids a ids).
Proof.
  intros He. unfold delete_jmap_messages_by_external_ids. destruct ids as [|i ids]; [apply pres_ret, _|].
  assert (Hc : e ∉ concat (chunks IDS_CHUNK (i :: ids))) by (rewrite chunks_concat; [done|unfold IDS_CHUNK; lia]).
  revert Hc. generalize (chunks IDS_CHUNK (i :: ids)). intros pieces Hc. apply pres_bind; [apply _| |intros [fs k]].
  - clear He. generalize (∅ : gset string), 0%nat. induction pieces as [|l pieces IH]; intros fs n; cbn [delete_chunks]; [apply pres_ret, _|].
    cbn in Hc. apply not_elem_of_app in Hc as [Hl Hc]. apply pres_bind; [apply _|by apply row_same_stmt|intros t].
    apply pres_bind; [apply _| |intros g; by apply IH]. apply row_same_stmt. intros db. by apply filter_row_same.
  - apply pres_bind; [apply _| |intros _; apply pres_ret, _]. generalize (elements fs). intros l.
    induction l as [|f l IH]; cbn [refresh_counts]; [apply pres_ret, _|]. apply pres_bind; [apply _| |intros _; apply IH].
    intros db [[]|err] db' Hr.
    + apply transaction_Ok in Hr as (n & n' & w1 & Hr & ->). apply counts_Ok in Hr as (Hm & _).
      unfold row_same, row_at. cbn. by rewrite Hm.
    + apply transaction_Err in Hr as (Hm & _). unfold row_same, row_at. by rewrite Hm.
Qed.
End Rows.

(** ** A mailbox is never stranded *)

Section Mailbox.
Context {T : Type} `{JmapWire T} `{UrlLib} `{UrlJoin} `{JmapTime} `{StoreLaws} `{JsonLib} `{BlobLib} `{HashOrder}.
Context (seam : JmapSeam T) (a f mb cur dir : string) (L : list string) (listing : string -> list string).

(** The server, on the wire: the mailbox [mb] holds [L] while it is read, and its query state is [cur]; [listing]
    is what it held at a state.  [Email/query] answers the slice of the listing it is asked for - all of it: a server that
    clamps the limit is not one -, [Email/get] answers the messages there are, and what is there now was there then or
    is reported as added. *)
Definition slice (pos : Z) : list string := take QUERY_PAGE (drop (Z.to_nat pos) L).
Record wire_serves : Prop := {
  ws_query : forall pos net q net', 0 <= pos -> query_email (sm_client seam) mb pos QUERY_PAGE net = (Ok q, net') -> q = (slice pos, cur);
  ws_batch : forall pos net q g net' ids st es st', 0 <= pos -> query_and_get (sm_client seam) mb pos QUERY_PAGE net = (Ok [q; g], net') ->
    unwrap_query_email q = Ok (ids, st) -> unwrap_get_email g = Ok (es, st') ->
    ids = slice pos /\ st = cur /\ forall x, x ∈ ids -> Some x ∈ map we_id es;
  ws_get : forall ids net es st net', get_email (sm_client seam) ids net = (Ok (es, st), net') ->
    forall x, x ∈ ids -> x ∈ L -> Some x ∈ map we_id es;
  ws_changes : forall s net c net', query_email_changes_req (sm_client seam) mb s CHANGES_PAGE_SIZE net = (Ok c, net') ->
    qr_new_query_state c = cur /\ forall x, x ∈ L -> x ∈ listing s \/ x ∈ qr_added c;
  ws_current : listing cur = L;
  ws_small : Z.of_nat (length L) <= i32_max;
}.
(** What the code makes of that. *)
Record serves : Prop := {
  sv_page : forall pos net page net', (pos <= length L)%nat -> query_emails_page seam mb pos QUERY_PAGE net = (Ok page, net') ->
    pg_ids page = take QUERY_PAGE (drop pos L) /\ pg_query_state page = Some cur /\
    forall x, x ∈ pg_ids page -> x ∈ map je_id (pg_emails page);
  sv_get : forall ids net r net', get_emails seam ids net = (Ok r, net') ->
    forall x, x ∈ ids -> x ∈ L -> x ∈ map je_id (fst r);
  sv_changes : forall s net c net', query_email_changes seam mb s net = (Ok c, net') ->
    eq_new_query_state c = Some cur /\ forall x, x ∈ L -> x ∈ listing s \/ x ∈ eq_added_ids c;
  sv_current : listing cur = L;
}.

Lemma mapped_ids es x : Some x ∈ map we_id es -> x ∈ map je_id (omap map_email es).
Proof using Type.
  induction es as [|e es IH]; [by intros ?%not_elem_of_nil|]. cbn [map]. intros [Hx|Hx]%elem_of_cons; cbn [omap list_omap].
  - unfold map_email at 1. rewrite <-Hx. by left.
  - destruct (map_email e); [right|]; by apply IH.
Qed.
Lemma got_ids ids net r net' : wire_serves -> get_emails seam ids net = (Ok r, net') -> forall x, x ∈ ids -> x ∈ L -> x ∈ map je_id (fst r).
Proof using Type.
  intros Hw Hr x Hx HL. unfold get_emails in Hr. destruct ids as [|i ids]; [by apply not_elem_of_nil in Hx|].
  apply bind_Ok in Hr as ([es st] & n & Hg & [= <- _]). apply map_err_inv in Hg as ([y|] & Hg & Hy); [|done]. injection Hy as <-.
  apply mapped_ids. by eapply (ws_get Hw).
Qed.
Lemma wire_serves_code : wire_serves -> serves.
Proof using Type.
  intros Hw. split; [| | |apply (ws_current Hw)].
  - intros pos net page net' Hpos Hp. assert (Hq : query_position pos = Z.of_nat pos).
    { unfold query_position. pose proof (ws_small Hw). destruct (Z.leb_spec (Z.of_nat pos) i32_max); [done|lia]. }
    unfold query_emails_page in Hp. rewrite Hq in Hp. apply bind_Ok in Hp as (calls & n & _ & Hp).
    assert (Hs : slice (Z.of_nat pos) = take QUERY_PAGE (drop pos L)) by (unfold slice; by rewrite Nat2Z.id).
    destruct (calls <? 2)%nat.
    + apply bind_Ok in Hp as (q & n1 & Hq1 & Hp). apply map_err_inv in Hq1 as ([y|] & Hq1 & Hy); [|done]. injection Hy as <-.
      apply (ws_query Hw) in Hq1 as ->; [|lia]. apply bind_Ok in Hp as (r & n2 & Hg & [= <- _]). cbn [pg_ids pg_query_state pg_emails fst snd] in *.
      rewrite Hs in *. split; [done|]. split; [done|]. intros x Hx. eapply got_ids; [done|exact Hg|done|].
      apply elem_of_take in Hx as (i & Hx & _). rewrite lookup_drop in Hx. by eapply list_elem_of_lookup_2.
    + apply bind_Ok in Hp as (l & n1 & Hb & Hp). apply map_err_inv in Hb as ([y|] & Hb & Hy); [|done]. injection Hy as <-.
      destruct l as [|q [|g [|]]]; try done. apply bind_Ok in Hp as ([ids st] & n2 & Hu & Hp). apply bind_Ok in Hp as ([es st'] & n3 & Hv & [= <- _]).
      unfold lift in Hu, Hv. injection Hu as Hu _. injection Hv as Hv _.
      destruct (unwrap_query_email q) as [[]|] eqn:Hqq; [|done]. destruct (unwrap_get_email g) as [[]|] eqn:Hgg; [|done].
      injection Hu as -> ->. injection Hv as -> ->. destruct (ws_batch Hw _ _ _ _ _ _ _ _ _ (Nat2Z.is_nonneg pos) Hb Hqq Hgg) as (-> & -> & Hin). cbn [pg_ids pg_query_state pg_emails fst snd].
      rewrite Hs in *. split; [done|]. split; [done|]. intros x Hx. by apply mapped_ids, Hin.
  - intros ids net r net' Hg x Hx HL. by eapply got_ids.
  - intros s net c net' Hr. unfold query_email_changes in Hr. apply bind_Ok in Hr as (y & n & Hc & [= <- _]).
    apply map_err_inv in Hc as ([z|] & Hc & Hy); [|done]. injection Hy as <-. apply (ws_changes Hw) in Hc as [<- Hin]. done.
Qed.

Local Abbreviation state_of db := (cursor_at db a f "state_token").
Definition covered (db : mail) : Prop := forall s, state_of db = Some s -> forall x, x ∈ listing s -> holds db a x.

Lemma on_mail_run {A E} (m : io mail E A) (w : jmap_world T) r w' : on_mail m w = (r, w') ->
  m (jl_mail w) = (r, jl_mail w') /\ jl_net w' = jl_net w.
Proof using Type. unfold on_mail. destruct (m (jl_mail w)) as [x db]. by intros [= <- <-]. Qed.
Lemma on_net_run {A E} (m : io T E A) (w : jmap_world T) r w' : on_net m w = (r, w') ->
  m (jl_net w) = (r, jl_net w') /\ jl_mail w' = jl_mail w.
Proof using Type. unfold on_net. destruct (m (jl_net w)) as [x net]. by intros [= <- <-]. Qed.
Lemma jmap_run {A} (m : io T JmapError A) (w : jmap_world T) r w' : jmap m w = (r, w') ->
  jl_mail w' = jl_mail w /\ exists x, m (jl_net w) = (x, jl_net w') /\ r = rmap_err Jmap x.
Proof using Type.
  unfold jmap, map_err. destruct (on_net m w) as [x w1] eqn:Hr. intros [= <- <-]. apply on_net_run in Hr as [Hr ?]. eauto.
Qed.

Lemma cursors_touch id (g : mail -> MessageRow -> MessageRow) : (forall db m, same_mail m (g db m)) ->
  preserves same_cursors (mstmt (fun db => (tt, set_messages (update_messages (message_by_id id) (g db) (ml_messages db)) db))).
Proof using Type. intros _. by apply cursors_stmt. Qed.
Lemma new_run pairs (w : jmap_world T) r w' : mail_ok (jl_mail w) -> download_new a pairs seam dir w = (r, w') ->
  mail_ok (jl_mail w') /\ rows_stay (jl_mail w) (jl_mail w') /\ ml_cursors (jl_mail w') = ml_cursors (jl_mail w).
Proof using All.
  intros Hok Hr.
  assert (Hs : lifted mail_stays w w').
  { eapply (keep_new mail_stays); [apply stay_read|apply stay_uuid|apply stay_touch|exact Hr]. }
  assert (Hc : lifted same_cursors w w').
  { eapply (keep_new same_cursors); [| |apply cursors_touch|exact Hr].
    - intros A g. by apply cursors_stmt.
    - by intros db x db' [= _ <-]. }
  by destruct (Hs Hok).
Qed.

Lemma persist_run_jmap es q (w : jmap_world T) r w' : mail_ok (jl_mail w) ->
  persist_and_download a f es q seam dir w = (r, w') ->
  mail_ok (jl_mail w') /\ rows_stay (jl_mail w) (jl_mail w') /\
  ((is_ok r = false /\ state_of (jl_mail w') = state_of (jl_mail w)) \/
   (state_of (jl_mail w') = match q with Some qs => Some qs | None => state_of (jl_mail w) end /\
    forall e, e ∈ es -> holds (jl_mail w') a (je_id e))).
Proof using All.
  intros Hok Hr. unfold persist_and_download in Hr.
  apply bind_inv in Hr as [(e & Hp & ->)|([counts persisted] & w1 & Hp & Hr)]; apply on_mail_run in Hp as [Hp _].
  - apply page_run in Hp as (? & ? & Hc); [|done]. split; [done|]. split; [done|]. left. split; [done|].
    unfold cursor_at. by rewrite Hc.
  - apply page_run in Hp as (Hok1 & Hs1 & Hh & Hc); [|done].
    assert (Hn : exists x, download_new a (combine es persisted) seam dir w1 = (x, w')).
    { apply bind_inv in Hr as [(e & Hn & _)|([] & w2 & Hn & [= _ <-])]; eauto. }
    destruct Hn as [x Hn]. apply new_run in Hn as (Hok2 & Hs2 & Hc2); [|done].
    split; [done|]. split; [by etrans|]. right. unfold cursor_at at 1. rewrite Hc2. split.
    + specialize (Hc f "state_token"). by rewrite decide_True in Hc.
    + intros e He. eapply stay_holds; [exact Hs2|by apply Hh].
Qed.

(** How far a read of the mailbox got. *)
Definition landed (w : jmap_world T) : Prop := state_of (jl_mail w) = Some cur /\ forall x, x ∈ L -> holds (jl_mail w) a x.
Definition stands (w w' : jmap_world T) : Prop := state_of (jl_mail w') = state_of (jl_mail w).

(** One page at [pos], stored or not. *)
Lemma page_lands pos page (w w2 : jmap_world T) : (pos <= length L)%nat ->
  (forall x, x ∈ take pos L -> holds (jl_mail w2) a x) ->
  pg_ids page = take QUERY_PAGE (drop pos L) -> pg_query_state page = Some cur ->
  (forall x, x ∈ pg_ids page -> x ∈ map je_id (pg_emails page)) ->
  let last := (length (pg_ids page) <? QUERY_PAGE)%nat in
  state_of (jl_mail w2) = match (if last then pg_query_state page else None) with
                          | Some qs => Some qs | None => state_of (jl_mail w) end ->
  (forall e, e ∈ pg_emails page -> holds (jl_mail w2) a (je_id e)) ->
  if last then landed w2
  else stands w w2 /\ (pos + QUERY_PAGE <= length L)%nat /\
       forall x, x ∈ take (pos + QUERY_PAGE) L -> holds (jl_mail w2) a x.
Proof using Type.
  intros Hpos Hh Hids Hst Hem last Hs He.
  assert (Hnew : forall x, x ∈ pg_ids page -> holds (jl_mail w2) a x).
  { intros x Hx%Hem. apply list_elem_of_fmap in Hx as (e & -> & Hin). by apply He. }
  assert (Htake : take (pos + QUERY_PAGE) L = (take pos L ++ pg_ids page)%list).
  { rewrite Hids. by rewrite take_take_drop. }
  assert (Hhold : forall x, x ∈ take (pos + QUERY_PAGE) L -> holds (jl_mail w2) a x).
  { intros x. rewrite Htake, elem_of_app. intros [?|?]; auto. }
  unfold last in *. destruct (Nat.ltb_spec (length (pg_ids page)) QUERY_PAGE) as [Hlt|Hge].
  - split; [by rewrite Hs, Hst|]. intros x Hx. apply Hhold. rewrite take_ge; [done|].
    rewrite Hids, length_take, length_drop in Hlt. lia.
  - split; [done|]. split; [|done]. rewrite Hids, length_take, length_drop in Hge. lia.
Qed.

Lemma query_run fuel : forall pos p (w : jmap_world T) r w', serves -> mail_ok (jl_mail w) -> (pos <= length L)%nat ->
  (forall x, x ∈ take pos L -> holds (jl_mail w) a x) ->
  full_folder_query fuel a f mb seam dir pos p w = (r, w') ->
  mail_ok (jl_mail w') /\ rows_stay (jl_mail w) (jl_mail w') /\ (stands w w' \/ landed w') /\
  (forall p', r = Ok (Some p') -> landed w') /\ ((length L < pos + fuel * QUERY_PAGE)%nat -> r <> Ok None).
Proof using All.
  induction fuel as [|fuel IH]; intros pos p w r w' Hsv Hok Hpos Hh Hr; cbn [full_folder_query] in Hr.
  { injection Hr as <- <-. split; [done|]. split; [reflexivity|]. split; [by left|]. split; [done|]. lia. }
  apply bind_inv in Hr as [(e & Hq & ->)|(page & w1 & Hq & Hr)].
  { apply jmap_run in Hq as [Hm _]. unfold stands. rewrite Hm. split; [done|]. split; [reflexivity|]. by split; [left|]. }
  apply jmap_run in Hq as (Hm1 & [pg|] & Hq & Hx); [|done]. injection Hx as <-.
  apply (sv_page Hsv) in Hq as (Hids & Hst & Hem); [|done]. cbv zeta in Hr.
  unfold stands. rewrite <- Hm1 in *. fold (stands w1 w'). clear Hm1 w.
  apply bind_inv in Hr as [(e & Hp & ->)|(c & w2 & Hp & Hr)];
    apply persist_run_jmap in Hp as (Hok2 & Hs2 & Hc); try done.
  - split; [done|]. split; [done|]. split; [|done]. destruct Hc as [[_ Hc]|[Hc He]]; [by left|].
    assert (Hl := page_lands pos page w1 w' Hpos (fun x Hx => stay_holds _ _ _ _ Hs2 (Hh x Hx)) Hids Hst Hem Hc He).
    destruct (_ <? _)%nat; [by right|left; apply Hl].
  - destruct Hc as [[Hc _]|[Hc He]]; [done|].
    assert (Hl := page_lands pos page w1 w2 Hpos (fun x Hx => stay_holds _ _ _ _ Hs2 (Hh x Hx)) Hids Hst Hem Hc He).
    destruct (_ <? _)%nat.
    + injection Hr as <- <-. split; [done|]. split; [done|]. split; [by right|]. by split.
    + destruct Hl as (Hl & Hpos' & Hh'). apply IH in Hr as (Hok3 & Hs3 & Hsl & Hp3 & Hf); try done.
      split; [done|]. split; [by etrans|]. split; [destruct Hsl as [Hsl|?]; [left; by etrans|by right]|].
      split; [done|]. intros Hlen. apply Hf. lia.
Qed.

Lemma added_run pieces : forall p (w : jmap_world T) r w', serves -> mail_ok (jl_mail w) -> pieces <> [] ->
  added_chunks a f pieces (Some cur) seam dir p w = (r, w') ->
  mail_ok (jl_mail w') /\ rows_stay (jl_mail w) (jl_mail w') /\
  ((is_ok r = false /\ stands w w') \/
   (state_of (jl_mail w') = Some cur /\ forall x, x ∈ concat pieces -> x ∈ L -> holds (jl_mail w') a x)).
Proof using All.
  induction pieces as [|chunk rest IH]; intros p w r w' Hsv Hok Hne Hr; [done|]. clear Hne. cbn [added_chunks] in Hr.
  apply bind_inv in Hr as [(e & Hq & ->)|([es st] & w1 & Hq & Hr)].
  { apply jmap_run in Hq as [Hm _]. unfold stands. rewrite Hm. split; [done|]. split; [reflexivity|]. by left. }
  apply jmap_run in Hq as (Hm1 & [pg|] & Hq & Hx); [|done]. injection Hx as <-.
  pose proof (sv_get Hsv _ _ _ _ Hq) as Hg; clear Hq; rename Hg into Hq. cbv zeta in Hr. cbn [fst snd] in *.
  unfold stands. rewrite <- Hm1 in *. fold (stands w1 w'). clear Hm1 w.
  assert (Hin : forall w2, (forall e, e ∈ es -> holds (jl_mail w2) a (je_id e)) ->
            forall x, x ∈ chunk -> x ∈ L -> holds (jl_mail w2) a x).
  { intros w2 He x Hx HL. specialize (Hq x Hx HL). apply list_elem_of_fmap in Hq as (e & -> & Hin). by apply He. }
  apply bind_inv in Hr as [(e & Hp & ->)|(c & w2 & Hp & Hr)];
    apply persist_run_jmap in Hp as (Hok2 & Hs2 & Hc); try done.
  - split; [done|]. split; [done|]. destruct Hc as [[_ Hc]|[Hc He]]; [by left|].
    destruct rest as [|c rest]; [|by left]. right. split; [done|]. intros x Hx. cbn in Hx. rewrite app_nil_r in Hx.
    by apply Hin.
  - destruct Hc as [[Hc _]|[Hc He]]; [done|]. destruct rest as [|c' rest].
    + cbn [added_chunks] in Hr. injection Hr as <- <-. split; [done|]. split; [done|]. right. split; [done|].
      intros x Hx. cbn in Hx. rewrite app_nil_r in Hx. by apply Hin.
    + apply IH in Hr as (Hok3 & Hs3 & Hx3); try done. split; [done|]. split; [by etrans|].
      destruct Hx3 as [[? Hx3]|[? Hx3]]; [left; split; [done|by etrans]|right; split; [done|]].
      intros x Hx HL. change (x ∈ (chunk ++ concat (c' :: rest))%list) in Hx.
      apply elem_of_app in Hx as [Hx|Hx]; [|by apply Hx3]. eapply stay_holds; [exact Hs3|by apply (Hin w2)].
Qed.

Lemma covered_after (w w' : jmap_world T) : serves -> covered (jl_mail w) -> rows_stay (jl_mail w) (jl_mail w') ->
  stands w w' \/ landed w' -> covered (jl_mail w').
Proof using Type.
  intros Hsv Hc Hs [Hst|[Hst Hl]] s Hx x Hin.
  - unfold stands in Hst. rewrite Hst in Hx. eapply stay_holds; [exact Hs|by eapply Hc].
  - rewrite Hst in Hx. injection Hx as <-. apply Hl. by rewrite <- (sv_current Hsv).
Qed.

(** A read of the tables, on the world. *)
Lemma read_run {A} (g : mail -> A) (w : jmap_world T) r w' : on_mail (mstmt (fun db => (g db, db))) w = (r, w') ->
  same_tables (jl_mail w) (jl_mail w') /\ (mail_ok (jl_mail w) -> mail_ok (jl_mail w')) /\
  forall x, r = Ok x -> x = g (jl_mail w).
Proof using Type.
  intros [Hr _]%on_mail_run. destruct r as [x|e].
  - apply mstmt_Ok in Hr as (w1 & n & [= <- <-] & He). rewrite He. split; [done|]. split; [apply set_fuse_ok|]. by intros y [= <-].
  - apply mstmt_Err in Hr. rewrite Hr. by split.
Qed.
Lemma same_tables_facts (w w' : jmap_world T) : same_tables (jl_mail w) (jl_mail w') ->
  rows_stay (jl_mail w) (jl_mail w') /\ stands w w'.
Proof using Type.
  intros (Hm & Hc & _). split; [by apply same_rows_stay|]. unfold stands, cursor_at. by rewrite Hc.
Qed.

Lemma delta_run c p (w : jmap_world T) r w' : serves -> mail_ok (jl_mail w) -> eq_new_query_state c = Some cur ->
  mailbox_delta a f c seam dir p w = (r, w') ->
  mail_ok (jl_mail w') /\ rows_stay (jl_mail w) (jl_mail w') /\
  ((is_ok r = false /\ stands w w') \/
   (state_of (jl_mail w') = Some cur /\ forall x, x ∈ eq_added_ids c -> x ∈ L -> holds (jl_mail w') a x)).
Proof using All.
  intros Hsv Hok Hst Hr. unfold mailbox_delta in Hr. cbv zeta in Hr. rewrite Hst in Hr.
  destruct (eq_added_ids c) as [|y ids] eqn:Hids.
  - apply bind_inv in Hr as [(e & Hp & ->)|(k & w1 & Hp & [= <- <-])];
      apply persist_run_jmap in Hp as (Hok1 & Hs1 & Hc); try done;
      (split; [done|]; split; [done|]; destruct Hc as [Hc|[Hc _]]; [by left|]; right; split; [done|];
       by intros x ?%not_elem_of_nil).
  - apply added_run in Hr as (? & ? & Hc); try done.
    split; [done|]. split; [done|]. destruct Hc as [Hc|[Hc Hh]]; [by left|]. right. split; [done|].
    intros x Hx. apply Hh. rewrite chunks_concat; [done|unfold QUERY_PAGE; lia].
Qed.

Lemma get_folder_run row (w : jmap_world T) r w' :
  List.find (folder_by_external a mb) (ml_folders (jl_mail w)) = Some row -> f_id row = f ->
  on_mail (get_folder_id a mb) w = (r, w') ->
  same_tables (jl_mail w) (jl_mail w') /\ (mail_ok (jl_mail w) -> mail_ok (jl_mail w')) /\ forall f', r = Ok f' -> f' = f.
Proof using Type.
  intros Hrow Hf [Hg _]%on_mail_run. unfold get_folder_id in Hg.
  apply bind_inv in Hg as [(e & Hg & ->)|(o & w2 & Hg & Hl)].
  - apply mstmt_Err in Hg. rewrite Hg. by split.
  - apply mstmt_Ok in Hg as (w3 & n & [= <- <-] & ->). rewrite Hrow in Hl. cbn in Hl. injection Hl as <- Hl.
    rewrite <- Hl. split; [done|]. split; [apply set_fuse_ok|]. intros f' [= <-]. done.
Qed.
Lemma clear_run (w : jmap_world T) r w' : mail_ok (jl_mail w) -> covered (jl_mail w) ->
  on_mail (clear_jmap_cursor a f) w = (r, w') -> mail_ok (jl_mail w') /\ covered (jl_mail w').
Proof using Type.
  intros Hok Hc [Hcl _]%on_mail_run. split; [by apply (pres_clear_cursor _ _ _ _ _ _ Hcl)|].
  destruct r as [[]|e]; [|apply mstmt_Err in Hcl; by rewrite Hcl].
  apply mstmt_Ok in Hcl as (w6 & n & [= <-] & He). rewrite He. intros s Hs. exfalso. revert Hs. unfold cursor_at. cbn. clear.
  destruct (List.find _ _) as [c|] eqn:Hc; [|done]. apply find_some in Hc as [Hin Hc].
  apply filter_In in Hin as [_ Hin]. by rewrite Hc in Hin.
Qed.

(** What one mailbox leaves, whatever happens on the way. *)
Definition delivered (fuel : nat) (r : result SyncError (option pass)) (w' : jmap_world T) : Prop :=
  covered (jl_mail w') /\ (forall p', r = Ok (Some p') -> landed w') /\
  ((length L < fuel * QUERY_PAGE)%nat -> r <> Ok None).

Lemma full_delivers fuel p (w : jmap_world T) r w' : serves -> mail_ok (jl_mail w) -> covered (jl_mail w) ->
  full_folder_query fuel a f mb seam dir 0 p w = (r, w') -> delivered fuel r w'.
Proof using All.
  intros Hsv Hok Hc Hq. apply query_run in Hq as (? & Hs & Hl & Hp & Hfu); try done; [|lia|by intros x ?%not_elem_of_nil].
  split; [|done]. by eapply covered_after.
Qed.
Lemma delta_delivers fuel c state p (w : jmap_world T) r w' : serves -> mail_ok (jl_mail w) -> covered (jl_mail w) ->
  state_of (jl_mail w) = Some state -> eq_new_query_state c = Some cur ->
  (forall x, x ∈ L -> x ∈ listing state \/ x ∈ eq_added_ids c) ->
  bind (mailbox_delta a f c seam dir p) (fun p => ret (Some p)) w = (r, w') -> delivered fuel r w'.
Proof using All.
  intros Hsv Hok Hcov Hst Hc Hnew Hr.
  assert (Hd : exists x, mailbox_delta a f c seam dir p w = (x, w') /\ r = match x with Ok p => Ok (Some p) | Err e => Err e end).
  { apply bind_inv in Hr as [(e & Hd & ->)|(p1 & w5 & Hd & [= <- <-])]; eauto. }
  destruct Hd as (x & Hd & ->). apply delta_run in Hd as (Hok5 & Hs5 & Hcase); try done.
  assert (Hl : is_ok x = true -> landed w').
  { intros Hx. destruct Hcase as [[Hf _]|[Hs Hh]]; [congruence|]. split; [done|]. intros y Hy.
    destruct (Hnew y Hy) as [Hin|Hin]; [eapply stay_holds; [exact Hs5|by eapply Hcov]|by apply Hh]. }
  split; [|by destruct x; split; [|done|by intros ?|done]; intros ? [= <-]; apply Hl].
  eapply covered_after; [done|exact Hcov|done|]. destruct Hcase as [[_ ?]|[Hs Hh]]; [by left|]. right. split; [done|].
  intros y Hy. destruct (Hnew y Hy) as [Hin|Hin]; [eapply stay_holds; [exact Hs5|by eapply Hcov]|by apply Hh].
Qed.

Lemma mailbox_run fuel row mbx p (w : jmap_world T) r w' : serves -> mail_ok (jl_mail w) -> jm_id mbx = mb ->
  List.find (folder_by_external a mb) (ml_folders (jl_mail w)) = Some row -> f_id row = f -> covered (jl_mail w) ->
  sync_mailbox fuel a seam mbx dir p w = (r, w') -> delivered fuel r w'.
Proof using All.
  intros Hsv Hok Hmb Hrow Hf Hcov Hr. unfold sync_mailbox in Hr. rewrite Hmb in Hr.
  apply bind_inv in Hr as [(e & Hg & ->)|(f' & w1 & Hg & Hr)];
    apply (get_folder_run row) in Hg as (Hs1 & Hok1 & Hf1); try done; apply same_tables_facts in Hs1 as [Hst1 Hsd1];
    pose proof (covered_after _ _ Hsv Hcov Hst1 (or_introl Hsd1)) as Hcov1; [done|].
  rewrite (Hf1 f' eq_refl) in Hr. specialize (Hok1 Hok). clear Hcov Hok Hrow Hst1 Hsd1 Hf1 w.
  apply bind_inv in Hr as [(e & Hg & ->)|(since & w2 & Hg & Hr)];
    apply (read_run (fun db => cursor_at db a f "state_token")) in Hg as (Hs2 & Hok2 & Hx); specialize (Hok2 Hok1);
    apply same_tables_facts in Hs2 as [Hst2 Hsd2];
    pose proof (covered_after _ _ Hsv Hcov1 Hst2 (or_introl Hsd2)) as Hcov2; [done|].
  specialize (Hx since eq_refl). subst since.
  destruct (cursor_at (jl_mail w1) a f "state_token") as [state|] eqn:Hstate; [|by apply full_delivers in Hr].
  assert (Hst' : state_of (jl_mail w2) = Some state) by (unfold stands in Hsd2; congruence).
  apply bind_inv in Hr as [(e & Hq & ->)|(x & w3 & Hq & Hr)]; [by unfold attempt in Hq; destruct (on_net _ w2)|].
  unfold attempt in Hq. destruct (on_net _ w2) as [y w4] eqn:Hn. injection Hq as <- <-.
  apply on_net_run in Hn as [Hn Hm]. rewrite <- Hm in Hok2, Hcov2, Hst'. destruct y as [c|e].
  - apply (sv_changes Hsv) in Hn as [Hc Hnew]. by eapply delta_delivers.
  - destruct (is_stale_query_state e); [|by injection Hr as <- <-].
    apply bind_inv in Hr as [(e' & Hcl & ->)|([] & w5 & Hcl & Hr)]; apply clear_run in Hcl as [Hok5 Hcov5]; try done.
    by apply full_delivers in Hr.
Qed.

(** C4: no crash strands mail.  On a server that answers whole pages - a page shorter
    than the limit only at the end of the mailbox -, in one mailbox that stands still
    while the pass reads it, the query state and the rows agree: if a query state is
    stored for the folder, every message the mailbox held at that state has its row, so
    the next delta misses nothing.  This is kept whatever request or statement fails and
    wherever the pass stops, in a full read of any number of pages, in a delta and when
    the state expired; a mailbox that finishes has every message stored and its state
    current; and with fuel for its pages it does finish.  (A server that clamps the limit
    is another matter: [capped_page_strands_mail].) *)
Theorem mailbox_never_stranded (fuel : nat) (row : FolderRow) (mbx : JmapMailbox) (p : pass) (w : jmap_world T)
    (r : result SyncError (option pass)) (w' : jmap_world T) :
  wire_serves -> mail_ok (jl_mail w) -> jm_id mbx = mb ->
  List.find (folder_by_external a mb) (ml_folders (jl_mail w)) = Some row -> f_id row = f ->
  covered (jl_mail w) ->
  sync_mailbox fuel a seam mbx dir p w = (r, w') ->
  covered (jl_mail w') /\ (forall p', r = Ok (Some p') -> landed w') /\
  ((length L < fuel * QUERY_PAGE)%nat -> r <> Ok None).
Proof using All. intros Hw. by apply mailbox_run, wire_serves_code. Qed.
End Mailbox.

(** ** The whole pass *)

(** What a pass keeps before its deletions: rows stay, and the account-level state is
    where it was, or gone. *)
Definition state_kept (a : string) (db db' : mail) : Prop := forall f,
  cursor_at db' a f "email_state" = cursor_at db a f "email_state" \/ cursor_at db' a f "email_state" = None.
Definition pass_keeps `{StoreLib} (a : string) (db db' : mail) : Prop :=
  mail_ok db -> mail_ok db' /\ rows_stay db db' /\ state_kept a db db'.
(** What it keeps of the account-level state when nothing is forgotten. *)
Definition state_same (a : string) (db db' : mail) : Prop := forall f, cursor_at db' a f "email_state" = cursor_at db a f "email_state".
Definition pass_recalls `{StoreLib} (a : string) (db db' : mail) : Prop :=
  mail_ok db -> mail_ok db' /\ rows_stay db db' /\ state_same a db db'.
#[export] Instance pass_recalls_preorder `{StoreLib} a : PreOrder (pass_recalls a).
Proof.
  split; [intros db Hok; by split|]. intros x y z Hxy Hyz Hx. destruct (Hxy Hx) as (Hy & Hr & Hs). destruct (Hyz Hy) as (Hz & Hr' & Hs').
  split; [done|]. split; [by etrans|]. intros f. by rewrite Hs'.
Qed.
Lemma recalls_keeps `{StoreLib} a db db' : pass_recalls a db db' -> pass_keeps a db db'.
Proof. intros Hr Hok. destruct (Hr Hok) as (? & ? & Hs). split; [done|]. split; [done|]. intros f. by left. Qed.
#[export] Instance state_kept_preorder a : PreOrder (state_kept a).
Proof.
  split; [intros db f; by left|]. intros x y z Hxy Hyz f. destruct (Hyz f) as [->|?]; [apply Hxy|by right].
Qed.
#[export] Instance pass_keeps_preorder `{StoreLib} a : PreOrder (pass_keeps a).
Proof.
  split; [by intros db Hok|]. intros x y z Hxy Hyz Hx. destruct (Hxy Hx) as (Hy & Hr & Hs).
  destruct (Hyz Hy) as (Hz & Hr' & Hs'). split; [done|]. split; by etrans.
Qed.
(** Only the folders change. *)
Definition folders_only (db db' : mail) : Prop := ml_messages db' = ml_messages db /\ ml_cursors db' = ml_cursors db.
#[export] Instance folders_only_preorder : PreOrder folders_only.
Proof. split; [done|]. intros x y z [] []. split; congruence. Qed.
Lemma folders_stmt {A} (g : mail -> A * mail) : (forall db, folders_only db (snd (g db))) -> preserves folders_only (mstmt g).
Proof.
  intros Hg db [x|e] db' Hr; [|by apply mstmt_Err in Hr as ->]. apply mstmt_Ok in Hr as (w1 & n & Hw & ->).
  specialize (Hg db). by rewrite Hw in Hg.
Qed.

Section Pass.
Context {T : Type} `{JmapWire T} `{UrlLib} `{UrlJoin} `{JmapTime} `{StoreLaws} `{JsonLib} `{BlobLib} `{HashOrder}.
Context (a : string).

Lemma recall_keeps {A} (m : io mail SyncError A) : preserves (pass_recalls a) m -> preserves (pass_keeps a) m.
Proof. intros Hm db r db' Hr. by eapply recalls_keeps, Hm. Qed.
Lemma recall_of {A} (m : io mail SyncError A) : preserves mail_stays m -> preserves same_cursors m -> preserves (pass_recalls a) m.
Proof.
  intros Hs Hc db r db' Hr Hok. destruct (Hs _ _ _ Hr Hok). apply Hc in Hr. split; [done|]. split; [done|].
  intros f. unfold cursor_at. by rewrite Hr.
Qed.
Lemma recall_read A (g : mail -> A) : preserves (pass_recalls a) (mstmt (fun db => (g db, db))).
Proof. apply recall_of; [apply stay_read|by apply cursors_stmt]. Qed.
Lemma recall_uuid : preserves (pass_recalls a) (new_uuid_text (E := SyncError)).
Proof. apply recall_of; [apply stay_uuid|by intros db r db' [= _ <-]]. Qed.
Lemma recall_touch id (g : mail -> MessageRow -> MessageRow) : (forall db m, same_mail m (g db m)) ->
  preserves (pass_recalls a) (mstmt (fun db => (tt, set_messages (update_messages (message_by_id id) (g db) (ml_messages db)) db))).
Proof. intros Hg. apply recall_of; [by apply stay_touch|by apply cursors_stmt]. Qed.
Lemma recall_page f es q : preserves (pass_recalls a) (persist_jmap_folder_batch a f es q).
Proof.
  intros db r db' Hr Hok. apply page_run in Hr as (? & ? & Hc); [|done]. split; [done|]. split; [done|].
  intros f'. destruct r as [k|e]; [|unfold cursor_at; by rewrite Hc]. destruct Hc as [_ Hc].
  rewrite Hc. by rewrite decide_False.
Qed.
Lemma recall_clear f : preserves (pass_recalls a) (clear_jmap_cursor a f).
Proof.
  intros db r db' Hr Hok. destruct (stay_clear a f _ _ _ _ Hr Hok) as [? ?]. split; [done|]. split; [done|].
  destruct r as [[]|e]; [|apply mstmt_Err in Hr; by rewrite Hr].
  apply mstmt_Ok in Hr as (w & n & [= <-] & He). rewrite He. clear. intros f'. unfold cursor_at. cbn.
  induction (ml_cursors db) as [|c l IH]; [done|]. cbn. destruct (cursor_is a f "state_token" c) eqn:Hc; cbn; [|by destruct (cursor_is a f' "email_state" c)].
  destruct (cursor_is a f' "email_state" c) eqn:Hc'; [|done]. apply cursor_is_spec in Hc, Hc'. congruence.
Qed.
Lemma clear_kept f t db : state_kept a db (set_cursors (List.filter (fun c => negb (cursor_is a f t c)) (ml_cursors db)) db).
Proof.
  intros f'. unfold cursor_at. cbn. induction (ml_cursors db) as [|c l IH]; [by left|]. cbn.
  destruct (cursor_is a f t c) eqn:Hc; cbn.
  - destruct (cursor_is a f' "email_state" c) eqn:Hc'; [|done]. right. apply cursor_is_spec in Hc, Hc'.
    clear IH. induction l as [|d l IH]; [done|]. cbn. destruct (cursor_is a f t d) eqn:Hd; cbn; [done|].
    destruct (cursor_is a f' "email_state" d) eqn:Hd'; [|done]. apply cursor_is_spec in Hd'.
    rewrite (proj2 (cursor_is_spec a f t d)) in Hd; congruence.
  - by destruct (cursor_is a f' "email_state" c); [left|].
Qed.
Lemma pass_clear f t : preserves (pass_keeps a) (clear_state_cursor a f t).
Proof.
  intros db r db' Hr Hok. destruct (stay_clear a f t _ _ _ Hr Hok) as [? ?]. split; [done|]. split; [done|].
  destruct r as [[]|e]; [|apply mstmt_Err in Hr as ->; reflexivity].
  apply mstmt_Ok in Hr as (w1 & n & [= <-] & ->). apply clear_kept.
Qed.
Lemma recall_folders {A} (m : io mail SyncError A) : preserves keeps_ok m -> preserves folders_only m -> preserves (pass_recalls a) m.
Proof.
  intros Hk Hf db r db' Hr Hok. split; [by apply (Hk _ _ _ Hr)|]. apply Hf in Hr as [Hm Hc].
  split; [by apply same_rows_stay|]. intros f. unfold cursor_at. by rewrite Hc.
Qed.

Lemma recall_upserts mbs : preserves (pass_recalls a) (upsert_mailboxes a mbs).
Proof.
  induction mbs as [|mb mbs IH]; cbn [upsert_mailboxes]; [apply pres_ret, _|]. apply pres_bind; [apply _| |intros _; apply IH].
  apply recall_folders; [apply pres_upsert_jmap_folder|]. unfold upsert_jmap_folder, find_folder_id_by_external_id, update_folder, insert_folder.
  apply pres_bind; [apply _|by apply folders_stmt|intros [id|]]; [by apply folders_stmt|].
  apply pres_bind; [apply _|by intros db r db' [= _ <-]|intros id]. by apply folders_stmt.
Qed.
Lemma recall_links mbs : preserves (pass_recalls a) (link_parents a mbs).
Proof.
  induction mbs as [|mb mbs IH]; cbn [link_parents]; [apply pres_ret, _|]. apply pres_bind; [apply _| |intros _; apply IH].
  destruct (jm_parent_id mb) as [p|]; [|apply pres_ret, _]. apply recall_folders; [apply pres_link|].
  unfold link_jmap_folder_parent, get_folder_id, find_folder_id_by_external_id, update_folder.
  apply pres_bind; [apply _| |intros c].
  { apply pres_bind; [apply _|by apply folders_stmt|intros o; apply pres_lift, _]. }
  apply pres_bind; [apply _| |intros x; by apply folders_stmt].
  apply pres_bind; [apply _|by apply folders_stmt|intros o; apply pres_lift, _].
Qed.

#[local] Hint Resolve recall_read recall_uuid recall_touch recall_page recall_clear recall_keeps : lyra.
Lemma pass_changes (seam : JmapSeam T) mbs anchor dir p : preserves (lifted (pass_keeps a)) (account_changes a seam mbs anchor dir p).
Proof. apply walk_changes; auto with lyra typeclass_instances. intros f. apply pass_clear. Qed.
Lemma recall_changes (seam : JmapSeam T) mbs anchor dir p :
  (forall s net e net', email_changes seam s net = (Err e, net') -> is_stale_query_state e = false) ->
  preserves (lifted (pass_recalls a)) (account_changes a seam mbs anchor dir p).
Proof. apply walk_known; auto with lyra typeclass_instances. Qed.
Lemma recall_mailboxes fuel (seam : JmapSeam T) mbs dir p : preserves (lifted (pass_recalls a)) (sync_mailboxes fuel a seam mbs dir p).
Proof. apply walk_mailboxes; auto with lyra typeclass_instances. Qed.
Lemma pass_mailboxes fuel (seam : JmapSeam T) mbs dir p : preserves (lifted (pass_keeps a)) (sync_mailboxes fuel a seam mbs dir p).
Proof. intros w r w' Hr. by eapply recalls_keeps, recall_mailboxes. Qed.
Lemma recall_prepare (seam : JmapSeam T) : preserves (lifted (pass_recalls a)) (prepare_pass a seam).
Proof.
  unfold prepare_pass. apply pres_bind; [apply _|apply lift_jmap, _|intros _].
  apply pres_bind; [apply _|apply lift_jmap, _|intros mbs]. apply pres_bind; [apply _|apply lift_mail, recall_upserts|intros _].
  apply pres_bind; [apply _|apply lift_mail, recall_links|intros _]. apply pres_bind; [apply _| |intros x; apply pres_ret, _].
  apply lift_mail. unfold email_state_anchor, folder_id_for_role, first_folder_id.
  apply pres_bind; [apply _|apply recall_read|intros [f|]]; [apply pres_ret, _|apply recall_read].
Qed.

(** The end of a pass: the deletions leave the cursors, the state is saved whole or not. *)
Lemma delete_cursors ids : preserves same_cursors (delete_jmap_messages_by_external_ids a ids).
Proof.
  unfold delete_jmap_messages_by_external_ids. destruct ids as [|i ids]; [apply pres_ret, _|].
  apply pres_bind; [apply _| |intros [fs k]].
  - generalize (chunks IDS_CHUNK (i :: ids)) (∅ : gset string) 0%nat. intros pieces.
    induction pieces as [|l pieces IH]; intros fs n; cbn [delete_chunks]; [apply pres_ret, _|].
    apply pres_bind; [apply _|by apply cursors_stmt|intros t]. by apply pres_bind; [apply _|apply cursors_stmt|].
  - apply pres_bind; [apply _| |intros _; apply pres_ret, _]. generalize (elements fs). intros l.
    induction l as [|f l IH]; cbn [refresh_counts]; [apply pres_ret, _|]. apply pres_bind; [apply _| |intros _; apply IH].
    apply cursors_transaction, cursors_counts.
Qed.
Lemma finish_fails anchor p db e db' : finish_pass a anchor p db = (Err e, db') -> same_cursors db db'.
Proof.
  intros [(e' & Hd & _)|(n & w1 & Hd & Hr)]%bind_inv; apply delete_cursors in Hd; [done|].
  apply bind_inv in Hr as [(e' & Hs & _)|([] & w2 & _ & Hr)]; [|done]. etrans; [exact Hd|].
  destruct anchor as [f|]; [|by injection Hs as _ <-]. destruct (ps_email_state p) as [st|]; [|by injection Hs as _ <-].
  by apply transaction_Err in Hs as (_ & ? & _).
Qed.

(** A body that does not complete: what came before the end, and then cursors that stay. *)
Lemma body_fails (R : mail -> mail -> Prop) `{!PreOrder R} fuel (seam : JmapSeam T) dir (w : jmap_world T) r w' :
  (forall db db', pass_recalls a db db' -> R db db') ->
  (forall mbs anchor p, preserves (lifted R) (account_changes a seam mbs anchor dir p)) ->
  pass_body fuel a seam dir w = (r, w') -> (forall x, r <> Ok (Some x)) ->
  exists db, R (jl_mail w) db /\ same_cursors db (jl_mail w').
Proof.
  intros HR Hch Hr Hne. unfold pass_body in Hr.
  apply bind_inv in Hr as [(e & Hp & ->)|([mbs anchor] & w1 & Hp & Hr)]; apply recall_prepare, HR in Hp; [by eexists|].
  cbn [fst snd] in Hr. unfold pass_from in Hr.
  apply bind_inv in Hr as [(e & Hc & ->)|(p & w2 & Hc & Hr)]; apply Hch in Hc; pose proof (transitivity Hp Hc) as Hpc; [by eexists|].
  apply bind_inv in Hr as [(e & Hm & ->)|(o & w3 & Hm & Hr)];
    apply recall_mailboxes, HR in Hm; pose proof (transitivity Hpc Hm) as Hall; [by eexists|].
  exists (jl_mail w3). split; [exact Hall|]. destruct o as [p'|]; [|by injection Hr as _ <-].
  apply bind_inv in Hr as [(e & Hf & ->)|(n & w4 & Hf & [= <- <-])]; [|by destruct (Hne _ eq_refl)].
  apply on_mail_run in Hf as [Hf _]. by apply finish_fails in Hf.
Qed.
End Pass.

Section Failed.
Context {T : Type} `{JmapWire T} `{UrlLib} `{UrlJoin} `{JmapTime} `{StoreLaws} `{JsonLib} `{BlobLib} `{HashOrder}.

(** The server can resume from every state it is asked about. *)
Definition resumes_states : Prop := forall h since n net e net',
  changes_email h since n net = (Err e, net') -> is_stale_query_state (jmap_of_client e) = false.
Lemma pages_err (seam : JmapSeam T) : forall n since u d net e net', changes_pages n seam since u d net = (Err e, net') ->
  exists s n1 e' n2, changes_email (sm_client seam) s CHANGES_PAGE_SIZE n1 = (Err e', n2) /\ e = jmap_of_client e'.
Proof.
  induction n as [|n IH]; intros since u d net e net' Hr; cbn [changes_pages] in Hr; [done|].
  apply bind_inv in Hr as [(e1 & Hr & [= <-])|(c & n1 & _ & Hr)].
  - apply map_err_inv in Hr as ([|e'] & Hr & [= ->]). eauto 10.
  - cbn zeta in Hr. destruct (cr_more c); [by apply IH in Hr|done].
Qed.
Lemma resumed (seam : JmapSeam T) : resumes_states -> forall s net e net', email_changes seam s net = (Err e, net') -> is_stale_query_state e = false.
Proof. intros Hres s net e net' (s' & n1 & e' & n2 & Hr & ->)%pages_err. by eapply Hres. Qed.
Lemma failing_run_changes (R : mail -> mail -> Prop) `{!PreOrder R} fuel a base email secret auth_type dir (w : jmap_world T) r w' :
  (forall db db', pass_recalls a db db' -> R db db') ->
  (forall (seam : JmapSeam T) mbs anchor p, preserves (lifted R) (account_changes a seam mbs anchor dir p)) ->
  run_jmap_sync fuel a base email secret auth_type dir w = (r, w') -> (forall x, r <> Ok (Some x)) ->
  exists db, R (jl_mail w) db /\ same_cursors db (jl_mail w').
Proof.
  intros HR Hch Hr Hne. unfold run_jmap_sync in Hr.
  assert (Hcon : forall x w1, map_err Jmap (on_cache (connect_for_account a base email secret auth_type)) w = (x, w1) ->
    jl_mail w1 = jl_mail w).
  { intros x w1 Hc. unfold map_err, on_cache in Hc. destruct (connect_for_account _ _ _ _ _ _) as [y [c net]].
    by injection Hc as _ <-. }
  apply bind_inv in Hr as [(e & Hc & ->)|(seam & w1 & Hc & Hr)]; apply Hcon in Hc; [exists (jl_mail w); by rewrite Hc|].
  rewrite <- Hc in *. by eapply body_fails.
Qed.
Lemma group_keeps a fs g (seam : JmapSeam T) dir : forall p w p' w', persist_groups a fs g seam dir p w = (Ok p', w') ->
  ps_removed p' = ps_removed p /\ ps_email_state p' = ps_email_state p.
Proof.
  induction fs as [|f fs IH]; intros p w p' w' Hr; cbn [persist_groups] in Hr; [by injection Hr as <- _|].
  apply bind_Ok in Hr as (c & w1 & _ & Hr). by apply IH in Hr.
Qed.
Lemma refetch_keeps a (seam : JmapSeam T) dir pieces : forall p w p' w', refetch_chunks a seam pieces dir p w = (Ok p', w') ->
  ps_removed p' = ps_removed p /\ ps_email_state p' = ps_email_state p.
Proof.
  induction pieces as [|chunk pieces IH]; intros p w p' w' Hr; cbn [refetch_chunks] in Hr; [by injection Hr as <- _|].
  apply bind_Ok in Hr as (x & w1 & _ & Hr). cbv zeta in Hr. apply bind_Ok in Hr as (g & w2 & _ & Hr).
  apply bind_Ok in Hr as (p1 & w3 & Hp & Hr). apply group_keeps in Hp as [Hp1 Hp2]. apply IH in Hr as [Hr1 Hr2]. cbn in *. by rewrite Hr1, Hr2.
Qed.
(** What a pass asks for at account level from a stored state. *)
Definition asks_since (a f s : string) (w : jmap_world T) : Prop := forall (seam : JmapSeam T) mbs dir p w2,
  account_changes a seam mbs (Some f) dir (mkPass 0 0 ∅ [] None) w = (Ok p, w2) ->
  exists c net2, email_changes seam s (jl_net w) = (Ok c, net2) /\
    ps_removed p = ec_destroyed_ids c /\ ps_email_state p = ec_new_state c.
Lemma asks_stored a f s (w : jmap_world T) : resumes_states -> cursor_at (jl_mail w) a f "email_state" = Some s -> asks_since a f s w.
Proof.
  intros Hres Hs seam mbs dir p w2 Hr. unfold account_changes in Hr. apply bind_Ok in Hr as (o & w1 & Hl & Hr).
  pose proof (on_mail_run _ _ _ _ Hl) as [_ Hnet].
  apply (read_run (fun db => cursor_at db a f "email_state")) in Hl as (_ & _ & Ho). specialize (Ho o eq_refl). rewrite Hs in Ho. subst o.
  unfold bind, attempt, on_net in Hr. rewrite Hnet in Hr. destruct (email_changes seam s (jl_net w)) as [[c|e] net] eqn:Hc.
  - exists c, net. split; [done|]. unfold refetch_updated_emails in Hr. apply refetch_keeps in Hr as [-> ->]. done.
  - by rewrite (resumed seam Hres _ _ _ _ Hc) in Hr.
Qed.

(** C6: a pass that fails is replayed.  Whatever request or statement fails, unless the
    pass completes, no account-level state of the account advances: it is what it was, or
    was forgotten because the server no longer knew it - so never on a server that can
    resume from its states, and there the next pass asks for the changes since that very
    state again, plans to delete what they say was destroyed, and moves on to the state
    they give. *)
Theorem failed_pass_is_replayed (fuel : nat) (a base email secret auth_type dir : string) (w : jmap_world T)
    (r : result SyncError (option SyncResponse)) (w' : jmap_world T) (f s : string) :
  mail_ok (jl_mail w) -> cursor_at (jl_mail w) a f "email_state" = Some s ->
  run_jmap_sync fuel a base email secret auth_type dir w = (r, w') ->
  (forall x, r <> Ok (Some x)) ->
  (cursor_at (jl_mail w') a f "email_state" = Some s \/ cursor_at (jl_mail w') a f "email_state" = None) /\
  (resumes_states -> cursor_at (jl_mail w') a f "email_state" = Some s /\
     forall next, jl_mail next = jl_mail w' -> asks_since a f s next).
Proof.
  intros Hok Hs Hr Hne. split.
  - destruct (failing_run_changes (pass_keeps a) fuel a base email secret auth_type dir w r w') as (db & Hk & Hc); try done; [apply recalls_keeps|intros; apply pass_changes|].
    destruct (Hk Hok) as (_ & _ & Hst). unfold cursor_at. rewrite Hc. change (cursor_at db a f "email_state" = Some s \/ cursor_at db a f "email_state" = None).
    destruct (Hst f) as [-> | ->]; [by left|by right].
  - intros Hres. destruct (failing_run_changes (pass_recalls a) fuel a base email secret auth_type dir w r w') as (db & Hk & Hc); try done;
      [intros; apply recall_changes, resumed, Hres|]. destruct (Hk Hok) as (_ & _ & Hst).
    assert (Hs' : cursor_at (jl_mail w') a f "email_state" = Some s) by (rewrite <- Hs, <- (Hst f); unfold cursor_at; by rewrite Hc).
    split; [done|]. intros next Hn. apply asks_stored; [done|]. by rewrite Hn.
Qed.
End Failed.

(** *** Moved mail *)

Section Moved.
Context {T : Type} `{JmapWire T} `{UrlLib} `{UrlJoin} `{JmapTime} `{StoreLaws} `{JsonLib} `{BlobLib} `{HashOrder}.
Context (seam : JmapSeam T) (a dir : string) (alive : string -> Prop).

(** The server, on the wire.  During the pass the account holds [alive]; [since] is the account-level state the pass starts
    from, and [left st] what has left some mailbox since the state [st].  What is reported destroyed is gone for good; what
    left and is alive is among the updated ids of the page asked for or of the pages that follow it; [pages] bounds how many
    there are, and those since [since] fit in what the code reads; the server can resume; [Email/get] answers what is
    there; and a mailbox only reports removed what left it. *)
Context (since : string) (left : string -> string -> Prop) (pages : string -> nat).
Record tells_moves : Prop := {
  tm_destroyed : forall s net r net', changes_email (sm_client seam) s CHANGES_PAGE_SIZE net = (Ok r, net') ->
    forall x, x ∈ cr_destroyed r -> ~ alive x;
  tm_updated : forall s net r net', changes_email (sm_client seam) s CHANGES_PAGE_SIZE net = (Ok r, net') ->
    forall x, left s x -> alive x -> x ∈ cr_updated r \/ cr_more r = true /\ left (cr_new_state r) x;
  tm_pages : forall s net r net', changes_email (sm_client seam) s CHANGES_PAGE_SIZE net = (Ok r, net') ->
    cr_more r = true -> (pages (cr_new_state r) < pages s)%nat;
  tm_fits : (pages since < CHANGES_MAX_PAGES)%nat;
  tm_resumes : forall s net e net', changes_email (sm_client seam) s CHANGES_PAGE_SIZE net = (Err e, net') ->
    is_stale_query_state (jmap_of_client e) = false;
  tm_get : forall ids net es st net', get_email (sm_client seam) ids net = (Ok (es, st), net') ->
    forall x, x ∈ ids -> alive x -> Some x ∈ map we_id es;
  tm_removed : forall mb s net c net', query_email_changes_req (sm_client seam) mb s CHANGES_PAGE_SIZE net = (Ok c, net') ->
    forall x, x ∈ qr_removed c -> alive x -> left since x;
}.
Local Abbreviation moved := (left since).
Lemma told_changes n : forall s u d net c net', tells_moves -> (pages s < n)%nat ->
  changes_pages n seam s u d net = (Ok c, net') ->
  (forall x, x ∈ ec_destroyed_ids c -> x ∈ d \/ ~ alive x) /\ (forall x, left s x \/ x ∈ u -> alive x -> x ∈ ec_updated_ids c).
Proof.
  induction n as [|n IH]; intros s u d net c net' Ht Hn Hr; [lia|]. cbn [changes_pages] in Hr.
  apply bind_Ok in Hr as (r & n1 & Hc & Hr). apply map_err_inv in Hc as ([y|] & Hc & Hy); [|done]. injection Hy as <-. cbn zeta in Hr.
  pose proof (tm_destroyed Ht _ _ _ _ Hc) as Hd. pose proof (tm_updated Ht _ _ _ _ Hc) as Hu. destruct (cr_more r) eqn:Hm.
  - apply IH in Hr as [Hr1 Hr2]; [|done|pose proof (tm_pages Ht _ _ _ _ Hc Hm); lia]. split.
    + intros x Hx. apply Hr1 in Hx as [[Hx|Hx]%elem_of_app|Hx]; [by left|right; by eapply Hd|by right].
    + intros x [Hx|Hx] Hal; apply Hr2; try done; rewrite elem_of_app; [|by right; left]. destruct (Hu x Hx Hal) as [?|[_ ?]]; auto.
  - injection Hr as <- _. cbn. split.
    + intros x [Hx|Hx]%elem_of_app; [by left|right; by eapply Hd].
    + intros x [Hx|Hx] Hal; rewrite elem_of_app; [|by left]. destruct (Hu x Hx Hal) as [?|[? _]]; [by right|done].
Qed.

Definition grows (p p' : pass) : Prop := ps_refetched p ⊆ ps_refetched p' /\ ps_removed p' = ps_removed p.
#[local] Instance grows_preorder : PreOrder grows.
Proof. split; [by split|]. intros x y z [] []. split; [by etrans|congruence]. Qed.
Lemma counts_grow c p : grows p (add_counts c p).
Proof. by split. Qed.
Lemma seed_grow s p : grows p (seed s p).
Proof. unfold seed. destruct (ps_email_state p); [reflexivity|by split]. Qed.
Lemma refetched_grow ids p : grows p (add_refetched ids p).
Proof. split; [|done]. cbn. set_solver. Qed.

Lemma query_grows fuel f mb : forall pos p w p' w',
  full_folder_query fuel a f mb seam dir pos p w = (Ok (Some p'), w') -> grows p p'.
Proof.
  induction fuel as [|fuel IH]; intros pos p w p' w' Hr; cbn [full_folder_query] in Hr; [done|].
  apply bind_Ok in Hr as (page & w1 & _ & Hr). cbv zeta in Hr. apply bind_Ok in Hr as (c & w2 & _ & Hr).
  set (q := add_counts c _) in Hr. assert (Hq : grows p q).
  { etrans; [apply (refetched_grow (pg_ids page))|]. etrans; [apply (seed_grow (pg_email_state page))|apply counts_grow]. }
  destruct (_ <? _)%nat; [by injection Hr as <- _|]. etrans; [exact Hq|by eapply IH].
Qed.
Lemma groups_grow fs g : forall p w p' w', persist_groups a fs g seam dir p w = (Ok p', w') -> grows p p'.
Proof.
  induction fs as [|f fs IH]; intros p w p' w' Hr; cbn [persist_groups] in Hr; [by injection Hr as <- _|].
  apply bind_Ok in Hr as (c & w1 & _ & Hr). etrans; [apply (counts_grow c)|by eapply IH].
Qed.
Lemma refetch_grows pieces : forall p w p' w', tells_moves -> refetch_chunks a seam pieces dir p w = (Ok p', w') ->
  grows p p' /\ forall x, x ∈ concat pieces -> alive x -> x ∈ ps_refetched p'.
Proof.
  induction pieces as [|chunk pieces IH]; intros p w p' w' Ht Hr; cbn [refetch_chunks] in Hr.
  { injection Hr as <- _. split; [reflexivity|]. by intros x ?%not_elem_of_nil. }
  apply bind_Ok in Hr as (r & w1 & Hg & Hr). cbv zeta in Hr. apply bind_Ok in Hr as (g & w2 & _ & Hr).
  apply bind_Ok in Hr as (p1 & w3 & Hp & Hr). apply groups_grow in Hp. apply IH in Hr as [Hr Hall]; [|done].
  assert (Hgrow : grows (add_refetched (map je_id (fst r)) p) p') by by etrans.
  split; [etrans; [apply refetched_grow|exact Hgrow]|]. intros x Hx Hal. cbn in Hx.
  apply elem_of_app in Hx as [Hx|Hx]; [|by apply Hall]. destruct Hgrow as [Hsub _]. apply Hsub. cbn.
  apply jmap_run in Hg as (_ & [y|] & Hg & Hy); [|done]. injection Hy as <-.
  assert (Hin : x ∈ map je_id (fst r)).
  { unfold get_emails in Hg. destruct chunk as [|i chunk]; [by apply not_elem_of_nil in Hx|].
    apply bind_Ok in Hg as ([es st] & n & Hg & [= <- _]). apply map_err_inv in Hg as ([z|] & Hg & Hz); [|done]. injection Hz as <-.
    apply mapped_ids. by eapply (tm_get Ht). }
  set_solver.
Qed.
Lemma added_grows f pieces q : forall p w p' w', added_chunks a f pieces q seam dir p w = (Ok p', w') -> grows p p'.
Proof.
  induction pieces as [|l pieces IH]; intros p w p' w' Hr; cbn [added_chunks] in Hr; [by injection Hr as <- _|].
  apply bind_Ok in Hr as (r & w1 & _ & Hr). cbv zeta in Hr. apply bind_Ok in Hr as (c & w2 & _ & Hr).
  etrans; [apply (seed_grow (snd r))|]. etrans; [apply (counts_grow c)|by eapply IH].
Qed.

(** Whatever moved was fetched again, and nothing alive is reported gone without that. *)
Definition safe (p : pass) : Prop :=
  (forall x, moved x -> alive x -> x ∈ ps_refetched p) /\
  forall x, x ∈ ps_removed p -> alive x -> x ∈ ps_refetched p.
Lemma safe_grows p p' : grows p p' -> safe p -> safe p'.
Proof.
  intros [Hs Hr] [Hm Hx]. split; [by auto|]. rewrite Hr. by auto.
Qed.

Lemma changes_safe mbs anchor w p w' : tells_moves ->
  cursor_at (jl_mail w) a anchor "email_state" = Some since ->
  account_changes a seam mbs (Some anchor) dir (mkPass 0 0 ∅ [] None) w = (Ok p, w') -> safe p.
Proof.
  intros Ht Hs Hr. unfold account_changes in Hr. apply bind_Ok in Hr as (o & w1 & Hl & Hr).
  apply (read_run (fun db => cursor_at db a anchor "email_state")) in Hl as (_ & _ & Ho).
  specialize (Ho o eq_refl). rewrite Hs in Ho. subst o.
  apply bind_Ok in Hr as (x & w2 & Hq & Hr). unfold attempt in Hq. destruct (on_net _ w1) as [y w3] eqn:Hn.
  injection Hq as <- <-. apply on_net_run in Hn as [Hn _]. destruct y as [c|e].
  - apply told_changes in Hn as [Hd Hu]; [|done|apply (tm_fits Ht)]. apply refetch_grows in Hr as [[Hsub Hrem] Hall]; [|done].
    rewrite chunks_concat in Hall by (unfold QUERY_PAGE; lia). split; [by auto|].
    intros x Hx Hal. rewrite Hrem in Hx. cbn in Hx. by destruct (Hd x Hx) as [?%not_elem_of_nil|[]].
  - apply pages_err in Hn as (s & n1 & e' & n2 & Hn & ->). by rewrite (tm_resumes Ht _ _ _ _ Hn) in Hr.
Qed.
Lemma mailbox_safe fuel mb p w p' w' : tells_moves -> sync_mailbox fuel a seam mb dir p w = (Ok (Some p'), w') ->
  safe p -> safe p'.
Proof.
  intros Ht Hr Hp. unfold sync_mailbox in Hr. apply bind_Ok in Hr as (f & w1 & _ & Hr).
  apply bind_Ok in Hr as (o & w2 & _ & Hr). destruct o as [state|]; [|eapply safe_grows; [by eapply query_grows|done]].
  apply bind_Ok in Hr as (x & w3 & Hq & Hr). unfold attempt in Hq. destruct (on_net _ w2) as [y w4] eqn:Hn.
  injection Hq as <- <-. apply on_net_run in Hn as [Hn _]. destruct y as [c|e].
  - assert (Hrem : forall x, x ∈ eq_removed_ids c -> alive x -> moved x).
    { unfold query_email_changes in Hn. apply bind_Ok in Hn as (z & n & Hn & [= <- _]). apply map_err_inv in Hn as ([z'|] & Hn & Hz); [|done].
      injection Hz as <-. by eapply (tm_removed Ht). }
    apply bind_Ok in Hr as (q & w5 & Hd & [= <- <-]).
    assert (Hs : safe (add_refetched (eq_added_ids c) (add_removed (eq_removed_ids c) p))).
    { destruct Hp as [Hm Hx]. apply (safe_grows (add_removed (eq_removed_ids c) p)); [apply refetched_grow|].
      split; [done|]. intros x Hin Hal. cbn in *. apply elem_of_app in Hin as [Hin|Hin]; [by apply Hx|].
      apply Hm; [by apply Hrem|done]. }
    unfold mailbox_delta in Hd. cbv zeta in Hd. destruct (eq_added_ids c).
    + by apply bind_Ok in Hd as (k & w6 & _ & [= <- <-]).
    + eapply safe_grows; [by eapply added_grows|done].
  - destruct (is_stale_query_state e); [|done]. apply bind_Ok in Hr as (u & w5 & _ & Hr).
    eapply safe_grows; [by eapply query_grows|done].
Qed.
Lemma mailboxes_safe fuel mbs : forall p w p' w', tells_moves ->
  sync_mailboxes fuel a seam mbs dir p w = (Ok (Some p'), w') -> safe p -> safe p'.
Proof.
  induction mbs as [|mb mbs IH]; intros p w p' w' Ht Hr Hp; cbn [sync_mailboxes] in Hr; [by injection Hr as <- _|].
  apply bind_Ok in Hr as (o & w1 & Hm & Hr). destruct o as [q|]; [|done]. eapply IH; [done|exact Hr|by eapply mailbox_safe].
Qed.
Lemma finish_keeps anchor p x db r db' m : safe p -> alive x -> row_at db a x = Some m ->
  finish_pass a anchor p db = (r, db') -> row_at db' a x = Some m.
Proof.
  intros [_ Hp] Hal Hm Hr.
  assert (Hx : x ∉ plan_deletions (ps_removed p) (ps_refetched p)).
  { unfold plan_deletions. rewrite list_elem_of_In, filter_In. intros [Hin Hf]. apply list_elem_of_In in Hin.
    apply bool_decide_eq_true in Hf. by apply Hf, Hp. }
  assert (Hd : forall r1 w1, delete_jmap_messages_by_external_ids a (plan_deletions (ps_removed p) (ps_refetched p)) db = (r1, w1) ->
    row_at w1 a x = Some m) by (intros r1 w1 Hd; apply (delete_row_same a x) in Hd; [unfold row_same in Hd; congruence|done]).
  apply bind_inv in Hr as [(e & Hr & _)|(n & w1 & Hr & Hs)]; apply Hd in Hr; [done|].
  assert (Hst : exists y, match anchor, ps_email_state p with Some anchor, Some state => save_jmap_email_state a anchor state | _, _ => ret tt end w1 = (y, db')).
  { apply bind_inv in Hs as [(e & Hs & _)|([] & w2 & Hs & [= _ <-])]; eauto. }
  destruct Hst as [y Hst]. rewrite <- Hr. unfold row_at. f_equal.
  destruct anchor as [f|]; [|by injection Hst as _ <-]. destruct (ps_email_state p) as [st|]; [|by injection Hst as _ <-].
  destruct y as [[]|e]; [|by apply transaction_Err in Hst as [? _]].
  apply transaction_Ok in Hst as (n0 & n1 & w2 & Hw & ->). by apply write_cursor_Ok in Hw as (Hmm & _).
Qed.

End Moved.

(** ** Concrete runs *)

(** A server with fixed contents; a request fails when the head of the world says so. *)
Record script := mkScript {
  sc_mailboxes : list WireMailbox;
  sc_listing : string -> string -> list string;                 (* mailbox, state *)
  sc_state : string;                                            (* the current query state *)
  sc_removed : string -> list string;
  sc_cap : nat;                                                 (* the server's own page limit *)
  sc_changes : string -> result ClientError changes_reply }.
Definition toy_wire_email (id : string) : WireEmail :=
  mkWireEmail (Some id) [] [] None 1 None None None None None None None (Some id) [] [] None None false None None.
Definition toy_request {A} (r : result ClientError A) : io (list bool) ClientError A :=
  fun net => match net with true :: net' => (Err (Transport "reset"), net') | _ => (r, tl net) end.
Definition toy_session : WireSession :=
  mkSession "https:api" "https:up" "https:down" "" [(mail_uri, "acc")] ["acc"] None [] [].
Definition toy_wire (sc : script) : JmapWire (list bool) := {|
  Handle := unit;
  http_get _ _ := fun net => (Ok (mkReply false None), net);
  client_connect _ _ _ := fun net => (Ok tt, net);
  session _ _ := toy_session;
  set_default_account_id h _ := h;
  is_session_updated _ _ := true;
  refresh_session _ := toy_request (Ok tt);
  get_mailbox _ := toy_request (Ok (sc_mailboxes sc));
  query_email _ _ _ _ := toy_request (Err (OtherClient "unused"));
  query_and_get _ mb pos limit :=
    let ids := take (Nat.min limit (sc_cap sc)) (drop (Z.to_nat pos) (sc_listing sc mb (sc_state sc))) in
    toy_request (Ok [QueryReply ids (sc_state sc); GetReply (map toy_wire_email ids) "s1"]);
  get_email _ ids := toy_request (Ok (map toy_wire_email ids, "s1"));
  query_email_changes_req _ mb s _ :=
    toy_request (Ok (mkQueryChanges
      (List.filter (fun x => bool_decide (x ∉ sc_listing sc mb s)) (sc_listing sc mb (sc_state sc)))
      (sc_removed sc mb) (sc_state sc)));
  changes_email _ s _ := toy_request (sc_changes sc s);
  download _ _ := toy_request (Ok "");
  event_stream _ _ := fun net => (Ok (Ok []), net);
|}.
#[export] Instance toy_join : UrlJoin := {| url_join _ l := Ok l; basic_encoded u p := u +:+ ":" +:+ p |}.
#[export] Instance toy_time : JmapTime := fun _ => None.
#[export] Instance toy_hash_order : HashOrder := fun l => l.

Definition box (id name : string) (role : WireRole) : WireMailbox := mkWireMailbox (Some id) (Some name) role None.
Definition jbox (id name role : string) : JmapMailbox := mkMailbox id name (Some role) None.
Definition stored_email (id : string) : JmapEmail :=
  mkEmail id None None None (Some 1) None None None None None None None (Some id) None None None None (Some false) None [].

(** Two mailboxes, [A] with the account-level state; [e1] is stored in [B]. *)
Definition then_ {A B} (m : io mail SyncError A) (k : io mail SyncError B) := let! _ := m in k.
Definition toy_db : mail := snd (
  then_ (upsert_jmap_folder "a1" (jbox "A" "Inbox" "inbox")) (
  then_ (upsert_jmap_folder "a1" (jbox "B" "Kept" "archive")) (
  then_ (persist_jmap_folder_batch "a1" "id1" [stored_email "e1"] (Some "q0")) (
  then_ (persist_jmap_folder_batch "a1" "id0" [] (Some "q0")) (
  save_jmap_email_state "a1" "id0" "s0")))) empty_mail).
Definition toy_world `{JmapWire (list bool)} (db : mail) (net : list bool) : jmap_world (list bool) :=
  mkJl db [] [] (toy_disk None) ∅ net.

Lemma toy_db_ok : mail_ok toy_db.
Proof.
  apply pres_snd, empty_ok. unfold then_. repeat (apply pres_bind; [apply _| |intros _]);
    try apply pres_upsert_jmap_folder; try apply pres_persist_jmap. apply pres_transaction, pres_write_cursor.
Qed.

(** [e1] was filed in both mailboxes and has just left [A]. *)
Definition left_A (changes : string -> result ClientError changes_reply) : script :=
  mkScript [box "A" "Inbox" RInbox; box "B" "Kept" RArchive]
    (fun mb _ => if String.eqb mb "B" then ["e1"] else []) "q1"
    (fun mb => if String.eqb mb "A" then ["e1"] else []) 100 changes.
Definition run_script (sc : script) (net : list bool) (db : mail) :=
  let W := toy_wire sc in
  let '(r, w') := pass_body 3 "a1" (mkSeam (list bool) W tt "o" "h") "/data" (toy_world db net) in
  (r, jl_mail w').

(** When the account-level state expired, the pass that seeds a new one deletes mail that
    left one of its mailboxes, although the comment says the seeding prevents just that;
    it is not told of it again. *)
Theorem stale_state_deletes_kept_mail :
  let sc := left_A (fun _ => Err (MethodE CannotCalculateChanges)) in
  let '(r, db) := run_script sc [] toy_db in
  is_ok r = true /\ is_Some (row_at toy_db "a1" "e1") /\ row_at db "a1" "e1" = None /\
  "e1" ∈ sc_listing sc "B" "q1" /\ cursor_at db "a1" "id0" "email_state" = Some "s1".
Proof. vm_compute. split_and!; try done; [by eexists|by apply list_elem_of_singleton]. Qed.

(** The same when the changes do not fit the eight pages that are read. *)
Theorem change_backlog_deletes_kept_mail :
  let sc := left_A (fun s => Ok (mkChanges [] [] (s +:+ "'") true)) in
  let '(r, db) := run_script sc [] toy_db in
  is_ok r = true /\ is_Some (row_at toy_db "a1" "e1") /\ row_at db "a1" "e1" = None /\ "e1" ∈ sc_listing sc "B" "q1".
Proof. vm_compute. split_and!; try done; [by eexists|by apply list_elem_of_singleton]. Qed.

(** A server may answer fewer ids than the limit asks; the short page is taken for the
    last, and its query state strands the rest. *)
Theorem capped_page_strands_mail :
  let sc := mkScript [box "C" "Old" RArchive] (fun _ _ => ["e1"; "e2"; "e3"]) "q1" (fun _ => []) 2
              (fun s => Ok (mkChanges [] [] s false)) in
  let '(r, db) := run_script sc [] empty_mail in
  is_ok r = true /\ is_Some (row_at db "a1" "e2") /\ row_at db "a1" "e3" = None /\
  cursor_at db "a1" "id0" "state_token" = Some "q1".
Proof. vm_compute. split_and!; try done. by eexists. Qed.

(** The move that is told: [e1] left [A], and the account-level changes say so. *)
Definition told : script := left_A (fun s => Ok (mkChanges ["e1"] ["e9"] "s1" false)).
#[local] Instance told_wire : JmapWire (list bool) := toy_wire told.
Definition told_seam : JmapSeam (list bool) := mkSeam (list bool) told_wire tt "o" "h".

Lemma toy_request_Ok {A} (r : result ClientError A) (x : A) net net' : toy_request r net = (Ok x, net') -> r = Ok x.
Proof. destruct net as [|[] net]; cbn; by intros [= ? _]. Qed.
Lemma toy_request_Err {A} (r : result ClientError A) e net net' : toy_request r net = (Err e, net') ->
  r = Err e \/ e = Transport "reset".
Proof. destruct net as [|[] net]; cbn; intros [= ? _]; auto. Qed.
Lemma toy_wire_ids (ids : list string) : map we_id (map toy_wire_email ids) = map Some ids.
Proof. rewrite map_map. by apply map_ext. Qed.
Lemma told_get ids net es st net' : get_email (sm_client told_seam) ids net = (Ok (es, st), net') ->
  forall x, x ∈ ids -> Some x ∈ map we_id es.
Proof.
  intros Hg x Hx. apply (toy_request_Ok (Ok (map toy_wire_email ids, "s1"))) in Hg. injection Hg as <- _. rewrite toy_wire_ids. by apply list_elem_of_fmap_2.
Qed.
Lemma told_serves : wire_serves told_seam "B" "q1" ["e1"] (fun _ => ["e1"]).
Proof.
  split; [| | | |done|by vm_compute].
  - intros pos net q net' _ Hq. by apply (toy_request_Ok (Err (OtherClient "unused"))) in Hq.
  - intros pos net q g net' ids st es st' _ Hb Hq Hg.
    cbv [query_and_get told_wire toy_wire told_seam sm_client] in Hb. apply toy_request_Ok in Hb. injection Hb as <- <-.
    injection Hq as <- <-. injection Hg as <- <-. split; [done|]. split; [done|]. intros x Hx. rewrite toy_wire_ids. by apply list_elem_of_fmap_2.
  - intros ids net es st net' Hg x Hx _. by eapply told_get.
  - intros st net c net' Hc. apply (toy_request_Ok (Ok (mkQueryChanges [] [] "q1"))) in Hc. injection Hc as <-. split; [done|]. by left.
Qed.
Lemma toy_covered : covered "a1" "id1" (fun _ => ["e1"]) toy_db.
Proof. intros st _ x Hx. apply list_elem_of_singleton in Hx as ->. vm_compute. by eexists. Qed.

Definition toy_mailbox_run :=
  sync_mailbox 1 "a1" told_seam (jbox "B" "Kept" "archive") "/data" (mkPass 0 0 ∅ [] None) (toy_world toy_db [false; true]).
Lemma mailbox_never_stranded_witness :
  covered "a1" "id1" (fun _ => ["e1"]) (jl_mail (snd toy_mailbox_run)) /\
  (forall p', fst toy_mailbox_run = Ok (Some p') -> landed "a1" "id1" "q1" ["e1"] (snd toy_mailbox_run)) /\
  ((length ["e1"] < 1 * QUERY_PAGE)%nat -> fst toy_mailbox_run <> Ok None).
Proof.
  unfold toy_mailbox_run.
  apply (mailbox_never_stranded told_seam "a1" "id1" "B" "q1" "/data" ["e1"] (fun _ => ["e1"]) 1
    (mkFolder "id1" "a1" "B" "Kept" None (Some "archive") None 0 1 1 "0" "0") (jbox "B" "Kept" "archive")
    (mkPass 0 0 ∅ [] None) (toy_world toy_db [false; true])).
  - apply told_serves.
  - apply toy_db_ok.
  - reflexivity.
  - vm_compute. reflexivity.
  - reflexivity.
  - apply toy_covered.
  - apply surjective_pairing.
Defined.

Definition toy_failed_run := run_jmap_sync (T := list bool) 3 "a1" "https:mail.example" "a@x" "pw" "basic" "/data"
  (toy_world toy_db [false; false; false; true]).
Lemma told_resumes since net e net' : changes_email (sm_client told_seam) since CHANGES_PAGE_SIZE net = (Err e, net') ->
  is_stale_query_state (jmap_of_client e) = false.
Proof. intros [Hc| ->]%(toy_request_Err (Ok (mkChanges ["e1"] ["e9"] "s1" false))); done. Qed.
Lemma failed_pass_is_replayed_witness :
  is_ok (fst toy_failed_run) = false /\
  cursor_at (jl_mail (snd toy_failed_run)) "a1" "id0" "email_state" = Some "s0" /\ asks_since "a1" "id0" "s0" (snd toy_failed_run).
Proof.
  assert (Hf : is_ok (fst toy_failed_run) = false) by (vm_compute; reflexivity). split; [exact Hf|].
  destruct (failed_pass_is_replayed 3 "a1" "https:mail.example" "a@x" "pw" "basic" "/data"
    (toy_world toy_db [false; false; false; true]) (fst toy_failed_run) (snd toy_failed_run) "id0" "s0") as [_ Hknown].
  - apply toy_db_ok.
  - vm_compute. reflexivity.
  - unfold toy_failed_run. apply surjective_pairing.
  - intros x Hx. rewrite Hx in Hf. discriminate Hf.
  - destruct Hknown as [Hs Hnext]; [intros [] since n net e net'; apply told_resumes|]. split; [exact Hs|]. by apply Hnext.
Defined.

Lemma told_moves : tells_moves told_seam (fun x => x = "e1") "s0" (fun _ x => x = "e1") (fun _ => 0%nat).
Proof.
  split; try (intros s net r net' Hc; apply (toy_request_Ok (Ok (mkChanges ["e1"] ["e9"] "s1" false))) in Hc; injection Hc as <-).
  - intros x Hx ->. by apply list_elem_of_singleton in Hx.
  - intros x -> _. left. by apply list_elem_of_singleton.
  - done.
  - unfold CHANGES_MAX_PAGES. lia.
  - apply told_resumes.
  - intros ids net es st net' Hg x Hx _. by eapply told_get.
  - by intros mb s net c net' _ x _ ->.
Qed.
Definition toy_moved_run := pass_from 3 "a1" told_seam [jbox "A" "Inbox" "inbox"; jbox "B" "Kept" "archive"]
  (Some "id0") "/data" (toy_world toy_db []).
Definition toy_row : MessageRow := jmap_row "id2" "a1" "id1" "0" (stored_email "e1").
