(* ===== verification/Mbox.v ===== *)
(** * The mail archive ([backup/format.rs], and the pure parts of [backup/export.rs] and
      [backup/import.rs])

    What a folder's mail looks like on disk: the mbox stream and its escaping, the sidecar
    lines, the split on import, and the message that is rebuilt from its columns when its
    bytes are gone.  Byte slices are strings of bytes. *)
From S2P Require Import Prelude Crypto Labels MailStore Blobs.
Local Open Scope string_scope.
Local Open Scope Z_scope.

(** [chrono]: an instant in nanoseconds since the epoch. *)
Class Chrono := {
  parse_rfc3339 : string -> option Z;
  parse_rfc2822 : string -> option Z;
  parse_naive : string -> string -> option Z;           (* [NaiveDateTime::parse_from_str], as UTC *)
  parse_day : string -> string -> option Z;             (* [NaiveDate::parse_from_str], at midnight UTC *)
  to_rfc3339 : Z -> string;
  to_rfc2822 : Z -> string;
}.

(** [db_row::parse_ts]. *)
Definition NAIVE_TS_FMTS : list string :=
  ["%Y-%m-%d %H:%M:%S"; "%Y-%m-%dT%H:%M:%S"; "%Y%m%dT%H%M%SZ"; "%Y%m%dT%H%M%S"].
Definition parse_ts `{Chrono} (raw : string) : option Z :=
  let raw := trim raw in
  if is_empty raw then None else
  or_else (parse_rfc3339 raw) (or_else (parse_rfc2822 raw)
    (or_else (first_of (fun fmt => parse_naive fmt raw) NAIVE_TS_FMTS)
      (or_else (parse_day "%Y-%m-%d" raw) (parse_day "%Y%m%d" raw)))).
(** [DateTime::timestamp]: whole seconds, rounded down. *)
Definition timestamp (t : Z) : Z := t / nanos_per_sec.

(** ** The mbox stream *)

(** One sidecar line; [serde] derives its text. *)
Record MetaLine := mkMetaLine {
  mt_message_id : option string; mt_flags : list string; mt_date : option string; mt_sha256 : string;
  mt_reconstructed : bool }.
Class MetaLib := { meta_text : MetaLine -> string; meta_parse : string -> option MetaLine }.
(** Documented behaviour of serde: a compact object on one line, which it reads back. *)
Class MetaLaws `{MetaLib} := {
  meta_roundtrip m : meta_parse (meta_text m) = Some m;
  meta_object m : exists s, meta_text m = "{" +:+ s +:+ "}" /\ sforall (fun a => negb (Ascii.eqb a nl)) s = true;
}.

Definition escape_mbox_line (line : string) : string :=
  if starts_with "From " line || starts_with ">" line then ">" +:+ line else line.
Definition write_mbox_message (out from_addr : string) (epoch : Z) (raw : string) : string :=
  out +:+ "From " +:+ from_addr +:+ " " +:+ show_Z epoch +:+ crlf
    +:+ join lf (map escape_mbox_line (split_char nl raw)) +:+ crlf.

Definition unescape_mbox_line (line : string) : string :=
  match strip_prefix ">" line with Some rest => rest | None => line end.

(** The loop of [split_mbox]; every round consumes a byte, so the length is enough fuel. *)
Definition slice (a b : nat) (s : string) : string := stake (b - a) (sdrop a s).
Fixpoint split_loop (fuel : nat) (mbox : string) (body_start : option nat) (pos : nat) (out : list string)
    : list string :=
  let finish := match body_start with Some start => (out ++ [sdrop start mbox])%list | None => out end in
  match fuel with
  | O => finish
  | S fuel =>
      if (String.length mbox <=? pos)%nat then finish else
      let '(line, next) := match split_once nl (sdrop pos mbox) with
                           | Some (line, _) => (line, pos + String.length line + 1)%nat
                           | None => (sdrop pos mbox, String.length mbox)
                           end in
      if starts_with "From " (default line (strip_suffix (String cr "") line))
      then split_loop fuel mbox (Some next) next
             (match body_start with Some start => (out ++ [slice start pos mbox])%list | None => out end)
      else split_loop fuel mbox body_start next out
  end.
Definition split_mbox (mbox : string) : list string := split_loop (String.length mbox) mbox None 0 [].

Definition recover_raw (chunk : string) : string :=
  let chunk := default chunk (strip_suffix crlf chunk) in
  join lf (map unescape_mbox_line (split_char nl chunk)).

(** ** Rebuilt messages

    [MailRow]: the columns an export reads.  No store function writes [received_at]. *)
Record MailRow := mkMailRow {
  mr_id : string; mr_external_id : option string; mr_message_id_header : option string;
  mr_subject : option string; mr_from_address : option string; mr_to_addresses : option string;
  mr_cc_addresses : option string; mr_date : option string; mr_received_at : option string;
  mr_is_read : bool; mr_is_starred : bool; mr_body_text : option string; mr_body_html : option string }.

Definition dquote : ascii := ascii_of_N 34.
Definition backslash : ascii := ascii_of_N 92.
Definition is_crlf (a : ascii) : bool := Ascii.eqb a cr || Ascii.eqb a nl.
Definition is_ascii_char (a : ascii) : bool := (byte a <? 128)%N.
Definition is_ascii : string -> bool := sforall is_ascii_char.
(** [s.chars()], each as its bytes. *)
Definition at_char (s : string) : bool := match s with String b _ => char_start b | EmptyString => true end.
Fixpoint chars (s : string) : list string :=
  match s with
  | EmptyString => []
  | String a s' =>
      match chars s' with
      | c :: rest => if at_char s' then String a "" :: c :: rest else String a c :: rest
      | [] => [String a ""]
      end
  end.
Fixpoint replace_chars (f : ascii -> string) (s : string) : string :=
  match s with EmptyString => "" | String a s' => f a +:+ replace_chars f s' end.
(** [trim_matches(c)]. *)
Definition trim_char (c : ascii) (s : string) : string := drop_while_end (Ascii.eqb c) (drop_while (Ascii.eqb c) s).
Definition some_text (s : string) : option string := if is_empty s then None else Some s.

Definition sanitize_header (value : string) : string := smap (fun a => if is_crlf a then " "%char else a) value.
Definition push_header (out name value : string) : string := out +:+ name +:+ ": " +:+ value +:+ crlf.

(** [raw.rsplit_once('<')], a bare address, a bare name. *)
Definition split_address (raw : string) : option string * option string :=
  let raw := trim raw in
  match rsplit_once_str "<" raw with
  | Some (name, rest) =>
      (some_text (trim_char dquote (trim name)), some_text (trim (drop_while_end (Ascii.eqb ">") rest)))
  | None =>
      if contains_char "@" raw then (None, Some raw)
      else if is_empty raw then (None, None) else (Some raw, None)
  end.

Definition ENCODED_WORD_PAYLOAD_CHARS : nat := 60.
Definition div_ceil (n d : nat) : nat := ((n + (d - 1)) / d)%nat.

Section Rebuild.
Context `{Chrono} `{CryptoLib} `{JsonLib}.

Definition encoded_word (chunk : string) : string := "=?UTF-8?B?" +:+ b64_encode chunk +:+ "?=".
(** The loop of [encode_header_value]: the payload of each word. *)
Fixpoint word_chunks (cs : list string) (chunk : string) : list string :=
  match cs with
  | [] => if is_empty chunk then [] else [chunk]
  | ch :: cs =>
      let next_bytes := (String.length chunk + String.length ch)%nat in
      if negb (is_empty chunk) && (ENCODED_WORD_PAYLOAD_CHARS <? 4 * div_ceil next_bytes 3)%nat
      then chunk :: word_chunks cs ch
      else word_chunks cs (chunk +:+ ch)
  end.
Definition encode_header_value (value : string) : string :=
  let clean := sanitize_header value in
  if is_ascii clean then clean else join (crlf +:+ " ") (map encoded_word (word_chunks (chars clean) "")).

Definition entry_address (entry : Json) : option string * option string :=
  match entry with
  | JString s => split_address s
  | other =>
      (some_text (default "" (json_field "name" other ≫= json_str)),
       some_text (default "" (json_field "email" other ≫= json_str)))
  end.
Definition address_entries (json : option string) : list (option string * option string) :=
  let raw := trim (default "" json) in
  if is_empty raw then [] else
  match json_parse raw with
  | Some (JArray entries) =>
      List.filter (fun '(n, e) => bool_decide (is_Some n \/ is_Some e)) (map entry_address entries)
  | Some (JObject fields) =>
      match json_field "raw" (JObject fields) ≫= json_str with Some s => [split_address s] | None => [] end
  | Some (JString s) => [split_address s]
  | _ => [split_address raw]
  end.

Definition special_name_char (a : ascii) : bool :=
  existsb (Ascii.eqb a) [","%char; ";"%char; dquote; "<"%char; ">"%char; "@"%char; backslash].
Definition format_display_name (name : string) : string :=
  let clean := sanitize_header name in
  if is_empty clean then ""
  else if negb (is_ascii clean) then encode_header_value clean
  else if sexists special_name_char clean
  then String dquote (replace_chars (fun a => if Ascii.eqb a backslash || Ascii.eqb a dquote
                                               then String backslash (String a "") else String a "") clean)
       +:+ String dquote ""
  else clean.
Definition format_mailbox (name email : option string) : string :=
  match name, email with
  | Some n, Some e =>
      let display := format_display_name n in
      if is_empty display then sanitize_header e else display +:+ " <" +:+ e +:+ ">"
  | None, Some e => sanitize_header e
  | Some n, None => format_display_name n
  | None, None => ""
  end.
Definition header_address_list (json : option string) : option string :=
  some_text (join ", " (List.filter (fun s => negb (is_empty s))
    (map (fun '(n, e) => format_mailbox n e) (address_entries json)))).
Definition header_from (json : option string) : string :=
  default "unknown@localhost" (header_address_list json).
Definition mbox_from_addr (json : option string) : string :=
  match head (address_entries json) ≫= snd with
  | Some e => if contains_char "@" e && negb (sexists is_crlf e) then e else "unknown@localhost"
  | None => "unknown@localhost"
  end.

Definition epoch (row : MailRow) : Z :=
  match or_else (mr_date row ≫= parse_ts) (mr_received_at row ≫= parse_ts) with
  | Some d => timestamp d | None => 0 end.

Definition push_opt (name : string) (value : option string) (out : string) : string :=
  match value with Some v => push_header out name v | None => out end.
Definition reconstruct_message (row : MailRow) : string :=
  let out := push_header "" "From" (header_from (mr_from_address row)) in
  let out := push_opt "To" (header_address_list (mr_to_addresses row)) out in
  let out := push_opt "Cc" (header_address_list (mr_cc_addresses row)) out in
  let out := push_opt "Subject" (option_map encode_header_value (nonempty (mr_subject row))) out in
  let out := push_opt "Date" (option_map to_rfc2822 (mr_date row ≫= parse_ts)) out in
  let out := push_opt "Message-ID" (option_map sanitize_header (nonempty (mr_message_id_header row))) out in
  let out := out +:+ "MIME-Version: 1.0" +:+ crlf in
  match nonempty (mr_body_html row) with
  | Some html => out +:+ "Content-Type: text/html; charset=utf-8" +:+ crlf +:+ crlf +:+ html
  | None => out +:+ "Content-Type: text/plain; charset=utf-8" +:+ crlf +:+ crlf +:+ default "" (mr_body_text row)
  end.
End Rebuild.

(** ** A folder's two files *)

Section Entries.
Context `{Chrono} `{CryptoLib} `{JsonLib} `{BlobLib} `{MetaLib}.

(** The two texts of [write_entry]. *)
Definition entry_mbox (row : MailRow) (raw : string) : string :=
  write_mbox_message "" (mbox_from_addr (mr_from_address row)) (epoch row) raw.
Definition entry_meta (row : MailRow) (raw : string) (reconstructed : bool) : MetaLine :=
  mkMetaLine (mr_message_id_header row)
    ((if mr_is_read row then ["seen"] else []) ++ (if mr_is_starred row then ["flagged"] else []))%list
    (option_map to_rfc3339 (mr_date row ≫= parse_ts)) (sha256_hex raw) reconstructed.

(** The sidecar on import: the lines that are not blank, each parsed. *)
Definition sidecar_lines (text : string) : list string :=
  List.filter (fun l => negb (is_empty (trim l))) (lines text).
Definition parse_sidecar (text : string) : list (option MetaLine) := map meta_parse (sidecar_lines text).
End Entries.

(** ** Lemmas: what is written is split and recovered *)

Definition no_nl (s : string) : bool := sforall (fun a => negb (Ascii.eqb a nl)) s.

Lemma escape_no_nl l : no_nl l = true -> no_nl (escape_mbox_line l) = true.
Proof. unfold escape_mbox_line. by destruct (_ || _). Qed.
Lemma unescape_escape l : unescape_mbox_line (escape_mbox_line l) = l.
Proof.
  unfold escape_mbox_line, unescape_mbox_line. destruct (starts_with "From " l || starts_with ">" l) eqn:He.
  - by rewrite strip_prefix_app.
  - apply orb_false_iff in He as [_ He]. destruct (strip_prefix ">" l) as [r|] eqn:Hs; [|done].
    apply strip_prefix_spec in Hs as ->. by rewrite prefix_app in He.
Qed.

Lemma recover_written raw :
  recover_raw (join lf (map escape_mbox_line (split_char nl raw)) +:+ crlf) = raw.
Proof.
  unfold recover_raw. rewrite strip_suffix_app. cbn [from_option id]. unfold lf. rewrite split_join.
  - rewrite map_map. rewrite (map_ext _ id unescape_escape), map_id. apply join_split.
  - pose proof (split_char_nonempty nl raw). by destruct (split_char nl raw).
  - apply List.Forall_map. eapply Forall_impl; [apply split_no_sep|]. intros l. apply escape_no_nl.
Qed.

(** The stream as lines, each ended by a line feed. *)
Fixpoint terminated (ls : list string) : string :=
  match ls with [] => "" | l :: ls => l +:+ lf +:+ terminated ls end.
Lemma terminated_app l k : terminated (l ++ k) = terminated l +:+ terminated k.
Proof. induction l as [|x l IH]; [done|]. cbn [app terminated]. by rewrite IH, !app_assoc_s. Qed.

Definition separator (line : string) : bool := starts_with "From " (default line (strip_suffix (String cr "") line)).
(** [split_mbox], on lines: [cur] is the chunk being read. *)
Definition flush (cur : option string) : list string := match cur with Some c => [c] | None => [] end.
Fixpoint chunks_of_lines (cur : option string) (ls : list string) : list string :=
  match ls with
  | [] => flush cur
  | l :: ls => if separator l then (flush cur ++ chunks_of_lines (Some "") ls)%list
               else chunks_of_lines (option_map (fun c => c +:+ l +:+ lf) cur) ls
  end.

(** What the loop holds: where the chunk being read starts. *)
Definition reading (pre : string) (cur : option string) (start : option nat) : Prop :=
  match cur with
  | Some c => exists before, pre = before +:+ c /\ start = Some (String.length before)
  | None => start = None
  end.
Lemma reading_rest pre cur start rest : reading pre cur start ->
  (match start with Some s => [sdrop s (pre +:+ rest)] | None => [] end) =
  match cur with Some c => [c +:+ rest] | None => [] end /\
  (match start with Some s => [slice s (String.length pre) (pre +:+ rest)] | None => [] end) = flush cur.
Proof.
  destruct cur as [c|]; cbn [reading flush]; [intros (before & -> & ->)|by intros ->].
  unfold slice. rewrite slength_app, app_assoc_s, sdrop_app.
  replace (String.length before + String.length c - String.length before)%nat with (String.length c) by lia.
  by rewrite stake_app.
Qed.
Lemma out_match {A} (out : list A) (o : option nat) (f : nat -> A) :
  match o with Some s => (out ++ [f s])%list | None => out end =
  (out ++ match o with Some s => [f s] | None => [] end)%list.
Proof. destruct o; [done|]. by rewrite app_nil_r. Qed.

Lemma split_loop_lines ls : forall fuel pre cur start out,
  Forall (fun l => no_nl l = true) ls -> (String.length (terminated ls) <= fuel)%nat -> reading pre cur start ->
  split_loop fuel (pre +:+ terminated ls) start (String.length pre) out = (out ++ chunks_of_lines cur ls)%list.
Proof.
  induction ls as [|l ls IH]; intros fuel pre cur start out Hl Hf Hr.
  - pose proof (reading_rest _ _ _ "" Hr) as [Hrest _]. cbn [terminated chunks_of_lines].
    assert (Hfin : (match start with Some s => (out ++ [sdrop s (pre +:+ "")])%list | None => out end) =
                   (out ++ flush cur)%list).
    { rewrite out_match, Hrest. destruct cur; [|done]. by rewrite app_nil_r_s. }
    destruct fuel; cbn [split_loop]; [done|]. rewrite slength_app, Nat.add_0_r, Nat.leb_refl. done.
  - apply Forall_cons in Hl as [Hnl Hl]. cbn [terminated] in Hf |- *. rewrite !slength_app in Hf. cbn in Hf.
    destruct fuel as [|fuel]; [lia|]. cbn [split_loop].
    destruct (Nat.leb_spec (String.length (pre +:+ l +:+ lf +:+ terminated ls)) (String.length pre)) as [Hle|_].
    { rewrite !slength_app in Hle. cbn in Hle. lia. }
    rewrite sdrop_app. assert (Hso : split_once nl (l +:+ lf +:+ terminated ls) = Some (l, terminated ls)) by by apply split_once_app.
    rewrite Hso.
    fold (separator l). rewrite out_match.
    pose proof (reading_rest _ _ _ (l +:+ lf +:+ terminated ls) Hr) as [_ Hslice]. rewrite Hslice.
    replace (pre +:+ l +:+ lf +:+ terminated ls) with ((pre +:+ l +:+ lf) +:+ terminated ls)
      by (by rewrite !app_assoc_s).
    replace (String.length pre + String.length l + 1)%nat with (String.length (pre +:+ l +:+ lf))
      by (rewrite !slength_app; cbn; lia).
    cbn [chunks_of_lines]. destruct (separator l).
    + rewrite (IH fuel _ (Some "")); [by rewrite app_assoc| done | lia |].
      exists (pre +:+ l +:+ lf). by rewrite app_nil_r_s.
    + apply IH; [done|lia|]. destruct cur as [c|]; cbn in *; [|done].
      destruct Hr as (before & -> & ->). exists before. by rewrite !app_assoc_s.
Qed.

Lemma split_mbox_lines ls : Forall (fun l => no_nl l = true) ls ->
  split_mbox (terminated ls) = chunks_of_lines None ls.
Proof. intros Hl. unfold split_mbox. by apply (split_loop_lines ls _ "" None None []). Qed.

Fixpoint add_cr (ls : list string) : list string :=
  match ls with
  | [] => []
  | [l] => [l +:+ String cr ""]
  | l :: ls => l :: add_cr ls
  end.
Definition body_lines (raw : string) : list string := add_cr (map escape_mbox_line (split_char nl raw)).
Definition message_lines (addr : string) (epoch : Z) (raw : string) : list string :=
  ("From " +:+ addr +:+ " " +:+ show_Z epoch +:+ String cr "") :: body_lines raw.

Lemma terminated_add_cr l ls : terminated (add_cr (l :: ls)) = join lf (l :: ls) +:+ crlf.
Proof.
  revert l. induction ls as [|k ls IH]; intros l.
  - cbn. by rewrite app_assoc_s.
  - change (add_cr (l :: k :: ls)) with (l :: add_cr (k :: ls)).
    change (join lf (l :: k :: ls)) with (l +:+ lf +:+ join lf (k :: ls)).
    cbn [terminated]. by rewrite IH, !app_assoc_s.
Qed.
Lemma terminated_body raw : terminated (body_lines raw) = join lf (map escape_mbox_line (split_char nl raw)) +:+ crlf.
Proof.
  unfold body_lines. pose proof (split_char_nonempty nl raw) as Hne.
  destruct (map escape_mbox_line (split_char nl raw)) as [|l ls] eqn:Hm; [by destruct (split_char nl raw)|].
  apply terminated_add_cr.
Qed.
Lemma written_lines out addr epoch raw :
  write_mbox_message out addr epoch raw = out +:+ terminated (message_lines addr epoch raw).
Proof.
  unfold write_mbox_message, message_lines. cbn [terminated]. rewrite terminated_body, !app_assoc_s. done.
Qed.

Lemma add_cr_Forall (P : string -> Prop) ls :
  Forall P ls -> (forall l, P l -> P (l +:+ String cr "")) -> Forall P (add_cr ls).
Proof.
  intros Hl Hcr. induction Hl as [|l ls Hp Hl IH]; [constructor|]. destruct ls; constructor; auto.
Qed.
Lemma no_nl_app s t : no_nl (s +:+ t) = no_nl s && no_nl t.
Proof. apply sforall_app. Qed.
Lemma show_Z_no_nl z : no_nl (show_Z z) = true.
Proof.
  assert (Hd : forall n, no_nl (show_N n) = true) by (intros n; apply digits_no_char; [done|apply show_N_digits]).
  unfold show_Z. destruct (z <? 0); [|done]. exact (Hd (Z.to_N (- z))).
Qed.
Lemma body_no_nl raw : Forall (fun l => no_nl l = true) (body_lines raw).
Proof.
  apply add_cr_Forall.
  - apply List.Forall_map. eapply Forall_impl; [apply split_no_sep|]. intros l. apply escape_no_nl.
  - intros l Hl. by rewrite no_nl_app, Hl.
Qed.

Lemma escaped_not_from l : starts_with "From " (escape_mbox_line l) = false.
Proof.
  unfold escape_mbox_line. destruct (starts_with "From " l || starts_with ">" l) eqn:He; [done|].
  by apply orb_false_iff in He as [He _].
Qed.
Lemma strip_suffix_spec p s t : strip_suffix p s = Some t -> s = t +:+ p.
Proof.
  unfold strip_suffix. destruct (strip_prefix (string_rev p) (string_rev s)) as [r|] eqn:Hs; [|done].
  intros [= <-]. apply strip_prefix_spec in Hs. apply (f_equal string_rev) in Hs.
  by rewrite string_rev_app, !string_rev_involutive in Hs.
Qed.
Lemma not_from_prefix l : starts_with "From " l = false -> starts_with "From " (default l (strip_suffix (String cr "") l)) = false.
Proof.
  destruct (strip_suffix _ l) as [r|] eqn:Hs; [|done]. cbn [from_option id]. apply strip_suffix_spec in Hs as ->.
  intros Hf. apply not_true_iff_false. intros (t & ->)%starts_with_spec. by rewrite app_assoc_s, prefix_app in Hf.
Qed.
Lemma body_no_separator raw : Forall (fun l => separator l = false) (body_lines raw).
Proof.
  assert (Hl : Forall (fun l => starts_with "From " l = false) (map escape_mbox_line (split_char nl raw))).
  { apply List.Forall_map. apply Forall_true. intros l. apply escaped_not_from. }
  unfold body_lines. induction Hl as [|l ls Hp Hl IH]; [constructor|].
  destruct ls; [|constructor; [by apply not_from_prefix|exact IH]].
  constructor; [|constructor]. unfold separator. by rewrite strip_suffix_app.
Qed.

Lemma chunks_body cur ls rest : Forall (fun l => separator l = false) ls ->
  chunks_of_lines cur (ls ++ rest) = chunks_of_lines (option_map (fun c => c +:+ terminated ls) cur) rest.
Proof.
  intros Hl. revert cur. induction Hl as [|l ls Hp Hl IH]; intros cur; cbn [app terminated chunks_of_lines].
  - destruct cur as [c|]; [|done]. cbn. by rewrite app_nil_r_s.
  - rewrite Hp, IH. destruct cur as [c|]; [|done]. cbn. by rewrite !app_assoc_s.
Qed.

Definition archived : Type := string * Z * string.
Definition mbox_stream (out : string) (msgs : list archived) : string :=
  foldl (fun out '(addr, epoch, raw) => write_mbox_message out addr epoch raw) out msgs.
Definition stream_lines (msgs : list archived) : list string :=
  concat (map (fun '(addr, epoch, raw) => message_lines addr epoch raw) msgs).
Lemma mbox_stream_lines msgs out : mbox_stream out msgs = out +:+ terminated (stream_lines msgs).
Proof.
  unfold mbox_stream, stream_lines. revert out. induction msgs as [|[[a e] r] msgs IH]; intros out;
    cbn [foldl map concat]; [by rewrite app_nil_r_s|].
  by rewrite IH, written_lines, terminated_app, app_assoc_s.
Qed.

(** Whatever the bytes of the messages, the stream splits into exactly what was written. *)
Lemma mbox_run (msgs : list archived) : Forall (fun '(addr, _, _) => no_nl addr = true) msgs ->
  map recover_raw (split_mbox (mbox_stream "" msgs)) = map snd msgs.
Proof.
  intros Ha. rewrite mbox_stream_lines. change ("" +:+ ?x) with x. rewrite split_mbox_lines.
  2: { unfold stream_lines. clear -Ha. induction Ha as [|[[a e] r] msgs Hn Ha IH]; [constructor|].
       cbn [map concat]. apply Forall_app. split; [|done]. constructor; [|apply body_no_nl].
       rewrite !no_nl_app, Hn, show_Z_no_nl. done. }
  unfold stream_lines. cut (forall cur, map recover_raw (chunks_of_lines cur (concat (map (fun '(a, e, r) => message_lines a e r) msgs)))
    = (map recover_raw (flush cur) ++ map snd msgs)%list); [intros Hc; apply (Hc None)|].
  clear Ha. induction msgs as [|[[a e] r] msgs IH]; intros cur; cbn [map concat]; [cbn; by rewrite app_nil_r|].
  unfold message_lines at 1. rewrite <- app_comm_cons. cbn [chunks_of_lines].
  assert (Hs : separator ("From " +:+ a +:+ " " +:+ show_Z e +:+ String cr "") = true).
  { unfold separator. rewrite <- !app_assoc_s, strip_suffix_app. cbn [from_option id]. by rewrite !app_assoc_s, prefix_app. }
  rewrite Hs, map_app, chunks_body by apply body_no_separator. rewrite IH. cbn [option_map flush map snd].
  change ("" +:+ ?x) with x. by rewrite terminated_body, recover_written.
Qed.

(** ** Lemmas: the sidecar *)

Section SidecarLemmas.
Context `{Chrono} `{CryptoLib} `{JsonLib} `{BlobLib} `{MetaLaws}.

Lemma mbox_from_addr_no_nl json : no_nl (mbox_from_addr json) = true.
Proof.
  unfold mbox_from_addr. destruct (head _ ≫= snd) as [e|]; [|done].
  destruct (contains_char "@" e && negb (sexists is_crlf e)) eqn:He; [|done].
  apply andb_true_iff in He as [_ He]. unfold sexists in He. rewrite negb_involutive in He.
  revert He. apply sforall_impl. intros a Ha. unfold is_crlf in Ha. by destruct (Ascii.eqb a cr), (Ascii.eqb a nl).
Qed.

Lemma split_terminated ls : Forall (fun l => no_nl l = true) ls -> split_char nl (terminated ls) = (ls ++ [""])%list.
Proof.
  induction 1 as [|l ls Hl _ IH]; [done|]. cbn [terminated app]. rewrite <- IH. by apply split_char_app.
Qed.
Lemma lines_terminated ls : Forall (fun l => no_nl l = true) ls -> lines (terminated ls) = map strip_cr ls.
Proof.
  intros Hl. unfold lines. rewrite split_terminated by done. by rewrite List.last_last, removelast_last.
Qed.

Lemma brace_not_ws a b : is_ws2 a "}" = false /\ is_ws3 a b "}" = false.
Proof. unfold is_ws2, is_ws3. cbn. by rewrite ?andb_false_r. Qed.
Lemma trim_braces s : trim ("{" +:+ s +:+ "}") = "{" +:+ s +:+ "}".
Proof.
  unfold trim. replace (trim_start ("{" +:+ s +:+ "}")) with ("{" +:+ s +:+ "}") by (by destruct s as [|? [|? ?]]).
  unfold trim_end. rewrite !string_rev_app.
  assert (Hr : forall r, trim_start_rev (String "}" r) = String "}" r).
  { intros [|b [|c r]]; [done| |]; cbn [trim_start_rev]; pose proof (brace_not_ws b b) as [-> _]; [done|].
    by pose proof (brace_not_ws c b) as [_ ->]. }
  change (trim_start_rev _) with (trim_start_rev (String "}" (string_rev s +:+ "{"))). rewrite Hr.
  change (String "}" (string_rev s +:+ "{")) with ("}" +:+ string_rev s +:+ "{").
  rewrite !string_rev_app, string_rev_involutive. by rewrite ?app_assoc_s.
Qed.
Lemma strip_cr_braces s : strip_cr ("{" +:+ s +:+ "}") = "{" +:+ s +:+ "}".
Proof. unfold strip_cr. rewrite !string_rev_app. done. Qed.

Lemma sidecar_run (metas : list MetaLine) :
  parse_sidecar (terminated (map meta_text metas)) = map Some metas.
Proof.
  unfold parse_sidecar, sidecar_lines. rewrite lines_terminated.
  - induction metas as [|m ms IH]; [done|]. cbn [map List.filter].
    assert (Hm : strip_cr (meta_text m) = meta_text m /\ is_empty (trim (meta_text m)) = false).
    { destruct (meta_object m) as (s & -> & _). by rewrite strip_cr_braces, trim_braces. }
    destruct Hm as [-> ->]. cbn [negb map]. rewrite meta_roundtrip. by f_equal.
  - apply List.Forall_map, Forall_true. intros m. destruct (meta_object m) as (s & -> & Hs).
    change (no_nl ("{" +:+ s +:+ "}") = true). rewrite !no_nl_app. by apply andb_true_iff; split; [|apply andb_true_iff; split].
Qed.

(** A folder's entries as they were written. *)
Definition entry : Type := MailRow * string * bool.
Definition archived_of (e : entry) : archived :=
  let '(row, raw, _) := e in (mbox_from_addr (mr_from_address row), epoch row, raw).
Definition meta_of (e : entry) : MetaLine := let '(row, raw, r) := e in entry_meta row raw r.

Lemma entries_run (es : list entry) :
  map recover_raw (split_mbox (mbox_stream "" (map archived_of es))) = map (fun '(_, raw, _) => raw) es /\
  parse_sidecar (terminated (map meta_text (map meta_of es))) = map (fun e => Some (meta_of e)) es.
Proof.
  split.
  - rewrite mbox_run.
    + rewrite map_map. apply map_ext. by intros [[row raw] r].
    + apply List.Forall_map, Forall_true. intros [[row raw] r]. apply mbox_from_addr_no_nl.
  - by rewrite sidecar_run, map_map.
Qed.
End SidecarLemmas.

(** ** Witnesses: a line format with the laws of serde *)

Definition nibble (n : N) : ascii := ascii_of_N (65 + n).
Fixpoint hex (s : string) : string :=
  match s with
  | EmptyString => ""
  | String a s' => String (nibble (byte a / 16)) (String (nibble (byte a mod 16)) (hex s'))
  end.
Fixpoint unhex (s : string) : string :=
  match s with
  | String a (String b s') => String (ascii_of_N ((byte a - 65) * 16 + (byte b - 65))) (unhex s')
  | _ => ""
  end.
Lemma unhex_hex s : unhex (hex s) = s.
Proof.
  induction s as [|a s IH]; [done|]. cbn [hex unhex]. rewrite IH. f_equal.
  by destruct a as [[] [] [] [] [] [] [] []].
Qed.
Lemma hex_no_nl s : no_nl (hex s) = true.
Proof.
  induction s as [|a s IH]; [done|]. unfold no_nl in *. cbn [hex sforall]. rewrite IH.
  by destruct a as [[] [] [] [] [] [] [] []].
Qed.

Definition opt_text (o : option string) : string := match o with Some s => "+" +:+ s | None => "-" end.
Definition opt_of (s : string) : option string := strip_prefix "+" s.
Definition toy_fields (m : MetaLine) : list string :=
  opt_text (mt_message_id m) :: opt_text (mt_date m) :: mt_sha256 m ::
  (if mt_reconstructed m then "1" else "0") :: mt_flags m.
Definition toy_meta_parse (s : string) : option MetaLine :=
  body ← strip_prefix "{" s ≫= strip_suffix "}";
  match toy_parse (S (String.length (unhex body))) (unhex body) with
  | Some (JString mid :: JString date :: JString sha :: JString rc :: flags) =>
      Some (mkMetaLine (opt_of mid) (omap item_flag flags) (opt_of date) sha (String.eqb rc "1"))
  | _ => None
  end.
#[export] Instance toy_meta : MetaLib := {|
  meta_text m := "{" +:+ hex (toy_text (toy_fields m)) +:+ "}"; meta_parse := toy_meta_parse |}.
#[export] Instance toy_meta_laws : MetaLaws.
Proof.
  split.
  - intros m. unfold meta_parse, meta_text, toy_meta, toy_meta_parse. rewrite strip_prefix_app. cbn [mbind option_bind].
    rewrite strip_suffix_app. cbn [mbind option_bind]. rewrite unhex_hex.
    rewrite toy_parse_text by (pose proof (toy_text_length (toy_fields m)); lia).
    destruct m as [mid flags date sha rc]. cbn. f_equal. f_equal.
    + by destruct mid.
    + induction flags as [|x flags IH]; [done|]. cbn. by f_equal.
    + by destruct date.
    + by destruct rc.
  - intros m. exists (hex (toy_text (toy_fields m))). split; [done|apply hex_no_nl].
Qed.

#[export] Instance toy_chrono : Chrono := {|
  parse_rfc3339 _ := None; parse_rfc2822 _ := None; parse_naive _ _ := None; parse_day _ _ := None;
  to_rfc3339 := show_Z; to_rfc2822 := show_Z |}.

(** A mailbox with a name keeps its address as it is: a line break in it adds headers to a
    rebuilt message. *)
Theorem mailbox_email_injects_header `{CryptoLib} :
  format_mailbox (Some "Ann") (Some ("a@b.c" +:+ crlf +:+ "Bcc: x@y.z")) =
  "Ann <a@b.c" +:+ crlf +:+ "Bcc: x@y.z>".
Proof. reflexivity. Qed.
