(* ===== verification/Backup.v ===== *)
(** * Backup and restore of mail ([backup/export.rs], [backup/import.rs])

    A folder is written to two files, [<folder>.mbox] and [<folder>.meta.jsonl], and merged
    into an account from them, message by message.  The world is that of the JMAP pass: the
    database, the attachment rows and the disk.  What an account's server answers for
    messages whose bytes are not on disk is an argument. *)
From S2P Require Import Prelude Crypto Toy Labels Jobs Pool MailStore Netsec Imap Blobs Jmap JmapLoop Mbox.
Local Open Scope string_scope.
Local Open Scope Z_scope.

Class ErrorText := sync_text : SyncError -> string.     (* [Display], derived *)

(** The [folder] and [mail_account] columns that an export of mail reads. *)
Record ExportFolder := mkExportFolder { ef_id : string; ef_account : string }.

Record FolderWriter := mkWriter { fw_mbox : string; fw_meta : string; fw_written : Z }.

Record SectionCounts := mkCounts { sc_inserted : Z; sc_skipped : Z; sc_repaired : Z; sc_failed : Z }.
Record ImportReport := mkReport {
  rp_settings : bool; rp_accounts : SectionCounts; rp_folders : SectionCounts; rp_messages : SectionCounts;
  rp_contacts : SectionCounts; rp_calendars : SectionCounts; rp_errors : list string }.
Definition REPORT_ERROR_CAP : nat := 10.
Definition SERVER_FETCH_BATCH : nat := 50.

Definition set_messages_counts (c : SectionCounts) (r : ImportReport) : ImportReport :=
  mkReport (rp_settings r) (rp_accounts r) (rp_folders r) c (rp_contacts r) (rp_calendars r) (rp_errors r).
Definition add_failed (n : Z) (r : ImportReport) : ImportReport :=
  let c := rp_messages r in
  set_messages_counts (mkCounts (sc_inserted c) (sc_skipped c) (sc_repaired c) (sc_failed c + n)) r.

Record ExistingMessage := mkExisting { em_id : string; em_has_raw : bool; em_has_attachments : bool }.
Record MessageOutcome := mkMsgOutcome { mo_inserted : bool; mo_repaired : bool; mo_warnings : list string }.

Section Backup.
Context {T : Type} `{JmapWire T} `{Chrono} `{CryptoLib} `{StoreLib} `{JsonLib} `{BlobLib} `{MetaLib}
  `{MimeLib} `{JobLib} `{ErrorText}.
Local Abbreviation world := (jmap_world T).
Local Abbreviation M := (io world BackupError).

Definition sync_err (e : SyncError) : BackupError :=
  match e with Database m => BackupDb m | other => BackupInternal (sync_text other) end.
Definition io_err (e : BlobError) : BackupError := let '(Io m) := e in BackupIo m.
Definition db {A} (m : io mail SyncError A) : M A := map_err sync_err (on_mail m).
Definition fs {A} (m : io disk BlobError A) : M A := map_err io_err (on_disk m).

(** [File::write_all] at the end of an open file. *)
Definition fs_append (full data : string) : io disk BlobError unit :=
  fun d => let cur := default "" (d_files d !! full) in
    if d_read_only d then (Err (Io "read-only file system"), d) else
    match d_free d with
    | None => (Ok tt, set_files (<[full := cur +:+ data]> (d_files d)) d)
    | Some n =>
        let d' := mkDisk (<[full := cur +:+ stake n data]> (d_files d)) (Some (n - String.length data)%nat) false in
        if (String.length data <=? n)%nat then (Ok tt, d') else (Err (Io "no space left on device"), d')
    end.

(** ** Export *)

(** [NULL] dates sort first. *)
Definition date_le (a b : MessageRow) : bool :=
  match m_date a, m_date b with
  | None, _ => true
  | Some _, None => false
  | Some x, Some y => text_le x y
  end.
Definition mail_row (m : MessageRow) : MailRow :=
  mkMailRow (m_id m) (m_external m) (m_message_id m) (m_subject m) (m_from m) (m_to m) (m_cc m) (m_date m) None
    (m_read m) (m_starred m) (m_body_text m) (m_body_html m).
Definition load_folder_messages (folder_id : string) : M (list MailRow) :=
  db (mstmt (fun w => (map mail_row (order_by date_le
    (List.filter (fun m => String.eqb (m_folder m) folder_id) (ml_messages w))), w))).

Definition write_entry (row : MailRow) (raw : string) (reconstructed : bool) (fw : FolderWriter) : M FolderWriter :=
  let! _ := fs (fs_append (fw_mbox fw) (entry_mbox row raw)) in
  ret (mkWriter (fw_mbox fw) (fw_meta fw +:+ meta_text (entry_meta row raw reconstructed) +:+ lf) (fw_written fw + 1)).

(** [self.fetched.remove(&row.id)] over the batch; [fetched] is what the server answered. *)
Definition backfill (data_dir account_id row_id raw : string) : M unit :=
  let! stored := attempt (F := BackupError) (on_disk (store data_dir account_id raw)) in
  match stored with
  | Ok rel => let! _ := attempt (F := BackupError) (on_mail (set_message_raw_blob row_id rel)) in ret tt
  | Err _ => ret tt
  end.
Fixpoint write_pending (data_dir account_id : string) (rows : list MailRow) (fetched : gmap string string)
    (fw : FolderWriter) : M FolderWriter :=
  match rows with
  | [] => ret fw
  | row :: rest =>
      match fetched !! mr_id row with
      | Some raw =>
          let! _ := backfill data_dir account_id (mr_id row) raw in
          let! fw := write_entry row raw false fw in
          write_pending data_dir account_id rest (delete (mr_id row) fetched) fw
      | None =>
          let! fw := write_entry row (reconstruct_message row) true fw in
          write_pending data_dir account_id rest fetched fw
      end
  end.
Definition flush_pending (data_dir account_id : string) (server : list MailRow -> list (string * string))
    (allow_server_fetch : bool) (pending : list MailRow) (fw : FolderWriter) : M FolderWriter :=
  let answers := if allow_server_fetch then server pending else [] in
  write_pending data_dir account_id pending
    (foldl (fun m '(id, raw) => <[id := raw]> m) ∅ answers) fw.

Definition stored_raw (data_dir row_id : string) : M (option string) :=
  let! path := db (get_message_raw_blob_path row_id) in
  match path with
  | Some p => let! r := attempt (F := BackupError) (on_disk (read data_dir p)) in ret (rok r)
  | None => ret None
  end.
Fixpoint export_rows (data_dir account_id : string) (server : list MailRow -> list (string * string))
    (allow_server_fetch : bool) (rows pending : list MailRow) (fw : FolderWriter) : M FolderWriter :=
  match rows with
  | [] => flush_pending data_dir account_id server allow_server_fetch pending fw
  | row :: rest =>
      let! stored := stored_raw data_dir (mr_id row) in
      match stored with
      | Some raw =>
          let! fw := write_entry row raw false fw in
          export_rows data_dir account_id server allow_server_fetch rest pending fw
      | None =>
          let pending := (pending ++ [row])%list in
          if (SERVER_FETCH_BATCH <=? length pending)%nat
          then let! fw := flush_pending data_dir account_id server allow_server_fetch pending fw in
               export_rows data_dir account_id server allow_server_fetch rest [] fw
          else export_rows data_dir account_id server allow_server_fetch rest pending fw
      end
  end.

Definition mbox_path (dir folder_id : string) : string := path_join dir (folder_id +:+ ".mbox").
Definition sidecar_path (dir folder_id : string) : string := path_join dir (folder_id +:+ ".meta.jsonl").
Definition export_folder (data_dir : string) (server : list MailRow -> list (string * string))
    (allow_server_fetch : bool) (folder : ExportFolder) (dir : string) : M Z :=
  let! rows := load_folder_messages (ef_id folder) in
  let! _ := fs (fs_write (mbox_path dir (ef_id folder)) "") in
  let! fw := export_rows data_dir (ef_account folder) server allow_server_fetch rows []
               (mkWriter (mbox_path dir (ef_id folder)) "" 0) in
  let! _ := fs (fs_write (sidecar_path dir (ef_id folder)) (fw_meta fw)) in
  ret (fw_written fw).

(** ** Import *)

(** [Expr ExternalId = e OR MessageIdHeader = mid], in table order. *)
Definition matches_import (account_id external_id : string) (message_id_header : option string) (m : MessageRow) : bool :=
  String.eqb (m_account m) account_id &&
  (bool_decide (m_external m = Some external_id) ||
   match nonempty message_id_header with
   | Some mid => bool_decide (m_message_id m = Some mid)
   | None => false
   end).
Definition attachments_of (message_id : string) (rows : list AttachmentRow) : list AttachmentRow :=
  List.filter (fun r => String.eqb (ar_message_id r) message_id) rows.
Definition find_existing_message (account_id external_id : string) (message_id_header : option string)
    : M (option ExistingMessage) :=
  let! row := db (mstmt (fun w =>
    (List.find (matches_import account_id external_id message_id_header) (ml_messages w), w))) in
  match row with
  | None => ret None
  | Some row =>
      let! _ := db (mstmt (fun w => (tt, w))) in
      let! n := gets (fun w => length (attachments_of (m_id row) (jl_attachments w))) in
      ret (Some (mkExisting (m_id row) (bool_decide (is_Some (nonempty (m_raw_blob row)))) (0 <? n)%nat))
  end.

Definition carried (blobs_dir : string) (d : disk) (att : ExtractedAttachment) : bool :=
  path_exists (path_join blobs_dir (sha256_hex (xa_data att))) d.
Definition quote1 : string := String (ascii_of_N 39) "".
Definition blob_missing (att : ExtractedAttachment) : string :=
  "attachment " +:+ quote1 +:+ xa_filename att +:+ quote1 +:+ " blob missing from archive".
Definition partition_attachments (attachments : list ExtractedAttachment) (blobs_dir : string)
    : M (list ExtractedAttachment * list string) :=
  gets (fun w => (List.filter (carried blobs_dir (jl_disk w)) attachments,
                  map blob_missing (List.filter (fun a => negb (carried blobs_dir (jl_disk w) a)) attachments))).

Definition link_attachments (data_dir account_id message_id : string) (present : list ExtractedAttachment) : M unit :=
  match present with
  | [] => ret tt
  | _ => map_err sync_err (persist_attachments data_dir account_id message_id present)
  end.
Definition repair_existing_message (data_dir account_id : string) (existing : ExistingMessage) (rel : string)
    (attachments : list ExtractedAttachment) (blobs_dir : string) : M MessageOutcome :=
  let! _ := when (negb (em_has_raw existing)) (db (set_message_raw_blob (em_id existing) rel)) in
  if em_has_attachments existing || bool_decide (attachments = [])
  then ret (mkMsgOutcome false (negb (em_has_raw existing)) [])
  else
    let! parts := partition_attachments attachments blobs_dir in
    let! _ := link_attachments data_dir account_id (em_id existing) (fst parts) in
    ret (mkMsgOutcome false (negb (em_has_raw existing) || negb (bool_decide (fst parts = []))) (snd parts)).

(** [v.map(trim).filter(nonempty)]. *)
Definition trimmed (v : option string) : option string := nonempty (option_map trim v).
Definition import_row (id account_id folder_id stamp raw : string) (meta : MetaLine) : MessageRow :=
  let parsed := parse_header_metadata raw in
  let '(text, html, attachments) := extract_mime raw in
  let subject := trimmed (md_subject parsed) in
  let flags_json := json_text (JArray (map JString (mt_flags meta))) in
  mkMessage id account_id folder_id (Some ("import:" +:+ sha256_hex raw))
    (or_else (mt_message_id meta) (trimmed (md_message_id parsed))) subject
    (option_map (fun f => json_text (JObject [("raw", JString f)])) (trimmed (md_from parsed)))
    (option_map (fun t => json_text (JArray [JString t])) (trimmed (md_to parsed)))
    (trimmed (md_cc parsed)) (or_else (mt_date meta) (trimmed (md_date parsed)) ≫= ingest_date)
    (existsb (String.eqb "seen") (mt_flags meta)) (existsb (String.eqb "flagged") (mt_flags meta)) false
    (Some flags_json) (labels_json (labels_from_flags_json flags_json))
    (Some (clamp_i32 (Z.of_nat (String.length raw)))) (trimmed (md_in_reply_to parsed))
    (trimmed (md_references parsed)) (trimmed (md_mailer parsed)) (option_map truncate_for_snippet subject)
    (negb (bool_decide (attachments = []))) text (option_map sanitize_email_html html) None None None stamp.

Definition import_one_message (data_dir account_id folder_id raw : string) (meta : MetaLine) (blobs_dir : string)
    : M MessageOutcome :=
  let sha := sha256_hex raw in
  if negb (String.eqb sha (mt_sha256 meta)) then throw CorruptArchive else
  let! rel := map_err (fun '(Io m) => BackupInternal ("io error: " +:+ m)) (on_disk (store data_dir account_id raw)) in
  let! existing := find_existing_message account_id ("import:" +:+ sha) (mt_message_id meta) in
  let attachments := snd (extract_mime raw) in
  match existing with
  | Some existing => repair_existing_message data_dir account_id existing rel attachments blobs_dir
  | None =>
      let! id := on_mail new_uuid_text in
      let! stamp := gets (fun w => sql_now (ml_now (jl_mail w))) in
      let! _ := db (insert_message (import_row id account_id folder_id stamp raw meta)) in
      let! _ := db (set_message_raw_blob id rel) in
      let! parts := partition_attachments attachments blobs_dir in
      let! _ := link_attachments data_dir account_id id (fst parts) in
      ret (mkMsgOutcome true false (snd parts))
  end.

Definition report_error (msg : string) (r : ImportReport) : ImportReport :=
  if (length (rp_errors r) <? REPORT_ERROR_CAP)%nat
  then mkReport (rp_settings r) (rp_accounts r) (rp_folders r) (rp_messages r) (rp_contacts r) (rp_calendars r)
         (rp_errors r ++ [scrub_error_detail msg])%list
  else r.
Definition count_outcome (o : MessageOutcome) (r : ImportReport) : ImportReport :=
  let c := rp_messages r in
  set_messages_counts
    (if mo_inserted o then mkCounts (sc_inserted c + 1) (sc_skipped c) (sc_repaired c) (sc_failed c)
     else if mo_repaired o then mkCounts (sc_inserted c) (sc_skipped c) (sc_repaired c + 1) (sc_failed c)
     else mkCounts (sc_inserted c) (sc_skipped c + 1) (sc_repaired c) (sc_failed c)) r.
Definition mail_error (folder_uuid msg : string) (r : ImportReport) : ImportReport :=
  report_error ("mail: " +:+ folder_uuid +:+ ": " +:+ msg) r.

Fixpoint import_entries (data_dir account_id folder_id folder_uuid blobs_dir : string)
    (entries : list (string * option MetaLine)) (r : ImportReport) : M ImportReport :=
  let go := import_entries data_dir account_id folder_id folder_uuid blobs_dir in
  match entries with
  | [] => ret r
  | (_, None) :: rest => go rest (add_failed 1 r)
  | (chunk, Some meta) :: rest =>
      let! outcome := attempt (import_one_message data_dir account_id folder_id (recover_raw chunk) meta blobs_dir) in
      match outcome with
      | Ok o => go rest (foldl (fun r w => mail_error folder_uuid w r) (count_outcome o r) (mo_warnings o))
      | Err CorruptArchive => go rest (mail_error folder_uuid "sha256 mismatch, message skipped" (add_failed 1 r))
      | Err e => go rest (mail_error folder_uuid (backup_error_text e) (add_failed 1 r))
      end
  end.

(** [read_to_string]: the bytes must be UTF-8. *)
Definition read_to_string (full : string) : io disk BlobError string :=
  let! bytes := fs_read full in
  if utf8_valid bytes then ret bytes else throw (Io "stream did not contain valid UTF-8").

Definition bad_lines (folder_uuid : string) (lines : list string) (r : ImportReport) : ImportReport :=
  foldl (fun r l => match meta_parse l with
                    | Some _ => r
                    | None => mail_error folder_uuid ("bad meta line: " +:+ serde_text l) r
                    end) r lines.
Definition abs_diff (a b : nat) : Z := Z.abs (Z.of_nat a - Z.of_nat b).
Definition count_mismatch (folder_uuid : string) (chunks metas : nat) (r : ImportReport) : ImportReport :=
  if (chunks =? metas)%nat then r else
  add_failed (abs_diff chunks metas)
    (mail_error folder_uuid ("mbox/meta count mismatch (" +:+ show_Z (Z.of_nat chunks) +:+ " messages vs "
       +:+ show_Z (Z.of_nat metas) +:+ " sidecar lines)") r).
Definition merge_folder_mail (data_dir account_id folder_id mail_dir folder_uuid blobs_dir : string) (r : ImportReport)
    : M ImportReport :=
  let! mbox := attempt (on_disk (fs_read (mbox_path mail_dir folder_uuid))) in
  match mbox with
  | Err (Io e) => ret (add_failed 1 (mail_error folder_uuid ("cannot read mbox: " +:+ e) r))
  | Ok mbox =>
      let! text := attempt (on_disk (read_to_string (sidecar_path mail_dir folder_uuid))) in
      match text with
      | Err (Io e) => ret (add_failed 1 (mail_error folder_uuid ("cannot read meta sidecar: " +:+ e) r))
      | Ok text =>
          let metas := parse_sidecar text in
          let chunks := split_mbox mbox in
          let r := count_mismatch folder_uuid (length chunks) (length metas)
                     (bad_lines folder_uuid (sidecar_lines text) r) in
          import_entries data_dir account_id folder_id folder_uuid blobs_dir (combine chunks metas) r
      end
  end.
End Backup.

(** ** Laws of import

    What is there stays: rows keep what a user sees of them, files keep their bytes. *)

Record row_kept (m m' : MessageRow) : Prop := {
  rk_same : same_mail m m'; rk_account : m_account m' = m_account m; rk_external : m_external m' = m_external m;
  rk_folder : m_folder m' = m_folder m; rk_message_id : m_message_id m' = m_message_id m;
  rk_read : m_read m' = m_read m; rk_starred : m_starred m' = m_starred m; rk_flags : m_flags m' = m_flags m;
  rk_raw : is_Some (nonempty (m_raw_blob m)) -> is_Some (nonempty (m_raw_blob m')) }.
#[export] Instance row_kept_preorder : PreOrder row_kept.
Proof.
  split; [by split|]. intros x y z [] []. split; [by etrans|congruence..|auto].
Qed.
Definition rows_kept (db db' : mail) : Prop :=
  forall m, m ∈ ml_messages db -> exists m', m' ∈ ml_messages db' /\ row_kept m m'.
#[export] Instance rows_kept_preorder : PreOrder rows_kept.
Proof.
  split; [intros db m Hm; by exists m|]. intros x y z Hxy Hyz m Hm.
  apply Hxy in Hm as (m1 & Hm1 & Hk). apply Hyz in Hm1 as (m2 & Hm2 & Hk'). exists m2. split; [done|by etrans].
Qed.
Definition files_kept (d d' : disk) : Prop := forall p x, d_files d !! p = Some x -> d_files d' !! p = Some x.
#[export] Instance files_kept_preorder : PreOrder files_kept.
Proof. split; [by intros d p x|]. intros x y z Hxy Hyz p c Hp. by apply Hyz, Hxy. Qed.

Lemma kept_update p f (db : mail) : (forall m, row_kept m (f m)) ->
  rows_kept db (set_messages (update_messages p f (ml_messages db)) db).
Proof.
  intros Hf m Hm. exists (if p m then f m else m). split.
  - cbn. unfold update_messages. apply (list_elem_of_fmap_2 (fun m => if p m then f m else m)). done.
  - destruct (p m); [apply Hf|reflexivity].
Qed.
Lemma kept_stmt {A} (f : mail -> A * mail) : (forall db, rows_kept db (snd (f db))) -> preserves rows_kept (mstmt f).
Proof.
  intros Hf db [a|e] db' Hr; [|apply mstmt_Err in Hr as ->; reflexivity].
  apply mstmt_Ok in Hr as (w & n & Hw & ->). specialize (Hf db). rewrite Hw in Hf. exact Hf.
Qed.
Lemma kept_read {A} (g : mail -> A) : preserves rows_kept (mstmt (fun db => (g db, db))).
Proof. apply kept_stmt. intros db. reflexivity. Qed.
Lemma kept_uuid `{StoreLib} {E} : preserves rows_kept (new_uuid_text (E := E)).
Proof. intros db r db' [= _ <-] m Hm. by exists m. Qed.
Lemma kept_insert row : preserves rows_kept (insert_message row).
Proof.
  unfold insert_message. apply pres_bind; [apply _| |intros b; preserve]. apply kept_stmt. intros db.
  destruct (existsb _ _); [reflexivity|]. intros m Hm. exists m. split; [cbn; by apply elem_of_app; left|reflexivity].
Qed.
Lemma has_attachments_kept stamp m : row_kept m (set_has_attachments stamp m).
Proof. by split. Qed.
Lemma raw_blob_kept path stamp m : is_empty path = false -> row_kept m (set_raw_blob path stamp m).
Proof. intros Hp. split; [done..|]. intros _. cbn. rewrite Hp. done. Qed.
Lemma kept_raw_blob `{StoreLib} id path : is_empty path = false -> preserves rows_kept (set_message_raw_blob id path).
Proof. intros Hp. apply kept_stmt. intros db. apply kept_update. intros m. by apply raw_blob_kept. Qed.

Lemma insert_message_inv row (db db' : mail) : insert_message row db = (Ok tt, db') -> row ∈ ml_messages db'.
Proof.
  unfold insert_message. intros Hr. destruct (bind_inv _ _ _ _ _ Hr) as [(? & _ & ?)|(clash & w1 & Hm & Ht)]; [done|].
  apply mstmt_Ok in Hm as (w2 & n & Hm & ->). destruct (existsb _ _) in Hm; injection Hm as <- <-; cbn in Ht; [done|].
  injection Ht as <-. cbn. apply elem_of_app. right. by apply list_elem_of_singleton.
Qed.

Section ImportLaws.
Context {T : Type} `{JmapWire T} `{Chrono} `{CryptoLib} `{StoreLib} `{JsonLib} `{BlobLib} `{MetaLib}
  `{MimeLib} `{JobLib} `{ErrorText}.
Local Abbreviation world := (jmap_world T).

Definition additive (w w' : world) : Prop :=
  rows_kept (jl_mail w) (jl_mail w') /\ files_kept (jl_disk w) (jl_disk w').
#[local] Instance additive_preorder : PreOrder additive.
Proof. split; [by intros w|]. intros x y z [Ha Hb] [Hc Hd]. split; by etrans. Qed.

Lemma add_mail {A E} (m : io mail E A) : preserves rows_kept m -> preserves additive (on_mail (T := T) m).
Proof.
  intros Hm w r w' Hr. unfold on_mail in Hr. destruct (m (jl_mail w)) as [x db'] eqn:Hx. injection Hr as _ <-.
  split; [by apply (Hm _ _ _ Hx)|done].
Qed.
Lemma add_disk {A E} (m : io disk E A) : preserves files_kept m -> preserves additive (on_disk (T := T) m).
Proof.
  intros Hm w r w' Hr. unfold on_disk in Hr. destruct (m (jl_disk w)) as [x d'] eqn:Hx. injection Hr as _ <-.
  split; [done|by apply (Hm _ _ _ Hx)].
Qed.
Lemma add_tables f : preserves additive (on_tables (T := T) f).
Proof.
  unfold on_tables. apply pres_bind; [apply _|apply add_mail, kept_read|]. intros _ w r w' Hr.
  unfold modify in Hr. destruct (f _). by injection Hr as _ <-.
Qed.
Lemma store_files dir a data : preserves files_kept (store dir a data).
Proof.
  intros d r d' Hs p x Hp. apply blob_store_run in Hs as [Ho Hf].
  destruct (decide (p = path_join dir (relative_blob_path a (sha256_hex data)))) as [->|Hne]; [|by rewrite Ho].
  destruct r as [rel|e]; [destruct Hf as [_ ->]; by rewrite Hp|destruct Hf as [Hn _]; congruence].
Qed.
Lemma read_files dir p : preserves files_kept (read dir p).
Proof. by intros d r d' [= _ <-]. Qed.
Hint Resolve add_mail add_disk add_tables store_files read_files kept_read kept_uuid kept_insert kept_raw_blob : preserve.

Lemma add_persist dir a id atts : preserves additive (persist_attachments (T := T) dir a id atts).
Proof.
  assert (Hi : forall atts, preserves additive (insert_attachments (T := T) dir a id atts)).
  { clear atts. intros atts. induction atts as [|x atts IH]; cbn [insert_attachments]; preserve. }
  unfold persist_attachments. destruct atts as [|x atts]; [preserve|].
  apply pres_bind; [apply _|apply add_tables|intros _]. apply pres_bind; [apply _|apply Hi|intros _].
  apply add_mail, kept_stmt. intros db0. apply kept_update. intros m. apply has_attachments_kept.
Qed.
Hint Resolve add_persist : preserve.

Lemma rel_nonempty a h : is_empty (relative_blob_path a h) = false.
Proof. done. Qed.
Lemma add_find a e mid : preserves additive (find_existing_message (T := T) a e mid).
Proof.
  unfold find_existing_message, db. apply pres_bind; [apply _| |].
  { apply pres_map_err, add_mail, kept_read. }
  intros [m|]; [|preserve]. apply pres_bind; [apply _|apply pres_map_err, add_mail, kept_read|]. intros _. preserve.
Qed.
Lemma add_repair dir a ex a' h atts bdir :
  preserves additive (repair_existing_message (T := T) dir a ex (relative_blob_path a' h) atts bdir).
Proof.
  unfold repair_existing_message, db, partition_attachments, link_attachments.
  apply pres_bind; [apply _| |intros _; preserve].
  apply pres_when; [apply _|]. apply pres_map_err, add_mail, kept_raw_blob, rel_nonempty.
Qed.
Hint Resolve add_find add_repair : preserve.
Lemma on_disk_inv {A E} (m : io disk E A) (w : world) r w' : on_disk m w = (r, w') ->
  exists d, m (jl_disk w) = (r, d) /\ jl_disk w' = d /\ jl_mail w' = jl_mail w /\ jl_attachments w' = jl_attachments w.
Proof. unfold on_disk. destruct (m (jl_disk w)) as [x d]. intros [= <- <-]. by exists d. Qed.

(** The blob is stored, then the rest runs. *)
Definition import_rest (data_dir account_id folder_id raw : string) (meta : MetaLine) (blobs_dir rel : string)
    : io world BackupError MessageOutcome :=
  let! existing := find_existing_message account_id ("import:" +:+ sha256_hex raw) (mt_message_id meta) in
  let attachments := snd (extract_mime raw) in
  match existing with
  | Some existing => repair_existing_message data_dir account_id existing rel attachments blobs_dir
  | None =>
      let! id := on_mail new_uuid_text in
      let! stamp := gets (fun w => sql_now (ml_now (jl_mail w))) in
      let! _ := db (insert_message (import_row id account_id folder_id stamp raw meta)) in
      let! _ := db (set_message_raw_blob id rel) in
      let! parts := partition_attachments attachments blobs_dir in
      let! _ := link_attachments data_dir account_id id (fst parts) in
      ret (mkMsgOutcome true false (snd parts))
  end.
Lemma import_inv dir a f raw meta bdir (w : world) r w' : import_one_message dir a f raw meta bdir w = (r, w') ->
  (exists e, r = Err e /\ additive w w' /\ jl_mail w' = jl_mail w) \/
  sha256_hex raw = mt_sha256 meta /\ exists w1, store dir a raw (jl_disk w) = (Ok (relative_blob_path a (sha256_hex raw)), jl_disk w1) /\
    additive w w1 /\ jl_mail w1 = jl_mail w /\ jl_attachments w1 = jl_attachments w /\
    import_rest dir a f raw meta bdir (relative_blob_path a (sha256_hex raw)) w1 = (r, w').
Proof.
  unfold import_one_message. destruct (String.eqb_spec (sha256_hex raw) (mt_sha256 meta)) as [Hs|]; cbn [negb].
  2: { intros [= <- <-]. left. eexists. split; [done|]. by split. }
  intros Hr. destruct (bind_inv _ _ _ _ _ Hr) as [(e & He & ->)|(rel & w1 & Hst & Hrest)].
  - left. exists e. split; [done|]. apply map_err_inv in He as (x & Hx & _). split; [by apply (add_disk _ (store_files dir a raw) _ _ _ Hx)|].
    by apply on_disk_inv in Hx as (d & _ & _ & ? & _).
  - right. split; [done|]. exists w1. apply map_err_inv in Hst as (x & Hx & Hok).
    pose proof (add_disk _ (store_files dir a raw) _ _ _ Hx) as Hadd.
    apply on_disk_inv in Hx as (d & Hd & <- & Hm & Ha). destruct x as [rel'|]; [|done]. injection Hok as ->.
    pose proof (blob_store_run _ _ _ _ _ _ Hd) as [_ [Hrel _]]. rewrite <- Hrel. split_and!; [done|exact Hadd|exact Hm|exact Ha|exact Hrest].
Qed.
Lemma add_rest dir a f raw meta bdir h : preserves additive (import_rest dir a f raw meta bdir (relative_blob_path a h)).
Proof.
  unfold import_rest, db, partition_attachments, link_attachments. apply pres_bind; [apply _|apply add_find|].
  intros [ex|]; [apply add_repair|]. preserve.
Qed.
Lemma add_import dir a f raw meta bdir : preserves additive (import_one_message (T := T) dir a f raw meta bdir).
Proof.
  intros w r w' Hr. apply import_inv in Hr as [(e & _ & ? & _)|(_ & w1 & _ & Ha & _ & _ & Hrest)]; [done|].
  etrans; [exact Ha|]. by apply add_rest in Hrest.
Qed.

(** The message is there: a row of the account that carries its digest or its Message-ID,
    with its bytes on disk. *)
Definition restored (dir a raw : string) (meta : MetaLine) (w : world) : Prop :=
  sha256_hex raw = mt_sha256 meta /\
  (exists m, m ∈ ml_messages (jl_mail w) /\
    matches_import a ("import:" +:+ sha256_hex raw) (mt_message_id meta) m = true /\ is_Some (nonempty (m_raw_blob m))) /\
  is_Some (d_files (jl_disk w) !! path_join dir (relative_blob_path a (sha256_hex raw))).

Lemma matches_kept a e mid m m' : row_kept m m' -> matches_import a e mid m' = matches_import a e mid m.
Proof. intros Hk. unfold matches_import. by rewrite (rk_account _ _ Hk), (rk_external _ _ Hk), (rk_message_id _ _ Hk). Qed.
Lemma restored_kept dir a raw meta w w' : additive w w' -> restored dir a raw meta w -> restored dir a raw meta w'.
Proof.
  intros [Hr Hf] (Hs & (m & Hm & Hmatch & Hraw) & [x Hx]). split; [done|]. split.
  - apply Hr in Hm as (m' & Hm' & Hk). exists m'. split; [done|]. split; [by rewrite (matches_kept _ _ _ _ _ Hk)|].
    by apply (rk_raw _ _ Hk).
  - exists x. by apply Hf.
Qed.

Lemma db_inv {A} (m : io mail SyncError A) (w : world) a w' : db m w = (Ok a, w') ->
  exists d, m (jl_mail w) = (Ok a, d) /\ jl_mail w' = d /\ jl_disk w' = jl_disk w /\ jl_attachments w' = jl_attachments w.
Proof.
  unfold db, map_err, on_mail. destruct (m (jl_mail w)) as [[x|e] d]; intros [= <- <-]. by exists d.
Qed.
Lemma read_inv {A} (g : mail -> A) (w : world) a w' : db (mstmt (fun d => (g d, d))) w = (Ok a, w') ->
  a = g (jl_mail w) /\ ml_messages (jl_mail w') = ml_messages (jl_mail w) /\ jl_disk w' = jl_disk w /\
  jl_attachments w' = jl_attachments w.
Proof.
  intros Hr. apply db_inv in Hr as (d & Hm & Hd & Hk & Ha). apply mstmt_Ok in Hm as (d1 & n & [= <- <-] & Hs).
  subst d. rewrite Hd. split_and!; done.
Qed.
Lemma find_existing_inv a e mid (w : world) o w' : find_existing_message a e mid w = (Ok o, w') ->
  ml_messages (jl_mail w') = ml_messages (jl_mail w) /\ jl_disk w' = jl_disk w /\ jl_attachments w' = jl_attachments w /\
  o = option_map (fun m => mkExisting (m_id m) (bool_decide (is_Some (nonempty (m_raw_blob m))))
                     (0 <? length (attachments_of (m_id m) (jl_attachments w)))%nat)
        (List.find (matches_import a e mid) (ml_messages (jl_mail w))).
Proof.
  unfold find_existing_message. intros Hr.
  destruct (bind_inv _ _ _ _ _ Hr) as [(? & _ & ?)|(row & w1 & Hf & Hrest)]; [done|].
  apply read_inv in Hf as (-> & Hm & Hd & Ha). destruct (List.find _ _) as [m|]; [|injection Hrest as <- <-; by auto].
  destruct (bind_inv _ _ _ _ _ Hrest) as [(? & _ & ?)|([] & w2 & Hf & Hrest')]; [done|].
  apply (read_inv (fun _ => tt)) in Hf as (_ & Hm2 & Hd2 & Ha2). injection Hrest' as <- <-.
  rewrite Hm2, Hd2, Ha2, Ha. by auto.
Qed.
Lemma raw_blob_set id path (w : world) w' : db (set_message_raw_blob id path) w = (Ok tt, w') -> is_empty path = false ->
  (forall m, m ∈ ml_messages (jl_mail w) -> m_id m = id ->
     exists m', m' ∈ ml_messages (jl_mail w') /\ row_kept m m' /\ is_Some (nonempty (m_raw_blob m'))) /\
  jl_disk w' = jl_disk w /\ jl_attachments w' = jl_attachments w.
Proof.
  intros Hr Hp. apply db_inv in Hr as (d & Hm & Hd & Hk & Ha). split; [|done]. intros m Hin <-.
  apply mstmt_Ok in Hm as (d1 & n & [= <-] & Hs). subst d. rewrite Hd. cbn.
  exists (set_raw_blob path (sql_now (ml_now (jl_mail w))) m). split; [|split; [by apply raw_blob_kept|cbn; by rewrite Hp]].
  apply list_elem_of_In. unfold update_messages. apply in_map_iff. exists m. unfold message_by_id. rewrite String.eqb_refl.
  split; [done|]. by apply list_elem_of_In.
Qed.

Lemma import_row_key id a f stamp raw meta : let row := import_row id a f stamp raw meta in
  m_id row = id /\ m_account row = a /\ m_external row = Some ("import:" +:+ sha256_hex raw).
Proof. unfold import_row. by destruct (extract_mime raw) as [[? ?] ?]. Qed.
Lemma import_restores dir a f raw meta bdir (w : world) o w' :
  import_one_message dir a f raw meta bdir w = (Ok o, w') -> restored dir a raw meta w'.
Proof.
  intros Hr. apply import_inv in Hr as [(e & [=] & _)|(Hs & w1 & Hst & _ & _ & _ & Hrest)].
  apply blob_store_run in Hst as [_ [_ Hfile]].
  assert (Hblob : is_Some (d_files (jl_disk w1) !! path_join dir (relative_blob_path a (sha256_hex raw)))).
  { rewrite Hfile. case_match; by eexists. }
  clear Hfile. unfold import_rest in Hrest.
  destruct (bind_inv _ _ _ _ _ Hrest) as [(? & _ & ?)|(ex & w2 & Hf & Hgo)]; [done|]. clear Hrest.
  apply find_existing_inv in Hf as (Hm2 & Hd2 & _ & ->). rewrite <- Hd2 in Hblob. rewrite <- Hm2 in Hgo.
  destruct (List.find _ _) as [m|] eqn:Hfind; cbn [option_map] in Hgo.
  - apply find_some in Hfind as [Hin Hmatch]. apply list_elem_of_In in Hin.
    assert (Hgoal : forall w3, restored dir a raw meta w3 -> additive w3 w' -> restored dir a raw meta w').
    { intros w3 Hres Hadd. by apply (restored_kept _ _ _ _ w3). }
    unfold repair_existing_message in Hgo.
    destruct (bind_inv _ _ _ _ _ Hgo) as [(? & _ & ?)|([] & w3 & Hset & Htail)]; [done|].
    apply (Hgoal w3).
    + cbn [em_has_raw em_id] in Hset. case_bool_decide as Hraw; cbn [negb when] in Hset.
      * injection Hset as <-. split; [done|]. split; [|done]. by exists m.
      * apply raw_blob_set in Hset as (Hset & Hd3 & _); [|done].
        destruct (Hset m Hin eq_refl) as (m' & Hin' & Hk & Hraw'). split; [done|]. rewrite Hd3. split; [|done].
        exists m'. split; [done|]. by rewrite (matches_kept _ _ _ _ _ Hk).
    + revert Htail. generalize (Ok (E := BackupError) o). intros r Htail.
      assert (Hp : preserves additive (if em_has_attachments (mkExisting (m_id m) (bool_decide (is_Some (nonempty (m_raw_blob m))))
        (0 <? length (attachments_of (m_id m) (jl_attachments w1)))%nat) || bool_decide (snd (extract_mime raw) = [])
        then ret (mkMsgOutcome false (negb (bool_decide (is_Some (nonempty (m_raw_blob m))))) []) else
        (let! parts := partition_attachments (snd (extract_mime raw)) bdir in
         let! _ := link_attachments dir a (m_id m) (fst parts) in
         ret (mkMsgOutcome false (negb (bool_decide (is_Some (nonempty (m_raw_blob m)))) || negb (bool_decide (fst parts = []))) (snd parts))))).
      { unfold partition_attachments, link_attachments. preserve. }
      by apply (Hp _ _ _ Htail).
  - destruct (bind_inv _ _ _ _ _ Hgo) as [(? & _ & ?)|(id & w3 & Hid & Hgo2)]; [done|]. clear Hgo.
    injection Hid as <- <-. set (w3 := mkJl _ _ _ _ _ _) in Hgo2.
    destruct (bind_inv _ _ _ _ _ Hgo2) as [(? & _ & ?)|(stamp & w4 & [= <- <-] & Hgo3)]; [done|]. clear Hgo2.
    destruct (bind_inv _ _ _ _ _ Hgo3) as [(? & _ & ?)|([] & w5 & Hins & Hgo4)]; [done|]. clear Hgo3.
    destruct (bind_inv _ _ _ _ _ Hgo4) as [(? & _ & ?)|([] & w6 & Hset & Hgo5)]; [done|]. clear Hgo4.
    set (row := import_row _ _ _ _ _ _) in Hins. apply (restored_kept _ _ _ _ w6).
    { revert Hgo5. generalize (Ok (E := BackupError) o). intros r Hgo5.
      assert (Hp : preserves additive (let! parts := partition_attachments (T := T) (snd (extract_mime raw)) bdir in
        let! _ := link_attachments dir a (store_uuid (ml_seq (jl_mail w2))) (fst parts) in ret (mkMsgOutcome true false (snd parts)))).
      { unfold partition_attachments, link_attachments. preserve. }
      by apply (Hp _ _ _ Hgo5). }
    apply db_inv in Hins as (d5 & Hins & Hd5 & Hk5 & _). apply insert_message_inv in Hins.
    rewrite <- Hd5 in Hins. apply raw_blob_set in Hset as (Hset & Hk6 & _); [|done].
    pose proof (import_row_key (store_uuid (ml_seq (jl_mail w2))) a f (sql_now (ml_now (jl_mail w2))) raw meta) as
      (Hid & Hacc & Hext). fold row in Hid, Hacc, Hext.
    destruct (Hset row Hins Hid) as (m' & Hin' & Hk & Hraw'). split; [done|]. rewrite Hk6, Hk5. split; [|done].
    exists m'. split; [done|]. split; [|done]. rewrite (matches_kept _ _ _ _ _ Hk). unfold matches_import.
    by rewrite Hacc, Hext, String.eqb_refl, bool_decide_true.
Qed.

(** When nothing fails, every file of the account's blob tree stays under its digest. *)
Definition tidy (dir a : string) (w : world) : Prop := addressed dir a (jl_disk w).
Definition ok_keeps {E A} (P : world -> Prop) (m : io world E A) : Prop := forall w x w', m w = (Ok x, w') -> P w -> P w'.
Lemma ok_bind {E A B} (P : world -> Prop) (m : io world E A) (f : A -> io world E B) :
  ok_keeps P m -> (forall a, ok_keeps P (f a)) -> ok_keeps P (bind m f).
Proof.
  intros Hm Hf w x w' Hr Hw. destruct (bind_inv _ _ _ _ _ Hr) as [(? & _ & ?)|(a & w1 & Ha & Hb)]; [done|].
  eapply Hf; [exact Hb|]. by eapply Hm.
Qed.
Lemma ok_ret {E A} (P : world -> Prop) (a : A) : ok_keeps P (ret (E := E) a).
Proof. by intros w x w' [= _ <-]. Qed.
Lemma ok_gets {E A} (P : world -> Prop) (f : world -> A) : ok_keeps P (gets (E := E) f).
Proof. by intros w x w' [= _ <-]. Qed.
Lemma ok_map_err {E F A} (P : world -> Prop) (f : E -> F) (m : io world E A) : ok_keeps P m -> ok_keeps P (map_err f m).
Proof. intros Hm w x w' Hr. apply map_err_inv in Hr as ([y|e] & Hy & [=]). by apply (Hm _ _ _ Hy). Qed.
Lemma ok_mail {E A} dir a (m : io mail E A) : ok_keeps (tidy dir a) (on_mail m).
Proof. intros w x w' Hr. unfold on_mail in Hr. destruct (m (jl_mail w)). by injection Hr as _ <-. Qed.
Lemma ok_tables dir a f : ok_keeps (tidy dir a) (on_tables (T := T) f).
Proof.
  unfold on_tables. apply ok_bind; [apply ok_mail|]. intros _ w x w' Hr. unfold modify in Hr.
  destruct (f _). by injection Hr as _ <-.
Qed.
Lemma ok_store `{!BlobLaws} {E} dir a data (g : BlobError -> E) : ok_keeps (tidy dir a) (map_err g (on_disk (store dir a data))).
Proof.
  apply ok_map_err. intros w x w' Hr Hw. apply on_disk_inv in Hr as (d & Hr & <- & _ & _).
  apply blob_store_run in Hr as (Ho & _ & Hf). unfold tidy. intros data' y Hy.
  destruct (decide (sha256_hex data' = sha256_hex data)) as [He|Hne].
  - rewrite He in Hy |- *. rewrite Hf in Hy. case_match; injection Hy as <-; [by apply Hw|done].
  - rewrite Ho in Hy; [by apply Hw|]. intros Hp. apply Hne. eapply blob_path_inj; [apply sha256_length|exact Hp].
Qed.
Lemma ok_link `{!BlobLaws} dir a id present : ok_keeps (tidy dir a) (link_attachments dir a id present).
Proof.
  assert (Hi : forall atts, ok_keeps (tidy dir a) (insert_attachments (T := T) dir a id atts)).
  { intros atts. induction atts as [|x atts IH]; cbn [insert_attachments]; [apply ok_ret|].
    apply ok_bind; [apply ok_mail|intros i]. apply ok_bind; [apply ok_store|intros p].
    apply ok_bind; [apply ok_tables|intros _]. exact IH. }
  unfold link_attachments. destruct present as [|x present]; [apply ok_ret|]. apply ok_map_err. unfold persist_attachments.
  apply ok_bind; [apply ok_tables|intros _]. apply ok_bind; [apply Hi|intros _]. apply ok_mail.
Qed.
Lemma ok_import `{!BlobLaws} dir a f raw meta bdir : ok_keeps (tidy dir a) (import_one_message dir a f raw meta bdir).
Proof.
  unfold import_one_message. destruct (negb _); [by intros w x w' [=]|].
  apply ok_bind; [apply ok_store|intros rel]. apply ok_bind.
  { unfold find_existing_message, db. apply ok_bind; [apply ok_map_err, ok_mail|]. intros [m|]; [|apply ok_ret].
    apply ok_bind; [apply ok_map_err, ok_mail|intros _]. apply ok_bind; [apply ok_gets|intros n; apply ok_ret]. }
  intros [ex|].
  - unfold repair_existing_message. apply ok_bind.
    { destruct (negb _); [apply ok_map_err, ok_mail|apply ok_ret]. }
    intros _. destruct (_ || _); [apply ok_ret|]. apply ok_bind; [apply ok_gets|intros parts].
    apply ok_bind; [apply ok_link|intros _; apply ok_ret].
  - apply ok_bind; [apply ok_mail|intros id]. apply ok_bind; [apply ok_gets|intros stamp].
    apply ok_bind; [apply ok_map_err, ok_mail|intros _]. apply ok_bind; [apply ok_map_err, ok_mail|intros _].
    apply ok_bind; [apply ok_gets|intros parts]. apply ok_bind; [apply ok_link|intros _; apply ok_ret].
Qed.

Definition failed (r : ImportReport) : Z := sc_failed (rp_messages r).
Lemma failed_error uuid msg r : failed (mail_error uuid msg r) = failed r.
Proof. unfold mail_error, report_error. by destruct (_ <? _)%nat. Qed.
Lemma failed_warnings uuid ws : forall r, failed (foldl (fun r w => mail_error uuid w r) r ws) = failed r.
Proof. induction ws as [|x ws IH]; intros r; [done|]. cbn. by rewrite IH, failed_error. Qed.
Lemma failed_outcome o r : failed (count_outcome o r) = failed r.
Proof. unfold count_outcome. by destruct (mo_inserted o), (mo_repaired o). Qed.
Lemma failed_add n r : failed (add_failed n r) = failed r + n.
Proof. done. Qed.
Lemma failed_bad uuid ls : forall r, failed (bad_lines uuid ls r) = failed r.
Proof.
  unfold bad_lines. induction ls as [|l ls IH]; intros r; [done|]. cbn [foldl].
  rewrite IH. by destruct (meta_parse l); rewrite ?failed_error.
Qed.
Lemma failed_mismatch uuid n k r : failed r <= failed (count_mismatch uuid n k r).
Proof.
  unfold count_mismatch. destruct (n =? k)%nat; [lia|]. rewrite failed_add, failed_error. unfold abs_diff. lia.
Qed.

Lemma import_entries_run `{!BlobLaws} dir a f uuid bdir es : forall r (w : world) r' w',
  import_entries dir a f uuid bdir es r w = (Ok r', w') ->
  failed r <= failed r' /\ additive w w' /\
  (failed r' = failed r -> (tidy dir a w -> tidy dir a w') /\
     forall chunk meta, (chunk, meta) ∈ es -> exists m, meta = Some m /\ restored dir a (recover_raw chunk) m w').
Proof.
  induction es as [|[chunk [meta|]] es IH]; intros r w r' w' Hr; cbn [import_entries] in Hr.
  - injection Hr as <- <-. split_and!; [lia|reflexivity|]. intros _. split; [done|]. intros ? ? Hin. by apply not_elem_of_nil in Hin.
  - destruct (bind_inv _ _ _ _ _ Hr) as [(? & Ha & _)|(out & w1 & Hone & Hrest)].
    { unfold attempt in Ha. by destruct (import_one_message _ _ _ _ _ _ _). }
    unfold attempt in Hone. destruct (import_one_message _ _ _ _ _ _ _) as [o w1'] eqn:Himp. injection Hone as -> ->.
    pose proof (add_import _ _ _ _ _ _ _ _ _ Himp) as Hadd.
    destruct out as [o|e].
    + apply IH in Hrest as (Hle & Hadd' & Hres). rewrite failed_warnings, failed_outcome in *.
      split; [done|]. split; [by etrans|]. intros He. destruct (Hres He) as [Htidy Hall]. split.
      * intros Hw. by apply Htidy, (ok_import _ _ _ _ _ _ _ _ _ Himp).
      * intros c m [[= -> ->]|Hin]%elem_of_cons; [|by apply Hall]. exists meta. split; [done|].
        apply (restored_kept _ _ _ _ w1); [done|]. by apply import_restores in Himp.
    + assert (Hf : failed r + 1 <= failed r' /\ additive w1 w').
      { destruct e; apply IH in Hrest as (Hle & Hadd' & _); rewrite failed_error, failed_add in Hle; done. }
      destruct Hf as [Hf Hadd']. split_and!; [lia|by etrans|lia].
  - apply IH in Hr as (Hle & Hadd & _). rewrite failed_add in Hle. split_and!; [lia|done|lia].
Qed.
End ImportLaws.

(** *** Where the rows come from *)

(** Every row afterwards is one that was there, or one of the new. *)
Definition brings (new : MessageRow -> Prop) (db db' : mail) : Prop := forall m', m' ∈ ml_messages db' ->
  exists m, (m ∈ ml_messages db \/ new m) /\ row_kept m m'.
#[export] Instance brings_preorder new : PreOrder (brings new).
Proof.
  split; [intros db m Hm; exists m; by split; [left|]|]. intros x y z Hxy Hyz m Hm. apply Hyz in Hm as (m1 & [Hm1|Hn] & Hk); [|by exists m1; split; [right|]].
  apply Hxy in Hm1 as (m2 & Hm2 & Hk'). exists m2. split; [done|by etrans].
Qed.
Lemma brings_weaken (new new' : MessageRow -> Prop) db db' : (forall m, new m -> new' m) -> brings new db db' -> brings new' db db'.
Proof. intros Hn Hb m Hm. apply Hb in Hm as (m0 & [?|?] & ?); exists m0; auto. Qed.

Section Brings.
Context {T : Type} `{JmapWire T} `{Chrono} `{CryptoLib} `{StoreLib} `{JsonLib} `{BlobLib} `{MetaLib}
  `{MimeLib} `{JobLib} `{ErrorText}.
Context (new : MessageRow -> Prop).
Local Abbreviation world := (jmap_world T).
Local Abbreviation fills m := (preserves (lifted (brings new)) m).

Lemma bring_stmt {A} (f : mail -> A * mail) : (forall db, brings new db (snd (f db))) -> preserves (brings new) (mstmt f).
Proof using Type.
  intros Hf db [a|e] db' Hr; [|apply mstmt_Err in Hr as ->; reflexivity].
  apply mstmt_Ok in Hr as (w & n & Hw & ->). specialize (Hf db). rewrite Hw in Hf. exact Hf.
Qed.
Lemma bring_read {A} (g : mail -> A) : preserves (brings new) (mstmt (fun db => (g db, db))).
Proof using Type. apply bring_stmt. intros db. reflexivity. Qed.
Lemma bring_uuid {E} : preserves (brings new) (new_uuid_text (E := E)).
Proof using Type. intros db r db' [= _ <-] m Hm. exists m. by split; [left|]. Qed.
Lemma bring_update (p : MessageRow -> bool) (f : MessageRow -> MessageRow) db : (forall m, row_kept m (f m)) ->
  brings new db (set_messages (update_messages p f (ml_messages db)) db).
Proof using Type.
  intros Hf m Hm. cbn in Hm. unfold update_messages in Hm. apply list_elem_of_fmap in Hm as (m0 & -> & Hm0). exists m0.
  split; [by left|]. destruct (p m0); [apply Hf|reflexivity].
Qed.
Lemma bring_insert row : new row -> preserves (brings new) (insert_message row).
Proof using Type.
  intros Hrow. unfold insert_message. apply pres_bind; [apply _| |intros b; preserve]. apply bring_stmt. intros db.
  destruct (existsb _ _); [reflexivity|]. intros m Hm. cbn in Hm. exists m. apply elem_of_app in Hm as [Hm| ->%list_elem_of_singleton]; by split; [auto|].
Qed.
Lemma bring_raw_blob id path : is_empty path = false -> preserves (brings new) (set_message_raw_blob id path).
Proof using Type. intros Hp. apply bring_stmt. intros db. apply bring_update. intros m. by apply raw_blob_kept. Qed.
Lemma bring_tables f : fills (on_tables (T := T) f).
Proof using Type. apply lift_tables; [apply _|intros; apply bring_read]. Qed.
Lemma bring_mail {A E} (m : io mail E A) : preserves (brings new) m -> fills (on_mail (T := T) m).
Proof using Type. apply lift_mail. Qed.
Lemma bring_disk {A E} (m : io disk E A) : fills (on_disk (T := T) m).
Proof using Type. apply lift_disk, _. Qed.
Hint Resolve bring_mail bring_disk bring_tables bring_uuid bring_read bring_raw_blob rel_nonempty : preserve.

Lemma bring_persist dir a id atts : fills (persist_attachments (T := T) dir a id atts).
Proof using Type.
  assert (Hi : forall atts, fills (insert_attachments (T := T) dir a id atts)).
  { clear atts. intros atts. induction atts as [|x atts IH]; cbn [insert_attachments]; preserve. }
  unfold persist_attachments. destruct atts as [|x atts]; [preserve|].
  apply pres_bind; [apply _|apply bring_tables|intros _]. apply pres_bind; [apply _|apply Hi|intros _].
  apply lift_mail, bring_stmt. intros db0. apply bring_update. intros m. apply has_attachments_kept.
Qed.
Hint Resolve bring_persist : preserve.
Lemma bring_find a e mid : fills (find_existing_message (T := T) a e mid).
Proof using Type.
  unfold find_existing_message, db. apply pres_bind; [apply _|apply pres_map_err, bring_mail, bring_read|].
  intros [m|]; [|preserve]. apply pres_bind; [apply _|apply pres_map_err, bring_mail, bring_read|]. intros _. preserve.
Qed.
Lemma bring_repair dir a ex a' h atts bdir : fills (repair_existing_message (T := T) dir a ex (relative_blob_path a' h) atts bdir).
Proof using Type.
  unfold repair_existing_message, db, partition_attachments, link_attachments. apply pres_bind; [apply _| |intros _; preserve].
  apply pres_when; [apply _|]. apply pres_map_err, bring_mail, bring_raw_blob, rel_nonempty.
Qed.
Lemma bring_import dir a f raw meta bdir : (forall id stamp, new (import_row id a f stamp raw meta)) ->
  fills (import_one_message (T := T) dir a f raw meta bdir).
Proof using Type.
  intros Hnew w r w' Hr. apply import_inv in Hr as [(e & _ & _ & Hm)|(_ & w1 & _ & _ & Hm & _ & Hr)].
  - unfold lifted. rewrite Hm. reflexivity.
  - assert (Hw : fills (import_rest (T := T) dir a f raw meta bdir (relative_blob_path a (sha256_hex raw)))); [|unfold lifted; rewrite <-Hm; exact (Hw _ _ _ Hr)].
    unfold import_rest, db, partition_attachments, link_attachments. apply pres_bind; [apply _|apply bring_find|]. intros [ex|]; [apply bring_repair|].
    apply pres_bind; [apply _|preserve|intros id]. apply pres_bind; [apply _|preserve|intros stamp].
    apply pres_bind; [apply _|apply pres_map_err, bring_mail, bring_insert, Hnew|intros _].
    apply pres_bind; [apply _|apply pres_map_err, bring_mail, bring_raw_blob, rel_nonempty|intros _]. preserve.
Qed.
Lemma bring_entries dir a f uuid bdir es : (forall chunk meta id stamp, (chunk, Some meta) ∈ es -> new (import_row id a f stamp (recover_raw chunk) meta)) ->
  forall r, fills (import_entries (T := T) dir a f uuid bdir es r).
Proof using Type.
  induction es as [|[chunk [meta|]] es IH]; intros Hnew r; cbn [import_entries]; [apply pres_ret, _| |].
  2: { apply IH. intros. apply Hnew. by right. }
  assert (Hrest : forall r, fills (import_entries (T := T) dir a f uuid bdir es r)) by (apply IH; intros; apply Hnew; by right).
  apply pres_bind; [apply _|apply pres_attempt, bring_import; intros; apply Hnew; by left|]. intros [o|[]]; apply Hrest.
Qed.
End Brings.

(** ** Laws of export *)

Section ExportLaws.
Context {T : Type} `{JmapWire T} `{Chrono} `{CryptoLib} `{StoreLib} `{JsonLib} `{BlobLib} `{MetaLib}
  `{MimeLib} `{JobLib} `{ErrorText}.
Context (data_dir a mb : string) (Hmb : forall h, path_join data_dir (relative_blob_path a h) <> mb).
Local Abbreviation world := (jmap_world T).

(** The bytes of a row that are on disk. *)
Definition held (w : world) (id raw : string) : Prop :=
  exists m p, List.find (message_by_id id) (ml_messages (jl_mail w)) = Some m /\ m_raw_blob m = Some p /\
    resolve_storage_path data_dir p <> mb /\ d_files (jl_disk w) !! resolve_storage_path data_dir p = Some raw.
Definition holds_but (ids : list string) (w w' : world) : Prop :=
  forall id raw, id ∉ ids -> held w id raw -> held w' id raw.
Lemma holds_trans ids ids' w1 w2 w3 : holds_but ids w1 w2 -> holds_but ids' w2 w3 -> holds_but (ids ++ ids') w1 w3.
Proof using Type. intros Ha Hb id raw Hid Hh. apply not_elem_of_app in Hid as [? ?]. by apply Hb, Ha. Qed.
Lemma holds_same ids (w w' : world) : jl_mail w' = jl_mail w ->
  (forall p x, p <> mb -> d_files (jl_disk w) !! p = Some x -> d_files (jl_disk w') !! p = Some x) -> holds_but ids w w'.
Proof using Type.
  intros Hm Hf id raw _ (m & p & Hfind & Hp & Hne & Hx). exists m, p. rewrite Hm. split_and!; [done..|]. by apply Hf.
Qed.

(** The two texts so far. *)
Definition written (es : list entry) (w : world) (fw : FolderWriter) : Prop :=
  fw_mbox fw = mb /\ d_files (jl_disk w) !! mb = Some (mbox_stream "" (map archived_of es)) /\
  fw_meta fw = terminated (map meta_text (map meta_of es)) /\ fw_written fw = Z.of_nat (length es).

Lemma append_Ok full data (d d' : disk) : fs_append full data d = (Ok tt, d') ->
  d_files d' = <[full := default "" (d_files d !! full) +:+ data]> (d_files d).
Proof using Type.
  unfold fs_append. destruct (d_read_only d); [done|]. destruct (d_free d) as [n|]; [|by intros [= <-]].
  destruct (Nat.leb_spec (String.length data) n) as [Hn|]; [|done]. intros [= <-]. cbn.
  replace (stake n data) with data; [done|]. clear -Hn. revert n Hn.
  induction data as [|c s IH]; intros [|n] Hn; cbn in *; try done; [lia|]. f_equal. apply IH. lia.
Qed.
Lemma mbox_stream_snoc es row raw rc :
  mbox_stream "" (map archived_of (es ++ [(row, raw, rc)])) = mbox_stream "" (map archived_of es) +:+ entry_mbox row raw.
Proof using Type. unfold mbox_stream. by rewrite map_app, foldl_app. Qed.

Lemma write_entry_run es row raw rc fw (w w' : world) fw' : written es w fw ->
  write_entry row raw rc fw w = (Ok fw', w') ->
  written (es ++ [(row, raw, rc)])%list w' fw' /\ jl_mail w' = jl_mail w /\
  (forall p, p <> mb -> d_files (jl_disk w') !! p = d_files (jl_disk w) !! p).
Proof using Type.
  intros (Hpath & Hfile & Hmeta & Hn) Hr. unfold write_entry, fs in Hr.
  destruct (bind_inv _ _ _ _ _ Hr) as [(? & _ & ?)|([] & w1 & Ha & [= <- <-])]; [done|].
  apply map_err_inv in Ha as ([[]|e] & Ha & [=]). apply on_disk_inv in Ha as (d & Ha & <- & Hm & _).
  apply append_Ok in Ha. rewrite Hpath, Hfile in Ha. cbn [from_option id] in Ha. split; [|split; [done|]].
  - split_and!; cbn; [done| | |].
    + rewrite Ha, lookup_insert_eq. by rewrite mbox_stream_snoc.
    + rewrite !map_app, terminated_app, Hmeta. cbn. by rewrite app_nil_r_s.
    + rewrite length_app, Hn. cbn. lia.
  - intros p Hp. by rewrite Ha, lookup_insert_ne.
Qed.

Lemma find_update_other id id' f (l : list MessageRow) : id <> id' -> (forall m, m_id (f m) = m_id m) ->
  List.find (message_by_id id) (update_messages (message_by_id id') f l) = List.find (message_by_id id) l.
Proof using Type.
  intros Hne Hf. induction l as [|m l IH]; [done|].
  unfold update_messages in *. cbn [map List.find]. rewrite IH. destruct (message_by_id id' m) eqn:He; [|done].
  unfold message_by_id in *. rewrite Hf. apply String.eqb_eq in He. destruct (String.eqb_spec (m_id m) id); [congruence|done].
Qed.
Lemma backfill_run id raw (w : world) r w' : backfill data_dir a id raw w = (r, w') ->
  holds_but [id] w w' /\ d_files (jl_disk w') !! mb = d_files (jl_disk w) !! mb.
Proof using Hmb.
  unfold backfill, attempt, bind at 1, on_disk. intros Hr.
  destruct (store data_dir a raw (jl_disk w)) as [s d] eqn:Hs.
  pose proof (store_files _ _ _ _ _ _ Hs) as Hk. apply blob_store_run in Hs as [Ho _].
  set (w1 := mkJl (jl_mail w) _ _ _ _ _) in Hr.
  assert (H1w : holds_but [id] w w1 /\ d_files (jl_disk w1) !! mb = d_files (jl_disk w) !! mb).
  { split; [apply holds_same; [done|]; intros p x _; apply Hk|]. cbn. apply Ho. intros He. by apply (Hmb (sha256_hex raw)). }
  destruct s as [rel|e]; [|by injection Hr as _ <-]. destruct H1w as [Hh Hf].
  unfold bind, on_mail in Hr. destruct (set_message_raw_blob id rel (jl_mail w1)) as [x db'] eqn:Hset.
  injection Hr as _ <-. split; [|exact Hf].
  intros i y Hi Hy. specialize (Hh i y Hi Hy) as (m & p & Hfind & Hp & Hne & Hx). exists m, p. cbn. split_and!; try done.
  destruct x as [[]|e]; [|apply mstmt_Err in Hset as ->; exact Hfind].
  apply mstmt_Ok in Hset as (db2 & n & [= <-] & ->). cbn. rewrite find_update_other; [exact Hfind| |done].
  intros ->. by apply Hi, list_elem_of_singleton.
Qed.

Definition ids_of (rows : list MailRow) : list string := map mr_id rows.
Lemma write_pending_run rows : forall fetched es fw (w w' : world) fw', written es w fw ->
  write_pending data_dir a rows fetched fw w = (Ok fw', w') ->
  exists es', written (es ++ es')%list w' fw' /\ map (fun e : entry => fst (fst e)) es' = rows /\ holds_but (ids_of rows) w w'.
Proof using Hmb.
  induction rows as [|row rows IH]; intros fetched es fw w w' fw' Hw Hr; cbn [write_pending] in Hr.
  { injection Hr as <- <-. exists []. rewrite app_nil_r. split; [done|]. split; [done|]. by intros i y _. }
  assert (Hstep : forall fetched raw rc (w1 : world), written es w1 fw -> holds_but [mr_id row] w w1 ->
    (let! fw := write_entry row raw rc fw in write_pending data_dir a rows fetched fw) w1 = (Ok fw', w') ->
    exists es', written (es ++ es')%list w' fw' /\ map (fun e : entry => fst (fst e)) es' = row :: rows /\
      holds_but (mr_id row :: ids_of rows) w w').
  { clear Hr. intros fe raw rc w1 Hw1 Hh Hr.
    destruct (bind_inv _ _ _ _ _ Hr) as [(? & _ & ?)|(fw2 & w2 & Hwe & Hrest)]; [done|].
    apply (write_entry_run es) in Hwe as (Hw2 & Hm & Hf); [|done].
    apply (IH _ _ _ _ _ _ Hw2) in Hrest as (es' & Hes & Hrows & Hh'). exists ((row, raw, rc) :: es').
    split; [by rewrite <- (assoc_L app) in Hes|]. split; [cbn; by rewrite Hrows|].
    apply (holds_trans [mr_id row] (ids_of rows) w w1); [done|]. apply (holds_trans [] (ids_of rows) w1 w2); [|done].
    apply holds_same; [done|]. intros p x Hp Hx. by rewrite Hf. }
  destruct (fetched !! mr_id row) as [raw|].
  - destruct (bind_inv _ _ _ _ _ Hr) as [(? & _ & ?)|([] & w1 & Hb & Hrest)]; [done|].
    apply backfill_run in Hb as [Hh Hf]. apply (Hstep (delete (mr_id row) fetched) raw false w1); [|done|exact Hrest].
    destruct Hw as (Hp & Hx & Hm). split; [done|]. by rewrite Hf.
  - apply (Hstep fetched (reconstruct_message row) true w); [done|by intros i y _|exact Hr].
Qed.

Lemma stored_raw_run id (w : world) o w' : stored_raw data_dir id w = (Ok o, w') ->
  ml_messages (jl_mail w') = ml_messages (jl_mail w) /\ jl_disk w' = jl_disk w /\
  forall raw, held w id raw -> o = Some raw.
Proof using Type.
  unfold stored_raw. intros Hr.
  destruct (bind_inv _ _ _ _ _ Hr) as [(? & _ & ?)|(path & w1 & Hp & Hrest)]; [done|].
  apply read_inv in Hp as (-> & Hm & Hd & _).
  assert (Hw' : jl_mail w' = jl_mail w1 /\ jl_disk w' = jl_disk w1 /\ o = (p ← List.find (message_by_id id) (ml_messages (jl_mail w)) ≫= m_raw_blob;
    d_files (jl_disk w1) !! resolve_storage_path data_dir p)).
  { destruct (List.find _ _ ≫= m_raw_blob) as [p|]; [|by injection Hrest as <- <-].
    unfold attempt, bind, on_disk, read, fs_read in Hrest. cbn in Hrest |- *.
    destruct (d_files (jl_disk w1) !! _) in Hrest |- *; by injection Hrest as <- <-. }
  destruct Hw' as (-> & -> & ->). split; [done|]. split; [done|].
  intros raw (m & p & -> & Hp & _ & Hx). cbn. rewrite Hp. cbn. by rewrite Hd.
Qed.

Lemma export_rows_run server allow rows : forall pending es fw (w w' : world) fw', written es w fw ->
  NoDup (ids_of (pending ++ rows)) ->
  export_rows data_dir a server allow rows pending fw w = (Ok fw', w') ->
  exists es', written (es ++ es')%list w' fw' /\ map (fun e : entry => fst (fst e)) es' ≡ₚ (pending ++ rows)%list /\
    forall row raw, row ∈ rows -> held w (mr_id row) raw -> (row, raw, false) ∈ es'.
Proof using Hmb.
  induction rows as [|row rows IH]; intros pending es fw w w' fw' Hw Hnd Hr; cbn [export_rows] in Hr.
  { apply (write_pending_run _ _ es) in Hr as (es' & Hes & Hrows & _); [|done]. exists es'. split; [done|].
    rewrite app_nil_r. split; [by rewrite Hrows|]. intros row raw Hin. by apply not_elem_of_nil in Hin. }
  destruct (bind_inv _ _ _ _ _ Hr) as [(? & _ & ?)|(stored & w1 & Hst & Hgo)]; [done|]. clear Hr.
  apply stored_raw_run in Hst as (Hm & Hd & Hheld).
  assert (Hw1 : written es w1 fw) by (unfold written; by rewrite Hd).
  assert (Hh1 : forall id raw, held w id raw -> held w1 id raw).
  { intros id raw (m & p & Hh). exists m, p. by rewrite Hm, Hd. }
  unfold ids_of in Hnd. rewrite map_app in Hnd. cbn [map] in Hnd.
  apply NoDup_app in Hnd as (Hp & Hdis & Hrows). apply NoDup_cons in Hrows as [Hrow Hrows].
  assert (Hout : forall r, r ∈ rows -> mr_id r ∉ ids_of pending /\ mr_id r <> mr_id row).
  { intros r Hin. assert (Hid : mr_id r ∈ map mr_id rows) by by apply list_elem_of_fmap_2. split.
    - intros Hx. apply (Hdis _ Hx). by right.
    - intros He. apply Hrow. by rewrite <- He. }
  destruct stored as [raw|].
  - destruct (bind_inv _ _ _ _ _ Hgo) as [(? & _ & ?)|(fw2 & w2 & Hwe & Hrest)]; [done|]. clear Hgo.
    apply (write_entry_run es) in Hwe as (Hw2 & Hm2 & Hf2); [|done].
    apply (IH _ _ _ _ _ _ Hw2) in Hrest as (es' & Hes & Hperm & Hin).
    2: { unfold ids_of. rewrite map_app. apply NoDup_app. split_and!; [done| |done].
         intros x Hx Hx'. apply (Hdis x Hx). by right. }
    exists ((row, raw, false) :: es'). split; [by rewrite <- (assoc_L app) in Hes|]. split.
    { cbn [map fst]. rewrite Hperm. apply Permutation_middle. }
    intros r y [->|Hr]%elem_of_cons Hy.
    + specialize (Hheld _ Hy). injection Hheld as ->. by left.
    + right. apply Hin; [done|]. apply (holds_same [] w1 w2); [done| |apply not_elem_of_nil|by apply Hh1].
      intros p x Hne Hx. by rewrite Hf2.
  - assert (Hnone : forall y, ~ held w (mr_id row) y) by (intros y Hy; by specialize (Hheld _ Hy)).
    destruct (SERVER_FETCH_BATCH <=? _)%nat.
    + destruct (bind_inv _ _ _ _ _ Hgo) as [(? & _ & ?)|(fw2 & w2 & Hfl & Hrest)]; [done|]. clear Hgo.
      apply (write_pending_run _ _ es) in Hfl as (es1 & Hw2 & Hrows1 & Hh2); [|done].
      apply (IH _ _ _ _ _ _ Hw2) in Hrest as (es' & Hes & Hperm & Hin); [|done].
      exists (es1 ++ es')%list. split; [by rewrite (assoc_L app)|]. split.
      { rewrite map_app, Hrows1, Hperm. cbn [app]. by rewrite <- (assoc_L app). }
      intros r y [->|Hr]%elem_of_cons Hy; [by destruct (Hnone y)|]. apply elem_of_app. right.
      apply Hin; [done|]. apply Hh2; [|by apply Hh1]. destruct (Hout r Hr) as [Hx Hne].
      unfold ids_of. rewrite map_app. cbn [map]. intros [?|Hi]%elem_of_app; [done|]. by apply list_elem_of_singleton in Hi.
    + apply (IH _ _ _ _ _ _ Hw1) in Hgo as (es' & Hes & Hperm & Hin).
      2: { rewrite <- (assoc_L app). unfold ids_of. rewrite map_app. cbn [app map]. apply NoDup_app. split_and!; [done|done|].
           by apply NoDup_cons. }
      exists es'. split; [done|]. split; [rewrite Hperm; by rewrite <- (assoc_L app)|].
      intros r y [->|Hr]%elem_of_cons Hy; [by destruct (Hnone y)|]. apply Hin; [done|by apply Hh1].
Qed.
End ExportLaws.

Lemma abs_first a s t : is_absolute (String a s) = is_absolute (String a t).
Proof.
  cut (forall u v, is_absolute (String a u) = true -> is_absolute (String a v) = true).
  { intros Hc. destruct (is_absolute (String a t)) eqn:Ht; [by apply (Hc t)|].
    apply not_true_iff_false. intros Hs. apply (Hc s t) in Hs. congruence. }
  intros u v Hu. apply starts_with_spec in Hu as (x & Hx). injection Hx as -> _. apply starts_with_spec. by exists v.
Qed.
Lemma join_apart dir id s t : is_absolute s = false -> is_absolute t = false -> s <> t ->
  path_join dir (id +:+ s) <> path_join dir (id +:+ t).
Proof.
  intros Hs Ht Hne He. apply Hne, (app_inj_l_s id). destruct (is_absolute (id +:+ s)) eqn:Ha.
  - assert (Hb : is_absolute (id +:+ t) = true) by (destruct id as [|c id]; [change (is_absolute s = true) in Ha; congruence|rewrite <- Ha; apply abs_first]).
    unfold path_join in He. by rewrite Ha, Hb in He.
  - assert (Hb : is_absolute (id +:+ t) = false) by (destruct id as [|c id]; [exact Ht|rewrite <- Ha; apply abs_first]).
    destruct (path_join_app dir _ Ha) as [pre Hpre]. rewrite !Hpre in He by done. by apply app_inj_l_s in He.
Qed.

Section BackupTheorems.
Context {T : Type} `{JmapWire T} `{Chrono} `{CryptoLib} `{StoreLib} `{JsonLib} `{BlobLaws} `{MetaLaws}
  `{MimeLib} `{JobLib} `{ErrorText}.
Local Abbreviation world := (jmap_world T).

Definition in_folder (folder_id : string) (w : world) : list MessageRow :=
  List.filter (fun m => String.eqb (m_folder m) folder_id) (ml_messages (jl_mail w)).

Lemma load_run fid (w : world) rows w' : mail_ok (jl_mail w) -> load_folder_messages fid w = (Ok rows, w') ->
  (rows ≡ₚ map mail_row (in_folder fid w)) /\ NoDup (ids_of rows) /\
  ml_messages (jl_mail w') = ml_messages (jl_mail w) /\ jl_disk w' = jl_disk w.
Proof.
  intros Hok Hr. apply read_inv in Hr as (-> & Hm & Hd & _).
  assert (Hperm : map mail_row (order_by date_le (in_folder fid w)) ≡ₚ map mail_row (in_folder fid w)).
  { apply fmap_Permutation, order_by_perm. }
  split; [exact Hperm|]. split; [|done]. unfold ids_of. change (NoDup (mr_id <$> map mail_row (order_by date_le (in_folder fid w)))).
  rewrite Hperm. change (NoDup (map mr_id (map mail_row (in_folder fid w)))). rewrite map_map. cbn.
  eapply sublist_NoDup; [apply (ok_ids _ Hok)|]. apply fmap_sublist, filter_sublist.
Qed.

Lemma export_run data_dir server allow folder dir (w w1 : world) n : mail_ok (jl_mail w) ->
  let mb := mbox_path dir (ef_id folder) in
  (forall h, path_join data_dir (relative_blob_path (ef_account folder) h) <> mb) ->
  export_folder data_dir server allow folder dir w = (Ok n, w1) ->
  exists es : list entry, n = Z.of_nat (length es) /\
    d_files (jl_disk w1) !! mb = Some (mbox_stream "" (map archived_of es)) /\
    d_files (jl_disk w1) !! sidecar_path dir (ef_id folder) = Some (terminated (map meta_text (map meta_of es))) /\
    map (fun e : entry => fst (fst e)) es ≡ₚ map mail_row (in_folder (ef_id folder) w) /\
    forall row raw, row ∈ map mail_row (in_folder (ef_id folder) w) -> held data_dir mb w (mr_id row) raw -> (row, raw, false) ∈ es.
Proof.
  intros Hok mb Hmb Hr. unfold export_folder, fs in Hr. fold mb in Hr.
  destruct (bind_inv _ _ _ _ _ Hr) as [(? & _ & ?)|(rows & w2 & Hl & Hr2)]; [done|]. clear Hr.
  apply load_run in Hl as (Hperm & Hnd & Hm2 & Hd2); [|done].
  destruct (bind_inv _ _ _ _ _ Hr2) as [(? & _ & ?)|([] & w3 & Hc & Hr3)]; [done|]. clear Hr2.
  apply map_err_inv in Hc as ([[]|e] & Hc & [=]). apply on_disk_inv in Hc as (d3 & Hc & Hd3 & Hm3 & _).
  assert (Hwrite : forall full data d d', fs_write full data d = (Ok tt, d') -> d_files d' = <[full := data]> (d_files d)).
  { clear. intros full data d d' Hw. assert (He : fs_append full data (set_files (delete full (d_files d)) d) = (Ok tt, set_files (d_files d') d')).
    { unfold fs_append, fs_write in *. cbn. rewrite lookup_delete_eq. cbn. destruct (d_read_only d); [done|].
      destruct (d_free d) as [k|]; [destruct (_ <=? _)%nat; [|done]|]; injection Hw as <-; cbn; by rewrite insert_delete_eq. }
    apply append_Ok in He. cbn in He. by rewrite lookup_delete_eq, insert_delete_eq in He. }
  apply Hwrite in Hc. rewrite <- Hd3 in Hc.
  destruct (bind_inv _ _ _ _ _ Hr3) as [(? & _ & ?)|(fw & w4 & He & Hr4)]; [done|]. clear Hr3.
  apply (export_rows_run data_dir (ef_account folder) mb Hmb server allow rows [] []) in He as (es & Hw & Hrows & Hin).
  2: { split_and!; [done| |done|done]. rewrite Hc. apply lookup_insert_eq. }
  2: done.
  destruct (bind_inv _ _ _ _ _ Hr4) as [(? & _ & ?)|([] & w5 & Hs & [= <- <-])]; [done|]. clear Hr4.
  apply map_err_inv in Hs as ([[]|e] & Hs & [=]). apply on_disk_inv in Hs as (d5 & Hs & Hd5 & _ & _).
  apply Hwrite in Hs. rewrite <- Hd5 in Hs. destruct Hw as (_ & Hfile & Hmeta & Hcount). exists es.
  split_and!.
  - exact Hcount.
  - rewrite Hs, lookup_insert_ne; [exact Hfile|]. unfold mb, mbox_path, sidecar_path. by apply join_apart.
  - rewrite Hs, lookup_insert_eq. by rewrite Hmeta.
  - cbn in Hrows. by rewrite Hrows.
  - intros row raw Hrow Hheld. apply Hin; [by rewrite Hperm|].
    destruct Hheld as (m & p & Hf & Hp & Hne & Hx). exists m, p. rewrite Hm3, Hm2. split_and!; [done..|].
    rewrite Hc, lookup_insert_ne by done. by rewrite Hd2.
Qed.

Lemma merge_run dir a f mail_dir uuid bdir r (v : world) r' v' :
  merge_folder_mail dir a f mail_dir uuid bdir r v = (Ok r', v') ->
  additive v v' /\
  (failed r' = failed r -> tidy dir a v -> tidy dir a v' /\ exists mbox text,
     d_files (jl_disk v) !! mbox_path mail_dir uuid = Some mbox /\ d_files (jl_disk v) !! sidecar_path mail_dir uuid = Some text /\
     (forall chunk meta, (chunk, meta) ∈ combine (split_mbox mbox) (parse_sidecar text) ->
        exists m, meta = Some m /\ restored dir a (recover_raw chunk) m v') /\
     brings (fun m => exists chunk meta id stamp, (chunk, Some meta) ∈ combine (split_mbox mbox) (parse_sidecar text) /\
       m = import_row id a f stamp (recover_raw chunk) meta) (jl_mail v) (jl_mail v')).
Proof.
  unfold merge_folder_mail, attempt, bind, on_disk, read_to_string, fs_read, ret, throw. intros Hr.
  destruct (d_files (jl_disk v) !! mbox_path mail_dir uuid) as [mbox|] eqn:Hmb; cbn in Hr.
  2: { injection Hr as <- <-. split; [by split|]. rewrite failed_add, failed_error. lia. }
  destruct (d_files (jl_disk v) !! sidecar_path mail_dir uuid) as [text|] eqn:Hsc; cbn in Hr.
  2: { injection Hr as <- <-. split; [by split|]. rewrite failed_add, failed_error. lia. }
  destruct (utf8_valid text); cbn in Hr.
  2: { injection Hr as <- <-. split; [by split|]. rewrite failed_add, failed_error. lia. }
  pose proof (bring_entries (fun m => exists chunk meta id stamp, (chunk, Some meta) ∈ combine (split_mbox mbox) (parse_sidecar text) /\
    m = import_row id a f stamp (recover_raw chunk) meta) dir a f uuid bdir (combine (split_mbox mbox) (parse_sidecar text))
    (fun chunk meta id stamp Hin => ex_intro _ chunk (ex_intro _ meta (ex_intro _ id (ex_intro _ stamp (conj Hin eq_refl))))) _ _ _ _ Hr) as Hbring.
  apply import_entries_run in Hr as (Hle & Hadd & Hres). split; [exact Hadd|]. intros Heq Htidy.
  pose proof (failed_mismatch uuid (length (split_mbox mbox)) (length (parse_sidecar text))
    (bad_lines uuid (sidecar_lines text) r)) as Hmis. rewrite failed_bad in Hmis.
  destruct Hres as [Ht Hall]; [lia|]. split; [by apply Ht|]. exists mbox, text. split_and!; [done..|exact Hbring].
Qed.

Lemma combine_find {A B C D} (f : A -> C) (g : D -> C) (h : D -> B) (es : list D) : forall l, map f l = map g es ->
  forall e, e ∈ es -> exists c, (c, h e) ∈ combine l (map h es) /\ f c = g e.
Proof.
  induction es as [|d es IH]; intros l Hl e He; [by apply not_elem_of_nil in He|].
  destruct l as [|c l]; [done|]. cbn in Hl. injection Hl as Hc Hl.
  apply elem_of_cons in He as [->|He]; [exists c; split; [by left|done]|].
  destruct (IH l Hl e He) as (c' & Hin & Hf). exists c'. split; [by right|done].
Qed.
Lemma combine_inv {A B C D} (f : A -> C) (g : D -> C) (h : D -> B) (es : list D) : forall l c x, map f l = map g es ->
  (c, x) ∈ combine l (map h es) -> exists e, e ∈ es /\ f c = g e /\ x = h e.
Proof.
  induction es as [|d es IH]; intros [|y l] c x Hl Hin; cbn in Hl, Hin.
  1-3: first [done|by apply not_elem_of_nil in Hin].
  injection Hl as Hy Hl. apply elem_of_cons in Hin as [[= -> ->]|Hin]; [exists d; split; [by left|done]|].
  destruct (IH l c x Hl Hin) as (e & He & ?). exists e. split; [by right|done].
Qed.
Lemma nodup_key {A} (k : A -> string) l x y : NoDup (map k l) -> x ∈ l -> y ∈ l -> k x = k y -> x = y.
Proof.
  induction l as [|z l IH]; intros Hnd Hx Hy Hk; [by apply not_elem_of_nil in Hx|]. cbn in Hnd. apply NoDup_cons in Hnd as [Hz Hnd].
  apply elem_of_cons in Hx as [->|Hx], Hy as [->|Hy]; [done| | |by apply IH]; destruct Hz; [rewrite Hk|rewrite <-Hk]; by apply list_elem_of_fmap_2.
Qed.
(** The bytes an archive has for an id. *)
Definition archived_bytes (es : list entry) (id : string) : string :=
  match List.find (fun e : entry => String.eqb (mr_id (fst (fst e))) id) es with Some (_, raw, _) => raw | None => "" end.
Lemma archived_once es row raw rc : NoDup (map (fun e : entry => mr_id (fst (fst e))) es) -> (row, raw, rc) ∈ es -> archived_bytes es (mr_id row) = raw.
Proof.
  intros Hnd Hin. unfold archived_bytes. destruct (List.find _ es) as [[[row' raw'] rc']|] eqn:Hf.
  - apply find_some in Hf as [Hin' Hid]. apply list_elem_of_In in Hin'. apply String.eqb_eq in Hid.
    by pose proof (nodup_key _ _ _ _ Hnd Hin' Hin Hid) as [= _ -> _].
  - pose proof (find_none _ _ Hf (row, raw, rc) (proj1 (list_elem_of_In _ _) Hin)) as Hn. cbn in Hn. by rewrite String.eqb_refl in Hn.
Qed.
Lemma import_row_flags id a f stamp row raw rc : let m := import_row id a f stamp raw (entry_meta row raw rc) in
  m_folder m = f /\ m_read m = mr_is_read row /\ m_starred m = mr_is_starred row.
Proof. unfold import_row, entry_meta. destruct (extract_mime raw) as [[? ?] ?]. cbn. by destruct (mr_is_read row), (mr_is_starred row). Qed.
Lemma matches_read a sha mid m : matches_import a sha mid m = true ->
  m_account m = a /\ (m_external m = Some sha \/ m_message_id m = mid /\ is_Some (nonempty mid)).
Proof.
  unfold matches_import. rewrite andb_true_iff, orb_true_iff, bool_decide_eq_true, String.eqb_eq. intros [Ha [Hs|Hm]]; [by auto|].
  split; [done|right]. destruct mid as [s|]; [|done]. cbn in *. destruct (is_empty s); [done|]. apply bool_decide_eq_true in Hm. by split.
Qed.
Lemma find_row (w : world) m : mail_ok (jl_mail w) -> m ∈ ml_messages (jl_mail w) ->
  List.find (message_by_id (m_id m)) (ml_messages (jl_mail w)) = Some m.
Proof.
  intros Hok Hm. destruct (List.find _ _) as [m'|] eqn:Hf.
  - apply find_some in Hf as [Hin Hid]. apply String.eqb_eq in Hid. apply list_elem_of_In in Hin.
    f_equal. by apply (row_by_id (jl_mail w)).
  - pose proof (find_none _ _ Hf m (proj1 (list_elem_of_In _ _) Hm)) as Hn. unfold message_by_id in Hn.
    by rewrite String.eqb_refl in Hn.
Qed.

(** What the merge leaves of one message of the folder: the bytes are those on disk, if the export found them there; a
    row of the account carries their digest or the message's own Message-ID, and points at bytes; and the bytes are in the
    account's blob tree (if no other bytes have their digest). *)
Definition comes_back (data_dir data_dir' mb a : string) (w v' : world) (m : MessageRow) (raw : string) : Prop :=
  (forall p x, m_raw_blob m = Some p -> resolve_storage_path data_dir p <> mb ->
     d_files (jl_disk w) !! resolve_storage_path data_dir p = Some x -> raw = x) /\
  (exists m', m' ∈ ml_messages (jl_mail v') /\ m_account m' = a /\ is_Some (nonempty (m_raw_blob m')) /\
     (m_external m' = Some ("import:" +:+ sha256_hex raw) \/
      m_message_id m' = m_message_id m /\ is_Some (nonempty (m_message_id m)))) /\
  ((forall x, sha256_hex x = sha256_hex raw -> x = raw) ->
     read data_dir' (relative_blob_path a (sha256_hex raw)) (jl_disk v') = (Ok raw, jl_disk v')).

End BackupTheorems.

(** ** Witnesses *)

#[local] Instance toy_wire : JmapWire (list bool) := told_wire.
#[local] Instance toy_text_of : ErrorText := fun _ => "error".
(** One message with its bytes on disk, one without. *)
Definition toy_source : jmap_world (list bool) :=
  let '(_, d) := store "/data" "a1" "hello" (toy_disk None) in
  mkJl (snd (set_message_raw_blob "id1" "blobs/a1/ab/ab01" toy_mail2)) [] [] d ∅ [].
Definition toy_folder : ExportFolder := mkExportFolder "id0" "a1".
Definition no_counts : SectionCounts := mkCounts 0 0 0 0.
Definition toy_report : ImportReport := mkReport false no_counts no_counts no_counts no_counts no_counts [].
Definition toy_export := export_folder "/data" (fun _ => []) false toy_folder "/staging" toy_source.
Definition toy_exported : jmap_world (list bool) := snd toy_export.
Definition toy_import := merge_folder_mail "/data" "a2" "id9" "/staging" "id0" "/staging/blobs" toy_report toy_exported.
Definition toy_imported : jmap_world (list bool) := snd toy_import.
Definition toy_result : ImportReport := mkReport false no_counts no_counts (mkCounts 1 1 0 0) no_counts no_counts [].

Lemma toy_source_ok : mail_ok (jl_mail toy_source).
Proof. apply pres_snd; [apply pres_raw_blob|apply toy_mail2_ok]. Qed.
Lemma toy_apart h : path_join "/data" (relative_blob_path "a1" h) <> "/staging/id0.mbox".
Proof. unfold path_join. rewrite relative_is_relative. cbn. discriminate. Qed.
Lemma toy_tree_addressed : addressed "/data" "a2" (jl_disk toy_exported).
Proof.
  intros data x. replace (d_files (jl_disk toy_exported) !! _) with (@None string); [done|].
  unfold sha256_hex, toy_sha, toy_digest. destruct (String.eqb data "hello"); vm_compute; reflexivity.
Qed.


(** The export takes every row of the folder, a message the user has deleted too, and the
    sidecar has no flag for it: the restored message is a live one. *)
Definition toy_binned : jmap_world (list bool) :=
  mkJl (set_messages (map (fun m => if String.eqb (m_id m) "id1" then soft_delete m else m)
    (ml_messages (jl_mail toy_source))) (jl_mail toy_source)) [] [] (jl_disk toy_source) ∅ [].
Theorem deleted_mail_comes_back :
  let exported := snd (export_folder "/data" (fun _ => []) false toy_folder "/staging" toy_binned) in
  let imported := snd (merge_folder_mail "/data" "a2" "id9" "/staging" "id0" "/staging/blobs" toy_report exported) in
  map m_deleted (List.filter (message_by_id "id1") (ml_messages (jl_mail toy_binned))) = [true] /\
  map m_deleted (List.filter (fun m => bool_decide (m_external m = Some "import:ab01")) (ml_messages (jl_mail imported))) = [false].
Proof. vm_compute. done. Qed.
