(* ===== verification/Upload.v ===== *)
(** * Archives: uploads in chunks, and the registry ([backup/upload.rs], [backup/artifacts.rs])

    An upload is a staged file and an entry of the user's registry in the key-value store;
    chunks are written at their offset.  The world is the store, the disk, the clock and the
    ids drawn so far. *)
From S2P Require Import Prelude Kv Crypto Toy Jobs Blobs.
Local Open Scope string_scope.
Local Open Scope Z_scope.

Definition CHUNK_SIZE : Z := 8 * 1024 * 1024.
Definition MAX_CHUNKS : Z := 512.
Definition STALE_UPLOAD_AGE : Z := from_secs (24 * 3600).
Definition REGISTRY_TTL : Z := 24 * 3600.

Record UploadMeta := mkUpload { chunk_sizes : list Z; created_at : string }.
Record ArtifactMeta := mkArtifact { af_id : string; af_filename : string; af_size_bytes : Z; af_created_at : string }.

Inductive UploadError :=
  | UploadNotFound
  | ChunkOutOfRange (n : Z)
  | EmptyChunk
  | OversizedChunk
  | Incomplete (missing : list Z)
  | UploadIo (m : string)
  | UploadBackup (e : BackupError).

(** [uuid], [chrono] and the derived JSON of the two registries. *)
Class UploadLib := {
  uuid_v7 : N -> string;                                  (* the n-th drawn *)
  parse_uuid : string -> option string;                   (* [parse_str], printed again *)
  utc_now_text : Z -> string;
  uploads_json : gmap string UploadMeta -> string;
  parse_uploads : string -> result string (gmap string UploadMeta);
  artifacts_json : list ArtifactMeta -> string;
  parse_artifacts : string -> result string (list ArtifactMeta);
}.
Class UploadLaws `{UploadLib} := {
  uuid_parses n : parse_uuid (uuid_v7 n) = Some (uuid_v7 n);
  uploads_roundtrip m : parse_uploads (uploads_json m) = Ok m;
  artifacts_roundtrip l : parse_artifacts (artifacts_json l) = Ok l;
  uuid_inj : Inj (=) (=) uuid_v7;
  uuid_dotless s u : parse_uuid s = Some u -> sforall (fun a => negb (Ascii.eqb a ".")) u = true;
}.

Record upload_world (K : Type) := mkUp { up_kv : K; up_disk : disk; up_now : Z; up_seq : N }.
Arguments mkUp {K}. Arguments up_kv {K}. Arguments up_disk {K}. Arguments up_now {K}. Arguments up_seq {K}.

(** [File::open], [seek], [write_all]: the gap before the offset is zero bytes. *)
Definition write_at (off : nat) (data s : string) : string :=
  stake off (s +:+ zeros (off - String.length s)) +:+ data +:+ sdrop (off + String.length data) s.
Definition fs_write_at (full : string) (off : nat) (data : string) : io disk BlobError unit :=
  fun d =>
    match d_files d !! full with
    | None => (Err (Io "entity not found"), d)
    | Some s =>
        if d_read_only d then (Err (Io "read-only file system"), d) else
        match d_free d with
        | None => (Ok tt, set_files (<[full := write_at off data s]> (d_files d)) d)
        | Some n =>
            let d' := mkDisk (<[full := write_at off (stake n data) s]> (d_files d)) (Some (n - String.length data)%nat) false in
            if (String.length data <=? n)%nat then (Ok tt, d') else (Err (Io "no space left on device"), d')
        end
    end.
Definition fs_create_new (full : string) : io disk BlobError unit :=
  fun d => match d_files d !! full with
           | Some _ => (Err (Io "entity already exists"), d)
           | None => if d_read_only d then (Err (Io "read-only file system"), d)
                     else (Ok tt, set_files (<[full := ""]> (d_files d)) d)
           end.
Definition fs_len (full : string) : io disk BlobError Z :=
  fun d => (ok_or (Io "entity not found") (option_map (fun s => Z.of_nat (String.length s)) (d_files d !! full)), d).
Definition fs_rename (from to : string) : io disk BlobError unit :=
  fun d => match d_files d !! from with
           | None => (Err (Io "entity not found"), d)
           | Some s => if d_read_only d then (Err (Io "read-only file system"), d)
                       else (Ok tt, set_files (<[to := s]> (delete from (d_files d))) d)
           end.

Section Upload.
Context {K : Type} `{KvStore K} `{UploadLib}.
Local Abbreviation world := (upload_world K).

Definition kv {A} (f : Z -> K -> result KvError.t A * K) : io world BackupError A :=
  fun w => let '(r, k) := f (up_now w) (up_kv w) in
    (rmap_err (fun '(KvError.Internal m) => BackupInternal ("kv internal error: " +:+ m)) r,
     mkUp k (up_disk w) (up_now w) (up_seq w)).
Definition up_fs {A} (m : io disk BlobError A) : io world UploadError A :=
  fun w => let '(r, d) := m (up_disk w) in
    (rmap_err (fun '(Io e) => UploadIo e) r, mkUp (up_kv w) d (up_now w) (up_seq w)).

Definition uploads_key (user_id : string) : string := "backup:uploads:" +:+ user_id.
Definition load (user_id : string) : io world BackupError (gmap string UploadMeta) :=
  let! raw := kv (fun now => kv_get now (uploads_key user_id)) in
  match raw with
  | Some raw => lift (rmap_err BackupJson (parse_uploads raw))
  | None => ret ∅
  end.
Definition save (user_id : string) (map : gmap string UploadMeta) : io world BackupError unit :=
  kv (fun now => kv_set now (uploads_key user_id) (uploads_json map) (Some REGISTRY_TTL)).

Definition staging_dir (data_dir : string) : string := path_join (path_join data_dir "backups") "staging".
Definition upload_path (data_dir id ext : string) : result UploadError string :=
  let? uuid := ok_or UploadNotFound (parse_uuid id) in
  Ok (path_join (staging_dir data_dir) ("upload-" +:+ uuid +:+ "." +:+ ext)).

Definition start (data_dir user_id : string) : io world UploadError string :=
  let! _ := up_fs create_dir_all in
  let! id := (fun w => (Ok (uuid_v7 (up_seq w)), mkUp (up_kv w) (up_disk w) (up_now w) (N.succ (up_seq w)))) in
  let! path := lift (upload_path data_dir id "part") in
  let! _ := up_fs (fs_create_new path) in
  let! map := map_err UploadBackup (load user_id) in
  let! now := gets up_now in
  let! _ := map_err UploadBackup (save user_id (<[id := mkUpload [] (utc_now_text now)]> map)) in
  ret id.

(** [resize(idx + 1, 0)] when too short, then [chunk_sizes[idx] = len]. *)
Definition record_size (idx : nat) (len : Z) (sizes : list Z) : list Z :=
  <[idx := len]> (sizes ++ replicate (S idx - length sizes) 0)%list.
Definition put_chunk (data_dir user_id upload_id : string) (n : Z) (bytes : string) : io world UploadError unit :=
  let len := Z.of_nat (String.length bytes) in
  if is_empty bytes then throw EmptyChunk else
  if CHUNK_SIZE <? len then throw OversizedChunk else
  if MAX_CHUNKS <=? n then throw (ChunkOutOfRange n) else
  let! map := map_err UploadBackup (load user_id) in
  match map !! upload_id with
  | None => throw UploadNotFound
  | Some meta =>
      let! path := lift (upload_path data_dir upload_id "part") in
      let! _ := up_fs (fs_write_at path (Z.to_nat (n * CHUNK_SIZE)) bytes) in
      map_err UploadBackup (save user_id
        (<[upload_id := mkUpload (record_size (Z.to_nat n) len (chunk_sizes meta)) (created_at meta)]> map))
  end.

Definition size_at (sizes : list Z) (i : Z) : Z := default 0 (sizes !! Z.to_nat i).
Definition up_to (total : Z) : list Z := map Z.of_nat (seq 0 (Z.to_nat total)).
Definition bad_chunk (sizes : list Z) (last i : Z) : bool :=
  let size := size_at sizes i in
  if i =? last then (size =? 0) || (CHUNK_SIZE <? size) else negb (size =? CHUNK_SIZE).
Definition finish (data_dir user_id upload_id : string) (total_chunks : Z) : io world UploadError string :=
  if (total_chunks =? 0) || (MAX_CHUNKS <? total_chunks) then throw (ChunkOutOfRange total_chunks) else
  let! map := map_err UploadBackup (load user_id) in
  match map !! upload_id with
  | None => throw UploadNotFound
  | Some meta =>
      let bad := List.filter (bad_chunk (chunk_sizes meta) (total_chunks - 1)) (up_to total_chunks) in
      if negb (bool_decide (bad = [])) then throw (Incomplete bad) else
      let! part := lift (upload_path data_dir upload_id "part") in
      let! file_len := up_fs (fs_len part) in
      let expected := foldr Z.add 0 (List.map (size_at (chunk_sizes meta)) (up_to total_chunks)) in
      if negb (file_len =? expected) then throw (Incomplete (up_to total_chunks)) else
      let! final_path := lift (upload_path data_dir upload_id "lyra") in
      let! _ := up_fs (fs_rename part final_path) in
      let! _ := map_err UploadBackup (save user_id (delete upload_id map)) in
      ret final_path
  end.

(** ** The sweep

    An entry of the staging directory: its name when it is UTF-8, and what [metadata] says:
    whether it is a file, and its modification time. *)
Record dir_entry := mkEntry { de_name : option string; de_meta : option (bool * option Z) }.
(** [Path::extension] of a name that is not just dots. *)
Definition extension (name : string) : option string :=
  match split_once "." (string_rev name) with
  | Some (ext, stem) => if is_empty stem then None else Some (string_rev ext)
  | None => None
  end.
Definition is_upload (name : string) : bool :=
  starts_with "upload-" name &&
  match extension name with
  | Some ext => eq_ignore_ascii_case ext "part" || eq_ignore_ascii_case ext "lyra"
  | None => false
  end.
Definition stale (now : Z) (mtime : option Z) : bool :=
  match mtime with Some t => (t <=? now) && (STALE_UPLOAD_AGE <=? now - t) | None => false end.
Definition swept (now : Z) (e : dir_entry) : option string :=
  match de_name e, de_meta e with
  | Some name, Some (true, mtime) => if is_upload name && stale now mtime then Some name else None
  | _, _ => None
  end.
Definition fs_remove (full : string) : io disk BlobError unit :=
  fun d => if d_read_only d then (Err (Io "read-only file system"), d) else
    match d_files d !! full with
    | None => (Err (Io "entity not found"), d)
    | Some _ => (Ok tt, set_files (delete full (d_files d)) d)
    end.
Fixpoint sweep_entries (dir : string) (now : Z) (entries : list dir_entry) (removed : Z) : io disk BackupError Z :=
  match entries with
  | [] => ret removed
  | e :: rest =>
      match swept now e with
      | None => sweep_entries dir now rest removed
      | Some name =>
          let! r := attempt (fs_remove (path_join dir name)) in
          sweep_entries dir now rest (match r with Ok _ => removed + 1 | Err _ => removed end)
      end
  end.
(** [listing]: what [read_dir] answers, [None] when the directory is not there. *)
Definition sweep_stale_uploads (data_dir : string) (now : Z) (listing : result string (option (list dir_entry)))
    : io disk BackupError Z :=
  match listing with
  | Err m => throw (BackupIo m)
  | Ok None => ret 0
  | Ok (Some entries) => sweep_entries (staging_dir data_dir) now entries 0
  end.

(** ** The artifact registry *)

Definition artifacts_key (user_id : string) : string := "backup:artifacts:" +:+ user_id.
Definition list_artifacts (user_id : string) : io world BackupError (list ArtifactMeta) :=
  let! raw := kv (fun now => kv_get now (artifacts_key user_id)) in
  match raw with
  | Some raw => lift (rmap_err BackupJson (parse_artifacts raw))
  | None => ret []
  end.
Definition save_artifacts (user_id : string) (items : list ArtifactMeta) : io world BackupError unit :=
  kv (fun now => kv_set now (artifacts_key user_id) (artifacts_json items) None).
Definition add_artifact (user_id : string) (meta : ArtifactMeta) : io world BackupError unit :=
  let! items := list_artifacts user_id in
  save_artifacts user_id (items ++ [meta])%list.
Fixpoint remove_first (id : string) (items : list ArtifactMeta) : option (ArtifactMeta * list ArtifactMeta) :=
  match items with
  | [] => None
  | m :: rest => if String.eqb (af_id m) id then Some (m, rest)
                 else option_map (fun '(x, l) => (x, m :: l)) (remove_first id rest)
  end.
Definition remove_artifact (user_id id : string) : io world BackupError (option ArtifactMeta) :=
  let! items := list_artifacts user_id in
  match remove_first id items with
  | None => ret None
  | Some (meta, items) => let! _ := save_artifacts user_id items in ret (Some meta)
  end.
Definition artifact_path (data_dir id : string) : result BackupError string :=
  let? uuid := ok_or (BackupInternal ("invalid artifact id: " +:+ id)) (parse_uuid id) in
  Ok (path_join (path_join data_dir "backups") (uuid +:+ ".lyra")).
End Upload.

(** ** Bytes by position *)

Lemma get_app_l (s t : string) i : (i < String.length s)%nat -> String.get i (s +:+ t) = String.get i s.
Proof.
  revert i. induction s as [|a s IH]; intros i Hi; [cbn in Hi; lia|]. rewrite app_cons_s.
  destruct i as [|i]; [done|]. cbn in *. apply IH. lia.
Qed.
Lemma get_app_r (s t : string) i : String.get (String.length s + i) (s +:+ t) = String.get i t.
Proof. induction s as [|a s IH]; [done|]. rewrite app_cons_s. exact IH. Qed.
Lemma get_stake n s i : (i < n)%nat -> String.get i (stake n s) = String.get i s.
Proof.
  revert n i. induction s as [|a s IH]; intros n i Hi; [by destruct n|]. destruct n as [|n]; [lia|].
  destruct i as [|i]; [done|]. cbn. apply IH. lia.
Qed.
Lemma get_sdrop n s i : String.get i (sdrop n s) = String.get (n + i) s.
Proof. revert n. induction s as [|a s IH]; intros n; [by destruct n|]. destruct n as [|n]; [done|]. cbn. apply IH. Qed.
Lemma get_None s i : (String.length s <= i)%nat -> String.get i s = None.
Proof.
  revert i. induction s as [|a s IH]; intros i Hi; [done|]. destruct i as [|i]; cbn in *; [lia|]. apply IH. lia.
Qed.
Lemma get_None_inv s i : String.get i s = None -> (String.length s <= i)%nat.
Proof.
  revert i. induction s as [|a s IH]; intros i Hi; [cbn; lia|]. destruct i as [|i]; [done|]. cbn in *. apply IH in Hi. lia.
Qed.
Lemma stake_all n s : (String.length s <= n)%nat -> stake n s = s.
Proof. revert n. induction s as [|a s IH]; intros [|n] Hn; cbn in *; try done; [lia|]. f_equal. apply IH. lia. Qed.
Lemma get_ext s t : (forall i, String.get i s = String.get i t) -> s = t.
Proof.
  revert t. induction s as [|a s IH]; intros [|b t] He; [done|by specialize (He O)..|].
  pose proof (He O) as H0. cbn in H0. injection H0 as ->. f_equal. apply IH. intros i. apply (He (S i)).
Qed.

(** A byte of [data] where it was written, and the old byte elsewhere. *)
Lemma get_write_at off data s i :
  (off <= i < off + String.length data -> String.get i (write_at off data s) = String.get (i - off) data)%nat /\
  ((i < off \/ off + String.length data <= i)%nat -> (i < String.length s)%nat ->
     String.get i (write_at off data s) = String.get i s).
Proof.
  unfold write_at. set (head := stake off _).
  assert (Hh : String.length head = off) by (unfold head; rewrite slength_stake, slength_app, slength_zeros; lia).
  split.
  - intros Hi. replace i with (String.length head + (i - off))%nat at 1 by lia. rewrite get_app_r. apply get_app_l. lia.
  - intros Hi Hs. destruct (decide (i < off)%nat) as [Hlt|].
    + rewrite get_app_l by lia. unfold head. rewrite get_stake by done. by apply get_app_l.
    + replace i with (String.length head + (String.length data + (i - (off + String.length data))))%nat at 1 by lia.
      rewrite !get_app_r, get_sdrop. f_equal. lia.
Qed.
Lemma slength_write_at off data s :
  String.length (write_at off data s) = Nat.max (String.length s) (off + String.length data).
Proof.
  unfold write_at. rewrite !slength_app, slength_stake, slength_app, slength_zeros, slength_sdrop. lia.
Qed.

(** The chunks one after the other. *)
Fixpoint assembled (chunk : Z -> string) (i : Z) (m : nat) : string :=
  match m with O => "" | S m => chunk i +:+ assembled chunk (i + 1) m end.
Lemma assembled_eq C (chunk : Z -> string) m : forall i s, (0 < C)%nat -> (0 < m)%nat ->
  (forall j, 0 <= j < Z.of_nat m - 1 -> String.length (chunk (i + j)) = C) ->
  String.length s = ((m - 1) * C + String.length (chunk (i + (Z.of_nat m - 1))%Z))%nat ->
  (forall j k, 0 <= j < Z.of_nat m -> (k < String.length (chunk (i + j)%Z))%nat ->
     String.get (Z.to_nat j * C + k)%nat s = String.get k (chunk (i + j))) ->
  s = assembled chunk i m.
Proof.
  induction m as [|m IH]; intros i s HC Hm Hfull Hlen Hget; [lia|].
  destruct m as [|m].
  - cbn [assembled]. rewrite app_nil_r_s. replace (i + (Z.of_nat 1 - 1)) with i in Hlen by lia.
    apply get_ext. intros k. destruct (decide (k < String.length (chunk i))%nat).
    + specialize (Hget 0 k). rewrite Z.add_0_r in Hget. apply Hget; [lia|done].
    + rewrite !get_None; [done|lia|lia].
  - assert (H0 : String.length (chunk i) = C) by (specialize (Hfull 0); rewrite Z.add_0_r in Hfull; apply Hfull; lia).
    change (assembled chunk i (S (S m))) with (chunk i +:+ assembled chunk (i + 1) (S m)).
    rewrite <- (IH (i + 1) (sdrop C s)).
    + rewrite <- (stake_sdrop C s) at 1. f_equal. apply get_ext. intros k.
      destruct (decide (k < C)%nat) as [Hk|].
      * rewrite get_stake by done. specialize (Hget 0 k). rewrite Z.add_0_r in Hget. apply Hget; lia.
      * rewrite !get_None; [done|lia|rewrite slength_stake; lia].
    + done.
    + lia.
    + intros j Hj. replace (i + 1 + j) with (i + (j + 1)) by lia. apply Hfull. lia.
    + rewrite slength_sdrop, Hlen. replace (i + 1 + (Z.of_nat (S m) - 1)) with (i + (Z.of_nat (S (S m)) - 1)) by lia.
      cbn. lia.
    + intros j k Hj Hk. replace (i + 1 + j) with (i + (j + 1)) in Hk |- * by lia. rewrite get_sdrop.
      rewrite <- Hget; [|lia|done]. f_equal. replace (Z.to_nat (j + 1)) with (S (Z.to_nat j)) by lia. lia.
Qed.

(** ** The registry across operations *)

Section Laws.
Context {K : Type} `{KvLaws K} `{UploadLaws}.
Local Abbreviation world := (upload_world K).

Definition text_of (w : world) (user_id : string) : option string := live (up_now w) (cells (up_kv w) (uploads_key user_id)).
Definition registry (w : world) (user_id : string) : gmap string UploadMeta :=
  match text_of w user_id with
  | Some raw => match parse_uploads raw with Ok m => m | Err _ => ∅ end
  | None => ∅
  end.
(** Nothing changed but the store, and the registries it shows are the same. *)
Definition calm (w w' : world) : Prop :=
  up_disk w' = up_disk w /\ up_now w' = up_now w /\ up_seq w' = up_seq w /\ forall u, text_of w' u = text_of w u.
Lemma calm_registry w w' u : calm w w' -> registry w' u = registry w u.
Proof using Type. intros (_ & _ & _ & Ht). unfold registry. by rewrite Ht. Qed.
Lemma uploads_key_inj u u' : uploads_key u = uploads_key u' -> u = u'.
Proof using Type. apply app_inj_l_s. Qed.

Lemma registry_load user w r w' : load user w = (r, w') ->
  calm w w' /\ forall m, r = Ok m -> m = registry w user.
Proof using Type.
  unfold load, kv, bind. destruct (kv_get_law (up_now w) (uploads_key user) (up_kv w)) as (k & Hk & Hs). rewrite Hk. cbn.
  intros Hr. assert (Hw : w' = mkUp k (up_disk w) (up_now w) (up_seq w)) by (destruct (live _ _); by injection Hr).
  subst w'. split.
  - split_and!; [done..|]. intros u. unfold text_of. cbn. apply Hs. lia.
  - intros m ->. unfold registry, text_of. destruct (live _ _) as [raw|]; [|by injection Hr].
    unfold lift in Hr. by destruct (parse_uploads raw); injection Hr.
Qed.
Lemma registry_save user m w r w' : save user m w = (r, w') ->
  r = Ok tt /\ up_disk w' = up_disk w /\ up_now w' = up_now w /\ up_seq w' = up_seq w /\ registry w' user = m /\
  forall u, u <> user -> registry w' u = registry w u.
Proof using All.
  unfold save, kv.
  destruct (kv_set_law (up_now w) (uploads_key user) (uploads_json m) (Some REGISTRY_TTL) (up_kv w)) as (k & Hk & Hc & Ho).
  rewrite Hk. cbn. intros [= <- <-]. split_and!; [done..| |].
  - unfold registry, text_of. cbn. rewrite Hc. cbn. unfold from_secs, REGISTRY_TTL, nanos_per_sec.
    destruct (Z.leb_spec (up_now w + 24 * 3600 * 1000000000) (up_now w)); [lia|]. by rewrite uploads_roundtrip.
  - intros u Hu. unfold registry, text_of. cbn. rewrite Ho; [done|]. intros He. by apply Hu, uploads_key_inj.
Qed.

(** Paths are apart by id and by extension. *)
Lemma upload_path_inj dir id id' ext ext' p : upload_path dir id ext = Ok p -> upload_path dir id' ext' = Ok p ->
  parse_uuid id = parse_uuid id' /\ ext = ext'.
Proof using All.
  unfold upload_path, rbind, ok_or. destruct (parse_uuid id) as [u|] eqn:Hu; [|done].
  destruct (parse_uuid id') as [u'|] eqn:Hu'; [|done]. intros [= <-] [= He].
  destruct (path_join_app (staging_dir dir) ("upload-" +:+ u +:+ "." +:+ ext)) as [pre Hpre]; [done|].
  rewrite !Hpre in He by done. apply app_inj_l_s, app_inj_l_s in He.
  assert (Hd : forall v t, v +:+ "." +:+ t = v +:+ String "." t) by done.
  rewrite !Hd in He. apply (f_equal (split_once ".")) in He.
  rewrite (split_once_app "." u' ext') in He by by eapply uuid_dotless.
  rewrite (split_once_app "." u ext) in He by by eapply uuid_dotless. by injection He as -> ->.
Qed.

(** ** One upload among others *)

Inductive upload_op :=
  | OStart (user : string)
  | OPut (user id : string) (n : Z) (bytes : string)
  | OFinish (user id : string) (total : Z)
  | OWait (nanos : Z).
Definition exec (dir : string) (op : upload_op) (w : world) : world :=
  match op with
  | OStart u => snd (start dir u w)
  | OPut u i n b => snd (put_chunk dir u i n b w)
  | OFinish u i total => snd (finish dir u i total w)
  | OWait dt => mkUp (up_kv w) (up_disk w) (up_now w + dt) (up_seq w)
  end.

Context (dir user id : string) (chunk : Z -> string).
(** Whatever is sent for this upload under an index is the same bytes each time; the rest is as anyone pleases. *)
Definition faithful (op : upload_op) : Prop :=
  match op with
  | OStart _ => True
  | OPut u i n b => 0 <= n /\ (u = user -> i = id -> b = chunk n)
  | OFinish _ _ _ => True
  | OWait dt => 0 <= dt
  end.

Definition part_path : string := path_join (staging_dir dir) ("upload-" +:+ id +:+ "." +:+ "part").
Definition offset (n : Z) : nat := Z.to_nat (n * CHUNK_SIZE).
(** The file holds every chunk the registry lists. *)
Definition holds (meta : UploadMeta) (s : string) : Prop := forall j, 0 <= j -> size_at (chunk_sizes meta) j <> 0 ->
  size_at (chunk_sizes meta) j = Z.of_nat (String.length (chunk j)) /\ Z.of_nat (String.length (chunk j)) <= CHUNK_SIZE /\
  forall k, (k < String.length (chunk j))%nat -> String.get (offset j + k)%nat s = String.get k (chunk j).
Record tracked (w : world) : Prop := {
  tr_ids : forall u i meta, registry w u !! i = Some meta -> exists n, (n < up_seq w)%N /\ i = uuid_v7 n /\ (i = id -> u = user);
  tr_id : exists n, (n < up_seq w)%N /\ id = uuid_v7 n;
  tr_file : forall meta, registry w user !! id = Some meta ->
    exists s, d_files (up_disk w) !! part_path = Some s /\ holds meta s }.

Lemma tracked_mono w w' : (up_seq w <= up_seq w')%N ->
  (forall u i meta, registry w' u !! i = Some meta -> registry w u !! i = Some meta) ->
  d_files (up_disk w') !! part_path = d_files (up_disk w) !! part_path -> tracked w -> tracked w'.
Proof using Type.
  intros Hs Hr Hf [Hi (n & Hn & Hid) Ht]. split.
  - intros u i meta Hm. apply Hr, Hi in Hm as (k & Hk & He). exists k. split; [lia|done].
  - exists n. split; [lia|done].
  - intros meta Hm. apply Hr, Ht in Hm as (s & Hx & Hh). exists s. by rewrite Hf.
Qed.
Lemma calm_tracked w w' : calm w w' -> tracked w -> tracked w'.
Proof using Type.
  intros Hc. apply tracked_mono; pose proof Hc as (Hd & _ & Hs & _); [by rewrite Hs| |by rewrite Hd].
  intros u i meta. by rewrite (calm_registry w w' u Hc).
Qed.

Lemma up_fs_inv {A} (m : io disk BlobError A) (w : world) r w' : up_fs m w = (r, w') -> exists x d,
  m (up_disk w) = (x, d) /\ r = rmap_err (fun '(Io e) => UploadIo e) x /\ w' = mkUp (up_kv w) d (up_now w) (up_seq w).
Proof using Type. unfold up_fs. destruct (m (up_disk w)) as [x d]. intros [= <- <-]. by exists x, d. Qed.
Lemma disk_registry (w : world) d u : registry (mkUp (up_kv w) d (up_now w) (up_seq w)) u = registry w u.
Proof using Type. done. Qed.
Lemma disk_tracked w d : d_files d !! part_path = d_files (up_disk w) !! part_path ->
  tracked w -> tracked (mkUp (up_kv w) d (up_now w) (up_seq w)).
Proof using Type. intros Hf. by apply tracked_mono. Qed.
Lemma upload_path_own n ext : upload_path dir (uuid_v7 n) ext = Ok (path_join (staging_dir dir) ("upload-" +:+ uuid_v7 n +:+ "." +:+ ext)).
Proof using All. unfold upload_path. by rewrite uuid_parses. Qed.
Lemma part_path_apart w n ext p : tracked w -> upload_path dir (uuid_v7 n) ext = Ok p -> p = part_path -> uuid_v7 n = id /\ ext = "part".
Proof using All.
  intros [_ (k & _ & Hid) _] Hp ->.
  destruct (upload_path_inj dir (uuid_v7 n) (uuid_v7 k) ext "part" part_path Hp) as [He ->].
  { rewrite upload_path_own. unfold part_path. by rewrite Hid. }
  rewrite !uuid_parses in He. injection He as ->. by rewrite Hid.
Qed.

Lemma create_new_file p q d r d' : q <> p -> fs_create_new p d = (r, d') -> d_files d' !! q = d_files d !! q.
Proof using Type.
  unfold fs_create_new. intros Hq. destruct (d_files d !! p); [by intros [= _ <-]|].
  destruct (d_read_only d); intros [= _ <-]; [done|]. cbn. by rewrite lookup_insert_ne.
Qed.
Lemma rename_file p p' q d r d' : q <> p -> q <> p' -> fs_rename p p' d = (r, d') -> d_files d' !! q = d_files d !! q.
Proof using Type.
  unfold fs_rename. intros Hp Hq. destruct (d_files d !! p); [|by intros [= _ <-]].
  destruct (d_read_only d); intros [= _ <-]; [done|]. cbn. by rewrite lookup_insert_ne, lookup_delete_ne.
Qed.
Lemma write_file p q off data d r d' : q <> p -> fs_write_at p off data d = (r, d') -> d_files d' !! q = d_files d !! q.
Proof using Type.
  unfold fs_write_at. intros Hq. destruct (d_files d !! p); [|by intros [= _ <-]].
  destruct (d_read_only d); [by intros [= _ <-]|]. destruct (d_free d) as [n|].
  - destruct (_ <=? _)%nat; intros [= _ <-]; cbn; by rewrite lookup_insert_ne.
  - intros [= _ <-]. cbn. by rewrite lookup_insert_ne.
Qed.

Definition with_disk (w : world) (d : disk) : world := mkUp (up_kv w) d (up_now w) (up_seq w).
Lemma fs_then {A B} (m : io disk BlobError A) (f : A -> io world UploadError B) (w : world) r w' : bind (up_fs m) f w = (r, w') ->
  exists x d, m (up_disk w) = (x, d) /\
    match x with Ok a => f a (with_disk w d) = (r, w') | Err (Io e) => r = Err (UploadIo e) /\ w' = with_disk w d end.
Proof using Type.
  unfold bind, up_fs. destruct (m (up_disk w)) as [[a|[e]] d]; intros Hr; [by exists (Ok a), d|]. cbn in Hr.
  exists (Err (Io e)), d. by injection Hr as <- <-.
Qed.
Lemma load_then {B} u (f : gmap string UploadMeta -> io world UploadError B) (w : world) r w' :
  bind (map_err UploadBackup (load u)) f w = (r, w') -> exists w1, calm w w1 /\
    ((exists e, r = Err (UploadBackup e) /\ w' = w1) \/ f (registry w u) w1 = (r, w')).
Proof using Type.
  unfold bind, map_err. destruct (load u w) as [x w1] eqn:Hl. apply registry_load in Hl as [Hc Hm]. exists w1. split; [done|].
  destruct x as [m|e]; cbn in *; [right; by rewrite <- (Hm m eq_refl)|left; exists e; by injection H3 as <- <-].
Qed.
Definition saved (u : string) (m : gmap string UploadMeta) (w w' : world) : Prop :=
  up_disk w' = up_disk w /\ up_now w' = up_now w /\ up_seq w' = up_seq w /\ registry w' u = m /\
  forall u', u' <> u -> registry w' u' = registry w u'.
Lemma save_then {B} u m (f : unit -> io world UploadError B) (w : world) : exists w1, saved u m w w1 /\
  bind (map_err UploadBackup (save u m)) f w = f tt w1.
Proof using All.
  unfold bind, map_err. destruct (save u m w) as [x w1] eqn:Hs. apply registry_save in Hs as (-> & Hs). by exists w1.
Qed.
Lemma saved_lookup u m w w' u' i : saved u m w w' ->
  registry w' u' !! i = if decide (u' = u) then m !! i else registry w u' !! i.
Proof using Type. intros (_ & _ & _ & Hm & Ho). destruct (decide (u' = u)) as [->|]; [by rewrite Hm|by rewrite Ho]. Qed.

(** [id] is not [uuid_v7 n] for an [n] not drawn yet. *)
Lemma fresh_not_id w n : tracked w -> (up_seq w <= n)%N -> uuid_v7 n <> id.
Proof using All. intros [_ (k & Hk & Hid) _] Hn He. rewrite Hid in He. apply uuid_inj in He. lia. Qed.
Lemma start_run u w r w' : start dir u w = (r, w') ->
  up_now w' = up_now w /\ (up_seq w <= up_seq w' <= N.succ (up_seq w))%N /\
  (forall q, (forall p, upload_path dir (uuid_v7 (up_seq w)) "part" = Ok p -> q <> p) ->
     d_files (up_disk w') !! q = d_files (up_disk w) !! q) /\
  ((forall v i, registry w' v !! i = registry w v !! i) /\ ~ (exists i, r = Ok i) \/
   r = Ok (uuid_v7 (up_seq w)) /\ up_seq w' = N.succ (up_seq w) /\
   (forall p, upload_path dir (uuid_v7 (up_seq w)) "part" = Ok p -> is_Some (d_files (up_disk w') !! p)) /\
   exists at_, forall v i, registry w' v !! i =
     if decide (v = u /\ i = uuid_v7 (up_seq w)) then Some (mkUpload [] at_) else registry w v !! i).
Proof using All.
  unfold start. intros Hr. apply fs_then in Hr as (x & d & Hx & Hr).
  assert (Hd : d = up_disk w) by (unfold create_dir_all in Hx; destruct (d_read_only _); by injection Hx).
  subst d. destruct x as [[]|[e]].
  2:{ destruct Hr as [-> ->]. cbn. split_and!; [done|lia..|done|]. left. split; [done|]. by intros (? & ?). }
  unfold bind at 1 in Hr. cbv beta iota in Hr.
  rewrite upload_path_own in Hr |- *. set (p := path_join _ _) in *. cbn [up_kv up_disk up_now up_seq with_disk] in Hr. set (w1 := mkUp _ _ _ _) in *.
  unfold bind at 1, lift in Hr. cbv beta iota in Hr. apply fs_then in Hr as (y & d & Hy & Hr).
  assert (Hq : forall q, q <> p -> d_files d !! q = d_files (up_disk w) !! q) by (intros q Hq; by eapply create_new_file).
  assert (Hap : forall q, (forall p0, (Ok p : result UploadError string) = Ok p0 -> q <> p0) -> q <> p) by (intros q Hall; by apply Hall).
  destruct y as [[]|[e]].
  2:{ destruct Hr as [-> ->]. cbn. split_and!; [done|lia..|auto|]. left. split; [done|]. by intros (? & ?). }
  assert (Hin : is_Some (d_files d !! p)).
  { unfold fs_create_new in Hy. destruct (d_files (up_disk w1) !! p); [done|]. destruct (d_read_only _); [done|].
    injection Hy as <-. cbn. by rewrite lookup_insert_eq. }
  apply load_then in Hr as (w2 & (Hd & Hn & Hs & Ht) & Hr).
  assert (Hreg : forall v i, registry w2 v !! i = registry w v !! i).
  { intros v i. unfold registry. by rewrite Ht. }
  destruct Hr as [(e & -> & ->)|Hr].
  { rewrite Hd, Hn, Hs. cbn. split_and!; [done|lia..|auto|]. left. split; [done|]. by intros (? & ?). }
  unfold bind at 1, gets in Hr. cbv beta iota in Hr.
  match type of Hr with bind (map_err _ (save _ ?m)) ?f _ = _ => destruct (save_then u m f w2) as (w3 & Hsv & He) end.
  rewrite He in Hr. injection Hr as <- <-. pose proof Hsv as (Hd3 & Hn3 & Hs3 & _).
  rewrite Hd3, Hn3, Hs3, Hd, Hn, Hs. cbn. split_and!; [done|lia..|auto|]. right.
  split_and!; [done|done|by intros q [= <-]|]. exists (utc_now_text (up_now w2)). intros v i.
  rewrite (saved_lookup _ _ _ _ _ _ Hsv), Hreg. change (registry _ u) with (registry w u).
  destruct (decide (v = u)) as [->|]; [|by rewrite decide_False by tauto].
  destruct (decide (i = uuid_v7 (up_seq w))) as [->|Hi].
  - by rewrite lookup_insert_eq, decide_True.
  - by rewrite lookup_insert_ne, decide_False by (tauto || congruence).
Qed.
Lemma start_tracked u w r w' : start dir u w = (r, w') -> tracked w -> tracked w'.
Proof using All.
  intros Hr Ht. apply start_run in Hr as (_ & Hs & Hf & Hc).
  assert (Hpart : d_files (up_disk w') !! part_path = d_files (up_disk w) !! part_path).
  { apply Hf. intros p Hp He. symmetry in He. destruct (part_path_apart w _ _ _ Ht Hp He) as [Hid _].
    by apply (fresh_not_id w (up_seq w) Ht). }
  destruct Hc as [[Hreg _]|(-> & Hsq & _ & at_ & Hreg)].
  { apply (tracked_mono w); [lia|intros v i meta; by rewrite Hreg|done|done]. }
  pose proof (fresh_not_id w (up_seq w) Ht ltac:(lia)) as Hne. destruct Ht as [Hi (n & Hn & Hid) Hfile]. split.
  - intros v i meta. rewrite Hreg. case_decide as Hd.
    + destruct Hd as [-> ->]. intros _. exists (up_seq w). split; [lia|]. by split.
    + intros Hm. destruct (Hi v i meta Hm) as (k & Hk & He). exists k. split; [lia|done].
  - exists n. split; [lia|done].
  - intros meta. rewrite Hreg, decide_False by (intros [_ He]; by apply Hne). intros Hm.
    rewrite Hpart. by apply Hfile.
Qed.

(** What a write leaves behind: the old file, or the first bytes of the data in it. *)
Lemma write_at_run p off data d r d' s : fs_write_at p off data d = (r, d') -> d_files d !! p = Some s ->
  d_files d' !! p = Some s /\ (exists e, r = Err e) \/
  exists k, d_files d' !! p = Some (write_at off (stake k data) s) /\ (r = Ok tt -> stake k data = data).
Proof using Type.
  unfold fs_write_at. intros Hr Hs. rewrite Hs in Hr. destruct (d_read_only d).
  { left. injection Hr as <- <-. split; [done|by eexists]. }
  right. destruct (d_free d) as [n|].
  - destruct (Nat.leb_spec (String.length data) n) as [Hl|Hl]; injection Hr as <- <-; exists n; cbn;
      (split; [by rewrite lookup_insert_eq|]); [|done].
    intros _. by apply stake_all.
  - injection Hr as <- <-. exists (String.length data). cbn. rewrite lookup_insert_eq, stake_all by lia. done.
Qed.
Lemma size_at_record n len sizes j : 0 <= n -> 0 <= j ->
  size_at (record_size (Z.to_nat n) len sizes) j = if decide (j = n) then len else size_at sizes j.
Proof using Type.
  intros Hn Hj. unfold size_at, record_size. set (N := Z.to_nat n). set (J := Z.to_nat j).
  destruct (decide (j = n)) as [->|Hne].
  - subst J N. rewrite list_lookup_insert_eq; [done|]. rewrite length_app, length_replicate. lia.
  - rewrite list_lookup_insert_ne by lia. destruct (decide (J < length sizes)%nat).
    + by rewrite lookup_app_l.
    + rewrite lookup_app_r, (lookup_ge_None_2 sizes) by lia. cbn.
      destruct (decide (J - length sizes < S N - length sizes)%nat).
      * by rewrite lookup_replicate_2.
      * by rewrite lookup_ge_None_2 by (rewrite length_replicate; lia).
Qed.
Lemma offset_apart j n k : 0 <= j -> 0 <= n -> j <> n -> Z.of_nat k < CHUNK_SIZE ->
  (offset j + k < offset n \/ offset n + Z.to_nat CHUNK_SIZE <= offset j + k)%nat.
Proof using Type. unfold offset, CHUNK_SIZE. intros. lia. Qed.

(** Writing the first bytes of a chunk at its place leaves every listed chunk whole. *)
Lemma holds_write meta s n k : 0 <= n -> Z.of_nat (String.length (chunk n)) <= CHUNK_SIZE -> holds meta s ->
  holds meta (write_at (offset n) (stake k (chunk n)) s).
Proof using Type.
  intros Hn Hlen Hh j Hj Hnz. destruct (Hh j Hj Hnz) as (Hsz & Hle & Hget). split_and!; [done|done|].
  intros i Hi. pose proof (Hget i Hi) as Hold.
  assert (Hlt : (offset j + i < String.length s)%nat).
  { destruct (decide (offset j + i < String.length s)%nat); [done|]. rewrite get_None in Hold by lia.
    symmetry in Hold. by apply get_None_inv in Hold; lia. }
  destruct (get_write_at (offset n) (stake k (chunk n)) s (offset j + i)) as [Hnew Hkeep].
  destruct (decide (j = n)) as [->|Hne].
  - destruct (decide (i < String.length (stake k (chunk n)))%nat) as [Hs|Hs].
    + rewrite Hnew by lia. replace (offset n + i - offset n)%nat with i by lia. rewrite get_stake; [done|].
      rewrite slength_stake in Hs. lia.
    + rewrite Hkeep by lia. done.
  - rewrite Hkeep; [done| |done]. destruct (offset_apart j n i) as [|]; [done..|lia|by left|].
    right. rewrite slength_stake. lia.
Qed.
Lemma holds_record meta s n : 0 <= n -> Z.of_nat (String.length (chunk n)) <= CHUNK_SIZE -> holds meta s ->
  holds (mkUpload (record_size (Z.to_nat n) (Z.of_nat (String.length (chunk n))) (chunk_sizes meta)) (created_at meta))
    (write_at (offset n) (chunk n) s).
Proof using Type.
  intros Hn Hlen Hh j Hj. cbn [chunk_sizes]. rewrite size_at_record by done. case_decide as Hjn.
  - subst j. intros Hnz. split_and!; [done|done|]. intros k Hk.
    destruct (get_write_at (offset n) (chunk n) s (offset n + k)) as [Hnew _]. rewrite Hnew by lia. f_equal. lia.
  - intros Hnz. destruct (holds_write meta s n (String.length (chunk n)) Hn Hlen Hh j Hj Hnz) as (Hz & Hle & Hg).
    rewrite stake_all in Hg by lia. by split_and!.
Qed.

(** Saving the entry of an upload the registry already has. *)
Lemma saved_tracked u i meta meta' w w' : saved u (<[i := meta']> (registry w u)) w w' ->
  registry w u !! i = Some meta ->
  (u = user -> i = id -> exists s, d_files (up_disk w) !! part_path = Some s /\ holds meta' s) -> tracked w -> tracked w'.
Proof using Type.
  intros Hs Hm Hown [Hi (n & Hn & Hid) Hf]. pose proof Hs as (Hd & _ & Hq & _). split.
  - intros v k x. rewrite (saved_lookup _ _ _ _ _ _ Hs), Hq. case_decide as Hv; [subst v|by apply Hi].
    destruct (decide (k = i)) as [->|]; [intros _; by apply (Hi u i meta)|]. rewrite lookup_insert_ne by done. apply Hi.
  - exists n. by rewrite Hq.
  - intros x. rewrite (saved_lookup _ _ _ _ _ _ Hs), Hd. case_decide as Hv; [|by apply Hf].
    destruct (decide (id = i)) as [<-|]; [|rewrite lookup_insert_ne by done; rewrite <- Hv; apply Hf].
    rewrite lookup_insert_eq. intros [= <-]. by apply Hown.
Qed.
Lemma part_path_id w : tracked w -> upload_path dir id "part" = Ok part_path.
Proof using All. intros [_ (n & _ & Hid) _]. unfold part_path. rewrite Hid. apply upload_path_own. Qed.

Lemma put_tracked u i n b w r w' : put_chunk dir u i n b w = (r, w') -> faithful (OPut u i n b) -> tracked w -> tracked w'.
Proof using All.
  unfold put_chunk. intros Hr [Hn Hfa] Ht. destruct (is_empty b); [by injection Hr as _ <-|].
  destruct (Z.ltb_spec CHUNK_SIZE (Z.of_nat (String.length b))) as [|Hlen]; [by injection Hr as _ <-|].
  destruct (MAX_CHUNKS <=? n); [by injection Hr as _ <-|].
  apply load_then in Hr as (w1 & Hc & Hr). apply (calm_tracked w w1 Hc) in Ht. rewrite <- (calm_registry w w1 u Hc) in Hr.
  destruct Hr as [(e & _ & ->)|Hr]; [done|]. destruct (registry w1 u !! i) as [meta|] eqn:Hm; [|by injection Hr as _ <-].
  destruct (tr_ids _ Ht u i meta Hm) as (k & Hk & Hi & Hown). subst i. rewrite upload_path_own in Hr.
  set (p := path_join _ _) in Hr. unfold bind at 1, lift in Hr. cbv beta iota in Hr.
  assert (Hpp : part_path = p -> uuid_v7 k = id).
  { intros He. symmetry in He. by eapply (part_path_apart w1); [|apply upload_path_own|exact He]. }
  apply fs_then in Hr as (x & d & Hx & Hr). set (w2 := with_disk w1 d) in *.
  assert (Ht2 : tracked w2).
  { destruct (decide (part_path = p)) as [He|He]; [|by apply disk_tracked; [eapply write_file|]].
    specialize (Hpp He). specialize (Hown Hpp). rewrite <- He in Hx. destruct Ht as [Hids Hid Hf]. split; [done|done|].
    intros m Hmm. destruct (Hf m Hmm) as (s & Hs & Hh). change (up_disk w2) with d. destruct (write_at_run _ _ _ _ _ _ s Hx Hs) as [[-> _]|(l & -> & _)];
      [by exists s|]. eexists. split; [done|]. rewrite (Hfa Hown Hpp). fold (offset n). apply holds_write; [done| |done].
    by rewrite <- (Hfa Hown Hpp). }
  destruct x as [[]|[e]]; [|by destruct Hr as [_ ->]].
  unfold map_err in Hr. destruct (save u _ w2) as [y w3] eqn:Hs. injection Hr as _ <-. apply registry_save in Hs as (_ & Hs).
  change (registry w1 u) with (registry w2 u) in Hs. apply (saved_tracked _ _ _ _ _ _ Hs Hm); [|done].
  intros -> Hki. rewrite Hki in *. pose proof (Hfa eq_refl eq_refl) as ->.
  destruct (tr_file _ Ht meta Hm) as (s & Hsf & Hh).
  assert (He : p = part_path) by (unfold p, part_path; by rewrite Hki). rewrite He in Hx.
  destruct (write_at_run _ _ _ _ _ _ s Hx Hsf) as [[_ [e Hbad]]|(l & Hw & Hall)]; [done|].
  eexists. split; [exact Hw|]. rewrite (Hall eq_refl). by apply holds_record.
Qed.

Lemma finish_tracked u i total w r w' : finish dir u i total w = (r, w') -> tracked w -> tracked w'.
Proof using All.
  unfold finish. intros Hr Ht. destruct (_ || _); [by injection Hr as _ <-|].
  apply load_then in Hr as (w1 & Hc & Hr). apply (calm_tracked w w1 Hc) in Ht. rewrite <- (calm_registry w w1 u Hc) in Hr.
  destruct Hr as [(e & _ & ->)|Hr]; [done|]. destruct (registry w1 u !! i) as [meta|] eqn:Hm; [|by injection Hr as _ <-].
  destruct (tr_ids _ Ht u i meta Hm) as (k & Hk & -> & Hown).
  destruct (negb _); [by injection Hr as _ <-|]. rewrite !upload_path_own in Hr. unfold bind at 1, lift in Hr. cbv beta iota in Hr.
  apply fs_then in Hr as (x & d & Hx & Hr). unfold fs_len in Hx. injection Hx as <- <-.
  replace (with_disk w1 (up_disk w1)) with w1 in Hr by by destruct w1.
  destruct (ok_or _ _) as [len|[e]] in Hr; [|by destruct Hr as [_ ->]]. destruct (negb _); [by injection Hr as _ <-|].
  unfold bind at 1, lift in Hr. cbv beta iota in Hr. apply fs_then in Hr as (x & d & Hx & Hr).
  (* The file of this upload stays, unless it is renamed. *)
  assert (Hf : x = Ok tt /\ uuid_v7 k = id \/ d_files d !! part_path = d_files (up_disk w1) !! part_path).
  { destruct (decide (uuid_v7 k = id)) as [He|Hne].
    - destruct x as [[]|e]; [by left|right]. unfold fs_rename in Hx. destruct (d_files (up_disk w1) !! _); [destruct (d_read_only _)|]; by inversion Hx.
    - right. assert (Hap : forall ext, part_path <> path_join (staging_dir dir) ("upload-" +:+ uuid_v7 k +:+ "." +:+ ext)).
      { intros ext He. symmetry in He. apply Hne. by eapply (part_path_apart w1); [|apply upload_path_own|exact He]. }
      eapply rename_file; [apply Hap|apply Hap|exact Hx]. }
  set (w2 := with_disk w1 d) in *. destruct x as [[]|[e]].
  2: { destruct Hr as [_ ->]. destruct Hf as [[? _]|Hf]; [done|]. by apply (disk_tracked w1 d Hf). }
  destruct (save_then u (delete (uuid_v7 k) (registry w1 u)) (fun _ => ret (path_join (staging_dir dir) ("upload-" +:+ uuid_v7 k +:+ "." +:+ "lyra"))) w2)
    as (w3 & Hs & He).
  unfold w2 in Hr, He. cbn [with_disk] in Hr, He. rewrite He in Hr. injection Hr as _ <-.
  pose proof Hs as (Hd & _ & Hq & _).
  assert (Hsub : forall v j m, registry w3 v !! j = Some m -> registry w1 v !! j = Some m).
  { intros v j m. rewrite (saved_lookup _ _ _ _ _ _ Hs). case_decide as Hv; [|done]. rewrite lookup_delete_Some. intros [_ Hmm]. by rewrite Hv. }
  destruct Hf as [[_ Hk']|Hf].
  - destruct Ht as [Hi Hid _]. split; [| |].
    + intros v j m Hj. rewrite Hq. by apply (Hi v j m), Hsub.
    + by rewrite Hq.
    + intros m. rewrite (saved_lookup _ _ _ _ _ _ Hs), decide_True by (symmetry; by apply Hown). by rewrite Hk', lookup_delete_eq.
  - apply (disk_tracked w1 d Hf) in Ht. apply (tracked_mono w2); [by rewrite Hq|exact Hsub|by rewrite Hd|done].
Qed.

Lemma wait_tracked dt w : 0 <= dt -> tracked w -> tracked (mkUp (up_kv w) (up_disk w) (up_now w + dt) (up_seq w)).
Proof using Type.
  intros Hdt. apply tracked_mono; [done| |done]. intros u i meta. unfold registry, text_of. cbn.
  destruct (cells (up_kv w) (uploads_key u)) as [[v [e|]]|]; cbn; [|done..].
  destruct (Z.leb_spec e (up_now w + dt)); [done|]. by destruct (Z.leb_spec e (up_now w)); [lia|].
Qed.
Definition run (ops : list upload_op) (w : world) : world := foldl (fun w op => exec dir op w) w ops.
Lemma run_tracked ops w : Forall faithful ops -> tracked w -> tracked (run ops w).
Proof using All.
  unfold run. intros Hf. revert w. induction Hf as [|op ops Ho _ IH]; intros w Ht; [done|]. cbn. apply IH.
  destruct op as [u|u i n b|u i total|dt]; cbn.
  - destruct (start dir u w) as [r w'] eqn:Hr. by eapply start_tracked.
  - destruct (put_chunk dir u i n b w) as [r w'] eqn:Hr. by eapply put_tracked.
  - destruct (finish dir u i total w) as [r w'] eqn:Hr. by eapply finish_tracked.
  - by apply wait_tracked.
Qed.
(** Every id in a registry was drawn. *)
Definition drawn (w : world) : Prop :=
  forall u i meta, registry w u !! i = Some meta -> exists n, (n < up_seq w)%N /\ i = uuid_v7 n.
Lemma started_tracked w w1 : drawn w -> start dir user w = (Ok id, w1) -> tracked w1.
Proof using All.
  intros Hdr Hs. apply start_run in Hs as (_ & _ & _ & [[_ Hno]|(Hid & Hsq & Hpart & at_ & Hreg)]); [by destruct Hno; exists id|].
  injection Hid as Hid. split.
  - intros u i meta. rewrite Hreg, Hsq. case_decide as Hd.
    + destruct Hd as [-> ->]. intros _. exists (up_seq w). split; [lia|]. by split.
    + intros Hm. destruct (Hdr u i meta Hm) as (n & Hn & He). exists n. split; [lia|]. split; [done|].
      intros Hii. rewrite Hii, Hid in He. apply uuid_inj in He. lia.
  - exists (up_seq w). rewrite Hsq. split; [lia|done].
  - intros meta. rewrite Hreg, decide_True by done. intros [= <-].
    destruct (Hpart part_path) as [s Hp]; [unfold part_path; rewrite Hid; apply upload_path_own|]. exists s. split; [done|].
    intros j _ Hz. by destruct Hz.
Qed.

Lemma up_to_elem total i : In i (up_to total) <-> 0 <= i < total.
Proof using Type.
  unfold up_to. rewrite in_map_iff. split.
  - intros (k & <- & Hk). apply in_seq in Hk. lia.
  - intros Hi. exists (Z.to_nat i). rewrite in_seq. lia.
Qed.
Lemma no_bad_chunks sizes last total : List.filter (bad_chunk sizes last) (up_to total) = [] ->
  forall i, 0 <= i < total -> bad_chunk sizes last i = false.
Proof using Type.
  intros Hf i Hi. destruct (bad_chunk sizes last i) eqn:Hb; [|done].
  assert (Hin : In i (List.filter (bad_chunk sizes last) (up_to total))) by (apply filter_In; by rewrite up_to_elem).
  by rewrite Hf in Hin.
Qed.
Lemma sum_sizes sizes m : (forall i, 0 <= i < Z.of_nat m -> size_at sizes i = CHUNK_SIZE) ->
  foldr Z.add 0 (List.map (size_at sizes) (map Z.of_nat (seq 0 (S m)))) = Z.of_nat m * CHUNK_SIZE + size_at sizes (Z.of_nat m).
Proof using Type.
  assert (Happ : forall (l : list Z) x, foldr Z.add 0 (l ++ [x])%list = foldr Z.add 0 l + x).
  { intros l x. induction l as [|y l IH]; cbn; lia. }
  induction m as [|m IH]; intros Hall; [cbn; lia|].
  rewrite seq_S, !map_app. cbn [map Nat.add]. rewrite Happ, IH by (intros i Hi; apply Hall; lia). rewrite (Hall (Z.of_nat m)) by lia. lia.
Qed.

Definition last_sized (total j : Z) : Prop :=
  let n := Z.of_nat (String.length (chunk j)) in if j =? total - 1 then 0 < n <= CHUNK_SIZE else n = CHUNK_SIZE.

(** The checks of [finish] on a file that holds what is listed. *)
Lemma checked_file meta s total : 0 < total -> holds meta s ->
  (forall i, 0 <= i < total -> bad_chunk (chunk_sizes meta) (total - 1) i = false) ->
  Z.of_nat (String.length s) = foldr Z.add 0 (List.map (size_at (chunk_sizes meta)) (up_to total)) ->
  s = assembled chunk 0 (Z.to_nat total) /\ forall j, 0 <= j < total -> last_sized total j.
Proof using Type.
  intros Htot Hh Hbad Hlen. unfold bad_chunk in Hbad.
  assert (Hsz : forall j, 0 <= j < total -> size_at (chunk_sizes meta) j = Z.of_nat (String.length (chunk j)) /\ last_sized total j /\
    forall k, (k < String.length (chunk j))%nat -> String.get (offset j + k)%nat s = String.get k (chunk j)).
  { intros j Hj. specialize (Hbad j Hj). unfold last_sized, CHUNK_SIZE in *. destruct (Z.eqb_spec j (total - 1)) as [Hl|Hl].
    - apply orb_false_iff in Hbad as [Hz%Z.eqb_neq Hc%Z.ltb_ge]. destruct (Hh j ltac:(lia) Hz) as (He & Hle & Hg).
      rewrite He in *. by split_and!; [done|lia|unfold CHUNK_SIZE in Hle; lia|].
    - apply negb_false_iff, Z.eqb_eq in Hbad. destruct (Hh j ltac:(lia) ltac:(lia)) as (He & Hle & Hg).
      split_and!; [done|lia|done]. }
  split; [|intros j Hj; by destruct (Hsz j Hj) as (_ & ? & _)].
  assert (Hfull : forall j, 0 <= j < total - 1 -> Z.of_nat (String.length (chunk j)) = CHUNK_SIZE).
  { intros j Hj. destruct (Hsz j ltac:(lia)) as (_ & Hl & _). unfold last_sized in Hl.
    destruct (Z.eqb_spec j (total - 1)); [lia|done]. }
  unfold up_to in Hlen. replace (Z.to_nat total) with (S (Z.to_nat (total - 1))) in Hlen |- * by lia.
  rewrite sum_sizes in Hlen by (intros j Hj; rewrite <- (Hfull j) by lia; apply Hsz; lia).
  destruct (Hsz (Z.of_nat (Z.to_nat (total - 1))) ltac:(lia)) as (He & _). rewrite He in Hlen.
  apply (assembled_eq (Z.to_nat CHUNK_SIZE)); [unfold CHUNK_SIZE; lia|lia|..].
  - intros j Hj. rewrite Z.add_0_l. specialize (Hfull j ltac:(lia)). lia.
  - replace (0 + (Z.of_nat (S (Z.to_nat (total - 1))) - 1)) with (Z.of_nat (Z.to_nat (total - 1))) by lia.
    replace (S (Z.to_nat (total - 1)) - 1)%nat with (Z.to_nat (total - 1)) by lia. unfold CHUNK_SIZE in *. lia.
  - intros j k Hj Hk. rewrite Z.add_0_l in *. destruct (Hsz j ltac:(lia)) as (_ & _ & Hg). rewrite <- Hg by done. f_equal.
    unfold offset, CHUNK_SIZE. lia.
Qed.

(** [finish] on an upload that is tracked. *)
Lemma finish_own total w path w' : 0 <= total -> tracked w -> finish dir user id total w = (Ok path, w') ->
  upload_path dir id "lyra" = Ok path /\ registry w' user !! id = None /\
  d_files (up_disk w') !! path = Some (assembled chunk 0 (Z.to_nat total)) /\ forall j, 0 <= j < total -> last_sized total j.
Proof using All.
  unfold finish. intros Hpos Ht Hr. destruct (Z.eqb_spec total 0) as [|Hnz]; [done|]. cbn [orb] in Hr.
  destruct (MAX_CHUNKS <? total); [done|].
  apply load_then in Hr as (w1 & Hc & Hr). apply (calm_tracked w w1 Hc) in Ht. rewrite <- (calm_registry w w1 user Hc) in Hr.
  destruct Hr as [(e & Hbad & _)|Hr]; [done|]. destruct (registry w1 user !! id) as [meta|] eqn:Hm; [|done].
  destruct (bool_decide _) eqn:Hbad; [|done]. cbn [negb] in Hr. apply bool_decide_eq_true in Hbad.
  pose proof (no_bad_chunks _ _ _ Hbad) as Hok. rewrite (part_path_id w1 Ht) in Hr. unfold bind at 1, lift in Hr. cbv beta iota in Hr.
  destruct (tr_file _ Ht meta Hm) as (s & Hs & Hh). apply fs_then in Hr as (x & d & Hx & Hr).
  unfold fs_len in Hx. rewrite Hs in Hx. cbn in Hx. injection Hx as <- <-.
  replace (with_disk w1 (up_disk w1)) with w1 in Hr by by destruct w1.
  destruct (Z.eqb_spec (Z.of_nat (String.length s)) (foldr Z.add 0 (List.map (size_at (chunk_sizes meta)) (up_to total)))) as [He|]; [|done].
  destruct (checked_file meta s total ltac:(lia) Hh Hok He) as [Hasm Hsized]. cbn [negb] in Hr.
  destruct (tr_id _ Ht) as (n & _ & Hid). assert (Hfin := upload_path_own n "lyra"). rewrite <- Hid in Hfin. rewrite Hfin in Hr.
  unfold bind at 1, lift in Hr. cbv beta iota in Hr. apply fs_then in Hr as (x & d & Hx & Hr).
  unfold fs_rename in Hx. rewrite Hs in Hx. destruct (d_read_only _); injection Hx as <- <-; [by destruct Hr|].
  match type of Hr with bind (map_err _ (save _ ?m)) ?f ?v = _ => destruct (save_then user m f v) as (w3 & Hsv & Heq) end.
  rewrite Heq in Hr. injection Hr as <- <-. split_and!; [done| | |done].
  - rewrite (saved_lookup _ _ _ _ _ _ Hsv), decide_True by done. apply lookup_delete_eq.
  - destruct Hsv as (-> & _). cbn. by rewrite lookup_insert_eq, Hasm.
Qed.
End Laws.

(** C16: what is sent is what is stored.  An upload is started; then anything happens in any
    order: chunks of it, repeated and refused ones and ones cut short by a full disk
    included, as long as whatever is sent for it under an index is the same bytes each time;
    finishes of it, refused or not; other uploads of this user and of others, waiting, and
    finishes of those.  When [finish] then answers with a path, the file there is the chunks
    in order, each of the full size but the last, and the upload is off the registry.
    ([resent_chunk_mixes]: other bytes under the same index can leave a file of both.) *)
Theorem upload_assembles {K : Type} `{KvLaws K} `{UploadLaws} (dir user id : string) (chunk : Z -> string)
    (w w1 w3 : upload_world K) (ops : list upload_op) (total : Z) (path : string) :
  drawn w -> start dir user w = (Ok id, w1) -> Forall (faithful user id chunk) ops -> 0 <= total ->
  finish dir user id total (run dir ops w1) = (Ok path, w3) ->
  upload_path dir id "lyra" = Ok path /\ registry w3 user !! id = None /\
  d_files (up_disk w3) !! path = Some (assembled chunk 0 (Z.to_nat total)) /\
  forall j, 0 <= j < total -> last_sized chunk total j.
Proof.
  intros Hd Hs Hf Ht Hfin. eapply finish_own; [exact Ht| |exact Hfin]. apply run_tracked; [done|].
  by eapply started_tracked.
Qed.

(** ** Concrete instances *)

#[export] Instance upload_eq_dec : EqDecision UploadMeta.
Proof. solve_decision. Defined.
#[export] Instance upload_countable : Countable UploadMeta :=
  inj_countable' (fun m => (chunk_sizes m, created_at m)) (fun p => mkUpload p.1 p.2)
    (fun m => match m with mkUpload _ _ => eq_refl end).
#[export] Instance artifact_eq_dec : EqDecision ArtifactMeta.
Proof. solve_decision. Defined.
#[export] Instance artifact_countable : Countable ArtifactMeta :=
  inj_countable' (fun m => (af_id m, af_filename m, af_size_bytes m, af_created_at m))
    (fun '(i, f, s, c) => mkArtifact i f s c) (fun m => match m with mkArtifact _ _ _ _ => eq_refl end).
#[export] Instance toy_upload_lib : UploadLib := {
  uuid_v7 := show_N;
  parse_uuid s := if sforall is_digit s then Some s else None;
  utc_now_text := show_Z;
  uploads_json m := bits (encode m);
  parse_uploads s := ok_or "invalid" (decode (unbits s));
  artifacts_json l := bits (encode l);
  parse_artifacts s := ok_or "invalid" (decode (unbits s));
}.
#[export] Instance toy_upload_laws : UploadLaws.
Proof.
  split; cbn [uuid_v7 parse_uuid uploads_json parse_uploads artifacts_json parse_artifacts toy_upload_lib].
  - intros n. by rewrite show_N_digits.
  - intros m. by rewrite unbits_bits, decode_encode.
  - intros l. by rewrite unbits_bits, decode_encode.
  - intros n m Hnm. apply (f_equal parse_digits) in Hnm. rewrite !parse_show_N in Hnm. injection Hnm as Hnm. lia.
  - intros s u. destruct (sforall is_digit s) eqn:Hd; [|done]. intros [= <-]. by apply digits_no_char.
Qed.

Definition upload_toy_world : upload_world MemoryKv.t := mkUp MemoryKv.new (mkDisk ∅ (Some 20%nat) false) 0 0.
Definition toy_chunk (i : Z) : string := if i =? 0 then "archive bytes" else "".
(** A chunk sent in part to a disk that is then full, another user's upload, and a retry. *)
Definition toy_ops : list upload_op :=
  [OStart "bob"; OPut "alice" "0" 0 "archive bytes"; OPut "bob" "1" 0 "0123456789"; OPut "alice" "0" 0 "archive bytes"; OFinish "alice" "0" 2; OWait 5].
Lemma upload_assembles_witness : exists w1 w3,
  start "/data" "alice" upload_toy_world = (Ok "0", w1) /\
  finish "/data" "alice" "0" 1 (run "/data" toy_ops w1) = (Ok "/data/backups/staging/upload-0.lyra", w3) /\
  d_files (up_disk w3) !! "/data/backups/staging/upload-0.lyra" = Some "archive bytes".
Proof.
  set (one := start "/data" "alice" upload_toy_world). set (fin := finish "/data" "alice" "0" 1 (run "/data" toy_ops (snd one))).
  assert (Hone : one = (Ok "0", snd one)) by (vm_compute; reflexivity).
  assert (Hfin : fin = (Ok "/data/backups/staging/upload-0.lyra", snd fin)) by (vm_compute; reflexivity).
  exists (snd one), (snd fin). split; [exact Hone|]. split; [exact Hfin|].
  destruct (upload_assembles "/data" "alice" "0" toy_chunk upload_toy_world (snd one) (snd fin) toy_ops 1
    "/data/backups/staging/upload-0.lyra") as (_ & _ & Hf & _); [|exact Hone| |lia|exact Hfin|exact Hf].
  - intros u i meta. unfold registry. assert (Hno : text_of upload_toy_world u = None); [|by rewrite Hno].
    change (live 0 (MemoryKvLaws.cells_of ∅ (uploads_key u)) = None). unfold MemoryKvLaws.cells_of. by rewrite lookup_empty.
  - unfold toy_ops. repeat (apply List.Forall_cons); [exact I| | | | | |apply List.Forall_nil]; cbn [faithful]; [split; [lia|]..|exact I|lia].
    + done.
    + discriminate.
    + done.
Defined.

(** A chunk that is sent again with other bytes, onto a disk that fills up: the write is refused half way, the size the
    registry has is that of the first, and [finish] accepts the mixture. *)
Lemma resent_chunk_mixes :
  let w := run "/data" [OPut "alice" "0" 0 "0123456789abcde"; OPut "alice" "0" 0 "vwxyzvwxyzvwxyz"] (snd (start "/data" "alice" upload_toy_world)) in
  let '(r, w') := finish "/data" "alice" "0" 1 w in
  r = Ok "/data/backups/staging/upload-0.lyra" /\
  d_files (up_disk w') !! "/data/backups/staging/upload-0.lyra" = Some "vwxyz56789abcde".
Proof. vm_compute. done. Qed.

(** A file longer than what the registry lists stays so: sending everything again, as the comment on
    the check in [finish] asks for, never makes it shorter. *)
Definition shorter_again : list upload_op := [OPut "alice" "0" 0 "0123456789"; OPut "alice" "0" 0 "01234"].
Lemma resend_never_shortens :
  let w := run "/data" shorter_again (snd (start "/data" "alice" upload_toy_world)) in
  fst (finish "/data" "alice" "0" 1 w) = Err (Incomplete [0]) /\
  fst (finish "/data" "alice" "0" 1 (run "/data" [OPut "alice" "0" 0 "01234"] w)) = Err (Incomplete [0]).
Proof. split; vm_compute; reflexivity. Qed.
