(* ===== verification/Spam.v ===== *)
(** * Anti-spam engine and sender lists ([spam.rs])

    The verdict on an envelope: the user's lists first, allowed before blocked, then a score
    against a threshold.  The settings and the lists are two tables next to the mail tables,
    in the same database: a statement on them burns the same fuse. *)
From S2P Require Import Prelude Labels Jobs MailStore.
Local Open Scope string_scope.
Local Open Scope Z_scope.

Inductive Sensitivity := Lenient | Standard | Strict.
Definition threshold (s : Sensitivity) : Z := match s with Lenient => 3 | Standard => 2 | Strict => 1 end.

Record SpamSettings := mkSpam { sp_enabled : bool; sp_learn : bool; sp_auto_delete : bool; sp_sensitivity : Sensitivity }.
Definition default_settings : SpamSettings := mkSpam false true false Standard.
Inductive SenderList := Blocked | Allowed.
Record SenderEntry := mkSender { se_email : string; se_list : SenderList }.
Record SpamEnvelope := mkEnvelope { env_email : option string; env_name : option string; env_subject : option string }.
Inductive Verdict := Listed (l : SenderList) | Scored (score : Z) | Clean.
#[export] Instance sensitivity_dec : EqDecision Sensitivity. Proof. solve_decision. Defined.
#[export] Instance list_dec : EqDecision SenderList. Proof. solve_decision. Defined.
#[export] Instance verdict_dec : EqDecision Verdict. Proof. solve_decision. Defined.

Definition is_spam (v : Verdict) : bool := match v with Listed Blocked | Scored _ => true | _ => false end.

Definition BAIT_KEYWORDS : list string :=
  ["viagra"; "casino"; "lottery"; "crypto bonus"; "bitcoin earnings"; "wire transfer urgently"; "claim your prize";
   "winner notification"; "limited time offer"; "act now"; "100% free"; "make money fast"; "work from home millionaire";
   "no credit check"; "unsubscribe click here"; "seo services guaranteed"; "cheap meds"; "代开发票"; "中奖通知"; "恭喜获得";
   "赌博"; "贷款秒批"].

(** The tables. *)
Record SettingsRow := mkSettingsRow {
  sr_user : string; sr_enabled : bool; sr_learn : bool; sr_auto_delete : bool; sr_sensitivity : string }.
Record SenderRow := mkSenderRow { sd_id : string; sd_user : string; sd_list : string; sd_email : string; sd_created_at : string }.
Record spam_tables := mkTables { st_settings : list SettingsRow; st_senders : list SenderRow }.

Inductive SpamStoreError := InvalidId (m : string) | SpamDatabase (e : string).

Section Spam.
Context `{StoreLib} `{JsonLib}.

Definition heuristic_score (env : SpamEnvelope) : Z :=
  let subject := default "" (env_subject env) in
  let name := default "" (env_name env) in
  let haystack := to_lowercase (subject +:+ " " +:+ name) in
  let bait_hits := Z.of_nat (Nat.min (length (List.filter (fun kw => contains_str kw haystack) BAIT_KEYWORDS)) 3) in
  let letters := scount (fun a => is_lower a || is_upper a) subject in
  let caps := scount is_upper subject in
  let shouting := if (8 <=? letters)%nat && (letters * 8 <=? caps * 10)%nat then 1 else 0 in
  let bangs := if (3 <=? scount (Ascii.eqb "!") subject)%nat then 1 else 0 in
  bait_hits + shouting + bangs.

Definition sender_matches (entry_email sender : string) : bool :=
  let entry := to_lowercase (trim entry_email) in
  let sender := to_lowercase (trim sender) in
  if String.eqb entry sender then true else
  let entry_domain := default entry (strip_prefix "@" entry) in
  if starts_with "@" entry || negb (contains_char "@" entry) then
    let d := rsplit_next "@" sender in
    String.eqb d entry_domain || ends_with ("." +:+ entry_domain) d
  else false.

Definition on_list (l : SenderList) (from : string) (s : SenderEntry) : bool :=
  bool_decide (se_list s = l) && sender_matches (se_email s) from.
Definition spam_verdict (env : SpamEnvelope) (settings : SpamSettings) (senders : list SenderEntry) : Verdict :=
  let from := default "" (env_email env) in
  if is_empty from then Clean
  else if existsb (on_list Allowed from) senders then Listed Allowed
  else if existsb (on_list Blocked from) senders then Listed Blocked
  else if negb (sp_enabled settings) then Clean
  else let score := heuristic_score env in
       if threshold (sp_sensitivity settings) <=? score then Scored score else Clean.

Definition judge_message (env : SpamEnvelope) (settings : SpamSettings) (senders : list SenderEntry) : option string :=
  match spam_verdict env settings senders with
  | Listed Blocked => Some "blocked"
  | Listed Allowed => Some "allowed"
  | Scored _ => Some "spam"
  | Clean => Some "clean"
  end.

(** ** Senders in stored JSON *)

(** [r.split('<').nth(1)], up to the next [>]. *)
Definition angled (r : string) : option string :=
  a ← split_char "<" r !! 1%nat; head (split_char ">" a).
(** The closure [extract]. *)
Definition extract_email (o : Json) : option string :=
  match json_field "email" o ≫= json_str with
  | Some e => Some e
  | None =>
      r ← json_field "raw" o ≫= json_str;
      match angled r with
      | Some a => Some a
      | None => if contains_char "@" r then Some (trim r) else None
      end
  end.
Definition from_json_email (raw : option string) : option string :=
  raw ← raw; v ← json_parse raw;
  match v with
  | JObject _ => or_else (extract_email v) (r ← json_field "raw" v ≫= json_str; angled r)
  | JArray a => match a with o :: _ => extract_email o | [] => None end
  | JString s => extract_email (JObject [("raw", JString s)])
  | _ => None
  end.
Definition from_json_display_name (raw : option string) : option string :=
  raw ← raw; v ← json_parse raw; raw_str ← json_field "raw" v ≫= json_str;
  first ← head (split_char "<" raw_str);
  let name := trim first in
  if is_empty name || contains_char "@" name then None else Some name.

(** ** Storage *)

Local Abbreviation world := (mail * spam_tables)%type.
Local Abbreviation M := (io world SpamStoreError).

(** One statement on the two tables. *)
Definition sstmt {A} (f : Z -> spam_tables -> A * spam_tables) : M A :=
  fun '(db, t) =>
    match mstmt (fun db => (tt, db)) db with
    | (Ok _, db') => let '(a, t') := f (ml_now db) t in (Ok a, (db', t'))
    | (Err _, db') => (Err (SpamDatabase "closed"), (db', t))
    end.
Definition spam_uuid : M string :=
  fun '(db, t) => (Ok (store_uuid (ml_seq db)), (set_seq (N.succ (ml_seq db)) db, t)).

Definition settings_of_row (r : SettingsRow) : SpamSettings :=
  mkSpam (sr_enabled r) (sr_learn r) (sr_auto_delete r)
    (if String.eqb (sr_sensitivity r) "lenient" then Lenient
     else if String.eqb (sr_sensitivity r) "strict" then Strict else Standard).
Definition settings_of (user_id : string) (t : spam_tables) : SpamSettings :=
  match List.find (fun r => String.eqb (sr_user r) user_id) (st_settings t) with
  | Some r => settings_of_row r
  | None => default_settings
  end.
Definition load_settings (user_id : string) : M SpamSettings := sstmt (fun _ t => (settings_of user_id t, t)).

Definition sensitivity_text (s : Sensitivity) : string :=
  match s with Lenient => "lenient" | Standard => "standard" | Strict => "strict" end.
Definition save_settings (user_id : string) (s : SpamSettings) : M unit :=
  let row := mkSettingsRow user_id (sp_enabled s) (sp_learn s) (sp_auto_delete s) (sensitivity_text (sp_sensitivity s)) in
  sstmt (fun _ t =>
    let rows := if existsb (fun r => String.eqb (sr_user r) user_id) (st_settings t)
                then map (fun r => if String.eqb (sr_user r) user_id then row else r) (st_settings t)
                else (st_settings t ++ [row])%list in
    (tt, mkTables rows (st_senders t))).

Definition created_le (a b : SenderRow) : bool := text_le (sd_created_at a) (sd_created_at b).
Definition entry_of (r : SenderRow) : SenderEntry :=
  mkSender (sd_email r) (if String.eqb (sd_list r) "allowed" then Allowed else Blocked).
Definition senders_of (user_id : string) (t : spam_tables) : list SenderEntry :=
  map entry_of (order_by created_le (List.filter (fun r => String.eqb (sd_user r) user_id) (st_senders t))).
Definition list_senders (user_id : string) : M (list SenderEntry) := sstmt (fun _ t => (senders_of user_id t, t)).

Definition list_text (l : SenderList) : string := match l with Blocked => "blocked" | Allowed => "allowed" end.
Definition other_list (l : SenderList) : SenderList := match l with Blocked => Allowed | Allowed => Blocked end.
Definition sender_is (user_id email list : string) (r : SenderRow) : bool :=
  String.eqb (sd_user r) user_id && String.eqb (sd_email r) email && String.eqb (sd_list r) list.
Definition set_senders (l : list SenderRow) (t : spam_tables) : spam_tables := mkTables (st_settings t) l.
Definition drop_other (user_id email : string) (list : SenderList) : M unit :=
  sstmt (fun _ t => (tt, set_senders
    (List.filter (fun r => negb (sender_is user_id email (list_text (other_list list)) r)) (st_senders t)) t)).
Definition insert_sender (user_id email : string) (list : SenderList) : M unit :=
  let! id := spam_uuid in
  sstmt (fun now t =>
    (tt, if existsb (sender_is user_id email (list_text list)) (st_senders t) then t
         else set_senders (st_senders t ++ [mkSenderRow id user_id (list_text list) email (sql_now now)])%list t)).
Definition add_sender (user_id email : string) (list : SenderList) : M unit :=
  let email := to_lowercase (trim email) in
  let! _ := drop_other user_id email list in
  insert_sender user_id email list.
Definition remove_sender (user_id email : string) : M bool :=
  let email := to_lowercase (trim email) in
  sstmt (fun _ t =>
    let gone r := String.eqb (sd_user r) user_id && String.eqb (sd_email r) email in
    (existsb gone (st_senders t), set_senders (List.filter (fun r => negb (gone r)) (st_senders t)) t)).

Definition learn_sender {E} (user_id email : string) (block : bool) : io world E bool :=
  if is_empty (trim email) || negb (contains_char "@" email) then ret false else
  let! settings := attempt (load_settings user_id) in
  match settings with
  | Err _ => ret false
  | Ok s =>
      if negb (sp_learn s) then ret false else
      let! r := attempt (add_sender user_id email (if block then Blocked else Allowed)) in
      ret (match r with Ok _ => true | Err _ => false end)
  end.

(** ** The handlers *)

Record SpamSettingsResponse := mkSpamResponse { sx_settings : SpamSettings; sx_senders : list SenderEntry }.
Definition spam_store_err (e : SpamStoreError) : SyncError :=
  match e with InvalidId m => InvalidInput m | SpamDatabase db => Database db end.
Definition response_for (user_id : string) : io world SyncError SpamSettingsResponse :=
  let! settings := map_err spam_store_err (load_settings user_id) in
  let! senders := map_err spam_store_err (list_senders user_id) in
  ret (mkSpamResponse settings senders).
Definition get_spam (user_id : string) : io world SyncError SpamSettingsResponse := response_for user_id.
Definition put_spam (user_id : string) (body : SpamSettings) : io world SyncError SpamSettingsResponse :=
  let! _ := map_err spam_store_err (save_settings user_id body) in
  response_for user_id.
(** The address accepted by [post_sender], and the edit; the re-judge it spawns is a separate task. *)
Definition sender_address (email : string) : result SyncError string :=
  let email := to_lowercase (trim email) in
  if negb (contains_char "@" email || negb (is_empty email)) || contains_char " " email
  then Err (InvalidInput "email must be an address or a domain") else Ok email.
Definition post_sender (user_id email : string) (list : SenderList) : io world SyncError SpamSettingsResponse :=
  let! email := lift (sender_address email) in
  let! _ := map_err spam_store_err (add_sender user_id email list) in
  response_for user_id.
Definition delete_sender (user_id email : string) : io world SyncError SpamSettingsResponse :=
  let! _ := map_err spam_store_err (remove_sender user_id email) in
  response_for user_id.
End Spam.

(** ** Lemmas *)

(** Lower case of a trimmed text is trimmed and lower case. *)
Class LowerLaws `{StoreLib} := lower_trim s : to_lowercase (trim (to_lowercase (trim s))) = to_lowercase (trim s).

Section SpamLaws.
Context `{StoreLib} `{!LowerLaws} `{JsonLib}.
Local Abbreviation world := (mail * spam_tables)%type.
Implicit Types (w : world) (t : spam_tables).

Lemma sstmt_run {A} (f : Z -> spam_tables -> A * spam_tables) w r w' : sstmt f w = (r, w') ->
  ml_folders (fst w') = ml_folders (fst w) /\ ml_messages (fst w') = ml_messages (fst w) /\ ml_now (fst w') = ml_now (fst w) /\
  ((exists e, r = Err e /\ snd w' = snd w) \/
   r = Ok (fst (f (ml_now (fst w)) (snd w))) /\ snd w' = snd (f (ml_now (fst w)) (snd w))).
Proof using Type.
  destruct w as [db t]. unfold sstmt, mstmt. destruct (ml_fuse db) as [[|n]|];
    [intros [= <- <-]; cbn; split_and!; try done; left; by eexists|..];
    (cbn; destruct (f (ml_now db) t) as [a t'] eqn:Hf; intros [= <- <-]; cbn; split_and!; try done; by right).
Qed.

(** A user has an address on one list at most, and one row of settings. *)
Record lists_ok (t : spam_tables) : Prop := {
  lo_senders : NoDup ((fun r => (sd_user r, sd_email r)) <$> st_senders t);
  lo_texts : Forall (fun r => exists l, sd_list r = list_text l) (st_senders t);
  lo_settings : NoDup (sr_user <$> st_settings t) }.
Definition keeps_lists w w' : Prop := lists_ok (snd w) -> lists_ok (snd w').
#[export] Instance keeps_preorder : PreOrder keeps_lists.
Proof. split; unfold keeps_lists; [by intros w|intros a b c Hab Hbc Ha; auto]. Qed.
Lemma pres_sstmt {A} (f : Z -> spam_tables -> A * spam_tables) :
  (forall now t, lists_ok t -> lists_ok (snd (f now t))) -> preserves keeps_lists (sstmt f).
Proof using Type.
  intros Hf w r w' Hr Hok. apply sstmt_run in Hr as (_ & _ & _ & [(e & _ & ->)|[_ ->]]); [done|]. by apply Hf.
Qed.
Lemma pres_spam_uuid : preserves keeps_lists spam_uuid.
Proof using Type. intros [db t] r w'. unfold spam_uuid. intros [= <- <-] Hok. exact Hok. Qed.

Lemma lists_ok_filter t p : lists_ok t -> lists_ok (set_senders (List.filter p (st_senders t)) t).
Proof using Type.
  intros [Hn Ht Hs]. split; cbn; [| |done].
  - clear -Hn. revert Hn. induction (st_senders t) as [|r l IH]; cbn; [done|]. intros [Hr Hl]%NoDup_cons.
    destruct (p r); [|by auto]. cbn. apply NoDup_cons. split; [|by auto]. intros Hin. apply Hr.
    apply list_elem_of_fmap in Hin as (x & -> & Hx). apply list_elem_of_fmap. exists x. split; [done|].
    apply list_elem_of_In, filter_In in Hx as [Hx _]. by apply list_elem_of_In.
  - apply Forall_forall. intros r Hr. rewrite Forall_forall in Ht. apply Ht.
    apply list_elem_of_In, filter_In in Hr as [Hr _]. by apply list_elem_of_In.
Qed.
Lemma pres_load_settings u : preserves keeps_lists (load_settings u).
Proof using Type. by apply pres_sstmt. Qed.
Lemma pres_list_senders u : preserves keeps_lists (list_senders u).
Proof using Type. by apply pres_sstmt. Qed.
Lemma pres_remove_sender u e : preserves keeps_lists (remove_sender u e).
Proof using Type. apply pres_sstmt. intros now t. apply lists_ok_filter. Qed.
Lemma pres_save_settings u s : preserves keeps_lists (save_settings u s).
Proof using Type.
  apply pres_sstmt. intros _ t [Hn Ht Hs]. split; cbn; [done|done|]. destruct (existsb _ _) eqn:He.
  - replace (sr_user <$> _) with (sr_user <$> st_settings t); [done|].
    rewrite <- list_fmap_compose. apply list_fmap_ext. intros i r _. cbn. destruct (String.eqb_spec (sr_user r) u); [done|done].
  - rewrite fmap_app. apply NoDup_app. split_and!; [done| |apply NoDup_singleton].
    intros x Hx Hu. apply list_elem_of_singleton in Hu. subst x. apply list_elem_of_fmap in Hx as (r & Hu & Hr).
    assert (Ht' : existsb (fun r => String.eqb (sr_user r) u) (st_settings t) = true).
    { apply existsb_exists. exists r. split; [by apply list_elem_of_In|]. by apply String.eqb_eq. }
    by rewrite Ht' in He.
Qed.
Definition on_other (u e : string) (l : SenderList) (t : spam_tables) : Prop :=
  exists r, In r (st_senders t) /\ sd_user r = u /\ sd_email r = e /\ sd_list r = list_text (other_list l).
Lemma sender_is_spec u e l r : sender_is u e l r = true <-> sd_user r = u /\ sd_email r = e /\ sd_list r = l.
Proof using Type. unfold sender_is. rewrite !andb_true_iff, !String.eqb_eq. tauto. Qed.
Lemma insert_ok u e l id at_ t : ~ on_other u e l t -> lists_ok t ->
  existsb (sender_is u e (list_text l)) (st_senders t) = false ->
  lists_ok (set_senders (st_senders t ++ [mkSenderRow id u (list_text l) e at_])%list t).
Proof using Type.
  intros Hno [Hn Ht Hs] He. split; cbn; [| |done].
  - rewrite fmap_app. apply NoDup_app. split_and!; [done| |apply NoDup_singleton].
    intros x Hx Hu. apply list_elem_of_singleton in Hu. subst x. apply list_elem_of_fmap in Hx as (r & [= Hu Hem] & Hr).
    rewrite Forall_forall in Ht. destruct (Ht r Hr) as [l' Hl']. apply list_elem_of_In in Hr.
    destruct (decide (l' = l)) as [->|Hne].
    + assert (Hex : existsb (sender_is u e (list_text l)) (st_senders t) = true); [|by rewrite Hex in He].
      apply existsb_exists. exists r. split; [done|]. by apply sender_is_spec.
    + apply Hno. exists r. split_and!; [done..|]. rewrite Hl'. by destruct l, l'.
  - apply Forall_app. split; [done|]. apply Forall_singleton. by exists l.
Qed.

(** The edit in one: what the tables hold afterwards. *)
Definition sender_added (u e : string) (l : SenderList) (now : Z) (id : string) (t : spam_tables) : spam_tables :=
  let kept := List.filter (fun r => negb (sender_is u e (list_text (other_list l)) r)) (st_senders t) in
  if existsb (sender_is u e (list_text l)) kept then set_senders kept t
  else set_senders (kept ++ [mkSenderRow id u (list_text l) e (sql_now now)])%list t.
Lemma not_on_other u e l t :
  ~ on_other u e l (set_senders (List.filter (fun r => negb (sender_is u e (list_text (other_list l)) r)) (st_senders t)) t).
Proof using Type.
  intros (r & Hin & Hu & He & Hl). cbn in Hin. apply filter_In in Hin as [_ Hf]. apply negb_true_iff in Hf.
  assert (Ht : sender_is u e (list_text (other_list l)) r = true) by (by apply sender_is_spec). by rewrite Ht in Hf.
Qed.
Lemma sender_added_ok u e l now id t : lists_ok t -> lists_ok (sender_added u e l now id t).
Proof using Type.
  intros Hok. unfold sender_added. cbv zeta.
  pose proof (lists_ok_filter t (fun r => negb (sender_is u e (list_text (other_list l)) r)) Hok) as Hk.
  destruct (existsb _ _) eqn:He; [done|].
  apply (insert_ok u e l id (sql_now now) (set_senders (List.filter (fun r => negb (sender_is u e (list_text (other_list l)) r)) (st_senders t)) t));
    [apply not_on_other|done|done].
Qed.
Lemma add_sender_run u e l w r w' : add_sender u e l w = (r, w') ->
  (exists id, r = Ok tt /\ snd w' = sender_added u (to_lowercase (trim e)) l (ml_now (fst w)) id (snd w)) \/
  (exists err, r = Err err) /\ (snd w' = snd w \/
     snd w' = set_senders (List.filter (fun r => negb (sender_is u (to_lowercase (trim e)) (list_text (other_list l)) r))
                             (st_senders (snd w))) (snd w)).
Proof using Type.
  unfold add_sender. intros Hr. apply bind_inv in Hr as [(err & Hr & ->)|([] & w1 & Hr & Hi)].
  - right. apply sstmt_run in Hr as (_ & _ & _ & [(? & _ & Hw)|[? _]]); [|done]. split; [by exists err|by left].
  - apply sstmt_run in Hr as (_ & _ & Hnow & [(? & ? & _)|[_ Hw1]]); [done|]. cbn in Hw1.
    unfold insert_sender in Hi. apply bind_inv in Hi as [(? & Hi & _)|(id & w2 & Hid & Hi)]; [by destruct w1|].
    assert (Hw2 : snd w2 = snd w1 /\ ml_now (fst w2) = ml_now (fst w1)) by (destruct w1; by injection Hid as _ <-).
    destruct Hw2 as [Hs2 Hn2]. apply sstmt_run in Hi as (_ & _ & _ & [(err & -> & Hw)|[-> Hw]]).
    + right. split; [by exists err|]. right. by rewrite Hw, Hs2, Hw1.
    + left. exists id. split; [done|]. rewrite Hw, Hs2, Hw1, Hn2, Hnow. cbn. unfold sender_added. cbv zeta.
      by destruct (existsb _ _).
Qed.
Lemma pres_add_sender u e l : preserves keeps_lists (add_sender u e l).
Proof using Type.
  intros w r w' Hr Hok. apply add_sender_run in Hr as [(id & _ & ->)|[_ [-> | ->]]];
    [by apply sender_added_ok|done|by apply lists_ok_filter].
Qed.

(** ** Runs of edits *)

Inductive list_op :=
  | OpSettings (user : string) (s : SpamSettings)
  | OpPost (user email : string) (l : SenderList)
  | OpDelete (user email : string)
  | OpLearn (user email : string) (block : bool)
  | OpFuse (n : option nat).                         (* the database goes down, or is back *)
Definition list_exec (op : list_op) w : world :=
  match op with
  | OpSettings u s => snd (put_spam u s w)
  | OpPost u e l => snd (post_sender u e l w)
  | OpDelete u e => snd (delete_sender u e w)
  | OpLearn u e b => snd (learn_sender (E := SyncError) u e b w)
  | OpFuse n => (set_fuse n (fst w), snd w)
  end.
Definition list_run (ops : list list_op) w : world := foldl (fun w op => list_exec op w) w ops.

#[local] Hint Resolve pres_load_settings pres_list_senders pres_add_sender pres_remove_sender pres_save_settings : preserve.
Lemma pres_response u : preserves keeps_lists (response_for u).
Proof using Type. unfold response_for. preserve. Qed.
#[local] Hint Resolve pres_response : preserve.
Lemma pres_post u e l : preserves keeps_lists (post_sender u e l).
Proof using Type. unfold post_sender. preserve. Qed.
Lemma list_exec_ok op w : lists_ok (snd w) -> lists_ok (snd (list_exec op w)).
Proof using Type.
  assert (Hp : forall A E (m : io world E A), preserves keeps_lists m -> lists_ok (snd w) -> lists_ok (snd (snd (m w)))).
  { intros A E m Hm. destruct (m w) as [r w'] eqn:Hr. by apply (Hm w r w'). }
  destruct op as [u s|u e l|u e|u e b|n]; cbn [list_exec]; [..|done]; apply Hp.
  - unfold put_spam. preserve.
  - apply pres_post.
  - unfold delete_sender. preserve.
  - unfold learn_sender. preserve.
Qed.
Lemma list_run_ok ops w : lists_ok (snd w) -> lists_ok (snd (list_run ops w)).
Proof using Type.
  unfold list_run. revert w. induction ops as [|op ops IH]; intros w Hok; [done|]. cbn. by apply IH, list_exec_ok.
Qed.

(** ** An edit decides *)

Lemma senders_of_In u t s : In s (senders_of u t) <-> exists r, In r (st_senders t) /\ sd_user r = u /\ s = entry_of r.
Proof using Type.
  unfold senders_of. rewrite in_map_iff. split.
  - intros (r & <- & Hr). apply list_elem_of_In in Hr. rewrite order_by_perm in Hr. apply list_elem_of_In, filter_In in Hr as [Hr Hu].
    apply String.eqb_eq in Hu. by exists r.
  - intros (r & Hr & Hu & ->). exists r. split; [done|]. apply list_elem_of_In. rewrite order_by_perm. apply list_elem_of_In, filter_In.
    split; [done|]. by apply String.eqb_eq.
Qed.
Lemma same_sender r r' t : lists_ok t -> In r (st_senders t) -> In r' (st_senders t) ->
  sd_user r = sd_user r' -> sd_email r = sd_email r' -> r = r'.
Proof using Type.
  intros [Hn _ _] Hr Hr' Hu He. apply list_elem_of_In, list_elem_of_lookup in Hr as [i Hi].
  apply list_elem_of_In, list_elem_of_lookup in Hr' as [j Hj].
  enough (i = j) by (subst j; congruence).
  eapply (NoDup_lookup _ i j (sd_user r, sd_email r) Hn); rewrite list_lookup_fmap; [by rewrite Hi|by rewrite Hj, Hu, He].
Qed.
Lemma entry_list_text u l e id now : entry_of (mkSenderRow id u (list_text l) e now) = mkSender e l.
Proof using Type. unfold entry_of. cbn. by destruct l. Qed.
Lemma sender_added_entry u e l now id t : lists_ok t ->
  In (mkSender e l) (senders_of u (sender_added u e l now id t)) /\
  forall s, In s (senders_of u (sender_added u e l now id t)) -> se_email s = e -> s = mkSender e l.
Proof using Type.
  intros Hok. pose proof (sender_added_ok u e l now id t Hok) as Hok'. set (t' := sender_added u e l now id t) in *.
  assert (Hin : exists r, In r (st_senders t') /\ sd_user r = u /\ sd_email r = e /\ entry_of r = mkSender e l).
  { unfold t', sender_added. cbv zeta. destruct (existsb _ _) eqn:He.
    - apply existsb_exists in He as (r & Hr & (Hu & Hem & Hl)%sender_is_spec). exists r. split_and!; [done..|].
      unfold entry_of. rewrite Hl, Hem. by destruct l.
    - exists (mkSenderRow id u (list_text l) e (sql_now now)). split_and!; [|done..|apply entry_list_text].
      apply in_or_app. right. by left. }
  destruct Hin as (r & Hr & Hu & Hem & Hent). split.
  - apply senders_of_In. by exists r.
  - intros s Hs Hse. apply senders_of_In in Hs as (r' & Hr' & Hu' & ->). rewrite <- Hent. f_equal.
    apply (same_sender r' r t'); [done..|by rewrite Hu'|]. unfold entry_of in Hse. cbn in Hse. by rewrite Hse.
Qed.
Lemma settings_run {A} (f : spam_tables -> A) w r w' : sstmt (fun _ t => (f t, t)) w = (Ok r, w') -> r = f (snd w) /\ snd w' = snd w.
Proof using Type. intros Hr. apply sstmt_run in Hr as (_ & _ & _ & [(? & ? & _)|[Hr Hw]]); [done|]. by injection Hr. Qed.
Lemma response_run u w resp w' : response_for u w = (Ok resp, w') ->
  resp = mkSpamResponse (settings_of u (snd w)) (senders_of u (snd w)) /\ snd w' = snd w.
Proof using Type.
  unfold response_for, load_settings, list_senders. intros Hr.
  apply bind_inv in Hr as [(? & _ & ?)|(s & w1 & Hs & Hr)]; [done|]. apply bind_inv in Hr as [(? & _ & ?)|(l & w2 & Hl & Hr)]; [done|].
  apply map_err_inv in Hs as (x & Hs & He). apply map_err_inv in Hl as (y & Hl & He'). destruct x, y; try done.
  injection He as ->. injection He' as ->. apply settings_run in Hs as [-> Hw1]. apply settings_run in Hl as [-> Hw2].
  injection Hr as <- <-. by rewrite Hw2, Hw1.
Qed.
Lemma post_sender_run u e l w resp w' : lists_ok (snd w) -> post_sender u e l w = (Ok resp, w') ->
  exists now id t', t' = sender_added u (to_lowercase (trim e)) l now id (snd w) /\ snd w' = t' /\
    sx_senders resp = senders_of u t'.
Proof using All.
  unfold post_sender. intros Hok Hr. apply bind_inv in Hr as [(? & _ & ?)|(a & w1 & Ha & Hr)]; [done|].
  assert (Hw1 : w1 = w /\ a = to_lowercase (trim e)).
  { unfold lift, sender_address in Ha. destruct (_ || _); [done|]. by injection Ha as <- <-. }
  destruct Hw1 as [-> ->]. apply bind_inv in Hr as [(? & _ & ?)|([] & w2 & Hadd & Hr)]; [done|].
  apply map_err_inv in Hadd as (x & Hadd & Hx). apply add_sender_run in Hadd as [(id & -> & Hw2)|[(err & ->) _]]; [|done].
  rewrite lower_trim in Hw2. apply response_run in Hr as [-> Hw'].
  exists (ml_now (fst w)), id, (snd w2). by split_and!.
Qed.
(** An entry for the very address of the sender settles the verdict, whatever the settings. *)
Lemma listed_verdict a l senders env settings from : to_lowercase (trim a) = a ->
  In (mkSender a l) senders -> env_email env = Some from -> from <> "" -> to_lowercase (trim from) = a ->
  judge_message env settings senders = Some (if existsb (on_list Allowed from) senders then "allowed" else "blocked") /\
  (l = Allowed -> existsb (on_list Allowed from) senders = true).
Proof using Type.
  intros Ha Hin Henv Hne Hfrom. assert (Hl : existsb (on_list l from) senders = true).
  { apply existsb_exists. exists (mkSender a l). split; [done|]. unfold on_list. cbn. rewrite bool_decide_true by done.
    unfold sender_matches. by rewrite Ha, Hfrom, String.eqb_refl. }
  split; [|by intros ->]. unfold judge_message, spam_verdict. rewrite Henv. cbn [from_option id].
  replace (is_empty from) with false by (symmetry; by apply String.eqb_neq).
  destruct (existsb (on_list Allowed from) senders) eqn:Hall; [done|]. destruct l; [by rewrite Hl|by rewrite Hl in Hall].
Qed.
End SpamLaws.

(** An edit of the sender lists decides.  After any edits before, refused ones and ones cut
    short by the database included, an accepted edit puts the address on the asked list and on
    no other, and from then on mail from exactly that address is never left to the heuristics,
    switched on or off: it is blocked, or allowed when the list is the allowed one or an
    allowed entry, a domain for instance, covers the sender. *)
Theorem list_edit_decides `{StoreLib} `{!LowerLaws} `{JsonLib} (ops : list list_op) (u e : string) (l : SenderList)
    (w0 w' : mail * spam_tables) (resp : SpamSettingsResponse) :
  lists_ok (snd w0) -> post_sender u e l (list_run ops w0) = (Ok resp, w') ->
  lists_ok (snd w') /\ In (mkSender (to_lowercase (trim e)) l) (sx_senders resp) /\
  (forall s, In s (sx_senders resp) -> se_email s = to_lowercase (trim e) -> s = mkSender (to_lowercase (trim e)) l) /\
  forall env settings from, env_email env = Some from -> from <> "" -> to_lowercase (trim from) = to_lowercase (trim e) ->
    judge_message env settings (sx_senders resp) =
      Some (if existsb (on_list Allowed from) (sx_senders resp) then "allowed" else "blocked") /\
    (l = Allowed -> judge_message env settings (sx_senders resp) = Some "allowed").
Proof.
  intros Hok Hr. pose proof (list_run_ok ops w0 Hok) as Hok1.
  destruct (post_sender_run u e l _ resp w' Hok1 Hr) as (now & id & t' & Ht & Hw' & Hresp).
  pose proof (sender_added_entry u (to_lowercase (trim e)) l now id _ Hok1) as [Hin Huniq]. rewrite <- Ht in Hin, Huniq.
  rewrite Hw', Hresp. split_and!; [|done|done|].
  - rewrite Ht. by apply sender_added_ok.
  - intros env settings from Henv Hne Hfrom.
    destruct (listed_verdict (to_lowercase (trim e)) l _ env settings from (lower_trim e) Hin Henv Hne Hfrom) as [Hj Hall].
    split; [done|]. intros Hl. by rewrite Hj, Hall.
Qed.

(** ** Concrete runs *)

#[local] Instance spam_json : JsonLib := { json_text _ := ""; json_parse _ := None }.
(** A lower case for the witness: that of ASCII on texts without blanks. *)
Definition toy_lower (s : string) : string := if sforall plain s then to_ascii_lowercase s else "".
#[local] Instance lower_store : StoreLib := {
  store_uuid n := "id" +:+ show_N n; sql_now t := show_Z t; ingest_date s := Some s; sanitize_email_html s := s;
  decode_utf7_imap s := s; to_lowercase := toy_lower; alphanumeric s := s }.
Lemma lower_plain s : sforall plain s = true -> sforall plain (to_ascii_lowercase s) = true /\
  to_ascii_lowercase (to_ascii_lowercase s) = to_ascii_lowercase s.
Proof.
  unfold to_ascii_lowercase. induction s as [|a s IH]; [done|]. cbn. intros [Ha Hs]%andb_true_iff.
  destruct (IH Hs) as [-> ->]. rewrite andb_true_r. split; [|f_equal];
    revert Ha; destruct a as [[] [] [] [] [] [] [] []]; by vm_compute.
Qed.
#[local] Instance lower_laws : LowerLaws.
Proof.
  intros s. cbn [to_lowercase lower_store]. assert (Hp : sforall plain (toy_lower (trim s)) = true).
  { unfold toy_lower. destruct (sforall plain (trim s)) eqn:Hs; [|done]. by apply lower_plain. }
  rewrite (trim_plain _ Hp). unfold toy_lower in *. destruct (sforall plain (trim s)) eqn:Hs; [|done].
  by rewrite Hp, (proj2 (lower_plain _ Hs)).
Qed.

Definition no_lists : mail * spam_tables := (empty_mail, mkTables [] []).
Definition toy_edits : list list_op :=
  [OpPost "u1" "@Example.org" Allowed; OpLearn "u1" "bob@x.net" true; OpFuse (Some 1%nat); OpPost "u1" "Bob@X.net" Allowed; OpFuse None].
Lemma list_edit_decides_witness : exists resp w',
  post_sender "u1" " Bob@X.net" Blocked (list_run toy_edits no_lists) = (Ok resp, w') /\ lists_ok (snd w') /\
  In (mkSender "bob@x.net" Blocked) (sx_senders resp) /\
  judge_message (mkEnvelope (Some "BOB@x.net") None None) (sx_settings resp) (sx_senders resp) = Some "blocked".
Proof.
  set (run := post_sender "u1" " Bob@X.net" Blocked (list_run toy_edits no_lists)).
  assert (Hr : run = (Ok (mkSpamResponse default_settings [mkSender "@example.org" Allowed; mkSender "bob@x.net" Blocked]), snd run))
    by (vm_compute; reflexivity).
  do 2 eexists. split; [exact Hr|].
  destruct (list_edit_decides toy_edits "u1" " Bob@X.net" Blocked no_lists (snd run)
    (mkSpamResponse default_settings [mkSender "@example.org" Allowed; mkSender "bob@x.net" Blocked])) as (Hok & Hin & _ & Hj);
    [split; cbn; [apply NoDup_nil_2|constructor|apply NoDup_nil_2]|exact Hr|].
  split; [exact Hok|]. split; [exact Hin|].
  destruct (Hj (mkEnvelope (Some "BOB@x.net") None None) default_settings "BOB@x.net") as [Hv _]; [done|done|vm_compute; reflexivity|].
  apply (eq_trans Hv). vm_compute. reflexivity.
Defined.

(** Two edits at once: the delete of each runs before the insert of the other, and the address
    is on both lists, which [add_sender] means to rule out. *)
Definition racing_edits (w : mail * spam_tables) : mail * spam_tables :=
  snd (insert_sender "u1" "a@x.net" Allowed (snd (insert_sender "u1" "a@x.net" Blocked
    (snd (drop_other "u1" "a@x.net" Allowed (snd (drop_other "u1" "a@x.net" Blocked w))))))).
Lemma sender_on_both_lists :
  senders_of "u1" (snd (racing_edits no_lists)) = [mkSender "a@x.net" Blocked; mkSender "a@x.net" Allowed].
Proof. vm_compute. reflexivity. Qed.
