(* ===== verification/OAuth.v ===== *)
(** * OAuth for mail accounts ([oauth/tokens.rs], [microsoft.rs], [yandex.rs], [providers.rs],
      [http.rs], [mod.rs])

    An account with [auth_type = oauth2] keeps a token set, sealed like a password.  Access
    tokens are refreshed when they are about to expire, one task per account at a time.  The
    flow that mints them is a pending entry in the key-value store between [start] and
    [callback].  reqwest is the class [OAuthNet]; a response is its text, parsed by [JsonLib]. *)
From S2P Require Import Prelude Kv Crypto UnlockRing World Toy Session Labels Jobs Pool MailStore.
Local Open Scope string_scope.
Local Open Scope Z_scope.

Definition REFRESH_SKEW_SECS : Z := 120.
Definition PENDING_TTL_SECS : Z := 600.
Definition MICROSOFT : string := "microsoft".
Definition YANDEX : string := "yandex".

Record OAuthConfig := mkOAuthConfig {                    (* [MsOAuthConfig], [YandexOAuthConfig] *)
  oc_client_id : string; oc_client_secret : option string; oc_redirect_uri : string; oc_tenant : string }.
Record OAuthRefreshConfigs := mkConfigs { microsoft : option OAuthConfig; yandex : option OAuthConfig }.
Record OAuthTokenSet := mkTokens {
  access_token : string; refresh_token : string; expires_at : Z; token_type : string; scope : string }.
Inductive MailAccessSecret := Password (p : string) | AccessToken (p : string).
Definition secret_text (s : MailAccessSecret) : string := match s with Password p | AccessToken p => p end.
Definition is_xoauth2 (s : MailAccessSecret) : bool := match s with AccessToken _ => true | Password _ => false end.

Inductive MsOAuthError :=
  | NotConfigured | UnknownProvider (p : string) | ProviderNotConfigured (p : string) | InvalidState
  | TokenExchange (m : string) | TokenExchangeRejected (code message : string)
  | MissingEmailParam | MissingEmail | CredentialDecrypt | OAuthInternal (m : string).
Definition is_credential_decrypt (e : MsOAuthError) : bool := match e with CredentialDecrypt => true | _ => false end.

Record ExchangedTokens := mkExchanged {
  ex_access_token : string; ex_refresh_token : option string; ex_expires_at : Z; ex_scope : option string; ex_email : option string }.
Record TokenResponse := mkTokenResponse {
  tr_access_token : string; tr_refresh_token : option string; tr_expires_in : Z; tr_scope : option string;
  tr_id_token : option string; tr_error : option string; tr_error_description : option string }.

(** [mail_account]: the columns that say how an account connects, and those of the settings
    and of contacts and calendars. *)
Record AccountExtras := mkExtras {
  ax_signature : option string; ax_carddav_url : option string; ax_caldav_url : option string; ax_pim_credential : option string }.
Definition no_extras : AccountExtras := mkExtras None None None None.
Record MailAccountRow := mkMailAccount {
  ma_id : string; ma_user_id : string; ma_display_name : option string; ma_email_address : string; ma_protocol : string;
  ma_auth_type : string; ma_credential : string; ma_imap_host : option string; ma_imap_port : option Z;
  ma_imap_security : option string; ma_jmap_base_url : option string; ma_smtp_host : option string; ma_smtp_port : option Z;
  ma_smtp_security : option string; ma_receive_protocol : option string; ma_send_protocol : option string;
  ma_is_active : bool; ma_sync_enabled : bool; ma_extras : AccountExtras }.
Definition set_account_credential (c : string) (r : MailAccountRow) : MailAccountRow :=
  mkMailAccount (ma_id r) (ma_user_id r) (ma_display_name r) (ma_email_address r) (ma_protocol r) (ma_auth_type r) c
    (ma_imap_host r) (ma_imap_port r) (ma_imap_security r) (ma_jmap_base_url r) (ma_smtp_host r) (ma_smtp_port r)
    (ma_smtp_security r) (ma_receive_protocol r) (ma_send_protocol r) (ma_is_active r) (ma_sync_enabled r) (ma_extras r).

(** reqwest: a form POST and an authorised GET, each the status and the body, or a transport error. *)
Class OAuthNet (T : Type) := {
  post_form : string -> list (string * string) -> io T string (Z * string);
  get_authorized : string -> string -> io T string (Z * string);
}.
(** SHA-256 of the verifier, and base64url. *)
Class PkceLib := { url_safe_b64 : string -> string; url_safe_b64_decode : string -> option string; sha256_digest : string -> string }.

Record oauth_world (K R T : Type) := mkOw { ow_auth : world K R; ow_rows : list MailAccountRow; ow_net : T; ow_seq : N }.
Arguments mkOw {K R T}. Arguments ow_auth {K R T}. Arguments ow_rows {K R T}. Arguments ow_net {K R T}. Arguments ow_seq {K R T}.

(** Release builds wrap an [i64]. *)
Definition wrap_i64 (z : Z) : Z := (z - i64_min) mod 2 ^ 64 + i64_min.
Definition is_i64 (z : Z) : Prop := i64_min <= z <= i64_max.
Lemma wrap_is_i64 z : is_i64 (wrap_i64 z).
Proof. unfold is_i64, wrap_i64, i64_min, i64_max. pose proof (Z.mod_pos_bound (z - - 2 ^ 63) (2 ^ 64)). lia. Qed.

(** ** JSON structs

    serde's derived reading of an object: a missing or null [Option] is [None], a missing
    field with [#[serde(default)]] its default, and any other absence or a wrong type an
    error. *)
Definition need_str (key : string) (v : Json) : option string := json_field key v ≫= json_str.
Definition default_str (key : string) (v : Json) : option string :=
  match json_field key v with None => Some "" | Some (JString s) => Some s | Some _ => None end.
Definition maybe_str (key : string) (v : Json) : option (option string) :=
  match json_field key v with None | Some JNull => Some None | Some (JString s) => Some (Some s) | Some _ => None end.
Definition need_i64 (key : string) (v : Json) : option Z :=
  match json_field key v with Some (JNumber n) => parse_i64 n | _ => None end.
Definition default_i64 (key : string) (v : Json) : option Z :=
  match json_field key v with None => Some 0 | Some (JNumber n) => parse_i64 n | Some _ => None end.

Definition tokens_json (t : OAuthTokenSet) : Json :=
  JObject [("access_token", JString (access_token t)); ("refresh_token", JString (refresh_token t));
           ("expires_at", JNumber (show_Z (expires_at t))); ("token_type", JString (token_type t)); ("scope", JString (scope t))].
Definition tokens_of_json (v : Json) : option OAuthTokenSet :=
  a ← need_str "access_token" v; r ← need_str "refresh_token" v; e ← need_i64 "expires_at" v;
  t ← default_str "token_type" v; s ← default_str "scope" v; Some (mkTokens a r e t s).
Definition microsoft_response (v : Json) : option TokenResponse :=
  a ← default_str "access_token" v; r ← maybe_str "refresh_token" v; e ← default_i64 "expires_in" v;
  _ ← default_str "token_type" v; s ← maybe_str "scope" v; i ← maybe_str "id_token" v;
  err ← maybe_str "error" v; d ← maybe_str "error_description" v; Some (mkTokenResponse a r e s i err d).
Definition yandex_response (v : Json) : option TokenResponse :=
  a ← need_str "access_token" v; r ← maybe_str "refresh_token" v; e ← need_i64 "expires_in" v;
  s ← maybe_str "scope" v; err ← maybe_str "error" v; d ← maybe_str "error_description" v;
  Some (mkTokenResponse a r e s None err d).

(** ** URLs *)

Definition hex_upper (n : N) : ascii := ascii_of_N (if (n <? 10)%N then 48 + n else 55 + n).
Definition unreserved (a : ascii) : bool :=
  is_upper a || is_lower a || is_digit a || existsb (Ascii.eqb a) ["-"%char; "_"%char; "."%char; "~"%char].
Fixpoint urlencode_component (s : string) : string :=
  match s with
  | EmptyString => ""
  | String b s' =>
      (if unreserved b then String b ""
       else if Ascii.eqb b " " then "%20"
       else String "%" (String (hex_upper (byte b / 16)) (String (hex_upper (byte b mod 16)) ""))) +:+ urlencode_component s'
  end.
Definition trim_end_char (c : ascii) (s : string) : string := drop_while_end (Ascii.eqb c) s.
Definition oauth_callback_url (public_url : string) : string := trim_end_char "/" public_url +:+ "/api/v1/oauth/callback".

Definition MS_MAIL_SCOPES : string :=
  "openid offline_access email profile https://outlook.office.com/IMAP.AccessAsUser.All https://outlook.office.com/SMTP.Send".
Definition YANDEX_MAIL_SCOPES : string := "login:email mail:imap_full mail:smtp".
Definition authorize_url_base (cfg : OAuthConfig) : string :=
  "https://login.microsoftonline.com/" +:+ oc_tenant cfg +:+ "/oauth2/v2.0/authorize".
Definition token_url (cfg : OAuthConfig) : string :=
  "https://login.microsoftonline.com/" +:+ oc_tenant cfg +:+ "/oauth2/v2.0/token".
Definition yandex_token_url : string := "https://oauth.yandex.com/token".

Record PkcePair := mkPkce { verifier : string; challenge : string }.
Definition build_microsoft_url (cfg : OAuthConfig) (state : string) (pkce : PkcePair) : string :=
  authorize_url_base cfg +:+ "?client_id=" +:+ urlencode_component (oc_client_id cfg) +:+ "&response_type=code&redirect_uri="
  +:+ urlencode_component (oc_redirect_uri cfg) +:+ "&response_mode=query&scope=" +:+ urlencode_component MS_MAIL_SCOPES
  +:+ "&state=" +:+ urlencode_component state +:+ "&code_challenge=" +:+ urlencode_component (challenge pkce)
  +:+ "&code_challenge_method=S256"
  +:+ (match oc_client_secret cfg with None => "&prompt=select_account" | Some _ => "" end).
Definition build_yandex_url (cfg : OAuthConfig) (state : string) (pkce : PkcePair) (login_hint : option string) : string :=
  "https://oauth.yandex.com/authorize?response_type=code&client_id=" +:+ urlencode_component (oc_client_id cfg)
  +:+ "&redirect_uri=" +:+ urlencode_component (oc_redirect_uri cfg) +:+ "&scope=" +:+ urlencode_component YANDEX_MAIL_SCOPES
  +:+ "&state=" +:+ urlencode_component state +:+ "&code_challenge=" +:+ urlencode_component (challenge pkce)
  +:+ "&code_challenge_method=S256"
  +:+ (match login_hint with
       | Some hint => if contains_char "@" hint then "&login_hint=" +:+ urlencode_component hint else ""
       | None => "" end).

(** ** Providers *)

Definition MICROSOFT_DOMAINS : list string :=
  ["outlook.com"; "hotmail.com"; "live.com"; "live.in"; "msn.com"; "passport.com"; "office365.com"].
Definition is_microsoft_mail_domain (domain : string) : bool :=
  let d := to_ascii_lowercase (trim domain) in
  existsb (String.eqb d) MICROSOFT_DOMAINS
  || existsb (fun s => ends_with s d) [".outlook.com"; ".hotmail.com"; ".live.com"; ".msn.com"; ".onmicrosoft.com"].
Definition YANDEX_DOMAINS : list string :=
  ["yandex.ru"; "yandex.com"; "ya.ru"; "yandex.by"; "yandex.kz"; "yandex.ua"; "yandex.com.tr"; "yandex.az"; "yandex.co.il";
   "yandex.lv"; "yandex.ee"; "yandex.lt"; "yandex.md"; "yandex.tj"; "yandex.tm"; "narod.ru"].
Definition is_yandex_mail_domain (domain : string) : bool :=
  let d := to_ascii_lowercase (trim domain) in
  existsb (String.eqb d) YANDEX_DOMAINS || ends_with ".yandex.ru" d || ends_with ".yandex.com" d.
Definition is_yandex_mail_host (host : string) : bool :=
  let h := to_ascii_lowercase (trim host) in
  String.eqb h "imap.yandex.com" || String.eqb h "smtp.yandex.com" || ends_with ".yandex.com" h.
Definition is_microsoft_mail_host (host : string) : bool :=
  let h := to_ascii_lowercase (trim host) in
  existsb (String.eqb h) ["outlook.office365.com"; "outlook.office.com"; "smtp-mail.outlook.com"]
  || ends_with ".office365.com" h || ends_with ".outlook.com" h.

Definition resolve_provider (email : string) : option string :=
  let email := trim email in
  if negb (contains_char "@" email) then None else
  domain ← split_char "@" email !! 1%nat;
  let domain := trim domain in
  if is_microsoft_mail_domain domain then Some MICROSOFT
  else if is_yandex_mail_domain domain then Some YANDEX else None.
Definition config_of (configs : OAuthRefreshConfigs) (provider : string) : option OAuthConfig :=
  if String.eqb provider MICROSOFT then microsoft configs
  else if String.eqb provider YANDEX then yandex configs else None.
Definition is_configured (configs : OAuthRefreshConfigs) (provider : string) : bool :=
  bool_decide (is_Some (config_of configs provider)).
Record MailServerDefaults := mkServers { sv_imap_host : string; sv_imap_port : Z; sv_smtp_host : string; sv_smtp_port : Z; sv_smtp_security : string }.
Definition mail_servers (provider : string) : option MailServerDefaults :=
  if String.eqb provider MICROSOFT then Some (mkServers "outlook.office365.com" 993 "smtp-mail.outlook.com" 587 "starttls")
  else if String.eqb provider YANDEX then Some (mkServers "imap.yandex.com" 993 "smtp.yandex.com" 465 "tls")
  else None.
Inductive RefreshProvider := RefreshMicrosoft (c : OAuthConfig) | RefreshYandex (c : OAuthConfig).
Definition refresh_provider (imap_host : option string) (configs : OAuthRefreshConfigs) : result MsOAuthError RefreshProvider :=
  match imap_host with
  | None => Err NotConfigured
  | Some h =>
      if is_yandex_mail_host h then ok_or NotConfigured (option_map RefreshYandex (yandex configs))
      else if is_microsoft_mail_host h then ok_or NotConfigured (option_map RefreshMicrosoft (microsoft configs))
      else Err NotConfigured
  end.

Section OAuth.
Context {K R T : Type} `{KvStore K} `{HasRng R} `{CryptoLib} `{OAuthNet T} `{PkceLib} `{JsonLib} `{StoreLib} `{JobLib}.
Local Abbreviation W := (oauth_world K R T).
Local Abbreviation M := (io W MsOAuthError).
Implicit Types w : W.

(** The auth code sees its columns of the same table, and may re-seal the credentials. *)
Definition account_of (r : MailAccountRow) : MailAccount :=
  mkAccount (ma_id r) (ma_user_id r) (ma_credential r) (default "" (ma_send_protocol r)) (ma_is_active r) (ma_sync_enabled r).
Definition auth_view w : world K R := set_accounts (map account_of (ow_rows w)) (ow_auth w).
Definition write_back (accounts : list MailAccount) (rows : list MailAccountRow) : list MailAccountRow :=
  zip_with (fun r a => set_account_credential (a_credential a) r) rows accounts.
Definition on_auth {E A} (m : io (world K R) E A) : io W E A :=
  fun w => let '(r, a) := m (auth_view w) in (r, mkOw a (write_back (w_accounts a) (ow_rows w)) (ow_net w) (ow_seq w)).
Definition on_net {E A} (m : io T E A) : io W E A :=
  fun w => let '(r, n) := m (ow_net w) in (r, mkOw (ow_auth w) (ow_rows w) n (ow_seq w)).
Definition set_rows (l : list MailAccountRow) w : W := mkOw (ow_auth w) l (ow_net w) (ow_seq w).
Definition now_secs w : Z := w_now (ow_auth w) / nanos_per_sec.
Definition ostmt {A} (f : W -> A * W) : M A :=
  fun w => if w_db_up (ow_auth w) then let '(a, w') := f w in (Ok a, w') else (Err (OAuthInternal "database unavailable"), w).

(** ** The stored credential *)

Definition encrypt_oauth_tokens (dek : string) (tokens : OAuthTokenSet) : M string :=
  let! encrypted := map_err (fun e => OAuthInternal (crypto_error_text e)) (on_auth (encrypt dek (json_text (tokens_json tokens)))) in
  ret (cred_to_json encrypted).
Definition decrypt_oauth_tokens (credential_json dek : string) : result MsOAuthError OAuthTokenSet :=
  match cred_of_json credential_json with
  | None => Err CredentialDecrypt
  | Some encrypted =>
      match decrypt dek encrypted with
      | Err _ => Err CredentialDecrypt
      | Ok bytes =>
          if negb (utf8_valid bytes) then Err CredentialDecrypt else
          ok_or CredentialDecrypt (json_parse bytes ≫= tokens_of_json)
      end
  end.
Definition decrypt_password (credential_json dek : string) : result MsOAuthError string :=
  match cred_of_json credential_json with
  | None => Err (OAuthInternal "invalid credential blob")
  | Some encrypted =>
      match decrypt dek encrypted with
      | Err e => Err (OAuthInternal (crypto_error_text e))
      | Ok bytes => if utf8_valid bytes then Ok bytes else Err (OAuthInternal "password utf-8")
      end
  end.
Definition account_is (account_id : string) (r : MailAccountRow) : bool := String.eqb (ma_id r) account_id.
Definition update_rows (account_id : string) (f : MailAccountRow -> MailAccountRow) (l : list MailAccountRow) : list MailAccountRow :=
  map (fun r => if account_is account_id r then f r else r) l.
Definition update_account_credential (account_id credential_json : string) : M unit :=
  ostmt (fun w => (tt, set_rows (update_rows account_id (set_account_credential credential_json) (ow_rows w)) w)).
Definition credential_of (account_id : string) w : option string :=
  option_map ma_credential (List.find (account_is account_id) (ow_rows w)).
Definition load_credential_blob (account_id : string) : M (option string) := ostmt (fun w => (credential_of account_id w, w)).

(** ** The token endpoints *)

Definition secret_field (cfg : OAuthConfig) : list (string * string) :=
  match oc_client_secret cfg with Some secret => [("client_secret", secret)] | None => [] end.
Definition transport {A} (m : io T string A) : M A := map_err TokenExchange (on_net m).
Definition decode_body (parse : Json -> option TokenResponse) (reply : Z * string) : result MsOAuthError TokenResponse :=
  ok_or (TokenExchange ("decode response (HTTP " +:+ show_Z (fst reply) +:+ ")")) (json_parse (snd reply) ≫= parse).
Definition post_token_form (parse : Json -> option TokenResponse) (url : string) (form : list (string * string)) : M TokenResponse :=
  let! reply := transport (post_form url form) in
  lift (decode_body parse reply).
Definition no_oauth_error (body : TokenResponse) : M unit :=
  match tr_error body with
  | Some err => throw (TokenExchangeRejected err (err +:+ ": " +:+ default "" (tr_error_description body)))
  | None => ret tt
  end.
Definition expiry (body : TokenResponse) w : Z := wrap_i64 (now_secs w + Z.max (tr_expires_in body) 60).
Definition refreshed_tokens (body : TokenResponse) : M ExchangedTokens :=
  let! _ := no_oauth_error body in
  let! expires := gets (expiry body) in
  ret (mkExchanged (tr_access_token body) (nonempty (tr_refresh_token body)) expires (tr_scope body) None).

Definition refresh_microsoft (cfg : OAuthConfig) (token : string) : M ExchangedTokens :=
  let! body := post_token_form microsoft_response (token_url cfg)
    ([("client_id", oc_client_id cfg); ("grant_type", "refresh_token"); ("refresh_token", token); ("scope", MS_MAIL_SCOPES)]
     ++ secret_field cfg)%list in
  refreshed_tokens body.
Definition refresh_yandex (cfg : OAuthConfig) (token : string) : M ExchangedTokens :=
  let! body := post_token_form yandex_response yandex_token_url
    ([("grant_type", "refresh_token"); ("refresh_token", token); ("client_id", oc_client_id cfg)] ++ secret_field cfg)%list in
  refreshed_tokens body.
Definition refresh_with (p : RefreshProvider) (token : string) : M ExchangedTokens :=
  match p with RefreshMicrosoft cfg => refresh_microsoft cfg token | RefreshYandex cfg => refresh_yandex cfg token end.

(** ** [resolve_mail_access_secret] *)

Definition time_left (tokens : OAuthTokenSet) (now : Z) : Z := wrap_i64 (expires_at tokens - now).
Definition near_expiry (tokens : OAuthTokenSet) (now : Z) : bool := time_left tokens now <=? REFRESH_SKEW_SECS.
(** The re-read under the lock: the tokens to answer with, or the ones to refresh. *)
Definition recheck (account_id dek : string) (tokens : OAuthTokenSet) : M (string + OAuthTokenSet) :=
  let! blob := attempt (load_credential_blob account_id) in
  let reloaded := match blob with Ok (Some b) => rok (decrypt_oauth_tokens b dek) | _ => None end in
  let! now := gets now_secs in
  ret (match reloaded with
       | Some fresh => if REFRESH_SKEW_SECS <? time_left fresh now then inl (access_token fresh) else inr fresh
       | None => inr tokens
       end).
Definition merged (tokens : OAuthTokenSet) (r : ExchangedTokens) : OAuthTokenSet :=
  mkTokens (ex_access_token r) (default (refresh_token tokens) (ex_refresh_token r)) (ex_expires_at r) (token_type tokens)
    (default (scope tokens) (ex_scope r)).
Definition refresh (imap_host : option string) (configs : OAuthRefreshConfigs) (tokens : OAuthTokenSet) : M ExchangedTokens :=
  let! p := lift (refresh_provider imap_host configs) in
  refresh_with p (refresh_token tokens).
Definition redeem (imap_host : option string) (configs : OAuthRefreshConfigs) (tokens : OAuthTokenSet) : M OAuthTokenSet :=
  let! refreshed := refresh imap_host configs tokens in
  ret (merged tokens refreshed).
Definition persist (account_id dek : string) (tokens : OAuthTokenSet) : M string :=
  let! blob := encrypt_oauth_tokens dek tokens in
  let! _ := update_account_credential account_id blob in
  ret (access_token tokens).
Definition resolve_mail_access_secret (account_id auth_type credential_json dek : string) (imap_host : option string)
    (configs : OAuthRefreshConfigs) : M MailAccessSecret :=
  if String.eqb auth_type "oauth2" then
    let! tokens := lift (decrypt_oauth_tokens credential_json dek) in
    let! now := gets now_secs in
    if near_expiry tokens now then
      let! next := recheck account_id dek tokens in
      match next with
      | inl access => ret (AccessToken access)
      | inr tokens =>
          let! tokens := redeem imap_host configs tokens in
          let! access := persist account_id dek tokens in
          ret (AccessToken access)
      end
    else ret (AccessToken (access_token tokens))
  else let! p := lift (decrypt_password credential_json dek) in ret (Password p).

(** ** Minting tokens *)

(** [claim_from_jwt]: the payload, decoded with and without its padding. *)
Definition claim_from_jwt (jwt claim : string) : option string :=
  payload ← split_char "." jwt !! 1%nat;
  let padded := match (String.length payload mod 4)%nat with
                | 2%nat => payload +:+ "==" | 3%nat => payload +:+ "=" | _ => payload end in
  bytes ← or_else (url_safe_b64_decode payload) (or_else (url_safe_b64_decode padded) (b64_decode padded));
  v ← json_parse bytes; json_field claim v ≫= json_str.
Definition email_of_id_token (id_token : string) : option string :=
  or_else (claim_from_jwt id_token "email")
    (or_else (claim_from_jwt id_token "preferred_username") (claim_from_jwt id_token "upn")).
Definition minted (body : TokenResponse) (no_refresh scopes : string) (email : option string) : M ExchangedTokens :=
  match nonempty (tr_refresh_token body) with
  | None => throw (TokenExchange no_refresh)
  | Some token =>
      let! expires := gets (expiry body) in
      ret (mkExchanged (tr_access_token body) (Some token) expires (or_else (tr_scope body) (Some scopes)) email)
  end.
Definition exchange_microsoft (cfg : OAuthConfig) (code pkce_verifier : string) : M ExchangedTokens :=
  let! body := post_token_form microsoft_response (token_url cfg)
    ([("client_id", oc_client_id cfg); ("grant_type", "authorization_code"); ("code", code);
      ("redirect_uri", oc_redirect_uri cfg); ("code_verifier", pkce_verifier); ("scope", MS_MAIL_SCOPES)] ++ secret_field cfg)%list in
  let! _ := no_oauth_error body in
  minted body "no refresh_token; ensure offline_access scope" MS_MAIL_SCOPES (tr_id_token body ≫= email_of_id_token).
Definition fetch_profile_email (token : string) : M string :=
  let! reply := transport (get_authorized "https://login.yandex.ru/info?format=json" ("OAuth " +:+ token)) in
  lift (match json_parse (snd reply) with
        | None => Err (TokenExchange "error decoding response body")
        | Some v =>
            match maybe_str "default_email" v, maybe_str "login" v with
            | Some e, Some login =>
                match or_else e (option_map (fun l => l +:+ "@yandex.ru") login) with
                | Some e => if contains_char "@" e then Ok e else Err (TokenExchange "missing email in profile")
                | None => Err (TokenExchange "missing email in profile")
                end
            | _, _ => Err (TokenExchange "error decoding response body")
            end
        end).
Definition exchange_yandex (cfg : OAuthConfig) (code pkce_verifier : string) : M ExchangedTokens :=
  let! body := post_token_form yandex_response yandex_token_url
    ([("grant_type", "authorization_code"); ("code", code); ("client_id", oc_client_id cfg);
      ("redirect_uri", oc_redirect_uri cfg); ("code_verifier", pkce_verifier)] ++ secret_field cfg)%list in
  let! _ := no_oauth_error body in
  match nonempty (tr_refresh_token body) with
  | None => throw (TokenExchange "no refresh_token")
  | Some _ =>
      let! email := attempt (fetch_profile_email (tr_access_token body)) in
      minted body "no refresh_token" YANDEX_MAIL_SCOPES (rok email)
  end.

(** ** The flow *)

Record PendingOAuth := mkPending { po_user_id : string; po_provider : string; po_verifier : string; po_email_hint : option string }.
Definition pending_json (p : PendingOAuth) : Json :=
  JObject [("user_id", JString (po_user_id p)); ("provider", JString (po_provider p)); ("pkce_verifier", JString (po_verifier p));
           ("email_hint", match po_email_hint p with Some e => JString e | None => JNull end)].
Definition pending_of_json (v : Json) : option PendingOAuth :=
  u ← need_str "user_id" v; p ← need_str "provider" v; k ← need_str "pkce_verifier" v; e ← maybe_str "email_hint" v;
  Some (mkPending u p k e).
Definition pending_key (state : string) : string := "oauth:pending:" +:+ state.

Definition okv {A} (f : Z -> K -> result KvError.t A * K) : M A :=
  fun w => let '(r, k) := f (w_now (ow_auth w)) (w_kv (ow_auth w)) in
    (rmap_err (fun '(KvError.Internal m) => OAuthInternal m) r, mkOw (set_kv k (ow_auth w)) (ow_rows w) (ow_net w) (ow_seq w)).
Definition generate_state : M string := let! raw := on_auth (draw 24) in ret (url_safe_b64 raw).
Definition generate_pkce : M PkcePair :=
  let! raw := on_auth (draw 32) in
  let verifier := url_safe_b64 raw in
  ret (mkPkce verifier (url_safe_b64 (sha256_digest verifier))).

Record StartResponse := mkStart { authorize_url : string; st_provider : string }.
Definition oauth_start (configs : OAuthRefreshConfigs) (user_id email : string) : M StartResponse :=
  let email := trim email in
  if negb (contains_char "@" email) then throw MissingEmailParam else
  let! provider := lift (ok_or (UnknownProvider (to_ascii_lowercase (default email (split_char "@" email !! 1%nat))))
                           (resolve_provider email)) in
  match config_of configs provider with
  | None => throw (ProviderNotConfigured provider)
  | Some cfg =>
      let! state_token := generate_state in
      let! pkce := generate_pkce in
      let email_hint := to_ascii_lowercase email in
      let pending := mkPending user_id provider (verifier pkce) (Some email_hint) in
      let! _ := okv (fun now => kv_set now (pending_key state_token) (json_text (pending_json pending)) (Some PENDING_TTL_SECS)) in
      ret (mkStart (if String.eqb provider MICROSOFT then build_microsoft_url cfg state_token pkce
                    else build_yandex_url cfg state_token pkce (Some email_hint)) provider)
  end.

Record CallbackQuery := mkCallback { cq_code : option string; cq_state : option string; cq_error : option string }.
Inductive CallbackResponse := JsonReply (status detail : string) | RedirectTo (location : string).
Definition wants_json_callback (accept : option string) : bool :=
  match accept with
  | Some accept => existsb (fun part => eq_ignore_ascii_case (trim (default "" (head (split_char ";" part)))) "application/json")
                     (split_char "," accept)
  | None => false
  end.
Definition oauth_complete_response (accept : option string) (status detail : string) : CallbackResponse :=
  if wants_json_callback accept then JsonReply status detail
  else RedirectTo ("/settings?section=accounts&oauth=" +:+ status +:+ "&detail=" +:+ detail).

Definition oauth_account_of (user_id email : string) (r : MailAccountRow) : bool :=
  String.eqb (ma_user_id r) user_id && String.eqb (to_ascii_lowercase (ma_email_address r)) (to_lowercase email)
  && String.eqb (ma_auth_type r) "oauth2".
Definition find_oauth_account (user_id email : string) : M (option string) :=
  ostmt (fun w => (option_map ma_id (List.find (oauth_account_of user_id email) (ow_rows w)), w)).
Definition reconnected (credential : string) (s : MailServerDefaults) (r : MailAccountRow) : MailAccountRow :=
  mkMailAccount (ma_id r) (ma_user_id r) (ma_display_name r) (ma_email_address r) "imap" "oauth2" credential
    (Some (sv_imap_host s)) (Some (sv_imap_port s)) (Some "tls") (ma_jmap_base_url r) (Some (sv_smtp_host s)) (Some (sv_smtp_port s))
    (Some (sv_smtp_security s)) (Some "imap") (Some "smtp") true true (ma_extras r).
Definition oauth_account (id user_id email credential : string) (s : MailServerDefaults) : MailAccountRow :=
  mkMailAccount id user_id (Some (default "Mail" (head (split_char "@" email)))) email "imap" "oauth2" credential
    (Some (sv_imap_host s)) (Some (sv_imap_port s)) (Some "tls") None (Some (sv_smtp_host s)) (Some (sv_smtp_port s))
    (Some (sv_smtp_security s)) (Some "imap") (Some "smtp") true true no_extras.
Definition persist_oauth_account (user_id email credential : string) (servers : MailServerDefaults) : M bool :=
  let! existing := find_oauth_account user_id email in
  match existing with
  | Some id =>
      let! _ := ostmt (fun w => (tt, set_rows (update_rows id (reconnected credential servers) (ow_rows w)) w)) in
      ret true
  | None =>
      let! id := (fun w => (Ok (store_uuid (ow_seq w)), mkOw (ow_auth w) (ow_rows w) (ow_net w) (N.succ (ow_seq w)))) in
      let! _ := ostmt (fun w => (tt, set_rows (ow_rows w ++ [oauth_account id user_id email credential servers])%list w)) in
      ret false
  end.

(** The [match] on the exchange: a failed one is a page for the user, not an error. *)
Definition exchange (configs : OAuthRefreshConfigs) (provider code verifier : string) : M (ExchangedTokens + string) :=
  let run m :=
    let! r := attempt m in
    match r with
    | Ok tokens => ret (inl tokens)
    | Err (TokenExchange _) => ret (inr "token_exchange")
    | Err (TokenExchangeRejected code _) => ret (inr ("token_exchange:" +:+ code))
    | Err e => throw e
    end in
  if String.eqb provider MICROSOFT then
    let! cfg := lift (ok_or NotConfigured (microsoft configs)) in run (exchange_microsoft cfg code verifier)
  else if String.eqb provider YANDEX then
    let! cfg := lift (ok_or NotConfigured (yandex configs)) in run (exchange_yandex cfg code verifier)
  else throw (UnknownProvider provider).
Definition callback_email (exchanged : ExchangedTokens) (pending : PendingOAuth) : result MsOAuthError string :=
  match or_else (ex_email exchanged) (po_email_hint pending) with
  | Some e => if contains_char "@" e then Ok (to_lowercase e) else Err MissingEmail
  | None => Err MissingEmail
  end.
Definition connect_account (pending : PendingOAuth) (servers : MailServerDefaults) (exchanged : ExchangedTokens) : M string :=
  let! email := lift (callback_email exchanged pending) in
  let! dek := map_err (fun e => OAuthInternal (crypto_error_text e)) (on_auth (get_user_dek (po_user_id pending))) in
  let! refresh := lift (ok_or (TokenExchange "missing refresh") (ex_refresh_token exchanged)) in
  let! credential := encrypt_oauth_tokens dek
    (mkTokens (ex_access_token exchanged) refresh (ex_expires_at exchanged) "Bearer" (default "" (ex_scope exchanged))) in
  let! again := persist_oauth_account (po_user_id pending) email credential servers in
  ret (if (again : bool) then "reconnected" else "connected").
(** The pending entry of a state, taken off the store. *)
Definition take_pending (state_token : string) : M PendingOAuth :=
  let! raw := okv (fun now => kv_get now (pending_key state_token)) in
  let! raw := lift (ok_or InvalidState raw) in
  let! _ := attempt (E := MsOAuthError) (okv (fun now => kv_del now (pending_key state_token))) in
  lift (ok_or InvalidState (json_parse raw ≫= pending_of_json)).
Definition oauth_callback (configs : OAuthRefreshConfigs) (accept : option string) (q : CallbackQuery) : M CallbackResponse :=
  match cq_error q with
  | Some _ => ret (oauth_complete_response accept "error" "oauth_denied")
  | None =>
      let! code := lift (ok_or InvalidState (cq_code q)) in
      let! state_token := lift (ok_or InvalidState (cq_state q)) in
      let! pending := take_pending state_token in
      let! servers := lift (ok_or (UnknownProvider (po_provider pending)) (mail_servers (po_provider pending))) in
      let! exchanged := exchange configs (po_provider pending) code (po_verifier pending) in
      match exchanged with
      | inr detail => ret (oauth_complete_response accept "error" detail)
      | inl tokens =>
          let! detail := connect_account pending servers tokens in
          ret (oauth_complete_response accept "ok" detail)
      end
  end.
End OAuth.

(** ** What the calls leave alone

    The token endpoints and the keys touch neither the account rows nor the key-value store. *)
Section Kept.
Context {K R T : Type} `{KvStore K} `{HasRng R} `{CryptoLib} `{OAuthNet T} `{PkceLib} `{JsonLib} `{StoreLib} `{JobLib}.
Local Abbreviation W := (oauth_world K R T).
Implicit Types w : W.
Definition kept w w' : Prop := dek_frame (ow_auth w) (ow_auth w') /\ ow_rows w' = ow_rows w.
#[export] Instance kept_preorder : PreOrder kept.
Proof.
  split; [by intros w|]. intros x y z [(?&?&?&?&?) ?] [(?&?&?&?&?) ?]. unfold kept, dek_frame. split_and!; congruence.
Qed.
Lemma pres_on_net {E A} (m : io T E A) : preserves kept (on_net m).
Proof using Type. intros w r w'. unfold on_net. destruct (m (ow_net w)) as [x n]. intros [= _ <-]. done. Qed.
Lemma write_back_same rows : write_back (map account_of rows) rows = rows.
Proof using Type. unfold write_back. induction rows as [|r l IH]; [done|]. cbn. rewrite IH. by destruct r. Qed.
Lemma on_auth_frame {E A} (m : io (world K R) E A) w r w' : preserves dek_frame m -> on_auth m w = (r, w') ->
  dek_frame (ow_auth w) (ow_auth w').
Proof using Type.
  intros Hm. unfold on_auth. destruct (m (auth_view w)) as [x g] eqn:Hg. intros [= _ <-]. by apply Hm in Hg.
Qed.
Lemma pres_on_auth {E A} (m : io (world K R) E A) : preserves dek_frame m -> preserves same_accounts m -> preserves kept (on_auth m).
Proof using Type.
  intros Hm Ha w r w' Hw. split; [by eapply on_auth_frame|]. unfold on_auth in Hw.
  destruct (m (auth_view w)) as [x g] eqn:Hg. injection Hw as _ <-. cbn. rewrite (Ha _ _ _ Hg). apply write_back_same.
Qed.
#[local] Hint Resolve pres_on_net pres_on_auth encrypt_frame encrypt_same : preserve.
Lemma pres_refreshed body : preserves kept (refreshed_tokens (K := K) (R := R) (T := T) body).
Proof using Type. unfold refreshed_tokens, no_oauth_error. preserve. Qed.
#[local] Hint Resolve pres_refreshed : preserve.
Lemma pres_token_form parse url form : preserves kept (post_token_form (K := K) (R := R) parse url form).
Proof using Type. unfold post_token_form, transport. preserve. Qed.
#[local] Hint Resolve pres_token_form : preserve.
Lemma pres_refresh imap_host configs tokens : preserves kept (refresh (K := K) (R := R) imap_host configs tokens).
Proof using Type. unfold refresh, refresh_with, refresh_microsoft, refresh_yandex. preserve. Qed.
Lemma pres_minted body m scopes email : preserves kept (minted (K := K) (R := R) (T := T) body m scopes email).
Proof using Type. unfold minted. preserve. Qed.
#[local] Hint Resolve pres_minted : preserve.
Lemma pres_exchange configs provider code v : preserves kept (exchange (K := K) (R := R) configs provider code v).
Proof using Type.
  unfold exchange, exchange_microsoft, exchange_yandex, fetch_profile_email, no_oauth_error, transport. preserve.
Qed.
Lemma pres_sealing dek tokens : preserves kept (encrypt_oauth_tokens (K := K) (R := R) (T := T) dek tokens).
Proof using Type. unfold encrypt_oauth_tokens. preserve. Qed.
End Kept.

(** ** The flow: a state token works once, for the user that started it *)
Section Flow.
Context {K R T : Type} `{KvLaws K} `{HasRng R} `{CryptoLib} `{OAuthNet T} `{PkceLib} `{JsonLib} `{StoreLib} `{JobLib}.
Local Abbreviation W := (oauth_world K R T).
Implicit Types w : W.

Definition pending_text (state : string) w : option string := live (w_now (ow_auth w)) (cells (w_kv (ow_auth w)) (pending_key state)).
Definition pending_of (state : string) w : option PendingOAuth := raw ← pending_text state w; json_parse raw ≫= pending_of_json.
Definition others (user_id : string) (l : list MailAccountRow) : list MailAccountRow :=
  List.filter (fun r => negb (String.eqb (ma_user_id r) user_id)) l.
Definition later (d : Z) w : W := mkOw (set_now (w_now (ow_auth w) + d) (ow_auth w)) (ow_rows w) (ow_net w) (ow_seq w).
Definition spent (state : string) w : Prop := forall d, 0 <= d -> pending_text state (later d w) = None.

Lemma live_later now c d : live now c = None -> 0 <= d -> live (now + d) c = None.
Proof using Type.
  intros Hl Hd. destruct c as [[v [t|]]|]; cbn in *; [|done..].
  destruct (Z.leb_spec t now); [|done]. by rewrite (proj2 (Z.leb_le t (now + d))) by lia.
Qed.
Lemma take_pending_run state w :
  exists w', take_pending state w = (ok_or InvalidState (pending_of state w), w') /\ ow_rows w' = ow_rows w /\ spent state w'.
Proof using All.
  unfold take_pending, okv, pending_of. set (now := w_now (ow_auth w)). set (k := pending_key state).
  destruct (kv_get_law now k (w_kv (ow_auth w))) as (s1 & Hg & Hs1).
  unfold bind at 1. fold now k. rewrite Hg. cbn [rmap_err]. unfold pending_text. fold now k.
  destruct (live now (cells (w_kv (ow_auth w)) k)) as [raw|] eqn:Hl; cbn.
  - unfold bind, attempt, lift. cbn. destruct (kv_del_law now k s1) as (s2 & Hd & Hc & _). fold now. rewrite Hd. cbn.
    destruct (ok_or InvalidState (json_parse raw ≫= pending_of_json)) eqn:Hp; (eexists; split; [reflexivity|split; [done|]]);
      intros d _; change (live (now + d) (cells s2 k) = None); by rewrite Hc.
  - unfold bind, lift. cbn. eexists. split; [reflexivity|]. split; [done|]. intros d Hd. change (live (now + d) (cells s1 k) = None).
    rewrite (Hs1 k (now + d)) by lia. by apply live_later.
Qed.
Lemma spent_kept state w w' : spent state w -> w_now (ow_auth w') = w_now (ow_auth w) -> w_kv (ow_auth w') = w_kv (ow_auth w) -> spent state w'.
Proof using Type. intros Hs Hn Hk d Hd. specialize (Hs d Hd). unfold pending_text in *. cbn in *. by rewrite Hn, Hk. Qed.

Lemma others_update id u f l : NoDup (ma_id <$> l) -> (exists r, r ∈ l /\ ma_id r = id /\ ma_user_id r = u) ->
  (forall r, ma_user_id (f r) = ma_user_id r) -> others u (update_rows id f l) = others u l.
Proof using Type.
  intros Hnd (r & Hr & Hi & Hu) Hf. unfold others, update_rows.
  assert (Hall : forall x, x ∈ l -> ma_id x = id -> ma_user_id x = u).
  { intros x Hx Hxi. rewrite <-Hu. f_equal. apply list_elem_of_lookup in Hr as [i Hlr], Hx as [j Hlx].
    assert (i = j) as ->; [|congruence]. eapply (NoDup_lookup _ i j id Hnd); rewrite list_lookup_fmap.
    - by rewrite Hlr, <-Hi. - by rewrite Hlx, <-Hxi. }
  clear Hr Hnd. induction l as [|x l IH]; [done|]. cbn.
  assert (IHl : forall y, y ∈ l -> ma_id y = id -> ma_user_id y = u) by (intros y Hy; apply Hall; by right).
  specialize (IH IHl). destruct (account_is id x) eqn:Hx; cbn.
  - apply String.eqb_eq in Hx. rewrite Hf, (Hall x) by (first [by left|done]). by rewrite String.eqb_refl.
  - destruct (negb _); [by f_equal|done].
Qed.
Lemma persist_others u email c sv w r w' : NoDup (ma_id <$> ow_rows w) -> persist_oauth_account u email c sv w = (r, w') ->
  others u (ow_rows w') = others u (ow_rows w) /\ w_now (ow_auth w') = w_now (ow_auth w) /\ w_kv (ow_auth w') = w_kv (ow_auth w).
Proof using Type.
  intros Hnd. unfold persist_oauth_account, find_oauth_account, bind, ostmt.
  destruct (w_db_up (ow_auth w)) eqn:Hup; [|by intros [= _ <-]].
  destruct (List.find (oauth_account_of u email) (ow_rows w)) as [row|] eqn:Hf; cbn; rewrite Hup.
  - intros [= _ <-]. cbn. split; [|done]. apply find_some in Hf as [Hin Ho]. apply others_update; [done| |done].
    exists row. unfold oauth_account_of in Ho. apply andb_true_iff in Ho as [[Hu _]%andb_true_iff _].
    apply String.eqb_eq in Hu. split_and!; [by apply list_elem_of_In|done..].
  - intros [= _ <-]. cbn. split; [|done]. unfold others. rewrite List.filter_app. cbn. by rewrite String.eqb_refl, app_nil_r.
Qed.
Lemma write_back_others u rows accounts : Forall2 (spare u) (map account_of rows) accounts ->
  others u (write_back accounts rows) = others u rows /\ ma_id <$> write_back accounts rows = ma_id <$> rows.
Proof using Type.
  unfold others, write_back. revert accounts. induction rows as [|r rows IH]; intros accounts Hf; [by inv Hf|].
  apply Forall2_cons_inv_l in Hf as (a & accounts' & (_ & _ & Hs) & Hf & ->). cbn in Hs |- *.
  destruct (IH _ Hf) as [Ho Hi]. split; [|by rewrite Hi]. rewrite Ho.
  destruct (String.eqb_spec (ma_user_id r) u) as [|Hne]; cbn; [done|]. rewrite (Hs Hne). cbn. by destruct r.
Qed.
Lemma user_key_others {E} (f : CryptoError.t -> E) u w r w' : NoDup (ma_id <$> ow_rows w) ->
  map_err f (on_auth (get_user_dek u)) w = (r, w') ->
  others u (ow_rows w') = others u (ow_rows w) /\ NoDup (ma_id <$> ow_rows w') /\ dek_frame (ow_auth w) (ow_auth w').
Proof using All.
  intros Hnd Hr. apply map_err_inv in Hr as (x & Hx & _).
  pose proof (on_auth_frame _ _ _ _ (get_user_dek_frame u) Hx) as Hf. unfold on_auth in Hx.
  destruct (get_user_dek u (auth_view w)) as [y g] eqn:Hg. injection Hx as _ <-. apply get_user_dek_spares in Hg. cbn in *. destruct (write_back_others u (ow_rows w) (w_accounts g)) as [Ho Hi].
  - apply Hg. cbn. by rewrite list_fmap_compose in Hnd || by rewrite <-list_fmap_compose.
  - rewrite Hi. done.
Qed.
Lemma connect_others p sv t w r w' : NoDup (ma_id <$> ow_rows w) -> connect_account p sv t w = (r, w') ->
  others (po_user_id p) (ow_rows w') = others (po_user_id p) (ow_rows w) /\ w_now (ow_auth w') = w_now (ow_auth w) /\
  w_kv (ow_auth w') = w_kv (ow_auth w).
Proof using All.
  intros Hnd Hr. unfold connect_account in Hr.
  apply bind_inv in Hr as [(e & [= _ <-] & _)|(email & w1 & [= _ <-] & Hr)]; [done|].
  apply bind_inv in Hr as [(e & Hd & _)|(dek & w1 & Hd & Hr)];
    destruct (user_key_others _ _ _ _ _ Hnd Hd) as (Ho & Hnd1 & Hn & Hkv & _); [done|].
  assert (Hk : forall w2, kept w1 w2 -> others (po_user_id p) (ow_rows w2) = others (po_user_id p) (ow_rows w) /\
    w_now (ow_auth w2) = w_now (ow_auth w) /\ w_kv (ow_auth w2) = w_kv (ow_auth w)).
  { intros w2 [(Hn2 & Hkv2 & _) Hrow]. rewrite Hrow. split_and!; congruence. }
  apply bind_inv in Hr as [(e & [= _ <-] & _)|(rt & w2 & [= _ <-] & Hr)]; [by apply Hk|].
  apply bind_inv in Hr as [(e & Hs & _)|(c & w3 & Hs & Hr)]; pose proof (pres_sealing _ _ _ _ _ Hs) as Hk3; [by apply Hk|].
  destruct (Hk w3 Hk3) as (Ho3 & Hn3 & Hkv3). assert (Hnd3 : NoDup (ma_id <$> ow_rows w3)) by by rewrite (proj2 Hk3).
  apply bind_inv in Hr as [(e & Hp & _)|(again & w4 & Hp & [= _ <-])];
    apply (persist_others _ _ _ _ _ _ _ Hnd3) in Hp as (Ho4 & Hn4 & Hkv4); by rewrite Ho4, Hn4, Hkv4.
Qed.
Lemma callback_effect configs accept q w r w' : NoDup (ma_id <$> ow_rows w) -> oauth_callback configs accept q w = (r, w') ->
  match cq_state q ≫= (fun s => pending_of s w) with
  | Some p => others (po_user_id p) (ow_rows w') = others (po_user_id p) (ow_rows w)
  | None => ow_rows w' = ow_rows w
  end /\
  (cq_error q = None -> is_Some (cq_code q) -> forall s, cq_state q = Some s -> spent s w').
Proof using All.
  intros Hnd Hr. unfold oauth_callback in Hr. destruct (cq_error q).
  { injection Hr as _ <-. split; [by destruct (_ ≫= _)|done]. }
  destruct (cq_code q) as [code|]; [|injection Hr as _ <-; split; [by destruct (_ ≫= _)|by intros _ [? ?]]].
  destruct (cq_state q) as [s|]; [|by injection Hr as _ <-]. cbn [ok_or] in Hr.
  apply bind_inv in Hr as [(e & [=] & _)|(c & w0 & [= <- <-] & Hr)].
  apply bind_inv in Hr as [(e & [=] & _)|(s0 & w0 & [= <- <-] & Hr)].
  destruct (take_pending_run s w) as (w1 & Ht & Hrow & Hsp). unfold bind at 1 in Hr. rewrite Ht in Hr. cbn [mbind option_bind].
  destruct (pending_of s w) as [p|]; cbn [ok_or] in Hr; [|injection Hr as _ <-; split; [done|by intros _ _ ? [= <-]]].
  assert (Hk : forall w2, kept w1 w2 -> others (po_user_id p) (ow_rows w2) = others (po_user_id p) (ow_rows w) /\ spent s w2).
  { intros w2 [(Hn & Hkv & _) Hrow2]. rewrite Hrow2, Hrow. split; [done|by eapply spent_kept]. }
  assert (Hend : forall w2, others (po_user_id p) (ow_rows w2) = others (po_user_id p) (ow_rows w) /\ spent s w2 ->
    others (po_user_id p) (ow_rows w2) = others (po_user_id p) (ow_rows w) /\
    (None (A := string) = None -> is_Some (Some code) -> forall s', Some s = Some s' -> spent s' w2)).
  { intros w2 [? ?]. split; [done|by intros _ _ ? [= <-]]. }
  apply Hend. apply bind_inv in Hr as [(e & [= _ <-] & _)|(sv & w2 & [= _ <-] & Hr)]; [by apply Hk|].
  apply bind_inv in Hr as [(e & Hx & _)|(x & w3 & Hx & Hr)]; pose proof (pres_exchange _ _ _ _ _ _ _ Hx) as Hk3; [by apply Hk|].
  destruct x as [t|detail]; [|injection Hr as _ <-; by apply Hk]. destruct (Hk _ Hk3) as [Ho3 Hs3].
  assert (Hnd3 : NoDup (ma_id <$> ow_rows w3)) by by rewrite (proj2 Hk3), Hrow.
  apply bind_inv in Hr as [(e & Hc & _)|(detail & w4 & Hc & [= _ <-])];
    apply (connect_others _ _ _ _ _ _ Hnd3) in Hc as (Ho4 & Hn4 & Hkv4); (split; [by rewrite Ho4|by eapply spent_kept]).
Qed.

(** C19: a state token works once, for the user that started the flow.  Whatever the callback
    answers, it changes account rows only of the user in the pending entry its state names, and
    none when the state names none (unknown, expired or spent).  Once a callback carried a code
    and the state, the state is spent: at any later time, with any code and whoever asks, a
    callback with it is refused as [InvalidState] and changes no account. *)
Theorem oauth_state_works_once configs accept q w r w' :
  NoDup (ma_id <$> ow_rows w) -> oauth_callback configs accept q w = (r, w') ->
  match cq_state q ≫= (fun s => pending_of s w) with
  | Some p => others (po_user_id p) (ow_rows w') = others (po_user_id p) (ow_rows w)
  | None => ow_rows w' = ow_rows w
  end /\
  (cq_error q = None -> is_Some (cq_code q) -> forall s d configs2 accept2 code2, cq_state q = Some s -> 0 <= d ->
     exists w2, oauth_callback configs2 accept2 (mkCallback (Some code2) (Some s) None) (later d w') = (Err InvalidState, w2) /\
       ow_rows w2 = ow_rows w').
Proof using All.
  intros Hnd Hr. destruct (callback_effect _ _ _ _ _ _ Hnd Hr) as [Ho Hs]. split; [exact Ho|].
  intros He Hc s d configs2 accept2 code2 Hst Hd. specialize (Hs He Hc s Hst d Hd).
  unfold oauth_callback. cbn. destruct (take_pending_run s (later d w')) as (w2 & Ht & Hrow & _).
  unfold pending_of in Ht. rewrite Hs in Ht. exists w2. split; [|done].
  unfold bind, lift. cbn. by rewrite Ht.
Qed.
End Flow.

(** ** One refresh at a time *)

(** What the seal and serde promise for a token set. *)
Class TokenJsonLaws `{JsonLib} := tokens_roundtrip t : is_i64 (expires_at t) ->
  utf8_valid (json_text (tokens_json t)) = true /\ json_parse (json_text (tokens_json t)) ≫= tokens_of_json = Some t.

Section Refresh.
Context {K R T : Type} `{KvStore K} `{HasRng R} `{!RngLaws R} `{CryptoLib} `{!CryptoLaws} `{OAuthNet T} `{JsonLib} `{!TokenJsonLaws} `{JobLib}.
Local Abbreviation W := (oauth_world K R T).
Context (account_id dek : string) (imap_host : option string) (configs : OAuthRefreshConfigs).
Implicit Types w : W.

(** A task in [resolve_mail_access_secret], by what it does next. *)
Inductive phase :=
  | Checking (tokens : OAuthTokenSet)       (* holds what it read, perhaps long ago *)
  | Queued (tokens : OAuthTokenSet)         (* waits for the lock of the account *)
  | Rereading (tokens : OAuthTokenSet)      (* has the lock *)
  | Redeeming (tokens : OAuthTokenSet)
  | Saving (tokens : OAuthTokenSet)
  | Finished (r : result MsOAuthError string).
Record sys := mkSys { sy_world : W; sy_lock : option nat; sy_tasks : list phase; sy_log : list (string * string) }.

Definition stored_tokens w : option OAuthTokenSet :=
  blob ← credential_of account_id w; rok (decrypt_oauth_tokens blob dek).
(** Anything around the account: the clock, the network, the random source, other rows. *)
Definition elsewhere w w' : Prop :=
  credential_of account_id w' = credential_of account_id w /\ w_db_up (ow_auth w') = w_db_up (ow_auth w).

(** The refresh token that counts after a reply: the new one, or the old one when it has none. *)
Definition given (tokens : OAuthTokenSet) (r : ExchangedTokens) : string :=
  match ex_refresh_token r with Some t => t | None => refresh_token tokens end.
Inductive refresh_step : sys -> sys -> Prop :=
  | rs_elsewhere w w' l ts log : elsewhere w w' -> refresh_step (mkSys w l ts log) (mkSys w' l ts log)
  | rs_arrive w l ts log tokens : stored_tokens w = Some tokens ->
      refresh_step (mkSys w l ts log) (mkSys w l (ts ++ [Checking tokens]) log)
  | rs_check w l ts log i tokens : ts !! i = Some (Checking tokens) ->
      refresh_step (mkSys w l ts log)
        (mkSys w l (<[i := if near_expiry tokens (now_secs w) then Queued tokens else Finished (Ok (access_token tokens))]> ts) log)
  | rs_lock w ts log i tokens : ts !! i = Some (Queued tokens) ->
      refresh_step (mkSys w None ts log) (mkSys w (Some i) (<[i := Rereading tokens]> ts) log)
  | rs_reuse w w' l ts log i tokens access : ts !! i = Some (Rereading tokens) ->
      recheck account_id dek tokens w = (Ok (inl access), w') ->
      refresh_step (mkSys w l ts log) (mkSys w' None (<[i := Finished (Ok access)]> ts) log)
  | rs_reread w w' l ts log i tokens next : ts !! i = Some (Rereading tokens) ->
      recheck account_id dek tokens w = (Ok (inr next), w') ->
      refresh_step (mkSys w l ts log) (mkSys w' l (<[i := Redeeming next]> ts) log)
  | rs_redeem w w' l ts log i tokens r : ts !! i = Some (Redeeming tokens) ->
      refresh imap_host configs tokens w = (Ok r, w') ->
      refresh_step (mkSys w l ts log)
        (mkSys w' l (<[i := Saving (merged tokens r)]> ts) (log ++ [(refresh_token tokens, given tokens r)])%list)
  | rs_refused w w' l ts log i tokens e : ts !! i = Some (Redeeming tokens) ->
      refresh imap_host configs tokens w = (Err e, w') ->
      refresh_step (mkSys w l ts log) (mkSys w' None (<[i := Finished (Err e)]> ts) log)
  | rs_save w w' l ts log i tokens r : ts !! i = Some (Saving tokens) ->
      persist account_id dek tokens w = (r, w') ->
      refresh_step (mkSys w l ts log) (mkSys w' None (<[i := Finished r]> ts) log).

(** Each redemption uses the token the one before it was given. *)
Fixpoint chained (current : string) (log : list (string * string)) : option string :=
  match log with
  | [] => Some current
  | (used, given) :: rest => if String.eqb used current then chained given rest else None
  end.
Lemma chained_snoc current log a used given : chained current log = Some a ->
  chained current (log ++ [(used, given)])%list = if String.eqb used a then Some given else None.
Proof using Type.
  revert current. induction log as [|[u g] log IH]; intros current; cbn; [by intros [= ->]|].
  destruct (String.eqb u current); [apply IH|done].
Qed.

Definition past_lock (p : phase) : bool := match p with Rereading _ | Redeeming _ | Saving _ => true | _ => false end.
(** The token the provider gave last: the stored one, or the one about to be stored. *)
Definition newest (stored : OAuthTokenSet) (ts : list phase) (l : option nat) : string :=
  match l ≫= (fun i => ts !! i) with Some (Saving t) => refresh_token t | _ => refresh_token stored end.
Definition owned (ts : list phase) (l : option nat) : Prop := forall i p, ts !! i = Some p -> past_lock p = true -> l = Some i.
Definition redeems (stored : OAuthTokenSet) (ts : list phase) : Prop := forall i t, ts !! i = Some (Redeeming t) -> t = stored.
Definition dated (p : phase) : Prop := match p with Saving t => is_i64 (expires_at t) | _ => True end.
Record refreshing (first : string) (s : sys) : Prop := {
  rf_up : w_db_up (ow_auth (sy_world s)) = true;
  rf_owner : owned (sy_tasks s) (sy_lock s);
  rf_dated : Forall dated (sy_tasks s);
  rf_stored : exists stored, stored_tokens (sy_world s) = Some stored /\ redeems stored (sy_tasks s) /\
    chained first (sy_log s) = Some (newest stored (sy_tasks s) (sy_lock s)) }.

Lemma kept_elsewhere w w' : kept w w' -> elsewhere w w'.
Proof using Type. intros [(_ & _ & Hup & _) Hr]. split; [|done]. unfold credential_of. by rewrite Hr. Qed.
Lemma refresh_elsewhere tokens w r w' : refresh imap_host configs tokens w = (r, w') -> elsewhere w w'.
Proof using Type. intros Hr. apply kept_elsewhere. by eapply (pres_refresh imap_host configs). Qed.
Lemma refreshed_dated body w r w' : refreshed_tokens (K := K) (R := R) (T := T) body w = (Ok r, w') -> is_i64 (ex_expires_at r).
Proof using Type.
  unfold refreshed_tokens. intros (_ & w1 & _ & Hr)%bind_Ok. unfold bind, gets, ret in Hr.
  injection Hr as <- _. apply wrap_is_i64.
Qed.
Lemma refresh_dated tokens w r w' : refresh imap_host configs tokens w = (Ok r, w') -> is_i64 (ex_expires_at r).
Proof using Type.
  unfold refresh. intros (p & w1 & _ & Hx)%bind_Ok. destruct p; unfold refresh_with, refresh_microsoft, refresh_yandex in Hx;
    apply bind_Ok in Hx as (b & w3 & _ & Hx); by eapply refreshed_dated.
Qed.

Lemma stored_elsewhere w w' : elsewhere w w' -> stored_tokens w' = stored_tokens w.
Proof using Type. intros [Hc _]. unfold stored_tokens. by rewrite Hc. Qed.
Lemma recheck_run tokens stored w r w' : w_db_up (ow_auth w) = true -> stored_tokens w = Some stored ->
  recheck account_id dek tokens w = (r, w') -> w' = w /\ (r = Ok (inl (access_token stored)) \/ r = Ok (inr stored)).
Proof using Type.
  intros Hup Hst. unfold recheck, bind, attempt, load_credential_blob, ostmt, gets, ret. rewrite Hup. cbn.
  unfold stored_tokens in Hst. destruct (credential_of account_id w) as [b|]; [|done]. cbn in Hst. rewrite Hst.
  destruct (REFRESH_SKEW_SECS <? _); intros [= <- <-]; auto.
Qed.
Lemma credential_update c w : is_Some (credential_of account_id w) ->
  credential_of account_id (set_rows (update_rows account_id (set_account_credential c) (ow_rows w)) w) = Some c.
Proof using Type.
  unfold credential_of. cbn. induction (ow_rows w) as [|r l IH]; cbn; [by intros [? ?]|].
  destruct (account_is account_id r) eqn:Hr; cbn.
  - intros _. unfold account_is in *. cbn. by rewrite Hr.
  - rewrite Hr. apply IH.
Qed.
Lemma persist_stores tokens w r w' : String.length dek = 32%nat -> is_i64 (expires_at tokens) -> w_db_up (ow_auth w) = true -> is_Some (stored_tokens w) ->
  persist account_id dek tokens w = (r, w') ->
  r = Ok (access_token tokens) /\ stored_tokens w' = Some tokens /\ w_db_up (ow_auth w') = true.
Proof using All.
  intros Hd Hi64 Hup [st Hst] Hr. unfold persist, encrypt_oauth_tokens in Hr.
  destruct (encrypt_world dek (json_text (tokens_json tokens)) (auth_view w) Hd) as (enc & g & He & Hdec).
  unfold bind, map_err, on_auth, ret in Hr. rewrite He in Hr. cbn in Hr. rewrite write_back_same in Hr.
  unfold update_account_credential, ostmt in Hr. cbn [ow_auth] in Hr.
  cbn in Hr. rewrite Hup in Hr. injection Hr as <- <-.
  split_and!; [done| |done]. unfold stored_tokens.
  assert (Hc : is_Some (credential_of account_id w)).
  { unfold stored_tokens in Hst. destruct (credential_of account_id w); [by eexists|done]. }
  pose proof (credential_update (cred_to_json enc) (mkOw (set_rng g (auth_view w)) (ow_rows w) (ow_net w) (ow_seq w)) Hc) as Hcred.
  unfold update_rows in Hcred. cbn [ow_rows] in Hcred. rewrite Hcred. cbn. unfold decrypt_oauth_tokens. rewrite Crypto.json_roundtrip, Hdec.
  destruct (tokens_roundtrip tokens Hi64) as [-> Hj]. cbn. by rewrite Hj.
Qed.

Definition saving (p : phase) : bool := match p with Saving _ => true | _ => false end.
Lemma newest_insert stored ts l i p : saving p = false -> (forall old, ts !! i = Some old -> saving old = false) ->
  newest stored (<[i := p]> ts) l = newest stored ts l.
Proof using Type.
  intros Hp Hold. unfold newest. destruct l as [j|]; [|done]. cbn. destruct (decide (i = j)) as [->|Hij].
  - destruct (ts !! j) as [old|] eqn:Hj.
    + rewrite list_lookup_insert_eq by (by eapply lookup_lt_Some). specialize (Hold old eq_refl). by destruct p, old.
    + rewrite list_insert_ge by (by apply lookup_ge_None). by rewrite Hj.
  - by rewrite list_lookup_insert_ne.
Qed.
Lemma newest_app stored ts l t : newest stored (ts ++ [Checking t]) l = newest stored ts l.
Proof using Type.
  unfold newest. destruct l as [j|]; [|done]. cbn. destruct (decide (j < length ts)%nat); [by rewrite lookup_app_l|].
  rewrite lookup_app_r, (lookup_ge_None_2 ts) by lia. by destruct (j - length ts)%nat as [|[|]].
Qed.
Lemma newest_released stored ts i old : ts !! i = Some old -> saving old = false ->
  newest stored ts (Some i) = refresh_token stored.
Proof using Type. unfold newest. cbn. intros ->. by destruct old. Qed.
Lemma owned_insert ts l l' i p : owned ts l -> (past_lock p = true -> l' = Some i) ->
  (forall j, l = Some j -> j <> i -> l' = Some j) -> owned (<[i := p]> ts) l'.
Proof using Type.
  intros Ho Hp Hl j q Hq Hpast. destruct (decide (i = j)) as [<-|Hij].
  - destruct (decide (i < length ts)%nat) as [Hi|Hi].
    + rewrite list_lookup_insert_eq in Hq by done. injection Hq as <-. by apply Hp.
    + rewrite list_insert_ge in Hq by lia. apply lookup_lt_Some in Hq. lia.
  - rewrite list_lookup_insert_ne in Hq by done. by apply Hl; [eapply Ho|].
Qed.
Lemma owned_keep ts l i p : owned ts l -> past_lock p = false -> owned (<[i := p]> ts) l.
Proof using Type.
  intros Ho Hp j q Hq Hpast. destruct (decide (i = j)) as [<-|Hij].
  - destruct (decide (i < length ts)%nat) as [Hi|Hi].
    + rewrite list_lookup_insert_eq in Hq by done. injection Hq as <-. by rewrite Hp in Hpast.
    + rewrite list_insert_ge in Hq by lia. by eapply Ho.
  - rewrite list_lookup_insert_ne in Hq by done. by eapply Ho.
Qed.
Lemma owned_release ts l i old r : owned ts l -> ts !! i = Some old -> past_lock old = true -> owned (<[i := Finished r]> ts) None.
Proof using Type.
  intros Ho Hi Hold. apply (owned_insert ts l None i (Finished r) Ho); [done|].
  intros j Hj Hne. rewrite (Ho i old Hi Hold) in Hj. by injection Hj.
Qed.
Lemma redeems_insert stored ts i p : redeems stored ts -> (forall t, p = Redeeming t -> t = stored) -> redeems stored (<[i := p]> ts).
Proof using Type.
  intros Hr Hp j t Hj. destruct (decide (i = j)) as [<-|Hij].
  - destruct (decide (i < length ts)%nat) as [Hi|Hi].
    + rewrite list_lookup_insert_eq in Hj by done. injection Hj as Hj. by apply Hp.
    + rewrite list_insert_ge in Hj by lia. by eapply Hr.
  - rewrite list_lookup_insert_ne in Hj by done. by eapply Hr.
Qed.

Lemma refresh_step_ok first s s' : String.length dek = 32%nat -> refresh_step s s' -> refreshing first s -> refreshing first s'.
Proof using All.
  intros Hd Hs [Hup Ho Hi64 (st & Hst & Hr & Hc)].
  destruct Hs as [w w' l ts log Hw|w l ts log t Ht|w l ts log i t Hi|w ts log i t Hi|w w' l ts log i t a Hi Hrun
    |w w' l ts log i t n Hi Hrun|w w' l ts log i t n Hi Hrun|w w' l ts log i t e Hi Hrun|w w' l ts log i t r Hi Hrun];
    cbn [sy_world sy_lock sy_tasks sy_log] in *.
  - split; cbn; [by rewrite (proj2 Hw)|done|done|]. exists st. by rewrite (stored_elsewhere w w' Hw).
  - split; cbn; [done| |apply Forall_app; split; [done|by apply List.Forall_cons]|].
    + intros j p Hj Hp. apply lookup_app_Some in Hj as [Hj|[_ Hj]]; [by eapply Ho|].
      apply list_lookup_singleton_Some in Hj as [_ <-]. done.
    + exists st. split_and!; [done| |by rewrite newest_app]. intros j u Hj.
      apply lookup_app_Some in Hj as [Hj|[_ Hj]]; [by eapply Hr|]. by apply list_lookup_singleton_Some in Hj as [_ ?].
  - split; cbn; [done|by apply owned_keep; [|destruct near_expiry]|apply Forall_insert; [done|by destruct near_expiry]|]. exists st.
    split_and!; [done|apply redeems_insert; [done|by destruct near_expiry]|].
    rewrite newest_insert; [done|by destruct near_expiry|]. intros old Hold. rewrite Hi in Hold. by injection Hold as <-.
  - split; cbn; [done|by apply (owned_insert ts None); [| |]|by apply Forall_insert|]. exists st.
    split_and!; [done|by apply redeems_insert|]. rewrite newest_insert; [|done|intros old Hold; rewrite Hi in Hold; by injection Hold as <-].
    by rewrite (newest_released st ts i _ Hi).
  - destruct (recheck_run t st w _ w' Hup Hst Hrun) as [-> _]. pose proof (Ho i _ Hi eq_refl) as ->.
    split; cbn; [done|by eapply owned_release|by apply Forall_insert|]. exists st. split_and!; [done|by apply redeems_insert|].
    by rewrite (newest_released st ts i _ Hi) in Hc.
  - destruct (recheck_run t st w _ w' Hup Hst Hrun) as [-> Hn]. destruct Hn as [Hn|Hn]; [done|]. injection Hn as ->.
    pose proof (Ho i _ Hi eq_refl) as ->. split; cbn; [done|by apply (owned_insert ts (Some i))|by apply Forall_insert|]. exists st.
    split_and!; [done|apply redeems_insert; [done|by intros u [= ->]]|].
    rewrite newest_insert; [done..|]. intros old Hold. rewrite Hi in Hold. by injection Hold as <-.
  - pose proof (refresh_elsewhere _ _ _ _ Hrun) as He. pose proof (Ho i _ Hi eq_refl) as ->.
    rewrite (Hr i t Hi) in *. split; cbn; [by rewrite (proj2 He)|by apply (owned_insert ts (Some i))|apply Forall_insert; [done|by eapply refresh_dated]|]. exists st.
    rewrite (stored_elsewhere w w' He). split_and!; [done|by apply redeems_insert|].
    rewrite (chained_snoc _ _ _ _ _ Hc), (newest_released st ts i _ Hi), String.eqb_refl by done.
    unfold newest. cbn. rewrite list_lookup_insert_eq by (by eapply lookup_lt_Some). cbn. unfold given. by destruct (ex_refresh_token n).
  - pose proof (refresh_elsewhere _ _ _ _ Hrun) as He. pose proof (Ho i _ Hi eq_refl) as ->.
    split; cbn; [by rewrite (proj2 He)|by eapply owned_release|by apply Forall_insert|]. exists st. rewrite (stored_elsewhere w w' He).
    split_and!; [done|by apply redeems_insert|]. by rewrite (newest_released st ts i _ Hi) in Hc.
  - pose proof (proj1 (Forall_lookup dated ts) Hi64 i _ Hi) as Hdt.
    destruct (persist_stores t w r w' Hd Hdt Hup (ex_intro _ st Hst) Hrun) as (_ & Hst' & Hup'). pose proof (Ho i _ Hi eq_refl) as ->.
    split; cbn; [done|by eapply owned_release|by apply Forall_insert|]. exists t. split_and!; [done| |].
    + intros j u Hj. destruct (decide (i = j)) as [<-|Hij].
      { by rewrite list_lookup_insert_eq in Hj by (by eapply lookup_lt_Some). }
      rewrite list_lookup_insert_ne in Hj by done. pose proof (Ho j _ Hj eq_refl) as Hl. by injection Hl.
    + unfold newest in Hc. cbn in Hc. by rewrite Hi in Hc.
Qed.
End Refresh.

(** C18: While the database answers and nobody but these tasks writes the account's
    credential, concurrent refreshes never burn a refresh token.  Whatever tasks resolve the
    secret of the account at once, each from a snapshot as old as it likes, and however their
    steps, the clock and the provider interleave, every redemption uses the token the one before
    it was given (the stored one at first), at most one task is past the lock, and whenever the
    lock is free the stored token set holds the newest token.  When the reread under the lock
    fails the code falls back on the snapshot, and the chain breaks: that run is
    [failed_reread_redeems_stale]. *)
Theorem refresh_tokens_chain {K R T : Type} `{KvStore K} `{HasRng R} `{!RngLaws R} `{CryptoLib} `{!CryptoLaws} `{OAuthNet T}
    `{JsonLib} `{!TokenJsonLaws} `{JobLib} (account_id dek : string) (imap_host : option string) (configs : OAuthRefreshConfigs)
    (w : oauth_world K R T) (stored : OAuthTokenSet) (s : sys) :
  String.length dek = 32%nat -> w_db_up (ow_auth w) = true -> stored_tokens account_id dek w = Some stored ->
  rtc (refresh_step account_id dek imap_host configs) (mkSys w None [] []) s ->
  (exists newest, chained (refresh_token stored) (sy_log s) = Some newest /\
     (sy_lock s = None -> option_map refresh_token (stored_tokens account_id dek (sy_world s)) = Some newest)) /\
  forall i j p q, sy_tasks s !! i = Some p -> sy_tasks s !! j = Some q -> past_lock p = true -> past_lock q = true -> i = j.
Proof.
  intros Hd Hup Hst Hrun. assert (Hinv : refreshing account_id dek (refresh_token stored) s).
  { apply (rtc_ind_r (refreshing account_id dek (refresh_token stored)) (mkSys w None [] [])) with (2 := fun y z _ Hs Hi => refresh_step_ok
      account_id dek imap_host configs _ y z Hd Hs Hi) (3 := Hrun).
    split; cbn; [done|by intros i p Hi; rewrite lookup_nil in Hi|constructor|].
    exists stored. split_and!; [done|by intros i t Hi; rewrite lookup_nil in Hi|done]. }
  destruct Hinv as [_ Ho _ (st & Hs & _ & Hc)]. split.
  - eexists. split; [exact Hc|]. intros Hl. rewrite Hs, Hl. done.
  - intros i j p q Hi Hj Hp Hq. pose proof (Ho i p Hi Hp) as Hl. rewrite (Ho j q Hj Hq) in Hl. by injection Hl.
Qed.

(** ** Witnesses *)

(** A codec for any JSON value: the tree as stdpp encodes it. *)
Fixpoint json_tree (v : Json) : gen_tree string :=
  match v with
  | JNull => GenNode 0 []
  | JBool b => GenNode (if b then 1 else 2) []
  | JNumber t => GenNode 3 [GenLeaf t]
  | JString s => GenNode 4 [GenLeaf s]
  | JArray l => GenNode 5 (map json_tree l)
  | JObject l => GenNode 6 (map (fun '(k, x) => GenNode 0 [GenLeaf k; json_tree x]) l)
  end.
Fixpoint tree_json (t : gen_tree string) : Json :=
  match t with
  | GenNode 1 [] => JBool true
  | GenNode 2 [] => JBool false
  | GenNode 3 [GenLeaf t] => JNumber t
  | GenNode 4 [GenLeaf s] => JString s
  | GenNode 5 l => JArray (map tree_json l)
  | GenNode 6 l => JObject (map (fun x => match x with GenNode _ [GenLeaf k; x] => (k, tree_json x) | _ => (EmptyString, JNull) end) l)
  | _ => JNull
  end.
#[local] Instance tree_codec : JsonLib := {
  json_text v := bits (encode (json_tree v));
  json_parse s := option_map tree_json (decode (unbits s));
}.
Lemma tree_codec_reads v : json_parse (json_text v) = Some (tree_json (json_tree v)).
Proof. cbn. by rewrite unbits_bits, decode_encode. Qed.
Lemma bits_ascii p : sforall (fun a => (byte a <? 128)%N) (bits p) = true.
Proof. by induction p. Qed.
#[local] Instance tree_token_laws : TokenJsonLaws.
Proof.
  intros t Ht. rewrite tree_codec_reads. split; [apply utf8_valid_ascii, bits_ascii|]. destruct t. cbn in *.
  unfold need_i64. cbn. by rewrite parse_show_i64.
Qed.

(** A provider that rotates: the current token is the [n]-th, and using any other one fails. *)
Definition nth_token (n : N) : string := "rt" +:+ show_N n.
Definition granted (n : N) : string :=
  json_text (JObject [("access_token", JString ("at" +:+ show_N n)); ("refresh_token", JString (nth_token n));
                      ("expires_in", JNumber "3600")]).
Definition refused : string := json_text (JObject [("error", JString "invalid_grant")]).
#[local] Instance rotating_provider : OAuthNet N := {
  post_form url form := fun n =>
    if existsb (fun '(k, v) => String.eqb k "refresh_token" && String.eqb v (nth_token n) || String.eqb k "code" && String.eqb v "granted") form
    then (Ok (200, granted (n + 1)), (n + 1)%N) else (Ok (400, refused), n);
  get_authorized url auth := fun n => (Err "unreachable", n);
}.
Definition toy_account (credential : string) : MailAccountRow :=
  mkMailAccount "a1" "u1" None "alice@outlook.com" "imap" "oauth2" credential (Some "outlook.office365.com") (Some 993) (Some "tls") None
    None None None (Some "imap") (Some "smtp") true true no_extras.
Definition toy_configs : OAuthRefreshConfigs := mkConfigs (Some (mkOAuthConfig "id" None "https://lyra/cb" "common")) None.
Definition toy_tokens (n : N) : OAuthTokenSet := mkTokens ("at" +:+ show_N n) (nth_token n) 1000060 "Bearer" "mail".
Definition toy_dek : string := pad_master_key_to_dek "dek".
Definition toy_ow0 : oauth_world MemoryKv.t N N := mkOw (toy_world [] []) [toy_account ""] 0%N 0%N.
Definition sealed_tokens (n : N) : string :=
  match fst (encrypt_oauth_tokens toy_dek (toy_tokens n) toy_ow0) with Ok s => s | Err _ => "" end.
Definition toy_ow (n : N) : oauth_world MemoryKv.t N N := mkOw (toy_world [] []) [toy_account (sealed_tokens n)] 0%N 0%N.
Definition redeemed_world : oauth_world MemoryKv.t N N := snd (redeem (Some "outlook.office365.com") toy_configs (toy_tokens 0) (toy_ow 0)).
Definition redeemed_tokens : OAuthTokenSet := mkTokens "at1" "rt1" 1003600 "Bearer" "mail".
Definition saved_world : oauth_world MemoryKv.t N N := snd (persist "a1" toy_dek redeemed_tokens redeemed_world).
Lemma two_tasks_run :
  rtc (refresh_step "a1" toy_dek (Some "outlook.office365.com") toy_configs) (mkSys (toy_ow 0) None [] [])
    (mkSys saved_world None [Finished (Ok "at1"); Finished (Ok "at1")] [("rt0", "rt1")]).
Proof.
  eapply rtc_l; [apply (rs_arrive _ _ _ _ (toy_ow 0) None [] [] (toy_tokens 0)); vm_compute; reflexivity|].
  eapply rtc_l; [apply (rs_arrive _ _ _ _ _ None _ [] (toy_tokens 0)); vm_compute; reflexivity|].
  eapply rtc_l; [apply (rs_check _ _ _ _ _ None _ [] 0 (toy_tokens 0)); reflexivity|].
  eapply rtc_l; [apply (rs_check _ _ _ _ _ None _ [] 1 (toy_tokens 0)); reflexivity|].
  eapply rtc_l; [apply (rs_lock _ _ _ _ _ _ [] 0 (toy_tokens 0)); reflexivity|].
  eapply rtc_l; [apply (rs_reread _ _ _ _ (toy_ow 0) (toy_ow 0) _ _ [] 0 (toy_tokens 0) (toy_tokens 0)); [reflexivity|vm_compute; reflexivity]|].
  eapply rtc_l; [apply (rs_redeem _ _ _ _ (toy_ow 0) redeemed_world _ _ [] 0 (toy_tokens 0) (mkExchanged "at1" (Some "rt1") 1003600 None None)); [reflexivity|vm_compute; reflexivity]|].
  eapply rtc_l; [apply (rs_save _ _ _ _ redeemed_world saved_world _ _ _ 0 redeemed_tokens (Ok "at1")); [reflexivity|vm_compute; reflexivity]|].
  eapply rtc_l; [apply (rs_lock _ _ _ _ _ _ _ 1 (toy_tokens 0)); reflexivity|].
  eapply rtc_l; [apply (rs_reuse _ _ _ _ saved_world saved_world _ _ _ 1 (toy_tokens 0) "at1"); [reflexivity|vm_compute; reflexivity]|].
  apply rtc_refl.
Qed.
Lemma refresh_tokens_chain_witness :
  exists newest, chained "rt0" [("rt0", "rt1")] = Some newest /\
    option_map refresh_token (stored_tokens "a1" toy_dek saved_world) = Some newest.
Proof.
  destruct (refresh_tokens_chain "a1" toy_dek (Some "outlook.office365.com") toy_configs (toy_ow 0) (toy_tokens 0)
    (mkSys saved_world None [Finished (Ok "at1"); Finished (Ok "at1")] [("rt0", "rt1")]) eq_refl eq_refl) as [(n & Hc & Hs) _].
  - vm_compute. reflexivity.
  - exact two_tasks_run.
  - exists n. split; [exact Hc|exact (Hs eq_refl)].
Defined.

#[local] Instance toy_pkce : PkceLib := { url_safe_b64 s := s; url_safe_b64_decode s := Some s; sha256_digest s := s }.
(** Alice has an account and starts the flow; Bob's account has the same address. *)
Definition flow_world : oauth_world MemoryKv.t N N :=
  mkOw (toy_world [toy_user None None] [])
    [mkMailAccount "b1" "u2" None "alice@outlook.com" "imap" "oauth2" "" None None None None None None None None None true true no_extras; toy_account ""] 0%N 0%N.
Definition started : oauth_world MemoryKv.t N N := snd (oauth_start toy_configs "u1" "Alice@Outlook.com" flow_world).
Definition toy_state : string := repeat_byte 24 "a".
Definition connected : oauth_world MemoryKv.t N N :=
  snd (oauth_callback toy_configs None (mkCallback (Some "granted") (Some toy_state) None) started).
Lemma oauth_state_works_once_witness :
  others "u1" (ow_rows connected) = others "u1" (ow_rows started) /\
  exists w2, oauth_callback toy_configs None (mkCallback (Some "granted") (Some toy_state) None) (later 5 connected) = (Err InvalidState, w2) /\
    ow_rows w2 = ow_rows connected.
Proof.
  assert (Hnd : NoDup (ma_id <$> ow_rows started)) by (apply (bool_decide_unpack _); vm_compute; exact I).
  assert (Hr : oauth_callback toy_configs None (mkCallback (Some "granted") (Some toy_state) None) started =
    (Ok (RedirectTo "/settings?section=accounts&oauth=ok&detail=reconnected"), connected)) by (vm_compute; reflexivity).
  assert (Hp : option_map po_user_id (pending_of toy_state started) = Some "u1") by (vm_compute; reflexivity).
  destruct (oauth_state_works_once _ _ _ _ _ _ Hnd Hr) as [Ho Hs]. cbn [cq_state mbind option_bind] in Ho.
  destruct (pending_of toy_state started) as [p|]; [|done]. injection Hp as Hp. rewrite Hp in Ho.
  split; [exact Ho|]. by apply Hs.
Defined.

(** ** What modelling showed *)

(** An OAuth error response has no [access_token]: [yandex.rs] cannot read it, so the error code
    that [TokenExchangeRejected] carries never reaches the user; [microsoft.rs] reads it. *)
Lemma yandex_errors_unread code description :
  let body := JObject [("error", JString code); ("error_description", JString description)] in
  yandex_response body = None /\ option_map tr_error (microsoft_response body) = Some (Some code).
Proof. by split. Qed.

(** When the re-read under the lock fails, the task goes on with the tokens it queued with: the
    ones another task has redeemed meanwhile. *)
Lemma failed_reread_redeems_stale :
  let down := mkOw (mkWorld (w_now (ow_auth saved_world)) MemoryKv.new 0%N [] [] false ∅ None) (ow_rows saved_world) (ow_net saved_world) 0%N in
  fst (recheck "a1" toy_dek (toy_tokens 0) down) = Ok (inr (toy_tokens 0)) /\
  fst (redeem (Some "outlook.office365.com") toy_configs (toy_tokens 0) down)
    = Err (TokenExchangeRejected "invalid_grant" "invalid_grant: ").
Proof. vm_compute. done. Qed.
