(* ===== verification/Ai.v ===== *)
(** * AI assist: settings, provider client, verdicts ([ai/settings.rs], [store.rs], [client.rs],
      [spam_assist.rs], [calendar.rs], [tools.rs], [mod.rs])

    The parts that need no mailbox: the settings row and the stored conversation, the request
    each provider dialect is sent and the reading of its reply, and the parsers of what a model
    answers.  The provider is the class [LlmNet].  A byte slice of a [str] that is out of range
    or not on a character boundary panics: [AiPanic], which unwinds the task. *)
From S2P Require Import Prelude Crypto Labels Jobs MailStore.
Local Open Scope string_scope.
Local Open Scope Z_scope.

Inductive AiDialect := OpenAiChat | OpenAiResponses | Anthropic.
#[export] Instance AiDialect_eq_dec : EqDecision AiDialect.
Proof. solve_decision. Defined.
Definition ALL_DIALECTS : list AiDialect := [OpenAiChat; OpenAiResponses; Anthropic].
Definition dialect_text (d : AiDialect) : string :=
  match d with OpenAiChat => "openai_chat" | OpenAiResponses => "openai_responses" | Anthropic => "anthropic" end.
Definition dialect_parse (raw : string) : option AiDialect := List.find (fun d => String.eqb (dialect_text d) raw) ALL_DIALECTS.
Definition dialect_path (d : AiDialect) : string :=
  match d with OpenAiChat => "/chat/completions" | OpenAiResponses => "/responses" | Anthropic => "/v1/messages" end.
Inductive SpamMode := Off | Suggest | Auto.
#[export] Instance SpamMode_eq_dec : EqDecision SpamMode.
Proof. solve_decision. Defined.
Definition mode_text (m : SpamMode) : string := match m with Off => "off" | Suggest => "suggest" | Auto => "auto" end.
Definition mode_parse (raw : string) : option SpamMode :=
  if String.eqb raw "off" then Some Off else if String.eqb raw "suggest" then Some Suggest
  else if String.eqb raw "auto" then Some Auto else None.

Record AiFeatures := mkFeatures { fe_draft_reply : bool; fe_assistant : bool; fe_calendar : bool }.
Definition no_features : AiFeatures := mkFeatures false false false.
Record AiSettings := mkAi {
  ai_enabled : bool; ai_dialect : AiDialect; ai_base_url : string; ai_model : string; ai_key_blob : string;
  ai_features : AiFeatures; ai_spam_mode : SpamMode }.
Definition empty_settings : AiSettings := mkAi false OpenAiChat "" "" "" no_features Off.
Definition with_key_blob (blob : string) (s : AiSettings) : AiSettings :=
  mkAi (ai_enabled s) (ai_dialect s) (ai_base_url s) (ai_model s) blob (ai_features s) (ai_spam_mode s).
Definition has_key (s : AiSettings) : bool := negb (is_empty (ai_key_blob s)).
Definition api_key_cipher (s : AiSettings) : option string := if is_empty (ai_key_blob s) then None else Some (ai_key_blob s).

Inductive AiError :=
  | AiNotConfigured | FeatureDisabled | AiTimeout | Unreachable (m : string) | Provider (m : string)
  | AiSettingsInvalid (m : string) | AiSettingsDb (m : string) | AiDb (m : string) | AiCrypto (e : CryptoError.t)
  | AiInvalid (m : string) | AiPanic (at_ : string).

(** [&s[..n]]. *)
Definition slice_to (n : nat) (s : string) : option string :=
  if (n <=? String.length s)%nat && match sdrop n s with String a _ => char_start a | EmptyString => true end
  then Some (stake n s) else None.
(** [reply.find('{')], [reply.rfind('}')] and [&reply[start..=end]]. *)
Fixpoint find_char (c : ascii) (s : string) : option nat :=
  match s with
  | EmptyString => None
  | String a s' => if Ascii.eqb a c then Some 0%nat else option_map S (find_char c s')
  end.
Fixpoint rfind_char (c : ascii) (s : string) : option nat :=
  match s with
  | EmptyString => None
  | String a s' => match rfind_char c s' with Some n => Some (S n) | None => if Ascii.eqb a c then Some 0%nat else None end
  end.
Definition braced (reply : string) : option (option string) :=       (* [Some None]: the slice panics *)
  match find_char "{" reply, rfind_char "}" reply with
  | Some start, Some end_ => Some (if (start <=? S end_)%nat then Some (stake (S end_ - start) (sdrop start reply)) else None)
  | _, _ => None
  end.

(** ** Storage *)

Record AiRow := mkAiRow {
  ar_user : string; ar_enabled : bool; ar_dialect : string; ar_base_url : string; ar_model : string; ar_api_key : string;
  ar_features : string; ar_spam_mode : string }.
Record ChatRow := mkChatRow { cr_id : string; cr_user : string; cr_role : string; cr_content : string; cr_created : string }.
Record ai_tables := mkAiTables { at_settings : list AiRow; at_chat : list ChatRow }.
(** serde on [AiFeatures]: every field defaults to [false]. *)
Class FeaturesLib := { features_text : AiFeatures -> string; features_parse : string -> option AiFeatures }.

Section Store.
Context `{StoreLib} `{FeaturesLib}.
Local Abbreviation W := (mail * ai_tables)%type.

Definition astmt {E A} (down : E) (f : Z -> ai_tables -> A * ai_tables) : io W E A :=
  fun w => match mstmt (fun db => (tt, db)) (fst w) with
           | (Ok _, db) => let '(a, t) := f (ml_now db) (snd w) in (Ok a, (db, t))
           | (Err _, db) => (Err down, (db, snd w))
           end.
Definition ai_row_of (user_id : string) (r : AiRow) : bool := String.eqb (ar_user r) user_id.
Definition settings_of_ai_row (r : AiRow) : AiSettings :=
  mkAi (ar_enabled r) (default OpenAiChat (dialect_parse (ar_dialect r))) (ar_base_url r) (ar_model r) (ar_api_key r)
    (default no_features (features_parse (ar_features r))) (default Off (mode_parse (ar_spam_mode r))).
Definition load_settings (user_id : string) : io W AiError AiSettings :=
  astmt (AiSettingsDb "closed") (fun _ t =>
    (match List.find (ai_row_of user_id) (at_settings t) with Some r => settings_of_ai_row r | None => empty_settings end, t)).
Definition ai_row (user_id : string) (s : AiSettings) : AiRow :=
  mkAiRow user_id (ai_enabled s) (dialect_text (ai_dialect s)) (trim (ai_base_url s)) (trim (ai_model s)) (ai_key_blob s)
    (features_text (ai_features s)) (mode_text (ai_spam_mode s)).
Definition upsert_ai (user_id : string) (s : AiSettings) (l : list AiRow) : list AiRow :=
  if existsb (ai_row_of user_id) l then map (fun r => if ai_row_of user_id r then ai_row user_id s else r) l
  else (l ++ [ai_row user_id s])%list.
Definition save_settings (user_id : string) (s : AiSettings) : io W AiError unit :=
  astmt (AiSettingsDb "closed") (fun _ t => (tt, mkAiTables (upsert_ai user_id s (at_settings t)) (at_chat t))).

Record ChatHistoryEntry := mkEntry { he_role : string; he_content : string; he_created_at : string }.
Definition chat_of (user_id : string) (r : ChatRow) : bool := String.eqb (cr_user r) user_id.
Definition entry_of_row (r : ChatRow) : ChatHistoryEntry :=
  mkEntry (cr_role r) (cr_content r) (smap (fun a => if Ascii.eqb a " " then "T"%char else a) (cr_created r)).
Definition load_history (user_id : string) : io W AiError (list ChatHistoryEntry) :=
  astmt (AiDb "closed") (fun _ t =>
    (map entry_of_row (order_by (fun a b => text_le (cr_created a) (cr_created b)) (List.filter (chat_of user_id) (at_chat t))), t)).
Definition append (user_id role content : string) : io W AiError unit :=
  fun w =>
    let id := store_uuid (ml_seq (fst w)) in
    astmt (AiDb "closed") (fun now t =>
      (tt, mkAiTables (at_settings t) (at_chat t ++ [mkChatRow id user_id role content (sql_now now)])%list))
      (set_seq (N.succ (ml_seq (fst w))) (fst w), snd w).
Definition clear (user_id : string) : io W AiError unit :=
  astmt (AiDb "closed") (fun _ t => (tt, mkAiTables (at_settings t) (List.filter (fun r => negb (chat_of user_id r)) (at_chat t)))).
End Store.

(** ** The provider client *)

Inductive LlmRole := User | Assistant.
Record LlmMessage := mkTurn { lm_role : LlmRole; lm_content : string }.
Record ToolSpec := mkTool { ts_name : string; ts_description : string; ts_parameters : Json }.
Record ToolCall := mkCall { tc_id : string; tc_name : string; tc_arguments : string }.
Definition ToolExchange : Type := list ToolCall * list (string * string).
Inductive LlmTurnReply := Text (s : string) | ToolCalls (l : list ToolCall).
Record LlmClient := mkLlm { lc_dialect : AiDialect; lc_base_url : string; lc_model : string; lc_api_key : string }.

(** reqwest's POST of a JSON body: URL, headers, body; the status and the text. *)
Inductive LlmFailure := TimedOut | Broken (m : string).
Class LlmNet (L : Type) := post_json : string -> list (string * string) -> Json -> io L LlmFailure (Z * string).

Definition MAX_OUTPUT_TOKENS : Z := 1024.
Definition json_num (z : Z) : Json := JNumber (show_Z z).
Definition role_text (r : LlmRole) : string := match r with User => "user" | Assistant => "assistant" end.
Definition role_message (role content : string) : Json := JObject [("role", JString role); ("content", JString content)].
Definition turn_message (m : LlmMessage) : Json := role_message (role_text (lm_role m)) (lm_content m).
Definition with_tools (f : ToolSpec -> Json) (tools : list ToolSpec) (body : list (string * Json)) : Json :=
  JObject (match tools with [] => body | _ => body ++ [("tools", JArray (map f tools))] end)%list.

Definition openai_exchange (ex : ToolExchange) : list Json :=
  JObject [("role", JString "assistant"); ("content", JNull);
           ("tool_calls", JArray (map (fun c => JObject
              [("id", JString (tc_id c)); ("type", JString "function");
               ("function", JObject [("name", JString (tc_name c)); ("arguments", JString (tc_arguments c))])]) (fst ex)))]
  :: map (fun '(id, result) => JObject [("role", JString "tool"); ("tool_call_id", JString id); ("content", JString result)]) (snd ex).
Definition openai_tool (t : ToolSpec) : Json :=
  JObject [("type", JString "function");
           ("function", JObject [("name", JString (ts_name t)); ("description", JString (ts_description t)); ("parameters", ts_parameters t)])].
Definition responses_exchange (ex : ToolExchange) : list Json :=
  (map (fun c => JObject [("type", JString "function_call"); ("call_id", JString (tc_id c)); ("name", JString (tc_name c));
                          ("arguments", JString (tc_arguments c))]) (fst ex)
   ++ map (fun '(id, result) => JObject [("type", JString "function_call_output"); ("call_id", JString id); ("output", JString result)]) (snd ex))%list.
Definition responses_tool (t : ToolSpec) : Json :=
  JObject [("type", JString "function"); ("name", JString (ts_name t)); ("description", JString (ts_description t)); ("parameters", ts_parameters t)].
Definition anthropic_tool (t : ToolSpec) : Json :=
  JObject [("name", JString (ts_name t)); ("description", JString (ts_description t)); ("input_schema", ts_parameters t)].

Section Client.
Context {L : Type} `{LlmNet L} `{JsonLib}.
Local Abbreviation M := (io L AiError).

Definition anthropic_exchange (ex : ToolExchange) : list Json :=
  let uses := map (fun c => JObject [("type", JString "tool_use"); ("id", JString (tc_id c)); ("name", JString (tc_name c));
                                     ("input", default (JObject []) (json_parse (tc_arguments c)))]) (fst ex) in
  let results := map (fun '(id, result) => JObject [("type", JString "tool_result"); ("tool_use_id", JString id);
                                                    ("content", JString result)]) (snd ex) in
  [JObject [("role", JString "assistant"); ("content", JArray uses)]; JObject [("role", JString "user"); ("content", JArray results)]].

Definition is_slash (a : ascii) : bool := Ascii.eqb a "/".
Definition anthropic_headers (api_key : string) : list (string * string) :=
  [("x-api-key", api_key); ("anthropic-version", "2023-06-01")].
(** URL, headers and body of one assistant turn. *)
Definition chat_request (c : LlmClient) (system : string) (history : list LlmMessage) (tools : list ToolSpec)
    (exchanges : list ToolExchange) : string * list (string * string) * Json :=
  let base := drop_while_end is_slash (lc_base_url c) in
  match lc_dialect c with
  | OpenAiChat =>
      let messages := (role_message "system" system :: map turn_message history ++ concat (map openai_exchange exchanges))%list in
      (base +:+ "/chat/completions", [],
       with_tools openai_tool tools [("model", JString (lc_model c)); ("max_tokens", json_num MAX_OUTPUT_TOKENS); ("messages", JArray messages)])
  | OpenAiResponses =>
      let input := (map turn_message history ++ concat (map responses_exchange exchanges))%list in
      (base +:+ "/responses", [],
       with_tools responses_tool tools [("model", JString (lc_model c)); ("max_output_tokens", json_num MAX_OUTPUT_TOKENS);
                                        ("instructions", JString system); ("input", JArray input)])
  | Anthropic =>
      let messages := (map turn_message history ++ concat (map anthropic_exchange exchanges))%list in
      (base +:+ "/v1/messages", anthropic_headers (lc_api_key c),
       with_tools anthropic_tool tools [("model", JString (lc_model c)); ("max_tokens", json_num MAX_OUTPUT_TOKENS);
                                        ("system", JString system); ("messages", JArray messages)])
  end.

(** ** Reading replies *)

Definition json_array (v : Json) : option (list Json) := match v with JArray l => Some l | _ => None end.
Definition json_i64 (v : Json) : option Z := match v with JNumber t => parse_i64 t | _ => None end.
Definition json_bool (v : Json) : option bool := match v with JBool b => Some b | _ => None end.
Definition str_field (key : string) (v : Json) : option string := json_field key v ≫= json_str.
Definition array_field (key : string) (v : Json) : option (list Json) := json_field key v ≫= json_array.
(** [/choices/0/message]. *)
Definition first_message (v : Json) : option Json :=
  choices ← array_field "choices" v; choice ← choices !! 0%nat; json_field "message" choice.
Definition texts (kind : string) (parts : list Json) : string :=
  foldl (fun acc p => if bool_decide (str_field "type" p = Some kind) then acc +:+ default "" (str_field "text" p) else acc) "" parts.
Definition output_texts (items : list Json) : string :=
  foldl (fun acc item => match array_field "content" item with Some parts => acc +:+ texts "output_text" parts | None => acc end) "" items.
Definition parse_chat_completions (v : Json) : option string := first_message v ≫= str_field "content".
Definition parse_responses (v : Json) : option string := out ← array_field "output" v; nonempty (Some (output_texts out)).
Definition parse_anthropic (v : Json) : option string := content ← array_field "content" v; nonempty (Some (texts "text" content)).

Definition chat_call (c : Json) : option ToolCall :=
  function ← json_field "function" c; name ← str_field "name" function;
  Some (mkCall (default "" (str_field "id" c)) name (default "{}" (str_field "arguments" function))).
Definition calls_or (text : string) (calls : list ToolCall) : LlmTurnReply :=
  match calls with [] => Text text | _ => ToolCalls calls end.
Definition parse_chat_tool_turn (v : Json) : LlmTurnReply :=
  match first_message v with
  | None => Text ""
  | Some message =>
      calls_or (default "" (str_field "content" message)) (omap chat_call (default [] (array_field "tool_calls" message)))
  end.
Definition is_function_call (item : Json) : bool := bool_decide (str_field "type" item = Some "function_call").
Definition responses_call (item : Json) : option ToolCall :=
  name ← str_field "name" item; id ← str_field "call_id" item; Some (mkCall id name (default "{}" (str_field "arguments" item))).
Definition parse_responses_tool_turn (v : Json) : LlmTurnReply :=
  match array_field "output" v with
  | None => Text ""
  | Some out =>
      calls_or (output_texts (List.filter (fun i => negb (is_function_call i)) out)) (omap responses_call (List.filter is_function_call out))
  end.
Definition anthropic_call (part : Json) : option ToolCall :=
  if bool_decide (str_field "type" part = Some "tool_use")
  then Some (mkCall (default "" (str_field "id" part)) (default "" (str_field "name" part)) (json_text (default JNull (json_field "input" part))))
  else None.
Definition parse_anthropic_tool_turn (v : Json) : LlmTurnReply :=
  match array_field "content" v with
  | None => Text ""
  | Some content => calls_or (texts "text" content) (omap anthropic_call content)
  end.

(** [truncate] slices bytes. *)
Definition truncate (s : string) (max : nat) : result AiError string :=
  if (String.length s <=? max)%nat then Ok s
  else match slice_to max s with Some t => Ok (t +:+ "…") | None => Err (AiPanic "truncate") end.
Definition auth_headers (api_key : string) (headers : list (string * string)) : list (string * string) :=
  if existsb (fun h => String.eqb (fst h) "x-api-key") headers then headers
  else (("authorization", "Bearer " +:+ api_key) :: headers).
Definition is_success (status : Z) : bool := (200 <=? status) && (status <? 300).
Definition exchange_json (c : LlmClient) (url : string) (headers : list (string * string)) (body : Json) : M Json :=
  let! reply := map_err (fun e => match e with TimedOut => AiTimeout | Broken m => Unreachable m end)
                  (post_json url (auth_headers (lc_api_key c) headers) body) in
  let '(status, text) := reply in
  if negb (is_success status) then
    let! detail := lift (truncate text 300) in throw (Provider ("HTTP " +:+ show_Z status +:+ ": " +:+ detail))
  else lift (ok_or (Provider "non-JSON reply") (json_parse text)).

Definition chat_turn (c : LlmClient) (system : string) (history : list LlmMessage) (tools : list ToolSpec)
    (exchanges : list ToolExchange) : M LlmTurnReply :=
  let '(url, headers, body) := chat_request c system history tools exchanges in
  let! parsed := exchange_json c url headers body in
  let reply := match lc_dialect c with
               | OpenAiChat => parse_chat_tool_turn parsed
               | OpenAiResponses => parse_responses_tool_turn parsed
               | Anthropic => parse_anthropic_tool_turn parsed
               end in
  match reply with
  | Text t => if is_empty (trim t) then throw (Provider "empty reply") else ret reply
  | ToolCalls _ => ret reply
  end.
Definition complete_request (c : LlmClient) (system prompt : string) : list (string * string) * Json :=
  match lc_dialect c with
  | OpenAiChat =>
      ([], JObject [("model", JString (lc_model c)); ("max_tokens", json_num MAX_OUTPUT_TOKENS);
                    ("messages", JArray [role_message "system" system; role_message "user" prompt])])
  | OpenAiResponses =>
      ([], JObject [("model", JString (lc_model c)); ("max_output_tokens", json_num MAX_OUTPUT_TOKENS);
                    ("input", JArray [role_message "system" system; role_message "user" prompt])])
  | Anthropic =>
      (anthropic_headers (lc_api_key c),
       JObject [("model", JString (lc_model c)); ("max_tokens", json_num MAX_OUTPUT_TOKENS); ("system", JString system);
                ("messages", JArray [role_message "user" prompt])])
  end.
Definition complete (c : LlmClient) (system prompt : string) : M string :=
  let '(headers, body) := complete_request c system prompt in
  let! parsed := exchange_json c (lc_base_url c +:+ dialect_path (lc_dialect c)) headers body in
  let reply := match lc_dialect c with
               | OpenAiChat => parse_chat_completions parsed
               | OpenAiResponses => parse_responses parsed
               | Anthropic => parse_anthropic parsed
               end in
  let! reply := lift (ok_or (Provider "reply had no text content") reply) in
  if is_empty (trim reply) then throw (Provider "empty reply") else ret reply.
End Client.

(** ** Settings that can be called *)

Record SettingsView := mkView { vw_dialect : AiDialect; vw_base_url : string; vw_model : string; vw_api_key_cipher : string }.
Definition ready (s : AiSettings) : option SettingsView :=
  if negb (ai_enabled s) || is_empty (trim (ai_base_url s)) || is_empty (trim (ai_model s)) then None else
  cipher ← api_key_cipher s; Some (mkView (ai_dialect s) (trim (ai_base_url s)) (trim (ai_model s)) cipher).
Definition decrypt_key `{CryptoLib} (view : SettingsView) (dek : string) : result AiError string :=
  match cred_of_json (vw_api_key_cipher view) with
  | None => Err (AiInvalid "stored key blob invalid")
  | Some encrypted =>
      match decrypt dek encrypted with
      | Err e => Err (AiCrypto e)
      | Ok plain => if utf8_valid plain then Ok plain else Err (AiInvalid "key not UTF-8")
      end
  end.
Definition new_client (view : SettingsView) (api_key : string) : LlmClient :=
  mkLlm (vw_dialect view) (drop_while_end is_slash (vw_base_url view)) (vw_model view) api_key.

(** ** Prompts

    [dq] is a double quote, [ln] a line feed. *)
Definition dq : string := String (ascii_of_N 34) "".
Definition ln : string := lf.
Definition quoted (s : string) : string := dq +:+ s +:+ dq.

Record SpamVerdict := mkVerdict { sv_is_spam : bool; sv_confidence : Z; sv_reason : string }.
Definition clamp (lo hi z : Z) : Z := Z.max lo (Z.min hi z).

Section Verdicts.
Context `{JsonLib}.
(** The first [{] to the last [}], parsed. *)
Definition braced_json (reply : string) : result AiError (option Json) :=
  match braced reply with
  | None => Ok None
  | Some None => Err (AiPanic "slice")
  | Some (Some text) => Ok (json_parse text)
  end.
Definition verdict_of (v : Json) : option SpamVerdict :=
  is_spam ← json_field "is_spam" v ≫= json_bool;
  Some (mkVerdict is_spam (clamp 0 100 (default 50 (json_field "confidence" v ≫= json_i64))) (default "" (str_field "reason" v))).
Definition parse_spam_verdict (reply : string) : result AiError (option SpamVerdict) :=
  let? v := braced_json reply in Ok (v ≫= verdict_of).
End Verdicts.

Definition spam_prompt (subject from body_head : string) : string :=
  "Classify this email as spam or not." +:+ ln +:+ ln +:+ "From: " +:+ from +:+ ln +:+ "Subject: " +:+ subject +:+ ln +:+ ln
  +:+ "Body (start):" +:+ ln +:+ body_head +:+ ln +:+ ln
  +:+ "Reply with ONLY a JSON object: {" +:+ quoted "is_spam" +:+ ": true|false, " +:+ quoted "confidence" +:+ ": 0-100, "
  +:+ quoted "reason" +:+ ": " +:+ quoted "short, in the email's language" +:+ "}" +:+ ln
  +:+ "Marketing you opted into is NOT spam; transactional mail is NOT spam.".
Definition SPAM_SYSTEM : string := "You are a precise spam classifier. Output only the JSON object.".
Definition auto_judge {L} `{LlmNet L} `{JsonLib} (view : SettingsView) (key subject from body_head : string)
    : io L AiError (option SpamVerdict) :=
  let! reply := complete (new_client view key) SPAM_SYSTEM (spam_prompt subject from body_head) in
  lift (parse_spam_verdict reply).

(** ** Events *)

Record EventSuggestion := mkEvent {
  ev_summary : string; ev_dtstart : string; ev_dtend : option string; ev_is_all_day : bool; ev_location : option string;
  ev_description : option string }.
(** [chrono]: [%Y-%m-%d] and the RFC 3339 reading. *)
Class DateLib := { is_ymd : string -> bool; is_rfc3339 : string -> bool }.

Section Events.
Context `{JsonLib} `{DateLib}.
Definition normalize_dt (raw : string) : option (string * option string) :=
  let raw := trim raw in
  if (String.length raw =? 10)%nat then (if is_ymd raw then Some (raw, None) else None)
  else if is_rfc3339 raw then Some (raw, Some raw)
  else if is_rfc3339 (raw +:+ "Z") then Some (raw +:+ "Z", Some (raw +:+ "Z"))
  else None.
Definition timed (n : string * option string) : bool := bool_decide (is_Some (snd n)).
Definition event_of (v : Json) : option EventSuggestion :=
  summary ← option_map trim (str_field "summary" v);
  if is_empty summary then None else
  raw_start ← str_field "start" v; start ← normalize_dt raw_start;
  dtend ← match str_field "end" v with
          | None => Some None
          | Some raw_end => end_norm ← normalize_dt raw_end;
                            Some (if bool_decide (timed end_norm = timed start) then Some (fst end_norm) else None)
          end;
  Some (mkEvent summary (fst start) dtend (negb (timed start) || default false (json_field "allDay" v ≫= json_bool))
          (str_field "location" v) (str_field "description" v)).
Definition parse_event_suggestion (reply : string) : result AiError (option EventSuggestion) :=
  let? v := braced_json reply in Ok (v ≫= event_of).
End Events.
Definition calendar_prompt (today weekday subject from body : string) : string :=
  "Today is " +:+ weekday +:+ ", " +:+ today +:+ ". Does this email contain a meeting, appointment, or deadline with a date/time? "
  +:+ "If yes, propose a calendar event." +:+ ln +:+ ln +:+ "From: " +:+ from +:+ ln +:+ "Subject: " +:+ subject +:+ ln +:+ ln +:+ body
  +:+ ln +:+ ln +:+ "Reply with ONLY a JSON object: {" +:+ quoted "summary" +:+ ": " +:+ quoted "short title" +:+ ", " +:+ quoted "start"
  +:+ ": " +:+ quoted "RFC3339 with timezone offset, or YYYY-MM-DD for all-day" +:+ ", " +:+ quoted "end" +:+ ": "
  +:+ quoted "same format, optional" +:+ ", " +:+ quoted "allDay" +:+ ": false, " +:+ quoted "location" +:+ ": " +:+ quoted "optional"
  +:+ ", " +:+ quoted "description" +:+ ": " +:+ quoted "optional" +:+ "}. "
  +:+ "If there is no schedulable item, reply exactly: {" +:+ quoted "none" +:+ ": true}.".
Definition CALENDAR_SYSTEM : string := "You extract calendar events from emails. Output only the JSON object.".

(** ** Drafts *)

Definition DRAFT_BODY_CAP : nat := 8192.
(** [&body[..cap]] when it is longer. *)
Definition capped (cap : nat) (body : string) : result AiError string :=
  if (cap <? String.length body)%nat
  then match slice_to cap body with Some s => Ok (s +:+ ln +:+ "…(truncated)") | None => Err (AiPanic "body") end
  else Ok body.
Definition draft_system (mode : string) : string :=
  if String.eqb mode "forward"
  then "You draft a short forwarding note for an email. Output only the note text (no subject line, no signature placeholders), in the original email's language."
  else "You draft a concise, courteous email reply. Output only the reply body text (no subject line, no quotation of the original), in the original email's language.".
Definition draft_prompt (mode from subject body : string) (instruction : option string) : string :=
  let mode_word := if String.eqb mode "forward" then "forward" else "reply" in
  "Draft a " +:+ mode_word +:+ " to the email below." +:+ ln +:+ ln +:+ "From: " +:+ from +:+ ln +:+ "Subject: " +:+ subject
  +:+ ln +:+ ln +:+ body
  +:+ match instruction with
      | Some extra => if is_empty (trim extra) then "" else ln +:+ ln +:+ "Additional instruction from the user: " +:+ trim extra
      | None => ""
      end.

(** ** Tools that only propose *)

Inductive PendingAction := OpenDraft (to subject body : string) | MoveMessage (message_id action : string).
Definition valid_move_action (a : string) : bool := existsb (String.eqb a) ["spam"; "archive"; "trash"; "notSpam"].
Definition error_json (m : string) : Json := JObject [("error", JString m)].
Definition propose_draft (args : Json) : Json * option PendingAction :=
  match str_field "to" args, str_field "subject" args, str_field "body" args with
  | Some to, Some subject, Some body =>
      if negb (is_empty (trim to)) && negb (is_empty (trim subject)) then
        (JObject [("ok", JBool true); ("status", JString "draft ready");
                  ("note", JString "The user must review the draft and send it themselves.")], Some (OpenDraft to subject body))
      else (error_json "to, subject and body are all required", None)
  | _, _, _ => (error_json "to, subject and body are all required", None)
  end.
Definition id_argument (args : Json) : option string := first_of (fun k => str_field k args) ["message_id"; "messageId"; "id"].
Definition propose_move (args : Json) : Json * option PendingAction :=
  let action := default "" (str_field "action" args) in
  match id_argument args with
  | Some message_id =>
      if negb (is_empty message_id) && valid_move_action action then
        (JObject [("ok", JBool true); ("note", JString "Move staged — the user must confirm.")], Some (MoveMessage message_id action))
      else (error_json "message_id and action are required; action must be one of spam, archive, trash, notSpam", None)
  | None => (error_json "message_id and action are required; action must be one of spam, archive, trash, notSpam", None)
  end.
