(* ===== verification/JmapWrite.v ===== *)
(** * JMAP writes ([sync/jmap_client.rs])

    The [Email/set] requests behind flags, labels, moves, copies and deletion.  The keyword
    patch is a raw POST of JSON, read back with JSON pointers; the others go through the crate,
    whose request and per-id answer are operations of the class [JmapWrites]. *)
From S2P Require Import Prelude Labels Jobs Netsec MailStore Jmap.
Local Open Scope string_scope.
Local Open Scope Z_scope.

Class JmapWrites (T : Type) `{JmapWire T} := {
  default_account_id : Handle -> string;
  post_api : string -> string -> Json -> io T string Json;                  (* URL, [Authorization], body *)
  update_mailbox_ids : Handle -> string -> list string -> io T ClientError unit;   (* then [updated(id)] *)
  destroy_id : Handle -> string -> io T ClientError unit;                   (* then [destroyed(id)] *)
}.

(** [serde_json::Value::pointer]. *)
Fixpoint unescape (s : string) : string :=
  match s with
  | EmptyString => EmptyString
  | String a ((String b s') as rest) =>
      if Ascii.eqb a "~" then
        if Ascii.eqb b "1" then String "/" (unescape s')
        else if Ascii.eqb b "0" then String "~" (unescape s')
        else String a (unescape rest)
      else String a (unescape rest)
  | String a EmptyString => String a EmptyString
  end.
Definition pointer_index (t : string) : option nat :=
  if starts_with "+" t || (starts_with "0" t && negb (String.length t =? 1)%nat) then None
  else option_map Z.to_nat (parse_digits t).
Definition pointer_step (v : Json) (token : string) : option Json :=
  match v with
  | JObject _ => json_field (unescape token) v
  | JArray l => pointer_index (unescape token) ≫= fun i => l !! i
  | _ => None
  end.
Definition pointer (path : string) (v : Json) : option Json :=
  if is_empty path then Some v else
  match split_char "/" path with
  | first :: tokens =>
      if is_empty first then foldl (fun o t => o ≫= fun v => pointer_step v t) (Some v) tokens else None
  | [] => None
  end.

Section Writes.
Context {T : Type} `{JmapWrites T} `{UrlLib} `{UrlJoin} `{JmapTime} `{JsonLib}.
Local Abbreviation M := (io T JmapError).

Definition keyword_body (account_id email_id : string) (update : list (string * Json)) : Json :=
  JObject [("using", JArray [JString "urn:ietf:params:jmap:core"; JString "urn:ietf:params:jmap:mail"]);
           ("methodCalls", JArray [JArray [JString "Email/set";
              JObject [("accountId", JString account_id); ("update", JObject [(email_id, JObject update)])]; JString "u"]])].
Definition read_keyword_reply (email_id : string) (payload : Json) : result JmapError unit :=
  let args := default JNull (pointer "/methodResponses/0/1" payload) in
  match pointer ("/notUpdated/" +:+ email_id) args with
  | Some not_updated => Err (JmapInvalid ("Email/set keyword patch rejected: " +:+ json_text not_updated))
  | None =>
      match pointer ("/updated/" +:+ email_id) args with
      | None => Err (JmapInvalid ("Email/set keyword patch: no updated entry for " +:+ email_id +:+ ": " +:+ json_text args))
      | Some _ => Ok tt
      end
  end.
Definition set_email_keywords_full (seam : JmapSeam T) (email_id : string) (is_read is_starred : option bool)
    (label_add label_remove : list string) : M unit :=
  match keywords_update is_read is_starred label_add label_remove with
  | [] => ret tt
  | update =>
      let! sess := gets (session (sm_client seam)) in
      let! payload := map_err JmapHttp (post_api (ss_api_url sess) (sm_auth_header seam)
                        (keyword_body (default_account_id (sm_client seam)) email_id update)) in
      lift (read_keyword_reply email_id payload)
  end.
Definition set_email_keywords (seam : JmapSeam T) (email_id : string) (is_read is_starred : option bool) : M unit :=
  set_email_keywords_full seam email_id is_read is_starred [] [].
Definition set_email_mailboxes (seam : JmapSeam T) (email_id : string) (mailbox_ids : list string) : M unit :=
  match mailbox_ids with
  | [] => throw (JmapInvalid "move requires at least one destination mailbox")
  | _ => client (update_mailbox_ids (sm_client seam) email_id mailbox_ids)
  end.
Definition add_email_mailbox (seam : JmapSeam T) (email_id mailbox_id : string) : M unit :=
  let! got := get_emails seam [email_id] in
  let! email := lift (ok_or (JmapInvalid ("Email/get returned no email for " +:+ email_id)) (head (fst got))) in
  let ids := mailbox_ids_from_json (je_mailbox_ids email) in
  if existsb (fun id => String.eqb id mailbox_id) ids then ret tt
  else set_email_mailboxes seam email_id (ids ++ [mailbox_id])%list.
Definition destroy_email (seam : JmapSeam T) (email_id : string) : M unit := client (destroy_id (sm_client seam) email_id).
End Writes.
