(* ===== verification/Desk.v ===== *)
(** * The mailbox a request works on ([sync/http.rs], [sync/queries.rs])

    The world of the message handlers: accounts and keys ([oauth_world]), the mail tables, the
    spam and AI tables, the columns [spam_verdict] and [is_draft] by message id, the JMAP
    sessions, the job queue, and the re-judge tasks a handler spawned.  One network serves the
    IMAP and JMAP servers, the token endpoints and the model provider.  This file loads a
    message for its owner and connects to its account. *)
From S2P Require Import Prelude Kv Crypto UnlockRing World Toy Session Labels Jobs Netsec MailStore Imap ImapLoop Blobs Jmap JmapLoop.
From S2P Require Import Spam OAuth Ai JmapWrite.
Local Open Scope string_scope.
Local Open Scope Z_scope.

Record desk (K R T : Type) `{JmapWire T} := mkDesk {
  dk_ow : oauth_world K R T;
  dk_mail : mail;
  dk_spam : spam_tables;
  dk_verdicts : gmap string string;
  dk_drafts : gset string;
  dk_ai : ai_tables;
  dk_seams : gmap string (JmapSeam T);
  dk_jobs : jworld;
  dk_spawned : list (string * string * SenderList);
}.
Arguments mkDesk {K R T _}. Arguments dk_ow {K R T _}. Arguments dk_mail {K R T _}. Arguments dk_spam {K R T _}.
Arguments dk_verdicts {K R T _}. Arguments dk_drafts {K R T _}. Arguments dk_ai {K R T _}. Arguments dk_seams {K R T _}.
Arguments dk_jobs {K R T _}. Arguments dk_spawned {K R T _}.

(** [queries::MessageRow]: a row with what the joins add. *)
Record LoadedRow := mkLoaded {
  lr_msg : MessageRow; lr_folder_name : string; lr_folder_role : option string; lr_protocol : string; lr_is_draft : bool }.
(** [COALESCE(role_override, role)]. *)
Definition coalesced_role (f : FolderRow) : option string := or_else (f_role_override f) (f_role f).

(** The [Display] of an OAuth error. *)
Definition oauth_error_text (e : MsOAuthError) : string :=
  match e with
  | NotConfigured => "Microsoft OAuth is not configured on this server"
  | UnknownProvider p => "OAuth provider not supported: " +:+ p
  | ProviderNotConfigured p => "OAuth provider is not configured on this server: " +:+ p
  | InvalidState => "invalid OAuth state"
  | TokenExchange m => "token exchange failed: " +:+ m
  | TokenExchangeRejected code m => "token exchange rejected (" +:+ code +:+ "): " +:+ m
  | MissingEmailParam => "mailbox email is required to start OAuth"
  | MissingEmail => "missing email in OAuth profile"
  | CredentialDecrypt => "stored mail credential could not be decrypted"
  | OAuthInternal m => m
  end.

Section Desk.
Context {K R T : Type} `{HasRng R} `{CryptoLib} `{OAuthNet T} `{JmapWrites T} `{ImapSession T} `{MimeLib} `{UrlLib} `{UrlJoin}
  `{JmapTime} `{StoreLib} `{JsonLib} `{JobLib}.
Local Abbreviation W := (desk K R T).
Local Abbreviation M := (io W SyncError).
Implicit Types w : W.

Definition set_ow o w : W :=
  mkDesk o (dk_mail w) (dk_spam w) (dk_verdicts w) (dk_drafts w) (dk_ai w) (dk_seams w) (dk_jobs w) (dk_spawned w).
Definition set_mail db w : W :=
  mkDesk (dk_ow w) db (dk_spam w) (dk_verdicts w) (dk_drafts w) (dk_ai w) (dk_seams w) (dk_jobs w) (dk_spawned w).
Definition set_spam t w : W :=
  mkDesk (dk_ow w) (dk_mail w) t (dk_verdicts w) (dk_drafts w) (dk_ai w) (dk_seams w) (dk_jobs w) (dk_spawned w).
Definition set_verdicts v w : W :=
  mkDesk (dk_ow w) (dk_mail w) (dk_spam w) v (dk_drafts w) (dk_ai w) (dk_seams w) (dk_jobs w) (dk_spawned w).
Definition set_drafts d w : W :=
  mkDesk (dk_ow w) (dk_mail w) (dk_spam w) (dk_verdicts w) d (dk_ai w) (dk_seams w) (dk_jobs w) (dk_spawned w).
Definition set_ai t w : W :=
  mkDesk (dk_ow w) (dk_mail w) (dk_spam w) (dk_verdicts w) (dk_drafts w) t (dk_seams w) (dk_jobs w) (dk_spawned w).
Definition set_seams c w : W :=
  mkDesk (dk_ow w) (dk_mail w) (dk_spam w) (dk_verdicts w) (dk_drafts w) (dk_ai w) c (dk_jobs w) (dk_spawned w).
Definition set_jobs j w : W :=
  mkDesk (dk_ow w) (dk_mail w) (dk_spam w) (dk_verdicts w) (dk_drafts w) (dk_ai w) (dk_seams w) j (dk_spawned w).
Definition set_spawned l w : W :=
  mkDesk (dk_ow w) (dk_mail w) (dk_spam w) (dk_verdicts w) (dk_drafts w) (dk_ai w) (dk_seams w) (dk_jobs w) l.
Definition set_net n w : W := set_ow (mkOw (ow_auth (dk_ow w)) (ow_rows (dk_ow w)) n (ow_seq (dk_ow w))) w.
Definition accounts w : list MailAccountRow := ow_rows (dk_ow w).
Definition net w : T := ow_net (dk_ow w).

Definition on_ow {E A} (m : io (oauth_world K R T) E A) : io W E A := fun w => let '(r, o) := m (dk_ow w) in (r, set_ow o w).
Definition on_mail {E A} (m : io mail E A) : io W E A := fun w => let '(r, db) := m (dk_mail w) in (r, set_mail db w).
Definition on_spam {E A} (m : io (mail * spam_tables) E A) : io W E A :=
  fun w => let '(r, (db, t)) := m (dk_mail w, dk_spam w) in (r, set_spam t (set_mail db w)).
Definition on_ai {E A} (m : io (mail * ai_tables) E A) : io W E A :=
  fun w => let '(r, (db, t)) := m (dk_mail w, dk_ai w) in (r, set_ai t (set_mail db w)).
Definition on_net {E A} (m : io T E A) : io W E A := fun w => let '(r, n) := m (net w) in (r, set_net n w).
Definition on_seams {E A} (m : io (gmap string (JmapSeam T) * T) E A) : io W E A :=
  fun w => let '(r, (c, n)) := m (dk_seams w, net w) in (r, set_net n (set_seams c w)).
(** One statement of the mail database. *)
Definition stmt {A} (f : W -> A * W) : M A :=
  fun w => match mstmt (fun db => (tt, db)) (dk_mail w) with
           | (Ok _, db) => let '(a, w') := f (set_mail db w) in (Ok a, w')
           | (Err e, db) => (Err e, set_mail db w)
           end.
Definition now w : string := sql_now (ml_now (dk_mail w)).

(** ** [load_message_row] *)

Definition owned_account (user_id account_id : string) (r : MailAccountRow) : bool :=
  account_is account_id r && String.eqb (ma_user_id r) user_id.
Definition joined_row (user_id : string) w (m : MessageRow) : option LoadedRow :=
  a ← List.find (owned_account user_id (m_account m)) (accounts w);
  f ← List.find (folder_by_id (m_folder m)) (ml_folders (dk_mail w));
  Some (mkLoaded m (f_external f) (coalesced_role f) (ma_protocol a) (bool_decide (m_id m ∈ dk_drafts w))).
Definition has_id (id : string) (m : MessageRow) : bool := String.eqb (m_id m) id.
Definition live_id (id : string) (m : MessageRow) : bool := has_id id m && negb (m_deleted m).
Definition load_message_row (user_id message_id : string) : M LoadedRow :=
  let! row := stmt (fun w => (List.find (live_id message_id) (ml_messages (dk_mail w)) ≫= joined_row user_id w, w)) in
  lift (ok_or MessageNotFound row).

(** ** Connections *)

Definition dek_and_credential (user_id account_id : string) : M (string * string) :=
  map_err (fun e => CryptoE (crypto_error_text e)) (on_ow (on_auth (get_user_dek_and_credential user_id account_id))).
Definition active_account (user_id account_id : string) : M MailAccountRow :=
  let! row := stmt (fun w => (List.find (fun r => owned_account user_id account_id r && ma_is_active r) (accounts w), w)) in
  lift (ok_or AccountNotFound row).
Definition imap_security (r : MailAccountRow) : result SyncError ImapSecurity :=
  match ma_imap_security r with
  | Some s => let? mode := rmap_err InvalidInput (normalize_security_mode s) in Ok (if String.eqb mode "starttls" then Starttls else Tls)
  | None => Ok Tls
  end.
Definition imap_port (r : MailAccountRow) : Z := default 993 (Prelude.bounded 0 65535 (Some (default 993 (ma_imap_port r)))).
Definition secret_error (e : MsOAuthError) : SyncError :=
  if is_credential_decrypt e then CryptoE (oauth_error_text e) else ProtocolE (oauth_error_text e).
Definition connect_imap_for_account (configs : OAuthRefreshConfigs) (user_id account_id : string) : M (ImapClient T) :=
  let! opened := dek_and_credential user_id account_id in
  let '(dek, credential_json) := opened in
  let! row := active_account user_id account_id in
  if negb (String.eqb (ma_protocol row) "imap") then throw (InvalidInput "remote flag/move ops require an IMAP account in v1") else
  let! host := lift (ok_or (InvalidInput "IMAP host not configured") (ma_imap_host row)) in
  let! security := lift (imap_security row) in
  let! secret := map_err secret_error
    (on_ow (resolve_mail_access_secret account_id (ma_auth_type row) credential_json dek (Some host) configs)) in
  fun w =>
    match Imap.connect (mkConfig host (imap_port row) security (ma_email_address row) (secret_text secret) (is_xoauth2 secret)) (net w) with
    | (Ok c, n) => (Ok c, set_net n w)
    | (Err e, n) => (Err (Imap e), set_net n w)
    end.
(** A client is used and dropped. *)
Definition with_imap {A} (configs : OAuthRefreshConfigs) (user_id account_id : string) (m : io (ImapClient T) ImapError A) : M A :=
  let! c := connect_imap_for_account configs user_id account_id in
  fun w => let '(r, c') := m c in (rmap_err Imap r, set_net (cl_session c') w).

Definition connect_jmap_for_account (user_id account_id : string) : M (JmapSeam T) :=
  let! opened := dek_and_credential user_id account_id in
  let '(dek, credential_json) := opened in
  let! row := active_account user_id account_id in
  let! base_url := lift (ok_or (InvalidInput "JMAP base URL not configured") (ma_jmap_base_url row)) in
  let! password := lift (rmap_err Jmap (decrypt_account_password credential_json dek)) in
  map_err Jmap (on_seams (connect_for_account account_id base_url (ma_email_address row) password (ma_auth_type row))).
(** A call on the cached session: an authentication error drops the session. *)
Definition jmap_call {A} (account_id : string) (m : io T JmapError A) : M A :=
  let! r := attempt (on_net m) in
  match r with
  | Ok a => ret a
  | Err e =>
      let! _ := when (is_auth e) (modify (fun w => set_seams (evict account_id (dk_seams w)) w)) in
      throw (Jmap e)
  end.
End Desk.
