(* ===== verification/Actions.v ===== *)
(** * Message and folder actions ([sync/http.rs])

    Flags and labels, moves, copies, snooze, discarded drafts, the spam buttons and the role of a
    folder.  A move talks to the mail server first and then rewrites the row; the spam buttons
    also edit the sender lists, and a learned sender is re-judged by a task of its own:
    [dk_spawned] lists the tasks, [run_rejudges] runs them. *)
From S2P Require Import Prelude Kv Crypto UnlockRing World Toy Session Labels Jobs Netsec MailStore Imap ImapLoop Blobs Jmap JmapLoop.
From S2P Require Import Spam OAuth Ai JmapWrite Desk.
Local Open Scope string_scope.
Local Open Scope Z_scope.

(** ** Row updates *)

Definition with_flags (is_read is_starred : bool) (stamp : string) (m : MessageRow) : MessageRow :=
  mkMessage (m_id m) (m_account m) (m_folder m) (m_external m) (m_message_id m) (m_subject m) (m_from m)
    (m_to m) (m_cc m) (m_date m) is_read is_starred (m_deleted m) (m_flags m) (m_labels m) (m_size m)
    (m_in_reply_to m) (m_references m) (m_mailer m) (m_snippet m) (m_has_attachments m) (m_body_text m)
    (m_body_html m) (m_jmap_thread m) (m_snoozed_until m) (m_raw_blob m) stamp.
Definition with_labels (labels : option string) (m : MessageRow) : MessageRow :=
  mkMessage (m_id m) (m_account m) (m_folder m) (m_external m) (m_message_id m) (m_subject m) (m_from m)
    (m_to m) (m_cc m) (m_date m) (m_read m) (m_starred m) (m_deleted m) (m_flags m) labels (m_size m)
    (m_in_reply_to m) (m_references m) (m_mailer m) (m_snippet m) (m_has_attachments m) (m_body_text m)
    (m_body_html m) (m_jmap_thread m) (m_snoozed_until m) (m_raw_blob m) (m_updated_at m).
Definition touched (stamp : string) (m : MessageRow) : MessageRow := with_flags (m_read m) (m_starred m) stamp m.
Definition in_folder (folder_id stamp : string) (m : MessageRow) : MessageRow :=
  mkMessage (m_id m) (m_account m) folder_id (m_external m) (m_message_id m) (m_subject m) (m_from m)
    (m_to m) (m_cc m) (m_date m) (m_read m) (m_starred m) (m_deleted m) (m_flags m) (m_labels m) (m_size m)
    (m_in_reply_to m) (m_references m) (m_mailer m) (m_snippet m) (m_has_attachments m) (m_body_text m)
    (m_body_html m) (m_jmap_thread m) (m_snoozed_until m) (m_raw_blob m) stamp.
Definition snoozed (until stamp : string) (m : MessageRow) : MessageRow :=
  mkMessage (m_id m) (m_account m) (m_folder m) (m_external m) (m_message_id m) (m_subject m) (m_from m)
    (m_to m) (m_cc m) (m_date m) (m_read m) (m_starred m) (m_deleted m) (m_flags m) (m_labels m) (m_size m)
    (m_in_reply_to m) (m_references m) (m_mailer m) (m_snippet m) (m_has_attachments m) (m_body_text m)
    (m_body_html m) (m_jmap_thread m) (Some until) (m_raw_blob m) stamp.
Definition set_role_override (role : option string) (stamp : string) (r : FolderRow) : FolderRow :=
  mkFolder (f_id r) (f_account r) (f_external r) (f_name r) (f_parent r) (f_role r) role (f_sort r)
    (f_total r) (f_unread r) (f_created_at r) stamp.

Record PatchMessageRequest := mkPatch {
  pa_is_read : option bool; pa_is_starred : option bool; pa_labels : option (list string) }.
Record RoleFolder := mkRole { rf_id : string; rf_external : option string; rf_name : string }.
Record PatchFolderRequest := mkPatchFolder { pf_role_override : option string; pf_clear : bool }.
Definition OVERRIDE_ROLES : list string := ["inbox"; "sent"; "drafts"; "trash"; "spam"; "archive"].
Definition REJUDGE_MOVE_CAP : nat := 25.
Definition REJUDGE_SCAN_LIMIT : nat := 500.

(** [imap::imap_quoted], [role_to_specialuse]. *)
Fixpoint quoted_chars (s : string) : string :=
  match s with
  | EmptyString => EmptyString
  | String a s' =>
      if Ascii.eqb a "\" || Ascii.eqb a (ascii_of_N 34) then String "\" (String a (quoted_chars s')) else String a (quoted_chars s')
  end.
Definition imap_quoted (s : string) : string := dq +:+ quoted_chars s +:+ dq.
Definition role_to_specialuse (role : string) : option string :=
  if String.eqb role "sent" then Some "\Sent" else if String.eqb role "drafts" then Some "\Drafts"
  else if String.eqb role "trash" then Some "\Trash" else if String.eqb role "spam" then Some "\Junk"
  else if String.eqb role "archive" then Some "\Archive" else None.
(** [run_command_and_check_ok] of the IMAP crate. *)
Class ImapCommands (T : Type) := run_command : string -> io T ImapError unit.

(** What a scan of a role's folders reads of a message. *)
Record SpamCandidate := mkCandidate {
  ca_id : string; ca_from_email : option string; ca_from_name : option string; ca_subject : option string;
  ca_date : option string; ca_verdict : option string; ca_body_head : option string }.

Definition ok_reply (fields : list (string * string)) : Json :=
  JObject (("status", JString "ok") :: map (fun '(k, v) => (k, JString v)) fields).
Definition no_server_id : SyncError := InvalidInput "JMAP message has no server id".
Definition unsupported (protocol : string) : SyncError := InvalidInput ("unsupported receive protocol: " +:+ protocol).

(** serde on [Vec<String>]. *)
Definition json_strings `{JsonLib} (text : string) : option (list string) :=
  match json_parse text with Some (JArray l) => mapM json_str l | _ => None end.
Definition label_patch_plan `{JsonLib} (row_labels_json : option string) (body_labels : option (list string))
    : list string * option (list string) :=
  (default [] (row_labels_json ≫= json_strings), option_map sanitize_labels body_labels).

Section Actions.
Context {K R T : Type} `{HasRng R} `{CryptoLib} `{OAuthNet T} `{JmapWrites T} `{ImapSession T} `{MimeLib} `{UrlLib} `{UrlJoin}
  `{JmapTime} `{StoreLib} `{JsonLib} `{JobLib}.
Context (configs : OAuthRefreshConfigs).
Local Abbreviation W := (desk K R T).
Local Abbreviation M := (io W SyncError).
Implicit Types w : W.

Definition edit_message (id : string) (f : string -> MessageRow -> MessageRow) : M unit :=
  stmt (fun w => (tt, set_mail (set_messages (update_messages (has_id id) (f (now w)) (ml_messages (dk_mail w))) (dk_mail w)) w)).
Definition counts (folder_id : string) : M unit := on_mail (update_folder_counts folder_id).
Definition set_spam_verdict (message_id verdict : string) : M unit :=
  stmt (fun w =>
    let db := set_messages (update_messages (has_id message_id) (touched (now w)) (ml_messages (dk_mail w))) (dk_mail w) in
    (tt, set_mail db (if existsb (has_id message_id) (ml_messages (dk_mail w))
                      then set_verdicts (<[message_id := verdict]> (dk_verdicts w)) w else w))).
Definition soft_delete_message_row (message_id : string) : M unit :=
  edit_message message_id (fun stamp m => touched stamp (soft_delete m)).

(** ** Flags and labels *)

Definition best_effort {E A} (m : io (ImapClient T) E A) : io (ImapClient T) E unit := let! _ := attempt (E := E) (F := E) m in ret tt.
Fixpoint each {V E A} (f : A -> io V E unit) (l : list A) : io V E unit :=
  match l with [] => ret tt | x :: l' => let! _ := f x in each f l' end.
Definition store_flag (uid : Z) (flag : string) (wanted : option bool) (current : bool) : io (ImapClient T) ImapError unit :=
  match wanted with
  | Some b => if b && negb current then add_flags uid [flag] else if negb b && current then remove_flags uid [flag] else ret tt
  | None => ret tt
  end.
Definition patch_imap (user_id : string) (row : LoadedRow) (body : PatchMessageRequest) (row_labels : list string)
    (next_labels : option (list string)) : M unit :=
  let! uid := lift (parse_imap_uid (m_external (lr_msg row))) in
  with_imap configs user_id (m_account (lr_msg row)) (
    let! _ := Imap.select (lr_folder_name row) in
    let! _ := store_flag uid "\Seen" (pa_is_read body) (m_read (lr_msg row)) in
    let! _ := store_flag uid "\Flagged" (pa_is_starred body) (m_starred (lr_msg row)) in
    match next_labels with
    | None => ret tt
    | Some next =>
        let diff := label_diff row_labels next in
        let! _ := each (fun keyword => best_effort (add_flags uid [keyword])) (fst diff) in
        each (fun keyword => best_effort (remove_flags uid [keyword])) (snd diff)
    end).
Definition patch_jmap (user_id : string) (row : LoadedRow) (body : PatchMessageRequest) (row_labels : list string)
    (next_labels : option (list string)) : M unit :=
  let! email_id := lift (ok_or no_server_id (m_external (lr_msg row))) in
  let! seam := connect_jmap_for_account user_id (m_account (lr_msg row)) in
  let! _ := jmap_call (m_account (lr_msg row)) (set_email_keywords seam email_id (pa_is_read body) (pa_is_starred body)) in
  match next_labels with
  | None => ret tt
  | Some next =>
      let diff := label_diff row_labels next in
      let! _ := attempt (E := SyncError) (F := SyncError)
                  (jmap_call (m_account (lr_msg row)) (set_email_keywords_full seam email_id None None (fst diff) (snd diff))) in
      ret tt
  end.
Definition patched (next_read next_star : bool) (next_labels : option (list string)) (stamp : string) (m : MessageRow) : MessageRow :=
  let m := with_flags next_read next_star stamp m in
  match next_labels with Some next => with_labels (labels_json next) m | None => m end.
(** The row as patched; rendering it is not modelled. *)
Definition patch_message (user_id message_id : string) (body : PatchMessageRequest) : M LoadedRow :=
  let! row := load_message_row user_id message_id in
  let m := lr_msg row in
  if negb (bool_decide (is_Some (pa_is_read body))) && negb (bool_decide (is_Some (pa_is_starred body)))
     && negb (bool_decide (is_Some (pa_labels body)))
  then throw (InvalidInput "provide isRead, isStarred, and/or labels") else
  let plan := label_patch_plan (m_labels m) (pa_labels body) in
  let next_read := default (m_read m) (pa_is_read body) in
  let next_star := default (m_starred m) (pa_is_starred body) in
  let flags := bool_decide (is_Some (pa_is_read body)) || bool_decide (is_Some (pa_is_starred body)) in
  let! _ := (if String.eqb (lr_protocol row) "imap" && flags then patch_imap user_id row body (fst plan) (snd plan)
             else if String.eqb (lr_protocol row) "jmap" && flags then patch_jmap user_id row body (fst plan) (snd plan)
             else ret tt) in
  let! _ := edit_message (m_id m) (patched next_read next_star (snd plan)) in
  let! _ := counts (m_folder m) in
  ret (mkLoaded (patched next_read next_star (snd plan) (m_updated_at m) m) (lr_folder_name row) (lr_folder_role row)
         (lr_protocol row) (lr_is_draft row)).

(** ** Moves *)

(** [COALESCE(role_override, role) = role], lowest sort order first. *)
Definition role_of_account (account_id role : string) (f : FolderRow) : bool :=
  String.eqb (f_account f) account_id && bool_decide (coalesced_role f = Some role).
Definition role_folder (account_id role : string) : M (option RoleFolder) :=
  stmt (fun w =>
    (option_map (fun f => mkRole (f_id f) (Some (f_external f)) (f_name f))
       (head (order_by (fun a b => f_sort a <=? f_sort b) (List.filter (role_of_account account_id role) (ml_folders (dk_mail w))))), w)).
Definition role_folder_for_account (account_id role : string) : M RoleFolder :=
  let! dest := role_folder account_id role in
  lift (ok_or (InvalidInput ("account has no " +:+ role +:+ " folder")) dest).
Definition dest_name (d : RoleFolder) : string := default (rf_name d) (rf_external d).

Definition apply_message_move (user_id : string) (row : LoadedRow) (dest_id : string) (dest_external : option string)
    (dest_name : string) : M unit :=
  let m := lr_msg row in
  let! _ := (if String.eqb (lr_protocol row) "imap" then
               let! uid := lift (parse_imap_uid (m_external m)) in
               with_imap configs user_id (m_account m) (let! _ := Imap.select (lr_folder_name row) in move_uid uid dest_name)
             else if String.eqb (lr_protocol row) "jmap" then
               let! email_id := lift (ok_or no_server_id (m_external m)) in
               let! mailbox_id := lift (ok_or (InvalidInput "JMAP target folder has no server id") dest_external) in
               let! seam := connect_jmap_for_account user_id (m_account m) in
               jmap_call (m_account m) (set_email_mailboxes seam email_id [mailbox_id])
             else throw (unsupported (lr_protocol row))) in
  let! _ := edit_message (m_id m) (in_folder dest_id) in
  let! _ := counts (m_folder m) in
  counts dest_id.
Definition apply_message_copy (user_id : string) (row : LoadedRow) (dest_external : option string) (dest_name : string) : M unit :=
  let m := lr_msg row in
  if String.eqb (lr_protocol row) "imap" then
    let! uid := lift (parse_imap_uid (m_external m)) in
    with_imap configs user_id (m_account m) (let! _ := Imap.select (lr_folder_name row) in copy_uid uid dest_name)
  else if String.eqb (lr_protocol row) "jmap" then
    let! email_id := lift (ok_or no_server_id (m_external m)) in
    let! mailbox_id := lift (ok_or (InvalidInput "JMAP target folder has no server id") dest_external) in
    let! seam := connect_jmap_for_account user_id (m_account m) in
    jmap_call (m_account m) (add_email_mailbox seam email_id mailbox_id)
  else throw (unsupported (lr_protocol row)).

(** The tail of [tokio::spawn]: the edit is queued, to run on its own. *)
Definition learn_and_rejudge (user_id email : string) (block : bool) : M bool :=
  let! learned := on_spam (learn_sender user_id email block) in
  let! _ := when learned (modify (fun w =>
              set_spawned (dk_spawned w ++ [(user_id, email, if block then Blocked else Allowed)])%list w)) in
  ret learned.
Definition sender_of (row : LoadedRow) : option string := from_json_email (m_from (lr_msg row)).
Definition is_role (role : string) (o : option string) : bool := bool_decide (o = Some role).
Definition apply_user_move (user_id : string) (row : LoadedRow) (dest : RoleFolder) (dest_role : option string) : M unit :=
  let leaves := is_role "spam" (lr_folder_role row)
                && match dest_role with Some r => negb (String.eqb r "spam") | None => false end
                && negb (lr_is_draft row) in
  let! _ := match (if leaves then sender_of row else None) with
            | Some from => learn_and_rejudge user_id from false
            | None => ret false
            end in
  apply_message_move user_id row (rf_id dest) (rf_external dest) (dest_name dest).

Definition move_message_to_role (message_id user_id role : string) : M Json :=
  let! row := load_message_row user_id message_id in
  let! dest := role_folder (m_account (lr_msg row)) role in
  match dest with
  | None =>
      let! _ := soft_delete_message_row (m_id (lr_msg row)) in
      let! _ := counts (m_folder (lr_msg row)) in
      ret (ok_reply [("action", "soft_delete"); ("role", role)])
  | Some dest =>
      let! _ := apply_user_move user_id row dest (Some role) in
      ret (ok_reply [("action", "moved"); ("role", role); ("folderId", rf_id dest)])
  end.
Definition trash_message (user_id message_id : string) : M Json := move_message_to_role message_id user_id "trash".
Definition archive_message (user_id message_id : string) : M Json := move_message_to_role message_id user_id "archive".

Definition folder_row (folder_id : string) : M (option FolderRow) :=
  stmt (fun w => (List.find (folder_by_id folder_id) (ml_folders (dk_mail w)), w)).
(** The two checks [move_message] and [copy_message] share; [None] is the no-op. *)
Definition chosen_folder (message : string) (row : LoadedRow) (folder_id : string) : M (option FolderRow) :=
  let! dest := folder_row folder_id in
  let! dest := lift (ok_or MessageNotFound dest) in
  if negb (String.eqb (f_account dest) (m_account (lr_msg row))) then throw (InvalidInput message)
  else ret (if String.eqb (f_id dest) (m_folder (lr_msg row)) then None else Some dest).
Definition noop (folder_id : string) : Json := ok_reply [("action", "noop"); ("folderId", folder_id)].
Definition move_message (user_id message_id folder_id : string) : M Json :=
  let! row := load_message_row user_id message_id in
  let! dest := chosen_folder "cross-account moves are not supported; pick a folder of the same account" row folder_id in
  match dest with
  | None => ret (noop folder_id)
  | Some dest =>
      let! role_row := folder_row folder_id in
      let! _ := apply_user_move user_id row (mkRole (f_id dest) (Some (f_external dest)) (f_name dest)) (role_row ≫= coalesced_role) in
      ret (ok_reply [("action", "moved"); ("folderId", f_id dest)])
  end.
Definition copy_message (user_id message_id folder_id : string) : M Json :=
  let! row := load_message_row user_id message_id in
  let! dest := chosen_folder "cross-account copies are not supported; pick a folder of the same account" row folder_id in
  match dest with
  | None => ret (noop folder_id)
  | Some dest =>
      let! _ := apply_message_copy user_id row (Some (f_external dest)) (f_external dest) in
      ret (ok_reply [("action", "copied"); ("folderId", f_id dest)])
  end.

(** ** The spam buttons *)

Definition spam_message (user_id message_id : string) : M Json :=
  let! snapshot := attempt (F := SyncError) (load_message_row user_id message_id) in
  let sender := rok snapshot ≫= sender_of in
  let! res := move_message_to_role message_id user_id "spam" in
  let! _ := set_spam_verdict message_id "blocked" in
  let! _ := match sender with Some from => learn_and_rejudge user_id from true | None => ret false end in
  ret res.
Definition not_spam_message (user_id message_id : string) : M Json :=
  let! row := load_message_row user_id message_id in
  let! _ := set_spam_verdict (m_id (lr_msg row)) "allowed" in
  if negb (is_role "spam" (lr_folder_role row)) then
    let! _ := match sender_of row with Some from => learn_and_rejudge user_id from false | None => ret false end in
    ret (ok_reply [("action", "cleared"); ("role", "inbox")])
  else
    let! dest := role_folder_for_account (m_account (lr_msg row)) "inbox" in
    let! _ := apply_user_move user_id row dest (Some "inbox") in
    ret (ok_reply [("action", "moved"); ("role", "inbox"); ("folderId", rf_id dest)]).

(** ** Snooze and drafts *)

Definition jobs_error (e : SqlxError) : SyncError :=
  match e with DbDown => Database "closed" | Decode => Database "decode" | Encode => Database "encode" end.
Definition on_jobs {A} (m : io jworld SqlxError A) : M A :=
  fun w => let '(r, j) := m (dk_jobs w) in (rmap_err jobs_error r, set_jobs j w).
Definition snooze_message (user_id message_id until : string) : M Json :=
  let! row := load_message_row user_id message_id in
  let! until_utc := lift (ok_or (InvalidInput "until must be RFC3339") (parse_rfc3339 until)) in
  let! _ := edit_message (m_id (lr_msg row)) (snoozed (db_stamp until_utc)) in
  let! _ := on_jobs (enqueue (UnsnoozeMessage (m_id (lr_msg row))) (rfc3339 until_utc)) in
  ret (ok_reply [("until", rfc3339 until_utc)]).

(** The server-side half of [discard_draft] and of [destroy_row_server_side]. *)
Definition delete_on_server (user_id : string) (row : LoadedRow) (no_id : SyncError) : M unit :=
  let m := lr_msg row in
  if String.eqb (lr_protocol row) "imap" then
    let! uid := lift (parse_imap_uid (m_external m)) in
    with_imap configs user_id (m_account m) (let! _ := Imap.select (lr_folder_name row) in delete_uid uid)
  else if String.eqb (lr_protocol row) "jmap" then
    let! email_id := lift (ok_or no_id (m_external m)) in
    let! seam := connect_jmap_for_account user_id (m_account m) in
    jmap_call (m_account m) (destroy_email seam email_id)
  else throw (unsupported (lr_protocol row)).
Definition discard_draft (user_id message_id : string) : M Json :=
  let! row := load_message_row user_id message_id in
  if negb (is_role "drafts" (lr_folder_role row)) then throw (InvalidInput "message is not a draft") else
  let! _ := delete_on_server user_id row (InvalidInput "JMAP draft has no server id") in
  let! _ := soft_delete_message_row (m_id (lr_msg row)) in
  let! _ := counts (m_folder (lr_msg row)) in
  ret (JObject [("status", JString "discarded")]).

(** ** Looking rows up *)

Definition message_id_by_server_id (account_id server_id : string) : M (option string) :=
  stmt (fun w =>
    (option_map m_id (List.find (fun m => String.eqb (m_account m) account_id && bool_decide (m_external m = Some server_id)
                                          && negb (m_deleted m)) (ml_messages (dk_mail w))), w)).

(** ** Folder roles *)

Definition owned_folder (user_id folder_id : string) w : option FolderRow :=
  f ← List.find (folder_by_id folder_id) (ml_folders (dk_mail w));
  if existsb (owned_account user_id (f_account f)) (accounts w) then Some f else None.
Definition edit_folders (p : FolderRow -> bool) (f : string -> FolderRow -> FolderRow) : M unit :=
  stmt (fun w => (tt, set_mail (set_folders (update_folders p (f (now w)) (ml_folders (dk_mail w))) (dk_mail w)) w)).
Definition demoted (account_id role folder_id : string) (r : FolderRow) : bool :=
  String.eqb (f_account r) account_id && bool_decide (f_role_override r = Some role) && negb (folder_by_id folder_id r).
Definition set_private_specialuse `{ImapCommands T} (mailbox_wire : string) (special_use : option string)
    : io (ImapClient T) ImapError unit :=
  let! metadata := gets (has_cap "METADATA") in
  if negb metadata then ret tt else
  best_effort (on_session (run_command ("SETMETADATA " +:+ imap_quoted mailbox_wire +:+ " (/private/specialuse "
    +:+ match special_use with Some flag => imap_quoted flag | None => "NIL" end +:+ ")"))).
Definition ignore {A} (m : M A) : M unit := let! _ := attempt (F := SyncError) m in ret tt.
Definition best_effort_push_specialuse `{ImapCommands T} (user_id account_id folder_id : string) (role_override : option string) : M unit :=
  let! found := attempt (F := SyncError) (folder_row folder_id) in
  match found with
  | Ok (Some f) =>
      ignore (with_imap configs user_id account_id (
        let! _ := best_effort (set_private_specialuse (f_external f) (role_override ≫= role_to_specialuse)) in
        best_effort logout))
  | _ => ret tt
  end.
Definition patch_folder `{ImapCommands T} (user_id folder_id : string) (body : PatchFolderRequest) : M FolderRow :=
  let! account := stmt (fun w => (option_map f_account (owned_folder user_id folder_id w), w)) in
  let! account_id := lift (ok_or (InvalidInput "folder not found") account) in
  let! _ := match pf_clear body, pf_role_override body with
            | false, None => throw (InvalidInput "provide roleOverride or clearRoleOverride")
            | true, _ => edit_folders (folder_by_id folder_id) (set_role_override None)
            | false, Some role =>
                if negb (existsb (String.eqb role) OVERRIDE_ROLES)
                then throw (InvalidInput ("roleOverride must be one of: " +:+ join ", " OVERRIDE_ROLES)) else
                let! _ := edit_folders (demoted account_id role folder_id) (set_role_override None) in
                edit_folders (folder_by_id folder_id) (set_role_override (Some role))
            end in
  let! _ := best_effort_push_specialuse user_id account_id folder_id (if pf_clear body then None else pf_role_override body) in
  let! row := folder_row folder_id in
  lift (ok_or (InvalidInput "folder not found") row).

(** ** Sender-list edits reach existing mail *)

(** [substr(body_text, 1, 600)] counts characters. *)
Definition candidate_row (user_id role : string) w (m : MessageRow) : bool :=
  negb (m_deleted m) && existsb (owned_account user_id (m_account m)) (accounts w)
  && existsb (fun f => folder_by_id (m_folder m) f && bool_decide (coalesced_role f = Some role)) (ml_folders (dk_mail w)).
(** [ORDER BY m.date DESC] / [ASC]: SQLite puts NULL first when ascending. *)
Definition date_le (a b : option string) : bool :=
  match a, b with None, _ => true | Some _, None => false | Some x, Some y => text_le x y end.
Definition candidate w (m : MessageRow) : SpamCandidate :=
  mkCandidate (m_id m) (from_json_email (m_from m)) (from_json_display_name (m_from m)) (m_subject m) (m_date m)
    (dk_verdicts w !! m_id m) (option_map (take_chars 600) (m_body_text m)).
Definition judged w (m : MessageRow) : bool := bool_decide (is_Some (dk_verdicts w !! m_id m)).
Definition folder_role_rows (user_id role : string) (limit : nat) (only_unjudged : bool) : M (list SpamCandidate) :=
  stmt (fun w =>
    let rows := List.filter (fun m => candidate_row user_id role w m && negb (only_unjudged && judged w m)) (ml_messages (dk_mail w)) in
    (map (candidate w) (take limit (order_by (fun a b => date_le (m_date b) (m_date a)) rows)), w)).
Definition unjudged_rows (user_id role : string) (limit : nat) : M (list SpamCandidate) := folder_role_rows user_id role limit true.

Definition move_row_to_role (role user_id message_id : string) : M unit :=
  let! row := load_message_row user_id message_id in
  let! dest := role_folder_for_account (m_account (lr_msg row)) role in
  apply_message_move user_id row (rf_id dest) (rf_external dest) (dest_name dest).
Definition move_row_to_spam : string -> string -> M unit := move_row_to_role "spam".
Definition move_row_to_inbox : string -> string -> M unit := move_row_to_role "inbox".

Definition rejudged (entry_email : string) (edit : SenderList) (r : SpamCandidate) : bool :=
  match ca_from_email r with
  | None => false
  | Some from =>
      sender_matches entry_email from &&
      match edit with
      | Blocked => bool_decide (ca_verdict r = None \/ ca_verdict r = Some "clean")
      | Allowed => bool_decide (ca_verdict r = Some "spam" \/ ca_verdict r = Some "blocked")
      end
  end.
Definition rejudge_ids (rows : list SpamCandidate) (entry_email : string) (edit : SenderList) : list string :=
  map ca_id (take REJUDGE_MOVE_CAP (List.filter (rejudged entry_email edit) rows)).
Definition apply_sender_list_change (user_id entry_email : string) (edit : SenderList) : M unit :=
  let role := match edit with Blocked => "inbox" | Allowed => "spam" end in
  let! rows := attempt (F := SyncError) (folder_role_rows user_id role REJUDGE_SCAN_LIMIT false) in
  match rows with
  | Err _ => ret tt
  | Ok rows =>
      each (fun id =>
        match edit with
        | Blocked => let! _ := ignore (set_spam_verdict id "blocked") in ignore (move_row_to_spam user_id id)
        | Allowed => ignore (let! _ := move_row_to_inbox user_id id in set_spam_verdict id "allowed")
        end) (rejudge_ids rows entry_email edit)
  end.
(** The spawned tasks, one after another. *)
Definition run_rejudge : M unit :=
  fun w => match dk_spawned w with
           | [] => (Ok tt, w)
           | (user_id, email, list) :: rest => apply_sender_list_change user_id email list (set_spawned rest w)
           end.
End Actions.
