(* ===== verification/SpamPass.v ===== *)
(** * The anti-spam pass ([sync/http.rs], from [spam_pass] on)

    After a sync, one user's unjudged inbox mail is judged by the lists and the score, flagged
    mail moves to the spam folder, old spam is destroyed, and the AI model judges what is left.
    A panic of the AI half unwinds the pass. *)
From S2P Require Import Prelude Kv Crypto UnlockRing World Toy Session Labels Jobs Netsec MailStore Imap ImapLoop Blobs Jmap JmapLoop.
From S2P Require Import Spam OAuth Ai JmapWrite Desk Actions.
Local Open Scope string_scope.
Local Open Scope Z_scope.

Definition SPAM_PASS_BATCH : nat := 100.
Definition SPAM_PURGE_DAYS : Z := 30.
Definition AI_SPAM_PASS_CAP : nat := 10.
Inductive PassError := Failed (e : SyncError) | Panicked (at_ : string).

Section SpamPass.
Context {K R T : Type} `{HasRng R} `{CryptoLib} `{OAuthNet T} `{JmapWrites T} `{ImapSession T} `{MimeLib} `{UrlLib} `{UrlJoin}
  `{JmapTime} `{StoreLib} `{JsonLib} `{JobLib} `{LlmNet T} `{FeaturesLib}.
Context (configs : OAuthRefreshConfigs).
Local Abbreviation W := (desk K R T).
Local Abbreviation M := (io W SyncError).
Implicit Types w : W.

(** ** The heuristic engine *)

Definition filed (verdict : string) : bool := String.eqb verdict "spam" || String.eqb verdict "blocked".
Definition judge_one (user_id : string) (settings : SpamSettings) (senders : list SenderEntry) (row : SpamCandidate) : M unit :=
  let env := mkEnvelope (ca_from_email row) (ca_from_name row) (ca_subject row) in
  match judge_message env settings senders with
  | None => ret tt
  | Some verdict =>
      let! _ := set_spam_verdict (ca_id row) verdict in
      if filed verdict then ignore (move_row_to_spam configs user_id (ca_id row)) else ret tt
  end.
Definition judge_inbox_batch (user_id : string) (settings : SpamSettings) (senders : list SenderEntry) : M unit :=
  let! rows := unjudged_rows user_id "inbox" SPAM_PASS_BATCH in
  each (judge_one user_id settings senders) rows.

(** ** The purge

    The query of [spam_folder_rows] selects the id alone: reading any other column of its rows
    fails, so every [date] is [None]. *)
Definition spam_folder_rows (user_id : string) : M (list SpamCandidate) :=
  stmt (fun w =>
    (map (fun m => mkCandidate (m_id m) None None None None None None)
       (take 200 (order_by (fun a b => date_le (m_date a) (m_date b))
          (List.filter (candidate_row user_id "spam" w) (ml_messages (dk_mail w))))), w)).
Definition destroy_row_server_side (user_id message_id : string) : M unit :=
  let! row := load_message_row user_id message_id in
  let! _ := delete_on_server configs user_id row no_server_id in
  let! _ := soft_delete_message_row (m_id (lr_msg row)) in
  counts (m_folder (lr_msg row)).
Definition purge_one (user_id : string) (cutoff : Z) (row : SpamCandidate) : M unit :=
  let old := match ca_date row ≫= parse_rfc3339 with Some d => d <? cutoff | None => false end in
  if negb old then ret tt else ignore (destroy_row_server_side user_id (ca_id row)).
Definition purge_old_spam (user_id : string) : M unit :=
  let! now := gets (fun w => ml_now (dk_mail w)) in
  let cutoff := now - SPAM_PURGE_DAYS * 86400 * nanos_per_sec in
  let! rows := spam_folder_rows user_id in
  each (purge_one user_id cutoff) rows.

(** ** The AI half *)

Definition ai_judge_one (user_id : string) (view : SettingsView) (key : string) (row : SpamCandidate) : io W PassError unit :=
  match ca_from_email row with
  | None => ret tt
  | Some from =>
      let! verdict := attempt (on_net (auto_judge view key (default "" (ca_subject row)) from (default "" (ca_body_head row)))) in
      match verdict with
      | Ok (Some v) =>
          if sv_is_spam v then
            let! stamped := attempt (set_spam_verdict (ca_id row) "ai_spam") in
            match stamped with
            | Ok _ => map_err Failed (ignore (move_row_to_spam configs user_id (ca_id row)))
            | Err _ => ret tt
            end
          else map_err Failed (ignore (set_spam_verdict (ca_id row) "ai_clean"))
      | Err (AiPanic at_) => throw (Panicked at_)
      | Ok None | Err _ => ret tt
      end
  end.
(** [let Ok(x) = m else { return };]. *)
Definition or_return {E A} (m : io W E A) (k : A -> io W PassError unit) : io W PassError unit :=
  let! r := attempt m in
  match r with Ok a => k a | Err _ => ret tt end.
Definition is_auto (m : SpamMode) : bool := match m with Auto => true | _ => false end.
Definition ai_spam_auto_pass (user_id : string) : io W PassError unit :=
  or_return (on_ai (Ai.load_settings user_id)) (fun ai =>
  if negb (ai_enabled ai) || negb (is_auto (ai_spam_mode ai)) then ret tt else
  match ready ai with
  | None => ret tt
  | Some view =>
      or_return (on_ow (on_auth (get_user_dek user_id))) (fun dek =>
      or_return (lift (decrypt_key view dek)) (fun key =>
      or_return (unjudged_rows user_id "inbox" AI_SPAM_PASS_CAP) (fun rows =>
      each (ai_judge_one user_id view key) rows)))
  end).

Definition spam_db_err (e : SpamStoreError) : string := match e with InvalidId m => m | SpamDatabase db => db end.
Definition spam_store {A} (m : io (mail * spam_tables) SpamStoreError A) : io W PassError A :=
  map_err (fun e => Failed (Database (spam_db_err e))) (on_spam m).
Definition spam_pass_inner (user_id : string) : io W PassError unit :=
  let! settings := spam_store (Spam.load_settings user_id) in
  if negb (sp_enabled settings) && negb (sp_auto_delete settings) then ai_spam_auto_pass user_id else
  let! senders := spam_store (list_senders user_id) in
  let! _ := when (sp_enabled settings) (map_err Failed (judge_inbox_batch user_id settings senders)) in
  let! _ := when (sp_auto_delete settings) (map_err Failed (purge_old_spam user_id)) in
  ai_spam_auto_pass user_id.
(** Errors are logged; only a panic is left. *)
Definition spam_pass (user_id : string) : io W string unit :=
  let! r := attempt (spam_pass_inner user_id) in
  match r with Err (Panicked at_) => throw at_ | _ => ret tt end.
End SpamPass.
