(* ===== verification/ToyDesk.v ===== *)
(** * A concrete mailbox world for the witnesses

    An IMAP server with several mailboxes of numbered messages, a model provider that answers
    from a script, no JMAP server and no token endpoint; two users with one account each. *)
From S2P Require Import Prelude Kv Crypto UnlockRing World Toy Session Labels Jobs Pool Netsec MailStore Imap ImapLoop Blobs Jmap JmapLoop.
From S2P Require Import Spam OAuth Ai JmapWrite Desk Actions.
Local Open Scope string_scope.
Local Open Scope Z_scope.

(** Mailboxes by name, each the messages it holds by UID, and the highest UID given out. *)
Record toy_box := mkBox { bx_next : Z; bx_mail : list (Z * string) }.
Record toy_net := mkNet { tn_boxes : gmap string toy_box; tn_open : option string; tn_replies : list string; tn_log : list string }.
Definition add_mail (content : string) (b : toy_box) : toy_box := mkBox (bx_next b + 1) (bx_mail b ++ [(bx_next b, content)])%list.
Definition drop_uid (uid : Z) (b : toy_box) : toy_box := mkBox (bx_next b) (List.filter (fun m => negb (fst m =? uid)) (bx_mail b)).
Definition set_boxes (l : gmap string toy_box) (n : toy_net) : toy_net := mkNet l (tn_open n) (tn_replies n) (tn_log n).
Definition logged (line : string) (n : toy_net) : toy_net := mkNet (tn_boxes n) (tn_open n) (tn_replies n) (tn_log n ++ [line])%list.
Definition in_open {A} (f : string -> toy_box -> toy_net -> A * toy_net) : io toy_net ImapError A :=
  fun n => match tn_open n ≫= (fun name => option_map (pair name) (tn_boxes n !! name)) with
           | Some (name, b) => let '(a, n') := f name b n in (Ok a, n')
           | None => (Err (ImapProtocol "no mailbox"), n)
           end.
Definition take_uid (text dest : string) (keep : bool) (name : string) (b : toy_box) (n : toy_net) : unit * toy_net :=
  match parse_u32 text with
  | Some uid =>
      match List.find (fun m => fst m =? uid) (bx_mail b) with
      | Some (_, content) =>
          let n := if keep then n else set_boxes (<[name := drop_uid uid b]> (tn_boxes n)) n in
          (tt, set_boxes (<[dest := add_mail content (default (mkBox 1 []) (tn_boxes n !! dest))]> (tn_boxes n)) n)
      | None => (tt, n)
      end
  | None => (tt, n)
  end.
#[export] Instance box_session : ImapSession toy_net := {|
  sess_connect config := fun n => (Ok ["MOVE"; "UIDPLUS"], mkNet (tn_boxes n) None (tn_replies n) (tn_log n));
  sess_list := fun n => (Ok [], n);
  sess_select name := fun n =>
    match tn_boxes n !! name with
    | Some _ => (Ok (Some 1, None), mkNet (tn_boxes n) (Some name) (tn_replies n) (tn_log n))
    | None => (Err (ImapProtocol "no such mailbox"), n)
    end;
  sess_uid_search q := in_open (fun _ b n => (map fst (bx_mail b), n));
  sess_uid_fetch set atts := in_open (fun _ _ n => ([], n));
  sess_uid_store text q := in_open (fun name _ n => (tt, logged (name +:+ " " +:+ text +:+ " " +:+ q) n));
  sess_uid_copy text dest := in_open (take_uid text dest true);
  sess_uid_mv text dest := in_open (take_uid text dest false);
  sess_uid_expunge text := in_open (fun name b n =>
    (tt, match parse_u32 text with Some uid => set_boxes (<[name := drop_uid uid b]> (tn_boxes n)) n | None => n end));
  sess_expunge := in_open (fun _ _ n => (tt, n));
  sess_append mailbox flags content := fun n =>
    (Ok tt, set_boxes (<[mailbox := add_mail content (default (mkBox 1 []) (tn_boxes n !! mailbox))]> (tn_boxes n)) n);
  sess_logout := fun n => (Ok tt, n);
|}.
#[export] Instance box_commands : ImapCommands toy_net := fun cmd n => (Ok tt, logged cmd n).
#[export] Instance box_oauth : OAuthNet toy_net := {
  post_form url form n := (Err "unreachable", n); get_authorized url auth n := (Err "unreachable", n) }.
#[export] Instance box_llm : LlmNet toy_net := fun url headers body n =>
  match tn_replies n with
  | [] => (Err TimedOut, n)
  | reply :: rest => (Ok (200, reply), mkNet (tn_boxes n) (tn_open n) rest (tn_log n ++ [url])%list)
  end.
#[export] Instance no_jmap : JmapWire toy_net := {|
  Handle := unit;
  http_get _ _ n := (Err "unreachable", n);
  client_connect _ _ _ n := (Err (Transport "unreachable"), n);
  session _ _ := mkSession "" "" "" "" [] [] None [] [];
  set_default_account_id c _ := c;
  is_session_updated _ _ := true;
  refresh_session _ n := (Ok tt, n);
  get_mailbox _ n := (Err (Transport "unreachable"), n);
  query_email _ _ _ _ n := (Err (Transport "unreachable"), n);
  query_and_get _ _ _ _ n := (Err (Transport "unreachable"), n);
  get_email _ _ n := (Err (Transport "unreachable"), n);
  query_email_changes_req _ _ _ _ n := (Err (Transport "unreachable"), n);
  changes_email _ _ _ n := (Err (Transport "unreachable"), n);
  download _ _ n := (Err (Transport "unreachable"), n);
  event_stream _ _ n := (Err "unreachable", n) |}.
#[export] Instance no_jmap_writes : JmapWrites toy_net := {|
  default_account_id _ := "";
  post_api _ _ _ n := (Err "unreachable", n);
  update_mailbox_ids _ _ _ n := (Err (Transport "unreachable"), n);
  destroy_id _ _ n := (Err (Transport "unreachable"), n) |}.
#[export] Instance box_features : FeaturesLib := { features_text _ := ""; features_parse _ := None }.
(** Any JSON value, as the text of a number. *)
#[export] Instance box_json : JsonLib := OAuth.tree_codec.

(** Two users, one IMAP account each on the same server. *)
Definition box_user (id : string) : LyraUser := mkUser id id "hash:pw" None false None "en" None 1 "on_open" None.
Definition box_account (id user : string) : MailAccountRow :=
  mkMailAccount id user None (user +:+ "@x.org") "imap" "password" (legacy_blob "pw") (Some "imap.x.org") (Some 993) (Some "tls") None
    None None None (Some "imap") (Some "smtp") true true no_extras.
Definition box_folder (id account name : string) (role : option string) : FolderRow :=
  mkFolder id account name name None role None 0 0 0 "" "".
Definition box_message (id account folder : string) (uid : Z) (from subject : string) : MessageRow :=
  mkMessage id account folder (Some (imap_message_external_id folder uid)) None (Some subject)
    (Some (json_text (JObject [("email", JString from)]))) None None None false false false None None None None None None None
    false (Some "body") None None None None "".
Definition box_folders : list FolderRow :=
  [box_folder "f1" "a1" "INBOX" (Some "inbox"); box_folder "f2" "a1" "Archive" (Some "archive");
   box_folder "f3" "a1" "Junk" (Some "spam"); box_folder "g1" "a2" "INBOX2" (Some "inbox"); box_folder "g3" "a2" "Junk2" (Some "spam")].
Definition box_messages : list MessageRow :=
  [box_message "m1" "a1" "f1" 7 "casino@bad.org" "Casino lottery viagra"; box_message "m2" "a1" "f1" 8 "carol@x.org" "Lunch";
   box_message "n1" "a2" "g1" 7 "casino@bad.org" "Casino lottery viagra"].
Definition box_net : toy_net :=
  mkNet (list_to_map [("INBOX", mkBox 9 [(7, "offer"); (8, "lunch")]); ("Archive", mkBox 8 [(7, "contract")]);
                      ("Junk", mkBox 1 []); ("INBOX2", mkBox 8 [(7, "offer")]); ("Junk2", mkBox 1 [])]) None [] [].
Definition box_mail : mail := mkMail (from_secs 1000000) box_folders box_messages [] 0%N None.
Definition box_desk (spam : list SettingsRow) (ai : list AiRow) (replies : list string) : desk MemoryKv.t N toy_net :=
  mkDesk (mkOw (Toy.toy_world [box_user "u1"; box_user "u2"] []) [box_account "a1" "u1"; box_account "a2" "u2"]
            (mkNet (tn_boxes box_net) None replies []) 0%N)
    box_mail (mkTables spam []) ∅ ∅ (mkAiTables ai []) ∅ (mkJWorld (from_secs 1000000) [] [] 0%N true no_side) [].
Definition box_configs : OAuthRefreshConfigs := mkConfigs None None.
