(* ===== verification/Isolation.v ===== *)
(** * No action reaches another user's mail

    Every message action, the re-judge of a sender edit and the anti-spam pass, run for one
    user: the accounts, messages, verdicts, sender lists and AI rows of every other user stay
    exactly as they were.  The statement is about any database with unique ids, any mail server
    and any failure of either. *)
From S2P Require Import Prelude Kv Crypto UnlockRing World Toy Session Labels Jobs Pool Netsec MailStore Imap ImapLoop Blobs Jmap JmapLoop.
From S2P Require Import Spam OAuth Ai JmapWrite Desk Actions SpamPass ToyDesk.
Local Open Scope string_scope.
Local Open Scope Z_scope.

(** ** The relation *)

(** A row of [user] may get a new credential; any other row stays. *)
Definition row_spare (user : string) (r r' : MailAccountRow) : Prop :=
  (exists c, r' = set_account_credential c r) /\ (ma_user_id r <> user -> r' = r).
Definition mine (user : string) (l : list MailAccountRow) (account_id : string) : Prop :=
  exists r, r ∈ l /\ ma_id r = account_id /\ ma_user_id r = user.
(** A message keeps its id and account, and changes only when its account is of [user]. *)
Definition msg_spare (user : string) (l : list MailAccountRow) (m m' : MessageRow) : Prop :=
  m_id m' = m_id m /\ m_account m' = m_account m /\ (~ mine user l (m_account m) -> m' = m).
Definition others_spam (user : string) (t : spam_tables) : list SettingsRow * list SenderRow :=
  (List.filter (fun r => negb (String.eqb (sr_user r) user)) (st_settings t),
   List.filter (fun r => negb (String.eqb (sd_user r) user)) (st_senders t)).

Section Isolation.
Context {K R T : Type} `{HasRng R} `{!RngLaws R} `{CryptoLib} `{!CryptoLaws} `{OAuthNet T} `{JmapWrites T} `{ImapSession T}
  `{MimeLib} `{UrlLib} `{UrlJoin} `{JmapTime} `{StoreLib} `{JsonLib} `{JobLib} `{LlmNet T} `{FeaturesLib} `{ImapCommands T}.
Context (configs : OAuthRefreshConfigs) (user : string).
Local Abbreviation W := (desk K R T).
Local Abbreviation M := (io W SyncError).
Implicit Types w : W.

Definition messages w : list MessageRow := ml_messages (dk_mail w).
Record unique_ids w : Prop := { un_accounts : NoDup (ma_id <$> accounts w); un_messages : NoDup (m_id <$> messages w) }.
Record isolated w w' : Prop := {
  is_accounts : Forall2 (row_spare user) (accounts w) (accounts w');
  is_messages : Forall2 (msg_spare user (accounts w)) (messages w) (messages w');
  is_verdicts m : m ∈ messages w -> ~ mine user (accounts w) (m_account m) -> dk_verdicts w' !! m_id m = dk_verdicts w !! m_id m;
  is_spam : others_spam user (dk_spam w') = others_spam user (dk_spam w);
  is_ai : dk_ai w' = dk_ai w }.

Lemma row_spare_refl l : Forall2 (row_spare user) l l.
Proof using Type. induction l as [|r l IH]; constructor; [|done]. split; [|done]. exists (ma_credential r). by destruct r. Qed.
Lemma row_spare_trans l1 l2 l3 : Forall2 (row_spare user) l1 l2 -> Forall2 (row_spare user) l2 l3 -> Forall2 (row_spare user) l1 l3.
Proof using Type.
  intros Hfst. revert l3. induction Hfst as [|a b l1 l2 [[c Hc] Hs] _ IH]; intros l3 Hsnd; [by inv Hsnd|].
  apply Forall2_cons_inv_l in Hsnd as (d & l3' & [[c' Hc'] Hs'] & Hsnd & ->). constructor; [|by apply IH]. subst b d. split; [by exists c'|].
  intros Hne. rewrite Hs' by done. by apply Hs.
Qed.
Lemma row_spare_ids l l' : Forall2 (row_spare user) l l' -> ma_id <$> l' = ma_id <$> l.
Proof using Type. induction 1 as [|a b l l' [[c ->] _] _ IH]; [done|]. cbn. by rewrite IH. Qed.
Lemma row_spare_mine u l l' a : Forall2 (row_spare user) l l' -> mine u l' a <-> mine u l a.
Proof using Type.
  intros Hf. split; intros (r & Hr & Hi & Hu); apply list_elem_of_lookup in Hr as [k Hk].
  - destruct (Forall2_lookup_r _ _ _ _ _ Hf Hk) as (b & Hb & [c ->] & _). exists b. split_and!; [by eapply list_elem_of_lookup_2|done|done].
  - destruct (Forall2_lookup_l _ _ _ _ _ Hf Hk) as (b & Hb & [c ->] & _). eexists. split_and!; [by eapply list_elem_of_lookup_2|done|done].
Qed.
Lemma msg_spare_refl l ms : Forall2 (msg_spare user l) ms ms.
Proof using Type. induction ms; constructor; [by split_and!|done]. Qed.
Lemma msg_spare_trans l l' m1 m2 m3 : Forall2 (row_spare user) l l' -> Forall2 (msg_spare user l) m1 m2 ->
  Forall2 (msg_spare user l') m2 m3 -> Forall2 (msg_spare user l) m1 m3.
Proof using Type.
  intros Hl Hfst. revert m3. induction Hfst as [|a b m1 m2 (Hi & Ha & Hs) _ IH]; intros m3 Hsnd; [by inv Hsnd|].
  apply Forall2_cons_inv_l in Hsnd as (d & m3' & (Hi' & Ha' & Hs') & Hsnd & ->). constructor; [|by apply IH].
  split_and!; [congruence|congruence|]. intros Hn. rewrite Hs'; [by apply Hs|]. by rewrite Ha, (row_spare_mine user l l').
Qed.
Lemma msg_spare_ids l ms ms' : Forall2 (msg_spare user l) ms ms' -> m_id <$> ms' = m_id <$> ms.
Proof using Type. induction 1 as [|a b l1 l2 (Hi & _) _ IH]; [done|]. cbn. by rewrite Hi, IH. Qed.

Lemma isolated_unique w w' : isolated w w' -> unique_ids w -> unique_ids w'.
Proof using Type.
  intros [Ha Hm _ _ _] [Hu1 Hu2]. split; [by rewrite (row_spare_ids _ _ Ha)|by rewrite (msg_spare_ids _ _ _ Hm)].
Qed.
Lemma isolated_refl w : isolated w w.
Proof using Type. split; [apply row_spare_refl|apply msg_spare_refl|done|done|done]. Qed.
Lemma isolated_trans w1 w2 w3 : isolated w1 w2 -> isolated w2 w3 -> isolated w1 w3.
Proof using Type.
  intros [Ha Hm Hv Hs Hi] [Ha' Hm' Hv' Hs' Hi']. split; [by eapply row_spare_trans|by eapply msg_spare_trans| | |by rewrite Hi'].
  - intros m Hin Hn. rewrite <-(Hv m Hin Hn). apply list_elem_of_lookup in Hin as [k Hk].
    destruct (Forall2_lookup_l _ _ _ _ _ Hm Hk) as (m' & Hk' & Hid & Hac & Hsame). rewrite <-Hid. apply Hv'.
    + by eapply list_elem_of_lookup_2. + by rewrite Hac, (row_spare_mine user _ _ _ Ha).
  - by rewrite Hs'.
Qed.

(** ** Guards

    What a handler has checked before a step: [Q] holds when the step starts, and no isolated
    step undoes it. *)
Class Stable (Q : W -> Prop) := stable w w' : isolated w w' -> Q w -> Q w'.
Definition isolates (Q : W -> Prop) w w' : Prop := unique_ids w -> Q w -> isolated w w'.
#[local] Instance isolates_pre Q `{!Stable Q} : PreOrder (isolates Q).
Proof.
  split; [intros w _ _; apply isolated_refl|]. intros x y z Hxy Hyz Hu Hq. specialize (Hxy Hu Hq).
  eapply isolated_trans; [done|]. apply Hyz; [by eapply isolated_unique|by eapply stable].
Qed.
Definition anything w : Prop := True.
Definition my_account (a : string) w : Prop := mine user (accounts w) a.
Definition my_message (i : string) w : Prop := exists m, m ∈ messages w /\ m_id m = i /\ my_account (m_account m) w.
Definition both (P Q : W -> Prop) w : Prop := P w /\ Q w.
Definition all_mine (ids : list string) w : Prop := Forall (fun i => my_message i w) ids.
#[local] Instance stable_anything : Stable anything. Proof. done. Qed.
#[local] Instance stable_account a : Stable (my_account a).
Proof. intros w w' [Ha _ _ _ _] Hm. unfold my_account in *. by rewrite (row_spare_mine user _ _ _ Ha). Qed.
#[local] Instance stable_message i : Stable (my_message i).
Proof.
  intros w w' Hi (m & Hm & Hid & Ha). apply list_elem_of_lookup in Hm as [k Hk].
  destruct (Forall2_lookup_l _ _ _ _ _ (is_messages _ _ Hi) Hk) as (m' & Hk' & Hid' & Hac & _). exists m'.
  split_and!; [by eapply list_elem_of_lookup_2|congruence|]. rewrite Hac. by eapply stable_account.
Qed.
#[local] Instance stable_both P Q `{!Stable P} `{!Stable Q} : Stable (both P Q).
Proof. intros w w' Hi [? ?]. split; by eapply stable. Qed.
#[local] Instance stable_all ids : Stable (all_mine ids).
Proof. intros w w' Hi Ha. eapply Forall_impl; [exact Ha|]. intros i. cbn. by apply stable_message. Qed.

Lemma isolates_weaken {E A} (P Q : W -> Prop) (m : io W E A) : (forall w, Q w -> P w) -> preserves (isolates P) m -> preserves (isolates Q) m.
Proof using Type. intros Hpq Hm w r w' Hw Hu Hq. eapply Hm; [done|done|by apply Hpq]. Qed.
Lemma isolates_any {E A} Q (m : io W E A) : preserves (isolates anything) m -> preserves (isolates Q) m.
Proof using Type. by apply isolates_weaken. Qed.
(** A step whose answer establishes more. *)
Lemma isolates_bind {E A B} Q (S : A -> W -> Prop) `{!Stable Q} (m : io W E A) (k : A -> io W E B) :
  preserves (isolates Q) m -> (forall w a w', unique_ids w -> Q w -> m w = (Ok a, w') -> S a w') ->
  (forall a, preserves (isolates (both Q (S a))) (k a)) -> preserves (isolates Q) (bind m k).
Proof using Type.
  intros Hm Hs Hk w r w' Hr Hu Hq. apply bind_inv in Hr as [(e & He & _)|(a & w1 & Ha & Hr)]; [by eapply Hm|].
  pose proof (Hm _ _ _ Ha Hu Hq) as Hi. eapply isolated_trans; [exact Hi|].
  eapply Hk; [exact Hr|by eapply isolated_unique|]. split; [by eapply stable|by eapply Hs].
Qed.
Lemma isolates_each {E A} Q `{!Stable Q} (f : A -> io W E unit) l :
  (forall x, x ∈ l -> preserves (isolates Q) (f x)) -> preserves (isolates Q) (each f l).
Proof using Type.
  induction l as [|x l IH]; intros Hf; cbn [each]; [apply pres_ret; apply _|].
  apply pres_bind; [apply _|apply Hf; by left|]. intros _. apply IH. intros y Hy. apply Hf. by right.
Qed.

(** ** Steps that touch none of it *)

Definition quiet w w' : Prop :=
  accounts w' = accounts w /\ messages w' = messages w /\ dk_verdicts w' = dk_verdicts w /\ dk_spam w' = dk_spam w /\ dk_ai w' = dk_ai w.
Lemma quiet_isolated w w' : quiet w w' -> isolated w w'.
Proof using Type.
  intros (Ha & Hm & Hv & Hs & Hi). split; rewrite ?Ha, ?Hm, ?Hv, ?Hs; [apply row_spare_refl|apply msg_spare_refl|done|done|done].
Qed.
Lemma isolates_quiet {E A} Q (m : io W E A) : (forall w r w', m w = (r, w') -> quiet w w') -> preserves (isolates Q) m.
Proof using Type. intros Hq w r w' Hw _ _. by eapply quiet_isolated, Hq. Qed.
Lemma stmt_run {A} (f : W -> A * W) w r w' : stmt f w = (r, w') ->
  exists db, ml_messages db = messages w /\ ml_folders db = ml_folders (dk_mail w) /\ ml_now db = ml_now (dk_mail w) /\
    ((exists e, r = Err e) /\ w' = set_mail db w \/ exists a, r = Ok a /\ f (set_mail db w) = (a, w')).
Proof using Type.
  unfold stmt, mstmt. destruct (ml_fuse (dk_mail w)) as [[|n]|].
  - intros [= <- <-]. exists (dk_mail w). split_and!; [done..|]. left. split; [by eexists|]. by destruct w.
  - cbn. set (db := set_fuse _ _). destruct (f _) as [a w2] eqn:Hf. intros [= <- <-]. exists db. split_and!; [done..|]. right. by exists a.
  - cbn. set (db := set_fuse _ _). destruct (f _) as [a w2] eqn:Hf. intros [= <- <-]. exists db. split_and!; [done..|]. right. by exists a.
Qed.
Lemma quiet_db db w : ml_messages db = messages w -> quiet w (set_mail db w).
Proof using Type. intros Hm. by split_and!. Qed.
Lemma quiet_trans w1 w2 w3 : quiet w1 w2 -> quiet w2 w3 -> quiet w1 w3.
Proof using Type. unfold quiet. intuition congruence. Qed.
(** A statement isolates when its write does. *)
Lemma isolates_stmt {A} Q `{!Stable Q} (f : W -> A * W) :
  (forall w, unique_ids w -> Q w -> isolated w (snd (f w))) -> preserves (isolates Q) (stmt f).
Proof using Type.
  intros Hf w r w' Hr Hu Hq. apply stmt_run in Hr as (db & Hm & _ & _ & [[_ ->]|(a & _ & Hf')]).
  - by apply quiet_isolated, quiet_db.
  - pose proof (quiet_isolated _ _ (quiet_db db w Hm)) as Hi. eapply isolated_trans; [exact Hi|].
    replace w' with (snd (f (set_mail db w))) by (by rewrite Hf'). apply Hf; [by eapply isolated_unique|by eapply stable].
Qed.
Lemma isolates_read {A} Q `{!Stable Q} (f : W -> A) : preserves (isolates Q) (stmt (fun w => (f w, w))).
Proof using Type. apply isolates_stmt; [done|]. intros w _ _. apply isolated_refl. Qed.
(** What a read answers is of the database it leaves. *)
Lemma read_answer {A} (f : W -> A) w a w' : stmt (fun w => (f w, w)) w = (Ok a, w') -> a = f w'.
Proof using Type. intros Hr. apply stmt_run in Hr as (db & _ & _ & _ & [[[e ?] _]|(b & [= ->] & [= <- <-])]); done. Qed.

Lemma isolates_on_net {E A} Q (m : io T E A) : preserves (isolates Q) (Desk.on_net m).
Proof using Type. apply isolates_quiet. intros w r w'. unfold Desk.on_net. destruct (m (net w)) as [x n]. intros [= _ <-]. by split_and!. Qed.
Lemma isolates_on_seams {E A} Q (m : io _ E A) : preserves (isolates Q) (on_seams (K := K) (R := R) m).
Proof using Type. apply isolates_quiet. intros w r w'. unfold on_seams. destruct (m _) as [x [c n]]. intros [= _ <-]. by split_and!. Qed.
Lemma isolates_modify {E} Q (f : W -> W) : (forall w, quiet w (f w)) -> preserves (isolates Q) (modify (E := E) f).
Proof using Type. intros Hf. apply isolates_quiet. intros w r w' [= _ <-]. apply Hf. Qed.
Lemma isolates_with_client {A} Q c (m : io (ImapClient T) ImapError A) :
  preserves (isolates Q) ((fun w : W => let '(r, c') := m c in (rmap_err Imap r, set_net (cl_session c') w)) : M A).
Proof using Type. apply isolates_quiet. intros w r w'. destruct (m c) as [x c']. intros [= _ <-]. by split_and!. Qed.
Definition same_messages (a b : mail) : Prop := ml_messages b = ml_messages a.
#[local] Instance same_messages_pre : PreOrder same_messages.
Proof. split; [by intros ?|]. intros x y z. unfold same_messages. congruence. Qed.
Lemma mstmt_messages {A} (g : mail -> A * mail) : (forall a, ml_messages (snd (g a)) = ml_messages a) -> preserves same_messages (mstmt g).
Proof using Type.
  intros Hg a x b. unfold mstmt. destruct (ml_fuse a) as [[|n]|]; [by intros [= _ <-]| |];
    (destruct (g a) as [y c] eqn:Hc; intros [= _ <-]; specialize (Hg a); by rewrite Hc in Hg).
Qed.
Lemma transaction_messages {A} (m : io mail SyncError A) : preserves same_messages m -> preserves same_messages (transaction m).
Proof using Type.
  intros Hm a r b. unfold transaction.
  match goal with |- context [bind ?x ?k a] => assert (Hp : preserves same_messages (bind x k)) end.
  { apply pres_bind; [apply _|by apply mstmt_messages|intros _]. apply pres_bind; [apply _|done|intros y].
    apply pres_bind; [apply _|by apply mstmt_messages|intros _]. apply pres_ret. apply _. }
  destruct (bind _ _ a) as [[y|e] c] eqn:Hb; intros [= _ <-]; [by apply Hp in Hb|done].
Qed.
Lemma counts_messages f : preserves same_messages (update_folder_counts f).
Proof using Type.
  apply transaction_messages. unfold update_folder_counts_in_tx, update_folder.
  preserve; by apply mstmt_messages.
Qed.
Lemma isolates_counts Q f : preserves (isolates Q) (counts (K := K) (R := R) (T := T) f).
Proof using Type.
  apply isolates_quiet. intros w r w'. unfold counts, on_mail. destruct (update_folder_counts f (dk_mail w)) as [x db] eqn:Hc.
  intros [= _ <-]. apply quiet_db. by eapply counts_messages.
Qed.
#[local] Hint Resolve isolates_on_net isolates_on_seams isolates_with_client isolates_counts : preserve.
#[local] Hint Extern 1 (preserves (isolates _) (stmt _)) => (apply isolates_read; apply _) : preserve.
#[local] Hint Extern 1 (Stable _) => apply _ : preserve.

(** ** Keys and tokens: only the user's own credentials are written *)

Lemma isolates_accounts w o : Forall2 (row_spare user) (accounts w) (ow_rows o) -> isolated w (set_ow o w).
Proof using Type. intros Hf. split; [exact Hf|apply msg_spare_refl|done|done|done]. Qed.
Lemma write_back_spare rows as' : Forall2 (spare user) (map account_of rows) as' -> Forall2 (row_spare user) rows (write_back as' rows).
Proof using Type.
  unfold write_back. revert as'. induction rows as [|r rows IH]; intros as' Hf; [by inv Hf|].
  apply Forall2_cons_inv_l in Hf as (a & l' & (_ & _ & Hs) & Hf & ->). cbn. constructor; [|by apply IH].
  split; [by eexists|]. intros Hne. rewrite (Hs Hne). cbn. by destruct r.
Qed.
Lemma isolates_auth {E A} Q (m : io (world K R) E A) : preserves (spares user) m -> preserves (isolates Q) (on_ow (T := T) (on_auth m)).
Proof using Type.
  intros Hm w r w'. unfold on_ow, on_auth. destruct (m (auth_view (dk_ow w))) as [x g] eqn:Hg. intros [= _ <-] [Hu _] _.
  apply isolates_accounts. cbn. apply write_back_spare. apply (Hm _ _ _ Hg). cbn. unfold accounts in Hu. by rewrite <-list_fmap_compose.
Qed.
Lemma key_spares a : preserves (spares user) (get_user_dek_and_credential (K := K) (R := R) user a).
Proof using All. unfold get_user_dek_and_credential. preserve. apply get_user_dek_spares. Qed.
Lemma isolates_key Q a : preserves (isolates Q) (dek_and_credential (K := K) (R := R) (T := T) user a).
Proof using All. unfold dek_and_credential. preserve. apply isolates_auth, key_spares. Qed.
Lemma isolates_dek Q : preserves (isolates Q) (on_ow (T := T) (on_auth (get_user_dek (K := K) (R := R) user))).
Proof using All. apply isolates_auth, get_user_dek_spares. Qed.

(** A step of the OAuth code that leaves the rows, or writes the credential of [a]. *)
Definition rows_step (a : string) (o o' : oauth_world K R T) : Prop :=
  ow_rows o' = ow_rows o \/ exists c, ow_rows o' = update_rows a (set_account_credential c) (ow_rows o).
Lemma update_rows_spare a c l : NoDup (ma_id <$> l) -> mine user l a -> Forall2 (row_spare user) l (update_rows a (set_account_credential c) l).
Proof using Type.
  intros Hnd (r & Hr & Hi & Hu). apply list_elem_of_lookup in Hr as [k Hk]. unfold update_rows.
  apply Forall2_fmap_r, Forall_Forall2_diag, Forall_lookup. intros j x Hx. unfold compose, row_spare, account_is. cbn beta.
  destruct (String.eqb_spec (ma_id x) a) as [Hxa|]; [|split; [exists (ma_credential x); by destruct x|done]].
  split; [by exists c|]. intros Hne. assert (k = j) as <-; [|congruence].
  eapply (NoDup_lookup _ k j a Hnd); rewrite list_lookup_fmap; [by rewrite Hk, <-Hi|by rewrite Hx, <-Hxa].
Qed.
Lemma isolates_tokens {E A} Q a (m : io (oauth_world K R T) E A) : (forall w, Q w -> my_account a w) ->
  (forall o r o', m o = (r, o') -> rows_step a o o') -> preserves (isolates Q) (on_ow m).
Proof using Type.
  intros Hq Hm w r w'. unfold on_ow. destruct (m (dk_ow w)) as [x o] eqn:Ho. intros [= _ <-] [Hu _] Hq'.
  apply isolates_accounts. destruct (Hm _ _ _ Ho) as [He|[c He]]; rewrite He; [apply row_spare_refl|].
  apply update_rows_spare; [done|]. by apply Hq.
Qed.
Lemma kept_step a (o o1 o2 : oauth_world K R T) : kept o o1 -> rows_step a o1 o2 -> rows_step a o o2.
Proof using Type. intros [_ Hr] [He|[c He]]; [left|right; exists c]; by rewrite He, Hr. Qed.
Lemma persist_rows a dek t o r o' : persist (K := K) (R := R) (T := T) a dek t o = (r, o') -> rows_step a o o'.
Proof using Type.
  unfold persist. intros [(e & He & _)|(blob & o1 & Hb & Hr)]%bind_inv; [left; by apply pres_sealing in He as [_ ?]|].
  apply pres_sealing in Hb. eapply kept_step; [exact Hb|].
  apply bind_inv in Hr as [(e & He & _)|([] & o2 & He & [= _ <-])]; unfold update_account_credential, ostmt in He;
    destruct (w_db_up (ow_auth o1)); first [discriminate He|injection He as _ <-; by left|injection He as <-; right; by eexists].
Qed.
Lemma resolve_rows a ty cj dek host o r o' :
  resolve_mail_access_secret (K := K) (R := R) (T := T) a ty cj dek host configs o = (r, o') -> rows_step a o o'.
Proof using Type.
  unfold resolve_mail_access_secret. destruct (String.eqb ty "oauth2").
  - intros [(e & [= _ <-] & _)|(t & o1 & [= _ <-] & Hr)]%bind_inv; [by left|].
    apply bind_inv in Hr as [(e & [= _ <-] & _)|(now & o1 & [= <- <-] & Hr)].
    destruct (near_expiry t (now_secs o)); [|injection Hr as _ <-; by left].
    assert (Hre : forall x o1, recheck a dek t o = (x, o1) -> o1 = o).
    { intros x o1. unfold recheck, bind, attempt, load_credential_blob, ostmt, gets, ret. by destruct (w_db_up (ow_auth o)); intros [= _ <-]. }
    apply bind_inv in Hr as [(e & He & _)|([acc|t2] & o1 & Hx & Hr)]; [apply Hre in He as ->; by left|..]; apply Hre in Hx as ->;
      [injection Hr as _ <-; by left|].
    unfold redeem in Hr. apply bind_inv in Hr as [(e & He & _)|(t3 & o1 & Ht & Hr)].
    + apply bind_inv in He as [(e' & He & _)|(? & ? & He & [= _ <-])]; apply pres_refresh in He as [_ ?]; by left.
    + apply bind_inv in Ht as [(e' & _ & [=])|(x & o2 & Hx & [= _ <-])]. apply pres_refresh in Hx. eapply kept_step; [exact Hx|].
      apply bind_inv in Hr as [(e & He & _)|(acc & o2' & He & [= _ <-])]; by eapply persist_rows.
  - intros [(e & [= _ <-] & _)|(t & o1 & [= _ <-] & [= _ <-])]%bind_inv; by left.
Qed.

(** ** Connections *)

Lemma active_answer a w r w' : active_account (K := K) (R := R) (T := T) user a w = (Ok r, w') -> my_account a w'.
Proof using Type.
  unfold active_account. intros (row & w1 & Hr & Hx)%bind_Ok. apply read_answer in Hr. destruct row as [row|]; [|done].
  injection Hx as -> ->. symmetry in Hr. apply find_some in Hr as [Hin Ho]. unfold owned_account in Ho.
  apply andb_true_iff in Ho as [[Hi%String.eqb_eq Hu%String.eqb_eq]%andb_true_iff _].
  exists r. split_and!; [by apply list_elem_of_In|done|done].
Qed.
Lemma isolates_active Q `{!Stable Q} a : preserves (isolates Q) (active_account (K := K) (R := R) (T := T) user a).
Proof using Type. unfold active_account. preserve. Qed.
#[local] Hint Resolve isolates_active isolates_key : preserve.
Lemma isolates_imap Q `{!Stable Q} a : preserves (isolates Q) (connect_imap_for_account (K := K) (R := R) configs user a).
Proof using All.
  unfold connect_imap_for_account. apply pres_bind; [apply _|auto with preserve|intros [dek cj]].
  apply (isolates_bind Q (fun _ => my_account a)); [auto with preserve|by intros w row w' _ _ ?%active_answer|intros row].
  preserve.
  - apply (isolates_tokens _ a); [by intros w [_ ?]|]. intros o r o'. apply resolve_rows.
  - apply isolates_quiet. intros w r w'. destruct (Imap.connect _ _) as [[c|e] n]; intros [= _ <-]; by split_and!.
Qed.
Lemma isolates_with_imap {A} Q `{!Stable Q} a (m : io (ImapClient T) ImapError A) : preserves (isolates Q) (with_imap (K := K) (R := R) configs user a m).
Proof using All. unfold with_imap. apply pres_bind; [apply _|by apply isolates_imap|intros c; apply isolates_with_client]. Qed.
Lemma isolates_jmap Q `{!Stable Q} a : preserves (isolates Q) (connect_jmap_for_account (K := K) (R := R) (T := T) user a).
Proof using All. unfold connect_jmap_for_account. preserve. Qed.
Lemma isolates_jmap_call {A} Q `{!Stable Q} a (m : io T JmapError A) : preserves (isolates Q) (jmap_call (K := K) (R := R) a m).
Proof using Type. unfold jmap_call. preserve. apply isolates_modify. intros w. by split_and!. Qed.
#[local] Hint Resolve isolates_with_imap isolates_jmap isolates_jmap_call : preserve.

(** ** Loading and editing a message *)

Lemma load_answer i w row w' : load_message_row (K := K) (R := R) (T := T) user i w = (Ok row, w') ->
  m_id (lr_msg row) = i /\ my_message i w' /\ my_account (m_account (lr_msg row)) w'.
Proof using Type.
  unfold load_message_row. intros (o & w1 & Hr & Hx)%bind_Ok. apply read_answer in Hr. destruct o as [x|]; [|done].
  injection Hx as -> ->. symmetry in Hr. destruct (List.find (live_id i) _) as [m|] eqn:Hf; [|done]. cbn in Hr.
  unfold joined_row in Hr. destruct (List.find (owned_account user (m_account m)) _) as [a|] eqn:Ha; [|done]. cbn in Hr.
  destruct (List.find (folder_by_id _) _) as [f|]; [|done]. injection Hr as <-. cbn.
  apply find_some in Hf as [Hin Hid], Ha as [Ha Ho]. unfold live_id, has_id in Hid. unfold owned_account, account_is in Ho.
  apply andb_true_iff in Hid as [Hid%String.eqb_eq _], Ho as [Hi%String.eqb_eq Hu%String.eqb_eq].
  assert (Hmine : my_account (m_account m) w') by (exists a; split_and!; [by apply list_elem_of_In|done|done]).
  split_and!; [done| |done]. exists m. split_and!; [by apply list_elem_of_In|done|done].
Qed.
Lemma isolates_load Q `{!Stable Q} i : preserves (isolates Q) (load_message_row (K := K) (R := R) (T := T) user i).
Proof using Type. unfold load_message_row. preserve. Qed.
(** A handler that loads a message first. *)
Lemma isolates_loaded {B} Q `{!Stable Q} i (k : LoadedRow -> M B) :
  (forall row, m_id (lr_msg row) = i -> preserves (isolates (both Q (my_message i))) (k row)) ->
  preserves (isolates Q) (bind (load_message_row user i) k).
Proof using Type.
  intros Hk. apply (isolates_bind Q (fun row w => m_id (lr_msg row) = i /\ my_message i w)); [by apply isolates_load| |].
  - intros w row w' _ _ Hl. apply load_answer in Hl as (Hi & Hm & _). by split.
  - intros row w r w' Hr Hu (Hq & Hi & Hm). by eapply (Hk row Hi).
Qed.

Lemma edit_spare i f ms w : (forall m, m_id (f m) = m_id m /\ m_account (f m) = m_account m) ->
  NoDup (m_id <$> ms) -> (exists m, m ∈ ms /\ m_id m = i /\ my_account (m_account m) w) ->
  Forall2 (msg_spare user (accounts w)) ms (update_messages (has_id i) f ms).
Proof using Type.
  intros Hf Hnd (m & Hm & Hi & Ha). apply list_elem_of_lookup in Hm as [k Hk]. unfold update_messages.
  apply Forall2_fmap_r, Forall_Forall2_diag, Forall_lookup. intros j x Hx. unfold compose, msg_spare, has_id. cbn beta.
  destruct (String.eqb_spec (m_id x) i) as [Hxi|]; [|done]. destruct (Hf x) as [-> ->]. split_and!; [done|done|].
  intros Hn. destruct Hn. assert (k = j) as <-; [|by replace x with m by congruence].
  eapply (NoDup_lookup _ k j i Hnd); rewrite list_lookup_fmap; [by rewrite Hk, <-Hi|by rewrite Hx, <-Hxi].
Qed.
Lemma isolates_edit Q `{!Stable Q} i f : (forall w, Q w -> my_message i w) ->
  (forall stamp m, m_id (f stamp m) = m_id m /\ m_account (f stamp m) = m_account m) ->
  preserves (isolates Q) (edit_message (K := K) (R := R) (T := T) i f).
Proof using Type.
  intros Hq Hf. apply isolates_stmt; [done|]. intros w [_ Hu] Hw. cbn [snd]. split; [apply row_spare_refl| |done|done|done].
  apply edit_spare; [apply Hf|done|by apply Hq].
Qed.
Lemma isolates_verdict Q `{!Stable Q} i v : (forall w, Q w -> my_message i w) ->
  preserves (isolates Q) (set_spam_verdict (K := K) (R := R) (T := T) i v).
Proof using Type.
  intros Hq. apply isolates_stmt; [done|]. intros w [_ Hu] Hw. cbn [snd].
  assert (Hsp : Forall2 (msg_spare user (accounts w)) (messages w)
    (update_messages (has_id i) (touched (Desk.now w)) (messages w))) by (apply edit_spare; [done|done|by apply Hq]).
  destruct (existsb _ _) eqn:He; (split; [apply row_spare_refl|exact Hsp| |done|done]); [|done].
  intros m Hm Hn. cbn. apply lookup_insert_ne. intros Hi. apply Hn. destruct (Hq w Hw) as (m0 & Hm0 & Hi0 & Ha0).
  replace m with m0; [done|]. apply list_elem_of_lookup in Hm as [k Hk], Hm0 as [j Hj].
  assert (k = j) as ->; [|congruence]. eapply (NoDup_lookup _ k j i Hu); rewrite list_lookup_fmap; [by rewrite Hk, Hi|by rewrite Hj, <-Hi0].
Qed.

(** ** Sender lists *)

Definition own_lists (x y : mail * spam_tables) : Prop :=
  ml_messages (fst y) = ml_messages (fst x) /\ others_spam user (snd y) = others_spam user (snd x).
#[local] Instance own_lists_pre : PreOrder own_lists.
Proof. split; [by intros ?|]. intros x y z [? ?] [? ?]. split; congruence. Qed.
Lemma own_sstmt {A} (f : Z -> spam_tables -> A * spam_tables) :
  (forall now t, others_spam user (snd (f now t)) = others_spam user t) -> preserves own_lists (sstmt f).
Proof using Type.
  intros Hf w r w' Hr. apply sstmt_run in Hr as (_ & Hm & _ & [(e & _ & Ht)|[_ Ht]]); (split; [done|]); by rewrite Ht, ?Hf.
Qed.
Lemma filter_commute {A} (p q : A -> bool) l : List.filter p (List.filter q l) = List.filter q (List.filter p l).
Proof using Type.
  induction l as [|x l IH]; [done|]. cbn. destruct (q x) eqn:Hq, (p x) eqn:Hp; cbn; rewrite ?Hq, ?Hp; by rewrite IH.
Qed.
Lemma filter_others {A} (p q : A -> bool) l : (forall x, p x = true -> q x = true) -> List.filter q (List.filter p l) = List.filter p l.
Proof using Type.
  intros Hpq. induction l as [|x l IH]; [done|]. cbn. destruct (p x) eqn:Hp; [|done]. cbn. by rewrite (Hpq x Hp), IH.
Qed.
Lemma own_add_sender e l : preserves own_lists (add_sender user e l).
Proof using Type.
  unfold add_sender, drop_other, insert_sender. preserve.
  - apply own_sstmt. intros _ t. unfold others_spam. cbn. f_equal. rewrite filter_commute. apply filter_others.
    intros r Hr. unfold sender_is. apply negb_true_iff in Hr. by rewrite Hr.
  - intros [db t] r w'. unfold spam_uuid. by intros [= _ <-].
  - apply own_sstmt. intros now t. cbn. destruct (existsb _ _); [done|]. unfold others_spam. cbn. f_equal.
    rewrite List.filter_app. cbn. by rewrite String.eqb_refl, app_nil_r.
Qed.
Lemma own_learn e b {E} : preserves own_lists (learn_sender (E := E) user e b).
Proof using Type. unfold learn_sender, Spam.load_settings. preserve; [by apply own_sstmt|apply own_add_sender]. Qed.
Lemma isolates_spam {E A} Q (m : io (mail * spam_tables) E A) : preserves own_lists m -> preserves (isolates Q) (on_spam (K := K) (R := R) (T := T) m).
Proof using Type.
  intros Hm w r w'. unfold on_spam. destruct (m _) as [x [db t]] eqn:Hx. intros [= _ <-] _ _. apply Hm in Hx as [Hmm Ht].
  split; [apply row_spare_refl| |done|exact Ht|done]. unfold messages. cbn in *. rewrite Hmm. apply msg_spare_refl.
Qed.
Lemma isolates_learn Q `{!Stable Q} e b : preserves (isolates Q) (learn_and_rejudge (K := K) (R := R) (T := T) user e b).
Proof using Type.
  unfold learn_and_rejudge. preserve; [apply isolates_spam, own_learn|]. apply isolates_modify. intros w. by split_and!.
Qed.
#[local] Hint Resolve isolates_learn isolates_load : preserve.

(** ** The actions *)

Ltac mine_tac := let w := fresh in intros w; unfold both, all_mine; intuition.
Lemma touched_same stamp m : m_id (touched stamp m) = m_id m /\ m_account (touched stamp m) = m_account m.
Proof using Type. done. Qed.
Lemma patched_same r s l stamp m : m_id (patched r s l stamp m) = m_id m /\ m_account (patched r s l stamp m) = m_account m.
Proof using Type. unfold patched. by destruct l. Qed.
Lemma isolates_patch Q `{!Stable Q} i body : preserves (isolates Q) (patch_message (K := K) (R := R) configs user i body).
Proof using All.
  unfold patch_message. apply isolates_loaded; [apply _|intros row <-]. unfold patch_imap, patch_jmap. preserve;
    (apply isolates_edit; [apply _|mine_tac|intros; apply patched_same]).
Qed.
Lemma isolates_move Q `{!Stable Q} row d de dn : (forall w, Q w -> my_message (m_id (lr_msg row)) w) ->
  preserves (isolates Q) (apply_message_move (K := K) (R := R) configs user row d de dn).
Proof using All. intros Hq. unfold apply_message_move. preserve. by apply isolates_edit. Qed.
Lemma isolates_copy Q `{!Stable Q} row de dn : preserves (isolates Q) (apply_message_copy (K := K) (R := R) configs user row de dn).
Proof using All. unfold apply_message_copy. preserve. Qed.
Lemma isolates_user_move Q `{!Stable Q} row d dr : (forall w, Q w -> my_message (m_id (lr_msg row)) w) ->
  preserves (isolates Q) (apply_user_move (K := K) (R := R) configs user row d dr).
Proof using All. intros Hq. unfold apply_user_move. preserve. by apply isolates_move. Qed.
Lemma isolates_soft_delete Q `{!Stable Q} i : (forall w, Q w -> my_message i w) ->
  preserves (isolates Q) (soft_delete_message_row (K := K) (R := R) (T := T) i).
Proof using Type. intros Hq. unfold soft_delete_message_row. by apply isolates_edit. Qed.
Lemma isolates_role_move Q `{!Stable Q} i role : preserves (isolates Q) (move_message_to_role (K := K) (R := R) configs i user role).
Proof using All.
  unfold move_message_to_role, role_folder. apply isolates_loaded; [apply _|intros row <-]. preserve;
    [apply isolates_user_move; [apply _|mine_tac]|apply isolates_soft_delete; [apply _|mine_tac]].
Qed.
Lemma isolates_folder_move Q `{!Stable Q} i f : preserves (isolates Q) (move_message (K := K) (R := R) configs user i f).
Proof using All.
  unfold move_message, chosen_folder, folder_row. apply isolates_loaded; [apply _|intros row <-]. preserve.
  apply isolates_user_move; [apply _|mine_tac].
Qed.
Lemma isolates_folder_copy Q `{!Stable Q} i f : preserves (isolates Q) (copy_message (K := K) (R := R) configs user i f).
Proof using All.
  unfold copy_message, chosen_folder, folder_row. apply isolates_loaded; [apply _|intros row <-]. preserve. by apply isolates_copy; apply _.
Qed.

Lemma isolates_ignore {A} Q `{!Stable Q} (m : M A) : preserves (isolates Q) m -> preserves (isolates Q) (ignore (K := K) (R := R) (T := T) m).
Proof using Type. intros Hm. unfold ignore. preserve. Qed.
Lemma isolates_jobs {A} Q (m : io jworld SqlxError A) : preserves (isolates Q) (on_jobs (K := K) (R := R) (T := T) m).
Proof using Type.
  apply isolates_quiet. intros w r w'. unfold on_jobs. destruct (m _) as [x j]. intros [= _ <-]. by split_and!.
Qed.
#[local] Hint Resolve isolates_jobs : preserve.
Lemma role_move_loaded i role w a w' : move_message_to_role (K := K) (R := R) configs i user role w = (Ok a, w') ->
  unique_ids w -> my_message i w'.
Proof using All.
  unfold move_message_to_role. intros (row & w1 & Hl & Hr)%bind_Ok Hu.
  pose proof (isolates_load anything i _ _ _ Hl Hu I) as Hi. apply load_answer in Hl as (Hid & Hm & _). eapply (stable_message i w1 w'); [|exact Hm].
  assert (Hp : preserves (isolates (my_message (m_id (lr_msg row))))
    (let! dest := role_folder (K := K) (R := R) (T := T) (m_account (lr_msg row)) role in
     match dest with
     | None => let! _ := soft_delete_message_row (m_id (lr_msg row)) in let! _ := counts (m_folder (lr_msg row)) in
               ret (ok_reply [("action", "soft_delete"); ("role", role)])
     | Some dest => let! _ := apply_user_move configs user row dest (Some role) in
                    ret (ok_reply [("action", "moved"); ("role", role); ("folderId", rf_id dest)])
     end)).
  { unfold role_folder. preserve; [by apply isolates_user_move; [apply _|]|by apply isolates_soft_delete; [apply _|]]. }
  eapply Hp; [exact Hr|by eapply isolated_unique|by rewrite Hid].
Qed.
Lemma isolates_spam_button Q `{!Stable Q} i : preserves (isolates Q) (spam_message (K := K) (R := R) configs user i).
Proof using All.
  unfold spam_message. apply pres_bind; [apply _|preserve|intros snapshot].
  apply (isolates_bind Q (fun _ => my_message i)); [by apply isolates_role_move|intros w a w' Hu _ Hr; by eapply role_move_loaded|intros res].
  preserve. apply isolates_verdict; [apply _|mine_tac].
Qed.
Lemma isolates_not_spam Q `{!Stable Q} i : preserves (isolates Q) (not_spam_message (K := K) (R := R) configs user i).
Proof using All.
  unfold not_spam_message, role_folder_for_account, role_folder. apply isolates_loaded; [apply _|intros row <-].
  preserve; [apply isolates_verdict; [apply _|mine_tac]|apply isolates_user_move; [apply _|mine_tac]].
Qed.
Lemma isolates_snooze Q `{!Stable Q} i until : preserves (isolates Q) (snooze_message (K := K) (R := R) (T := T) user i until).
Proof using Type.
  unfold snooze_message. apply isolates_loaded; [apply _|intros row <-]. preserve. apply isolates_edit; [apply _|mine_tac|done].
Qed.
Lemma isolates_delete Q `{!Stable Q} row e : preserves (isolates Q) (delete_on_server (K := K) (R := R) configs user row e).
Proof using All. unfold delete_on_server. preserve. Qed.
#[local] Hint Resolve isolates_delete : preserve.
Lemma isolates_discard Q `{!Stable Q} i : preserves (isolates Q) (discard_draft (K := K) (R := R) configs user i).
Proof using All.
  unfold discard_draft. apply isolates_loaded; [apply _|intros row <-]. preserve. apply isolates_soft_delete; [apply _|mine_tac].
Qed.
Lemma isolates_folders Q `{!Stable Q} p f : preserves (isolates Q) (edit_folders (K := K) (R := R) (T := T) p f).
Proof using Type. apply isolates_stmt; [done|]. intros w _ _. by apply quiet_isolated, quiet_db. Qed.
#[local] Hint Resolve isolates_folders : preserve.
Lemma isolates_patch_folder Q `{!Stable Q} f body : preserves (isolates Q) (patch_folder (K := K) (R := R) configs user f body).
Proof using All.
  unfold patch_folder, best_effort_push_specialuse, folder_row. preserve. apply isolates_ignore; [apply _|]. preserve.
Qed.

(** ** Scans, the re-judge and the pass *)

Lemma candidate_mine i role w : (exists m, m ∈ messages w /\ m_id m = i /\ candidate_row user role w m = true) -> my_message i w.
Proof using Type.
  intros (m & Hm & Hi & Hc). exists m. split_and!; [done|done|]. unfold candidate_row in Hc.
  apply andb_true_iff in Hc as [[_ He]%andb_true_iff _]. apply existsb_exists in He as (r & Hr & Ho).
  unfold owned_account, account_is in Ho. apply andb_true_iff in Ho as [?%String.eqb_eq ?%String.eqb_eq].
  exists r. split_and!; [by apply list_elem_of_In|done|done].
Qed.
Lemma ordered_take {A} (f : A -> string) (le : A -> A -> bool) (p : A -> bool) (n : nat) l i :
  i ∈ map f (take n (order_by le (List.filter p l))) -> exists m, m ∈ l /\ f m = i /\ p m = true.
Proof using Type.
  intros Hi. apply list_elem_of_fmap in Hi as (m & -> & Hm). apply elem_of_take in Hm as (k & Hk & _).
  apply list_elem_of_lookup_2 in Hk. rewrite order_by_perm in Hk. apply list_elem_of_In, filter_In in Hk as [Hk Hp].
  exists m. split_and!; [by apply list_elem_of_In|done|done].
Qed.
Lemma scan_mine role n only w rows w' : folder_role_rows (K := K) (R := R) (T := T) user role n only w = (Ok rows, w') ->
  all_mine (map ca_id rows) w'.
Proof using Type.
  unfold folder_role_rows. intros ->%read_answer. rewrite map_map. apply Forall_forall. intros i Hi.
  apply (ordered_take m_id) in Hi as (m & Hm & Hid & Hp). apply (candidate_mine i role). exists m.
  by apply andb_true_iff in Hp as [Hp _].
Qed.
Lemma isolates_scan Q `{!Stable Q} role n only : preserves (isolates Q) (folder_role_rows (K := K) (R := R) (T := T) user role n only).
Proof using Type. unfold folder_role_rows. preserve. Qed.
Lemma isolates_row_move Q `{!Stable Q} role i : preserves (isolates Q) (move_row_to_role (K := K) (R := R) configs role user i).
Proof using All.
  unfold move_row_to_role, role_folder_for_account, role_folder. apply isolates_loaded; [apply _|intros row <-]. preserve.
  apply isolates_move; [apply _|mine_tac].
Qed.
#[local] Hint Resolve isolates_scan isolates_row_move : preserve.
Lemma all_mine_in ids i w : i ∈ ids -> all_mine ids w -> my_message i w.
Proof using Type. intros Hi Ha. unfold all_mine in Ha. rewrite Forall_forall in Ha. by apply Ha. Qed.
Lemma isolates_rejudge Q `{!Stable Q} email edit : preserves (isolates Q) (apply_sender_list_change (K := K) (R := R) configs user email edit).
Proof using All.
  unfold apply_sender_list_change.
  apply (isolates_bind Q (fun rows w => match rows with Ok rows => all_mine (map ca_id rows) w | Err _ => True end)).
  - preserve.
  - intros w a w' _ _ Ha. unfold attempt in Ha. destruct (folder_role_rows _ _ _ _ w) as [[rows|e] w1] eqn:Hs; injection Ha as <- <-; [|done].
    by eapply scan_mine.
  - intros [rows|e]; [|apply pres_ret; apply isolates_pre; intros x y ? [? ?]; split; [by eapply stable|done]].
    apply isolates_each; [apply _|]. intros i Hi. unfold rejudge_ids in Hi.
    assert (Hin : i ∈ map ca_id rows).
    { apply list_elem_of_fmap in Hi as (x & -> & Hx). apply elem_of_take in Hx as (k & Hk & _). apply list_elem_of_lookup_2 in Hk.
      apply list_elem_of_In, filter_In in Hk as [Hk _]. apply list_elem_of_fmap. exists x. split; [done|by apply list_elem_of_In]. }
    unfold move_row_to_spam, move_row_to_inbox. destruct edit; preserve;
      (apply isolates_ignore; [apply _|]); preserve; (apply isolates_verdict; [apply _|]); intros w [_ Ha]; by eapply all_mine_in.
Qed.

Lemma isolates_judge_one Q `{!Stable Q} settings senders row : (forall w, Q w -> my_message (ca_id row) w) ->
  preserves (isolates Q) (judge_one (K := K) (R := R) configs user settings senders row).
Proof using All.
  intros Hq. unfold judge_one, move_row_to_spam. preserve; [by apply isolates_verdict|]. apply isolates_ignore; [apply _|]. preserve.
Qed.
Lemma in_scan (rows : list SpamCandidate) row w (Q : W -> Prop) : row ∈ rows -> both Q (all_mine (map ca_id rows)) w -> my_message (ca_id row) w.
Proof using Type. intros Hr [_ Ha]. eapply all_mine_in; [|exact Ha]. apply list_elem_of_fmap. by exists row. Qed.
Lemma isolates_batch Q `{!Stable Q} settings senders : preserves (isolates Q) (judge_inbox_batch (K := K) (R := R) configs user settings senders).
Proof using All.
  unfold judge_inbox_batch, unjudged_rows. apply (isolates_bind Q (fun rows w => all_mine (map ca_id rows) w)).
  - preserve. - intros w rows w' _ _. apply scan_mine.
  - intros rows. apply isolates_each; [apply _|]. intros row Hr. apply isolates_judge_one; [apply _|]. intros w. by apply in_scan.
Qed.
Lemma isolates_destroy Q `{!Stable Q} i : preserves (isolates Q) (destroy_row_server_side (K := K) (R := R) configs user i).
Proof using All.
  unfold destroy_row_server_side. apply isolates_loaded; [apply _|intros row <-]. preserve. apply isolates_soft_delete; [apply _|mine_tac].
Qed.
Lemma isolates_purge Q `{!Stable Q} : preserves (isolates Q) (purge_old_spam (K := K) (R := R) configs user).
Proof using All.
  unfold purge_old_spam, spam_folder_rows. preserve. apply isolates_each; [apply _|]. intros row _. unfold purge_one. preserve.
  apply isolates_ignore; [apply _|]. by apply isolates_destroy.
Qed.
Lemma isolates_ai_one Q `{!Stable Q} view key row : (forall w, Q w -> my_message (ca_id row) w) ->
  preserves (isolates Q) (ai_judge_one (K := K) (R := R) configs user view key row).
Proof using All.
  intros Hq. unfold ai_judge_one, move_row_to_spam. preserve; try (by apply isolates_verdict);
    (apply isolates_ignore; [apply _|]); preserve; by apply isolates_verdict.
Qed.
Lemma isolates_or_return {E A} Q `{!Stable Q} (m : io W E A) (k : A -> io W PassError unit) :
  preserves (isolates Q) m -> (forall a, preserves (isolates Q) (k a)) -> preserves (isolates Q) (or_return m k).
Proof using Type. intros Hm Hk. unfold or_return. preserve. Qed.
Lemma isolates_ai_settings {A} Q (m : io (mail * ai_tables) AiError A) :
  (forall x r y, m x = (r, y) -> ml_messages (fst y) = ml_messages (fst x) /\ snd y = snd x) ->
  preserves (isolates Q) (on_ai (K := K) (R := R) (T := T) m).
Proof using Type.
  intros Hm w r w'. unfold on_ai. destruct (m _) as [x [db t]] eqn:Hx. intros [= _ <-] _ _. apply Hm in Hx as [Hmm Ht].
  cbn in *. subst t. by apply quiet_isolated.
Qed.
Lemma load_ai_quiet x r y : Ai.load_settings user x = (r, y) -> ml_messages (fst y) = ml_messages (fst x) /\ snd y = snd x.
Proof using Type.
  unfold Ai.load_settings, astmt, mstmt. destruct (ml_fuse (fst x)) as [[|n]|]; intros [= _ <-]; by destruct x.
Qed.
Lemma isolates_ai Q `{!Stable Q} : preserves (isolates Q) (ai_spam_auto_pass (K := K) (R := R) configs user).
Proof using All.
  unfold ai_spam_auto_pass, unjudged_rows. apply isolates_or_return; [apply _|apply isolates_ai_settings, load_ai_quiet|intros ai].
  preserve. apply isolates_or_return; [apply _|apply isolates_dek|intros dek]. apply isolates_or_return; [apply _|preserve|intros key].
  unfold or_return. apply (isolates_bind Q (fun rows w => match rows with Ok rows => all_mine (map ca_id rows) w | Err _ => True end)).
  - preserve.
  - intros w a w' _ _ Ha. unfold attempt in Ha. destruct (folder_role_rows _ _ _ _ w) as [[rows|e] w1] eqn:Hs; injection Ha as <- <-; [|done].
    by eapply scan_mine.
  - intros [rows|e]; [|apply pres_ret; apply isolates_pre; intros x y ? [? ?]; split; [by eapply stable|done]].
    apply isolates_each; [apply _|]. intros row Hr. apply isolates_ai_one; [apply _|]. intros w. by apply in_scan.
Qed.
Lemma isolates_pass Q `{!Stable Q} : preserves (isolates Q) (spam_pass (K := K) (R := R) configs user).
Proof using All.
  unfold spam_pass, spam_pass_inner, spam_store. preserve;
    try (apply isolates_spam; apply own_sstmt; done); try (by apply isolates_ai); [by apply isolates_batch|by apply isolates_purge].
Qed.

Lemma own_lists_edit (m : io (mail * spam_tables) SyncError SpamSettingsResponse) : preserves own_lists m ->
  preserves (isolates anything) (on_spam (K := K) (R := R) (T := T) m).
Proof using Type. apply isolates_spam. Qed.
Lemma own_response : preserves own_lists (response_for user).
Proof using Type. unfold response_for, Spam.load_settings, list_senders. preserve; by apply own_sstmt. Qed.
Lemma own_put s : preserves own_lists (put_spam user s).
Proof using Type.
  unfold put_spam, Spam.save_settings. preserve; [|apply own_response]. apply own_sstmt. intros _ t. unfold others_spam. cbn. f_equal.
  destruct (existsb _ _).
  - induction (st_settings t) as [|r l IH]; [done|]. cbn. destruct (String.eqb_spec (sr_user r) user) as [Hr|Hr]; cbn; rewrite ?String.eqb_refl, IH; cbn.
    + done. + by destruct (String.eqb_spec (sr_user r) user).
  - rewrite List.filter_app. cbn. by rewrite String.eqb_refl, app_nil_r.
Qed.
Lemma own_delete e : preserves own_lists (delete_sender user e).
Proof using Type.
  unfold delete_sender, remove_sender. preserve; [|apply own_response]. apply own_sstmt. intros _ t. unfold others_spam. cbn. f_equal.
  rewrite filter_commute. apply filter_others. intros r Hr. by rewrite (proj1 (negb_true_iff _) Hr).
Qed.
Lemma own_post e l : preserves own_lists (post_sender user e l).
Proof using Type. unfold post_sender. preserve; [apply own_add_sender|apply own_response]. Qed.
End Isolation.

(** ** Any sequence of actions *)

Inductive action :=
  | Patch (message_id : string) (body : PatchMessageRequest) | Trash (message_id : string) | Archive (message_id : string)
  | MarkSpam (message_id : string) | NotSpam (message_id : string) | Snooze (message_id until : string)
  | Move (message_id folder_id : string) | Copy (message_id folder_id : string) | Discard (message_id : string)
  | SetRole (folder_id : string) (body : PatchFolderRequest) | PutSpam (body : SpamSettings)
  | PostSender (email : string) (edit : SenderList) | DeleteSender (email : string)
  | Rejudge (email : string) (edit : SenderList) | Pass.

Section Actions.
Context {K R T : Type} `{HasRng R} `{!RngLaws R} `{CryptoLib} `{!CryptoLaws} `{OAuthNet T} `{JmapWrites T} `{ImapSession T}
  `{MimeLib} `{UrlLib} `{UrlJoin} `{JmapTime} `{StoreLib} `{JsonLib} `{JobLib} `{LlmNet T} `{FeaturesLib} `{ImapCommands T}.
Context (configs : OAuthRefreshConfigs).
Local Abbreviation W := (desk K R T).
Implicit Types w : W.

(** The world after an action of [user], whatever it answers. *)
Definition perform (ua : string * action) w : W :=
  let user := fst ua in
  match snd ua with
  | Patch i body => snd (patch_message configs user i body w)
  | Trash i => snd (trash_message configs user i w)
  | Archive i => snd (archive_message configs user i w)
  | MarkSpam i => snd (spam_message configs user i w)
  | NotSpam i => snd (not_spam_message configs user i w)
  | Snooze i until => snd (snooze_message user i until w)
  | Move i f => snd (move_message configs user i f w)
  | Copy i f => snd (copy_message configs user i f w)
  | Discard i => snd (discard_draft configs user i w)
  | SetRole f body => snd (patch_folder configs user f body w)
  | PutSpam s => snd (on_spam (put_spam user s) w)
  | PostSender e l => snd (on_spam (post_sender user e l) w)
  | DeleteSender e => snd (on_spam (delete_sender user e) w)
  | Rejudge e l => snd (apply_sender_list_change configs user e l w)
  | Pass => snd (spam_pass configs user w)
  end.

(** Everything a user has: accounts, messages, verdicts, settings, senders, AI rows. *)
Definition of_user (user : string) w (m : MessageRow) : bool := existsb (owned_account user (m_account m)) (accounts w).
Definition mail_of (user : string) w : list MessageRow := List.filter (of_user user w) (messages w).
Definition estate (user : string) w :=
  (List.filter (fun r => String.eqb (ma_user_id r) user) (accounts w), mail_of user w,
   map (fun m => dk_verdicts w !! m_id m) (mail_of user w),
   List.filter (fun r => String.eqb (sr_user r) user) (st_settings (dk_spam w)),
   List.filter (fun r => String.eqb (sd_user r) user) (st_senders (dk_spam w)), dk_ai w).

Lemma run_isolated {E A} user (m : io W E A) w : preserves (isolates user (anything)) m -> unique_ids w -> isolated user w (snd (m w)).
Proof using Type. intros Hm Hu. destruct (m w) as [r w'] eqn:Hw. by eapply Hm. Qed.
Lemma perform_isolated user a w : unique_ids w -> isolated user w (perform (user, a) w).
Proof using All.
  intros Hu. destruct a; apply run_isolated; try done.
  - apply isolates_patch, stable_anything.
  - apply isolates_role_move, stable_anything.
  - apply isolates_role_move, stable_anything.
  - apply isolates_spam_button, stable_anything.
  - apply isolates_not_spam, stable_anything.
  - apply isolates_snooze, stable_anything.
  - apply isolates_folder_move, stable_anything.
  - apply isolates_folder_copy, stable_anything.
  - apply isolates_discard, stable_anything.
  - apply isolates_patch_folder, stable_anything.
  - apply own_lists_edit, own_put.
  - apply own_lists_edit, own_post.
  - apply own_lists_edit, own_delete.
  - apply isolates_rejudge, stable_anything.
  - apply isolates_pass, stable_anything.
Qed.

Lemma filter_within {A} (p q : A -> bool) l : (forall x, q x = true -> p x = true) -> List.filter q (List.filter p l) = List.filter q l.
Proof using Type. intros Hqp. rewrite filter_commute. by apply filter_others. Qed.
Lemma owned_spare user u a l l' : Forall2 (row_spare user) l l' -> existsb (owned_account u a) l' = existsb (owned_account u a) l.
Proof using Type. induction 1 as [|x y l l' [[c ->] _] _ IH]; [done|]. cbn. by rewrite IH. Qed.
Lemma of_user_mine user w m : of_user user w m = true <-> mine user (accounts w) (m_account m).
Proof using Type.
  unfold of_user, owned_account, account_is. rewrite existsb_exists. split.
  - intros (r & Hr & [Hi%String.eqb_eq Hu%String.eqb_eq]%andb_true_iff). exists r. split_and!; [by apply list_elem_of_In|done|done].
  - intros (r & Hr & Hi & Hu). exists r. split; [by apply list_elem_of_In|]. by rewrite Hi, Hu, !String.eqb_refl.
Qed.
Lemma one_owner w user victim a : unique_ids w -> user <> victim -> mine victim (accounts w) a -> ~ mine user (accounts w) a.
Proof using Type.
  intros [Hu _] Hne (r & Hr & Hi & Ho) (r' & Hr' & Hi' & Ho'). apply list_elem_of_lookup in Hr as [k Hk], Hr' as [j Hj].
  assert (k = j) as ->; [|congruence]. eapply (NoDup_lookup _ k j a Hu); rewrite list_lookup_fmap; [by rewrite Hk, <-Hi|by rewrite Hj, <-Hi'].
Qed.
Lemma mail_spared w w' user victim : unique_ids w -> user <> victim -> isolated user w w' -> mail_of victim w' = mail_of victim w.
Proof using Type.
  intros Hu Hne [Ha Hm _ _ _]. unfold mail_of.
  assert (Hof : forall m, of_user victim w' m = of_user victim w m) by (intros m; by eapply owned_spare).
  induction Hm as [|m m' ms ms' (Hid & Hac & Hs) _ IH]; [done|]. cbn. rewrite Hof.
  assert (Heq : of_user victim w m' = of_user victim w m) by (unfold of_user; by rewrite Hac). rewrite Heq.
  destruct (of_user victim w m) eqn:Ho; [|done]. rewrite IH, Hs; [done|]. apply (one_owner w user victim); [done|done|by apply of_user_mine].
Qed.
Lemma isolated_estate user victim w w' : unique_ids w -> user <> victim -> isolated user w w' -> estate victim w' = estate victim w.
Proof using Type.
  intros Hu Hne Hi. pose proof (mail_spared _ _ _ _ Hu Hne Hi) as Hmail. destruct Hi as [Ha _ Hv Hs Hai].
  unfold estate. rewrite Hmail, Hai. injection Hs as Hset Hsen.
  assert (Hk : forall {A} (key : A -> string) l l', List.filter (fun r => negb (String.eqb (key r) user)) l' = List.filter (fun r => negb (String.eqb (key r) user)) l ->
    List.filter (fun r => String.eqb (key r) victim) l' = List.filter (fun r => String.eqb (key r) victim) l).
  { intros A key l l' Hl. assert (Hin : forall x, String.eqb (key x) victim = true -> negb (String.eqb (key x) user) = true).
    { intros x ->%String.eqb_eq. by destruct (String.eqb_spec victim user). }
    rewrite <-(filter_within _ _ l Hin), <-(filter_within _ _ l' Hin). by rewrite Hl. }
  rewrite (Hk _ sr_user _ _ Hset), (Hk _ sd_user _ _ Hsen).
  replace (List.filter (fun r => String.eqb (ma_user_id r) victim) (accounts w'))
    with (List.filter (fun r => String.eqb (ma_user_id r) victim) (accounts w)).
  2: { clear -Ha Hne. induction Ha as [|r r' l l' [[c Hc] Hsp] _ IH]; [done|]. cbn. rewrite Hc. cbn.
       destruct (String.eqb_spec (ma_user_id r) victim) as [Hr|]; [|done]. rewrite IH, <-Hc, Hsp by congruence. done. }
  replace (map (fun m => dk_verdicts w' !! m_id m) (mail_of victim w)) with (map (fun m => dk_verdicts w !! m_id m) (mail_of victim w)); [done|].
  apply map_ext_in. intros m [Hm Ho]%filter_In. symmetry. apply Hv; [by apply list_elem_of_In|].
  apply (one_owner w user victim); [done|done|by apply of_user_mine].
Qed.

(** C20: no user's action reaches another user.  Run any sequence of message actions, spam-list
    edits, re-judges and anti-spam passes of other users, against any mail servers and any
    failure of them or of the database: the accounts, messages, verdicts, spam settings and
    sender lists of [victim] are what they were. *)
Theorem actions_isolate_users (acts : list (string * action)) w victim :
  unique_ids w -> Forall (fun ua => fst ua <> victim) acts ->
  estate victim (foldl (fun w ua => perform ua w) w acts) = estate victim w.
Proof using All.
  intros Hu Hf. revert w Hu. induction Hf as [|[user a] acts Hne _ IH]; intros w Hu; [done|]. cbn [foldl].
  pose proof (perform_isolated user a w Hu) as Hi. rewrite IH by (by eapply isolated_unique).
  by apply (isolated_estate user).
Qed.
End Actions.

(** Alice turns the filter on, reports a message, moves another, and the pass runs: Bob's copy of
    the same spam, from the same sender, stays where it is. *)
Definition alice : list (string * action) :=
  [("u1", PutSpam (mkSpam true true false Standard)); ("u1", MarkSpam "m1"); ("u1", Move "m2" "f2"); ("u1", MarkSpam "n1");
   ("u1", Rejudge "casino@bad.org" Blocked); ("u1", Pass)].
Definition after_alice : desk MemoryKv.t N toy_net := foldl (fun w ua => perform box_configs ua w) (box_desk [] [] []) alice.
Lemma actions_isolate_users_witness :
  map (fun m => (m_id m, m_folder m)) (mail_of "u1" after_alice) = [("m1", "f3"); ("m2", "f2")] /\
  estate "u2" after_alice = estate "u2" (box_desk [] [] []).
Proof.
  split; [vm_compute; reflexivity|]. apply (actions_isolate_users box_configs alice (box_desk [] [] []) "u2").
  - split; apply (bool_decide_unpack _); vm_compute; exact I.
  - repeat (apply Forall_cons; split; [done|]). apply Forall_nil. exact I.
Defined.
