(* ===== verification/Moves.v ===== *)
(** * The mail server first, the row after

    While the database answers, an action that fails has changed no message row and no folder
    row; a move that succeeds was accepted by the mail server and rewrites exactly the moved
    row.  The last part runs two moves in a row on a concrete server. *)
From S2P Require Import Prelude Kv Crypto UnlockRing World Toy Session Labels Jobs Pool Netsec MailStore Imap ImapLoop Blobs Jmap JmapLoop.
From S2P Require Import Spam OAuth Ai JmapWrite Desk Actions SpamPass ToyDesk.
Local Open Scope string_scope.
Local Open Scope Z_scope.

Section Moves.
Context {K R T : Type} `{HasRng R} `{CryptoLib} `{OAuthNet T} `{JmapWrites T} `{ImapSession T} `{MimeLib} `{UrlLib} `{UrlJoin}
  `{JmapTime} `{StoreLib} `{JsonLib} `{JobLib} `{ImapCommands T}.
Context (configs : OAuthRefreshConfigs).
Local Abbreviation W := (desk K R T).
Local Abbreviation M := (io W SyncError).
Implicit Types w : W.

Definition rows w : Z * list MessageRow * list FolderRow := (ml_now (dk_mail w), ml_messages (dk_mail w), ml_folders (dk_mail w)).
Definition up w : Prop := ml_fuse (dk_mail w) = None.

(** ** Steady, total and clean steps *)

Definition steady_rel w w' : Prop := up w -> up w' /\ rows w' = rows w.
#[local] Instance steady_pre : PreOrder steady_rel.
Proof.
  split; [by intros w Hu|]. intros x y z Hxy Hyz Hu. destruct (Hxy Hu) as [Hy Hr]. destruct (Hyz Hy) as [Hz Hr'].
  split; [done|]. by rewrite Hr'.
Qed.
Definition steady {E A} (m : io W E A) : Prop := preserves steady_rel m.
Definition total {E A} (m : io W E A) : Prop := forall w, up w -> exists a w', m w = (Ok a, w') /\ up w'.
Definition clean {E A} (m : io W E A) : Prop :=
  forall w r w', up w -> m w = (r, w') -> up w' /\ (is_ok r = false -> rows w' = rows w).

Lemma clean_steady {E A} (m : io W E A) : steady m -> clean m.
Proof using Type. intros Hm w r w' Hu Hr. destruct (Hm w r w' Hr Hu) as [? ?]. by split. Qed.
Lemma clean_total {E A} (m : io W E A) : total m -> clean m.
Proof using Type. intros Hm w r w' Hu Hr. destruct (Hm w Hu) as (a & w1 & Ha & Hu1). rewrite Ha in Hr. by injection Hr as <- <-. Qed.
Lemma clean_bind {E A B} (m : io W E A) (k : A -> io W E B) : steady m -> (forall a, clean (k a)) -> clean (bind m k).
Proof using Type.
  intros Hm Hk w r w' Hu Hr. apply bind_inv in Hr as [(e & He & ->)|(a & w1 & Ha & Hr)].
  - destruct (Hm _ _ _ He Hu) as [? ?]. by split.
  - destruct (Hm _ _ _ Ha Hu) as [Hu1 Hr1]. destruct (Hk a w1 r w' Hu1 Hr) as [? Hc]. split; [done|]. intros Ho. by rewrite Hc.
Qed.
Lemma total_ret {E A} (a : A) : total (ret (E := E) a).
Proof using Type. intros w Hu. by exists a, w. Qed.
Lemma total_bind {E A B} (m : io W E A) (k : A -> io W E B) : total m -> (forall a, total (k a)) -> total (bind m k).
Proof using Type. intros Hm Hk w Hu. destruct (Hm w Hu) as (a & w1 & Ha & Hu1). unfold bind. rewrite Ha. by apply Hk. Qed.

Lemma stmt_up {A} (f : W -> A * W) w : up w -> stmt f w = (Ok (fst (f w)), snd (f w)).
Proof using Type.
  unfold up, stmt, mstmt. intros Hu. rewrite Hu. cbn. replace (set_mail (set_fuse None (dk_mail w)) w) with w; [by destruct (f w)|].
  destruct w as [o [? ? ? ? ? fuse] ? ? ? ? ? ? ?]. cbn in *. by subst fuse.
Qed.
Lemma total_stmt {A} (f : W -> A * W) : (forall w, ml_fuse (dk_mail (snd (f w))) = ml_fuse (dk_mail w)) -> total (stmt f).
Proof using Type. intros Hf w Hu. rewrite stmt_up by done. eexists _, _. split; [done|]. unfold up. by rewrite Hf. Qed.
Lemma steady_read {A} (f : W -> A) : steady (stmt (fun w => (f w, w))).
Proof using Type. intros w r w' Hr Hu. rewrite stmt_up in Hr by done. by injection Hr as _ <-. Qed.
Lemma steady_same {E A} (m : io W E A) : (forall w r w', m w = (r, w') -> dk_mail w' = dk_mail w) -> steady m.
Proof using Type. intros Hm w r w' Hr Hu. unfold up, rows. by rewrite (Hm _ _ _ Hr). Qed.
Lemma steady_net {E A} (m : io T E A) : steady (Desk.on_net (K := K) (R := R) m).
Proof using Type. apply steady_same. intros w r w'. unfold Desk.on_net. destruct (m _) as [x n]. by intros [= _ <-]. Qed.
Lemma steady_ow {E A} (m : io (oauth_world K R T) E A) : steady (on_ow m).
Proof using Type. apply steady_same. intros w r w'. unfold on_ow. destruct (m _) as [x n]. by intros [= _ <-]. Qed.
Lemma steady_seams {E A} (m : io _ E A) : steady (on_seams (K := K) (R := R) (T := T) m).
Proof using Type. apply steady_same. intros w r w'. unfold on_seams. destruct (m _) as [x [c n]]. by intros [= _ <-]. Qed.
Lemma steady_client {A} c (m : io (ImapClient T) ImapError A) :
  steady ((fun w : W => let '(r, c') := m c in (rmap_err Imap r, set_net (cl_session c') w)) : M A).
Proof using Type. apply steady_same. intros w r w'. destruct (m c) as [x c']. by intros [= _ <-]. Qed.
Lemma steady_modify {E} (f : W -> W) : (forall w, dk_mail (f w) = dk_mail w) -> steady (modify (E := E) f).
Proof using Type. intros Hf. apply steady_same. by intros w r w' [= _ <-]. Qed.
#[local] Hint Extern 1 (preserves steady_rel (stmt _)) => apply steady_read : preserve.
#[local] Hint Extern 1 (preserves steady_rel (Desk.on_net _)) => apply steady_net : preserve.
#[local] Hint Extern 1 (preserves steady_rel (on_ow _)) => apply steady_ow : preserve.
#[local] Hint Extern 1 (preserves steady_rel (on_seams _)) => apply steady_seams : preserve.

Definition plain_spam (x y : mail * spam_tables) : Prop :=
  ml_fuse (fst x) = None -> ml_fuse (fst y) = None /\ ml_now (fst y) = ml_now (fst x) /\ ml_messages (fst y) = ml_messages (fst x)
    /\ ml_folders (fst y) = ml_folders (fst x).
#[local] Instance plain_spam_pre : PreOrder plain_spam.
Proof. split; [by intros ? ?|]. intros x y z Hxy Hyz Hu. destruct (Hxy Hu) as (Hy & ? & ? & ?). destruct (Hyz Hy) as (? & ? & ? & ?). split_and!; congruence. Qed.
Lemma plain_sstmt {A} (f : Z -> spam_tables -> A * spam_tables) : preserves plain_spam (sstmt f).
Proof using Type.
  intros [db t] r [db' t'] Hr Hu. cbn in Hu. unfold sstmt, mstmt in Hr. rewrite Hu in Hr. cbn in Hr.
  destruct (f (ml_now db) t) as [a t2]. by injection Hr as _ <- <-.
Qed.
Lemma steady_learn u e b : steady (learn_and_rejudge (K := K) (R := R) (T := T) u e b).
Proof using Type.
  assert (Hl : preserves plain_spam (learn_sender (E := SyncError) u e b)).
  { unfold learn_sender, Spam.load_settings, add_sender, drop_other, insert_sender. preserve; try apply plain_sstmt.
    intros [db t] r w'. unfold spam_uuid. by intros [= _ <-]. }
  unfold learn_and_rejudge, steady. preserve; [|by apply steady_modify].
  intros w r w'. unfold on_spam. destruct (learn_sender u e b _) as [x [db t]] eqn:Hx. intros [= _ <-] Hu.
  destruct (Hl _ _ _ Hx Hu) as (? & Hn & Hm & Hf). split; [done|]. unfold rows. cbn in *. by rewrite Hn, Hm, Hf.
Qed.
Lemma steady_active u a : steady (active_account (K := K) (R := R) (T := T) u a).
Proof using Type. unfold active_account, steady. preserve. Qed.
Lemma steady_key u a : steady (dek_and_credential (K := K) (R := R) (T := T) u a).
Proof using Type. unfold dek_and_credential, steady. preserve. Qed.
Lemma steady_imap u a : steady (connect_imap_for_account (K := K) (R := R) configs u a).
Proof using Type.
  unfold connect_imap_for_account, steady. preserve; try apply steady_key; try apply steady_active.
  apply steady_same. intros w r w'. destruct (Imap.connect _ _) as [[c|e] n]; by intros [= _ <-].
Qed.
Lemma steady_with_imap {A} u a (m : io (ImapClient T) ImapError A) : steady (with_imap (K := K) (R := R) configs u a m).
Proof using Type. unfold with_imap, steady. apply pres_bind; [apply _|apply steady_imap|intros c; apply steady_client]. Qed.
Lemma steady_jmap u a : steady (connect_jmap_for_account (K := K) (R := R) (T := T) u a).
Proof using Type. unfold connect_jmap_for_account, steady. preserve; [apply steady_key|apply steady_active]. Qed.
Lemma steady_jmap_call {A} a (m : io T JmapError A) : steady (jmap_call (K := K) (R := R) a m).
Proof using Type. unfold jmap_call, steady. preserve. by apply steady_modify. Qed.
Lemma steady_load u i : steady (load_message_row (K := K) (R := R) (T := T) u i).
Proof using Type. unfold load_message_row, steady. preserve. Qed.
#[local] Hint Extern 1 (preserves steady_rel _) =>
  first [apply steady_learn|apply steady_with_imap|apply steady_jmap|apply steady_jmap_call|apply steady_load] : preserve.

(** ** The local half never fails *)

Lemma total_edit i f : total (edit_message (K := K) (R := R) (T := T) i f).
Proof using Type. by apply total_stmt. Qed.
Lemma counts_up f w : up w -> exists db, counts (K := K) (R := R) (T := T) f w = (Ok tt, set_mail db w) /\ ml_fuse db = None /\
  ml_now db = ml_now (dk_mail w) /\ ml_messages db = ml_messages (dk_mail w).
Proof using Type.
  unfold up, counts, on_mail, update_folder_counts, transaction, update_folder_counts_in_tx, update_folder, bind, mstmt. intros Hu.
  rewrite Hu. cbn. eexists. split_and!; done.
Qed.
Lemma total_counts f : total (counts (K := K) (R := R) (T := T) f).
Proof using Type. intros w Hu. destruct (counts_up f w Hu) as (db & Hc & Hf & _). rewrite Hc. by eexists _, _. Qed.
Lemma total_soft_delete i : total (soft_delete_message_row (K := K) (R := R) (T := T) i).
Proof using Type. apply total_edit. Qed.
Ltac total_tac := repeat first [apply total_ret|apply total_edit|apply total_counts|apply total_soft_delete|apply total_bind; [|intros ?]].
(** Steady up to the first write, total from it on. *)
Ltac clean_tac :=
  cbv zeta;
  match goal with
  | |- clean (match ?o with _ => _ end) => destruct o; clean_tac
  | |- clean (bind _ _) =>
      first [apply clean_total; solve [total_tac] | apply clean_bind; [unfold steady; solve [preserve]|intros ?; clean_tac]]
  | |- clean _ => first [apply clean_total; solve [total_tac] | apply clean_steady; unfold steady; solve [preserve] | idtac]
  end.

Lemma clean_move u row d de dn : clean (apply_message_move (K := K) (R := R) configs u row d de dn).
Proof using Type. unfold apply_message_move. clean_tac. Qed.
Lemma clean_then {E A B} (m : io W E A) (k : A -> io W E B) : clean m -> (forall a, total (k a)) -> clean (bind m k).
Proof using Type.
  intros Hm Hk w r w' Hu Hr. apply bind_inv in Hr as [(e & He & ->)|(a & w1 & Ha & Hr)]; [destruct (Hm _ _ _ Hu He); by split|].
  destruct (Hm _ _ _ Hu Ha) as [Hu1 _]. destruct (Hk a w1 Hu1) as (b & w2 & Hb & Hu2). rewrite Hb in Hr. by injection Hr as <- <-.
Qed.
Lemma clean_user_move u row d dr : clean (apply_user_move (K := K) (R := R) configs u row d dr).
Proof using Type.
  unfold apply_user_move. cbv zeta. apply clean_bind; [unfold steady; preserve|intros _; apply clean_move].
Qed.
Lemma clean_role_move u i role : clean (move_message_to_role (K := K) (R := R) configs i u role).
Proof using Type.
  unfold move_message_to_role, role_folder. clean_tac. apply clean_then; [apply clean_user_move|intros; apply total_ret].
Qed.
Lemma clean_folder_move u i f : clean (move_message (K := K) (R := R) configs u i f).
Proof using Type.
  unfold move_message, chosen_folder, folder_row. clean_tac. apply clean_then; [apply clean_user_move|intros; apply total_ret].
Qed.
Lemma clean_copy u i f : clean (copy_message (K := K) (R := R) configs u i f).
Proof using Type. unfold copy_message, chosen_folder, folder_row, apply_message_copy. clean_tac. Qed.
Lemma clean_patch u i body : clean (patch_message (K := K) (R := R) configs u i body).
Proof using Type. unfold patch_message, patch_imap, patch_jmap. clean_tac. Qed.
Lemma clean_discard u i : clean (discard_draft (K := K) (R := R) configs u i).
Proof using Type. unfold discard_draft, delete_on_server. clean_tac. Qed.
Lemma clean_destroy u i : clean (destroy_row_server_side (K := K) (R := R) configs u i).
Proof using Type. unfold destroy_row_server_side, delete_on_server. clean_tac. Qed.

(** ** The properties *)

Inductive row_action := ToRole (i role : string) | ToFolder (i f : string) | CopyTo (i f : string)
  | Flags (i : string) (body : PatchMessageRequest) | DiscardDraft (i : string) | Destroy (i : string).
Definition run_action (u : string) (a : row_action) : M unit :=
  match a with
  | ToRole i role => let! _ := move_message_to_role configs i u role in ret tt
  | ToFolder i f => let! _ := move_message configs u i f in ret tt
  | CopyTo i f => let! _ := copy_message configs u i f in ret tt
  | Flags i body => let! _ := patch_message configs u i body in ret tt
  | DiscardDraft i => let! _ := discard_draft configs u i in ret tt
  | Destroy i => destroy_row_server_side configs u i
  end.

(** An action that fails has changed nothing here.  While the database answers, a move, a
    copy, a change of flags or labels, a discarded draft or a purge that ends in an error -
    whatever the mail server, the token endpoint or the stored credential did - leaves every
    message row and every folder row, counts included, as they were. *)
Theorem failed_action_keeps_rows u a w e w' :
  ml_fuse (dk_mail w) = None -> run_action u a w = (Err e, w') ->
  ml_messages (dk_mail w') = ml_messages (dk_mail w) /\ ml_folders (dk_mail w') = ml_folders (dk_mail w).
Proof using Type.
  intros Hu Hr. assert (Hc : clean (run_action u a)).
  { destruct a; cbn [run_action]; try (apply clean_then; [|intros; apply total_ret]);
      [apply clean_role_move|apply clean_folder_move|apply clean_copy|apply clean_patch|apply clean_discard|apply clean_destroy]. }
  destruct (Hc _ _ _ Hu Hr) as [_ Hrows]. specialize (Hrows eq_refl). by injection Hrows as _ -> ->.
Qed.

(** The server took the move: the last state of the network is the one its answer left. *)
Definition accepted (row : LoadedRow) (dest_external : option string) (dest_name : string) w' : Prop :=
  (lr_protocol row = "imap" /\ exists uid c c', parse_imap_uid (m_external (lr_msg row)) = Ok uid /\
     (let! _ := Imap.select (lr_folder_name row) in move_uid uid dest_name) c = (Ok tt, c') /\ net w' = cl_session c') \/
  (lr_protocol row = "jmap" /\ exists seam id mailbox n, m_external (lr_msg row) = Some id /\ dest_external = Some mailbox /\
     set_email_mailboxes seam id [mailbox] n = (Ok tt, net w')).
Lemma ok_or_some {E A} (e : E) (o : option A) a : ok_or e o = Ok a -> o = Some a.
Proof using Type. by destruct o as [x|]; intros [= ->]. Qed.
Lemma move_tail i d f w r w' : up w ->
  (let! _ := edit_message i (in_folder d) in let! _ := counts f in counts d : M unit) w = (r, w') ->
  r = Ok tt /\ net w' = net w /\ ml_messages (dk_mail w') = update_messages (has_id i) (in_folder d (Desk.now w)) (ml_messages (dk_mail w)).
Proof using Type.
  intros Hu Hr. unfold edit_message in Hr. unfold bind at 1 in Hr. rewrite stmt_up in Hr by done. cbn [fst snd] in Hr.
  match type of Hr with bind (counts f) _ ?x = _ => set (w1 := x) in Hr end. assert (Hu1 : up w1) by exact Hu.
  destruct (counts_up f w1 Hu1) as (db & Hc & Hf & _ & Hm). unfold bind in Hr. rewrite Hc in Hr.
  destruct (counts_up d (set_mail db w1) Hf) as (db2 & Hc2 & _ & _ & Hm2). rewrite Hc2 in Hr. injection Hr as <- <-.
  split_and!; [done|done|]. cbn. rewrite Hm2. cbn. by rewrite Hm.
Qed.

(** C22: the mail server moves first.  While the database answers, moving a loaded message either
    fails and leaves every row, or the server of the message's account accepted the move of this
    very UID or e-mail and then the row's folder, and nothing else of any message, is rewritten. *)
Theorem move_is_server_first u row d de dn w r w' :
  ml_fuse (dk_mail w) = None -> apply_message_move configs u row d de dn w = (r, w') ->
  match r with
  | Err _ => ml_messages (dk_mail w') = ml_messages (dk_mail w) /\ ml_folders (dk_mail w') = ml_folders (dk_mail w)
  | Ok _ => accepted row de dn w' /\
      ml_messages (dk_mail w') = update_messages (has_id (m_id (lr_msg row))) (in_folder d (Desk.now w)) (ml_messages (dk_mail w))
  end.
Proof using Type.
  intros Hu Hr. destruct r as [[]|e]; [|destruct (clean_move u row d de dn _ _ _ Hu Hr) as [_ Hrows]; specialize (Hrows eq_refl);
    by injection Hrows as _ -> ->].
  unfold apply_message_move in Hr. apply bind_Ok in Hr as ([] & w1 & Hs & Ht).
  assert (Hst : up w1 /\ rows w1 = rows w /\ accepted row de dn w1).
  { unfold accepted. destruct (String.eqb_spec (lr_protocol row) "imap") as [Hp|_].
    - apply bind_Ok in Hs as (uid & w0 & [= Huid <-] & Hs). destruct (steady_with_imap _ _ _ _ _ _ Hs Hu) as [? ?].
      split_and!; [done|done|]. left. split; [done|]. apply bind_Ok in Hs as (c & w2 & _ & Hs).
      destruct ((let! _ := Imap.select (lr_folder_name row) in move_uid uid dn) c) as [x c'] eqn:Hx. injection Hs as Hx' <-.
      exists uid, c, c'. split_and!; [done| |done]. by destruct x as [[]|].
    - destruct (String.eqb_spec (lr_protocol row) "jmap") as [Hp|]; [|done].
      apply bind_Ok in Hs as (id & w0 & [= Hid <-] & Hs). apply bind_Ok in Hs as (mb & w0 & [= Hmb <-] & Hs).
      apply bind_Ok in Hs as (seam & w2 & Hc & Hs). destruct (steady_jmap _ _ _ _ _ Hc Hu) as [Hu2 Hr2].
      destruct (steady_jmap_call _ _ _ _ _ Hs Hu2) as [? Hr1]. split_and!; [done|by rewrite Hr1|]. right. split; [done|].
      unfold jmap_call in Hs. apply bind_Ok in Hs as (x & w3 & Hx & Hs). unfold attempt, Desk.on_net in Hx.
      destruct (set_email_mailboxes seam id [mb] (net w2)) as [y n] eqn:Hy. injection Hx as <- <-.
      destruct y as [[]|e]; [|by apply bind_Ok in Hs as (? & ? & _ & ?)]. injection Hs as <-.
      exists seam, id, mb, (net w2). split_and!; [by eapply ok_or_some|by eapply ok_or_some|done]. }
  destruct Hst as (Hu1 & Hr1 & Hacc). destruct (move_tail _ _ _ _ _ _ Hu1 Ht) as (_ & Hn & Hm). injection Hr1 as Hnow Hmm Hff.
  split; [unfold accepted in *; by rewrite Hn|]. rewrite Hm, Hmm. unfold Desk.now. by rewrite Hnow.
Qed.
End Moves.

(** ** One folder per role *)

Section Roles.
Context {K R T : Type} `{HasRng R} `{CryptoLib} `{OAuthNet T} `{JmapWrites T} `{ImapSession T} `{MimeLib} `{UrlLib} `{UrlJoin}
  `{JmapTime} `{StoreLib} `{JsonLib} `{JobLib} `{ImapCommands T}.
Context (configs : OAuthRefreshConfigs).
Local Abbreviation W := (desk K R T).
Implicit Types w : W.

(** No account has two folders overridden to the same role; folder ids are unique. *)
Record roles_ok (l : list FolderRow) : Prop := {
  ro_ids : NoDup (f_id <$> l);
  ro_roles i j f g role : l !! i = Some f -> l !! j = Some g -> f_account f = f_account g ->
    f_role_override f = Some role -> f_role_override g = Some role -> i = j }.
Definition folders w : list FolderRow := ml_folders (dk_mail w).
Definition same_folders w w' : Prop := folders w' = folders w.
#[local] Instance same_folders_pre : PreOrder same_folders.
Proof. split; [by intros w|]. unfold same_folders. intros x y z ? ?. congruence. Qed.

Lemma ids_kept p f l : (forall r, f_id (f r) = f_id r) -> f_id <$> update_folders p f l = f_id <$> l.
Proof using Type.
  intros Hf. unfold update_folders. rewrite <-list_fmap_compose. apply list_fmap_ext. intros i r _. unfold compose. cbn.
  destruct (p r); [apply Hf|done].
Qed.
Lemma update_lookup p f l i r' : update_folders p f l !! i = Some r' ->
  exists r, l !! i = Some r /\ r' = (if p r then f r else r).
Proof using Type. unfold update_folders. intros (r & -> & Hr)%list_lookup_fmap_Some. by exists r. Qed.
(** Clearing overrides keeps the invariant. *)
Lemma clear_ok p stamp l : roles_ok l -> roles_ok (update_folders p (set_role_override None stamp) l).
Proof using Type.
  intros [Hi Hr]. split; [by rewrite ids_kept|]. intros i j f g role Hf Hg Ha Hof Hog.
  apply update_lookup in Hf as (f0 & Hf0 & ->), Hg as (g0 & Hg0 & ->).
  destruct (p f0); [done|]. destruct (p g0); [done|]. by eapply Hr.
Qed.
(** Giving the role to one folder, once no other folder of the account has it. *)
Lemma promote_ok id role stamp l : roles_ok l ->
  (forall f g, f ∈ l -> g ∈ l -> f_id f = id -> f_id g <> id -> f_account g = f_account f -> f_role_override g <> Some role) ->
  roles_ok (update_folders (folder_by_id id) (set_role_override (Some role) stamp) l).
Proof using Type.
  intros [Hi Hr] Hno. split; [by rewrite ids_kept|]. intros i j f g role' Hf Hg Ha Hof Hog.
  apply update_lookup in Hf as (f0 & Hf0 & ->), Hg as (g0 & Hg0 & ->). unfold folder_by_id in *.
  destruct (String.eqb_spec (f_id f0) id) as [Hfi|Hfi], (String.eqb_spec (f_id g0) id) as [Hgi|Hgi]; cbn in *.
  - eapply (NoDup_lookup _ i j id Hi); rewrite list_lookup_fmap; [by rewrite Hf0, <-Hfi|by rewrite Hg0, <-Hgi].
  - injection Hof as <-. exfalso. eapply (Hno f0 g0); [by eapply list_elem_of_lookup_2..|done|done|done|done].
  - injection Hog as <-. exfalso. eapply (Hno g0 f0); [by eapply list_elem_of_lookup_2..|done|done|done|done].
  - by eapply Hr.
Qed.
Lemma promoted_ok a id role stamp stamp' l : roles_ok l ->
  (forall f, f ∈ l -> f_id f = id -> f_account f = a) ->
  roles_ok (update_folders (folder_by_id id) (set_role_override (Some role) stamp')
    (update_folders (demoted a role id) (set_role_override None stamp) l)).
Proof using Type.
  intros Hok Ha. apply promote_ok; [by apply clear_ok|]. intros f g Hf Hg Hfi Hgi Hac Hro.
  apply list_elem_of_lookup in Hf as [i Hi], Hg as [j Hj]. apply update_lookup in Hi as (f0 & Hf0 & ->), Hj as (g0 & Hg0 & ->).
  assert (Hfa : f_account f0 = a).
  { apply Ha; [by eapply list_elem_of_lookup_2|]. by destruct (demoted a role id f0). }
  assert (Hd : demoted a role id g0 = false) by (by destruct (demoted a role id g0)).
  rewrite Hd in Hgi, Hac, Hro. unfold demoted, folder_by_id in Hd.
  assert (Hga : f_account g0 = a) by (rewrite Hac; by destruct (demoted a role id f0)).
  rewrite Hga, String.eqb_refl, bool_decide_true in Hd by done. cbn in Hd. by destruct (String.eqb_spec (f_id g0) id).
Qed.

Lemma same_of_mail {E A} (m : io W E A) : (forall w r w', m w = (r, w') -> dk_mail w' = dk_mail w) -> preserves same_folders m.
Proof using Type. intros Hm w r w' Hr. unfold same_folders, folders. by rewrite (Hm _ _ _ Hr). Qed.
Lemma stmt_folders {A} (f : W -> A * W) w r w' : stmt f w = (r, w') ->
  folders w' = folders w \/ exists db a, ml_folders db = folders w /\ f (set_mail db w) = (a, w').
Proof using Type.
  unfold stmt, mstmt. destruct (ml_fuse (dk_mail w)) as [[|n]|]; [intros [= _ <-]; by left| |];
    (cbn; destruct (f _) as [a w2] eqn:Hf; intros [= _ <-]; right; eexists _, a; split; [|exact Hf]; done).
Qed.
Lemma same_read {A} (f : W -> A) : preserves same_folders (stmt (fun w => (f w, w))).
Proof using Type. intros w r w' [?|(db & a & Hf & [= _ <-])]%stmt_folders; [done|exact Hf]. Qed.
#[local] Hint Extern 1 (preserves same_folders (stmt _)) => apply same_read : preserve.
Lemma same_with_imap {A} u a (m : io (ImapClient T) ImapError A) : preserves same_folders (with_imap (K := K) (R := R) configs u a m).
Proof using Type.
  unfold with_imap, connect_imap_for_account, dek_and_credential, active_account. preserve; apply same_of_mail; intros w r w'.
  - unfold on_ow. destruct (on_auth _ _) as [x o]. by intros [= _ <-].
  - unfold on_ow. destruct (resolve_mail_access_secret _ _ _ _ _ _ _) as [x o]. by intros [= _ <-].
  - destruct (Imap.connect _ _) as [[c|e] n]; by intros [= _ <-].
  - match goal with |- context [m ?c] => destruct (m c) as [x c'] end. by intros [= _ <-].
Qed.
#[local] Hint Resolve same_with_imap : preserve.
Lemma same_push u a f role : preserves same_folders (best_effort_push_specialuse (K := K) (R := R) configs u a f role).
Proof using Type. unfold best_effort_push_specialuse, folder_row, ignore. preserve. Qed.
Lemma edit_folders_run p f w r w' : edit_folders (K := K) (R := R) (T := T) p f w = (r, w') ->
  folders w' = folders w \/ exists stamp, folders w' = update_folders p (f stamp) (folders w).
Proof using Type.
  intros [?|(db & a & Hf & Hr)]%stmt_folders; [by left|right]. injection Hr as _ <-. eexists. unfold folders at 1. cbn. by rewrite Hf.
Qed.
Lemma roles_edit (w w' : W) p (f : string -> FolderRow -> FolderRow) : (forall stamp, roles_ok (update_folders p (f stamp) (folders w))) -> roles_ok (folders w) ->
  folders w' = folders w \/ (exists stamp, folders w' = update_folders p (f stamp) (folders w)) -> roles_ok (folders w').
Proof using Type. intros Hf Hok [->|[stamp ->]]; auto. Qed.

(** The two writes of [patch_folder]. *)
Lemma set_role_ok a id role w r w' : roles_ok (folders w) -> (forall f, f ∈ folders w -> f_id f = id -> f_account f = a) ->
  (let! _ := edit_folders (K := K) (R := R) (T := T) (demoted a role id) (set_role_override None) in
   edit_folders (folder_by_id id) (set_role_override (Some role))) w = (r, w') -> roles_ok (folders w').
Proof using Type.
  intros Hok Ha Hr. apply bind_inv in Hr as [(e & He & _)|([] & w1 & Hdem & Hpro)].
  - eapply roles_edit; [|exact Hok|by eapply edit_folders_run]. intros stamp. by apply clear_ok.
  - apply edit_folders_run in Hpro. unfold edit_folders in Hdem. unfold stmt, mstmt in Hdem.
    destruct (ml_fuse (dk_mail w)) as [[|n]|]; [done| |];
      (cbn in Hdem; injection Hdem as <-; destruct Hpro as [->|[stamp ->]]; [by apply clear_ok|by apply promoted_ok]).
Qed.
(** An account has one folder per role at most.  Whatever a request asks, and wherever the
    database or the mail server fails in the middle of it, no two folders of an account are
    overridden to the same role afterwards if none were before. *)
Theorem roles_stay_unique u id body w r w' :
  roles_ok (folders w) -> patch_folder configs u id body w = (r, w') -> roles_ok (folders w').
Proof using Type.
  intros Hok Hr. unfold patch_folder in Hr.
  apply bind_inv in Hr as [(e & He & _)|(acc & w1 & Hacc & Hr)]; [apply same_read in He; by rewrite He|].
  assert (Hf1 : folders w1 = folders w) by (by apply same_read in Hacc). 
  assert (Hans : acc = option_map f_account (owned_folder u id w1)).
  { revert Hacc. unfold stmt, mstmt. destruct (ml_fuse (dk_mail w)) as [[|n]|]; by intros [= <- <-]. }
  apply bind_inv in Hr as [(e & [= _ <-] & _)|(a & w2 & [= Ha <-] & Hr)]; [by rewrite Hf1|]. subst acc.
  assert (Hall : forall f, f ∈ folders w1 -> f_id f = id -> f_account f = a).
  { unfold owned_folder in Ha. destruct (List.find (folder_by_id id) (ml_folders (dk_mail w1))) as [g|] eqn:Hg; [|done]. cbn in Ha.
    destruct (existsb _ _); [|done]. injection Ha as <-. apply find_some in Hg as [Hg Hgi]. apply String.eqb_eq in Hgi.
    intros f Hf Hfi. rewrite <-Hf1 in Hok. apply list_elem_of_In, list_elem_of_lookup in Hg as [i Hi]. apply list_elem_of_lookup in Hf as [j Hj].
    assert (i = j) as ->; [|unfold folders in Hj; congruence].
    eapply (NoDup_lookup _ i j id (ro_ids _ Hok)); rewrite list_lookup_fmap; [unfold folders; by rewrite Hi, <-Hgi|by rewrite Hj, <-Hfi]. }
  rewrite <-Hf1 in Hok.
  match type of Hr with bind ?m ?k w1 = _ => assert (Hk : forall x, preserves same_folders (k x)); [|assert (Hm : forall y z, m w1 = (y, z) -> roles_ok (folders z))] end.
  - intros x. unfold folder_row. preserve. apply same_push.
  - intros y z Hy. destruct (pf_clear body).
    + eapply roles_edit; [|exact Hok|by eapply edit_folders_run]. intros stamp. by apply clear_ok.
    + destruct (pf_role_override body) as [role|]; [|by injection Hy as _ <-].
      destruct (negb _); [by injection Hy as _ <-|]. by eapply set_role_ok.
  - apply bind_inv in Hr as [(e & He & _)|(x & w3 & Hx & Hr)]; [by eapply Hm|]. apply (Hk x) in Hr. rewrite Hr. by eapply Hm.
Qed.
End Roles.

(** ** Concrete runs *)

Definition fresh : desk MemoryKv.t N toy_net := box_desk [] [] [].
Definition offer_row : LoadedRow :=
  mkLoaded (box_message "m1" "a1" "f1" 7 "casino@bad.org" "Casino lottery viagra") "INBOX" (Some "inbox") "imap" false.
(** The server lost its mailboxes. *)
Definition emptied : desk MemoryKv.t N toy_net := set_net (mkNet ∅ None [] []) fresh.
Definition refused_move := run_action box_configs "u1" (ToRole "m1" "archive") emptied.
Lemma failed_action_keeps_rows_witness :
  fst refused_move = Err (Imap (ImapProtocol "no such mailbox")) /\
  ml_messages (dk_mail (snd refused_move)) = ml_messages (dk_mail emptied) /\
  ml_folders (dk_mail (snd refused_move)) = ml_folders (dk_mail emptied).
Proof.
  assert (Hr : run_action box_configs "u1" (ToRole "m1" "archive") emptied
    = (Err (Imap (ImapProtocol "no such mailbox")), snd refused_move)) by (vm_compute; reflexivity).
  split; [vm_compute; reflexivity|].
  exact (failed_action_keeps_rows box_configs "u1" (ToRole "m1" "archive") emptied _ (snd refused_move) eq_refl Hr).
Defined.
Definition archived := apply_message_move box_configs "u1" offer_row "f2" (Some "Archive") "Archive" fresh.
Lemma move_is_server_first_witness :
  accepted offer_row (Some "Archive") "Archive" (snd archived) /\
  ml_messages (dk_mail (snd archived)) = update_messages (has_id "m1") (in_folder "f2" (Desk.now fresh)) (ml_messages (dk_mail fresh)).
Proof.
  assert (Hr : apply_message_move box_configs "u1" offer_row "f2" (Some "Archive") "Archive" fresh = (Ok tt, snd archived))
    by (vm_compute; reflexivity).
  exact (move_is_server_first box_configs "u1" offer_row "f2" (Some "Archive") "Archive" fresh _ (snd archived) eq_refl Hr).
Defined.

(** The row keeps the UID of the folder it left: moved again before the next sync, another
    message of the new folder moves in its place. *)
Definition held (name : string) (w : desk MemoryKv.t N toy_net) : option (list (Z * string)) := option_map bx_mail (tn_boxes (net w) !! name).
Definition moved_once := snd (move_message box_configs "u1" "m1" "f2" fresh).
Definition moved_twice := move_message box_configs "u1" "m1" "f3" moved_once.
Lemma second_move_hits_another :
  held "Archive" moved_once = Some [(7, "contract"); (8, "offer")] /\
  is_ok (fst moved_twice) = true /\
  held "Archive" (snd moved_twice) = Some [(8, "offer")] /\ held "Junk" (snd moved_twice) = Some [(1, "contract")].
Proof. vm_compute. by split_and!. Qed.

(** Leaving the spam folder teaches the allow list before the server is asked: it is taught even
    when the move is refused. *)
Definition junked : desk MemoryKv.t N toy_net :=
  set_mail (set_messages [box_message "m1" "a1" "f3" 7 "casino@bad.org" "offer"] (dk_mail emptied)) emptied.
Lemma refused_move_still_teaches :
  let r := move_message box_configs "u1" "m1" "f1" junked in
  is_ok (fst r) = false /\ map (fun s => (sd_user s, sd_list s)) (st_senders (dk_spam (snd r))) = [("u1", "allowed")].
Proof. vm_compute. by split. Qed.

(** Bob's two folders swap the archive role; the second request fails half way, when the
    database goes down after the first write. *)
Definition set_archive (id : string) (w : desk MemoryKv.t N toy_net) := patch_folder box_configs "u1" id (mkPatchFolder (Some "archive") false) w.
Definition role_given := set_archive "f2" fresh.
Definition dying : desk MemoryKv.t N toy_net := set_mail (set_fuse (Some 2%nat) (dk_mail (snd role_given))) (snd role_given).
Definition role_cut := set_archive "f1" dying.
Lemma cut_folders n (w : desk MemoryKv.t N toy_net) : folders (set_mail (set_fuse n (dk_mail w)) w) = folders w.
Proof. done. Qed.
Lemma roles_stay_unique_witness :
  option_map f_role_override (List.find (folder_by_id "f2") (folders (snd role_given))) = Some (Some "archive") /\
  is_ok (fst role_cut) = false /\ Forall (fun f => f_role_override f = None) (folders (snd role_cut)) /\
  roles_ok (folders (snd role_given)) /\ roles_ok (folders (snd role_cut)).
Proof.
  assert (Hfresh : roles_ok (folders fresh)).
  { split; [apply (bool_decide_unpack _); vm_compute; exact I|]. intros i j f g role Hf Hg _ Hr _.
    do 5 (destruct i as [|i]; [by injection Hf as <-|]). done. }
  assert (Hgiven : roles_ok (folders (snd role_given))).
  { apply (roles_stay_unique box_configs "u1" "f2" (mkPatchFolder (Some "archive") false) fresh (fst role_given)); [exact Hfresh|].
    unfold role_given, set_archive. apply surjective_pairing. }
  split; [vm_compute; reflexivity|]. split; [vm_compute; reflexivity|]. split; [apply (bool_decide_unpack _); vm_compute; exact I|].
  split; [exact Hgiven|].
  apply (roles_stay_unique box_configs "u1" "f1" (mkPatchFolder (Some "archive") false) dying (fst role_cut)); [unfold dying; rewrite cut_folders; exact Hgiven|].
  unfold role_cut, set_archive. apply surjective_pairing.
Defined.
