(* ===== verification/Judge.v ===== *)
(** * One judgement per message

    What one anti-spam pass may change: a message it touches was unjudged inbox mail of the user
    when the pass began.  A message that already has a verdict - the user's own, or an earlier
    pass's - keeps its row and its verdict, through failing servers, a failing database and a
    panicking model reply. *)
From S2P Require Import Prelude Kv Crypto UnlockRing World Toy Session Labels Jobs Pool Netsec MailStore Imap ImapLoop Blobs Jmap JmapLoop.
From S2P Require Import Spam OAuth Ai JmapWrite Desk Actions SpamPass ToyDesk Isolation.
Local Open Scope string_scope.
Local Open Scope Z_scope.

Section Judge.
Context {K R T : Type} `{HasRng R} `{!RngLaws R} `{CryptoLib} `{!CryptoLaws} `{OAuthNet T} `{JmapWrites T} `{ImapSession T}
  `{MimeLib} `{UrlLib} `{UrlJoin} `{JmapTime} `{StoreLib} `{JsonLib} `{JobLib} `{LlmNet T} `{FeaturesLib} `{ImapCommands T}.
Context (configs : OAuthRefreshConfigs) (user : string).
Local Abbreviation W := (desk K R T).
Local Abbreviation M := (io W SyncError).
Implicit Types w : W.

Definition owners (l : list MailAccountRow) : list (string * string) := map (fun r => (ma_id r, ma_user_id r)) l.
Definition roles w : list (string * option string) := map (fun f => (f_id f, coalesced_role f)) (ml_folders (dk_mail w)).
(** Unjudged inbox mail of the user. *)
Definition open_mail w (m : MessageRow) : Prop := candidate_row user "inbox" w m = true /\ dk_verdicts w !! m_id m = None.
Definition fate w0 w (m0 m : MessageRow) : Prop :=
  m_id m = m_id m0 /\ m_account m = m_account m0 /\
  ((m = m0 /\ dk_verdicts w !! m_id m0 = dk_verdicts w0 !! m_id m0) \/ open_mail w0 m0).
Record during w0 w : Prop := {
  du_unique : unique_ids w;
  du_owners : owners (accounts w) = owners (accounts w0);
  du_roles : roles w = roles w0;
  du_fates : Forall2 (fate w0 w) (messages w0) (messages w) }.
Definition keeps w0 w w' : Prop := during w0 w -> during w0 w'.
#[local] Instance keeps_pre w0 : PreOrder (keeps w0).
Proof. split; [intros w Hd; exact Hd|]. intros x y z Hxy Hyz Hd. by apply Hyz, Hxy. Qed.

Lemma during_start w : unique_ids w -> during w w.
Proof using Type. intros Hu. split; [done|done|done|]. induction (messages w); constructor; [|done]. split_and!; [done|done|by left]. Qed.
Lemma owners_ids l l' : owners l' = owners l -> ma_id <$> l' = ma_id <$> l.
Proof using Type.
  intros Ho. assert (Hf : forall l : list MailAccountRow, ma_id <$> l = fst <$> owners l).
  { intros k. unfold owners. by rewrite <-list_fmap_compose. }
  rewrite (Hf l'), (Hf l). by f_equal.
Qed.
Lemma keeps_same {E A} w0 (m : io W E A) :
  (forall w r w', unique_ids w -> m w = (r, w') -> owners (accounts w') = owners (accounts w) /\ roles w' = roles w /\
     messages w' = messages w /\ dk_verdicts w' = dk_verdicts w) -> preserves (keeps w0) m.
Proof using Type.
  intros Hm w r w' Hr [Hu Ho Hro Hf]. destruct (Hm _ _ _ Hu Hr) as (Ho' & Hr' & Hms & Hv). split.
  - destruct Hu. split; [by rewrite (owners_ids _ _ Ho')|by rewrite Hms].
  - by rewrite Ho'. - by rewrite Hr'.
  - rewrite Hms. eapply Forall2_impl; [exact Hf|]. intros m0 x Hx. unfold fate in *. by rewrite Hv.
Qed.
Lemma keeps_ow {E A} w0 (m : io (oauth_world K R T) E A) :
  (forall o r o', NoDup (ma_id <$> ow_rows o) -> m o = (r, o') -> owners (ow_rows o') = owners (ow_rows o)) -> preserves (keeps w0) (on_ow m).
Proof using Type.
  intros Hm. apply keeps_same. intros w r w' [Hu _]. unfold on_ow. destruct (m (dk_ow w)) as [x o] eqn:Ho. intros [= _ <-].
  split_and!; [by eapply Hm|done|done|done].
Qed.
Lemma spare_owners l l' : Forall2 (row_spare user) l l' -> owners l' = owners l.
Proof using Type. unfold owners. induction 1 as [|a b l l' [[c ->] _] _ IH]; [done|]. cbn. by rewrite IH. Qed.
Lemma keeps_auth {E A} w0 (m : io (world K R) E A) : preserves (spares user) m -> preserves (keeps w0) (on_ow (T := T) (on_auth m)).
Proof using Type.
  intros Hm. apply keeps_ow. intros o r o' Hu. unfold on_auth. destruct (m (auth_view o)) as [x g] eqn:Hg. intros [= _ <-]. cbn.
  apply spare_owners, write_back_spare. apply (Hm _ _ _ Hg). cbn. by rewrite <-list_fmap_compose.
Qed.
Lemma keeps_resolve w0 a ty cj dek host : preserves (keeps w0) (on_ow (resolve_mail_access_secret (K := K) (R := R) (T := T) a ty cj dek host configs)).
Proof using Type.
  apply keeps_ow. intros o r o' _ Hr. apply resolve_rows in Hr as [->|[c ->]]; [done|]. unfold owners, update_rows. rewrite map_map.
  apply map_ext. intros x. by destruct (account_is a x).
Qed.
Lemma keeps_quiet {E A} w0 (m : io W E A) : (forall w r w', m w = (r, w') -> accounts w' = accounts w /\ roles w' = roles w /\
  messages w' = messages w /\ dk_verdicts w' = dk_verdicts w) -> preserves (keeps w0) m.
Proof using Type. intros Hm. apply keeps_same. intros w r w' _ Hr. destruct (Hm _ _ _ Hr) as (-> & ? & ? & ?). done. Qed.
Lemma keeps_read {A} w0 (f : W -> A) : preserves (keeps w0) (stmt (fun w => (f w, w))).
Proof using Type.
  apply keeps_quiet. intros w r w' Hr. apply stmt_run in Hr as (db & Hm & Hf & _ & [[_ ->]|(a & _ & [= _ <-])]);
    (split_and!; [done| |done|done]); unfold roles; cbn; by rewrite Hf.
Qed.
Lemma keeps_client {A} w0 c (m : io (ImapClient T) ImapError A) :
  preserves (keeps w0) ((fun w : W => let '(r, c') := m c in (rmap_err Imap r, set_net (cl_session c') w)) : M A).
Proof using Type. apply keeps_quiet. intros w r w'. destruct (m c) as [x c']. by intros [= _ <-]. Qed.
Lemma keeps_net {E A} w0 (m : io T E A) : preserves (keeps w0) (Desk.on_net m).
Proof using Type. apply keeps_quiet. intros w r w'. unfold Desk.on_net. destruct (m _) as [x c']. by intros [= _ <-]. Qed.
Lemma keeps_seams {E A} w0 (m : io _ E A) : preserves (keeps w0) (on_seams (K := K) (R := R) (T := T) m).
Proof using Type. apply keeps_quiet. intros w r w'. unfold on_seams. destruct (m _) as [x [c n]]. by intros [= _ <-]. Qed.
Lemma keeps_modify {E} w0 (f : W -> W) : (forall w, accounts (f w) = accounts w /\ dk_mail (f w) = dk_mail w /\ dk_verdicts (f w) = dk_verdicts w) ->
  preserves (keeps w0) (modify (E := E) f).
Proof using Type.
  intros Hf. apply keeps_quiet. intros w r w' [= _ <-]. destruct (Hf w) as (Ha & Hm & Hv). unfold roles, messages. by rewrite Ha, Hm, Hv.
Qed.
#[local] Hint Extern 1 (preserves (keeps _) _) =>
  first [apply keeps_read|apply keeps_client|apply keeps_net|apply keeps_seams|apply keeps_resolve] : preserve.

(** ** Counts, sender lists *)

Definition mail_roles (db : mail) : list (string * option string) := map (fun f => (f_id f, coalesced_role f)) (ml_folders db).
Definition same_view (a b : mail) : Prop := ml_messages b = ml_messages a /\ mail_roles b = mail_roles a.
#[local] Instance same_view_pre : PreOrder same_view.
Proof. split; [by intros ?|]. intros x y z [? ?] [? ?]. split; congruence. Qed.
Lemma view_mstmt {A} (g : mail -> A * mail) : (forall a, same_view a (snd (g a))) -> preserves same_view (mstmt g).
Proof using Type.
  intros Hg a x b. unfold mstmt. destruct (ml_fuse a) as [[|n]|]; [by intros [= _ <-]| |];
    (destruct (g a) as [y c] eqn:Hc; intros [= _ <-]; specialize (Hg a); by rewrite Hc in Hg).
Qed.
Lemma view_counts f : preserves same_view (update_folder_counts f).
Proof using Type.
  intros a r b Hr. split; [by eapply counts_messages|]. revert Hr. unfold update_folder_counts, transaction.
  match goal with |- context [bind ?x ?k a] => assert (Hp : preserves same_view (bind x k)) end.
  { unfold update_folder_counts_in_tx, update_folder. preserve; apply view_mstmt; try done. intros d. split; [done|].
    unfold mail_roles, update_folders. cbn. rewrite map_map. apply map_ext. intros g. by destruct (folder_by_id f g). }
  destruct (bind _ _ a) as [[y|e] c] eqn:Hb; intros [= _ <-]; [by apply Hp in Hb as [_ ?]|done].
Qed.
Lemma keeps_counts w0 f : preserves (keeps w0) (counts (K := K) (R := R) (T := T) f).
Proof using Type.
  apply keeps_quiet. intros w r w'. unfold counts, on_mail. destruct (update_folder_counts f _) as [x db] eqn:Hc. intros [= _ <-].
  apply view_counts in Hc as [Hm Hro]. by split_and!.
Qed.
Lemma keeps_spam {E A} w0 (m : io (mail * spam_tables) E A) : preserves (fun x y => same_view (fst x) (fst y)) m ->
  preserves (keeps w0) (on_spam (K := K) (R := R) (T := T) m).
Proof using Type.
  intros Hm. apply keeps_quiet. intros w r w'. unfold on_spam. destruct (m _) as [x [db t]] eqn:Hx. intros [= _ <-].
  apply Hm in Hx as [Hms Hro]. by split_and!.
Qed.
Lemma view_sstmt {A} (f : Z -> spam_tables -> A * spam_tables) : preserves (fun x y => same_view (fst x) (fst y)) (sstmt f).
Proof using Type. intros w r w' Hr. apply sstmt_run in Hr as (Hf & Hm & _). split; [done|]. unfold mail_roles. by rewrite Hf. Qed.
#[local] Hint Extern 1 (preserves (keeps _) _) => apply keeps_counts : preserve.

(** ** Writes to open mail *)

Definition opened w0 (i : string) : Prop := exists m, m ∈ messages w0 /\ m_id m = i /\ open_mail w0 m.
Lemma fate_edit w0 w i f (ms0 ms : list MessageRow) : (forall m, m_id (f m) = m_id m /\ m_account (f m) = m_account m) ->
  (forall m0, m0 ∈ ms0 -> m_id m0 = i -> open_mail w0 m0) ->
  Forall2 (fate w0 w) ms0 ms -> Forall2 (fate w0 w) ms0 (update_messages (has_id i) f ms).
Proof using Type.
  intros Hf Ho Hall. unfold update_messages. apply Forall2_fmap_r. eapply Forall2_impl; [|intros x y Hxy; exact Hxy].
  induction Hall as [|a b l l' (Hid & Hac & Hfa) _ IH]; [constructor|]. constructor.
  - unfold compose, has_id. destruct (String.eqb_spec (m_id b) i) as [Hb|]; [|by split_and!]. destruct (Hf b) as [Hfi Hfc].
    split_and!; [by rewrite Hfi|by rewrite Hfc|]. right. apply Ho; [by left|congruence].
  - apply IH. intros m Hm. apply Ho. by right.
Qed.
Lemma opened_all w0 i m0 : unique_ids w0 -> opened w0 i -> m0 ∈ messages w0 -> m_id m0 = i -> open_mail w0 m0.
Proof using Type.
  intros [_ Hu] (m & Hm & Hi & Ho) Hm0 Hi0. replace m0 with m; [done|].
  apply list_elem_of_lookup in Hm as [k Hk], Hm0 as [j Hj]. assert (k = j) as ->; [|congruence].
  eapply (NoDup_lookup _ k j i Hu); rewrite list_lookup_fmap; [by rewrite Hk, <-Hi|by rewrite Hj, <-Hi0].
Qed.
Lemma ids_edit i f (ms : list MessageRow) : (forall m, m_id (f m) = m_id m) -> m_id <$> update_messages (has_id i) f ms = m_id <$> ms.
Proof using Type.
  intros Hf. unfold update_messages. rewrite <-list_fmap_compose. apply list_fmap_ext. intros k x _. unfold compose. destruct (has_id i x); [apply Hf|done].
Qed.
Lemma keeps_stmt {A} w0 (f : W -> A * W) : (forall w, during w0 w -> during w0 (snd (f w))) -> preserves (keeps w0) (stmt f).
Proof using Type.
  intros Hf w r w' Hr Hd. assert (Hdb : forall db, ml_messages db = messages w -> ml_folders db = ml_folders (dk_mail w) -> during w0 (set_mail db w)).
  { intros db Hm Hfo. destruct Hd as [[Hu1 Hu2] Ho Hro Hfa]. split; [split; [done|]|done| |]; unfold messages, roles in *; cbn in *; by rewrite ?Hm, ?Hfo. }
  apply stmt_run in Hr as (db & Hm & Hfo & _ & [[_ ->]|(a & _ & Hx)]); [by apply Hdb|].
  replace w' with (snd (f (set_mail db w))) by (by rewrite Hx). by apply Hf, Hdb.
Qed.
Lemma keeps_edit w0 i f : unique_ids w0 -> opened w0 i -> (forall stamp m, m_id (f stamp m) = m_id m /\ m_account (f stamp m) = m_account m) ->
  preserves (keeps w0) (edit_message (K := K) (R := R) (T := T) i f).
Proof using Type.
  intros Hu Ho Hf. apply keeps_stmt. intros w [[Hu1 Hu2] Ho' Hro Hfa]. cbn [snd]. split; [split; [done|]|done|done|].
  - unfold messages in *. cbn in *. rewrite ids_edit; [done|]. intros m. apply Hf.
  - apply (fate_edit w0 w); [apply Hf| |exact Hfa]. intros m0. by apply opened_all.
Qed.
Lemma keeps_verdict w0 i v : unique_ids w0 -> opened w0 i -> preserves (keeps w0) (set_spam_verdict (K := K) (R := R) (T := T) i v).
Proof using Type.
  intros Hu Ho. apply keeps_stmt. intros w [[Hu1 Hu2] Ho' Hro Hfa]. cbn [snd].
  assert (Hfe : Forall2 (fate w0 w) (messages w0) (update_messages (has_id i) (touched (Desk.now w)) (messages w))).
  { apply (fate_edit w0 w); [done| |exact Hfa]. intros m0. by apply opened_all. }
  assert (Hnd : NoDup (m_id <$> update_messages (has_id i) (touched (Desk.now w)) (messages w))) by (by rewrite ids_edit).
  destruct (existsb _ _); (split; [by split|done|done|]); [|exact Hfe]. unfold messages at 2. cbn.
  apply Forall2_same_length_lookup_2; [by eapply Forall2_length|]. intros k x y Hx Hy.
  pose proof (Forall2_lookup_lr _ _ _ _ _ _ Hfe Hx Hy) as (Hid & Hac & Hc). split_and!; [done|done|].
  destruct (decide (m_id x = i)) as [Hi|Hi]; [right; eapply opened_all; [done|exact Ho|by eapply list_elem_of_lookup_2|done]|].
  destruct Hc as [[-> Hv]|Hc]; [left|by right]. split; [done|]. cbn. by rewrite lookup_insert_ne.
Qed.

(** ** The pass *)

Lemma keeps_load w0 i : preserves (keeps w0) (load_message_row (K := K) (R := R) (T := T) user i).
Proof using Type. unfold load_message_row. preserve. Qed.
Lemma keeps_key w0 a : preserves (keeps w0) (dek_and_credential (K := K) (R := R) (T := T) user a).
Proof using All. unfold dek_and_credential. preserve. apply keeps_auth. by apply key_spares. Qed.
Lemma keeps_imap {A} w0 a (m : io (ImapClient T) ImapError A) : preserves (keeps w0) (with_imap (K := K) (R := R) configs user a m).
Proof using All.
  unfold with_imap, connect_imap_for_account, active_account. preserve; [apply keeps_key|].
  apply keeps_quiet. intros w r w'. destruct (Imap.connect _ _) as [[c|e] n]; by intros [= _ <-].
Qed.
Lemma keeps_jmap w0 a : preserves (keeps w0) (connect_jmap_for_account (K := K) (R := R) (T := T) user a).
Proof using All. unfold connect_jmap_for_account, active_account. preserve. apply keeps_key. Qed.
Lemma keeps_jmap_call {A} w0 a (m : io T JmapError A) : preserves (keeps w0) (jmap_call (K := K) (R := R) a m).
Proof using Type. unfold jmap_call. preserve. by apply keeps_modify. Qed.
#[local] Hint Resolve keeps_load keeps_imap keeps_jmap keeps_jmap_call : preserve.
Lemma load_id i w row w' : load_message_row (K := K) (R := R) (T := T) user i w = (Ok row, w') -> m_id (lr_msg row) = i.
Proof using Type. intros Hl. by apply load_answer in Hl as (Hi & _). Qed.
Lemma keeps_move w0 i : unique_ids w0 -> opened w0 i -> preserves (keeps w0) (move_row_to_spam (K := K) (R := R) configs user i).
Proof using All.
  intros Hu Ho w r w' Hr. unfold move_row_to_spam, move_row_to_role in Hr.
  apply bind_inv in Hr as [(e & He & _)|(row & w1 & Hl & Hr)]; [by apply (keeps_load w0) in He|].
  pose proof (load_id _ _ _ _ Hl) as Hi. apply (keeps_load w0) in Hl. intros Hd. specialize (Hl Hd). revert Hl. 
  revert w1 r w' Hr. change (preserves (keeps w0) ((let! dest := role_folder_for_account (K := K) (R := R) (T := T) (m_account (lr_msg row)) "spam" in
    apply_message_move configs user row (rf_id dest) (rf_external dest) (dest_name dest)))).
  unfold role_folder_for_account, role_folder, apply_message_move. preserve. by apply keeps_edit; rewrite ?Hi.
Qed.
Lemma keeps_each {E A} w0 (f : A -> io W E unit) l : (forall x, x ∈ l -> preserves (keeps w0) (f x)) -> preserves (keeps w0) (each f l).
Proof using Type.
  induction l as [|x l IH]; intros Hf; cbn [each]; [apply pres_ret; apply _|].
  apply pres_bind; [apply _|apply Hf; by left|]. intros _. apply IH. intros y Hy. apply Hf. by right.
Qed.
(** A scan of the unjudged inbox finds mail that was open when the pass began. *)
Lemma candidate_same w0 w m : owners (accounts w) = owners (accounts w0) -> roles w = roles w0 ->
  candidate_row user "inbox" w m = candidate_row user "inbox" w0 m.
Proof using Type.
  intros Ho Hr. unfold candidate_row. f_equal; [f_equal|].
  - assert (Hex : forall l, existsb (owned_account user (m_account m)) l = existsb (fun p => String.eqb (fst p) (m_account m) && String.eqb (snd p) user) (owners l)).
    { intros l. induction l as [|r l IH]; [done|]. cbn. by rewrite IH. }
    by rewrite !Hex, Ho.
  - assert (Hex : forall l, existsb (fun f => folder_by_id (m_folder m) f && bool_decide (coalesced_role f = Some "inbox")) l
      = existsb (fun p => String.eqb (fst p) (m_folder m) && bool_decide (snd p = Some "inbox")) (map (fun f => (f_id f, coalesced_role f)) l)).
    { intros l. induction l as [|r l IH]; [done|]. cbn. by rewrite IH. }
    rewrite !Hex. unfold roles in Hr. by rewrite Hr.
Qed.
Lemma scan_open w0 n w rows w' : unique_ids w0 -> during w0 w -> unjudged_rows (K := K) (R := R) (T := T) user "inbox" n w = (Ok rows, w') ->
  Forall (fun row => opened w0 (ca_id row)) rows.
Proof using Type.
  intros Hu Hd Hr. assert (Hd' : during w0 w') by (eapply keeps_read; [exact Hr|exact Hd]).
  apply read_answer in Hr as ->. apply Forall_forall. intros row Hin. apply list_elem_of_fmap in Hin as (m & -> & Hm).
  assert (Hid : m_id m ∈ map m_id (take n (order_by (fun a b => date_le (m_date b) (m_date a))
    (List.filter (fun m => candidate_row user "inbox" w' m && negb (true && judged w' m)) (ml_messages (dk_mail w')))))).
  { apply list_elem_of_fmap. by exists m. }
  apply ordered_take in Hid as (x & Hx & Hxi & [Hc Hj]%andb_true_iff). destruct Hd' as [_ Ho Hro Hfa].
  apply list_elem_of_lookup in Hx as [k Hk]. destruct (Forall2_lookup_r _ _ _ _ _ Hfa Hk) as (x0 & Hk0 & Hid0 & _ & Hor).
  exists x0. split_and!; [by eapply list_elem_of_lookup_2|cbn; congruence|]. destruct Hor as [[-> Hv]|]; [|done]. split.
  - by rewrite <-(candidate_same w0 w').
  - rewrite <-Hv. unfold judged in Hj. destruct (dk_verdicts w' !! m_id x0) eqn:Hvx; [|done]. by rewrite bool_decide_true in Hj.
Qed.
Lemma keeps_scanned {E} w0 n (f : SpamCandidate -> io W E unit) (g : SyncError -> io W E unit) : unique_ids w0 ->
  (forall row, opened w0 (ca_id row) -> preserves (keeps w0) (f row)) -> (forall e, preserves (keeps w0) (g e)) ->
  preserves (keeps w0) (let! r := attempt (unjudged_rows (K := K) (R := R) (T := T) user "inbox" n) in
                        match r with Ok rows => each f rows | Err e => g e end).
Proof using Type.
  intros Hu Hf Hg w r w' Hr Hd. apply bind_inv in Hr as [(e & He & _)|(x & w1 & Hx & Hr)]; unfold attempt in *.
  - by destruct (unjudged_rows _ _ _ w).
  - destruct (unjudged_rows user "inbox" n w) as [y w2] eqn:Hy. injection Hx as <- <-.
    assert (Hd2 : during w0 w2) by (eapply keeps_read; [exact Hy|exact Hd]).
    destruct y as [rows|e]; [|by eapply Hg]. pose proof (scan_open _ _ _ _ _ Hu Hd Hy) as Ho.
    refine (keeps_each w0 f rows _ _ _ _ Hr Hd2). intros row Hin. apply Hf. rewrite Forall_forall in Ho. by apply Ho.
Qed.

Lemma keeps_judge_one w0 settings senders row : unique_ids w0 -> opened w0 (ca_id row) ->
  preserves (keeps w0) (judge_one (K := K) (R := R) configs user settings senders row).
Proof using All.
  intros Hu Ho. unfold judge_one, ignore. preserve; [by apply keeps_verdict|by apply keeps_move].
Qed.
Lemma keeps_batch w0 settings senders : unique_ids w0 -> preserves (keeps w0) (judge_inbox_batch (K := K) (R := R) configs user settings senders).
Proof using All.
  intros Hu w r w' Hr Hd. unfold judge_inbox_batch in Hr. apply bind_inv in Hr as [(e & He & _)|(rows & w1 & Hs & Hr)].
  - eapply keeps_read; [exact He|exact Hd].
  - assert (Hd1 : during w0 w1) by (eapply keeps_read; [exact Hs|exact Hd]). pose proof (scan_open _ _ _ _ _ Hu Hd Hs) as Ho.
    refine (keeps_each w0 _ rows _ _ _ _ Hr Hd1). intros row Hin. rewrite Forall_forall in Ho. by apply keeps_judge_one, Ho.
Qed.
(** The purge reads no date, so it destroys nothing. *)
Lemma dateless_purge cutoff (rows : list SpamCandidate) w : Forall (fun row => ca_date row = None) rows ->
  each (purge_one (K := K) (R := R) (T := T) configs user cutoff) rows w = (Ok tt, w).
Proof using Type. induction 1 as [|row rows Hd _ IH]; [done|]. cbn [each]. unfold bind at 1, purge_one. rewrite Hd. cbn. exact IH. Qed.
Lemma purge_reads w r w' : purge_old_spam (K := K) (R := R) configs user w = (r, w') ->
  accounts w' = accounts w /\ roles w' = roles w /\ messages w' = messages w /\ dk_verdicts w' = dk_verdicts w /\ dk_drafts w' = dk_drafts w /\ net w' = net w.
Proof using Type.
  unfold purge_old_spam. intros Hr. unfold bind at 1, gets in Hr. cbv beta iota zeta in Hr.
  assert (Hread : forall x y, spam_folder_rows (K := K) (R := R) (T := T) user w = (x, y) ->
    (accounts y = accounts w /\ roles y = roles w /\ messages y = messages w /\ dk_verdicts y = dk_verdicts w /\ dk_drafts y = dk_drafts w /\ net y = net w) /\
    (forall rows, x = Ok rows -> Forall (fun row => ca_date row = None) rows)).
  { intros x y Hx. split.
    - apply stmt_run in Hx as (db & Hm & Hf & _ & [[_ ->]|(a & _ & [= _ <-])]); unfold roles; cbn; by rewrite Hf.
    - intros rows ->. apply read_answer in Hx as ->. apply Forall_forall. intros row Hin. by apply list_elem_of_fmap in Hin as (m & -> & _). }
  apply bind_inv in Hr as [(e & He & _)|(rows & w1 & Hs & Hr)]; [by apply Hread in He as [? _]|].
  apply Hread in Hs as [Hsame Hnone]. rewrite dateless_purge in Hr by (by apply Hnone). by injection Hr as _ <-.
Qed.
Lemma keeps_purge w0 : preserves (keeps w0) (purge_old_spam (K := K) (R := R) configs user).
Proof using Type. apply keeps_quiet. intros w r w' (? & ? & ? & ? & _)%purge_reads. done. Qed.
Lemma keeps_ai_one w0 view key row : unique_ids w0 -> opened w0 (ca_id row) ->
  preserves (keeps w0) (ai_judge_one (K := K) (R := R) configs user view key row).
Proof using All.
  intros Hu Ho. unfold ai_judge_one, ignore. preserve; first [by apply keeps_verdict|by apply keeps_move].
Qed.
Lemma keeps_ai w0 : unique_ids w0 -> preserves (keeps w0) (ai_spam_auto_pass (K := K) (R := R) configs user).
Proof using All.
  intros Hu. unfold ai_spam_auto_pass. unfold or_return at 1. apply pres_bind; [apply _| |].
  - apply pres_attempt, keeps_quiet. intros w r w'. unfold on_ai. destruct (Ai.load_settings user _) as [x [db t]] eqn:Hx. intros [= _ <-].
    revert Hx. unfold Ai.load_settings, astmt, mstmt. cbn. destruct (ml_fuse (dk_mail w)) as [[|n]|]; by intros [= _ <- _].
  - intros ai. destruct ai as [ai|]; [|apply pres_ret; apply _]. destruct (_ || _); [apply pres_ret; apply _|].
    destruct (ready ai) as [view|]; [|apply pres_ret; apply _]. unfold or_return at 1.
    apply pres_bind; [apply _|apply pres_attempt, keeps_auth, get_user_dek_spares|intros [dek|]; [|apply pres_ret; apply _]].
    unfold or_return at 1. apply pres_bind; [apply _|apply pres_attempt, pres_lift; apply _|intros [key|]; [|apply pres_ret; apply _]].
    unfold or_return. apply (keeps_scanned w0 _ _ (fun _ => ret tt)); [done| |intros; apply pres_ret; apply _].
    intros row Ho. by apply keeps_ai_one.
Qed.
Lemma keeps_pass w0 : unique_ids w0 -> preserves (keeps w0) (spam_pass (K := K) (R := R) configs user).
Proof using All.
  intros Hu. unfold spam_pass, spam_pass_inner, spam_store. preserve;
    first [by apply keeps_ai|by apply keeps_batch|apply keeps_purge|apply keeps_spam, view_sstmt].
Qed.

(** What auto-delete is for: mail in a spam folder of [user], dated more than thirty days ago, of a user who asked for it. *)
Definition for_purge w (m : MessageRow) : bool :=
  existsb (fun s => String.eqb (sr_user s) user && sr_auto_delete s) (st_settings (dk_spam w)) && candidate_row user "spam" w m &&
  match m_date m ≫= parse_rfc3339 with
  | Some d => d <? ml_now (dk_mail w) - SPAM_PURGE_DAYS * 86400 * nanos_per_sec
  | None => false
  end.

(** C21: one judgement per message.  Whatever the servers, the model and the database do during an
    anti-spam pass of [user], every message but the old spam that auto-delete is to destroy keeps
    its id and account, and it keeps its whole row and its verdict unless it was unjudged mail in
    an inbox of [user] when the pass began: a message the user or an earlier pass has judged is
    never judged again and never moved.  (Auto-delete destroys nothing as it is: [purge_reads].) *)
Theorem pass_judges_once w r w' m :
  unique_ids w -> spam_pass configs user w = (r, w') -> m ∈ ml_messages (dk_mail w) -> for_purge w m = false ->
  exists m', m' ∈ ml_messages (dk_mail w') /\ m_id m' = m_id m /\ m_account m' = m_account m /\
    (candidate_row user "inbox" w m = false \/ is_Some (dk_verdicts w !! m_id m) ->
     m' = m /\ dk_verdicts w' !! m_id m = dk_verdicts w !! m_id m).
Proof using All.
  intros Hu Hr Hm _. pose proof (keeps_pass w Hu _ _ _ Hr (during_start w Hu)) as [_ _ _ Hf].
  apply list_elem_of_lookup in Hm as [i Hm]. destruct (Forall2_lookup_l _ _ _ _ _ Hf Hm) as (m' & Hm' & Hi & Ha & Hor).
  exists m'. split; [by eapply list_elem_of_lookup_2|]. split_and!; [done|done|].
  intros Hno. destruct Hor as [?|[Hc Hv]]; [done|]. destruct Hno as [Hno|[v Hno]]; congruence.
Qed.
End Judge.

(** ** Concrete runs *)

Definition filtering (enabled auto_delete : bool) : list SettingsRow := [mkSettingsRow "u1" enabled true auto_delete "standard"].
(** Alice has allowed the message herself; the filter would call it spam. *)
Definition allowed_by_user : desk MemoryKv.t N toy_net := set_verdicts {[ "m1" := "allowed" ]} (box_desk (filtering true true) [] []).
Definition passed := spam_pass box_configs "u1" allowed_by_user.
Definition allowed_mail : MessageRow := default (jmap_row "" "" "" "" (stored_email "")) (head (ml_messages (dk_mail allowed_by_user))).
Lemma pass_judges_once_witness :
  dk_verdicts (snd passed) !! "m2" = Some "clean" /\
  (exists m', m' ∈ ml_messages (dk_mail (snd passed)) /\ m' = allowed_mail) /\ dk_verdicts (snd passed) !! "m1" = Some "allowed".
Proof.
  split; [vm_compute; reflexivity|].
  destruct (pass_judges_once box_configs "u1" allowed_by_user (fst passed) (snd passed) allowed_mail) as (m' & Hm' & _ & _ & Hkeep).
  - split; apply (bool_decide_unpack _); vm_compute; exact I.
  - unfold passed. apply surjective_pairing.
  - vm_compute. left.
  - vm_compute. reflexivity.
  - destruct Hkeep as [-> Hv]; [right; by exists "allowed"|]. split; [by exists allowed_mail|exact Hv].
Defined.

(** With the filter off the pass ends before the lists are asked, though the lists alone would
    block this sender. *)
Definition listed : desk MemoryKv.t N toy_net :=
  set_spam (mkTables (filtering false false) [mkSenderRow "s1" "u1" "blocked" "casino@bad.org" ""]) (box_desk [] [] []).
Lemma disabled_pass_ignores_lists :
  spam_verdict (mkEnvelope (Some "casino@bad.org") None None) (mkSpam false true false Standard) (senders_of "u1" (dk_spam listed)) = Listed Blocked /\
  dk_verdicts (snd (spam_pass box_configs "u1" listed)) = ∅.
Proof. vm_compute. by split. Qed.

(** A model answer whose last closing brace precedes its first opening one ends the pass in a panic. *)
Definition first_dek : string :=
  match fst (get_user_dek "u1" (auth_view (dk_ow (box_desk [] [] [])))) with Ok dek => dek | Err _ => "" end.
Definition sealed_key : string :=
  match fst (encrypt first_dek "sk" (auth_view (dk_ow (box_desk [] [] [])))) with Ok blob => cred_to_json blob | Err _ => "" end.
Definition chat_answer (text : string) : string :=
  json_text (JObject [("choices", JArray [JObject [("message", role_message "assistant" text)]])]).
Definition auto_desk (answers : list string) : desk MemoryKv.t N toy_net :=
  box_desk [] [mkAiRow "u1" true "openai_chat" "https://ai" "m" sealed_key "" "auto"] (map chat_answer answers).
Lemma braces_out_of_order_panic :
  fst (spam_pass box_configs "u1" (auto_desk ["} {"])) = Err "slice" /\
  fst (spam_pass box_configs "u1" (auto_desk ["no braces"; "{}"])) = Ok tt.
Proof. vm_compute. by split. Qed.
