(* ===== verification/Search.v ===== *)
(** * Reading and searching mail ([sync/queries.rs], [search/mod.rs], the list handlers of [sync/http.rs])

    The lists a user sees, the full-text query text, the LIKE search that non-ASCII queries take,
    and the compact answers the assistant is given.  SQLite: FTS5's [MATCH] and its rank are the
    class [Fts]; [LIKE ... ESCAPE] is defined here.  Rows are answered as loaded; their rendering
    is not modelled. *)
From S2P Require Import Prelude Kv Crypto UnlockRing World Toy Session Labels Jobs Pool Netsec MailStore Imap ImapLoop Blobs Jmap JmapLoop.
From S2P Require Import Spam OAuth Ai JmapWrite Desk Actions ToyDesk.
Local Open Scope string_scope.
Local Open Scope Z_scope.

(** ** Query texts *)

Definition quote_char : ascii := ascii_of_N 34.
Fixpoint double_quotes (s : string) : string :=
  match s with
  | "" => ""
  | String a s' => if Ascii.eqb a quote_char then String a (String a (double_quotes s')) else String a (double_quotes s')
  end.
Definition fts5_phrase (token : string) : string := String quote_char (double_quotes token +:+ String quote_char "").
Definition prepare_fts5_query (user_query : string) : option string :=
  match split_whitespace user_query with
  | [] => None
  | tokens => Some (join " AND " (map fts5_phrase tokens))
  end.

(** The three [replace]s: backslash, percent, underscore. *)
Definition special (a : ascii) : bool := Ascii.eqb a "\" || Ascii.eqb a "%" || Ascii.eqb a "_".
Fixpoint escape_with (p : ascii -> bool) (s : string) : string :=
  match s with
  | "" => ""
  | String a s' => if p a then String "\" (String a (escape_with p s')) else String a (escape_with p s')
  end.
Definition like_escape (token : string) : string :=
  escape_with (Ascii.eqb "_") (escape_with (Ascii.eqb "%") (escape_with (Ascii.eqb "\") token)).
Definition like_pattern (token : string) : string := "%" +:+ like_escape token +:+ "%".

(** SQLite's [LIKE p ESCAPE '\']: ASCII letters match in either case. *)
Definition same_letter (a b : ascii) : bool := Ascii.eqb (ascii_lower a) (ascii_lower b).
Fixpoint like (p s : string) {struct p} : bool :=
  match p with
  | "" => is_empty s
  | String c p' =>
      if Ascii.eqb c "%" then
        (fix any (s : string) : bool := like p' s || match s with "" => false | String _ s' => any s' end) s
      else if Ascii.eqb c "_" then match s with "" => false | String _ s' => like p' (drop_while cont s') end
      else if Ascii.eqb c "\" then
        match p', s with
        | String d p'', String a s' => same_letter d a && like p'' s'
        | _, _ => false
        end
      else match s with "" => false | String a s' => same_letter c a && like p' s' end
  end.

(** FTS5: whether a document matches the query text, and its rank. *)
Class Fts := fts_rank : string -> string -> string -> string -> option Z.       (* query, subject, body, sender *)

Inductive SearchError := SearchDatabase (e : string) | InvalidQuery.
Definition clamp_limit (hi limit : Z) : nat := Z.to_nat (clamp 1 hi limit).

Section Queries.
Context {K R T : Type} `{JmapWire T} `{StoreLib} `{JsonLib} `{Fts}.
Local Abbreviation W := (desk K R T).
Local Abbreviation M := (io W SyncError).
Implicit Types w : W.

(** ** Lists *)

(** [snoozed_until <= datetime('now')], compared as text. *)
Definition snooze_visible w (m : MessageRow) : bool :=
  match m_snoozed_until m with None => true | Some until => text_le until (Desk.now w) end.
Definition date_desc (a b : MessageRow) : bool := date_le (m_date b) (m_date a).
(** A row of a list: the message, and the role of the folder it is joined with. *)
Record ListedRow := mkListed { ls_msg : MessageRow; ls_role : option string }.
Definition with_folder w (m : MessageRow) : option ListedRow :=
  f ← List.find (folder_by_id (m_folder m)) (ml_folders (dk_mail w)); Some (mkListed m (coalesced_role f)).
(** The join with the accounts, and [a.user_id = ?]. *)
Definition of_user (user_id : string) w (m : MessageRow) : bool := existsb (owned_account user_id (m_account m)) (accounts w).
(** [ORDER BY m.date DESC LIMIT n] over the joined rows. *)
Definition page (n : nat) (p : W -> ListedRow -> bool) w : list ListedRow :=
  take n (List.filter (p w) (omap (with_folder w) (order_by date_desc (List.filter (fun m => negb (m_deleted m)) (ml_messages (dk_mail w)))))).
(** The folder is asked for its account; the list then goes by the folder alone. *)
Definition list_messages (user_id folder_id : string) : M (list ListedRow) :=
  let! check := stmt (fun w => (bool_decide (is_Some (owned_folder user_id folder_id w)), w)) in
  if negb check then throw AccountNotFound else
  stmt (fun w => (page 500 (fun w r => String.eqb (m_folder (ls_msg r)) folder_id && snooze_visible w (ls_msg r)) w, w)).
Definition query_user_messages (user_id : string) (role account_id : option string) (is_starred : option bool) : M (list ListedRow) :=
  stmt (fun w => (page 500 (fun w r =>
    of_user user_id w (ls_msg r) && snooze_visible w (ls_msg r)
    && match role with Some x => bool_decide (ls_role r = Some x) | None => true end
    && match account_id with Some a => String.eqb (m_account (ls_msg r)) a | None => true end
    && match is_starred with Some b => Bool.eqb (m_starred (ls_msg r)) b | None => true end) w, w)).
Definition list_messages_query : string -> option string -> option string -> option bool -> M (list ListedRow) := query_user_messages.

(** ** Search *)

(** The filters both searches share: a live message of an account of the user, in scope. *)
Definition in_scope (user_id : string) (account_id folder_id : option string) w (m : MessageRow) : bool :=
  of_user user_id w m && negb (m_deleted m)
  && match account_id with Some a => String.eqb (m_account m) a | None => true end
  && match folder_id with Some f => String.eqb (m_folder m) f | None => true end.
Definition sstmt_ {A} (f : W -> A * W) : io W SearchError A := map_err (fun _ => SearchDatabase "closed") (stmt f).
(** [bm25]: the smaller the better. *)
Definition rank_le (a b : Z * MessageRow) : bool := fst a <=? fst b.
Definition ranked (query : string) (m : MessageRow) : option (Z * MessageRow) :=
  option_map (fun r => (r, m)) (fts_rank query (default "" (m_subject m)) (default "" (m_body_text m)) (default "" (m_from m))).
Definition sqlite_search_message_ids (query user_id : string) (account_id folder_id : option string) (limit : nat) : io W SearchError (list string) :=
  match prepare_fts5_query query with
  | None => throw InvalidQuery
  | Some fts_query =>
      sstmt_ (fun w => (map (fun h => m_id (snd h)) (take limit (order_by rank_le
        (omap (ranked fts_query) (List.filter (in_scope user_id account_id folder_id w) (ml_messages (dk_mail w)))))), w))
  end.
(** [col LIKE ?]: a NULL column does not match. *)
Definition column_like (pattern : string) (col : option string) : bool := match col with Some s => like pattern s | None => false end.
Definition searched_columns (m : MessageRow) : list (option string) := [m_subject m; m_snippet m; m_body_text m; m_from m].
Definition sqlite_like_search_message_ids (query user_id : string) (account_id folder_id : option string) (limit : nat) : io W SearchError (list string) :=
  match split_whitespace query with
  | [] => throw InvalidQuery
  | tokens =>
      let patterns := map like_pattern tokens in
      sstmt_ (fun w => (map m_id (take limit (order_by date_desc
        (List.filter (fun m => in_scope user_id account_id folder_id w m
                               && forallb (fun p => existsb (column_like p) (searched_columns m)) patterns) (ml_messages (dk_mail w))))), w))
  end.
Definition is_ascii (s : string) : bool := sforall (fun a => (byte a <? 128)%N) s.
Definition search_message_ids (user_id query : string) (account_id folder_id : option string) (limit : Z) : io W SearchError (list string) :=
  let limit := clamp_limit 500 limit in
  if negb (is_ascii query) then sqlite_like_search_message_ids query user_id account_id folder_id limit
  else sqlite_search_message_ids query user_id account_id folder_id limit.
Definition live_row (user_id id : string) w : option ListedRow :=
  m ← List.find (live_id id) (ml_messages (dk_mail w)); if of_user user_id w m then with_folder w m else None.
Fixpoint fetch_messages_by_ids (ids : list string) (user_id : string) : M (list ListedRow) :=
  match ids with
  | [] => ret []
  | id :: rest =>
      let! row := stmt (fun w => (live_row user_id id w, w)) in
      let! rows := fetch_messages_by_ids rest user_id in
      ret (match row with Some r => r :: rows | None => rows end)
  end.
Definition search_error (e : SearchError) : SyncError :=
  match e with InvalidQuery => InvalidInput "invalid search query" | SearchDatabase e => Database e end.
(** With the full-text table in place ([fts_available]). *)
Definition found (user_id query : string) (account_id folder_id : option string) (limit : Z) : M (list ListedRow) :=
  let! ids := map_err search_error (search_message_ids user_id query account_id folder_id limit) in
  match ids with [] => ret [] | _ => fetch_messages_by_ids ids user_id end.
Definition search_messages (user_id q : string) (account_id folder_id : option string) (limit : option Z) : M (list ListedRow) :=
  let q := trim q in
  if is_empty q then throw (InvalidInput "q is required")
  else if (char_count q <? 2)%nat then throw (InvalidInput "q must be at least 2 characters")
  else found user_id q account_id folder_id (clamp 1 500 (default 100 limit)).

(** ** The assistant's views *)

Record AiMessageContext := mkContext { ac_from : option string; ac_subject : option string; ac_body : option string; ac_date : option string }.
Definition load_ai_message_context (user_id message_id : string) : M AiMessageContext :=
  let! row := load_message_row user_id message_id in
  let m := lr_msg row in ret (mkContext (m_from m) (m_subject m) (m_body_text m) (m_date m)).
Record AiFolderHit := mkFolderHit { fh_account : string; fh_name : string; fh_role : option string; fh_unread : Z; fh_total : Z }.
Definition ai_list_folders (user_id : string) : M (list AiFolderHit) :=
  stmt (fun w =>
    let pairs := flat_map (fun a => map (fun f => (a, f)) (List.filter (fun f => String.eqb (f_account f) (ma_id a)) (ml_folders (dk_mail w))))
                   (List.filter (fun a => String.eqb (ma_user_id a) user_id) (accounts w)) in
    let le x y := if bool_decide (ma_display_name (fst x) = ma_display_name (fst y)) then f_sort (snd x) <=? f_sort (snd y)
                  else date_le (ma_display_name (fst x)) (ma_display_name (fst y)) in
    (map (fun '(a, f) => mkFolderHit (default "" (ma_display_name a)) (f_name f) (coalesced_role f) (f_unread f) (f_total f)) (order_by le pairs), w)).
Record AiMailHit := mkHit {
  mh_id : string; mh_subject : option string; mh_from : option string; mh_date : option string; mh_snippet : option string;
  mh_role : option string; mh_read : bool }.
Definition ai_search_mail (user_id query : string) (limit : Z) : M (list AiMailHit) :=
  let! rows := found user_id query None None limit in
  ret (map (fun r => let m := ls_msg r in
         mkHit (m_id m) (m_subject m) (from_json_email (m_from m)) (m_date m) (m_snippet m) (ls_role r) (m_read m)) rows).
End Queries.

(** ** The query text is the words and nothing else

    A reader of FTS5's strings: a doubled quote is a quote, strings are joined by AND. *)
Fixpoint fts5_string (s : string) : option (string * string) :=
  match s with
  | "" => None
  | String a s' =>
      if Ascii.eqb a quote_char then
        match s' with
        | String b s'' => if Ascii.eqb b quote_char then option_map (fun '(t, r) => (String b t, r)) (fts5_string s'') else Some ("", s')
        | "" => Some ("", "")
        end
      else option_map (fun '(t, r) => (String a t, r)) (fts5_string s')
  end.
Fixpoint fts5_strings (fuel : nat) (s : string) : option (list string) :=
  match fuel with
  | O => None
  | S n =>
      match strip_prefix (String quote_char "") s ≫= fts5_string with
      | None => None
      | Some (token, rest) =>
          if is_empty rest then Some [token] else strip_prefix " AND " rest ≫= fun r => option_map (cons token) (fts5_strings n r)
      end
  end.
#[local] Arguments Ascii.eqb : simpl never.
#[local] Arguments String.append : simpl nomatch.
Lemma fts5_string_reads t rest : starts_with (String quote_char "") rest = false ->
  fts5_string (double_quotes t +:+ String quote_char rest) = Some (t, rest).
Proof.
  intros Hr. induction t as [|a t IH].
  - cbn [double_quotes String.append fts5_string]. rewrite Ascii.eqb_refl. destruct rest as [|b rest]; [done|].
    destruct (Ascii.eqb_spec b quote_char) as [->|]; [|done]. by destruct rest.
  - cbn [double_quotes]. destruct (Ascii.eqb_spec a quote_char) as [->|Hne].
    + change (option_map (fun '(t, r) => (String quote_char t, r)) (fts5_string (double_quotes t +:+ String quote_char rest)) = Some (String quote_char t, rest)).
      by rewrite IH.
    + cbn [String.append fts5_string]. rewrite (proj2 (Ascii.eqb_neq a quote_char) Hne). by rewrite IH.
Qed.
Lemma phrase_reads t rest fuel : starts_with (String quote_char "") rest = false ->
  fts5_strings (S fuel) (fts5_phrase t +:+ rest) =
  if is_empty rest then Some [t] else strip_prefix " AND " rest ≫= fun r => option_map (cons t) (fts5_strings fuel r).
Proof.
  intros Hr. cbn [fts5_strings]. unfold fts5_phrase. cbn [String.append]. rewrite app_assoc_s. cbn [String.append].
  change (String quote_char (double_quotes t +:+ String quote_char rest)) with (String quote_char "" +:+ (double_quotes t +:+ String quote_char rest)).
  rewrite strip_prefix_app. cbn [mbind option_bind]. by rewrite fts5_string_reads.
Qed.
Lemma fts5_strings_read tokens fuel : tokens <> [] -> (length tokens <= fuel)%nat ->
  fts5_strings fuel (join " AND " (map fts5_phrase tokens)) = Some tokens.
Proof.
  revert fuel. induction tokens as [|t tokens IH]; intros [|fuel] Hne Hlen; [done..|cbn in Hlen; lia|].
  destruct tokens as [|t2 tokens].
  - cbn [map join]. rewrite <-(app_nil_r_s (fts5_phrase t)). by rewrite phrase_reads.
  - change (join " AND " (map fts5_phrase (t :: t2 :: tokens))) with (fts5_phrase t +:+ (" AND " +:+ join " AND " (map fts5_phrase (t2 :: tokens)))).
    rewrite phrase_reads by done. cbn [is_empty]. rewrite strip_prefix_app. cbn [mbind option_bind].
    rewrite IH; [done|done|cbn in *; lia].
Qed.

(** ** LIKE patterns are literal *)

Fixpoint prefix_ci (p s : string) : bool :=
  match p, s with
  | "", _ => true
  | String a p', String b s' => same_letter a b && prefix_ci p' s'
  | String _ _, "" => false
  end.
Fixpoint contains_ci (p s : string) : bool := prefix_ci p s || match s with "" => false | String _ s' => contains_ci p s' end.
#[local] Arguments Ascii.eqb : simpl nomatch.
Lemma escapes_once t : like_escape t = escape_with special t.
Proof.
  unfold like_escape. induction t as [|a t IH]; [done|]. cbn [escape_with]. unfold special.
  destruct (Ascii.eqb_spec "\" a) as [<-|Hb]; cbn [escape_with]; [change (Ascii.eqb "\" "\") with true; cbn; by rewrite IH|].
  rewrite (Ascii.eqb_sym a "\"), (proj2 (Ascii.eqb_neq "\" a) Hb). cbn [orb].
  destruct (Ascii.eqb_spec "%" a) as [<-|Hp]; cbn [escape_with]; [cbn; by rewrite IH|].
  rewrite (Ascii.eqb_sym a "%"), (proj2 (Ascii.eqb_neq "%" a) Hp). cbn [orb].
  destruct (Ascii.eqb_spec "_" a) as [<-|Hu]; cbn [escape_with]; [cbn; by rewrite IH|].
  rewrite (Ascii.eqb_sym a "_"), (proj2 (Ascii.eqb_neq "_" a) Hu). by rewrite IH.
Qed.
Lemma like_all s : like "%" s = true.
Proof. induction s as [|a s IH]; [done|]. cbn in *. exact IH. Qed.
Lemma like_literal t s : like (escape_with special t +:+ "%") s = prefix_ci t s.
Proof.
  revert s. induction t as [|a t IH]; intros s; [apply like_all|]. cbn [escape_with]. unfold special.
  destruct (Ascii.eqb_spec a "\") as [->|Hb]; cbn [orb].
  { cbn [String.append]. cbn [like]. change (Ascii.eqb "\" "%") with false. change (Ascii.eqb "\" "_") with false. change (Ascii.eqb "\" "\") with true.
    cbn beta iota. destruct s as [|b s]; [done|]. by rewrite IH. }
  destruct (Ascii.eqb_spec a "%") as [->|Hp]; cbn [orb].
  { cbn [String.append like]. change (Ascii.eqb "\" "%") with false. change (Ascii.eqb "\" "_") with false. change (Ascii.eqb "\" "\") with true.
    cbn beta iota. destruct s as [|b s]; [done|]. by rewrite IH. }
  destruct (Ascii.eqb_spec a "_") as [->|Hu]; cbn [orb].
  { cbn [String.append like]. change (Ascii.eqb "\" "%") with false. change (Ascii.eqb "\" "_") with false. change (Ascii.eqb "\" "\") with true.
    cbn beta iota. destruct s as [|b s]; [done|]. by rewrite IH. }
  cbn [String.append like]. rewrite (proj2 (Ascii.eqb_neq a "%") Hp), (proj2 (Ascii.eqb_neq a "_") Hu), (proj2 (Ascii.eqb_neq a "\") Hb).
  destruct s as [|b s]; [done|]. by rewrite IH.
Qed.
Lemma like_contains t s : like (like_pattern t) s = contains_ci t s.
Proof.
  unfold like_pattern. rewrite escapes_once. change ("%" +:+ escape_with special t +:+ "%") with (String "%" (escape_with special t +:+ "%")).
  cbn [like]. change (Ascii.eqb "%" "%") with true. cbn beta iota.
  induction s as [|a s IH]; cbn; rewrite like_literal; [done|]. by rewrite IH.
Qed.

(** What the user typed is searched for literally.  The full-text query made of any text reads
    back, with FTS5's own string rules, as exactly the words of the text: no operator, column
    filter, prefix star or quote of the user reaches the query language; a text without words is
    refused. *)
Theorem fts_query_is_literal (q : string) :
  match prepare_fts5_query q with
  | Some text => fts5_strings (length (split_whitespace q)) text = Some (split_whitespace q)
  | None => split_whitespace q = []
  end.
Proof.
  unfold prepare_fts5_query. destruct (split_whitespace q) as [|t tokens] eqn:Hq; [done|]. by apply fts5_strings_read.
Qed.

Section Reading.
Context {K R T : Type} `{JmapWire T} `{StoreLib} `{JsonLib} `{Fts}.
Local Abbreviation W := (desk K R T).
Local Abbreviation M := (io W SyncError).
Implicit Types w : W.

Lemma stmt_answer {A} (f : W -> A) w : ml_fuse (dk_mail w) = None -> stmt (fun w => (f w, w)) w = (Ok (f w), w).
Proof using Type.
  unfold stmt, mstmt. intros Hu. rewrite Hu. cbn. replace (set_mail (set_fuse None (dk_mail w)) w) with w; [done|].
  destruct w as [o [? ? ? ? ? fuse] ? ? ? ? ? ? ?]. cbn in *. by subst fuse.
Qed.
(** Reference: each word occurs, in any case, in a searched column. *)
Definition has_word (word : string) (m : MessageRow) : bool :=
  existsb (fun col => match col with Some s => contains_ci word s | None => false end) (searched_columns m).
Lemma column_word word m : existsb (column_like (like_pattern word)) (searched_columns m) = has_word word m.
Proof using Type.
  unfold has_word. induction (searched_columns m) as [|col cols IH]; [done|]. cbn [existsb]. rewrite IH. f_equal.
  destruct col as [s|]; [|done]. apply like_contains.
Qed.

Lemma words_match words m :
  forallb (fun p => existsb (column_like p) (searched_columns m)) (map like_pattern words) = forallb (fun word => has_word word m) words.
Proof using Type. induction words as [|word words IH]; [done|]. cbn [map forallb]. by rewrite IH, column_word. Qed.

(** The search for non-ASCII text is substring search.  While the database answers, it
    lists the newest [n] of exactly the live messages of the user's accounts, in the account and
    folder asked for, in which every word of the query occurs: the LIKE patterns match what
    substring search would, wildcards of the query included. *)
Theorem like_search_is_substring_search (q user_id : string) (account_id folder_id : option string) n w :
  ml_fuse (dk_mail w) = None -> split_whitespace q <> [] ->
  fst (sqlite_like_search_message_ids q user_id account_id folder_id n w) =
    Ok (map m_id (take n (order_by date_desc
      (List.filter (fun m => in_scope user_id account_id folder_id w m && forallb (fun word => has_word word m) (split_whitespace q))
         (ml_messages (dk_mail w)))))).
Proof using Type.
  intros Hu Hne. unfold sqlite_like_search_message_ids. destruct (split_whitespace q) as [|t tokens] eqn:Hq; [done|].
  unfold sstmt_, map_err. rewrite stmt_answer by done. cbn [fst rmap_err]. do 4 f_equal. apply filter_ext. intros m. f_equal. apply words_match.
Qed.

(** What a reader is shown. *)
Inductive reading := InFolder (f : string) | Everywhere (role account_id : option string) (is_starred : option bool)
  | Searched (q : string) (account_id folder_id : option string) (limit : option Z) | One (message_id : string).
Definition read (user_id : string) (a : reading) : M (list ListedRow) :=
  match a with
  | InFolder f => list_messages user_id f
  | Everywhere role account_id is_starred => list_messages_query user_id role account_id is_starred
  | Searched q account_id folder_id limit => search_messages user_id q account_id folder_id limit
  | One i => let! row := load_message_row user_id i in ret [mkListed (lr_msg row) (lr_folder_role row)]
  end.
Definition own (user_id : string) w (r : ListedRow) : Prop :=
  In (ls_msg r) (ml_messages (dk_mail w)) /\ m_deleted (ls_msg r) = false /\
  exists a, a ∈ accounts w /\ ma_id a = m_account (ls_msg r) /\ ma_user_id a = user_id.
(** Every message stands in a folder of its own account: no constraint of the tables says so, the sync and the moves file
    mail that way, and a list by folder rests on it. *)
Definition homed w : Prop := forall m f, m ∈ ml_messages (dk_mail w) -> List.find (folder_by_id (m_folder m)) (ml_folders (dk_mail w)) = Some f ->
  f_account f = m_account m.
Lemma with_folder_msg w m r : with_folder w m = Some r -> ls_msg r = m.
Proof using Type. unfold with_folder. destruct (List.find _ _); [|done]. by intros [= <-]. Qed.
Lemma of_user_account user_id w m : of_user user_id w m = true -> exists a, a ∈ accounts w /\ ma_id a = m_account m /\ ma_user_id a = user_id.
Proof using Type.
  unfold of_user. rewrite existsb_exists. intros (a & Ha & [Hi%String.eqb_eq Hu%String.eqb_eq]%andb_true_iff). exists a. by rewrite list_elem_of_In.
Qed.
(** A row of a page is a live message its predicate takes. *)
Lemma page_row n p w r : r ∈ page n p w -> In (ls_msg r) (ml_messages (dk_mail w)) /\ m_deleted (ls_msg r) = false /\
  with_folder w (ls_msg r) = Some r /\ p w r = true.
Proof using Type.
  intros Hr. unfold page in Hr. apply elem_of_take in Hr as (k & Hk & _). apply list_elem_of_lookup_2 in Hk.
  apply list_elem_of_In, filter_In in Hk as [Hk Hp]. apply list_elem_of_In, list_elem_of_omap in Hk as (m & Hm & Hj).
  rewrite order_by_perm in Hm. apply list_elem_of_In, filter_In in Hm as [Hm Hd]. pose proof (with_folder_msg _ _ _ Hj) as Hl. subst m.
  split_and!; [done|by destruct (m_deleted _)|done|done].
Qed.
Lemma page_own user_id n p w : (forall r, with_folder w (ls_msg r) = Some r -> In (ls_msg r) (ml_messages (dk_mail w)) -> p w r = true ->
  of_user user_id w (ls_msg r) = true) -> Forall (own user_id w) (page n p w).
Proof using Type.
  intros Hp. apply Forall_forall. intros r (Hin & Hd & Hf & Hr)%page_row. split_and!; [done|done|]. by apply of_user_account, Hp.
Qed.
Lemma found_one user_id i w r : live_row user_id i w = Some r -> own user_id w r.
Proof using Type.
  unfold live_row. destruct (List.find _ _) as [m|] eqn:Hf; [|done]. cbn. destruct (of_user user_id w m) eqn:Ho; [|done].
  intros Hr. apply with_folder_msg in Hr. subst m. apply find_some in Hf as [Hin Hl]. split_and!; [done| |by apply of_user_account].
  unfold live_id in Hl. by destruct (has_id i _), (m_deleted _).
Qed.
Lemma loaded_one user_id i w row : List.find (live_id i) (ml_messages (dk_mail w)) ≫= joined_row user_id w = Some row ->
  own user_id w (mkListed (lr_msg row) (lr_folder_role row)).
Proof using Type.
  destruct (List.find (live_id i) _) as [m|] eqn:Hf; [|done]. cbn. unfold joined_row. destruct (List.find (owned_account _ _) _) as [a|] eqn:Ha; [|done].
  cbn. destruct (List.find (folder_by_id _) _) as [f|]; [|done]. intros [= <-]. apply find_some in Hf as [Hin Hl]. apply find_some in Ha as [Ha Ho].
  split_and!; [done|unfold live_id in Hl; cbn; by destruct (has_id i _), (m_deleted _)|]. apply of_user_account. unfold of_user. apply existsb_exists. by exists a.
Qed.

Definition same_data w w' : Prop :=
  ml_messages (dk_mail w') = ml_messages (dk_mail w) /\ accounts w' = accounts w /\ ml_folders (dk_mail w') = ml_folders (dk_mail w).
#[local] Instance same_data_pre : PreOrder same_data.
Proof. split; [by intros w|]. intros x y z (? & ? & ?) (? & ? & ?). split_and!; congruence. Qed.
Lemma own_same user_id w w' r : same_data w w' -> own user_id w' r -> own user_id w r.
Proof using Type. intros (Hm & Ha & _) (Hi & Hd & Ho). rewrite Hm in Hi. rewrite Ha in Ho. by split_and!. Qed.
(** A read answers of the world it leaves. *)
Lemma stmt_reads {A} (f : W -> A) w r w' : stmt (fun w => (f w, w)) w = (r, w') -> same_data w w' /\ forall a, r = Ok a -> a = f w'.
Proof using Type.
  unfold stmt, mstmt. destruct (ml_fuse (dk_mail w)) as [[|n]|]; intros [= <- <-]; (split; [done|]); by intros a [= ->].
Qed.
Definition shows user_id (m : M (list ListedRow)) : Prop := forall w rows w', m w = (Ok rows, w') -> same_data w w' /\ Forall (own user_id w) rows.
Lemma shows_ret user_id : shows user_id (ret []).
Proof using Type. by intros w rows w' [= <- <-]. Qed.
Lemma shows_bind {A} user_id (m : M A) k : preserves same_data m -> (forall a, shows user_id (k a)) -> shows user_id (bind m k).
Proof using Type.
  intros Hm Hk w rows w' (a & w1 & Ha & Hr)%bind_Ok. apply Hm in Ha. apply Hk in Hr as [Hs Hf]. split; [by etrans|].
  eapply Forall_impl; [exact Hf|]. intros r. by apply own_same.
Qed.
Lemma shows_page user_id n p : (forall w r, p w r = true -> of_user user_id w (ls_msg r) = true) -> shows user_id (stmt (fun w => (page n p w, w))).
Proof using Type.
  intros Hp w rows w' Hr. apply stmt_reads in Hr as [Hs Ha]. split; [done|]. rewrite (Ha rows eq_refl).
  eapply Forall_impl; [by apply page_own; auto|]. intros r. by apply own_same.
Qed.
Lemma reads_same {A} (f : W -> A) : preserves same_data (stmt (fun w => (f w, w))).
Proof using Type. intros w r w' Hr. by apply stmt_reads in Hr as [? _]. Qed.
#[local] Hint Extern 1 (preserves same_data (stmt _)) => apply reads_same : preserve.
Lemma shows_fetched user_id ids : shows user_id (fetch_messages_by_ids ids user_id).
Proof using Type.
  induction ids as [|i ids IH]; [apply shows_ret|]. cbn [fetch_messages_by_ids]. intros w rows w' (row & w1 & Hrow & Hr)%bind_Ok.
  apply stmt_reads in Hrow as [Hs Ha]. specialize (Ha row eq_refl). apply bind_Ok in Hr as (rest & w2 & Hrest & [= <- <-]).
  apply IH in Hrest as [Hs2 Hf]. split; [by etrans|].
  assert (Hrs : Forall (own user_id w) rest) by (eapply Forall_impl; [exact Hf|]; intros r; by apply own_same).
  destruct row as [r|]; [|done]. constructor; [|done]. symmetry in Ha. apply found_one in Ha. by eapply own_same.
Qed.
Lemma same_ids u q a f n : preserves same_data (map_err search_error (search_message_ids (K := K) (R := R) (T := T) u q a f n)).
Proof using Type.
  unfold search_message_ids, sqlite_like_search_message_ids, sqlite_search_message_ids, sstmt_. cbv zeta. preserve.
Qed.

(** A list by folder, of a world where mail is at home. *)
Lemma folder_own user_id f w rows w' : homed w -> list_messages user_id f w = (Ok rows, w') -> same_data w w' /\ Forall (own user_id w) rows.
Proof using Type.
  intros Hhome Hr. unfold list_messages in Hr. apply bind_Ok in Hr as (check & w1 & Hc & Hr).
  apply stmt_reads in Hc as [Hs1 Hc]. specialize (Hc check eq_refl). destruct check; [|done]. cbn [negb] in Hr. symmetry in Hc. apply bool_decide_eq_true in Hc.
  apply stmt_reads in Hr as [Hs2 Ha]. pose proof (transitivity Hs1 Hs2) as Hs. split; [done|]. rewrite (Ha rows eq_refl).
  eapply Forall_impl; [apply page_own|intros r; by apply own_same]. intros r Hf Hin [Hfo _]%andb_true_iff. apply String.eqb_eq in Hfo.
  unfold owned_folder in Hc. destruct Hs1 as (Hm1 & Ha1 & Hf1). destruct Hs2 as (Hm2 & Ha2 & Hf2). destruct Hs as (Hm & _ & Hfo').
  unfold with_folder in Hf. rewrite Hfo, Hf2 in Hf. destruct (List.find (folder_by_id f) (ml_folders (dk_mail w1))) as [row|] eqn:Hrow; [|done].
  cbn in Hc. destruct (existsb _ _) eqn:Ho; [|by destruct Hc]. unfold of_user. rewrite Ha2.
  rewrite <-(Hhome (ls_msg r) row); [done|rewrite <-Hm; by apply list_elem_of_In|]. by rewrite Hfo, <-Hf1.
Qed.

(** C23: no list shows another user's mail.  In a database where every message stands in a folder of
    its own account - the list of a folder goes by the folder alone -: whatever folder, role,
    account, search text or message id a user asks for - ids of another user's folders, accounts and
    messages included - every row answered is a live message of an account of that user, and reading
    changes no mail. *)
Theorem reads_are_own user_id a w rows w' : homed w ->
  read user_id a w = (Ok rows, w') -> ml_messages (dk_mail w') = ml_messages (dk_mail w) /\ Forall (own user_id w) rows.
Proof using Type.
  intros Hhome Hr. enough (same_data w w' /\ Forall (own user_id w) rows) as [[? _] ?] by done.
  destruct a as [f|role acc st|q acc f limit|i]; cbn [read] in Hr; [by eapply folder_own| | |].
  - revert Hr. apply shows_page. intros w0 r. rewrite !andb_true_iff. tauto.
  - revert Hr. unfold search_messages. cbv zeta. destruct (is_empty _); [done|]. destruct (_ <? _)%nat; [done|].
    unfold found. apply shows_bind; [apply same_ids|]. intros [|i ids]; [apply shows_ret|apply shows_fetched].
  - apply bind_Ok in Hr as (row & w2 & Hl & [= <- <-]). unfold load_message_row in Hl. apply bind_Ok in Hl as (o & w3 & Hr & Ho).
    apply stmt_reads in Hr as [Hs Ha]. specialize (Ha o eq_refl). destruct o as [x|]; [|done]. injection Ho as <- <-.
    split; [done|]. constructor; [|done]. symmetry in Ha. apply loaded_one in Ha. by eapply own_same.
Qed.
End Reading.

(** ** Concrete searches *)

Definition lunches : desk MemoryKv.t N toy_net :=
  set_mail (set_messages [box_message "m1" "a1" "f1" 7 "carol@x.org" "发票 100%"; box_message "m2" "a1" "f1" 8 "carol@x.org" "发票 1000";
                          box_message "n1" "a2" "g1" 7 "carol@x.org" "发票 100%"] (dk_mail (box_desk [] [] []))) (box_desk [] [] []).
#[local] Instance no_fts : Fts := fun _ _ _ _ => None.
(** A percent sign of the query is a percent sign. *)
Lemma like_search_is_substring_search_witness :
  fst (sqlite_like_search_message_ids "发票 0%" "u1" None None 10 lunches) = Ok ["m1"] /\
  fst (sqlite_like_search_message_ids "发票 0%" "u1" None None 10 lunches) =
    Ok (map m_id (take 10 (order_by date_desc
      (List.filter (fun m => in_scope "u1" None None lunches m && forallb (fun word => has_word word m) (split_whitespace "发票 0%"))
         (ml_messages (dk_mail lunches)))))).
Proof.
  split; [vm_compute; reflexivity|].
  apply (like_search_is_substring_search "发票 0%" "u1" None None 10 lunches); [reflexivity|]. vm_compute. discriminate.
Defined.
Definition searched := read "u1" (Searched "发票" (Some "a2") None None) lunches.
Definition other_folder := read "u1" (InFolder "g1") lunches.
Definition own_folder := read "u1" (InFolder "f1") lunches.
Lemma lunches_homed : homed lunches.
Proof.
  intros m f Hm. repeat (apply elem_of_cons in Hm as [->|Hm]; [vm_compute; by intros [= <-]|]). by apply not_elem_of_nil in Hm.
Qed.
Lemma reads_are_own_witness :
  fst searched = Ok [] /\ fst other_folder = Err AccountNotFound /\
  option_map (map (fun r => m_id (ls_msg r))) (rok (fst own_folder)) = Some ["m1"; "m2"] /\
  exists rows, fst own_folder = Ok rows /\ Forall (own "u1" lunches) rows.
Proof.
  split; [vm_compute; reflexivity|]. split; [vm_compute; reflexivity|]. split; [vm_compute; reflexivity|].
  destruct own_folder as [[rows|e] w'] eqn:Hr; [|vm_compute in Hr; discriminate Hr].
  exists rows. split; [reflexivity|]. apply (reads_are_own "u1" (InFolder "f1") lunches rows w' lunches_homed Hr).
Defined.
(** A message filed in a folder of another account shows in that folder's list, to its owner. *)
Definition misfiled : desk MemoryKv.t N toy_net :=
  set_mail (set_messages [box_message "n1" "a2" "f1" 7 "carol@x.org" "private"] (dk_mail (box_desk [] [] []))) (box_desk [] [] []).
Lemma misfiled_mail_is_listed : option_map (map (fun r => m_account (ls_msg r))) (rok (fst (read "u1" (InFolder "f1") misfiled))) = Some ["a2"].
Proof. vm_compute. reflexivity. Qed.
(** On PostgreSQL the words are not escaped: a percent sign there matches anything. *)
Lemma unescaped_percent_matches_all : like ("%" +:+ "0%1" +:+ "%") "2021" = true /\ contains_ci "0%1" "2021" = false.
Proof. vm_compute. by split. Qed.
