(* ===== verification/AiAssist.v ===== *)
(** * The assistant: tools, chat, suggestions and their routes ([ai/chat.rs], [ai/tools.rs],
      [ai/http.rs], the assist halves of [ai/mod.rs], [spam_assist.rs] and [calendar.rs])

    What a request of the AI routes does to the mailbox world.  The model's replies are the
    network's; dates are the class [Calendar].  A panic of a byte slice is [AiPanic]. *)
From S2P Require Import Prelude Kv Crypto UnlockRing World Toy Session Labels Jobs Pool Netsec MailStore Imap ImapLoop Blobs Jmap JmapLoop.
From S2P Require Import Spam OAuth Ai JmapWrite Desk Actions SpamPass ToyDesk Isolation Search.
Local Open Scope string_scope.
Local Open Scope Z_scope.

Definition HISTORY_CAP : nat := 30.
Definition MAX_TOOL_ROUNDS : nat := 3.
Definition CONTEXT_BODY_CAP : nat := 8192.
Definition MESSAGE_CHARS : nat := 8000.

(** ** Tools *)

Definition described (ty d : string) : Json := JObject [("type", JString ty); ("description", JString d)].
Definition schema (props : list (string * Json)) (required : list string) : Json :=
  JObject ([("type", JString "object"); ("properties", JObject props)]
           ++ match required with [] => [] | _ => [("required", JArray (map JString required))] end)%list.
Definition tool_specs : list ToolSpec := [
  mkTool "search_mail" ("Search the user's mailbox by keyword (subject, body, sender). Use this before answering questions about "
    +:+ "specific emails, e.g. finding an invoice or a message from someone.")
    (schema [("query", described "string" "Search keywords; use the language of the emails (Chinese or English).");
             ("limit", described "integer" "Maximum hits to return (1-20, default 10).")] ["query"]);
  mkTool "read_mail" ("Read one message in full (sender, subject, date, body). Call this after search_mail when the body details "
    +:+ "matter, e.g. amounts, dates, or action items.")
    (schema [("message_id", described "string" "The message id exactly as it appears in a search_mail hit.")] ["message_id"]);
  mkTool "list_folders" "List the user's mail folders with unread counts. Use when asked where mail lives or for folder overviews."
    (schema [] []);
  mkTool "propose_draft" ("Stage a reply/compose draft for the user. Nothing is sent — the user reviews the draft and decides. "
    +:+ "Use when asked to write or reply to mail.")
    (schema [("to", described "string" "Recipient address(es), comma separated."); ("subject", JObject [("type", JString "string")]);
             ("body", described "string" "Full draft body in the conversation's language.")] ["to"; "subject"; "body"]);
  mkTool "propose_move" "Propose filing one message. Nothing moves until the user confirms. action is one of spam, archive, trash, notSpam."
    (schema [("message_id", described "string" "From a search_mail hit.");
             ("action", JObject [("type", JString "string"); ("enum", JArray (map JString ["spam"; "archive"; "trash"; "notSpam"]));
                ("description", JString ("spam = move to the junk/spam folder; trash = deleted items; archive; notSpam = rescue from "
                   +:+ "junk to inbox."))])] ["message_id"; "action"])].

Definition json_opt (o : option string) : Json := match o with Some s => JString s | None => JNull end.
Definition hit_json (h : AiMailHit) : Json :=
  JObject [("id", JString (mh_id h)); ("subject", json_opt (mh_subject h)); ("from", json_opt (mh_from h)); ("date", json_opt (mh_date h));
           ("snippet", json_opt (mh_snippet h)); ("folder_role", json_opt (mh_role h)); ("is_read", JBool (mh_read h))].
Definition folder_json (h : AiFolderHit) : Json :=
  JObject [("account", JString (fh_account h)); ("name", JString (fh_name h)); ("role", json_opt (fh_role h));
           ("unread", json_num (fh_unread h)); ("total", json_num (fh_total h))].
(** The [Display] of the errors a read can end in; the last three never come from one, and their
    inner text is left out. *)
Definition read_error_text (e : SyncError) : string :=
  match e with
  | AccountNotFound => "account not found"
  | MessageNotFound => "message not found"
  | AccountDisabled => "account not active or sync disabled"
  | Database e => "database error: " +:+ e
  | CryptoE m => "crypto error: " +:+ m
  | InvalidInput m => "invalid input: " +:+ m
  | InternalE m => "internal error: " +:+ m
  | ProtocolE m => "protocol error: " +:+ m
  | Imap _ => "imap error" | Jmap _ => "jmap error" | Smtp _ => "smtp error"
  end.

Record ChatTurn := mkChatTurn { ct_reply : string; ct_actions : list PendingAction }.
Record PutAiSettingsRequest := mkPut {
  pa_enabled : option bool; pa_dialect : option string; pa_base_url : option string; pa_model : option string;
  pa_api_key : option string; pa_features : option AiFeatures; pa_spam_mode : option string }.
Record AiSettingsResponse := mkResponse {
  rs_enabled : bool; rs_dialect : AiDialect; rs_base_url : string; rs_model : string; rs_has_key : bool; rs_features : AiFeatures;
  rs_spam_mode : SpamMode }.
Definition response_for (s : AiSettings) : AiSettingsResponse :=
  mkResponse (ai_enabled s) (ai_dialect s) (ai_base_url s) (ai_model s) (has_key s) (ai_features s) (ai_spam_mode s).
Record AiDraftRequest := mkDraftRequest { dr_message_id : string; dr_mode : string; dr_instruction : option string }.
Record AiChatRequest := mkChatRequest { cq_message : string; cq_message_id : option string }.

(** [IntoResponse]: the status, the text and the code.  A panic has no response. *)
Definition ai_response (e : AiError) : option (Z * string * string) :=
  match e with
  | AiNotConfigured => Some (409, "AI assist is off or not configured", "ai_not_configured")
  | FeatureDisabled => Some (403, "this assist feature is disabled in settings", "ai_feature_disabled")
  | AiInvalid m => Some (400, m, "bad_request")
  | AiSettingsInvalid m => Some (400, "invalid AI settings: " +:+ m, "bad_request")
  | AiSettingsDb m => Some (400, m, "bad_request")
  | AiTimeout => Some (502, "request timed out", "bad_gateway")
  | Unreachable m => Some (502, "provider unreachable: " +:+ m, "bad_gateway")
  | Provider m => Some (502, "provider rejected the request: " +:+ m, "bad_gateway")
  | AiDb _ | AiCrypto _ => Some (500, "internal error", "internal_error")
  | AiPanic _ => None
  end.

(** chrono: the UTC date, the local date and weekday of an instant. *)
Class Calendar := { utc_ymd : Z -> string; local_ymd : Z -> string; local_weekday : Z -> string }.

Definition system_prompt (today : string) (context_body : option string) : string :=
  "You are Lyra's mail assistant, helping the user with their mailbox. Today is " +:+ today
  +:+ ". Answer in the user's language, concisely. You can call search_mail to find messages, read_mail to open one in " +:+ ln
  +:+ "         full, and list_folders for folder overviews; cite subjects/dates from " +:+ ln
  +:+ "         the hits. When the user asks you to write or reply to mail, ALWAYS " +:+ ln
  +:+ "         call propose_draft (never paste drafts only in chat). When asked to " +:+ ln
  +:+ "         file mail, call propose_move. Nothing is sent or moved until the " +:+ ln
  +:+ "         user confirms the proposal card."
  +:+ match context_body with Some body => ln +:+ ln +:+ "The user currently has this message open:" +:+ ln +:+ ln +:+ body | None => "" end.

Section Assist.
Context {K R T : Type} `{HasRng R} `{CryptoLib} `{JmapWire T} `{StoreLib} `{JsonLib} `{LlmNet T} `{FeaturesLib} `{Fts} `{DateLib} `{Calendar}.
Local Abbreviation W := (desk K R T).
Local Abbreviation M := (io W AiError).
Implicit Types w : W.

(** ** Calls under the stored settings *)

Definition client_for (user_id : string) (settings : AiSettings) : M LlmClient :=
  let! view := lift (ok_or AiNotConfigured (ready settings)) in
  let! dek := map_err AiCrypto (on_ow (on_auth (get_user_dek user_id))) in
  let! key := lift (decrypt_key view dek) in
  ret (new_client view key).
Definition complete (user_id system prompt : string) : M string :=
  let! settings := on_ai (Ai.load_settings user_id) in
  let! client := client_for user_id settings in
  Desk.on_net (Ai.complete client system prompt).
Definition test_connection (user_id : string) : M string :=
  complete user_id "You are a connection test. Reply with the single word: ok" "Say ok.".
(** A message of the user, or the error as text. *)
Definition context_or_invalid (user_id message_id : string) : M AiMessageContext :=
  map_err (fun e => AiInvalid (read_error_text e)) (load_ai_message_context user_id message_id).
Definition sender_or (unknown : string) (c : AiMessageContext) : string := default unknown (Spam.from_json_email (ac_from c)).

Definition build_draft_prompt (user_id message_id mode : string) (instruction : option string) : M (string * string) :=
  let! row := context_or_invalid user_id message_id in
  let! body := lift (capped DRAFT_BODY_CAP (default "" (ac_body row))) in
  ret (draft_system mode,
       draft_prompt mode (sender_or "unknown sender" row) (default "(no subject)" (ac_subject row)) body instruction).
Definition draft_reply (user_id message_id mode : string) (instruction : option string) : M string :=
  let! settings := on_ai (Ai.load_settings user_id) in
  if negb (ai_enabled settings) then throw AiNotConfigured
  else if negb (fe_draft_reply (ai_features settings)) then throw FeatureDisabled
  else
    let! prompt := build_draft_prompt user_id message_id mode instruction in
    complete user_id (fst prompt) (snd prompt).
Definition suggest (user_id message_id : string) : M SpamVerdict :=
  let! settings := on_ai (Ai.load_settings user_id) in
  if negb (ai_enabled settings) || negb (bool_decide (ai_spam_mode settings = Suggest)) then throw FeatureDisabled else
  let! client := client_for user_id settings in
  let! row := context_or_invalid user_id message_id in
  let! reply := Desk.on_net (Ai.complete client SPAM_SYSTEM
                  (spam_prompt (default "" (ac_subject row)) (sender_or "unknown" row) (take_chars 600 (default "" (ac_body row))))) in
  let! verdict := lift (parse_spam_verdict reply) in
  lift (ok_or (Provider "model did not return a valid verdict") verdict).
Definition suggest_event (user_id message_id : string) : M EventSuggestion :=
  let! settings := on_ai (Ai.load_settings user_id) in
  if negb (ai_enabled settings) || negb (fe_calendar (ai_features settings)) then throw FeatureDisabled else
  let! client := client_for user_id settings in
  let! row := context_or_invalid user_id message_id in
  let! now := gets (fun w => ml_now (dk_mail w)) in
  let prompt := calendar_prompt (local_ymd now) (local_weekday now) (default "" (ac_subject row)) (sender_or "unknown" row)
                  (take_chars 2000 (default "" (ac_body row))) in
  let! reply := Desk.on_net (Ai.complete client CALENDAR_SYSTEM prompt) in
  let! event := lift (parse_event_suggestion reply) in
  lift (ok_or (AiInvalid "no schedulable event found") event).

(** ** The tools the assistant runs *)

Definition search_mail (user_id : string) (args : Json) : io W AiError Json :=
  match str_field "query" args with
  | None => ret (error_json "missing required argument: query")
  | Some query =>
      let query := trim query in
      if (char_count query <? 2)%nat then ret (error_json "query must be at least 2 characters") else
      let limit := clamp 1 20 (default 10 (json_field "limit" args ≫= json_i64)) in
      let! hits := attempt (ai_search_mail user_id query limit) in
      ret (match hits with
           | Ok [] => JObject [("results", JArray []); ("note", JString "no matching messages")]
           | Ok hits => JObject [("results", JArray (map hit_json hits))]
           | Err e => error_json (read_error_text e)
           end)
  end.
Definition read_mail (user_id : string) (args : Json) : io W AiError Json :=
  match id_argument args with
  | None => ret (error_json "missing required argument: message_id")
  | Some id =>
      let! row := attempt (load_ai_message_context user_id id) in
      ret (match row with
           | Ok row => JObject [("from", JString (sender_or "unknown" row)); ("subject", json_opt (ac_subject row));
                                ("date", json_opt (ac_date row)); ("body", json_opt (ac_body row))]
           | Err _ => error_json "message not found"
           end)
  end.
Definition list_folders (user_id : string) : io W AiError Json :=
  let! folders := attempt (ai_list_folders user_id) in
  ret (match folders with
       | Ok folders => JObject [("folders", JArray (map folder_json folders))]
       | Err e => error_json (read_error_text e)
       end).
Definition execute_tool (user_id name arguments : string) : M (string * option PendingAction) :=
  let args := default (JObject []) (json_parse arguments) in
  let proposed (p : Json * option PendingAction) : M (string * option PendingAction) := ret (json_text (fst p), snd p) in
  let answered (m : M Json) : M (string * option PendingAction) := let! v := m in ret (json_text v, None) in
  if String.eqb name "search_mail" then answered (search_mail user_id args)
  else if String.eqb name "read_mail" then answered (read_mail user_id args)
  else if String.eqb name "list_folders" then answered (list_folders user_id)
  else if String.eqb name "propose_draft" then proposed (propose_draft args)
  else if String.eqb name "propose_move" then proposed (propose_move args)
  else proposed (error_json ("unknown tool: " +:+ name), None).
(** The results by call, and the actions proposed so far with the new ones. *)
Fixpoint run_tools (user_id : string) (calls : list ToolCall) (pending : list PendingAction)
    : M (list (string * string) * list PendingAction) :=
  match calls with
  | [] => ret ([], pending)
  | call :: rest =>
      let! ran := execute_tool user_id (tc_name call) (tc_arguments call) in
      let pending := match snd ran with Some a => (pending ++ [a])%list | None => pending end in
      let! later := run_tools user_id rest pending in
      ret ((tc_id call, fst ran) :: fst later, snd later)
  end.

(** ** Chat *)

Definition context_block (user_id message_id : string) : M (option string) :=
  let! row := attempt (load_ai_message_context user_id message_id) in
  match row with
  | Err _ => ret None
  | Ok row =>
      let! body := lift (capped CONTEXT_BODY_CAP (default "" (ac_body row))) in
      ret (Some ("From: " +:+ sender_or "unknown sender" row +:+ ln +:+ "Subject: " +:+ default "(no subject)" (ac_subject row)
                 +:+ ln +:+ ln +:+ body))
  end.
Definition attached (user_id : string) (message_id : option string) : M (option string) :=
  match nonempty message_id with Some id => context_block user_id id | None => ret None end.
(** The last [n]. *)
Definition last_of {A} (n : nat) (l : list A) : list A := drop (length l - n) l.
Definition history_turn (e : ChatHistoryEntry) : LlmMessage :=
  mkTurn (if String.eqb (he_role e) "user" then User else Assistant) (he_content e).
(** The rounds that are left after this one; the last is offered no tools. *)
Fixpoint chat_rounds (left_ : nat) (user_id : string) (client : LlmClient) (system : string) (history : list LlmMessage)
    (exchanges : list ToolExchange) (pending : list PendingAction) : M ChatTurn :=
  let tools := match left_ with O => [] | _ => tool_specs end in
  let! turn := Desk.on_net (chat_turn client system history tools exchanges) in
  match turn with
  | Text text => ret (mkChatTurn text pending)
  | ToolCalls calls =>
      let! ran := run_tools user_id calls pending in
      match left_ with
      | O => ret (mkChatTurn "" (snd ran))
      | S n => chat_rounds n user_id client system history (exchanges ++ [(calls, fst ran)])%list (snd ran)
      end
  end.
Definition chat (user_id message : string) (message_id : option string) : M ChatTurn :=
  let! settings := on_ai (Ai.load_settings user_id) in
  if negb (ai_enabled settings) then throw AiNotConfigured
  else if negb (fe_assistant (ai_features settings)) then throw FeatureDisabled
  else
    let! client := client_for user_id settings in
    let! stored := on_ai (load_history user_id) in
    let history := (map history_turn (last_of HISTORY_CAP stored) ++ [mkTurn User message])%list in
    let! context := attached user_id message_id in
    let! now := gets (fun w => ml_now (dk_mail w)) in
    let! turn := chat_rounds MAX_TOOL_ROUNDS user_id client (system_prompt (utc_ymd now) context) history [] [] in
    let! _ := on_ai (Ai.append user_id "user" message) in
    let! _ := on_ai (Ai.append user_id "assistant" (ct_reply turn)) in
    ret turn.

(** ** The routes *)

Definition get_ai (user_id : string) : M AiSettingsResponse :=
  let! settings := attempt (F := AiError) (on_ai (Ai.load_settings user_id)) in
  ret (response_for (match settings with Ok s => s | Err _ => empty_settings end)).
(** The fields of the request but the key. *)
Definition put_fields (body : PutAiSettingsRequest) (s : AiSettings) : result AiError AiSettings :=
  let? dialect := match pa_dialect body with
                  | Some d => ok_or (AiInvalid ("unknown dialect: " +:+ d)) (dialect_parse d)
                  | None => Ok (ai_dialect s)
                  end in
  let? spam_mode := match pa_spam_mode body with
                    | Some raw => ok_or (AiInvalid ("unknown spamMode: " +:+ raw)) (mode_parse raw)
                    | None => Ok (ai_spam_mode s)
                    end in
  Ok (mkAi (default (ai_enabled s) (pa_enabled body)) dialect (default (ai_base_url s) (pa_base_url body))
        (default (ai_model s) (pa_model body)) (ai_key_blob s) (default (ai_features s) (pa_features body)) spam_mode).
Definition key_blob (user_id api_key : string) : M string :=
  if is_empty (trim api_key) then ret "" else
  let! dek := map_err AiCrypto (on_ow (on_auth (get_user_dek user_id))) in
  let! encrypted := map_err AiCrypto (on_ow (on_auth (encrypt dek (trim api_key)))) in
  ret (cred_to_json encrypted).
Definition put_ai (user_id : string) (body : PutAiSettingsRequest) : M AiSettingsResponse :=
  let! current := on_ai (Ai.load_settings user_id) in
  let! current := lift (put_fields body current) in
  let! current := match pa_api_key body with
                  | Some api_key => let! blob := key_blob user_id api_key in ret (with_key_blob blob current)
                  | None => ret current
                  end in
  let! _ := on_ai (Ai.save_settings user_id current) in
  let! saved := on_ai (Ai.load_settings user_id) in
  ret (response_for saved).
(** The reply and the model. *)
Definition test_ai (user_id : string) : M (string * string) :=
  let! reply := test_connection user_id in
  let! settings := on_ai (Ai.load_settings user_id) in
  ret (reply, ai_model settings).
Definition post_spam_suggest (user_id : string) (body : Json) : M SpamVerdict :=
  let! message_id := lift (ok_or (AiInvalid "messageId required") (str_field "messageId" body)) in
  suggest user_id message_id.
Definition post_draft (user_id : string) (body : AiDraftRequest) : M string :=
  if negb (String.eqb (dr_mode body) "reply") && negb (String.eqb (dr_mode body) "forward")
  then throw (AiInvalid "mode must be reply or forward")
  else draft_reply user_id (dr_message_id body) (dr_mode body) (dr_instruction body).
Definition get_chat (user_id : string) : M (list ChatHistoryEntry) := on_ai (load_history user_id).
Definition post_calendar_suggest (user_id : string) (body : Json) : M EventSuggestion :=
  let! message_id := lift (ok_or (AiInvalid "messageId required") (str_field "messageId" body)) in
  suggest_event user_id message_id.
Definition post_chat (user_id : string) (body : AiChatRequest) : M ChatTurn :=
  let message := trim (cq_message body) in
  if is_empty message || (MESSAGE_CHARS <? char_count message)%nat then throw (AiInvalid "message must be 1-8000 characters")
  else chat user_id message (cq_message_id body).
Definition delete_chat (user_id : string) : M unit := on_ai (clear user_id).
End Assist.

Section AssistProofs.
Context {K R T : Type} `{HasRng R} `{!RngLaws R} `{CryptoLib} `{!CryptoLaws} `{JmapWire T} `{StoreLib} `{JsonLib} `{LlmNet T}
  `{FeaturesLib} `{Fts} `{DateLib} `{Calendar}.
Context (user : string).
Local Abbreviation W := (desk K R T).
Local Abbreviation M := (io W AiError).
Implicit Types w : W.

(** ** Requests of the AI routes *)

Inductive ask := GetAi | PutAi (body : PutAiSettingsRequest) | TestAi | SpamSuggest (body : Json) | Draft (body : AiDraftRequest)
  | CalendarSuggest (body : Json) | ShowChat | Chat (body : AiChatRequest) | ClearChat.
Definition asked (a : ask) : M unit :=
  let drop_ {A} (m : M A) : M unit := let! _ := m in ret tt in
  match a with
  | GetAi => drop_ (get_ai user)
  | PutAi body => drop_ (put_ai user body)
  | TestAi => drop_ (test_ai user)
  | SpamSuggest body => drop_ (post_spam_suggest user body)
  | Draft body => drop_ (post_draft user body)
  | CalendarSuggest body => drop_ (post_calendar_suggest user body)
  | ShowChat => drop_ (get_chat user)
  | Chat body => drop_ (post_chat user body)
  | ClearChat => delete_chat user
  end.

(** ** What an assist request may touch *)

Definition others_ai (t : ai_tables) : list AiRow * list ChatRow :=
  (List.filter (fun r => negb (ai_row_of user r)) (at_settings t), List.filter (fun r => negb (chat_of user r)) (at_chat t)).
Definition tables (db : mail) : list FolderRow * list MessageRow := (ml_folders db, ml_messages db).
(** The rest of the world: spam tables, verdicts, drafts, JMAP sessions, jobs, spawned tasks. *)
Definition mailbox w := (tables (dk_mail w), dk_spam w, dk_verdicts w, dk_drafts w, dk_seams w, dk_jobs w, dk_spawned w).
Record advice w w' : Prop := {
  ad_accounts : Forall2 (row_spare user) (accounts w) (accounts w');
  ad_mailbox : mailbox w' = mailbox w;
  ad_ai : others_ai (dk_ai w') = others_ai (dk_ai w) }.
Definition advises w w' : Prop := NoDup (ma_id <$> accounts w) -> advice w w'.
#[local] Instance advises_pre : PreOrder advises.
Proof.
  split; [intros w _; split; [apply row_spare_refl|done|done]|]. intros x y z Hxy Hyz Hnd. destruct (Hxy Hnd) as [Ha Hm Hi].
  destruct Hyz as [Ha' Hm' Hi']; [by rewrite (row_spare_ids _ _ _ Ha)|]. split; [by eapply row_spare_trans|congruence|congruence].
Qed.
Lemma advises_same {E A} (m : io W E A) :
  (forall w r w', m w = (r, w') -> accounts w' = accounts w /\ mailbox w' = mailbox w /\ others_ai (dk_ai w') = others_ai (dk_ai w)) ->
  preserves advises m.
Proof using Type. intros Hm w r w' Hr _. destruct (Hm _ _ _ Hr) as (Ha & Hb & Hi). split; [rewrite Ha; apply row_spare_refl|done|done]. Qed.
Lemma advises_net {E A} (m : io T E A) : preserves advises (Desk.on_net m).
Proof using Type. apply advises_same. intros w r w'. unfold Desk.on_net. destruct (m _) as [x n]. by intros [= _ <-]. Qed.
Lemma advises_auth {E A} (m : io (world K R) E A) : preserves (spares user) m -> preserves advises (on_ow (T := T) (on_auth m)).
Proof using Type.
  intros Hm w r w'. unfold on_ow, on_auth. destruct (m (auth_view (dk_ow w))) as [x g] eqn:Hg. intros [= _ <-] Hu.
  split; [|done|done]. cbn. apply write_back_spare. apply (Hm _ _ _ Hg). cbn. unfold accounts in Hu. by rewrite <-list_fmap_compose.
Qed.
Lemma advises_read {A} (f : W -> A) : preserves advises (stmt (fun w => (f w, w))).
Proof using Type.
  apply advises_same. intros w r w' Hr. apply stmt_run in Hr as (db & Hm & Hf & _ & [[_ ->]|(a & _ & [= _ <-])]);
    (split_and!; [done| |done]); unfold mailbox, tables; cbn; by rewrite Hf, Hm.
Qed.
Lemma astmt_run {E A} (down : E) (f : Z -> ai_tables -> A * ai_tables) db t r db' t' : astmt down f (db, t) = (r, (db', t')) ->
  tables db' = tables db /\ (r = Err down /\ t' = t \/ exists a, r = Ok a /\ f (ml_now db) t = (a, t')).
Proof using Type.
  unfold astmt, mstmt, tables. destruct db as [now fs ms cs seq [[|n]|]]; cbn; [by intros [= <- <- <-]; auto| |];
    (destruct (f now t) as [a t1] eqn:Hf; intros [= <- <- <-]; split; [done|]; right; by exists a).
Qed.
Lemma advises_table {E A} (down : E) (f : Z -> ai_tables -> A * ai_tables) :
  (forall now t, others_ai (snd (f now t)) = others_ai t) -> preserves advises (on_ai (K := K) (R := R) (T := T) (astmt down f)).
Proof using Type.
  intros Hf. apply advises_same. intros w r w'. unfold on_ai. destruct (astmt _ _ _) as [x [db t]] eqn:Ha. intros [= _ <-].
  apply astmt_run in Ha as [Ht Ha]. split; [done|]. split; [unfold mailbox; cbn; by rewrite Ht|].
  destruct Ha as [[_ ->]|(a & _ & Hs)]; [done|]. cbn. specialize (Hf (ml_now (dk_mail w)) (dk_ai w)). by rewrite Hs in Hf.
Qed.
Lemma others_append now' i role content t :
  others_ai (mkAiTables (at_settings t) (at_chat t ++ [mkChatRow i user role content now'])%list) = others_ai t.
Proof using Type. unfold others_ai. cbn. rewrite List.filter_app. cbn. unfold chat_of. cbn. by rewrite String.eqb_refl, List.app_nil_r. Qed.
Lemma others_upsert s t : others_ai (mkAiTables (upsert_ai user s (at_settings t)) (at_chat t)) = others_ai t.
Proof using Type.
  unfold others_ai, upsert_ai. cbn. f_equal.
  assert (Hmine : ai_row_of user (ai_row user s) = true) by apply String.eqb_refl.
  destruct (existsb _ _); [|by rewrite List.filter_app; cbn [List.filter]; rewrite Hmine, List.app_nil_r].
  induction (at_settings t) as [|x l IH]; [done|]. cbn [map List.filter]. destruct (ai_row_of user x) eqn:Hx; [by rewrite Hmine|].
  by rewrite Hx, IH.
Qed.
Lemma advises_append role content : preserves advises (on_ai (K := K) (R := R) (T := T) (Ai.append user role content)).
Proof using Type.
  apply advises_same. intros w r w'. unfold on_ai, Ai.append. cbn.
  destruct (astmt _ _ _) as [x [db t]] eqn:Ha. intros [= _ <-]. apply astmt_run in Ha as [Ht Ha]. split; [done|].
  split; [unfold mailbox; cbn; by rewrite Ht|]. destruct Ha as [[_ ->]|(a & _ & [= _ <-])]; [done|]. apply others_append.
Qed.
#[local] Hint Extern 1 (preserves advises _) =>
  first [apply advises_net|apply advises_read|apply advises_append|apply advises_auth, get_user_dek_spares
        |apply advises_table; intros ? ?; first [done|apply others_upsert]] : preserve.
Lemma advises_clear : preserves advises (on_ai (K := K) (R := R) (T := T) (clear user)).
Proof using Type.
  apply advises_table. intros now' t. unfold others_ai. cbn. f_equal. apply filter_others. done.
Qed.
Lemma advises_settings : preserves advises (on_ai (K := K) (R := R) (T := T) (Ai.load_settings user)).
Proof using Type. apply advises_table. done. Qed.
#[local] Hint Resolve advises_settings advises_clear : preserve.
Lemma advises_fetched ids : preserves advises (fetch_messages_by_ids (K := K) (R := R) (T := T) ids user).
Proof using Type. induction ids as [|i ids IH]; cbn [fetch_messages_by_ids]; preserve. Qed.
Lemma advises_context i : preserves advises (load_ai_message_context (K := K) (R := R) (T := T) user i).
Proof using Type. unfold load_ai_message_context, load_message_row. preserve. Qed.
#[local] Hint Resolve advises_fetched advises_context : preserve.
Lemma advises_search q n : preserves advises (ai_search_mail (K := K) (R := R) (T := T) user q n).
Proof using Type.
  unfold ai_search_mail, found, search_message_ids, sqlite_like_search_message_ids, sqlite_search_message_ids, sstmt_. preserve.
Qed.
Lemma advises_folders : preserves advises (ai_list_folders (K := K) (R := R) (T := T) user).
Proof using Type. unfold ai_list_folders. preserve. Qed.
#[local] Hint Resolve advises_search advises_folders : preserve.
Lemma advises_client s : preserves advises (client_for (K := K) (R := R) (T := T) user s).
Proof using All. unfold client_for. preserve. Qed.
#[local] Hint Resolve advises_client : preserve.
Lemma advises_complete a b : preserves advises (complete (K := K) (R := R) (T := T) user a b).
Proof using All. unfold complete. preserve. Qed.
#[local] Hint Resolve advises_complete : preserve.
Lemma advises_tool name args : preserves advises (execute_tool (K := K) (R := R) (T := T) user name args).
Proof using Type. unfold execute_tool, search_mail, read_mail, list_folders. preserve. Qed.
#[local] Hint Resolve advises_tool : preserve.
Lemma advises_tools calls pending : preserves advises (run_tools (K := K) (R := R) (T := T) user calls pending).
Proof using Type. revert pending. induction calls as [|c calls IH]; intros pending; cbn [run_tools]; preserve. Qed.
#[local] Hint Resolve advises_tools : preserve.
Lemma advises_rounds n c system history ex pending :
  preserves advises (chat_rounds (K := K) (R := R) (T := T) n user c system history ex pending).
Proof using Type. revert ex pending. induction n as [|n IH]; intros ex pending; cbn [chat_rounds]; preserve. Qed.
#[local] Hint Resolve advises_rounds : preserve.
Lemma advises_block i : preserves advises (context_block (K := K) (R := R) (T := T) user i).
Proof using Type. unfold context_block. preserve. Qed.
#[local] Hint Resolve advises_block : preserve.
Lemma advises_history : preserves advises (on_ai (K := K) (R := R) (T := T) (load_history user)).
Proof using Type. apply advises_table. done. Qed.
Lemma advises_save s : preserves advises (on_ai (K := K) (R := R) (T := T) (Ai.save_settings user s)).
Proof using Type. apply advises_table. intros. apply others_upsert. Qed.
Lemma advises_encrypt dek s : preserves advises (on_ow (T := T) (on_auth (encrypt (W := world K R) dek s))).
Proof using All. apply advises_auth, same_spares. intros w r w'. apply encrypt_accounts. Qed.
#[local] Hint Resolve advises_history advises_save advises_encrypt : preserve.
Lemma advises_put body : preserves advises (put_ai (K := K) (R := R) (T := T) user body).
Proof using All. unfold put_ai, key_blob. preserve. Qed.
Lemma advises_chat body : preserves advises (post_chat (K := K) (R := R) (T := T) user body).
Proof using All. unfold post_chat, chat, attached. preserve. Qed.
#[local] Hint Resolve advises_put advises_chat : preserve.

(** Assistance only advises.  Whatever a user asks of the AI routes - saving settings, the
    connection test, a spam or calendar suggestion, a draft, a chat turn with any tool calls -
    and whatever the provider replies, no message, folder, verdict, draft mark, sender list, job
    or task changes, no account but a re-sealed credential of that user, and no settings or
    conversation of another user.  It holds on every failure. *)
Theorem assist_only_advises a w r w' : NoDup (ma_id <$> accounts w) -> asked a w = (r, w') -> advice w w'.
Proof using All.
  intros Hnd Hr. revert Hnd. change (advises w w'). revert w r w' Hr. change (preserves advises (asked a)).
  destruct a; cbn [asked]; unfold get_ai, test_ai, test_connection, post_spam_suggest, suggest, post_draft, draft_reply, build_draft_prompt,
    post_calendar_suggest, suggest_event, get_chat, delete_chat, context_or_invalid; preserve.
Qed.

(** ** A chat turn: model calls, proposals, what is stored *)

(** What the assistant may propose: a draft with a recipient and a subject, or filing a message. *)
Definition proposal (a : PendingAction) : Prop :=
  match a with
  | OpenDraft to subject _ => is_empty (trim to) = false /\ is_empty (trim subject) = false
  | MoveMessage id action => is_empty id = false /\ valid_move_action action = true
  end.
Lemma drafts_valid args a : snd (propose_draft args) = Some a -> proposal a.
Proof using Type.
  unfold propose_draft. destruct (str_field "to" args) as [to|]; [|done]. destruct (str_field "subject" args) as [s|]; [|done].
  destruct (str_field "body" args) as [b|]; [|done]. destruct (is_empty (trim to)) eqn:Ht, (is_empty (trim s)) eqn:Hs; try done.
  by intros [= <-].
Qed.
Lemma moves_valid args a : snd (propose_move args) = Some a -> proposal a.
Proof using Type.
  unfold propose_move. destruct (id_argument args) as [i|]; [|done]. destruct (is_empty i) eqn:Hi; [done|]. cbn [negb andb].
  destruct (valid_move_action _) eqn:Hv; [|done]. cbn. by intros [= <-].
Qed.
Lemma tool_proposes name args w p w' : execute_tool user name args w = (Ok p, w') -> forall a, snd p = Some a -> proposal a.
Proof using Type.
  unfold execute_tool. repeat destruct (String.eqb name _); try (intros (v & w1 & _ & [= <- _])%bind_Ok; done); intros [= <- _] a.
  - apply drafts_valid. - apply moves_valid. - done.
Qed.
Lemma tools_propose calls pending w l w' : run_tools user calls pending w = (Ok l, w') -> Forall proposal pending -> Forall proposal (snd l).
Proof using Type.
  revert pending w l w'. induction calls as [|c calls IH]; intros pending w l w'; cbn [run_tools]; [by intros [= <- _]|].
  intros (p & w1 & Hp & Hr)%bind_Ok Hf. apply bind_Ok in Hr as (later & w2 & Hl & [= <- _]). cbn. apply (IH _ _ _ _ Hl).
  destruct (snd p) as [a|] eqn:Ha; [|done]. apply Forall_app. split; [done|]. constructor; [|done]. by apply (tool_proposes _ _ _ _ _ Hp).
Qed.

(** Steps that leave the network and the AI tables alone. *)
Definition still w w' : Prop := net w' = net w /\ dk_ai w' = dk_ai w.
#[local] Instance still_pre : PreOrder still.
Proof. split; [by intros w|]. intros x y z [? ?] [? ?]. split; congruence. Qed.
Lemma still_read {A} (f : W -> A) : preserves still (stmt (fun w => (f w, w))).
Proof using Type. intros w r w' Hr. by apply stmt_run in Hr as (db & _ & _ & _ & [[_ ->]|(a & _ & [= _ <-])]). Qed.
Lemma still_auth {E A} (m : io (world K R) E A) : preserves still (on_ow (T := T) (on_auth m)).
Proof using Type. intros w r w'. unfold on_ow, on_auth. destruct (m _) as [x g]. by intros [= _ <-]. Qed.
Lemma still_table {E A} (down : E) (f : Z -> ai_tables -> A) : preserves still (on_ai (K := K) (R := R) (T := T) (astmt down (fun now t => (f now t, t)))).
Proof using Type.
  intros w r w'. unfold on_ai. destruct (astmt _ _ _) as [x [db t]] eqn:Ha. intros [= _ <-].
  by apply astmt_run in Ha as [_ [[_ ->]|(a & _ & [= _ <-])]].
Qed.
#[local] Hint Extern 1 (preserves still _) => first [apply still_read|apply still_auth|apply still_table] : preserve.
Lemma still_fetched ids : preserves still (fetch_messages_by_ids (K := K) (R := R) (T := T) ids user).
Proof using Type. induction ids as [|i ids IH]; cbn [fetch_messages_by_ids]; preserve. Qed.
#[local] Hint Resolve still_fetched : preserve.
Lemma still_tool name args : preserves still (execute_tool (K := K) (R := R) (T := T) user name args).
Proof using Type.
  unfold execute_tool, search_mail, read_mail, list_folders, load_ai_message_context, load_message_row, ai_search_mail, found,
    search_message_ids, sqlite_like_search_message_ids, sqlite_search_message_ids, sstmt_, ai_list_folders. preserve.
Qed.
#[local] Hint Resolve still_tool : preserve.
Lemma still_tools calls pending : preserves still (run_tools (K := K) (R := R) (T := T) user calls pending).
Proof using Type. revert pending. induction calls as [|c calls IH]; intros pending; cbn [run_tools]; preserve. Qed.

(** [cost] counts at least the calls to the provider. *)
Context (cost : T -> nat).
Definition one_per_call : Prop := forall url headers body n r n', post_json url headers body n = (r, n') -> (cost n' <= S (cost n))%nat.
Lemma turn_costs c system history tools ex n r n' : one_per_call ->
  chat_turn c system history tools ex n = (r, n') -> (cost n' <= S (cost n))%nat.
Proof using Type.
  intros Hc. unfold chat_turn. destruct (chat_request _ _ _ _ _) as [[url headers] body].
  assert (He : forall r1 n1, exchange_json c url headers body n = (r1, n1) -> (cost n1 <= S (cost n))%nat).
  { intros r1 n1. unfold exchange_json, map_err. intros [(e & He & _)|([status text] & n2 & He & Hr)]%bind_inv;
      (destruct (post_json _ _ _ n) as [x n3] eqn:Hp; apply Hc in Hp); injection He as _ <-; [done|]. revert Hr.
    destruct (negb _); [|by intros [= _ <-]]. by intros [(e & [= _ <-] & _)|(d & n4 & [= _ <-] & [= _ <-])]%bind_inv. }
  intros [(e & Hx & _)|(v & n1 & Hx & Hr)]%bind_inv; [by eapply He|]. apply He in Hx. revert Hr. cbv zeta.
  destruct (match lc_dialect c with OpenAiChat => _ | _ => _ end) as [t|calls]; [|by intros [= _ <-]].
  destruct (is_empty _); by intros [= _ <-].
Qed.
Lemma net_turn c system history tools ex w r w' : one_per_call ->
  Desk.on_net (chat_turn c system history tools ex) w = (r, w') -> (cost (net w') <= S (cost (net w)))%nat /\ dk_ai w' = dk_ai w.
Proof using Type.
  intros Hc. unfold Desk.on_net. destruct (chat_turn _ _ _ _ _ _) as [x n] eqn:Ht. apply turn_costs in Ht; [|done]. by intros [= _ <-].
Qed.
Lemma rounds_cost n c system history ex pending w r w' : one_per_call ->
  chat_rounds n user c system history ex pending w = (r, w') ->
  (cost (net w') <= cost (net w) + S n)%nat /\ dk_ai w' = dk_ai w /\
  (Forall proposal pending -> forall t, r = Ok t -> Forall proposal (ct_actions t)).
Proof using Type.
  intros Hc. revert ex pending w r w'. induction n as [|n IH]; intros ex pending w r w'; cbn [chat_rounds];
    (intros [(e & Hx & ->)|(turn & w1 & Hx & Hr)]%bind_inv; apply net_turn in Hx as [Hx Ha]; [..|]; try done).
  all: try (split_and!; [lia|done|done]).
  all: destruct turn as [t|calls]; [injection Hr as <- <-; split_and!; [lia|done|by intros Hf t' [= <-]]|].
  all: apply bind_inv in Hr as [(e & Hx' & ->)|(l & w2 & Hx' & Hr)]; pose proof (still_tools _ _ _ _ _ Hx') as [Hn Ha'].
  all: try (split_and!; [rewrite Hn; lia|congruence|done]).
  - injection Hr as <- <-. split_and!; [rewrite Hn; lia|congruence|]. intros Hf t [= <-]. by eapply tools_propose.
  - apply IH in Hr as (Hk & Ha2 & Hp). rewrite Hn in Hk. split_and!; [lia|congruence|]. intros Hf. apply Hp. by eapply tools_propose.
Qed.

Definition said (role content : string) (r : ChatRow) : Prop := cr_user r = user /\ cr_role r = role /\ cr_content r = content.
Definition spoken w (rows : list ChatRow) w' : Prop :=
  at_settings (dk_ai w') = at_settings (dk_ai w) /\ at_chat (dk_ai w') = (at_chat (dk_ai w) ++ rows)%list.
Lemma append_run role content w r w' : on_ai (Ai.append user role content) w = (r, w') ->
  net w' = net w /\ ((exists e, r = Err e) /\ dk_ai w' = dk_ai w \/ exists row, r = Ok tt /\ said role content row /\ spoken w [row] w').
Proof using Type.
  unfold on_ai, Ai.append. cbn. destruct (astmt _ _ _) as [x [db t]] eqn:Ha. intros [= <- <-]. split; [done|].
  apply astmt_run in Ha as [_ [[-> ->]|([] & -> & [= <-])]]; [left; split; [by eexists|done]|right].
  eexists. split; [done|]. split; [|by split]. by split_and!.
Qed.
Lemma before_turn message_id s w r w' :
  (let! client := client_for user s in
   let! stored := on_ai (load_history user) in
   let! context := attached user message_id in
   ret (client, stored, context)) w = (r, w') -> still w w'.
Proof using Type.
  match goal with |- ?m w = _ -> _ => assert (Hp : preserves still m); [|intros Hr; by apply Hp in Hr] end.
  unfold client_for, load_history, attached, context_block, load_ai_message_context, load_message_row. preserve.
Qed.
(** A chat turn up to the storing of its two rows. *)
Definition turn_of (message : string) (message_id : option string) : M ChatTurn :=
  let! settings := on_ai (Ai.load_settings user) in
  if negb (ai_enabled settings) then throw AiNotConfigured
  else if negb (fe_assistant (ai_features settings)) then throw FeatureDisabled
  else
    let! client := client_for user settings in
    let! stored := on_ai (load_history user) in
    let history := (map history_turn (last_of HISTORY_CAP stored) ++ [mkTurn User message])%list in
    let! context := attached user message_id in
    let! now := gets (fun w => ml_now (dk_mail w)) in
    chat_rounds MAX_TOOL_ROUNDS user client (system_prompt (utc_ymd now) context) history [] [].
Definition store_turn (message : string) (turn : ChatTurn) : M ChatTurn :=
  let! _ := on_ai (Ai.append user "user" message) in
  let! _ := on_ai (Ai.append user "assistant" (ct_reply turn)) in
  ret turn.
Lemma chat_split message message_id w : chat user message message_id w = bind (turn_of message message_id) (store_turn message) w.
Proof using Type.
  unfold chat, turn_of, store_turn, bind. destruct (on_ai _ w) as [[s|e] w1]; [|done]. destruct (negb _); [done|]. destruct (negb _); [done|].
  destruct (client_for _ _ _) as [[c|e] w2]; [|done]. destruct (on_ai _ w2) as [[l|e] w3]; [|done].
  destruct (attached _ _ w3) as [[x|e] w4]; done.
Qed.
Lemma turn_contract message message_id w r w' : one_per_call -> turn_of message message_id w = (r, w') ->
  (cost (net w') <= cost (net w) + 4)%nat /\ dk_ai w' = dk_ai w /\ forall t, r = Ok t -> Forall proposal (ct_actions t).
Proof using Type.
  intros Hc. unfold turn_of.
  assert (Hquiet : forall e w1, still w w1 -> r = Err e -> w' = w1 ->
    (cost (net w') <= cost (net w) + 4)%nat /\ dk_ai w' = dk_ai w /\ forall t, r = Ok t -> Forall proposal (ct_actions t)).
  { intros e w1 [Hn Ha] -> ->. split_and!; [rewrite Hn; lia|done|done]. }
  assert (Hset : preserves still (on_ai (K := K) (R := R) (T := T) (Ai.load_settings user))) by (unfold Ai.load_settings; preserve).
  intros [(e & Hx & ->)|(s & w1 & Hx & Hr)]%bind_inv; apply Hset in Hx as H1s; [by eapply Hquiet|]. revert Hr.
  destruct (negb _); [intros [= <- <-]; by eapply Hquiet|]. destruct (negb _); [intros [= <- <-]; by eapply Hquiet|].
  pose proof (before_turn message_id s w1) as Hb. unfold bind in Hb |- *.
  destruct (client_for user s w1) as [[c|e] w2]; [|intros [= <- <-]; eapply Hquiet; [|done|done]; etrans; [exact H1s|by eapply Hb]].
  destruct (on_ai (load_history user) w2) as [[l|e] w3]; [|intros [= <- <-]; eapply Hquiet; [|done|done]; etrans; [exact H1s|by eapply Hb]].
  destruct (attached _ _ w3) as [[x|e] w4];
    [|intros [= <- <-]; eapply Hquiet; [|done|done]; etrans; [exact H1s|by eapply Hb]].
  assert (Hs : still w w4) by (etrans; [exact H1s|by eapply Hb]). cbn. intros Hr.
  apply (rounds_cost MAX_TOOL_ROUNDS) in Hr as (Hk & Ha & Hp); [|done]. destruct Hs as [Hn Ha0]. rewrite Hn in Hk.
  split_and!; [exact Hk|congruence|by apply Hp].
Qed.

(** C24: a chat turn calls the provider at most four times, proposes nothing but complete drafts and
    the four ways of filing, and is recorded: a turn that is answered appends exactly the user's
    message and the reply to the conversation, in this order; a turn that fails appends nothing, or
    the user's message alone when storing the reply failed.  [cost] is any measure of the network
    that a call raises by at most one. *)
Theorem chat_turn_is_recorded message message_id w r w' : one_per_call -> chat user message message_id w = (r, w') ->
  (cost (net w') <= cost (net w) + 4)%nat /\
  match r with
  | Ok t => Forall proposal (ct_actions t) /\
            exists q a, said "user" message q /\ said "assistant" (ct_reply t) a /\ spoken w [q; a] w'
  | Err _ => spoken w [] w' \/ exists q, said "user" message q /\ spoken w [q] w'
  end.
Proof using Type.
  intros Hc. rewrite chat_split. intros [(e & Hx & ->)|(t & w1 & Hx & Hr)]%bind_inv; apply turn_contract in Hx as (Hk & Ha & Hp); try done.
  { split; [done|]. left. split; rewrite Ha; [done|by rewrite List.app_nil_r]. }
  unfold store_turn in Hr. apply bind_inv in Hr as [(e & Hx & ->)|([] & w2 & Hx & Hr)];
    apply append_run in Hx as [Hn [[[e' He] Hs]|(q & Ho & Hq & Hs)]]; try discriminate.
  { rewrite Hn. split; [done|]. left. split; rewrite Hs, Ha; [done|by rewrite List.app_nil_r]. }
  destruct Hs as [Hs1 Hs2]. rewrite Ha in Hs1, Hs2.
  apply bind_inv in Hr as [(e & Hx & ->)|([] & w3 & Hx & [= <- <-])];
    apply append_run in Hx as [Hn2 [[[e' He] Hs]|(a & Ho' & Hq' & Hs3 & Hs4)]]; try discriminate; (split; [by rewrite Hn2, Hn|]).
  - right. exists q. split; [done|]. by split; rewrite Hs.
  - split; [by apply Hp|]. exists q, a. split_and!; [done|done|]. split; [congruence|]. by rewrite Hs4, Hs2, <-List.app_assoc.
Qed.
End AssistProofs.

(** ** The key a user saves is the key that is used *)

Section SavedKey.
Context {K R T : Type} `{HasRng R} `{!RngLaws R} `{CryptoLib} `{!CryptoLaws} `{JmapWire T} `{StoreLib} `{FeaturesLib}.
Context (user : string).
Local Abbreviation W := (desk K R T).
Implicit Types w : W.

Definition stored_settings w : AiSettings :=
  match List.find (ai_row_of user) (at_settings (dk_ai w)) with Some r => settings_of_ai_row r | None => empty_settings end.
(** The databases answer. *)
Definition up w : Prop := ml_fuse (dk_mail w) = None /\ w_db_up (ow_auth (dk_ow w)) = true.
(** The user's stored data key opens to [dek]. *)
Definition has_key_of w dek : Prop :=
  exists m u j, w_master (ow_auth (dk_ow w)) = Some m /\ find_user user (w_users (ow_auth (dk_ow w))) = Some u /\
    u_encrypted_dek u = Some j /\ unwrap_dek (derive_user_kek m user) j = Ok dek /\ String.length dek = 32%nat.

Lemma astmt_up {E A} (down : E) (f : Z -> ai_tables -> A * ai_tables) w : up w ->
  on_ai (astmt down f) w = (Ok (fst (f (ml_now (dk_mail w)) (dk_ai w))), set_ai (snd (f (ml_now (dk_mail w)) (dk_ai w))) w).
Proof using Type.
  intros [Hf _]. destruct w as [o [n fs ms cs sq fu] ? ? ? ai ? ? ?]. cbn in Hf. subst fu. unfold on_ai, astmt, mstmt. cbn.
  by destruct (f n ai).
Qed.
Lemma settings_up w : up w -> on_ai (Ai.load_settings user) w = (Ok (stored_settings w), w).
Proof using Type. intros Hu. unfold Ai.load_settings. rewrite astmt_up by done. cbn. f_equal. by destruct w. Qed.
(** What finding the key needs. *)
Definition same_login w w' : Prop :=
  dk_mail w' = dk_mail w /\ dk_ai w' = dk_ai w /\ w_db_up (ow_auth (dk_ow w')) = w_db_up (ow_auth (dk_ow w)) /\
  w_master (ow_auth (dk_ow w')) = w_master (ow_auth (dk_ow w)) /\ w_users (ow_auth (dk_ow w')) = w_users (ow_auth (dk_ow w)).
Lemma login_up w w' : same_login w w' -> up w -> up w'.
Proof using Type. intros (Hm & _ & Hu & _) [? ?]. split; [by rewrite Hm|by rewrite Hu]. Qed.
Lemma login_key w w' dek : same_login w w' -> has_key_of w dek -> has_key_of w' dek.
Proof using Type. intros (_ & _ & _ & Hm & Hu). unfold has_key_of. by rewrite Hm, Hu. Qed.
Lemma dek_up w dek : up w -> has_key_of w dek -> exists w', on_ow (on_auth (get_user_dek user)) w = (Ok dek, w') /\ same_login w w'.
Proof using Type.
  intros [_ Hu] (m & u & j & Hm & Hf & Hj & Hd & _). eexists. unfold on_ow, on_auth.
  erewrite (get_user_dek_stored user m u j dek (auth_view (dk_ow w))); [|done..]. by split.
Qed.
Lemma encrypt_up w dek text : String.length dek = 32%nat ->
  exists enc w', on_ow (on_auth (encrypt dek text)) w = (Ok enc, w') /\ same_login w w' /\ decrypt dek enc = Ok text.
Proof using All.
  intros Hl. destruct (encrypt_world dek text (auth_view (dk_ow w)) Hl) as (enc & g & He & Hd). eexists enc, _. unfold on_ow, on_auth.
  rewrite He. by split_and!.
Qed.
Lemma save_up s w : up w -> exists w', on_ai (Ai.save_settings user s) w = (Ok tt, w') /\ up w' /\ ow_auth (dk_ow w') = ow_auth (dk_ow w) /\
  stored_settings w' = settings_of_ai_row (ai_row user s).
Proof using Type.
  intros Hu. unfold Ai.save_settings. rewrite astmt_up by done. eexists. split; [done|]. split; [done|]. split; [done|].
  unfold stored_settings, upsert_ai. cbn. destruct (existsb (ai_row_of user) (at_settings (dk_ai w))) eqn:He.
  - induction (at_settings (dk_ai w)) as [|x l IH]; [done|]. cbn [map List.find existsb] in *.
    destruct (ai_row_of user x) eqn:Hx; [|rewrite Hx; by apply IH].
    replace (ai_row_of user (ai_row user s)) with true by (symmetry; apply String.eqb_refl). done.
  - induction (at_settings (dk_ai w)) as [|x l IH].
    + cbn. unfold ai_row_of. cbn. by rewrite String.eqb_refl.
    + cbn in *. destruct (ai_row_of user x); [done|]. by apply IH.
Qed.

Lemma blob_up w dek api_key : up w -> has_key_of w dek -> exists blob w', key_blob user api_key w = (Ok blob, w') /\ same_login w w' /\
  if is_empty (trim api_key) then blob = "" else exists enc, blob = cred_to_json enc /\ decrypt dek enc = Ok (trim api_key).
Proof using All.
  intros Hu Hk. unfold key_blob. destruct (is_empty (trim api_key)); [exists "", w; by split_and!|].
  destruct (dek_up w dek Hu Hk) as (w1 & He & Hs). destruct Hk as (? & ? & ? & _ & _ & _ & _ & Hl).
  destruct (encrypt_up w1 dek (trim api_key) Hl) as (enc & w2 & He2 & Hs2 & Hd). exists (cred_to_json enc), w2.
  unfold map_err, bind. rewrite He. cbn. rewrite He2. cbn. split; [done|]. split; [|by exists enc].
  destruct Hs as (?&?&?&?&?), Hs2 as (?&?&?&?&?). unfold same_login. split_and!; congruence.
Qed.
(** With the databases up, an accepted request is: the fields, the key, one upsert. *)
Lemma put_ok dek body w resp w' : up w -> has_key_of w dek -> put_ai user body w = (Ok resp, w') ->
  exists s blob, put_fields body (stored_settings w) = Ok s /\ up w' /\ has_key_of w' dek /\
    stored_settings w' = settings_of_ai_row (ai_row user (with_key_blob blob s)) /\ resp = response_for (stored_settings w') /\
    match pa_api_key body with
    | None => blob = ai_key_blob s
    | Some key => if is_empty (trim key) then blob = "" else exists enc, blob = cred_to_json enc /\ decrypt dek enc = Ok (trim key)
    end.
Proof using All.
  intros Hu Hk. unfold put_ai. intros (s0 & w1 & Hx & Hr)%bind_Ok. rewrite settings_up in Hx by done. injection Hx as <- <-.
  apply bind_Ok in Hr as (s & w1 & Hx & Hr). unfold lift in Hx. injection Hx as Hs <-.
  assert (Hblob : exists blob w2, up w2 /\ has_key_of w2 dek /\
     match pa_api_key body with
     | None => blob = ai_key_blob s
     | Some key => if is_empty (trim key) then blob = "" else exists enc, blob = cred_to_json enc /\ decrypt dek enc = Ok (trim key)
     end /\ (let! _ := on_ai (Ai.save_settings user (with_key_blob blob s)) in
             let! saved := on_ai (Ai.load_settings user) in ret (response_for saved)) w2 = (Ok resp, w')).
  { apply bind_Ok in Hr as (s1 & w2 & Hx & Hr). destruct (pa_api_key body) as [key|].
    - apply bind_Ok in Hx as (blob & w3 & Hx & [= <- <-]). destruct (blob_up w dek key Hu Hk) as (b & w4 & Hb & Hl & Hc).
      rewrite Hb in Hx. injection Hx as <- <-. exists b, w4. split_and!; [by eapply login_up|by eapply login_key|done|done].
    - injection Hx as <- <-. exists (ai_key_blob s), w. split_and!; [done|done|done|]. by destruct s. }
  destruct Hblob as (blob & w2 & Hu2 & Hk2 & Hb & Hr2). exists s, blob.
  destruct (save_up (with_key_blob blob s) w2 Hu2) as (w3 & Hsave & Hu3 & Ha & Hst).
  apply bind_Ok in Hr2 as ([] & w4 & Hx & Hr2). rewrite Hsave in Hx. injection Hx as <-.
  apply bind_Ok in Hr2 as (sv & w5 & Hx & Hr2). rewrite settings_up in Hx by done. injection Hx as <- <-. injection Hr2 as <- <-.
  split_and!; [done|done| |done|done|done]. unfold has_key_of in *. by rewrite Ha.
Qed.
Lemma client_opens dek enc key s w : up w -> has_key_of w dek -> ai_key_blob s = cred_to_json enc -> cred_to_json enc <> "" ->
  decrypt dek enc = Ok key -> utf8_valid key = true -> ai_enabled s = true ->
  is_empty (trim (ai_base_url s)) = false -> is_empty (trim (ai_model s)) = false ->
  fst (client_for user s w) =
    Ok (mkLlm (ai_dialect s) (drop_while_end is_slash (trim (ai_base_url s))) (trim (ai_model s)) key).
Proof using All.
  intros Hu Hk Hb Hne Hd Hv Hen Hba Hmo. destruct (dek_up w dek Hu Hk) as (w1 & He & _).
  unfold client_for, ready, api_key_cipher. rewrite Hen, Hba, Hmo, Hb.
  replace (is_empty (cred_to_json enc)) with false by (by destruct (cred_to_json enc)).
  cbn. unfold map_err, bind, lift. rewrite He. cbn. unfold decrypt_key. cbn. by rewrite Crypto.json_roundtrip, Hd, Hv.
Qed.

(** The key a user saves is the key the provider is called with.  With the databases up and
    the user's data key stored, an accepted save answers the settings as stored; a request without
    a key keeps the stored one; a blank key clears it; any other key is sealed so that, once the
    settings are enabled with a base URL and a model, the client built from them holds the trimmed
    key, the stored dialect, URL and model. *)
Theorem saved_key_is_used dek body w resp w' : cred_of_json "" = None -> up w -> has_key_of w dek ->
  put_ai user body w = (Ok resp, w') ->
  response_for (stored_settings w') = resp /\
  match pa_api_key body with
  | None => ai_key_blob (stored_settings w') = ai_key_blob (stored_settings w)
  | Some key =>
      if is_empty (trim key) then rs_has_key resp = false else
      rs_has_key resp = true /\
      (rs_enabled resp = true -> is_empty (trim (rs_base_url resp)) = false -> is_empty (trim (rs_model resp)) = false ->
       utf8_valid (trim key) = true ->
       fst (client_for user (stored_settings w') w') =
         Ok (mkLlm (rs_dialect resp) (drop_while_end is_slash (trim (rs_base_url resp))) (trim (rs_model resp)) (trim key)))
  end.
Proof using All.
  intros Hj Hu Hk Hput. destruct (put_ok _ _ _ _ _ Hu Hk Hput) as (s & blob & Hf & Hu' & Hk' & Hst & -> & Hb). split; [done|].
  assert (Hblob : ai_key_blob (stored_settings w') = blob) by by rewrite Hst.
  destruct (pa_api_key body) as [key|].
  - destruct (is_empty (trim key)); [cbn; unfold has_key; by rewrite Hblob, Hb|]. destruct Hb as (enc & -> & Hd).
    assert (Hne : cred_to_json enc <> "") by (intros He; pose proof (Crypto.json_roundtrip enc) as Hjr; rewrite He, Hj in Hjr; discriminate).
    split; [cbn; unfold has_key; rewrite Hblob; by destruct (cred_to_json enc)|]. intros. by eapply client_opens.
  - rewrite Hblob, Hb. unfold put_fields in Hf. destruct (match pa_dialect body with Some _ => _ | None => _ end); [|done]. cbn in Hf.
    destruct (match pa_spam_mode body with Some _ => _ | None => _ end); [|done]. cbn in Hf. by injection Hf as <-.
Qed.
End SavedKey.

(** ** Concrete requests *)

#[local] Instance no_index : Fts := fun _ _ _ _ => None.
#[local] Instance all_features : FeaturesLib := { features_text _ := "all"; features_parse _ := Some (mkFeatures true true true) }.
#[local] Instance some_day : Calendar := { utc_ymd _ := "2026-09-02"; local_ymd _ := "2026-09-02"; local_weekday _ := "Wednesday" }.
#[local] Instance no_dates : DateLib := { is_ymd _ := false; is_rfc3339 _ := false }.
(** Replies of the provider: calls of tools, and text. *)
Definition message_reply (message : Json) : string := json_text (JObject [("choices", JArray [JObject [("message", message)]])]).
Definition calls_reply (name : string) (args : Json) : string :=
  message_reply (JObject [("tool_calls", JArray [JObject [("id", JString "c1");
    ("function", JObject [("name", JString name); ("arguments", JString (json_text args))])]])]).
Definition text_reply (s : string) : string := message_reply (JObject [("content", JString s)]).
Definition file_it : string := calls_reply "propose_move" (JObject [("message_id", JString "m1"); ("action", JString "spam")]).
Definition read_it : string := calls_reply "read_mail" (JObject [("messageId", JString "m2")]).
Definition with_key : PutAiSettingsRequest := mkPut (Some true) (Some "openai_chat") (Some "https://ai.test/v1/") (Some "m") (Some " sk-1 ") None None.
Definition keyed (replies : list string) : desk MemoryKv.t N toy_net :=
  snd (on_ow (E := CryptoError.t) (on_auth (get_user_dek "u1")) (box_desk [] [] replies)).
Definition assisted (replies : list string) : desk MemoryKv.t N toy_net := snd (put_ai "u1" with_key (keyed replies)).
Definition u1_dek : string := match fst (on_ow (on_auth (get_user_dek "u1")) (keyed [])) with Ok d => d | Err _ => "" end.

Lemma keyed_up : up (keyed []) /\ has_key_of "u1" (keyed []) u1_dek.
Proof.
  split; [vm_compute; by split|]. unfold has_key_of.
  destruct (w_master (ow_auth (dk_ow (keyed [])))) as [m|] eqn:Hm; [|vm_compute in Hm; discriminate Hm].
  destruct (find_user "u1" (w_users (ow_auth (dk_ow (keyed []))))) as [u|] eqn:Hu; [|vm_compute in Hu; discriminate Hu].
  destruct (u_encrypted_dek u) as [j|] eqn:Hj; [|vm_compute in Hu; injection Hu as <-; discriminate Hj].
  exists m, u, j. vm_compute in Hm, Hu. injection Hm as <-. injection Hu as <-. vm_compute in Hj. injection Hj as <-.
  split_and!; [vm_compute; reflexivity..].
Qed.
Definition key_answer : AiSettingsResponse := mkResponse true OpenAiChat "https://ai.test/v1/" "m" true (mkFeatures true true true) Off.
Definition key_saved := put_ai "u1" with_key (keyed []).
Lemma saved_key_is_used_witness :
  option_map (fun r => (rs_base_url r, rs_has_key r)) (rok (fst key_saved)) = Some ("https://ai.test/v1/", true) /\
  fst (client_for "u1" (stored_settings "u1" (snd key_saved)) (snd key_saved)) = Ok (mkLlm OpenAiChat "https://ai.test/v1" "m" "sk-1").
Proof.
  split; [vm_compute; reflexivity|].
  assert (Hj : cred_of_json "" = None) by (vm_compute; reflexivity).
  assert (Hr : put_ai "u1" with_key (keyed []) = (Ok key_answer, snd key_saved)) by (vm_compute; reflexivity).
  destruct (saved_key_is_used "u1" u1_dek with_key (keyed []) key_answer (snd key_saved) Hj (proj1 keyed_up) (proj2 keyed_up) Hr) as [_ [_ Hc]].
  exact (Hc eq_refl eq_refl eq_refl eq_refl).
Defined.

Definition chatted := chat "u1" "file the casino mail" (Some "m2") (assisted [read_it; file_it; text_reply "Filed, once you confirm."]).
Lemma one_log_per_call : one_per_call (T := toy_net) (fun n => length (tn_log n)).
Proof.
  intros url headers body n r n'. unfold post_json, box_llm. destruct (tn_replies n) as [|reply rest]; intros Hp; inversion Hp; subst; cbn; [lia|].
  rewrite List.length_app. cbn. lia.
Qed.
Lemma chat_turn_is_recorded_witness :
  rok (fst chatted) = Some (mkChatTurn "Filed, once you confirm." [MoveMessage "m1" "spam"]) /\
  length (tn_log (net (snd chatted))) = 3%nat /\
  (length (tn_log (net (snd chatted))) <= 4)%nat /\
  exists q a, said "u1" "user" "file the casino mail" q /\ said "u1" "assistant" "Filed, once you confirm." a /\
    at_chat (dk_ai (snd chatted)) = [q; a].
Proof.
  split; [vm_compute; reflexivity|]. split; [vm_compute; reflexivity|].
  assert (Hr : chat "u1" "file the casino mail" (Some "m2") (assisted [read_it; file_it; text_reply "Filed, once you confirm."]) =
    (Ok (mkChatTurn "Filed, once you confirm." [MoveMessage "m1" "spam"]), snd chatted)) by (vm_compute; reflexivity).
  destruct (chat_turn_is_recorded "u1" (fun n => length (tn_log n)) _ _ _ _ _ one_log_per_call Hr) as [Hc [_ (q & a & Hq & Ha & _ & Hs)]].
  split; [exact Hc|]. exists q, a. split; [exact Hq|]. split; [exact Ha|]. exact Hs.
Defined.
Definition advised := asked "u1" (Chat (mkChatRequest " file the casino mail " (Some "m2"))) (assisted [read_it; file_it; text_reply "ok"]).
Lemma assist_only_advises_witness :
  rok (fst advised) = Some tt /\ advice "u1" (assisted [read_it; file_it; text_reply "ok"]) (snd advised).
Proof.
  split; [vm_compute; reflexivity|].
  refine (assist_only_advises "u1" (Chat (mkChatRequest " file the casino mail " (Some "m2"))) _ (fst advised) _ _ _);
    [|unfold advised; apply surjective_pairing].
  apply (bool_decide_unpack _). vm_compute. reflexivity.
Defined.
(** A provider that goes on calling tools when none is offered leaves an empty reply, which is stored. *)
Definition silent := chat "u1" "hello" None (assisted [read_it; read_it; read_it; read_it]).
Lemma silent_turn_is_stored :
  rok (fst silent) = Some (mkChatTurn "" []) /\ map cr_content (at_chat (dk_ai (snd silent))) = ["hello"; ""].
Proof. vm_compute. by split. Qed.
(** The cut of a long body is made in bytes: inside a character it panics. *)
Lemma long_body_panics : capped CONTEXT_BODY_CAP (repeat_byte 8191 "x" +:+ "é") = Err (AiPanic "body").
Proof. vm_compute. reflexivity. Qed.
(** A database error of the settings is answered as a bad request, with its text. *)
Definition fused := set_mail (set_fuse (Some 0%nat) (dk_mail (keyed []))) (keyed []).
Lemma settings_errors_reach_the_client :
  match fst (test_ai "u1" fused) with Err e => ai_response e | Ok _ => None end = Some (400, "closed", "bad_request").
Proof. vm_compute. reflexivity. Qed.
