(* ===== verification/Dav.v ===== *)
(** * CardDAV and CalDAV on the wire ([dav.rs], [dav_protocol.rs])

    The tolerant XML scanner, the vCard and iCalendar field readers and the DAV requests.  The
    HTTP client is the class [DavNet]; strings are UTF-8 byte strings and every offset the
    scanner uses is that of an ASCII character.  A slice whose ends are out of order panics:
    [DavPanic]. *)
From S2P Require Import Prelude Crypto Netsec Jobs MailStore Imap Jmap.
Local Open Scope string_scope.
Local Open Scope Z_scope.

Inductive DavError := DavHttp (m : string) | DavProtocol (m : string) | DavPanic (at_ : string).
Record DavItem := mkItem { di_href : string; di_etag : option string; di_data : option string }.
Record SyncChanges := mkChanges { sc_changed : list DavItem; sc_removed : list string; sc_token : option string; sc_invalid : bool }.
Definition SYNC_REPORT_LIMIT : Z := 500.
Definition MULTIGET_CHUNK : nat := 50.

(** ** Text *)

(** [str::find] of a string, [str::replace]. *)
Fixpoint find_str (p s : string) : option nat :=
  if starts_with p s then Some 0%nat else match s with "" => None | String _ s' => option_map S (find_str p s') end.
(** [skip]: bytes of the match still to pass over. *)
Fixpoint replace_from (p q : string) (skip : nat) (s : string) : string :=
  match s with
  | "" => ""
  | String a s' =>
      match skip with
      | S k => replace_from p q k s'
      | O => if starts_with p s then q +:+ replace_from p q (pred (String.length p)) s' else String a (replace_from p q 0 s')
      end
  end.
Definition replace (p q s : string) : string := replace_from p q 0 s.
(** [&s[a..b]] at character boundaries. *)
Definition slice (a b : nat) (s : string) : result DavError string :=
  if (a <=? b)%nat && (b <=? String.length s)%nat then Ok (stake (b - a) (sdrop a s)) else Err (DavPanic "slice").
Definition quote : string := String (ascii_of_N 34) "".
Definition unescape (s : string) : string :=
  replace "&amp;" "&" (replace "&apos;" "'" (replace "&#39;" "'" (replace "&quot;" quote (replace "&gt;" ">" (replace "&lt;" "<" s))))).
Definition xml_escape (s : string) : string :=
  replace quote "&quot;" (replace ">" "&gt;" (replace "<" "&lt;" (replace "&" "&amp;" s))).

(** ** The scanner *)

Definition is_slash (a : ascii) : bool := Ascii.eqb a "/".
(** The local name of an opening tag, between its angle brackets. *)
Definition open_name (full : string) : string := rsplit_next ":" (drop_while_end is_slash (default "" (head (split_whitespace full)))).
(** [(start, end_after_gt)]; [at_] is the offset of [s]. *)
Fixpoint find_open_at (tag : string) (at_ : nat) (s : string) : option (nat * nat) :=
  match s with
  | "" => None
  | String a s' =>
      let next := find_open_at tag (S at_) s' in
      if Ascii.eqb a "<" && negb (starts_with "/" s') then
        match find_str ">" s with
        | Some gt => if String.eqb (open_name (stake (gt - 1) s')) tag then Some (at_, (at_ + gt + 1)%nat) else next
        | None => next
        end
      else next
  end.
Definition find_open (xml tag : string) : option (nat * nat) := find_open_at tag 0 xml.
Fixpoint find_close_at (tag : string) (at_ : nat) (s : string) : option (nat * nat) :=
  match s with
  | "" => None
  | String _ s' =>
      let next := find_close_at tag (S at_) s' in
      if starts_with "</" s then
        match find_str ">" s with
        | Some gt => if String.eqb (rsplit_next ":" (stake (gt - 2) (sdrop 2 s))) tag then Some (at_, (at_ + gt + 1)%nat) else next
        | None => next
        end
      else next
  end.
Definition find_close (xml tag : string) : option (nat * nat) := find_close_at tag 0 xml.
Definition shifted (n : nat) (o : option (nat * nat)) : option (nat * nat) := option_map (fun '(a, b) => ((n + a)%nat, (n + b)%nat)) o.
(** The loop of [element]: the end of the element that is open at [pos], [depth] levels deep. *)
Fixpoint element_end (fuel : nat) (xml tag : string) (pos depth : nat) : option nat :=
  match fuel with
  | O => None
  | S n =>
      let next_open := shifted pos (find_open (sdrop pos xml) tag) in
      let next_close := shifted pos (find_close (sdrop pos xml) tag) in
      let close ce := if (depth =? 1)%nat then Some ce else element_end n xml tag ce (pred depth) in
      match next_close, next_open with
      | Some (cs, ce), Some (os, _) => if (cs <? os)%nat then close ce else element_end n xml tag (S os) (S depth)
      | Some (_, ce), None => close ce
      | None, Some (os, _) => element_end n xml tag (S os) (S depth)
      | None, None => None
      end
  end.
(** [(start, len)] of the first complete element. *)
Definition element (xml tag : string) : option (nat * nat) :=
  match find_open xml tag with
  | None => None
  | Some (open_start, after_open) =>
      option_map (fun ce => (open_start, (ce - open_start)%nat)) (element_end (S (String.length xml)) xml tag after_open 1)
  end.
Fixpoint response_blocks_of (fuel : nat) (rest : string) : list string :=
  match fuel with
  | O => []
  | S n =>
      match element rest "response" with
      | Some (start, len) => stake len (sdrop start rest) :: response_blocks_of n (sdrop (start + len) rest)
      | None => []
      end
  end.
Definition response_blocks (xml : string) : list string := response_blocks_of (S (String.length xml)) xml.
Definition cdata_open : string := "<![CDATA[".
Fixpoint strip_tags_of (fuel : nat) (s : string) : string :=
  match fuel, s with
  | S n, String a _ =>
      if Ascii.eqb a "<" then
        if starts_with cdata_open s then
          let content := sdrop (String.length cdata_open) s in
          match find_str "]]>" content with
          | Some k => stake k content +:+ strip_tags_of n (sdrop (k + 3) content)
          | None => content
          end
        else match find_str ">" s with Some gt => strip_tags_of n (sdrop (S gt) s) | None => "" end
      else
        let end_ := default (String.length s) (find_str "<" s) in
        stake end_ s +:+ strip_tags_of n (sdrop end_ s)
  | _, _ => ""
  end.
Definition strip_tags (s : string) : string := strip_tags_of (String.length s) s.
(** The text of the first element, or nothing when it is blank. *)
Definition tag_text (xml tag : string) : result DavError (option string) :=
  match element xml tag with
  | None => Ok None
  | Some (start, len) =>
      let block := stake len (sdrop start xml) in
      match find_open block tag, find_close block tag with
      | Some (_, after_open), Some (close_start, _) =>
          let? inner := slice after_open close_start block in
          let trimmed := trim (unescape (strip_tags inner)) in
          Ok (if is_empty trimmed then None else Some trimmed)
      | _, _ => Ok None
      end
  end.

(** ** Requests *)

Record DavRequest := mkDavReq { rq_method : string; rq_url : string; rq_headers : list (string * string); rq_body : string }.
(** Status, final URL, [Location], [ETag] and the body as text (empty when it cannot be read). *)
Record DavResponse := mkDavResp { rp_status : Z; rp_url : string; rp_location : option string; rp_etag : option string; rp_text : string }.
(** reqwest without redirects. *)
Class DavNet (T : Type) := dav_send : DavRequest -> io T string DavResponse.
Record DavClient := mkDav { dc_username : string; dc_password : string; dc_origin : string }.

Definition dav_client_new `{UrlLib} (username password base_url : string) : result DavError DavClient :=
  let? _ := rmap_err DavProtocol (validate_server_url base_url) in
  let? origin := rmap_err DavProtocol (origin_of base_url) in
  Ok (mkDav username password origin).
Definition resolve_href `{UrlJoin} (base href : string) : string :=
  if starts_with "http://" href || starts_with "https://" href then href else
  match url_join base href with Ok joined => joined | Err _ => href end.
Definition xml_decl : string := "<?xml version='1.0' encoding='utf-8'?>".
Definition propfind_body (props : string) : string :=
  xml_decl +:+ "<D:propfind xmlns:D='DAV:'><D:prop>" +:+ props +:+ "</D:prop></D:propfind>".
Definition is_success (status : Z) : bool := (200 <=? status) && (status <? 300).
Definition is_redirection (status : Z) : bool := (300 <=? status) && (status <? 400).
Definition href_el (h : string) : string := "<D:href>" +:+ xml_escape h +:+ "</D:href>".
Definition sync_body (token : option string) : string :=
  let token_xml := match token with Some t => "<D:sync-token>" +:+ xml_escape t +:+ "</D:sync-token>" | None => "" end in
  xml_decl +:+ "<D:sync-collection xmlns:D='DAV:'><D:sync-token/>" +:+ token_xml +:+ "<D:limit><D:nresults>" +:+ show_Z SYNC_REPORT_LIMIT
  +:+ "</D:nresults></D:limit><D:prop><D:getetag/></D:prop></D:sync-collection>".
Definition multiget_body (report data_prop : string) (hrefs : list string) : string :=
  let ns := if String.eqb data_prop "address-data" then "carddav" else "caldav" in
  xml_decl +:+ "<R:" +:+ report +:+ " xmlns:R='urn:ietf:params:xml:ns:" +:+ ns +:+ "' xmlns:D='DAV:'><D:prop><D:getetag/><R:" +:+ data_prop
  +:+ "/></D:prop>" +:+ foldr String.append "" (map href_el hrefs) +:+ "</R:" +:+ report +:+ ">".

Section Client.
Context {T : Type} `{DavNet T} `{UrlJoin}.
Local Abbreviation M := (io T DavError).

Definition auth_header (c : DavClient) : string * string := ("Authorization", "Basic " +:+ basic_encoded (dc_username c) (dc_password c)).
Definition xml_type : string * string := ("Content-Type", "application/xml").
Definition send (r : DavRequest) : M DavResponse := map_err DavHttp (dav_send r).
Definition propfind (c : DavClient) (url depth props : string) : M DavResponse :=
  send (mkDavReq "PROPFIND" url [("Depth", depth); auth_header c; xml_type] (propfind_body props)).
(** At most three requests; a redirect names the next URL. *)
Fixpoint propfind_hops (hops : nat) (c : DavClient) (url current props : string) : M string :=
  match hops with
  | O => throw (DavProtocol ("PROPFIND " +:+ url +:+ ": too many redirects"))
  | S n =>
      let! resp := propfind c current "0" props in
      if is_redirection (rp_status resp) then
        let! loc := lift (ok_or (DavProtocol ("PROPFIND " +:+ current +:+ ": redirect without Location")) (rp_location resp)) in
        propfind_hops n c url (resolve_href (dc_origin c) loc) props
      else if negb (is_success (rp_status resp)) then throw (DavProtocol ("PROPFIND " +:+ current +:+ ": " +:+ show_Z (rp_status resp)))
      else ret (rp_text resp)
  end.
Definition propfind_text (c : DavClient) (url props : string) : M string := propfind_hops 3 c url url props.
(** The principal the server names, when it names one. *)
Definition principal_base (c : DavClient) (base : string) : M string :=
  let! found := attempt (propfind_text c base "<D:current-user-principal/>") in
  match found with
  | Err _ => ret base
  | Ok body =>
      match element body "current-user-principal" with
      | None => ret base
      | Some (start, len) =>
          let! principal := lift (tag_text (stake len (sdrop start body)) "href") in
          ret (match principal with Some p => resolve_href base p | None => base end)
      end
  end.
Definition homeset_of (c : DavClient) (base homeset_prop : string) : M string :=
  let ns := if starts_with "calendar" homeset_prop then "urn:ietf:params:xml:ns:caldav" else "urn:ietf:params:xml:ns:carddav" in
  let! body := propfind_text c base ("<x:" +:+ homeset_prop +:+ " xmlns:x='" +:+ ns +:+ "'/>") in
  let! named := lift (tag_text body homeset_prop) in
  let! href := match named with Some h => ret (Some h) | None => lift (tag_text body "href") end in
  let! href := lift (ok_or (DavProtocol ("no " +:+ homeset_prop +:+ " in response")) href) in
  ret (resolve_href base href).
Definition discover_homeset (c : DavClient) (well_known_path homeset_prop : string) : M string :=
  let! resp := send (mkDavReq "GET" (dc_origin c +:+ well_known_path) [] "") in
  let! base := principal_base c (rp_url resp) in
  homeset_of c base homeset_prop.
Definition homeset_direct (c : DavClient) (base homeset_prop : string) : M string :=
  let! base := principal_base c base in
  homeset_of c base homeset_prop.

(** [for block in response_blocks(..)]. *)
Fixpoint each_block {A} (f : string -> result DavError (option A)) (blocks : list string) : result DavError (list A) :=
  match blocks with
  | [] => Ok []
  | b :: rest => let? a := f b in let? l := each_block f rest in Ok (match a with Some a => a :: l | None => l end)
  end.
Definition collection_of (home resourcetype block : string) : result DavError (option (string * string)) :=
  match find_open block resourcetype with
  | None => Ok None
  | Some _ =>
      let? named := tag_text block "href" in
      let href := default "" named in
      if is_empty href || String.eqb (resolve_href home href) home then Ok None else
      let? name := tag_text block "displayname" in
      Ok (Some (resolve_href home href, default (drop_while_end is_slash (drop_while is_slash href)) name))
  end.
Definition list_collections (c : DavClient) (home resourcetype : string) : M (list (string * string)) :=
  let! resp := propfind c home "1" "<D:resourcetype/><D:displayname/>" in
  lift (each_block (collection_of home resourcetype) (response_blocks (rp_text resp))).
Definition sync_token (c : DavClient) (collection : string) : M (option string) :=
  let! body := propfind_text c collection "<D:sync-token/>" in lift (tag_text body "sync-token").

Definition report (c : DavClient) (url body : string) : M string :=
  let! resp := send (mkDavReq "REPORT" url [auth_header c; xml_type] body) in
  if negb (is_success (rp_status resp)) then throw (DavProtocol ("REPORT " +:+ url +:+ ": " +:+ show_Z (rp_status resp)))
  else ret (rp_text resp).
(** What one response block of a sync report says: an item changed, or one removed. *)
Definition change_of (block : string) : result DavError (option (DavItem + string)) :=
  let? href := tag_text block "href" in
  match href with
  | None => Ok None
  | Some href =>
      let? etag := tag_text block "getetag" in
      match etag with
      | None => Ok (if contains_str "404" block then Some (inr href) else None)
      | Some etag => Ok (Some (inl (mkItem href (Some etag) None)))
      end
  end.
Definition parse_sync_response (body : string) : result DavError SyncChanges :=
  let? head := match element body "sync-token" with
               | None => Ok (None, false)
               | Some (start, len) =>
                   let block := stake len (sdrop start body) in
                   let invalid := match find_open block "sync-token" with
                                  | Some (open_start, _) =>
                                      let rest := sdrop open_start block in
                                      let tag_head := match find_str ">" rest with Some i => stake i rest | None => rest end in
                                      contains_str "invalid" tag_head || contains_str "denied" tag_head
                                  | None => false
                                  end in
                   let? token := tag_text block "sync-token" in Ok (token, invalid)
               end in
  let? found := each_block change_of (response_blocks body) in
  Ok (mkChanges (omap (fun x => match x with inl i => Some i | inr _ => None end) found)
        (omap (fun x => match x with inl _ => None | inr h => Some h end) found) (fst head) (snd head)).
Definition sync_collection (c : DavClient) (collection : string) (token : option string) : M SyncChanges :=
  let! resp := report c collection (sync_body token) in lift (parse_sync_response resp).
Definition item_of (data_prop block : string) : result DavError (option DavItem) :=
  let? named := tag_text block "href" in
  let href := default "" named in
  if is_empty href then Ok None else
  let? etag := tag_text block "getetag" in
  let? data := tag_text block data_prop in
  Ok (Some (mkItem href etag data)).
Fixpoint multiget_chunks (c : DavClient) (collection report_name data_prop : string) (pieces : list (list string)) : M (list DavItem) :=
  match pieces with
  | [] => ret []
  | chunk :: rest =>
      let! resp := report c collection (multiget_body report_name data_prop chunk) in
      let! items := lift (each_block (item_of data_prop) (response_blocks resp)) in
      let! later := multiget_chunks c collection report_name data_prop rest in
      ret (items ++ later)%list
  end.
Definition multiget (c : DavClient) (collection report_name data_prop : string) (hrefs : list string) : M (list DavItem) :=
  multiget_chunks c collection report_name data_prop (chunks MULTIGET_CHUNK hrefs).
Definition addressbook_multiget (c : DavClient) (collection : string) : list string -> M (list DavItem) :=
  multiget c collection "addressbook-multiget" "address-data".
Definition calendar_multiget (c : DavClient) (collection : string) : list string -> M (list DavItem) :=
  multiget c collection "calendar-multiget" "calendar-data".
Definition etag_of (block : string) : result DavError (option DavItem) :=
  let? href := tag_text block "href" in
  let? etag := tag_text block "getetag" in
  Ok (match href, etag with Some h, Some e => Some (mkItem h (Some e) None) | _, _ => None end).
Definition list_etags (c : DavClient) (collection : string) : M (list DavItem) :=
  let! resp := propfind c collection "1" "<D:getetag/>" in lift (each_block etag_of (response_blocks (rp_text resp))).
Definition check_put (href : string) (resp : DavResponse) : result DavError string :=
  if negb (is_success (rp_status resp)) then Err (DavProtocol ("PUT " +:+ href +:+ ": " +:+ show_Z (rp_status resp)))
  else Ok (default "" (rp_etag resp)).
Definition put_new (c : DavClient) (href body content_type : string) : M string :=
  let! resp := send (mkDavReq "PUT" href [auth_header c; ("Content-Type", content_type); ("If-None-Match", "*")] body) in
  lift (check_put href resp).
Definition put_update (c : DavClient) (href body content_type etag : string) : M string :=
  let! resp := send (mkDavReq "PUT" href [auth_header c; ("Content-Type", content_type); ("If-Match", etag)] body) in
  lift (check_put href resp).
Definition delete (c : DavClient) (href : string) (etag : option string) : M unit :=
  let! resp := send (mkDavReq "DELETE" href (auth_header c :: match etag with Some e => [("If-Match", e)] | None => [] end) "") in
  if negb (is_success (rp_status resp)) && negb (rp_status resp =? 404)
  then throw (DavProtocol ("DELETE " +:+ href +:+ ": " +:+ show_Z (rp_status resp))) else ret tt.
End Client.

(** ** vCard and iCalendar fields *)

(** [str::to_uppercase]. *)
Class UpperLib := to_uppercase : string -> string.
Record VcardFields := mkVcard { vf_name : option string; vf_emails : list string; vf_phones : list string; vf_org : option string }.
Inductive VcardPhoto := PhotoUri (url : string) | PhotoInline (bytes : string).
Record VEventFields := mkVevent {
  ve_summary : option string; ve_description : option string; ve_dtstart : option string; ve_dtend : option string;
  ve_location : option string; ve_all_day : bool }.

Section Fields.
Context `{UpperLib}.
Definition first_part (c : ascii) (s : string) : string := default "" (head (split_char c s)).
(** A property line: its name part and its value. *)
Definition property (line : string) : option (string * string) := option_map (fun '(n, v) => (n, trim v)) (split_once ":" line).
Definition vcard_line (f : VcardFields) (raw : string) : VcardFields :=
  let line := trim raw in
  if is_empty line then f else
  match property line with
  | None => f
  | Some (name, value) =>
      let prop := to_uppercase (first_part ";" name) in
      if String.eqb prop "FN" then mkVcard (Some value) (vf_emails f) (vf_phones f) (vf_org f)
      else if String.eqb prop "EMAIL" then mkVcard (vf_name f) (vf_emails f ++ [value])%list (vf_phones f) (vf_org f)
      else if String.eqb prop "TEL" then mkVcard (vf_name f) (vf_emails f) (vf_phones f ++ [value])%list (vf_org f)
      else if String.eqb prop "ORG" then mkVcard (vf_name f) (vf_emails f) (vf_phones f) (Some (first_part ";" value))
      else f
  end.
Definition parse_vcard_fields (vcard : string) : VcardFields := foldl vcard_line (mkVcard None [] [] None) (lines vcard).

(** Continuation lines joined to their line; the lines backwards. *)
Definition is_fold (s : string) : bool := starts_with " " s || starts_with (String (ascii_of_N 9) "") s.
Definition unfold_line (acc : list string) (raw : string) : list string :=
  match acc with
  | prev :: rest => if is_fold raw then (prev +:+ trim_start raw) :: rest else raw :: acc
  | [] => [raw]
  end.
Definition unfolded (vcard : string) : list string := rev (foldl unfold_line [] (split_char nl (replace crlf lf vcard))).
Definition photo_line `{CryptoLib} (line : string) : option VcardPhoto :=
  match split_once ":" line with
  | None => None
  | Some (name, value) =>
      let value := trim value in
      match split_char ";" name with
      | n :: segs =>
          let params := map to_ascii_uppercase segs in
          if negb (eq_ignore_ascii_case n "photo") then None
          else if existsb (String.eqb "VALUE=URI") params then Some (PhotoUri value)
          else if existsb (fun p => String.eqb p "ENCODING=B" || String.eqb p "ENCODING=BASE64") params
          then option_map PhotoInline (b64_decode (join "" (split_whitespace value))) else None
      | [] => None
      end
  end.
Definition parse_vcard_photo `{CryptoLib} (vcard : string) : option VcardPhoto := first_of photo_line (unfolded vcard).

Definition no_event : VEventFields := mkVevent None None None None None false.
Definition vevent_line (f : VEventFields) (line : string) : VEventFields :=
  match property line with
  | None => f
  | Some (name, value) =>
      let upper := to_uppercase name in
      let prop := to_uppercase (first_part ";" name) in
      if String.eqb prop "SUMMARY" then mkVevent (Some value) (ve_description f) (ve_dtstart f) (ve_dtend f) (ve_location f) (ve_all_day f)
      else if String.eqb prop "DESCRIPTION" then mkVevent (ve_summary f) (Some value) (ve_dtstart f) (ve_dtend f) (ve_location f) (ve_all_day f)
      else if String.eqb prop "DTSTART" then
        mkVevent (ve_summary f) (ve_description f) (Some value) (ve_dtend f) (ve_location f)
          (negb (contains_str "VALUE=DATE-TIME" upper) && (contains_str "VALUE=DATE" upper || (String.length value =? 8)%nat))
      else if String.eqb prop "DTEND" then mkVevent (ve_summary f) (ve_description f) (ve_dtstart f) (Some value) (ve_location f) (ve_all_day f)
      else if String.eqb prop "LOCATION" then mkVevent (ve_summary f) (ve_description f) (ve_dtstart f) (ve_dtend f) (Some value) (ve_all_day f)
      else f
  end.
Fixpoint vevent_lines (in_event : bool) (f : VEventFields) (l : list string) : VEventFields :=
  match l with
  | [] => f
  | raw :: rest =>
      let line := trim raw in
      if eq_ignore_ascii_case line "BEGIN:VEVENT" then vevent_lines true f rest
      else if eq_ignore_ascii_case line "END:VEVENT" then f
      else vevent_lines in_event (if in_event then vevent_line f line else f) rest
  end.
Definition parse_vevent_fields (ical : string) : VEventFields := vevent_lines false no_event (lines ical).
End Fields.

(** ** What the client escapes, the scanner reads *)

Fixpoint each_char (f : ascii -> string) (s : string) : string := match s with "" => "" | String a s' => f a +:+ each_char f s' end.
Definition same_char (a : ascii) : string := String a "".
(** One character replaced. *)
Definition swap (c : ascii) (q : string) (a : ascii) : string := if Ascii.eqb a c then q else same_char a.
(** The entity of a character, but for those in [done_]. *)
Definition entity (done_ : list ascii) (a : ascii) : string :=
  if existsb (Ascii.eqb a) done_ then same_char a
  else if Ascii.eqb a "&" then "&amp;" else if Ascii.eqb a "<" then "&lt;" else if Ascii.eqb a ">" then "&gt;"
  else if Ascii.eqb a (ascii_of_N 34) then "&quot;" else same_char a.
#[local] Arguments String.append : simpl nomatch.
Lemma each_char_app f s t : each_char f (s +:+ t) = each_char f s +:+ each_char f t.
Proof. induction s as [|a s IH]; [done|]. cbn. by rewrite IH, app_assoc_s. Qed.
Lemma each_char_twice f g s : each_char g (each_char f s) = each_char (fun a => each_char g (f a)) s.
Proof. induction s as [|a s IH]; [done|]. cbn. by rewrite each_char_app, IH. Qed.
Lemma each_char_ext f g s : (forall a, f a = g a) -> each_char f s = each_char g s.
Proof. intros Hf. induction s as [|a s IH]; [done|]. cbn. by rewrite Hf, IH. Qed.
Lemma each_char_same s : each_char same_char s = s.
Proof. induction s as [|a s IH]; [done|]. cbn. by rewrite IH. Qed.
Lemma prefix_char c a s : starts_with (String c "") (String a s) = Ascii.eqb a c.
Proof.
  unfold starts_with. cbn [String.prefix]. destruct (ascii_dec c a) as [->|Hn]; [rewrite Ascii.eqb_refl; by destruct s|].
  symmetry. apply Ascii.eqb_neq. congruence.
Qed.
Lemma replace_char c q s : replace (String c "") q s = each_char (swap c q) s.
Proof.
  unfold replace. induction s as [|a s IH]; [done|]. cbn [replace_from each_char]. rewrite prefix_char. unfold swap at 1.
  destruct (Ascii.eqb a c); cbn [pred String.length]; by rewrite IH.
Qed.
Lemma escape_entities s : xml_escape s = each_char (entity []) s.
Proof.
  unfold xml_escape, quote. rewrite !replace_char, !each_char_twice. apply each_char_ext. intros a. unfold entity, swap at 4. cbn [existsb].
  destruct (Ascii.eqb_spec a "&") as [->|Ha]; [reflexivity|]. unfold same_char. cbn [each_char]. unfold swap at 3.
  destruct (Ascii.eqb_spec a "<") as [->|Hl]; [reflexivity|]. unfold same_char. cbn [each_char]. unfold swap at 2.
  destruct (Ascii.eqb_spec a ">") as [->|Hg]; [reflexivity|]. unfold same_char. cbn [each_char]. unfold swap.
  by destruct (Ascii.eqb_spec a (ascii_of_N 34)) as [->|Hq].
Qed.
(** The last case split of a character: none of the special ones. *)
Ltac char_cases a :=
  destruct (ascii_dec a "&") as [->|?]; [|destruct (ascii_dec a "<") as [->|?];
    [|destruct (ascii_dec a ">") as [->|?]; [|destruct (ascii_dec a (ascii_of_N 34)) as [->|?]]]].
Lemma entity_other done_ a : a <> "&"%char -> a <> "<"%char -> a <> ">"%char -> a <> ascii_of_N 34 -> entity done_ a = same_char a.
Proof.
  intros Ha Hl Hg Hq. unfold entity. destruct (existsb _ _); [done|].
  by rewrite (proj2 (Ascii.eqb_neq _ _) Ha), (proj2 (Ascii.eqb_neq _ _) Hl), (proj2 (Ascii.eqb_neq _ _) Hg), (proj2 (Ascii.eqb_neq _ _) Hq).
Qed.
(** A pattern that starts with an ampersand passes over any other character. *)
Lemma replace_other p q a s : a <> "&"%char -> replace (String "&" p) q (String a s) = String a (replace (String "&" p) q s).
Proof.
  intros Ha. unfold replace. cbn [replace_from]. unfold starts_with. cbn [String.prefix].
  destruct (ascii_dec "&" a) as [Heq|_]; [by rewrite <-Heq in Ha|done].
Qed.
Lemma prefix_empty s : String.prefix "" s = true.
Proof. by destruct s. Qed.
Definition decoded : list (string * string * list ascii * list ascii) :=
  let l := "<"%char in let g := ">"%char in let d := ascii_of_N 34 in
  [("lt;", "<", [], [l]); ("gt;", ">", [l], [l; g]); ("quot;", quote, [l; g], [l; g; d]); ("#39;", "'", [l; g; d], [l; g; d]);
   ("apos;", "'", [l; g; d], [l; g; d]); ("amp;", "&", [l; g; d], [l; g; d; "&"%char])].
Lemma decode_step s : Forall (fun '(p, q, before, after) =>
  replace (String "&" p) q (each_char (entity before) s) = each_char (entity after) s) decoded.
Proof.
  unfold decoded. repeat apply Forall_cons_2; [..|apply Forall_nil_2].
  all: induction s as [|a s IH]; [reflexivity|]; cbn [each_char]; char_cases a.
  all: try (rewrite !entity_other by done; cbn [same_char String.append]; rewrite replace_other by done; by rewrite IH).
  all: revert IH; unfold replace; repeat match goal with |- context [each_char ?f ?t] => is_var t; generalize (each_char f t) end; intros r1.
  all: first [intros r2 IH; cbn; by rewrite ?prefix_empty, IH | intros IH; cbn; by rewrite ?prefix_empty, IH].
Qed.
Lemma unescape_escaped s : unescape (xml_escape s) = s.
Proof.
  rewrite escape_entities. pose proof (decode_step s) as Hd. unfold decoded in Hd.
  repeat (apply Forall_cons_1 in Hd as [?Hs Hd]). unfold unescape. rewrite Hs, Hs0, Hs1, Hs2, Hs3, Hs4.
  rewrite <-(each_char_same s) at 2. apply each_char_ext. intros a. char_cases a; [reflexivity..|by apply entity_other].
Qed.
Definition not_lt (a : ascii) : bool := negb (Ascii.eqb a "<").
Lemma escaped_no_lt s : sforall not_lt (xml_escape s) = true.
Proof.
  rewrite escape_entities. induction s as [|a s IH]; [done|]. cbn [each_char]. rewrite sforall_app, IH, andb_true_r.
  char_cases a; [reflexivity..|]. rewrite entity_other by done. cbn. unfold not_lt. rewrite andb_true_r. by apply negb_true_iff, Ascii.eqb_neq.
Qed.

Lemma close_skips tag n x y : sforall not_lt x = true -> find_close_at tag n (x +:+ y) = find_close_at tag (n + String.length x) y.
Proof.
  revert n. induction x as [|a x IH]; intros n; cbn [sforall]; [by rewrite Nat.add_0_r|]. rewrite andb_true_iff. intros [Ha Hx].
  cbn [String.append find_close_at]. replace (starts_with "</" (String a (x +:+ y))) with false; [rewrite IH by done; f_equal; cbn; lia|].
  unfold starts_with. cbn [String.prefix]. destruct (ascii_dec "<" a) as [<-|]; [discriminate Ha|done].
Qed.
Lemma open_skips tag n x y : sforall not_lt x = true -> find_open_at tag n (x +:+ y) = find_open_at tag (n + String.length x) y.
Proof.
  revert n. induction x as [|a x IH]; intros n; cbn [sforall]; [by rewrite Nat.add_0_r|]. rewrite andb_true_iff. intros [Ha Hx].
  cbn [String.append find_open_at]. unfold not_lt in Ha. apply negb_true_iff in Ha. rewrite Ha. cbn [andb].
  rewrite IH by done. f_equal. cbn. lia.
Qed.
Lemma open_later tag n s a b : find_open_at tag n s = Some (a, b) -> (n <= a)%nat.
Proof.
  revert n. induction s as [|c s IH]; intros n; cbn [find_open_at]; [done|].
  destruct (Ascii.eqb c "<" && _); [|intros Hs; apply IH in Hs; lia].
  destruct (find_str _ _) as [gt|]; [|intros Hs; apply IH in Hs; lia].
  destruct (String.eqb _ _); [intros [= <- _]; lia|intros Hs; apply IH in Hs; lia].
Qed.
Lemma find_gt x y : sforall (fun a => negb (Ascii.eqb a ">")) x = true -> find_str ">" (x +:+ String ">" y) = Some (String.length x).
Proof.
  induction x as [|a x IH]; cbn [sforall]; [intros _; cbn [String.append find_str]; by rewrite prefix_char|].
  rewrite andb_true_iff. intros [Ha Hx]. cbn [String.append find_str]. rewrite prefix_char. apply negb_true_iff in Ha. by rewrite Ha, IH.
Qed.
Lemma no_lt x : sforall not_lt x = true -> find_str "<" x = None.
Proof.
  induction x as [|a x IH]; cbn [sforall]; [done|]. rewrite andb_true_iff. intros [Ha Hx]. cbn [find_str]. rewrite prefix_char.
  apply negb_true_iff in Ha. by rewrite Ha, IH.
Qed.
Lemma strip_plain n x : sforall not_lt x = true -> (String.length x <= n)%nat -> strip_tags_of n x = x.
Proof.
  intros Hx Hn. destruct n as [|n]; [by destruct x; cbn in Hn; [|lia]|]. destruct x as [|a x]; [done|].
  pose proof (no_lt _ Hx) as Hno. cbn [sforall] in Hx. apply andb_true_iff in Hx as [Ha Hx]. apply negb_true_iff in Ha.
  cbn [strip_tags_of]. rewrite Ha, Hno. cbn [default]. rewrite <-(app_nil_r_s (String a x)) at 2 4. rewrite stake_app, sdrop_app.
  destruct n; cbn; by rewrite app_nil_r_s.
Qed.

(** Property names: letters, digits and dashes. *)
Definition tag_char (a : ascii) : bool := is_alnum a || Ascii.eqb a "-".
Definition opened (tag : string) : string := "<D:" +:+ tag +:+ ">".
Definition closed (tag : string) : string := "</D:" +:+ tag +:+ ">".
Definition text_element (tag text : string) : string := opened tag +:+ xml_escape text +:+ closed tag.
Lemma tag_char_facts a : tag_char a = true ->
  plain a = true /\ Ascii.eqb a ">" = false /\ Ascii.eqb a "<" = false /\ Ascii.eqb a ":" = false /\ Ascii.eqb a "/" = false.
Proof. destruct a as [[] [] [] [] [] [] [] []]; cbn; intros Ha; try discriminate Ha; by split_and!. Qed.
Lemma tag_impl (p : ascii -> bool) tag : (forall a, tag_char a = true -> p a = true) -> sforall tag_char tag = true -> sforall p tag = true.
Proof. intros Hp. by apply sforall_impl. Qed.
Lemma words_plain n acc s : sforall plain s = true -> (String.length s <= n)%nat -> string_rev acc +:+ s <> "" ->
  words_from n acc s = [string_rev acc +:+ s].
Proof.
  revert acc s. induction n as [|n IH]; intros acc s Hs Hn Hne.
  - destruct s; [|cbn in Hn; lia]. rewrite app_nil_r_s in *. cbn. unfold flush_word. destruct acc; [done|]. by cbn.
  - destruct s as [|a s]; [rewrite app_nil_r_s in *; cbn; unfold flush_word; destruct acc; [done|by cbn]|].
    cbn [words_from]. rewrite (trim_start_plain _ Hs). cbn [sforall] in Hs. apply andb_true_iff in Hs as [Ha Hs].
    rewrite Nat.ltb_irrefl, IH; [|done|cbn in Hn; lia|].
    + by rewrite string_rev_cons, app_assoc_s.
    + rewrite string_rev_cons, app_assoc_s. cbn. by destruct (string_rev acc).
Qed.
Lemma open_name_tag tag : sforall tag_char tag = true -> open_name ("D:" +:+ tag) = tag.
Proof.
  intros Ht. unfold open_name, split_whitespace.
  assert (Hp : sforall plain ("D:" +:+ tag) = true) by (cbn; by apply (tag_impl plain); [intros a Ha; by apply tag_char_facts in Ha as []|]).
  assert (Hw : words_from (String.length ("D:" +:+ tag)) "" ("D:" +:+ tag) = ["D:" +:+ tag]) by by apply (words_plain _ "").
  rewrite Hw. cbn [head default]. unfold id.
  assert (Hs : drop_while_end is_slash ("D:" +:+ tag) = "D:" +:+ tag).
  { unfold drop_while_end. rewrite <-(string_rev_involutive ("D:" +:+ tag)) at 2. f_equal.
    assert (Hr : sforall (fun a => negb (is_slash a)) (string_rev ("D:" +:+ tag)) = true).
    { rewrite sforall_rev. cbn. apply (tag_impl _ tag); [|done]. intros a Ha. apply negb_true_iff. by apply tag_char_facts in Ha as (_ & _ & _ & _ & ?). }
    destruct (string_rev ("D:" +:+ tag)) as [|a r]; [done|]. cbn [sforall] in Hr. apply andb_true_iff in Hr as [Ha _].
    apply negb_true_iff in Ha. cbn. by rewrite Ha. }
  rewrite Hs. unfold rsplit_next. change ("D:" +:+ tag) with ("D" +:+ String ":" tag). rewrite split_char_app by done.
  rewrite split_char_none; [done|]. apply (tag_impl _ tag); [|done]. intros a Ha. apply negb_true_iff. by apply tag_char_facts in Ha as (_ & _ & _ & ? & _).
Qed.
Lemma no_gt_tag tag : sforall tag_char tag = true -> sforall (fun a => negb (Ascii.eqb a ">")) tag = true.
Proof. apply tag_impl. intros a Ha. apply negb_true_iff. by apply tag_char_facts in Ha as (_ & ? & _). Qed.
Lemma open_found tag rest : sforall tag_char tag = true ->
  find_open (opened tag +:+ rest) tag = Some (0%nat, String.length (opened tag)).
Proof.
  intros Ht. unfold find_open, opened. rewrite !app_assoc_s. cbn [String.append find_open_at].
  change (Ascii.eqb "<" "<") with true. change (starts_with "/" (String "D" (String ":" (tag +:+ String ">" rest)))) with false. cbn [andb negb].
  change (String "<" (String "D" (String ":" (tag +:+ String ">" rest)))) with (("<D:" +:+ tag) +:+ String ">" rest).
  rewrite find_gt by (cbn; by apply no_gt_tag). cbn [String.length String.append].
  replace (S (S (S (String.length tag))) - 1)%nat with (String.length ("D:" +:+ tag)) by (cbn; lia).
  change (String "D" (String ":" (tag +:+ String ">" rest))) with (("D:" +:+ tag) +:+ String ">" rest).
  rewrite stake_app, open_name_tag, String.eqb_refl by done. do 2 f_equal. rewrite slength_app. cbn. lia.
Qed.
Lemma close_found n tag rest : sforall tag_char tag = true ->
  find_close_at tag n (closed tag +:+ rest) = Some (n, (n + String.length (closed tag))%nat).
Proof.
  intros Ht. unfold closed. rewrite !app_assoc_s. cbn [String.append].
  cbn [find_close_at]. replace (starts_with "</" (String "<" (String "/" (String "D" (String ":" (tag +:+ String ">" rest)))))) with true by done.
  change (String "<" (String "/" (String "D" (String ":" (tag +:+ String ">" rest))))) with (("</D:" +:+ tag) +:+ String ">" rest).
  rewrite find_gt by (cbn; by apply no_gt_tag). cbn [String.length String.append sdrop].
  replace (S (S (S (S (String.length tag)))) - 2)%nat with (String.length ("D:" +:+ tag)) by (cbn; lia).
  change (String "D" (String ":" (tag +:+ String ">" rest))) with (("D:" +:+ tag) +:+ String ">" rest). rewrite stake_app.
  unfold rsplit_next. change ("D:" +:+ tag) with ("D" +:+ String ":" tag). rewrite split_char_app by done.
  rewrite split_char_none; [|apply (tag_impl _ tag); [|done]; intros a Ha; apply negb_true_iff; by apply tag_char_facts in Ha as (_ & _ & _ & ? & _)].
  cbn [List.last]. rewrite String.eqb_refl. do 2 f_equal. cbn. rewrite slength_app. cbn. lia.
Qed.
Lemma element_found tag text rest : sforall tag_char tag = true ->
  element (text_element tag text +:+ rest) tag = Some (0%nat, String.length (text_element tag text)).
Proof.
  intros Ht. unfold element, text_element. rewrite !app_assoc_s, open_found by done.
  cbn [element_end]. rewrite sdrop_app. unfold find_close, find_open.
  rewrite close_skips, close_found, open_skips by (done || apply escaped_no_lt). cbn [shifted option_map].
  destruct (find_open_at tag _ (closed tag +:+ rest)) as [[a b]|] eqn:Ho.
  - unfold closed in Ho. rewrite !app_assoc_s in Ho. cbn [String.append find_open_at] in Ho.
    change (Ascii.eqb "<" "<") with true in Ho. cbn [andb] in Ho.
    change (starts_with "/" (String "/" (String "D" (String ":" (tag +:+ String ">" rest))))) with true in Ho. cbn [negb] in Ho.
    apply open_later in Ho. cbn [shifted option_map].
    replace (_ <? _)%nat with true by (symmetry; apply Nat.ltb_lt; lia). cbn. do 2 f_equal. repeat first [rewrite slength_app|progress cbn [String.length]]. lia.
  - cbn. do 2 f_equal. repeat first [rewrite slength_app|progress cbn [String.length]]. lia.
Qed.

(** The scanner reads what the client escapes.  Text written into an element of a DAV body
    - any text, markup and entities included - is read back by the tolerant scanner exactly,
    whatever follows the element, as long as it is neither blank nor padded (the scanner trims). *)
Theorem xml_text_roundtrip tag text rest : sforall tag_char tag = true -> trim text = text -> text <> "" ->
  tag_text (text_element tag text +:+ rest) tag = Ok (Some text).
Proof.
  intros Ht Htrim Hne. unfold tag_text. rewrite element_found by done. cbn [sdrop]. rewrite stake_app.
  unfold text_element at 1 2 3. rewrite open_found by done. unfold find_close.
  assert (Hc : find_close_at tag 0 (opened tag +:+ (xml_escape text +:+ closed tag)) =
    Some ((String.length (opened tag) + String.length (xml_escape text))%nat,
          (String.length (opened tag) + String.length (xml_escape text) + String.length (closed tag))%nat)).
  { assert (Hrest : find_close_at tag (1 + String.length (sdrop 1 (opened tag))) (xml_escape text +:+ closed tag) = Some
      ((String.length (opened tag) + String.length (xml_escape text))%nat,
       (String.length (opened tag) + String.length (xml_escape text) + String.length (closed tag))%nat)).
    { rewrite close_skips by apply escaped_no_lt. rewrite <-(app_nil_r_s (closed tag)) at 1. by rewrite close_found. }
    rewrite <-Hrest, <-(close_skips tag 1 (sdrop 1 (opened tag))); [done|].
    cbn. rewrite sforall_app. cbn. rewrite (tag_impl not_lt); [done|intros a Ha|done].
    apply negb_true_iff. by apply tag_char_facts in Ha as (_ & _ & ? & _). }
  rewrite Hc. unfold slice. rewrite !slength_app. replace (_ && _)%bool with true by (symmetry; apply andb_true_iff; split; apply Nat.leb_le; lia).
  cbn [rbind]. rewrite sdrop_app. replace (_ - _)%nat with (String.length (xml_escape text)) by lia. rewrite stake_app.
  unfold strip_tags. rewrite strip_plain by (done || apply escaped_no_lt). rewrite unescape_escaped, Htrim.
  destruct (is_empty text) eqn:He; [|done]. by apply String.eqb_eq in He.
Qed.
Lemma xml_text_roundtrip_witness :
  tag_text (text_element "href" "/dav/a&b<c>/x.vcf" +:+ "<D:href>next</D:href>") "href" = Ok (Some "/dav/a&b<c>/x.vcf").
Proof. apply (xml_text_roundtrip "href" "/dav/a&b<c>/x.vcf"); [reflexivity|vm_compute; reflexivity|discriminate]. Defined.

(** ** What the code does not keep *)

(** A server that redirects everything to another host; the requests it saw. *)
#[local] Instance redirecting : DavNet (list DavRequest) := fun r log =>
  (Ok (mkDavResp 302 (rq_url r) (Some "https://evil.example/dav/") None ""), (log ++ [r])%list).
#[local] Instance plain_join : UrlJoin := { url_join base href := Ok (base +:+ href); basic_encoded u p := u +:+ ":" +:+ p }.
Definition alices : DavClient := mkDav "alice@x.org" "secret" "https://dav.x.org".
(** The password follows a redirect to any host. *)
Lemma redirect_leaks_password :
  map (fun r => (rq_url r, existsb (fun h => bool_decide (h = ("Authorization", "Basic alice@x.org:secret"))) (rq_headers r)))
    (snd (propfind_text alices "https://dav.x.org/" "<D:sync-token/>" [])) =
  [("https://dav.x.org/", true); ("https://evil.example/dav/", true); ("https://evil.example/dav/", true)].
Proof. vm_compute. reflexivity. Qed.
(** A report asked for with a token carries an empty one before it. *)
Lemma sync_token_sent_twice : contains_str "<D:sync-token/><D:sync-token>t1</D:sync-token>" (sync_body (Some "t1")) = true.
Proof. vm_compute. reflexivity. Qed.
(** A closing tag inside an attribute makes the slice panic. *)
Lemma quoted_close_panics : tag_text "<href title='</href>'>/a</href>" "href" = Err (DavPanic "slice").
Proof. vm_compute. reflexivity. Qed.
