(* ===== verification/PimDav.v ===== *)
(** * Contacts and calendars ([pim_dav.rs], [pim_write.rs])

    The tables of contacts, calendars, events and sync tokens beside the mailbox world, the
    incremental sync of an address book and of the calendars of an account, the writes that
    create an item on the server and mirror it, and the discovery of an account's home sets.
    A statement fails like every other of the mail database; the foreign keys of an insert are
    taken to hold (only an event whose calendar could not be inserted would break one).  A byte slice inside a character
    panics: [DavPanic], which unwinds the task. *)
From S2P Require Import Prelude Kv Crypto UnlockRing World Toy Session Labels Jobs Pool Netsec MailStore Imap ImapLoop Blobs Jmap JmapLoop.
From S2P Require Import Spam OAuth Ai JmapWrite Desk Dav ToyDesk.
Local Open Scope string_scope.
Local Open Scope Z_scope.

(** ** Tables *)

Record ContactRow := mkContact {
  ct_id : string; ct_account : string; ct_external : option string; ct_vcard : option string; ct_display_name : option string;
  ct_emails : option string; ct_phones : option string; ct_organisation : option string; ct_photo : option string;
  ct_book : option string; ct_etag : option string }.
Record CalendarRow := mkCalendar {
  cl_id : string; cl_account : string; cl_url : option string; cl_name : string; cl_color : option string; cl_description : option string;
  cl_timezone : option string; cl_is_active : bool; cl_sync_token : option string }.
Record EventRow := mkEventRow {
  er_id : string; er_account : string; er_calendar : option string; er_external : option string; er_ical : option string;
  er_summary : option string; er_description : option string; er_dtstart : option string; er_dtend : option string;
  er_location : option string; er_is_all_day : bool; er_rrule : option string; er_url : option string; er_etag : option string;
  er_status : option string }.
Record CursorRow := mkCursor { cu_account : string; cu_kind : string; cu_token : option string }.
Record pim_tables := mkPimTables {
  pt_contacts : list ContactRow; pt_calendars : list CalendarRow; pt_events : list EventRow; pt_cursors : list CursorRow }.
Definition set_contacts l t := mkPimTables l (pt_calendars t) (pt_events t) (pt_cursors t).
Definition set_calendars l t := mkPimTables (pt_contacts t) l (pt_events t) (pt_cursors t).
Definition set_events l t := mkPimTables (pt_contacts t) (pt_calendars t) l (pt_cursors t).
Definition set_dav_cursors l t := mkPimTables (pt_contacts t) (pt_calendars t) (pt_events t) l.

(** ** vCard and iCalendar texts ([pim_write.rs]) *)

(** chrono: the instant of a civil date and time, the UTC basic format, and [%Y-%m-%d]. *)
Class CivilLib := {
  civil_instant : Z -> Z -> Z -> Z -> Z -> Z -> option Z;
  utc_basic : Z -> string;
  valid_ymd : string -> bool;
}.
Record NewContact := mkNewContact { nc_display_name : string; nc_email : option string; nc_phone : option string; nc_organisation : option string }.
Record NewEvent := mkNewEvent {
  ne_summary : string; ne_dtstart : string; ne_dtend : option string; ne_is_all_day : bool; ne_location : option string;
  ne_description : option string }.
Definition escape_char (a : ascii) : string :=
  if Ascii.eqb a "\" then "\\" else if Ascii.eqb a ";" then "\;" else if Ascii.eqb a "," then "\,"
  else if Ascii.eqb a nl || Ascii.eqb a cr then "\n" else String a "".
Definition escape_text (raw : string) : string := each_char escape_char raw.
(** [opt.filter(|s| !s.trim().is_empty())]. *)
Definition not_blank (o : option string) : option string := match o with Some s => if is_empty (trim s) then None else Some s | None => None end.
Definition field_line (name : string) (o : option string) : list string :=
  match not_blank o with Some s => [name +:+ escape_text (trim s)] | None => [] end.
Definition build_vcard (uid : string) (c : NewContact) : string :=
  join crlf (["BEGIN:VCARD"; "VERSION:4.0"; "UID:" +:+ escape_text uid; "FN:" +:+ escape_text (nc_display_name c);
              "N:" +:+ escape_text (nc_display_name c)]
             ++ field_line "EMAIL:" (nc_email c) ++ field_line "TEL:" (nc_phone c) ++ field_line "ORG:" (nc_organisation c)
             ++ ["END:VCARD"])%list.
Definition byte_at (n : nat) (s : string) : option ascii := String.get n s.
(** [s.replace('-', "")]. *)
Definition without_dashes (s : string) : string := each_char (fun a => if Ascii.eqb a "-" then "" else String a "") s.

Section Write.
Context `{JobLib} `{CivilLib}.
Definition ical_utc (text : string) : result string string :=
  match parse_rfc3339 text with
  | Some t => Ok (utc_basic t)
  | None => Err ("invalid dtstart/dtend '" +:+ text +:+ "': use RFC3339")
  end.
Definition ical_date (ymd : string) : result string string :=
  let bad := Err ("invalid date '" +:+ ymd +:+ "': use YYYY-MM-DD") in
  if negb (String.length ymd =? 10)%nat || negb (bool_decide (byte_at 4 ymd = Some "-"%char)) || negb (bool_decide (byte_at 7 ymd = Some "-"%char))
  then bad else if valid_ymd ymd then Ok (without_dashes ymd) else bad.
Definition dtend_line (prefix : string) (f : string -> result string string) (o : option string) : result string string :=
  match o with Some d => let? text := f d in Ok (crlf +:+ prefix +:+ text) | None => Ok "" end.
Definition extra_line (name : string) (o : option string) : string :=
  match not_blank o with Some s => crlf +:+ name +:+ escape_text (trim s) | None => "" end.
Definition build_vevent (now : Z) (uid : string) (e : NewEvent) : result string string :=
  if is_empty (trim (ne_summary e)) then Err "summary must not be empty" else
  let? times := (if ne_is_all_day e then
                   let? start := ical_date (ne_dtstart e) in
                   let? end_ := dtend_line "DTEND;VALUE=DATE:" ical_date (ne_dtend e) in Ok ("DTSTART;VALUE=DATE:" +:+ start, end_)
                 else
                   let? start := ical_utc (ne_dtstart e) in
                   let? end_ := dtend_line "DTEND:" ical_utc (not_blank (ne_dtend e)) in Ok ("DTSTART:" +:+ start, end_)) in
  let extra := extra_line "LOCATION:" (ne_location e) +:+ extra_line "DESCRIPTION:" (ne_description e) in
  Ok ("BEGIN:VCALENDAR" +:+ crlf +:+ "VERSION:2.0" +:+ crlf +:+ "PRODID:-//Lyra//EN" +:+ crlf +:+ "BEGIN:VEVENT" +:+ crlf
      +:+ "UID:" +:+ uid +:+ crlf +:+ "SUMMARY:" +:+ escape_text (trim (ne_summary e)) +:+ crlf +:+ fst times +:+ snd times +:+ extra +:+ crlf
      +:+ "DTSTAMP:" +:+ utc_basic now +:+ crlf +:+ "END:VEVENT" +:+ crlf +:+ "END:VCALENDAR").

(** ** Reading a DTSTART *)

(** [&s[a..b]]: out of range or inside a character it panics. *)
Definition boundary (n : nat) (s : string) : bool :=
  (n <=? String.length s)%nat && match sdrop n s with String a _ => char_start a | "" => true end.
Definition char_slice (a b : nat) (s : string) : result DavError string :=
  if boundary a s && boundary b s && (a <=? b)%nat then Ok (stake (b - a) (sdrop a s)) else Err (DavPanic "slice").
(** [raw[a..b].parse().ok()?], then [k]. *)
Definition part {A} (parse : string -> option Z) (a b : nat) (raw : string) (k : Z -> result DavError (option A)) : result DavError (option A) :=
  let? text := char_slice a b raw in
  match parse text with Some n => k n | None => Ok None end.
Definition date_parts (raw : string) (with_time : bool) : result DavError (option Z) :=
  part parse_i64 0 4 raw (fun year => part parse_u32 4 6 raw (fun month => part parse_u32 6 8 raw (fun day =>
  if with_time then
    part parse_u32 9 11 raw (fun hour => part parse_u32 11 13 raw (fun minute => part parse_u32 13 15 raw (fun second =>
    Ok (civil_instant year month day hour minute second))))
  else Ok (civil_instant year month day 0 0 0)))).
Definition parse_ical_dt (raw : string) : result DavError (option Z) :=
  let raw := trim raw in
  if (String.length raw =? 16)%nat && ends_with "Z" raw then date_parts raw true
  else if (String.length raw =? 8)%nat then date_parts raw false
  else Ok (parse_rfc3339 raw).
Definition normalize_ical_dt (raw : option string) : result DavError (option string) :=
  match raw with
  | None => Ok None
  | Some raw => let? t := parse_ical_dt (trim raw) in Ok (option_map rfc3339 t)
  end.
End Write.

Record office (K R T : Type) `{JmapWire T} := mkOffice { of_desk : desk K R T; of_pim : pim_tables }.
Arguments mkOffice {K R T _}. Arguments of_desk {K R T _}. Arguments of_pim {K R T _}.

Section Engine.
Context {K R T : Type} `{JmapWire T} `{StoreLib} `{JsonLib} `{JobLib} `{CivilLib} `{CryptoLib} `{UrlLib} `{UrlJoin} `{DavNet T} `{UpperLib}.
Local Abbreviation W := (office K R T).
Local Abbreviation M := (io W DavError).
Implicit Types w : W.

Definition set_desk d w : W := mkOffice d (of_pim w).
Definition set_pim t w : W := mkOffice (of_desk w) t.
Definition on_desk {E A} (m : io (desk K R T) E A) : io W E A := fun w => let '(r, d) := m (of_desk w) in (r, set_desk d w).
Definition on_wire {E A} (m : io T E A) : io W E A := on_desk (Desk.on_net m).
(** One statement over the PIM tables; [down] is the error of a dead database. *)
Definition pstmt {E A} (down : E) (f : pim_tables -> A * pim_tables) : io W E A :=
  fun w => match mstmt (fun db => (tt, db)) (dk_mail (of_desk w)) with
           | (Ok _, db) => let '(a, t) := f (of_pim w) in (Ok a, mkOffice (Desk.set_mail db (of_desk w)) t)
           | (Err _, db) => (Err down, mkOffice (Desk.set_mail db (of_desk w)) (of_pim w))
           end.
Definition pread {E A} (down : E) (f : pim_tables -> A) : io W E A := pstmt down (fun t => (f t, t)).
Definition pwrite {E} (down : E) (f : pim_tables -> pim_tables) : io W E unit := pstmt down (fun t => (tt, f t)).
Definition fresh_uuid {E} : io W E string :=
  fun w => let db := dk_mail (of_desk w) in
           (Ok (store_uuid (ml_seq db)), mkOffice (Desk.set_mail (MailStore.set_seq (N.succ (ml_seq db)) db) (of_desk w)) (of_pim w)).
Definition db_error : DavError := DavProtocol "closed".
(** An error is dropped, a panic is not. *)
Definition unless_panic {A} (m : M A) : M (option A) :=
  let! r := attempt m in
  match r with Ok a => ret (Some a) | Err (DavPanic at_) => throw (DavPanic at_) | Err _ => ret None end.

(** ** Sync tokens *)

Definition cursor_is (account_id kind : string) (c : CursorRow) : bool := String.eqb (cu_account c) account_id && String.eqb (cu_kind c) kind.
Definition load_cursor (account_id kind : string) : M (option string) :=
  let! row := attempt (pread db_error (fun t => List.find (cursor_is account_id kind) (pt_cursors t))) in
  ret (match row with Ok (Some c) => cu_token c | _ => None end).
Definition put_cursor (account_id kind : string) (token : option string) (l : list CursorRow) : list CursorRow :=
  if existsb (cursor_is account_id kind) l
  then map (fun c => if cursor_is account_id kind c then mkCursor (cu_account c) (cu_kind c) token else c) l
  else (l ++ [mkCursor account_id kind token])%list.
Definition save_cursor (account_id kind : string) (token : option string) : M unit :=
  let! _ := attempt (F := DavError) (pwrite db_error (fun t => set_dav_cursors (put_cursor account_id kind token (pt_cursors t)) t)) in ret tt.
Definition resolve_homeset (c : DavClient) (stored : option string) (well_known homeset_prop : string) : M string :=
  match nonempty stored with
  | Some url => ret url
  | None => on_wire (discover_homeset c well_known homeset_prop)
  end.
(** Changed hrefs, removed hrefs, the next token. *)
Definition delta (c : DavClient) (collection : string) (prior : option string) : M (list string * list string * option string) :=
  let! answer := unless_panic (on_wire (sync_collection c collection prior)) in
  let full := let! etags := on_wire (list_etags c collection) in ret (map di_href etags, [], None) in
  match answer with
  | Some changes => if sc_invalid changes then full else ret (map di_href (sc_changed changes), sc_removed changes, sc_token changes)
  | None => full
  end.

(** ** Contacts *)

Definition contact_at (account_id href : string) (c : ContactRow) : bool :=
  String.eqb (ct_account c) account_id && bool_decide (ct_external c = Some href).
Definition texts_json (l : list string) : string := json_text (JArray (map JString l)).
Definition new_contact (id account_id collection href : string) (etag : option string) (vcard : string) (f : VcardFields)
    (photo : option string) : ContactRow :=
  mkContact id account_id (Some href) (Some vcard) (Some (default "" (vf_name f))) (Some (texts_json (vf_emails f)))
    (Some (texts_json (vf_phones f))) (Some (default "" (vf_org f))) photo (Some collection) (Some (default "" etag)).
Definition refreshed_contact (collection : string) (etag : option string) (vcard : string) (f : VcardFields) (photo : option string)
    (c : ContactRow) : ContactRow :=
  mkContact (ct_id c) (ct_account c) (ct_external c) (Some vcard) (vf_name f) (Some (texts_json (vf_emails f)))
    (Some (texts_json (vf_phones f))) (vf_org f) (match photo with Some p => Some p | None => ct_photo c end) (Some collection)
    (Some (default "" etag)).
Definition update_contacts (id : string) (f : ContactRow -> ContactRow) (t : pim_tables) : pim_tables :=
  set_contacts (map (fun c => if String.eqb (ct_id c) id then f c else c) (pt_contacts t)) t.
Definition same_etag (old new : option string) : bool := bool_decide (old = new) && bool_decide (is_Some new).
(** Where a photo is kept: inline bytes or the fetched address, to a blob path. *)
Definition PhotoStore : Type := VcardPhoto -> W -> option string * W.
Definition store_photo_of (store_photo : PhotoStore) (photo : option VcardPhoto) : M (option string) :=
  match photo with Some p => fun w => let '(path, w') := store_photo p w in (Ok path, w') | None => ret None end.
Definition upsert_contact (account_id collection : string) (item : DavItem) (store_photo : PhotoStore) : M unit :=
  match di_data item with
  | None => ret tt
  | Some vcard =>
      let fields := parse_vcard_fields vcard in
      let! photo_path := store_photo_of store_photo (parse_vcard_photo vcard) in
      let! row := pread db_error (fun t => List.find (contact_at account_id (di_href item)) (pt_contacts t)) in
      match row with
      | Some row =>
          if same_etag (ct_etag row) (di_etag item) then ret tt
          else pwrite db_error (update_contacts (ct_id row) (refreshed_contact collection (di_etag item) vcard fields photo_path))
      | None =>
          let! id := fresh_uuid in
          pwrite db_error (fun t => set_contacts (pt_contacts t ++ [new_contact id account_id collection (di_href item) (di_etag item) vcard fields photo_path])%list t)
      end
  end.
Definition tombstone_contact (account_id href : string) : M unit :=
  let! _ := attempt (F := DavError) (pwrite db_error (fun t => set_contacts (List.filter (fun c => negb (contact_at account_id href c)) (pt_contacts t)) t)) in ret tt.

Record DavSyncOutcome := mkOutcome { so_changed : nat; so_removed : nat; so_collections : nat }.
(** [for item in items]: how many were stored. *)
Fixpoint store_items (store : DavItem -> M unit) (items : list DavItem) : M nat :=
  match items with
  | [] => ret 0%nat
  | item :: rest =>
      let! stored := unless_panic (store item) in
      let! n := store_items store rest in
      ret (match stored with Some _ => S n | None => n end)
  end.
Fixpoint each_removed (remove : string -> M unit) (hrefs : list string) : M unit :=
  match hrefs with [] => ret tt | h :: rest => let! _ := remove h in each_removed remove rest end.
(** What a book's changes do here: the items stored, the removed rows deleted, the token saved. *)
Definition apply_book (account_id collection : string) (store_photo : PhotoStore) (items : list DavItem) (removed : list string)
    (next_token : option string) : M (nat * nat) :=
  let! changed := store_items (fun item => upsert_contact account_id collection item store_photo) items in
  let! _ := each_removed (tombstone_contact account_id) removed in
  let! _ := save_cursor account_id "carddav" next_token in
  ret (changed, length removed).
Definition sync_book (c : DavClient) (account_id collection : string) (store_photo : PhotoStore) : M (nat * nat) :=
  let! prior := load_cursor account_id "carddav" in
  let! d := delta c collection prior in
  let '(to_fetch, removed, next_token) := d in
  let! items := on_wire (addressbook_multiget c collection to_fetch) in
  apply_book account_id collection store_photo items removed next_token.
Definition sync_carddav (c : DavClient) (account_id : string) (stored_url : option string) (store_photo : PhotoStore) : M DavSyncOutcome :=
  let! home := resolve_homeset c stored_url "/.well-known/carddav" "addressbook-home-set" in
  let! collections := on_wire (list_collections c home "addressbook") in
  match collections with
  | [] => ret (mkOutcome 0 0 0)
  | (collection, _) :: _ =>
      let! n := sync_book c account_id collection store_photo in
      ret (mkOutcome (fst n) (snd n) (length collections))
  end.

(** ** Calendars *)

Definition calendar_at (account_id collection : string) (c : CalendarRow) : bool :=
  String.eqb (cl_account c) account_id && bool_decide (cl_url c = Some collection).
Definition ensure_calendar (account_id collection name : string) : M string :=
  let! row := attempt (pread db_error (fun t => List.find (calendar_at account_id collection) (pt_calendars t))) in
  match row with
  | Ok (Some c) => ret (cl_id c)
  | _ =>
      let! id := fresh_uuid in
      let! _ := attempt (F := DavError) (pwrite db_error (fun t =>
        set_calendars (pt_calendars t ++ [mkCalendar id account_id (Some collection) name None None None true None])%list t)) in
      ret id
  end.
Definition load_calendar_token (calendar_id : string) : M (option string) :=
  let! row := attempt (pread db_error (fun t => List.find (fun c => String.eqb (cl_id c) calendar_id) (pt_calendars t))) in
  ret (match row with Ok (Some c) => cl_sync_token c | _ => None end).
Definition event_at (account_id href : string) (e : EventRow) : bool :=
  String.eqb (er_account e) account_id && bool_decide (er_external e = Some href).
Definition new_event (id account_id calendar_id collection href : string) (etag : option string) (ical : string) (f : VEventFields)
    (dtstart dtend : option string) : EventRow :=
  mkEventRow id account_id (Some calendar_id) (Some href) (Some ical) (ve_summary f) (ve_description f) dtstart dtend
    (Some (default "" (ve_location f))) false (Some "") (Some collection) (Some (default "" etag)) None.
Definition refreshed_event (calendar_id collection : string) (etag : option string) (ical : string) (f : VEventFields)
    (dtstart dtend : option string) (e : EventRow) : EventRow :=
  mkEventRow (er_id e) (er_account e) (Some calendar_id) (er_external e) (Some ical) (ve_summary f) (ve_description f) dtstart dtend
    (ve_location f) (er_is_all_day e) None (Some collection) (Some (default "" etag)) (er_status e).
Definition update_events (id : string) (f : EventRow -> EventRow) (t : pim_tables) : pim_tables :=
  set_events (map (fun e => if String.eqb (er_id e) id then f e else e) (pt_events t)) t.
Definition upsert_event (account_id calendar_id collection : string) (item : DavItem) : M unit :=
  match di_data item with
  | None => ret tt
  | Some ical =>
      let f := parse_vevent_fields ical in
      let! row := pread db_error (fun t => List.find (event_at account_id (di_href item)) (pt_events t)) in
      match row with
      | Some row =>
          if same_etag (er_etag row) (di_etag item) then ret tt else
          let! dtstart := lift (normalize_ical_dt (ve_dtstart f)) in
          let! dtend := lift (normalize_ical_dt (ve_dtend f)) in
          pwrite db_error (update_events (er_id row) (refreshed_event calendar_id collection (di_etag item) ical f dtstart dtend))
      | None =>
          let! id := fresh_uuid in
          let! dtstart := lift (normalize_ical_dt (ve_dtstart f)) in
          let! dtend := lift (normalize_ical_dt (ve_dtend f)) in
          pwrite db_error (fun t => set_events (pt_events t ++ [new_event id account_id calendar_id collection (di_href item) (di_etag item) ical f dtstart dtend])%list t)
      end
  end.
Definition remove_event (account_id href : string) : M unit :=
  let! _ := attempt (F := DavError) (pwrite db_error (fun t => set_events (List.filter (fun e => negb (event_at account_id href e)) (pt_events t)) t)) in ret tt.
Fixpoint sync_calendars_of (c : DavClient) (account_id : string) (collections : list (string * string)) : M (nat * nat) :=
  match collections with
  | [] => ret (0%nat, 0%nat)
  | (collection, name) :: rest =>
      let! calendar_id := ensure_calendar account_id collection name in
      let! prior := load_calendar_token calendar_id in
      let! d := delta c collection prior in
      let '(to_fetch, removed, _) := d in
      let! items := on_wire (calendar_multiget c collection to_fetch) in
      let! changed := store_items (upsert_event account_id calendar_id collection) items in
      let! _ := each_removed (remove_event account_id) removed in
      let! later := sync_calendars_of c account_id rest in
      ret ((changed + fst later)%nat, (length removed + snd later)%nat)
  end.
Definition sync_caldav (c : DavClient) (account_id : string) (stored_url : option string) : M DavSyncOutcome :=
  let! home := resolve_homeset c stored_url "/.well-known/caldav" "calendar-home-set" in
  let! collections := on_wire (list_collections c home "calendar") in
  let! n := sync_calendars_of c account_id collections in
  ret (mkOutcome (fst n) (snd n) (length collections)).

(** ** Creating an item *)

(** The path of a full URL. *)
Definition href_path (full_url : string) : string :=
  match find_str "://" full_url with
  | Some k => match split_once "/" (sdrop (k + 3) full_url) with Some (_, path) => "/" +:+ path | None => full_url end
  | None => full_url
  end.
Definition first_addressbook_url (account_id : string) : M (option string) :=
  let! row := attempt (pread db_error (fun t => List.find (fun c => String.eqb (ct_account c) account_id) (pt_contacts t))) in
  ret (match row with Ok (Some c) => ct_book c | _ => None end).
Definition with_trailing_slash (url : string) : string := if ends_with "/" url then url else url +:+ "/".
Definition no_photo : PhotoStore := fun _ w => (None, w).
Definition create_dav_contact (account_id carddav_url email password : string) (fields : NewContact) : M string :=
  let! client := lift (dav_client_new email password carddav_url) in
  let! book := first_addressbook_url account_id in
  let collection := with_trailing_slash (default carddav_url book) in
  let! uid := fresh_uuid in
  let vcard := build_vcard uid fields in
  let full := collection +:+ uid +:+ ".vcf" in
  let! etag := on_wire (put_new client full vcard "text/vcard; charset=utf-8") in
  let path := href_path full in
  let! _ := upsert_contact account_id collection (mkItem path (Some etag) (Some vcard)) no_photo in
  ret path.
Definition create_dav_event (account_id calendar_id calendar_url email password : string) (fields : NewEvent) : M string :=
  let! client := lift (dav_client_new email password calendar_url) in
  let collection := with_trailing_slash calendar_url in
  let! uid := fresh_uuid in
  let! now := gets (fun w => ml_now (dk_mail (of_desk w))) in
  let! ical := lift (rmap_err DavProtocol (build_vevent now uid fields)) in
  let full := collection +:+ uid +:+ ".ics" in
  let! etag := on_wire (put_new client full ical "text/calendar; charset=utf-8") in
  let path := href_path full in
  let! _ := upsert_event account_id calendar_id collection (mkItem path (Some etag) (Some ical)) in
  ret path.

(** ** Discovery *)

Definition should_auto_discover_pim (auth_type : string) : bool := negb (eq_ignore_ascii_case auth_type "bearer").
Inductive DavAuthError := NoPimPassword.
Definition resolve_dav_password (pim_password mail_password : option string) (auth_type : string) : result DavAuthError string :=
  match nonempty pim_password with
  | Some s => Ok s
  | None =>
      let password_auth := is_empty auth_type || eq_ignore_ascii_case auth_type "password" in
      match nonempty mail_password with
      | Some mail => if password_auth then Ok mail else Err NoPimPassword
      | None => Err NoPimPassword
      end
  end.
Record Bootstrap := mkBootstrap { bo_origin : string; bo_client : DavClient; bo_direct : bool }.
Definition bootstrap_hints : list (string * string * string) :=
  [("fastmail.com", "https://carddav.fastmail.com/dav/", "https://caldav.fastmail.com/dav/");
   ("fastmailusercontent.com", "https://carddav.fastmail.com/dav/", "https://caldav.fastmail.com/dav/")].
Definition two_clients (email password card cal : string) (direct : bool) : option (Bootstrap * Bootstrap) :=
  match dav_client_new email password card, dav_client_new email password cal with
  | Ok c, Ok l => Some (mkBootstrap card c direct, mkBootstrap cal l direct)
  | _, _ => None
  end.
Definition hinted (domain email password : string) (h : string * string * string) : option (Bootstrap * Bootstrap) :=
  let '(suffix, card, cal) := h in if ends_with suffix domain then two_clients email password card cal true else None.
Definition bootstrap_origins (domain email password : string) : option (Bootstrap * Bootstrap) :=
  match first_of (hinted domain email password) bootstrap_hints with
  | Some p => Some p
  | None => let origin := "https://" +:+ domain in two_clients email password origin origin false
  end.
Definition home_of (b : Bootstrap) (well_known homeset_prop : string) : M string :=
  on_wire (if bo_direct b then homeset_direct (bo_client b) (bo_origin b) homeset_prop
           else discover_homeset (bo_client b) well_known homeset_prop).
Definition discover (p : Bootstrap * Bootstrap) : M (string * string) :=
  let! carddav := home_of (fst p) "/.well-known/carddav" "addressbook-home-set" in
  let! caldav := home_of (snd p) "/.well-known/caldav" "calendar-home-set" in
  ret (carddav, caldav).
Definition discover_homesets (email password : string) : M (string * string) :=
  match bootstrap_origins (rsplit_next "@" email) email password with
  | None => throw (DavProtocol "could not build DAV clients")
  | Some p => discover p
  end.
Definition set_dav_urls (carddav caldav : string) (r : MailAccountRow) : MailAccountRow :=
  let x := ma_extras r in
  mkMailAccount (ma_id r) (ma_user_id r) (ma_display_name r) (ma_email_address r) (ma_protocol r) (ma_auth_type r) (ma_credential r)
    (ma_imap_host r) (ma_imap_port r) (ma_imap_security r) (ma_jmap_base_url r) (ma_smtp_host r) (ma_smtp_port r) (ma_smtp_security r)
    (ma_receive_protocol r) (ma_send_protocol r) (ma_is_active r) (ma_sync_enabled r)
    (mkExtras (ax_signature x) (Some carddav) (Some caldav) (ax_pim_credential x)).
(** A statement over the accounts. *)
Definition account_stmt {A} (f : list MailAccountRow -> A * list MailAccountRow) : M A :=
  map_err (fun _ => db_error) (on_desk (stmt (fun d =>
    let '(a, l) := f (accounts d) in (a, Desk.set_ow (set_rows l (dk_ow d)) d)))).
Definition persist_dav_urls (account_id carddav caldav : string) : M unit :=
  account_stmt (fun l => (tt, update_rows account_id (set_dav_urls carddav caldav) l)).
Definition try_auto_discover_pim (account_id email password auth_type : string) : M (option (string * string)) :=
  if negb (should_auto_discover_pim auth_type) then ret None else
  let! found := unless_panic (discover_homesets email password) in
  match found with
  | Some (carddav, caldav) =>
      let! saved := attempt (persist_dav_urls account_id carddav caldav) in
      ret (match saved with Ok _ => Some (carddav, caldav) | Err _ => None end)
  | None => ret None
  end.
End Engine.

(** ** Well-formed tables *)

Definition contact_key (c : ContactRow) : string * option string := (ct_account c, ct_external c).
Definition event_key (e : EventRow) : string * option string := (er_account e, er_external e).
(** The rows of the other accounts. *)
Definition rows_but {A} (account : A -> string) (a : string) (l : list A) : list A := List.filter (fun x => negb (String.eqb (account x) a)) l.

Section Table.
Context `{StoreLib} {Hlaws : StoreLaws} {A B : Type} (id : A -> string) (key : A -> B) (account : A -> string).
(** One row per key, and no id that will be drawn again. *)
Record table_ok (seq : N) (l : list A) : Prop := {
  tb_ids : NoDup (id <$> l);
  tb_keys : NoDup (key <$> l);
  tb_new n : (seq <= n)%N -> store_uuid n ∉ id <$> l }.
Lemma nodup_snoc {C} (l : list C) x : NoDup l -> x ∉ l -> NoDup (l ++ [x]).
Proof using Type. intros Hl Hx. apply NoDup_app. split_and!; [done| |apply NoDup_singleton]. intros y Hy ->%list_elem_of_singleton. done. Qed.
Lemma table_add seq l x : table_ok seq l -> id x = store_uuid seq -> key x ∉ key <$> l -> table_ok (N.succ seq) (l ++ [x]).
Proof using Hlaws.
  intros [Hi Hk Hn] Hx Hnew. split; rewrite ?fmap_app; [apply nodup_snoc; [done|]; cbn; rewrite Hx; by apply Hn|by apply nodup_snoc|].
  intros n Hle. cbn. rewrite not_elem_of_app, list_elem_of_singleton, Hx. split; [apply Hn; lia|]. intros He%store_uuid_inj. lia.
Qed.
Lemma table_map seq l f : (forall x, id (f x) = id x /\ key (f x) = key x) -> table_ok seq l -> table_ok seq (map f l).
Proof using Type.
  intros Hf [Hi Hk Hn].
  assert (id <$> map f l = id <$> l) as E1 by (rewrite <-list_fmap_compose; apply list_fmap_ext; intros ? x _; apply Hf).
  assert (key <$> map f l = key <$> l) as E2 by (rewrite <-list_fmap_compose; apply list_fmap_ext; intros ? x _; apply Hf).
  split; rewrite ?E1, ?E2; done.
Qed.
Lemma sublist_filter (p : A -> bool) l : sublist (List.filter p l) l.
Proof using Type. induction l as [|x l IH]; cbn; [constructor|]. destruct (p x); by constructor. Qed.
Lemma table_filter seq l p : table_ok seq l -> table_ok seq (List.filter p l).
Proof using Type.
  intros [Hi Hk Hn]. split.
  - eapply sublist_NoDup; [exact Hi|]. apply fmap_sublist, sublist_filter.
  - eapply sublist_NoDup; [exact Hk|]. apply fmap_sublist, sublist_filter.
  - intros n Hle (x & Hx & Hin)%list_elem_of_fmap. apply (Hn n Hle). rewrite Hx. apply list_elem_of_fmap_2.
    apply list_elem_of_In, filter_In in Hin as [Hin _]. by apply list_elem_of_In.
Qed.
Lemma table_later seq seq' l : (seq <= seq')%N -> table_ok seq l -> table_ok seq' l.
Proof using Type. intros Hle [Hi Hk Hn]. split; [done|done|]. intros n Hn'. apply Hn. lia. Qed.

Lemma rows_but_add a l x : account x = a -> rows_but account a (l ++ [x]) = rows_but account a l.
Proof using Type. intros Hx. unfold rows_but. rewrite List.filter_app. cbn. by rewrite Hx, String.eqb_refl, app_nil_r. Qed.
Lemma rows_but_map a l (p : A -> bool) f : (forall x, x ∈ l -> p x = true -> account x = a) -> (forall x, account (f x) = account x) ->
  rows_but account a (map (fun x => if p x then f x else x) l) = rows_but account a l.
Proof using Type.
  intros Hp Hf. unfold rows_but. induction l as [|x l IH]; [done|]. cbn. rewrite IH by (intros y Hy; apply Hp; by right).
  destruct (p x) eqn:Hx; [|done]. by rewrite Hf, (Hp x (list_elem_of_here _ _) Hx), String.eqb_refl.
Qed.
Lemma rows_but_filter a l p : (forall x, p x = false -> account x = a) -> rows_but account a (List.filter p l) = rows_but account a l.
Proof using Type.
  intros Hp. unfold rows_but. induction l as [|x l IH]; [done|]. cbn. destruct (p x) eqn:Hx; cbn; rewrite IH; [done|].
  by rewrite (Hp x Hx), String.eqb_refl.
Qed.
End Table.

Lemma find_unique {A B} (key : A -> B) (p : A -> bool) l x k :
  (forall a, p a = true <-> key a = k) -> NoDup (key <$> l) -> List.find p l = Some x <-> x ∈ l /\ key x = k.
Proof.
  intros Hp Hnd. split; [intros [Hi Hx]%find_some; split; [by apply list_elem_of_In|by apply Hp]|].
  intros [Hx Hk]. destruct (List.find p l) as [y|] eqn:Hf.
  - apply find_some in Hf as [Hy Hpy]. f_equal. apply (same_key key l); [done|by apply list_elem_of_In|done|]. by rewrite Hk, (proj1 (Hp y) Hpy).
  - exfalso. apply list_elem_of_In in Hx. apply (List.find_none _ _ Hf) in Hx. by rewrite (proj2 (Hp x) Hk) in Hx.
Qed.
Lemma find_absent {A B} (key : A -> B) (p : A -> bool) l k :
  (forall a, p a = true <-> key a = k) -> List.find p l = None -> k ∉ key <$> l.
Proof.
  intros Hp Hf (x & -> & Hx)%list_elem_of_fmap. apply list_elem_of_In in Hx. apply (List.find_none _ _ Hf) in Hx.
  by rewrite (proj2 (Hp x) eq_refl) in Hx.
Qed.
Lemma contact_at_key a h c : contact_at a h c = true <-> contact_key c = (a, Some h).
Proof. unfold contact_at, contact_key. rewrite andb_true_iff, String.eqb_eq, bool_decide_eq_true. split; [by intros [-> ->]|by intros [= -> ->]]. Qed.
Lemma event_at_key a h e : event_at a h e = true <-> event_key e = (a, Some h).
Proof. unfold event_at, event_key. rewrite andb_true_iff, String.eqb_eq, bool_decide_eq_true. split; [by intros [-> ->]|by intros [= -> ->]]. Qed.

(** ** What one account's sync may touch *)

Section Scope.
Context {K R T : Type} `{JmapWire T} `{StoreLib} `{!StoreLaws} `{JsonLib} `{JobLib} `{CivilLib} `{CryptoLib} `{UrlLib} `{UrlJoin} `{DavNet T} `{UpperLib}.
Local Abbreviation W := (office K R T).
Local Abbreviation M := (io W DavError).
Implicit Types w : W.
Context (account : string).

Definition next_seq w : N := ml_seq (dk_mail (of_desk w)).
Record tables_ok (seq : N) (t : pim_tables) : Prop := {
  to_contacts : table_ok ct_id contact_key seq (pt_contacts t);
  to_events : table_ok er_id event_key seq (pt_events t);
  to_calendars : table_ok cl_id cl_id seq (pt_calendars t) }.
Record tables_scoped (t t' : pim_tables) : Prop := {
  ts_contacts : rows_but ct_account account (pt_contacts t') = rows_but ct_account account (pt_contacts t);
  ts_events : rows_but er_account account (pt_events t') = rows_but er_account account (pt_events t);
  ts_calendars : rows_but cl_account account (pt_calendars t') = rows_but cl_account account (pt_calendars t);
  ts_cursors : rows_but cu_account account (pt_cursors t') = rows_but cu_account account (pt_cursors t) }.
Definition pim_ok w : Prop := tables_ok (next_seq w) (of_pim w).
Definition urls_only (r r' : MailAccountRow) : Prop := r' = r \/ ma_id r = account /\ exists c l, r' = set_dav_urls c l r.
(** Mail is untouched, and so is every row of another account. *)
Record pim_scoped w w' : Prop := {
  ps_seq : (next_seq w <= next_seq w')%N;
  ps_messages : ml_messages (dk_mail (of_desk w')) = ml_messages (dk_mail (of_desk w));
  ps_folders : ml_folders (dk_mail (of_desk w')) = ml_folders (dk_mail (of_desk w));
  ps_accounts : Forall2 urls_only (accounts (of_desk w)) (accounts (of_desk w'));
  ps_tables : tables_scoped (of_pim w) (of_pim w') }.
Definition pim_step w w' : Prop := pim_ok w -> pim_ok w' /\ pim_scoped w w'.

Lemma tables_refl t : tables_scoped t t.
Proof using Type. done. Qed.
Lemma urls_refl l : Forall2 urls_only l l.
Proof using Type. induction l; constructor; [by left|done]. Qed.
Lemma urls_trans l1 l2 l3 : Forall2 urls_only l1 l2 -> Forall2 urls_only l2 l3 -> Forall2 urls_only l1 l3.
Proof using Type.
  intros H12. revert l3. induction H12 as [|x y l1 l2 Hxy _ IH]; intros l3 H23; [by inv H23|].
  apply Forall2_cons_inv_l in H23 as (z & l3' & Hyz & H23 & ->). constructor; [|by apply IH].
  destruct Hxy as [->|(Hx & c & l & ->)]; [done|]. destruct Hyz as [->|(_ & c' & l' & ->)]; right; (split; [done|]); by eexists _, _.
Qed.
#[export] Instance pim_pre : PreOrder pim_step.
Proof.
  split.
  - intros w Ho. split; [done|]. split; [lia|done|done|apply urls_refl|done].
  - intros x y z Hxy Hyz Hx. destruct (Hxy Hx) as [Hy [? ? ? ? [? ? ? ?]]]. destruct (Hyz Hy) as [Hz [? ? ? ? [? ? ? ?]]]. split; [done|].
    split; [lia|congruence|congruence|by eapply urls_trans|split; congruence].
Qed.

(** A step is a change of the tables and of the id sequence. *)
Lemma step_tables w w' : (next_seq w <= next_seq w')%N ->
  ml_messages (dk_mail (of_desk w')) = ml_messages (dk_mail (of_desk w)) -> ml_folders (dk_mail (of_desk w')) = ml_folders (dk_mail (of_desk w)) ->
  Forall2 urls_only (accounts (of_desk w)) (accounts (of_desk w')) ->
  (pim_ok w -> tables_ok (next_seq w') (of_pim w') /\ tables_scoped (of_pim w) (of_pim w')) -> pim_step w w'.
Proof using Type. intros ? ? ? ? Ht Ho. destruct (Ht Ho) as [? ?]. by split. Qed.
Lemma step_same w w' : of_pim w' = of_pim w -> (next_seq w <= next_seq w')%N ->
  ml_messages (dk_mail (of_desk w')) = ml_messages (dk_mail (of_desk w)) -> ml_folders (dk_mail (of_desk w')) = ml_folders (dk_mail (of_desk w)) ->
  Forall2 urls_only (accounts (of_desk w)) (accounts (of_desk w')) -> pim_step w w'.
Proof using Type.
  intros Hp Hs Hm Hf Ha. apply step_tables; [done..|]. rewrite Hp. intros [? ? ?]. split; [|done]. split; by eapply table_later.
Qed.
Lemma step_wire {E A} (m : io T E A) : preserves pim_step (on_wire (K := K) (R := R) m).
Proof using Type.
  intros w r w' Hr. unfold on_wire, on_desk, Desk.on_net in Hr. destruct (m (net (of_desk w))) as [x n]. injection Hr as _ <-.
  apply step_same; [done|unfold next_seq; cbn; lia|done|done|apply urls_refl].
Qed.
Lemma mstmt_run w r db : mstmt (fun db => (tt, db)) (dk_mail (of_desk w)) = (r, db) ->
  ml_seq db = next_seq w /\ ml_messages db = ml_messages (dk_mail (of_desk w)) /\ ml_folders db = ml_folders (dk_mail (of_desk w)).
Proof using Type. unfold mstmt. destruct (ml_fuse _) as [[|n]|]; intros [= _ <-]; done. Qed.
Lemma pstmt_run {E A} (down : E) (f : pim_tables -> A * pim_tables) w r w' : pstmt (K := K) (R := R) (T := T) down f w = (r, w') ->
  exists db, ml_seq db = next_seq w /\ ml_messages db = ml_messages (dk_mail (of_desk w)) /\ ml_folders db = ml_folders (dk_mail (of_desk w)) /\
    let d := Desk.set_mail db (of_desk w) in
    (r = Err down /\ w' = mkOffice d (of_pim w) \/ exists a t, f (of_pim w) = (a, t) /\ r = Ok a /\ w' = mkOffice d t).
Proof using Type.
  unfold pstmt. destruct (mstmt _ _) as [x db] eqn:Hm. pose proof (mstmt_run _ _ _ Hm) as (? & ? & ?).
  destruct x as [u|e]; [destruct (f _) as [a t] eqn:Hf|]; intros [= <- <-]; exists db; split_and!; try done; [right; by exists a, t|by left].
Qed.
(** A statement after [n] drawn ids, when its change of the tables is right. *)
Lemma step_write {E A} (down : E) (f : pim_tables -> A * pim_tables) w0 w r w' : pstmt (K := K) (R := R) (T := T) down f w = (r, w') ->
  pim_step w0 w ->
  (pim_ok w0 -> pim_ok w -> tables_ok (next_seq w) (snd (f (of_pim w))) /\ tables_scoped (of_pim w) (snd (f (of_pim w)))) -> pim_step w0 w'.
Proof using Type.
  intros (db & Hs & Hm & Hfo & Hr)%pstmt_run Hw Hf.
  assert (pim_step w (mkOffice (Desk.set_mail db (of_desk w)) (of_pim w))) as Hd.
  { apply step_same; unfold next_seq; cbn; [done|by rewrite Hs|done|done|apply urls_refl]. }
  destruct Hr as [[_ ->]|(a & t & Hft & _ & ->)]; [by trans w|]. intros Ho0. destruct (Hw Ho0) as [Ho _].
  refine (transitivity Hw _ Ho0). apply step_tables; unfold next_seq; cbn; [by rewrite Hs|done|done|apply urls_refl|]. intros _. rewrite Hs.
  specialize (Hf Ho0 Ho). by rewrite Hft in Hf.
Qed.
Lemma step_pstmt {E A} (down : E) (f : pim_tables -> A * pim_tables) :
  (forall n t, tables_ok n t -> tables_ok n (snd (f t)) /\ tables_scoped t (snd (f t))) -> preserves pim_step (pstmt (K := K) (R := R) (T := T) down f).
Proof using Type. intros Hf w r w' Hr. eapply step_write; [exact Hr|reflexivity|]. intros _. by apply Hf. Qed.
Lemma step_pread {E A} (down : E) (f : pim_tables -> A) : preserves pim_step (pread (K := K) (R := R) (T := T) down f).
Proof using Type. apply step_pstmt. intros n t Ht. by split. Qed.
Lemma step_uuid {E} : preserves pim_step (fresh_uuid (K := K) (R := R) (T := T) (E := E)).
Proof using Type. intros w r w' [= _ <-]. apply step_same; [done|unfold next_seq; cbn; lia|done|done|apply urls_refl]. Qed.

Lemma ok_contacts n t l : tables_ok n t -> table_ok ct_id contact_key n l -> tables_ok n (set_contacts l t).
Proof using Type. by intros [? ? ?]. Qed.
Lemma ok_events n t l : tables_ok n t -> table_ok er_id event_key n l -> tables_ok n (set_events l t).
Proof using Type. by intros [? ? ?]. Qed.

(** Rows at an id, when the row found there is of the account. *)
Lemma update_contacts_ok n t row f : tables_ok n t -> row ∈ pt_contacts t -> ct_account row = account ->
  (forall c, ct_id (f c) = ct_id c /\ contact_key (f c) = contact_key c) ->
  tables_ok n (update_contacts (ct_id row) f t) /\ tables_scoped t (update_contacts (ct_id row) f t).
Proof using Type.
  intros Ho Hr Ha Hf. split.
  - apply ok_contacts; [done|]. apply table_map; [|apply Ho]. intros c. by destruct (String.eqb _ _).
  - split; [|done..]. apply rows_but_map.
    + intros c Hc Hid%String.eqb_eq. replace c with row; [done|]. apply (same_key ct_id (pt_contacts t)); try done. apply Ho.
    + intros c. destruct (Hf c) as [_ Hk]. by injection Hk.
Qed.
Lemma update_events_ok n t row f : tables_ok n t -> row ∈ pt_events t -> er_account row = account ->
  (forall e, er_id (f e) = er_id e /\ event_key (f e) = event_key e) ->
  tables_ok n (update_events (er_id row) f t) /\ tables_scoped t (update_events (er_id row) f t).
Proof using Type.
  intros Ho Hr Ha Hf. split.
  - apply ok_events; [done|]. apply table_map; [|apply Ho]. intros e. by destruct (String.eqb _ _).
  - split; [done| |done..]. apply rows_but_map.
    + intros e He Hid%String.eqb_eq. replace e with row; [done|]. apply (same_key er_id (pt_events t)); try done. apply Ho.
    + intros e. destruct (Hf e) as [_ Hk]. by injection Hk.
Qed.

(** A row looked up, then what depends on it. *)
Lemma step_look {E A B} (down : E) (f : pim_tables -> A) (k : A -> io W E B) :
  (forall w, preserves (fun w1 w' => w1 = w -> pim_step w w') (k (f (of_pim w)))) -> preserves pim_step (bind (pread (K := K) (R := R) (T := T) down f) k).
Proof using Type.
  intros Hk w r w' [(e & He & _)|(a & w1 & Ha & Hr)]%bind_inv; [by eapply step_pread|]. trans w1; [by eapply step_pread|].
  assert (a = f (of_pim w1)) as -> by (apply pstmt_run in Ha as (? & _ & _ & _ & [[? _]|(? & ? & [= <- <-] & [= ->] & ->)]); done).
  by eapply Hk.
Qed.
Lemma step_fresh {E B} (k : string -> io W E B) w r w' : bind fresh_uuid k w = (r, w') ->
  exists w1, k (store_uuid (next_seq w)) w1 = (r, w') /\ of_pim w1 = of_pim w /\ next_seq w1 = N.succ (next_seq w) /\ pim_step w w1.
Proof using Type.
  cbn. intros Hr. eexists. split; [exact Hr|]. split_and!; [done|done|]. by eapply (step_uuid (E := E)).
Qed.

Section Upserts.
Context (store_photo : PhotoStore (K := K) (R := R) (T := T)) (Hphoto : forall p w, pim_step w (snd (store_photo p w))).
Lemma step_photo p : preserves pim_step (store_photo_of store_photo p).
Proof using Hphoto.
  destruct p as [p|]; [|apply pres_ret; apply _]. intros w r w'. cbn. specialize (Hphoto p w). destruct (store_photo p w). by intros [= _ <-].
Qed.
Lemma step_upsert_contact collection item : preserves pim_step (upsert_contact account collection item store_photo).
Proof using Type*.
  unfold upsert_contact. destruct (di_data item) as [vcard|]; [|apply pres_ret; apply _].
  apply pres_bind; [apply _|apply step_photo|]. intros path. apply step_look. intros w w1 r w' Hr ->.
  destruct (List.find _ _) as [row|] eqn:Hf.
  - apply find_some in Hf as [Hin%list_elem_of_In [Ha%String.eqb_eq _]%andb_true_iff].
    destruct (same_etag _ _); [by injection Hr as _ <-|]. eapply step_write; [exact Hr|reflexivity|]. intros _ Ho.
    by apply update_contacts_ok.
  - apply step_fresh in Hr as (w1 & Hr & Hp & Hs & Hstep). eapply step_write; [exact Hr|exact Hstep|]. intros [Hc ? ?] [Hc' ? ?]. cbn. rewrite Hp in *. split.
    + apply ok_contacts; [done|]. rewrite Hs. apply table_add; [done|done|]. eapply find_absent; [|exact Hf]. intros c. apply contact_at_key.
    + split; [|done..]. by apply rows_but_add.
Qed.
End Upserts.

Lemma step_upsert_event calendar_id collection item : preserves pim_step (upsert_event (K := K) (R := R) (T := T) account calendar_id collection item).
Proof using Type*.
  unfold upsert_event. destruct (di_data item) as [ical|]; [|apply pres_ret; apply _].
  apply step_look. intros w w1 r w' Hr ->. destruct (List.find _ _) as [row|] eqn:Hf.
  - apply find_some in Hf as [Hin%list_elem_of_In [Ha%String.eqb_eq _]%andb_true_iff]. destruct (same_etag _ _); [by injection Hr as _ <-|].
    unfold bind, lift in Hr. destruct (normalize_ical_dt _) as [start|]; [|by injection Hr as _ <-].
    destruct (normalize_ical_dt _) as [end_|]; [|by injection Hr as _ <-]. eapply step_write; [exact Hr|reflexivity|]. intros _ Ho.
    by apply update_events_ok.
  - apply step_fresh in Hr as (w1 & Hr & Hp & Hs & Hstep).
    unfold bind, lift in Hr. destruct (normalize_ical_dt _) as [start|]; [|by injection Hr as _ <-].
    destruct (normalize_ical_dt _) as [end_|]; [|by injection Hr as _ <-].
    eapply step_write; [exact Hr|exact Hstep|]. intros [? He ?] [? He' ?]. cbn. rewrite Hp in *. split.
    + apply ok_events; [done|]. rewrite Hs. apply table_add; [done|done|]. eapply find_absent; [|exact Hf]. intros c. apply event_at_key.
    + split; [done| |done..]. by apply rows_but_add.
Qed.
Lemma step_ensure collection name : preserves pim_step (ensure_calendar (K := K) (R := R) (T := T) account collection name).
Proof using Type*.
  unfold ensure_calendar. apply pres_bind; [apply _|apply pres_attempt, step_pread|]. intros row.
  assert (preserves pim_step (let! id := fresh_uuid in
    let! _ := attempt (F := DavError) (pwrite (K := K) (R := R) (T := T) db_error (fun t =>
        set_calendars (pt_calendars t ++ [mkCalendar id account (Some collection) name None None None true None])%list t)) in
      ret (E := DavError) id)) as Hnew.
  { intros w r w' (w1 & Hr & Hp & Hs & Hstep)%step_fresh. apply bind_inv in Hr as [(e & He & _)|(u & w2 & Ha & Hr)]; [by unfold attempt in He; destruct (pwrite _ _ _)|].
    injection Hr as _ <-. unfold attempt in Ha. destruct (pwrite _ _ w1) as [x w3] eqn:Hw. injection Ha as _ <-.
    eapply step_write; [exact Hw|exact Hstep|]. intros [? ? Hc] [? ? Hc']. cbn. rewrite Hp in *. split.
    - split; [done|done|]. cbn. rewrite Hs. apply table_add; [done|done|]. cbn. apply Hc. lia.
    - split; [done|done| |done]. by apply rows_but_add. }
  destruct row as [[row|]|]; [by apply pres_ret; apply _|exact Hnew..].
Qed.
Lemma step_remove_contact h : preserves pim_step (tombstone_contact (K := K) (R := R) (T := T) account h).
Proof using Type.
  apply pres_bind; [apply _|apply pres_attempt, step_pstmt|intros _; apply pres_ret; apply _]. intros n t Ho. split.
  - apply ok_contacts; [done|]. apply table_filter, Ho.
  - split; [|done..]. apply rows_but_filter. intros c [Ha%String.eqb_eq _]%negb_false_iff%andb_true_iff. done.
Qed.
Lemma step_remove_event h : preserves pim_step (remove_event (K := K) (R := R) (T := T) account h).
Proof using Type.
  apply pres_bind; [apply _|apply pres_attempt, step_pstmt|intros _; apply pres_ret; apply _]. intros n t Ho. split.
  - apply ok_events; [done|]. apply table_filter, Ho.
  - split; [done| |done..]. apply rows_but_filter. intros c [Ha%String.eqb_eq _]%negb_false_iff%andb_true_iff. done.
Qed.
Lemma step_save_cursor kind token : preserves pim_step (save_cursor (K := K) (R := R) (T := T) account kind token).
Proof using Type.
  apply pres_bind; [apply _|apply pres_attempt, step_pstmt|intros _; apply pres_ret; apply _]. intros n t Ho. split; [by destruct Ho|].
  split; [done..|]. cbn. unfold put_cursor. destruct (existsb _ _); [|by apply rows_but_add].
  apply rows_but_map; [|done]. intros c _ [Ha%String.eqb_eq _]%andb_true_iff. done.
Qed.

#[local] Hint Extern 1 (preserves pim_step _) => first [apply step_wire|apply step_pread|apply step_uuid|apply step_save_cursor
  |apply step_remove_contact|apply step_remove_event|apply step_ensure|apply step_upsert_event] : preserve.
Lemma step_unless_panic {A} (m : M A) : preserves pim_step m -> preserves pim_step (unless_panic (K := K) (R := R) (T := T) m).
Proof using Type. intros Hm. unfold unless_panic. preserve. Qed.
Lemma step_load_cursor kind : preserves pim_step (load_cursor (K := K) (R := R) (T := T) account kind).
Proof using Type. unfold load_cursor. preserve. Qed.
Lemma step_load_token id : preserves pim_step (load_calendar_token (K := K) (R := R) (T := T) id).
Proof using Type. unfold load_calendar_token. preserve. Qed.
Lemma step_homeset c stored path prop : preserves pim_step (resolve_homeset (K := K) (R := R) (T := T) c stored path prop).
Proof using Type. unfold resolve_homeset. preserve. Qed.
Lemma step_delta c collection prior : preserves pim_step (delta (K := K) (R := R) (T := T) c collection prior).
Proof using Type.
  unfold delta. apply pres_bind; [apply _|apply step_unless_panic, step_wire|]. intros answer. preserve.
Qed.
Lemma step_items store items : (forall item, preserves pim_step (store item)) -> preserves pim_step (store_items (K := K) (R := R) (T := T) store items).
Proof using Type.
  intros Hs. induction items as [|item items IH]; cbn [store_items]; [preserve|].
  apply pres_bind; [apply _|apply step_unless_panic, Hs|]. intros ?. apply pres_bind; [apply _|exact IH|]. intros ?. preserve.
Qed.
Lemma step_removed remove hrefs : (forall h, preserves pim_step (remove h)) -> preserves pim_step (each_removed (K := K) (R := R) (T := T) remove hrefs).
Proof using Type. intros Hs. induction hrefs as [|h hrefs IH]; cbn [each_removed]; preserve. Qed.
#[local] Hint Extern 1 (preserves pim_step _) => first [apply step_load_cursor|apply step_load_token|apply step_homeset|apply step_delta] : preserve.
Lemma step_calendars c : forall collections, preserves pim_step (sync_calendars_of (K := K) (R := R) (T := T) c account collections).
Proof using Type*.
  induction collections as [|[collection name] collections IH]; cbn [sync_calendars_of]; [preserve|].
  apply pres_bind; [apply _|preserve|]. intros id.
  preserve; [apply step_items|apply step_removed]; intros; preserve.
Qed.
Lemma step_persist_urls c l : preserves pim_step (persist_dav_urls (K := K) (R := R) (T := T) account c l).
Proof using Type.
  unfold persist_dav_urls, account_stmt. apply pres_map_err. intros w r w'. unfold on_desk, Desk.stmt.
  destruct (mstmt _ _) as [x db] eqn:Hm. pose proof (mstmt_run _ _ _ Hm) as (Hs & Hme & Hf).
  destruct x; intros [= _ <-]; apply step_same; unfold next_seq; cbn; try done; try (by rewrite Hs); [|apply urls_refl].
  unfold update_rows. induction (accounts _) as [|y ys IH]; cbn; constructor; [|done].
  destruct (account_is account y) eqn:Hy; [|by left]. right. split; [by apply String.eqb_eq|]. by eexists _, _.
Qed.
Lemma step_discover email password auth_type :
  preserves pim_step (try_auto_discover_pim (K := K) (R := R) (T := T) account email password auth_type).
Proof using Type.
  unfold try_auto_discover_pim. destruct (negb _); [preserve|]. apply pres_bind; [apply _| |].
  - apply step_unless_panic. unfold discover_homesets, discover, home_of. preserve.
  - intros [[c l]|]; [|preserve]. apply pres_bind; [apply _|apply pres_attempt, step_persist_urls|]. intros ?. preserve.
Qed.

Lemma step_sync_carddav store_photo c url : (forall p w, pim_step w (snd (store_photo p w))) ->
  preserves pim_step (sync_carddav (K := K) (R := R) (T := T) c account url store_photo).
Proof using Type*.
  intros Hphoto. unfold sync_carddav, sync_book, apply_book. preserve; [apply step_items|apply step_removed]; intros; preserve; by apply step_upsert_contact.
Qed.
Lemma step_sync_caldav c url : preserves pim_step (sync_caldav (K := K) (R := R) (T := T) c account url).
Proof using Type*. unfold sync_caldav. preserve; apply step_calendars. Qed.
Lemma step_create_contact url email password fields : preserves pim_step (create_dav_contact (K := K) (R := R) (T := T) account url email password fields).
Proof using Type*. unfold create_dav_contact, first_addressbook_url. preserve; by apply step_upsert_contact. Qed.
Lemma step_create_event calendar_id url email password fields :
  preserves pim_step (create_dav_event (K := K) (R := R) (T := T) account calendar_id url email password fields).
Proof using Type*. unfold create_dav_event. preserve. Qed.

(** What the routes and the timer run for one account. *)
Inductive PimCall :=
| SyncBook (c : DavClient) (url : option string)
| SyncCalendars (c : DavClient) (url : option string)
| CreateContact (url email password : string) (fields : NewContact)
| CreateEvent (calendar_id url email password : string) (fields : NewEvent)
| DiscoverUrls (email password auth_type : string).
Definition called (store_photo : PhotoStore (K := K) (R := R) (T := T)) (op : PimCall) : M unit :=
  match op with
  | SyncBook c url => let! _ := sync_carddav c account url store_photo in ret tt
  | SyncCalendars c url => let! _ := sync_caldav c account url in ret tt
  | CreateContact url email password fields => let! _ := create_dav_contact account url email password fields in ret tt
  | CreateEvent calendar_id url email password fields => let! _ := create_dav_event account calendar_id url email password fields in ret tt
  | DiscoverUrls email password auth_type => let! _ := try_auto_discover_pim account email password auth_type in ret tt
  end.

(** C25: Whatever a contact or calendar server answers, and wherever the database fails, a sync,
    a created item or a discovery for one account leaves the mail, and the contacts, events,
    calendars, sync tokens and settings of every other account, exactly as they were; and there
    is still one row per item of the server, with ids that are never drawn again. *)
Theorem pim_stays_in_its_account store_photo op w r w' : (forall p w, pim_step w (snd (store_photo p w))) ->
  pim_ok w -> called store_photo op w = (r, w') -> pim_ok w' /\ pim_scoped w w'.
Proof using Type*.
  intros Hphoto Ho Hr. revert Ho. change (pim_step w w'). revert Hr. revert w r w'.
  change (preserves pim_step (called store_photo op)).
  destruct op; cbn [called]; (apply pres_bind; [apply _| |intros ?; preserve]).
  - by apply step_sync_carddav.
  - apply step_sync_caldav.
  - apply step_create_contact.
  - apply step_create_event.
  - apply step_discover.
Qed.
End Scope.

(** ** What a book sync leaves *)

Lemma find_snoc {A} (p : A -> bool) l x : List.find p (l ++ [x]) = match List.find p l with Some y => Some y | None => if p x then Some x else None end.
Proof. induction l as [|y l IH]; cbn; [done|]. by destruct (p y). Qed.
Lemma find_edited {A} (p q : A -> bool) (f : A -> A) l : (forall x, p (f x) = p x) ->
  List.find p (map (fun x => if q x then f x else x) l) = option_map (fun x => if q x then f x else x) (List.find p l).
Proof. intros Hf. induction l as [|x l IH]; cbn; [done|]. destruct (q x) eqn:Hq; rewrite ?Hf; destruct (p x); cbn; rewrite ?Hq; done. Qed.
Lemma find_kept {A} (p q : A -> bool) l : (forall x, p x = true -> q x = true) -> List.find p (List.filter q l) = List.find p l.
Proof. intros Hq. induction l as [|x l IH]; cbn; [done|]. destruct (q x) eqn:Hx; cbn; [by rewrite IH|]. destruct (p x) eqn:Hp; [by rewrite (Hq x Hp) in Hx|done]. Qed.
Lemma find_dropped {A} (p q : A -> bool) l : (forall x, p x = true -> q x = false) -> List.find p (List.filter q l) = None.
Proof. intros Hq. induction l as [|x l IH]; cbn; [done|]. destruct (q x) eqn:Hx; cbn; [|done]. destruct (p x) eqn:Hp; [by rewrite (Hq x Hp) in Hx|done]. Qed.
Lemma cursor_find a k k' token l : List.find (cursor_is a k') (put_cursor a k token l) =
  if String.eqb k' k then Some (mkCursor a k token) else List.find (cursor_is a k') l.
Proof.
  assert (forall c, cursor_is a k c = true -> cursor_is a k' c = String.eqb k' k) as Hother.
  { unfold cursor_is. intros c [Ha Hk%String.eqb_eq]%andb_true_iff. by rewrite Ha, Hk, String.eqb_sym. }
  unfold put_cursor. destruct (existsb _ l) eqn:He; rewrite MailStore.existsb_find in He.
  - assert (forall c, cursor_is a k' (mkCursor (cu_account c) (cu_kind c) token) = cursor_is a k' c) as Hc by done.
    rewrite (find_edited _ (cursor_is a k) (fun c => mkCursor (cu_account c) (cu_kind c) token)) by done.
    destruct (String.eqb k' k) eqn:Hk; [apply String.eqb_eq in Hk as ->|].
    + destruct (List.find (cursor_is a k) l) as [c|] eqn:Hf; [|done]. apply find_some in Hf as [_ Hf]. cbn. rewrite Hf.
      apply andb_true_iff in Hf as [<-%String.eqb_eq <-%String.eqb_eq]. done.
    + destruct (List.find (cursor_is a k') l) as [c|] eqn:Hf; [|done]. cbn. apply find_some in Hf as [_ Hf].
      destruct (cursor_is a k c) eqn:Hq; [|done]. by rewrite (Hother c Hq) in Hf.
  - rewrite find_snoc. destruct (List.find (cursor_is a k) l) eqn:Hf; [done|]. destruct (String.eqb k' k) eqn:Hk.
    + apply String.eqb_eq in Hk as ->. rewrite Hf. unfold cursor_is. cbn. by rewrite !String.eqb_refl.
    + assert (cursor_is a k' (mkCursor a k token) = false) as ->; [|by destruct (List.find (cursor_is a k') l)].
      unfold cursor_is. cbn. by rewrite String.eqb_refl, String.eqb_sym, Hk.
Qed.

Section Mirror.
Context {K R T : Type} `{JmapWire T} `{StoreLib} `{!StoreLaws} `{JsonLib} `{JobLib} `{CivilLib} `{CryptoLib} `{UrlLib} `{UrlJoin} `{DavNet T} `{UpperLib}.
Local Abbreviation W := (office K R T).
Implicit Types w : W.
Context (account collection : string) (photos : VcardPhoto -> option string).

Definition up w : Prop := ml_fuse (dk_mail (of_desk w)) = None.
Definition quiet_store : PhotoStore (K := K) (R := R) (T := T) := fun p w => (photos p, w).
Definition contact_of w (h : string) : option ContactRow := List.find (contact_at account h) (pt_contacts (of_pim w)).
Definition token_of w (kind : string) : option (option string) :=
  option_map cu_token (List.find (cursor_is account kind) (pt_cursors (of_pim w))).
(** The row of an item whose card is [vcard], given the row there was. *)
Definition mirrored (item : DavItem) (vcard : string) (before after : option ContactRow) : Prop :=
  let fields := parse_vcard_fields vcard in
  let photo := match parse_vcard_photo vcard with Some p => photos p | None => None end in
  match before with
  | Some row => after = Some (if same_etag (ct_etag row) (di_etag item) then row else refreshed_contact collection (di_etag item) vcard fields photo row)
  | None => exists id, after = Some (new_contact id account collection (di_href item) (di_etag item) vcard fields photo)
  end.
(** What one item leaves at an href. *)
Definition applied (item : DavItem) (h : string) (before after : option ContactRow) : Prop :=
  match di_data item with
  | Some vcard => if String.eqb h (di_href item) then mirrored item vcard before after else after = before
  | None => after = before
  end.
Definition settled w w' : Prop := up w' /\ pim_ok w' /\ pt_cursors (of_pim w') = pt_cursors (of_pim w).

Lemma pstmt_up {E A} (down : E) (f : pim_tables -> A * pim_tables) w : up w ->
  pstmt (K := K) (R := R) (T := T) down f w = (Ok (fst (f (of_pim w))), set_pim (snd (f (of_pim w))) w).
Proof using Type.
  unfold up, pstmt, mstmt, set_pim. intros Hu. rewrite Hu. cbn. destruct (f (of_pim w)) as [a t]. do 2 f_equal.
  destruct w as [d p]. cbn in *. destruct d as [? m]. cbn in *. destruct m. cbn in *. by subst.
Qed.
Lemma quiet_step p w : pim_step account w (snd (quiet_store p w)).
Proof using Type. done. Qed.
Lemma set_pim_same w : set_pim (of_pim w) w = w.
Proof using Type. by destruct w. Qed.
Lemma quiet_photo p w : store_photo_of quiet_store p w = (Ok (match p with Some p => photos p | None => None end), w).
Proof using Type. by destruct p. Qed.
(** The lookups after one row changed, or one was added. *)
Lemma contact_updated w row f h : pim_ok w -> contact_of w h = Some row -> (forall c, contact_key (f c) = contact_key c) ->
  forall h', contact_of (set_pim (update_contacts (ct_id row) f (of_pim w)) w) h' = if String.eqb h' h then Some (f row) else contact_of w h'.
Proof using Type.
  intros [[Hi Hk _] _ _] Hrow Hf h'. unfold contact_of in *. cbn.
  assert (forall c, contact_at account h' (f c) = contact_at account h' c) as Hat.
  { intros c. apply eq_true_iff_eq. by rewrite !contact_at_key, Hf. }
  rewrite (find_edited _ (fun c => String.eqb (ct_id c) (ct_id row)) f) by done.
  destruct (String.eqb h' h) eqn:Hh; [apply String.eqb_eq in Hh as ->; rewrite Hrow; cbn; by rewrite String.eqb_refl|].
  destruct (List.find (contact_at account h') _) as [c|] eqn:Hc; [|done]. cbn. destruct (String.eqb (ct_id c) (ct_id row)) eqn:Hid; [|done]. exfalso.
  apply find_some in Hc as [Hc Hkc], Hrow as [Hr Hkr]. apply list_elem_of_In in Hc, Hr. apply contact_at_key in Hkc, Hkr.
  apply String.eqb_eq in Hid. rewrite (same_key ct_id _ _ _ Hi Hc Hr Hid), Hkr in Hkc. injection Hkc as ->. by rewrite String.eqb_refl in Hh.
Qed.
Lemma contact_added w w' c h : pt_contacts (of_pim w') = (pt_contacts (of_pim w) ++ [c])%list -> contact_of w h = None ->
  contact_key c = (account, Some h) -> forall h', contact_of w' h' = if String.eqb h' h then Some c else contact_of w h'.
Proof using Type.
  intros Hp Hnone Hk h'. unfold contact_of in *. rewrite Hp, find_snoc. destruct (String.eqb h' h) eqn:Hh.
  - apply String.eqb_eq in Hh as ->. rewrite Hnone. by rewrite (proj2 (contact_at_key account h c) Hk).
  - destruct (List.find (contact_at account h') _); [done|]. destruct (contact_at account h' c) eqn:Hc; [|done]. apply contact_at_key in Hc.
    rewrite Hk in Hc. injection Hc as ->. by rewrite String.eqb_refl in Hh.
Qed.
(** One item of the server. *)
Lemma upsert_contact_up item w : up w -> pim_ok w ->
  exists w', upsert_contact account collection item quiet_store w = (Ok tt, w') /\ settled w w' /\
    forall h, applied item h (contact_of w h) (contact_of w' h).
Proof using Type*.
  intros Hu Ho. destruct (upsert_contact account collection item quiet_store w) as [r w'] eqn:Hr.
  pose proof (proj1 (step_upsert_contact account quiet_store quiet_step collection item w r w' Hr Ho)) as Hok. exists w'.
  revert Hr. unfold upsert_contact, applied. destruct (di_data item) as [vcard|]; [|intros [= <- <-]; by split_and!].
  unfold mirrored. cbv zeta. unfold bind at 1. rewrite quiet_photo.
  set (photo := match parse_vcard_photo vcard with Some p => photos p | None => None end).
  unfold bind at 1, pread at 1. rewrite pstmt_up by done. cbn [fst snd]. rewrite set_pim_same.
  change (List.find (contact_at account (di_href item)) (pt_contacts (of_pim w))) with (contact_of w (di_href item)).
  destruct (contact_of w (di_href item)) as [row|] eqn:Hrow.
  - destruct (same_etag _ _) eqn:He.
    + intros [= <- <-]. split_and!; [done..|]. intros h. destruct (String.eqb h (di_href item)) eqn:Hh; [|done].
      apply String.eqb_eq in Hh as ->. by rewrite Hrow, He.
    + unfold pwrite. rewrite pstmt_up by done. cbn [fst snd]. intros [= <- <-]. split_and!; [done..|]. intros h.
      rewrite (contact_updated w row _ (di_href item)) by done. destruct (String.eqb h (di_href item)) eqn:Hh; [|done].
      apply String.eqb_eq in Hh as ->. by rewrite Hrow, He.
  - unfold bind, fresh_uuid, pwrite. rewrite pstmt_up by exact Hu. cbn [fst snd]. intros [= <- <-]. split; [done|]. split; [by split|]. intros h.
    match type of Hok with pim_ok ?w' => rewrite (contact_added w w' _ (di_href item) eq_refl Hrow eq_refl) end. destruct (String.eqb h (di_href item)) eqn:Hh; [|done].
    apply String.eqb_eq in Hh as ->. rewrite Hrow. by eexists.
Qed.

Lemma settled_trans w1 w2 w3 : settled w1 w2 -> settled w2 w3 -> settled w1 w3.
Proof using Type. intros (_ & _ & E1) (Hu & Ho & E2). split_and!; [done|done|congruence]. Qed.
Definition item_at (h : string) (items : list DavItem) : option DavItem := List.find (fun item => String.eqb h (di_href item)) items.
Definition left_at (items : list DavItem) (h : string) (before after : option ContactRow) : Prop :=
  match item_at h items with Some item => applied item h before after | None => after = before end.
Lemma applied_elsewhere item h before after : String.eqb h (di_href item) = false -> applied item h before after -> after = before.
Proof using Type. unfold applied. intros ->. by destruct (di_data item). Qed.
Lemma store_items_up : forall items w, up w -> pim_ok w -> NoDup (di_href <$> items) ->
  exists w', store_items (fun item => upsert_contact account collection item quiet_store) items w = (Ok (length items), w') /\ settled w w' /\
    forall h, left_at items h (contact_of w h) (contact_of w' h).
Proof using Type*.
  induction items as [|item items IH]; intros w Hu Ho Hnd; [exists w; by split_and!|]. cbn in Hnd. apply NoDup_cons in Hnd as [Hnew Hnd].
  destruct (upsert_contact_up item w Hu Ho) as (w1 & Hr & (Hu1 & Ho1 & Hc1) & Ha). destruct (IH w1 Hu1 Ho1 Hnd) as (w2 & Hr2 & Hs2 & Hl).
  exists w2. cbn [store_items]. unfold bind, unless_panic, bind, attempt. rewrite Hr. cbn. rewrite Hr2. split; [done|].
  split; [by eapply settled_trans; [split; [exact Hu1|split; [exact Ho1|exact Hc1]]|]|]. intros h.
  specialize (Ha h). specialize (Hl h). unfold left_at, item_at in *. cbn [List.find]. destruct (String.eqb h (di_href item)) eqn:Hh.
  - apply String.eqb_eq in Hh as ->. destruct (List.find _ items) as [other|] eqn:Hf; [exfalso|by rewrite Hl].
    apply find_some in Hf as [Hin%list_elem_of_In Hx%String.eqb_eq]. apply Hnew. rewrite Hx. by apply list_elem_of_fmap_2.
  - by rewrite <-(applied_elsewhere _ _ _ _ Hh Ha).
Qed.
Lemma tombstone_up h0 w : up w -> pim_ok w -> exists w', tombstone_contact account h0 w = (Ok tt, w') /\ settled w w' /\
  forall h, contact_of w' h = if String.eqb h h0 then None else contact_of w h.
Proof using Type*.
  intros Hu Ho. destruct (tombstone_contact account h0 w) as [r w'] eqn:Hr. pose proof (proj1 (step_remove_contact account h0 w r w' Hr Ho)) as Hok.
  exists w'. revert Hr. unfold tombstone_contact, bind, attempt, pwrite. rewrite pstmt_up by done. cbn. intros [= <- <-].
  split; [done|]. split; [by split|]. intros h. unfold contact_of. cbn. destruct (String.eqb h h0) eqn:Hh.
  - apply String.eqb_eq in Hh as ->. apply find_dropped. by intros c ->.
  - apply find_kept. intros c Hc%contact_at_key. destruct (contact_at account h0 c) eqn:H0c; [|done].
    apply contact_at_key in H0c. rewrite Hc in H0c. injection H0c as ->. by rewrite String.eqb_refl in Hh.
Qed.
Lemma removed_up : forall hrefs w, up w -> pim_ok w ->
  exists w', each_removed (tombstone_contact account) hrefs w = (Ok tt, w') /\ settled w w' /\
    forall h, contact_of w' h = if existsb (String.eqb h) hrefs then None else contact_of w h.
Proof using Type*.
  induction hrefs as [|h0 hrefs IH]; intros w Hu Ho; [exists w; by split_and!|].
  destruct (tombstone_up h0 w Hu Ho) as (w1 & Hr & Hs1 & Hat1). destruct (IH w1 (proj1 Hs1) (proj1 (proj2 Hs1))) as (w2 & Hr2 & Hs2 & Hat2).
  exists w2. cbn [each_removed]. unfold bind at 1. rewrite Hr. split; [exact Hr2|]. split; [by eapply settled_trans|]. intros h.
  rewrite Hat2, Hat1. cbn [existsb]. by destruct (String.eqb h h0), (existsb _ _).
Qed.

(** C26: Whatever the address book held, while the database answers every statement, the photo
    store answers, and no address comes twice among the changed cards, a sync that was given
    the changed cards and the removed addresses leaves, at every address: nothing, if it was
    removed; the card the server sent, in the row that was there (or a new one), if it changed,
    except that a row with the same ETag stays as it is; and the row there was, otherwise.  It
    counts every item and every removal, and the token of the next sync is the server's.  Nothing is
    claimed of a sync one of whose items fails to be stored: the code passes over it and saves
    the token all the same, so that item is not asked for again until it changes. *)
Theorem book_sync_mirrors items removed next_token w : up w -> pim_ok w -> NoDup (di_href <$> items) ->
  exists w', apply_book account collection quiet_store items removed next_token w = (Ok (length items, length removed), w') /\
    up w' /\ pim_ok w' /\ token_of w' "carddav" = Some next_token /\
    forall h, if existsb (String.eqb h) removed then contact_of w' h = None else left_at items h (contact_of w h) (contact_of w' h).
Proof using Type*.
  intros Hu Ho Hnd. destruct (store_items_up items w Hu Ho Hnd) as (w1 & Hr1 & (Hu1 & Ho1 & _) & Hat1).
  destruct (removed_up removed w1 Hu1 Ho1) as (w2 & Hr2 & (Hu2 & Ho2 & _) & Hat2).
  destruct (save_cursor account "carddav" next_token w2) as [r w3] eqn:Hr3.
  pose proof (proj1 (step_save_cursor account "carddav" next_token w2 r w3 Hr3 Ho2)) as Ho3. exists w3.
  unfold apply_book. unfold bind at 1. rewrite Hr1. unfold bind at 1. rewrite Hr2. unfold bind. rewrite Hr3. revert Hr3.
  unfold save_cursor, bind, attempt, pwrite. rewrite pstmt_up by done. cbn. intros [= <- <-]. split; [done|]. split; [exact Hu2|]. split; [done|].
  split; [unfold token_of; cbn; by rewrite cursor_find, String.eqb_refl|]. intros h. specialize (Hat1 h). specialize (Hat2 h).
  destruct (existsb _ _); [exact Hat2|]. unfold contact_of in *. cbn. by rewrite Hat2.
Qed.
End Mirror.

(** ** Witnesses *)

(** A DAV server that answers from a script, one body per request. *)
#[export] Instance script_dav : DavNet toy_net := fun r n =>
  match tn_replies n with
  | [] => (Err "unreachable", n)
  | body :: rest => (Ok (mkDavResp 207 (rq_url r) None (Some "e9") body), mkNet (tn_boxes n) (tn_open n) rest (tn_log n ++ [rq_body r])%list)
  end.
#[export] Instance toy_civil : CivilLib := {
  civil_instant y mo d h mi s := Some (((((y * 12 + mo) * 31 + d) * 24 + h) * 60 + mi) * 60 + s);
  utc_basic t := show_Z t; valid_ymd s := true }.
#[export] Instance toy_upper : UpperLib := to_ascii_uppercase.
Definition the_client : DavClient := mkDav "alice@x.org" "secret" "https://dav.x.org".
Definition response (body : string) : string := "<D:response>" +:+ body +:+ "</D:response>".
Definition the_home : string := response "<D:href>https://dav.x.org/ab/</D:href><C:addressbook/><C:calendar/>".
Definition the_changes : string :=
  response "<D:href>/ab/1.vcf</D:href><D:getetag>e1</D:getetag>" +:+ response "<D:href>/ab/9.vcf</D:href><D:status>HTTP/1.1 404</D:status>"
  +:+ "<D:sync-token>t1</D:sync-token>".
Definition a_card (name : string) : string := "BEGIN:VCARD" +:+ crlf +:+ "FN:" +:+ name +:+ crlf +:+ "EMAIL:carol@x.org" +:+ crlf +:+ "END:VCARD".
Definition the_items : string :=
  response ("<D:href>/ab/1.vcf</D:href><D:getetag>e1</D:getetag><C:address-data>" +:+ a_card "Carol" +:+ "</C:address-data>").
Definition a_contact (id account href : string) : ContactRow :=
  mkContact id account (Some href) (Some "") (Some "Old") None None None None (Some "https://dav.x.org/ab/") (Some "e0").
Definition the_pim : pim_tables :=
  mkPimTables [a_contact "c1" "a1" "/ab/1.vcf"; a_contact "c9" "a1" "/ab/9.vcf"; a_contact "d1" "a2" "/ab/1.vcf"] [] [] [].
Definition the_office (replies : list string) : office MemoryKv.t N toy_net := mkOffice (box_desk [] [] replies) the_pim.
Definition no_photos (_ : VcardPhoto) : option string := None.

Lemma table_toy {A B} (id : A -> string) (key : A -> B) n l :
  NoDup (id <$> l) -> NoDup (key <$> l) -> Forall (fun x => starts_with "id" (id x) = false) l -> table_ok id key n l.
Proof.
  intros Hi Hk Hf. split; [done|done|]. intros m _ (x & Hx & Hin)%list_elem_of_fmap.
  rewrite Forall_forall in Hf. apply Hf in Hin. rewrite <-Hx in Hin. cbn in Hin. by destruct (show_N m).
Qed.
Lemma the_office_ok replies : pim_ok (the_office replies).
Proof.
  split; apply table_toy; try apply NoDup_nil_2; try apply Forall_nil_2;
    first [apply (bool_decide_eq_true_1 _); vm_compute; reflexivity|repeat constructor].
Qed.
Definition synced := called "a1" (quiet_store no_photos) (SyncBook the_client (Some "https://dav.x.org/")) (the_office [the_home; the_changes; the_items]).
Lemma pim_stays_in_its_account_witness :
  map (fun c => (ct_id c, ct_display_name c)) (pt_contacts (of_pim (snd synced))) = [("c1", Some "Carol"); ("d1", Some "Old")] /\
  pim_ok (snd synced) /\ pim_scoped "a1" (the_office [the_home; the_changes; the_items]) (snd synced).
Proof.
  split; [vm_compute; reflexivity|].
  assert (Hr : called "a1" (quiet_store no_photos) (SyncBook the_client (Some "https://dav.x.org/")) (the_office [the_home; the_changes; the_items])
    = (fst synced, snd synced)) by (unfold synced; apply surjective_pairing).
  exact (pim_stays_in_its_account "a1" (quiet_store no_photos) (SyncBook the_client (Some "https://dav.x.org/"))
    (the_office [the_home; the_changes; the_items]) (fst synced) (snd synced) (quiet_step "a1" no_photos) (the_office_ok _) Hr).
Defined.
Lemma book_sync_mirrors_witness : exists w',
  apply_book "a1" "https://dav.x.org/ab/" (quiet_store no_photos)
    [mkItem "/ab/1.vcf" (Some "e1") (Some (a_card "Carol")); mkItem "/ab/2.vcf" (Some "e2") (Some (a_card "Dave"))] ["/ab/9.vcf"] (Some "t1")
    (the_office []) = (Ok (2%nat, 1%nat), w') /\ token_of "a1" w' "carddav" = Some (Some "t1") /\
  option_map ct_display_name (contact_of "a1" w' "/ab/1.vcf") = Some (Some "Carol") /\ contact_of "a1" w' "/ab/9.vcf" = None.
Proof.
  destruct (book_sync_mirrors "a1" "https://dav.x.org/ab/" no_photos
    [mkItem "/ab/1.vcf" (Some "e1") (Some (a_card "Carol")); mkItem "/ab/2.vcf" (Some "e2") (Some (a_card "Dave"))] ["/ab/9.vcf"] (Some "t1")
    (the_office [])) as (w' & Hr & _ & _ & Ht & Hc); [reflexivity|apply the_office_ok|apply (bool_decide_eq_true_1 _); vm_compute; reflexivity|].
  exists w'. split; [exact Hr|]. split; [exact Ht|]. split; [|exact (Hc "/ab/9.vcf")].
  assert (Hcard : contact_of "a1" w' "/ab/1.vcf" = Some (refreshed_contact "https://dav.x.org/ab/" (Some "e1") (a_card "Carol")
    (parse_vcard_fields (a_card "Carol")) None (a_contact "c1" "a1" "/ab/1.vcf"))) by exact (Hc "/ab/1.vcf").
  rewrite Hcard. reflexivity.
Defined.

(** ** What the code does not keep *)

Definition an_event (dtstart : string) : string := "BEGIN:VEVENT" +:+ crlf +:+ "SUMMARY:Day" +:+ crlf +:+ dtstart +:+ crlf +:+ "END:VEVENT".
Definition the_event (dtstart : string) : string :=
  response ("<D:href>/cal/1.ics</D:href><D:getetag>e1</D:getetag><C:calendar-data>" +:+ an_event dtstart +:+ "</C:calendar-data>").
Definition calendar_synced (dtstart : string) :=
  snd (sync_caldav the_client "a1" (Some "https://dav.x.org/") (the_office [the_home; the_changes; the_event dtstart])).
(** The token of a calendar's sync is never kept. *)
Lemma calendar_token_dropped : map cl_sync_token (pt_calendars (of_pim (calendar_synced "DTSTART:20260902T090000Z"))) = [None].
Proof. vm_compute. reflexivity. Qed.
(** An all-day event is stored as one that is not. *)
Lemma all_day_dropped : ve_all_day (parse_vevent_fields (an_event "DTSTART;VALUE=DATE:20260902")) = true /\
  map er_is_all_day (pt_events (of_pim (calendar_synced "DTSTART;VALUE=DATE:20260902"))) = [false].
Proof. split; vm_compute; reflexivity. Qed.
(** A start in a time zone is not read. *)
Lemma zoned_start_dropped : map er_dtstart (pt_events (of_pim (calendar_synced "DTSTART;TZID=Europe/Paris:20260902T090000"))) = [None].
Proof. vm_compute. reflexivity. Qed.
(** A comma of a name comes back escaped. *)
Lemma comma_stays_escaped : vf_name (parse_vcard_fields (build_vcard "u1" (mkNewContact "Doe, Jane" None None None))) = Some "Doe\, Jane".
Proof. vm_compute. reflexivity. Qed.
(** Eight bytes with a character across a slice's end unwind the sync. *)
Lemma odd_date_panics : parse_ical_dt ("202" +:+ String (ascii_of_N 195) (String (ascii_of_N 169) "012")) = Err (DavPanic "slice").
Proof. vm_compute. reflexivity. Qed.
(** The password of a mailbox at another domain goes to the hinted provider. *)
Lemma hint_ignores_the_dot : option_map (fun b => bo_origin (fst b)) (bootstrap_origins "notfastmail.com" "bob@notfastmail.com" "secret") =
  Some "https://carddav.fastmail.com/dav/".
Proof. vm_compute. reflexivity. Qed.
