(* ===== verification/Accounts.v ===== *)
(** * Mail accounts ([accounts.rs])

    The routes that list, create, update and delete a user's mail accounts, the connection test
    and the probe for a domain's servers.  A deleted account takes with it the rows that name it
    by a cascading foreign key.  The three timestamps of an account are left out; rows are in the
    order of creation, so the newest first is the reverse.  The DNS, TCP and anonymous HTTP of a
    probe are the class [ProbeNet], the [Display] of a connection error [ErrorTexts].  The
    [JmapError] of the seam and the [DavError] of discovery never reach an answer, save a
    panic: [AccountPanic]. *)
From S2P Require Import Prelude Kv Crypto UnlockRing World Toy Session Labels Jobs Pool Netsec MailStore Imap ImapLoop Blobs Jmap JmapLoop.
From S2P Require Import Spam OAuth Ai JmapWrite Desk Actions SpamPass ToyDesk Isolation Dav PimDav.
Local Open Scope string_scope.
Local Open Scope Z_scope.

(** ** Requests and answers *)

Record Account := mkAccount {
  ac_id : string; ac_display_name : string; ac_email_address : string; ac_protocol : string; ac_imap_host : option string;
  ac_imap_port : option Z; ac_imap_security : option string; ac_smtp_host : option string; ac_smtp_port : option Z;
  ac_smtp_security : option string; ac_carddav_url : option string; ac_caldav_url : option string; ac_signature : option string;
  ac_auth_type : option string; ac_jmap_base_url : option string; ac_has_pim_credential : bool; ac_is_active : bool;
  ac_sync_enabled : bool }.
Record CreateAccountRequest := mkCreate {
  ca_display_name : string; ca_email_address : string; ca_protocol : option string; ca_auth_type : option string; ca_password : string;
  ca_imap_host : option string; ca_imap_port : option Z; ca_imap_security : option string; ca_smtp_host : option string;
  ca_smtp_port : option Z; ca_smtp_security : option string; ca_jmap_base_url : option string }.
Record UpdateAccountRequest := mkUpdate {
  ua_display_name : option string; ua_email_address : option string; ua_password : option string; ua_imap_host : option string;
  ua_imap_port : option Z; ua_imap_security : option string; ua_smtp_host : option string; ua_smtp_port : option Z;
  ua_smtp_security : option string; ua_carddav_url : option string; ua_caldav_url : option string; ua_signature : option string;
  ua_auth_type : option string; ua_jmap_base_url : option string; ua_is_active : option bool; ua_sync_enabled : option bool;
  ua_pim_password : option string; ua_clear_pim_password : option bool }.
Record ProbeRequest := mkProbe { pq_email_address : string; pq_domain : option string }.
Record ProbeResult := mkProbed {
  pr_found : bool; pr_source : option string; pr_protocol : string; pr_jmap_supported : bool; pr_auth_method : option string;
  pr_imap_host : option string; pr_imap_port : option Z; pr_imap_security : option string; pr_smtp_host : option string;
  pr_smtp_port : option Z; pr_smtp_security : option string }.
Record TestConnectionRequest := mkTest {
  tq_email_address : string; tq_protocol : string; tq_password : string; tq_auth_type : option string; tq_jmap_base_url : option string;
  tq_imap_host : option string; tq_imap_port : option Z; tq_imap_security : option string }.
Record ConnectionTestResponse := mkTested { tr_ok : bool; tr_detail : string; tr_folder_count : option Z }.
Inductive AccountError :=
| AccountMissing | AccountDatabase | AccountCrypto (e : CryptoError.t) | AccountInput (m : string) | AccountPanic.
(** Status, message and code of an error. *)
Definition account_response (e : AccountError) : Z * string * string :=
  match e with
  | AccountMissing => (404, "account not found", "not_found")
  | AccountDatabase => (500, "internal error", "internal_error")
  | AccountCrypto _ => (500, "encryption error", "internal_error")
  | AccountInput m => (400, m, "bad_request")
  | AccountPanic => (500, "", "")
  end.

Definition account_from_row (r : MailAccountRow) : Account :=
  let x := ma_extras r in
  mkAccount (ma_id r) (default "" (ma_display_name r)) (ma_email_address r) (ma_protocol r) (ma_imap_host r) (ma_imap_port r)
    (ma_imap_security r) (ma_smtp_host r) (ma_smtp_port r) (ma_smtp_security r) (ax_carddav_url x) (ax_caldav_url x) (ax_signature x)
    (Some (ma_auth_type r)) (ma_jmap_base_url r) (bool_decide (is_Some (nonempty (ax_pim_credential x)))) (ma_is_active r) (ma_sync_enabled r).

(** ** Names of servers *)

Class ErrorTexts := { jmap_text : JmapError -> string; imap_text : ImapError -> string }.
Definition extract_domain `{StoreLib} (email : string) : string := to_lowercase (trim (default "" (split_char "@" email !! 1%nat))).
Definition validate_imap_host `{UrlLib} (host : string) : result string string := validate_domain host.
Definition JMAP_ENDPOINT_HINTS : list (string * string) := [("fastmail.com", "https://api.fastmail.com")].
Definition hint_for (domain : string) (h : string * string) : bool := String.eqb domain (fst h) || ends_with ("." +:+ fst h) domain.
Definition resolve_jmap_base_url `{StoreLib} (protocol : string) (explicit : option string) (email_address : string) : option string :=
  if negb (String.eqb protocol "jmap") then None else
  match nonempty (option_map trim explicit) with
  | Some url => Some url
  | None =>
      let domain := extract_domain email_address in
      if is_empty domain then None else
      match List.find (hint_for domain) JMAP_ENDPOINT_HINTS with
      | Some (_, base) => Some base
      | None => Some ("https://" +:+ domain)
      end
  end.
Inductive DavUrlUpdate := DavUnchanged | DavClear | DavSet (url : string).
Definition normalize_optional_dav_url `{UrlLib} (url : option string) : result string DavUrlUpdate :=
  match url with
  | None => Ok DavUnchanged
  | Some v =>
      let trimmed := trim v in
      if is_empty trimmed then Ok DavClear else
      let? _ := validate_server_url trimmed in Ok (DavSet trimmed)
  end.
(** [.map(normalize).transpose()]. *)
Definition security_of (o : option string) : result string (option string) :=
  match o with Some s => let? m := normalize_security_mode s in Ok (Some m) | None => Ok None end.

Section Routes.
Context {K R T : Type} `{HasRng R} `{CryptoLib} `{OAuthNet T} `{JmapWrites T} `{ImapSession T} `{MimeLib} `{UrlLib} `{UrlJoin}
  `{JmapTime} `{StoreLib} `{JsonLib} `{JobLib} `{CivilLib} `{DavNet T} `{UpperLib} `{ErrorTexts}.
Local Abbreviation W := (office K R T).
Local Abbreviation M := (io W AccountError).
Implicit Types w : W.

(** ** Statements *)

Definition no_database {A} (m : io W SyncError A) : M A := map_err (fun _ => AccountDatabase) m.
Definition rows_stmt {A} (f : list MailAccountRow -> A * list MailAccountRow) : M A :=
  no_database (on_desk (Desk.stmt (fun d => let '(a, l) := f (accounts d) in (a, Desk.set_ow (OAuth.set_rows l (dk_ow d)) d)))).
Definition my_row (user_id account_id : string) (l : list MailAccountRow) : option MailAccountRow := List.find (owned_account user_id account_id) l.
Definition find_account (account_id user_id : string) : M Account :=
  let! row := rows_stmt (fun l => (my_row user_id account_id l, l)) in
  lift (ok_or AccountMissing (option_map account_from_row row)).
Definition list_accounts (user_id : string) : M (list Account) :=
  rows_stmt (fun l => (rev (map account_from_row (List.filter (fun r => String.eqb (ma_user_id r) user_id) l)), l)).
Definition get_account (user_id account_id : string) : M Account := find_account account_id user_id.
Definition on_jobs {A} (m : io jworld SqlxError A) : M A :=
  on_desk (fun d => let '(r, j) := m (dk_jobs d) in (rmap_err (fun _ => AccountDatabase) r, Desk.set_jobs j d)).
Definition list_account_sync_errors (user_id account_id : string) (limit : option Z) : M (list SyncErrorLogItem) :=
  let! _ := find_account account_id user_id in
  on_jobs (list_sync_account_errors account_id user_id (default 20 limit)).

(** ** Create *)

Definition user_dek (user_id : string) : M string := map_err AccountCrypto (on_desk (on_ow (on_auth (get_user_dek user_id)))).
Definition sealed (dek secret : string) : M string :=
  let! encrypted := map_err AccountCrypto (on_desk (on_ow (on_auth (encrypt (W := world K R) dek secret)))) in
  ret (cred_to_json encrypted).
Definition choose_send_protocol (protocol : string) (jmap_base_url : option string) (email password auth_type : string) : M string :=
  if negb (String.eqb protocol "jmap") then ret "smtp" else
  match jmap_base_url with
  | None => ret "smtp"
  | Some base =>
      let! seam := attempt (on_wire (connect base email password auth_type)) in
      let! network := gets (fun w => net (of_desk w)) in
      ret (match seam with Ok seam => if supports_submission seam network then "jmap" else "smtp" | Err _ => "smtp" end)
  end.
Definition new_account_id : M string :=
  on_desk (on_ow (fun o => (Ok (store_uuid (ow_seq o)), mkOw (ow_auth o) (ow_rows o) (ow_net o) (N.succ (ow_seq o))))).
Definition created_row (id user_id : string) (b : CreateAccountRequest) (protocol auth_type credential : string)
    (imap_security smtp_security jmap_base_url : option string) (send_protocol : string) : MailAccountRow :=
  mkMailAccount id user_id (Some (ca_display_name b)) (ca_email_address b) protocol auth_type credential (ca_imap_host b) (ca_imap_port b)
    imap_security jmap_base_url (ca_smtp_host b) (ca_smtp_port b) smtp_security
    (Some (if String.eqb protocol "jmap" then "jmap" else "imap")) (Some send_protocol) true true no_extras.
(** Best effort: only a panic of the scanner is not swallowed. *)
Definition auto_discover (account_id email password auth_type : string) : M (option (string * string)) :=
  map_err (fun _ => AccountPanic) (try_auto_discover_pim account_id email password auth_type).
Definition set_account_urls (urls : string * string) (a : Account) : Account :=
  mkAccount (ac_id a) (ac_display_name a) (ac_email_address a) (ac_protocol a) (ac_imap_host a) (ac_imap_port a) (ac_imap_security a)
    (ac_smtp_host a) (ac_smtp_port a) (ac_smtp_security a) (Some (fst urls)) (Some (snd urls)) (ac_signature a) (ac_auth_type a)
    (ac_jmap_base_url a) (ac_has_pim_credential a) (ac_is_active a) (ac_sync_enabled a).
Definition with_urls (found : option (string * string)) (a : Account) : Account :=
  match found with Some urls => set_account_urls urls a | None => a end.
Definition create_account (user_id : string) (b : CreateAccountRequest) : M Account :=
  if negb (contains_char "@" (ca_email_address b)) then throw (AccountInput "invalid email address") else
  let! imap_security := lift (rmap_err AccountInput (security_of (ca_imap_security b))) in
  let! smtp_security := lift (rmap_err AccountInput (security_of (ca_smtp_security b))) in
  let! dek := user_dek user_id in
  let! credential := sealed dek (ca_password b) in
  let! id := new_account_id in
  let protocol := default "imap" (ca_protocol b) in
  let jmap_base_url := resolve_jmap_base_url protocol (ca_jmap_base_url b) (ca_email_address b) in
  let auth_type := default "password" (ca_auth_type b) in
  let! send_protocol := choose_send_protocol protocol jmap_base_url (ca_email_address b) (ca_password b) auth_type in
  let row := created_row id user_id b protocol auth_type credential imap_security smtp_security jmap_base_url send_protocol in
  let! _ := rows_stmt (fun l => (tt, l ++ [row])%list) in
  let! now := gets (fun w => rfc3339 (jw_now (dk_jobs (of_desk w)))) in
  let! _ := attempt (F := AccountError) (on_jobs (enqueue (SyncAccount id user_id) now)) in
  let! found := auto_discover id (ca_email_address b) (ca_password b) auth_type in
  ret (with_urls found (account_from_row row)).

(** ** Update *)

Definition has_update (b : UpdateAccountRequest) : bool :=
  existsb (fun o => bool_decide (is_Some o))
    [ua_display_name b; ua_email_address b; ua_password b; ua_imap_host b; ua_imap_security b; ua_carddav_url b; ua_caldav_url b;
     ua_signature b; ua_auth_type b; ua_jmap_base_url b; ua_smtp_host b; ua_smtp_security b; ua_pim_password b]
  || existsb (fun o => bool_decide (is_Some o)) [ua_is_active b; ua_sync_enabled b]
  || existsb (fun o => bool_decide (is_Some o)) [ua_imap_port b; ua_smtp_port b]
  || bool_decide (ua_clear_pim_password b = Some true).
(** The columns whose values are computed first. *)
Record Changes := mkAccountChanges {
  cg_credential : option string; cg_imap_security : option string; cg_smtp_security : option string; cg_carddav : DavUrlUpdate;
  cg_caldav : DavUrlUpdate; cg_pim : option (option string); cg_jmap_base_url : option (option string) }.
Definition over {A} (new : option A) (old : A) : A := default old new.
Definition over_opt {A} (new old : option A) : option A := match new with Some v => Some v | None => old end.
Definition over_url (u : DavUrlUpdate) (old : option string) : option string :=
  match u with DavUnchanged => old | DavClear => None | DavSet url => Some url end.
Definition auth_type_of (v : string) : string := if String.eqb v "bearer" then "bearer" else "password".
Definition updated_row (b : UpdateAccountRequest) (c : Changes) (r : MailAccountRow) : MailAccountRow :=
  let x := ma_extras r in
  mkMailAccount (ma_id r) (ma_user_id r) (over_opt (ua_display_name b) (ma_display_name r)) (over (ua_email_address b) (ma_email_address r))
    (ma_protocol r) (over (option_map auth_type_of (ua_auth_type b)) (ma_auth_type r)) (over (cg_credential c) (ma_credential r))
    (over_opt (ua_imap_host b) (ma_imap_host r)) (over_opt (ua_imap_port b) (ma_imap_port r)) (over_opt (cg_imap_security c) (ma_imap_security r))
    (over (cg_jmap_base_url c) (ma_jmap_base_url r)) (over_opt (ua_smtp_host b) (ma_smtp_host r)) (over_opt (ua_smtp_port b) (ma_smtp_port r))
    (over_opt (cg_smtp_security c) (ma_smtp_security r)) (ma_receive_protocol r) (ma_send_protocol r)
    (over (ua_is_active b) (ma_is_active r)) (over (ua_sync_enabled b) (ma_sync_enabled r))
    (mkExtras (over_opt (ua_signature b) (ax_signature x)) (over_url (cg_carddav c) (ax_carddav_url x)) (over_url (cg_caldav c) (ax_caldav_url x))
       (over (cg_pim c) (ax_pim_credential x))).
Definition sealed_for (user_id : string) (secret : option string) : M (option string) :=
  match secret with
  | Some s => let! dek := user_dek user_id in let! blob := sealed dek s in ret (Some blob)
  | None => ret None
  end.
Definition jmap_url_of (v : string) : result string (option string) :=
  if is_empty (trim v) then Ok None else
  let? _ := validate_server_url v in Ok (Some (drop_while_end is_slash v)).
Definition new_jmap_url (o : option string) : result string (option (option string)) :=
  match o with Some v => let? u := jmap_url_of v in Ok (Some u) | None => Ok None end.
Definition checked (user_id : string) (b : UpdateAccountRequest) : M Changes :=
  let! _ := ensure (match ua_email_address b with Some email => contains_char "@" email | None => true end) (AccountInput "invalid email address") in
  let! imap_security := lift (rmap_err AccountInput (security_of (ua_imap_security b))) in
  let! smtp_security := lift (rmap_err AccountInput (security_of (ua_smtp_security b))) in
  let! carddav := lift (rmap_err AccountInput (normalize_optional_dav_url (ua_carddav_url b))) in
  let! caldav := lift (rmap_err AccountInput (normalize_optional_dav_url (ua_caldav_url b))) in
  let! _ := ensure (has_update b) (AccountInput "no fields to update") in
  let! _ := ensure (negb (bool_decide (ua_pim_password b = Some ""))) (AccountInput "pimPassword must not be empty (use clearPimPassword to remove)") in
  let! credential := sealed_for user_id (ua_password b) in
  let clear_pim := bool_decide (ua_clear_pim_password b = Some true) in
  let! pim := (if clear_pim then ret None else sealed_for user_id (ua_pim_password b)) in
  let! jmap_base_url := lift (rmap_err AccountInput (new_jmap_url (ua_jmap_base_url b))) in
  ret (mkAccountChanges credential imap_security smtp_security carddav caldav (if clear_pim then Some None else option_map Some pim) jmap_base_url).
Definition touches_session (b : UpdateAccountRequest) : bool :=
  existsb (fun o => bool_decide (is_Some o))
    [ua_password b; ua_email_address b; ua_imap_host b; ua_imap_security b; ua_smtp_host b; ua_smtp_security b]
  || existsb (fun o => bool_decide (is_Some o)) [ua_imap_port b; ua_smtp_port b].
Definition evict_seam (account_id : string) : M unit := on_desk (modify (fun d => Desk.set_seams (evict account_id (dk_seams d)) d)).
Definition no_url (o : option string) : bool := is_empty (default "" o).
Definition rediscovers (b : UpdateAccountRequest) (a : Account) : bool :=
  bool_decide (ua_carddav_url b = None) && bool_decide (ua_caldav_url b = None) && no_url (ac_carddav_url a) && no_url (ac_caldav_url a).
Definition update_account (user_id account_id : string) (b : UpdateAccountRequest) : M Account :=
  let! row := rows_stmt (fun l => (my_row user_id account_id l, l)) in
  let! _ := ensure (bool_decide (is_Some row)) AccountMissing in
  let! c := checked user_id b in
  let! _ := rows_stmt (fun l => (tt, map (fun r => if owned_account user_id account_id r then updated_row b c r else r) l)) in
  let! _ := when (touches_session b) (evict_seam account_id) in
  let! a := find_account account_id user_id in
  match ua_password b with
  | Some password =>
      if rediscovers b a then
        let! found := auto_discover account_id (ac_email_address a) password (default "password" (ac_auth_type a)) in
        ret (with_urls found a)
      else ret a
  | None => ret a
  end.

(** ** Delete *)

(** [ON DELETE CASCADE]: folders, messages and their cursors, contacts, calendars and events; not [dav_cursor]. *)
Definition cascade_mail (gone : string -> bool) (db : mail) : mail :=
  mkMail (ml_now db) (List.filter (fun f => negb (gone (f_account f))) (ml_folders db))
    (List.filter (fun m => negb (gone (m_account m))) (ml_messages db))
    (List.filter (fun c => negb (gone (MailStore.cu_account c))) (ml_cursors db)) (ml_seq db) (ml_fuse db).
Definition cascade_pim (gone : string -> bool) (t : pim_tables) : pim_tables :=
  mkPimTables (List.filter (fun c => negb (gone (ct_account c))) (pt_contacts t)) (List.filter (fun c => negb (gone (cl_account c))) (pt_calendars t))
    (List.filter (fun e => negb (gone (er_account e))) (pt_events t)) (pt_cursors t).
Definition gone_messages (gone : string -> bool) (db : mail) : gset string :=
  list_to_set (map m_id (List.filter (fun m => gone (m_account m)) (ml_messages db))).
Definition cascade_desk (gone : string -> bool) (d : desk K R T) : desk K R T :=
  let lost := gone_messages gone (dk_mail d) in
  Desk.set_mail (cascade_mail gone (dk_mail d))
    (Desk.set_verdicts (filter (fun kv => kv.1 ∉ lost) (dk_verdicts d)) (Desk.set_drafts (dk_drafts d ∖ lost) d)).
Definition without_account (user_id account_id : string) w : bool * W :=
  let rows := accounts (of_desk w) in
  let hit := owned_account user_id account_id in
  if existsb hit rows then
    let d := Desk.set_ow (OAuth.set_rows (List.filter (fun r => negb (hit r)) rows) (dk_ow (of_desk w))) (of_desk w) in
    let gone := String.eqb account_id in
    (true, mkOffice (cascade_desk gone d) (cascade_pim gone (of_pim w)))
  else (false, w).
Definition office_stmt {A} (f : W -> A * W) : M A :=
  fun w => match mstmt (fun db => (tt, db)) (dk_mail (of_desk w)) with
           | (Ok _, db) => let '(a, w') := f (set_desk (Desk.set_mail db (of_desk w)) w) in (Ok a, w')
           | (Err _, db) => (Err AccountDatabase, set_desk (Desk.set_mail db (of_desk w)) w)
           end.
Definition delete_account (user_id account_id : string) : M unit :=
  let! found := office_stmt (without_account user_id account_id) in
  let! _ := ensure found AccountMissing in
  evict_seam account_id.
End Routes.

(** ** The connection test *)

Section TestConnection.
Context {T : Type} `{JmapWire T} `{ImapSession T} `{MimeLib} `{UrlLib} `{UrlJoin} `{StoreLib} `{ErrorTexts}.
Local Abbreviation N := (io T AccountError).
Definition tested (ok : bool) (detail : string) (n : option Z) : N ConnectionTestResponse := ret (mkTested ok detail n).
Definition test_jmap (email : string) (b : TestConnectionRequest) : N ConnectionTestResponse :=
  let! base := lift (ok_or (AccountInput "cannot resolve JMAP URL") (resolve_jmap_base_url "jmap" (tq_jmap_base_url b) email)) in
  let! _ := lift (rmap_err AccountInput (validate_server_url base)) in
  let! seam := attempt (connect base email (tq_password b) (default "password" (tq_auth_type b))) in
  match seam with
  | Ok _ => tested true "JMAP session established" None
  | Err e => tested false (jmap_text e) None
  end.
Definition middle_dot : string := String (ascii_of_N 194) (String (ascii_of_N 183) "").
(** [u16::try_from]. *)
Definition imap_test_config (email : string) (b : TestConnectionRequest) : result AccountError ImapConfig :=
  let? raw_host := ok_or (AccountInput "IMAP host is required") (nonempty (option_map trim (tq_imap_host b))) in
  let? host := rmap_err (fun _ => AccountInput ("invalid IMAP host '" +:+ raw_host +:+ "'")) (validate_imap_host raw_host) in
  let? security := rmap_err AccountInput (normalize_security_mode (default "tls" (tq_imap_security b))) in
  let? port := ok_or (AccountInput "port") (Prelude.bounded 0 65535 (Some (default 993 (tq_imap_port b)))) in
  Ok (mkConfig host port (if String.eqb security "starttls" then Starttls else Tls) email (tq_password b) false).
Definition test_imap (email : string) (b : TestConnectionRequest) : N ConnectionTestResponse :=
  let! config := lift (imap_test_config email b) in
  let! client := attempt (fun n => Imap.connect config n) in
  match client with
  | Err e => tested false (imap_text e) None
  | Ok client => fun n =>
      match list_folders client with
      | (Ok folders, c) =>
          let count := Z.of_nat (length folders) in
          (Ok (mkTested true ("IMAP login succeeded " +:+ middle_dot +:+ " " +:+ show_Z count +:+ " folders") (Some count)), cl_session c)
      | (Err e, c) => (Ok (mkTested true ("login succeeded, LIST failed: " +:+ imap_text e) None), cl_session c)
      end
  end.
Definition test_connection (b : TestConnectionRequest) : N ConnectionTestResponse :=
  let email := trim (tq_email_address b) in
  let! _ := lift (rmap_err AccountInput (validate_domain (extract_domain email))) in
  if String.eqb (tq_protocol b) "jmap" then test_jmap email b
  else if String.eqb (tq_protocol b) "imap" then test_imap email b
  else throw (AccountInput ("unsupported protocol '" +:+ tq_protocol b +:+ "'")).
End TestConnection.

(** ** The probe *)

(** Anonymous HTTP with a timeout in seconds (status and body text), DNS, and TCP. *)
Class ProbeNet (T : Type) := {
  probe_get : string -> Z -> io T unit (Z * option string);
  lookup_host : string -> Z -> io T unit (list IpAddr);
  tcp_connect : IpAddr -> Z -> io T unit unit;
}.
Definition parse_i32 (s : string) : option Z := Prelude.bounded (- i32_max - 1) i32_max (parse_i64 s).
(** [&xml[start..end]] panics when the closing tag comes first. *)
Definition extract_xml_value (xml tag : string) : result AccountError (option string) :=
  let start_tag := "<" +:+ tag +:+ ">" in
  match find_str start_tag xml, find_str ("</" +:+ tag +:+ ">") xml with
  | Some s, Some e => let? text := rmap_err (fun _ => AccountPanic) (slice (s + String.length start_tag) e xml) in Ok (Some (trim text))
  | _, _ => Ok None
  end.
Definition normalize_security (security : option string) : option string :=
  match security with
  | Some s =>
      if String.eqb s "STARTTLS" then Some "starttls"
      else if String.eqb s "plain" || String.eqb s "none" then None else Some "tls"
  | None => Some "tls"
  end.
(** Host, port and socket type of the first section that opens with [marker]. *)
Definition server_section (xml marker : string) : result AccountError (option string * option Z * option string) :=
  match find_str marker xml with
  | Some start =>
      let section := sdrop start xml in
      let? host := extract_xml_value section "hostname" in
      let? port := extract_xml_value section "port" in
      let? security := extract_xml_value section "socketType" in
      Ok (host, port ≫= parse_i32, security)
  | None => Ok (None, None, None)
  end.
Definition quoted (s : string) : string := quote +:+ s +:+ quote.
Definition parse_mozilla_autoconfig (xml : string) : result AccountError (option ProbeResult) :=
  let? imap := server_section xml ("<incomingServer type=" +:+ quoted "imap" +:+ ">") in
  let? smtp := server_section xml ("<outgoingServer type=" +:+ quoted "smtp" +:+ ">") in
  let '(imap_host, imap_port, imap_security) := imap in
  let '(smtp_host, smtp_port, smtp_security) := smtp in
  if bool_decide (is_Some imap_host) || bool_decide (is_Some smtp_host) then
    Ok (Some (mkProbed true (Some "mozilla_ispdb") "imap" false None imap_host imap_port (normalize_security imap_security)
                smtp_host smtp_port (normalize_security smtp_security)))
  else Ok None.
Definition microsoft_oauth_probe_result (source : string) : ProbeResult :=
  mkProbed true (Some source) "imap" false (Some "oauth2") (Some "outlook.office365.com") (Some 993) (Some "tls")
    (Some "smtp-mail.outlook.com") (Some 587) (Some "starttls").
Definition yandex_oauth_probe_result (source : string) : ProbeResult :=
  mkProbed true (Some source) "imap" false (Some "oauth2") (Some "imap.yandex.com") (Some 993) (Some "tls")
    (Some "smtp.yandex.com") (Some 465) (Some "tls").
Definition oauth_host (o : option string) : bool := match o with Some h => is_microsoft_mail_host h || is_yandex_mail_host h | None => false end.
Definition annotate_oauth_probe (r : ProbeResult) : ProbeResult :=
  if oauth_host (pr_imap_host r) || oauth_host (pr_smtp_host r) then
    mkProbed (pr_found r) (pr_source r) (pr_protocol r) (pr_jmap_supported r) (Some "oauth2") (pr_imap_host r) (pr_imap_port r)
      (pr_imap_security r) (pr_smtp_host r) (pr_smtp_port r) (pr_smtp_security r)
  else r.
Definition with_jmap_support (r : ProbeResult) (jmap_supported : bool) : ProbeResult :=
  mkProbed (pr_found r) (pr_source r) (pr_protocol r) jmap_supported (pr_auth_method r) (pr_imap_host r) (pr_imap_port r)
    (pr_imap_security r) (pr_smtp_host r) (pr_smtp_port r) (pr_smtp_security r).
Definition nothing_found : ProbeResult := mkProbed false None "imap" false None None None None None None None.
Definition probe_srv_records (domain : string) : option ProbeResult := None.
Definition imap_hosts (domain : string) : list (string * Z * string) :=
  [("imap." +:+ domain, 993, "tls"); ("mail." +:+ domain, 993, "tls"); ("imap." +:+ domain, 143, "starttls"); ("mail." +:+ domain, 143, "starttls")].
Definition smtp_hosts (domain : string) : list (string * Z * string) :=
  [("smtp." +:+ domain, 587, "starttls"); ("smtp." +:+ domain, 465, "tls"); ("mail." +:+ domain, 587, "starttls"); ("mail." +:+ domain, 465, "tls")].

Section Probe.
Context {T : Type} `{ProbeNet T} `{UrlLib} `{StoreLib}.
Local Abbreviation N := (io T AccountError).
(** [.ok()]. *)
Definition quietly {A} (m : io T unit A) : N (option A) := let! r := attempt m in ret (rok r).
Fixpoint first_open (ips : list IpAddr) (port : Z) : N bool :=
  match ips with
  | [] => ret false
  | ip :: rest => let! opened := quietly (tcp_connect ip port) in match opened with Some _ => ret true | None => first_open rest port end
  end.
Definition try_tcp_connect (host : string) (port : Z) : N bool :=
  let! addrs := quietly (lookup_host host port) in
  match addrs with Some addrs => first_open (filter_public_addrs addrs) port | None => ret false end.
Fixpoint first_server (hosts : list (string * Z * string)) : N (option (string * Z * string)) :=
  match hosts with
  | [] => ret None
  | (host, port, security) :: rest =>
      let! opened := try_tcp_connect host port in if (opened : bool) then ret (Some (host, port, security)) else first_server rest
  end.
Definition probe_common_patterns (domain : string) : N (option ProbeResult) :=
  let! imap := first_server (imap_hosts domain) in
  let! smtp := first_server (smtp_hosts domain) in
  let host := option_map (fun c : string * Z * string => fst (fst c)) in
  let port := option_map (fun c : string * Z * string => snd (fst c)) in
  let security := option_map (fun c : string * Z * string => snd c) in
  ret (match imap, smtp with
       | None, None => None
       | _, _ => Some (mkProbed true (Some "common_patterns") "imap" false None (host imap) (port imap) (security imap) (host smtp) (port smtp) (security smtp))
       end).
Definition probe_mozilla_ispdb (domain : string) : N (option ProbeResult) :=
  let! resp := quietly (probe_get ("https://autoconfig.thunderbird.net/v1.1/" +:+ domain) 5) in
  match resp with
  | Some (status, Some body) => if is_success status then lift (parse_mozilla_autoconfig body) else ret None
  | _ => ret None
  end.
Definition probe_one_jmap_host (host : string) : N bool :=
  let! resp := quietly (probe_get ("https://" +:+ host +:+ "/.well-known/jmap") 15) in
  ret (match resp with Some (status, _) => (status =? 200) || (status =? 401) || (status =? 403) | None => false end).
(** [tokio::join!]: both candidates are asked whatever the other answers. *)
Definition probe_jmap_support (domain : string) : N bool :=
  let! first := probe_one_jmap_host ("api." +:+ domain) in
  let! second := probe_one_jmap_host domain in
  ret (first || second).
Definition probe_server_config (b : ProbeRequest) : N ProbeResult :=
  let! domain := lift (rmap_err AccountInput (validate_domain (default (extract_domain (pq_email_address b)) (pq_domain b)))) in
  let! jmap := probe_jmap_support domain in
  if is_microsoft_mail_domain domain then ret (with_jmap_support (microsoft_oauth_probe_result "microsoft_domain") jmap)
  else if is_yandex_mail_domain domain then ret (with_jmap_support (yandex_oauth_probe_result "yandex_domain") jmap)
  else
    let! ispdb := probe_mozilla_ispdb domain in
    match or_else ispdb (probe_srv_records domain) with
    | Some config => ret (with_jmap_support (annotate_oauth_probe config) jmap)
    | None =>
        let! common := probe_common_patterns domain in
        ret (match common with
             | Some config => with_jmap_support (annotate_oauth_probe config) jmap
             | None => with_jmap_support nothing_found jmap
             end)
    end.
End Probe.

(** ** What a probe may dial *)

Definition mail_port (port : Z) : Prop := port ∈ [993; 143; 587; 465].
(** A mail host of an accepted domain. *)
Definition probed_name `{UrlLib} (host : string) : Prop :=
  exists p raw domain, p ∈ ["imap."; "mail."; "smtp."] /\ validate_domain raw = Ok domain /\ host = p +:+ domain.
Definition encrypted_mode (o : option string) : Prop := o = None \/ o = Some "tls" \/ o = Some "starttls".
Definition suggests_encryption (r : ProbeResult) : Prop := encrypted_mode (pr_imap_security r) /\ encrypted_mode (pr_smtp_security r).

Section ProbeSafe.
Context {T : Type} `{ProbeNet T} `{UrlLib} `{StoreLib}.
Context (P : T -> T -> Prop) {Ppre : PreOrder P}.
Context (Pget : forall url secs, preserves P (probe_get url secs)).
Context (Plookup : forall host port, probed_name host -> mail_port port -> preserves P (lookup_host host port)).
Context (Pconnect : forall ip port, is_blocked_addr ip = false -> mail_port port -> preserves P (tcp_connect ip port)).

Lemma quietly_pres {A} (m : io T unit A) : preserves P m -> preserves P (quietly m).
Proof using Ppre. intros Hm. unfold quietly. preserve. Qed.
Lemma first_open_pres port : mail_port port -> forall ips, Forall (fun ip => is_blocked_addr ip = false) ips -> preserves P (first_open ips port).
Proof using Ppre Pconnect.
  intros Hp. induction ips as [|ip ips IH]; intros Hall; [apply pres_ret; apply _|]. apply Forall_cons in Hall as [Hip Hall].
  cbn [first_open]. apply pres_bind; [apply _|apply quietly_pres; by apply Pconnect|]. intros [u|]; [apply pres_ret; apply _|by apply IH].
Qed.
Lemma tcp_pres host port : probed_name host -> mail_port port -> preserves P (try_tcp_connect host port).
Proof using All.
  intros Hn Hp. unfold try_tcp_connect. apply pres_bind; [apply _|apply quietly_pres; by apply Plookup|].
  intros [addrs|]; [|apply pres_ret; apply _]. apply first_open_pres; [done|]. apply Forall_forall. intros ip Hip.
  apply list_elem_of_In, filter_In in Hip as [_ Hip]. by apply negb_true_iff.
Qed.
Lemma servers_pres : forall hosts, Forall (fun h => probed_name (fst (fst h)) /\ mail_port (snd (fst h))) hosts -> preserves P (first_server hosts).
Proof using All.
  induction hosts as [|[[host port] security] hosts IH]; intros Hall; [apply pres_ret; apply _|]. apply Forall_cons in Hall as [[Hn Hp] Hall].
  cbn [first_server]. apply pres_bind; [apply _|by apply tcp_pres|]. intros [|]; [apply pres_ret; apply _|by apply IH].
Qed.
Lemma common_pres domain : (exists raw, validate_domain raw = Ok domain) -> preserves P (probe_common_patterns domain).
Proof using All.
  intros [raw Hd]. unfold probe_common_patterns.
  apply pres_bind; [apply _| |intros ?; apply pres_bind; [apply _| |intros ?; apply pres_ret; apply _]]; apply servers_pres;
    repeat constructor; cbn; unfold mail_port; try (eexists _, raw, domain; split_and!; [|exact Hd|reflexivity]); set_solver.
Qed.
Lemma probe_pres b : preserves P (probe_server_config b).
Proof using All.
  intros n r n' Hr. unfold probe_server_config in Hr.
  apply bind_inv in Hr as [(e & [= _ <-] & _)|(domain & n1 & Hx & Hr)]; [done|]. unfold lift in Hx. injection Hx as Hd <-.
  destruct (validate_domain _) as [d|] eqn:Hv; [|done]. injection Hd as ->. revert n r n' Hr. change (preserves P (let! jmap := probe_jmap_support domain in
    if is_microsoft_mail_domain domain then ret (with_jmap_support (microsoft_oauth_probe_result "microsoft_domain") jmap)
    else if is_yandex_mail_domain domain then ret (with_jmap_support (yandex_oauth_probe_result "yandex_domain") jmap)
    else let! ispdb := probe_mozilla_ispdb domain in
      match or_else ispdb (probe_srv_records domain) with
      | Some config => ret (with_jmap_support (annotate_oauth_probe config) jmap)
      | None => let! common := probe_common_patterns domain in
          ret (match common with Some config => with_jmap_support (annotate_oauth_probe config) jmap | None => with_jmap_support nothing_found jmap end)
      end)).
  pose proof (common_pres domain (ex_intro _ _ Hv)) as Hcommon.
  assert (forall host, preserves P (probe_one_jmap_host host)) as Hone.
  { intros host. unfold probe_one_jmap_host. apply pres_bind; [apply _|apply quietly_pres, Pget|]. intros ?. apply pres_ret; apply _. }
  assert (preserves P (probe_mozilla_ispdb domain)) as Hispdb.
  { unfold probe_mozilla_ispdb. apply pres_bind; [apply _|apply quietly_pres, Pget|]. intros ?. preserve. }
  unfold probe_jmap_support. preserve.
Qed.

Lemma normalized_mode o : encrypted_mode (normalize_security o).
Proof using Type. unfold encrypted_mode, normalize_security. destruct o as [s|]; [|auto]. destruct (String.eqb _ _); [auto|]. destruct (_ || _); auto. Qed.
Lemma annotated_modes r : suggests_encryption r -> suggests_encryption (annotate_oauth_probe r).
Proof using Type. unfold annotate_oauth_probe. by destruct (_ || _). Qed.
Lemma autoconfig_modes xml r : parse_mozilla_autoconfig xml = Ok (Some r) -> suggests_encryption r.
Proof using Type.
  unfold parse_mozilla_autoconfig. destruct (server_section _ _) as [[[ih ip] isec]|]; [|done]. cbn.
  destruct (server_section _ _) as [[[sh sp] ssec]|]; [|done]. cbn. destruct (_ || _); intros [= <-]. split; apply normalized_mode.
Qed.
Lemma server_mode : forall hosts n c n', Forall (fun h => snd h ∈ ["tls"; "starttls"]) hosts -> first_server hosts n = (Ok c, n') ->
  encrypted_mode (option_map snd c).
Proof using Type.
  induction hosts as [|[[host port] security] hosts IH]; intros n c n' Hall Hr; [injection Hr as <- _; by left|].
  apply Forall_cons in Hall as [Hs Hall]. cbn in Hr. apply bind_Ok in Hr as (opened & n1 & _ & Hr). destruct opened; [|by eapply IH].
  injection Hr as <- _. cbn. right. clear -Hs. set_solver.
Qed.
Lemma common_modes domain n r n' : probe_common_patterns domain n = (Ok (Some r), n') -> suggests_encryption r.
Proof using Type.
  intros Hr. unfold probe_common_patterns in Hr. apply bind_Ok in Hr as (imap & n1 & Hi & Hr). apply bind_Ok in Hr as (smtp & n2 & Hs & Hr).
  apply server_mode in Hi; [|unfold imap_hosts; repeat constructor; cbn; set_solver].
  apply server_mode in Hs; [|unfold smtp_hosts; repeat constructor; cbn; set_solver].
  injection Hr as Hr _. destruct imap as [[[? ?] ?]|], smtp as [[[? ?] ?]|]; try discriminate Hr; injection Hr as <-; by split.
Qed.

(** A probe reaches nothing inside.  Whatever DNS answers, a probe resolves only the imap,
    mail and smtp hosts of a domain that passed the DNS-name check, and connects only to
    addresses that are not loopback, private, link-local or reserved, on the four mail ports -
    so any relation such calls and the anonymous GETs keep, the probe keeps; and what it
    suggests is TLS or STARTTLS, or says nothing, whatever the provider database names. *)
Theorem probe_dials_public_only b n r n' : probe_server_config b n = (r, n') ->
  P n n' /\ forall found, r = Ok found -> suggests_encryption found.
Proof using All.
  intros Hr. split; [by eapply probe_pres|]. intros found ->. unfold probe_server_config in Hr.
  apply bind_Ok in Hr as (domain & n1 & _ & Hr). apply bind_Ok in Hr as (jmap & n2 & _ & Hr).
  destruct (is_microsoft_mail_domain domain); [injection Hr as <- _; split; cbn; unfold encrypted_mode; auto|].
  destruct (is_yandex_mail_domain domain); [injection Hr as <- _; split; cbn; unfold encrypted_mode; auto|].
  apply bind_Ok in Hr as (ispdb & n3 & Hi & Hr). destruct ispdb as [config|]; cbn in Hr.
  - injection Hr as <- _. apply (annotated_modes config). unfold probe_mozilla_ispdb in Hi. apply bind_Ok in Hi as (resp & n4 & _ & Hi).
    destruct resp as [[status [body|]]|]; try (by injection Hi). destruct (is_success status); [|by injection Hi].
    injection Hi as Hi _. by eapply autoconfig_modes.
  - apply bind_Ok in Hr as (common & n4 & Hc & Hr). destruct common as [config|]; injection Hr as <- _.
    + apply (annotated_modes config). by eapply common_modes.
    + split; by left.
Qed.
End ProbeSafe.

(** ** Whose rows a route touches *)

Section Own.
Context {K R T : Type} `{HasRng R} `{CryptoLib} `{OAuthNet T} `{JmapWrites T} `{ImapSession T} `{MimeLib} `{UrlLib} `{UrlJoin}
  `{JmapTime} `{StoreLib} {Hids : StoreLaws} `{JsonLib} `{JobLib} `{CivilLib} `{DavNet T} `{UpperLib} `{ErrorTexts}.
Local Abbreviation W := (office K R T).
Implicit Types w : W.
Context (user : string).

Definition rows w : list MailAccountRow := accounts (of_desk w).
Definition account_seq w : N := ow_seq (dk_ow (of_desk w)).
Record accounts_ok w : Prop := {
  ak_ids : NoDup (ma_id <$> rows w);
  ak_new n : (account_seq w <= n)%N -> store_uuid n ∉ ma_id <$> rows w;
  ak_messages : NoDup (m_id <$> ml_messages (dk_mail (of_desk w))) }.
Definition rows_of_others w : list MailAccountRow := List.filter (fun r => negb (String.eqb (ma_user_id r) user)) (rows w).
Definition foreign (a : string) w : Prop := a ∈ ma_id <$> rows_of_others w.
Definition held {A} (account : A -> string) (a : string) (l : list A) : list A := List.filter (fun x => String.eqb (account x) a) l.
#[local] Arguments held {A} _ _ _ : simpl never.
(** The mail of an account: folders, messages with their verdict and draft bit, cursors, JMAP session. *)
Definition mail_of (a : string) w :=
  let d := of_desk w in
  (held f_account a (ml_folders (dk_mail d)),
   map (fun m => (m, dk_verdicts d !! m_id m, bool_decide (m_id m ∈ dk_drafts d))) (held m_account a (ml_messages (dk_mail d))),
   held MailStore.cu_account a (ml_cursors (dk_mail d)), dk_seams d !! a).
(** Its contacts, calendars, events and DAV tokens. *)
Definition pim_of (a : string) w :=
  let t := of_pim w in
  (held ct_account a (pt_contacts t), held cl_account a (pt_calendars t), held er_account a (pt_events t), held cu_account a (pt_cursors t)).
Record spared w w' : Prop := {
  sp_rows : rows_of_others w' = rows_of_others w;
  sp_mail a : foreign a w -> mail_of a w' = mail_of a w;
  sp_pim a : foreign a w -> pim_of a w' = pim_of a w }.
(** [a]: an account of the user, when one is given. *)
Definition mine_at (o : option string) w : Prop := match o with Some a => mine user (rows w) a | None => True end.
Definition own_step (o : option string) w w' : Prop := accounts_ok w -> mine_at o w -> accounts_ok w' /\ mine_at o w' /\ spared w w'.
#[local] Instance own_pre o : PreOrder (own_step o).
Proof.
  split; [by intros w ? ?|]. intros x y z Hxy Hyz Hx Ho. destruct (Hxy Hx Ho) as (Hy & Hoy & [E1 M1 P1]).
  destruct (Hyz Hy Hoy) as (Hz & Hoz & [E2 M2 P2]). split; [done|]. split; [done|].
  assert (forall a, foreign a x -> foreign a y) as Hf by (intros a; unfold foreign; by rewrite E1).
  split; [congruence| |]; intros a Ha; [rewrite M2 by auto|rewrite P2 by auto]; auto.
Qed.

(** Steps that keep the tables and the owner of every account. *)
Definition owners w : list (string * string) := map (fun r => (ma_id r, ma_user_id r)) (rows w).
Definition tables_of w :=
  (ml_folders (dk_mail (of_desk w)), ml_messages (dk_mail (of_desk w)), ml_cursors (dk_mail (of_desk w)), of_pim w).
Definition side_of w := (dk_verdicts (of_desk w), dk_drafts (of_desk w), dk_seams (of_desk w)).
Record plain w w' : Prop := {
  pl_owners : owners w' = owners w;
  pl_others : rows_of_others w' = rows_of_others w;
  pl_seq : account_seq w' = account_seq w;
  pl_tables : tables_of w' = tables_of w;
  pl_side : side_of w' = side_of w }.
Lemma owner_list_ids w : ma_id <$> rows w = fst <$> owners w.
Proof using Type. unfold owners. induction (rows w) as [|r l IH]; [done|]. cbn. by rewrite IH. Qed.
Lemma owners_mine w a : mine user (rows w) a <-> (a, user) ∈ owners w.
Proof using Type.
  unfold mine, owners. split.
  - intros (r & Hr & <- & <-). apply list_elem_of_In, in_map_iff. exists r. split; [done|by apply list_elem_of_In].
  - intros (r & [= Hi Hu] & Hr)%list_elem_of_In%in_map_iff. exists r. split_and!; [by apply list_elem_of_In|done|done].
Qed.
Lemma tables_holdings w w' : tables_of w' = tables_of w -> side_of w' = side_of w -> forall a, mail_of a w' = mail_of a w /\ pim_of a w' = pim_of a w.
Proof using Type.
  unfold tables_of, side_of, mail_of, pim_of. intros [= Hf Hm Hc Hp] [= Hv Hd Hs] a. by rewrite Hf, Hm, Hc, Hp, Hv, Hd, Hs.
Qed.
Lemma plain_own o w w' : plain w w' -> own_step o w w'.
Proof using Type.
  intros [Ho Hr Hq Ht Hs] [Hi Hn Hm] Ha. split; [|split].
  - split; [by rewrite owner_list_ids, Ho, <-owner_list_ids|by rewrite owner_list_ids, Ho, <-owner_list_ids, Hq|]. unfold tables_of in Ht. injection Ht as _ -> _ _. done.
  - destruct o as [a|]; [|done]. unfold mine_at in *. by rewrite owners_mine, Ho, <-owners_mine.
  - split; [done| |]; intros a _; by apply tables_holdings.
Qed.
Lemma own_plain {E A} o (m : io W E A) : (forall w r w', m w = (r, w') -> plain w w') -> preserves (own_step o) m.
Proof using Type. intros Hm w r w' Hr. by eapply plain_own, Hm. Qed.
Lemma own_wire {E A} o (m : io T E A) : preserves (own_step o) (on_wire (K := K) (R := R) m).
Proof using Type. apply own_plain. intros w r w'. unfold on_wire, on_desk, Desk.on_net. destruct (m _) as [x n]. by intros [= _ <-]. Qed.
Lemma own_jobs {A} o (m : io jworld SqlxError A) : preserves (own_step o) (on_jobs (K := K) (R := R) (T := T) m).
Proof using Type. apply own_plain. intros w r w'. unfold on_jobs, on_desk. destruct (m _) as [x n]. by intros [= _ <-]. Qed.
Lemma spare_plain w l o : Forall2 (row_spare user) (rows w) l -> rows o = l -> account_seq o = account_seq w -> tables_of o = tables_of w ->
  side_of o = side_of w -> plain w o.
Proof using Type.
  intros Hl Hr Hq Ht Hs. split; try done; unfold owners, rows_of_others; rewrite Hr; clear -Hl;
    (induction Hl as [|x y l l' [[c ->] Hsame] _ IH]; [done|]); cbn; rewrite IH; [done|].
  destruct (String.eqb_spec (ma_user_id x) user) as [|Hne]; cbn; [done|]. by rewrite (Hsame Hne).
Qed.
Lemma auth_plain {E A} (m : io (world K R) E A) w r w' : preserves (spares user) m -> NoDup (ma_id <$> rows w) ->
  on_desk (on_ow (T := T) (on_auth m)) w = (r, w') -> plain w w'.
Proof using Type.
  intros Hm Hnodup. unfold on_desk, on_ow, on_auth. destruct (m (auth_view (dk_ow (of_desk w)))) as [x g] eqn:Hg. intros [= _ <-].
  eapply spare_plain; [|done..]. cbn. apply write_back_spare. apply (Hm _ _ _ Hg). cbn. by rewrite <-list_fmap_compose.
Qed.
Lemma own_auth {E A} o (m : io (world K R) E A) : preserves (spares user) m -> preserves (own_step o) (on_desk (on_ow (T := T) (on_auth m))).
Proof using Type.
  intros Hm w r w' Hr Hok. refine (plain_own o w w' _ Hok). eapply auth_plain; [done|apply Hok|done].
Qed.
Lemma own_dek o : preserves (own_step o) (user_dek (K := K) (R := R) (T := T) user).
Proof using Type. unfold user_dek. preserve. apply own_auth, get_user_dek_spares. Qed.
Lemma own_sealed o dek secret : preserves (own_step o) (sealed (K := K) (R := R) (T := T) dek secret).
Proof using Type. unfold sealed. preserve. apply own_auth, same_spares, encrypt_same. Qed.
(** One statement over the account rows. *)
Lemma rows_run {A} (f : list MailAccountRow -> A * list MailAccountRow) w r w' : rows_stmt (K := K) (R := R) (T := T) f w = (r, w') ->
  exists w1, tables_of w1 = tables_of w /\ side_of w1 = side_of w /\ account_seq w1 = account_seq w /\ rows w1 = rows w /\
    (r = Err AccountDatabase /\ w' = w1 \/
     r = Ok (fst (f (rows w))) /\ w' = set_desk (Desk.set_ow (OAuth.set_rows (snd (f (rows w))) (dk_ow (of_desk w1))) (of_desk w1)) w1).
Proof using Type.
  unfold rows_stmt, no_database, map_err, on_desk, Desk.stmt. destruct (mstmt _ _) as [x db] eqn:Hm.
  assert (ml_folders db = ml_folders (dk_mail (of_desk w)) /\ ml_messages db = ml_messages (dk_mail (of_desk w)) /\
    ml_cursors db = ml_cursors (dk_mail (of_desk w))) as (Hf & Hme & Hc).
  { revert Hm. unfold mstmt. destruct (ml_fuse _) as [[|n]|]; by intros [= _ <-]. }
  destruct x as [u|e].
  - intros Hr. exists (set_desk (Desk.set_mail db (of_desk w)) w). unfold tables_of. cbn. rewrite Hf, Hme, Hc. split_and!; [done..|]. right.
    revert Hr. cbn. change (accounts (Desk.set_mail db (of_desk w))) with (rows w). destruct (f (rows w)) as [a l]. by intros [= <- <-].
  - intros [= <- <-]. exists (set_desk (Desk.set_mail db (of_desk w)) w). unfold tables_of. cbn. rewrite Hf, Hme, Hc. split_and!; [done..|]. by left.
Qed.
Lemma own_rows {A} o (f : list MailAccountRow -> A * list MailAccountRow) :
  (forall l, Forall2 (fun r r' => ma_id r' = ma_id r /\ ma_user_id r' = ma_user_id r /\ (ma_user_id r <> user -> r' = r)) l (snd (f l))) ->
  preserves (own_step o) (rows_stmt (K := K) (R := R) (T := T) f).
Proof using Type.
  intros Hf. apply own_plain. intros w r w' (w1 & Ht & Hs & Hq & Hr & [[_ ->]|[_ ->]])%rows_run.
  - split; try done; unfold owners, rows_of_others; by rewrite Hr.
  - specialize (Hf (rows w)). split; try done; unfold owners, rows_of_others; cbn; clear -Hf;
      (induction Hf as [|x y l l' (Hi & Hu & Hsame) _ IH]; [done|]); cbn; rewrite IH, ?Hi, ?Hu; [done|].
    destruct (String.eqb_spec (ma_user_id x) user) as [|Hne]; cbn; [done|]. by rewrite (Hsame Hne).
Qed.
Lemma own_read {A} o (f : list MailAccountRow -> A) : preserves (own_step o) (rows_stmt (K := K) (R := R) (T := T) (fun l => (f l, l))).
Proof using Type. apply own_rows. intros l. cbn. induction l; by constructor. Qed.

Lemma mine_not_foreign w a b : accounts_ok w -> mine user (rows w) a -> foreign b w -> b <> a.
Proof using Type.
  intros Hok (r & Hr & <- & Hu) (x & -> & Hx)%list_elem_of_fmap Heq. apply list_elem_of_In, filter_In in Hx as [Hx Hne]. apply list_elem_of_In in Hx.
  rewrite (same_key ma_id (rows w) x r (ak_ids w Hok) Hx Hr Heq), Hu, String.eqb_refl in Hne. done.
Qed.
Lemma own_evict a : preserves (own_step (Some a)) (evict_seam (K := K) (R := R) (T := T) a).
Proof using Type.
  intros w r w' [= _ <-] Hok Hm. split; [by destruct Hok; split|]. split; [done|]. split; [done| |done]. intros b Hb. unfold mail_of. cbn.
  f_equal. apply lookup_delete_ne. intros <-. by apply (mine_not_foreign w a a Hok Hm Hb).
Qed.
Lemma own_persist a c l : preserves (own_step (Some a)) (persist_dav_urls (K := K) (R := R) (T := T) a c l).
Proof using Type.
  unfold persist_dav_urls, account_stmt. apply pres_map_err. intros w r w' Hr.
  assert (exists e, rows_stmt (K := K) (R := R) (T := T) (fun rows => (tt, update_rows a (set_dav_urls c l) rows)) w = (e, w')) as [e He].
  { exists (rmap_err (fun _ => AccountDatabase) r). unfold rows_stmt, no_database, map_err. by rewrite Hr. }
  intros Hok Hm. apply rows_run in He as (w1 & Ht & Hs & Hq & Hro & [[_ ->]|[_ ->]]).
  - revert Hok Hm. apply plain_own. split; try done; unfold owners, rows_of_others; by rewrite Hro.
  - refine (plain_own (Some a) w _ _ Hok Hm).
    split; try done; unfold owners, rows_of_others, rows, accounts; cbn [of_desk set_desk Desk.set_ow dk_ow OAuth.set_rows ow_rows snd].
    + unfold update_rows. rewrite map_map. apply map_ext. intros x. by destruct (account_is a x).
    + apply others_update; [apply Hok|exact Hm|done].
Qed.
Lemma own_discover a email password auth_type : preserves (own_step (Some a)) (auto_discover (K := K) (R := R) (T := T) a email password auth_type).
Proof using Type.
  unfold auto_discover, try_auto_discover_pim. apply pres_map_err. destruct (negb _); [preserve|]. apply pres_bind; [apply _| |].
  - unfold unless_panic, discover_homesets, discover, home_of. preserve; apply own_wire.
  - intros [[c l]|]; [|preserve]. apply pres_bind; [apply _|apply pres_attempt, own_persist|]. intros ?. preserve.
Qed.
Lemma own_find o a : preserves (own_step o) (find_account (K := K) (R := R) (T := T) a user).
Proof using Type. unfold find_account. preserve. apply own_read. Qed.
Lemma own_sealed_for o secret : preserves (own_step o) (sealed_for (K := K) (R := R) (T := T) user secret).
Proof using Type. unfold sealed_for. preserve; [apply own_dek|apply own_sealed]. Qed.
Lemma own_checked o b : preserves (own_step o) (checked (K := K) (R := R) (T := T) user b).
Proof using Type. unfold checked. preserve; apply own_sealed_for. Qed.
Lemma own_write o a b c : preserves (own_step o) (rows_stmt (K := K) (R := R) (T := T)
  (fun l => (tt, map (fun r => if owned_account user a r then updated_row b c r else r) l))).
Proof using Type.
  apply own_rows. intros l. cbn. induction l as [|r l IH]; constructor; [|done]. destruct (owned_account user a r) eqn:Ho; [|done].
  split_and!; [done|done|]. apply andb_true_iff in Ho as [_ ->%String.eqb_eq]. done.
Qed.
Lemma mine_row w a : is_Some (my_row user a (rows w)) -> mine user (rows w) a.
Proof using Type.
  intros [r Hr]. apply find_some in Hr as [Hr [Ha%String.eqb_eq Hu%String.eqb_eq]%andb_true_iff]. exists r.
  split_and!; [by apply list_elem_of_In|done|done].
Qed.
Lemma own_update a b : preserves (own_step None) (update_account (K := K) (R := R) (T := T) user a b).
Proof using Type.
  unfold update_account. intros w r w' [(e & He & _)|(row & w1 & Hx & Hr)]%bind_inv; [by eapply own_read|].
  pose proof (own_read None _ _ _ _ Hx) as Hstep. trans w1; [exact Hstep|].
  apply bind_inv in Hr as [(e & He & _)|(u & w2 & He & Hr)]; (unfold ensure in He; destruct (bool_decide (is_Some row)) eqn:Hrow); [done|by injection He as _ <-| |done].
  injection He as _ <-. apply bool_decide_eq_true in Hrow.
  assert (mine user (rows w1) a) as Hm.
  { apply rows_run in Hx as (w2 & _ & _ & _ & Hro & [[? _]|[[= ->] ->]]); [done|]. by apply mine_row. }
  intros Hok _. revert Hr Hok Hm. intros Hr Hok Hm.
  enough (own_step (Some a) w1 w') as Hs by (destruct (Hs Hok Hm) as (? & _ & ?); by split).
  revert Hr. generalize w1 r w'. change (preserves (own_step (Some a)) (let! c := checked user b in
    let! _ := rows_stmt (fun l => (tt, map (fun r => if owned_account user a r then updated_row b c r else r) l)) in
    let! _ := when (touches_session b) (evict_seam a) in
    let! found := find_account a user in
    match ua_password b with
    | Some password => if rediscovers b found then
        let! urls := auto_discover a (ac_email_address found) password (default "password" (ac_auth_type found)) in ret (with_urls urls found)
        else ret found
    | None => ret found
    end)).
  preserve; first [apply own_checked|apply own_write|apply own_evict|apply own_find|apply own_discover].
Qed.

#[local] Instance plain_pre : PreOrder plain.
Proof. split; [done|]. intros x y z [? ? ? ? ?] [? ? ? ? ?]. split; congruence. Qed.
Lemma plain_choose a b c d e : preserves plain (choose_send_protocol (K := K) (R := R) (T := T) a b c d e).
Proof using Type.
  unfold choose_send_protocol. preserve. intros w r w'. unfold on_wire, on_desk, Desk.on_net. destruct (connect _ _ _ _ _) as [x n]. by intros [= _ <-].
Qed.
(** A new row of the user, with an id drawn before. *)
Lemma own_insert row n w r w' : rows_stmt (K := K) (R := R) (T := T) (fun l => (tt, l ++ [row])%list) w = (r, w') ->
  ma_id row = store_uuid n -> ma_user_id row = user -> (n < account_seq w)%N -> store_uuid n ∉ ma_id <$> rows w -> accounts_ok w ->
  accounts_ok w' /\ spared w w' /\ (r = Ok tt -> mine user (rows w') (ma_id row)).
Proof using Hids.
  intros (w1 & Ht & Hs & Hq & Hro & [[-> ->]|[-> ->]])%rows_run Hi Hu Hn Hnew Hok.
  - assert (plain w w1) as Hp by (split; try done; unfold owners, rows_of_others; by rewrite Hro).
    destruct (plain_own None w w1 Hp Hok I) as (? & _ & ?). by split_and!.
  - split; [|split].
    + destruct Hok as [Ha1 Ha2 Ha3]. split; unfold rows, accounts, account_seq; cbn; rewrite ?fmap_app.
      * apply nodup_snoc; [done|]. cbn. by rewrite Hi.
      * intros k Hk. cbn. rewrite not_elem_of_app, list_elem_of_singleton, Hi. unfold account_seq in *. rewrite Hq in Hk.
        split; [by apply Ha2|]. intros Heq%store_uuid_inj. subst k. lia.
      * unfold tables_of in Ht. injection Ht as _ -> _ _. done.
    + split; [| |].
      * unfold rows_of_others, rows, accounts. cbn. rewrite List.filter_app. cbn. by rewrite Hu, String.eqb_refl, app_nil_r.
      * intros a _. apply (tables_holdings w); done.
      * intros a _. apply (tables_holdings w); done.
    + intros _. exists row. cbn. split_and!; [|done|done]. unfold rows, accounts. cbn. apply elem_of_app. right. by left.
Qed.
Lemma own_create b : preserves (own_step None) (create_account (K := K) (R := R) (T := T) user b).
Proof using Hids.
  unfold create_account. destruct (negb _); [preserve|].
  apply pres_bind; [apply _|preserve|]. intros isec. apply pres_bind; [apply _|preserve|]. intros ssec.
  apply pres_bind; [apply _|apply own_dek|]. intros dek. apply pres_bind; [apply _|apply own_sealed|]. intros credential.
  intros w r w' Hr Hok _. unfold bind at 1 in Hr. cbn in Hr.
  match type of Hr with bind _ _ ?w1 = _ => assert (own_step None w w1 /\ account_seq w1 = N.succ (account_seq w) /\ rows w1 = rows w) as (Hs1 & Hq1 & Hro1); [|revert Hr; set (w0 := w1) in *; intros Hr] end.
  { split; [|done]. intros [? Hn ?] _. split; [split; [done| |done]|by split]. intros k Hk. apply Hn. unfold account_seq in *. cbn in Hk. lia. }
  destruct (Hs1 Hok I) as (Hok1 & _ & Hsp1).
  assert (forall w2, own_step None w0 w2 -> accounts_ok w2 /\ True /\ spared w w2) as Hend.
  { intros w2 Hw2. apply (transitivity Hs1 Hw2); done. }
  apply bind_inv in Hr as [(e & He & _)|(proto & w2 & He & Hr)]; pose proof (plain_choose _ _ _ _ _ _ _ _ He) as Hp; [by apply Hend, plain_own|].
  pose proof (plain_own None _ _ Hp) as Hs2. destruct (Hs2 Hok1 I) as (Hok2 & _ & _).
  assert (account_seq w2 = N.succ (account_seq w)) as Hq2 by (by rewrite (pl_seq _ _ Hp)).
  assert (store_uuid (account_seq w) ∉ ma_id <$> rows w2) as Hnew.
  { rewrite owner_list_ids, (pl_owners _ _ Hp), <-owner_list_ids, Hro1. apply Hok. lia. }
  apply bind_inv in Hr as [(e & Hi & _)|(u & w3 & Hi & Hr)];
    (eapply (own_insert _ (account_seq w)) in Hi as (Hok3 & Hsp3 & Hm3); [|reflexivity|reflexivity|lia|exact Hnew|exact Hok2]).
  - apply Hend. trans w2; [exact Hs2|]. intros _ _. by split_and!.
  - assert (own_step None w0 w3) as Hs3 by (trans w2; [exact Hs2|intros _ _; by split_and!]).
    destruct u. specialize (Hm3 eq_refl). apply Hend. trans w3; [exact Hs3|]. intros Hok3' _.
    enough (own_step (Some (store_uuid (account_seq w))) w3 w') as Hlast by (destruct (Hlast Hok3' Hm3) as (? & _ & ?); by split_and!).
    revert Hr. generalize w3 r w'. match goal with |- forall x y z, ?m x = _ -> _ => change (preserves (own_step (Some (store_uuid (account_seq w)))) m) end.
    preserve; [apply own_jobs|apply own_discover].
Qed.

Lemma held_left {A} (account : A -> string) a b (l : list A) :
  held account b (List.filter (fun x => negb (String.eqb a (account x))) l) = if String.eqb a b then [] else held account b l.
Proof using Type.
  unfold held. induction l as [|x l IH]; cbn; [by destruct (String.eqb a b)|]. destruct (String.eqb_spec a (account x)) as [->|Ha]; cbn.
  - rewrite IH. destruct (String.eqb_spec (account x) b); [done|done].
  - rewrite IH. destruct (String.eqb_spec (account x) b) as [<-|Hb]; destruct (String.eqb_spec a (account x)); try done; by destruct (String.eqb a b).
Qed.
(** What a deletion leaves. *)
Record account_gone (a : string) w w' : Prop := {
  ag_rows : rows w' = List.filter (fun r => negb (String.eqb (ma_id r) a)) (rows w);
  ag_mail : mail_of a w' = ([], [], [], None);
  ag_pim : pim_of a w' = ([], [], [], held cu_account a (pt_cursors (of_pim w)));
  ag_others b : b <> a -> mail_of b w' = mail_of b w /\ pim_of b w' = pim_of b w;
  ag_seq : account_seq w' = account_seq w;
  ag_messages : sublist (ml_messages (dk_mail (of_desk w'))) (ml_messages (dk_mail (of_desk w))) }.
Lemma office_run {A} (f : W -> A * W) w r w' : office_stmt (K := K) (R := R) (T := T) f w = (r, w') ->
  exists w1, tables_of w1 = tables_of w /\ side_of w1 = side_of w /\ account_seq w1 = account_seq w /\ rows w1 = rows w /\
    (r = Err AccountDatabase /\ ml_fuse (dk_mail (of_desk w)) = Some O /\ w' = w1 \/ r = Ok (fst (f w1)) /\ w' = snd (f w1)).
Proof using Type.
  unfold office_stmt. destruct (mstmt _ _) as [x db] eqn:Hm. intros Hr.
  assert (ml_folders db = ml_folders (dk_mail (of_desk w)) /\ ml_messages db = ml_messages (dk_mail (of_desk w)) /\
    ml_cursors db = ml_cursors (dk_mail (of_desk w))) as (Hf & Hme & Hc).
  { revert Hm. unfold mstmt. destruct (ml_fuse _) as [[|n]|]; by intros [= _ <-]. }
  exists (set_desk (Desk.set_mail db (of_desk w)) w). unfold tables_of. cbn. rewrite Hf, Hme, Hc. split_and!; [done..|].
  destruct x; [|injection Hr as <- <-; left; split_and!; [done| |done]; revert Hm; unfold mstmt; by destruct (ml_fuse _) as [[|n]|]]. right. destruct (f _) as [y w2]. by injection Hr as <- <-.
Qed.
Lemma survivors_bits a b w : NoDup (m_id <$> ml_messages (dk_mail (of_desk w))) -> b <> a ->
  forall m, m ∈ held m_account b (ml_messages (dk_mail (of_desk w))) -> m_id m ∉ gone_messages (String.eqb a) (dk_mail (of_desk w)).
Proof using Type.
  intros Hnd Hb m Hm Hin. unfold gone_messages in Hin. apply elem_of_list_to_set, list_elem_of_In, in_map_iff in Hin as (x & Hx & Hin).
  apply filter_In in Hin as [Hin Ha%String.eqb_eq]. apply list_elem_of_In, filter_In in Hm as [Hm Hmb%String.eqb_eq].
  apply list_elem_of_In in Hin, Hm. rewrite (same_key m_id _ x m Hnd Hin Hm Hx) in Ha. congruence.
Qed.
Lemma cascade_mail_of a b w o p : NoDup (m_id <$> ml_messages (dk_mail (of_desk w))) -> b <> a ->
  tables_of (mkOffice o p) = tables_of w -> side_of (mkOffice o p) = side_of w ->
  forall q, mail_of b (mkOffice (Desk.set_seams (evict a (dk_seams o)) (cascade_desk (K := K) (R := R) (String.eqb a) o)) q) = mail_of b w.
Proof using Type.
  intros Hnd Hb [= Hf Hm Hc _] [= Hv Hd Hs] q. pose proof (survivors_bits a b w Hnd Hb) as Hbits. cbn in *. unfold mail_of, cascade_desk, cascade_mail. cbn.
  rewrite Hf, Hm, Hc, Hv, Hd, Hs, !held_left, (proj2 (String.eqb_neq a b)) by done. f_equal; [f_equal; f_equal|unfold evict; by apply lookup_delete_ne].
  apply map_ext_in. intros m Hin%list_elem_of_In. specialize (Hbits m Hin). unfold gone_messages in *. cbn in *. rewrite Hm. f_equal; [f_equal|].
  - rewrite map_lookup_filter. destruct (dk_verdicts (of_desk w) !! m_id m); [|done]. cbn. by rewrite option_guard_True.
  - apply bool_decide_ext. rewrite elem_of_difference. clear -Hbits. tauto.
Qed.
Lemma delete_outcome a w r w' : accounts_ok w -> delete_account (K := K) (R := R) (T := T) user a w = (r, w') ->
  match r with
  | Ok _ => mine user (rows w) a /\ account_gone a w w'
  | Err e => plain w w' /\ (e = AccountDatabase /\ ml_fuse (dk_mail (of_desk w)) = Some O \/ e = AccountMissing /\ ~ mine user (rows w) a)
  end.
Proof using Type.
  intros Hok Hr. unfold delete_account in Hr.
  apply bind_inv in Hr as [(e & He & ->)|(found & w2 & Hx & Hr)].
  { apply office_run in He as (w1 & Ht & Hs & Hq & Hro & [([= ->] & Hfuse & ->)|[? _]]); [|done]. split; [|by left].
    split; try done; unfold owners, rows_of_others; by rewrite Hro. }
  apply office_run in Hx as (w1 & Ht & Hs & Hq & Hro & [(? & _)|[[= ->] ->]]); [done|]. revert Hr. unfold without_account.
  change (accounts (of_desk w1)) with (rows w1). rewrite Hro. destruct (existsb (owned_account user a) (rows w)) eqn:Hhit; cbn [fst snd].
  - unfold bind, ensure, ret, evict_seam, on_desk, modify. intros [= <- <-]. apply existsb_exists in Hhit as (x & Hx & [Hxa%String.eqb_eq Hxu%String.eqb_eq]%andb_true_iff).
    apply list_elem_of_In in Hx. split; [by exists x|]. unfold tables_of in Ht. injection Ht as Hf Hm Hc Hp. unfold side_of in Hs. injection Hs as Hv Hd Hse.
    split.
    + unfold rows, accounts. cbn. apply filter_ext_in. intros y Hy%list_elem_of_In. unfold owned_account, account_is. f_equal.
      destruct (String.eqb_spec (ma_id y) a) as [Hya|]; [|done]. rewrite (same_key ma_id _ y x (ak_ids w Hok) Hy Hx) by congruence. by rewrite Hxu, String.eqb_refl.
    + unfold mail_of. cbn. rewrite !held_left, String.eqb_refl. cbn. f_equal. apply lookup_delete_eq.
    + unfold pim_of. cbn. rewrite !held_left, String.eqb_refl, Hp. done.
    + intros b Hb. split.
      * apply (cascade_mail_of a b w (Desk.set_ow (OAuth.set_rows (List.filter (fun r => negb (owned_account user a r)) (rows w)) (dk_ow (of_desk w1)))
          (of_desk w1)) (of_pim w1)); [apply Hok|done| |]; unfold tables_of, side_of; cbn; by rewrite ?Hf, ?Hm, ?Hc, ?Hp, ?Hv, ?Hd, ?Hse.
      * unfold pim_of. cbn. rewrite !held_left, Hp. by rewrite (proj2 (String.eqb_neq a b)).
    + done.
    + cbn. rewrite Hm. apply sublist_filter.
  - unfold bind, ensure, throw. intros [= <- <-]. split; [split; try done; unfold owners, rows_of_others; by rewrite Hro|]. right. split; [done|].
    intros (x & Hx & Ha & Hu). apply Bool.not_true_iff_false in Hhit. apply Hhit, existsb_exists. exists x.
    split; [by apply list_elem_of_In|]. unfold owned_account, account_is. by rewrite Ha, Hu, !String.eqb_refl.
Qed.
Lemma own_deletion a : preserves (own_step None) (delete_account (K := K) (R := R) (T := T) user a).
Proof using Type.
  intros w r w' Hr Hok _. apply delete_outcome in Hr; [|done]. destruct r as [u|e]; [|exact (plain_own None w w' (proj1 Hr) Hok I)].
  destruct Hr as [Hm [Hro Hma Hp Hb Hq Hms]]. split; [|split; [done|]].
  - destruct Hok as [Hi Hn Hmsg]. split; rewrite ?Hro, ?Hq.
    + eapply sublist_NoDup; [exact Hi|]. apply fmap_sublist, sublist_filter.
    + intros n Hle (x & Hx & Hin)%list_elem_of_fmap. apply (Hn n Hle). rewrite Hx. apply list_elem_of_fmap_2.
      apply list_elem_of_In, filter_In in Hin as [Hin _]. by apply list_elem_of_In.
    + eapply sublist_NoDup; [exact Hmsg|]. by apply fmap_sublist.
  - assert (rows_of_others w' = rows_of_others w) as Hothers.
    { unfold rows_of_others. rewrite Hro. assert (forall x, x ∈ rows w -> ma_id x = a -> ma_user_id x = user) as Hall.
      { intros x Hx Hi. destruct Hm as (y & Hy & Hya & <-). f_equal. apply (same_key ma_id (rows w)); [apply Hok|done..|congruence]. }
      clear -Hall. induction (rows w) as [|x l IH]; [done|]. cbn.
      destruct (String.eqb_spec (ma_id x) a) as [Hi|]; cbn; rewrite IH by (intros y Hy; apply Hall; by right); [|done].
      rewrite (Hall x (list_elem_of_here _ _) Hi). by rewrite String.eqb_refl. }
    split; [done| |]; intros b Hf; apply Hb; by apply (mine_not_foreign w).
Qed.

(** ** The routes *)

Inductive AccountCall :=
| ListAccounts | GetAccount (id : string) | SyncErrors (id : string) (limit : option Z) | CreateAccount (b : CreateAccountRequest)
| UpdateAccount (id : string) (b : UpdateAccountRequest) | DeleteAccount (id : string).
Definition account_call (call : AccountCall) : io W AccountError unit :=
  match call with
  | ListAccounts => let! _ := list_accounts user in ret tt
  | GetAccount id => let! _ := get_account user id in ret tt
  | SyncErrors id limit => let! _ := list_account_sync_errors user id limit in ret tt
  | CreateAccount b => let! _ := create_account user b in ret tt
  | UpdateAccount id b => let! _ := update_account user id b in ret tt
  | DeleteAccount id => delete_account user id
  end.

(** C27: account routes never cross users.  Whatever a user asks of the account routes, whatever
    the servers answer and wherever the database fails, the account rows of every other user, and
    the folders, messages with their verdicts and draft marks, cursors, JMAP session, contacts,
    calendars, events and sync tokens of every account of another user, stay exactly as they
    were; ids stay unique and are never drawn twice. *)
Theorem accounts_stay_apart call w r w' : accounts_ok w -> account_call call w = (r, w') -> accounts_ok w' /\ spared w w'.
Proof using All.
  intros Hok Hr. enough (own_step None w w') as Hs by (by destruct (Hs Hok I) as (? & _ & ?)).
  revert Hr. revert w r w' Hok. destruct call; intros w r w' _ Hr; revert w r w' Hr;
    match goal with |- forall w r w', ?m w = _ -> _ => change (preserves (own_step None) m) end; cbn [account_call].
  - unfold list_accounts. preserve. apply own_read.
  - unfold get_account. preserve. apply own_find.
  - unfold list_account_sync_errors. preserve; [apply own_find|apply own_jobs].
  - apply pres_bind; [apply _|apply own_create|]. intros ?. preserve.
  - apply pres_bind; [apply _|apply own_update|]. intros ?. preserve.
  - apply own_deletion.
Qed.
(** C28: a deleted account leaves nothing behind but its DAV tokens.  Unless the database is down a
    deletion answers by whether the account is the user's: if it is, its row, folders, messages,
    cursors, cached JMAP session, contacts, calendars and events are gone and everything of every
    other account is as it was; if it is not, 404, and nothing changed. *)
Theorem deleted_account_leaves_nothing a w r w' : accounts_ok w -> delete_account (K := K) (R := R) (T := T) user a w = (r, w') ->
  match r with
  | Ok _ => mine user (rows w) a /\ account_gone a w w'
  | Err e => plain w w' /\ (e = AccountDatabase /\ ml_fuse (dk_mail (of_desk w)) = Some O \/ e = AccountMissing /\ ~ mine user (rows w) a)
  end.
Proof using Type. apply delete_outcome. Qed.
End Own.

(** ** The password a user saves *)

Section Saved.
Context {K R T : Type} `{HasRng R} `{!RngLaws R} `{CryptoLib} `{!CryptoLaws} `{OAuthNet T} `{JmapWrites T} `{ImapSession T} `{MimeLib}
  `{UrlLib} `{UrlJoin} `{JmapTime} `{StoreLib} `{JsonLib} `{JobLib} `{CivilLib} `{DavNet T} `{UpperLib} `{ErrorTexts}.
Local Abbreviation W := (office K R T).
Implicit Types w : W.
Context (user : string).

(** The user's stored data key opens to [dek], and the key store answers. *)
Definition key_stored dek w : Prop :=
  w_db_up (ow_auth (dk_ow (of_desk w))) = true /\
  exists m u j, w_master (ow_auth (dk_ow (of_desk w))) = Some m /\ find_user user (w_users (ow_auth (dk_ow (of_desk w)))) = Some u /\
    u_encrypted_dek u = Some j /\ unwrap_dek (derive_user_kek m user) j = Ok dek /\ String.length dek = 32%nat.
(** The columns a save is about. *)
Definition secrets (r : MailAccountRow) : string * string * string * option string :=
  (ma_id r, ma_user_id r, ma_credential r, ax_pim_credential (ma_extras r)).
Definition same_secrets dek w w' : Prop := (key_stored dek w -> key_stored dek w') /\ map secrets (rows w') = map secrets (rows w).
#[local] Instance secrets_pre dek : PreOrder (same_secrets dek).
Proof. split; [done|]. intros x y z [? ?] [? ?]. split; [auto|congruence]. Qed.
Lemma secrets_simple {E A} dek (m : io W E A) :
  (forall w r w', m w = (r, w') -> ow_auth (dk_ow (of_desk w')) = ow_auth (dk_ow (of_desk w)) /\ map secrets (rows w') = map secrets (rows w)) ->
  preserves (same_secrets dek) m.
Proof using Type. intros Hm w r w' Hr. destruct (Hm _ _ _ Hr) as [Ha Hs]. split; [|done]. unfold key_stored. by rewrite Ha. Qed.
Lemma secrets_wire {E A} dek (m : io T E A) : preserves (same_secrets dek) (on_wire (K := K) (R := R) m).
Proof using Type. apply secrets_simple. intros w r w'. unfold on_wire, on_desk, Desk.on_net. destruct (m _) as [x n]. by intros [= _ <-]. Qed.
Lemma secrets_jobs {A} dek (m : io jworld SqlxError A) : preserves (same_secrets dek) (on_jobs (K := K) (R := R) (T := T) m).
Proof using Type. apply secrets_simple. intros w r w'. unfold on_jobs, on_desk. destruct (m _) as [x n]. by intros [= _ <-]. Qed.
Lemma secrets_rows {A} dek (f : list MailAccountRow -> A * list MailAccountRow) : (forall l, map secrets (snd (f l)) = map secrets l) ->
  preserves (same_secrets dek) (rows_stmt (K := K) (R := R) (T := T) f).
Proof using Type.
  intros Hf. apply secrets_simple. intros w r w'. unfold rows_stmt, no_database, map_err, on_desk, Desk.stmt.
  destruct (mstmt _ _) as [[u|e] db]; [|by intros [= _ <-]]. change (accounts (Desk.set_mail db (of_desk w))) with (rows w).
  specialize (Hf (rows w)). destruct (f (rows w)) as [y l]. by intros [= _ <-].
Qed.
Lemma secrets_read {A} dek (f : list MailAccountRow -> A) : preserves (same_secrets dek) (rows_stmt (K := K) (R := R) (T := T) (fun l => (f l, l))).
Proof using Type. by apply secrets_rows. Qed.
Lemma secrets_evict dek a : preserves (same_secrets dek) (evict_seam (K := K) (R := R) (T := T) a).
Proof using Type. apply secrets_simple. by intros w r w' [= _ <-]. Qed.
Lemma secrets_persist dek a c l : preserves (same_secrets dek) (persist_dav_urls (K := K) (R := R) (T := T) a c l).
Proof using Type.
  unfold persist_dav_urls, account_stmt. apply pres_map_err. intros w r w' Hr.
  eapply (secrets_rows dek (fun rows => (tt, update_rows a (set_dav_urls c l) rows))).
  - intros rs. cbn. unfold update_rows. rewrite map_map. apply map_ext. intros x. by destruct (account_is a x).
  - unfold rows_stmt, no_database, map_err. rewrite Hr. reflexivity.
Qed.
Lemma secrets_discover dek a email password auth_type :
  preserves (same_secrets dek) (auto_discover (K := K) (R := R) (T := T) a email password auth_type).
Proof using Type.
  unfold auto_discover, try_auto_discover_pim. apply pres_map_err. destruct (negb _); [preserve|]. apply pres_bind; [apply _| |].
  - unfold unless_panic, discover_homesets, discover, home_of. preserve; apply secrets_wire.
  - intros [[c l]|]; [|preserve]. apply pres_bind; [apply _|apply pres_attempt, secrets_persist|]. intros ?. preserve.
Qed.
Lemma secrets_choose dek a b c d e : preserves (same_secrets dek) (choose_send_protocol (K := K) (R := R) (T := T) a b c d e).
Proof using Type. unfold choose_send_protocol. preserve. apply secrets_wire. Qed.

Lemma dek_found dek w : key_stored dek w -> exists w', user_dek user w = (Ok dek, w') /\ same_secrets dek w w'.
Proof using Type.
  intros (Hu & m & u & j & Hm & Hf & Hj & Hd & Hl). eexists. unfold user_dek, map_err, on_desk, on_ow, on_auth.
  erewrite (get_user_dek_stored user m u j dek (auth_view (dk_ow (of_desk w)))); [|done..]. split; [done|].
  split; [intros (_ & ?); split; done|]. unfold rows, accounts. cbn. unfold write_back. induction (ow_rows _) as [|r l IH]; [done|]. cbn. by rewrite IH.
Qed.
Lemma sealed_up dek secret w : key_stored dek w ->
  exists enc w', sealed dek secret w = (Ok (cred_to_json enc), w') /\ same_secrets dek w w' /\ decrypt dek enc = Ok secret.
Proof using All.
  intros (Hu & m & u & j & Hm & Hf & Hj & Hd & Hl). destruct (encrypt_world dek secret (auth_view (dk_ow (of_desk w))) Hl) as (enc & g & He & Hdec).
  eexists enc, _. unfold sealed, bind, map_err, on_desk, on_ow, on_auth. rewrite He. cbn. split; [done|]. split; [|done].
  split; [intros (? & ?); by split|]. unfold rows, accounts. cbn. unfold write_back. induction (ow_rows _) as [|r l IH]; [done|]. cbn. by rewrite IH.
Qed.
Definition opens_to dek (blob secret : string) : Prop := exists enc, cred_of_json blob = Some enc /\ decrypt dek enc = Ok secret.
Lemma blob_opens dek enc secret : decrypt dek enc = Ok secret -> opens_to dek (cred_to_json enc) secret.
Proof using All. intros Hd. exists enc. split; [apply Crypto.json_roundtrip|done]. Qed.

Lemma has_secret w w' dek x : same_secrets dek w w' -> x ∈ map secrets (rows w) -> exists row, row ∈ rows w' /\ secrets row = x.
Proof using Type.
  intros [_ Hs] Hx. rewrite <-Hs in Hx. apply list_elem_of_In, in_map_iff in Hx as (row & <- & Hr). exists row. split; [by apply list_elem_of_In|done].
Qed.
Lemma rows_written {A} (f : list MailAccountRow -> A * list MailAccountRow) dek w a w' :
  rows_stmt (K := K) (R := R) (T := T) f w = (Ok a, w') -> rows w' = snd (f (rows w)) /\ (key_stored dek w -> key_stored dek w').
Proof using Type.
  unfold rows_stmt, no_database, map_err, on_desk, Desk.stmt. destruct (mstmt _ _) as [[u|e] db]; [|done].
  change (accounts (Desk.set_mail db (of_desk w))) with (rows w). destruct (f (rows w)) as [y l]. by intros [= _ <-].
Qed.
Lemma urls_id found a : ac_id (with_urls found a) = ac_id a.
Proof using Type. by destruct found. Qed.
Lemma created_password_opens dek b w a w' : key_stored dek w -> create_account user b w = (Ok a, w') ->
  exists row, row ∈ rows w' /\ ma_id row = ac_id a /\ ma_user_id row = user /\ opens_to dek (ma_credential row) (ca_password b).
Proof using All.
  intros Hk. unfold create_account. destruct (negb _); [done|]. intros Hr.
  apply bind_Ok in Hr as (isec & w1 & Hx & Hr). unfold lift in Hx. injection Hx as _ <-.
  apply bind_Ok in Hr as (ssec & w1 & Hx & Hr). unfold lift in Hx. injection Hx as _ <-.
  destruct (dek_found dek w Hk) as (w2 & Hd & Hs2). unfold bind at 1 in Hr. rewrite Hd in Hr.
  destruct (sealed_up dek (ca_password b) w2 (proj1 Hs2 Hk)) as (enc & w3 & Hse & Hs3 & Hdec). unfold bind at 1 in Hr. rewrite Hse in Hr.
  apply bind_Ok in Hr as (id & w4 & _ & Hr). apply bind_Ok in Hr as (proto & w5 & _ & Hr).
  apply bind_Ok in Hr as ([] & w6 & Hi & Hr). apply (rows_written _ dek) in Hi as [Hro _]. cbn [snd] in Hro.
  set (row := created_row id user b _ _ _ _ _ _ _) in *.
  assert (same_secrets dek w6 w' /\ ac_id a = id) as [Hs6 Ha].
  { apply bind_Ok in Hr as (now & w7 & [= _ <-] & Hr). apply bind_Ok in Hr as (q & w8 & Hq & Hr).
    apply bind_Ok in Hr as (found & w9 & Hf & Hr). injection Hr as <- <-. split; [|by rewrite urls_id].
    trans w8; [|by eapply secrets_discover]. revert Hq. unfold attempt. destruct (on_jobs _ w6) as [x w10] eqn:Hj. intros [= _ <-]. by eapply secrets_jobs. }
  destruct (has_secret w6 w' dek (secrets row)) as (row' & Hin & [= Hi' Hu' Hc' _]); [done| |].
  - rewrite Hro. apply list_elem_of_In, in_map, in_or_app. right. by left.
  - exists row'. split_and!; [done|congruence|done|]. rewrite Hc'. by apply blob_opens.
Qed.

(** What an update does to a secret column. *)
Definition saved dek (new : option string) (old after : option string) : Prop :=
  match new with Some secret => exists blob, after = Some blob /\ opens_to dek blob secret | None => after = old end.
Definition resealed dek (b : UpdateAccountRequest) (row row' : MailAccountRow) : Prop :=
  ma_id row' = ma_id row /\ ma_user_id row' = ma_user_id row /\
  saved dek (ua_password b) (Some (ma_credential row)) (Some (ma_credential row')) /\
  if bool_decide (ua_clear_pim_password b = Some true) then ax_pim_credential (ma_extras row') = None
  else saved dek (ua_pim_password b) (ax_pim_credential (ma_extras row)) (ax_pim_credential (ma_extras row')).
Lemma sealed_for_saved dek secret w o w' : key_stored dek w -> sealed_for user secret w = (Ok o, w') ->
  same_secrets dek w w' /\ match secret with Some s => exists blob, o = Some blob /\ opens_to dek blob s | None => o = None end.
Proof using All.
  intros Hk. destruct secret as [s|]; cbn; [|by intros [= <- <-]]. destruct (dek_found dek w Hk) as (w2 & Hd & Hs2). unfold bind at 1. rewrite Hd.
  destruct (sealed_up dek s w2 (proj1 Hs2 Hk)) as (enc & w3 & Hse & Hs3 & Hdec). unfold bind at 1. rewrite Hse. intros [= <- <-].
  split; [by trans w2|]. eexists. split; [done|]. by apply blob_opens.
Qed.
Lemma checked_saved dek b w c w' : key_stored dek w -> checked user b w = (Ok c, w') -> same_secrets dek w w' /\
  (forall row, resealed dek b row (updated_row b c row)).
Proof using All.
  intros Hk Hr. unfold checked in Hr.
  apply bind_Ok in Hr as (u & w1 & Hx & Hr). unfold ensure in Hx. destruct (match ua_email_address b with Some _ => _ | None => _ end); [injection Hx as _ <-|done].
  apply bind_Ok in Hr as (isec & w1 & [= _ <-] & Hr). apply bind_Ok in Hr as (ssec & w1 & [= _ <-] & Hr).
  apply bind_Ok in Hr as (cd & w1 & [= _ <-] & Hr). apply bind_Ok in Hr as (cl & w1 & [= _ <-] & Hr).
  apply bind_Ok in Hr as (u1 & w1 & Hx & Hr). destruct (has_update b); [injection Hx as _ <-|done].
  apply bind_Ok in Hr as (u2 & w1 & Hx & Hr). destruct (negb _); [injection Hx as _ <-|done].
  apply bind_Ok in Hr as (cred & w2 & Hc & Hr). apply (sealed_for_saved dek) in Hc as [Hs2 Hc]; [|done].
  apply bind_Ok in Hr as (pim & w3 & Hp & Hr).
  assert (same_secrets dek w2 w3 /\ (bool_decide (ua_clear_pim_password b = Some true) = false ->
    match ua_pim_password b with Some s => exists blob, pim = Some blob /\ opens_to dek blob s | None => pim = None end)) as [Hs3 Hpim].
  { destruct (bool_decide _); [by injection Hp as _ <-|]. apply (sealed_for_saved dek) in Hp as [? ?]; [done|]. by apply Hs2. }
  apply bind_Ok in Hr as (ju & w4 & [= _ <-] & [= <- <-]). split; [by trans w2|]. intros row. split; [done|]. split; [done|]. split.
  - unfold saved. destruct (ua_password b) as [s|]; [destruct Hc as (blob & -> & Ho); by exists blob|by subst cred].
  - unfold saved. cbn. destruct (bool_decide _); [done|]. specialize (Hpim eq_refl).
    destruct (ua_pim_password b) as [s|]; [destruct Hpim as (blob & -> & Ho); by exists blob|by subst pim].
Qed.
Lemma updated_password_opens dek id b w a w' row : key_stored dek w -> update_account user id b w = (Ok a, w') ->
  row ∈ rows w -> owned_account user id row = true -> exists row', row' ∈ rows w' /\ resealed dek b row row'.
Proof using All.
  intros Hk Hr Hin Ho. unfold update_account in Hr.
  apply bind_Ok in Hr as (r0 & w1 & Hx & Hr). pose proof (secrets_read dek _ _ _ _ Hx) as Hs1. apply (rows_written _ dek) in Hx as [Hro1 Hk1]. cbn [snd] in Hro1.
  apply bind_Ok in Hr as (u & w2 & Hx & Hr). unfold ensure in Hx. destruct (bool_decide _); [injection Hx as _ <-|done].
  apply bind_Ok in Hr as (c & w3 & Hc & Hr). pose proof Hc as Hc0. apply (checked_saved dek) in Hc as [Hs3 Hre]; [|by apply Hk1].
  apply bind_Ok in Hr as (u2 & w4 & Hx & Hr). apply (rows_written _ dek) in Hx as [Hro4 _]. cbn [snd] in Hro4.
  destruct (has_secret w w3 dek (secrets row)) as (row3 & Hin3 & Heq); [by trans w1|apply list_elem_of_In, in_map; by apply list_elem_of_In|].
  injection Heq as Hi3 Hu3 Hcr3 Hp3.
  assert (Ho3 : owned_account user id row3 = true) by (unfold owned_account, account_is in *; by rewrite Hi3, Hu3).
  assert (same_secrets dek w4 w') as Hs4.
  { apply bind_Ok in Hr as (u3 & w5 & Hx & Hr). trans w5; [destruct (touches_session b); [by eapply secrets_evict|by injection Hx as _ <-]|].
    apply bind_Ok in Hr as (acc & w6 & Hx6 & Hr). trans w6.
    { unfold find_account in Hx6. apply bind_Ok in Hx6 as (? & w7 & Hx7 & Hx6). trans w7; [by eapply secrets_read|]. unfold lift in Hx6. by injection Hx6 as _ <-. }
    destruct (ua_password b); [|by injection Hr as _ <-]. destruct (rediscovers b acc); [|by injection Hr as _ <-].
    apply bind_Ok in Hr as (found & w7 & Hx7 & [= _ <-]). by eapply secrets_discover. }
  destruct (has_secret w4 w' dek (secrets (updated_row b c row3))) as (row' & Hin' & Heq); [done| |].
  - rewrite Hro4. apply list_elem_of_In, in_map, in_map_iff. exists row3. rewrite Ho3. split; [done|by apply list_elem_of_In].
  - exists row'. split; [done|]. injection Heq as Hi' Hu' Hcr' Hp'. destruct (Hre row3) as (Ha1 & Ha2 & Ha3 & Ha4). unfold resealed.
    rewrite Hi', Hu', Hcr', Hp'. rewrite <-Hi3, <-Hu3, <-Hcr3, <-Hp3. split_and!; [exact Ha1|exact Ha2|exact Ha3|exact Ha4].
Qed.

(** The password a user saves is the one the account is opened with.  With the user's data key
    stored, an account that was created holds its password sealed under that key; an accepted
    update leaves, in the row, the new password sealed so, or the blob there was when none was
    given, and the same for the contacts password, which a clear removes. *)
Theorem saved_password_opens dek w : key_stored dek w ->
  (forall b a w', create_account user b w = (Ok a, w') ->
     exists row, row ∈ rows w' /\ ma_id row = ac_id a /\ ma_user_id row = user /\ opens_to dek (ma_credential row) (ca_password b)) /\
  (forall id b a w' row, update_account user id b w = (Ok a, w') -> row ∈ rows w -> owned_account user id row = true ->
     exists row', row' ∈ rows w' /\ resealed dek b row row').
Proof using All.
  intros Hk. split; intros; [by eapply created_password_opens|by eapply updated_password_opens].
Qed.
End Saved.

(** ** Concrete requests *)

#[local] Instance no_texts : ErrorTexts := { jmap_text _ := "error"; imap_text _ := "error" }.
Definition account_office : office MemoryKv.t N toy_net :=
  mkOffice (snd (on_ow (E := CryptoError.t) (on_auth (get_user_dek "u1")) (box_desk [] [] []))) the_pim.
Definition account_dek : string := match fst (user_dek "u1" account_office) with Ok d => d | Err _ => "" end.
Lemma account_office_ok : accounts_ok account_office.
Proof.
  split.
  - apply (bool_decide_eq_true_1 _). vm_compute. reflexivity.
  - intros n _ Hin. replace (ma_id <$> rows account_office) with ["a1"; "a2"] in Hin by (vm_compute; reflexivity).
    assert (starts_with "id" (store_uuid n) = false) as Hno by (apply list_elem_of_In in Hin; destruct Hin as [<-|[<-|[]]]; reflexivity).
    cbn in Hno. by destruct (show_N n).
  - apply (bool_decide_eq_true_1 _). vm_compute. reflexivity.
Qed.
Lemma account_key_stored : key_stored "u1" account_dek account_office.
Proof.
  split; [vm_compute; reflexivity|].
  destruct (w_master (ow_auth (dk_ow (of_desk account_office)))) as [m|] eqn:Hm; [|vm_compute in Hm; discriminate Hm].
  destruct (find_user "u1" (w_users (ow_auth (dk_ow (of_desk account_office))))) as [u|] eqn:Hu; [|vm_compute in Hu; discriminate Hu].
  destruct (u_encrypted_dek u) as [j|] eqn:Hj; [|vm_compute in Hu; injection Hu as <-; discriminate Hj].
  exists m, u, j. vm_compute in Hm, Hu. injection Hm as <-. injection Hu as <-. vm_compute in Hj. injection Hj as <-.
  split_and!; [vm_compute; reflexivity..].
Qed.
Lemma accounts_stay_apart_witness :
  map ma_id (rows (snd (account_call "u1" (DeleteAccount "a1") account_office))) = ["a2"] /\
  accounts_ok (snd (account_call "u1" (DeleteAccount "a1") account_office)) /\
  spared "u1" account_office (snd (account_call "u1" (DeleteAccount "a1") account_office)).
Proof.
  split; [vm_compute; reflexivity|].
  apply (accounts_stay_apart "u1" (DeleteAccount "a1") account_office (fst (account_call "u1" (DeleteAccount "a1") account_office)));
    [exact account_office_ok|apply surjective_pairing].
Defined.
Lemma deleted_account_leaves_nothing_witness :
  fst (delete_account "u1" "a1" account_office) = Ok tt /\ account_gone "a1" account_office (snd (delete_account "u1" "a1" account_office)) /\
  fst (delete_account "u1" "a2" account_office) = Err AccountMissing.
Proof.
  split; [vm_compute; reflexivity|]. split; [|vm_compute; reflexivity].
  assert (Hr : delete_account "u1" "a1" account_office = (Ok tt, snd (delete_account "u1" "a1" account_office))) by (vm_compute; reflexivity).
  exact (proj2 (deleted_account_leaves_nothing "u1" "a1" account_office (Ok tt) _ account_office_ok Hr)).
Defined.
Definition new_password : UpdateAccountRequest :=
  mkUpdate None None (Some "better") None None None None None None None None None None None None None None (Some true).
Definition password_updated := update_account "u1" "a1" new_password account_office.
Lemma saved_password_opens_witness :
  option_map ac_email_address (rok (fst password_updated)) = Some "u1@x.org" /\
  exists row', row' ∈ rows (snd password_updated) /\ ma_id row' = "a1" /\
    exists blob, Some (ma_credential row') = Some blob /\ opens_to account_dek blob "better".
Proof.
  split; [vm_compute; reflexivity|].
  destruct (rows account_office) as [|row l] eqn:Hrows; [vm_compute in Hrows; discriminate Hrows|].
  assert (Hrow : row = hd row (rows account_office)) by (rewrite Hrows; reflexivity).
  assert (Ho : owned_account "u1" "a1" row = true) by (rewrite Hrow; vm_compute; reflexivity).
  destruct (fst password_updated) as [a|e] eqn:Hf; [|vm_compute in Hf; discriminate Hf].
  assert (Hr : update_account "u1" "a1" new_password account_office = (Ok a, snd password_updated)) by (rewrite <-Hf; unfold password_updated; apply surjective_pairing).
  destruct (saved_password_opens "u1" account_dek account_office account_key_stored) as [_ Hu].
  destruct (Hu "a1" new_password a (snd password_updated) row Hr) as (row' & Hin & Hi & _ & Hs & _);
    [rewrite Hrows; apply list_elem_of_here|exact Ho|].
  exists row'. split; [exact Hin|]. split; [|exact Hs]. rewrite Hi, Hrow. vm_compute. reflexivity.
Defined.

(** A network that answers every name with an inner and an outer address, and keeps the dialled. *)
#[local] Instance dial_log : ProbeNet (list (IpAddr * Z)) := {
  probe_get url secs l := (Err tt, l);
  lookup_host host port l := (Ok [V4 10 0 0 5; V4 93 184 216 34], l);
  tcp_connect ip port l := (if port =? 587 then Ok tt else Err tt, (l ++ [(ip, port)])%list) }.
Definition outer_dials (l l' : list (IpAddr * Z)) : Prop := exists more, l' = (l ++ more)%list /\ Forall (fun d => is_blocked_addr (fst d) = false) more.
#[local] Instance outer_pre : PreOrder outer_dials.
Proof.
  split; [intros l; exists []; split; [by rewrite app_nil_r|constructor]|]. intros x y z (m1 & -> & H1) (m2 & -> & H2). exists (m1 ++ m2)%list.
  rewrite app_assoc. split; [done|by apply Forall_app].
Qed.
Definition a_probe : ProbeRequest := mkProbe "bob@corp.example" None.
Lemma probe_dials_public_only_witness :
  option_map pr_smtp_port (rok (fst (probe_server_config a_probe []))) = Some (Some 587) /\ outer_dials [] (snd (probe_server_config a_probe [])).
Proof.
  split; [vm_compute; reflexivity|].
  apply (probe_dials_public_only outer_dials) with (b := a_probe) (r := fst (probe_server_config a_probe [])).
  - intros url secs l r l' [= _ <-]. reflexivity.
  - intros host port _ _ l r l' [= _ <-]. reflexivity.
  - intros ip port Hip _ l r l' [= _ <-]. exists [(ip, port)]. split; [done|by constructor].
  - apply surjective_pairing.
Defined.

(** ** What the code does not do *)

(** A closing tag before its opening one makes the slice panic. *)
Lemma swapped_tags_panic : extract_xml_value "</port><port>" "port" = Err AccountPanic.
Proof. vm_compute. reflexivity. Qed.
(** A JMAP base URL that an update refuses is accepted at creation. *)
Definition jmap_account : CreateAccountRequest :=
  mkCreate "Bob" "bob@x.org" (Some "jmap") None "pw" None None None None None None (Some "ftp://inside").
Lemma base_url_unchecked_at_creation :
  option_map ac_jmap_base_url (rok (fst (create_account "u1" jmap_account account_office))) = Some (Some "ftp://inside") /\
  rok (new_jmap_url (Some "ftp://inside")) = None.
Proof. split; vm_compute; reflexivity. Qed.
(** A new base URL leaves the cached session of the old one. *)
Lemma new_base_url_keeps_session :
  touches_session (mkUpdate None None None None None None None None None None None None (Some "bearer") (Some "https://new.example") None None None None) = false.
Proof. reflexivity. Qed.
