(* ===== verification/Media.v ===== *)
(** * The media proxy ([media.rs])

    Signed addresses for remote images, the guarded fetch of an image (address policy, three
    redirects, a cap on the body), the image cache on disk, and the route that serves an
    image.  HTTP and DNS are the class [MediaNet], the MAC the class [MediaLib].  The cache
    directory is files of [Blobs] with their modification times. *)
From S2P Require Import Prelude Kv Crypto UnlockRing World Toy Session Labels Jobs Netsec MailStore Blobs Imap ImapLoop Jmap Dav.
Local Open Scope string_scope.
Local Open Scope Z_scope.

Definition SIG_TTL_SECS : Z := 86400.
Definition MAX_CACHE_BYTES : N := 512 * 1024 * 1024.
Definition MAX_UPSTREAM_BYTES : N := 10 * 1024 * 1024.
Definition MAX_REDIRECTS : nat := 3.
Fixpoint bytes_of (l : list N) : string := match l with [] => "" | n :: l => String (ascii_of_N n) (bytes_of l) end.
Definition PLACEHOLDER_GIF : string := bytes_of
  [71; 73; 70; 56; 57; 97; 1; 0; 1; 0; 128; 0; 0; 255; 255; 255; 0; 0; 0; 33; 249; 4; 1; 0; 0; 0; 0; 44; 0; 0; 0; 0;
   1; 0; 1; 0; 0; 2; 2; 68; 1; 0; 59]%N.
Definition blen (s : string) : N := N.of_nat (String.length s).

(** ** What the module needs from outside *)

(** HMAC-SHA256 of a key and a message, in hex. *)
Class MediaLib := hmac_hex : string -> string -> string.
(** A response without redirects followed: the body comes in chunks and may break off. *)
Record MediaResponse := mkMediaResp {
  mr_status : Z; mr_location : option string; mr_content_type : option string; mr_chunks : list string; mr_broken : option string }.
Class MediaNet (T : Type) := {
  media_lookup : string -> Z -> io T unit (list IpAddr);
  media_get : string -> io T string MediaResponse;
}.

(** ** Addresses that carry a signature *)

Definition media_secret_kv_key (user_id : string) : string := "user:" +:+ user_id +:+ ":media_secret".
Definition encode_proxy_path (url : string) : string := replace "#" "%23" (replace "?" "%3F" url).
Definition decode_proxy_path (encoded : string) : string := replace "%23" "#" (replace "%3F" "?" encoded).
Record ProxySigner := mkSigner { sg_user_id : string; sg_secret : string }.
Definition secs : Z := 1000000000.
(** Whole seconds since the epoch, capped at [i64::MAX]. *)
Definition now_unix (now : Z) : Z := Z.min i64_max (Z.max 0 now / secs).

Section Sign.
Context `{MediaLib}.
Definition sig_payload (user_id url : string) (exp : Z) : string := user_id +:+ ":" +:+ show_Z exp +:+ ":" +:+ url.
Definition compute_sig (secret user_id url : string) (exp : Z) : string := hmac_hex secret (sig_payload user_id url exp).
Definition verify_sig (now : Z) (secret user_id url : string) (exp : Z) (sig : string) : bool :=
  if exp <? now_unix now then false else String.eqb (compute_sig secret user_id url exp) sig.
(** The expiry and the signature that [sign_url] writes. *)
Definition signed_until (now : Z) : Z := now_unix now + SIG_TTL_SECS.
Definition sign_url (now : Z) (s : ProxySigner) (original_url : string) : string :=
  let exp := signed_until now in
  let sig := compute_sig (sg_secret s) (sg_user_id s) original_url exp in
  "/api/v1/proxy/" +:+ encode_proxy_path original_url +:+ "?exp=" +:+ show_Z exp +:+ "&sig=" +:+ sig +:+ "&uid=" +:+ sg_user_id s.
End Sign.

Section Secret.
Context {K R : Type} `{KvStore K} `{HasRng R} `{CryptoLib}.
Definition kv_failed (e : KvError.t) : SyncError := InternalE "key-value store".
Definition load_media_secret (user_id : string) : io (world K R) SyncError string :=
  let key := media_secret_kv_key user_id in
  let! raw := map_err kv_failed (kvget key) in
  match raw with
  | Some existing => lift (ok_or (InternalE "corrupt media secret") (b64_decode existing))
  | None =>
      let! secret := draw 32 in
      let! _ := map_err kv_failed (kvset key (b64_encode secret) None) in
      ret secret
  end.
Definition proxy_signer_new (user_id : string) : io (world K R) SyncError ProxySigner :=
  let! secret := load_media_secret user_id in ret (mkSigner user_id secret).
End Secret.

(** ** What counts as an image *)

Definition looks_like_image (content_type bytes : string) : bool :=
  starts_with "image/" (to_ascii_lowercase content_type) && (4 <=? String.length bytes)%nat &&
  (starts_with (bytes_of [71; 73; 70; 56]%N) bytes || starts_with (bytes_of [137; 80; 78; 71]%N) bytes
   || starts_with (bytes_of [255; 216; 255]%N) bytes || starts_with "RIFF" bytes).
Definition byte_num (n : nat) (s : string) : Z := match String.get n s with Some a => Z.of_N (byte a) | None => 0 end.
Definition sniff_raster_dimensions (bytes : string) : option (Z * Z) :=
  if starts_with "GIF8" bytes && (10 <=? String.length bytes)%nat then
    Some (byte_num 6 bytes + 256 * byte_num 7 bytes, byte_num 8 bytes + 256 * byte_num 9 bytes)
  else if starts_with (bytes_of [137; 80; 78; 71]%N) bytes && (24 <=? String.length bytes)%nat then
    let be at_ := ((byte_num at_ bytes * 256 + byte_num (at_ + 1) bytes) * 256 + byte_num (at_ + 2) bytes) * 256 + byte_num (at_ + 3) bytes in
    Some (be 16%nat, be 20%nat)
  else None.
Definition is_tiny_tracking_payload (bytes : string) : bool :=
  if (String.length bytes <=? 100)%nat then true
  else match sniff_raster_dimensions bytes with Some (w, h) => (w <=? 4) && (h <=? 4) | None => false end.
(** [u8::is_ascii_whitespace]: without the vertical tab. *)
Definition html_space (a : ascii) : bool := in_range 9 10 (byte a) || in_range 12 13 (byte a) || (byte a =? 32)%N.
Definition looks_like_svg (content_type bytes : string) : bool :=
  eq_ignore_ascii_case content_type "image/svg+xml" &&
  (let body := drop_while html_space (default bytes (strip_prefix (bytes_of [239; 187; 191]%N) bytes)) in
   starts_with "<" body && contains_str "<svg" body).

(** ** The guarded fetch *)

Record FetchedImage := mkFetched { fi_bytes : string; fi_content_type : string }.
Inductive UpstreamOutcome := UpImage (img : FetchedImage) | UpStatus (code : Z).

Section Fetch.
Context {T : Type} `{MediaNet T} `{UrlLib} `{UrlJoin}.
Local Abbreviation N_ := (io T SyncError).

Definition validate_outbound_url (url : string) : N_ unit :=
  let! parsed := lift (rmap_err (fun _ => InvalidInput "invalid proxy target URL") (url_parse url)) in
  if negb (String.eqb (url_scheme parsed) "http") && negb (String.eqb (url_scheme parsed) "https")
  then throw (InvalidInput "proxy target must be http(s)") else
  let! host := lift (ok_or (InvalidInput "proxy target missing host") (url_host parsed)) in
  let port := default 443 (url_port parsed) in
  let! addrs := map_err (fun _ => InvalidInput "proxy target host lookup failed") (media_lookup host port) in
  match filter_public_addrs addrs with
  | [] => throw (InvalidInput "proxy target blocked by SSRF policy")
  | _ => ret tt
  end.

(** The body, chunk by chunk, up to [cap] bytes. *)
Fixpoint read_body (cap : N) (too_large : string) (acc : string) (chunks : list string) (broken : option string) : result SyncError string :=
  match chunks with
  | [] => match broken with Some e => Err (InternalE ("upstream read: " +:+ e)) | None => Ok acc end
  | chunk :: rest =>
      if (cap <? blen acc + blen chunk)%N then Err (InvalidInput too_large) else read_body cap too_large (acc +:+ chunk) rest broken
  end.
Definition get_upstream (url : string) : N_ MediaResponse := map_err (fun e => InternalE ("upstream fetch failed: " +:+ e)) (media_get url).
Definition fetch_bytes (url : string) (max_bytes : N) : N_ string :=
  let! _ := validate_outbound_url url in
  let! resp := get_upstream url in
  if negb (is_success (mr_status resp)) then throw (InternalE "upstream non-success status") else
  lift (read_body max_bytes "upstream body too large" "" (mr_chunks resp) (mr_broken resp)).

Definition content_type_of (resp : MediaResponse) : string :=
  trim (default "application/octet-stream" (head (split_char ";" (default "application/octet-stream" (mr_content_type resp))))).
(** [n] requests are left. *)
Fixpoint fetch_hops (n : nat) (current : string) (accept : string -> string -> bool) : N_ UpstreamOutcome :=
  match n with
  | O => throw (InvalidInput "too many redirects")
  | S n =>
      let! _ := validate_outbound_url current in
      let! resp := get_upstream current in
      if is_redirection (mr_status resp) then
        match mr_location resp with
        | Some next => fetch_hops n (match url_join current next with Ok u => u | Err _ => next end) accept
        | None => throw (InvalidInput "too many redirects")
        end
      else if negb (is_success (mr_status resp)) then ret (UpStatus (mr_status resp))
      else
        let content_type := content_type_of resp in
        let! bytes := lift (read_body MAX_UPSTREAM_BYTES "upstream image too large" "" (mr_chunks resp) (mr_broken resp)) in
        if negb (accept content_type bytes) then throw (InvalidInput "upstream not an image")
        else ret (UpImage (mkFetched bytes content_type))
  end.
Definition fetch_with_accept_status (url : string) (accept : string -> string -> bool) : N_ UpstreamOutcome :=
  fetch_hops (S MAX_REDIRECTS) url accept.
Definition fetch_with_accept (url : string) (accept : string -> string -> bool) : N_ FetchedImage :=
  let! o := fetch_with_accept_status url accept in
  match o with
  | UpImage img => ret img
  | UpStatus code => throw (InternalE ("upstream non-success status " +:+ show_Z code))
  end.
Definition fetch_upstream (url : string) : N_ FetchedImage := fetch_with_accept url looks_like_image.
Definition fetch_upstream_status (url : string) : N_ UpstreamOutcome := fetch_with_accept_status url looks_like_image.
Definition fetch_bimi_logo (url : string) : N_ FetchedImage :=
  fetch_with_accept url (fun ct b => looks_like_image ct b || looks_like_svg ct b).
End Fetch.

(** ** The cache *)

(** The files, and when each was written. *)
Record image_cache := mkCache { ic_disk : disk; ic_times : gmap string Z }.

Section Cache.
Context `{BlobLib} `{JsonLib}.
Definition cache_key_for_url (url : string) : string := sha256_hex url.
Definition cache_file_path (cache_root url : string) : string :=
  let hash := cache_key_for_url url in
  let prefix := if (2 <=? String.length hash)%nat then stake 2 hash else "00" in
  path_join (path_join cache_root prefix) hash.
(** [with_extension] of a digest, which has none. *)
Definition cache_meta_path (data_path : string) : string := data_path +:+ ".meta".

Definition read_cache (path : string) (c : image_cache) : option (string * string) :=
  meta_raw ← d_files (ic_disk c) !! cache_meta_path path;
  meta ← json_parse meta_raw;
  bytes ← d_files (ic_disk c) !! path;
  Some (bytes, default "image/gif" (json_field "contentType" meta ≫= json_str)).

Definition on_disk {E A} (m : io disk E A) : io image_cache E A :=
  fun c => let '(r, d) := m (ic_disk c) in (r, mkCache d (ic_times c)).
(** A write sets the modification time, however much of it succeeds. *)
Definition cache_write (what full data : string) (now : Z) : io image_cache SyncError unit :=
  fun c => let '(r, d) := fs_write full data (ic_disk c) in
           let touched := negb (d_read_only (ic_disk c)) in
           (rmap_err (fun '(Io e) => InternalE (what +:+ e)) r,
            mkCache d (if touched then <[full := now]> (ic_times c) else ic_times c)).
(** A failed removal is ignored. *)
Definition remove_file (full : string) (c : image_cache) : image_cache :=
  if d_read_only (ic_disk c) then c
  else mkCache (set_files (base.delete full (d_files (ic_disk c))) (ic_disk c)) (base.delete full (ic_times c)).
(** The data files below the root, each with its length and time. *)
Definition below (cache_root path : string) : bool := starts_with (path_join cache_root "") path && negb (ends_with ".meta" path).
Definition cached_files (cache_root : string) (c : image_cache) : list (string * string) :=
  List.filter (fun f => below cache_root (fst f)) (map_to_list (d_files (ic_disk c))).
Definition cached_total (cache_root : string) (c : image_cache) : N := foldr N.add 0%N (map (fun f => blen (snd f)) (cached_files cache_root c)).
Definition older (t : gmap string Z) (f g : string * string) : bool := default 0 (t !! fst f) <=? default 0 (t !! fst g).
Fixpoint evict (max_bytes total : N) (entries : list (string * string)) (c : image_cache) : image_cache :=
  match entries with
  | [] => c
  | (path, bytes) :: rest =>
      if (total <=? max_bytes)%N then c
      else evict max_bytes (total - blen bytes) rest (remove_file (cache_meta_path path) (remove_file path c))
  end.
Definition evict_cache_if_needed (cache_root : string) (max_bytes : N) (c : image_cache) : image_cache :=
  let total := cached_total cache_root c in
  if (total <=? max_bytes)%N then c
  else evict max_bytes total (order_by (older (ic_times c)) (cached_files cache_root c)) c.
Definition write_cache (cache_root url bytes content_type : string) (now : Z) : io image_cache SyncError unit :=
  let path := cache_file_path cache_root url in
  let! _ := map_err (fun '(Io e) => InternalE ("cache mkdir: " +:+ e)) (on_disk create_dir_all) in
  let! _ := cache_write "cache write: " path bytes now in
  let! _ := cache_write "cache meta: " (cache_meta_path path) (json_text (JObject [("contentType", JString content_type)])) now in
  modify (evict_cache_if_needed cache_root MAX_CACHE_BYTES).
End Cache.

(** ** The route *)

Record ImageResponse := mkImageResp {
  im_status : Z; im_content_type : option string; im_cache_control : string; im_pixel : bool; im_body : string }.
(** [HeaderValue::from_str]: visible ASCII, space, tab and the bytes above. *)
Definition header_byte (a : ascii) : bool := ((32 <=? byte a)%N && negb (byte a =? 127)%N) || (byte a =? 9)%N.
Definition placeholder_response : ImageResponse := mkImageResp 404 (Some "image/gif") "no-store" false PLACEHOLDER_GIF.
Definition image_response (bytes content_type : string) : ImageResponse :=
  mkImageResp 200 (if sforall header_byte content_type then Some content_type else None)
    "private, max-age=31536000, immutable" (is_tiny_tracking_payload bytes) bytes.
Record ProxyQuery := mkProxyQuery { pq_exp : Z; pq_sig : string; pq_uid : string }.

Record media_world (K R T : Type) := mkMedia { md_auth : world K R; md_cache : image_cache; md_net : T }.
Arguments mkMedia {K R T}. Arguments md_auth {K R T}. Arguments md_cache {K R T}. Arguments md_net {K R T}.

Section Route.
Context {K R T : Type} `{KvStore K} `{CryptoLib} `{MediaLib} `{MediaNet T} `{UrlLib} `{UrlJoin} `{BlobLib} `{JsonLib}.
Local Abbreviation W := (media_world K R T).
Context (data_dir : string).
Definition on_access {E A} (m : io (world K R) E A) : io W E A := fun w => let '(r, a) := m (md_auth w) in (r, mkMedia a (md_cache w) (md_net w)).
Definition on_cache {E A} (m : io image_cache E A) : io W E A := fun w => let '(r, c) := m (md_cache w) in (r, mkMedia (md_auth w) c (md_net w)).
Definition on_upstream {E A} (m : io T E A) : io W E A := fun w => let '(r, n) := m (md_net w) in (r, mkMedia (md_auth w) (md_cache w) n).
Definition media_now (w : W) : Z := w_now (md_auth w).
Definition is_http (url : string) : bool := starts_with "http://" url || starts_with "https://" url.
Definition cache_root : string := path_join data_dir "media-cache".

Definition proxy_image_inner (target : string) (q : ProxyQuery) : io W SyncError ImageResponse :=
  let url := decode_proxy_path target in
  if negb (is_http url) then throw (InvalidInput "invalid proxy path") else
  let! secret_raw := on_access (map_err kv_failed (kvget (media_secret_kv_key (pq_uid q)))) in
  let! secret := lift (ok_or (InvalidInput "missing media secret") (secret_raw ≫= b64_decode)) in
  let! now := gets media_now in
  if negb (verify_sig now secret (pq_uid q) url (pq_exp q) (pq_sig q)) then throw (InvalidInput "bad or expired signature") else
  let! cached := gets (fun w => read_cache (cache_file_path cache_root url) (md_cache w)) in
  match cached with
  | Some (bytes, content_type) => ret (image_response bytes content_type)
  | None =>
      let! fetched := on_upstream (fetch_upstream url) in
      let! _ := on_cache (write_cache cache_root url (fi_bytes fetched) (fi_content_type fetched) now) in
      ret (image_response (fi_bytes fetched) (fi_content_type fetched))
  end.
Definition proxy_image (target : string) (q : ProxyQuery) : io W SyncError ImageResponse :=
  let! r := attempt (F := SyncError) (proxy_image_inner target q) in
  ret (match r with Ok resp => resp | Err _ => placeholder_response end).
End Route.

(** ** The path segment comes back *)

(** [encode_proxy_path] on one character, with [#] alone or with both. *)
Definition hash_code : ascii -> string := swap "#" "%23".
Definition both_codes (a : ascii) : string := if Ascii.eqb a "?" then "%3F" else hash_code a.
#[local] Arguments String.append : simpl nomatch.
Lemma encode_chars url : encode_proxy_path url = each_char both_codes url.
Proof.
  unfold encode_proxy_path. rewrite !replace_char, each_char_twice. apply each_char_ext. intros a. unfold both_codes, hash_code, swap.
  destruct (Ascii.eqb_spec a "?") as [->|Hq]; [reflexivity|]. cbn [each_char same_char]. unfold same_char. cbn [each_char].
  by destruct (Ascii.eqb a "#").
Qed.
(** A code of a character opens with a percent sign. *)
Definition coded (f : ascii -> string) : Prop := forall a, f a = same_char a \/ exists r, f a = String "%" r.
Lemma coded_both : coded both_codes.
Proof. intros a. unfold both_codes, hash_code, swap. destruct (Ascii.eqb a "?"); [by right; eexists|]. destruct (Ascii.eqb a "#"); [by right; eexists|by left]. Qed.
Lemma coded_hash : coded hash_code.
Proof. intros a. unfold hash_code, swap. destruct (Ascii.eqb a "#"); [by right; eexists|by left]. Qed.
Lemma prefix_step a p b s : String.prefix (String a p) (String b s) = Ascii.eqb a b && String.prefix p s.
Proof. cbn [String.prefix]. destruct (ascii_dec a b) as [->|Hn]; [by rewrite Ascii.eqb_refl|]. by rewrite (proj2 (Ascii.eqb_neq _ _) Hn). Qed.
Lemma coded_prefix f (p : string) : coded f -> sforall (fun a => negb (Ascii.eqb a "%")) p = true ->
  forall s, String.prefix p (each_char f s) = true -> String.prefix p s = true.
Proof.
  intros Hf. induction p as [|x p IH]; [by intros ? [|]|]. cbn [sforall]. intros Hp s. apply andb_prop in Hp as [Hx Hp].
  destruct s as [|a s]; [done|]. cbn [each_char]. destruct (Hf a) as [->|[r ->]].
  - cbn [same_char String.append]. unfold same_char. cbn [String.append]. rewrite !prefix_step. intros Hs. apply andb_prop in Hs as [-> Hs]. by apply IH.
  - cbn [String.append]. rewrite prefix_step. by destruct (Ascii.eqb x "%").
Qed.
(** Undoing one code: what does not already read as the code is passed over. *)
Lemma replace_code (x y : ascii) (c : ascii) f g s :
  coded f -> c <> "%"%char -> x <> "%"%char -> y <> "%"%char -> f c = String "%" (String x (String y "")) -> g c = same_char c ->
  (forall a, a <> c -> f a = g a /\ (f a = same_char a \/ exists u v, f a = String "%" (String u (String v "")) /\ (u <> x \/ v <> y) /\ u <> "%"%char /\ v <> "%"%char)) ->
  contains_str (String "%" (String x (String y ""))) s = false ->
  replace (String "%" (String x (String y ""))) (String c "") (each_char f s) = each_char g s.
Proof.
  intros Hf Hc Hx Hy Hfc Hgc Hother. set (p := String "%" _). unfold replace.
  induction s as [|a s IH]; [done|]. cbn [contains_str]. intros Hs. apply orb_false_elim in Hs as [Hp Hs]. specialize (IH Hs).
  cbn [each_char]. destruct (ascii_dec a c) as [->|Ha].
  - rewrite Hfc, Hgc. unfold p at 1. cbn [String.append replace_from]. unfold starts_with, p. rewrite !prefix_step, !Ascii.eqb_refl, prefix_empty.
    cbn [andb String.length pred replace_from]. unfold same_char. cbn [String.append]. fold p. by rewrite IH.
  - destruct (Hother a Ha) as [<- [->|(u & v & -> & Huv & Hu & Hv)]].
    + unfold same_char. cbn [String.append replace_from]. unfold starts_with in *.
      destruct (String.prefix p (String a (each_char f s))) eqn:Hq; [|by rewrite IH].
      unfold p in Hq, Hp. rewrite prefix_step in Hq, Hp. apply andb_prop in Hq as [Hq1 Hq2]. rewrite Hq1 in Hp. cbn [andb] in Hp.
      rewrite (coded_prefix f) in Hp; [done|done| |done]. cbn [sforall].
      by rewrite (proj2 (Ascii.eqb_neq _ _) Hx), (proj2 (Ascii.eqb_neq _ _) Hy).
    + cbn [String.append]. unfold p. cbn [replace_from]. unfold starts_with. rewrite !prefix_step, Ascii.eqb_refl. cbn [andb].
      assert (Ascii.eqb x u && (Ascii.eqb y v && String.prefix "" (each_char f s)) = false) as ->.
      { destruct (Ascii.eqb_spec x u) as [<-|]; [|done]. destruct (Ascii.eqb_spec y v) as [<-|]; [|done]. naive_solver. }
      rewrite (proj2 (Ascii.eqb_neq "%" u)), (proj2 (Ascii.eqb_neq "%" v)) by congruence. cbn [andb]. fold p. by rewrite IH.
Qed.
(** Neither code occurs in the text. *)
Definition code_free (url : string) : Prop := contains_str "%3F" url = false /\ contains_str "%23" url = false.
Lemma decode_encode url : code_free url -> decode_proxy_path (encode_proxy_path url) = url.
Proof.
  intros [H3 H2]. rewrite encode_chars. unfold decode_proxy_path.
  rewrite (replace_code "3" "F" "?" both_codes hash_code); [|by apply coded_both|done..| |done].
  - rewrite (replace_code "2" "3" "#" hash_code same_char); [by apply each_char_same|by apply coded_hash|done..| |done].
    intros a Ha. unfold hash_code, swap. rewrite (proj2 (Ascii.eqb_neq _ _) Ha). by split; [|left].
  - intros a Ha. unfold both_codes. rewrite (proj2 (Ascii.eqb_neq _ _) Ha). split; [done|]. unfold hash_code, swap.
    destruct (Ascii.eqb a "#"); [right|by left]. exists "2"%char, "3"%char. split_and!; [done|by left|done|done].
Qed.
(** An address that carries such an escape does not come back. *)
Lemma escaped_url_changes : decode_proxy_path (encode_proxy_path "https://x.org/a%3Fb.png") = "https://x.org/a?b.png".
Proof. reflexivity. Qed.

(** ** What leaves the server *)

(** The lookups and requests of a fetch, as they happen. *)
Inductive net_event := Asked (host : string) (port : Z) (addrs : option (list IpAddr)) | Got (url : string).
Definition logged_net {T} (N0 : MediaNet T) : MediaNet (T * list net_event) := {|
  media_lookup host port := fun '(n, l) => let '(r, n') := media_lookup host port n in (r, (n', (l ++ [Asked host port (rok r)])%list));
  media_get url := fun '(n, l) => let '(r, n') := media_get url n in (r, (n', (l ++ [Got url])%list));
|}.
(** At most [k] requests, each right after a lookup of its host that gave a public address. *)
Inductive guarded `{UrlLib} : nat -> list net_event -> Prop :=
  | guarded_end k : guarded k []
  | guarded_stop k host port addrs : guarded k [Asked host port addrs]
  | guarded_get k url parsed host addrs more :
      url_parse url = Ok parsed -> url_host parsed = Some host -> url_scheme parsed ∈ ["http"; "https"] ->
      (exists ip, ip ∈ addrs /\ is_blocked_addr ip = false) -> guarded k more ->
      guarded (S k) (Asked host (default 443 (url_port parsed)) (Some addrs) :: Got url :: more).

Section Guard.
Context {T : Type} (N0 : MediaNet T) `{UrlLib} `{UrlJoin}.
Local Existing Instance logged_net.

Lemma validate_logged url n l r n' l' : validate_outbound_url (H := logged_net N0) url (n, l) = (r, (n', l')) ->
  (exists more, l' = (l ++ more)%list /\ forall k, guarded k more) /\
  (r = Ok tt -> exists parsed host addrs, url_parse url = Ok parsed /\ url_host parsed = Some host /\ url_scheme parsed ∈ ["http"; "https"] /\
     l' = (l ++ [Asked host (default 443 (url_port parsed)) (Some addrs)])%list /\ exists ip, ip ∈ addrs /\ is_blocked_addr ip = false).
Proof using Type.
  assert (Hstop : forall e : SyncError, (exists more, l = (l ++ more)%list /\ forall k, guarded k more) /\ (Err e = Ok tt -> False)).
  { intros e. split; [|done]. exists []. split; [by rewrite app_nil_r|constructor]. }
  unfold validate_outbound_url, bind, lift. destruct (url_parse url) as [parsed|e] eqn:Hp; cbn [rmap_err];
    [|intros [= <- <- <-]; destruct (Hstop (InvalidInput "invalid proxy target URL")); naive_solver].
  destruct (negb (String.eqb (url_scheme parsed) "http") && negb (String.eqb (url_scheme parsed) "https")) eqn:Hs; unfold throw;
    [intros [= <- <- <-]; destruct (Hstop (InvalidInput "")); naive_solver|].
  destruct (url_host parsed) as [host|] eqn:Hh; cbn [ok_or]; [|intros [= <- <- <-]; destruct (Hstop (InvalidInput "")); naive_solver].
  unfold map_err, logged_net, media_lookup at 1. destruct (media_lookup host (default 443 (url_port parsed)) n) as [[addrs|e] n1] eqn:Hl; cbn [rmap_err rok].
  - destruct (filter_public_addrs addrs) as [|ip ips] eqn:Hf; unfold ret; intros [= <- <- <-].
    + split; [|done]. eexists. split; [done|]. intros k. constructor.
    + split; [eexists; split; [done|intros k; constructor]|]. intros _. exists parsed, host, addrs. split_and!; [done..| | |].
      * apply andb_false_iff in Hs as [Hs|Hs]; apply negb_false_iff, String.eqb_eq in Hs; rewrite Hs; set_solver.
      * done.
      * exists ip. assert (In ip (filter_public_addrs addrs)) as Hin by (rewrite Hf; by left). unfold filter_public_addrs in Hin.
        apply filter_In in Hin as [Hin Hb]. by rewrite <-list_elem_of_In, negb_true_iff in *.
  - intros [= <- <- <-]. split; [|done]. eexists. split; [done|]. intros k. constructor.
Qed.
Lemma read_body_bound cap why : forall chunks acc broken s, (blen acc <= cap)%N -> read_body cap why acc chunks broken = Ok s -> (blen s <= cap)%N.
Proof using Type.
  induction chunks as [|c chunks IH]; intros acc broken s Ha; cbn [read_body].
  - destruct broken; [done|]. by intros [= <-].
  - destruct (N.ltb_spec cap (blen acc + blen c)) as [|Hle]; [done|]. apply IH. unfold blen in *. rewrite slength_app. lia.
Qed.
Lemma get_logged url n l r n' l' : get_upstream (H := logged_net N0) url (n, l) = (r, (n', l')) -> l' = (l ++ [Got url])%list.
Proof using Type.
  unfold get_upstream, map_err, logged_net, media_get at 1. destruct (media_get url n) as [x n1]. by intros [= _ _ <-].
Qed.
(** What a fetch answers as an image passed [accept] and the cap. *)
Definition accepted (accept : string -> string -> bool) (r : result SyncError UpstreamOutcome) : Prop :=
  match r with Ok (UpImage img) => (blen (fi_bytes img) <= MAX_UPSTREAM_BYTES)%N /\ accept (fi_content_type img) (fi_bytes img) = true | _ => True end.
(** The end of a hop, once the response is in. *)
Lemma image_accepted accept resp (n : T) l r w' :
  (let! bytes := lift (read_body MAX_UPSTREAM_BYTES "upstream image too large" "" (mr_chunks resp) (mr_broken resp)) in
   if negb (accept (content_type_of resp) bytes) then throw (InvalidInput "upstream not an image")
   else ret (UpImage (mkFetched bytes (content_type_of resp)))) (n, l : list net_event) = (r, w') -> accepted accept r /\ w' = (n, l).
Proof using Type.
  unfold bind, lift. destruct (read_body _ _ _ _ _) as [bytes|e] eqn:Hb; [|by intros [= <- <-]].
  destruct (accept _ _) eqn:Ha; unfold throw, ret; cbn [negb]; intros [= <- <-]; [|done]. split; [|done]. split; [|done].
  exact (read_body_bound _ _ _ "" _ _ (N.le_0_l _) Hb).
Qed.
Lemma hops_guarded accept : forall k url n l r n' l', fetch_hops (H := logged_net N0) k url accept (n, l) = (r, (n', l')) ->
  accepted accept r /\ exists more, l' = (l ++ more)%list /\ guarded k more.
Proof using Type.
  induction k as [|k IH]; intros url n l r n' l'; cbn [fetch_hops].
  { intros [= <- <- <-]. split; [done|]. exists []. by rewrite app_nil_r; split; [|constructor]. }
  intros Hrun. apply bind_inv in Hrun as [(e & Hv & ->)|([] & [n1 l1] & Hv & Hrun)].
  { apply validate_logged in Hv as [(more & -> & Hg) _]. split; [done|]. by exists more. }
  apply validate_logged in Hv as [_ Hv]. destruct (Hv eq_refl) as (parsed & host & addrs & Hp & Hh & Hs & -> & Hip). clear Hv.
  assert (Hstep : forall more', guarded k more' -> exists more,
    (((l ++ [Asked host (default 443 (url_port parsed)) (Some addrs)]) ++ [Got url]) ++ more' = l ++ more)%list /\ guarded (S k) more).
  { intros more' Hm. rewrite <-!app_assoc. eexists. split; [done|]. by apply (guarded_get k url parsed host addrs more'). }
  apply bind_inv in Hrun as [(e & Hg & ->)|(resp & [n2 l2] & Hg & Hrun)]; apply get_logged in Hg as ->.
  { split; [done|]. destruct (Hstep [] (guarded_end k)) as (more & He & Hm). exists more. by rewrite app_nil_r in He. }
  assert (Hdone : exists more, ((l ++ [Asked host (default 443 (url_port parsed)) (Some addrs)]) ++ [Got url] = l ++ more)%list /\ guarded (S k) more).
  { destruct (Hstep [] (guarded_end k)) as (more & He & Hm). exists more. by rewrite app_nil_r in He. }
  destruct (is_redirection (mr_status resp)).
  - destruct (mr_location resp) as [next|].
    + apply IH in Hrun as (Ha & more' & -> & Hm). split; [done|]. destruct (Hstep more' Hm) as (more & He & Hm'). by exists more.
    + by injection Hrun as <- <- <-.
  - destruct (is_success (mr_status resp)); cbn [negb] in Hrun.
    + cbv zeta in Hrun. apply image_accepted in Hrun as [Ha [= -> ->]]. by split.
    + by injection Hrun as <- <- <-.
Qed.

(** C29: A fetch of a remote image or document asks the network only under guard.  Whatever the
    servers answer, it sends at most four requests for an image and one for raw bytes; each
    is http or https and comes right after a lookup of its host that gave a public address,
    the requests of a redirect chain included; and what it answers is an accepted image of at
    most ten MiB, or at most the bytes the caller allowed. *)
Theorem fetch_is_guarded url accept max_bytes n l :
  (forall r n' l', fetch_with_accept_status (H := logged_net N0) url accept (n, l) = (r, (n', l')) ->
     accepted accept r /\ exists more, l' = (l ++ more)%list /\ guarded 4 more) /\
  (forall r n' l', fetch_bytes (H := logged_net N0) url max_bytes (n, l) = (r, (n', l')) ->
     (forall s, r = Ok s -> (blen s <= max_bytes)%N) /\ exists more, l' = (l ++ more)%list /\ guarded 1 more).
Proof using Type.
  split; intros r n' l' Hrun; [by eapply hops_guarded|]. unfold fetch_bytes in Hrun.
  apply bind_inv in Hrun as [(e & Hv & ->)|([] & [n1 l1] & Hv & Hrun)].
  { apply validate_logged in Hv as [(more & -> & Hg) _]. split; [done|]. by exists more. }
  apply validate_logged in Hv as [_ Hv]. destruct (Hv eq_refl) as (parsed & host & addrs & Hp & Hh & Hs & -> & Hip).
  assert (Hm : guarded 1 [Asked host (default 443 (url_port parsed)) (Some addrs); Got url]) by (eapply guarded_get; [done..|constructor]).
  apply bind_inv in Hrun as [(e & Hg & ->)|(resp & [n2 l2] & Hg & Hrun)]; apply get_logged in Hg as ->.
  { split; [done|]. eexists. by rewrite <-app_assoc. }
  destruct (is_success (mr_status resp)); cbn [negb] in Hrun; injection Hrun as <- <- <-.
  - split; [|eexists; by rewrite <-app_assoc]. intros s Hb. exact (read_body_bound _ _ _ "" _ _ (N.le_0_l _) Hb).
  - split; [done|]. eexists. by rewrite <-app_assoc.
Qed.
End Guard.

(** ** The cache stays within its bound *)

Section Bound.
Context `{BlobLib} `{JsonLib}.
Implicit Types c : image_cache.
Definition total_of (l : list (string * string)) : N := foldr N.add 0%N (map (fun f => blen (snd f)) l).
Lemma total_perm l l' : l ≡ₚ l' -> total_of l = total_of l'.
Proof using Type. unfold total_of. induction 1 as [|x l l' _ IH|x y l|l1 l2 l3 _ IH1 _ IH2]; cbn; [done|by rewrite IH|lia|congruence]. Qed.
Lemma filter_permutes {A} (p : A -> bool) l l' : l ≡ₚ l' -> List.filter p l ≡ₚ List.filter p l'.
Proof using Type.
  induction 1 as [|x l l' _ IH|x y l|l1 l2 l3 _ IH1 _ IH2]; cbn; [done| | |by rewrite IH1].
  - destruct (p x); [by rewrite IH|done].
  - destruct (p x), (p y); try done. by constructor.
Qed.
Lemma filter_none {A} (p : A -> bool) x l : p x = false -> List.filter p (x :: l) = List.filter p l.
Proof using Type. intros Hp. cbn. by rewrite Hp. Qed.
(** Removing a file takes it out of the list; a meta file was never on it. *)
Lemma removed_data root c path bytes rest : d_read_only (ic_disk c) = false -> cached_files root c ≡ₚ (path, bytes) :: rest ->
  cached_files root (remove_file path c) ≡ₚ rest.
Proof using Type.
  intros Hw Hp. unfold remove_file. rewrite Hw. unfold cached_files in *. cbn [ic_disk d_files set_files].
  assert (Hin : (path, bytes) ∈ List.filter (fun f => below root (fst f)) (map_to_list (d_files (ic_disk c)))) by (rewrite Hp; apply list_elem_of_here).
  apply list_elem_of_In, filter_In in Hin as [Hin Hb]. apply list_elem_of_In, elem_of_map_to_list in Hin.
  pose proof (map_to_list_delete _ _ _ Hin) as Hd. apply (filter_permutes (fun f => below root (fst f))) in Hd.
  cbn [List.filter fst] in Hd. cbn [fst] in Hb. rewrite Hb in Hd. rewrite Hp in Hd. by apply Permutation.Permutation_cons_inv in Hd.
Qed.
Lemma meta_not_below root path : below root (cache_meta_path path) = false.
Proof using Type.
  unfold below, cache_meta_path, ends_with, starts_with. rewrite string_rev_app, prefix_app. by rewrite andb_false_r.
Qed.
Lemma removed_meta root c path : cached_files root (remove_file (cache_meta_path path) c) ≡ₚ cached_files root c.
Proof using Type.
  unfold remove_file. destruct (d_read_only (ic_disk c)); [done|]. unfold cached_files. cbn [ic_disk d_files set_files].
  destruct (d_files (ic_disk c) !! cache_meta_path path) as [x|] eqn:Hx; [|by rewrite delete_id].
  pose proof (map_to_list_delete _ _ _ Hx) as Hd. apply (filter_permutes (fun f => below root (fst f))) in Hd.
  rewrite filter_none in Hd by (cbn; apply meta_not_below). done.
Qed.
Lemma remove_writable c path : d_read_only (ic_disk c) = false -> d_read_only (ic_disk (remove_file path c)) = false.
Proof using Type. intros Hw. unfold remove_file. by rewrite Hw. Qed.
Lemma evict_bound root cap : forall entries c, d_read_only (ic_disk c) = false -> cached_files root c ≡ₚ entries ->
  (cached_total root (evict cap (total_of entries) entries c) <= cap)%N.
Proof using Type.
  induction entries as [|[path bytes] rest IH]; intros c Hw Hp; cbn [evict].
  - unfold cached_total. fold (total_of (cached_files root c)). rewrite (total_perm _ _ Hp). apply N.le_0_l.
  - destruct (N.leb_spec (total_of ((path, bytes) :: rest)) cap) as [Hle|_].
    + unfold cached_total. fold (total_of (cached_files root c)). by rewrite (total_perm _ _ Hp).
    + replace (total_of ((path, bytes) :: rest) - blen bytes)%N with (total_of rest) by (unfold total_of; cbn; lia).
      apply IH; [by apply remove_writable, remove_writable|]. rewrite removed_meta. by eapply removed_data.
Qed.
Lemma eviction_bounds root cap c : d_read_only (ic_disk c) = false -> (cached_total root (evict_cache_if_needed root cap c) <= cap)%N.
Proof using Type.
  intros Hw. unfold evict_cache_if_needed. destruct (N.leb_spec (cached_total root c) cap) as [|_]; [done|].
  replace (cached_total root c) with (total_of (order_by (older (ic_times c)) (cached_files root c))).
  - apply evict_bound; [done|]. symmetry. apply order_by_perm.
  - unfold cached_total. fold (total_of (cached_files root c)). apply total_perm, order_by_perm.
Qed.

(** The image cache stays within its bound.  Whatever the cache held and however large the
    image, a write that succeeds leaves at most 512 MiB of cached data under the root. *)
Theorem cache_stays_bounded root url bytes content_type now c c' :
  write_cache root url bytes content_type now c = (Ok tt, c') -> (cached_total root c' <= MAX_CACHE_BYTES)%N.
Proof using Type.
  unfold write_cache. cbv zeta. intros Hrun. apply bind_Ok in Hrun as ([] & c1 & Hdir & Hrun). apply bind_Ok in Hrun as ([] & c2 & Hdata & Hrun).
  apply bind_Ok in Hrun as ([] & c3 & Hmeta & Hrun). injection Hrun as <-. apply eviction_bounds.
  unfold map_err, on_disk, create_dir_all in Hdir. destruct (d_read_only (ic_disk c)) eqn:Hw; [done|]. cbn in Hdir. injection Hdir as <-.
  assert (Hstep : forall what full data c4 c5, d_read_only (ic_disk c4) = false -> cache_write what full data now c4 = (Ok tt, c5) -> d_read_only (ic_disk c5) = false).
  { intros what full data c4 c5 Hw4. unfold cache_write, fs_write. rewrite Hw4. destruct (d_free (ic_disk c4)) as [k|]; [destruct (_ <=? k)%nat|]; cbn; by intros [= <-]. }
  eapply Hstep; [eapply Hstep; [|exact Hdata]; exact Hw|exact Hmeta].
Qed.
End Bound.

(** ** Only what was signed *)

Section Proxy.
Context {K R T : Type} `{!KvStore K} `{Hkv : !KvLaws K} `{!HasRng R} `{!CryptoLib} `{Hcrypto : !CryptoLaws} `{!MediaLib} `{!MediaNet T} `{!UrlLib} `{!UrlJoin}
  `{!BlobLib} `{!JsonLib}.
Local Abbreviation W := (media_world K R T).
Implicit Types w : W.
Context (data_dir : string).

(** The secret a lookup would find now. *)
Definition secret_of (uid : string) w : option string := live (media_now w) (cells (w_kv (md_auth w)) (media_secret_kv_key uid)) ≫= b64_decode.
(** What the signer put his name to, written out: the user, the last second and the address,
    with colons between, under the MAC keyed by the user's secret. *)
Definition vouched (secret uid : string) (exp : Z) (url sig : string) : Prop := sig = hmac_hex secret (String.concat ":" [uid; show_Z exp; url]).
Definition signed (q : ProxyQuery) (url : string) w : Prop :=
  exists secret, secret_of (pq_uid q) w = Some secret /\ vouched secret (pq_uid q) (pq_exp q) url (pq_sig q) /\
    now_unix (media_now w) <= pq_exp q.
(** Under a MAC without collisions a signature opens one address. *)
Lemma one_address_per_signature q url url2 w : (forall k a b, hmac_hex k a = hmac_hex k b -> a = b) ->
  signed q url w -> signed q url2 w -> url = url2.
Proof using Type.
  intros Hinj (s & Hs & Hv & _) (s2 & Hs2 & Hv2 & _). rewrite Hs in Hs2. injection Hs2 as <-. unfold vouched in Hv, Hv2.
  rewrite Hv in Hv2. apply Hinj in Hv2. cbn [String.concat] in Hv2. by simplify_eq.
Qed.
Lemma kvget_media k w r w' : on_access (T := T) (map_err kv_failed (kvget (R := R) k)) w = (r, w') ->
  r = Ok (live (media_now w) (cells (w_kv (md_auth w)) k)) /\ md_cache w' = md_cache w /\ md_net w' = md_net w /\ media_now w' = media_now w.
Proof using Hkv.
  unfold on_access, map_err, kvget, kv_call. destruct (kv_get_law (w_now (md_auth w)) k (w_kv (md_auth w))) as (s' & -> & _). cbn [rmap_err].
  by intros [= <- <-].
Qed.
Lemma verified now secret uid url exp sig : verify_sig now secret uid url exp sig = true <-> vouched secret uid exp url sig /\ now_unix now <= exp.
Proof using Type.
  unfold vouched. cbn [String.concat]. change (hmac_hex _ _) with (compute_sig secret uid url exp). unfold verify_sig. destruct (Z.ltb_spec exp (now_unix now)) as [Hlt|Hle]; [split; [done|lia]|]. rewrite String.eqb_eq. naive_solver.
Qed.
(** What a signed request comes to: the cache, or one fetch and one write. *)
Definition served (url : string) w (r : result SyncError ImageResponse) w' : Prop :=
  match read_cache (cache_file_path (cache_root data_dir) url) (md_cache w) with
  | Some (bytes, content_type) => r = Ok (image_response bytes content_type) /\ md_cache w' = md_cache w /\ md_net w' = md_net w
  | None => exists x, fetch_upstream url (md_net w) = (x, md_net w') /\
      match x with
      | Err e => r = Err e /\ md_cache w' = md_cache w
      | Ok img => exists y, write_cache (cache_root data_dir) url (fi_bytes img) (fi_content_type img) (media_now w) (md_cache w) = (y, md_cache w') /\
                  r = (let? _ := y in Ok (image_response (fi_bytes img) (fi_content_type img)))
      end
  end.
Lemma proxy_outcome target q w r w' : proxy_image_inner data_dir target q w = (r, w') ->
  let url := decode_proxy_path target in
  (is_http url = true /\ signed q url w /\ served url w r w') \/
  ((exists e, r = Err e) /\ (is_http url = true -> ~ signed q url w) /\ md_cache w' = md_cache w /\ md_net w' = md_net w).
Proof using Hkv.
  intros Hrun url. unfold proxy_image_inner in Hrun. cbv zeta in Hrun. fold url in Hrun. destruct (is_http url); cbn [negb] in Hrun;
    [|right; injection Hrun as <- <-; split; [by eexists|done]]. apply bind_inv in Hrun as [(e & Hget & ->)|(raw & w1 & Hget & Hrun)];
    [by apply kvget_media in Hget as [? _]|]. apply kvget_media in Hget as ([= ->] & Hc & Hn & Ht).
  apply bind_inv in Hrun as [(e & Hs & ->)|(secret & w2 & Hs & Hrun)]; unfold lift in Hs.
  { injection Hs as Hs ->. right. split; [by eauto|]. split; [|done]. intros _ (secret & Hsec & _). unfold secret_of in Hsec. by rewrite Hsec in Hs. }
  injection Hs as Hs <-. assert (Hsec : secret_of (pq_uid q) w = Some secret) by (unfold secret_of; by destruct (_ ≫= _); [injection Hs as ->|]).
  clear Hs. revert Hrun. unfold bind at 1, gets at 1. rewrite Ht.
  destruct (verify_sig _ _ _ _ _ _) eqn:Hv; cbn [negb].
  2:{ intros [= <- <-]. right. split; [by eauto|]. split; [|done]. intros _ (s' & Hs' & Hsig). rewrite Hsec in Hs'. injection Hs' as <-.
      apply verified in Hsig. by rewrite Hv in Hsig. }
  apply verified in Hv. intros Hrun. left. split; [done|]. split; [by exists secret|]. unfold served. revert Hrun. unfold bind at 1, gets at 1. rewrite Hc.
  destruct (read_cache _ _) as [[bytes ct]|]; [intros [= <- <-]; by rewrite Hc, Hn|]. intros Hrun.
  unfold on_upstream, on_cache in Hrun. unfold bind at 1 in Hrun. rewrite Hn in Hrun.
  destruct (fetch_upstream url (md_net w)) as [[img|e] n'] eqn:Hf; [|injection Hrun as <- <-; exists (Err e); by rewrite Hc].
  unfold bind in Hrun. cbn [md_cache md_auth md_net] in Hrun. rewrite Hc in Hrun.
  destruct (write_cache _ _ _ _ _ (md_cache w)) as [[[]|e] c'] eqn:Hwr; injection Hrun as <- <-; exists (Ok img); (split; [done|]); eexists; by rewrite Hwr.
Qed.

(** C30: The proxy serves only what its owner signed.  A request whose address is not http or
    https, or whose signature is not the one the named user's stored secret gives for that
    very address and an expiry not yet past (the MAC of user, expiry and address, [vouched]),
    gets the placeholder, and neither the network nor the cache is touched.  Any other gets the
    cached image without a request; when none is cached the address is fetched once, under the
    guard, and the image is written to the cache and answered; when that fetch or that write
    fails the answer is the placeholder ([full_disk_hides_image]). *)
Theorem proxy_serves_signed_only target q w r w' : proxy_image data_dir target q w = (r, w') ->
  let url := decode_proxy_path target in
  (~ (is_http url = true /\ signed q url w) -> r = Ok placeholder_response /\ md_cache w' = md_cache w /\ md_net w' = md_net w) /\
  (is_http url = true -> signed q url w -> exists x, served url w x w' /\ r = Ok (match x with Ok resp => resp | Err _ => placeholder_response end)).
Proof using Hkv.
  intros Hrun url. unfold proxy_image, bind, attempt in Hrun. destruct (proxy_image_inner data_dir target q w) as [x w1] eqn:Hx.
  injection Hrun as <- <-. apply proxy_outcome in Hx as [(Hh & Hsig & Hserved)|((e & ->) & Hno & Hsame)]; fold url in Hh || fold url in Hno.
  - split; [intros Hn; by destruct Hn|]. intros _ _. by exists x.
  - split; [done|]. intros Hh Hsig. by destruct (Hno Hh).
Qed.

(** ** What was signed is served *)

(** The media secret of a user, once there, does not expire. *)
Definition lasting (k : string) (kv : K) : Prop := forall v e, cells kv k = Some (v, e) -> e = None.
Lemma signer_secret uid (a : world K R) s a' : lasting (media_secret_kv_key uid) (w_kv a) -> proxy_signer_new uid a = (Ok s, a') ->
  sg_user_id s = uid /\ w_now a' = w_now a /\ forall t, w_now a <= t -> live t (cells (w_kv a') (media_secret_kv_key uid)) ≫= b64_decode = Some (sg_secret s).
Proof using Hkv Hcrypto.
  set (key := media_secret_kv_key uid). intros Hlast Hrun. unfold proxy_signer_new in Hrun. apply bind_Ok in Hrun as (secret & a1 & Hload & Hrun).
  injection Hrun as <- <-. cbn [sg_user_id sg_secret]. split; [done|]. unfold load_media_secret in Hload. cbv zeta in Hload. fold key in Hload.
  apply bind_Ok in Hload as (raw & a2 & Hget & Hload). unfold map_err, kvget, kv_call in Hget.
  destruct (kv_get_law (w_now a) key (w_kv a)) as (kv1 & Hg & Hsees). rewrite Hg in Hget. cbn [rmap_err] in Hget. injection Hget as <- <-.
  destruct (live (w_now a) (cells (w_kv a) key)) as [existing|] eqn:Hlive.
  - unfold lift in Hload. destruct (b64_decode existing) as [x|] eqn:Hd; [|done]. injection Hload as -> <-. split; [done|]. intros t Ht. cbn [w_kv set_kv].
    rewrite (Hsees key t Ht). destruct (cells (w_kv a) key) as [[v e]|] eqn:Hcell; [|done]. rewrite (Hlast v e Hcell) in *.
    cbn in Hlive |- *. injection Hlive as ->. cbn. by rewrite Hd.
  - apply bind_Ok in Hload as (fresh & a3 & Hdraw & Hload). apply bind_Ok in Hload as ([] & a4 & Hset & Hload). injection Hload as <- <-.
    unfold draw, fill_bytes, world_rng in Hdraw. destruct (fill_bytes 32 _) as [b r1] in Hdraw. injection Hdraw as <- <-.
    unfold map_err, kvset, kv_call in Hset. cbn [w_now w_kv set_rng set_kv] in Hset.
    destruct (kv_set_law (w_now a) key (b64_encode b) None kv1) as (kv2 & Hk & Hcell & _). rewrite Hk in Hset. cbn [rmap_err] in Hset. injection Hset as <-.
    split; [done|]. intros t Ht. cbn [w_kv set_kv]. rewrite Hcell. cbn. by rewrite b64_roundtrip.
Qed.
Lemma unix_step t t2 : t <= t2 -> t2 <= t + from_secs SIG_TTL_SECS -> now_unix t2 <= signed_until t.
Proof using Type.
  unfold signed_until, now_unix, from_secs, nanos_per_sec, SIG_TTL_SECS, secs. intros Hle Hup.
  assert (Hd : Z.max 0 t2 / 1000000000 <= (Z.max 0 t + 86400 * 1000000000) / 1000000000) by (apply Z.div_le_mono; lia).
  rewrite Z.div_add in Hd by done. lia.
Qed.
(** A disk that takes what it is given. *)
Definition roomy (d : disk) : Prop := d_read_only d = false /\ d_free d = None.
Lemma cached_when_roomy root url bytes ct now c : roomy (ic_disk c) -> exists c', write_cache root url bytes ct now c = (Ok tt, c').
Proof using Type.
  intros [Hw Hf]. unfold write_cache, bind, map_err, on_disk, create_dir_all. rewrite Hw. cbn [rmap_err].
  unfold cache_write, fs_write. cbn [ic_disk]. rewrite Hw, Hf. cbn [set_files ic_disk d_read_only d_free rmap_err]. rewrite Hw, Hf. by eexists.
Qed.

(** What was signed is served.  Once a signer has the secret of a user, minted now or
    before, the address it signs opens for a day: whatever instant of that day the request
    comes, if the upstream answers an image and the disk has room, the proxy answers exactly
    that image, for every http address without a percent-coded question mark or hash. *)
Theorem signed_image_is_shown uid w s a1 url t w2 img n' :
  lasting (media_secret_kv_key uid) (w_kv (md_auth w)) -> proxy_signer_new uid (md_auth w) = (Ok s, a1) ->
  is_http url = true -> code_free url -> media_now w <= t -> t <= media_now w2 -> media_now w2 <= t + from_secs SIG_TTL_SECS ->
  w_kv (md_auth w2) = w_kv a1 -> read_cache (cache_file_path (cache_root data_dir) url) (md_cache w2) = None ->
  fetch_upstream url (md_net w2) = (Ok img, n') -> roomy (ic_disk (md_cache w2)) ->
  exists target q,
    sign_url t s url = "/api/v1/proxy/" +:+ target +:+ "?exp=" +:+ show_Z (pq_exp q) +:+ "&sig=" +:+ pq_sig q +:+ "&uid=" +:+ pq_uid q /\
    fst (proxy_image data_dir target q w2) = Ok (image_response (fi_bytes img) (fi_content_type img)).
Proof using Hkv Hcrypto.
  intros Hlast Hsigner Hhttp Hfree Ht1 Ht2 Ht3 Hkv2 Hmiss Hfetch Hroom.
  destruct (signer_secret uid (md_auth w) s a1 Hlast Hsigner) as (Hid & Hnow & Hsec).
  set (q := mkProxyQuery (signed_until t) (compute_sig (sg_secret s) uid url (signed_until t)) uid).
  exists (encode_proxy_path url), q. split; [unfold sign_url; by rewrite Hid|].
  destruct (proxy_image data_dir (encode_proxy_path url) q w2) as [r w3] eqn:Hrun. cbn [fst].
  unfold proxy_image, bind, attempt in Hrun. destruct (proxy_image_inner _ _ _ w2) as [x w4] eqn:Hx. injection Hrun as <- <-.
  apply proxy_outcome in Hx. rewrite decode_encode in Hx by done.
  destruct Hx as [(_ & _ & Hserved)|(_ & Hno & _)].
  - unfold served in Hserved. rewrite Hmiss, Hfetch in Hserved. destruct Hserved as (y & [= <- Hn] & z & Hw & ->).
    destruct (cached_when_roomy (cache_root data_dir) url (fi_bytes img) (fi_content_type img) (media_now w2) (md_cache w2) Hroom) as (c' & Hc).
    rewrite Hw in Hc. by injection Hc as -> _.
  - destruct (Hno Hhttp). exists (sg_secret s). unfold secret_of. cbn [pq_uid pq_sig pq_exp q]. rewrite Hkv2.
    split; [apply Hsec; unfold media_now in *; lia|]. split; [done|]. by apply unix_step.
Qed.
End Proxy.

(** ** Witnesses *)

(** Hosts by name, and the responses still to come. *)
Definition toy_hosts (host : string) : list IpAddr :=
  if contains_str "inner" host then [V4 10 0 0 1] else if contains_str "mixed" host then [V4 10 0 0 1; V4 93 184 216 34] else [V4 93 184 216 34].
#[local] Instance toy_upstream : MediaNet (list MediaResponse) := {|
  media_lookup host _ n := (Ok (toy_hosts host), n);
  media_get _ n := match n with r :: n => (Ok r, n) | [] => (Err "connection refused", []) end;
|}.
#[local] Instance media_join : UrlJoin := {| url_join _ l := Ok l; basic_encoded u p := u +:+ ":" +:+ p |}.
#[local] Instance toy_mac : MediaLib := fun key m => key +:+ "|" +:+ m.
Definition toy_gif : string := "GIF89a" +:+ bytes_of [2; 0; 1; 0]%N +:+ "pixels".
Definition moved_to (url : string) : MediaResponse := mkMediaResp 302 (Some url) None [] None.
Definition gif_response : MediaResponse := mkMediaResp 200 None (Some "image/gif; q=1") [stake 6 toy_gif; sdrop 6 toy_gif] None.
Definition gif_url : string := "https://img.example/a?b#c.gif".

Definition redirected := fetch_with_accept_status (H := logged_net toy_upstream) "https:a.example" looks_like_image
  ([moved_to "https:b.example"; gif_response], []).
Lemma fetch_is_guarded_witness :
  fst redirected = Ok (UpImage (mkFetched toy_gif "image/gif")) /\
  exists more, snd (snd redirected) = ([] ++ more)%list /\ guarded 4 more.
Proof.
  split; [vm_compute; reflexivity|]. destruct (fetch_is_guarded toy_upstream "https:a.example" looks_like_image 10
    [moved_to "https:b.example"; gif_response] []) as [Hf _].
  apply (Hf (fst redirected) (fst (snd redirected)) (snd (snd redirected))). unfold redirected.
  rewrite <-surjective_pairing. apply surjective_pairing.
Defined.
(** A redirect into the network is refused before the request. *)
Lemma redirect_inside_refused :
  fst (fetch_with_accept_status (H := logged_net toy_upstream) "https:a.example" looks_like_image ([moved_to "https:inner.example"; gif_response], [])) =
  Err (InvalidInput "proxy target blocked by SSRF policy").
Proof. vm_compute. reflexivity. Qed.
(** One public address is enough, though the request resolves the name anew and may take the other. *)
Lemma mixed_addresses_pass :
  fst (validate_outbound_url "https:mixed.example" ([] : list MediaResponse)) = Ok tt /\ is_blocked_addr (V4 10 0 0 1) = true.
Proof. split; vm_compute; reflexivity. Qed.

Definition empty_cache : image_cache := mkCache (mkDisk ∅ None false) ∅.
Definition media_start : media_world MemoryKv.t N (list MediaResponse) := mkMedia (toy_world [] []) empty_cache [gif_response].
Definition stuffed_cache : image_cache :=
  mkCache (mkDisk {["/data/media-cache/00/old" := "old"; "/data/media-cache/00/old.meta" := "{}"]} None false) ∅.
Definition written := write_cache "/data/media-cache" gif_url toy_gif "image/gif" 5 stuffed_cache.
Lemma cache_stays_bounded_witness : (cached_total "/data/media-cache" (snd written) <= MAX_CACHE_BYTES)%N.
Proof.
  apply (cache_stays_bounded "/data/media-cache" gif_url toy_gif "image/gif" 5 stuffed_cache (snd written)).
  assert (Hw : written = (Ok tt, snd written)) by (vm_compute; reflexivity). exact Hw.
Defined.
(** Over a small bound the oldest files go first. *)
Lemma oldest_goes_first :
  map fst (map_to_list (d_files (ic_disk (evict_cache_if_needed "/c" 5
    (mkCache (mkDisk {["/c/00/a" := "aaa"; "/c/00/a.meta" := "{}"; "/c/00/b" := "bbbb"]} None false) {["/c/00/a" := 1; "/c/00/b" := 2]}))))) = ["/c/00/b"].
Proof. vm_compute. reflexivity. Qed.

Definition signing := proxy_signer_new "u1" (md_auth media_start).
Definition after_signing : media_world MemoryKv.t N (list MediaResponse) := mkMedia (snd signing) empty_cache [gif_response].
Lemma proxy_serves_signed_only_witness :
  proxy_image "/data" (encode_proxy_path gif_url) (mkProxyQuery 0 "forged" "u1") after_signing =
  (Ok placeholder_response, snd (proxy_image "/data" (encode_proxy_path gif_url) (mkProxyQuery 0 "forged" "u1") after_signing)) /\
  md_net (snd (proxy_image "/data" (encode_proxy_path gif_url) (mkProxyQuery 0 "forged" "u1") after_signing)) = [gif_response].
Proof.
  set (run := proxy_image _ _ _ _). assert (Hr : run = (Ok placeholder_response, snd run)) by (vm_compute; reflexivity).
  split; [exact Hr|]. destruct (proxy_serves_signed_only "/data" (encode_proxy_path gif_url) (mkProxyQuery 0 "forged" "u1") after_signing _ _ Hr) as [Hno _].
  destruct Hno as (_ & _ & Hn); [|exact Hn]. intros (_ & secret & _ & _ & Hexp).
  assert (Hnow : now_unix (media_now after_signing) = 1000000) by (vm_compute; reflexivity). rewrite Hnow in Hexp. cbn in Hexp. lia.
Defined.
Lemma signed_image_is_shown_witness :
  exists target q,
    sign_url (media_now media_start) (mkSigner "u1" (default "" (option_map sg_secret (rok (fst signing))))) gif_url =
      "/api/v1/proxy/" +:+ target +:+ "?exp=" +:+ show_Z (pq_exp q) +:+ "&sig=" +:+ pq_sig q +:+ "&uid=" +:+ pq_uid q /\
    fst (proxy_image "/data" target q after_signing) = Ok (image_response toy_gif "image/gif").
Proof.
  apply (signed_image_is_shown "/data" "u1" media_start (mkSigner "u1" (default "" (option_map sg_secret (rok (fst signing)))))
    (snd signing) gif_url (media_now media_start) after_signing (mkFetched toy_gif "image/gif") []).
  - intros v e. assert (Hnone : cells (w_kv (md_auth media_start)) (media_secret_kv_key "u1") = None) by (vm_compute; reflexivity).
    rewrite Hnone. discriminate.
  - vm_compute. reflexivity.
  - vm_compute. reflexivity.
  - split; vm_compute; reflexivity.
  - reflexivity.
  - vm_compute. discriminate.
  - vm_compute. discriminate.
  - reflexivity.
  - vm_compute. reflexivity.
  - vm_compute. reflexivity.
  - split; reflexivity.
Defined.
(** A cache that cannot be written hides an image that was fetched. *)
Lemma full_disk_hides_image :
  fst (proxy_image "/data" (encode_proxy_path gif_url)
    (mkProxyQuery (signed_until (media_now media_start)) (compute_sig (default "" (option_map sg_secret (rok (fst signing)))) "u1" gif_url (signed_until (media_now media_start))) "u1")
    (mkMedia (snd signing) (mkCache (mkDisk ∅ (Some 0%nat) false) ∅) [gif_response])) = Ok placeholder_response.
Proof. vm_compute. reflexivity. Qed.
