(* ===== verification/Pim.v ===== *)
(** * Contacts and calendars: the routes ([pim.rs])

    What the API reads of contacts, calendars and events, and the routes that create an item,
    sync an account and discover its home sets, over the tables of [PimDav].  A photo goes to
    the blob directory, which a sync reaches beside the network: [HasDisk].  A failure that the
    client sees only as an internal error keeps its cause as a value.  The two timestamps of a
    row are left out.  Ids are text, as on SQLite. *)
From S2P Require Import Prelude Kv Crypto UnlockRing World Toy Session Labels Jobs Pool Netsec MailStore Imap ImapLoop Blobs Jmap JmapLoop.
From S2P Require Import Spam OAuth Ai JmapWrite Desk Actions SpamPass ToyDesk Isolation Dav PimDav Accounts Media.
Local Open Scope string_scope.
Local Open Scope Z_scope.

(** ** Answers and requests *)

Record Contact := mkContactView {
  co_id : string; co_account_id : string; co_display_name : option string; co_email_addresses : list string; co_phone_numbers : list string;
  co_organisation : option string; co_photo_path : option string; co_addressbook_url : option string }.
Record Calendar := mkCalendarView {
  cd_id : string; cd_account_id : string; cd_name : string; cd_color : option string; cd_description : option string;
  cd_timezone : option string; cd_is_active : bool }.
Record CalendarEvent := mkEventView {
  ce_id : string; ce_calendar_id : option string; ce_summary : option string; ce_description : option string; ce_dtstart : option string;
  ce_dtend : option string; ce_location : option string; ce_is_all_day : bool; ce_status : option string; ce_recurrence_rule : option string }.
Record ListContactsQuery := mkListContacts {
  lc_account_id : option string; lc_addressbook_url : option string; lc_q : option string; lc_limit : option Z; lc_offset : option Z }.
Record ListEventsQuery := mkListEvents { le_start : option string; le_end : option string }.
Record CreateContactRequest := mkCreateContact {
  cr_account_id : string; cr_display_name : string; cr_email : option string; cr_phone : option string; cr_organisation : option string }.
Record CreateEventRequest := mkCreateEvent {
  cv_summary : string; cv_dtstart : string; cv_dtend : option string; cv_is_all_day : bool; cv_location : option string;
  cv_description : option string }.

(** What the text of a [SyncError] would say. *)
Inductive PimCause := FromDek (e : CryptoError.t) | FromCredential (e : ImapError) | FromDav (e : DavError) | FromFeed (e : SyncError).
Inductive PimError :=
  | PimNotFound | PimDatabase | PimAccountNotFound | PimSync (why : PimCause) | PimInput (m : string) | PimUnauthorized
  | PimPasswordRequired | PimPanic.
(** Status, message and code; a panic has no answer. *)
Definition pim_response (e : PimError) : option (Z * string * string) :=
  match e with
  | PimNotFound => Some (404, "not found", "not_found")
  | PimAccountNotFound => Some (404, "account not found or not accessible", "not_found")
  | PimUnauthorized => Some (401, "authentication required", "unauthorized")
  | PimInput m => Some (400, m, "invalid_input")
  | PimPasswordRequired => Some (400, "PIM app password required for CardDAV/CalDAV", "pim_password_required")
  | PimDatabase | PimSync _ => Some (500, "internal error", "internal_error")
  | PimPanic => None
  end.
Definition dav_failure (e : DavError) : PimError := match e with DavPanic _ => PimPanic | _ => PimSync (FromDav e) end.
(** [DbErr] where a statement was expected to work. *)
Definition dav_database (e : DavError) : PimError := match e with DavPanic _ => PimPanic | _ => PimDatabase end.

(** The blob directory next to the network. *)
Class HasDisk (T : Type) := in_disk : forall {E A}, io disk E A -> io T E A.

(** SQLite's [LIKE] without an escape character. *)
Fixpoint plain_like (p s : string) {struct p} : bool :=
  match p with
  | "" => is_empty s
  | String c p' =>
      if Ascii.eqb c "%" then
        (fix any (s : string) : bool := plain_like p' s || match s with "" => false | String _ s' => any s' end) s
      else if Ascii.eqb c "_" then match s with "" => false | String _ s' => plain_like p' (drop_while (fun a => negb (char_start a)) s') end
      else match s with "" => false | String a s' => Ascii.eqb (ascii_lower c) (ascii_lower a) && plain_like p' s' end
  end.
Definition column_matches (search : string) (col : option string) : bool :=
  match col with Some s => plain_like ("%" +:+ search +:+ "%") s | None => false end.
(** [ORDER BY] of a text column: NULL first. *)
Definition column_le (a b : option string) : bool :=
  match a, b with None, _ => true | Some _, None => false | Some a, Some b => String.leb a b end.
(** [LIMIT] and [OFFSET]: a negative limit is none, a negative offset zero. *)
Definition window {A} (limit offset : Z) (l : list A) : list A :=
  let rest := List.skipn (Z.to_nat offset) l in
  if (limit <? 0) || (Z.of_nat (length rest) <=? limit) then rest else take (Z.to_nat limit) rest.

Section Rows.
Context `{JsonLib} `{JobLib}.
(** A JSON array of strings; anything else is empty. *)
Definition json_array (col : option string) : list string :=
  default [] (text ← col; v ← json_parse text; match v with JArray l => mapM json_str l | _ => None end).
Definition normalize_ts_text (text : string) : string :=
  match or_else (parse_rfc3339 text) (parse_naive text) with Some t => rfc3339 t | None => text end.
Definition contact_from_row (c : ContactRow) : Contact :=
  mkContactView (ct_id c) (ct_account c) (ct_display_name c) (json_array (ct_emails c)) (json_array (ct_phones c)) (ct_organisation c)
    (ct_photo c) (ct_book c).
Definition calendar_from_row (c : CalendarRow) : Calendar :=
  mkCalendarView (cl_id c) (cl_account c) (cl_name c) (cl_color c) (cl_description c) (cl_timezone c) (cl_is_active c).
Definition event_from_row (e : EventRow) : CalendarEvent :=
  mkEventView (er_id e) (er_calendar e) (er_summary e) (er_description e) (option_map normalize_ts_text (er_dtstart e))
    (option_map normalize_ts_text (er_dtend e)) (er_location e) (er_is_all_day e) (er_status e) (er_rrule e).
End Rows.

Section PimRoutes.
Context {K R T : Type} `{HasRng R} `{CryptoLib} `{OAuthNet T} `{JmapWrites T} `{ImapSession T} `{MimeLib} `{UrlLib} `{UrlJoin}
  `{JmapTime} `{StoreLib} `{JsonLib} `{JobLib} `{CivilLib} `{DavNet T} `{UpperLib} `{HasDisk T} `{MediaNet T} `{BlobLib}.
Local Abbreviation W := (office K R T).
Local Abbreviation M := (io W PimError).
Implicit Types w : W.

(** ** Reading *)

(** One statement over the accounts and the tables. *)
Definition account_read {A} (f : list MailAccountRow -> pim_tables -> A) : M A :=
  fun w => pread PimDatabase (f (accounts (of_desk w))) w.
(** [accounts_of_user]. *)
Definition account_of_user (user_id : string) (rows : list MailAccountRow) (account_id : string) : bool :=
  existsb (fun r => String.eqb (ma_id r) account_id && String.eqb (ma_user_id r) user_id) rows.
Definition is_filter (filter : option string) (col : option string) : bool :=
  match filter with Some v => bool_decide (col = Some v) | None => true end.
Definition list_contacts (user_id : string) (q : ListContactsQuery) : M (list Contact) :=
  account_read (fun rows t =>
    let hit c := account_of_user user_id rows (ct_account c) && is_filter (lc_account_id q) (Some (ct_account c))
                 && is_filter (lc_addressbook_url q) (ct_book c)
                 && match lc_q q with Some s => column_matches s (ct_display_name c) || column_matches s (ct_emails c) | None => true end in
    map contact_from_row (window (default 100 (lc_limit q)) (default 0 (lc_offset q))
      (order_by (fun a b => column_le (ct_display_name a) (ct_display_name b)) (List.filter hit (pt_contacts t))))).
Definition get_contact (user_id id : string) : M Contact :=
  let! row := account_read (fun rows t => List.find (fun c => String.eqb (ct_id c) id && account_of_user user_id rows (ct_account c)) (pt_contacts t)) in
  lift (ok_or PimNotFound (option_map contact_from_row row)).
Definition list_calendars (user_id : string) (account_id : option string) : M (list Calendar) :=
  account_read (fun rows t =>
    map calendar_from_row (order_by (fun a b => String.leb (cl_name a) (cl_name b))
      (List.filter (fun c => account_of_user user_id rows (cl_account c) && is_filter account_id (Some (cl_account c))) (pt_calendars t)))).
Definition owned_calendar (user_id id : string) (rows : list MailAccountRow) (t : pim_tables) : option CalendarRow :=
  List.find (fun c => String.eqb (cl_id c) id && account_of_user user_id rows (cl_account c)) (pt_calendars t).
Definition get_calendar (user_id id : string) : M Calendar :=
  let! row := account_read (owned_calendar user_id id) in
  lift (ok_or PimNotFound (option_map calendar_from_row row)).
(** [dtstart >= start], and [dtend <= end OR dtend IS NULL]. *)
Definition in_window (q : ListEventsQuery) (e : EventRow) : bool :=
  match le_start q with Some s => match er_dtstart e with Some d => String.leb s d | None => false end | None => true end
  && match le_end q with Some s => match er_dtend e with Some d => String.leb d s | None => true end | None => true end.
Definition list_events (user_id calendar_id : string) (q : ListEventsQuery) : M (list CalendarEvent) :=
  let! owned := account_read (owned_calendar user_id calendar_id) in
  match owned with
  | None => throw PimNotFound
  | Some _ =>
      account_read (fun _ t => map event_from_row (order_by (fun a b => column_le (er_dtstart a) (er_dtstart b))
        (List.filter (fun e => bool_decide (er_calendar e = Some calendar_id) && in_window q e) (pt_events t))))
  end.
Definition calendar_of_user (user_id : string) (rows : list MailAccountRow) (t : pim_tables) (o : option string) : bool :=
  match o with Some id => bool_decide (is_Some (owned_calendar user_id id rows t)) | None => false end.
Definition get_event (user_id id : string) : M CalendarEvent :=
  let! row := account_read (fun rows t => List.find (fun e => String.eqb (er_id e) id && calendar_of_user user_id rows t (er_calendar e)) (pt_events t)) in
  lift (ok_or PimNotFound (option_map event_from_row row)).

(** ** The password of a DAV server *)

Definition my_account (user_id account_id : string) : M MailAccountRow :=
  let! row := account_read (fun rows _ => my_row user_id account_id rows) in
  lift (ok_or PimAccountNotFound row).
Definition opened (dek blob : string) : M string := lift (rmap_err (fun e => PimSync (FromCredential e)) (imap_decrypt_account_password blob dek)).
Definition load_dav_basic_password (user_id account_id : string) : M string :=
  let! row := my_account user_id account_id in
  let! dek := map_err (fun e => PimSync (FromDek e)) (on_desk (on_ow (on_auth (get_user_dek user_id)))) in
  let! pim := match nonempty (ax_pim_credential (ma_extras row)) with
              | Some blob => let! p := opened dek blob in ret (Some p)
              | None => ret None
              end in
  let! mail := (if eq_ignore_ascii_case (ma_auth_type row) "bearer" then ret None
                else let! p := opened dek (ma_credential row) in ret (Some p)) in
  lift (rmap_err (fun _ => PimPasswordRequired) (resolve_dav_password pim mail (ma_auth_type row))).

(** ** Creating *)

Definition create_contact (user_id : string) (b : CreateContactRequest) : M Contact :=
  if is_empty (trim (cr_display_name b)) then throw (PimInput "displayName must not be empty") else
  let! row := my_account user_id (cr_account_id b) in
  let! carddav := lift (ok_or (PimInput "Connect Calendar & contacts (CardDAV) for this account first") (nonempty (ax_carddav_url (ma_extras row)))) in
  let! password := load_dav_basic_password user_id (cr_account_id b) in
  let fields := mkNewContact (trim (cr_display_name b)) (cr_email b) (cr_phone b) (cr_organisation b) in
  let! href := map_err dav_failure (create_dav_contact (cr_account_id b) carddav (ma_email_address row) password fields) in
  let! row := account_read (fun _ t => List.find (contact_at (cr_account_id b) href) (pt_contacts t)) in
  lift (ok_or PimNotFound (option_map contact_from_row row)).
Definition event_in (calendar_id href : string) (e : EventRow) : bool :=
  bool_decide (er_external e = Some href) && bool_decide (er_calendar e = Some calendar_id).
(** The calendar with the account it hangs off. *)
Definition joined_calendar (user_id id : string) (rows : list MailAccountRow) (t : pim_tables) : option (CalendarRow * MailAccountRow) :=
  first_of (fun c => if String.eqb (cl_id c) id then option_map (pair c) (my_row user_id (cl_account c) rows) else None) (pt_calendars t).
Definition create_event (user_id id : string) (b : CreateEventRequest) : M CalendarEvent :=
  let! found := account_read (joined_calendar user_id id) in
  let! found := lift (ok_or PimNotFound found) in
  let '(calendar, row) := found in
  let! calendar_url := lift (ok_or PimDatabase (cl_url calendar)) in
  let! password := load_dav_basic_password user_id (ma_id row) in
  let fields := mkNewEvent (cv_summary b) (cv_dtstart b) (cv_dtend b) (cv_is_all_day b) (cv_location b) (cv_description b) in
  let! href := map_err dav_failure (create_dav_event (ma_id row) id calendar_url (ma_email_address row) password fields) in
  let! row := account_read (fun _ t => List.find (event_in id href) (pt_events t)) in
  lift (ok_or PimNotFound (option_map event_from_row row)).

(** ** Syncing *)

(** [store_photo]: inline bytes, or the image behind an address, to the blobs of the account. *)
Definition kept_blob (data_dir account_id bytes : string) : io T unit string :=
  map_err (fun _ => tt) (in_disk (Blobs.store data_dir account_id bytes)).
Definition photo_path (data_dir account_id : string) (photo : VcardPhoto) : io T unit string :=
  match photo with
  | PhotoInline bytes => kept_blob data_dir account_id bytes
  | PhotoUri url => let! img := map_err (fun _ => tt) (fetch_upstream url) in kept_blob data_dir account_id (fi_bytes img)
  end.
Definition store_photo (data_dir account_id : string) : PhotoStore (K := K) (R := R) (T := T) :=
  fun photo w => let '(r, w') := on_wire (photo_path data_dir account_id photo) w in (rok r, w').
Inductive SyncAnswer := SyncSkipped (m : string) | SyncDone (o : DavSyncOutcome).
Definition sync_contacts (data_dir user_id account_id : string) : M SyncAnswer :=
  let! row := my_account user_id account_id in
  match nonempty (ax_carddav_url (ma_extras row)) with
  | None => ret (SyncSkipped "Set carddavUrl on the account to enable CardDAV sync")
  | Some base_url =>
      let! password := load_dav_basic_password user_id account_id in
      let! client := lift (rmap_err dav_failure (dav_client_new (ma_email_address row) password base_url)) in
      let! outcome := map_err dav_failure (sync_carddav client account_id (Some base_url) (store_photo data_dir account_id)) in
      ret (SyncDone outcome)
  end.
Definition sync_calendars (user_id account_id : string) : M SyncAnswer :=
  let! row := my_account user_id account_id in
  match nonempty (ax_caldav_url (ma_extras row)) with
  | None => ret (SyncSkipped "Set caldavUrl on the account to enable CalDAV sync")
  | Some base_url =>
      let! password := load_dav_basic_password user_id account_id in
      let! client := lift (rmap_err dav_failure (dav_client_new (ma_email_address row) password base_url)) in
      let! outcome := map_err dav_failure (sync_caldav client account_id (Some base_url)) in
      ret (SyncDone outcome)
  end.
(** A server that is not found is an answer, a panic is not. *)
Definition discovery_outcome (r : result DavError (string * string)) : result PimError (string * string) :=
  match r with Ok urls => Ok urls | Err (DavPanic _) => Err PimPanic | Err _ => Ok ("", "") end.
Definition pim_discover (user_id account_id : string) : M (string * string) :=
  let! row := my_account user_id account_id in
  let! password := load_dav_basic_password user_id account_id in
  let! found := attempt (discover_homesets (ma_email_address row) password) in
  let! urls := lift (discovery_outcome found) in
  let! _ := when (negb (is_empty (fst urls)) && negb (is_empty (snd urls))) (map_err dav_database (persist_dav_urls account_id (fst urls) (snd urls))) in
  ret urls.
End PimRoutes.

(** ** A route stays within the user *)

Section PimOwn.
Context {K R T : Type} `{HasRng R} `{CryptoLib} `{OAuthNet T} `{JmapWrites T} `{ImapSession T} `{MimeLib} `{UrlLib} `{UrlJoin}
  `{JmapTime} `{StoreLib} {Hids : StoreLaws} `{JsonLib} `{JobLib} `{CivilLib} `{DavNet T} `{UpperLib} `{HasDisk T} `{MediaNet T} `{BlobLib}.
Local Abbreviation W := (office K R T).
Local Abbreviation M := (io W PimError).
Implicit Types w : W.
Context (user : string).

(** The mail, the accounts of other users, and the contacts and calendars of theirs are left as they were. *)
Record pim_spared w w' : Prop := {
  pi_rows : rows_of_others user w' = rows_of_others user w;
  pi_messages : ml_messages (dk_mail (of_desk w')) = ml_messages (dk_mail (of_desk w));
  pi_folders : ml_folders (dk_mail (of_desk w')) = ml_folders (dk_mail (of_desk w));
  pi_pim a : foreign user a w -> pim_of a w' = pim_of a w }.
Record pim_sound w : Prop := { so_ids : NoDup (ma_id <$> rows w); so_tables : pim_ok w }.
Definition pim_own (o : option string) w w' : Prop :=
  pim_sound w -> mine_at user o w -> pim_sound w' /\ mine_at user o w' /\ pim_spared w w'.
#[local] Instance pim_own_pre o : PreOrder (pim_own o).
Proof.
  split; [by intros w ? ?|]. intros x y z Hxy Hyz Hx Ho. destruct (Hxy Hx Ho) as (Hy & Hoy & [E1 M1 F1 P1]).
  destruct (Hyz Hy Hoy) as (Hz & Hoz & [E2 M2 F2 P2]). split; [done|]. split; [done|]. split; [congruence..|].
  intros a Ha. rewrite P2; [by apply P1|]. unfold foreign. by rewrite E1.
Qed.

Lemma owners_sound w w' : owners w' = owners w -> NoDup (ma_id <$> rows w) -> NoDup (ma_id <$> rows w').
Proof using Type. intros Ho. by rewrite !owner_list_ids, Ho. Qed.
Lemma owners_mine_at o w w' : owners w' = owners w -> mine_at user o w -> mine_at user o w'.
Proof using Type. intros Ho. destruct o as [a|]; [|done]. unfold mine_at. by rewrite !owners_mine, Ho. Qed.
(** Only credentials of the user changed. *)
Lemma plain_pim_own o w w' : plain user w w' -> next_seq w' = next_seq w -> pim_own o w w'.
Proof using Type.
  intros [Ho Hr _ Ht Hs] Hq [Hi Hp] Hm. assert (Ht' := Ht). unfold tables_of in Ht. injection Ht as Hf Hme _ Hpim.
  split; [|split; [by eapply owners_mine_at|split; [done..|intros a _; by apply tables_holdings]]].
  split; [by eapply owners_sound|]. unfold pim_ok in *. by rewrite Hq, Hpim.
Qed.
Lemma urls_owner a r r' : urls_only a r r' -> ma_id r' = ma_id r /\ ma_user_id r' = ma_user_id r /\ (ma_id r <> a -> r' = r).
Proof using Type. intros [->|(Hi & c & l & ->)]; [done|]. split; [done|]. split; [done|]. by intros. Qed.
Lemma urls_owners a l l' : Forall2 (urls_only a) l l' ->
  map (fun r => (ma_id r, ma_user_id r)) l' = map (fun r => (ma_id r, ma_user_id r)) l.
Proof using Type. induction 1 as [|r r' l l' Hr _ IH]; [done|]. cbn. destruct (urls_owner _ _ _ Hr) as (-> & -> & _). by rewrite IH. Qed.
Lemma urls_others a l l' : Forall2 (urls_only a) l l' -> (forall r, r ∈ l -> ma_id r = a -> ma_user_id r = user) ->
  List.filter (fun r => negb (String.eqb (ma_user_id r) user)) l' = List.filter (fun r => negb (String.eqb (ma_user_id r) user)) l.
Proof using Type.
  induction 1 as [|r r' l l' Hr _ IH]; intros Ha; [done|]. cbn. rewrite IH by (intros x Hx; apply Ha; by right).
  destruct (urls_owner _ _ _ Hr) as (_ & -> & Hsame). destruct (String.eqb_spec (ma_user_id r) user) as [|Hne]; [done|]. cbn.
  rewrite Hsame; [done|]. intros Hi. by apply Hne, Ha; [left|].
Qed.
Lemma held_but {A} (account : A -> string) a b (l l' : list A) : b <> a -> rows_but account a l' = rows_but account a l -> held account b l' = held account b l.
Proof using Type.
  intros Hne He. assert (Hh : forall k : list A, held account b k = held account b (rows_but account a k)).
  { intros k. unfold held, rows_but. induction k as [|x k IH]; [done|]. cbn. rewrite IH.
    destruct (String.eqb_spec (account x) a) as [->|]; cbn; [|done]. by rewrite (proj2 (String.eqb_neq a b)) by congruence. }
  by rewrite (Hh l'), He, <-Hh.
Qed.
Lemma step_pim_own a w w' : pim_step a w w' -> pim_own (Some a) w w'.
Proof using Type.
  intros Hstep [Hi Hp] Hm. destruct (Hstep Hp) as [Hp' [_ Hme Hf Ha [Hc He Hl Hu]]].
  assert (Ho : owners w' = owners w) by (by eapply urls_owners).
  assert (Hself : forall r, r ∈ rows w -> ma_id r = a -> ma_user_id r = user).
  { destruct Hm as (x & Hx & Hxa & Hxu). intros r Hr Hra. replace r with x; [done|]. apply (same_key ma_id (rows w)); congruence || done. }
  split; [split; [by eapply owners_sound|done]|]. split; [by eapply owners_mine_at|]. split; [by eapply urls_others|done|done|].
  intros b Hb. assert (b <> a) as Hne.
  { intros ->. unfold foreign, rows_of_others in Hb. apply list_elem_of_fmap in Hb as (r & Hra & Hr). apply list_elem_of_In, filter_In in Hr as [Hr Hu'].
    apply list_elem_of_In in Hr. by rewrite (Hself r Hr (eq_sym Hra)), String.eqb_refl in Hu'. }
  unfold pim_of. by rewrite (held_but ct_account a b _ _ Hne Hc), (held_but cl_account a b _ _ Hne Hl), (held_but er_account a b _ _ Hne He),
    (held_but cu_account a b _ _ Hne Hu).
Qed.
Lemma own_of_steps {E A} a (m : io W E A) : preserves (pim_step a) m -> preserves (pim_own (Some a)) m.
Proof using Type. intros Hm w r w' Hr. by eapply step_pim_own, Hm. Qed.

(** What one read answers. *)
Lemma account_read_run {A} (f : list MailAccountRow -> pim_tables -> A) w r w' : account_read (K := K) (R := R) (T := T) f w = (r, w') ->
  (r = Err PimDatabase \/ r = Ok (f (rows w) (of_pim w))) /\ rows w' = rows w /\ of_pim w' = of_pim w /\ plain user w w' /\ next_seq w' = next_seq w.
Proof using Type.
  unfold account_read, pread. intros Hr. pose proof Hr as (db & Hs & Hme & Hf & Hcase)%pstmt_run.
  assert (Hc : ml_cursors db = ml_cursors (dk_mail (of_desk w)) \/ True) by (by right).
  revert Hr. unfold pstmt. destruct (mstmt _ _) as [x db'] eqn:Hm.
  assert (ml_folders db' = ml_folders (dk_mail (of_desk w)) /\ ml_messages db' = ml_messages (dk_mail (of_desk w)) /\
    ml_cursors db' = ml_cursors (dk_mail (of_desk w)) /\ ml_seq db' = ml_seq (dk_mail (of_desk w))) as (E1 & E2 & E3 & E4).
  { revert Hm. unfold mstmt. destruct (ml_fuse _) as [[|n]|]; by intros [= _ <-]. }
  clear Hcase Hc. destruct x as [u|e]; intros [= <- <-]; (split; [auto|]); split_and!; try done;
    split; try done; unfold tables_of; cbn; by rewrite E1, E2, E3.
Qed.
Lemma own_account_read {A} o (f : list MailAccountRow -> pim_tables -> A) : preserves (pim_own o) (account_read (K := K) (R := R) (T := T) f).
Proof using Type. intros w r w' (_ & _ & _ & Hp & Hq)%account_read_run. by apply plain_pim_own. Qed.
Lemma own_pim_dek o : preserves (pim_own o) (on_desk (on_ow (T := T) (on_auth (get_user_dek (K := K) (R := R) user)))).
Proof using Hids.
  intros w r w' Hr Hs. refine (plain_pim_own o w w' _ _ Hs).
  - eapply auth_plain; [apply get_user_dek_spares|apply Hs|exact Hr].
  - revert Hr. unfold on_desk, on_ow, on_auth. destruct (get_user_dek _ _). by intros [= _ <-].
Qed.
Lemma own_password o a : preserves (pim_own o) (load_dav_basic_password (K := K) (R := R) (T := T) user a).
Proof using Hids.
  unfold load_dav_basic_password, my_account, opened. preserve; first [apply own_account_read|apply own_pim_dek].
Qed.
(** A route that starts from an account of the user. *)
Lemma own_my_account {B} a (k : MailAccountRow -> M B) : (forall row, preserves (pim_own (Some a)) (k row)) ->
  preserves (pim_own None) (bind (my_account user a) k).
Proof using Type.
  intros Hk w r w' Hr. unfold my_account in Hr. rewrite bind_assoc in Hr. apply bind_inv in Hr as [(e & Hrd & _)|(o & w1 & Hrd & Hr)];
    [by eapply own_account_read|]. pose proof Hrd as (Ho & Hrows & _)%account_read_run.
  destruct o as [row|]; [|unfold lift, bind in Hr; injection Hr as _ <-; by eapply own_account_read].
  cbn in Hr. apply Hk in Hr. trans w1; [by eapply own_account_read|]. intros Hs1 _.
  assert (Hm : mine user (rows w1) a).
  { apply mine_row. rewrite Hrows. destruct Ho as [|[= Ho]]; [done|]. rewrite <-Ho. by eexists. }
  by destruct (Hr Hs1 Hm) as (Hs2 & _ & Hsp2).
Qed.
Lemma own_create_contact b : preserves (pim_own None) (create_contact (K := K) (R := R) (T := T) user b).
Proof using Hids.
  unfold create_contact. destruct (is_empty _); [preserve|]. apply own_my_account. intros row. preserve;
    first [apply own_password|apply own_account_read|apply own_of_steps, step_create_contact].
Qed.
Lemma enter a w w' : mine user (rows w) a -> pim_own (Some a) w w' -> pim_own None w w'.
Proof using Type. intros Hm Ho Hs _. by destruct (Ho Hs Hm) as (Hs' & _ & Hsp). Qed.
Lemma first_of_cons {A B} (f : A -> option B) x l : first_of f (x :: l) = match f x with Some b => Some b | None => first_of f l end.
Proof using Type. unfold first_of. cbn. by destruct (f x). Qed.
Lemma joined_owner id rs t c row : joined_calendar user id rs t = Some (c, row) ->
  c ∈ pt_calendars t /\ cl_id c = id /\ my_row user (cl_account c) rs = Some row /\ ma_id row = cl_account c.
Proof using Type.
  unfold joined_calendar. induction (pt_calendars t) as [|x l IH]; [done|].
  assert (Hlater : first_of (fun c => if String.eqb (cl_id c) id then option_map (pair c) (my_row user (cl_account c) rs) else None) l = Some (c, row) ->
    c ∈ x :: l /\ cl_id c = id /\ my_row user (cl_account c) rs = Some row /\ ma_id row = cl_account c).
  { intros (? & ? & ? & ?)%IH. split_and!; try done. by right. }
  rewrite first_of_cons. destruct (String.eqb_spec (cl_id x) id) as [Hi|]; [|by apply Hlater].
  destruct (my_row user (cl_account x) rs) as [y|] eqn:Hy; [|by apply Hlater]. intros [= <- <-]. split; [by left|]. split; [done|]. split; [done|].
  apply find_some in Hy as [_ Hy]. unfold owned_account in Hy. by apply andb_prop in Hy as [Hy%String.eqb_eq _].
Qed.
Lemma own_create_event id b : preserves (pim_own None) (create_event (K := K) (R := R) (T := T) user id b).
Proof using Hids.
  intros w r w' Hr. unfold create_event in Hr. apply bind_inv in Hr as [(e & Hrd & _)|(o & w1 & Hrd & Hr)]; [by eapply own_account_read|].
  trans w1; [by eapply own_account_read|]. apply account_read_run in Hrd as (Ho & Hrows & _). destruct Ho as [|[= ->]]; [done|].
  destruct (joined_calendar user id (rows w) (of_pim w)) as [[c row]|] eqn:Hj; [|by injection Hr as _ <-].
  apply joined_owner in Hj as (_ & _ & Hrow & Hid). apply (enter (ma_id row)).
  { rewrite Hid. apply mine_row. rewrite Hrows, Hrow. by eexists. }
  revert Hr. apply (fun k => k w1 r w'). change (preserves (pim_own (Some (ma_id row)))
    (let! url := lift (ok_or PimDatabase (cl_url c)) in
     let! password := load_dav_basic_password user (ma_id row) in
     let! href := map_err dav_failure (create_dav_event (ma_id row) id url (ma_email_address row) password
       (mkNewEvent (cv_summary b) (cv_dtstart b) (cv_dtend b) (cv_is_all_day b) (cv_location b) (cv_description b))) in
     let! row := account_read (fun _ t => List.find (event_in id href) (pt_events t)) in
     lift (ok_or PimNotFound (option_map event_from_row row)))).
  preserve; first [apply own_password|apply own_account_read|apply own_of_steps, step_create_event].
Qed.
Lemma own_photos data_dir a p w : pim_step a w (snd (store_photo (K := K) (R := R) (T := T) data_dir a p w)).
Proof using Type. unfold store_photo. destruct (on_wire _ w) as [r w'] eqn:Hw. cbn. by eapply step_wire. Qed.
Lemma own_sync_contacts data_dir a : preserves (pim_own None) (sync_contacts (K := K) (R := R) (T := T) data_dir user a).
Proof using Hids.
  unfold sync_contacts. apply own_my_account. intros row. preserve;
    first [apply own_password|apply own_of_steps, step_sync_carddav; intros; apply own_photos].
Qed.
Lemma own_sync_calendars a : preserves (pim_own None) (sync_calendars (K := K) (R := R) (T := T) user a).
Proof using Hids. unfold sync_calendars. apply own_my_account. intros row. preserve; first [apply own_password|apply own_of_steps, step_sync_caldav]. Qed.
Lemma own_pim_discover a : preserves (pim_own None) (pim_discover (K := K) (R := R) (T := T) user a).
Proof using Hids.
  unfold pim_discover. apply own_my_account. intros row. apply pres_bind; [apply _|apply own_password|]. intros password.
  apply pres_bind; [apply _| |].
  - apply pres_attempt, own_of_steps. unfold discover_homesets, discover, home_of. preserve; apply step_wire.
  - intros found. preserve. apply own_of_steps, step_persist_urls.
Qed.

(** ** What the routes answer *)

Inductive PimRoute :=
| ListContacts (q : ListContactsQuery) | GetContact (id : string) | ListCalendars (account_id : option string) | GetCalendar (id : string)
| ListEvents (calendar_id : string) (q : ListEventsQuery) | GetEvent (id : string) | CreateContactRoute (b : CreateContactRequest)
| CreateEventRoute (calendar_id : string) (b : CreateEventRequest) | SyncContactsRoute (account_id : string)
| SyncCalendarsRoute (account_id : string) | DiscoverRoute (account_id : string).
Inductive PimAnswer := Contacts (l : list Contact) | Calendars (l : list Calendar) | Events (l : list CalendarEvent) | NoRows.
Definition route (data_dir : string) (call : PimRoute) : M PimAnswer :=
  match call with
  | ListContacts q => let! l := list_contacts user q in ret (Contacts l)
  | GetContact id => let! c := get_contact user id in ret (Contacts [c])
  | ListCalendars a => let! l := list_calendars user a in ret (Calendars l)
  | GetCalendar id => let! c := get_calendar user id in ret (Calendars [c])
  | ListEvents id q => let! l := list_events user id q in ret (Events l)
  | GetEvent id => let! e := get_event user id in ret (Events [e])
  | CreateContactRoute b => let! c := create_contact user b in ret (Contacts [c])
  | CreateEventRoute id b => let! e := create_event user id b in ret (Events [e])
  | SyncContactsRoute a => let! _ := sync_contacts data_dir user a in ret NoRows
  | SyncCalendarsRoute a => let! _ := sync_calendars user a in ret NoRows
  | DiscoverRoute a => let! _ := pim_discover user a in ret NoRows
  end.
(** Every row answered is there, and hangs off an account that is the user's in [w]. *)
Definition answer_own w (t : pim_tables) (a : PimAnswer) : Prop :=
  match a with
  | Contacts l => Forall (fun c => exists row, row ∈ pt_contacts t /\ c = contact_from_row row /\ mine user (rows w) (ct_account row)) l
  | Calendars l => Forall (fun c => exists row, row ∈ pt_calendars t /\ c = calendar_from_row row /\ mine user (rows w) (cl_account row)) l
  | Events l => Forall (fun e => exists row cal, row ∈ pt_events t /\ e = event_from_row row /\ cal ∈ pt_calendars (of_pim w) /\
                          er_calendar row = Some (cl_id cal) /\ mine user (rows w) (cl_account cal)) l
  | NoRows => True
  end.
Lemma account_of_user_mine l a : account_of_user user l a = true -> mine user l a.
Proof using Type.
  unfold account_of_user. intros (r & Hr & Hb)%existsb_exists. apply andb_prop in Hb as [Hi%String.eqb_eq Hu%String.eqb_eq].
  exists r. split; [by apply list_elem_of_In|done].
Qed.
Lemma owned_calendar_own id l t c : owned_calendar user id l t = Some c -> c ∈ pt_calendars t /\ cl_id c = id /\ mine user l (cl_account c).
Proof using Type.
  unfold owned_calendar. intros [Hc Hb]%find_some. apply andb_prop in Hb as [Hi%String.eqb_eq Hu].
  split; [by apply list_elem_of_In|]. split; [done|by apply account_of_user_mine].
Qed.
Lemma in_window_rows {A} limit offset (l : list A) x : x ∈ window limit offset l -> x ∈ l.
Proof using Type.
  unfold window. intros Hx. assert (x ∈ List.skipn (Z.to_nat offset) l) as Hs.
  { destruct (_ || _); [done|]. by eapply elem_of_take in Hx as (i & Hx & _); apply list_elem_of_lookup_2 in Hx. }
  apply list_elem_of_In in Hs. apply list_elem_of_In. rewrite <-(List.firstn_skipn (Z.to_nat offset) l). apply in_or_app. by right.
Qed.
Lemma ordered_filter {A} (le : A -> A -> bool) p l x : x ∈ order_by le (List.filter p l) -> x ∈ l /\ p x = true.
Proof using Type. rewrite order_by_perm. intros Hx. apply list_elem_of_In, filter_In in Hx as [Hx Hp]. by rewrite list_elem_of_In. Qed.
Lemma forall_mapped {A B} (f : A -> B) (P : B -> Prop) l : (forall x, x ∈ l -> P (f x)) -> Forall P (map f l).
Proof using Type. intros HP. apply List.Forall_forall. intros y (x & <- & Hx)%in_map_iff. apply HP. by apply list_elem_of_In. Qed.
Lemma read_ok {A} (f : list MailAccountRow -> pim_tables -> A) w a w' : account_read (K := K) (R := R) (T := T) f w = (Ok a, w') ->
  a = f (rows w) (of_pim w) /\ rows w' = rows w /\ of_pim w' = of_pim w.
Proof using user. intros ([|[= ->]] & Hr & Hp & _)%account_read_run; done. Qed.
Lemma lists_own q w l w' : list_contacts user q w = (Ok l, w') -> answer_own w (of_pim w') (Contacts l).
Proof using Type.
  unfold list_contacts. intros (-> & _ & ->)%read_ok. apply forall_mapped. intros c Hc%in_window_rows. apply ordered_filter in Hc as [Hc Hb].
  rewrite !andb_true_iff in Hb. destruct Hb as [[[Hu _] _] _]. exists c. split; [done|]. split; [done|]. by apply account_of_user_mine.
Qed.
Lemma calendars_own a w l w' : list_calendars user a w = (Ok l, w') -> answer_own w (of_pim w') (Calendars l).
Proof using Type.
  unfold list_calendars. intros (-> & _ & ->)%read_ok. apply forall_mapped. intros c Hc. apply ordered_filter in Hc as [Hc Hb].
  apply andb_prop in Hb as [Hu _]. exists c. split; [done|]. split; [done|]. by apply account_of_user_mine.
Qed.
Lemma events_own id q w l w' : list_events user id q w = (Ok l, w') -> answer_own w (of_pim w') (Events l).
Proof using Type.
  unfold list_events. intros (o & w1 & Hr & Hl)%bind_Ok. apply read_ok in Hr as (-> & Hr1 & Hp1).
  destruct (owned_calendar user id (rows w) (of_pim w)) as [cal|] eqn:Hc; [|done]. apply owned_calendar_own in Hc as (Hc & Hi & Hm).
  apply read_ok in Hl as (-> & _ & ->). rewrite Hp1. apply forall_mapped. intros e He. apply ordered_filter in He as [He Hb].
  apply andb_prop in Hb as [Hcal%bool_decide_eq_true _]. exists e, cal. by rewrite Hi.
Qed.
Lemma contact_own id w c w' : get_contact user id w = (Ok c, w') -> answer_own w (of_pim w') (Contacts [c]).
Proof using Type.
  unfold get_contact. intros (o & w1 & Hr & Hl)%bind_Ok. apply read_ok in Hr as (-> & _ & Hp). unfold lift in Hl.
  destruct (List.find _ _) as [row|] eqn:Hf; [|done]. injection Hl as <- <-. rewrite Hp. apply find_some in Hf as [Hin Hb].
  apply andb_prop in Hb as [_ Hu]. constructor; [|constructor]. exists row. split; [by apply list_elem_of_In|]. split; [done|by apply account_of_user_mine].
Qed.
Lemma calendar_own id w c w' : get_calendar user id w = (Ok c, w') -> answer_own w (of_pim w') (Calendars [c]).
Proof using Type.
  unfold get_calendar. intros (o & w1 & Hr & Hl)%bind_Ok. apply read_ok in Hr as (-> & _ & Hp). unfold lift in Hl.
  destruct (owned_calendar _ _ _ _) as [row|] eqn:Hf; [|done]. injection Hl as <- <-. rewrite Hp. apply owned_calendar_own in Hf as (Hin & _ & Hm).
  constructor; [|constructor]. by exists row.
Qed.
Lemma event_own id w e w' : get_event user id w = (Ok e, w') -> answer_own w (of_pim w') (Events [e]).
Proof using Type.
  unfold get_event. intros (o & w1 & Hr & Hl)%bind_Ok. apply read_ok in Hr as (-> & _ & Hp). unfold lift in Hl.
  destruct (List.find _ _) as [row|] eqn:Hf; [|done]. injection Hl as <- <-. rewrite Hp. apply find_some in Hf as [Hin Hb].
  apply andb_prop in Hb as [_ Hu]. unfold calendar_of_user in Hu. destruct (er_calendar row) as [cid|] eqn:Hcid; [|done].
  apply bool_decide_eq_true in Hu as [cal Hcal]. apply owned_calendar_own in Hcal as (Hc & Hi & Hm).
  constructor; [|constructor]. exists row, cal. rewrite Hi. split; [by apply list_elem_of_In|]. done.
Qed.
(** What a route ends with: the row its server accepted. *)
Lemma created_contact_own b w c w' : create_contact user b w = (Ok c, w') -> answer_own w (of_pim w') (Contacts [c]).
Proof using Type.
  unfold create_contact. destruct (is_empty _); [done|]. intros (row & w1 & Hmy & Hr)%bind_Ok.
  assert (Hm : mine user (rows w) (cr_account_id b)).
  { unfold my_account in Hmy. apply bind_Ok in Hmy as (o & w0 & Hrd & Hl). apply read_ok in Hrd as (-> & _ & _). apply mine_row.
    unfold lift in Hl. destruct (my_row _ _ _); [by eexists|done]. }
  apply bind_Ok in Hr as (url & w2 & _ & Hr). apply bind_Ok in Hr as (password & w3 & _ & Hr). apply bind_Ok in Hr as (href & w4 & _ & Hr).
  apply bind_Ok in Hr as (o & w5 & Hrd & Hl). apply read_ok in Hrd as (-> & _ & Hp). unfold lift in Hl.
  destruct (List.find _ _) as [found|] eqn:Hf; [|done]. injection Hl as <- <-. rewrite Hp. apply find_some in Hf as [Hin Hb].
  apply contact_at_key in Hb. injection Hb as Ha _. constructor; [|constructor]. exists found. rewrite Ha. split; [by apply list_elem_of_In|done].
Qed.
Lemma created_event_own id b w e w' : create_event user id b w = (Ok e, w') -> answer_own w (of_pim w') (Events [e]).
Proof using Type.
  unfold create_event. intros (o & w1 & Hrd & Hr)%bind_Ok. apply read_ok in Hrd as (-> & _ & _).
  destruct (joined_calendar user id (rows w) (of_pim w)) as [[cal row]|] eqn:Hj; [|done]. apply joined_owner in Hj as (Hcal & Hi & Hrow & _).
  apply bind_Ok in Hr as (? & w2 & [= <- <-] & Hr). apply bind_Ok in Hr as (url & w3 & _ & Hr). apply bind_Ok in Hr as (password & w4 & _ & Hr).
  apply bind_Ok in Hr as (href & w5 & _ & Hr). apply bind_Ok in Hr as (o & w6 & Hrd & Hl). apply read_ok in Hrd as (-> & _ & Hp). unfold lift in Hl.
  destruct (List.find _ _) as [found|] eqn:Hf; [|done]. injection Hl as <- <-. rewrite Hp. apply find_some in Hf as [Hin Hb].
  apply andb_prop in Hb as [_ Hc%bool_decide_eq_true]. constructor; [|constructor]. exists found, cal. rewrite Hi.
  split; [by apply list_elem_of_In|]. split_and!; try done. apply mine_row. rewrite Hrow. by eexists.
Qed.

(** C31: The contact and calendar routes stay within the user.  From sound tables, whatever a
    server answers and whatever fails, a call leaves the accounts of other users, everything
    that hangs off them, and all mail exactly as they were, and the tables sound; and every
    contact, calendar and event it answers is a row that hangs off an account of the user. *)
Theorem pim_routes_are_own data_dir call w r w' : pim_sound w -> route data_dir call w = (r, w') ->
  pim_sound w' /\ pim_spared w w' /\ forall a, r = Ok a -> answer_own w (of_pim w') a.
Proof using Hids.
  intros Hs Hr. assert (Hown : preserves (pim_own None) (route data_dir call)).
  { destruct call; cbn [route]; preserve; first [apply own_account_read|apply own_create_contact|apply own_create_event
      |apply own_sync_contacts|apply own_sync_calendars|apply own_pim_discover
      |unfold get_contact, get_calendar, list_events, get_event; preserve; apply own_account_read]. }
  destruct (Hown w r w' Hr Hs I) as (Hs' & _ & Hsp). split; [done|]. split; [done|]. intros a ->.
  destruct call; cbn [route] in Hr; apply bind_Ok in Hr as (x & w1 & Hx & Hret); injection Hret as <- <-; try done;
    first [by eapply lists_own|by eapply contact_own|by eapply calendars_own|by eapply calendar_own|by eapply events_own|by eapply event_own
          |by eapply created_contact_own|by eapply created_event_own].
Qed.
End PimOwn.

(** ** Witnesses *)

#[export] Instance net_disk : HasDisk toy_net := fun E A m n => (fst (m (mkDisk ∅ None false)), n).
#[export] Instance net_media : MediaNet toy_net := {| media_lookup _ _ n := (Ok [V4 93 184 216 34], n); media_get _ n := (Err "refused", n) |}.
Definition dav_settings : UpdateAccountRequest :=
  mkUpdate None None (Some "secret") None None None None None None (Some "https://dav.x.org/") None None None None None None None None.
Definition dav_office (replies : list string) : office MemoryKv.t N toy_net :=
  let w := snd (update_account "u1" "a1" dav_settings account_office) in
  mkOffice (Desk.set_net (mkNet (tn_boxes box_net) None replies []) (of_desk w))
    (mkPimTables (pt_contacts the_pim) [mkCalendar "k1" "a1" (Some "https://dav.x.org/cal/") "Work" None None None true None;
                                        mkCalendar "k2" "a2" (Some "https://dav.x.org/cal/") "Home" None None None true None]
       [mkEventRow "e1" "a1" (Some "k1") (Some "/cal/1.ics") None (Some "Lunch") None (Some "2026-10-01T12:00:00+00:00") None None false None None None None;
        mkEventRow "e2" "a2" (Some "k2") (Some "/cal/1.ics") None (Some "Party") None None None None false None None None None] []).
Lemma dav_office_sound replies : pim_sound (dav_office replies).
Proof.
  split.
  - apply (bool_decide_eq_true_1 _). vm_compute. reflexivity.
  - split; apply table_toy; try apply NoDup_nil_2; try apply Forall_nil_2;
      first [apply (bool_decide_eq_true_1 _); vm_compute; reflexivity|repeat constructor].
Qed.
Definition contacts_synced := route "u1" "/data" (SyncContactsRoute "a1") (dav_office [the_home; the_changes; the_items]).
Lemma pim_routes_are_own_witness :
  fst contacts_synced = Ok NoRows /\ map ct_display_name (pt_contacts (of_pim (snd contacts_synced))) = [Some "Carol"; Some "Old"] /\
  pim_sound (snd contacts_synced) /\ pim_spared "u1" (dav_office [the_home; the_changes; the_items]) (snd contacts_synced).
Proof.
  split; [vm_compute; reflexivity|]. split; [vm_compute; reflexivity|].
  assert (Hr : route "u1" "/data" (SyncContactsRoute "a1") (dav_office [the_home; the_changes; the_items]) = (fst contacts_synced, snd contacts_synced))
    by (unfold contacts_synced; apply surjective_pairing).
  pose proof (pim_routes_are_own "u1" "/data" _ _ _ _ (dav_office_sound [the_home; the_changes; the_items]) Hr) as Hown.
  exact (conj (proj1 Hown) (proj1 (proj2 Hown))).
Defined.
(** The events of another user are not there. *)
Lemma other_event_missing : fst (route "u1" "/data" (GetEvent "e2") (dav_office [])) = Err PimNotFound.
Proof. vm_compute. reflexivity. Qed.
(** An event without an end is listed whenever it starts, past the end of the window too. *)
Lemma endless_event_in_every_window :
  option_map (fun a => match a with Events l => map ce_id l | _ => [] end)
    (rok (fst (route "u1" "/data" (ListEvents "k1" (mkListEvents None (Some "2026-01-01"))) (dav_office [])))) = Some ["e1"] /\
  String.leb "2026-10-01T12:00:00+00:00" "2026-01-01" = false.
Proof. split; vm_compute; reflexivity. Qed.
(** The search text is a pattern: a percent sign matches anything. *)
Lemma percent_matches_all : column_matches "1%0" (Some "Room 1 and 20") = true.
Proof. vm_compute. reflexivity. Qed.
