(* ===== verification/Ics.v ===== *)
(** * Calendar subscriptions ([ics.rs], [pim_subscriptions.rs])

    The address of a feed, the reading of an iCalendar text into events, the fetch, and the
    refresh of a subscription, one statement at a time; then the routes over a user's
    subscriptions and the timer's refresh of those that are due.  The clock, the ids and the
    statements left before the database fails are those of [mail].  A byte slice inside a
    character panics: [FeedPanic]. *)
From S2P Require Import Prelude Kv Crypto UnlockRing World Toy Session Labels Jobs Pool Netsec MailStore Imap ImapLoop Blobs Jmap JmapLoop.
From S2P Require Import Spam OAuth Ai JmapWrite Desk Actions SpamPass ToyDesk Isolation Dav PimDav Accounts Media Pim.
Local Open Scope string_scope.
Local Open Scope Z_scope.

Definition MAX_ICS_BYTES : N := 2 * 1024 * 1024.
Definition REFRESH_EVERY_SECS : Z := 6 * 60 * 60.

(** ** The address *)

Section Address.
Context `{UrlLib}.
Definition https_form (trimmed : string) : string :=
  let lower := to_ascii_lowercase trimmed in
  if starts_with "webcal://" lower then "https://" +:+ sdrop 9 trimmed
  else if starts_with "webcals://" lower then "https://" +:+ sdrop 10 trimmed
  else trimmed.
Definition normalize_ics_url (raw : string) : result string string :=
  let trimmed := trim raw in
  if is_empty trimmed then Err "URL is empty" else
  let https := https_form trimmed in
  let? _ := validate_server_url https in
  let? parsed := url_parse https in
  if negb (String.eqb (url_scheme parsed) "https") then Err "ICS subscriptions require https:// (or webcal://)" else
  let? host := ok_or "ICS URL has no host" (url_host parsed) in
  if host_is_local host then Err "ICS subscriptions cannot target private or loopback hosts" else Ok https.
End Address.

(** ** Reading a feed *)

Record ParsedIcsEvent := mkIcsEvent {
  ie_uid : string; ie_summary : option string; ie_description : option string; ie_dtstart : option string; ie_dtend : option string;
  ie_location : option string; ie_is_all_day : bool; ie_rrule : option string; ie_status : option string; ie_blob : string }.
Record ParsedIcsFeed := mkIcsFeed { if_calendar_name : option string; if_events : list ParsedIcsEvent }.
(** The text of a feed's lines joined to their continuations. *)
Definition unfold_step (out raw : string) : string :=
  if is_fold raw then out +:+ trim_start raw else (if is_empty out then out else out +:+ lf) +:+ raw.
Definition unfold_ical (ics : string) : string := foldl unfold_step "" (split_char nl (replace crlf lf ics)).

Section Feed.
Context `{UpperLib} `{JobLib} `{CivilLib}.
Definition is_z (a : ascii) : bool := Ascii.eqb a "Z".
Definition normalize_ics_dt (raw : string) : result DavError (option string) :=
  let raw := trim raw in
  let rest := Ok (option_map rfc3339 (parse_rfc3339 raw)) in
  let stamp with_time text := let? t := date_parts text with_time in Ok (option_map rfc3339 t) in
  if (String.length raw =? 8)%nat && sforall is_digit raw then stamp false raw
  else if (15 <=? String.length raw)%nat && ends_with "Z" raw then
    let digits := drop_while_end is_z raw in
    if (15 <=? String.length digits)%nat then stamp true digits else rest
  else rest.
(** The UID, RRULE and STATUS of an event's lines, the last of each. *)
Record IcsExtras := mkIcsExtras { ix_uid : option string; ix_rrule : option string; ix_status : option string }.
Definition extra_line (x : IcsExtras) (line : string) : IcsExtras :=
  match split_once ":" line with
  | None => x
  | Some (name_part, value) =>
      let prop := to_uppercase (first_part ";" name_part) in
      if String.eqb prop "UID" then mkIcsExtras (Some (trim value)) (ix_rrule x) (ix_status x)
      else if String.eqb prop "RRULE" then mkIcsExtras (ix_uid x) (Some (trim value)) (ix_status x)
      else if String.eqb prop "STATUS" then mkIcsExtras (ix_uid x) (ix_rrule x) (Some (trim value))
      else x
  end.
Definition normalized (o : option string) : result DavError (option string) :=
  match o with Some raw => normalize_ics_dt raw | None => Ok None end.
Definition parse_one_vevent (blob : string) : result DavError ParsedIcsEvent :=
  let f := parse_vevent_fields blob in
  let x := foldl extra_line (mkIcsExtras None None None) (lines blob) in
  let uid := default ("lyra-ics-" +:+ default "unknown" (ve_dtstart f)) (nonempty (ix_uid x)) in
  let? dtstart := normalized (ve_dtstart f) in
  let? dtend := normalized (ve_dtend f) in
  Ok (mkIcsEvent uid (ve_summary f) (ve_description f) dtstart dtend (ve_location f) (ve_all_day f) (ix_rrule x) (ix_status x) blob).
(** The variables of the scan. *)
Record Scan := mkScan { calendar_name : option string; events : list ParsedIcsEvent; in_event : bool; event_lines : list string }.
Definition scan_line (s : Scan) (line : string) : result DavError Scan :=
  let trimmed := trim_end line in
  if eq_ignore_ascii_case trimmed "BEGIN:VEVENT" then Ok (mkScan (calendar_name s) (events s) true [trimmed])
  else if eq_ignore_ascii_case trimmed "END:VEVENT" then
    let? ev := parse_one_vevent (join lf (event_lines s ++ [trimmed])%list) in
    Ok (mkScan (calendar_name s) (events s ++ [ev])%list false [])
  else if in_event s then Ok (mkScan (calendar_name s) (events s) true (event_lines s ++ [trimmed])%list)
  else match split_once ":" trimmed with
       | Some (name_part, value) =>
           if String.eqb (to_uppercase (first_part ";" name_part)) "X-WR-CALNAME"
           then Ok (mkScan (Some (trim value)) (events s) false (event_lines s)) else Ok s
       | None => Ok s
       end.
Fixpoint scan_lines (s : Scan) (l : list string) : result DavError Scan :=
  match l with [] => Ok s | line :: rest => let? s := scan_line s line in scan_lines s rest end.
Definition parse_ics_feed (ics : string) : result DavError ParsedIcsFeed :=
  let? s := scan_lines (mkScan None [] false []) (lines (unfold_ical ics)) in
  Ok (mkIcsFeed (calendar_name s) (events s)).
End Feed.

(** ** The fetch *)

(** The two headers as [to_str] reads them, and the body read to its end. *)
Record IcsResponse := mkIcsResp { ir_status : Z; ir_etag : option string; ir_last_modified : option string; ir_body : result string string }.
Class IcsNet (T : Type) := ics_get : string -> io T string IcsResponse.
(** flate2's [GzDecoder] to the end. *)
Class GzipLib := gunzip : string -> result string string.
Definition gzip_magic : string := bytes_of [31; 139]%N.
Inductive FeedError := FeedSync (e : SyncError) | FeedPanic.

Definition decode_ics_bytes `{GzipLib} (bytes : string) : result SyncError string :=
  let? plain := (if starts_with gzip_magic bytes then
                   let? out := rmap_err (fun e => InternalE ("ics gzip: " +:+ e)) (gunzip bytes) in
                   if (MAX_ICS_BYTES <? blen out)%N then Err (InvalidInput "ICS feed too large") else Ok out
                 else Ok bytes) in
  Ok (from_utf8_lossy plain).
Definition fetch_ics_body {T} `{MediaNet T} `{IcsNet T} `{GzipLib} `{UrlLib} (url : string) : io T SyncError (string * option string * option string) :=
  let! url := lift (rmap_err InvalidInput (normalize_ics_url url)) in
  let! _ := validate_outbound_url url in
  let! resp := map_err (fun e => InternalE ("ics fetch failed: " +:+ e)) (ics_get url) in
  if negb (is_success (ir_status resp)) then throw (InternalE ("ics fetch HTTP " +:+ show_Z (ir_status resp))) else
  let! bytes := lift (rmap_err (fun e => InternalE ("ics read: " +:+ e)) (ir_body resp)) in
  if (MAX_ICS_BYTES <? blen bytes)%N then throw (InvalidInput "ICS feed too large") else
  let! text := lift (decode_ics_bytes bytes) in
  ret (text, ir_etag resp, ir_last_modified resp).

(** ** The tables *)

Record SubscriptionRow := mkSub {
  su_id : string; su_user : string; su_url : string; su_name : string; su_color : option string; su_etag : option string;
  su_last_modified : option string; su_last_fetched_at : option string; su_last_error : option string; su_is_active : bool;
  su_created_at : string; su_updated_at : string }.
Record SubEventRow := mkSubEvent {
  se_id : string; se_subscription : string; se_external : string; se_blob : string; se_summary : string; se_description : string;
  se_dtstart : option string; se_dtend : option string; se_location : string; se_is_all_day : bool; se_rrule : string; se_status : string }.
Record feeds (T : Type) := mkFeeds { fd_mail : mail; fd_subs : list SubscriptionRow; fd_events : list SubEventRow; fd_net : T }.
Arguments mkFeeds {T}. Arguments fd_mail {T}. Arguments fd_subs {T}. Arguments fd_events {T}. Arguments fd_net {T}.

Section Refresh.
Context {T : Type} `{MediaNet T} `{IcsNet T} `{GzipLib} `{UrlLib} `{UpperLib} `{StoreLib} `{JobLib} `{CivilLib}.
Local Abbreviation W := (feeds T).
Local Abbreviation M := (io W FeedError).
Implicit Types w : W.

Definition set_feed_mail db w : W := mkFeeds db (fd_subs w) (fd_events w) (fd_net w).
Definition set_subs l w : W := mkFeeds (fd_mail w) l (fd_events w) (fd_net w).
Definition set_sub_events l w : W := mkFeeds (fd_mail w) (fd_subs w) l (fd_net w).
Definition on_feed_net {E A} (m : io T E A) : io W E A :=
  fun w => let '(r, n) := m (fd_net w) in (r, mkFeeds (fd_mail w) (fd_subs w) (fd_events w) n).
Definition closed : FeedError := FeedSync (InternalE "closed").
(** One statement: the database may be gone, or refuse the row. *)
Definition fstmt {E A} (down : E) (f : W -> result E (A * W)) : io W E A :=
  fun w => match mstmt (fun db => (tt, db)) (fd_mail w) with
           | (Ok _, db) => match f (set_feed_mail db w) with Ok (a, w') => (Ok a, w') | Err e => (Err e, set_feed_mail db w) end
           | (Err _, db) => (Err down, set_feed_mail db w)
           end.
Definition fread {E A} (down : E) (f : W -> A) : io W E A := fstmt down (fun w => Ok (f w, w)).
Definition feed_uuid {E} : io W E string :=
  fun w => let db := fd_mail w in (Ok (store_uuid (ml_seq db)), set_feed_mail (MailStore.set_seq (N.succ (ml_seq db)) db) w).
Definition feed_now w : Z := ml_now (fd_mail w).

(** ** The refresh of one subscription *)

Definition of_sub (id : string) (e : SubEventRow) : bool := String.eqb (se_subscription e) id.
Definition sub_event (id subscription_id : string) (ev : ParsedIcsEvent) : SubEventRow :=
  mkSubEvent id subscription_id (ie_uid ev) (ie_blob ev) (default "" (ie_summary ev)) (default "" (ie_description ev)) (ie_dtstart ev)
    (ie_dtend ev) (default "" (ie_location ev)) (ie_is_all_day ev) (default "" (ie_rrule ev)) (default "" (ie_status ev)).
(** [UNIQUE (subscription_id, external_id)]. *)
Definition insert_event (row : SubEventRow) : M unit :=
  fstmt closed (fun w =>
    if existsb (fun e => of_sub (se_subscription row) e && String.eqb (se_external e) (se_external row)) (fd_events w)
    then Err (FeedSync (InternalE "UNIQUE constraint failed: subscription_event.subscription_id, subscription_event.external_id"))
    else Ok (tt, set_sub_events (fd_events w ++ [row])%list w)).
Fixpoint insert_events (subscription_id : string) (l : list ParsedIcsEvent) : M unit :=
  match l with
  | [] => ret tt
  | ev :: rest =>
      let! id := feed_uuid in
      let! _ := insert_event (sub_event id subscription_id ev) in
      insert_events subscription_id rest
  end.
Definition replace_subscription_events (subscription_id : string) (l : list ParsedIcsEvent) : M nat :=
  let! _ := fstmt closed (fun w => Ok (tt, set_sub_events (List.filter (fun e => negb (of_sub subscription_id e)) (fd_events w)) w)) in
  let! _ := insert_events subscription_id l in
  ret (length l).
Definition is_sub (id : string) (s : SubscriptionRow) : bool := String.eqb (su_id s) id.
Definition update_subs (hit : SubscriptionRow -> bool) (f : SubscriptionRow -> SubscriptionRow) w : W :=
  set_subs (map (fun s => if hit s then f s else s) (fd_subs w)) w.
Definition fetched_row (name : string) (etag last_mod : option string) (stamp : string) (s : SubscriptionRow) : SubscriptionRow :=
  mkSub (su_id s) (su_user s) (su_url s) name (su_color s) (Some (default "" etag)) (Some (default "" last_mod)) (Some stamp) None
    (su_is_active s) (su_created_at s) stamp.
Definition failed_row (msg stamp : string) (s : SubscriptionRow) : SubscriptionRow :=
  mkSub (su_id s) (su_user s) (su_url s) (su_name s) (su_color s) (su_etag s) (su_last_modified s) (su_last_fetched_at s) (Some msg)
    (su_is_active s) (su_created_at s) stamp.
(** [Display] of the errors of a fetch. *)
Definition feed_error_text (e : SyncError) : string :=
  match e with InvalidInput m => "invalid input: " +:+ m | InternalE m => "internal error: " +:+ m | _ => "" end.
Definition parsed_feed (body : string) : M ParsedIcsFeed := lift (rmap_err (fun _ => FeedPanic) (parse_ics_feed body)).
Definition refresh_subscription (subscription_id : string) : M nat :=
  let! row := fread closed (fun w => List.find (is_sub subscription_id) (fd_subs w)) in
  let! row := lift (ok_or (FeedSync (InvalidInput "subscription not found")) row) in
  let! fetched := attempt (on_feed_net (fetch_ics_body (su_url row))) in
  match fetched with
  | Ok (body, etag, last_mod) =>
      let! feed := parsed_feed body in
      let name := default (su_name row) (nonempty (if_calendar_name feed)) in
      let! n := replace_subscription_events subscription_id (if_events feed) in
      let! stamp := gets (fun w => db_stamp (feed_now w)) in
      let! _ := fstmt closed (fun w => Ok (tt, update_subs (is_sub subscription_id) (fetched_row name etag last_mod stamp) w)) in
      ret n
  | Err e =>
      let! stamp := gets (fun w => db_stamp (feed_now w)) in
      let! _ := attempt (F := FeedError) (fstmt closed (fun w => Ok (tt, update_subs (is_sub subscription_id) (failed_row (feed_error_text e) stamp) w))) in
      throw (FeedSync e)
  end.

(** ** Those that are due *)

(** [%Y-%m-%d %H:%M:%S] read as UTC. *)
Context (parse_sql_stamp : string -> option Z).
Definition fetched_before (cutoff : Z) (o : option string) : bool :=
  match o with
  | Some s => match or_else (parse_sql_stamp s) (parse_rfc3339 s) with Some t => t <? cutoff | None => true end
  | None => true
  end.
(** A failed refresh is logged; a panic ends the task. *)
Fixpoint refresh_each (cutoff : Z) (l : list (string * option string)) : M nat :=
  match l with
  | [] => ret 0%nat
  | (id, last_fetched_at) :: rest =>
      if fetched_before cutoff last_fetched_at then
        let! r := attempt (refresh_subscription id) in
        match r with
        | Err FeedPanic => throw FeedPanic
        | Ok _ => let! n := refresh_each cutoff rest in ret (S n)
        | Err (FeedSync _) => refresh_each cutoff rest
        end
      else refresh_each cutoff rest
  end.
Definition refresh_due_subscriptions : M nat :=
  let! l := fread closed (fun w => map (fun s => (su_id s, su_last_fetched_at s)) (List.filter su_is_active (fd_subs w))) in
  let! cutoff := gets (fun w => feed_now w - from_secs REFRESH_EVERY_SECS) in
  refresh_each cutoff l.
End Refresh.

(** ** The routes *)

Record Subscription := mkSubView {
  sv_id : string; sv_url : string; sv_name : string; sv_color : option string; sv_is_active : bool; sv_last_fetched_at : option string;
  sv_last_error : option string; sv_created_at : string; sv_updated_at : string }.
Record SubscriptionEvent := mkSubEventView {
  vw_id : string; vw_subscription_id : string; vw_summary : string; vw_description : string; vw_dtstart : option string;
  vw_dtend : option string; vw_location : string; vw_is_all_day : bool; vw_recurrence_rule : string; vw_status : string }.
Record CreateSubscriptionRequest := mkCreateSub { cs_url : string; cs_name : option string; cs_color : option string }.
Record UpdateSubscriptionRequest := mkUpdateSub { us_name : option string; us_color : option string; us_is_active : option bool }.
Definition DEFAULT_COLORS : list string := ["#c08532"; "#9fc9a2"; "#9fbbe0"; "#c0a8dd"; "#dfa88f"; "#7eb8a8"].
Fixpoint byte_sum (s : string) : N := match s with "" => 0%N | String a s' => (byte a + byte_sum s')%N end.
Definition color_of (id : string) : string := List.nth (N.to_nat (byte_sum id mod 6)) DEFAULT_COLORS "".

Section SubRoutes.
Context {T : Type} `{MediaNet T} `{IcsNet T} `{GzipLib} `{UrlLib} `{UpperLib} `{StoreLib} `{JobLib} `{CivilLib}.
Local Abbreviation W := (feeds T).
Local Abbreviation P := (io W PimError).
Implicit Types w : W.

Definition subscription_from_row (s : SubscriptionRow) : Subscription :=
  mkSubView (su_id s) (su_url s) (su_name s) (su_color s) (su_is_active s) (option_map normalize_ts_text (su_last_fetched_at s))
    (su_last_error s) (normalize_ts_text (su_created_at s)) (normalize_ts_text (su_updated_at s)).
Definition sub_event_from_row (e : SubEventRow) : SubscriptionEvent :=
  mkSubEventView (se_id e) (se_subscription e) (se_summary e) (se_description e) (option_map normalize_ts_text (se_dtstart e))
    (option_map normalize_ts_text (se_dtend e)) (se_location e) (se_is_all_day e) (se_rrule e) (se_status e).
Definition my_sub (user_id id : string) (s : SubscriptionRow) : bool := is_sub id s && String.eqb (su_user s) user_id.
Definition list_subscriptions (user_id : string) : P (list Subscription) :=
  fread PimDatabase (fun w => map subscription_from_row (order_by (fun a b => String.leb (su_name a) (su_name b))
    (List.filter (fun s => String.eqb (su_user s) user_id) (fd_subs w)))).
(** [UNIQUE (user_id, url)]. *)
Definition insert_subscription (row : SubscriptionRow) : P unit :=
  fstmt PimDatabase (fun w =>
    if existsb (fun s => String.eqb (su_user s) (su_user row) && String.eqb (su_url s) (su_url row)) (fd_subs w) then Err PimDatabase
    else Ok (tt, set_subs (fd_subs w ++ [row])%list w)).
(** The outcome is dropped, a panic is not. *)
Definition best_effort {A} (m : io W FeedError A) : P unit :=
  let! r := attempt m in match r with Err FeedPanic => throw PimPanic | _ => ret tt end.
Definition create_subscription (user_id : string) (b : CreateSubscriptionRequest) : P Subscription :=
  let! url := lift (rmap_err PimInput (normalize_ics_url (cs_url b))) in
  let! id := feed_uuid in
  let name := default "Subscribed calendar" (not_blank (cs_name b)) in
  let color := default (color_of id) (cs_color b) in
  let! stamp := gets (fun w => sql_now (feed_now w)) in
  let! _ := insert_subscription (mkSub id user_id url name (Some color) None None None None true stamp stamp) in
  let! _ := best_effort (refresh_subscription id) in
  let! row := fread PimDatabase (fun w => List.find (is_sub id) (fd_subs w)) in
  lift (ok_or PimNotFound (option_map subscription_from_row row)).
Definition edited_row (b : UpdateSubscriptionRequest) (stamp : string) (s : SubscriptionRow) : SubscriptionRow :=
  mkSub (su_id s) (su_user s) (su_url s) (default (su_name s) (us_name b)) (or_else (us_color b) (su_color s)) (su_etag s)
    (su_last_modified s) (su_last_fetched_at s) (su_last_error s) (default (su_is_active s) (us_is_active b)) (su_created_at s) stamp.
Definition update_subscription (user_id id : string) (b : UpdateSubscriptionRequest) : P Subscription :=
  let! stamp := gets (fun w => db_stamp (feed_now w)) in
  let! hit := fstmt PimDatabase (fun w => Ok (existsb (my_sub user_id id) (fd_subs w), update_subs (my_sub user_id id) (edited_row b stamp) w)) in
  let! _ := ensure hit PimNotFound in
  let! row := fread PimDatabase (fun w => List.find (my_sub user_id id) (fd_subs w)) in
  lift (ok_or PimNotFound (option_map subscription_from_row row)).
(** The events go with the row: [ON DELETE CASCADE]. *)
Definition without_sub (user_id id : string) w : W :=
  let kept := List.filter (fun s => negb (my_sub user_id id s)) (fd_subs w) in
  let gone e := existsb (fun s => my_sub user_id id s && of_sub (su_id s) e) (fd_subs w) in
  set_sub_events (List.filter (fun e => negb (gone e)) (fd_events w)) (set_subs kept w).
Definition delete_subscription (user_id id : string) : P unit :=
  let! hit := fstmt PimDatabase (fun w => Ok (existsb (my_sub user_id id) (fd_subs w), without_sub user_id id w)) in
  ensure hit PimNotFound.
Definition owned_sub (user_id id : string) : P unit :=
  let! row := fread PimDatabase (fun w => List.find (my_sub user_id id) (fd_subs w)) in
  ensure (bool_decide (is_Some row)) PimNotFound.
Definition refresh_one (user_id id : string) : P nat :=
  let! _ := owned_sub user_id id in
  map_err (fun e => match e with FeedSync e => PimSync (FromFeed e) | FeedPanic => PimPanic end) (refresh_subscription id).
Definition in_bounds (q : ListEventsQuery) (e : SubEventRow) : bool :=
  match le_start q with Some s => match se_dtstart e with Some d => String.leb s d | None => false end | None => true end
  && match le_end q with Some s => match se_dtstart e with Some d => String.ltb d s | None => false end | None => true end.
Definition list_subscription_events (user_id id : string) (q : ListEventsQuery) : P (list SubscriptionEvent) :=
  let! _ := owned_sub user_id id in
  fread PimDatabase (fun w => map sub_event_from_row (List.filter (fun e => of_sub id e && in_bounds q e) (fd_events w))).
End SubRoutes.

(** ** What a refresh comes to *)

(** The events up to the first whose UID was seen before. *)
Fixpoint distinct_prefix (seen : list string) (l : list ParsedIcsEvent) : list ParsedIcsEvent :=
  match l with
  | [] => []
  | ev :: rest => if existsb (String.eqb (ie_uid ev)) seen then [] else ev :: distinct_prefix (ie_uid ev :: seen) rest
  end.
Definition whole (l : list ParsedIcsEvent) : bool := (length (distinct_prefix [] l) =? length l)%nat.
(** A stored event but for its id. *)
Definition without_id (e : SubEventRow) : SubEventRow :=
  mkSubEvent "" (se_subscription e) (se_external e) (se_blob e) (se_summary e) (se_description e) (se_dtstart e) (se_dtend e) (se_location e)
    (se_is_all_day e) (se_rrule e) (se_status e).

Section Refreshed.
Context {T : Type} `{MediaNet T} `{IcsNet T} `{GzipLib} `{UrlLib} `{UpperLib} `{StoreLib} `{JobLib} `{CivilLib}.
Local Abbreviation W := (feeds T).
Implicit Types w : W.

(** The database answers every statement. *)
Definition db_up w : Prop := ml_fuse (fd_mail w) = None.
Lemma fstmt_up {E A} (down : E) (f : W -> result E (A * W)) w : db_up w ->
  exists w1, fd_subs w1 = fd_subs w /\ fd_events w1 = fd_events w /\ fd_net w1 = fd_net w /\ db_up w1 /\ feed_now w1 = feed_now w /\
    fstmt down f w = match f w1 with Ok (a, w') => (Ok a, w') | Err e => (Err e, w1) end.
Proof using Type.
  intros Hup. unfold fstmt, mstmt. rewrite Hup. eexists. split_and!; [..|reflexivity]; try done.
Qed.
Lemma of_sub_id id e : of_sub id e = true <-> se_subscription e = id.
Proof using Type. apply String.eqb_eq. Qed.
(** The events of a feed inserted one by one. *)
Lemma insert_events_up id : forall l seen w, db_up w ->
  (forall u, existsb (String.eqb u) seen = existsb (fun e => of_sub id e && String.eqb (se_external e) u) (fd_events w)) ->
  exists r w' new, insert_events id l w = (r, w') /\ fd_events w' = (fd_events w ++ new)%list /\
    map without_id new = map (sub_event "" id) (distinct_prefix seen l) /\ Forall (fun e => of_sub id e = true) new /\
    (is_ok r = (length (distinct_prefix seen l) =? length l)%nat) /\
    (forall e, r = Err e -> exists m, e = FeedSync (InternalE m)) /\
    fd_subs w' = fd_subs w /\ fd_net w' = fd_net w /\ db_up w' /\ feed_now w' = feed_now w.
Proof using Type.
  induction l as [|ev l IH]; intros seen w Hup Hseen; cbn [insert_events distinct_prefix].
  { exists (Ok tt), w, []. rewrite app_nil_r. by split_and!. }
  unfold feed_uuid at 1, bind at 1. cbv beta iota zeta. set (uid := store_uuid _). set (w1 := set_feed_mail _ w).
  assert (Hup1 : db_up w1) by exact Hup. unfold insert_event.
  destruct (fstmt_up closed (fun w => if existsb (fun e => of_sub (se_subscription (sub_event uid id ev)) e && String.eqb (se_external e) (se_external (sub_event uid id ev))) (fd_events w)
    then Err (FeedSync (InternalE "UNIQUE constraint failed: subscription_event.subscription_id, subscription_event.external_id"))
    else Ok (tt, set_sub_events (fd_events w ++ [sub_event uid id ev])%list w)) w1 Hup1) as (w2 & Es & Ee & En & Hup2 & Et & Hrun).
  unfold bind. rewrite Hrun, Ee. cbn [se_subscription se_external sub_event]. change (fd_events w1) with (fd_events w). rewrite <-(Hseen (ie_uid ev)).
  destruct (existsb (String.eqb (ie_uid ev)) seen) eqn:Hdup.
  - exists (Err (FeedSync (InternalE "UNIQUE constraint failed: subscription_event.subscription_id, subscription_event.external_id"))), w2, [].
    rewrite app_nil_r. split_and!; try done. intros e [= <-]. by eexists.
  - set (w3 := set_sub_events _ w2).
    destruct (IH (ie_uid ev :: seen) w3 Hup2) as (r & w' & new & Hr & He & Hmap & Hall & Hok & Herr & Hs & Hn & Hu & Ht).
    { intros u. cbn [existsb]. unfold w3. cbn [fd_events set_sub_events]. rewrite existsb_app, <-Hseen. cbn [existsb of_sub se_subscription sub_event se_external].
      unfold of_sub. cbn [se_subscription sub_event]. rewrite String.eqb_refl, orb_false_r. cbn [andb]. by rewrite orb_comm, (String.eqb_sym u). }
    exists r, w', (sub_event uid id ev :: new). split; [exact Hr|]. rewrite He. cbn [fd_events set_sub_events w3]. rewrite <-app_assoc. split; [done|].
    cbn [map]. rewrite Hmap. split; [done|]. split; [constructor; [by apply of_sub_id|done]|]. split; [done|]. split; [done|].
    rewrite Hs, Hn, Ht. split_and!; done.
Qed.
Lemma prefix_short seen l : (length (distinct_prefix seen l) <= length l)%nat.
Proof using Type. revert seen. induction l as [|ev l IH]; intros seen; [done|]. cbn. destruct (existsb _ _); cbn; [lia|]. specialize (IH (ie_uid ev :: seen)). lia. Qed.
Lemma prefix_whole l : forall seen, (length (distinct_prefix seen l) = length l)%nat <->
  NoDup (ie_uid <$> l) /\ Forall (fun u => u ∉ seen) (ie_uid <$> l).
Proof using Type.
  induction l as [|ev l IH]; intros seen; cbn; [by split; [split; constructor|]|]. rewrite NoDup_cons, Forall_cons.
  destruct (existsb (String.eqb (ie_uid ev)) seen) eqn:Hd.
  - split; [done|]. intros [_ [Hn _]]. apply existsb_exists in Hd as (u & Hu & He%String.eqb_eq). subst u. by apply list_elem_of_In in Hu.
  - assert (Hn : ie_uid ev ∉ seen).
    { intros Hin%list_elem_of_In. assert (existsb (String.eqb (ie_uid ev)) seen = true) by (apply existsb_exists; exists (ie_uid ev); by rewrite String.eqb_refl). congruence. }
    cbn. split.
    + intros [=Hl]. apply IH in Hl as [Hnd Hall]. rewrite Forall_forall in Hall. split_and!; [intros Hin; apply (Hall _ Hin); by left|done|done|].
      apply Forall_forall. intros u Hu Hs. apply (Hall _ Hu). by right.
    + intros [[Hnew Hnd] [_ Hall]]. f_equal. apply IH. split; [done|]. rewrite Forall_forall in Hall |- *. intros u Hu [->|Hs]%elem_of_cons; [done|]. by apply (Hall u).
Qed.
Lemma whole_distinct l : whole l = true <-> NoDup (ie_uid <$> l).
Proof using Type.
  unfold whole. rewrite Nat.eqb_eq, prefix_whole. split; [by intros [? _]|]. intros Hn. split; [done|]. apply Forall_forall. intros u _ Hin. by apply elem_of_nil in Hin.
Qed.
Lemma prefix_all l : forall seen, (length (distinct_prefix seen l) = length l)%nat -> distinct_prefix seen l = l.
Proof using Type. induction l as [|ev l IH]; intros seen; cbn; [done|]. destruct (existsb _ _); [done|]. intros [=Hl]. by rewrite IH. Qed.
(** The delete, the inserts, the count. *)
Lemma replace_up id l w : db_up w -> exists r w' new, replace_subscription_events id l w = (r, w') /\
  fd_events w' = (List.filter (fun e => negb (of_sub id e)) (fd_events w) ++ new)%list /\
  map without_id new = map (sub_event "" id) (distinct_prefix [] l) /\
  (if whole l then r = Ok (length l) else is_ok r = false) /\ (forall e, r = Err e -> exists m, e = FeedSync (InternalE m)) /\
  fd_subs w' = fd_subs w /\ fd_net w' = fd_net w /\ db_up w' /\ feed_now w' = feed_now w.
Proof using Type.
  intros Hup. unfold replace_subscription_events.
  destruct (fstmt_up closed (fun w => Ok (tt, set_sub_events (List.filter (fun e => negb (of_sub id e)) (fd_events w)) w)) w Hup)
    as (w1 & Es & Ee & En & Hup1 & Et & Hrun). rewrite (bind_step _ _ _ _ _ Hrun). set (w2 := set_sub_events _ w1).
  destruct (insert_events_up id l [] w2 Hup1) as (r & w' & new & Hr & He & Hmap & _ & Hok & Herr & Hs & Hn & Hu & Ht).
  { intros u. cbn [existsb]. unfold w2. cbn [fd_events set_sub_events]. symmetry. apply not_true_iff_false. intros (e & Hin & Hb)%existsb_exists.
    apply filter_In in Hin as [_ Hnot]. apply andb_prop in Hb as [Hb _]. by rewrite Hb in Hnot. }
  fold (whole l) in Hok. exists (match r with Ok _ => Ok (length l) | Err e => Err e end), w', new.
  split; [unfold bind; rewrite Hr; by destruct r|]. split; [rewrite He; unfold w2; cbn [fd_events set_sub_events]; by rewrite Ee|].
  split; [exact Hmap|]. split; [rewrite <-Hok; by destruct r|]. split; [intros e; destruct r; [done|]; intros [= <-]; by apply Herr|].
  rewrite Hs, Hn, Ht. by split_and!.
Qed.

(** The rows after a refresh that rewrote its own. *)
Definition rewritten (id : string) (f : SubscriptionRow -> SubscriptionRow) w : list SubscriptionRow :=
  map (fun s => if is_sub id s then f s else s) (fd_subs w).
Definition other_events (id : string) w : list SubEventRow := List.filter (fun e => negb (of_sub id e)) (fd_events w).

(** C32: A refresh makes the cached events those of the feed.  With the database up: when the
    fetch and the reading succeed and no UID comes twice, the events of the subscription are
    exactly those of the feed in its order, and its row carries the new name, validators and
    time and no error; when a UID comes twice only the events before the repeated one are
    left, the refresh fails and the row does not say so; when the fetch fails, the events
    stay and the row carries the error.  No event of another subscription changes. *)
Theorem refresh_follows_feed id row x w : db_up w -> List.find (is_sub id) (fd_subs w) = Some row ->
  fst (fetch_ics_body (su_url row) (fd_net w)) = x ->
  exists r w', refresh_subscription id w = (r, w') /\ fd_net w' = snd (fetch_ics_body (su_url row) (fd_net w)) /\
  match x with
  | Err e => r = Err (FeedSync e) /\ fd_events w' = fd_events w /\
      fd_subs w' = rewritten id (failed_row (feed_error_text e) (db_stamp (feed_now w))) w
  | Ok (body, etag, last_mod) =>
      match parse_ics_feed body with
      | Err _ => r = Err FeedPanic /\ fd_events w' = fd_events w /\ fd_subs w' = fd_subs w
      | Ok feed => exists new, fd_events w' = (other_events id w ++ new)%list /\
          map without_id new = map (sub_event "" id) (distinct_prefix [] (if_events feed)) /\
          if bool_decide (NoDup (ie_uid <$> if_events feed)) then
            distinct_prefix [] (if_events feed) = if_events feed /\ r = Ok (length (if_events feed)) /\
            fd_subs w' = rewritten id (fetched_row (default (su_name row) (nonempty (if_calendar_name feed))) etag last_mod (db_stamp (feed_now w))) w
          else is_ok r = false /\ fd_subs w' = fd_subs w
      end
  end.
Proof using Type.
  intros Hup Hfind Hx. unfold refresh_subscription.
  destruct (fstmt_up closed (fun w => Ok (List.find (is_sub id) (fd_subs w), w)) w Hup) as (w1 & Es1 & Ee1 & En1 & Hup1 & Et1 & Hrun1).
  rewrite Es1, Hfind in Hrun1. unfold fread at 1. rewrite (bind_step _ _ _ _ _ Hrun1). unfold lift at 1. cbn [ok_or].
  unfold bind at 1. cbv beta iota. destruct (fetch_ics_body (su_url row) (fd_net w)) as [y n] eqn:Hf. cbn [fst snd] in Hx |- *. subst y.
  set (w2 := mkFeeds (fd_mail w1) (fd_subs w1) (fd_events w1) n). assert (Hup2 : db_up w2) by exact Hup1.
  assert (Hnet : attempt (F := FeedError) (on_feed_net (fetch_ics_body (su_url row))) w1 = (Ok x, w2)) by (unfold attempt, on_feed_net; by rewrite En1, Hf).
  rewrite (bind_step _ _ _ _ _ Hnet). destruct x as [[[body etag] last_mod]|e].
  - unfold parsed_feed. unfold bind at 1, lift at 1. destruct (parse_ics_feed body) as [feed|e]; cbn [rmap_err].
    2:{ exists (Err FeedPanic), w2. split; [done|]. split; [done|]. by rewrite <-Ee1, <-Es1. }
    destruct (replace_up id (if_events feed) w2 Hup2) as (r & w3 & new & Hr & He & Hmap & Hok & _ & Hs & Hn & Hup3 & Ht).
    assert (Hev : fd_events w3 = (other_events id w ++ new)%list) by (rewrite He; unfold other_events; by rewrite <-Ee1).
    case_bool_decide as Hnd.
    + rewrite (proj2 (whole_distinct _) Hnd) in Hok. subst r. rewrite (bind_step _ _ _ _ _ Hr). unfold gets at 1. unfold bind at 1. cbv beta iota.
      set (f := fetched_row _ _ _ _). destruct (fstmt_up closed (fun w => Ok (tt, update_subs (is_sub id) f w)) w3 Hup3) as (w4 & Es4 & Ee4 & En4 & _ & _ & Hrun4).
      rewrite (bind_step _ _ _ _ _ Hrun4). eexists _, _. split; [reflexivity|]. cbn [fd_net update_subs set_subs fd_events fd_subs]. split; [by rewrite En4, Hn|].
      exists new. split; [by rewrite Ee4|]. split; [done|]. split; [apply prefix_all, prefix_whole; split; [done|by apply Forall_forall; intros u _ ?%elem_of_nil]|]. split; [done|].
      unfold rewritten, f. by rewrite Es4, Hs, Ht; cbn [fd_subs w2]; rewrite Es1; change (feed_now w2) with (feed_now w1); rewrite Et1.
    + assert (Hw : whole (if_events feed) = false) by (destruct (whole _) eqn:E; [by apply whole_distinct in E|done]). rewrite Hw in Hok.
      destruct r as [k|e]; [done|]. rewrite (bind_fail _ _ _ _ _ Hr). exists (Err e), w3. split; [done|]. split; [by rewrite Hn|].
      exists new. split; [done|]. split; [done|]. split; [done|]. rewrite Hs. exact Es1.
  - unfold gets at 1. unfold bind at 1. cbv beta iota. set (f := failed_row _ _).
    destruct (fstmt_up closed (fun w => Ok (tt, update_subs (is_sub id) f w)) w2 Hup2) as (w4 & Es4 & Ee4 & En4 & _ & _ & Hrun4).
    unfold bind at 1, attempt at 1. rewrite Hrun4. eexists _, _. split; [reflexivity|]. cbn [fd_net update_subs set_subs fd_events fd_subs].
    split; [by rewrite En4|]. split; [done|]. split; [by rewrite Ee4|]. unfold rewritten, f. rewrite Es4. cbn [fd_subs w2]. rewrite Es1.
    change (feed_now w2) with (feed_now w1). by rewrite Et1.
Qed.
End Refreshed.

(** ** Whose subscriptions a route touches *)

Section Apart.
Context {T : Type} `{MediaNet T} `{IcsNet T} `{GzipLib} `{UrlLib} `{UpperLib} `{StoreLib} {Hids : StoreLaws} `{JobLib} `{CivilLib}.
Local Abbreviation W := (feeds T).
Implicit Types w : W.

Definition sub_key (s : SubscriptionRow) : string * string := (su_user s, su_url s).
Definition sub_event_key (e : SubEventRow) : string * string := (se_subscription e, se_external e).
Definition feed_seq w : N := ml_seq (fd_mail w).
(** One subscription per address of a user, one event per UID of a subscription, and no event without its subscription. *)
Record feeds_sound w : Prop := {
  fs_subs : table_ok su_id sub_key (feed_seq w) (fd_subs w);
  fs_events : table_ok se_id sub_event_key (feed_seq w) (fd_events w);
  fs_owned e : e ∈ fd_events w -> se_subscription e ∈ su_id <$> fd_subs w }.
(** Only the subscription [id] and its events changed. *)
Record only_sub (id : string) w w' : Prop := {
  os_owners : map (fun s => (su_id s, sub_key s)) (fd_subs w') = map (fun s => (su_id s, sub_key s)) (fd_subs w);
  os_subs : rows_but su_id id (fd_subs w') = rows_but su_id id (fd_subs w);
  os_events : rows_but se_subscription id (fd_events w') = rows_but se_subscription id (fd_events w) }.
Definition sub_step (id : string) w w' : Prop :=
  feeds_sound w -> id ∈ su_id <$> fd_subs w -> feeds_sound w' /\ id ∈ su_id <$> fd_subs w' /\ only_sub id w w'.
#[local] Instance sub_step_pre id : PreOrder (sub_step id).
Proof.
  split; [by intros w ? ?|]. intros x y z Hxy Hyz Hx Hi. destruct (Hxy Hx Hi) as (Hy & Hiy & [? ? ?]).
  destruct (Hyz Hy Hiy) as (Hz & Hiz & [? ? ?]). split; [done|]. split; [done|]. split; congruence.
Qed.
Lemma ids_of_owners l l' : map (fun s => (su_id s, sub_key s)) l' = map (fun s => (su_id s, sub_key s)) l ->
  su_id <$> l' = su_id <$> l /\ sub_key <$> l' = sub_key <$> l.
Proof using Type.
  revert l'. induction l as [|s l IH]; intros [|s' l']; try done. cbn. intros [= Hi Hu Hr Hl]. destruct (IH l' Hl) as [E1 E2].
  unfold sub_key in *. by rewrite Hi, E1, E2, Hu, Hr.
Qed.
(** A change of the tables alone. *)
Lemma sub_tables_step id w w' : (feed_seq w <= feed_seq w')%N -> only_sub id w w' ->
  (feeds_sound w -> id ∈ su_id <$> fd_subs w -> table_ok se_id sub_event_key (feed_seq w') (fd_events w') /\
     forall e, e ∈ fd_events w' -> se_subscription e ∈ su_id <$> fd_subs w) -> sub_step id w w'.
Proof using Type.
  intros Hseq Honly Hev [Hs He Ho] Hi. destruct (Hev (Build_feeds_sound _ Hs He Ho) Hi) as [He' Ho'].
  destruct (ids_of_owners _ _ (os_owners _ _ _ Honly)) as [Ei Ek]. split; [|split; [by rewrite Ei|done]]. split; [|done|by rewrite Ei].
  destruct Hs as [Ha Hb Hc]. split; rewrite ?Ei, ?Ek; [done|done|]. intros n Hn. apply Hc. lia.
Qed.
Lemma step_quiet id w w' : fd_subs w' = fd_subs w -> fd_events w' = fd_events w -> (feed_seq w <= feed_seq w')%N -> sub_step id w w'.
Proof using Type.
  intros Hs He Hq. apply sub_tables_step; [done|split; by rewrite ?Hs, ?He|]. rewrite He. intros [_ Hev Ho] _. split; [by eapply table_later|done].
Qed.
(** One statement: it fails and changes nothing but the fuse, or its change happens. *)
Lemma fstmt_run {E A} (down : E) (f : W -> result E (A * W)) w r w' : fstmt down f w = (r, w') ->
  exists w1, fd_subs w1 = fd_subs w /\ fd_events w1 = fd_events w /\ feed_seq w1 = feed_seq w /\
    ((exists e, r = Err e /\ w' = w1) \/ exists a, f w1 = Ok (a, w') /\ r = Ok a).
Proof using Type.
  unfold fstmt, mstmt. destruct (ml_fuse (fd_mail w)) as [[|n]|].
  1: intros [= <- <-]; eexists; split_and!; [..|left; by eexists]; done.
  all: destruct (f _) as [[a w2]|e] eqn:Hf; intros [= <- <-]; eexists; (split_and!; [..|first [right; eexists; split; [exact Hf|done]|left; by eexists]]; done).
Qed.
Lemma step_stmt {E A} id (down : E) (f : W -> result E (A * W)) :
  (forall w1 a w2, f w1 = Ok (a, w2) -> sub_step id w1 w2) -> preserves (sub_step id) (fstmt down f).
Proof using Type.
  intros Hf w r w' (w1 & Hs & He & Hq & Hcase)%fstmt_run. assert (Hq1 : sub_step id w w1) by (apply step_quiet; [done|done|by rewrite Hq]).
  destruct Hcase as [(e & _ & ->)|(a & Hr & _)]; [done|]. trans w1; [done|by eapply Hf].
Qed.
Lemma step_fread {E A} id (down : E) (f : W -> A) : preserves (sub_step id) (fread down f).
Proof using Type. apply step_stmt. by intros w1 a w2 [= _ <-]. Qed.
Lemma step_feed_net {E A} id (m : io T E A) : preserves (sub_step id) (on_feed_net m).
Proof using Type. intros w r w'. unfold on_feed_net. destruct (m _) as [x n]. intros [= _ <-]. by apply step_quiet. Qed.
Lemma rows_but_same {A} (account : A -> string) a (l : list A) f : (forall x, account (f x) = account x) ->
  rows_but account a (map (fun x => if String.eqb (account x) a then f x else x) l) = rows_but account a l.
Proof using Type. intros Hf. apply rows_but_map; [|done]. by intros x _ Hx%String.eqb_eq. Qed.
Lemma step_update id f : (forall s, su_id (f s) = su_id s /\ sub_key (f s) = sub_key s) -> forall w, sub_step id w (update_subs (is_sub id) f w).
Proof using Type.
  intros Hf w. apply sub_tables_step; [done| |by intros [_ He Ho] _]. split; [|apply rows_but_same; intros s; apply Hf|done].
  cbn. rewrite map_map. apply map_ext. intros s. destruct (is_sub id s); [|done]. by destruct (Hf s) as [-> ->].
Qed.
Lemma step_clear id w : sub_step id w (set_sub_events (List.filter (fun e => negb (of_sub id e)) (fd_events w)) w).
Proof using Type.
  apply sub_tables_step; [done| |].
  - split; [done|done|]. apply rows_but_filter. intros e He. apply negb_false_iff, of_sub_id in He. done.
  - intros [_ He Ho] _. split; [by apply table_filter|]. intros e Hin. apply list_elem_of_In, filter_In in Hin as [Hin _]. by apply Ho, list_elem_of_In.
Qed.
Lemma step_insert id ev rest : preserves (sub_step id) (insert_events id rest) ->
  preserves (sub_step id) (let! uid := feed_uuid in let! _ := insert_event (sub_event uid id ev) in insert_events id rest).
Proof using Hids.
  intros Hrest w r w' Hr. unfold feed_uuid in Hr. unfold bind at 1 in Hr. cbv beta iota zeta in Hr. set (w0 := set_feed_mail _ w) in Hr.
  assert (Hstep : forall r1 w1, insert_event (sub_event (store_uuid (ml_seq (fd_mail w))) id ev) w0 = (r1, w1) -> sub_step id w w1).
  { intros r1 w1 (w2 & Hs & He & Hq & Hcase)%fstmt_run. change (feed_seq w0) with (N.succ (feed_seq w)) in Hq.
    destruct Hcase as [(e & _ & ->)|([] & Hf & _)]; [apply step_quiet; [done|done|rewrite Hq; lia]|].
    destruct (existsb _ (fd_events w2)) eqn:Hdup; [done|]. injection Hf as <-. rewrite He in Hdup. change (fd_events w0) with (fd_events w) in *.
    apply sub_tables_step; cbn; [unfold feed_seq in *; cbn; rewrite Hq; lia| |].
    - split; cbn; [by rewrite Hs|by rewrite Hs|]. rewrite He. by apply rows_but_add.
    - unfold feed_seq in *. cbn. rewrite Hq, He. intros [_ Hev Ho] Hi. split.
      + apply table_add; [done|done|]. intros (e & Hk & Hin)%list_elem_of_fmap. apply not_true_iff_false in Hdup. apply Hdup, existsb_exists.
        exists e. split; [by apply list_elem_of_In|]. injection Hk as Hk1 Hk2. cbn in Hk1, Hk2. unfold of_sub. cbn. by rewrite <-Hk1, <-Hk2, !String.eqb_refl.
      + intros e [Hin|Heq%list_elem_of_singleton]%elem_of_app; [by apply Ho|by subst e]. }
  apply bind_inv in Hr as [(e & Hi & _)|([] & w1 & Hi & Hr)]; [by eapply Hstep|]. trans w1; [by eapply Hstep|by eapply Hrest].
Qed.
Lemma step_inserts id l : preserves (sub_step id) (insert_events id l).
Proof using Hids. induction l as [|ev l IH]; cbn [insert_events]; [preserve|by apply step_insert]. Qed.
Lemma step_refresh id : preserves (sub_step id) (refresh_subscription id).
Proof using Hids.
  unfold refresh_subscription, replace_subscription_events, parsed_feed. preserve; first [apply step_fread|apply step_feed_net|apply step_inserts|apply step_stmt; intros v1 u v2 [= _ <-]];
    first [apply step_clear|by apply step_update].
Qed.
Lemma refresh_missing id w r w' : id ∉ su_id <$> fd_subs w -> refresh_subscription id w = (r, w') ->
  fd_subs w' = fd_subs w /\ fd_events w' = fd_events w /\ feed_seq w' = feed_seq w.
Proof using Type.
  intros Hi Hr. unfold refresh_subscription in Hr. apply bind_inv in Hr as [(e & Hrd & _)|(o & w1 & Hrd & Hr)]; unfold fread in Hrd;
    apply fstmt_run in Hrd as (w2 & Hs & He & Hq & Hcase); destruct Hcase as [(e' & Hx & ->)|(a & [= <- <-] & Hx)]; try done.
  injection Hx as ->. rewrite Hs in Hr. destruct (List.find (is_sub id) (fd_subs w)) as [s|] eqn:Hf.
  - destruct Hi. apply find_some in Hf as [Hin Hid%String.eqb_eq]. rewrite <-Hid. apply list_elem_of_fmap_2. by apply list_elem_of_In.
  - unfold bind, lift in Hr. cbn in Hr. by injection Hr as _ <-.
Qed.
Lemma refresh_sound id w r w' : feeds_sound w -> refresh_subscription id w = (r, w') -> feeds_sound w'.
Proof using Hids.
  intros Hs Hr. destruct (decide (id ∈ su_id <$> fd_subs w)) as [Hi|Hi]; [by destruct (step_refresh id w r w' Hr Hs Hi)|].
  destruct (refresh_missing id w r w' Hi Hr) as (Es & Ee & Eq). destruct Hs as [Ha Hb Hc]. split; rewrite ?Es, ?Ee, ?Eq; done.
Qed.
(** The timer keeps the tables sound, whatever the hosts answer. *)
Lemma due_sound parse_sql_stamp w r w' : feeds_sound w -> refresh_due_subscriptions parse_sql_stamp w = (r, w') -> feeds_sound w'.
Proof using Hids.
  assert (Heach : forall cutoff l w r w', feeds_sound w -> refresh_each parse_sql_stamp cutoff l w = (r, w') -> feeds_sound w').
  { clear w r w'. intros cutoff. induction l as [|[id o] l IH]; intros w r w' Hs; cbn [refresh_each]; [by intros [= _ <-]|].
    destruct (fetched_before _ _ _); [|by apply IH]. unfold bind at 1, attempt. destruct (refresh_subscription id w) as [x w1] eqn:Hx.
    apply refresh_sound in Hx; [|done]. destruct x as [k|[e|]]; [|by apply IH|by intros [= _ <-]].
    intros [(e & Hr & _)|(n & w2 & Hr & Hret)]%bind_inv; [by eapply IH|]. injection Hret as _ <-. by eapply IH. }
  intros Hs Hr. unfold refresh_due_subscriptions in Hr. apply bind_inv in Hr as [(e & Hrd & _)|(l & w1 & Hrd & Hr)]; unfold fread in Hrd;
    apply fstmt_run in Hrd as (w2 & E1 & E2 & E3 & Hcase); destruct Hcase as [(e' & Hx & ->)|(a & [= <- <-] & Hx)]; try done.
  - destruct Hs as [Ha Hb Hc]. split; rewrite ?E1, ?E2, ?E3; done.
  - unfold bind, gets in Hr. eapply Heach; [|exact Hr]. destruct Hs as [Ha Hb Hc]. split; rewrite ?E1, ?E2, ?E3; done.
Qed.

(** ** One user and the others *)

Context (user : string).
Definition events_owned w (e : SubEventRow) : bool := existsb (fun s => String.eqb (su_user s) user && of_sub (su_id s) e) (fd_subs w).
Definition events_of_others w : list SubEventRow := List.filter (fun e => negb (events_owned w e)) (fd_events w).
Record subs_spared w w' : Prop := {
  ss_subs : rows_but su_user user (fd_subs w') = rows_but su_user user (fd_subs w);
  ss_events : events_of_others w' = events_of_others w }.
Definition own_feeds w w' : Prop := feeds_sound w -> feeds_sound w' /\ subs_spared w w'.
#[local] Instance own_feeds_pre : PreOrder own_feeds.
Proof.
  split; [by intros w ?|]. intros x y z Hxy Hyz Hx. destruct (Hxy Hx) as (Hy & [? ?]). destruct (Hyz Hy) as (Hz & [? ?]). split; [done|]. split; congruence.
Qed.
Lemma owned_by_owners w w' : map (fun s => (su_id s, sub_key s)) (fd_subs w') = map (fun s => (su_id s, sub_key s)) (fd_subs w) ->
  forall e, events_owned w' e = events_owned w e.
Proof using Type.
  intros Ho e. unfold events_owned. revert Ho. generalize (fd_subs w'), (fd_subs w). induction l as [|s l IH]; intros [|s' l']; try done.
  cbn. intros [= Hi Hu _ Hl]. by rewrite Hi, Hu, (IH l' Hl).
Qed.
Definition my_id (id : string) w : Prop := exists s, s ∈ fd_subs w /\ su_id s = id /\ su_user s = user.
Lemma but_but {A} (a b : A -> string) x y (l : list A) : (forall r, r ∈ l -> a r = x -> b r = y) -> rows_but b y (rows_but a x l) = rows_but b y l.
Proof using Type.
  intros Hl. unfold rows_but. induction l as [|r l IH]; [done|]. cbn. rewrite <-IH by (intros k Hk; apply Hl; by right).
  destruct (String.eqb_spec (a r) x) as [Hx|]; cbn; [|done]. rewrite (Hl r (list_elem_of_here _ _) Hx), String.eqb_refl. done.
Qed.
Lemma owners_user id l l' : map (fun s => (su_id s, sub_key s)) l' = map (fun s => (su_id s, sub_key s)) l ->
  (forall s, s ∈ l -> su_id s = id -> su_user s = user) -> forall s, s ∈ l' -> su_id s = id -> su_user s = user.
Proof using Type.
  revert l'. induction l as [|s l IH]; intros [|s' l'] Hm Hl k Hk Hid; try done; [by apply elem_of_nil in Hk|].
  cbn in Hm. injection Hm as Hi Hu _ Hrest. apply elem_of_cons in Hk as [->|Hk].
  - rewrite Hu. apply Hl; [by left|congruence].
  - eapply IH; [exact Hrest| |exact Hk|done]. intros x Hx. apply Hl. by right.
Qed.
Lemma sub_step_own id w w' : my_id id w -> sub_step id w w' -> own_feeds w w'.
Proof using Type.
  intros (s & Hs & Hid & Hu) Hstep Hsound. assert (Hin : id ∈ su_id <$> fd_subs w) by (rewrite <-Hid; by apply list_elem_of_fmap_2).
  destruct (Hstep Hsound Hin) as (Hsound' & _ & [Ho Hsub Hev]). split; [done|].
  assert (Hmine : forall k, k ∈ fd_subs w -> su_id k = id -> su_user k = user).
  { intros k Hk Hkid. replace k with s; [done|]. apply (same_key su_id (fd_subs w)); [apply Hsound|done|done|congruence]. }
  pose proof (owners_user id _ _ Ho Hmine) as Hmine'. split.
  - rewrite <-(but_but su_id su_user id user (fd_subs w')), <-(but_but su_id su_user id user (fd_subs w)) by done. by rewrite Hsub.
  - unfold events_of_others. rewrite (List.filter_ext _ _ (fun e => f_equal negb (owned_by_owners w w' Ho e))).
    assert (Hf : forall l : list SubEventRow, List.filter (fun e => negb (events_owned w e)) l =
      List.filter (fun e => negb (events_owned w e)) (rows_but se_subscription id l)).
    { induction l as [|e l IH]; [done|]. unfold rows_but in *. cbn. destruct (String.eqb_spec (se_subscription e) id) as [He|]; cbn; [|by rewrite IH].
      assert (events_owned w e = true) as ->; [|done]. apply existsb_exists. exists s. split; [by apply list_elem_of_In|].
      unfold of_sub. by rewrite Hu, He, Hid, !String.eqb_refl. }
    by rewrite (Hf (fd_events w')), Hev, <-Hf.
Qed.
Lemma own_quiet w w' : fd_subs w' = fd_subs w -> fd_events w' = fd_events w -> (feed_seq w <= feed_seq w')%N -> own_feeds w w'.
Proof using Type.
  intros Es Ee Eq [Ha Hb Hc]. split; [|split; unfold events_of_others, events_owned; by rewrite ?Es, ?Ee].
  split; rewrite ?Es, ?Ee; [by eapply table_later|by eapply table_later|done].
Qed.
Lemma own_stmt {E A} (down : E) (f : W -> result E (A * W)) : (forall w1 a w2, f w1 = Ok (a, w2) -> own_feeds w1 w2) -> preserves own_feeds (fstmt down f).
Proof using Type.
  intros Hf w r w' (w1 & Hs & He & Hq & Hcase)%fstmt_run. assert (Hq1 : own_feeds w w1) by (apply own_quiet; [done|done|by rewrite Hq]).
  destruct Hcase as [(e & _ & ->)|(a & Hr & _)]; [done|]. trans w1; [done|by eapply Hf].
Qed.
Lemma own_fread {E A} (down : E) (f : W -> A) : preserves own_feeds (fread down f).
Proof using Type. apply own_stmt. by intros w1 a w2 [= _ <-]. Qed.
(** A new subscription has no event yet. *)
Lemma own_add w w' row : fd_subs w' = (fd_subs w ++ [row])%list -> fd_events w' = fd_events w -> feed_seq w' = N.succ (feed_seq w) ->
  su_user row = user -> su_id row = store_uuid (feed_seq w) -> sub_key row ∉ sub_key <$> fd_subs w -> own_feeds w w'.
Proof using Hids.
  intros Es Ee Eq Hu Hi Hk [Hs He Ho]. assert (Hnew : store_uuid (feed_seq w) ∉ su_id <$> fd_subs w) by (by apply (tb_new _ _ _ _ Hs)).
  split; [split|split].
  - rewrite Es, Eq. by apply table_add.
  - rewrite Ee, Eq. eapply table_later; [|done]. lia.
  - intros e Hin. rewrite Es, fmap_app. apply elem_of_app. left. apply Ho. by rewrite <-Ee.
  - rewrite Es. by apply rows_but_add.
  - unfold events_of_others. rewrite Ee. apply List.filter_ext_in. intros e Hin. f_equal. unfold events_owned. rewrite Es, existsb_app. cbn.
    assert (of_sub (su_id row) e = false) as ->; [|by rewrite andb_false_r, !orb_false_r]. apply not_true_iff_false. intros Hb%of_sub_id.
    apply Hnew. rewrite <-Hi, <-Hb. by apply Ho, list_elem_of_In.
Qed.
Lemma own_edit id b stamp w : own_feeds w (update_subs (my_sub user id) (edited_row b stamp) w).
Proof using Type.
  intros [[Ha Hb Hc] He Ho]. assert (Hm : map (fun s => (su_id s, sub_key s)) (fd_subs (update_subs (my_sub user id) (edited_row b stamp) w)) =
    map (fun s => (su_id s, sub_key s)) (fd_subs w)).
  { cbn. rewrite map_map. apply map_ext. intros s. by destruct (my_sub user id s). }
  destruct (ids_of_owners _ _ Hm) as [Ei Ek]. split; [split|split].
  - change (feed_seq (update_subs (my_sub user id) (edited_row b stamp) w)) with (feed_seq w). split; rewrite ?Ei, ?Ek; done.
  - done.
  - intros e Hin. rewrite Ei. by apply Ho.
  - cbn. apply rows_but_map; [|done]. intros s _ Hs. unfold my_sub in Hs. by apply andb_prop in Hs as [_ Hs%String.eqb_eq].
  - unfold events_of_others. apply List.filter_ext. intros e. f_equal. by apply (owned_by_owners _ _ Hm).
Qed.
Lemma own_drop id w : own_feeds w (without_sub user id w).
Proof using Type.
  intros [Hs He Ho]. unfold without_sub. cbv zeta. set (gone := fun e => existsb (fun s => my_sub user id s && of_sub (su_id s) e) (fd_subs w)).
  change (fun e => negb (existsb (fun s => my_sub user id s && of_sub (su_id s) e) (fd_subs w))) with (fun e => negb (gone e)).
  set (kept := List.filter (fun s => negb (my_sub user id s)) (fd_subs w)).
  assert (Hkeep : forall s, s ∈ fd_subs w -> my_sub user id s = false -> s ∈ kept).
  { intros s Hin Hm. apply list_elem_of_In, filter_In. split; [by apply list_elem_of_In|by rewrite Hm]. }
  assert (Hgone : forall s e, s ∈ fd_subs w -> of_sub (su_id s) e = true -> gone e = false -> s ∈ kept).
  { intros s e Hin Hof Hg. apply Hkeep; [done|]. apply not_true_iff_false. intros Hm. apply not_true_iff_false in Hg. apply Hg, existsb_exists.
    exists s. split; [by apply list_elem_of_In|by rewrite Hm, Hof]. }
  split; [split; cbn|split; [cbn|]].
  - by apply table_filter.
  - by apply table_filter.
  - intros e Hin. apply list_elem_of_In, filter_In in Hin as [Hin Hg%negb_true_iff]. apply list_elem_of_In in Hin.
    pose proof (Ho e Hin) as (s & Hes & Hsin)%list_elem_of_fmap. rewrite Hes. apply list_elem_of_fmap_2. eapply Hgone; [done|by apply of_sub_id|done].
  - apply rows_but_filter. intros s Hm%negb_false_iff. unfold my_sub in Hm. by apply andb_prop in Hm as [_ Hm%String.eqb_eq].
  - unfold events_of_others. set (v := set_sub_events (List.filter (fun e => negb (gone e)) (fd_events w)) (set_subs kept w)). assert (Hv : fd_subs v = kept) by done. change (fd_events v) with (List.filter (fun e => negb (gone e)) (fd_events w)).
    clearbody v. clear He Ho. induction (fd_events w) as [|e l IH]; [done|]. cbn. destruct (gone e) eqn:Hg; cbn.
    + assert (events_owned w e = true) as ->; [|exact IH]. apply existsb_exists in Hg as (s & Hin & Hb). apply andb_prop in Hb as [Hm Hof].
      apply existsb_exists. exists s. split; [done|]. unfold my_sub in Hm. apply andb_prop in Hm as [_ Hu]. by rewrite Hu, Hof.
    + assert (events_owned v e = events_owned w e) as ->; [|by rewrite IH].
      unfold events_owned. rewrite Hv. apply eq_true_iff_eq. rewrite !existsb_exists. split; intros (s & Hin & Hb); exists s; (split; [|done]).
      * by apply filter_In in Hin as [Hin _].
      * apply andb_prop in Hb as [_ Hof]. apply list_elem_of_In. eapply Hgone; [by apply list_elem_of_In|done|done].
Qed.
Lemma insert_sub_run row w w0 r w' : insert_subscription row w0 = (r, w') -> fd_subs w0 = fd_subs w -> fd_events w0 = fd_events w ->
  feed_seq w0 = N.succ (feed_seq w) -> su_user row = user -> su_id row = store_uuid (feed_seq w) ->
  own_feeds w w' /\ (r = Ok tt -> my_id (su_id row) w').
Proof using Hids.
  intros (w1 & Es & Ee & Eq & Hcase)%fstmt_run Es0 Ee0 Eq0 Hu Hi.
  destruct Hcase as [(e & -> & ->)|([] & Hf & ->)]; [split; [apply own_quiet; [congruence|congruence|rewrite Eq, Eq0; lia]|done]|].
  destruct (existsb _ (fd_subs w1)) eqn:Hdup; [done|]. injection Hf as <-. split.
  - apply (own_add _ _ row); cbn; [congruence|congruence|by rewrite <-Eq0, <-Eq|done|done|].
    intros (s & Hk & Hin)%list_elem_of_fmap. apply not_true_iff_false in Hdup. apply Hdup, existsb_exists. exists s. rewrite Es, Es0.
    split; [by apply list_elem_of_In|]. injection Hk as -> ->. by rewrite !String.eqb_refl.
  - intros _. exists row. split; [|done]. cbn. apply elem_of_app. right. by left.
Qed.
Lemma own_best_effort {A} (m : io W FeedError A) w w0 r w' : own_feeds w w0 -> (forall x w1, m w0 = (x, w1) -> own_feeds w0 w1) ->
  best_effort m w0 = (r, w') -> own_feeds w w'.
Proof using Type.
  intros Hw0 Hm. unfold best_effort, bind, attempt. destruct (m w0) as [x w1] eqn:Hx. specialize (Hm x w1 eq_refl).
  destruct x as [a|[e|]]; intros [= _ <-]; by trans w0.
Qed.
Lemma my_id_kept id w w' : map (fun s => (su_id s, sub_key s)) (fd_subs w') = map (fun s => (su_id s, sub_key s)) (fd_subs w) -> my_id id w -> my_id id w'.
Proof using Type.
  intros Hm (s & Hs & Hi & Hu). assert (Hin : (su_id s, sub_key s) ∈ map (fun s => (su_id s, sub_key s)) (fd_subs w')).
  { rewrite Hm. apply list_elem_of_In, (in_map (fun s => (su_id s, sub_key s))). by apply list_elem_of_In. }
  apply list_elem_of_In, in_map_iff in Hin as (s' & [= Ei Eu _] & Hs'). exists s'. split; [by apply list_elem_of_In|]. split; congruence.
Qed.
(** The insert and the refresh, then the row read back. *)
Definition read_back (id : string) : io W PimError Subscription :=
  let! row := fread PimDatabase (fun w => List.find (is_sub id) (fd_subs w)) in lift (ok_or PimNotFound (option_map subscription_from_row row)).
Lemma create_run b w r w' : create_subscription user b w = (r, w') ->
  exists w2, own_feeds w w2 /\ ((exists e, r = Err e /\ w' = w2) \/ exists id, (feeds_sound w -> my_id id w2) /\ read_back id w2 = (r, w')).
Proof using Hids.
  intros Hr. unfold create_subscription in Hr. destruct (normalize_ics_url (cs_url b)) as [url|e];
    [|injection Hr as <- <-; exists w; split; [done|left; by eexists]].
  unfold lift at 1 in Hr. cbn [rmap_err] in Hr. unfold bind at 1 in Hr. cbv beta iota in Hr. unfold feed_uuid in Hr. unfold bind at 1 in Hr. cbv beta iota zeta in Hr.
  set (w0 := set_feed_mail _ w) in Hr. unfold gets at 1 in Hr. unfold bind at 1 in Hr. cbv beta iota in Hr. set (row := mkSub _ _ _ _ _ _ _ _ _ _ _ _) in Hr.
  assert (Hins : forall x w1, insert_subscription row w0 = (x, w1) -> own_feeds w w1 /\ (x = Ok tt -> my_id (su_id row) w1)).
  { intros x w1 Hx. by apply (insert_sub_run row w w0). }
  apply bind_inv in Hr as [(e & Hx & ->)|([] & w1 & Hx & Hr)]; apply Hins in Hx as [Ho Hm]; [exists w'; split; [done|left; by eexists]|]. specialize (Hm eq_refl).
  assert (Hbest : forall w3 x, best_effort (refresh_subscription (su_id row)) w1 = (x, w3) -> own_feeds w w3 /\ (feeds_sound w -> my_id (su_id row) w3)).
  { intros w3 x Hx. split.
    - eapply own_best_effort; [exact Ho| |exact Hx]. intros y w4 Hy. eapply sub_step_own; [exact Hm|by eapply step_refresh].
    - intros Hs. unfold best_effort, bind, attempt in Hx. destruct (refresh_subscription (su_id row) w1) as [y w4] eqn:Hy.
      assert (w3 = w4) as -> by (destruct y as [?|[?|]]; by injection Hx as _ <-). apply step_refresh in Hy. destruct (Ho Hs) as [Hs1 _].
      destruct (Hy Hs1) as (_ & _ & [Hown _ _]); [|by eapply my_id_kept]. destruct Hm as (s & Hin & <- & _). by apply list_elem_of_fmap_2. }
  apply bind_inv in Hr as [(e & Hb & ->)|([] & w2 & Hb & Hr)]; apply Hbest in Hb as [Hb Hmine].
  - exists w'. split; [done|left; by eexists].
  - exists w2. split; [done|]. right. exists (su_id row). by split.
Qed.
Lemma own_read_back id : preserves own_feeds (read_back id).
Proof using Type. unfold read_back. preserve. apply own_fread. Qed.
Lemma own_create_sub b : preserves own_feeds (create_subscription user b).
Proof using Hids.
  intros w r w' (w2 & Ho & [(e & _ & ->)|(id & _ & Hr)])%create_run; [done|]. trans w2; [done|by eapply own_read_back].
Qed.
Lemma owned_run id w r w' : owned_sub user id w = (r, w') -> own_feeds w w' /\ fd_subs w' = fd_subs w /\ (r = Ok tt -> my_id id w).
Proof using Type.
  unfold owned_sub. intros Hr. apply bind_inv in Hr as [(e & Hrd & ->)|(o & w1 & Hrd & Hr)]; (split; [|split]).
  - by eapply own_fread.
  - unfold fread in Hrd. by apply fstmt_run in Hrd as (w2 & Es & _ & _ & [(e' & _ & ->)|(a & [= _ <-] & _)]).
  - done.
  - trans w1; [by eapply own_fread|]. unfold ensure in Hr. destruct (bool_decide _); by injection Hr as _ <-.
  - assert (w' = w1) as -> by (unfold ensure in Hr; destruct (bool_decide _); by injection Hr as _ <-).
    unfold fread in Hrd. by apply fstmt_run in Hrd as (w2 & Es & _ & _ & [(e' & _ & ->)|(a & [= _ <-] & _)]).
  - intros ->. unfold fread in Hrd. apply fstmt_run in Hrd as (w2 & Es & _ & _ & [(e' & Hx & _)|(a & [= <- <-] & Hx)]); [done|]. injection Hx as ->.
    rewrite Es in Hr. unfold ensure in Hr. destruct (List.find (my_sub user id) (fd_subs w)) as [s|] eqn:Hf; [|done].
    apply find_some in Hf as [Hin Hm]. unfold my_sub in Hm. apply andb_prop in Hm as [Hi%String.eqb_eq Hu%String.eqb_eq].
    exists s. split; [by apply list_elem_of_In|done].
Qed.

(** What the API can ask of subscriptions. *)
Inductive SubRoute := ListSubs | CreateSub (b : CreateSubscriptionRequest) | UpdateSub (id : string) (b : UpdateSubscriptionRequest)
  | DeleteSub (id : string) | RefreshSub (id : string) | ListSubEvents (id : string) (q : ListEventsQuery).
Inductive SubAnswer := Subs (l : list Subscription) | SubEvents (l : list SubscriptionEvent) | SubDone.
Definition sub_route (call : SubRoute) : io W PimError SubAnswer :=
  match call with
  | ListSubs => let! l := list_subscriptions user in ret (Subs l)
  | CreateSub b => let! s := create_subscription user b in ret (Subs [s])
  | UpdateSub id b => let! s := update_subscription user id b in ret (Subs [s])
  | DeleteSub id => let! _ := delete_subscription user id in ret SubDone
  | RefreshSub id => let! _ := refresh_one user id in ret SubDone
  | ListSubEvents id q => let! l := list_subscription_events user id q in ret (SubEvents l)
  end.
Lemma own_sub_route call : preserves own_feeds (sub_route call).
Proof using Hids.
  destruct call as [|b|id b|id|id|id q]; cbn [sub_route].
  - unfold list_subscriptions. preserve. apply own_fread.
  - preserve. apply own_create_sub.
  - unfold update_subscription. preserve; [|apply own_fread]. apply own_stmt. intros w1 u w2 [= _ <-]. apply own_edit.
  - unfold delete_subscription. preserve. apply own_stmt. intros w1 u w2 [= _ <-]. apply own_drop.
  - unfold refresh_one. apply pres_bind; [apply _| |intros ?; preserve]. intros w r w' Hr.
    apply bind_inv in Hr as [(e & Ho & _)|([] & w1 & Ho & Hr)]; apply owned_run in Ho as (Hown & Es & Hm); [done|]. trans w1; [done|].
    apply map_err_inv in Hr as (x & Hx & _). apply (sub_step_own id); [|by eapply step_refresh]. unfold my_id. rewrite Es. by apply Hm.
  - unfold list_subscription_events. preserve; [|apply own_fread]. by intros w r w' (Ho & _)%owned_run.
Qed.
(** Every subscription answered is a row of the user, every event hangs off one. *)
Definition sub_answer_own w' (a : SubAnswer) : Prop :=
  match a with
  | Subs l => Forall (fun v => exists s, s ∈ fd_subs w' /\ v = subscription_from_row s /\ su_user s = user) l
  | SubEvents l => Forall (fun v => exists e, e ∈ fd_events w' /\ v = sub_event_from_row e /\ my_id (se_subscription e) w') l
  | SubDone => True
  end.
Lemma fread_ok {E A} (down : E) (f : W -> A) w a w' : fread down f w = (Ok a, w') -> a = f w' /\ fd_subs w' = fd_subs w /\ fd_events w' = fd_events w.
Proof using Type. unfold fread. intros (w1 & Es & Ee & _ & [(e & [=] & _)|(x & [= <- <-] & [= ->])])%fstmt_run. done. Qed.
Lemma found_own p w x w' o : (forall s, p s = true -> su_user s = user) -> fread PimDatabase (fun w => List.find p (fd_subs w)) w = (Ok o, w') ->
  lift (ok_or PimNotFound (option_map subscription_from_row o)) w' = (Ok x, w') -> sub_answer_own w' (Subs [x]).
Proof using Type.
  intros Hp (-> & _ & _)%fread_ok Hl. unfold lift in Hl. destruct (List.find p (fd_subs w')) as [s|] eqn:Hf; [|done]. injection Hl as <-.
  apply find_some in Hf as [Hin Hb]. constructor; [|constructor]. exists s. split; [by apply list_elem_of_In|]. split; [done|by apply Hp].
Qed.
Lemma created_own b w v w' : feeds_sound w -> create_subscription user b w = (Ok v, w') -> sub_answer_own w' (Subs [v]).
Proof using Hids.
  intros Hs (w2 & Ho & [(e & [=] & _)|(id & Hm & Hr)])%create_run. destruct (Ho Hs) as [Hs2 _]. destruct (Hm Hs) as (s & Hin & Hi & Hu).
  unfold read_back in Hr. apply bind_Ok in Hr as (o & w3 & Hrd & Hl). pose proof Hrd as (Ho3 & Es3 & _)%fread_ok.
  unfold lift in Hl. destruct o as [s'|]; [|done]. injection Hl as <- <-. symmetry in Ho3. apply find_some in Ho3 as [Hin' Hid%String.eqb_eq].
  apply list_elem_of_In in Hin'. constructor; [|constructor]. exists s'. split; [done|]. split; [done|]. rewrite Es3 in Hin'. replace s' with s; [done|].
  apply (same_key su_id (fd_subs w2)); [apply Hs2|done|done|congruence].
Qed.
Lemma my_sub_user id s : my_sub user id s = true -> su_user s = user.
Proof using Type. unfold my_sub. by intros [_ ?%String.eqb_eq]%andb_prop. Qed.

(** A user's subscriptions and those of others stay apart.  From sound tables, whatever a
    host answers and whatever fails, a call keeps the tables sound (one subscription per
    address of a user, one event per UID, no event without its subscription) and leaves the
    subscriptions of other users and their events as they were; what it answers are rows of
    the user and events under them. *)
Theorem subscriptions_stay_apart call w r w' : feeds_sound w -> sub_route call w = (r, w') ->
  feeds_sound w' /\ subs_spared w w' /\ forall a, r = Ok a -> sub_answer_own w' a.
Proof using Hids.
  intros Hs Hr. pose proof (own_sub_route call w r w' Hr Hs) as [Hs' Hsp]. split; [done|]. split; [done|]. intros a ->.
  destruct call as [|b|id b|id|id|id q]; cbn [sub_route] in Hr; apply bind_Ok in Hr as (x & w1 & Hx & Hret); injection Hret as <- <-; try done.
  - unfold list_subscriptions in Hx. apply fread_ok in Hx as (-> & _). apply forall_mapped. intros s Hin. apply ordered_filter in Hin as [Hin Hu%String.eqb_eq]. by exists s.
  - exact (created_own _ _ _ _ Hs Hx).
  - unfold update_subscription in Hx. apply bind_Ok in Hx as (stamp & w2 & _ & Hx). apply bind_Ok in Hx as (hit & w3 & _ & Hx).
    apply bind_Ok in Hx as ([] & w4 & _ & Hx). apply bind_Ok in Hx as (o & w5 & Hrd & Hl). assert (w1 = w5) as -> by (unfold lift in Hl; by injection Hl as _ <-).
    eapply found_own; [apply my_sub_user|exact Hrd|exact Hl].
  - unfold list_subscription_events in Hx. apply bind_Ok in Hx as ([] & w2 & Ho & Hx). apply owned_run in Ho as (_ & Es & Hm).
    apply fread_ok in Hx as (-> & Es1 & Ee1). apply forall_mapped. intros e Hin. apply list_elem_of_In, filter_In in Hin as [Hin Hb].
    apply andb_prop in Hb as [Hof%of_sub_id _]. exists e. split; [by apply list_elem_of_In|]. split; [done|]. rewrite Hof. unfold my_id in *. rewrite Es1, Es. by apply Hm.
Qed.
End Apart.

(** ** Witnesses *)

Definition hosts : Type := list IcsResponse.
#[local] Instance feed_hosts : MediaNet hosts := {| media_lookup _ _ n := (Ok [V4 93 184 216 34], n); media_get _ n := (Err "refused", n) |}.
#[local] Instance feed_replies : IcsNet hosts := fun _ n => match n with r :: n => (Ok r, n) | [] => (Err "connection refused", []) end.
#[local] Instance no_gzip : GzipLib := fun _ => Err "corrupt deflate stream".
Definition vevent (uid summary : string) : string :=
  "BEGIN:VEVENT" +:+ crlf +:+ "UID:" +:+ uid +:+ crlf +:+ "SUMMARY:" +:+ summary +:+ crlf +:+ "DTSTART;VALUE=DATE:20260101" +:+ crlf +:+ "END:VEVENT" +:+ crlf.
Definition a_feed (events : string) : string :=
  "BEGIN:VCALENDAR" +:+ crlf +:+ "X-WR-CALNAME:Holidays" +:+ crlf +:+ events +:+ "END:VCALENDAR" +:+ crlf.
Definition two_days : string := a_feed (vevent "a1" "New Year" +:+ vevent "a2" "Labour Day").
(** A changed instance of a repeating event has the UID of the event. *)
Definition moved_day : string := a_feed (vevent "a1" "Standup" +:+ vevent "a1" "Standup, moved" +:+ vevent "a3" "Review").
Definition served_feed (text : string) : IcsResponse := mkIcsResp 200 (Some "v2") None (Ok text).
Definition a_sub (id user url name : string) : SubscriptionRow := mkSub id user url name None None None None None true "" "".
Definition cached (id sub uid : string) : SubEventRow := mkSubEvent id sub uid "" "Old" "" None None "" false "" "".
Definition feed_start (replies : hosts) : feeds hosts :=
  mkFeeds box_mail [a_sub "s1" "u1" "https://cal.example/a.ics" "Mine"; a_sub "s2" "u2" "https://cal.example/a.ics" "Theirs"]
    [cached "e1" "s1" "a9"; cached "e2" "s2" "a1"] replies.
Lemma feed_start_sound replies : feeds_sound (feed_start replies).
Proof.
  split.
  1,2: apply table_toy; first [apply (bool_decide_eq_true_1 _); vm_compute; reflexivity|repeat constructor].
  intros e Hin. cbn in Hin. apply list_elem_of_In in Hin. destruct Hin as [<-|[<-|[]]]; cbn; set_solver.
Qed.
Definition refreshed := refresh_subscription "s1" (feed_start [served_feed two_days]).
Lemma refresh_follows_feed_witness :
  fst refreshed = Ok 2%nat /\ map (fun e => (se_subscription e, se_summary e)) (fd_events (snd refreshed)) = [("s2", "Old"); ("s1", "New Year"); ("s1", "Labour Day")] /\
  exists new, fd_events (snd refreshed) = (other_events "s1" (feed_start [served_feed two_days]) ++ new)%list.
Proof.
  split; [vm_compute; reflexivity|]. split; [vm_compute; reflexivity|].
  set (text := (two_days, Some "v2", None : option string)). set (w := feed_start [served_feed two_days]).
  assert (Hfetch : fst (fetch_ics_body (su_url (a_sub "s1" "u1" "https://cal.example/a.ics" "Mine")) (fd_net w)) = Ok text) by (vm_compute; reflexivity).
  destruct (refresh_follows_feed "s1" (a_sub "s1" "u1" "https://cal.example/a.ics" "Mine") (Ok text) w) as (r & w' & Hr & _ & Hm);
    [reflexivity|vm_compute; reflexivity|exact Hfetch|].
  unfold refreshed. fold w. rewrite Hr. unfold text in Hm.
  assert (Hp : is_ok (parse_ics_feed two_days) = true) by (vm_compute; reflexivity).
  destruct (parse_ics_feed two_days) as [feed|e]; [|discriminate Hp]. destruct Hm as (new & Hev & _). exists new. exact Hev.
Defined.
Definition refreshed_one := sub_route "u1" (RefreshSub "s1") (feed_start [served_feed two_days]).
Lemma subscriptions_stay_apart_witness :
  fst refreshed_one = Ok SubDone /\ feeds_sound (snd refreshed_one) /\ subs_spared "u1" (feed_start [served_feed two_days]) (snd refreshed_one).
Proof.
  assert (Hr : sub_route "u1" (RefreshSub "s1") (feed_start [served_feed two_days]) = (Ok SubDone, snd refreshed_one)) by (vm_compute; reflexivity).
  split; [vm_compute; reflexivity|].
  pose proof (subscriptions_stay_apart "u1" (RefreshSub "s1") _ _ _ (feed_start_sound [served_feed two_days]) Hr) as Hown.
  exact (conj (proj1 Hown) (proj1 (proj2 Hown))).
Defined.

(** A feed with a repeated UID: the events after it are lost, the refresh fails, the row shows no error and is due at once again. *)
Definition repeated := refresh_subscription "s1" (feed_start [served_feed moved_day]).
Lemma repeated_uid_loses_events :
  is_ok (fst repeated) = false /\ map se_summary (List.filter (of_sub "s1") (fd_events (snd repeated))) = ["Standup"] /\
  map (fun s => (su_last_error s, su_last_fetched_at s)) (fd_subs (snd repeated)) = [(None, None); (None, None)].
Proof. split_and!; vm_compute; reflexivity. Qed.
(** A time in a named zone is dropped. *)
Lemma zoned_time_dropped : normalize_ics_dt "20260904T100000" = Ok None.
Proof. vm_compute. reflexivity. Qed.
(** A folded line loses the blank that opens its continuation. *)
Lemma folded_blank_lost : unfold_ical ("SUMMARY:New" +:+ crlf +:+ "  Year") = "SUMMARY:NewYear".
Proof. vm_compute. reflexivity. Qed.
(** A closing line alone makes an event. *)
Lemma stray_end_makes_event : option_map (fun f => map ie_uid (if_events f)) (rok (parse_ics_feed "END:VEVENT")) = Some ["lyra-ics-unknown"].
Proof. vm_compute. reflexivity. Qed.
(** A name the user gave lasts until the next refresh. *)
Lemma refresh_undoes_rename :
  map su_name (fd_subs (snd (refresh_subscription "s1" (snd (update_subscription "u1" "s1" (mkUpdateSub (Some "My days") None None)
    (feed_start [served_feed two_days])))))) = ["Holidays"; "Theirs"].
Proof. vm_compute. reflexivity. Qed.
(** A date with a letter of two bytes panics. *)
Lemma odd_feed_date_panics : normalize_ics_dt ("202" +:+ String (ascii_of_N 195) (String (ascii_of_N 169) "0101T000000Z")) = Err (DavPanic "slice").
Proof. vm_compute. reflexivity. Qed.
