(* ===== verification/OpenPgp.v ===== *)
(** * OpenPGP keys and outgoing mail ([opengpg/keys.rs], [opengpg/store.rs], [opengpg/send.rs])

    The keys of a user, bound to mail accounts or shared, and the wrapping of an outgoing mail:
    signed by the identity of the sending account, encrypted to a key of every recipient, with
    the public key attached.  The rPGP crate is the class [PgpLib]: a key is what the code reads
    of it.  Ids are text, as on SQLite; the two timestamps of a key are left out.  [pw_fuse]
    counts the statements left before the database closes; [pw_seq] numbers the UUIDs and
    the random generators. *)
From S2P Require Import Prelude Kv Crypto UnlockRing World Toy Session Labels Jobs Netsec MailStore Imap ImapLoop Blobs Jmap JmapLoop Spam OAuth Ai Dav.
Local Open Scope string_scope.
Local Open Scope Z_scope.

Inductive KeyAlgorithm := Rsa4096 | Ed25519.
Record ParsedKey := mkParsed {
  pa_fingerprint : string; pa_primary_email : string; pa_emails : list string; pa_is_secret : bool; pa_revoked : bool; pa_key_data : string }.
Inductive OpengpgError :=
  | InvalidKey (m : string) | NoEmail | PgpDatabase | PgpInput (m : string) | PgpNotFound | PgpConflict (m : string)
  | PgpUnauthorized (m : string) | PgpTooMany | PgpPanic.

(** What the code reads of a parsed key: its User IDs, whether it carries a revocation, its
    public subkeys. *)
Record PgpKey := mkPgpKey {
  pk_fingerprint : string; pk_users : list string; pk_revocations : bool; pk_subkeys : list string; pk_material : string }.
(** The crate; a number names the random generator of the call. *)
Class PgpLib := {
  secret_from_string : string -> result string PgpKey;                   (* [SignedSecretKey::from_string] *)
  public_from_string : string -> result string PgpKey;                   (* [SignedPublicKey::from_string] *)
  public_armor : PgpKey -> result string string;                         (* [to_public_key().to_armored_string] *)
  generate_armor : N -> string -> string -> KeyAlgorithm -> result string string;   (* User ID, passphrase *)
  unlock_primary : PgpKey -> string -> result string unit;
  sign_detached : N -> PgpKey -> string -> string -> result string string;          (* passphrase, data *)
  encrypt_to_key : string -> result string unit;                         (* a recipient's subkey is usable *)
  seal_armor : N -> string -> list string -> result string string;       (* data, subkeys *)
}.

(** ** [opengpg/keys.rs] *)

Definition parse_algorithm (s : string) : result OpengpgError KeyAlgorithm :=
  let s := to_ascii_lowercase (trim s) in
  if existsb (String.eqb s) [""; "rsa4096"; "rsa-4096"; "rsa"] then Ok Rsa4096
  else if existsb (String.eqb s) ["ed25519"; "cv25519"; "curve25519"] then Ok Ed25519
  else Err (PgpInput ("unsupported algorithm '" +:+ s +:+ "' (use rsa4096 or ed25519)")).

(** Occurrences of a text that cannot overlap itself. *)
Fixpoint count_str (p s : string) : nat :=
  ((if starts_with p s then 1 else 0) + match s with "" => 0 | String _ s' => count_str p s' end)%nat.
Definition reject_multi_secret_bundle (armored : string) : result OpengpgError unit :=
  let lower := to_ascii_uppercase armored in
  let secrets := (count_str "BEGIN PGP PRIVATE KEY BLOCK" lower + count_str "BEGIN PGP SECRET KEY BLOCK" lower)%nat in
  if (1 <? secrets)%nat then Err (PgpInput "multi-secret key bundles are not supported; import one key at a time") else Ok tt.

(** [Name <user@host>] or a bare address. *)
Definition bare_email (uid : string) : option string :=
  if contains_char "@" uid && negb (contains_char " " uid) then Some uid else None.
Definition extract_email (uid : string) : option string :=
  let uid := trim uid in
  match find_char "<" uid with
  | Some start =>
      end_ ← rfind_char ">" uid;
      let email := trim (stake (end_ - S start) (sdrop (S start) uid)) in
      if (S start <? end_)%nat && contains_char "@" email then Some email else bare_email uid
  | None => bare_email uid
  end.

Section Keys.
Context `{PgpLib} `{StoreLib} `{UpperLib}.

Definition add_new (s : string) (out : list string) : list string := if existsb (String.eqb s) out then out else (out ++ [s])%list.
Definition collect_emails (users : list string) : list string :=
  foldl (fun out uid => match extract_email (from_utf8_lossy uid) with Some email => add_new (to_lowercase email) out | None => out end) [] users.
Definition parsed_from_details (k : PgpKey) (is_secret : bool) (key_data : string) : result OpengpgError ParsedKey :=
  let emails := collect_emails (pk_users k) in
  let? primary_email := ok_or NoEmail (head emails) in
  Ok (mkParsed (to_uppercase (pk_fingerprint k)) primary_email emails is_secret (pk_revocations k) key_data).
Definition parse_armored_key (armored : string) : result OpengpgError ParsedKey :=
  let trimmed := trim armored in
  if is_empty trimmed then Err (InvalidKey "empty armored key") else
  let? _ := reject_multi_secret_bundle trimmed in
  match secret_from_string trimmed with
  | Ok secret => parsed_from_details secret true trimmed
  | Err _ =>
      let? public := rmap_err InvalidKey (public_from_string trimmed) in
      parsed_from_details public false trimmed
  end.
Definition generate_keypair (rng : N) (email name pass : string) (algorithm : KeyAlgorithm) : result OpengpgError ParsedKey :=
  let email := to_lowercase (trim email) in
  if negb (contains_char "@" email) then Err (PgpInput "email must be an address") else
  if is_empty pass then Err (PgpInput "passphrase is required for key generation") else
  let name := trim name in
  let uid := if is_empty name then "<" +:+ email +:+ ">" else name +:+ " <" +:+ email +:+ ">" in
  let? armor := rmap_err InvalidKey (generate_armor rng uid pass algorithm) in
  parse_armored_key armor.
Definition public_armored_from_stored (key_data : string) : result OpengpgError string :=
  let trimmed := trim key_data in
  match secret_from_string trimmed with
  | Ok secret => rmap_err InvalidKey (public_armor secret)
  | Err _ => let? _ := rmap_err InvalidKey (public_from_string trimmed) in Ok trimmed
  end.
Definition verify_secret_passphrase (key_data pass : string) : result OpengpgError unit :=
  let? secret := rmap_err InvalidKey (secret_from_string (trim key_data)) in
  rmap_err (fun e => PgpInput ("passphrase rejected: " +:+ e)) (unlock_primary secret pass).
End Keys.

(** ** [opengpg/store.rs] *)

(** A row of [opengpg_key]; [ok_emails] is its JSON column. *)
Record KeyRow := mkKeyRow {
  ok_id : string; ok_user : string; ok_account : option string; ok_fingerprint : string; ok_primary_email : string; ok_emails : Json;
  ok_is_secret : bool; ok_is_primary : bool; ok_revoked : bool; ok_key_data : string }.
Record StoredKey := mkStored {
  sk_id : string; sk_user_id : string; sk_account_id : option string; sk_fingerprint : string; sk_primary_email : string;
  sk_emails : list string; sk_is_secret : bool; sk_is_primary : bool; sk_revoked : bool; sk_key_data : string }.
Record OwnedAccount := mkOwned { oa_email_address : string; oa_display_name : option string }.

Definition json_list (v : Json) : list string := match v with JArray l => default [] (mapM json_str l) | _ => [] end.
Definition stored_key_from_row (r : KeyRow) : StoredKey :=
  mkStored (ok_id r) (ok_user r) (ok_account r) (ok_fingerprint r) (ok_primary_email r) (json_list (ok_emails r)) (ok_is_secret r)
    (ok_is_primary r) (ok_revoked r) (ok_key_data r).
Definition set_is_primary (b : bool) (r : KeyRow) : KeyRow :=
  mkKeyRow (ok_id r) (ok_user r) (ok_account r) (ok_fingerprint r) (ok_primary_email r) (ok_emails r) (ok_is_secret r) b (ok_revoked r)
    (ok_key_data r).
Definition set_key_account (a : option string) (r : KeyRow) : KeyRow :=
  mkKeyRow (ok_id r) (ok_user r) a (ok_fingerprint r) (ok_primary_email r) (ok_emails r) (ok_is_secret r) (ok_is_primary r) (ok_revoked r)
    (ok_key_data r).

Record pgp_world (K R : Type) := mkPgp {
  pw_auth : world K R; pw_rows : list MailAccountRow; pw_keys : list KeyRow; pw_seq : N; pw_fuse : option nat }.
Arguments mkPgp {K R}. Arguments pw_auth {K R}. Arguments pw_rows {K R}. Arguments pw_keys {K R}. Arguments pw_seq {K R}. Arguments pw_fuse {K R}.

Definition emails_match (address : string) (emails : list string) : bool := existsb (fun e => eq_ignore_ascii_case e address) emails.
Definition ensure_emails_match_account (emails : list string) (is_secret : bool) (owned : OwnedAccount) : result OpengpgError unit :=
  if negb is_secret || emails_match (oa_email_address owned) emails then Ok tt
  else Err (PgpInput ("secret key must carry the account address " +:+ oa_email_address owned)).

Section Store.
Context {K R : Type} `{PgpLib} `{StoreLib} `{UpperLib}.
Local Abbreviation W := (pgp_world K R).
Local Abbreviation M := (io W OpengpgError).
Implicit Types w : W.

Definition set_pgp_auth a w : W := mkPgp a (pw_rows w) (pw_keys w) (pw_seq w) (pw_fuse w).
Definition set_keys l w : W := mkPgp (pw_auth w) (pw_rows w) l (pw_seq w) (pw_fuse w).
Definition set_pgp_fuse n w : W := mkPgp (pw_auth w) (pw_rows w) (pw_keys w) (pw_seq w) n.
(** One statement. *)
Definition kstmt {A} (f : W -> result OpengpgError A * W) : M A := fun w =>
  match pw_fuse w with
  | Some O => (Err PgpDatabase, w)
  | fuse => f (set_pgp_fuse (option_map pred fuse) w)
  end.
Definition kread {A} (f : W -> A) : M A := kstmt (fun w => (Ok (f w), w)).
Definition edit_keys (p : KeyRow -> bool) (f : KeyRow -> KeyRow) : M unit :=
  kstmt (fun w => (Ok tt, set_keys (map (fun r => if p r then f r else r) (pw_keys w)) w)).
(** The next UUID or random generator. *)
Definition draw_number : M N := fun w => (Ok (pw_seq w), mkPgp (pw_auth w) (pw_rows w) (pw_keys w) (pw_seq w + 1)%N (pw_fuse w)).

Definition users_key (user_id key_id : string) (r : KeyRow) : bool := String.eqb (ok_id r) key_id && String.eqb (ok_user r) user_id.
(** [bucket_where], with the user. *)
Definition in_bucket (user_id : string) (account_id : option string) (r : KeyRow) : bool :=
  String.eqb (ok_user r) user_id && bool_decide (ok_account r = account_id).
Definition key_le (a b : KeyRow) : bool :=
  if ok_is_primary a then if ok_is_primary b then text_le (ok_primary_email a) (ok_primary_email b) else true
  else if ok_is_primary b then false else text_le (ok_primary_email a) (ok_primary_email b).
Definition list_keys (user_id : string) (account_id : option string) : M (list StoredKey) :=
  kread (fun w => map stored_key_from_row (order_by key_le (List.filter
    (fun r => String.eqb (ok_user r) user_id && match account_id with Some a => bool_decide (ok_account r = Some a) | None => true end) (pw_keys w)))).
Definition get_key (user_id key_id : string) : M (option StoredKey) :=
  kread (fun w => option_map stored_key_from_row (List.find (users_key user_id key_id) (pw_keys w))).
Definition require_key (user_id key_id : string) : M StoredKey :=
  let! found := get_key user_id key_id in lift (ok_or PgpNotFound found).

Definition load_owned_account (user_id account_id : string) : M OwnedAccount :=
  let! found := kread (fun w => List.find (fun r => account_is account_id r && String.eqb (ma_user_id r) user_id) (pw_rows w)) in
  lift (ok_or (PgpInput "accountId does not reference one of your accounts")
          (option_map (fun r => mkOwned (ma_email_address r) (ma_display_name r)) found)).
Definition validate_account_binding (user_id account_id : string) (key_emails : list string) (is_secret : bool) : M OwnedAccount :=
  let! owned := load_owned_account user_id account_id in
  let! _ := lift (ensure_emails_match_account key_emails is_secret owned) in
  ret owned.

(** [UPDATE ... SET is_primary = FALSE] for the user's keys of one account, or of none. *)
Definition demote_bucket (user_id : string) (account_id : option string) : M unit :=
  edit_keys (in_bucket user_id account_id) (set_is_primary false).
(** The primary key, and the unique index over user and fingerprint. *)
Definition clashes (r x : KeyRow) : bool :=
  String.eqb (ok_id x) (ok_id r) || String.eqb (ok_user x) (ok_user r) && String.eqb (ok_fingerprint x) (ok_fingerprint r).
Definition insert_row (r : KeyRow) : M unit := kstmt (fun w =>
  if existsb (clashes r) (pw_keys w)
  then (Err (PgpConflict "fingerprint already imported"), w)
  else (Ok tt, set_keys (pw_keys w ++ [r])%list w)).
Definition insert_key (user_id : string) (parsed : ParsedKey) (is_primary : bool) (account_id : option string) : M StoredKey :=
  let! _ := match account_id with
            | Some a => let! _ := validate_account_binding user_id a (pa_emails parsed) (pa_is_secret parsed) in ret tt
            | None => if pa_is_secret parsed then throw (PgpInput "identity (secret) keys must be bound to one of your accounts") else ret tt
            end in
  let! n := draw_number in
  let id := store_uuid n in
  let! _ := when is_primary (demote_bucket user_id account_id) in
  let! _ := insert_row (mkKeyRow id user_id account_id (pa_fingerprint parsed) (pa_primary_email parsed)
                          (JArray (map JString (pa_emails parsed))) (pa_is_secret parsed) is_primary (pa_revoked parsed) (pa_key_data parsed)) in
  require_key user_id id.
Definition import_armored (user_id armored : string) (is_primary : bool) (account_id : option string) : M StoredKey :=
  let! parsed := lift (parse_armored_key armored) in
  insert_key user_id parsed is_primary account_id.

Definition export_armored (user_id key_id : string) : M string :=
  let! key := require_key user_id key_id in ret (sk_key_data key).
Definition export_public_armored (user_id key_id : string) : M string :=
  let! key := require_key user_id key_id in lift (public_armored_from_stored (sk_key_data key)).

Definition set_account_binding (user_id key_id : string) (new_account_id : option string) : M StoredKey :=
  let! existing := require_key user_id key_id in
  if bool_decide (new_account_id = None) && sk_is_secret existing
  then throw (PgpInput "identity keys stay bound to their account; delete the key instead") else
  let! _ := match new_account_id with
            | Some a => let! _ := validate_account_binding user_id a (sk_emails existing) (sk_is_secret existing) in ret tt
            | None => ret tt
            end in
  let! _ := edit_keys (users_key user_id key_id) (set_key_account new_account_id) in
  require_key user_id key_id.
(** Two statements, no transaction. *)
Definition set_primary (user_id key_id : string) : M StoredKey :=
  let! existing := require_key user_id key_id in
  let! _ := demote_bucket user_id (sk_account_id existing) in
  let! _ := edit_keys (users_key user_id key_id) (set_is_primary true) in
  require_key user_id key_id.
Definition delete_key (user_id key_id : string) : M unit :=
  let! existing := require_key user_id key_id in
  if sk_is_primary existing then throw (PgpInput "refuse deleting primary key; promote another first") else
  kstmt (fun w => (Ok tt, set_keys (List.filter (fun r => negb (users_key user_id key_id r)) (pw_keys w)) w)).
End Store.

(** ** [opengpg/send.rs] *)

Record OpengpgSendOptions := mkPgpOptions {
  so_sign : bool; so_encrypt : bool; so_attach_public_key : bool; so_signing_key_id : option string;
  so_recipient_key_ids : gmap string string }.
Record OpengpgMimeBody := mkMimeBody { mb_content_type : string; mb_body : string }.
Record RecipientKeyMatch := mkKeyMatch { rm_id : string; rm_fingerprint : string; rm_primary_email : string }.
Record RecipientKeyLookup := mkKeyLookup {
  rl_email : string; rl_keys : list RecipientKeyMatch; rl_ambiguous : bool; rl_selected_key_id : option string }.
Record OutboundDraft := mkOutboundDraft { od_body_text : option string; od_body_html : option string; od_recipients : list string }.

Definition part_header : string := "This is a multi-part message in MIME format." +:+ crlf +:+ crlf.
(** [.replace("\r\n", "\n").replace('\n', "\r\n")]. *)
Definition crlf_lines (s : string) : string := replace lf crlf (replace crlf lf s).
Definition delimiter (boundary : string) : string := "--" +:+ boundary +:+ crlf.
Definition closing (boundary : string) : string := "--" +:+ boundary +:+ "--" +:+ crlf.
Definition boundary_param (boundary : string) : string := "boundary=" +:+ dq +:+ boundary +:+ dq.
Definition inner_part (boundary : string) (payload : OpengpgMimeBody) : string :=
  part_header +:+ delimiter boundary +:+ "Content-Type: " +:+ mb_content_type payload +:+ crlf +:+ crlf +:+ mb_body payload.

Definition signed_body (b : string) (payload : OpengpgMimeBody) (armored : string) : OpengpgMimeBody :=
  mkMimeBody ("multipart/signed; protocol=" +:+ dq +:+ "application/pgp-signature" +:+ dq +:+ "; micalg=pgp-sha256; " +:+ boundary_param b)
    (inner_part b payload +:+ delimiter b +:+ "Content-Type: application/pgp-signature" +:+ crlf +:+ crlf +:+ armored +:+ crlf +:+ closing b).
Definition sealed_body (b encrypted : string) : OpengpgMimeBody :=
  mkMimeBody ("multipart/encrypted; protocol=" +:+ dq +:+ "application/pgp-encrypted" +:+ dq +:+ "; " +:+ boundary_param b)
    (part_header +:+ delimiter b +:+ "Content-Type: application/pgp-encrypted" +:+ crlf +:+ crlf +:+ "Version: 1" +:+ crlf +:+ crlf +:+
     delimiter b +:+ "Content-Type: application/octet-stream" +:+ crlf +:+ crlf +:+ encrypted +:+ crlf +:+ closing b).
Definition with_key_part (b : string) (payload : OpengpgMimeBody) (pub_armor : string) : OpengpgMimeBody :=
  let name := "name=" +:+ dq +:+ "public-key.asc" +:+ dq in
  mkMimeBody ("multipart/mixed; " +:+ boundary_param b)
    (inner_part b payload +:+ delimiter b +:+ "Content-Type: application/pgp-keys; " +:+ name +:+ crlf +:+
     "Content-Disposition: attachment; file" +:+ name +:+ crlf +:+ crlf +:+ pub_armor +:+ crlf +:+ closing b).

Section Send.
Context {K R : Type} `{PgpLib} `{StoreLib} `{UpperLib}.
Local Abbreviation W := (pgp_world K R).
Local Abbreviation M := (io W OpengpgError).
Implicit Types w : W.

Definition mime_boundary : M string :=
  let! n := draw_number in ret ("_lyra_" +:+ join "" (split_char "-" (store_uuid n))).
Definition build_inner_body (body_text body_html : option string) : M OpengpgMimeBody :=
  let text := crlf_lines (default "" body_text) in
  match nonempty body_html with
  | Some html =>
      let! b := mime_boundary in
      let part media body := delimiter b +:+ "Content-Type: text/" +:+ media +:+ "; charset=utf-8" +:+ crlf +:+
                             "Content-Transfer-Encoding: 8bit" +:+ crlf +:+ crlf +:+ body +:+ crlf in
      ret (mkMimeBody ("multipart/alternative; " +:+ boundary_param b)
             (part_header +:+ part "plain" text +:+ part "html" (crlf_lines html) +:+ closing b))
  | None => ret (mkMimeBody "text/plain; charset=utf-8" text)
  end.
Definition wrap_signed (payload : OpengpgMimeBody) (secret_armor pw : string) : M OpengpgMimeBody :=
  let! secret := lift (rmap_err InvalidKey (secret_from_string (trim secret_armor))) in
  let! rng := draw_number in
  let! armored := lift (rmap_err InvalidKey (sign_detached rng secret pw (mb_body payload))) in
  let! b := mime_boundary in
  ret (signed_body b payload armored).
(** The first public subkey of each recipient, if the builder takes it. *)
Fixpoint recipient_subkeys (recipients : list PgpKey) : result OpengpgError (list string) :=
  match recipients with
  | [] => Ok []
  | pk :: rest =>
      let? enc := ok_or (PgpInput "no encryption subkey for recipient public key") (head (pk_subkeys pk)) in
      let? _ := rmap_err InvalidKey (encrypt_to_key enc) in
      let? encs := recipient_subkeys rest in
      Ok (enc :: encs)
  end.
Definition wrap_encrypted (payload : OpengpgMimeBody) (recipients : list PgpKey) : M OpengpgMimeBody :=
  match recipients with
  | [] => throw (PgpInput "encrypt requires at least one recipient public key")
  | _ =>
      let! rng := draw_number in
      let! encs := lift (recipient_subkeys recipients) in
      let! encrypted := lift (rmap_err InvalidKey (seal_armor rng (mb_body payload) encs)) in
      let! b := mime_boundary in
      ret (sealed_body b encrypted)
  end.
Definition attach_public_key_part (payload : OpengpgMimeBody) (pub_armor : string) : M OpengpgMimeBody :=
  let! b := mime_boundary in ret (with_key_part b payload pub_armor).

Definition resolve_signing_key (keys : list StoredKey) (opts : OpengpgSendOptions) (sending_account_id : string)
    : result OpengpgError StoredKey :=
  let bound k := bool_decide (sk_account_id k = Some sending_account_id) in
  match so_signing_key_id opts with
  | Some id =>
      ok_or (PgpInput "signingKeyId must be a secret key bound to the sending account")
        (List.find (fun k => String.eqb (sk_id k) id && sk_is_secret k && bound k) keys)
  | None =>
      ok_or (PgpInput "this account has no OpenGPG key; add one in Settings → Encryption")
        (List.find (fun k => sk_is_secret k && sk_is_primary k && negb (sk_revoked k) && bound k) keys)
  end.

Definition key_serves (lower : string) (k : StoredKey) : bool := negb (sk_revoked k) && emails_match lower (sk_emails k).
Definition choose_key (keys : list StoredKey) (picks : gmap string string) (lower : string) : result OpengpgError StoredKey :=
  match List.filter (key_serves lower) keys with
  | [] => Err (PgpInput ("no public key for recipient " +:+ lower +:+ "; import their key first"))
  | [k] => Ok k
  | found =>
      let? pick := ok_or (PgpInput ("ambiguous keys for " +:+ lower +:+ "; specify recipientKeyIds")) (picks !! lower) in
      ok_or (PgpInput ("unknown key id for " +:+ lower)) (List.find (fun k => String.eqb (sk_id k) pick) found)
  end.
Fixpoint resolve_recipient_public_keys (keys : list StoredKey) (recipient_emails : list string) (picks : gmap string string)
    : result OpengpgError (list PgpKey) :=
  match recipient_emails with
  | [] => Ok []
  | email :: rest =>
      let lower := to_lowercase (trim email) in
      if negb (contains_char "@" lower) then resolve_recipient_public_keys keys rest picks else
      let? chosen := choose_key keys picks lower in
      let? armor := public_armored_from_stored (sk_key_data chosen) in
      let? pk := rmap_err InvalidKey (public_from_string armor) in
      let? pks := resolve_recipient_public_keys keys rest picks in
      Ok (pk :: pks)
  end.

Definition key_lookup (keys : list StoredKey) (lower : string) : RecipientKeyLookup :=
  let found := List.filter (key_serves lower) keys in
  let found := map (fun k => mkKeyMatch (sk_id k) (sk_fingerprint k) (sk_primary_email k)) found in
  mkKeyLookup lower found (1 <? length found)%nat (match found with [k] => Some (rm_id k) | _ => None end).
Definition lookup_recipient_keys (user_id : string) (emails : list string) : M (list RecipientKeyLookup) :=
  let! keys := list_keys user_id None in
  ret (map (key_lookup keys) (List.filter (contains_char "@") (map (fun e => to_lowercase (trim e)) emails))).

(** [UnlockRing::get] at the current instant. *)
Definition ring_get (session_token key_id : string) : M (option string) := fun w =>
  let a := pw_auth w in
  let '(found, r) := UnlockRing.get (w_now a) session_token key_id (w_unlock a) in (Ok found, set_pgp_auth (set_unlock r a) w).
Definition locked : OpengpgError := PgpInput "signing key is locked; unlock in Settings or reading pane".
Definition sign_payload (session_token : string) (stored : StoredKey) (payload : OpengpgMimeBody) : M OpengpgMimeBody :=
  let! pw := ring_get session_token (sk_id stored) in
  let! pw := lift (ok_or locked pw) in
  wrap_signed payload (sk_key_data stored) pw.
Definition seal_payload (keys : list StoredKey) (opts : OpengpgSendOptions) (recipients : list string) (payload : OpengpgMimeBody)
    : M OpengpgMimeBody :=
  let! pub_keys := lift (resolve_recipient_public_keys keys recipients (so_recipient_key_ids opts)) in
  wrap_encrypted payload pub_keys.
Definition attach_key (stored : StoredKey) (payload : OpengpgMimeBody) : M OpengpgMimeBody :=
  let! pub_armor := lift (public_armored_from_stored (sk_key_data stored)) in
  attach_public_key_part payload pub_armor.
(** [signing.expect]: it was resolved when signing or attaching was asked for. *)
Definition with_identity (signing : option StoredKey) (f : StoredKey -> M OpengpgMimeBody) : M OpengpgMimeBody :=
  match signing with Some stored => f stored | None => throw PgpPanic end.
Definition wrap_outbound_opengpg (user_id session_token sending_account_id : string) (opts : OpengpgSendOptions) (draft : OutboundDraft)
    : M (option OpengpgMimeBody) :=
  if negb (so_sign opts) && negb (so_encrypt opts) && negb (so_attach_public_key opts) then ret None else
  if so_encrypt opts && bool_decide (od_recipients draft = []) then throw (PgpInput "encrypt requires at least one recipient") else
  let! keys := list_keys user_id None in
  let! payload := build_inner_body (od_body_text draft) (od_body_html draft) in
  let! signing := if so_sign opts || so_attach_public_key opts
                  then let! k := lift (resolve_signing_key keys opts sending_account_id) in ret (Some k) else ret None in
  let! payload := if so_sign opts then with_identity signing (fun k => sign_payload session_token k payload) else ret payload in
  let! payload := if so_encrypt opts then seal_payload keys opts (od_recipients draft) payload else ret payload in
  let! payload := if so_attach_public_key opts then with_identity signing (fun k => attach_key k payload) else ret payload in
  ret (Some payload).

(** A recipient as the client gave it. *)
Definition recipient_email (v : Json) : option string :=
  match json_str v with
  | Some s => or_else (extract_email s) (Some s)
  | None => json_field "email" v ≫= json_str
  end.
Definition collect_recipient_emails (values : list Json) : list string :=
  foldl (fun out v => match recipient_email v with
                      | Some e => let lower := to_lowercase e in if contains_char "@" lower then add_new lower out else out
                      | None => out
                      end) [] values.
End Send.

(** ** The keyring *)

Section Keyring.
Context {K R : Type} `{PgpLib} `{StoreLib} `{UpperLib}.
Local Abbreviation W := (pgp_world K R).
Local Abbreviation M := (io W OpengpgError).
Implicit Types w : W.

(** A secret key belongs to an account of its user and carries the address of that account. *)
Definition bound_right (accounts : list MailAccountRow) (r : KeyRow) : Prop :=
  ok_is_secret r = true -> exists acc, acc ∈ accounts /\ ok_account r = Some (ma_id acc) /\ ma_user_id acc = ok_user r /\
    emails_match (ma_email_address acc) (json_list (ok_emails r)) = true.
Record keyring_ok w : Prop := {
  kr_ids : NoDup (ok_id <$> pw_keys w);
  kr_prints : NoDup ((fun r => (ok_user r, ok_fingerprint r)) <$> pw_keys w);
  kr_bound : Forall (bound_right (pw_rows w)) (pw_keys w) }.
Definition keys_of_others (user : string) (l : list KeyRow) : list KeyRow := List.filter (fun r => negb (String.eqb (ok_user r) user)) l.
Definition untouched w w' : Prop := pw_rows w' = pw_rows w /\ pw_keys w' = pw_keys w.
Definition keyring_step (user : string) w w' : Prop :=
  pw_rows w' = pw_rows w /\ keys_of_others user (pw_keys w') = keys_of_others user (pw_keys w) /\ (keyring_ok w -> keyring_ok w').
#[local] Instance untouched_pre : PreOrder untouched.
Proof. split; [done|]. intros x y z [A B] [C D]. unfold untouched. by rewrite C, D. Qed.
#[local] Instance keyring_step_pre user : PreOrder (keyring_step user).
Proof. split; [done|]. intros x y z (A & B & C) (D & E & F). split; [congruence|]. split; [congruence|]. auto. Qed.
Lemma untouched_step user w w' : untouched w w' -> keyring_step user w w'.
Proof using Type. intros [Hr Hk]. unfold keyring_step. rewrite Hr, Hk. split; [done|]. split; [done|]. intros [Hi Hp Hb]. split; by rewrite ?Hr, Hk. Qed.

Lemma json_list_strings l : json_list (JArray (map JString l)) = l.
Proof using Type. cbn. replace (mapM json_str (map JString l)) with (Some l); [done|]. induction l as [|x l IH]; [done|]. cbn in *. by rewrite <-IH. Qed.

Lemma reads_untouched {A} (f : W -> A) : preserves untouched (kread f).
Proof using Type. intros w r w'. unfold kread, kstmt. destruct (pw_fuse w) as [[|n]|]; by intros [= _ <-]. Qed.
Lemma draw_untouched : preserves untouched (draw_number (K := K) (R := R)).
Proof using Type. by intros w r w' [= _ <-]. Qed.
Hint Resolve reads_untouched draw_untouched : preserve.
Lemma require_untouched u k : preserves untouched (require_key (K := K) (R := R) u k).
Proof using Type. unfold require_key, get_key. preserve. Qed.
Lemma owned_untouched u a : preserves untouched (load_owned_account (K := K) (R := R) u a).
Proof using Type. unfold load_owned_account. preserve. Qed.
Hint Resolve require_untouched owned_untouched : preserve.
Lemma validate_untouched u a es s : preserves untouched (validate_account_binding (K := K) (R := R) u a es s).
Proof using Type. unfold validate_account_binding. preserve. Qed.
Hint Resolve validate_untouched : preserve.
Lemma read_is {A} (f : W -> A) w a w' : (forall n, f (set_pgp_fuse n w) = f w) -> kread f w = (Ok a, w') -> a = f w.
Proof using Type. unfold kread, kstmt. intros Hf. destruct (pw_fuse w) as [[|n]|]; intros [=]; subst; by rewrite Hf. Qed.

Lemma validated u a es s w o w' : validate_account_binding u a es s w = (Ok o, w') ->
  exists acc, acc ∈ pw_rows w /\ ma_id acc = a /\ ma_user_id acc = u /\ oa_email_address o = ma_email_address acc /\
    (s = true -> emails_match (ma_email_address acc) es = true).
Proof using Type.
  unfold validate_account_binding, load_owned_account. intros (o' & w1 & (found & w2 & Hf & Hl)%bind_Ok & (t & w3 & He & [= -> ->])%bind_Ok)%bind_Ok.
  apply read_is in Hf as ->; [|done]. unfold lift in *. injection Hl as Hl ->. injection He as He ->.
  destruct (List.find _ (pw_rows w)) as [acc|] eqn:Hfind; [|done]. injection Hl as <-. apply find_some in Hfind as [Hin [Ha Hu]%andb_true_iff].
  exists acc. split; [by apply list_elem_of_In|]. apply String.eqb_eq in Ha, Hu. split; [done|]. split; [done|]. split; [done|].
  intros ->. unfold ensure_emails_match_account in He. cbn [negb orb oa_email_address] in He. by destruct (emails_match (ma_email_address acc) es).
Qed.
Lemma required u k w x w' : require_key u k w = (Ok x, w') ->
  exists r, r ∈ pw_keys w /\ x = stored_key_from_row r /\ ok_id r = k /\ ok_user r = u.
Proof using Type.
  unfold require_key, get_key. intros (found & w1 & Hf & Hl)%bind_Ok. apply read_is in Hf as ->; [|done]. unfold lift in Hl. injection Hl as Hl _.
  destruct (List.find _ (pw_keys w)) as [r|] eqn:Hfind; [|done]. injection Hl as <-. apply find_some in Hfind as [Hin [Hi Hu]%andb_true_iff].
  exists r. apply String.eqb_eq in Hi, Hu. split; [by apply list_elem_of_In|]. done.
Qed.

Lemma edit_step user (p : KeyRow -> bool) f w :
  (forall r, p r = true -> ok_user r = user) ->
  (forall r, ok_id (f r) = ok_id r /\ ok_user (f r) = ok_user r /\ ok_fingerprint (f r) = ok_fingerprint r) ->
  (keyring_ok w -> forall r, r ∈ pw_keys w -> p r = true -> bound_right (pw_rows w) (f r)) ->
  forall r w', edit_keys p f w = (r, w') -> keyring_step user w w'.
Proof using Type.
  intros Hp Hf Hb r w'. unfold edit_keys, kstmt.
  assert (Hstep : keyring_step user w (set_keys (map (fun r => if p r then f r else r) (pw_keys w)) w)).
  { assert (Hsame : forall B (g : KeyRow -> B), (forall r, g (f r) = g r) ->
        g <$> map (fun r => if p r then f r else r) (pw_keys w) = g <$> pw_keys w).
    { intros B g Hg. clear Hb. induction (pw_keys w) as [|x l IH]; [done|]. cbn. f_equal; [destruct (p x); [by rewrite Hg|done]|exact IH]. }
    split; [done|]. split.
    - cbn. clear Hsame Hb. unfold keys_of_others. induction (pw_keys w) as [|x l IH]; [done|]. cbn. rewrite IH. destruct (p x) eqn:Hx; [|done].
      destruct (Hf x) as (_ & -> & _). by rewrite (Hp x Hx), String.eqb_refl.
    - intros Hok. destruct (Hok) as [Hi Hn Hbr]. split; cbn.
      + rewrite Hsame; [done|]. intros x. by destruct (Hf x) as (-> & _).
      + rewrite Hsame; [done|]. intros x. by destruct (Hf x) as (_ & -> & ->).
      + apply Forall_forall. intros y (x & -> & Hx)%list_elem_of_fmap. destruct (p x) eqn:Hpx; [by apply Hb|].
        by apply (proj1 (Forall_forall _ _) Hbr). }
  destruct (pw_fuse w) as [[|n]|]; intros [= _ <-]; [done|..]; (etrans; [exact Hstep|by apply untouched_step]).
Qed.

Lemma demote_step user a : preserves (keyring_step user) (demote_bucket (K := K) (R := R) user a).
Proof using Type.
  intros w. apply edit_step; [by intros r [Hu%String.eqb_eq _]%andb_true_iff|done|].
  intros [_ _ Hb] r Hr _. exact (proj1 (Forall_forall _ _) Hb r Hr).
Qed.
Lemma insert_row_step user r w : ok_user r = user -> bound_right (pw_rows w) r ->
  forall x w', insert_row r w = (x, w') -> keyring_step user w w'.
Proof using Type.
  intros Hu Hb x w'. unfold insert_row, kstmt.
  assert (Hstep : existsb (clashes r) (pw_keys w) = false -> keyring_step user w (set_keys (pw_keys w ++ [r])%list w)).
  { intros Hn. assert (Hfree : forall y, y ∈ pw_keys w -> ok_id y <> ok_id r /\ (ok_user y, ok_fingerprint y) <> (ok_user r, ok_fingerprint r)).
    { intros y Hy. assert (clashes r y = false) as [Hi Hp]%orb_false_iff.
      { apply not_true_iff_false. intros Hc. apply not_true_iff_false in Hn. apply Hn, existsb_exists. exists y. split; [by apply list_elem_of_In|done]. }
      split; [by apply String.eqb_neq|]. intros [= E1 E2]. by rewrite E1, E2, !String.eqb_refl in Hp. }
    split; [done|]. split.
    - cbn. unfold keys_of_others. rewrite List.filter_app. cbn. by rewrite Hu, String.eqb_refl, app_nil_r.
    - intros [Hi Hp Hbr]. split; cbn.
      + rewrite fmap_app. apply NoDup_app. split; [done|]. split; [|apply NoDup_singleton].
        intros i (y & -> & Hy)%list_elem_of_fmap Hi'%list_elem_of_singleton. by destruct (Hfree y Hy).
      + rewrite fmap_app. apply NoDup_app. split; [done|]. split; [|apply NoDup_singleton].
        intros i (y & -> & Hy)%list_elem_of_fmap Hi'%list_elem_of_singleton. by destruct (Hfree y Hy).
      + apply Forall_app. split; [done|]. by apply Forall_singleton. }
  destruct (pw_fuse w) as [[|n]|]; [by intros [= _ <-]|..]; cbn; destruct (existsb _ _); intros [= _ <-];
    try (by apply untouched_step); (etrans; [by apply Hstep|by apply untouched_step]).
Qed.
Lemma binding_step user k a w : (forall x, x ∈ pw_keys w -> ok_id x = k -> ok_user x = user -> keyring_ok w -> bound_right (pw_rows w) (set_key_account a x)) ->
  forall r w', edit_keys (users_key user k) (set_key_account a) w = (r, w') -> keyring_step user w w'.
Proof using Type.
  intros Hb. apply edit_step; [by intros r [_ Hu%String.eqb_eq]%andb_true_iff|done|].
  intros Hok r Hr [Hi%String.eqb_eq Hu%String.eqb_eq]%andb_true_iff. by apply Hb.
Qed.

Lemma insert_key_step user parsed p a : preserves (keyring_step user) (insert_key (K := K) (R := R) user parsed p a).
Proof using Type.
  intros w r w'. unfold insert_key. intros [(e & Hv & _)|(t & w1 & Hv & Hrest)]%bind_inv.
  { apply untouched_step. revert Hv. destruct a as [a|]; [|destruct (pa_is_secret parsed)].
    - apply (pres_bind untouched); [apply validate_untouched|]. intros ?. apply pres_ret, _.
    - apply pres_throw, _.
    - apply pres_ret, _. }
  assert (Hw : untouched w w1 /\ (pa_is_secret parsed = true -> exists acc, acc ∈ pw_rows w /\ a = Some (ma_id acc) /\ ma_user_id acc = user /\
      emails_match (ma_email_address acc) (pa_emails parsed) = true)).
  { destruct a as [a|]; [|by destruct (pa_is_secret parsed); [|injection Hv as _ <-]].
    apply bind_Ok in Hv as (o & w2 & Hv & [= _ <-]). split; [by eapply validate_untouched|].
    intros Hs. apply validated in Hv as (acc & Hin & <- & Hu & _ & He). exists acc. auto. }
  destruct Hw as [Hw1 Hbound]. etrans; [by apply untouched_step, Hw1|]. destruct Hw1 as [Hrows _]. rewrite <-Hrows in Hbound. clear Hv Hrows w.
  apply bind_inv in Hrest as [(e & Hd & _)|(n & w2 & Hd & Hrest)]; [by eapply untouched_step, draw_untouched|].
  etrans; [by eapply untouched_step, draw_untouched|]. apply draw_untouched in Hd as [Hrows _]. rewrite <-Hrows in Hbound.
  assert (Hdem : preserves (keyring_step user) (when p (demote_bucket (K := K) (R := R) user a))) by (apply pres_when; [apply _|apply demote_step]).
  apply bind_inv in Hrest as [(e & Hd & _)|(? & w3 & Hd & Hrest)]; [by eapply Hdem|].
  apply Hdem in Hd. etrans; [exact Hd|]. destruct Hd as [Hrows3 _]. rewrite <-Hrows3 in Hbound.
  assert (Hins : forall x w4, insert_row (mkKeyRow (store_uuid n) user a (pa_fingerprint parsed) (pa_primary_email parsed)
      (JArray (map JString (pa_emails parsed))) (pa_is_secret parsed) p (pa_revoked parsed) (pa_key_data parsed)) w3 = (x, w4) -> keyring_step user w3 w4).
  { intros y w4. apply insert_row_step; [done|]. intros Hs. destruct (Hbound Hs) as (acc & Hin & -> & Hu & He). exists acc.
    split; [done|]. split; [done|]. split; [done|]. cbn [ok_emails]. by rewrite json_list_strings. }
  apply bind_inv in Hrest as [(e & Hd & _)|(? & w4 & Hd & Hrest)]; [by eapply Hins|].
  etrans; [by eapply Hins|]. by eapply untouched_step, require_untouched.
Qed.
Lemma set_account_binding_step user k a : preserves (keyring_step user) (set_account_binding (K := K) (R := R) user k a).
Proof using Type.
  intros w r w'. unfold set_account_binding.
  intros [(e & Hr & _)|(x0 & w1 & Hr & Hrest)]%bind_inv; [by eapply untouched_step, require_untouched|].
  assert (Hu1 : untouched w w1) by by eapply require_untouched. etrans; [by apply untouched_step, Hu1|].
  apply required in Hr as (row & Hin & -> & Hid & Huser). destruct Hu1 as [_ Hk1]. rewrite <-Hk1 in Hin. clear Hk1.
  destruct (bool_decide (a = None) && _) eqn:Hnone; [by injection Hrest as _ <-|].
  apply bind_inv in Hrest as [(e & Hv & _)|(t & w2 & Hv & Hrest)].
  { apply untouched_step. revert Hv. destruct a as [a|]; [|apply pres_ret, _].
    apply (pres_bind untouched); [apply validate_untouched|]. intros ?. apply pres_ret, _. }
  assert (Hw : untouched w1 w2 /\ (ok_is_secret row = true -> exists acc, acc ∈ pw_rows w1 /\ a = Some (ma_id acc) /\ ma_user_id acc = user /\
      emails_match (ma_email_address acc) (json_list (ok_emails row)) = true)).
  { destruct a as [a|]; [|injection Hv as _ <-; split; [done|]; intros Hs; cbn in Hnone; congruence].
    apply bind_Ok in Hv as (o & w3 & Hv & [= _ <-]). split; [by eapply validate_untouched|].
    intros Hs. apply validated in Hv as (acc & Hacc & <- & Hu & _ & He). exists acc. auto. }
  destruct Hw as [Hw2 Hbound]. etrans; [by apply untouched_step, Hw2|]. destruct Hw2 as [Hr2 Hk2].
  assert (Hedit : forall x w3, edit_keys (users_key user k) (set_key_account a) w2 = (x, w3) -> keyring_step user w2 w3).
  { apply binding_step. intros y Hy Hyi Hyu [Hi _ _]. rewrite Hk2 in Hy, Hi.
    assert (y = row) as -> by (apply (same_key ok_id (pw_keys w1)); congruence || done).
    intros Hs. destruct (Hbound Hs) as (acc & Hacc & -> & Hu & He). exists acc. rewrite Hr2. cbn. by rewrite Huser. }
  apply bind_inv in Hrest as [(e & Hd & _)|(? & w3 & Hd & Hrest)]; [by eapply Hedit|].
  etrans; [by eapply Hedit|]. by eapply untouched_step, require_untouched.
Qed.
Lemma set_primary_step user k : preserves (keyring_step user) (set_primary (K := K) (R := R) user k).
Proof using Type.
  unfold set_primary. apply pres_bind; [apply _|intros w r w' Hr; by eapply untouched_step, require_untouched|]. intros x.
  apply pres_bind; [apply _|apply demote_step|]. intros ?. apply pres_bind; [apply _| |].
  - intros w. apply edit_step; [by intros r [_ Hu%String.eqb_eq]%andb_true_iff|done|].
    intros [_ _ Hb] r Hr _. exact (proj1 (Forall_forall _ _) Hb r Hr).
  - intros ? w r w' Hr. by eapply untouched_step, require_untouched.
Qed.
Lemma delete_key_step user k : preserves (keyring_step user) (delete_key (K := K) (R := R) user k).
Proof using Type.
  unfold delete_key. apply pres_bind; [apply _|intros w r w' Hr; by eapply untouched_step, require_untouched|]. intros x.
  destruct (sk_is_primary x); [apply pres_throw, _|]. intros w r w'. unfold kstmt.
  assert (Hstep : keyring_step user w (set_keys (List.filter (fun r => negb (users_key user k r)) (pw_keys w)) w)).
  { split; [done|]. split.
    - cbn. unfold keys_of_others. induction (pw_keys w) as [|y l IH]; [done|]. cbn. destruct (users_key user k y) eqn:Hy; cbn; rewrite IH; [|done].
      unfold users_key in Hy. apply andb_true_iff in Hy as [_ ->]. done.
    - intros [Hi Hp Hb]. split; cbn; [eapply sublist_NoDup; [exact Hi|apply fmap_sublist, filter_sublist]|eapply sublist_NoDup; [exact Hp|apply fmap_sublist, filter_sublist]|].
      apply Forall_forall. intros y [Hy _]%list_elem_of_In%filter_In. apply (proj1 (Forall_forall _ _) Hb), list_elem_of_In, Hy. }
  destruct (pw_fuse w) as [[|n]|]; intros [= _ <-]; [done|..]; (etrans; [exact Hstep|by apply untouched_step]).
Qed.
Lemma ring_untouched token id : preserves untouched (ring_get (K := K) (R := R) token id).
Proof using Type. intros w r w'. unfold ring_get. destruct (UnlockRing.get _ _ _ _). by intros [= _ <-]. Qed.
Hint Resolve ring_untouched : preserve.
Lemma boundary_untouched : preserves untouched (mime_boundary (K := K) (R := R)).
Proof using Type. unfold mime_boundary. preserve. Qed.
Lemma identity_untouched k (f : StoredKey -> M OpengpgMimeBody) : (forall k, preserves untouched (f k)) -> preserves untouched (with_identity k f).
Proof using Type. intros Hf. unfold with_identity. destruct k; [apply Hf|preserve]. Qed.
Hint Resolve boundary_untouched : preserve.
Lemma wrap_untouched user token account opts draft :
  preserves untouched (wrap_outbound_opengpg (K := K) (R := R) user token account opts draft).
Proof using Type.
  unfold wrap_outbound_opengpg, list_keys, build_inner_body, sign_payload, wrap_signed, seal_payload, wrap_encrypted, attach_key, attach_public_key_part.
  preserve; apply identity_untouched; intros k; preserve.
Qed.
End Keyring.

(** ** Outgoing mail *)

Section Wrapping.
Context {K R : Type} `{PgpLib} `{StoreLib} `{UpperLib}.
Local Abbreviation W := (pgp_world K R).
Local Abbreviation M := (io W OpengpgError).
Implicit Types w : W.

Definition user_keys (user_id : string) w : list KeyRow := List.filter (fun r => String.eqb (ok_user r) user_id) (pw_keys w).
(** A subkey of an unrevoked key of the user that carries the address. *)
Definition recipient_key (user_id : string) w (email sub : string) : Prop :=
  exists k armor pk, k ∈ user_keys user_id w /\ ok_revoked k = false /\ emails_match email (json_list (ok_emails k)) = true /\
    public_armored_from_stored (ok_key_data k) = Ok armor /\ public_from_string armor = Ok pk /\ head (pk_subkeys pk) = Some sub.
Definition addresses (recipients : list string) : list string :=
  List.filter (contains_char "@") (map (fun e => to_lowercase (trim e)) recipients).

Lemma listed user_id w keys w' : list_keys user_id None w = (Ok keys, w') ->
  forall k, k ∈ keys -> exists r, r ∈ user_keys user_id w /\ k = stored_key_from_row r.
Proof using Type.
  unfold list_keys. intros Hl%read_is; [|done]. subst keys. intros k (r & -> & Hr)%list_elem_of_fmap. exists r. split; [|done].
  rewrite order_by_perm in Hr. apply list_elem_of_In, filter_In in Hr as [Hr Hu]. apply list_elem_of_In, filter_In. split; [done|].
  by apply andb_true_iff in Hu as [Hu _].
Qed.
Lemma chosen_serves keys picks lower k : choose_key keys picks lower = Ok k -> k ∈ keys /\ key_serves lower k = true.
Proof using Type.
  unfold choose_key. intros Hc. assert (Hin : forall x, x ∈ List.filter (key_serves lower) keys -> x ∈ keys /\ key_serves lower x = true).
  { intros x [Hx Hs]%list_elem_of_In%filter_In. split; [by apply list_elem_of_In|done]. }
  destruct (List.filter _ keys) as [|a [|b l]] eqn:Hf; [done|..].
  - injection Hc as <-. apply Hin. by left.
  - destruct (picks !! lower) as [p|]; [|done]. cbn [ok_or rbind] in Hc.
    destruct (List.find _ (a :: b :: l)) as [x|] eqn:Hx; [|done]. injection Hc as <-. apply Hin, list_elem_of_In. by apply find_some in Hx as [Hx _].
Qed.
Lemma resolved_keys user_id w keys recipients picks pks subs :
  (forall k, k ∈ keys -> exists r, r ∈ user_keys user_id w /\ k = stored_key_from_row r) ->
  resolve_recipient_public_keys keys recipients picks = Ok pks -> recipient_subkeys pks = Ok subs ->
  Forall2 (recipient_key user_id w) (addresses recipients) subs.
Proof using Type.
  intros Hkeys. revert pks subs. unfold addresses. induction recipients as [|e l IH]; intros pks subs; cbn [resolve_recipient_public_keys map List.filter].
  { intros [= <-] [= <-]. constructor. }
  destruct (contains_char "@" (to_lowercase (trim e))) eqn:Hat; cbn [negb]; [|by apply IH].
  destruct (choose_key keys picks _) as [k|] eqn:Hk; [|done]. cbn [rbind].
  destruct (public_armored_from_stored (sk_key_data k)) as [armor|] eqn:Ha; [|done]. cbn [rbind].
  destruct (public_from_string armor) as [pk|] eqn:Hp; [|done]. cbn [rbind rmap_err].
  destruct (resolve_recipient_public_keys keys l picks) as [rest|] eqn:Hr; [|done]. intros [= <-]. cbn [recipient_subkeys].
  destruct (head (pk_subkeys pk)) as [sub|] eqn:Hs; [|done]. cbn [ok_or rbind].
  destruct (encrypt_to_key sub) as [|]; [|done]. cbn [rbind rmap_err].
  destruct (recipient_subkeys rest) as [subs'|] eqn:Hss; [|done]. intros [= <-]. constructor; [|by apply (IH rest)].
  apply chosen_serves in Hk as [Hin Hserve]. destruct (Hkeys k Hin) as (r & Hr' & ->).
  apply andb_true_iff in Hserve as [Hrev%negb_true_iff Hmail]. by exists r, armor, pk.
Qed.

Lemma some_subkey pk pks subs : recipient_subkeys (pk :: pks) = Ok subs -> subs <> [].
Proof using Type.
  cbn. destruct (head (pk_subkeys pk)) as [sub|]; [|done]. cbn. destruct (encrypt_to_key sub); [|done]. cbn.
  destruct (recipient_subkeys pks); [|done]. by intros [= <-].
Qed.
Lemma sealed keys opts recipients payload w body w' : seal_payload keys opts recipients payload w = (Ok body, w') ->
  exists pks subs rng encrypted b, resolve_recipient_public_keys keys recipients (so_recipient_key_ids opts) = Ok pks /\
    recipient_subkeys pks = Ok subs /\ subs <> [] /\ seal_armor rng (mb_body payload) subs = Ok encrypted /\ body = sealed_body b encrypted.
Proof using Type.
  unfold seal_payload. intros (pks & w1 & Hl & Hw)%bind_Ok. injection Hl as Hl <-. unfold wrap_encrypted in Hw.
  destruct pks as [|pk pks]; [done|]. apply bind_Ok in Hw as (rng & w2 & _ & Hw). apply bind_Ok in Hw as (subs & w3 & Hs & Hw).
  apply bind_Ok in Hw as (encrypted & w4 & He & Hw). apply bind_Ok in Hw as (b & w5 & _ & [= <- <-]).
  injection Hs as Hs _. injection He as He _. destruct (seal_armor rng _ _) as [x|] eqn:Hx; [|done]. injection He as <-.
  exists (pk :: pks), subs, rng, x, b. split; [done|]. split; [done|]. split; [by eapply some_subkey|done].
Qed.
Lemma keyed stored payload w body w' : attach_key stored payload w = (Ok body, w') ->
  exists b armor, public_armored_from_stored (sk_key_data stored) = Ok armor /\ body = with_key_part b payload armor.
Proof using Type.
  unfold attach_key, attach_public_key_part. intros (armor & w1 & Ha & (b & w2 & _ & [= <- <-])%bind_Ok)%bind_Ok. injection Ha as Ha _. by exists b, armor.
Qed.
Lemma signed session k payload w body w' : sign_payload session k payload w = (Ok body, w') ->
  exists pw secret rng armored b, fst (UnlockRing.get (w_now (pw_auth w)) session (sk_id k) (w_unlock (pw_auth w))) = Some pw /\
    secret_from_string (trim (sk_key_data k)) = Ok secret /\ sign_detached rng secret pw (mb_body payload) = Ok armored /\
    body = signed_body b payload armored.
Proof using Type.
  unfold sign_payload. intros (found & w1 & Hg & (pw & w2 & Hl & Hw)%bind_Ok)%bind_Ok. injection Hl as Hl <-.
  unfold ring_get in Hg. destruct (UnlockRing.get _ _ _ _) as [o r]. injection Hg as <- <-. destruct o as [p|]; [|done]. injection Hl as ->.
  unfold wrap_signed in Hw. apply bind_Ok in Hw as (secret & w3 & Hs & Hw). apply bind_Ok in Hw as (rng & w4 & _ & Hw).
  apply bind_Ok in Hw as (armored & w5 & Ha & Hw). apply bind_Ok in Hw as (b & w6 & _ & [= <- <-]).
  injection Hs as Hs _. injection Ha as Ha _. destruct (secret_from_string _) as [s|]; [|done]. injection Hs as ->.
  destruct (sign_detached _ _ _ _) as [x|] eqn:Hx; [|done]. injection Ha as ->. by exists pw, secret, rng, armored, b.
Qed.

Lemma inner_keys text html w p w' : build_inner_body text html w = (Ok p, w') -> pw_keys w' = pw_keys w /\ pw_auth w' = pw_auth w.
Proof using Type.
  unfold build_inner_body. destruct (nonempty html) as [h|]; [|by intros [= _ <-]]. intros (b & w1 & Hb & [= _ <-])%bind_Ok.
  unfold mime_boundary in Hb. apply bind_Ok in Hb as (n & w2 & [= _ <-] & [= _ <-]). done.
Qed.
Lemma listed_world user_id a w keys w' : list_keys user_id a w = (Ok keys, w') -> pw_keys w' = pw_keys w /\ pw_auth w' = pw_auth w.
Proof using Type. unfold list_keys, kread, kstmt. destruct (pw_fuse w) as [[|n]|]; by intros [= _ <-]. Qed.
Lemma identity keys opts account k : resolve_signing_key keys opts account = Ok k ->
  k ∈ keys /\ sk_is_secret k = true /\ sk_account_id k = Some account /\
  match so_signing_key_id opts with Some id => sk_id k = id | None => sk_is_primary k = true /\ sk_revoked k = false end.
Proof using Type.
  unfold resolve_signing_key. destruct (so_signing_key_id opts) as [id|].
  all: intros He; match type of He with ok_or _ ?o = _ => destruct o as [x|] eqn:Hx; [|done] end; injection He as <-.
  all: apply find_some in Hx as [Hin Hx]; rewrite !andb_true_iff, bool_decide_eq_true in Hx; apply list_elem_of_In in Hin.
  - destruct Hx as [[Hi%String.eqb_eq Hs] Ha]. done.
  - destruct Hx as [[[Hs Hp] Hr%negb_true_iff] Ha]. done.
Qed.
(** The run of [wrap_outbound_opengpg], step by step. *)
Lemma wrapped user token account opts draft w o w' : wrap_outbound_opengpg user token account opts draft w = (Ok o, w') ->
  (so_sign opts = false /\ so_encrypt opts = false /\ so_attach_public_key opts = false /\ o = None) \/
  exists keys w1 inner w2 k signed_ w3 sealed_ w4 body, list_keys user None w = (Ok keys, w1) /\
    build_inner_body (od_body_text draft) (od_body_html draft) w1 = (Ok inner, w2) /\
    (so_sign opts || so_attach_public_key opts = true -> resolve_signing_key keys opts account = Ok k) /\
    (if so_sign opts then sign_payload token k inner w2 = (Ok signed_, w3) else signed_ = inner /\ w3 = w2) /\
    (if so_encrypt opts then seal_payload keys opts (od_recipients draft) signed_ w3 = (Ok sealed_, w4) else sealed_ = signed_ /\ w4 = w3) /\
    (if so_attach_public_key opts then exists w5, attach_key k sealed_ w4 = (Ok body, w5) else body = sealed_) /\ o = Some body.
Proof using Type.
  unfold wrap_outbound_opengpg. destruct (so_sign opts) eqn:Hs, (so_encrypt opts) eqn:He, (so_attach_public_key opts) eqn:Ha; cbn [negb andb orb].
  8: { intros [= <- _]. by left. }
  all: intros Hw; right; try (destruct (bool_decide (od_recipients draft = [])); [done|]).
  all: apply bind_Ok in Hw as (keys & w1 & Hk & Hw); apply bind_Ok in Hw as (inner & w2 & Hi & Hw).
  all: apply bind_Ok in Hw as (signing & w3 & Hsig & Hw); apply bind_Ok in Hw as (p1 & w4 & H1' & Hw).
  all: apply bind_Ok in Hw as (p2 & w5 & H2' & Hw); apply bind_Ok in Hw as (p3 & w6 & H3' & [= <- <-]).
  all: try (apply bind_Ok in Hsig as (k & w7 & Hr & [= <- <-]); injection Hr as Hr <-; cbn [with_identity] in *).
  all: try (injection Hsig as <- <-); try (injection H1' as <- <-); try (injection H2' as <- <-); try (injection H3' as <- <-).
  all: try (exists keys, w1, inner, w2, k; do 5 eexists; naive_solver).
  exists keys, w1, inner, w2, (mkStored "" "" None "" "" [] false false false ""). do 5 eexists. naive_solver.
Qed.

(** Mail the user asked to encrypt never goes out in the clear: the wrapping fails, or it holds only what was sealed to one key for
    each recipient, in order, each key the user's own choice of an unrevoked key that carries the address, and to nobody else. *)
Theorem encrypted_to_every_recipient user token account opts draft w o w' :
  so_encrypt opts = true ->
  wrap_outbound_opengpg user token account opts draft w = (Ok o, w') ->
  exists subs rng payload encrypted b, seal_armor rng payload subs = Ok encrypted /\
    Forall2 (recipient_key user w) (addresses (od_recipients draft)) subs /\ subs <> [] /\
    (o = Some (sealed_body b encrypted) \/ exists b' armor, o = Some (with_key_part b' (sealed_body b encrypted) armor)).
Proof using Type.
  intros He Hw. apply wrapped in Hw as [(_ & Hn & _)|(keys & w1 & inner & w2 & k & p1 & w3 & p2 & w4 & body & Hk & _ & _ & _ & H2' & H3' & ->)]; [congruence|].
  rewrite He in H2'. apply sealed in H2' as (pks & subs & rng & encrypted & b & Hr & Hs & Hne & Hx & ->).
  exists subs, rng, (mb_body p1), encrypted, b. split; [done|]. split; [eapply resolved_keys; [by eapply listed|done|done]|]. split; [done|].
  destruct (so_attach_public_key opts); [|by left; rewrite H3'].
  destruct H3' as (w5 & (b' & armor & _ & ->)%keyed). right. by exists b', armor.
Qed.

(** A signed mail is signed by a secret key of the user that is bound to the sending account (the one named, or its primary), under the
    passphrase this very session has unlocked; nothing else of the keyring can sign for the account, and a locked key fails the send. *)
Theorem signed_by_the_sending_account user token account opts draft w o w' :
  so_sign opts = true ->
  wrap_outbound_opengpg user token account opts draft w = (Ok o, w') ->
  exists k pw secret rng payload armored b body, k ∈ user_keys user w /\ ok_is_secret k = true /\ ok_account k = Some account /\
    match so_signing_key_id opts with Some id => ok_id k = id | None => ok_is_primary k = true /\ ok_revoked k = false end /\
    fst (UnlockRing.get (w_now (pw_auth w)) token (ok_id k) (w_unlock (pw_auth w))) = Some pw /\
    secret_from_string (trim (ok_key_data k)) = Ok secret /\ sign_detached rng secret pw (mb_body payload) = Ok armored /\
    (if so_encrypt opts then exists subs rng' encrypted b', seal_armor rng' (mb_body (signed_body b payload armored)) subs = Ok encrypted /\
                               body = sealed_body b' encrypted
     else body = signed_body b payload armored) /\
    (o = Some body \/ exists b' armor, o = Some (with_key_part b' body armor)).
Proof using Type.
  intros Hs Hw. apply wrapped in Hw as [(Hn & _)|(keys & w1 & inner & w2 & k & p1 & w3 & p2 & w4 & body & Hk & Hi & Hid & H1' & H2' & H3' & ->)]; [congruence|].
  rewrite Hs in Hid, H1'. specialize (Hid eq_refl). apply identity in Hid as (Hin & Hsec & Hacc & Hwhich).
  apply signed in H1' as (pw & secret & rng & armored & b & Hring & Hsecret & Hsign & ->).
  destruct (listed _ _ _ _ Hk k Hin) as (r & Hr & ->). apply listed_world in Hk as [_ Ha1]. apply inner_keys in Hi as [_ Ha2].
  rewrite Ha2, Ha1 in Hring. exists r, pw, secret, rng, inner, armored, b, p2. do 7 (split; [done|]). split.
  - destruct (so_encrypt opts); [|by destruct H2' as [-> _]].
    apply sealed in H2' as (pks & subs & rng' & encrypted & b' & _ & _ & _ & Hx & ->). by exists subs, rng', encrypted, b'.
  - destruct (so_attach_public_key opts); [|left; by rewrite H3'].
    destruct H3' as (w5 & (b' & armor & _ & ->)%keyed). right. by exists b', armor.
Qed.

(** RFC 3156 signs and encrypts a whole MIME entity.  What is signed and sealed here is the body alone: the headers that say
    what the body is, the boundary of a multipart among them, are neither covered nor kept. *)
Lemma headers_are_not_sealed c c' body pks w :
  wrap_encrypted (mkMimeBody c body) pks w = wrap_encrypted (mkMimeBody c' body) pks w.
Proof using Type. done. Qed.
End Wrapping.

(** ** A toy crate *)

(** An armor is [SEC print uid sub] or [PUB print uid sub]; the passphrase of a key is its fingerprint. *)
Definition toy_key (kind s : string) : result string PgpKey :=
  match split_char " " s with
  | [k; print; uid; sub] => if String.eqb k kind then Ok (mkPgpKey print [uid] false (if is_empty sub then [] else [sub]) s) else Err "another kind of key"
  | _ => Err "malformed"
  end.
#[export] Instance toy_pgp : PgpLib := {
  secret_from_string := toy_key "SEC";
  public_from_string := toy_key "PUB";
  public_armor k := Ok ("PUB " +:+ pk_fingerprint k +:+ " " +:+ join "" (pk_users k) +:+ " " +:+ join "" (pk_subkeys k));
  generate_armor n uid pass alg := Ok ("SEC print" +:+ show_N n +:+ " " +:+ uid +:+ " sub" +:+ show_N n);
  unlock_primary k pass := if String.eqb pass (pk_fingerprint k) then Ok tt else Err "wrong passphrase";
  sign_detached n k pass data := Ok ("[signed by " +:+ pk_fingerprint k +:+ ": " +:+ data +:+ "]");
  encrypt_to_key sub := Ok tt;
  seal_armor n data subs := Ok ("[sealed to " +:+ join "," subs +:+ ": " +:+ show_N (N.of_nat (String.length data)) +:+ " bytes]");
}.
#[local] Instance ascii_upper_lib : UpperLib := to_ascii_uppercase.
#[local] Instance ascii_store : StoreLib := toy_store.

Definition toy_row (id account user email : string) : MailAccountRow :=
  mkMailAccount id user None email "imap" "password" "" None None None None None None None None None true true no_extras.
Definition key_row (id user : string) (account : option string) (print email : string) (secret primary : bool) (data : string) : KeyRow :=
  mkKeyRow id user account print email (JArray [JString email]) secret primary false data.
Definition toy_keys : list KeyRow :=
  [key_row "k1" "u1" (Some "a1") "F1" "ann@x.org" true true "SEC F1 ann@x.org S1"; key_row "k2" "u1" None "F2" "bob@y.org" false false "PUB F2 bob@y.org S2"].
Definition toy_ring (now : Z) : rings := put now "tok" "k1" "F1" Timed 10 ∅.
Definition toy_pgp_world (keys : list KeyRow) (fuse : option nat) : pgp_world MemoryKv.t N :=
  mkPgp (set_unlock (toy_ring (from_secs 1000000)) (Toy.toy_world [Toy.toy_user None None] [])) [toy_row "a1" "a1" "u1" "ann@x.org"] keys 0%N fuse.
Definition all_options : OpengpgSendOptions := mkPgpOptions true true false None ∅.
Definition toy_draft : OutboundDraft := mkOutboundDraft (Some "Hi") None ["Bob@Y.org"; "ann@x.org"].
Definition toy_wrap (opts : OpengpgSendOptions) := wrap_outbound_opengpg "u1" "tok" "a1" opts toy_draft (toy_pgp_world toy_keys None).

Lemma encrypted_to_every_recipient_witness : exists o, fst (toy_wrap all_options) = Ok o /\
  exists subs rng payload encrypted b, seal_armor rng payload subs = Ok encrypted /\
    Forall2 (recipient_key "u1" (toy_pgp_world toy_keys None)) ["bob@y.org"; "ann@x.org"] subs /\ subs <> [] /\
    (o = Some (sealed_body b encrypted) \/ exists b' armor, o = Some (with_key_part b' (sealed_body b encrypted) armor)).
Proof.
  eexists. split; [by vm_compute|].
  exact (encrypted_to_every_recipient "u1" "tok" "a1" all_options toy_draft (toy_pgp_world toy_keys None) _ (snd (toy_wrap all_options))
    eq_refl (answer _ _ eq_refl)).
Defined.
Lemma signed_by_the_sending_account_witness : exists o, fst (toy_wrap all_options) = Ok o /\
  exists k pw secret rng payload armored b body, k ∈ user_keys "u1" (toy_pgp_world toy_keys None) /\ ok_is_secret k = true /\ ok_account k = Some "a1" /\
    (ok_is_primary k = true /\ ok_revoked k = false) /\
    fst (UnlockRing.get (from_secs 1000000) "tok" (ok_id k) (toy_ring (from_secs 1000000))) = Some pw /\
    secret_from_string (trim (ok_key_data k)) = Ok secret /\ sign_detached rng secret pw (mb_body payload) = Ok armored /\
    (exists subs rng' encrypted b', seal_armor rng' (mb_body (signed_body b payload armored)) subs = Ok encrypted /\ body = sealed_body b' encrypted) /\
    (o = Some body \/ exists b' armor, o = Some (with_key_part b' body armor)).
Proof.
  eexists. split; [by vm_compute|].
  exact (signed_by_the_sending_account "u1" "tok" "a1" all_options toy_draft (toy_pgp_world toy_keys None) _ (snd (toy_wrap all_options))
    eq_refl (answer _ _ eq_refl)).
Defined.

(** A text that does not end in a line break: the delimiter before the signature is not at the start of a line, so that the
    mail has one part, not two. *)
Example delimiter_glued_to_text :
  match fst (toy_wrap (mkPgpOptions true false false None ∅)) with
  | Ok (Some m) => List.filter (contains_str "--_lyra_") (lines (mb_body m))
  | _ => []
  end = ["--_lyra_id1"; "Hi--_lyra_id1"; "--_lyra_id1--"].
Proof. vm_compute. reflexivity. Qed.
(** Importing a key that is already there, as the primary: the answer is a conflict, and the account has no primary key left. *)
Example conflict_leaves_no_primary :
  let '(r, w) := import_armored "u1" "SEC F1 ann@x.org S1" true (Some "a1") (toy_pgp_world toy_keys None) in
  r = Err (PgpConflict "fingerprint already imported") /\ List.filter ok_is_primary (pw_keys w) = [].
Proof. vm_compute. done. Qed.
(** The database closes between the two statements: the promoted key and the old primary are both demoted. *)
Example promotion_is_not_atomic :
  let '(r, w) := set_primary "u1" "k2" (toy_pgp_world (key_row "k3" "u1" None "F3" "eve@z.org" false true "PUB F3 eve@z.org S3" :: toy_keys) (Some 2%nat)) in
  r = Err PgpDatabase /\ map ok_id (List.filter ok_is_primary (pw_keys w)) = ["k1"].
Proof. vm_compute. done. Qed.
(** Binding a primary key to an account that has one: two primaries. *)
Example binding_makes_two_primaries :
  let k := key_row "k4" "u1" None "F4" "pat@z.org" false true "PUB F4 pat@z.org S4" in
  map ok_is_primary (List.filter (in_bucket "u1" (Some "a1"))
    (pw_keys (snd (set_account_binding "u1" "k4" (Some "a1") (toy_pgp_world (k :: toy_keys) None))))) = [true; true].
Proof. vm_compute. done. Qed.
