(* ===== verification/PgpRead.v ===== *)
(** * OpenPGP on reading a mail ([opengpg/read.rs])

    A mail that looks encrypted or signed is opened for one request with the secret keys the
    session has unlocked, and its signatures are checked against the user's keys; nothing is
    stored.  rPGP's messages and the MIME parser are the class [PgpReader].  The world adds the
    messages, the attachments and the blob directory to the keyring. *)
From S2P Require Import Prelude Kv Crypto UnlockRing World Toy Session Labels Jobs Netsec MailStore Imap ImapLoop Blobs Jmap JmapLoop Spam OAuth Ai Dav OpenPgp.
Local Open Scope string_scope.
Local Open Scope Z_scope.

Class PgpReader := {
  PgpMessage : Type;
  message_from_bytes : string -> option PgpMessage;              (* [from_bytes], else [from_armor] *)
  message_decrypt : PgpMessage -> string -> PgpKey -> result string PgpMessage;
  message_decompress : PgpMessage -> option PgpMessage;
  message_data : PgpMessage -> option string;                    (* [as_data_vec] *)
  message_is_signed : PgpMessage -> bool;                        (* signed, one-pass or not *)
  message_verify : PgpMessage -> PgpKey -> option bool;          (* [verify_nested]: some result is valid *)
  CleartextMessage : Type;
  cleartext_from_string : string -> option CleartextMessage;
  cleartext_text : CleartextMessage -> string;
  cleartext_verify : CleartextMessage -> PgpKey -> bool;
  parse_bodies : string -> option (option string * option string);   (* [MessageParser]: text, HTML *)
}.

Record OpengpgSignatureStatus := mkSignature {
  si_fingerprint : string; si_email : option string; si_valid : bool; si_time : option string }.
Record OpengpgMessageStatus := mkPgpStatus {
  ps_encrypted : bool; ps_decrypted : bool; ps_signatures : list OpengpgSignatureStatus; ps_error : option string }.
Record DecryptedBodies := mkBodies { db_body_text : option string; db_body_html : option string; db_status : OpengpgMessageStatus }.

Definition BEGIN_MESSAGE : string := "-----BEGIN PGP MESSAGE-----".
Definition BEGIN_SIGNED : string := "-----BEGIN PGP SIGNED MESSAGE-----".
Definition BEGIN_SIGNATURE : string := "-----BEGIN PGP SIGNATURE-----".
Definition looks_encrypted (text : string) : bool := contains_str BEGIN_MESSAGE text.
Definition looks_cleartext_signed (text : string) : bool := contains_str BEGIN_SIGNED text && contains_str BEGIN_SIGNATURE text.
Definition extract_armored_block (text begin end_ : string) : option string :=
  start ← find_str begin text;
  let rest := sdrop start text in
  n ← find_str end_ rest; Some (stake (n + String.length end_) rest).
Definition extract_armored_message (text : string) : option string := extract_armored_block text BEGIN_MESSAGE "-----END PGP MESSAGE-----".
Definition extract_cleartext_signed (text : string) : option string := extract_armored_block text BEGIN_SIGNED "-----END PGP SIGNATURE-----".

Fixpoint find_armored_in_attachments (atts : list string) : option string :=
  match atts with
  | [] => None
  | data :: rest => match (if utf8_valid data then extract_armored_message data else None) with Some a => Some a | None => find_armored_in_attachments rest end
  end.
(** The first bit of the first byte. *)
Definition looks_like_binary_openpgp (data : string) : bool := match data with String a _ => (128 <=? byte a)%N | EmptyString => false end.

Definition undecrypted (encrypted : bool) (signatures : list OpengpgSignatureStatus) (error : string) : DecryptedBodies :=
  mkBodies None None (mkPgpStatus encrypted false signatures (Some error)).

Section Reading.
Context `{PgpLib} `{PgpReader} `{StoreLib}.

Definition persist_body_html (html : option string) : option string := option_map sanitize_email_html html.
Definition html_like (text : string) : bool :=
  let t := to_ascii_lowercase (trim_start text) in starts_with "<!doctype" t || starts_with "<html" t.
Definition bodies_from_decrypted (content : string) : option string * option string :=
  let parsed := match parse_bodies content with
                | Some (text, html) =>
                    let html := persist_body_html html in
                    if bool_decide (text = None) && bool_decide (html = None) then None else Some (text, html)
                | None => None
                end in
  match parsed with
  | Some b => b
  | None =>
      let text := from_utf8_lossy content in
      if html_like text then (None, persist_body_html (Some text)) else (Some text, None)
  end.

Definition verify_message_signatures (msg : PgpMessage) (public_keys : list StoredKey) : list OpengpgSignatureStatus :=
  if negb (message_is_signed msg) then [] else
  omap (fun key => match public_from_string (sk_key_data key) with
                   | Ok pk => match message_verify msg pk with
                              | Some true => Some (mkSignature (sk_fingerprint key) (Some (sk_primary_email key)) true None)
                              | _ => None
                              end
                   | Err _ => None
                   end) public_keys.
(** The keys in order: the first that opens the message. *)
Fixpoint try_keys (data : string) (encrypted : bool) (secret_keys : list (StoredKey * string)) (public_keys : list StoredKey) : DecryptedBodies :=
  match secret_keys with
  | [] => undecrypted true [] "no matching secret key"
  | (stored, pass) :: rest =>
      match secret_from_string (sk_key_data stored) with
      | Err _ => try_keys data encrypted rest public_keys
      | Ok secret =>
          match message_from_bytes data with
          | None => undecrypted encrypted [] "malformed OpenGPG message"
          | Some message =>
              match message_decrypt message pass secret with
              | Err _ => try_keys data encrypted rest public_keys
              | Ok decrypted =>
                  match message_decompress decrypted with
                  | None => try_keys data encrypted rest public_keys
                  | Some msg =>
                      let bodies := bodies_from_decrypted (default "" (message_data msg)) in
                      mkBodies (fst bodies) (snd bodies) (mkPgpStatus true true (verify_message_signatures msg public_keys) None)
                  end
              end
          end
      end
  end.
Definition decrypt_bytes (data : string) (secret_keys : list (StoredKey * string)) (public_keys : list StoredKey) (encrypted : bool) : DecryptedBodies :=
  match secret_keys with
  | [] => undecrypted encrypted [] (if encrypted then "locked" else "no matching secret key")
  | _ => try_keys data encrypted secret_keys public_keys
  end.
Definition decrypt_armored (armor : string) (secret_keys : list (StoredKey * string)) (public_keys : list StoredKey) : DecryptedBodies :=
  decrypt_bytes armor secret_keys public_keys true.

(** The first key is reported even when it does not verify; a key that does is reported alone. *)
Fixpoint check_keys (msg : CleartextMessage) (public_keys : list StoredKey) (signatures : list OpengpgSignatureStatus) : list OpengpgSignatureStatus :=
  match public_keys with
  | [] => signatures
  | key :: rest =>
      match public_from_string (sk_key_data key) with
      | Err _ => check_keys msg rest signatures
      | Ok pk =>
          let valid := cleartext_verify msg pk in
          if valid || bool_decide (length signatures = 0%nat) then
            let signatures := (signatures ++ [mkSignature (sk_fingerprint key) (Some (sk_primary_email key)) valid None])%list in
            if valid then List.filter si_valid signatures else check_keys msg rest signatures
          else check_keys msg rest signatures
      end
  end.
Definition verify_cleartext (csf : string) (public_keys : list StoredKey) : DecryptedBodies :=
  match cleartext_from_string csf with
  | None => undecrypted false [] "malformed cleartext signature"
  | Some msg =>
      let signatures := check_keys msg public_keys [] in
      let signatures := match signatures with [] => [mkSignature "" None false None] | _ => signatures end in
      mkBodies (Some (cleartext_text msg)) None (mkPgpStatus false false signatures None)
  end.

Definition process_message_bodies (body_text body_html : option string) (attachment_candidates : list string)
    (secret_keys : list (StoredKey * string)) (public_keys : list StoredKey) : option DecryptedBodies :=
  let text := default "" body_text in
  let html := default "" body_html in
  let armored := or_else (or_else (extract_armored_message text) (extract_armored_message html)) (find_armored_in_attachments attachment_candidates) in
  match armored with
  | Some armor => Some (decrypt_armored armor secret_keys public_keys)
  | None =>
      match or_else (extract_cleartext_signed text) (extract_cleartext_signed html) with
      | Some csf => Some (verify_cleartext csf public_keys)
      | None => option_map (fun bin => decrypt_bytes bin secret_keys public_keys true) (List.find looks_like_binary_openpgp attachment_candidates)
      end
  end.

(** [Path::extension] of a name. *)
Definition path_extension (name : string) : option string :=
  file ← last (List.filter (fun c => negb (is_empty c) && negb (String.eqb c ".")) (split_char "/" name));
  if String.eqb file ".." then None else
  dot ← rfind_char "." file;
  if (dot =? 0)%nat then None else Some (sdrop (S dot) file).
Definition pgpish (r : AttachmentRow) : bool :=
  let ct := to_ascii_lowercase (ar_content_type r) in
  let name := to_ascii_lowercase (ar_filename r) in
  contains_str "pgp" ct || contains_str "octet-stream" ct ||
  match path_extension name with Some ext => existsb (String.eqb ext) ["asc"; "pgp"; "gpg"] | None => false end.

Definition prefer_account_secrets (secrets : list (StoredKey * string)) (account_id : option string) : list (StoredKey * string) :=
  match account_id with
  | None => secrets
  | Some acct =>
      let mine p := bool_decide (sk_account_id (fst p) = Some acct) in
      (List.filter mine secrets ++ List.filter (fun p => negb (mine p)) secrets)%list
  end.
End Reading.

Record read_world (K R : Type) := mkReadWorld {
  rw_pgp : pgp_world K R; rw_messages : list MessageRow; rw_attachments : list AttachmentRow; rw_disk : disk }.
Arguments mkReadWorld {K R}. Arguments rw_pgp {K R}. Arguments rw_messages {K R}. Arguments rw_attachments {K R}. Arguments rw_disk {K R}.

Section Enrich.
Context {K R : Type} `{PgpLib} `{PgpReader} `{StoreLib} `{UpperLib} (data_dir : string).
Local Abbreviation W := (read_world K R).
Local Abbreviation M := (io W OpengpgError).
Implicit Types w : W.

Definition on_pgp {A} (m : io (pgp_world K R) OpengpgError A) : M A := fun w =>
  let '(r, p) := m (rw_pgp w) in (r, mkReadWorld p (rw_messages w) (rw_attachments w) (rw_disk w)).
Definition rread {A} (f : W -> A) : M A := fun w => on_pgp (kread (fun _ => f w)) w.

Definition usable_file (w : W) (r : AttachmentRow) : option string :=
  bytes ← d_files (rw_disk w) !! resolve_storage_path data_dir (ar_storage_path r);
  if negb (is_empty bytes) && (Z.of_nat (String.length bytes) <? 8 * 1024 * 1024) then Some bytes else None.
Definition load_pgpish_attachments (message_id : string) : M (list string) :=
  let! rows := rread (fun w => List.filter (fun r => String.eqb (ar_message_id r) message_id) (rw_attachments w)) in
  gets (fun w => omap (usable_file w) (List.filter pgpish rows)).
Definition message_account_id (message_id : string) : M (option string) :=
  rread (fun w => option_map m_account (List.find (fun m => String.eqb (m_id m) message_id) (rw_messages w))).
Fixpoint collect_unlocked_secrets (session_token : string) (keys : list StoredKey) : M (list (StoredKey * string)) :=
  match keys with
  | [] => ret []
  | key :: rest =>
      if negb (sk_is_secret key) then collect_unlocked_secrets session_token rest else
      let! pw := on_pgp (ring_get session_token (sk_id key)) in
      let! out := collect_unlocked_secrets session_token rest in
      ret (match pw with Some pw => (key, pw) :: out | None => out end)
  end.
Definition enrich_message_opengpg (user_id session_token message_id : string) (body_text body_html : option string) : M (option DecryptedBodies) :=
  let text := default "" body_text in
  let html := default "" body_html in
  let in_body := looks_encrypted text || looks_encrypted html || looks_cleartext_signed text || looks_cleartext_signed html in
  let! attachment_candidates := if negb in_body then load_pgpish_attachments message_id else ret [] in
  if negb (in_body || negb (bool_decide (attachment_candidates = []))) then ret None else
  let! keys := on_pgp (list_keys user_id None) in
  let! receiving_account := message_account_id message_id in
  let! unlocked := collect_unlocked_secrets session_token keys in
  let unlocked := prefer_account_secrets unlocked receiving_account in
  let encrypted_signal := looks_encrypted text || looks_encrypted html ||
    existsb (fun b => (utf8_valid b && looks_encrypted b) || looks_like_binary_openpgp b) attachment_candidates in
  if encrypted_signal && bool_decide (length unlocked = 0%nat)
  then ret (Some (undecrypted true [] (if existsb sk_is_secret keys then "locked" else "no matching secret key")))
  else ret (process_message_bodies body_text body_html attachment_candidates unlocked keys).

(** What the reader is shown of the bodies ([finalize_message_response_with_opengpg]). *)
Definition show_bodies (body_text body_html : option string) (r : result OpengpgError (option DecryptedBodies))
    : option string * option string * option OpengpgMessageStatus :=
  match r with
  | Ok (Some decrypted) =>
      let s := db_status decrypted in
      if ps_decrypted s || negb (ps_encrypted s)
      then (or_else (db_body_text decrypted) body_text, or_else (db_body_html decrypted) body_html, Some s)
      else (body_text, body_html, Some s)
  | Ok None => (body_text, body_html, None)
  | Err _ => (body_text, body_html, Some (mkPgpStatus true false [] (Some "opengpg error")))
  end.
(** The bodies and the status a reading session gets of a stored mail; without a session nothing is tried. *)
Definition finalize_message_response_with_opengpg (user_id : string) (session_token : option string) (message_id : string)
    (body_text body_html : option string) : M (option string * option string * option OpengpgMessageStatus) :=
  match session_token with
  | None => ret (body_text, body_html, None)
  | Some token =>
      let! r := attempt (enrich_message_opengpg user_id token message_id body_text body_html) in
      ret (show_bodies body_text body_html r)
  end.
End Enrich.

(** ** What a reader gets to see *)

Lemma get_after_get now s k k' g p : (UnlockRing.get now s k' (UnlockRing.get now s k g).2).1 = Some p -> (UnlockRing.get now s k' g).1 = Some p.
Proof.
  rewrite !get_value. destruct (entry_get now s k g s k') as [->|[->|(e & -> & Ha & ->)]]; [done..|]. rewrite Ha. cbn [passphrase].
  by case_match.
Qed.

Section Seen.
Context {K R : Type} `{PgpLib} `{PgpReader} `{StoreLib} `{UpperLib} (data_dir : string).
Local Abbreviation W := (read_world K R).
Local Abbreviation M := (io W OpengpgError).
Implicit Types w : W.

Definition ring_of w : rings := w_unlock (pw_auth (rw_pgp w)).
Definition clock_of w : Z := w_now (pw_auth (rw_pgp w)).
Definition unlocked (session_token key_id : string) w : option string := (UnlockRing.get (clock_of w) session_token key_id (ring_of w)).1.
(** Only the ring may have moved, and no passphrase came to be in it. *)
Definition only_ring (session_token : string) w w' : Prop :=
  rw_messages w' = rw_messages w /\ rw_attachments w' = rw_attachments w /\ rw_disk w' = rw_disk w /\ pw_keys (rw_pgp w') = pw_keys (rw_pgp w) /\
  pw_rows (rw_pgp w') = pw_rows (rw_pgp w) /\ clock_of w' = clock_of w /\
  (forall k p, unlocked session_token k w' = Some p -> unlocked session_token k w = Some p).
#[local] Instance only_ring_pre token : PreOrder (only_ring token).
Proof.
  split; [intros w; unfold only_ring; tauto|]. intros x y z (A1 & A2 & A3 & A4 & A5 & A6 & A7) (B1 & B2 & B3 & B4 & B5 & B6 & B7).
  split; [congruence|]. split; [congruence|]. split; [congruence|]. split; [congruence|]. split; [congruence|]. split; [congruence|]. auto.
Qed.

Lemma pgp_only_ring {A} token (m : io (pgp_world K R) OpengpgError A) :
  (forall p r p', m p = (r, p') -> pw_keys p' = pw_keys p /\ pw_rows p' = pw_rows p /\ w_now (pw_auth p') = w_now (pw_auth p) /\
     (w_unlock (pw_auth p') = w_unlock (pw_auth p) \/ exists k, w_unlock (pw_auth p') = (UnlockRing.get (w_now (pw_auth p)) token k (w_unlock (pw_auth p))).2)) ->
  preserves (only_ring token) (on_pgp m).
Proof using Type.
  intros Hm w r w'. unfold on_pgp. destruct (m (rw_pgp w)) as [x p] eqn:Hr. intros [= _ <-]. apply Hm in Hr as (Hk & Ha & Hn & Hu).
  split; [done|]. split; [done|]. split; [done|]. split; [done|]. split; [done|]. split; [done|]. intros k q.
  unfold unlocked, clock_of, ring_of. cbn [rw_pgp]. rewrite Hn. destruct Hu as [->|[k0 ->]]; [done|]. apply get_after_get.
Qed.
Lemma read_only_ring {A} token (f : W -> A) : preserves (only_ring token) (rread f).
Proof using Type.
  intros w r w'. unfold rread. apply pgp_only_ring. intros p x p'. unfold kread, kstmt.
  destruct (pw_fuse p) as [[|n]|]; intros [= _ <-]; (split; [done|]; split; [done|]; split; [done|]; by left).
Qed.
Lemma list_only_ring token user a : preserves (only_ring token) (on_pgp (list_keys user a)).
Proof using Type.
  apply pgp_only_ring. intros p x p'. unfold list_keys, kread, kstmt.
  destruct (pw_fuse p) as [[|n]|]; intros [= _ <-]; (split; [done|]; split; [done|]; split; [done|]; by left).
Qed.
Lemma ring_only_ring token k : preserves (only_ring token) (on_pgp (ring_get token k)).
Proof using Type.
  apply pgp_only_ring. intros p x p'. unfold ring_get. destruct (UnlockRing.get _ _ _ _) as [o g] eqn:Hg. intros [= _ <-].
  split; [done|]. split; [done|]. split; [done|]. right. exists k. cbn. by rewrite Hg.
Qed.
Hint Resolve read_only_ring list_only_ring ring_only_ring : preserve.
Lemma collect_only_ring token keys : preserves (only_ring token) (collect_unlocked_secrets (K := K) (R := R) token keys).
Proof using Type.
  induction keys as [|k l IH]; cbn [collect_unlocked_secrets]; [apply pres_ret, _|]. destruct (sk_is_secret k); cbn [negb]; [|exact IH].
  apply pres_bind; [apply _|apply ring_only_ring|]. intros o. apply pres_bind; [apply _|exact IH|]. intros out. apply pres_ret, _.
Qed.
Hint Resolve collect_only_ring : preserve.
Lemma enrich_only_ring user token id text html : preserves (only_ring token) (enrich_message_opengpg (K := K) (R := R) data_dir user token id text html).
Proof using Type. unfold enrich_message_opengpg, load_pgpish_attachments, message_account_id. preserve. Qed.

Lemma collected token keys w l w' : collect_unlocked_secrets token keys w = (Ok l, w') ->
  forall k p, (k, p) ∈ l -> k ∈ keys /\ sk_is_secret k = true /\ unlocked token (sk_id k) w = Some p.
Proof using Type.
  revert w l w'. induction keys as [|k0 keys IH]; intros w l w'; cbn [collect_unlocked_secrets].
  { intros [= <- _] k p ?%not_elem_of_nil. done. }
  destruct (sk_is_secret k0) eqn:Hs; cbn [negb].
  2:{ intros Hl k p Hin. destruct (IH _ _ _ Hl k p Hin) as (Hk & Hr). split; [by right|done]. }
  intros (o & w1 & Ho & (out & w2 & Hl & [= <- <-])%bind_Ok)%bind_Ok k p Hin.
  assert (Hmove : only_ring token w w1) by by eapply ring_only_ring.
  assert (Hrest : (k, p) ∈ out -> k ∈ k0 :: keys /\ sk_is_secret k = true /\ unlocked token (sk_id k) w = Some p).
  { intros Hk. destruct (IH _ _ _ Hl k p Hk) as (Hk' & Hs' & Hu). split; [by right|]. split; [done|]. by apply Hmove. }
  destruct o as [p0|]; [|by apply Hrest]. apply elem_of_cons in Hin as [[= -> ->]|Hin]; [|by apply Hrest].
  split; [by left|]. split; [done|]. unfold on_pgp, ring_get in Ho. unfold unlocked, clock_of, ring_of.
  destruct (UnlockRing.get _ _ _ _) as [q g]. by injection Ho as -> _.
Qed.
Lemma preferred secrets account x : x ∈ prefer_account_secrets secrets account -> x ∈ secrets.
Proof using Type.
  unfold prefer_account_secrets. destruct account as [a|]; [|done]. intros [Hx|Hx]%elem_of_app;
    apply list_elem_of_In, filter_In in Hx as [Hx _]; by apply list_elem_of_In.
Qed.

(** A message opened with one of the keys. *)
Definition opened_by (stored : StoredKey) (pass data : string) (public_keys : list StoredKey) (d : DecryptedBodies) : Prop :=
  exists secret message decrypted msg, secret_from_string (sk_key_data stored) = Ok secret /\ message_from_bytes data = Some message /\
    message_decrypt message pass secret = Ok decrypted /\ message_decompress decrypted = Some msg /\
    (db_body_text d, db_body_html d) = bodies_from_decrypted (default "" (message_data msg)) /\
    db_status d = mkPgpStatus true true (verify_message_signatures msg public_keys) None.
Lemma tried data encrypted secrets public_keys : ps_decrypted (db_status (try_keys data encrypted secrets public_keys)) = true ->
  exists stored pass, (stored, pass) ∈ secrets /\ opened_by stored pass data public_keys (try_keys data encrypted secrets public_keys).
Proof using Type.
  induction secrets as [|[stored pass] rest IH]; cbn [try_keys]; [done|].
  assert (Hrest : ps_decrypted (db_status (try_keys data encrypted rest public_keys)) = true ->
    exists s p, (s, p) ∈ (stored, pass) :: rest /\ opened_by s p data public_keys (try_keys data encrypted rest public_keys)).
  { intros Hd. destruct (IH Hd) as (s & p & Hin & Ho). exists s, p. split; [by right|done]. }
  destruct (secret_from_string _) as [secret|] eqn:Hs; [|by apply Hrest].
  destruct (message_from_bytes data) as [message|] eqn:Hm; [|done].
  destruct (message_decrypt message pass secret) as [decrypted|] eqn:Hd; [|by apply Hrest].
  destruct (message_decompress decrypted) as [msg|] eqn:Hz; [|by apply Hrest].
  intros _. exists stored, pass. split; [by left|]. exists secret, message, decrypted, msg. cbn. by rewrite <-surjective_pairing.
Qed.
(** A piece of a text. *)
Definition within (piece text : string) : Prop := exists before after, text = before +:+ piece +:+ after.
Lemma within_all text : within text text.
Proof using Type. exists "", "". cbn. by rewrite app_nil_r_s. Qed.
Lemma block_within text b e piece : extract_armored_block text b e = Some piece -> within piece text.
Proof using Type.
  unfold extract_armored_block. intros (n & _ & (m & _ & [= <-])%bind_Some)%bind_Some. exists (stake n text), (sdrop (m + String.length e) (sdrop n text)).
  by rewrite !stake_sdrop.
Qed.
Lemma attached_within atts armor : find_armored_in_attachments atts = Some armor -> exists bytes, bytes ∈ atts /\ within armor bytes.
Proof using Type.
  induction atts as [|b atts IH]; cbn [find_armored_in_attachments]; [done|].
  destruct (utf8_valid b); [destruct (extract_armored_message b) as [x|] eqn:Hx|].
  - intros [= ->]. exists b. split; [by left|by eapply block_within].
  - intros (y & Hy & Hw)%IH. exists y. split; [by right|done].
  - intros (y & Hy & Hw)%IH. exists y. split; [by right|done].
Qed.
(** A piece of what the mail holds: of its text, of its HTML, or of the bytes of one of its attachments. *)
Definition in_bodies (piece : string) (text html : option string) : Prop := within piece (default "" text) \/ within piece (default "" html).
Definition carried (id : string) (text html : option string) w (piece : string) : Prop :=
  in_bodies piece text html \/
  exists r bytes, r ∈ rw_attachments w /\ ar_message_id r = id /\ d_files (rw_disk w) !! resolve_storage_path data_dir (ar_storage_path r) = Some bytes /\
    within piece bytes.
Lemma processed text html atts secrets public_keys d : process_message_bodies text html atts secrets public_keys = Some d ->
  (exists data, (in_bodies data text html \/ exists bytes, bytes ∈ atts /\ within data bytes) /\ d = decrypt_bytes data secrets public_keys true) \/
  exists csf, in_bodies csf text html /\ d = verify_cleartext csf public_keys.
Proof using Type.
  unfold process_message_bodies. cbv zeta. unfold extract_armored_message at 1 2, extract_cleartext_signed.
  destruct (or_else (or_else _ _) (find_armored_in_attachments atts)) as [armor|] eqn:Ha.
  { intros [= <-]. left. exists armor. split; [|done]. unfold or_else in Ha. destruct (extract_armored_block (default "" text) _ _) eqn:Hb1.
    { injection Ha as ->. left. left. by eapply block_within. }
    destruct (extract_armored_block (default "" html) _ _) eqn:Hb2; [injection Ha as ->; left; right; by eapply block_within|].
    right. by apply attached_within. }
  clear Ha. destruct (or_else _ _) as [csf|] eqn:Hc.
  { intros [= <-]. right. exists csf. split; [|done]. unfold or_else in Hc. destruct (extract_armored_block (default "" text) _ _) eqn:Hb1.
    - injection Hc as ->. left. by eapply block_within.
    - right. by eapply block_within. }
  destruct (List.find _ atts) as [bin|] eqn:Hb; [|done]. intros [= <-]. left. exists bin. split; [|done]. right. exists bin.
  apply find_some in Hb as [Hb _]. split; [by apply list_elem_of_In|apply within_all].
Qed.
Lemma loaded id w atts w' bytes : load_pgpish_attachments (K := K) (R := R) data_dir id w = (Ok atts, w') -> bytes ∈ atts ->
  exists r, r ∈ rw_attachments w /\ ar_message_id r = id /\ d_files (rw_disk w) !! resolve_storage_path data_dir (ar_storage_path r) = Some bytes.
Proof using Type.
  unfold load_pgpish_attachments. intros (rows & w1 & Hr & [= <- <-])%bind_Ok.
  assert (Hd : rw_disk w1 = rw_disk w /\ rows = List.filter (fun r => String.eqb (ar_message_id r) id) (rw_attachments w)).
  { revert Hr. unfold rread, on_pgp, kread, kstmt. destruct (pw_fuse (rw_pgp w)) as [[|n]|]; by intros [= <- <-]. }
  destruct Hd as [Hd ->]. intros (r & Hr1 & Hu)%list_elem_of_omap. apply list_elem_of_In, filter_In in Hr1 as [Hr1 _]. apply filter_In in Hr1 as [Hr1 Hid].
  exists r. split; [by apply list_elem_of_In|]. split; [by apply String.eqb_eq|]. unfold usable_file in Hu. rewrite Hd in Hu.
  apply bind_Some in Hu as (b & -> & Hb). destruct (negb _ && _); [by injection Hb as ->|done].
Qed.
(** What opening a message can come to; a text signed in the clear is never marked encrypted or decrypted. *)
Definition clear_of (csf : string) (d : DecryptedBodies) : Prop :=
  ps_encrypted (db_status d) = false /\ ps_decrypted (db_status d) = false /\ db_body_html d = None /\
  forall t, db_body_text d = Some t -> exists msg, cleartext_from_string csf = Some msg /\ t = cleartext_text msg.
Lemma cleartext_is_clear csf public_keys : clear_of csf (verify_cleartext csf public_keys).
Proof using Type.
  unfold verify_cleartext, clear_of. destruct (cleartext_from_string csf) as [msg|]; cbn; split_and!; try done. intros t [= <-]. by exists msg.
Qed.
Lemma closed_or_opened data secrets public_keys : let d := decrypt_bytes data secrets public_keys true in
  ps_decrypted (db_status d) = false -> ps_encrypted (db_status d) = true.
Proof using Type.
  unfold decrypt_bytes. destruct secrets as [|x l]; [done|]. generalize (x :: l) as secrets. clear x l.
  induction secrets as [|[s p] l IH]; cbn [try_keys]; [done|]. cbv zeta in *.
  destruct (secret_from_string _); [|exact IH]. destruct (message_from_bytes data); [|done]. destruct (message_decrypt _ _ _); [|exact IH].
  destruct (message_decompress _); [done|exact IH].
Qed.
(** [data] opened by a secret key of the user this session holds the passphrase of. *)
Definition opened_for (user token : string) w (data : string) (d : DecryptedBodies) : Prop :=
  exists k pass public_keys, k ∈ user_keys user (rw_pgp w) /\ ok_is_secret k = true /\ unlocked token (ok_id k) w = Some pass /\
    (forall q, q ∈ public_keys -> exists r, r ∈ user_keys user (rw_pgp w) /\ q = stored_key_from_row r) /\
    opened_by (stored_key_from_row k) pass data public_keys d.
Lemma enriched user token id text html w d w' : enrich_message_opengpg data_dir user token id text html w = (Ok (Some d), w') ->
  (ps_encrypted (db_status d) = true /\ ps_decrypted (db_status d) = false) \/
  (exists csf, in_bodies csf text html /\ clear_of csf d) \/
  (ps_decrypted (db_status d) = true /\ exists data, carried id text html w data /\ opened_for user token w data d).
Proof using Type.
  intros He. unfold enrich_message_opengpg in He. apply bind_Ok in He as (atts & w1 & Ha & He).
  assert (M1 : only_ring token w w1 /\ forall bytes data, bytes ∈ atts -> within data bytes -> carried id text html w data).
  { revert Ha. match goal with |- (if ?b then _ else _) _ = _ -> _ => destruct b end;
      [|intros [= <- <-]; split; [done|]; by intros b ? ?%not_elem_of_nil].
    intros Hload. split.
    - assert (Hp : preserves (only_ring token) (load_pgpish_attachments (K := K) (R := R) data_dir id)) by (unfold load_pgpish_attachments; preserve).
      by eapply Hp.
    - intros bytes data Hb Hw. right. destruct (loaded _ _ _ _ _ Hload Hb) as (r & Hr & Hid & Hf). by exists r, bytes. }
  destruct M1 as [M1 Hatt].
  match type of He with (if ?b then _ else _) _ = _ => destruct b; [done|] end.
  apply bind_Ok in He as (keys & w2 & Hk & He). assert (M2 := list_only_ring token _ _ _ _ _ Hk).
  apply bind_Ok in He as (account & w3 & Hacc & He). assert (M3 := read_only_ring token _ _ _ _ Hacc).
  apply bind_Ok in He as (secrets & w4 & Hsec & He). cbv zeta in He.
  match type of He with (if ?b then _ else _) _ = _ => destruct b end; [injection He as <- _; by left|]. injection He as He _.
  apply processed in He as [(data & Hfrom & ->)|(csf & Hin & ->)]; [|right; left; exists csf; split; [done|apply cleartext_is_clear]].
  destruct (ps_decrypted (db_status _)) eqn:Hd; [|left; split; [by apply closed_or_opened|done]]. right. right. split; [done|]. exists data.
  split; [destruct Hfrom as [Hb|(bytes & Hb & Hw)]; [by left|by eapply Hatt]|]. unfold decrypt_bytes in *.
  destruct (prefer_account_secrets secrets account) as [|x l] eqn:Hp; [done|].
  apply tried in Hd as (stored & pass & Hin & Ho). rewrite <-Hp in Hin. apply preferred in Hin.
  destruct (collected _ _ _ _ _ Hsec _ _ Hin) as (Hmem & Hs & Hu).
  unfold on_pgp in Hk. destruct (list_keys user None (rw_pgp w1)) as [rk p] eqn:Hlist. injection Hk as -> _.
  assert (Hall : forall q, q ∈ keys -> exists r, r ∈ user_keys user (rw_pgp w) /\ q = stored_key_from_row r).
  { intros q (r & Hr & ->)%(listed _ _ _ _ Hlist). exists r. split; [|done]. unfold user_keys in *. destruct M1 as (_ & _ & _ & Hkeys & _). by rewrite <-Hkeys. }
  destruct (Hall _ Hmem) as (k & Hku & ->). exists k, pass, keys. split; [done|]. split; [done|]. split; [by apply M1, M2, M3|]. by split.
Qed.

(** C33: What a reading session is shown of a mail is one of three things.  The bodies as
    they are stored, not marked decrypted.  For a mail with a text signed in the clear, the
    stored HTML and as text what was signed, not marked decrypted either.  Or, marked
    decrypted, what a piece of this very mail (of its text, its HTML or an attachment) holds
    once opened with a secret key of the user under the passphrase this very session has
    unlocked it with, its signatures checked against keys of the user; a part the opened
    message does not have, its HTML say, stays on show as it is stored, which
    [opened_text_keeps_stored_html] records as a flaw.  The mail stays stored as it came, and
    no key is unlocked by reading. *)
Theorem decrypted_with_an_unlocked_key user token id text html w text' html' status w' :
  finalize_message_response_with_opengpg data_dir user (Some token) id text html w = (Ok (text', html', status), w') ->
  only_ring token w w' /\
  ((text' = text /\ html' = html /\ forall s, status = Some s -> ps_decrypted s = false) \/
   (exists csf msg s, in_bodies csf text html /\ cleartext_from_string csf = Some msg /\ text' = Some (cleartext_text msg) /\ html' = html /\
      status = Some s /\ ps_decrypted s = false) \/
   (exists data d, carried id text html w data /\ opened_for user token w data d /\
      text' = or_else (db_body_text d) text /\ html' = or_else (db_body_html d) html /\ status = Some (db_status d))).
Proof using Type.
  unfold finalize_message_response_with_opengpg, bind, attempt. destruct (enrich_message_opengpg _ _ _ _ _ _ w) as [r w1] eqn:He. intros [= Hs <-].
  split; [by eapply enrich_only_ring|]. unfold show_bodies in Hs. destruct r as [[d|]|e].
  - destruct (enriched _ _ _ _ _ _ _ _ He) as [(Henc & Hd)|[(csf & Hin & Henc & Hd & Hh & Ht)|(Hd & data & Hc & Ho)]].
    + rewrite Henc, Hd in Hs. cbn in Hs. injection Hs as <- <- <-. left. split; [done|]. split; [done|]. by intros s [= <-].
    + rewrite Henc, Hd, Hh in Hs. cbn in Hs. destruct (db_body_text d) as [t|] eqn:Hbt; cbn in Hs; injection Hs as <- <- <-.
      * destruct (Ht t eq_refl) as (msg & Hm & ->). right. left. by exists csf, msg, (db_status d).
      * left. split; [done|]. split; [done|]. by intros s [= <-].
    + rewrite Hd in Hs. cbn in Hs. injection Hs as <- <- <-. right. right. by exists data, d.
  - injection Hs as <- <- <-. by left.
  - injection Hs as <- <- <-. left. split; [done|]. split; [done|]. by intros s [= <-].
Qed.

Definition verified (key : StoredKey) : Prop := exists pk, public_from_string (sk_key_data key) = Ok pk /\
  ((exists msg, message_verify msg pk = Some true) \/ exists msg, cleartext_verify msg pk = true).
Definition attested (keys : list StoredKey) (l : list OpengpgSignatureStatus) : Prop :=
  forall s, s ∈ l -> si_valid s = true -> exists k, k ∈ keys /\ si_fingerprint s = sk_fingerprint k /\ verified k.
Lemma message_attested msg keys : attested keys (verify_message_signatures msg keys).
Proof using Type.
  intros s. unfold verify_message_signatures. destruct (negb (message_is_signed msg)); [by intros ?%not_elem_of_nil|].
  intros (k & Hk & Hs)%list_elem_of_omap Hv. destruct (public_from_string (sk_key_data k)) as [pk|] eqn:Hp; [|done].
  destruct (message_verify msg pk) as [[]|] eqn:Hm; [|done..]. injection Hs as <-. exists k. split; [done|]. split; [done|]. exists pk. eauto.
Qed.
Lemma check_attested msg keys all signatures : (forall k, k ∈ keys -> k ∈ all) -> attested all signatures -> attested all (check_keys msg keys signatures).
Proof using Type.
  revert signatures. induction keys as [|k keys IH]; intros signatures Hin Hsig; cbn [check_keys]; [done|].
  assert (Hrest : forall x, x ∈ keys -> x ∈ all) by (intros x Hx; apply Hin; by right).
  destruct (public_from_string (sk_key_data k)) as [pk|] eqn:Hp; [|by apply IH]. cbv zeta.
  destruct (cleartext_verify msg pk) eqn:Hv; cbn [orb].
  - intros s Hs _. apply list_elem_of_In, filter_In in Hs as [Hs Hval]. apply list_elem_of_In in Hs. apply elem_of_app in Hs as [Hs|Hs]; [by apply Hsig|].
    apply list_elem_of_singleton in Hs as ->. exists k. split; [apply Hin; by left|]. split; [done|]. exists pk. eauto.
  - destruct (bool_decide _); [|by apply IH]. apply IH; [done|]. intros s Hin2 Hval; apply elem_of_app in Hin2 as [Hs|Hs]; [by apply Hsig|]; apply list_elem_of_singleton in Hs; by subst s.
Qed.

(** A signature is shown as valid only when a key of the user's keyring verifies the message, and under that key's fingerprint. *)
Theorem valid_signatures_verify user token id text html w d w' s :
  enrich_message_opengpg (K := K) (R := R) data_dir user token id text html w = (Ok (Some d), w') ->
  s ∈ ps_signatures (db_status d) -> si_valid s = true ->
  exists k, k ∈ user_keys user (rw_pgp w) /\ si_fingerprint s = ok_fingerprint k /\ verified (stored_key_from_row k).
Proof using Type.
  intros He Hs Hv. unfold enrich_message_opengpg in He.
  apply bind_Ok in He as (atts & w1 & Ha & He).
  assert (M1 : only_ring token w w1).
  { revert Ha. match goal with |- (if ?b then _ else _) _ = _ -> _ => destruct b end; [|by intros [= _ <-]].
    assert (Hp : preserves (only_ring token) (load_pgpish_attachments (K := K) (R := R) data_dir id)) by (unfold load_pgpish_attachments; preserve). apply Hp. }
  match type of He with (if ?b then _ else _) _ = _ => destruct b; [done|] end.
  apply bind_Ok in He as (keys & w2 & Hk & He). apply bind_Ok in He as (account & w3 & Hacc & He).
  apply bind_Ok in He as (secrets & w4 & Hsec & He). cbv zeta in He.
  assert (Hall : attested keys (ps_signatures (db_status d))).
  { match type of He with (if ?b then _ else _) _ = _ => destruct b end; [injection He as <- _; by intros ? ?%not_elem_of_nil|]. injection He as He _.
    apply processed in He as [(data & _ & ->)|(csf & _ & ->)].
    - unfold decrypt_bytes. destruct (prefer_account_secrets secrets account) as [|x l]; [by intros ? ?%not_elem_of_nil|].
      destruct (ps_decrypted (db_status (try_keys data true (x :: l) keys))) eqn:Hd.
      + apply tried in Hd as (stored & pass & _ & (secret & message & decrypted & msg & _ & _ & _ & _ & _ & ->)). apply message_attested.
      + assert (Hnil : ps_signatures (db_status (try_keys data true (x :: l) keys)) = []); [|rewrite Hnil; by intros ? ?%not_elem_of_nil].
        revert Hd. generalize (x :: l). induction l0 as [|[st p] l0 IH]; cbn [try_keys]; [done|].
        destruct (secret_from_string _); [|exact IH]. destruct (message_from_bytes data); [|done]. destruct (message_decrypt _ _ _); [|exact IH].
        destruct (message_decompress _); [done|exact IH].
    - unfold verify_cleartext. destruct (cleartext_from_string csf) as [msg|]; [|by intros ? ?%not_elem_of_nil]. cbn [db_status ps_signatures].
      assert (Hc : attested keys (check_keys msg keys [])) by (apply check_attested; [done|]; by intros ? ?%not_elem_of_nil).
      destruct (check_keys msg keys []); [|done]. by intros x ->%list_elem_of_singleton. }
  destruct (Hall s Hs Hv) as (k & Hmem & Hf & Hver).
  unfold on_pgp in Hk. destruct (list_keys user None (rw_pgp w1)) as [rk p] eqn:Hlist. injection Hk as -> _.
  destruct (listed _ _ _ _ Hlist _ Hmem) as (r & Hku & ->). exists r. split; [|done].
  unfold user_keys in *. destruct M1 as (_ & _ & _ & Hkeys & _). by rewrite <-Hkeys.
Qed.

(** Text signed by nobody the user knows: the status names the first key of the keyring, as if that key had failed. *)
Lemma unknown_signer_named_after_first_key msg key rest pk :
  public_from_string (sk_key_data key) = Ok pk ->
  (forall k pk', k ∈ key :: rest -> public_from_string (sk_key_data k) = Ok pk' -> cleartext_verify msg pk' = false) ->
  check_keys msg (key :: rest) [] = [mkSignature (sk_fingerprint key) (Some (sk_primary_email key)) false None].
Proof using Type.
  intros Hp Hn. cbn [check_keys]. rewrite Hp, (Hn key pk) by (done || by left). cbn.
  assert (Hrest : forall k pk', k ∈ rest -> public_from_string (sk_key_data k) = Ok pk' -> cleartext_verify msg pk' = false).
  { intros k pk' Hk. apply Hn. by right. }
  clear Hn Hp. induction rest as [|k rest IH]; cbn [check_keys]; [done|].
  destruct (public_from_string (sk_key_data k)) as [pk'|] eqn:Hk; [rewrite (Hrest k pk') by (done || by left); cbn|]; apply IH; intros; eapply Hrest; eauto; by right.
Qed.
(** A valid signature over the text part leaves the HTML part, which it does not cover, on show beside the status. *)
Lemma signed_text_keeps_unsigned_html text html csf keys :
  let '(_, shown, status) := show_bodies text html (Ok (Some (verify_cleartext csf keys))) in
  shown = html /\ status = Some (db_status (verify_cleartext csf keys)).
Proof using Type. unfold show_bodies, verify_cleartext. by destruct (cleartext_from_string csf). Qed.
(** When what was opened holds no HTML, the HTML of the mail as it was stored, outside the seal, stays on show beside a status that says decrypted. *)
Lemma opened_text_keeps_stored_html text html d : ps_decrypted (db_status d) = true -> db_body_html d = None ->
  show_bodies text html (Ok (Some d)) = (or_else (db_body_text d) text, html, Some (db_status d)).
Proof using Type. intros Hd Hh. unfold show_bodies. by rewrite Hd, Hh. Qed.
End Seen.

(** ** Witnesses *)

#[export] Instance toy_reader : PgpReader := {
  PgpMessage := string;
  message_from_bytes s := if starts_with "-----BEGIN" s then Some s else None;
  message_decrypt m pass k := if String.eqb pass (pk_fingerprint k) && contains_str (" " +:+ pk_fingerprint k +:+ " ") m then Ok "see you at noon" else Err "no session key";
  message_decompress := Some;
  message_data := Some;
  message_is_signed m := false;
  message_verify m k := None;
  CleartextMessage := string;
  cleartext_from_string := Some;
  cleartext_text m := m;
  cleartext_verify m k := contains_str (" " +:+ pk_fingerprint k +:+ " ") m;
  parse_bodies _ := None;
}.
#[local] Instance read_upper : UpperLib := to_ascii_uppercase.
Definition sealed_text : string := BEGIN_MESSAGE +:+ " F1 " +:+ "-----END PGP MESSAGE-----".
Definition reading_world (keys : list KeyRow) (atts : list AttachmentRow) (files : gmap string string) : read_world MemoryKv.t N :=
  mkReadWorld (toy_pgp_world keys None) [] atts (mkDisk files None false).
Definition toy_enrich (text : string) (w : read_world MemoryKv.t N) := enrich_message_opengpg "/data" "u1" "tok" "m1" (Some text) None w.

Definition toy_show (text : string) (html : option string) (w : read_world MemoryKv.t N) :=
  finalize_message_response_with_opengpg "/data" "u1" (Some "tok") "m1" (Some text) html w.
(** The sealed text is shown opened, and the HTML beside it as it came. *)
Lemma decrypted_with_an_unlocked_key_witness :
  let w := reading_world toy_keys [] ∅ in
  fst (toy_show ("Hello" +:+ sealed_text) (Some "<p>pay me</p>") w) = Ok (Some "see you at noon", Some "<p>pay me</p>", Some (mkPgpStatus true true [] None)) /\
  exists data d, carried "/data" "m1" (Some ("Hello" +:+ sealed_text)) (Some "<p>pay me</p>") w data /\ opened_for "u1" "tok" w data d.
Proof.
  intros w. assert (Hr : fst (toy_show ("Hello" +:+ sealed_text) (Some "<p>pay me</p>") w) =
    Ok (Some "see you at noon", Some "<p>pay me</p>", Some (mkPgpStatus true true [] None))) by by vm_compute.
  split; [exact Hr|].
  destruct (decrypted_with_an_unlocked_key "/data" "u1" "tok" "m1" (Some ("Hello" +:+ sealed_text)) (Some "<p>pay me</p>") w _ _ _
    (snd (toy_show ("Hello" +:+ sealed_text) (Some "<p>pay me</p>") w)) (answer _ _ Hr))
    as (_ & [(_ & _ & Hs)|[(csf & msg & s & _ & _ & _ & _ & [= <-] & Hd)|(data & d & Hc & Ho & _)]]).
  - by specialize (Hs _ eq_refl).
  - done.
  - by exists data, d.
Defined.
Lemma valid_signatures_verify_witness :
  let w := reading_world toy_keys [] ∅ in
  let text := BEGIN_SIGNED +:+ " F2 " +:+ BEGIN_SIGNATURE +:+ "-----END PGP SIGNATURE-----" in
  exists k, k ∈ user_keys "u1" (rw_pgp w) /\ "F2" = ok_fingerprint k /\ verified (stored_key_from_row k).
Proof.
  intros w text.
  assert (Hd : exists d, fst (toy_enrich text w) = Ok (Some d) /\ ps_signatures (db_status d) = [mkSignature "F2" (Some "bob@y.org") true None])
    by (eexists; split; [by vm_compute|done]).
  destruct Hd as (d & He & Hs).
  refine (valid_signatures_verify "/data" "u1" "tok" "m1" (Some text) None w d (snd (toy_enrich text w))
    (mkSignature "F2" (Some "bob@y.org") true None) (answer _ _ He) _ eq_refl). rewrite Hs. by left.
Defined.

(** A picture sent as [application/octet-stream]: its first byte is above 127, and a plain mail counts as encrypted. *)
Example picture_reads_as_encrypted :
  let picture := mkAttachment "t1" "m1" "photo.png" "application/octet-stream" 4 "p" None false in
  let files := {[ "/data/p" := String (ascii_of_N 137) "PNG" ]} in
  fst (toy_enrich "Hello" (reading_world [] [picture] files)) = Ok (Some (undecrypted true [] "no matching secret key")).
Proof. vm_compute. reflexivity. Qed.
