(* ===== verification/PgpRoutes.v ===== *)
(** * OpenPGP keys: the routes ([opengpg/http.rs])

    The API of the keyring: keys listed, imported, generated, bound, promoted, exported and
    deleted, passphrases kept in the unlock ring of the session, and the settings in the
    key-value store.  Requests are the parsed bodies; a key generation or a passphrase check that
    panics off the runtime is left out. *)
From S2P Require Import Prelude Kv Crypto UnlockRing World Toy Session Captcha Auth Labels Jobs Netsec MailStore Imap ImapLoop Blobs Jmap JmapLoop.
From S2P Require Import Spam OAuth Ai Dav OpenPgp.
Local Open Scope string_scope.
Local Open Scope Z_scope.

Record KeyResponse := mkKeyResponse {
  kr_id : string; kr_fingerprint : string; kr_account_id : option string; kr_primary_email : string; kr_emails : list string;
  kr_is_secret : bool; kr_is_primary : bool; kr_revoked : bool }.
Definition key_response (k : StoredKey) : KeyResponse :=
  mkKeyResponse (sk_id k) (sk_fingerprint k) (sk_account_id k) (sk_primary_email k) (sk_emails k) (sk_is_secret k) (sk_is_primary k) (sk_revoked k).
Record ImportKeyRequest := mkImport { im_armored : string; im_is_primary : bool; im_account_id : option string }.
Record GenerateKeyRequest := mkGenerate {
  ge_email : option string; ge_name : option string; ge_passphrase : string; ge_algorithm : option string; ge_account_id : option string }.
(** [pk_account]: absent, null or an id. *)
Record PatchKeyRequest := mkPatchKey { pk_is_primary : option bool; pk_account : option (option string) }.
Record ExportResponse := mkExport { ex_armored : string; ex_is_secret : bool }.
Record UnlockRequest := mkUnlock { un_key_id : string; un_passphrase : string; un_cache : string; un_ttl_minutes : option Z }.
Record UnlockResponse := mkUnlocked { ur_key_id : string; ur_cache : string; ur_unlocked : bool; ur_cached : bool }.
Record PassphraseCachePref := mkCachePref { cp_mode : string; cp_ttl_minutes : Z }.
Definition default_settings : PassphraseCachePref := mkCachePref "timed" DEFAULT_TTL_MINUTES.
Definition UNLOCK_RL_MAX : Z := 5.
Definition UNLOCK_RL_TTL : Z := 15 * 60.

(** Status, message and code. *)
Definition pgp_answer (e : OpengpgError) : Z * string * string :=
  match e with
  | PgpNotFound => (404, "not found", "not_found")
  | InvalidKey m => (400, "invalid OpenGPG key: " +:+ m, "bad_request")
  | NoEmail => (400, "no user id / email on key", "bad_request")
  | PgpInput m => (400, "invalid input: " +:+ m, "bad_request")
  | PgpConflict m => (409, "conflict: " +:+ m, "conflict")
  | PgpUnauthorized m => (401, m, "unauthorized")
  | PgpTooMany => (429, "too many unlock attempts", "too_many_requests")
  | PgpDatabase => (500, "internal error", "internal_error")
  | PgpPanic => (500, "", "")
  end.
Definition kv_text (e : KvError.t) : string := match e with KvError.Internal m => "kv internal error: " +:+ m end.
Inductive ExportError := ExportPgp (e : OpengpgError) | ExportAuth (e : AuthError.t) | ExportNeedsPassword.

Section Routes.
Context {K R : Type} `{KvStore K} `{HasRng R} `{CryptoLib} `{SettingsJson} `{CaptchaNet} `{AuthLib} `{PgpLib} `{StoreLib} `{UpperLib} `{JsonLib}.
Local Abbreviation W := (pgp_world K R).
Local Abbreviation M := (io W OpengpgError).
Implicit Types w : W.

Definition on_world {E A} (m : io (world K R) E A) : io W E A := fun w => let '(r, a) := m (pw_auth w) in (r, set_pgp_auth a w).
Definition on_kv {A} (m : io (world K R) KvError.t A) : M A := map_err (fun e => PgpInput (kv_text e)) (on_world m).

Definition list_keys_handler (user_id : string) (account_id : option string) : M (list KeyResponse) :=
  let! keys := list_keys user_id account_id in ret (map key_response keys).
Definition recipient_keys_handler (user_id emails : string) : M (list RecipientKeyLookup) :=
  match List.filter (fun s => negb (is_empty s)) (map trim (split_char "," emails)) with
  | [] => throw (PgpInput "emails query required")
  | l => lookup_recipient_keys user_id l
  end.
Definition get_key_handler (user_id id : string) : M KeyResponse := let! key := require_key user_id id in ret (key_response key).
Definition import_key (user_id : string) (body : ImportKeyRequest) : M KeyResponse :=
  let! stored := import_armored user_id (im_armored body) (im_is_primary body) (im_account_id body) in ret (key_response stored).
Definition generate_key (user_id : string) (body : GenerateKeyRequest) : M KeyResponse :=
  let! algo := lift (parse_algorithm (default "rsa4096" (ge_algorithm body))) in
  let! owned := match ge_account_id body with
                | Some a => let! o := load_owned_account user_id a in ret (Some o)
                | None => ret None
                end in
  match owned with
  | None => throw (PgpInput "generating an identity key requires one of your accounts (accountId)")
  | Some o =>
      let email := default (oa_email_address o) (ge_email body) in
      let name := default "" (or_else (ge_name body) (oa_display_name o)) in
      let! rng := draw_number in
      let! parsed := lift (generate_keypair rng email name (ge_passphrase body) algo) in
      let! stored := insert_key user_id parsed true (ge_account_id body) in
      ret (key_response stored)
  end.
Definition patch_key (user_id id : string) (body : PatchKeyRequest) : M KeyResponse :=
  let! current := require_key user_id id in
  let! current := match pk_account body with Some new_account => set_account_binding user_id id new_account | None => ret current end in
  match pk_is_primary body with
  | Some true => let! stored := set_primary user_id id in ret (key_response stored)
  | Some false => throw (PgpInput "clearing primary requires promoting another key")
  | None => ret (key_response current)
  end.
Definition delete_key_handler (user_id id : string) : M unit := delete_key user_id id.

Definition export_key (user_id id : string) (include_secret : bool) (current_password : option string) : io W ExportError ExportResponse :=
  let! key := map_err ExportPgp (require_key user_id id) in
  if include_secret then
    if sk_is_secret key then
      let! password := lift (ok_or ExportNeedsPassword current_password) in
      let! _ := map_err ExportAuth (on_world (verify_current_password user_id password)) in
      let! armored := map_err ExportPgp (export_armored user_id id) in
      ret (mkExport armored true)
    else
      let! armored := map_err ExportPgp (export_armored user_id id) in
      ret (mkExport armored false)
  else
    let! armored := map_err ExportPgp (export_public_armored user_id id) in
    ret (mkExport armored false).

(** ** The unlock ring *)

Definition unlock_rl_key (token : string) : string := "rl:opengpg-unlock:" +:+ token.
Definition attempts_of (v : option string) : Z := default 0 (v ≫= parse_i64).
Definition ensure_unlock_allowed (token : string) : M unit :=
  let! v := on_kv (kvget (unlock_rl_key token)) in
  if UNLOCK_RL_MAX <=? attempts_of v then throw PgpTooMany else ret tt.
(** A read and a write, not one increment. *)
Definition note_unlock_failure (token : string) : M unit :=
  let! v := on_kv (kvget (unlock_rl_key token)) in
  on_kv (kvset (unlock_rl_key token) (show_Z (attempts_of v + 1)) (Some UNLOCK_RL_TTL)).
Definition clear_unlock_failures (token : string) : M unit := let! _ := attempt (on_kv (kvdel (unlock_rl_key token))) in ret tt.
Definition on_ring {A} (f : Z -> rings -> A * rings) : M A := fun w =>
  let a := pw_auth w in let '(x, r) := f (w_now a) (w_unlock a) in (Ok x, set_pgp_auth (set_unlock r a) w).
Definition ring_put (token key_id pass : string) (m : CacheMode) (ttl : Z) : M unit := on_ring (fun now g => (tt, put now token key_id pass m ttl g)).
Definition unlock_key (user_id token : string) (body : UnlockRequest) : M UnlockResponse :=
  let! _ := ensure_unlock_allowed token in
  let! mode := lift (rmap_err PgpInput (parse_cache_mode (un_cache body))) in
  let ttl := clamp 1 MAX_TTL_MINUTES (default DEFAULT_TTL_MINUTES (un_ttl_minutes body)) in
  let! key := require_key user_id (un_key_id body) in
  if negb (sk_is_secret key) then throw (PgpInput "cannot unlock a public-only key") else
  match verify_secret_passphrase (sk_key_data key) (un_passphrase body) with
  | Err e =>
      let! _ := note_unlock_failure token in
      throw (match e with PgpInput _ => PgpUnauthorized "passphrase rejected" | other => other end)
  | Ok _ =>
      let! _ := clear_unlock_failures token in
      let! _ := ring_put token (un_key_id body) (un_passphrase body) mode ttl in
      let! cached := on_ring (fun now g => is_unlocked now token (un_key_id body) g) in
      ret (mkUnlocked (un_key_id body) (cache_mode_str mode) true cached)
  end.
Definition lock_keys (token : string) (key_id : option string) : M (list string) :=
  let! _ := on_ring (fun _ g => (tt, lock token key_id g)) in
  on_ring (fun now g => unlocked_ids now token g).

(** ** Settings *)

Definition settings_kv_key (user_id : string) : string := "user:" +:+ user_id +:+ ":opengpg".
Definition settings_json (s : PassphraseCachePref) : Json :=
  JObject [("passphraseCache", JObject [("mode", JString (cp_mode s)); ("ttlMinutes", JNumber (show_Z (cp_ttl_minutes s)))])].
(** serde on an object; the minutes default. *)
Definition settings_of_json (v : Json) : option PassphraseCachePref :=
  cache ← json_field "passphraseCache" v;
  mode ← json_field "mode" cache ≫= json_str;
  ttl ← match json_field "ttlMinutes" cache with
        | None => Some DEFAULT_TTL_MINUTES
        | Some (JNumber n) => parse_u32 n
        | Some _ => None
        end;
  Some (mkCachePref mode ttl).
Definition load_opengpg_settings (user_id : string) : M PassphraseCachePref :=
  let! v := attempt (on_kv (kvget (settings_kv_key user_id))) in
  ret (match v with Ok (Some raw) => default default_settings (json_parse raw ≫= settings_of_json) | _ => default_settings end).
Definition get_opengpg_settings (user_id : string) : M PassphraseCachePref := load_opengpg_settings user_id.
Definition patch_opengpg_settings (user_id : string) (cache : option PassphraseCachePref) : M PassphraseCachePref :=
  let! settings := load_opengpg_settings user_id in
  let! settings := match cache with
                   | Some c =>
                       let! _ := lift (rmap_err PgpInput (parse_cache_mode (cp_mode c))) in
                       if (1 <=? cp_ttl_minutes c) && (cp_ttl_minutes c <=? MAX_TTL_MINUTES) then ret c
                       else throw (PgpInput ("ttlMinutes must be 1–" +:+ show_Z MAX_TTL_MINUTES))
                   | None => ret settings
                   end in
  let! _ := on_kv (kvset (settings_kv_key user_id) (json_text (settings_json settings)) None) in
  ret settings.
End Routes.

(** ** The keyring stays in order *)

(** A request that changes keys. *)
Inductive KeyRequest :=
  | ImportRoute (body : ImportKeyRequest) | GenerateRoute (body : GenerateKeyRequest)
  | PatchRoute (id : string) (body : PatchKeyRequest) | DeleteRoute (id : string).
Section Ring.
Context {K R : Type} `{KvStore K} `{HasRng R} `{CryptoLib} `{SettingsJson} `{CaptchaNet} `{AuthLib} `{PgpLib} `{StoreLib} `{UpperLib} `{JsonLib}.
Local Abbreviation W := (pgp_world K R).
Implicit Types w : W.

Definition key_request (user_id : string) (r : KeyRequest) : io W OpengpgError unit :=
  match r with
  | ImportRoute body => let! _ := import_key user_id body in ret tt
  | GenerateRoute body => let! _ := generate_key user_id body in ret tt
  | PatchRoute id body => let! _ := patch_key user_id id body in ret tt
  | DeleteRoute id => delete_key_handler user_id id
  end.
(** The requests of any users, in order, each whatever it answers. *)
Fixpoint key_requests (l : list (string * KeyRequest)) w : W :=
  match l with [] => w | (user_id, r) :: l' => key_requests l' (snd (key_request user_id r w)) end.

#[local] Instance ring_pre user : PreOrder (keyring_step (K := K) (R := R) user).
Proof. split; [done|]. intros x y z (A & B & C) (D & E & F). split; [congruence|]. split; [congruence|]. auto. Qed.
Lemma keyring_quiet {E A} user (m : io W E A) : preserves untouched m -> preserves (keyring_step user) m.
Proof using Type. intros Hm w r w' Hr. by eapply untouched_step, Hm. Qed.
Lemma require_quiet user id : preserves (keyring_step user) (require_key (K := K) (R := R) user id).
Proof using Type. apply keyring_quiet, require_untouched. Qed.
Hint Resolve insert_key_step set_account_binding_step set_primary_step delete_key_step require_quiet : preserve.
Lemma key_request_step user r : preserves (keyring_step user) (key_request user r).
Proof using Type.
  destruct r as [body|body|id body|id]; cbn [key_request].
  - unfold import_key, import_armored. preserve.
  - unfold generate_key. apply pres_bind; [apply _| |intros ?; preserve]. apply pres_bind; [apply _|preserve|intros algo].
    apply pres_bind; [apply _| |intros [o|]; [|preserve]].
    + destruct (ge_account_id body) as [a|]; [|preserve]. apply pres_bind; [apply _|apply keyring_quiet, owned_untouched|intros ?; preserve].
    + cbv zeta. apply pres_bind; [apply _|apply keyring_quiet, draw_untouched|intros ?]. preserve.
  - unfold patch_key. apply pres_bind; [apply _| |intros ?; preserve]. apply pres_bind; [apply _|apply require_quiet|intros current].
    apply pres_bind; [apply _|destruct (pk_account body); preserve|intros now]. destruct (pk_is_primary body) as [[]|]; preserve.
  - unfold delete_key_handler. preserve.
Qed.

(** C34: From a keyring in order, along any requests of any users to the four routes that change
    keys (import, generate, patch, delete), the keyring stays in order: a secret key belongs to
    an account of its user and carries that account's address, a fingerprint is there once per
    user; and no such request touches a key of another user.  The routes of the accounts are
    outside: deleting an account unbinds its keys (the column is set to null), and changing its
    address leaves them bound to an address they do not carry. *)
Theorem keyring_stays_in_order l w : keyring_ok w ->
  keyring_ok (key_requests l w) /\
  forall user, Forall (fun x => x.1 <> user) l ->
    List.filter (fun r => String.eqb (ok_user r) user) (pw_keys (key_requests l w)) = List.filter (fun r => String.eqb (ok_user r) user) (pw_keys w).
Proof using Type.
  revert w. induction l as [|[u r] l IH]; intros w Hok; [by split; [|intros]|]. cbn [key_requests].
  destruct (key_request u r w) as [x w1] eqn:Hr. apply key_request_step in Hr as (_ & Hothers & Hstep). cbn [snd].
  destruct (IH w1 (Hstep Hok)) as [Hfin Hsame]. split; [done|]. intros user [Hne Hl]%Forall_cons. cbn in Hne. rewrite (Hsame user Hl).
  assert (Hu : forall k, List.filter (fun r => String.eqb (ok_user r) user) k = List.filter (fun r => String.eqb (ok_user r) user) (keys_of_others u k)).
  { intros k. unfold keys_of_others. induction k as [|y k IHk]; [done|]. cbn. destruct (String.eqb_spec (ok_user y) u) as [He|]; cbn; rewrite IHk.
    - by rewrite He, (proj2 (String.eqb_neq u user) Hne).
    - done. }
  by rewrite (Hu (pw_keys w1)), Hothers, <-Hu.
Qed.

(** A patch that is refused for clearing the primary flag has already moved the key. *)
Lemma refused_patch_moves_the_key user id a w w1 current moved w2 :
  require_key user id w = (Ok current, w1) -> set_account_binding user id a w1 = (Ok moved, w2) ->
  patch_key user id (mkPatchKey (Some false) (Some a)) w = (Err (PgpInput "clearing primary requires promoting another key"), w2).
Proof using Type. intros Hr Hs. unfold patch_key. step_with Hr. cbn [pk_account pk_is_primary]. by step_with Hs. Qed.

Lemma require_finds u k w x w' : require_key (K := K) (R := R) u k w = (Ok x, w') ->
  (exists r, List.find (users_key u k) (pw_keys w) = Some r /\ x = stored_key_from_row r) /\ pw_keys w' = pw_keys w /\ pw_auth w' = pw_auth w.
Proof using Type.
  unfold require_key, get_key, kread, kstmt, bind, lift. destruct (pw_fuse w) as [[|n]|]; [done|..];
    cbn; (destruct (List.find _ (pw_keys w)) as [r|]; [|done]); intros [= <- <-]; (split; [by exists r|done]).
Qed.
(** ** Rows marked public *)

(** What does not read as a secret key. *)
Definition secretless (armored : string) : Prop := is_ok (secret_from_string armored) = false.
Definition marked (r : KeyRow) : Prop := ok_is_secret r = false -> secretless (ok_key_data r).
Definition marks_kept w w' : Prop := Forall marked (pw_keys w) -> Forall marked (pw_keys w').
#[local] Instance marks_pre : PreOrder marks_kept.
Proof. split; [intros w Hw; exact Hw|]. intros x y z A B C. by apply B, A. Qed.
Lemma marks_quiet {E A} (m : io W E A) : preserves untouched m -> preserves marks_kept m.
Proof using Type. intros Hm w r w' [_ Hk]%Hm. unfold marks_kept. by rewrite Hk. Qed.
Lemma marks_require u k : preserves marks_kept (require_key (K := K) (R := R) u k).
Proof using Type. apply marks_quiet, require_untouched. Qed.
Lemma marks_validate u a es s : preserves marks_kept (validate_account_binding (K := K) (R := R) u a es s).
Proof using Type. apply marks_quiet, validate_untouched. Qed.
Lemma marks_owned u a : preserves marks_kept (load_owned_account (K := K) (R := R) u a).
Proof using Type. apply marks_quiet, owned_untouched. Qed.
Lemma marks_draw : preserves marks_kept (draw_number (K := K) (R := R)).
Proof using Type. apply marks_quiet, draw_untouched. Qed.
(** One statement over the keys. *)
Lemma marks_kstmt {A} (f : W -> result OpengpgError A * W) : (forall w, Forall marked (pw_keys w) -> Forall marked (pw_keys (f w).2)) ->
  preserves marks_kept (kstmt f).
Proof using Type.
  intros Hf w r w'. unfold kstmt, marks_kept. destruct (pw_fuse w) as [[|n]|]; [by intros [= _ <-]|..];
    intros Hr Hw; match type of Hr with f ?x = _ => specialize (Hf x Hw) end; by rewrite Hr in Hf.
Qed.
Lemma marks_edit p f : (forall r, marked r -> marked (f r)) -> preserves marks_kept (edit_keys (K := K) (R := R) p f).
Proof using Type.
  intros Hf. apply marks_kstmt. cbn. intros w Hw. apply Forall_map. eapply Forall_impl; [exact Hw|]. intros r Hr. cbn. destruct (p r); auto.
Qed.
Hint Resolve marks_require marks_validate marks_owned marks_draw : preserve.
Lemma marks_demote u a : preserves marks_kept (demote_bucket (K := K) (R := R) u a).
Proof using Type. by apply marks_edit. Qed.
Hint Resolve marks_demote : preserve.
Lemma marks_insert user parsed p a : (pa_is_secret parsed = false -> secretless (pa_key_data parsed)) ->
  preserves marks_kept (insert_key (K := K) (R := R) user parsed p a).
Proof using Type.
  intros Hp. unfold insert_key. apply pres_bind; [apply _|destruct a; [|destruct (pa_is_secret parsed)]; preserve|intros _].
  apply pres_bind; [apply _|apply marks_draw|intros n]. apply pres_bind; [apply _|preserve|intros _].
  apply pres_bind; [apply _| |intros _; apply marks_require]. apply marks_kstmt. intros w Hw. destruct (existsb _ _); [done|]. cbn.
  apply Forall_app. split; [done|]. by apply Forall_singleton.
Qed.
Lemma parsed_marked armored parsed : parse_armored_key armored = Ok parsed -> pa_is_secret parsed = false -> secretless (pa_key_data parsed).
Proof using Type.
  unfold parse_armored_key. destruct (is_empty _); [done|]. destruct (reject_multi_secret_bundle _); [|done]. cbn [rbind].
  unfold secretless. destruct (secret_from_string (trim armored)) as [k|] eqn:Hs.
  - unfold parsed_from_details. destruct (ok_or _ _); [|done]. by intros [= <-].
  - destruct (public_from_string _); [|done]. cbn [rmap_err rbind]. unfold parsed_from_details. destruct (ok_or _ _); [|done]. intros [= <-] _. cbn.
    by rewrite Hs.
Qed.
(** No request to the four routes leaves a secret in a row that is marked public. *)
Lemma request_keeps_marks user r : preserves marks_kept (key_request user r).
Proof using Type.
  destruct r as [body|body|id body|id]; cbn [key_request].
  - unfold import_key, import_armored. apply pres_bind; [apply _| |intros ?; preserve]. apply pres_bind; [apply _| |intros ?; preserve].
    intros w x w' [(e & He & _)|(parsed & w1 & Hp & Hrest)]%bind_inv; [by injection He as _ <-|]. injection Hp as Hp <-.
    eapply marks_insert; [by eapply parsed_marked|exact Hrest].
  - unfold generate_key. apply pres_bind; [apply _| |intros ?; preserve]. apply pres_bind; [apply _|preserve|intros algo].
    apply pres_bind; [apply _|destruct (ge_account_id body); preserve|intros [o|]; [|preserve]]. cbv zeta.
    apply pres_bind; [apply _|apply marks_draw|intros n].
    intros w x w' [(e & He & _)|(parsed & w1 & Hp & Hrest)]%bind_inv; [by injection He as _ <-|]. injection Hp as Hp <-. revert Hrest.
    apply (pres_bind marks_kept); [|intros ?; preserve]. apply marks_insert. revert Hp. unfold generate_keypair. cbv zeta. destruct (negb _); [done|].
    destruct (is_empty _); [done|]. destruct (rmap_err InvalidKey _); [|done]. apply parsed_marked.
  - unfold patch_key, set_account_binding, set_primary. preserve; by apply marks_edit.
  - unfold delete_key_handler, delete_key. preserve. apply marks_kstmt. cbn. intros w Hw. apply Forall_forall.
    intros y [Hy _]%list_elem_of_In%filter_In. by apply (proj1 (Forall_forall _ _) Hw), list_elem_of_In.
Qed.
Lemma public_rows_stay_public l w : Forall marked (pw_keys w) -> Forall marked (pw_keys (key_requests l w)).
Proof using Type.
  revert w. induction l as [|[u r] l IH]; intros w Hw; [done|]. cbn [key_requests]. apply IH. destruct (key_request u r w) as [x w1] eqn:Hr.
  by eapply request_keeps_marks.
Qed.

(** What may go out of a stored key: of a secret one, the certificate the library prints of it; of any other, the key. *)
Definition public_half (data out : string) : Prop :=
  match secret_from_string (trim data) with Ok secret => public_armor secret = Ok out | Err _ => out = trim data end.
(** C35: A secret key leaves the server only for the user's current password, checked for this
    very request.  Every other export that is answered is marked public and does not read as a
    secret key: it is the certificate that the library prints of the stored secret key, or a
    key that was no secret to begin with.  The library is taken at its word that a certificate
    it prints holds no secret, and the rows marked public hold none, which all the routes keep
    ([public_rows_stay_public]). *)
Theorem secret_export_needs_password user id include_secret password w answer_ w' :
  (forall k a, public_armor k = Ok a -> secretless a) -> Forall marked (pw_keys w) ->
  export_key user id include_secret password w = (Ok answer_, w') ->
  exists k, k ∈ user_keys user w /\ ok_id k = id /\
  if include_secret && ok_is_secret k
  then exists p a, password = Some p /\ verify_current_password user p (pw_auth w) = (Ok tt, a) /\ answer_ = mkExport (ok_key_data k) true
  else ex_is_secret answer_ = false /\ secretless (ex_armored answer_) /\
       if include_secret then ex_armored answer_ = ok_key_data k else public_half (ok_key_data k) (ex_armored answer_).
Proof using Type.
  intros Hlaw Hmarked. unfold export_key. intros (key & w1 & Hk & He)%bind_Ok. apply map_err_inv in Hk as (rk & Hk & Hrk). destruct rk as [k0|]; [|done]. injection Hrk as ->.
  apply require_finds in Hk as ((k & Hfind & ->) & Hkeys & Ha). exists k.
  assert (Hk : k ∈ user_keys user w /\ ok_id k = id).
  { apply find_some in Hfind as [Hin [Hi Hu]%andb_true_iff]. split; [|by apply String.eqb_eq]. by apply list_elem_of_In, filter_In. }
  split; [apply Hk|]. split; [apply Hk|].
  assert (Hmk : marked k) by by apply (proj1 (Forall_forall _ _) Hmarked), list_elem_of_In, (find_some _ _ Hfind).
  assert (Hagain : forall w2 w3 x, require_key user id w2 = (Ok x, w3) -> pw_keys w2 = pw_keys w -> x = stored_key_from_row k).
  { intros w2 w3 x Hx Hk2. apply require_finds in Hx as ((k' & Hf & ->) & _). rewrite Hk2, Hfind in Hf. by injection Hf as ->. }
  destruct include_secret; cbn [andb sk_is_secret stored_key_from_row] in *; [destruct (ok_is_secret k) eqn:Hsec|].
  - apply bind_Ok in He as (p & w2 & Hp & He). injection Hp as Hp <-. destruct password as [q|]; [|done]. injection Hp as ->.
    apply bind_Ok in He as (t & w3 & Hv & He). apply map_err_inv in Hv as (rv & Hv & Hrv). destruct rv as [[]|]; [|done].
    unfold on_world in Hv. destruct (verify_current_password user p (pw_auth w1)) as [rv a] eqn:Hver. injection Hv as -> <-. rewrite Ha in Hver.
    apply bind_Ok in He as (armored & w4 & Hex & [= <- <-]). apply map_err_inv in Hex as (rx & Hex & Hrx). destruct rx as [y|]; [|done]. injection Hrx as ->.
    unfold export_armored in Hex. apply bind_Ok in Hex as (key & w5 & Hreq & [= <- <-]). apply Hagain in Hreq as ->; [|by cbn]. by exists p, a.
  - apply bind_Ok in He as (armored & w4 & Hex & [= <- <-]). apply map_err_inv in Hex as (rx & Hex & Hrx). destruct rx as [y|]; [|done]. injection Hrx as ->.
    unfold export_armored in Hex. apply bind_Ok in Hex as (key & w5 & Hreq & [= <- <-]). apply Hagain in Hreq as ->; [|done]. cbn.
    split; [done|]. split; [by apply Hmk|done].
  - apply bind_Ok in He as (armored & w4 & Hex & [= <- <-]). apply map_err_inv in Hex as (rx & Hex & Hrx). destruct rx as [y|]; [|done]. injection Hrx as ->.
    unfold export_public_armored in Hex. apply bind_Ok in Hex as (key & w5 & Hreq & Hl). apply Hagain in Hreq as ->; [|done]. injection Hl as Hl _.
    cbn in Hl |- *. split; [done|]. unfold public_armored_from_stored in Hl. cbv zeta in Hl. unfold public_half, secretless.
    destruct (secret_from_string (trim (ok_key_data k))) as [secret|] eqn:Hs.
    + destruct (public_armor secret) as [out|] eqn:Ho; [|done]. injection Hl as <-. split; [by eapply Hlaw|done].
    + destruct (public_from_string _); [|done]. injection Hl as <-. by rewrite Hs.
Qed.
End Ring.

(** ** Guessing a passphrase *)

Section Guess.
Context {K R : Type} `{KvLaws K} `{HasRng R} `{!RngLaws R} `{CryptoLib} `{PgpLib} `{StoreLib} `{UpperLib}.
Local Abbreviation W := (pgp_world K R).
Implicit Types w : W.

Definition failures (token : string) w : Z := attempts_of (now_look (pw_auth w) (unlock_rl_key token)).
Lemma on_kv_run {A} (m : io (world K R) KvError.t A) w a v : m (pw_auth w) = (Ok v, a) -> on_kv m w = (Ok v, set_pgp_auth a w).
Proof using Type. intros Hm. unfold on_kv, map_err, on_world. by rewrite Hm. Qed.
Lemma allowed_run token w : exists a, kv_only (pw_auth w) a /\ views (pw_auth w) a /\
  ensure_unlock_allowed token w = ((if UNLOCK_RL_MAX <=? failures token w then Err PgpTooMany else Ok tt), set_pgp_auth a w).
Proof using Type.
  destruct (kvget_run (unlock_rl_key token) (pw_auth w)) as (a & Hg & Hk & Hv). exists a. split; [done|]. split; [done|].
  unfold ensure_unlock_allowed. step_with (on_kv_run _ _ _ _ Hg). fold (failures token w). by destruct (_ <=? _).
Qed.
Lemma failures_views token w a : kv_only (pw_auth w) a -> views (pw_auth w) a -> failures token (set_pgp_auth a w) = failures token w.
Proof using Type. intros Hk Hv. unfold failures. cbn. by rewrite (views_now _ _ _ Hk Hv). Qed.
Lemma kv_only_ring (a b : world K R) : kv_only a b -> w_unlock b = w_unlock a.
Proof using Type. by intros (s & g & ->). Qed.

(** Five passphrases rejected in a session close the unlocking of its keys: the sixth request is refused before the passphrase is looked
    at.  Below that, a rejected passphrase is counted and unlocks nothing. *)
Theorem unlock_guesses_are_counted user token body w k :
  List.find (users_key user (un_key_id body)) (pw_keys w) = Some k -> ok_is_secret k = true -> pw_fuse w = None ->
  is_ok (parse_cache_mode (un_cache body)) = true -> is_ok (verify_secret_passphrase (ok_key_data k) (un_passphrase body)) = false ->
  i64_min <= failures token w ->
  exists e w', unlock_key user token body w = (Err e, w') /\ w_unlock (pw_auth w') = w_unlock (pw_auth w) /\
    if UNLOCK_RL_MAX <=? failures token w then e = PgpTooMany /\ failures token w' = failures token w
    else failures token w' = failures token w + 1.
Proof using Type.
  intros Hfind Hsec Hfuse Hmode Hbad Hmin. destruct (allowed_run token w) as (a & Hk & Hv & Ha). unfold unlock_key.
  destruct (UNLOCK_RL_MAX <=? failures token w) eqn:Hcap.
  { exists PgpTooMany, (set_pgp_auth a w). split; [by step_with Ha|]. split; [by apply kv_only_ring|]. split; [done|by apply failures_views]. }
  step_with Ha. destruct (parse_cache_mode (un_cache body)) as [mode|]; [|done].
  assert (Hreq : require_key user (un_key_id body) (set_pgp_auth a w) = (Ok (stored_key_from_row k), set_pgp_auth a w)).
  { unfold require_key, get_key, kread, kstmt, bind, lift. cbn. rewrite Hfuse. cbn. rewrite Hfind. cbn. destruct w. cbn in *. by rewrite Hfuse. }
  cbn [rmap_err]. unfold lift at 1. rewrite (bind_step _ _ _ mode (set_pgp_auth a w)) by done. step_with Hreq.
  cbn [stored_key_from_row sk_is_secret sk_key_data]. rewrite Hsec. cbn [negb].
  destruct (verify_secret_passphrase (ok_key_data k) (un_passphrase body)) as [|e]; [done|].
  destruct (kvget_run (unlock_rl_key token) a) as (a1 & Hg1 & Hk1 & Hv1).
  destruct (kvset_run (unlock_rl_key token) (show_Z (failures token w + 1)) (Some UNLOCK_RL_TTL) a1) as (a2 & Hs & Hk2 & Hl2).
  assert (Hnote : note_unlock_failure token (set_pgp_auth a w) = (Ok tt, set_pgp_auth a2 w)).
  { unfold note_unlock_failure. step_with (on_kv_run _ (set_pgp_auth a w) _ _ Hg1).
    change (attempts_of (now_look a (unlock_rl_key token))) with (failures token (set_pgp_auth a w)). rewrite (failures_views _ _ _ Hk Hv).
    exact (on_kv_run _ (set_pgp_auth a1 (set_pgp_auth a w)) _ _ Hs). }
  step_with Hnote. eexists _, (set_pgp_auth a2 w). split; [done|]. split.
  { cbn. by rewrite (kv_only_ring _ _ Hk2), (kv_only_ring _ _ Hk1), (kv_only_ring _ _ Hk). }
  unfold failures, now_look. cbn. rewrite (kv_only_now _ _ Hk2), Hl2, decide_True by done.
  unfold attempts_of. replace (live _ _) with (Some (show_Z (failures token w + 1))).
  - cbn. rewrite parse_counter; [done|]. unfold UNLOCK_RL_MAX in Hcap. unfold i64_min, i64_max in *. lia.
  - unfold live, deadline, UNLOCK_RL_TTL. cbn. destruct (Z.leb_spec (w_now a1 + from_secs (15 * 60)) (w_now a1)) as [Hle|]; [|done].
    unfold from_secs, nanos_per_sec in Hle. lia.
Qed.
End Guess.

(** ** Witnesses *)

#[local] Instance routes_upper : UpperLib := to_ascii_uppercase.
#[local] Instance routes_json : JsonLib := OAuth.tree_codec.
Abbreviation toy_pw := (pgp_world MemoryKv.t N).
Definition toy_ringworld : toy_pw := toy_pgp_world toy_keys None.

Lemma toy_ring_ok : keyring_ok toy_ringworld.
Proof.
  split; [by apply (bool_decide_unpack _); vm_compute|by apply (bool_decide_unpack _); vm_compute|].
  constructor; [|constructor; [|constructor]]; intros Hs; [|by vm_compute in Hs].
  exists (toy_row "a1" "a1" "u1" "ann@x.org"). split; [by left|]. by vm_compute.
Qed.
Definition toy_requests : list (string * KeyRequest) :=
  [("u1", ImportRoute (mkImport "PUB F3 carl@z.org S3" false None)); ("u1", ImportRoute (mkImport "SEC F4 eve@z.org S4" true (Some "a1")));
   ("u1", GenerateRoute (mkGenerate None None "pw" (Some "ed25519") (Some "a1"))); ("u1", PatchRoute "k2" (mkPatchKey None (Some (Some "a1"))));
   ("u1", DeleteRoute "k1")].
Lemma keyring_stays_in_order_witness :
  keyring_ok (key_requests toy_requests toy_ringworld) /\
  (forall user, Forall (fun x => x.1 <> user) toy_requests ->
    List.filter (fun r => String.eqb (ok_user r) user) (pw_keys (key_requests toy_requests toy_ringworld)) =
    List.filter (fun r => String.eqb (ok_user r) user) (pw_keys toy_ringworld)) /\
  map ok_fingerprint (pw_keys (key_requests toy_requests toy_ringworld)) = ["F2"; "F3"; "PRINT1"].
Proof.
  destruct (keyring_stays_in_order toy_requests toy_ringworld toy_ring_ok) as [Hok Hsame]. split; [exact Hok|]. split; [exact Hsame|]. vm_compute. reflexivity.
Defined.
Definition toy_export := export_key "u1" "k1" true (Some "pw") toy_ringworld.
Lemma toy_certificates_hold_no_secret k a : public_armor k = Ok a -> secretless a.
Proof.
  intros Ha. injection Ha as <-. unfold secretless. cbn [secret_from_string toy_pgp]. generalize (pk_fingerprint k +:+ " " +:+ join "" (pk_users k) +:+ " " +:+ join "" (pk_subkeys k)).
  intros r. unfold toy_key. assert (Hs : split_char " " ("PUB " +:+ r) = "PUB" :: split_char " " r) by reflexivity. rewrite Hs.
  by destruct (split_char " " r) as [|? [|? [|? [|]]]].
Qed.
Lemma toy_rows_marked : Forall marked (pw_keys toy_ringworld).
Proof. constructor; [done|]. constructor; [|done]. by intros _; vm_compute. Qed.
Lemma secret_export_needs_password_witness :
  (exists answer_, fst toy_export = Ok answer_ /\ ex_is_secret answer_ = true /\
  exists k, k ∈ user_keys "u1" toy_ringworld /\ ok_id k = "k1" /\
  if true && ok_is_secret k
  then exists p a, Some "pw" = Some p /\ verify_current_password "u1" p (pw_auth toy_ringworld) = (Ok tt, a) /\ answer_ = mkExport (ok_key_data k) true
  else ex_is_secret answer_ = false /\ secretless (ex_armored answer_) /\ ex_armored answer_ = ok_key_data k) /\
  (* the secret key, asked for as public *)
  exists answer_, fst (export_key "u1" "k1" false None toy_ringworld) = Ok answer_ /\ secretless (ex_armored answer_).
Proof.
  split.
  - eexists. split; [by vm_compute|]. split; [done|].
    exact (secret_export_needs_password "u1" "k1" true (Some "pw") toy_ringworld _ (snd toy_export) toy_certificates_hold_no_secret toy_rows_marked (answer _ _ eq_refl)).
  - eexists. split; [by vm_compute|].
    destruct (secret_export_needs_password "u1" "k1" false None toy_ringworld _ (snd (export_key "u1" "k1" false None toy_ringworld))
      toy_certificates_hold_no_secret toy_rows_marked (answer _ _ eq_refl)) as (k & _ & _ & _ & Hs & _). exact Hs.
Defined.
Definition bad_guess : UnlockRequest := mkUnlock "k1" "guess" "session" None.
Definition guessed (n : nat) : toy_pw := Nat.iter n (fun w => snd (unlock_key "u1" "tok" bad_guess w)) toy_ringworld.
Lemma unlock_guesses_are_counted_witness :
  failures "tok" (guessed 5) = 5 /\
  exists e w', unlock_key "u1" "tok" bad_guess (guessed 5) = (Err e, w') /\ w_unlock (pw_auth w') = w_unlock (pw_auth (guessed 5)) /\
    if UNLOCK_RL_MAX <=? failures "tok" (guessed 5) then e = PgpTooMany /\ failures "tok" w' = failures "tok" (guessed 5)
    else failures "tok" w' = failures "tok" (guessed 5) + 1.
Proof.
  split; [by vm_compute|].
  exact (unlock_guesses_are_counted "u1" "tok" bad_guess (guessed 5) (key_row "k1" "u1" (Some "a1") "F1" "ann@x.org" true true "SEC F1 ann@x.org S1")
    eq_refl eq_refl eq_refl eq_refl eq_refl ltac:(by vm_compute)).
Defined.
