(* ===== verification/Outbound.v ===== *)
(** * Outgoing messages ([smtp.rs], the texts of [sync/send.rs])

    The message a compose window or a job hands to a send plugin, its JSON form, the MIME tree
    [lettre] is asked to build from it, and the transport it goes out on.  A MIME tree is the
    value the builder is given; parsing an address or a content type, writing the tree out and
    the SMTP dialogue are the classes [LettreLib] and [SmtpNet]. *)
From S2P Require Import Prelude Kv Crypto UnlockRing World Toy Session Labels Jobs Netsec MailStore Imap ImapLoop Blobs Jmap JmapLoop Spam OAuth Dav.
Local Open Scope string_scope.
Local Open Scope Z_scope.

(** ** Data *)

Inductive SmtpSecurity := SmtpTls | SmtpStarttls.
Inductive Mechanism := Plain | Login | Xoauth2.
Definition SMTP_AUTH_MECHANISMS : list Mechanism := [Plain; Login; Xoauth2].
Record SmtpConfig := mkSmtp {
  sc_host : string; sc_port : Z; sc_security : SmtpSecurity; sc_username : string; sc_password : string; sc_xoauth2 : bool }.
Record OutboundAttachment := mkOutAttachment {
  oa_filename : string; oa_content_type : string; oa_data_base64 : string; oa_content_id : option string }.
Abbreviation address := (option string * string)%type.
Record OutboundMessage := mkOutbound {
  om_from_email : string; om_from_name : option string; om_to : list address; om_cc : list address; om_bcc : list address;
  om_subject : string; om_body_text : option string; om_body_html : option string; om_in_reply_to : option string;
  om_references : option string; om_mime_content_type : option string; om_mime_body : option string;
  om_attachments : list OutboundAttachment; om_message_id : option string }.

(** [Display] of an [SmtpError]. *)
Definition smtp_error_text (e : SmtpError) : string :=
  match e with
  | SmtpTransient m => "SMTP transient: " +:+ m
  | SmtpPermanent m => "SMTP permanent: " +:+ m
  | SmtpTransport m => "SMTP transport error: " +:+ m
  | SmtpBuild m => "message build error: " +:+ m
  | SmtpAddress m => "invalid address: " +:+ m
  | SmtpCrypto m => "crypto error: " +:+ m
  | SmtpCredential m => "invalid credential: " +:+ m
  | Jobs.SmtpConfig m => "configuration error: " +:+ m
  end.
Definition is_retryable (e : SmtpError) : bool := match e with SmtpTransient _ => true | _ => false end.
(** What the crate tells of a transport failure. *)
Record LettreFailure := mkLettreFailure { lf_transient : bool; lf_timeout : bool; lf_permanent : bool; lf_text : string }.
Definition classify_transport_error (err : LettreFailure) : SmtpError :=
  if lf_transient err || lf_timeout err then SmtpTransient (lf_text err)
  else if lf_permanent err then SmtpPermanent (lf_text err) else SmtpTransport (lf_text err).

Definition is_ascii (s : string) : bool := sforall (fun a => (byte a <? 128)%N) s.
Definition ascii_opt (o : option string) : bool := match o with Some s => is_ascii s | None => true end.
Definition all_recipients (msg : OutboundMessage) : list address := (om_to msg ++ om_cc msg ++ om_bcc msg)%list.
Definition needs_smtputf8 (msg : OutboundMessage) : bool := existsb (fun a => negb (is_ascii a)) (om_from_email msg :: map snd (all_recipients msg)).
Definition needs_8bitmime (msg : OutboundMessage) : bool :=
  negb (is_ascii (om_subject msg)) || negb (ascii_opt (om_body_text msg)) || negb (ascii_opt (om_body_html msg)).

Record EhloCapabilities := mkEhlo {
  eh_eight_bit_mime : bool; eh_smtp_utf8 : bool; eh_starttls : bool; eh_auth_plain : bool; eh_auth_login : bool; eh_auth_xoauth2 : bool }.
Definition no_ehlo : EhloCapabilities := mkEhlo false false false false false false.
Definition ehlo_mechanism (c : EhloCapabilities) (mech : string) : EhloCapabilities :=
  mkEhlo (eh_eight_bit_mime c) (eh_smtp_utf8 c) (eh_starttls c) (eh_auth_plain c || String.eqb mech "PLAIN")
    (eh_auth_login c || String.eqb mech "LOGIN") (eh_auth_xoauth2 c || String.eqb mech "XOAUTH2").
Definition ehlo_line (c : EhloCapabilities) (line : string) : EhloCapabilities :=
  match split_whitespace line with
  | [] => c
  | keyword :: rest =>
      if String.eqb keyword "AUTH" then foldl ehlo_mechanism c rest
      else mkEhlo (eh_eight_bit_mime c || String.eqb keyword "8BITMIME") (eh_smtp_utf8 c || String.eqb keyword "SMTPUTF8")
             (eh_starttls c || String.eqb keyword "STARTTLS") (eh_auth_plain c) (eh_auth_login c) (eh_auth_xoauth2 c)
  end.
Definition from_ehlo_lines (l : list string) : EhloCapabilities := foldl ehlo_line no_ehlo l.
Definition allows_message (c : EhloCapabilities) (msg : OutboundMessage) : result string unit :=
  if needs_smtputf8 msg && negb (eh_smtp_utf8 c) then Err "envelope needs SMTPUTF8 but server did not advertise it"
  else if needs_8bitmime msg && negb (eh_eight_bit_mime c) then Err "message needs 8BITMIME but server did not advertise it"
  else if negb (eh_auth_plain c || eh_auth_login c || eh_auth_xoauth2 c) then Err "server advertises no supported AUTH mechanism"
  else Ok tt.

(** ** MIME *)

Inductive MultiKind := Mixed | Related | Alternative.
Inductive Part :=
  | Single (content_type body : string)
  | Attached (filename content_type data : string)                 (* base64, disposition [attachment] *)
  | InlineAs (content_id filename content_type data : string)      (* base64, disposition [inline] *)
  | Multi (kind : MultiKind) (parts : list Part).
(** The headers of a message builder; a draft with no recipient has an envelope of its own. *)
Record Builder := mkBuilder {
  bu_from : address; bu_subject : string; bu_message_id : option string; bu_in_reply_to : option string; bu_references : option string;
  bu_to : list address; bu_cc : list address; bu_bcc : list address; bu_undisclosed : bool; bu_envelope : option (string * list string) }.
Record LettreMessage := mkLettre { lm_headers : Builder; lm_body : Part }.
Class LettreLib := {
  parse_address : string -> option string;                         (* the error of [email.parse()] *)
  parse_content_type : string -> result string string;
  finish_message : Builder -> Part -> result string unit;          (* the builder's own checks *)
  formatted : LettreMessage -> string;                             (* a [Bcc] header is left out *)
  base64_failure : string -> string;                               (* the error of a bad base64 text *)
}.

Section Build.
Context `{LettreLib} `{CryptoLib} `{MimeLib}.

Definition attachment_from_bytes (filename content_type data : string) : OutboundAttachment :=
  mkOutAttachment filename content_type (b64_encode data) None.
Definition from_bytes_inline (filename content_type data content_id : string) : OutboundAttachment :=
  mkOutAttachment filename content_type (b64_encode data) (Some content_id).
Definition decode (att : OutboundAttachment) : result SmtpError string :=
  ok_or (SmtpPermanent ("attachment " +:+ oa_filename att +:+ ": " +:+ base64_failure (oa_data_base64 att))) (b64_decode (oa_data_base64 att)).

Definition build_body_part (msg : OutboundMessage) : result SmtpError Part :=
  match om_mime_content_type msg, om_mime_body msg with
  | Some ct, Some body =>
      let? content_type := rmap_err (fun e => SmtpPermanent ("invalid Content-Type: " +:+ e)) (parse_content_type ct) in
      Ok (Single content_type body)
  | _, _ =>
      Ok match om_body_text msg, om_body_html msg with
         | Some text, Some html => Multi Alternative [Single "text/plain; charset=utf-8" text; Single "text/html; charset=utf-8" html]
         | Some text, None => Single "text/plain; charset=utf-8" text
         | None, Some html => Single "text/html; charset=utf-8" html
         | None, None => Single "text/plain; charset=utf-8" ""
         end
  end.
Definition graphic (a : ascii) : bool := in_range 33 126 (byte a).
Definition validate_content_id (cid : string) : result SmtpError unit :=
  if negb (is_empty cid) && sforall (fun c => graphic c && negb (Ascii.eqb c "<") && negb (Ascii.eqb c ">")) cid then Ok tt
  else Err (SmtpPermanent ("invalid content-id: " +:+ str_debug cid)).
Definition type_or_octets (ct : string) : string := match parse_content_type ct with Ok t => t | Err _ => "application/octet-stream" end.
Definition attachment_part (att : OutboundAttachment) : result SmtpError Part :=
  let? bytes := decode att in Ok (Attached (oa_filename att) (type_or_octets (oa_content_type att)) bytes).
Definition inline_part (att : OutboundAttachment) : result SmtpError Part :=
  let? cid := ok_or (SmtpPermanent ("inline attachment " +:+ oa_filename att +:+ ": missing content_id")) (oa_content_id att) in
  let? _ := validate_content_id cid in
  let? bytes := decode att in
  Ok (InlineAs cid (oa_filename att) (type_or_octets (oa_content_type att)) bytes).
Fixpoint parts_of (f : OutboundAttachment -> result SmtpError Part) (l : list OutboundAttachment) : result SmtpError (list Part) :=
  match l with
  | [] => Ok []
  | att :: rest => let? p := f att in let? ps := parts_of f rest in Ok (p :: ps)
  end.
(** [Mailbox::new(name, email.parse()?)] of each. *)
Fixpoint mailboxes (l : list address) : result SmtpError unit :=
  match l with
  | [] => Ok tt
  | (_, email) :: rest => match parse_address email with Some e => Err (SmtpAddress e) | None => mailboxes rest end
  end.
Definition no_recipients (msg : OutboundMessage) : bool := bool_decide (length (all_recipients msg) = 0%nat).
Definition headers_of (msg : OutboundMessage) : Builder :=
  mkBuilder (om_from_name msg, om_from_email msg) (om_subject msg) (om_message_id msg) (om_in_reply_to msg) (om_references msg)
    (om_to msg) (om_cc msg) (om_bcc msg) (no_recipients msg)
    (if no_recipients msg then Some (om_from_email msg, [om_from_email msg]) else None).
Definition is_inline (msg : OutboundMessage) (a : OutboundAttachment) : bool :=
  bool_decide (om_mime_body msg = None) && bool_decide (is_Some (oa_content_id a)).
Definition build_message (msg : OutboundMessage) : result SmtpError LettreMessage :=
  let? _ := mailboxes [(om_from_name msg, om_from_email msg)] in
  let? _ := mailboxes (all_recipients msg) in
  let? body_part := build_body_part msg in
  let inline := List.filter (is_inline msg) (om_attachments msg) in
  let regular := List.filter (fun a => negb (is_inline msg a)) (om_attachments msg) in
  let? body_level := match inline with
                     | [] => Ok body_part
                     | _ => let? ps := parts_of inline_part inline in Ok (Multi Related (body_part :: ps))
                     end in
  let? body := match regular with
               | [] => Ok body_level
               | _ => let? ps := parts_of attachment_part regular in Ok (Multi Mixed (body_level :: ps))
               end in
  let? _ := rmap_err SmtpBuild (finish_message (headers_of msg) body) in
  Ok (mkLettre (headers_of msg) body).
(** The addresses the message goes to: lettre reads them off the recipient headers. *)
Definition envelope_to (m : LettreMessage) : list string :=
  match bu_envelope (lm_headers m) with
  | Some (_, l) => l
  | None => map snd (bu_to (lm_headers m) ++ bu_cc (lm_headers m) ++ bu_bcc (lm_headers m))%list
  end.
End Build.

(** ** The transport *)

Record SmtpRelay := mkTransport {
  tr_host : string; tr_port : Z; tr_security : SmtpSecurity; tr_user : string; tr_secret : string; tr_mechanisms : list Mechanism }.
Class SmtpNet (T : Type) := {
  smtp_relay : SmtpSecurity -> string -> option LettreFailure;           (* the TLS parameters of the host *)
  smtp_submit : SmtpRelay -> LettreMessage -> io T LettreFailure unit;
  sent_uuid : T -> string * T;
}.
Section Adapter.
Context {T : Type} `{SmtpNet T} `{LettreLib} `{CryptoLib} `{MimeLib}.

Definition smtp_connect (config : SmtpConfig) : result SmtpError SmtpRelay :=
  match smtp_relay (sc_security config) (sc_host config) with
  | Some e => Err (SmtpTransport (lf_text e))
  | None => Ok (mkTransport (sc_host config) (sc_port config) (sc_security config) (sc_username config) (sc_password config)
                  (if sc_xoauth2 config then [Xoauth2] else SMTP_AUTH_MECHANISMS))
  end.
Definition smtp_send (transport : SmtpRelay) (msg : OutboundMessage) : io T SmtpError string :=
  if no_recipients msg then throw (SmtpPermanent "no recipients") else
  let! message := lift (build_message msg) in
  let! _ := map_err classify_transport_error (smtp_submit transport message) in
  let! id := (fun n => let '(u, n') := sent_uuid n in (Ok u, n')) in
  ret ("sent-" +:+ id).
Definition deliver_smtp (config : SmtpConfig) (outbound : OutboundMessage) : io T SmtpError string :=
  let! adapter := lift (smtp_connect config) in
  smtp_send adapter outbound.
End Adapter.

(** ** JSON ([serde]) *)

Definition json_opt (o : option string) : Json := match o with Some s => JString s | None => JNull end.
Definition opt_field (key : string) (o : option string) : list (string * Json) := match o with Some s => [(key, JString s)] | None => [] end.
Definition address_json (a : address) : Json := JArray [json_opt (fst a); JString (snd a)].
Definition attachment_json (a : OutboundAttachment) : Json :=
  JObject ([("filename", JString (oa_filename a)); ("content_type", JString (oa_content_type a)); ("data_base64", JString (oa_data_base64 a))] ++
           opt_field "content_id" (oa_content_id a))%list.
Definition outbound_json (m : OutboundMessage) : Json :=
  JObject ([("from_email", JString (om_from_email m)); ("from_name", json_opt (om_from_name m)); ("to", JArray (map address_json (om_to m)));
            ("cc", JArray (map address_json (om_cc m))); ("bcc", JArray (map address_json (om_bcc m))); ("subject", JString (om_subject m));
            ("body_text", json_opt (om_body_text m)); ("body_html", json_opt (om_body_html m)); ("in_reply_to", json_opt (om_in_reply_to m));
            ("references", json_opt (om_references m))] ++
           opt_field "mime_content_type" (om_mime_content_type m) ++ opt_field "mime_body" (om_mime_body m) ++
           (match om_attachments m with [] => [] | l => [("attachments", JArray (map attachment_json l))] end) ++
           opt_field "message_id" (om_message_id m))%list.

(** A field that may be absent or null; a mandatory field. *)
Definition opt_of (v : Json) (key : string) : option (option string) :=
  match json_field key v with None | Some JNull => Some None | Some (JString s) => Some (Some s) | Some _ => None end.
Definition str_of (v : Json) (key : string) : option string := json_field key v ≫= json_str.
Definition list_of {A} (f : Json -> option A) (v : Json) : option (list A) := match v with JArray l => mapM f l | _ => None end.
Definition address_of_json (v : Json) : option address :=
  match v with
  | JArray [JNull; JString e] => Some (None, e)
  | JArray [JString n; JString e] => Some (Some n, e)
  | _ => None
  end.
(** The fields by name; serde takes a sequence in their order as well.  A field given twice, which serde refuses, is read
    where it comes first. *)
Definition attachment_of_json (v : Json) : option OutboundAttachment :=
  match v with
  | JArray [JString f; JString ct; JString d] | JArray [JString f; JString ct; JString d; JNull] => Some (mkOutAttachment f ct d None)
  | JArray [JString f; JString ct; JString d; JString c] => Some (mkOutAttachment f ct d (Some c))
  | _ =>
      f ← str_of v "filename"; ct ← str_of v "content_type"; d ← str_of v "data_base64"; c ← opt_of v "content_id";
      Some (mkOutAttachment f ct d c)
  end.
Definition outbound_of_json (v : Json) : option OutboundMessage :=
  from_email ← str_of v "from_email"; from_name ← opt_of v "from_name";
  to ← json_field "to" v ≫= list_of address_of_json; cc ← json_field "cc" v ≫= list_of address_of_json;
  bcc ← json_field "bcc" v ≫= list_of address_of_json; subject ← str_of v "subject"; body_text ← opt_of v "body_text";
  body_html ← opt_of v "body_html"; in_reply_to ← opt_of v "in_reply_to"; references ← opt_of v "references";
  mct ← opt_of v "mime_content_type"; mb ← opt_of v "mime_body";
  atts ← match json_field "attachments" v with None => Some [] | Some a => list_of attachment_of_json a end;
  mid ← opt_of v "message_id";
  Some (mkOutbound from_email from_name to cc bcc subject body_text body_html in_reply_to references mct mb atts mid).

(** ** The texts a job may hold ([sync/send.rs]) *)

(** [s.split_once(sep)] of a text. *)
Definition after_str (sep s : string) : option string := option_map (fun i => sdrop (i + String.length sep) s) (find_str sep s).
Definition body_from_raw (raw : string) : string :=
  match after_str (lf +:+ lf) raw with
  | Some b => b
  | None => default raw (after_str (crlf +:+ crlf) raw)
  end.
(** The first header of a name, among the lines before an empty one. *)
Fixpoint header_value (name : string) (l : list string) : option string :=
  match l with
  | [] => None
  | line :: rest =>
      if is_empty line then None else
      match split_once ":" line with
      | Some (n, value) => if eq_ignore_ascii_case n name then Some value else header_value name rest
      | None => header_value name rest
      end
  end.
Definition recipients_from_raw (raw : string) : list address :=
  match header_value "to" (lines raw) with
  | Some value => map (pair None) (List.filter (fun s => negb (is_empty s)) (map trim (split_char "," value)))
  | None => []
  end.
Definition subject_from_raw `{MimeLib} (raw : string) : option string := option_map (fun v => decode_mime_header (trim v)) (header_value "subject" (lines raw)).
(** [serde_json::Error] of a text that is not an outbound message. *)
Class OutboundErrors := outbound_error : string -> string.
Definition with_from (email : string) (m : OutboundMessage) : OutboundMessage :=
  mkOutbound email (om_from_name m) (om_to m) (om_cc m) (om_bcc m) (om_subject m) (om_body_text m) (om_body_html m) (om_in_reply_to m)
    (om_references m) (om_mime_content_type m) (om_mime_body m) (om_attachments m) (om_message_id m).
Definition no_to : SyncError := InvalidInput "No recipients specified".
Definition outbound_from_raw `{MimeLib} `{JsonLib} `{OutboundErrors} (from_email raw : string) : result SyncError OutboundMessage :=
  let trimmed := trim_start raw in
  if starts_with "{" trimmed then
    let? outbound := ok_or (InvalidInput ("invalid outbound JSON: " +:+ outbound_error trimmed)) (json_parse trimmed ≫= outbound_of_json) in
    if bool_decide (om_to outbound = []) then Err no_to else Ok (with_from from_email outbound)
  else
    let to := recipients_from_raw raw in
    if bool_decide (to = []) then Err no_to else
    Ok (mkOutbound from_email None to [] [] (default "" (subject_from_raw raw)) (Some (body_from_raw raw)) None None None None None [] None).

(** ** The send request *)

Definition parse_address_value (v : Json) : option address :=
  match json_str v with
  | Some s => Some (None, s)
  | None => email ← json_field "email" v ≫= json_str; Some (json_field "name" v ≫= json_str, email)
  end.
Definition parse_address_list (values : list Json) : list address := omap parse_address_value values.
Definition MAX_ATTACHMENTS_PER_SEND : nat := 10.
Record InlineMetaEntry := mkInlineMeta { ie_filename : string; ie_content_id : string }.
(** The first entry of the name that no file took yet, and the entries left. *)
Fixpoint take_meta (filename : string) (l : list InlineMetaEntry) : option (InlineMetaEntry * list InlineMetaEntry) :=
  match l with
  | [] => None
  | m :: rest =>
      if String.eqb (ie_filename m) filename then Some (m, rest)
      else option_map (fun '(x, rest') => (x, m :: rest')) (take_meta filename rest)
  end.
Fixpoint apply_inline_meta `{MimeLib} (files : list OutboundAttachment) (inline_meta : list InlineMetaEntry) : result SyncError (list OutboundAttachment) :=
  match files with
  | [] => Ok []
  | file :: rest =>
      match take_meta (oa_filename file) inline_meta with
      | Some (meta, left_over) =>
          let? _ := rmap_err (fun e => InvalidInput (smtp_error_text e)) (validate_content_id (ie_content_id meta)) in
          let? files' := apply_inline_meta rest left_over in
          Ok (mkOutAttachment (oa_filename file) (oa_content_type file) (oa_data_base64 file) (Some (ie_content_id meta)) :: files')
      | None => let? files' := apply_inline_meta rest inline_meta in Ok (file :: files')
      end
  end.

(** ** What a message carries *)

(** The files of a tree, with the content id of an inline one; the texts. *)
Fixpoint files_of (p : Part) : list (string * string * option string) :=
  match p with
  | Single _ _ => []
  | Attached f _ d => [(f, d, None)]
  | InlineAs c f _ d => [(f, d, Some c)]
  | Multi _ ps => (fix all l := match l with [] => [] | q :: l' => files_of q ++ all l' end)%list ps
  end.
Fixpoint texts_of (p : Part) : list string :=
  match p with
  | Single _ t => [t]
  | Attached _ _ _ | InlineAs _ _ _ _ => []
  | Multi _ ps => (fix all l := match l with [] => [] | q :: l' => texts_of q ++ all l' end)%list ps
  end.

Section Carried.
Context `{LettreLib} `{CryptoLib} `{MimeLib}.

Definition carries (msg : OutboundMessage) (a : OutboundAttachment) (f : string * string * option string) : Prop :=
  f.1.1 = oa_filename a /\ decode a = Ok f.1.2 /\ f.2 = if is_inline msg a then oa_content_id a else None.
(** The texts of a message: the OpenPGP wrapper alone, or what it has of text and HTML. *)
Definition body_texts (msg : OutboundMessage) : list string :=
  match om_mime_content_type msg, om_mime_body msg with
  | Some _, Some body => [body]
  | _, _ => match option_list (om_body_text msg) ++ option_list (om_body_html msg) with [] => [""] | l => l end%list
  end.

Lemma body_part_texts msg p : build_body_part msg = Ok p -> texts_of p = body_texts msg /\ files_of p = [].
Proof using Type.
  unfold build_body_part, body_texts.
  destruct (om_mime_content_type msg) as [ct|], (om_mime_body msg) as [body|];
    [destruct (parse_content_type ct); [|done]; by intros [= <-]|..];
    destruct (om_body_text msg), (om_body_html msg); by intros [= <-].
Qed.
Lemma parts_files msg f l ps : (forall a p, a ∈ l -> f a = Ok p -> texts_of p = [] /\ exists x, files_of p = [x] /\ carries msg a x) ->
  parts_of f l = Ok ps -> forall k q, texts_of (Multi k (q :: ps)) = texts_of q /\
    exists xs, Forall2 (carries msg) l xs /\ files_of (Multi k (q :: ps)) = (files_of q ++ xs)%list.
Proof using Type.
  intros Hf Hp k q. revert ps Hp. induction l as [|a l IH]; intros ps; cbn [parts_of].
  { intros [= <-]. cbn. rewrite !app_nil_r. split; [done|]. exists []. split; [constructor|by rewrite app_nil_r]. }
  destruct (f a) as [p|] eqn:Ha; [|done]. cbn [rbind]. destruct (parts_of f l) as [rest|] eqn:Hr; [|done]. intros [= <-].
  destruct (Hf a p ltac:(by left) Ha) as (Ht & x & Hx & Hc).
  assert (Hl : forall a p, a ∈ l -> f a = Ok p -> texts_of p = [] /\ exists x, files_of p = [x] /\ carries msg a x) by (intros b p' Hb; apply Hf; by right).
  destruct (IH Hl rest eq_refl) as (Ht' & xs & Hxs & Hfs). cbn in *. rewrite Ht, Hx. split; [done|]. exists (x :: xs).
  split; [by constructor|]. apply app_inv_head in Hfs. cbn. by rewrite Hfs.
Qed.
Lemma inline_carries msg a p : is_inline msg a = true -> inline_part a = Ok p -> texts_of p = [] /\ exists x, files_of p = [x] /\ carries msg a x.
Proof using Type.
  unfold inline_part, carries. intros ->. destruct (oa_content_id a) as [c|]; [|done]. cbn [ok_or rbind].
  destruct (validate_content_id c); [|done]. cbn [rbind]. destruct (decode a) as [bytes|]; [|done]. intros [= <-]. split; [done|]. by eexists.
Qed.
Lemma regular_carries msg a p : is_inline msg a = false -> attachment_part a = Ok p -> texts_of p = [] /\ exists x, files_of p = [x] /\ carries msg a x.
Proof using Type.
  unfold attachment_part, carries. intros ->. destruct (decode a) as [bytes|]; [|done]. intros [= <-]. split; [done|]. by eexists.
Qed.

(** C36: a message that is built carries all it should and nothing twice: its texts are those of the compose window or the OpenPGP wrapper alone,
    every attachment is there once with the bytes it was given, inline only outside an OpenPGP wrapper, and the envelope names
    every recipient, hidden copies included. *)
Theorem built_message_is_complete msg m : build_message msg = Ok m ->
  texts_of (lm_body m) = body_texts msg /\
  (exists order, order ≡ₚ om_attachments msg /\ Forall2 (carries msg) order (files_of (lm_body m))) /\
  (all_recipients msg <> [] -> envelope_to m = map snd (all_recipients msg)) /\
  (all_recipients msg = [] -> envelope_to m = [om_from_email msg]).
Proof using Type.
  unfold build_message. destruct (mailboxes [_]) as [[]|]; [|done]. cbn [rbind]. destruct (mailboxes (all_recipients msg)) as [[]|]; [|done]. cbn [rbind].
  destruct (build_body_part msg) as [body|] eqn:Hbody; [|done]. cbn [rbind]. apply body_part_texts in Hbody as [Ht Hf].
  set (inline := List.filter (is_inline msg) (om_attachments msg)). set (regular := List.filter _ (om_attachments msg)).
  match goal with |- rbind ?r _ = _ -> _ => destruct r as [level|] eqn:Hlevel; [|done] end. cbn [rbind].
  match goal with |- rbind ?r _ = _ -> _ => destruct r as [whole|] eqn:Hwhole; [|done] end. cbn [rbind].
  destruct (finish_message _ _) as [[]|]; [|done]. intros [= <-]. cbn [lm_body lm_headers].
  assert (Hlev : texts_of level = body_texts msg /\ Forall2 (carries msg) inline (files_of level)).
  { assert (Hin : forall a p, a ∈ inline -> inline_part a = Ok p -> texts_of p = [] /\ exists x, files_of p = [x] /\ carries msg a x).
    { intros a p [_ Hi]%list_elem_of_In%filter_In. by apply inline_carries. }
    destruct inline as [|a l]; [injection Hlevel as <-; split; [done|]; rewrite Hf; constructor|].
    destruct (parts_of inline_part (a :: l)) as [ps|] eqn:Hps; [|done]. injection Hlevel as <-.
    destruct (parts_files msg _ _ _ Hin Hps Related body) as (-> & xs & Hxs & ->). rewrite Hf. done. }
  destruct Hlev as [Htl Hfl].
  assert (Hwh : texts_of whole = body_texts msg /\ Forall2 (carries msg) (inline ++ regular) (files_of whole)).
  { assert (Hin : forall a p, a ∈ regular -> attachment_part a = Ok p -> texts_of p = [] /\ exists x, files_of p = [x] /\ carries msg a x).
    { intros a p [_ Hi%negb_true_iff]%list_elem_of_In%filter_In. by apply regular_carries. }
    destruct regular as [|a l]; [injection Hwhole as <-; by rewrite app_nil_r|].
    destruct (parts_of attachment_part (a :: l)) as [ps|] eqn:Hps; [|done]. injection Hwhole as <-.
    destruct (parts_files msg _ _ _ Hin Hps Mixed level) as (-> & xs & Hxs & ->). split; [done|]. by apply Forall2_app. }
  destruct Hwh as [Htw Hfw]. split; [done|]. split; [|split].
  - exists (inline ++ regular)%list. split; [|done]. subst inline regular. clear. induction (om_attachments msg) as [|a l IH]; [done|]. cbn.
    destruct (is_inline msg a); cbn; [by constructor|]. rewrite <-Permutation_middle. by constructor.
  - intros Hne. unfold envelope_to, headers_of, no_recipients. cbn. rewrite bool_decide_eq_false_2; [done|]. by destruct (all_recipients msg).
  - intros He. unfold envelope_to, headers_of, no_recipients. cbn. by rewrite He, bool_decide_eq_true_2.
Qed.
End Carried.

(** ** From the compose window to the adapter *)

(** Documented behaviour of serde: it reads back a message it wrote, and an object opens with a brace. *)
Class OutboundJsonLaws `{JsonLib} := {
  outbound_reads m : json_parse (json_text (outbound_json m)) = Some (outbound_json m);
  outbound_brace m : starts_with "{" (json_text (outbound_json m)) = true }.

Lemma addresses_read l : list_of address_of_json (JArray (map address_json l)) = Some l.
Proof. cbn. induction l as [|[[n|] e] l IH]; [done|..]; cbn; by rewrite IH. Qed.
Lemma attachments_read l : list_of attachment_of_json (JArray (map attachment_json l)) = Some l.
Proof. cbn. induction l as [|[f ct d [c|]] l IH]; [done|..]; cbn; by rewrite IH. Qed.
Lemma outbound_json_reads m : outbound_of_json (outbound_json m) = Some m.
Proof.
  destruct m as [fe fn to_ cc bcc su bt bh ir re mc mb atts mid]. unfold outbound_json. cbn [om_from_email om_from_name om_to om_cc om_bcc
    om_subject om_body_text om_body_html om_in_reply_to om_references om_mime_content_type om_mime_body om_attachments om_message_id].
  destruct mc, mb, atts, mid, fn, bt, bh, ir, re; cbn -[list_of]; rewrite !addresses_read; cbn -[list_of]; try done.
  all: change (attachment_json ?a :: map attachment_json ?l) with (map attachment_json (a :: l)); rewrite attachments_read; done.
Qed.
Lemma brace_kept s : starts_with "{" s = true -> trim_start s = s.
Proof. destruct s as [|a s]; [done|]. unfold starts_with, String.prefix. destruct (ascii_dec "{" a) as [<-|]; [|by intros]. intros _. by destruct s as [|b [|c s]]. Qed.

(** The message a compose window hands to a plugin as JSON is the message the adapter gets, field for field and file for file, but for the
    sender's address, which is always the account's own. *)
Theorem composed_message_arrives `{MimeLib} `{OutboundJsonLaws} `{OutboundErrors} (email : string) (m : OutboundMessage) :
  om_to m <> [] -> outbound_from_raw email (json_text (outbound_json m)) = Ok (with_from email m).
Proof.
  intros Hto. unfold outbound_from_raw. rewrite (brace_kept _ (outbound_brace m)), outbound_brace, outbound_reads. cbn [mbind option_bind].
  rewrite outbound_json_reads. cbn [ok_or rbind]. by rewrite bool_decide_eq_false_2.
Qed.

(** A message without recipients, which only a draft may be, is never handed to the server. *)
Lemma drafts_are_not_sent {T} `{SmtpNet T} `{LettreLib} `{CryptoLib} `{MimeLib} (t : SmtpRelay) (m : OutboundMessage) (n : T) :
  all_recipients m = [] -> smtp_send t m n = (Err (SmtpPermanent "no recipients"), n).
Proof. intros He. unfold smtp_send, no_recipients. by rewrite He. Qed.

(** ** Witnesses *)

#[export] Instance toy_lettre : LettreLib := {
  parse_address e := if contains_char "@" e then None else Some "Missing domain or user";
  parse_content_type ct := if contains_char "/" ct then Ok ct else Err "no slash";
  finish_message b p := Ok tt;
  formatted m := "Subject: " +:+ bu_subject (lm_headers m) +:+ crlf +:+ "Message-ID: " +:+ default "" (bu_message_id (lm_headers m)) +:+ crlf +:+ crlf +:+
                 join "" (texts_of (lm_body m));
  base64_failure s := "Invalid byte";
}.
(** Any JSON value behind a brace. *)
#[local] Instance braced_json : JsonLib := {
  json_text v := String "{" (bits (countable.encode (OAuth.json_tree v)));
  json_parse s := strip_prefix "{" s ≫= fun s => option_map OAuth.tree_json (countable.decode (unbits s));
}.
Lemma json_tree_back v : OAuth.tree_json (OAuth.json_tree v) = v.
Proof.
  revert v. fix IH 1. intros [|[]|t|s|l|l]; cbn; try done; f_equal; rewrite map_map.
  - induction l as [|x l IHl]; [done|]. cbn. by rewrite IH, IHl.
  - induction l as [|[k x] l IHl]; [done|]. cbn. by rewrite IH, IHl.
Qed.
#[local] Instance braced_laws : OutboundJsonLaws.
Proof.
  split; intros m; generalize (outbound_json m); intros v.
  - unfold json_parse, json_text, braced_json. cbn [strip_prefix Ascii.eqb Bool.eqb mbind option_bind].
    rewrite unbits_bits, countable.decode_encode. cbn [option_map]. by rewrite json_tree_back.
  - unfold json_text, braced_json. by destruct (bits _).
Qed.
#[export] Instance toy_outbound_errors : OutboundErrors := fun s => "EOF while parsing".

Definition toy_message : OutboundMessage :=
  mkOutbound "ann@x.org" None [(Some "Bob", "bob@y.org")] [] [(None, "eve@z.org")] "Lunch" (Some "Noon?") (Some "<p>Noon?<img src='cid:map'></p>") None None
    None None [mkOutAttachment "map.png" "image/png" (b64_encode "PNG") (Some "map"); mkOutAttachment "menu.pdf" "application/pdf" (b64_encode "PDF") None] None.
Lemma composed_message_arrives_witness :
  om_to toy_message <> [] /\ outbound_from_raw "ann@x.org" (json_text (outbound_json toy_message)) = Ok (with_from "ann@x.org" toy_message).
Proof. split; [done|]. by apply (composed_message_arrives "ann@x.org" toy_message). Defined.
Lemma built_message_is_complete_witness :
  exists m, build_message toy_message = Ok m /\ texts_of (lm_body m) = ["Noon?"; "<p>Noon?<img src='cid:map'></p>"] /\
  (exists order, order ≡ₚ om_attachments toy_message /\ Forall2 (carries toy_message) order (files_of (lm_body m))) /\
  (all_recipients toy_message <> [] -> envelope_to m = map snd (all_recipients toy_message)) /\
  (all_recipients toy_message = [] -> envelope_to m = [om_from_email toy_message]).
Proof. eexists. split; [by vm_compute|]. exact (built_message_is_complete toy_message _ eq_refl). Defined.

(** A raw text with network line breaks whose body has a blank line in bare line feeds: the body starts after that one. *)
Example raw_body_cut_short :
  body_from_raw ("To: bob@y.org" +:+ crlf +:+ crlf +:+ "Dear Bob," +:+ lf +:+ lf +:+ "See you.") = "See you.".
Proof. vm_compute. reflexivity. Qed.
(** A file sent along with an OpenPGP mail is attached next to the wrapper as it is, sealed or not. *)
Example wrapped_files_are_open :
  let sealed := mkOutbound "ann@x.org" None [(None, "bob@y.org")] [] [] "Plan" None None None None (Some "multipart/encrypted") (Some "SEALED")
                  [attachment_from_bytes "plan.txt" "text/plain" "attack at dawn"] None in
  exists m, build_message sealed = Ok m /\ texts_of (lm_body m) = ["SEALED"] /\ files_of (lm_body m) = [("plan.txt", "attack at dawn", None)].
Proof. eexists. repeat split; by vm_compute. Qed.
