(* ===== verification/JmapSend.v ===== *)
(** * Sending and drafts over JMAP ([sync/jmap_client.rs])

    A message becomes an [Email/set] create or, when its MIME structure matters, the import of an
    uploaded file; the submission refers to it within one batch.  The crate's requests are
    values, sent by the operations of [JmapSender]; what it answers to a batch is a list of
    method responses. *)
From S2P Require Import Prelude Kv Crypto UnlockRing World Toy Session Labels Jobs Pool Netsec MailStore Imap ImapLoop Blobs Jmap JmapLoop Spam OAuth Dav JmapWrite Outbound.
Local Open Scope string_scope.
Local Open Scope Z_scope.

Record Identity := mkIdentity { id_id : option string; id_email : option string }.
Record UploadedAttachment := mkUploaded { ua_blob_id : string; ua_content_type : string; ua_name : string }.
(** [Email<Set>]: body values by part id, and the part each body is. *)
Record CreateEmail := mkCreateEmail {
  ce_mailbox_ids : list string; ce_keywords : list string; ce_from : list WireAddress; ce_to : list WireAddress; ce_cc : list WireAddress;
  ce_bcc : list WireAddress; ce_subject : string; ce_body_values : list (string * string); ce_text_body : option (string * string);
  ce_html_body : option (string * string); ce_in_reply_to : list string; ce_references : list string; ce_attachments : list UploadedAttachment }.
(** The post-submit patch: the keywords and the mailboxes the mail has then. *)
Record SuccessPatch := mkPatchEmail { sp_keywords : list string; sp_mailbox_ids : list string }.
Inductive Batch :=
  | IdentitiesAndMailboxes
  | CreateAndSubmit (email : CreateEmail) (identity_id : string) (on_success : SuccessPatch)
  | ImportAndSubmit (blob_id mailbox : string) (keywords : list string) (identity_id : string) (on_success : SuccessPatch).
(** A method response; a [set] or an import answers for the one creation id of the batch. *)
Inductive MethodReply :=
  | IdentityReply (l : list Identity) | MailboxReply (l : list WireMailbox) | SetEmailReply (created : result ClientError unit)
  | SubmissionReply (created : result ClientError string) | ImportReply (created : result ClientError unit)
  | MethodError (code : MethodErrorType) | OtherReply.
Class JmapSender (T : Type) `{JmapWire T} := {
  send_batch : Handle -> Batch -> io T ClientError (list MethodReply);
  upload_blob : Handle -> string -> string -> io T ClientError string;             (* data, media type; the blob id *)
  import_email : Handle -> string -> string -> list string -> io T ClientError string;   (* blob, mailbox, keywords; the id *)
  create_email : Handle -> CreateEmail -> io T ClientError string;
  client_error_text : ClientError -> string;
}.

Definition unwrap_identities (r : MethodReply) : result ClientError (list Identity) :=
  match r with IdentityReply l => Ok l | MethodError code => Err (MethodE code) | _ => Err (OtherClient "unexpected method response") end.
Definition unwrap_mailboxes (r : MethodReply) : result ClientError (list WireMailbox) :=
  match r with MailboxReply l => Ok l | MethodError code => Err (MethodE code) | _ => Err (OtherClient "unexpected method response") end.

(** ** Mapping *)

Definition crate_address (a : address) : WireAddress :=
  match fst a with
  | Some n => mkWireAddress (if is_empty n then None else Some n) (snd a)
  | None => mkWireAddress None (snd a)
  end.
Definition fill_outbound_email (outbound : OutboundMessage) (mailbox_ids : list string) (uploaded : list UploadedAttachment) : CreateEmail :=
  let text := default "" (or_else (om_body_text outbound) (om_body_html outbound)) in
  let '(values, text_body, html_body) :=
    match om_body_text outbound, om_body_html outbound with
    | Some _, Some html => ([("bd1", text); ("bd2", html)], Some ("bd1", "text/plain"), Some ("bd2", "text/html"))
    | _, None => ([("bd1", text)], Some ("bd1", "text/plain"), None)
    | None, Some _ => ([("bd1", text)], None, Some ("bd1", "text/html"))
    end in
  mkCreateEmail mailbox_ids ["$draft"] [crate_address (om_from_name outbound, om_from_email outbound)] (map crate_address (om_to outbound))
    (map crate_address (om_cc outbound)) (map crate_address (om_bcc outbound)) (om_subject outbound) values text_body html_body
    (option_list (om_in_reply_to outbound)) (match om_references outbound with Some refs => split_whitespace refs | None => [] end) uploaded.
Definition fill_on_success_patch (sent_id : option string) : SuccessPatch := mkPatchEmail [] (option_list sent_id).
Definition pick_identity (identities : list Identity) (from : string) : option string :=
  or_else (List.find (fun i => match id_email i with Some e => eq_ignore_ascii_case e from | None => false end) identities) (head identities) ≫= id_id.
Definition same_role (a b : WireRole) : bool :=
  match a, b with RDrafts, RDrafts | RSent, RSent => true | _, _ => false end.
Definition mailbox_id_for_role (mailboxes : list WireMailbox) (role : WireRole) : option string :=
  List.find (fun m => same_role (wm_role m) role) mailboxes ≫= wm_id.
Definition needs_mime_import (outbound : OutboundMessage) : bool :=
  bool_decide (is_Some (om_mime_body outbound)) || existsb (fun a => bool_decide (is_Some (oa_content_id a))) (om_attachments outbound).
Definition missing_response (method_error : option MethodErrorType) (what : string) : JmapError :=
  match method_error with
  | Some code => jmap_of_client (MethodE code)
  | None => JmapInvalid ("missing " +:+ what +:+ " response")
  end.

(** What a batch answered: the first create or import, the submission, the first method error. *)
Record Collected := mkCollected { co_email : option (result ClientError unit); co_sub : option (result ClientError string); co_error : option MethodErrorType }.
Definition first_of {A} (a b : option A) : option A := match a with Some _ => a | None => b end.
(** [keep_first]: whether the first submission answer counts, or the last. *)
Fixpoint collect_replies (import keep_first : bool) (c : Collected) (l : list MethodReply) : Collected :=
  match l with
  | [] => c
  | r :: rest =>
      collect_replies import keep_first
        match r with
        | SetEmailReply x => if import then c else mkCollected (first_of (co_email c) (Some x)) (co_sub c) (co_error c)
        | ImportReply x => if import then mkCollected (first_of (co_email c) (Some x)) (co_sub c) (co_error c) else c
        | SubmissionReply x => mkCollected (co_email c) (if keep_first then first_of (co_sub c) (Some x) else Some x) (co_error c)
        | MethodError code => mkCollected (co_email c) (co_sub c) (first_of (co_error c) (Some code))
        | IdentityReply _ | MailboxReply _ | OtherReply => c
        end rest
  end.
Definition submitted (import : bool) (l : list MethodReply) : result JmapError string :=
  let c := collect_replies import import (mkCollected None None None) l in
  let? email_resp := ok_or (missing_response (co_error c) (if import then "Email/import" else "Email/set")) (co_email c) in
  let? sub_resp := ok_or (missing_response (co_error c) "EmailSubmission/set") (co_sub c) in
  let? _ := rmap_err jmap_of_client email_resp in
  rmap_err jmap_of_client sub_resp.

Section Sending.
Context {T : Type} `{JmapSender T} `{UrlLib} `{UrlJoin} `{JmapTime} `{JsonLib} `{JobLib} `{LettreLib} `{CryptoLib} `{MimeLib}.
Local Abbreviation M := (io T JmapError).

(** The exact file of a message. *)
Definition mime_file (outbound : OutboundMessage) : result JmapError string :=
  let? m := rmap_err (fun e => JmapInvalid ("mime build: " +:+ smtp_error_text e)) (build_message outbound) in
  if utf8_valid (formatted m) then Ok (formatted m) else Err (JmapInvalid ("mime utf8: " +:+ utf8_text (formatted m))).
Definition submit_mime_wrapped (seam : JmapSeam T) (mime_body identity_id : string) (drafts_id sent_id : option string)
    (mailboxes : list WireMailbox) : M string :=
  let! import_mailbox := lift (ok_or (JmapInvalid "no mailbox to import into") (or_else (or_else drafts_id sent_id) (head (omap wm_id mailboxes)))) in
  let! blob_id := client (upload_blob (sm_client seam) mime_body "message/rfc822") in
  let! replies := client (send_batch (sm_client seam)
    (ImportAndSubmit blob_id import_mailbox ["$draft"] identity_id (fill_on_success_patch sent_id))) in
  lift (submitted true replies).
Fixpoint upload_attachments (seam : JmapSeam T) (l : list OutboundAttachment) : M (list UploadedAttachment) :=
  match l with
  | [] => ret []
  | att :: rest =>
      let! bytes := lift (rmap_err (fun e => JmapInvalid ("attachment " +:+ oa_filename att +:+ ": " +:+ smtp_error_text e)) (decode att)) in
      let! blob_id := map_err (fun e => JmapInvalid ("attachment " +:+ oa_filename att +:+ ": " +:+ client_error_text e))
                        (upload_blob (sm_client seam) bytes (oa_content_type att)) in
      let! out := upload_attachments seam rest in
      ret (mkUploaded blob_id (oa_content_type att) (oa_filename att) :: out)
  end.
Definition submit_outbound (seam : JmapSeam T) (outbound : OutboundMessage) : M string :=
  let! supported := gets (supports_submission seam) in
  if negb supported then throw (JmapSession "JMAP session does not advertise urn:ietf:params:jmap:submission") else
  let! responses := client (send_batch (sm_client seam) IdentitiesAndMailboxes) in
  match responses with
  | [r0; r1] =>
      let! mailboxes := lift (rmap_err jmap_of_client (unwrap_mailboxes r1)) in
      let! identities := lift (rmap_err jmap_of_client (unwrap_identities r0)) in
      let! identity_id := lift (ok_or (JmapInvalid ("no JMAP identity for " +:+ om_from_email outbound)) (pick_identity identities (om_from_email outbound))) in
      let drafts_id := mailbox_id_for_role mailboxes RDrafts in
      let sent_id := mailbox_id_for_role mailboxes RSent in
      if needs_mime_import outbound then
        let! mime_body := match om_mime_body outbound with Some wrapper => ret wrapper | None => lift (mime_file outbound) end in
        submit_mime_wrapped seam mime_body identity_id drafts_id sent_id mailboxes
      else
        let! uploaded := upload_attachments seam (om_attachments outbound) in
        let! replies := client (send_batch (sm_client seam)
          (CreateAndSubmit (fill_outbound_email outbound (option_list drafts_id) uploaded) identity_id (fill_on_success_patch sent_id))) in
        lift (submitted false replies)
  | _ => throw (JmapInvalid ("expected Identity/get + Mailbox/get responses, got " +:+ show_N (N.of_nat (length responses))))
  end.
Definition create_draft (seam : JmapSeam T) (outbound : OutboundMessage) : M string :=
  let! mailboxes := list_mailboxes seam in
  let! drafts_id := lift (ok_or (JmapInvalid "no drafts mailbox on this account")
                            (option_map jm_id (List.find (fun m => bool_decide (jm_role m = Some "drafts")) mailboxes))) in
  match om_attachments outbound with
  | [] => client (create_email (sm_client seam) (fill_outbound_email outbound [drafts_id] []))
  | _ =>
      let! mime := lift (mime_file outbound) in
      let! blob_id := client (upload_blob (sm_client seam) mime "message/rfc822") in
      client (import_email (sm_client seam) blob_id drafts_id ["$draft"])
  end.
(** [deliver_jmap] of [sync/send.rs]. *)
Definition deliver_on (seam : JmapSeam T) (outbound : OutboundMessage) : io T SyncError string := map_err Jmap (submit_outbound seam outbound).
End Sending.

(** ** What the network is told

    The statements about sending and saving are made on a network that also keeps a record of
    what it was told, in order, with the answers. *)

Inductive NetEvent :=
  | Signing                                                  (* a token, a session, a look *)
  | Submitted (relay : SmtpRelay) (msg : LettreMessage) (accepted : bool)
  | Batched (b : Batch) (replies : result ClientError (list MethodReply))
  | Uploaded (data ty : string) (blob : result ClientError string)
  | Imported (blob mailbox : string) (keywords : list string) (id : result ClientError string)
  | Created (e : CreateEmail) (id : result ClientError string)
  | Appended (mailbox content : string) (accepted : bool)
  | Altered.                                                 (* a flag, a move or a removal of a mail that is there *)
Definition recorded {T E A} (event : result E A -> NetEvent) (m : io T E A) : io (T * list NetEvent) E A :=
  fun x => let '(r, n) := m (fst x) in (r, (n, snd x ++ [event r])%list).
Definition signing {E A} (_ : result E A) : NetEvent := Signing.
Definition altering {E A} (_ : result E A) : NetEvent := Altered.
Definition logged_wire {T} (W0 : JmapWire T) : JmapWire (T * list NetEvent) := {|
  Handle := Handle;
  http_get url auth := recorded signing (http_get url auth);
  client_connect c url hosts := recorded signing (client_connect c url hosts);
  session h x := session h (fst x);
  set_default_account_id h a := set_default_account_id h a;
  is_session_updated h x := is_session_updated h (fst x);
  refresh_session h := recorded signing (refresh_session h);
  get_mailbox h := recorded signing (get_mailbox h);
  query_email h a p n := recorded signing (query_email h a p n);
  query_and_get h a p n := recorded signing (query_and_get h a p n);
  get_email h l := recorded signing (get_email h l);
  query_email_changes_req h a b n := recorded signing (query_email_changes_req h a b n);
  changes_email h a n := recorded signing (changes_email h a n);
  download h a := recorded signing (download h a);
  event_stream a b := recorded signing (event_stream a b) |}.
Definition logged_writes {T} (W0 : JmapWire T) (X0 : JmapWrites T) : JmapWrites (T * list NetEvent) (H := logged_wire W0) := {|
  default_account_id (h : @Handle _ (logged_wire W0)) := @default_account_id T W0 X0 h;
  post_api url auth body := recorded altering (post_api url auth body);
  update_mailbox_ids h a l := recorded altering (update_mailbox_ids (h : @Handle _ W0) a l);
  destroy_id h a := recorded altering (destroy_id (h : @Handle _ W0) a) |}.
Definition logged_sender {T} (W0 : JmapWire T) (X0 : JmapSender T) : JmapSender (T * list NetEvent) (H := logged_wire W0) := {|
  send_batch (h : @Handle _ (logged_wire W0)) b := recorded (Batched b) (send_batch (h : @Handle _ W0) b);
  upload_blob h data ty := recorded (Uploaded data ty) (upload_blob (h : @Handle _ W0) data ty);
  import_email h b m k := recorded (Imported b m k) (import_email (h : @Handle _ W0) b m k);
  create_email h e := recorded (Created e) (create_email (h : @Handle _ W0) e);
  client_error_text := @client_error_text T W0 X0 |}.
Definition logged_imap {T} (I0 : ImapSession T) : ImapSession (T * list NetEvent) := {|
  sess_connect c := recorded signing (sess_connect c);
  sess_list := recorded signing sess_list;
  sess_select m := recorded signing (sess_select m);
  sess_uid_search q := recorded signing (sess_uid_search q);
  sess_uid_fetch s q := recorded signing (sess_uid_fetch s q);
  sess_uid_store s q := recorded altering (sess_uid_store s q);
  sess_uid_copy s m := recorded altering (sess_uid_copy s m);
  sess_uid_mv s m := recorded altering (sess_uid_mv s m);
  sess_uid_expunge s := recorded altering (sess_uid_expunge s);
  sess_expunge := recorded altering sess_expunge;
  sess_append m f content := recorded (fun r => Appended m content (is_ok r)) (sess_append m f content);
  sess_logout := recorded signing sess_logout |}.
Definition logged_oauth {T} (O0 : OAuthNet T) : OAuthNet (T * list NetEvent) := {|
  post_form url form := recorded signing (post_form url form);
  get_authorized url token := recorded signing (get_authorized url token) |}.
Definition logged_smtp {T} (S0 : SmtpNet T) : SmtpNet (T * list NetEvent) := {|
  smtp_relay := smtp_relay;
  smtp_submit relay msg := recorded (fun r => Submitted relay msg (is_ok r)) (smtp_submit relay msg);
  sent_uuid x := let '(u, n) := sent_uuid (fst x) in (u, (n, snd x)) |}.

(** What hands a mail over, whole or in part. *)
Definition hands_over (e : NetEvent) : bool :=
  match e with Signing | Batched IdentitiesAndMailboxes _ | Altered => false | _ => true end.
Definition handed (said : list NetEvent) : list NetEvent := List.filter hands_over said.
(** From [x] to [y] the network was told [said]. *)
Definition told {T} (said : list NetEvent) (x y : T * list NetEvent) : Prop := snd y = (snd x ++ said)%list.
Lemma told_then {T} l1 l2 (x y z : T * list NetEvent) : told l1 x y -> told l2 y z -> told (l1 ++ l2) x z.
Proof. unfold told. intros -> ->. by rewrite app_assoc. Qed.
Lemma recorded_told {T E A} (event : result E A -> NetEvent) (m : io T E A) x r y : recorded event m x = (r, y) -> told [event r] x y.
Proof. unfold recorded. destruct (m (fst x)) as [z n]. by intros [= <- <-]. Qed.
Lemma client_told {T A} (event : result ClientError A -> NetEvent) (m : io T ClientError A) x r y : client (recorded event m) x = (r, y) ->
  exists a, r = rmap_err jmap_of_client a /\ told [event a] x y.
Proof. unfold client. intros (a & Ha & ->)%map_err_inv. exists a. split; [done|by eapply recorded_told]. Qed.
Lemma lift_told {T E A} (a : result E A) (x : T * list NetEvent) r y : lift a x = (r, y) -> r = a /\ told [] x y.
Proof. intros [= <- <-]. split; [done|]. unfold told. by rewrite app_nil_r. Qed.

(** ** What is submitted *)

Section Submitted.
Context {T : Type} {W0 : JmapWire T} {S0 : JmapSender T} `{UrlLib} `{UrlJoin} `{JmapTime} `{JsonLib} `{JobLib} `{LettreLib} `{CryptoLib} `{MimeLib}.
Local Abbreviation N := (T * list NetEvent)%type.
#[local] Instance recording_wire : JmapWire N := logged_wire W0.
#[local] Instance recording_sender : JmapSender N := logged_sender W0 S0.
Implicit Types net : N.

Lemma collected_replies import kf l c : let c' := collect_replies import kf c l in
  (forall x, co_sub c' = Some x -> co_sub c = Some x \/ SubmissionReply x ∈ l) /\
  (forall x, co_email c' = Some x -> co_email c = Some x \/ (if import then ImportReply x else SetEmailReply x) ∈ l).
Proof using Type.
  revert c. induction l as [|r l IH]; intros c; cbn [collect_replies]; [by split; intros x Hx; left|].
  match goal with |- context [collect_replies import kf ?d l] => destruct (IH d) as [Hs He] end.
  split; intros x Hx; [destruct (Hs x Hx) as [Hd|Hin]|destruct (He x Hx) as [Hd|Hin]]; try (right; by right);
    destruct r; destruct import; destruct kf; cbn in Hd; try (by left); destruct c as [[] [] []]; cbn in Hd; try (by left);
    injection Hd as ->; right; by left.
Qed.
(** An id is answered only for a mail that was created and a submission of it that was accepted. *)
Lemma submitted_Ok import l id : submitted import l = Ok id ->
  SubmissionReply (Ok id) ∈ l /\ (if import then ImportReply (Ok tt) else SetEmailReply (Ok tt)) ∈ l.
Proof using Type.
  unfold submitted. destruct (collected_replies import import l (mkCollected None None None)) as [Hs He].
  destruct (co_email _) as [x|]; [|done]. destruct (co_sub _) as [y|]; [|done]. cbn [ok_or rbind].
  destruct x as [[]|]; [|done]. destruct y as [z|]; [|done]. cbn. intros [= ->].
  destruct (Hs _ eq_refl) as [|Hs']; [done|]. by destruct (He _ eq_refl) as [|He'].
Qed.

(** An attachment, the blob the batch names for it, and the upload that made it. *)
Definition uploaded_as (a : OutboundAttachment) (u : UploadedAttachment) (e : NetEvent) : Prop :=
  ua_name u = oa_filename a /\ ua_content_type u = oa_content_type a /\
  exists bytes, decode a = Ok bytes /\ e = Uploaded bytes (oa_content_type a) (Ok (ua_blob_id u)).
Lemma uploads seam l net out net' : upload_attachments (T := N) seam l net = (Ok out, net') ->
  exists up, told up net net' /\ Forall3 uploaded_as l out up.
Proof using Type.
  revert net out net'. induction l as [|a l IH]; intros net out net'; cbn [upload_attachments].
  { intros [= <- <-]. exists []. split; [unfold told; by rewrite app_nil_r|constructor]. }
  intros (bytes & n1 & Hd & (blob & n2 & Hu & (rest & n3 & Hr & [= <- <-])%bind_Ok)%bind_Ok)%bind_Ok.
  apply lift_told in Hd as [Hd Ht]. destruct (decode a) as [x|] eqn:Hdec; [|done]. injection Hd as <-.
  apply map_err_inv in Hu as ([y|] & Hu & Hy); [|done]. injection Hy as <-. apply recorded_told in Hu.
  destruct (IH _ _ _ Hr) as (up & Hup & Hall). exists (Uploaded bytes (oa_content_type a) (Ok blob) :: up). split.
  - exact (told_then _ _ _ _ _ (told_then _ _ _ _ _ Ht Hu) Hup).
  - constructor; [|done]. split; [done|]. split; [done|]. by exists bytes.
Qed.

(** The batch, with what was uploaded before it, stands for the whole message. *)
Definition batch_carries (m : OutboundMessage) (up : list NetEvent) (b : Batch) : Prop :=
  match b with
  | CreateAndSubmit e _ p =>
      map wa_email (ce_from e) = [om_from_email m] /\ map wa_email (ce_to e ++ ce_cc e ++ ce_bcc e)%list = map snd (all_recipients m) /\
      ce_subject e = om_subject m /\ (map snd (ce_body_values e) = match option_list (om_body_text m) ++ option_list (om_body_html m) with [] => [""] | l => l end)%list /\
      Forall3 uploaded_as (om_attachments m) (ce_attachments e) up /\ sp_keywords p = []
  | ImportAndSubmit blob _ _ _ p =>
      exists msg, build_message m = Ok msg /\ up = [Uploaded (formatted msg) "message/rfc822" (Ok blob)] /\ sp_keywords p = []
  | IdentitiesAndMailboxes => False
  end.
(** The batch imports the OpenPGP wrapper, and nothing but it. *)
Definition wrapper_alone (wrapper : string) (up : list NetEvent) (b : Batch) : Prop :=
  match b with
  | ImportAndSubmit blob _ _ _ p => up = [Uploaded wrapper "message/rfc822" (Ok blob)] /\ sp_keywords p = []
  | _ => False
  end.
Definition accepted_batch (id : string) (replies : list MethodReply) : Prop :=
  SubmissionReply (Ok id) ∈ replies /\ (SetEmailReply (Ok tt) ∈ replies \/ ImportReply (Ok tt) ∈ replies).
Lemma crate_emails l : map wa_email (map crate_address l) = map snd l.
Proof using Type. induction l as [|[[n|] e] l IH]; [done|..]; cbn; by rewrite IH. Qed.
Lemma filled m boxes uploaded : let e := fill_outbound_email m boxes uploaded in
  map wa_email (ce_from e) = [om_from_email m] /\ map wa_email (ce_to e ++ ce_cc e ++ ce_bcc e)%list = map snd (all_recipients m) /\
  ce_subject e = om_subject m /\ (map snd (ce_body_values e) = match option_list (om_body_text m) ++ option_list (om_body_html m) with [] => [""] | l => l end)%list /\
  ce_attachments e = uploaded.
Proof using Type.
  unfold fill_outbound_email, all_recipients. destruct (om_body_text m), (om_body_html m); cbn;
    rewrite !map_app, !crate_emails, <-!map_app; by destruct (om_from_name m).
Qed.

(** The look at the identities and mailboxes that precedes every submission. *)
Lemma looked seam net r net' : client (send_batch (JmapSender := recording_sender) (sm_client seam) IdentitiesAndMailboxes) net = (r, net') ->
  exists answers, told [Batched IdentitiesAndMailboxes answers] net net'.
Proof using Type. intros (a & _ & Ht)%client_told. by exists a. Qed.
(** A file imported and submitted: the upload, and the batch if that was answered. *)
Lemma wrapped_submission seam mime identity_id drafts_id sent_id mailboxes net r net' :
  submit_mime_wrapped (T := N) seam mime identity_id drafts_id sent_id mailboxes net = (r, net') ->
  exists said, told said net net' /\
  ((said = [] /\ exists e, r = Err e) \/ (exists e, said = [Uploaded mime "message/rfc822" (Err e)] /\ exists e, r = Err e) \/
   exists blob box replies, said = [Uploaded mime "message/rfc822" (Ok blob);
       Batched (ImportAndSubmit blob box ["$draft"] identity_id (fill_on_success_patch sent_id)) replies] /\
     forall id, r = Ok id -> exists l, replies = Ok l /\ accepted_batch id l).
Proof using Type.
  unfold submit_mime_wrapped. intros [(e & He & ->)|(box & n1 & Hb & Hs)]%bind_inv.
  { apply lift_told in He as [_ Ht]. exists []. split; [done|]. left. split; [done|by exists e]. }
  apply lift_told in Hb as [_ T1]. apply bind_inv in Hs as [(e & He & ->)|(blob & n2 & Hu & Hs)].
  { apply client_told in He as ([y|c] & Hy & T2); [done|]. exists [Uploaded mime "message/rfc822" (Err c)].
    split; [exact (told_then _ _ _ _ _ T1 T2)|]. right. left. exists c. split; [done|by exists e]. }
  apply client_told in Hu as ([y|c] & Hy & T2); [|done]. injection Hy as <-. pose proof (told_then _ _ _ _ _ T1 T2) as T12.
  apply bind_inv in Hs as [(e & He & ->)|(replies & n3 & Hsend & Hs)].
  { apply client_told in He as ([y|c] & Hy & T3); [done|]. eexists. split; [exact (told_then _ _ _ _ _ T12 T3)|]. right. right.
    exists blob, box, (Err c). by split; [|intros]. }
  apply client_told in Hsend as ([y|c] & Hy & T3); [|done]. injection Hy as <-. apply lift_told in Hs as [Hs T4]. eexists.
  split; [exact (told_then _ _ _ _ _ (told_then _ _ _ _ _ T12 T3) T4)|]. right. right. exists blob, box, (Ok replies). split; [done|].
  intros id ->. exists replies. split; [done|]. symmetry in Hs. apply submitted_Ok in Hs as [Hsub Hcre]. split; [done|by right].
Qed.
(** What a submission that is answered told the network. *)
Lemma submission_told seam m net id net' : submit_outbound (T := N) seam m net = (Ok id, net') ->
  exists answers up b replies, told (Batched IdentitiesAndMailboxes answers :: up ++ [Batched b (Ok replies)]) net net' /\ accepted_batch id replies /\
    match om_mime_body m with None => batch_carries m up b | Some wrapper => wrapper_alone wrapper up b end.
Proof using Type.
  unfold submit_outbound. intros (supported & n0 & [= <- <-] & Hs)%bind_Ok. destruct (negb _); [done|].
  apply bind_Ok in Hs as (responses & n1 & Hlook & Hs). apply looked in Hlook as (answers & Hl). destruct responses as [|r0 [|r1 [|]]]; try done.
  apply bind_Ok in Hs as (mailboxes & n2 & Hb1 & Hs). apply bind_Ok in Hs as (identities & n3 & Hb2 & Hs).
  apply bind_Ok in Hs as (identity_id & n4 & Hb3 & Hs). apply lift_told in Hb1 as [_ T1]. apply lift_told in Hb2 as [_ T2]. apply lift_told in Hb3 as [_ T3].
  pose proof (told_then _ _ _ _ _ (told_then _ _ _ _ _ (told_then _ _ _ _ _ Hl T1) T2) T3) as Hpre. clear Hl T1 T2 T3. cbn in Hpre.
  cbv zeta in Hs. destruct (needs_mime_import m) eqn:Hneeds.
  - apply bind_Ok in Hs as (mime & n5 & Hmime & Hs).
    assert (Hfile : told [] n4 n5 /\ match om_mime_body m with
        | None => exists msg, build_message m = Ok msg /\ mime = formatted msg | Some wrapper => mime = wrapper end).
    { destruct (om_mime_body m) as [wrapper|]; [injection Hmime as -> <-; split; [unfold told; by rewrite app_nil_r|done]|].
      apply lift_told in Hmime as [Hmime Ht]. split; [done|]. unfold mime_file in Hmime. destruct (build_message m) as [msg|] eqn:Hbuild; [|done].
      cbn [rmap_err rbind] in Hmime. destruct (utf8_valid (formatted msg)); [|done]. injection Hmime as ->. by exists msg. }
    destruct Hfile as [T5 Hfile]. apply wrapped_submission in Hs as (said & T6 & [(-> & e & ?)|[(e & -> & ? & ?)|(blob & box & replies & -> & Hok)]]); [done..|].
    destruct (Hok _ eq_refl) as (l & -> & Hacc). exists answers, [Uploaded mime "message/rfc822" (Ok blob)], (ImportAndSubmit blob box ["$draft"] identity_id
      (fill_on_success_patch (mailbox_id_for_role mailboxes RSent))), l.
    split; [exact (told_then _ _ _ _ _ (told_then _ _ _ _ _ Hpre T5) T6)|]. split; [done|].
    destruct (om_mime_body m) as [wrapper|]; [by subst mime|]. destruct Hfile as (msg & Hbuild & ->). by exists msg.
  - assert (Hplain : om_mime_body m = None).
    { unfold needs_mime_import in Hneeds. apply orb_false_iff in Hneeds as [Hn _]. apply bool_decide_eq_false_1 in Hn.
      destruct (om_mime_body m); [|done]. destruct Hn. by eexists. }
    rewrite Hplain. apply bind_Ok in Hs as (uploaded & n5 & Hup & Hs). apply uploads in Hup as (up & T5 & Hall).
    apply bind_Ok in Hs as (replies & n6 & Hsend & Hs). apply client_told in Hsend as ([y|c] & Hy & T6); [|done]. injection Hy as <-.
    apply lift_told in Hs as [Hs T7]. symmetry in Hs. apply submitted_Ok in Hs as [Hsub Hcre].
    exists answers, up. eexists _, replies. split.
    { pose proof (told_then _ _ _ _ _ (told_then _ _ _ _ _ (told_then _ _ _ _ _ Hpre T5) T6) T7) as Hall'. rewrite app_nil_r in Hall'. exact Hall'. }
    split; [split; [done|by left]|].
    destruct (filled m (option_list (mailbox_id_for_role mailboxes RDrafts)) uploaded) as (Hf & Hr & Hsu & Hv & Ha).
    unfold batch_carries. by rewrite Ha.
Qed.

(** What a mail with a wrapper hands over, whatever comes of it: nothing, or the wrapper, and a batch that imports it. *)
Definition hands_wrapper (wrapper : string) (l : list NetEvent) : Prop :=
  l = [] \/ (exists e, l = [Uploaded wrapper "message/rfc822" (Err e)]) \/
  exists blob box identity p replies, l = [Uploaded wrapper "message/rfc822" (Ok blob); Batched (ImportAndSubmit blob box ["$draft"] identity p) replies].
Lemma lifted_pre {A B} (a : result JmapError A) (k : A -> io N JmapError B) net r net' : bind (lift a) k net = (r, net') ->
  (net' = net /\ exists e, r = Err e) \/ exists x, a = Ok x /\ k x net = (r, net').
Proof using Type. intros [(e & [= _ <-] & ->)|(x & n & [= -> <-] & Hk)]%bind_inv; [left; split; [done|by exists e]|right; by exists x]. Qed.
Lemma wrapper_submission seam m wrapper net r net' : om_mime_body m = Some wrapper -> submit_outbound (T := N) seam m net = (r, net') ->
  exists said, told said net net' /\ hands_wrapper wrapper (handed said).
Proof using Type.
  intros Hw. unfold submit_outbound. rewrite Hw. assert (Hneeds : needs_mime_import m = true) by (unfold needs_mime_import; by rewrite Hw, bool_decide_eq_true_2).
  assert (Hnone : exists said, told said net net /\ hands_wrapper wrapper (handed said)) by (exists []; split; [unfold told; by rewrite app_nil_r|by left]).
  intros [(e & [=] & _)|(supported & n0 & [= _ <-] & Hs)]%bind_inv. destruct (negb supported); [by injection Hs as _ <-|].
  assert (Hafter : forall r1 n1, client (send_batch (JmapSender := recording_sender) (sm_client seam) IdentitiesAndMailboxes) net = (r1, n1) ->
    exists said, told said net n1 /\ handed said = []) by (intros r1 n1 (answers & Hl)%looked; eexists; split; [exact Hl|done]).
  apply bind_inv in Hs as [(e & He & ->)|(responses & n1 & Hlook & Hs)].
  { destruct (Hafter _ _ He) as (said & Ht & Hh). exists said. rewrite Hh. split; [done|by left]. }
  destruct (Hafter _ _ Hlook) as (said & Ht & Hh).
  assert (Hstay : exists l, told l net n1 /\ hands_wrapper wrapper (handed l)) by (exists said; rewrite Hh; split; [done|by left]).
  destruct responses as [|r0 [|r1 [|]]]; try by injection Hs as _ <-.
  apply lifted_pre in Hs as [[-> _]|(mailboxes & _ & Hs)]; [done|]. apply lifted_pre in Hs as [[-> _]|(identities & _ & Hs)]; [done|].
  apply lifted_pre in Hs as [[-> _]|(identity_id & _ & Hs)]; [done|]. cbv zeta in Hs. rewrite Hneeds in Hs.
  apply bind_inv in Hs as [(e & [=] & _)|(mime & n2 & [= <- <-] & Hs)]. apply wrapped_submission in Hs as (more & Hmore & Hcase).
  exists (said ++ more)%list. split; [by eapply told_then|]. unfold handed in *. rewrite List.filter_app, Hh. cbn [app].
  destruct Hcase as [(-> & _)|[(e & -> & _)|(blob & box & replies & -> & _)]]; [by left|right; left; by exists e|]. right. right. by eexists _, _, _, _, _.
Qed.
(** All that a complete batch needs is handed over with it. *)
Lemma handed_all m up b x : match om_mime_body m with None => batch_carries m up b | Some wrapper => wrapper_alone wrapper up b end ->
  handed (up ++ [Batched b x])%list = (up ++ [Batched b x])%list.
Proof using Type.
  assert (Hups : forall l us es, Forall3 uploaded_as l us es -> handed es = es).
  { intros l us es. induction 1 as [|a u e l us es (_ & _ & bytes & _ & ->) _ IH]; [done|]. cbn. unfold handed in IH. by rewrite IH. }
  unfold handed in *. rewrite List.filter_app. destruct (om_mime_body m) as [wrapper|], b; cbn; try done.
  - by intros [-> _].
  - intros (_ & _ & _ & _ & Hup & _). by rewrite (Hups _ _ _ Hup).
  - by intros (msg & _ & -> & _).
Qed.

(** C37: A mail that is not wrapped by OpenPGP is answered as sent over JMAP only when the network
    was told this, in this order, and nothing else: a look at the identities and mailboxes, the
    uploads, and one batch, to which the server answered that it has created the mail and
    accepted its submission under the id that is answered.  That batch holds every recipient,
    hidden ones too, the subject, the texts and, as a blob uploaded in this very run, every
    attachment with its bytes; or it imports the uploaded file that was built of the whole
    message.  A mail wrapped by OpenPGP is imported as the wrapper alone, without headers or
    files ([pgp_imports_the_wrapper_alone]), and a built file names no hidden recipient. *)
Theorem jmap_submission_is_whole seam m net id net' :
  om_mime_body m = None -> submit_outbound (T := N) seam m net = (Ok id, net') ->
  exists answers up b replies,
    snd net' = (snd net ++ Batched IdentitiesAndMailboxes answers :: up ++ [Batched b (Ok replies)])%list /\
    SubmissionReply (Ok id) ∈ replies /\ (SetEmailReply (Ok tt) ∈ replies \/ ImportReply (Ok tt) ∈ replies) /\ batch_carries m up b.
Proof using Type.
  intros Hplain (answers & up & b & replies & Ht & [Hs Hc] & Hb)%submission_told. rewrite Hplain in Hb. by exists answers, up, b, replies.
Qed.

(** An OpenPGP mail is imported as its wrapper alone: what is uploaded has neither the headers nor the attachments of the message. *)
Lemma pgp_imports_the_wrapper_alone seam m wrapper r0 r1 net net1 mailboxes identities identity_id :
  om_mime_body m = Some wrapper -> supports_submission seam net = true ->
  send_batch (sm_client seam) IdentitiesAndMailboxes net = (Ok [r0; r1], net1) ->
  unwrap_mailboxes r1 = Ok mailboxes -> unwrap_identities r0 = Ok identities -> pick_identity identities (om_from_email m) = Some identity_id ->
  submit_outbound seam m net =
  submit_mime_wrapped seam wrapper identity_id (mailbox_id_for_role mailboxes RDrafts) (mailbox_id_for_role mailboxes RSent) mailboxes net1.
Proof using Type.
  intros Hw Hsup Hb Hm Hi Hp. unfold submit_outbound. rewrite (bind_step _ _ _ true net) by (unfold gets; by rewrite Hsup). cbn [negb].
  rewrite (bind_step _ _ _ [r0; r1] net1) by (unfold client, map_err; by rewrite Hb). rewrite Hm, Hi. cbn [rmap_err].
  rewrite (bind_step _ _ _ mailboxes net1) by done. rewrite (bind_step _ _ _ identities net1) by done. rewrite Hp. cbn [ok_or].
  rewrite (bind_step _ _ _ identity_id net1) by done. unfold needs_mime_import. rewrite Hw. by rewrite bool_decide_eq_true_2.
Qed.
End Submitted.

(** ** Witness *)

(** A server that takes every batch: what was uploaded and what was sent. *)
Record toy_server := mkServer { ts_blobs : list string; ts_batches : list Batch }.
Definition toy_boxes : list WireMailbox := [mkWireMailbox (Some "mb1") (Some "Drafts") RDrafts None; mkWireMailbox (Some "mb2") (Some "Sent") RSent None].
#[local] Instance sending_wire : JmapWire toy_server := {|
  Handle := unit;
  http_get _ _ n := (Err "unreachable", n);
  client_connect _ _ _ n := (Ok tt, n);
  session _ _ := mkSession "" "" "" "" [] [] None [submission_uri] [];
  set_default_account_id c _ := c;
  is_session_updated _ _ := true;
  refresh_session _ n := (Ok tt, n);
  get_mailbox _ n := (Ok toy_boxes, n);
  query_email _ _ _ _ n := (Err (Transport "unreachable"), n);
  query_and_get _ _ _ _ n := (Err (Transport "unreachable"), n);
  get_email _ _ n := (Err (Transport "unreachable"), n);
  query_email_changes_req _ _ _ _ n := (Err (Transport "unreachable"), n);
  changes_email _ _ _ n := (Err (Transport "unreachable"), n);
  download _ _ n := (Err (Transport "unreachable"), n);
  event_stream _ _ n := (Err "unreachable", n) |}.
#[local] Instance sending_server : JmapSender toy_server := {|
  send_batch _ b n := (Ok match b with
                          | IdentitiesAndMailboxes => [IdentityReply [mkIdentity (Some "i1") (Some "ann@x.org")]; MailboxReply toy_boxes]
                          | CreateAndSubmit _ _ _ => [SetEmailReply (Ok tt); SubmissionReply (Ok "s1"); SetEmailReply (Ok tt)]
                          | ImportAndSubmit _ _ _ _ _ => [ImportReply (Ok tt); SubmissionReply (Ok "s1"); SetEmailReply (Ok tt)]
                          end, mkServer (ts_blobs n) (ts_batches n ++ [b])%list);
  upload_blob _ data _ n := (Ok ("blob" +:+ show_N (N.of_nat (length (ts_blobs n)))), mkServer (ts_blobs n ++ [data])%list (ts_batches n));
  import_email _ _ _ _ n := (Ok "e1", n);
  create_email _ _ n := (Ok "e1", n);
  client_error_text _ := "error" |}.
#[local] Instance sending_json : JsonLib := OAuth.tree_codec.
#[local] Instance recorded_wire : JmapWire (toy_server * list NetEvent) := recording_wire.
#[local] Instance recorded_server : JmapSender (toy_server * list NetEvent) := recording_sender.
Definition toy_seam : JmapSeam (toy_server * list NetEvent) := mkSeam _ _ tt "https://x.org" "auth".
Definition toy_submit := submit_outbound toy_seam toy_message (mkServer [] [], []).
Lemma jmap_submission_is_whole_witness :
  fst toy_submit = Ok "s1" /\
  exists answers up b replies, snd (snd toy_submit) = ([] ++ Batched IdentitiesAndMailboxes answers :: up ++ [Batched b (Ok replies)])%list /\
    SubmissionReply (Ok "s1") ∈ replies /\ (SetEmailReply (Ok tt) ∈ replies \/ ImportReply (Ok tt) ∈ replies) /\ batch_carries toy_message up b.
Proof.
  split; [by vm_compute|].
  exact (jmap_submission_is_whole toy_seam toy_message (mkServer [] [], []) "s1" (snd toy_submit) eq_refl (answer _ _ eq_refl)).
Defined.
