(* ===== verification/SigningIn.v ===== *)
(** * What signing in leaves alone

    Every action on a mail server begins by resolving the secret of the account, which may
    refresh a token, and by opening a session.  Here, once for all its users: these steps touch
    neither the mail tables nor, of the servers, more than any relation that signing in keeps;
    and a pass over an account keeps what its commands keep.  The last part applies both to the
    network with a record of [JmapSend]. *)
From S2P Require Import Prelude Kv Crypto UnlockRing World Toy Session Labels Jobs Pool Netsec MailStore Imap ImapLoop Blobs Jmap JmapLoop.
From S2P Require Import Spam OAuth Ai JmapWrite Desk Actions Outbound JmapSend.
Local Open Scope string_scope.
Local Open Scope Z_scope.

Section SigningIn.
Context {K R T : Type} `{HasRng R} `{CryptoLib} `{OAuthNet T} `{JmapWire T} `{ImapSession T} `{UrlLib} `{UrlJoin}
  `{StoreLib} `{JsonLib} `{JobLib}.
Context (configs : OAuthRefreshConfigs).
Local Abbreviation D := (desk K R T).
(** Any relation that signing in and refreshing a token keep. *)
Context (P : T -> T -> Prop) `{HP : !PreOrder P}.
Record signs_in : Prop := {
  hl_post url form : preserves P (post_form url form);
  hl_login config : preserves P (sess_connect config);
  hl_get url auth : preserves P (http_get url auth);
  hl_client url c timeout : preserves P (client_connect url c timeout) }.
Context (Hh : signs_in).

Definition calm (d d' : D) : Prop :=
  ml_messages (dk_mail d') = ml_messages (dk_mail d) /\ ml_folders (dk_mail d') = ml_folders (dk_mail d) /\ dk_drafts d' = dk_drafts d /\ P (net d) (net d').
#[export] Instance calm_pre : PreOrder calm.
Proof. split; [by intros d|]. intros x y z (A & B & C & E) (A' & B' & C' & E'). unfold calm. rewrite A', B', C'. split_and!; [done..|by etrans]. Qed.

Lemma calm_read {A} (f : D -> A) : preserves calm (stmt (fun d => (f d, d))).
Proof using HP. intros d r d'. unfold stmt, mstmt. destruct (ml_fuse (dk_mail d)) as [[|n]|]; intros [= _ <-]; done. Qed.
Lemma calm_uuid : preserves calm (on_mail (K := K) (R := R) (T := T) (new_uuid_text (E := SyncError))).
Proof using HP. by intros d r d' [= _ <-]. Qed.
Lemma calm_ow {E A} (m : io (oauth_world K R T) E A) : preserves (fun o o' => P (ow_net o) (ow_net o')) m -> preserves calm (on_ow m).
Proof using HP. intros Hm d r d'. unfold on_ow. destruct (m (dk_ow d)) as [x o] eqn:Ho. intros [= _ <-]. apply Hm in Ho. done. Qed.
Lemma calm_auth {E A} (m : io (world K R) E A) : preserves calm (on_ow (on_auth (T := T) m)).
Proof using HP. apply calm_ow. intros o r o'. unfold on_auth. destruct (m _) as [x a]. by intros [= _ <-]. Qed.
Lemma calm_seams {E A} (m : io (gmap string (JmapSeam T) * T) E A) : preserves (fun x y => P (snd x) (snd y)) m -> preserves calm (on_seams (K := K) (R := R) m).
Proof using HP. intros Hm d r d'. unfold on_seams. destruct (m _) as [x [c n]] eqn:Ho. intros [= _ <-]. apply Hm in Ho. done. Qed.
Lemma calm_net {E A} (m : io T E A) : preserves P m -> preserves calm (Desk.on_net (K := K) (R := R) m).
Proof using HP. intros Hm d r d'. unfold Desk.on_net. destruct (m _) as [x n] eqn:Ho. intros [= _ <-]. apply Hm in Ho. done. Qed.
Hint Resolve calm_read calm_uuid calm_auth : preserve.

(** *** Tokens and sessions *)

Local Abbreviation keeps := (fun o o' : oauth_world K R T => P (ow_net o) (ow_net o')).
#[local] Instance keeps_pre : PreOrder keeps.
Proof. split; [intros o; reflexivity|]. intros x y z A B. by etrans. Qed.
Lemma post_keeps url form : preserves keeps (OAuth.on_net (K := K) (R := R) (post_form url form)).
Proof using Type*. intros o r o'. unfold OAuth.on_net. destruct (post_form _ _ _) as [x n] eqn:Hp. intros [= _ <-]. by apply (hl_post Hh) in Hp. Qed.
Hint Resolve post_keeps : preserve.
Lemma refresh_keeps host tokens : preserves keeps (refresh (K := K) (R := R) (T := T) host configs tokens).
Proof using Type*.
  unfold refresh, refresh_with, refresh_microsoft, refresh_yandex, post_token_form, transport, refreshed_tokens, no_oauth_error. preserve.
Qed.
Lemma ostmt_keeps {A} (f : oauth_world K R T -> A * oauth_world K R T) : (forall o, ow_net (snd (f o)) = ow_net o) -> preserves keeps (ostmt f).
Proof using HP.
  intros Hf o r o'. unfold ostmt. destruct (w_db_up _); [|by intros [= _ <-]].
  specialize (Hf o). destruct (f o) as [a x]. intros [= _ <-]. cbn in Hf. by rewrite Hf.
Qed.
Lemma auth_keeps {E A} (m : io (world K R) E A) : preserves keeps (on_auth (T := T) m).
Proof using HP. intros o r o'. unfold on_auth. destruct (m _) as [x a]. by intros [= _ <-]. Qed.
Hint Resolve auth_keeps refresh_keeps : preserve.
Lemma resolve_keeps a ty cj dek host : preserves keeps (resolve_mail_access_secret (K := K) (R := R) (T := T) a ty cj dek host configs).
Proof using Type*.
  unfold resolve_mail_access_secret, recheck, redeem, persist, load_credential_blob, update_account_credential, encrypt_oauth_tokens. preserve; apply ostmt_keeps; by intros ?.
Qed.
Lemma key_calm u a : preserves calm (dek_and_credential (K := K) (R := R) (T := T) u a).
Proof using HP. unfold dek_and_credential. preserve. Qed.
Lemma active_calm u a : preserves calm (active_account (K := K) (R := R) (T := T) u a).
Proof using HP. unfold active_account. preserve. Qed.
Hint Resolve key_calm active_calm : preserve.
Lemma imap_calm u a : preserves calm (connect_imap_for_account (K := K) (R := R) configs u a).
Proof using Type*.
  unfold connect_imap_for_account. preserve.
  all: try (apply calm_ow, resolve_keeps).
  intros d r d'. unfold Imap.connect. destruct (sess_connect _ (net d)) as [[caps|] n] eqn:Hs; intros [= _ <-]; apply (hl_login Hh) in Hs; done.
Qed.
Lemma opened_session u a (d : D) c d' : connect_imap_for_account configs u a d = (Ok c, d') -> cl_session c = net d'.
Proof using Type.
  unfold connect_imap_for_account. intros ([dek cj] & d1 & _ & Hd)%bind_Ok. apply bind_Ok in Hd as (row & d2 & _ & Hd).
  destruct (negb _); [done|]. apply bind_Ok in Hd as (host & d3 & _ & Hd). apply bind_Ok in Hd as (sec & d4 & _ & Hd).
  apply bind_Ok in Hd as (secret & d5 & _ & Hd). unfold Imap.connect in Hd. destruct (sess_connect _ (net d5)) as [[caps|] n]; [by injection Hd as <- <-|done].
Qed.

(** *** JMAP *)

Lemma hops_keep n base auth origin url b : preserves P (follow_hops n base auth origin url b).
Proof using Type*.
  revert url b. induction n as [|n IH]; intros url b; cbn [follow_hops]; preserve; try apply IH. apply (hl_get Hh).
Qed.
Lemma client_keeps {A} (m : io T ClientError A) : preserves P m -> preserves P (client m).
Proof using Type*. intros Hm. unfold client. by apply pres_map_err. Qed.
Lemma connect_with_keeps url c : preserves P (connect_with url c).
Proof using Type*.
  unfold connect_with, preflight_discovery. preserve; try apply hops_keep. apply client_keeps, (hl_client Hh).
Qed.
Lemma connect_keeps url email secret ty : preserves P (Jmap.connect url email secret ty).
Proof using Type*. unfold Jmap.connect. preserve; apply connect_with_keeps. Qed.
Lemma connect_for_keeps a url email secret ty : preserves (fun x y => P (snd x) (snd y)) (connect_for_account a url email secret ty).
Proof using Type*.
  intros [c n] r [c' n']. unfold connect_for_account. cbn.
  destruct (c !! a) as [seam|]; [by intros [= _ _ <-]|]. destruct (Jmap.connect _ _ _ _ n) as [[seam|] n2] eqn:Hc; intros [= _ _ <-]; by apply connect_keeps in Hc.
Qed.
Lemma seam_calm u a : preserves calm (connect_jmap_for_account (K := K) (R := R) u a).
Proof using Type*.
  unfold connect_jmap_for_account. preserve. apply calm_seams, connect_for_keeps.
Qed.
End SigningIn.

(** ** A pass over an account *)

Section Pass.
Context {T : Type} `{ImapSession T} `{MimeLib} `{UrlLib} `{StoreLib} `{JsonLib}.
Context (P : T -> T -> Prop) `{!PreOrder P}.
Record session_keeps : Prop := {
  ss_connect config : preserves P (sess_connect config);
  ss_list : preserves P sess_list;
  ss_select m : preserves P (sess_select m);
  ss_search q : preserves P (sess_uid_search q);
  ss_fetch s q : preserves P (sess_uid_fetch s q);
  ss_store s q : preserves P (sess_uid_store s q);
  ss_uid_expunge s : preserves P (sess_uid_expunge s);
  ss_expunge : preserves P sess_expunge;
  ss_append m f c : preserves P (sess_append m f c);
  ss_logout : preserves P sess_logout }.
Context (Hs : session_keeps).

Local Abbreviation by_client := (fun c c' : ImapClient T => P (cl_session c) (cl_session c')).
#[local] Instance by_client_pre : PreOrder by_client.
Proof. split; [intros c; reflexivity|]. intros x y z A B. by etrans. Qed.
Lemma on_session_keeps {A} (m : io T ImapError A) : preserves P m -> preserves by_client (on_session m).
Proof using Type. intros Hm c r c'. unfold on_session. destruct (m (cl_session c)) as [x n] eqn:Hx. intros [= _ <-]. by apply Hm in Hx. Qed.
Lemma modify_client {E} (f : ImapClient T -> ImapClient T) : (forall c, cl_session (f c) = cl_session c) -> preserves by_client (modify (E := E) f).
Proof using Type*. intros Hf c r c' [= _ <-]. by rewrite Hf. Qed.
Hint Extern 1 (preserves _ (on_session _)) => (apply on_session_keeps; apply Hs) : preserve.
Hint Extern 1 (preserves _ (modify _)) => (apply modify_client; done) : preserve.
Lemma select_keeps f : preserves by_client (select f).
Proof using Type*. unfold select. preserve. Qed.
Hint Resolve select_keeps : preserve.
Lemma reconnect_keeps : preserves by_client reconnect.
Proof using Type*. unfold reconnect. preserve. Qed.
Lemma search_keeps o : preserves by_client (search_uids o).
Proof using Type*. unfold search_uids. preserve. Qed.
Lemma once_keeps l : preserves by_client (fetch_metadata_once l).
Proof using Type*. unfold fetch_metadata_once. preserve. Qed.
Hint Resolve reconnect_keeps search_keeps once_keeps : preserve.
Lemma loop_keeps fuel pieces i n out : preserves by_client (fetch_loop fuel pieces i n out).
Proof using Type*.
  revert i n out. induction fuel as [|fuel IH]; intros i n out; cbn [fetch_loop]; [preserve|]. destruct (pieces !! i); [|preserve].
  apply pres_bind; [apply _|preserve|]. intros [msgs|e]; [apply IH|]. cbv zeta. destruct (_ <? _); [preserve|]. apply pres_bind; [apply _|preserve|intros ?; apply IH].
Qed.
Hint Resolve loop_keeps : preserve.
Lemma metadata_keeps l : preserves by_client (fetch_metadata l).
Proof using Type*. unfold fetch_metadata. preserve. Qed.
Lemma changed_keeps n : preserves by_client (fetch_changed_since n).
Proof using Type*. unfold fetch_changed_since. preserve. Qed.
Lemma folders_keeps : preserves by_client list_folders.
Proof using Type*. unfold list_folders. preserve. Qed.
Lemma logout_keeps : preserves by_client logout.
Proof using Type*. unfold logout. preserve. Qed.
Lemma delete_uid_keeps uid : preserves by_client (delete_uid uid).
Proof using Type*. unfold delete_uid, expunge_uid_if_safe. preserve. Qed.
Lemma append_keeps mailbox content : preserves by_client (append_draft mailbox content).
Proof using Type*. unfold append_draft. preserve. Qed.
Hint Resolve metadata_keeps changed_keeps folders_keeps logout_keeps : preserve.

Local Abbreviation by_pass := (fun x y : mail * ImapClient T => by_client (snd x) (snd y)).
#[local] Instance by_pass_pre : PreOrder by_pass.
Proof. split; [intros c; reflexivity|]. intros x y z A B. by etrans. Qed.
Lemma client_pass {A E} (m : io (ImapClient T) E A) : preserves by_client m -> preserves by_pass (on_client m).
Proof using Type. intros Hm [db c] r w'. unfold on_client. cbn. destruct (m c) as [x c'] eqn:Hx. intros [= _ <-]. by apply Hm in Hx. Qed.
Lemma db_pass {A E} (m : io mail E A) : preserves by_pass (on_db m).
Proof using Type*. intros [db c] r w'. unfold on_db. cbn. destruct (m db) as [x db']. by intros [= _ <-]. Qed.
Hint Resolve db_pass : preserve.
Hint Extern 1 (preserves _ (on_client _)) => (apply client_pass; preserve) : preserve.
Lemma chunks_keep a f v m ch pieces st : preserves by_pass (store_chunks a f v m ch pieces st).
Proof using Type*.
  revert st. induction pieces as [|c l IH]; intros st; cbn [store_chunks]; [preserve|].
  apply pres_bind; [apply _|preserve|]. intros [[|x msgs]|e]; [apply IH| |preserve]. cbv zeta. apply pres_bind; [apply _|preserve|intros ?; apply IH].
Qed.
Hint Resolve chunks_keep : preserve.
Lemma folder_keeps a folder t : preserves by_pass (sync_folder a folder t).
Proof using Type*.
  unfold sync_folder, sync_selected, sync_since, finish_folder, soft_fail, repair_folder_mojibake, reconcile_step. preserve.
Qed.
Hint Resolve folder_keeps : preserve.
Lemma account_keeps a : preserves by_pass (sync_account a).
Proof using Type*.
  unfold sync_account. apply pres_bind; [apply _|preserve|intros folders]. cbv zeta. apply pres_bind; [apply _| |intros ?].
  { induction (order_by depth_le folders) as [|f l IH]; cbn [upsert_folders]; [preserve|]. apply pres_bind; [apply _|preserve|intros ?; exact IH]. }
  apply pres_bind; [apply _| |intros ?; preserve]. generalize (mkTotals 0 0 0). induction (order_by depth_le folders) as [|f l IH]; intros t; cbn [sync_folders]; [preserve|].
  apply pres_bind; [apply _|preserve|intros [|]; [apply IH|preserve]].
Qed.
Lemma pass_keeps a row pw x : preserves (fun v w => P (snd v) (snd w)) (run_imap_sync a row pw x).
Proof using Type*.
  intros [db n] r w'. unfold run_imap_sync. destruct (imap_config _ _ _) as [config|]; [|by intros [= _ <-]]. cbn [fst snd]. unfold Imap.connect.
  destruct (sess_connect config n) as [[caps|e] n1] eqn:Hc; apply (ss_connect Hs) in Hc; [|by intros [= _ <-]].
  destruct (sync_account _ _) as [y [db' c']] eqn:Ha. intros [= _ <-]. apply account_keeps in Ha. by etrans.
Qed.
End Pass.

(** ** The network with a record *)

Section Recorded.
Context {T : Type} {O0 : OAuthNet T} {W0 : JmapWire T} {I0 : ImapSession T}.
Local Abbreviation N := (T * list NetEvent)%type.
(** Nothing was told but what [ok] allows. *)
Definition only (ok : NetEvent -> Prop) (x y : N) : Prop := exists said, told said x y /\ Forall ok said.
#[export] Instance only_pre ok : PreOrder (only ok).
Proof.
  split; [intros x; exists []; split; [unfold told; by rewrite app_nil_r|constructor]|]. intros x y z (l & Hl & Fl) (m & Hm & Fm).
  exists (l ++ m)%list. split; [by eapply told_then|]. by apply Forall_app.
Qed.
Lemma recorded_only {E A} ok (event : result E A -> NetEvent) (m : io T E A) : (forall r, ok (event r)) -> preserves (only ok) (recorded event m).
Proof. intros Hok x r y Hr%recorded_told. exists [event r]. split; [done|]. by constructor. Qed.
Lemma recorded_signs_in ok : ok Signing -> signs_in (only ok) (H1 := logged_oauth O0) (H2 := logged_wire W0) (H3 := logged_imap I0).
Proof. intros Hok. split; intros; by apply recorded_only. Qed.
Lemma recorded_session : session_keeps (only (fun _ => True)) (H := logged_imap I0).
Proof. split; intros; by apply recorded_only. Qed.
(** A desk whose network has told nothing yet, and no session open. *)
Definition recording_desk {K R} (d : desk K R T) : @desk K R N (logged_wire W0) :=
  @mkDesk K R N (logged_wire W0) (mkOw (ow_auth (dk_ow d)) (ow_rows (dk_ow d)) (ow_net (dk_ow d), []) (ow_seq (dk_ow d))) (dk_mail d) (dk_spam d)
    (dk_verdicts d) (dk_drafts d) (dk_ai d) ∅ (dk_jobs d) (dk_spawned d).
End Recorded.
