(* ===== verification/Compose.v ===== *)
(** * Sending a mail ([sync/send.rs], [plugins/smtp_send.rs], [plugins/jmap_send.rs])

    The world of the compose window: the mailbox of [Desk] with the keyring, the attachments and
    the blob directory.  The route builds the message, wraps it when OpenPGP is asked for, and
    hands its JSON to the send plugin of the account, which loads the account again, resolves
    its secret and delivers.  The tables of the plugins, bound at start-up, are bound. *)
From S2P Require Import Prelude Kv Crypto UnlockRing World Toy Session Labels Jobs Pool Netsec MailStore Imap ImapLoop Blobs Jmap JmapLoop.
From S2P Require Import Spam OAuth Ai JmapWrite Desk Actions ToyDesk Dav Accounts OpenPgp Outbound JmapSend SigningIn.
Local Open Scope string_scope.
Local Open Scope Z_scope.

Record compose_world (K R T : Type) `{JmapWire T} := mkCompose {
  cw_desk : desk K R T; cw_keys : list KeyRow; cw_seq : N; cw_attachments : list AttachmentRow; cw_disk : disk }.
Arguments mkCompose {K R T _}. Arguments cw_desk {K R T _}. Arguments cw_keys {K R T _}. Arguments cw_seq {K R T _}.
Arguments cw_attachments {K R T _}. Arguments cw_disk {K R T _}.

(** [Display] of a [SyncError]. *)
Definition sync_error_text `{ErrorTexts} (e : SyncError) : string :=
  match e with
  | AccountNotFound => "account not found"
  | MessageNotFound => "message not found"
  | AccountDisabled => "account not active or sync disabled"
  | Database m => "database error: " +:+ m
  | Imap e => "imap error: " +:+ imap_text e
  | Jmap e => "jmap error: " +:+ jmap_text e
  | Smtp e => "smtp error: " +:+ smtp_error_text e
  | CryptoE m => "crypto error: " +:+ m
  | InvalidInput m => "invalid input: " +:+ m
  | InternalE m => "internal error: " +:+ m
  | ProtocolE m => "protocol error: " +:+ m
  end.
(** Prefer the fixed categories over the server's words. *)
Definition send_err_category `{ErrorTexts} (err : SyncError) : string :=
  match err with Smtp smtp => job_category smtp | other => sync_error_text other end.
Definition jmap_send_err `{ErrorTexts} (err : SyncError) : string :=
  match err with
  | Jmap e => if is_auth e then "JMAP permanent: authentication failed" else if is_transient e then "JMAP transient" else "JMAP permanent: " +:+ jmap_text e
  | other => sync_error_text other
  end.

Inductive SendHandle := SmtpSendPlugin | JmapSendPlugin.
(** The plugins registered at start-up ([plugins/mod.rs], [kernel/app.rs]). *)
Definition resolve_send_plugin (send_protocol : string) : result SyncError SendHandle :=
  if String.eqb send_protocol "smtp" then Ok SmtpSendPlugin
  else if String.eqb send_protocol "jmap" then Ok JmapSendPlugin
  else Err (InvalidInput ("unknown send protocol '" +:+ send_protocol +:+ "'")).

Record SendMessageRequest := mkSend {
  sm_account_id : string; sm_to : list Json; sm_subject : string; sm_body_text : option string; sm_body_html : option string;
  sm_cc : option (list Json); sm_bcc : option (list Json); sm_in_reply_to : option string; sm_references : option string;
  sm_opengpg : option OpengpgSendOptions }.
(** [Display] of an [OpengpgError]; the database's only failure here is that it is closed. *)
Definition pgp_error_text (e : OpengpgError) : string :=
  match e with
  | InvalidKey m => "invalid OpenGPG key: " +:+ m
  | NoEmail => "no user id / email on key"
  | PgpDatabase => "database error: closed"
  | PgpInput m => "invalid input: " +:+ m
  | PgpNotFound => "not found"
  | PgpConflict m => "conflict: " +:+ m
  | PgpUnauthorized m => m
  | PgpTooMany => "too many unlock attempts"
  | PgpPanic => ""
  end.
Definition map_opengpg_send_error (err : OpengpgError) : SyncError :=
  match err with
  | PgpInput msg => InvalidInput msg
  | PgpNotFound => InvalidInput "OpenGPG key not found"
  | other => CryptoE (pgp_error_text other)
  end.

(** ** The request *)

(** A part of a [multipart/form-data] body, read. *)
Record FormField := mkField { ff_name : option string; ff_file_name : option string; ff_content_type : option string; ff_data : string }.
(** [serde_json::from_str] of the two JSON parts. *)
Class SendFormLib := {
  parse_payload : string -> result string SendMessageRequest;
  parse_inline_meta : string -> result string (list InlineMetaEntry);
}.
Section Form.
Context `{SendFormLib} `{MimeLib} `{CryptoLib}.
Context (max_attachment_bytes : Z).
Definition file_of (n : nat) (f : FormField) : result SyncError OutboundAttachment :=
  let filename := match ff_file_name f with
                  | Some name => if String.eqb (trim name) "" then "attachment-" +:+ show_N (N.of_nat (n + 1)) else name
                  | None => "attachment-" +:+ show_N (N.of_nat (n + 1))
                  end in
  if max_attachment_bytes <? Z.of_nat (String.length (ff_data f))
  then Err (InvalidInput ("attachment " +:+ filename +:+ " exceeds " +:+ show_Z max_attachment_bytes +:+ " bytes"))
  else Ok (attachment_from_bytes filename (default "application/octet-stream" (ff_content_type f)) (ff_data f)).
(** The three parts the loop collects; a repeated payload or metadata part replaces the one before. *)
Definition form_field (acc : option SendMessageRequest * list OutboundAttachment * list InlineMetaEntry) (f : FormField)
    : result SyncError (option SendMessageRequest * list OutboundAttachment * list InlineMetaEntry) :=
  let '(payload, files, inline_meta) := acc in
  match ff_name f with
  | Some name =>
      if String.eqb name "payload" then
        let? p := rmap_err (fun e => InvalidInput ("payload: " +:+ e)) (parse_payload (ff_data f)) in Ok (Some p, files, inline_meta)
      else if String.eqb name "files" then
        if (MAX_ATTACHMENTS_PER_SEND <=? length files)%nat
        then Err (InvalidInput ("at most " +:+ show_N (N.of_nat MAX_ATTACHMENTS_PER_SEND) +:+ " attachments per message"))
        else let? a := file_of (length files) f in Ok (payload, (files ++ [a])%list, inline_meta)
      else if String.eqb name "inlineMeta" then
        let? l := rmap_err (fun e => InvalidInput ("inlineMeta: " +:+ e)) (parse_inline_meta (ff_data f)) in Ok (payload, files, l)
      else Ok acc
  | None => Ok acc
  end.
Fixpoint form_fields (acc : option SendMessageRequest * list OutboundAttachment * list InlineMetaEntry) (l : list FormField)
    : result SyncError (option SendMessageRequest * list OutboundAttachment * list InlineMetaEntry) :=
  match l with
  | [] => Ok acc
  | f :: rest => let? acc' := form_field acc f in form_fields acc' rest
  end.
Definition from_multipart (l : list FormField) : result SyncError (SendMessageRequest * list OutboundAttachment) :=
  let? acc := form_fields (None, [], []) l in
  let '(payload, files, inline_meta) := acc in
  let? json := ok_or (InvalidInput "multipart send requires a payload part") payload in
  let? files := apply_inline_meta files inline_meta in
  Ok (json, files).
End Form.

Section Compose.
Context {K R T : Type} `{HasRng R} `{CryptoLib} `{OAuthNet T} `{JmapWrites T} `{ImapSession T} `{MimeLib} `{UrlLib} `{UrlJoin}
  `{JmapTime} `{StoreLib} `{JsonLib} `{JobLib} `{ErrorTexts} `{UpperLib} `{PgpLib} `{LettreLib} `{SmtpNet T} `{OutboundErrors}.
Context `{!JmapSender T}.
Context (configs : OAuthRefreshConfigs).
Local Abbreviation W := (compose_world K R T).
Local Abbreviation M := (io W SyncError).
Implicit Types w : W.

Definition set_desk d w : W := mkCompose d (cw_keys w) (cw_seq w) (cw_attachments w) (cw_disk w).
Definition on_desk {E A} (m : io (desk K R T) E A) : io W E A := fun w => let '(r, d) := m (cw_desk w) in (r, set_desk d w).
(** The keyring stands in the same database as the mail. *)
Definition pgp_view w : pgp_world K R :=
  mkPgp (ow_auth (dk_ow (cw_desk w))) (accounts (cw_desk w)) (cw_keys w) (cw_seq w) (ml_fuse (dk_mail (cw_desk w))).
Definition pgp_back (p : pgp_world K R) w : W :=
  let d := cw_desk w in
  mkCompose (set_mail (set_fuse (pw_fuse p) (dk_mail d))
               (set_ow (mkOw (pw_auth p) (pw_rows p) (ow_net (dk_ow d)) (ow_seq (dk_ow d))) d))
    (pw_keys p) (pw_seq p) (cw_attachments w) (cw_disk w).
Definition on_keys {E A} (m : io (pgp_world K R) E A) : io W E A := fun w => let '(r, p) := m (pgp_view w) in (r, pgp_back p w).

(** ** What a plugin loads *)

Definition account_row (account_id : string) : M MailAccountRow :=
  let! row := on_desk (stmt (fun d => (List.find (account_is account_id) (accounts d), d))) in
  let! row := lift (ok_or AccountNotFound row) in
  if negb (ma_is_active row) then throw AccountDisabled else ret row.
Definition smtp_security (row : MailAccountRow) : result SyncError SmtpSecurity :=
  match ma_smtp_security row with
  | Some s => let? mode := rmap_err InvalidInput (normalize_security_mode s) in Ok (if String.eqb mode "tls" then SmtpTls else SmtpStarttls)
  | None => Ok SmtpStarttls
  end.
Definition smtp_port (row : MailAccountRow) : Z := default 587 (Prelude.bounded 0 65535 (Some (default 587 (ma_smtp_port row)))).
Definition prepare_smtp_send (account_id raw : string) : M (SmtpConfig * OutboundMessage) :=
  let! row := account_row account_id in
  let! host := lift (ok_or (InvalidInput "SMTP host not configured") (ma_smtp_host row)) in
  let! security := lift (smtp_security row) in
  let! opened := on_desk (dek_and_credential (ma_user_id row) account_id) in
  let '(dek, credential_json) := opened in
  let! secret := map_err secret_error
    (on_desk (on_ow (resolve_mail_access_secret account_id (ma_auth_type row) credential_json dek (Some host) configs))) in
  let! outbound := lift (outbound_from_raw (ma_email_address row) raw) in
  ret (mkSmtp host (smtp_port row) security (ma_email_address row) (secret_text secret) (is_xoauth2 secret), outbound).
(** Base URL, address, password, auth type. *)
Definition prepare_jmap_send (account_id raw : string) : M (string * string * string * string * OutboundMessage) :=
  let! row := account_row account_id in
  let! base_url := lift (ok_or (InvalidInput "JMAP base URL not configured") (ma_jmap_base_url row)) in
  let! opened := on_desk (dek_and_credential (ma_user_id row) account_id) in
  let '(dek, credential_json) := opened in
  let! password := lift (rmap_err Jmap (decrypt_account_password credential_json dek)) in
  let! outbound := lift (outbound_from_raw (ma_email_address row) raw) in
  ret (base_url, ma_email_address row, password, ma_auth_type row, outbound).
Definition deliver_jmap (account_id jmap_base_url email password auth_type : string) (outbound : OutboundMessage) : M string :=
  let! seam := map_err Jmap (on_desk (on_seams (connect_for_account account_id jmap_base_url email password auth_type))) in
  on_desk (Desk.on_net (deliver_on seam outbound)).

(** ** The plugins *)

Definition smtp_plugin_send (account_id raw : string) : io W string unit :=
  let! prepared := map_err send_err_category (prepare_smtp_send account_id raw) in
  let! _ := map_err send_err_category (map_err Smtp (on_desk (Desk.on_net (deliver_smtp (fst prepared) (snd prepared))))) in
  ret tt.
Definition jmap_plugin_send (account_id raw : string) : io W string unit :=
  let! prepared := map_err jmap_send_err (prepare_jmap_send account_id raw) in
  let '(base_url, email, password, auth_type, outbound) := prepared in
  let! r := attempt (deliver_jmap account_id base_url email password auth_type outbound) in
  match r with
  | Ok _ => ret tt
  | Err err =>
      let! _ := when (match err with Jmap e => is_auth e | _ => false end)
                  (on_desk (modify (fun d => set_seams (evict account_id (dk_seams d)) d))) in
      throw (jmap_send_err err)
  end.
Definition plugin_send (h : SendHandle) : string -> string -> io W string unit :=
  match h with SmtpSendPlugin => smtp_plugin_send | JmapSendPlugin => jmap_plugin_send end.

(** ** The route *)

Definition opengpg_recipient_emails (body : SendMessageRequest) : list string :=
  (collect_recipient_emails (sm_to body) ++ collect_recipient_emails (default [] (sm_cc body)) ++ collect_recipient_emails (default [] (sm_bcc body)))%list.
Definition wrapped_for (user_id token : string) (body : SendMessageRequest) : M (option OpengpgMimeBody) :=
  match sm_opengpg body with
  | None => ret None
  | Some opts =>
      map_err map_opengpg_send_error (on_keys (wrap_outbound_opengpg user_id token (sm_account_id body) opts
        (mkOutboundDraft (sm_body_text body) (sm_body_html body) (opengpg_recipient_emails body))))
  end.
(** What the plugin is handed; a wrapped mail has no texts of its own. *)
Definition composed (from : string) (body : SendMessageRequest) (wrapped : option OpengpgMimeBody) (files : list OutboundAttachment) : OutboundMessage :=
  mkOutbound from None (parse_address_list (sm_to body)) (parse_address_list (default [] (sm_cc body))) (parse_address_list (default [] (sm_bcc body)))
    (sm_subject body) (match wrapped with Some _ => None | None => sm_body_text body end)
    (match wrapped with Some _ => None | None => sm_body_html body end) (sm_in_reply_to body) (sm_references body)
    (option_map mb_content_type wrapped) (option_map mb_body wrapped) files None.
Definition send_message (user_id token : string) (body : SendMessageRequest) (files : list OutboundAttachment) : M (string * string) :=
  let! row := on_desk (stmt (fun d => (List.find (owned_account user_id (sm_account_id body)) (accounts d), d))) in
  let! row := lift (ok_or AccountNotFound row) in
  if negb (ma_is_active row) then throw AccountDisabled else
  let! plugin := lift (resolve_send_plugin (default "" (ma_send_protocol row))) in
  if bool_decide (parse_address_list (sm_to body) = []) then throw no_to else
  let! wrapped := wrapped_for user_id token body in
  let! _ := map_err ProtocolE (plugin_send plugin (sm_account_id body) (json_text (outbound_json (composed (ma_email_address row) body wrapped files)))) in
  let! id := on_desk (on_mail new_uuid_text) in
  ret ("sent", "sent-" +:+ id).
End Compose.

(** ** What a sent mail was *)

Section Sent.
Context {K R T : Type} `{HasRng R} `{CryptoLib} {O0 : OAuthNet T} {W0 : JmapWire T} {I0 : ImapSession T} {N0 : SmtpNet T} {S0 : JmapSender T}
  `{MimeLib} `{UrlLib} `{UrlJoin} `{JmapTime} `{StoreLib} `{OutboundJsonLaws} `{JobLib} `{ErrorTexts} `{UpperLib} `{PgpLib} `{LettreLib} `{OutboundErrors}.
Context (configs : OAuthRefreshConfigs).
Local Abbreviation N := (T * list NetEvent)%type.
#[local] Instance sent_wire : JmapWire N := recording_wire.
#[local] Instance sent_sender : JmapSender N := recording_sender.
#[local] Instance sent_oauth : OAuthNet N := logged_oauth O0.
#[local] Instance sent_imap : ImapSession N := logged_imap I0.
#[local] Instance sent_smtp : SmtpNet N := logged_smtp N0.
Local Abbreviation W := (compose_world K R N).
Implicit Types w : W.
Definition net_of w : N := net (cw_desk w).

(** *** Nothing is handed over before the mail is *)

Definition signing_only : NetEvent -> Prop := fun e => e = Signing.
Definition silent w w' : Prop := only signing_only (net_of w) (net_of w').
#[local] Instance silent_pre : PreOrder silent.
Proof. split; [intros w; unfold silent; reflexivity|]. intros x y z A B. unfold silent in *. by etrans. Qed.
Lemma signed_in : signs_in (only (T := T) signing_only).
Proof using Type. by apply recorded_signs_in. Qed.
Lemma silent_desk {E A} (m : io (desk K R N) E A) : preserves (calm (only signing_only)) m -> preserves silent (on_desk m).
Proof using Type. intros Hm w r w'. unfold on_desk. destruct (m (cw_desk w)) as [x d] eqn:Hr. intros [= _ <-]. apply Hm in Hr as (_ & _ & _ & Hp). exact Hp. Qed.
Lemma silent_row id : preserves silent (account_row (K := K) (R := R) (T := N) id).
Proof using Type. unfold account_row. preserve. apply silent_desk, calm_read. apply _. Qed.
Hint Resolve silent_row : preserve.
Lemma silent_smtp id raw : preserves silent (prepare_smtp_send (K := K) (R := R) (T := N) configs id raw).
Proof using Type*.
  unfold prepare_smtp_send. preserve; apply silent_desk; [apply key_calm, _|]. apply calm_ow; [apply _|]. eapply resolve_keeps, signed_in. apply _.
Qed.
Lemma silent_jmap id raw : preserves silent (prepare_jmap_send (K := K) (R := R) (T := N) id raw).
Proof using Type. unfold prepare_jmap_send. preserve. apply silent_desk, key_calm, _. Qed.
Lemma silent_wrap user token body : preserves silent (wrapped_for (K := K) (R := R) (T := N) user token body).
Proof using Type.
  intros w r w'. unfold wrapped_for. destruct (sm_opengpg body) as [opts|]; [|by intros [= _ <-]]. intros (x & Hw & _)%map_err_inv.
  unfold on_keys in Hw. destruct (wrap_outbound_opengpg _ _ _ _ _ _) as [o p]. injection Hw as _ <-. unfold silent. reflexivity.
Qed.
Lemma silent_told w w' : silent w w' -> exists said, told said (net_of w) (net_of w') /\ handed said = [].
Proof using Type.
  intros (said & Ht & Hall). exists said. split; [done|]. clear Ht. induction Hall as [|e l -> _ IH]; [done|exact IH].
Qed.
(** Handed over after nothing was. *)
Lemma after_silence w w1 n l : silent w w1 -> told l (net_of w1) n -> exists said, told said (net_of w) n /\ handed said = handed l.
Proof using Type.
  intros (said & Ht & Hh)%silent_told Hl. exists (said ++ l)%list. split; [by eapply told_then|]. unfold handed in *. by rewrite List.filter_app, Hh.
Qed.

Lemma account_row_Ok id w row w' : account_row id w = (Ok row, w') ->
  List.find (account_is id) (accounts (cw_desk w)) = Some row /\ ma_is_active row = true.
Proof using Type.
  unfold account_row. intros (found & w1 & Hf & Hw)%bind_Ok. apply bind_Ok in Hw as (r & w2 & Hl & Hw). injection Hl as Hl <-.
  destruct found as [r'|]; [|done]. injection Hl as ->. destruct (ma_is_active r) eqn:Ha; [|done]. injection Hw as <- <-.
  split; [|done]. unfold on_desk, stmt, mstmt in Hf. destruct (ml_fuse (dk_mail (cw_desk w))) as [[|n]|]; [done|..]; by injection Hf.
Qed.
Lemma prepared_smtp id raw w p w' : prepare_smtp_send configs id raw w = (Ok p, w') ->
  exists row, List.find (account_is id) (accounts (cw_desk w)) = Some row /\ Some (sc_host (fst p)) = ma_smtp_host row /\
    sc_username (fst p) = ma_email_address row /\ outbound_from_raw (ma_email_address row) raw = Ok (snd p).
Proof using Type.
  unfold prepare_smtp_send. intros (row & w1 & Hrow%account_row_Ok & Hw)%bind_Ok. destruct Hrow as [Hrow _]. exists row. split; [done|].
  apply bind_Ok in Hw as (host & w2 & Hh & Hw). injection Hh as Hh _. destruct (ma_smtp_host row) as [h|]; [|done]. injection Hh as ->.
  apply bind_Ok in Hw as (sec & w3 & _ & Hw). apply bind_Ok in Hw as ([dek cred] & w4 & _ & Hw).
  apply bind_Ok in Hw as (secret & w5 & _ & Hw). apply bind_Ok in Hw as (m & w6 & Hm & Hw). injection Hm as Hm _. by injection Hw as <- _.
Qed.
Lemma prepared_jmap id raw w p w' : prepare_jmap_send id raw w = (Ok p, w') ->
  exists row, List.find (account_is id) (accounts (cw_desk w)) = Some row /\ outbound_from_raw (ma_email_address row) raw = Ok (snd p).
Proof using Type.
  unfold prepare_jmap_send. intros (row & w1 & Hrow%account_row_Ok & Hw)%bind_Ok. destruct Hrow as [Hrow _]. exists row. split; [done|].
  apply bind_Ok in Hw as (url & w2 & _ & Hw). apply bind_Ok in Hw as ([dek cred] & w3 & _ & Hw). apply bind_Ok in Hw as (pw & w4 & _ & Hw).
  apply bind_Ok in Hw as (m & w5 & Hm & Hw). injection Hm as Hm _. by injection Hw as <- _.
Qed.
(** What a plugin hands over of a message [m], for an answer [r]. *)
Definition relayed (row : MailAccountRow) (m : OutboundMessage) (accepted : bool) (l : list NetEvent) : Prop :=
  exists relay msg, l = [Submitted relay msg accepted] /\ Some (tr_host relay) = ma_smtp_host row /\ tr_user relay = ma_email_address row /\
    build_message m = Ok msg.
Definition submitted_whole (m : OutboundMessage) (l : list NetEvent) : Prop :=
  exists up b id replies, l = (up ++ [Batched b (Ok replies)])%list /\ accepted_batch id replies /\
    match om_mime_body m with None => batch_carries m up b | Some wrapper => wrapper_alone wrapper up b end.
Definition delivery (h : SendHandle) (row : MailAccountRow) (m : OutboundMessage) (r : result string unit) (l : list NetEvent) : Prop :=
  match h with
  | SmtpSendPlugin => if is_ok r then relayed row m true l else l = [] \/ exists b, relayed row m b l
  | JmapSendPlugin => (is_ok r = true -> submitted_whole m l) /\ (forall wrapper, om_mime_body m = Some wrapper -> hands_wrapper wrapper l)
  end.
Lemma smtp_tells config m n r n' : deliver_smtp (T := N) config m n = (r, n') ->
  exists said, told said n n' /\
    if is_ok r then exists relay msg, handed said = [Submitted relay msg true] /\ tr_host relay = sc_host config /\ tr_user relay = sc_username config /\ build_message m = Ok msg
    else handed said = [] \/ exists relay msg b, handed said = [Submitted relay msg b] /\ tr_host relay = sc_host config /\ tr_user relay = sc_username config /\ build_message m = Ok msg.
Proof using Type.
  assert (Hnone : forall e : SmtpError, exists said, told said n n /\ if is_ok (Err e : result SmtpError string) then False else handed said = [])
    by (intros e; exists []; split; [unfold told; by rewrite app_nil_r|done]).
  unfold deliver_smtp. intros [(e & [= He <-] & ->)|(relay & n1 & Hc & Hs)]%bind_inv.
  { destruct (Hnone e) as (said & Ht & Hh). exists said. split; [done|]. by left. }
  injection Hc as Hc <-. assert (Hrelay : tr_host relay = sc_host config /\ tr_user relay = sc_username config).
  { unfold smtp_connect in Hc. destruct (smtp_relay _ _); [done|]. by injection Hc as <-. }
  destruct Hrelay as [Hhost Huser]. unfold smtp_send in Hs. destruct (no_recipients m).
  { injection Hs as <- <-. destruct (Hnone (SmtpPermanent "no recipients")) as (said & Ht & Hh). exists said. split; [done|]. by left. }
  apply bind_inv in Hs as [(e & [= He <-] & ->)|(msg & n2 & [= Hb <-] & Hs)].
  { destruct (Hnone e) as (said & Ht & Hh). exists said. split; [done|]. by left. }
  apply bind_inv in Hs as [(e & He & ->)|([] & n2 & Hsub & Hs)].
  - apply map_err_inv in He as (x & Hx & _). apply recorded_told in Hx. eexists. split; [exact Hx|]. right. exists relay, msg, (is_ok x). done.
  - apply map_err_inv in Hsub as ([[]|] & Hx & Hy); [|done]. apply recorded_told in Hx. unfold bind in Hs. cbn in Hs.
    destruct (sent_uuid (fst n2)) as [u k]. injection Hs as <- <-. exists [Submitted relay msg true]. split; [exact Hx|]. by exists relay, msg.
Qed.
Lemma submission_grows seam m : preserves (only (T := T) (fun _ => True)) (submit_outbound (T := N) seam m).
Proof using Type.
  assert (Hany : forall A E (event : result E A -> NetEvent) (k : io T E A), preserves (only (fun _ => True)) (recorded event k))
    by (intros A E event k; by apply recorded_only).
  assert (Hups : forall l, preserves (only (T := T) (fun _ => True)) (upload_attachments (T := N) seam l)).
  { induction l as [|a l IH]; cbn [upload_attachments]; [preserve|]. preserve; apply Hany. }
  unfold submit_outbound, submit_mime_wrapped, client. preserve; first [apply Hany|apply Hups].
Qed.
Lemma told_once l l' (x y : N) : told l x y -> told l' x y -> l = l'.
Proof using Type. unfold told. intros ->. apply app_inv_head. Qed.
Lemma plugin_tells h id raw w r w' : plugin_send configs h id raw w = (r, w') ->
  exists said, told said (net_of w) (net_of w') /\
  ((handed said = [] /\ is_ok r = false) \/
   exists row m, List.find (account_is id) (accounts (cw_desk w)) = Some row /\ outbound_from_raw (ma_email_address row) raw = Ok m /\
     delivery h row m r (handed said)).
Proof using Type*.
  destruct h; cbn [plugin_send].
  - unfold smtp_plugin_send. intros [(e & He & ->)|(p & w1 & Hp & Hw)]%bind_inv.
    { apply map_err_inv in He as (x & Hx & _). apply silent_smtp, silent_told in Hx as (said & Ht & Hh). exists said. split; [done|by left]. }
    apply map_err_inv in Hp as ([p'|] & Hp & Hx); [|done]. injection Hx as ->. pose proof (silent_smtp _ _ _ _ _ Hp) as Hquiet.
    apply prepared_smtp in Hp as (row & Hrow & Hhost & Huser & Hm).
    assert (Hd : exists x n', deliver_smtp (T := N) (fst p') (snd p') (net_of w1) = (x, n') /\ is_ok r = is_ok x /\ net_of w' = n').
    { apply bind_inv in Hw as [(e & He & ->)|(sid & w2 & Hd & [= <- <-])].
      - apply map_err_inv in He as (y & Hy & He). apply map_err_inv in Hy as (z & Hz & ->). unfold on_desk, Desk.on_net in Hz.
        destruct (deliver_smtp _ _ _) as [v n'] eqn:Hs. injection Hz as -> <-. destruct z as [?|ze]; [done|]. by exists (Err ze), n'.
      - apply map_err_inv in Hd as (y & Hy & He). apply map_err_inv in Hy as (z & Hz & ->). unfold on_desk, Desk.on_net in Hz.
        destruct (deliver_smtp _ _ _) as [v n'] eqn:Hs. injection Hz as -> <-. destruct z as [a|]; [|done]. by exists (Ok a), n'. }
    destruct Hd as (x & n' & Hd & Hrx & Hn). apply smtp_tells in Hd as (l & Hl & Hcase). rewrite <-Hn in Hl.
    destruct (after_silence _ _ _ _ Hquiet Hl) as (said & Hsaid & Hh). exists said. split; [done|]. rewrite Hh. unfold delivery. rewrite Hrx.
    destruct (is_ok x).
    + right. exists row, (snd p'). split; [done|]. split; [done|]. destruct Hcase as (relay & msg & -> & H1' & H2' & Hb). exists relay, msg.
      by rewrite H1', H2'.
    + right. exists row, (snd p'). split; [done|]. split; [done|]. destruct Hcase as [->|(relay & msg & b & -> & H1' & H2' & Hb)]; [by left|].
      right. exists b, relay, msg. by rewrite H1', H2'.
  - unfold jmap_plugin_send. intros [(e & He & ->)|(p & w1 & Hp & Hw)]%bind_inv.
    { apply map_err_inv in He as (x & Hx & _). apply silent_jmap, silent_told in Hx as (said & Ht & Hh). exists said. split; [done|by left]. }
    apply map_err_inv in Hp as ([p'|] & Hp & Hx); [|done]. injection Hx as ->. pose proof (silent_jmap _ _ _ _ _ Hp) as Hquiet.
    apply prepared_jmap in Hp as (row & Hrow & Hm). destruct p' as [[[[url email] pw] auth] m]. cbn [snd] in Hm.
    assert (Hd : exists x w2, deliver_jmap id url email pw auth m w1 = (x, w2) /\ is_ok r = is_ok x /\ net_of w' = net_of w2).
    { unfold bind at 1, attempt in Hw.
      destruct (deliver_jmap _ _ _ _ _ _ _) as [y w3] eqn:Hd. exists y, w3. split; [done|]. destruct y as [y|e].
      - by injection Hw as <- <-.
      - apply bind_inv in Hw as [(e' & He & ->)|([] & w4 & Hwhen & [= <- <-])]; [destruct (match e with Jmap _ => _ | _ => _ end); by injection He|].
        split; [done|]. destruct (match e with Jmap _ => _ | _ => _ end); [|by injection Hwhen as <-].
        unfold on_desk, modify in Hwhen. cbn in Hwhen. by injection Hwhen as <-. }
    destruct Hd as (x & w2 & Hd & Hrx & Hn). rewrite Hn. clear Hw Hn. unfold deliver_jmap in Hd.
    assert (Hconn : forall y w3, map_err Jmap (on_desk (on_seams (connect_for_account id url email pw auth))) w1 = (y, w3) -> silent w1 w3).
    { intros y w3 (z & Hz & _)%map_err_inv. revert Hz. apply silent_desk. apply calm_seams; [apply _|]. eapply connect_for_keeps, signed_in. apply _. }
    apply bind_inv in Hd as [(e & He & ->)|(seam & w3 & Hc & Hd)].
    { destruct (silent_told w w2) as (said & Ht & Hh); [etrans; [done|by eapply Hconn]|]. exists said. split; [done|left; by rewrite Hrx]. }
    unfold on_desk, Desk.on_net, deliver_on in Hd. destruct (map_err Jmap (submit_outbound seam m) _) as [v n2] eqn:Hs. injection Hd as -> <-.
    apply map_err_inv in Hs as (z & Hs & ->).
    assert (Hgo : silent w w3) by (etrans; [done|by eapply Hconn]).
    destruct (submission_grows _ _ _ _ _ Hs) as (l & Hl & _). destruct (after_silence _ _ _ _ Hgo Hl) as (said & Hsaid & Hh).
    exists said. split; [exact Hsaid|]. right. exists row, m. split; [done|]. split; [done|]. rewrite Hh. cbn [delivery]. rewrite Hrx. replace (is_ok _) with (is_ok z) by by destruct z.
    split.
    + destruct z as [sid|]; [intros _|done]. apply submission_told in Hs as (answers & up & b & replies & Ht & Hacc & Hb).
      rewrite (told_once _ _ _ _ Hl Ht). exists up, b, sid, replies. split; [|done]. cbn. by apply (handed_all m).
    + intros wrapper Hw. destruct (wrapper_submission _ _ _ _ _ _ Hw Hs) as (l' & Ht & Hhands). by rewrite (told_once _ _ _ _ Hl Ht).
Qed.

Lemma wrapped_for_keeps user token body w r w' : wrapped_for user token body w = (r, w') ->
  accounts (cw_desk w') = accounts (cw_desk w).
Proof using Type.
  unfold wrapped_for. destruct (sm_opengpg body) as [opts|]; [|by intros [= _ <-]]. intros (x & Hw & _)%map_err_inv.
  unfold on_keys in Hw. destruct (wrap_outbound_opengpg _ _ _ _ _ _) as [o p] eqn:Hp. injection Hw as _ <-. apply wrap_untouched in Hp as [Hr _]. exact Hr.
Qed.
(** The row a request names is the one its plugin loads. *)
Lemma same_account_row user id l row row' : NoDup (map ma_id l) ->
  List.find (owned_account user id) l = Some row -> List.find (account_is id) l = Some row' -> row' = row.
Proof using Type.
  intros Hn [Hin [Hid _]%andb_true_iff]%find_some [Hin' Hid']%find_some. unfold account_is in *. apply String.eqb_eq in Hid, Hid'.
  apply list_elem_of_In in Hin, Hin'. eapply same_key; [exact Hn|done..|congruence].
Qed.
(** The account a request names. *)
Definition sends_from (user : string) (body : SendMessageRequest) w (row : MailAccountRow) : Prop :=
  row ∈ accounts (cw_desk w) /\ ma_id row = sm_account_id body /\ ma_user_id row = user /\ ma_is_active row = true.
Definition protocol_of (h : SendHandle) : string := match h with SmtpSendPlugin => "smtp" | JmapSendPlugin => "jmap" end.
Lemma resolved_protocol o h : resolve_send_plugin (default "" o) = Ok h -> o = Some (protocol_of h).
Proof using Type.
  unfold resolve_send_plugin. destruct o as [p|]; [|done]. change (default "" (Some p)) with p.
  destruct (String.eqb_spec p "smtp") as [->|]; [by intros [= <-]|]. destruct (String.eqb_spec p "jmap") as [->|]; [by intros [= <-]|done].
Qed.
Lemma send_tells user token body files w r w' : NoDup (map ma_id (accounts (cw_desk w))) ->
  send_message configs user token body files w = (r, w') ->
  exists said, told said (net_of w) (net_of w') /\
  ((handed said = [] /\ is_ok r = false) \/
   exists row h wrapped w1 w2 x, sends_from user body w row /\ ma_send_protocol row = Some (protocol_of h) /\
     cw_keys w1 = cw_keys w /\ wrapped_for user token body w1 = (Ok wrapped, w2) /\ (is_ok r = true -> is_ok x = true) /\
     delivery h row (composed (ma_email_address row) body wrapped files) x (handed said)).
Proof using Type*.
  intros Hids. unfold send_message.
  assert (Hstop : forall w1 (e : SyncError), silent w w1 -> exists said, told said (net_of w) (net_of w1) /\
    (handed said = [] /\ is_ok (Err e : result SyncError (string * string)) = false)).
  { intros w1 e (said & Ht & Hh)%silent_told. by exists said. }
  assert (Hread : forall A (f : desk K R N -> A) x w1, on_desk (stmt (fun d => (f d, d))) w = (x, w1) -> silent w w1 /\ accounts (cw_desk w1) = accounts (cw_desk w) /\ cw_keys w1 = cw_keys w).
  { intros A f x w1 Hf. split; [revert Hf; by apply silent_desk, calm_read, _|].
    unfold on_desk, stmt, mstmt in Hf. destruct (ml_fuse (dk_mail (cw_desk w))) as [[|n]|]; by injection Hf as _ <-. }
  intros [(e & He & ->)|(found & w1 & Hf & Hw)]%bind_inv.
  { apply Hread in He as [Hs _]. destruct (Hstop _ e Hs) as (said & Ht & Hh). exists said. split; [done|by left]. }
  assert (Hfound : found = List.find (owned_account user (sm_account_id body)) (accounts (cw_desk w))).
  { unfold on_desk, stmt, mstmt in Hf. destruct (ml_fuse (dk_mail (cw_desk w))) as [[|n]|]; [done|..]; by injection Hf as <- _. }
  apply Hread in Hf as (S1 & Hacc & Hkeys).
  assert (Hout : forall (e : SyncError) y, silent w1 y -> (Err e : result SyncError (string * string), y) = (r, w') ->
    exists said, told said (net_of w) (net_of w') /\ ((handed said = [] /\ is_ok r = false) \/
      exists row h wrapped w1 w2 x, sends_from user body w row /\ ma_send_protocol row = Some (protocol_of h) /\
     cw_keys w1 = cw_keys w /\ wrapped_for user token body w1 = (Ok wrapped, w2) /\ (is_ok r = true -> is_ok x = true) /\
     delivery h row (composed (ma_email_address row) body wrapped files) x (handed said))).
  { intros e y Hy [= <- <-]. destruct (Hstop y e) as (said & Ht & Hh); [by etrans|]. exists said. split; [done|by left]. }
  apply bind_inv in Hw as [(e & [= _ <-] & ->)|(row & w1' & [= Hl <-] & Hw)]; [by apply (Hout e w1)|].
  destruct found as [row'|]; [|done]. injection Hl as ->. destruct (ma_is_active row) eqn:Hact; cbn [negb] in Hw; [|by apply (Hout AccountDisabled w1)].
  apply bind_inv in Hw as [(e & [= _ <-] & ->)|(h & w1' & [= Hh <-] & Hw)]; [by apply (Hout e w1)|]. apply resolved_protocol in Hh.
  destruct (bool_decide (parse_address_list (sm_to body) = [])) eqn:Hto; [by apply (Hout no_to w1)|].
  apply bind_inv in Hw as [(e & He & ->)|(wrapped & w3 & Hwrap & Hw)]; [apply silent_wrap in He; by apply (Hout e w')|].
  pose proof (silent_wrap _ _ _ _ _ _ Hwrap) as S3. assert (S03 : silent w w3) by by etrans.
  assert (Hplug : exists x w4, plugin_send configs h (sm_account_id body)
      (json_text (outbound_json (composed (ma_email_address row) body wrapped files))) w3 = (x, w4) /\ net_of w' = net_of w4 /\ (is_ok r = true -> is_ok x = true)).
  { apply bind_inv in Hw as [(e & He & ->)|([] & w4 & Hs & Hw)].
    - apply map_err_inv in He as (x & Hx & He). exists x, w'. done.
    - apply map_err_inv in Hs as ([[]|] & Hs & Hx); [|done]. exists (Ok tt), w4. split; [done|]. split; [|done].
      unfold bind, on_desk, on_mail, new_uuid_text in Hw. cbn in Hw. by injection Hw as _ <-. }
  destruct Hplug as (x & w4 & Hs & Hn & Hrx). apply plugin_tells in Hs as (l & Hl & Hcase). rewrite <-Hn in Hl.
  destruct (after_silence _ _ _ _ S03 Hl) as (said & Hsaid & Hhanded). exists said. split; [done|]. rewrite Hhanded.
  destruct Hcase as [[-> Hx]|(row' & m & Hrow & Hm & Hdel)]; [left; split; [done|]; destruct r; [|done]; by rewrite Hrx in Hx|]. right.
  rewrite (wrapped_for_keeps _ _ _ _ _ _ Hwrap), Hacc in Hrow. assert (row' = row) as -> by (by eapply same_account_row).
  rewrite composed_message_arrives in Hm by (cbn; by apply bool_decide_eq_false_1 in Hto). injection Hm as <-.
  symmetry in Hfound. apply find_some in Hfound as [Hin [Hid Huser]%andb_true_iff]. apply String.eqb_eq in Hid, Huser.
  exists row, h, wrapped, w1, w3, x. split; [split; [by apply list_elem_of_In|done]|]. done.
Qed.

(** C39: A mail is answered as sent only when, in this very run, a server accepted it, and it is
    all that was handed over (the network keeps a record of what it is told).  The account is the user's own and active.  Over SMTP one message
    was submitted, to the relay the account names, under its address: the one built of what the
    user composed (recipients, subject, files and, without OpenPGP, the texts).  Over JMAP one
    batch was submitted, of which the server answered that it created and submitted the mail;
    without OpenPGP that batch and its uploads carry the whole message, or the file built of
    it, which names no hidden recipient; with OpenPGP it imports the wrapper and nothing
    else, which is a flaw the findings record ([pgp_imports_the_wrapper_alone]). *)
Theorem sent_mail_was_accepted user token body files w resp w' : NoDup (map ma_id (accounts (cw_desk w))) ->
  send_message configs user token body files w = (Ok resp, w') ->
  exists row wrapped said, sends_from user body w row /\ (sm_opengpg body = None -> wrapped = None) /\ told said (net_of w) (net_of w') /\
    let m := composed (ma_email_address row) body wrapped files in
    (ma_send_protocol row = Some "smtp" /\ relayed row m true (handed said)) \/
    (ma_send_protocol row = Some "jmap" /\ exists up b id replies, handed said = (up ++ [Batched b (Ok replies)])%list /\ accepted_batch id replies /\
       match wrapped with None => batch_carries m up b | Some wrapper => wrapper_alone (mb_body wrapper) up b end).
Proof using Type*.
  intros Hids (said & Ht & Hcase)%send_tells; [|done]. destruct Hcase as [[_ Hx]|(row & h & wrapped & w1 & w2 & x & Hrow & Hp & _ & Hwrap & Hx & Hd)]; [done|].
  specialize (Hx eq_refl). exists row, wrapped, said. split; [done|]. split.
  { intros Hn. unfold wrapped_for in Hwrap. rewrite Hn in Hwrap. by injection Hwrap as <- _. }
  split; [done|]. cbv zeta. destruct h; cbn [delivery protocol_of] in Hd, Hp.
  - rewrite Hx in Hd. by left.
  - right. split; [done|]. destruct Hd as [Hd _]. destruct (Hd Hx) as (up & b & id & replies & Hs & Ha & Hb). exists up, b, id, replies.
    split; [done|]. split; [done|]. by destruct wrapped.
Qed.

(** C38: The text of a mail the user asked to encrypt goes out sealed or not at all.  Whatever
    such a request answers, of all that the network is told
    in its run nothing hands a mail over; or only one message does, over SMTP, built without
    texts of its own around a wrapper; or only that wrapper does, over JMAP, and the batch that
    imports it.  What the wrapper holds was sealed to one key for each
    recipient (to, copied and hidden), each an unrevoked key of the user's ring that carries
    the address.  The files of the mail are no part of what is sealed: over SMTP they go
    beside the wrapper in the clear ([wrapped_files_are_open]). *)
Theorem encrypted_send_is_sealed user token body files opts w r w' : NoDup (map ma_id (accounts (cw_desk w))) ->
  sm_opengpg body = Some opts -> so_encrypt opts = true ->
  send_message configs user token body files w = (r, w') ->
  exists said, told said (net_of w) (net_of w') /\
  (handed said = [] \/
   exists row wrapper subs rng payload encrypted b, sends_from user body w row /\
    seal_armor rng payload subs = Ok encrypted /\ subs <> [] /\
    Forall2 (recipient_key user (pgp_view w)) (addresses (opengpg_recipient_emails body)) subs /\
    (mb_body wrapper = mb_body (sealed_body b encrypted) \/
     exists b' armor, mb_body wrapper = mb_body (with_key_part b' (sealed_body b encrypted) armor)) /\
    let m := composed (ma_email_address row) body (Some wrapper) files in
    om_body_text m = None /\ om_body_html m = None /\ om_mime_body m = Some (mb_body wrapper) /\
    ((exists accepted, relayed row m accepted (handed said)) \/ hands_wrapper (mb_body wrapper) (handed said))).
Proof using Type*.
  intros Hids Hopts He (said & Ht & Hcase)%send_tells; [|done]. exists said. split; [done|].
  destruct Hcase as [[Hn _]|(row & h & wrapped & w1 & w2 & x & Hrow & _ & Hkeys & Hwrap & _ & Hd)]; [by left|]. right.
  unfold wrapped_for in Hwrap. rewrite Hopts in Hwrap. apply map_err_inv in Hwrap as ([o|] & Hwrap & Ho); [|done]. injection Ho as ->.
  unfold on_keys in Hwrap. destruct (wrap_outbound_opengpg _ _ _ _ _ _) as [v p] eqn:Hp. injection Hwrap as -> _.
  apply encrypted_to_every_recipient in Hp as (subs & rng & payload & encrypted & b & Hseal & Hsubs & Hne & Ho); [|done].
  assert (Hwrapper : exists wrapper, o = Some wrapper /\ (mb_body wrapper = mb_body (sealed_body b encrypted) \/
     exists b' armor, mb_body wrapper = mb_body (with_key_part b' (sealed_body b encrypted) armor))).
  { destruct Ho as [->|(b' & armor & ->)]; eexists; (split; [done|]); [by left|right; by exists b', armor]. }
  destruct Hwrapper as (wrapper & -> & Hw). exists row, wrapper, subs, rng, payload, encrypted, b.
  split; [done|]. split; [done|]. split; [done|]. split.
  { eapply Forall2_impl; [exact Hsubs|]. intros e s. unfold recipient_key, user_keys, pgp_view. cbn. by rewrite Hkeys. }
  split; [done|]. cbv zeta. split; [done|]. split; [done|]. split; [done|]. destruct h; cbn [delivery] in Hd.
  - destruct (is_ok x); [left; by exists true|]. destruct Hd as [Hn|(acc & Hr)]; [right; rewrite Hn; by left|left; by exists acc].
  - right. by apply Hd.
Qed.
End Sent.

(** ** The form *)

Section FormBounds.
Context `{SendFormLib} `{MimeLib} `{CryptoLib}.
Context (max_attachment_bytes : Z).
Definition within (a : OutboundAttachment) : Prop :=
  exists data, oa_data_base64 a = b64_encode data /\ Z.of_nat (String.length data) <= max_attachment_bytes.
Lemma file_within n f a : file_of max_attachment_bytes n f = Ok a -> within a.
Proof using Type.
  unfold file_of. destruct (Z.ltb_spec max_attachment_bytes (Z.of_nat (String.length (ff_data f)))); [done|]. intros [= <-]. by exists (ff_data f).
Qed.
Lemma fields_within l payload files meta acc : form_fields max_attachment_bytes (payload, files, meta) l = Ok acc ->
  (length files <= MAX_ATTACHMENTS_PER_SEND)%nat -> Forall within files ->
  (length acc.1.2 <= MAX_ATTACHMENTS_PER_SEND)%nat /\ Forall within acc.1.2.
Proof using Type.
  revert payload files meta. induction l as [|f l IH]; intros payload files meta; cbn [form_fields]; [by intros [= <-]|].
  intros Hf Hlen Hall. destruct (form_field _ _ f) as [[[p fs] m]|] eqn:Hff; [|done]. cbn [rbind] in Hf. apply (IH _ _ _ Hf); clear IH Hf.
  all: unfold form_field in Hff; destruct (ff_name f) as [name|]; [|by injection Hff as <- <- <-].
  all: destruct (String.eqb name "payload"); [destruct (parse_payload (ff_data f)); [|done]; by injection Hff as <- <- <-|].
  all: destruct (String.eqb name "files"); [|destruct (String.eqb name "inlineMeta"); [destruct (parse_inline_meta (ff_data f)); [|done]|]; by injection Hff as <- <- <-].
  all: destruct (Nat.leb_spec MAX_ATTACHMENTS_PER_SEND (length files)); [done|].
  all: destruct (file_of _ _ f) as [a|] eqn:Ha; [|done]; apply file_within in Ha; injection Hff as <- <- <-.
  - rewrite length_app. cbn. lia.
  - apply Forall_app. by split; [|constructor].
Qed.
Lemma inline_within files meta out : apply_inline_meta files meta = Ok out -> Forall within files -> length out = length files /\ Forall within out.
Proof using Type.
  revert meta out. induction files as [|f files IH]; intros meta out; cbn [apply_inline_meta]; [by intros [= <-]|]. intros Ho [Hw Hall]%Forall_cons.
  destruct (take_meta (oa_filename f) meta) as [[x rest]|].
  - destruct (validate_content_id _); [|done]. cbn [rbind rmap_err] in Ho. destruct (apply_inline_meta files rest) as [fs|] eqn:Hr; [|done]. injection Ho as <-.
    destruct (IH _ _ Hr Hall) as [Hl Hf]. cbn. rewrite Hl. split; [done|]. by constructor.
  - destruct (apply_inline_meta files meta) as [fs|] eqn:Hr; [|done]. injection Ho as <-.
    destruct (IH _ _ Hr Hall) as [Hl Hf]. cbn. rewrite Hl. split; [done|]. by constructor.
Qed.
(** A form that is accepted has ten files at most, none above the limit. *)
Lemma form_is_bounded l json files : from_multipart max_attachment_bytes l = Ok (json, files) ->
  (length files <= 10)%nat /\ Forall within files.
Proof using Type.
  unfold from_multipart. destruct (form_fields _ _ _) as [[[p fs] m]|] eqn:Hf; [|done]. cbn [rbind].
  apply fields_within in Hf as [Hlen Hall]; [|cbn; unfold MAX_ATTACHMENTS_PER_SEND; lia|constructor]. cbn [fst snd] in *.
  destruct p; [|done]. cbn [ok_or rbind]. destruct (apply_inline_meta fs m) as [out|] eqn:Ho; [|done]. intros [= <- <-].
  destruct (inline_within _ _ _ Ho Hall) as [-> ?]. by split.
Qed.
End FormBounds.

(** ** A concrete compose window *)

#[local] Instance send_relay : SmtpNet toy_net := {
  smtp_relay _ _ := None;
  smtp_submit t m n := (Ok tt, logged (tr_host t +:+ ": " +:+ bu_subject (lm_headers m)) n);
  sent_uuid n := ("u", n);
}.
#[local] Instance send_no_jmap : JmapSender toy_net := {|
  send_batch _ _ n := (Err (Transport "unreachable"), n);
  upload_blob _ _ _ n := (Err (Transport "unreachable"), n);
  import_email _ _ _ _ n := (Err (Transport "unreachable"), n);
  create_email _ _ n := (Err (Transport "unreachable"), n);
  client_error_text _ := "error" |}.
#[local] Instance send_texts : ErrorTexts := { jmap_text _ := "error"; imap_text _ := "error" }.
#[local] Instance send_upper : UpperLib := to_ascii_uppercase.
#[local] Existing Instance braced_json.
#[local] Existing Instance braced_laws.

Definition relay_account : MailAccountRow :=
  mkMailAccount "a1" "u1" None "ann@x.org" "imap" "password" (legacy_blob "pw") (Some "imap.x.org") (Some 993) (Some "tls") None
    (Some "smtp.x.org") (Some 70000) None (Some "imap") (Some "smtp") true true no_extras.
#[local] Instance record_wire : JmapWire (toy_net * list NetEvent) := sent_wire.
#[local] Instance record_sender : JmapSender (toy_net * list NetEvent) := sent_sender.
#[local] Instance record_oauth : OAuthNet (toy_net * list NetEvent) := sent_oauth.
#[local] Instance record_smtp : SmtpNet (toy_net * list NetEvent) := sent_smtp.
Definition compose_office : compose_world MemoryKv.t N (toy_net * list NetEvent) :=
  mkCompose (recording_desk (set_ow (mkOw (Toy.toy_world [box_user "u1"] []) [relay_account] box_net 0%N) (box_desk [] [] []))) toy_keys 0%N []
    (mkDisk ∅ None false).
Definition to_bob (opts : option OpengpgSendOptions) : SendMessageRequest :=
  mkSend "a1" [JString "bob@y.org"] "Lunch" (Some "Noon?") None None (Some [JString "ann@x.org"]) None None opts.
Definition toy_send (opts : option OpengpgSendOptions) := send_message box_configs "u1" "tok" (to_bob opts) [] compose_office.
Definition encrypt_only : OpengpgSendOptions := mkPgpOptions false true false None ∅.
Example sent_to_the_relay : tn_log (fst (net (cw_desk (snd (toy_send None))))) = ["smtp.x.org: Lunch"].
Proof. vm_compute. reflexivity. Qed.
Lemma one_account : NoDup (map ma_id (accounts (cw_desk compose_office))).
Proof. apply (bool_decide_eq_true_1 _). vm_compute. reflexivity. Qed.
Lemma sent_mail_was_accepted_witness :
  exists resp, fst (toy_send None) = Ok resp /\
  exists row wrapped said, sends_from "u1" (to_bob None) compose_office row /\ (sm_opengpg (to_bob None) = None -> wrapped = None) /\
    told said (net_of compose_office) (net_of (snd (toy_send None))) /\
    let m := composed (ma_email_address row) (to_bob None) wrapped [] in
    (ma_send_protocol row = Some "smtp" /\ relayed row m true (handed said)) \/
    (ma_send_protocol row = Some "jmap" /\ exists up b id replies, handed said = (up ++ [Batched b (Ok replies)])%list /\ accepted_batch id replies /\
       match wrapped with None => batch_carries m up b | Some wrapper => wrapper_alone (mb_body wrapper) up b end).
Proof.
  eexists. split; [by vm_compute|].
  exact (sent_mail_was_accepted box_configs "u1" "tok" (to_bob None) [] compose_office _ (snd (toy_send None)) one_account (answer _ _ eq_refl)).
Defined.
Lemma encrypted_send_is_sealed_witness :
  (exists resp, fst (toy_send (Some encrypt_only)) = Ok resp) /\ length (List.filter hands_over (snd (net_of (snd (toy_send (Some encrypt_only)))))) = 1%nat /\
  exists said, told said (net_of compose_office) (net_of (snd (toy_send (Some encrypt_only)))) /\
  (handed said = [] \/
   exists row wrapper subs rng payload encrypted b, sends_from "u1" (to_bob (Some encrypt_only)) compose_office row /\
    seal_armor rng payload subs = Ok encrypted /\ subs <> [] /\
    Forall2 (recipient_key "u1" (pgp_view compose_office)) ["bob@y.org"; "ann@x.org"] subs /\
    (mb_body wrapper = mb_body (sealed_body b encrypted) \/
     exists b' armor, mb_body wrapper = mb_body (with_key_part b' (sealed_body b encrypted) armor)) /\
    let m := composed (ma_email_address row) (to_bob (Some encrypt_only)) (Some wrapper) [] in
    om_body_text m = None /\ om_body_html m = None /\ om_mime_body m = Some (mb_body wrapper) /\
    ((exists accepted, relayed row m accepted (handed said)) \/ hands_wrapper (mb_body wrapper) (handed said))).
Proof.
  split; [by eexists; vm_compute|]. split; [by vm_compute|].
  exact (encrypted_send_is_sealed box_configs "u1" "tok" (to_bob (Some encrypt_only)) [] encrypt_only compose_office
    (fst (toy_send (Some encrypt_only))) (snd (toy_send (Some encrypt_only))) one_account eq_refl eq_refl (surjective_pairing _)).
Defined.
