(* ===== verification/Drafts.v ===== *)
(** * Drafts ([sync/http.rs], [sync/imap_loop.rs])

    Saving a draft: the message is built, put on the server, and only then is the one it
    replaces taken away, there and in the table.  Over IMAP a pass over the account brings the
    new row; over JMAP the row and its pictures are written at once.  Discarding a draft is in
    [Actions]. *)
From S2P Require Import Prelude Kv Crypto UnlockRing World Toy Session Labels Jobs Pool Netsec MailStore Imap ImapLoop Blobs Jmap JmapLoop.
From S2P Require Import Spam OAuth Ai JmapWrite Desk Actions ToyDesk Dav Accounts OpenPgp Outbound JmapSend SigningIn Compose.
Local Open Scope string_scope.
Local Open Scope Z_scope.

Record InlineAttachment := mkInlineAttachment { ia_filename : string; ia_content_type : string; ia_content_id : string; ia_data_base64 : string }.
Record SaveDraftRequest := mkSaveDraft {
  sd_account_id : string; sd_to : list Json; sd_cc : option (list Json); sd_bcc : option (list Json); sd_subject : string;
  sd_body_text : option string; sd_body_html : option string; sd_in_reply_to : option string; sd_references : option string;
  sd_existing_draft_id : option string; sd_inline_attachments : list InlineAttachment }.

Definition switched_off (r : MailAccountRow) : MailAccountRow :=
  mkMailAccount (ma_id r) (ma_user_id r) (ma_display_name r) (ma_email_address r) (ma_protocol r) (ma_auth_type r) (ma_credential r)
    (ma_imap_host r) (ma_imap_port r) (ma_imap_security r) (ma_jmap_base_url r) (ma_smtp_host r) (ma_smtp_port r)
    (ma_smtp_security r) (ma_receive_protocol r) (ma_send_protocol r) false false (ma_extras r).
Definition sync_row (r : MailAccountRow) : AccountSyncRow :=
  mkSyncRow (ma_email_address r) (ma_imap_host r) (ma_imap_port r) (ma_imap_security r) (ma_auth_type r) (ma_credential r) (ma_jmap_base_url r).

Section Drafts.
Context {K R T : Type} `{HasRng R} `{CryptoLib} `{OAuthNet T} `{JmapWrites T} `{ImapSession T} `{MimeLib} `{UrlLib} `{UrlJoin}
  `{JmapTime} `{StoreLib} `{JsonLib} `{JobLib} `{LettreLib} `{BlobLib}.
Context `{!JmapSender T}.
Context (configs : OAuthRefreshConfigs) (max_attachment_bytes : Z) (data_dir : string).
Local Abbreviation D := (desk K R T).
Local Abbreviation W := (compose_world K R T).
Local Abbreviation M := (io W SyncError).
Implicit Types w : W.

(** ** [imap_sync_account] *)

Definition deactivate_row (account_id : string) : io D SyncError unit :=
  stmt (fun d => (tt, set_ow (mkOw (ow_auth (dk_ow d)) (map (fun r => if account_is account_id r then switched_off r else r) (accounts d))
                                (ow_net (dk_ow d)) (ow_seq (dk_ow d))) d)).
Definition fail_decrypt {A} (account_id : string) : io D SyncError A :=
  let! _ := attempt (F := SyncError) (deactivate_row account_id) in
  throw (CryptoE "credential decrypt failed; re-enter account password").
Definition on_pass {A} (m : io (mail * T) SyncError A) : io D SyncError A := fun d =>
  let '(r, (db, n)) := m (dk_mail d, net d) in (r, set_net n (set_mail db d)).
Definition imap_sync_account (user_id account_id : string) : io D SyncError SyncOutcome :=
  let! dek := attempt (on_ow (on_auth (get_user_dek user_id))) in
  match dek with
  | Err _ => fail_decrypt account_id
  | Ok dek =>
      let! row := stmt (fun d => (List.find (owned_account user_id account_id) (accounts d), d)) in
      let! row := lift (ok_or AccountNotFound row) in
      let! secret := attempt (on_ow (resolve_mail_access_secret account_id (ma_auth_type row) (ma_credential row) dek (ma_imap_host row) configs)) in
      match secret with
      | Err e => if is_credential_decrypt e then fail_decrypt account_id else throw (ProtocolE (oauth_error_text e))
      | Ok secret =>
          let! result := on_pass (run_imap_sync account_id (sync_row row) (secret_text secret) (is_xoauth2 secret)) in
          ret (outcome_from_response result)
      end
  end.

(** ** The draft as a message *)

Definition draft_account_probe (user_id account_id : string) : io D SyncError (string * string) :=
  let! row := active_account user_id account_id in ret (ma_email_address row, ma_protocol row).
Definition drafts_folder (account_id : string) : io D SyncError RoleFolder :=
  let! dest := role_folder account_id "drafts" in
  lift (ok_or (InvalidInput "account has no Drafts folder") dest).
Fixpoint parse_inline_attachments (inline : list InlineAttachment) : result SyncError (list OutboundAttachment) :=
  match inline with
  | [] => Ok []
  | att :: rest =>
      let? _ := rmap_err (fun e => InvalidInput (smtp_error_text e)) (validate_content_id (ia_content_id att)) in
      let? bytes := ok_or (InvalidInput ("inline " +:+ ia_filename att +:+ ": bad base64: " +:+ base64_failure (ia_data_base64 att)))
                      (b64_decode (ia_data_base64 att)) in
      if max_attachment_bytes <? Z.of_nat (String.length bytes)
      then Err (InvalidInput ("inline image " +:+ ia_filename att +:+ " exceeds " +:+ show_Z max_attachment_bytes +:+ " bytes")) else
      let? out := parse_inline_attachments rest in
      Ok (from_bytes_inline (ia_filename att) (ia_content_type att) bytes (ia_content_id att) :: out)
  end.
Definition draft_message (email_address : string) (body : SaveDraftRequest) (files : list OutboundAttachment) (id : string) : OutboundMessage :=
  mkOutbound email_address None (parse_address_list (sd_to body)) (parse_address_list (default [] (sd_cc body)))
    (parse_address_list (default [] (sd_bcc body))) (sd_subject body) (sd_body_text body) (sd_body_html body) (sd_in_reply_to body)
    (sd_references body) None None files (Some ("<lyra-draft-" +:+ id +:+ "@lyra>")).
Definition draft_outbound_message (email_address : string) (body : SaveDraftRequest) : io D SyncError OutboundMessage :=
  if bool_decide (parse_address_list (sd_to body) = []) && is_empty (trim (sd_subject body))
  then throw (InvalidInput "draft needs recipients or a subject") else
  let! files := lift (parse_inline_attachments (sd_inline_attachments body)) in
  let! id := on_mail new_uuid_text in
  ret (draft_message email_address body files id).

(** ** Rows *)

(** Newest first: the rows stand in the order they were made. *)
Definition message_id_by_header (account_id header : string) : io D SyncError (option string) :=
  stmt (fun d => (option_map m_id (last (List.filter (fun m => String.eqb (m_account m) account_id
                    && bool_decide (m_message_id m = Some header) && negb (m_deleted m)) (ml_messages (dk_mail d)))), d)).
Definition redrafted (outbound : OutboundMessage) (stamp : string) (m : MessageRow) : MessageRow :=
  mkMessage (m_id m) (m_account m) (m_folder m) (m_external m) (m_message_id m) (Some (om_subject outbound)) (m_from m)
    (m_to m) (m_cc m) (m_date m) (m_read m) (m_starred m) (m_deleted m) (m_flags m) (m_labels m) (m_size m)
    (m_in_reply_to m) (m_references m) (m_mailer m) (m_snippet m) (m_has_attachments m) (Some (default "" (om_body_text outbound)))
    (om_body_html outbound) (m_jmap_thread m) (m_snoozed_until m) (m_raw_blob m) stamp.
Definition recipient_json (a : address) : Json :=
  match fst a with
  | Some name => JObject [("email", JString (snd a)); ("name", JString name)]
  | None => JObject [("email", JString (snd a))]
  end.
Definition draft_row (id account_id folder_id server_id stamp : string) (outbound : OutboundMessage) : MessageRow :=
  mkMessage id account_id folder_id (Some server_id) (Some (default "" (om_message_id outbound))) (Some (om_subject outbound))
    (Some (json_text (JObject [("email", JString (om_from_email outbound))]))) (Some (json_text (JArray (map recipient_json (om_to outbound)))))
    None None false false false None None None None None None (Some (take_chars 120 (default "" (om_body_text outbound)))) false
    (Some (default "" (om_body_text outbound))) None None None None stamp.
(** The unique key over account and server id also counts deleted rows. *)
Definition insert_draft (id account_id folder_id server_id : string) (outbound : OutboundMessage) : io D SyncError unit :=
  let! done := stmt (fun d =>
    if existsb (fun m => String.eqb (m_account m) account_id && bool_decide (m_external m = Some server_id)) (ml_messages (dk_mail d))
    then (false, d)
    else (true, set_drafts ({[id]} ∪ dk_drafts d)
                  (set_mail (set_messages (ml_messages (dk_mail d) ++ [draft_row id account_id folder_id server_id (now d) outbound])%list (dk_mail d)) d))) in
  ensure done (Database "UNIQUE constraint failed: message.account_id, message.external_id").
Definition upsert_jmap_draft_row (account_id folder_id server_id : string) (outbound : OutboundMessage) : io D SyncError string :=
  let! existing := message_id_by_server_id account_id server_id in
  match existing with
  | Some id => let! _ := edit_message id (redrafted outbound) in ret id
  | None =>
      let! id := on_mail new_uuid_text in
      let! _ := insert_draft id account_id folder_id server_id outbound in
      let! _ := counts folder_id in
      ret id
  end.
Fixpoint extracted_of (l : list OutboundAttachment) : result SyncError (list ExtractedAttachment) :=
  match l with
  | [] => Ok []
  | att :: rest =>
      let? data := rmap_err (fun e => InvalidInput ("attachment " +:+ oa_filename att +:+ ": " +:+ smtp_error_text e)) (decode att) in
      let? out := extracted_of rest in
      Ok (mkExtracted (oa_filename att) (oa_content_type att) data (oa_content_id att) (bool_decide (is_Some (oa_content_id att))) :: out)
  end.
(** The tables and the disk the attachments of a pass are written to. *)
Definition on_store {A} (m : io (jmap_world T) SyncError A) : M A := fun w =>
  let d := cw_desk w in
  let '(r, j) := m (mkJl (dk_mail d) [] (cw_attachments w) (cw_disk w) (dk_seams d) (net d)) in
  (r, mkCompose (set_net (jl_net j) (set_seams (jl_cache j) (set_mail (jl_mail j) d))) (cw_keys w) (cw_seq w) (jl_attachments j) (jl_disk j)).
Definition persist_draft_attachments (account_id message_id : string) (outbound : OutboundMessage) : M unit :=
  match om_attachments outbound with
  | [] => ret tt
  | l => let! extracted := lift (extracted_of l) in on_store (persist_attachments data_dir account_id message_id extracted)
  end.

(** ** Saving *)

Definition jmap_replace_draft (seam : JmapSeam T) (account_id : string) (outbound : OutboundMessage) (old : option LoadedRow) : io D SyncError string :=
  let! server_id := jmap_call account_id (create_draft seam outbound) in
  let! _ := match old ≫= (fun o => m_external (lr_msg o)) with
            | Some ext => let! _ := attempt (F := SyncError) (Desk.on_net (destroy_email seam ext)) in ret tt
            | None => ret tt
            end in
  ret server_id.
Definition replace_on_imap (mailbox raw : string) (old : option LoadedRow) : io (ImapClient T) ImapError unit :=
  let! _ := append_draft mailbox raw in
  match old with
  | Some o =>
      match parse_imap_uid (m_external (lr_msg o)) with
      | Ok uid => let! _ := Imap.select (lr_folder_name o) in delete_uid uid
      | Err _ => ret tt
      end
  | None => ret tt
  end.
Definition drop_old (old : option LoadedRow) : io D SyncError unit :=
  match old with
  | Some o => let! _ := soft_delete_message_row (m_id (lr_msg o)) in counts (m_folder (lr_msg o))
  | None => ret tt
  end.
Definition old_draft (user_id : string) (existing : option string) : io D SyncError (option LoadedRow) :=
  match existing with
  | Some id =>
      let! row := load_message_row user_id id in
      if is_role "drafts" (lr_folder_role row) then ret (Some row) else throw (InvalidInput "message is not a draft")
  | None => ret None
  end.
Definition saved (id : option string) : Json := JObject [("status", JString "saved"); ("draftMessageId", json_opt id)].
Definition save_imap_draft (user_id : string) (body : SaveDraftRequest) (dest : RoleFolder) (outbound : OutboundMessage) (old : option LoadedRow)
    : io D SyncError Json :=
  let! m := lift (rmap_err (fun e => InvalidInput ("draft build: " +:+ smtp_error_text e)) (build_message outbound)) in
  let! _ := with_imap configs user_id (sd_account_id body) (replace_on_imap (dest_name dest) (formatted m) old) in
  let! _ := drop_old old in
  let! _ := attempt (F := SyncError) (imap_sync_account user_id (sd_account_id body)) in
  let! new_id := message_id_by_header (sd_account_id body) (default "" (om_message_id outbound)) in
  ret (saved new_id).
Definition replace_on_jmap (user_id : string) (body : SaveDraftRequest) (dest : RoleFolder) (outbound : OutboundMessage) (old : option LoadedRow)
    : io D SyncError string :=
  let! seam := connect_jmap_for_account user_id (sd_account_id body) in
  let! server_id := jmap_replace_draft seam (sd_account_id body) outbound old in
  let! _ := drop_old old in
  upsert_jmap_draft_row (sd_account_id body) (rf_id dest) server_id outbound.
Definition save_jmap_draft (user_id : string) (body : SaveDraftRequest) (dest : RoleFolder) (outbound : OutboundMessage) (old : option LoadedRow) : M Json :=
  let! local_id := on_desk (replace_on_jmap user_id body dest outbound old) in
  let! _ := persist_draft_attachments (sd_account_id body) local_id outbound in
  ret (saved (Some local_id)).
Definition save_draft (user_id : string) (body : SaveDraftRequest) : M Json :=
  let! account := on_desk (draft_account_probe user_id (sd_account_id body)) in
  let '(email_address, protocol) := account in
  let! dest := on_desk (drafts_folder (sd_account_id body)) in
  let! old := on_desk (old_draft user_id (sd_existing_draft_id body)) in
  let! outbound := on_desk (draft_outbound_message email_address body) in
  if String.eqb protocol "imap" then on_desk (save_imap_draft user_id body dest outbound old)
  else if String.eqb protocol "jmap" then save_jmap_draft user_id body dest outbound old
  else throw (unsupported protocol).
End Drafts.

(** ** The old copy outlives a failed save *)

Section Careful.
Context {K R T : Type} `{HasRng R} `{CryptoLib} {O0 : OAuthNet T} {W0 : JmapWire T} {X0 : JmapWrites T} {I0 : ImapSession T} {S0 : JmapSender T}
  `{MimeLib} `{UrlLib} `{UrlJoin} `{JmapTime} `{StoreLib} `{JsonLib} `{JobLib} `{LettreLib} `{BlobLib}.
Context (configs : OAuthRefreshConfigs) (max_attachment_bytes : Z) (data_dir : string).
Local Abbreviation N := (T * list NetEvent)%type.
#[local] Instance draft_wire : JmapWire N := recording_wire.
#[local] Instance draft_writes : JmapWrites N := logged_writes W0 X0.
#[local] Instance draft_sender : JmapSender N := recording_sender.
#[local] Instance draft_oauth : OAuthNet N := logged_oauth O0.
#[local] Instance draft_imap : ImapSession N := logged_imap I0.
Local Abbreviation D := (desk K R N).
Local Abbreviation W := (compose_world K R N).

(** Nothing that is on a server is touched: mails may be added. *)
Definition gentle (e : NetEvent) : Prop := e <> Altered.
Local Abbreviation kind := (only (T := T) gentle).
Local Abbreviation any := (only (T := T) (fun _ => True)).
Local Abbreviation calm := (calm (K := K) (R := R) (only (T := T) gentle)).
Lemma kind_signs_in : signs_in kind.
Proof using Type. by apply recorded_signs_in. Qed.
Lemma kind_any x y : kind x y -> any x y.
Proof using Type. intros (l & Hl & _). exists l. split; [done|]. by apply Forall_true. Qed.

(** *** The server takes the draft *)

(** The event by which it did: the very file appended to a mailbox, the draft created, or the very file imported after its upload. *)
Definition took (m : OutboundMessage) (before : list NetEvent) (e : NetEvent) : Prop :=
  (exists msg mailbox, build_message m = Ok msg /\ e = Appended mailbox (formatted msg) true) \/
  (exists mailbox id, om_attachments m = [] /\ e = Created (fill_outbound_email m [mailbox] []) (Ok id)) \/
  (exists msg blob mailbox id, build_message m = Ok msg /\ Uploaded (formatted msg) "message/rfc822" (Ok blob) ∈ before /\
     e = Imported blob mailbox ["$draft"] (Ok id)).
(** From [x] to [y] a server took the draft, and none was told to touch a mail before that. *)
Definition taken (m : OutboundMessage) (x y : N) : Prop :=
  exists before e after, told (before ++ e :: after) x y /\ Forall gentle before /\ took m before e.
Lemma taken_after m x y z : kind x y -> taken m y z -> taken m x z.
Proof using Type.
  intros (l & Hl & Hg) (before & e & after & Ht & Hb & He). exists (l ++ before)%list, e, after. split; [|split].
  - rewrite <-app_assoc. by eapply told_then.
  - by apply Forall_app.
  - destruct He as [He|[He|(msg & blob & box & id & Hm & Hup & He)]]; [by left|by right; left|]. right. right. exists msg, blob, box, id.
    split; [done|]. split; [|done]. apply elem_of_app. by right.
Qed.
Lemma taken_before m x y z : taken m x y -> any y z -> taken m x z.
Proof using Type.
  intros (before & e & after & Ht & Hb & He) (l & Hl & _). exists before, e, (after ++ l)%list. split; [|done].
  pose proof (told_then _ _ _ _ _ Ht Hl) as Hall. by rewrite <-app_assoc in Hall.
Qed.
Lemma taken_now m x y before e : told (before ++ [e]) x y -> Forall gentle before -> took m before e -> taken m x y.
Proof using Type. intros Ht Hb He. by exists before, e, []. Qed.

(** What may follow: whatever it tells, the record grows. *)
Definition grown (d d' : D) : Prop := any (net d) (net d').
#[local] Instance grown_pre : PreOrder grown.
Proof. split; [intros d; unfold grown; reflexivity|]. intros x y z A B. unfold grown in *. by etrans. Qed.
Lemma grown_stmt {A} (f : D -> A * D) : (forall d, net (snd (f d)) = net d) -> preserves grown (stmt f).
Proof using Type.
  intros Hf d r d'. unfold stmt, grown. destruct (mstmt _ _) as [[[]|e] db]; [|intros [= _ <-]; reflexivity].
  specialize (Hf (set_mail db d)). destruct (f _) as [x d1]. intros [= _ <-]. cbn in Hf. rewrite Hf. reflexivity.
Qed.
Lemma grown_mail {E A} (m : io mail E A) : preserves grown (on_mail (K := K) (R := R) (T := N) m).
Proof using Type. intros d r d'. unfold on_mail. destruct (m _) as [x db]. intros [= _ <-]. unfold grown. reflexivity. Qed.
Lemma grown_net {E A} (m : io N E A) : preserves any m -> preserves grown (Desk.on_net (K := K) (R := R) m).
Proof using Type. intros Hm d r d'. unfold Desk.on_net. destruct (m _) as [x n] eqn:Hr. intros [= _ <-]. by apply Hm in Hr. Qed.
Lemma grown_ow {E A} (m : io (oauth_world K R N) E A) : preserves (fun o o' => any (ow_net o) (ow_net o')) m -> preserves grown (on_ow m).
Proof using Type. intros Hm d r d'. unfold on_ow. destruct (m _) as [x o] eqn:Hr. intros [= _ <-]. by apply Hm in Hr. Qed.
Lemma grown_auth {E A} (m : io (world K R) E A) : preserves grown (on_ow (on_auth (T := N) m)).
Proof using Type. apply grown_ow. intros o r o'. unfold on_auth. destruct (m _) as [x a]. intros [= _ <-]. reflexivity. Qed.
Hint Resolve grown_mail grown_auth : preserve.
Hint Extern 1 (preserves grown (stmt _)) => (apply grown_stmt; done) : preserve.
Lemma grown_drop old : preserves grown (drop_old (K := K) (R := R) (T := N) old).
Proof using Type. unfold drop_old, soft_delete_message_row, edit_message, counts. preserve. Qed.
Lemma grown_fail {A} a : preserves grown (fail_decrypt (K := K) (R := R) (T := N) (A := A) a).
Proof using Type. unfold fail_decrypt, deactivate_row. preserve. Qed.
Hint Resolve grown_drop grown_fail : preserve.
Lemma grown_sync u a : preserves grown (imap_sync_account (K := K) (R := R) configs u a).
Proof using Type*.
  unfold imap_sync_account. preserve.
  - apply grown_ow. eapply resolve_keeps, recorded_signs_in; [apply _|done].
  - intros d r d'. unfold on_pass. destruct (run_imap_sync _ _ _ _ _) as [x [db n]] eqn:Hr. intros [= _ <-].
    apply (pass_keeps (only (fun _ => True)) recorded_session) in Hr. exact Hr.
Qed.
Lemma grown_header a h : preserves grown (message_id_by_header (K := K) (R := R) (T := N) a h).
Proof using Type. unfold message_id_by_header. preserve. Qed.
Lemma grown_row a f i m : preserves grown (upsert_jmap_draft_row (K := K) (R := R) (T := N) a f i m).
Proof using Type. unfold upsert_jmap_draft_row, message_id_by_server_id, edit_message, counts, insert_draft. preserve. apply grown_stmt. intros d. by destruct (existsb _ _). Qed.
Hint Resolve grown_sync grown_header grown_row : preserve.

Definition drafted (row : MailAccountRow) (body : SaveDraftRequest) (m : OutboundMessage) : Prop :=
  exists files id, parse_inline_attachments max_attachment_bytes (sd_inline_attachments body) = Ok files /\ m = draft_message (ma_email_address row) body files id.
Definition refused {A} (r : result SyncError A) (d d' : D) : Prop := (exists e, r = Err e) /\ calm d d'.
Definition careful {A} (m : OutboundMessage) (k : io D SyncError A) : Prop := forall d r d', k d = (r, d') -> taken m (net d) (net d') \/ refused r d d'.
(** Answered only when a server took the draft. *)
Definition taking {A} (m : OutboundMessage) (k : io D SyncError A) : Prop := forall d a d', k d = (Ok a, d') -> taken m (net d) (net d').
Lemma calm_kind (d d' : D) : calm d d' -> kind (net d) (net d').
Proof using Type. by intros (_ & _ & _ & Hk). Qed.
Lemma careful_bind {A B} m (k : io D SyncError A) (f : A -> io D SyncError B) : preserves calm k -> (forall a, careful m (f a)) -> careful m (bind k f).
Proof using Type.
  intros Hk Hf d r d' [(e & He & ->)|(a & d1 & Ha & Hr)]%bind_inv; [right; split; [by exists e|by eapply Hk]|]. apply Hk in Ha.
  destruct (Hf _ _ _ _ Hr) as [Hq|[He Hc]]; [left; by eapply taken_after, Hq; apply calm_kind|]. right. split; [done|]. by etrans.
Qed.
Lemma taking_bind {A B} m (k : io D SyncError A) (f : A -> io D SyncError B) : preserves calm k -> (forall a, taking m (f a)) -> taking m (bind k f).
Proof using Type. intros Hk Hf d b d' (a & d1 & Ha & Hr)%bind_Ok. apply Hk in Ha. apply Hf in Hr. eapply taken_after, Hr. by apply calm_kind. Qed.
Lemma careful_first {A B} m (k : io D SyncError A) (f : A -> io D SyncError B) : careful m k -> taking m k -> (forall a, preserves grown (f a)) ->
  careful m (bind k f) /\ taking m (bind k f).
Proof using Type.
  intros Hk Ht Hf. split.
  - intros d r d' [(e & He & ->)|(a & d1 & Ha & Hr)]%bind_inv.
    + destruct (Hk _ _ _ He) as [?|[_ Hc]]; [by left|]. right. split; [by exists e|done].
    + left. apply Ht in Ha. apply Hf in Hr. by eapply taken_before.
  - intros d b d' (a & d1 & Ha & Hr)%bind_Ok. apply Ht in Ha. apply Hf in Hr. by eapply taken_before.
Qed.

(** *** Over IMAP *)

Lemma replaced mailbox msg m old (c : ImapClient N) x c' : build_message m = Ok msg -> replace_on_imap mailbox (formatted msg) old c = (x, c') ->
  taken m (cl_session c) (cl_session c') \/ ((exists e, x = Err e) /\ kind (cl_session c) (cl_session c')).
Proof using Type.
  intros Hb Hx. unfold replace_on_imap in Hx.
  assert (Happ : forall y c1, append_draft mailbox (formatted msg) c = (y, c1) -> told [Appended mailbox (formatted msg) (is_ok y)] (cl_session c) (cl_session c1)).
  { intros y c1. unfold append_draft, on_session. destruct (sess_append _ _ _ _) as [z n] eqn:Hs. intros [= -> <-]. by apply recorded_told in Hs. }
  apply bind_inv in Hx as [(e & He & ->)|([] & c1 & Ha & Hrest)].
  - right. split; [by exists e|]. eexists. split; [by apply Happ|]. by constructor.
  - left. apply (taken_before _ _ (cl_session c1)).
    + apply (taken_now _ _ _ [] (Appended mailbox (formatted msg) true)); [exact (Happ _ _ Ha)|done|]. left. by exists msg, mailbox.
    + revert Hrest. set (later := match old with Some _ => _ | None => _ end).
      assert (Hlater : preserves (fun c c' : ImapClient N => any (cl_session c) (cl_session c')) later).
      { unfold later. destruct old as [o|]; [|intros ? ? ? [= _ <-]; reflexivity]. destruct (parse_imap_uid _); [|intros ? ? ? [= _ <-]; reflexivity].
        apply pres_bind; [split; [intros ?; reflexivity|intros ? ? ? ? ?; by etrans]|eapply select_keeps; [apply _|apply recorded_session]|].
        intros ?. eapply delete_uid_keeps; [apply _|apply recorded_session]. }
      intros Hr. by apply Hlater in Hr.
Qed.
Lemma append_careful u a mailbox msg m old : build_message m = Ok msg ->
  careful m (with_imap configs u a (replace_on_imap mailbox (formatted msg) old)) /\ taking m (with_imap configs u a (replace_on_imap mailbox (formatted msg) old)).
Proof using Type*.
  intros Hb.
  assert (Hgo : forall d r d', with_imap configs u a (replace_on_imap mailbox (formatted msg) old) d = (r, d') -> taken m (net d) (net d') \/ refused r d d').
  { intros d r d'. unfold with_imap. intros [(e & He & ->)|(c & d1 & Hc & Hd)]%bind_inv.
    { right. split; [by exists e|]. eapply imap_calm, He; [apply _|apply kind_signs_in]. }
    assert (Hcalm : calm d d1) by (eapply imap_calm, Hc; [apply _|apply kind_signs_in]). apply opened_session in Hc.
    destruct (replace_on_imap _ _ _ c) as [y c'] eqn:Hr. injection Hd as <- <-. destruct (replaced _ _ _ _ _ _ _ Hb Hr) as [Ht|[(e & ->) Hk]].
    - left. eapply taken_after; [by apply calm_kind|]. by rewrite <-Hc.
    - right. split; [by eexists|]. etrans; [exact Hcalm|]. rewrite Hc in Hk. done. }
  split; [exact Hgo|]. intros d x d' Hd. destruct (Hgo _ _ _ Hd) as [?|[(e & ?) _]]; done.
Qed.
Lemma imap_careful u body dest m old : careful m (save_imap_draft configs u body dest m old).
Proof using Type*.
  intros d r d'. unfold save_imap_draft. intros [(e & [= _ <-] & ->)|(msg & d1 & [= Hb <-] & Hr)]%bind_inv.
  { right. split; [by exists e|done]. }
  destruct (build_message m) as [msg'|] eqn:Hm; [|done]. injection Hb as ->. revert Hr. apply careful_first; [apply append_careful, Hm..|].
  intros ?. preserve.
Qed.

(** *** Over JMAP *)

Lemma created seam m (n : N) x n' : create_draft seam m n = (x, n') ->
  (is_ok x = true /\ taken m n n') \/ ((exists e, x = Err e) /\ kind n n').
Proof using Type.
  assert (Hlook : forall z k, list_mailboxes seam n = (z, k) -> kind n k).
  { intros z k. apply (pres_bind kind); [|intros ?; preserve]. apply pres_map_err. by apply recorded_only. }
  unfold create_draft. intros [(e & He & ->)|(boxes & n1 & Hb%Hlook & Hs)]%bind_inv; [right; split; [by exists e|by eapply Hlook]|].
  apply bind_inv in Hs as [(e & [= _ <-] & ->)|(drafts & n2 & [= _ <-] & Hs)]; [right; split; [by exists e|done]|].
  assert (Hkind : forall e, gentle e -> forall k, told [e] n1 k -> kind n k).
  { intros e He k Hk. etrans; [exact Hb|]. exists [e]. split; [done|by constructor]. }
  destruct (om_attachments m) as [|att l] eqn:Hatt.
  - apply client_told in Hs as ([id|e] & -> & Ht); [left; split; [done|]|right; split; [by eexists|by eapply Hkind, Ht]].
    eapply taken_after; [exact Hb|]. eapply (taken_now _ _ _ []); [exact Ht|done|]. right. left. by eexists _, _.
  - apply bind_inv in Hs as [(e & [= _ <-] & ->)|(mime & n2 & [= Hmime <-] & Hs)]; [right; split; [by exists e|done]|].
    assert (Hfile : exists msg, build_message m = Ok msg /\ mime = formatted msg).
    { unfold mime_file in Hmime. destruct (build_message m) as [msg|]; [|done]. cbn [rmap_err rbind] in Hmime.
      destruct (utf8_valid (formatted msg)); [|done]. injection Hmime as <-. by exists msg. }
    destruct Hfile as (msg & Hbuild & ->).
    apply bind_inv in Hs as [(e & He & ->)|(blob & n2 & Hu & Hs)].
    { apply client_told in He as (z & _ & Ht). right. split; [by exists e|by eapply Hkind, Ht]. }
    apply client_told in Hu as ([y|e] & Hy & Hu); [|done]. injection Hy as <-.
    apply client_told in Hs as ([id|e] & -> & Ht); [left; split; [done|]|right; split; [by eexists|]].
    + eapply taken_after; [exact Hb|]. eapply (taken_now _ _ _ [_]); [exact (told_then _ _ _ _ _ Hu Ht)|by constructor|].
      right. right. exists msg, blob, drafts, id. split; [done|]. split; [by left|done].
    + etrans; [by eapply Hkind, Hu|]. eexists. split; [exact Ht|]. by constructor.
Qed.
Lemma jmap_careful u body dest m old :
  careful m (replace_on_jmap (K := K) (R := R) u body dest m old) /\ taking m (replace_on_jmap (K := K) (R := R) u body dest m old).
Proof using Type*.
  assert (Hcall : forall seam, careful m (jmap_call (K := K) (R := R) (sd_account_id body) (create_draft seam m)) /\
      taking m (jmap_call (K := K) (R := R) (sd_account_id body) (create_draft seam m))).
  { intros seam. assert (Hgo : forall d x d', jmap_call (K := K) (R := R) (sd_account_id body) (create_draft seam m) d = (x, d') ->
        (is_ok x = true /\ taken m (net d) (net d')) \/ refused x d d').
    { intros d x d'. unfold jmap_call, attempt, bind, Desk.on_net. destruct (create_draft seam m (net d)) as [y n] eqn:Hc.
      apply created in Hc as [[Hok Ht]|[(e & ->) Hk]].
      - destruct y as [id|]; [|done]. intros [= <- <-]. by left.
      - intros Hr. right. destruct (is_auth e); cbn in Hr; injection Hr as <- <-; (split; [by eexists|done]). }
    split; [intros d x d' Hd; destruct (Hgo _ _ _ Hd) as [[_ ?]|?]; [by left|by right]|].
    intros d x d' Hd. destruct (Hgo _ _ _ Hd) as [[_ ?]|[(e & ?) _]]; done. }
  assert (Hrep : forall seam, careful m (jmap_replace_draft (K := K) (R := R) seam (sd_account_id body) m old) /\
      taking m (jmap_replace_draft (K := K) (R := R) seam (sd_account_id body) m old)).
  { intros seam. unfold jmap_replace_draft. apply careful_first; [apply Hcall..|]. intros id.
    destruct (old ≫= _) as [ext|]; [|preserve]. apply pres_bind; [apply _| |intros ?; preserve].
    apply pres_bind; [apply _| |intros ?; preserve]. apply pres_attempt, grown_net. unfold destroy_email, client. apply pres_map_err. by apply recorded_only. }
  assert (Hall : forall seam, careful m (let! server_id := jmap_replace_draft seam (sd_account_id body) m old in
      let! _ := drop_old old in upsert_jmap_draft_row (K := K) (R := R) (sd_account_id body) (rf_id dest) server_id m) /\
    taking m (let! server_id := jmap_replace_draft seam (sd_account_id body) m old in
      let! _ := drop_old old in upsert_jmap_draft_row (K := K) (R := R) (sd_account_id body) (rf_id dest) server_id m)).
  { intros seam. apply careful_first; [apply Hrep..|]. intros ?. preserve. }
  assert (Hseam : preserves calm (connect_jmap_for_account (K := K) (R := R) u (sd_account_id body))) by (eapply seam_calm; [apply _|apply kind_signs_in]).
  unfold replace_on_jmap. split; [apply careful_bind|apply taking_bind]; try exact Hseam; intros seam; apply Hall.
Qed.

Hint Extern 1 (preserves calm _) => first [apply calm_read, _|apply calm_uuid, _|apply calm_auth, _|apply active_calm, _] : preserve.
Definition calm_office (w w' : W) : Prop := calm (cw_desk w) (cw_desk w') /\ cw_attachments w' = cw_attachments w.
Lemma desk_calm {A} (m : io D SyncError A) w r w' : preserves calm m -> on_desk m w = (r, w') -> calm_office w w'.
Proof using Type*. intros Hm. unfold on_desk. destruct (m (cw_desk w)) as [x d] eqn:Hr. intros [= _ <-]. apply Hm in Hr. done. Qed.
Lemma calm_steps w w1 w2 : calm_office w w1 -> calm_office w1 w2 -> calm_office w w2.
Proof using Type*. intros [C A] [C' A']. split; [by etrans|congruence]. Qed.

Lemma probed user account (w : W) email protocol w1 : on_desk (draft_account_probe user account) w = (Ok (email, protocol), w1) ->
  exists row, row ∈ accounts (cw_desk w) /\ ma_id row = account /\ ma_user_id row = user /\ email = ma_email_address row.
Proof using Type.
  unfold on_desk. destruct (draft_account_probe _ _ _) as [x d] eqn:Hp. intros [= -> _]. unfold draft_account_probe in Hp.
  apply bind_Ok in Hp as (row & d1 & Ha & [= <- _ _]). unfold active_account, stmt, mstmt in Ha. exists row.
  apply bind_Ok in Ha as (found & d2 & Hf & Hl). injection Hl as Hl _. destruct found as [row'|]; [|done]. injection Hl as ->.
  assert (Hfind : List.find (fun r => owned_account user account r && ma_is_active r) (accounts (cw_desk w)) = Some row)
    by (destruct (ml_fuse _) as [[|n]|]; [done|by injection Hf..]).
  apply find_some in Hfind as [Hin [[Hid Hu]%andb_true_iff _]%andb_true_iff]. apply String.eqb_eq in Hid, Hu. apply list_elem_of_In in Hin. done.
Qed.
Lemma composed_draft row body (w : W) m w1 : on_desk (draft_outbound_message max_attachment_bytes (ma_email_address row) body) w = (Ok m, w1) -> drafted row body m.
Proof using Type.
  unfold on_desk. destruct (draft_outbound_message _ _ _ _) as [x d] eqn:Hp. intros [= -> _]. unfold draft_outbound_message in Hp.
  destruct (_ && _); [done|]. apply bind_Ok in Hp as (files & d1 & Hf & Hp). injection Hf as Hf _. apply bind_Ok in Hp as (id & d2 & _ & [= <- _]). by exists files, id.
Qed.
(** The pictures of a JMAP draft are written to the disk and the tables. *)
Local Abbreviation same_net := (fun j j' : jmap_world N => jl_net j' = jl_net j).
#[local] Instance same_net_pre : PreOrder same_net.
Proof. split; [by intros j|]. intros x y z A B. congruence. Qed.
Lemma pictures_stay_local account id m w r w' : persist_draft_attachments (K := K) (R := R) (T := N) data_dir account id m w = (r, w') -> net_of w' = net_of w.
Proof using Type.
  assert (Hmail : forall A E (k : io mail E A), preserves same_net (JmapLoop.on_mail (T := N) k)).
  { intros A E k j x j'. unfold JmapLoop.on_mail. destruct (k _) as [y db]. by intros [= _ <-]. }
  assert (Hdisk : forall A E (k : io disk E A), preserves same_net (JmapLoop.on_disk (T := N) k)).
  { intros A E k j x j'. unfold JmapLoop.on_disk. destruct (k _) as [y d]. by intros [= _ <-]. }
  assert (Htab : forall f, preserves same_net (on_tables (T := N) f)).
  { intros f. unfold on_tables. apply pres_bind; [apply _|apply Hmail|]. intros _ j x j' [= _ <-]. by destruct (f _). }
  assert (Hins : forall l, preserves same_net (insert_attachments (T := N) data_dir account id l)).
  { induction l as [|a l IH]; cbn [insert_attachments]; preserve; first [apply Hmail|apply Htab|apply Hdisk|exact IH]. }
  unfold persist_draft_attachments. destruct (om_attachments m) as [|a l]; [by intros [= _ <-]|].
  intros [(e & [= _ <-] & _)|(ex & w1 & [= _ <-] & Hs)]%bind_inv; [done|]. unfold on_store in Hs.
  destruct (persist_attachments _ _ _ _ _) as [x j] eqn:Hp. injection Hs as _ <-.
  assert (Hall : preserves same_net (persist_attachments (T := N) data_dir account id ex)).
  { unfold persist_attachments. destruct ex; preserve; first [apply Hmail|apply Htab|apply Hins]. }
  apply Hall in Hp. exact Hp.
Qed.
(** The two arms of the save. *)
Lemma arms_careful user body protocol dest m old (w : W) r w' :
  (if String.eqb protocol "imap" then on_desk (save_imap_draft configs user body dest m old)
   else if String.eqb protocol "jmap" then save_jmap_draft data_dir user body dest m old else throw (unsupported protocol)) w = (r, w') ->
  taken m (net_of w) (net_of w') \/ ((exists e, r = Err e) /\ calm_office w w').
Proof using Type*.
  intros Hs. destruct (String.eqb protocol "imap").
  - unfold on_desk in Hs. destruct (save_imap_draft _ _ _ _ _ _ _) as [x d] eqn:Hi. injection Hs as <- <-.
    destruct (imap_careful _ _ _ _ _ _ _ _ Hi) as [?|[He Hc]]; [by left|by right].
  - destruct (String.eqb protocol "jmap"); [|right; injection Hs as <- <-; split; [by eexists|split; [reflexivity|done]]].
    unfold save_jmap_draft in Hs. destruct (jmap_careful user body dest m old) as [Hcare Hok].
    apply bind_inv in Hs as [(e & He & ->)|(id & w5 & Ha & Hrest)].
    + unfold on_desk in He. destruct (replace_on_jmap _ _ _ _ _ _) as [x d] eqn:Hi. injection He as -> <-.
      destruct (Hcare _ _ _ Hi) as [?|[He Hc]]; [by left|right; split; [by exists e|done]].
    + left. assert (Hn : net_of w' = net_of w5).
      { apply bind_inv in Hrest as [(e & Hp & _)|([] & w6 & Hp & [= _ <-])]; by eapply pictures_stay_local. }
      rewrite Hn. unfold on_desk in Ha. destruct (replace_on_jmap _ _ _ _ _ _) as [x d] eqn:Hi. injection Ha as -> <-. by eapply Hok in Hi.
Qed.

(** C40: A draft is not lost by saving it anew.  In every run of a save, whatever fails, one of
    two things holds.  In this run a server took the new message, the draft just composed under
    the address of the user's own account: it accepted the append of the very file, or it
    created the draft, or imported the very file after its upload; and before that no server
    was told to flag, move or remove a mail.  Or the save fails, every row, folder and
    attachment stays as it was, and in the whole run no server was told to flag, move or remove
    a mail, so the old copy stays.  (The network keeps a record of what it is told.) *)
Theorem failed_save_keeps_the_draft user body (w : W) r (w' : W) :
  save_draft configs max_attachment_bytes data_dir user body w = (r, w') ->
  (exists row m, row ∈ accounts (cw_desk w) /\ ma_id row = sd_account_id body /\ ma_user_id row = user /\ drafted row body m /\
     taken m (net_of w) (net_of w')) \/
  ((exists e, r = Err e) /\ ml_messages (dk_mail (cw_desk w')) = ml_messages (dk_mail (cw_desk w)) /\
   ml_folders (dk_mail (cw_desk w')) = ml_folders (dk_mail (cw_desk w)) /\ dk_drafts (cw_desk w') = dk_drafts (cw_desk w) /\
   cw_attachments w' = cw_attachments w /\ exists said, told said (net_of w) (net_of w') /\ Forall gentle said).
Proof using Type*.
  intros Hs. unfold save_draft in Hs.
  assert (Hend : forall Q : Prop, Q \/ ((exists e, r = Err e) /\ calm_office w w') -> Q \/ ((exists e, r = Err e) /\
    ml_messages (dk_mail (cw_desk w')) = ml_messages (dk_mail (cw_desk w)) /\ ml_folders (dk_mail (cw_desk w')) = ml_folders (dk_mail (cw_desk w)) /\
    dk_drafts (cw_desk w') = dk_drafts (cw_desk w) /\ cw_attachments w' = cw_attachments w /\ exists said, told said (net_of w) (net_of w') /\ Forall gentle said)).
  { intros Q [?|[He [(Hm & Hf & Hd & Hk) Ha]]]; [by left|right]. done. }
  apply Hend. clear Hend.
  assert (Hstop : forall w1, calm_office w w1 -> (exists e, r = Err e) /\ calm_office w1 w' -> (exists e, r = Err e) /\ calm_office w w').
  { intros w1 Hc [He Hc']. split; [done|by eapply calm_steps]. }
  apply bind_inv in Hs as [(e & He & ->)|([email protocol] & w1 & Hprobe & Hs)].
  { right. split; [by exists e|]. eapply desk_calm; [|done]. unfold draft_account_probe. preserve. }
  destruct (probed _ _ _ _ _ _ Hprobe) as (row & Hin & Hid & Huser & ->).
  assert (C1 : calm_office w w1) by (eapply desk_calm; [|done]; unfold draft_account_probe; preserve).
  apply bind_inv in Hs as [(e & He & ->)|(dest & w2 & Hdest & Hs)].
  { right. apply (Hstop w1 C1). split; [by exists e|]. eapply desk_calm; [|done]. unfold drafts_folder, role_folder. preserve. }
  assert (C2 : calm_office w w2) by (eapply calm_steps; [done|]; eapply desk_calm; [|done]; unfold drafts_folder, role_folder; preserve).
  apply bind_inv in Hs as [(e & He & ->)|(old & w3 & Hold & Hs)].
  { right. apply (Hstop w2 C2). split; [by exists e|]. eapply desk_calm; [|done]. unfold old_draft, load_message_row. preserve. }
  assert (C3 : calm_office w w3) by (eapply calm_steps; [done|]; eapply desk_calm; [|done]; unfold old_draft, load_message_row; preserve).
  apply bind_inv in Hs as [(e & He & ->)|(m & w4 & Hout & Hs)].
  { right. apply (Hstop w3 C3). split; [by exists e|]. eapply desk_calm; [|done]. unfold draft_outbound_message. preserve. }
  assert (C4 : calm_office w w4) by (eapply calm_steps; [done|]; eapply desk_calm; [|done]; unfold draft_outbound_message; preserve).
  apply arms_careful in Hs as [Ht|Hs]; [left|right; by apply (Hstop w4)].
  exists row, m. do 3 (split; [done|]). split; [by eapply composed_draft|]. eapply taken_after; [|exact Ht]. exact (calm_kind _ _ (proj1 C4)).
Qed.
End Careful.

(** The row written for a new JMAP draft has the plain text only: reopened before the next sync it shows neither its HTML nor its
    other recipients, while saving it again writes the HTML. *)
Lemma new_jmap_draft_has_no_html `{JsonLib} id account folder server stamp m :
  m_body_html (draft_row id account folder server stamp m) = None /\ m_cc (draft_row id account folder server stamp m) = None /\
  forall row, m_body_html (redrafted m stamp row) = om_body_html m.
Proof. done. Qed.

(** ** A concrete draft *)

#[local] Instance draft_no_jmap : JmapSender toy_net := {|
  send_batch _ _ n := (Err (Transport "unreachable"), n);
  upload_blob _ _ _ n := (Err (Transport "unreachable"), n);
  import_email _ _ _ _ n := (Err (Transport "unreachable"), n);
  create_email _ _ n := (Err (Transport "unreachable"), n);
  client_error_text _ := "error" |}.
#[local] Instance draft_hash : BlobLib := fun s => s.
#[local] Instance saved_wire : JmapWire (toy_net * list NetEvent) := draft_wire.
#[local] Instance saved_writes : JmapWrites (toy_net * list NetEvent) := draft_writes.
#[local] Instance saved_sender : JmapSender (toy_net * list NetEvent) := draft_sender.
#[local] Instance saved_oauth : OAuthNet (toy_net * list NetEvent) := draft_oauth.
Definition draft_office : compose_world MemoryKv.t N (toy_net * list NetEvent) :=
  mkCompose
    (recording_desk (set_mail (mkMail (from_secs 1000000) (box_folders ++ [box_folder "f9" "a1" "Drafts" (Some "drafts")])%list
                 (box_messages ++ [box_message "d1" "a1" "f9" 3 "u1@x.org" "Lun"])%list [] 0%N None)
       (set_net (mkNet (<["Drafts" := mkBox 4 [(3, "Lun")]]> (tn_boxes box_net)) None [] []) (box_desk [] [] []))))
    [] 0%N [] (mkDisk ∅ None false).
Definition lunch_draft : SaveDraftRequest :=
  mkSaveDraft "a1" [JString "bob@y.org"] None None "Lunch" (Some "Noon?") None None None (Some "d1") [].
(** The mail server of the toy, and the same server when the mailbox is full. *)
Definition full_box : ImapSession toy_net := {|
  sess_connect := sess_connect; sess_list := sess_list; sess_select := sess_select; sess_uid_search := sess_uid_search;
  sess_uid_fetch := sess_uid_fetch; sess_uid_store := sess_uid_store; sess_uid_copy := sess_uid_copy; sess_uid_mv := sess_uid_mv;
  sess_uid_expunge := sess_uid_expunge; sess_expunge := sess_expunge;
  sess_append _ _ _ := fun n => (Err (ImapProtocol "over quota"), n);
  sess_logout := sess_logout |}.
Definition save_over (server : ImapSession (toy_net * list NetEvent)) (body : SaveDraftRequest) :=
  save_draft box_configs 1000 "/data" "u1" body draft_office.
Definition toy_save (server : ImapSession toy_net) (body : SaveDraftRequest) := save_over (draft_imap (I0 := server)) body.
Definition refused_save := toy_save full_box lunch_draft.
(** The append of the new draft reaches the server, which refuses it; the old one, on the server and in the table, is as it was. *)
Lemma failed_save_keeps_the_draft_witness :
  is_ok (fst refused_save) = false /\ (exists content, snd (net_of (snd refused_save)) = [Signing; Appended "Drafts" content false]) /\
  ((exists row m, row ∈ accounts (cw_desk draft_office) /\ ma_id row = "a1" /\ ma_user_id row = "u1" /\ drafted 1000 row lunch_draft m /\
     taken m (net_of draft_office) (net_of (snd refused_save))) \/
   ((exists e, fst refused_save = Err e) /\
    ml_messages (dk_mail (cw_desk (snd refused_save))) = ml_messages (dk_mail (cw_desk draft_office)) /\
    ml_folders (dk_mail (cw_desk (snd refused_save))) = ml_folders (dk_mail (cw_desk draft_office)) /\
    dk_drafts (cw_desk (snd refused_save)) = dk_drafts (cw_desk draft_office) /\
    cw_attachments (snd refused_save) = cw_attachments draft_office /\
    exists said, told said (net_of draft_office) (net_of (snd refused_save)) /\ Forall gentle said)).
Proof.
  split; [by vm_compute|]. split; [eexists; vm_compute; reflexivity|].
  exact (failed_save_keeps_the_draft (I0 := full_box) box_configs 1000 "/data" "u1" lunch_draft draft_office
    (fst refused_save) (snd refused_save) (surjective_pairing _)).
Defined.
(** A save that goes well: the new copy is in the mailbox, the old one is gone from it and from the table. *)
Example draft_replaced :
  let run := toy_save box_session lunch_draft in
  let w := cw_desk (snd run) in
  is_ok (fst run) = true /\ (option_map (fun b => map fst (bx_mail b)) (tn_boxes (fst (net w)) !! "Drafts")) = Some [4] /\
  map m_id (List.filter (fun m => m_deleted m) (ml_messages (dk_mail w))) = ["d1"].
Proof. vm_compute. done. Qed.
