(* ===== verification/Privacy.v ===== *)
(** * Remote images in mail ([privacy.rs])

    The rewriting of a mail's HTML when it is shown, and the settings that steer it.  The
    regular expressions are written out on the characters of the text: what they call a word
    character or a digit outside ASCII is the class [UnicodeLib]. *)
From S2P Require Import Prelude Kv Crypto UnlockRing World Toy Session Labels Jobs Netsec MailStore Imap ImapLoop Blobs Jmap JmapLoop Dav Media.
Local Open Scope string_scope.
Local Open Scope Z_scope.

Class UnicodeLib := { wide_word : string -> bool; wide_digit : string -> bool }.

(** ** Texts as characters *)

Definition continues (c : string) : bool := match c with String a _ => negb (char_start a) | EmptyString => false end.
Fixpoint chars (s : string) : list string :=
  match s with
  | EmptyString => []
  | String a s' =>
      match chars s' with
      | c :: rest => if continues c then String a c :: rest else String a "" :: c :: rest
      | [] => [String a ""]
      end
  end.
Abbreviation txt := (list string).
Definition text (l : txt) : string := join "" l.

Section Patterns.
Context `{UnicodeLib}.
Definition single (p : ascii -> bool) (c : string) : bool := match c with String a "" => p a | _ => false end.
Definition is_word (c : string) : bool := single (fun a => is_alnum a || Ascii.eqb a "_") c || wide_word c.
Definition is_space (c : string) : bool := String.eqb (trim_start c) "".
Definition is_num (c : string) : bool := single is_digit c || wide_digit c.
(** [(?i)]: simple case folding; the long s folds with s and the Kelvin sign with k. *)
Definition folds (a : ascii) (c : string) : bool :=
  single (fun b => Ascii.eqb (ascii_lower b) a) c
  || (Ascii.eqb a "s" && String.eqb c (bytes_of [197; 191]%N)) || (Ascii.eqb a "k" && String.eqb c (bytes_of [226; 132; 170]%N)).
Fixpoint literal (p : string) (l : txt) : option txt :=
  match p, l with
  | EmptyString, _ => Some l
  | String a p', c :: l' => if folds a c then literal p' l' else None
  | String _ _, [] => None
  end.
Definition word_at (l : txt) : bool := match l with c :: _ => is_word c | [] => false end.
Fixpoint span_of (p : string -> bool) (l : txt) : txt * txt :=
  match l with
  | c :: l' => if p c then let '(a, b) := span_of p l' in (c :: a, b) else ([], l)
  | [] => ([], [])
  end.
Definition isc (a : ascii) (c : string) : bool := String.eqb c (String a "").
Definition is_quote (c : string) : bool := isc "'" c || String.eqb c quote.

(** [<img\b([^>]*?)>] at a position: what it opens with, the attributes, the rest. *)
Definition img_at (l : txt) : option (txt * txt * txt) :=
  match literal "<img" l with
  | Some t =>
      if word_at t then None else
      match span_of (fun c => negb (isc ">" c)) t with
      | (attrs, _ :: rest) => Some (take 4 l, attrs, rest)
      | (_, []) => None
      end
  | None => None
  end.
(** The text cut at its image tags, as [captures_iter] does; [n] bounds the length. *)
Inductive piece := Char (c : string) | Img (opening attrs : txt).
Fixpoint pieces (n : nat) (l : txt) : list piece :=
  match n, l with
  | S m, c :: l' =>
      match img_at l with
      | Some (opening, attrs, rest) => Img opening attrs :: pieces m rest
      | None => Char c :: pieces m l'
      end
  | _, _ => []
  end.
Definition all_pieces (l : txt) : list piece := pieces (length l) l.

(** An attribute of the name at a position - blanks, an equals sign, blanks, and what stands between two quotes of either
    kind: the value and the rest. *)
Definition value_at (name : string) (l : txt) : option (txt * txt) :=
  match literal name l with
  | Some t =>
      match snd (span_of is_space t) with
      | e :: t =>
          if isc "=" e then
            match snd (span_of is_space t) with
            | q :: t =>
                if is_quote q then
                  match span_of (fun c => negb (is_quote c)) t with
                  | (v, _ :: rest) => Some (v, rest)
                  | (_, []) => None
                  end
                else None
            | [] => None
            end
          else None
      | [] => None
      end
  | None => None
  end.
(** [\b] and the pattern, searched from the left: what precedes the match, the value, what follows.  [prev]: whether a
    word character precedes; the names start with one. *)
Fixpoint find_attr (name : string) (prev : bool) (l : txt) : option (txt * txt * txt) :=
  match l with
  | [] => None
  | c :: l' =>
      match (if prev then None else value_at name l) with
      | Some (v, rest) => Some ([], v, rest)
      | None => option_map (fun '(before, v, rest) => (c :: before, v, rest)) (find_attr name (is_word c) l')
      end
  end.
Definition attr (name : string) (attrs : txt) : option string := option_map (fun '(_, v, _) => text v) (find_attr name false attrs).

(** ** Rewriting *)

Definition is_remote_http_url (url : string) : bool := let u := trim url in starts_with "http://" u || starts_with "https://" u.
Definition src_of (attrs : txt) : option string := attr "src" attrs.
Definition remote (attrs : txt) : bool := match src_of attrs with Some url => is_remote_http_url url | None => false end.
Definition extract_alt (attrs : txt) : option string := nonempty (option_map trim (attr "alt" attrs)).
Definition escape_attr (s : string) : string := replace "<" "&lt;" (replace quote "&quot;" (replace "&" "&amp;" s)).
Definition quoted (s : string) : string := quote +:+ s +:+ quote.
Definition placeholder (attrs : txt) : string :=
  let title := escape_attr (default "Image" (extract_alt attrs)) in
  "<span data-lyra-blocked-img=" +:+ quoted "1" +:+ " class=" +:+ quoted "lyra-blocked-img" +:+ " title=" +:+ quoted title
    +:+ " aria-label=" +:+ quoted title +:+ ">[Image]</span>".
Record RewriteResult := mkRewrite { rr_html : string; rr_blocked : bool }.
Definition whole (opening attrs : txt) : string := text opening +:+ text attrs +:+ ">".
Definition blocked_piece (p : piece) : string :=
  match p with
  | Char c => c
  | Img opening attrs => if remote attrs then placeholder attrs else whole opening attrs
  end.
Definition blocks (p : piece) : bool := match p with Char _ => false | Img _ attrs => remote attrs end.
Definition rewrite_blocked (html : string) : RewriteResult :=
  let l := all_pieces (chars html) in
  mkRewrite (join "" (map blocked_piece l)) (existsb blocks l).

(** A dimension at a position: after the equals sign an optional quote, blanks, digits. *)
Definition drop_quote (l : txt) : txt := match l with q :: t => if is_quote q then t else l | [] => [] end.
Definition digits_at (l : txt) : option (txt * txt) :=
  match span_of is_num l with ([], _) => None | (d, rest) => Some (d, rest) end.
Definition px_at (name : string) (l : txt) : option txt :=
  t ← literal name l;
  match snd (span_of is_space t) with
  | e :: t => if isc "=" e then option_map fst (digits_at (snd (span_of is_space (drop_quote (snd (span_of is_space t)))))) else None
  | [] => None
  end.
Fixpoint find_px (name : string) (prev : bool) (l : txt) : option txt :=
  match l with
  | [] => None
  | c :: l' => match (if prev then None else px_at name l) with Some d => Some d | None => find_px name (is_word c) l' end
  end.
Definition attr_px_dimension (attrs : txt) (name : string) : option Z := find_px name false attrs ≫= (fun d => parse_u32 (text d)).
(** [NAME\s*:\s*(\d+)\s*px] *)
Definition style_px_at (name : string) (l : txt) : option txt :=
  t ← literal name l;
  match snd (span_of is_space t) with
  | e :: t =>
      if isc ":" e then
        '(d, t) ← digits_at (snd (span_of is_space t));
        _ ← literal "px" (snd (span_of is_space t));
        Some d
      else None
  | [] => None
  end.
Fixpoint find_style_px (name : string) (l : txt) : option txt :=
  match l with
  | [] => None
  | _ :: l' => match style_px_at name l with Some d => Some d | None => find_style_px name l' end
  end.
Definition tiny (o : option Z) : bool := match o with Some n => n <=? 4 | None => false end.
Definition style_suggests_tiny_pixel (attrs : txt) : bool :=
  match attr "style" attrs with
  | Some style =>
      let px name := find_style_px name (chars style) ≫= (fun d => parse_u32 (text d)) in
      tiny (px "width") && tiny (px "height")
  | None => false
  end.
Definition attrs_suggest_tracking_pixel (attrs : txt) : bool :=
  match attr_px_dimension attrs "width", attr_px_dimension attrs "height" with
  | Some w, Some h => (w <=? 4) && (h <=? 4)
  | Some w, None => w <=? 4
  | None, Some h => h <=? 4
  | None, None => style_suggests_tiny_pixel attrs
  end.
Definition mark_tracking_pixel_attr (attrs : string) : string :=
  if contains_str "data-lyra-pixel" attrs then attrs else attrs +:+ " data-lyra-pixel=" +:+ quoted "1".
(** [Regex::replace]: a dollar sign in the new text refers to a group of the match, 0 the match and 1 the value; a group
    that is not there is empty. *)
Definition group (name matched value : string) : string :=
  match parse_digits name with Some 0 => matched | Some 1 => value | _ => "" end.
Definition is_name (a : ascii) : bool := is_alnum a || Ascii.eqb a "_".
Fixpoint take_name (s : string) : string :=
  match s with String a s' => if is_name a then String a (take_name s') else "" | EmptyString => "" end.
Fixpoint expand (fuel : nat) (matched value s : string) : string :=
  match fuel, s with
  | S n, String a s' =>
      if negb (Ascii.eqb a "$") then String a (expand n matched value s') else
      match strip_prefix "$" s' with
      | Some rest => "$" +:+ expand n matched value rest
      | None =>
          match strip_prefix "{" s' with
          | Some inner =>
              match split_once "}" inner with
              | Some (name, rest) => group name matched value +:+ expand n matched value rest
              | None => String a (expand n matched value s')
              end
          | None =>
              let name := take_name s' in
              if is_empty name then String a (expand n matched value s')
              else group name matched value +:+ expand n matched value (sdrop (String.length name) s')
          end
      end
  | _, _ => ""
  end.
Definition replace_src (attrs : txt) (url : string) : string :=
  match find_attr "src" false attrs with
  | Some (before, v, rest) =>
      let matched := text (take (length attrs - length before - length rest) (drop (length before) attrs)) in
      let new := "src=" +:+ quoted url in
      text before +:+ expand (String.length new) matched (text v) new +:+ text rest
  | None => text attrs
  end.
Section Proxy.
Context `{MediaLib} (now : Z).
Definition proxied_piece (signer : ProxySigner) (p : piece) : string :=
  match p with
  | Char c => c
  | Img opening attrs =>
      if remote attrs then
        let new_attrs := replace_src attrs (sign_url now signer (default "" (src_of attrs))) in
        "<img" +:+ (if attrs_suggest_tracking_pixel attrs then mark_tracking_pixel_attr new_attrs else new_attrs) +:+ ">"
      else whole opening attrs
  end.
Definition rewrite_proxy (html : string) (signer : ProxySigner) : RewriteResult :=
  mkRewrite (join "" (map (proxied_piece signer) (all_pieces (chars html)))) false.
Definition rewrite_remote_images (html : string) (allow_remote : bool) (proxy_signer : option ProxySigner) : RewriteResult :=
  if is_empty html then mkRewrite html false else
  if negb allow_remote then rewrite_blocked html else
  match proxy_signer with Some signer => rewrite_proxy html signer | None => mkRewrite html false end.
End Proxy.
End Patterns.

(** ** Settings *)

Definition DEFAULT_REMOTE_IMAGES : string := "block".
Record PrivacySettings := mkPrivacy { ps_remote_images : string; ps_allowlist : list string; ps_gravatar : bool }.
Definition default_privacy : PrivacySettings := mkPrivacy DEFAULT_REMOTE_IMAGES [] false.
Definition privacy_json (s : PrivacySettings) : Json :=
  JObject [("remoteImages", JString (ps_remote_images s)); ("remoteContentAllowlist", JArray (map JString (ps_allowlist s)));
           ("gravatarAvatars", JBool (ps_gravatar s))].
(** A missing field has its default; a field of another type is an error.  The sequence form serde also reads is left out:
    [save_settings] never writes it. *)
Definition field_or {A} (key : string) (v : Json) (d : A) (f : Json -> option A) : option A :=
  match json_field key v with Some x => f x | None => Some d end.
Definition json_strings (v : Json) : option (list string) := match v with JArray l => mapM json_str l | _ => None end.
Definition json_bool (v : Json) : option bool := match v with JBool b => Some b | _ => None end.
Definition privacy_of_json (v : Json) : option PrivacySettings :=
  match v with
  | JObject _ =>
      mode ← field_or "remoteImages" v DEFAULT_REMOTE_IMAGES json_str;
      senders ← field_or "remoteContentAllowlist" v [] json_strings;
      gravatar ← field_or "gravatarAvatars" v false json_bool;
      Some (mkPrivacy mode senders gravatar)
  | _ => None
  end.
Definition privacy_key (user_id : string) : string := "user:" +:+ user_id +:+ ":privacy".

(** The sender of a mail, from the JSON of its From column. *)
Definition extract_sender `{StoreLib} (raw : string) : option string :=
  let trimmed := trim raw in
  let bracketed := match rsplit_once_str "<" trimmed, rsplit_once_str ">" trimmed with
                   | Some (before, _), Some (upto, _) =>
                       if (String.length before <? String.length upto)%nat
                       then Some (to_lowercase (trim (sdrop (String.length before + 1) upto))) else None
                   | _, _ => None
                   end in
  match bracketed with
  | Some s => Some s
  | None => if contains_char "@" trimmed then Some (to_lowercase trimmed) else None
  end.
Definition sender_email_from_json `{StoreLib} `{JsonLib} (from_address : option string) : option string :=
  raw ← from_address; parsed ← json_parse raw;
  match json_field "raw" parsed ≫= json_str with
  | Some s => extract_sender s
  | None =>
      match json_field "email" parsed ≫= json_str with
      | Some s => Some (to_lowercase (trim s))
      | None => json_str parsed ≫= extract_sender
      end
  end.
Definition should_allow_remote `{StoreLib} (settings : PrivacySettings) (sender_email : option string) (query_allow : bool) : bool :=
  query_allow
  || match sender_email with Some email => existsb (String.eqb (to_lowercase email)) (ps_allowlist settings) | None => false end
  || negb (String.eqb (ps_remote_images settings) DEFAULT_REMOTE_IMAGES).

(** [serde_json]'s words on a stored text it cannot read. *)
Class PrivacyTexts := privacy_error : string -> string.

Section Settings.
Context {K R : Type} `{KvStore K} `{HasRng R} `{StoreLib} `{JsonLib} `{PrivacyTexts}.
Local Abbreviation W := (world K R).
Local Abbreviation M := (io W SyncError).
Implicit Types w : W.

Definition kv_internal (e : KvError.t) : SyncError := match e with KvError.Internal m => InternalE ("kv internal error: " +:+ m) end.
Definition load_settings (user_id : string) : M PrivacySettings :=
  let! raw := map_err kv_internal (kvget (privacy_key user_id)) in
  match raw with
  | None => ret default_privacy
  | Some json => lift (ok_or (InternalE ("privacy settings corrupt: " +:+ privacy_error json)) (json_parse json ≫= privacy_of_json))
  end.
Definition save_settings (user_id : string) (settings : PrivacySettings) : M unit :=
  map_err kv_internal (kvset (privacy_key user_id) (json_text (privacy_json settings)) None).
Definition get_privacy (user_id : string) : M PrivacySettings := load_settings user_id.
Definition patch_privacy (user_id : string) (remote_images : option string) (gravatar_avatars : option bool) : M PrivacySettings :=
  let! settings := load_settings user_id in
  let! settings := match remote_images with
                   | Some mode =>
                       if negb (String.eqb mode "block") && negb (String.eqb mode "proxy") then throw (InvalidInput "remoteImages must be block or proxy")
                       else ret (mkPrivacy mode (ps_allowlist settings) (ps_gravatar settings))
                   | None => ret settings
                   end in
  let settings := mkPrivacy (ps_remote_images settings) (ps_allowlist settings) (default (ps_gravatar settings) gravatar_avatars) in
  let! _ := save_settings user_id settings in
  ret settings.
Definition allow_sender (user_id sender : string) : M PrivacySettings :=
  let sender := to_lowercase (trim sender) in
  if negb (contains_char "@" sender) then throw (InvalidInput "sender must be an email address") else
  let! settings := load_settings user_id in
  if existsb (String.eqb sender) (ps_allowlist settings) then ret settings else
  let settings := mkPrivacy (ps_remote_images settings) (ps_allowlist settings ++ [sender])%list (ps_gravatar settings) in
  let! _ := save_settings user_id settings in
  ret settings.
Definition remove_allow_sender (user_id sender : string) : M PrivacySettings :=
  let sender := to_lowercase (trim sender) in
  let! settings := load_settings user_id in
  let settings := mkPrivacy (ps_remote_images settings) (List.filter (fun e => negb (String.eqb e sender)) (ps_allowlist settings)) (ps_gravatar settings) in
  let! _ := save_settings user_id settings in
  ret settings.
End Settings.

(** ** What a blocked mail still shows *)

Section Blocked.
Local Open Scope list_scope.
Context `{UnicodeLib}.
Definition tags (l : list piece) : list txt := omap (fun p => match p with Img _ attrs => Some attrs | Char _ => None end) l.
(** The image tags of a text, by their attributes. *)
Definition img_tags (html : string) : list txt := tags (all_pieces (chars html)).

Lemma folds_lt a : In a ["i"; "m"; "g"]%char -> folds a "<" = false.
Proof using Type. intros [<-|[<-|[<-|[]]]]; reflexivity. Qed.
Lemma span_app p l : fst (span_of p l) ++ snd (span_of p l) = l.
Proof using Type. induction l as [|c l IH]; [done|]. cbn. destruct (p c); [|done]. destruct (span_of p l). cbn in *. by rewrite IH. Qed.
Lemma span_stops p a c r : Forall (fun x => p x = true) a -> p c = false -> span_of p (a ++ c :: r) = (a, c :: r).
Proof using Type. intros Ha Hc. induction Ha as [|x a Hx _ IH]; cbn; [by rewrite Hc|]. by rewrite Hx, IH. Qed.
Lemma span_all p l : Forall (fun x => p x = true) (fst (span_of p l)).
Proof using Type. induction l as [|c l IH]; [constructor|]. cbn. destruct (p c) eqn:Hp; [|constructor]. destruct (span_of p l). by constructor. Qed.
Lemma span_next p l a c r : span_of p l = (a, c :: r) -> p c = false.
Proof using Type.
  revert a. induction l as [|x l IH]; intros a; cbn; [done|]. destruct (p x) eqn:Hx; [|by intros [= <- <- <-]].
  destruct (span_of p l) as [a' b'] eqn:Hs. intros [= <- ->]. by eapply IH.
Qed.

Lemma literal_split p l t : literal p l = Some t -> l = take (String.length p) l ++ t.
Proof using Type.
  revert l. induction p as [|a p IH]; intros [|c l]; cbn; try (by intros [= <-]). destruct (folds a c); [|done]. intros Ht. by rewrite <-(IH _ Ht).
Qed.
(** A tag opens at [l] exactly when the literal does, no word goes on, and it is closed. *)
Lemma img_at_some l o a r : img_at l = Some (o, a, r) <->
  o = take 4 l /\ exists t, literal "<img" l = Some t /\ word_at t = false /\ t = a ++ ">" :: r /\ Forall (fun c => negb (isc ">" c) = true) a.
Proof using Type.
  unfold img_at. split.
  - destruct (literal "<img" l) as [t|]; [|done]. destruct (word_at t) eqn:Hw; [done|]. destruct (span_of _ t) as [a' [|c r']] eqn:Hs; [done|].
    intros [= <- <- <-]. split; [done|]. exists t. split; [done|]. split; [done|]. pose proof (span_next _ _ _ _ _ Hs) as Hc.
    apply negb_false_iff, String.eqb_eq in Hc as ->. rewrite <-(span_app (fun c => negb (isc ">" c)) t) at 1. rewrite Hs. split; [done|].
    pose proof (span_all (fun c => negb (isc ">" c)) t) as Hf. by rewrite Hs in Hf.
  - intros (-> & t & -> & -> & -> & Ha). by rewrite (span_stops (fun c => negb (isc ">" c)) a ">" r Ha eq_refl).
Qed.
(** Not closed: the literal and the boundary are there and no closing bracket follows. *)
Lemma img_at_none l : img_at l = None ->
  forall t, literal "<img" l = Some t -> word_at t = false -> ">" ∉ t.
Proof using Type.
  unfold img_at. intros Hn t Ht Hw. rewrite Ht, Hw in Hn. destruct (span_of _ t) as [a [|c r]] eqn:Hs; [|done].
  pose proof (span_all (fun c => negb (isc ">" c)) t) as Hf. rewrite Hs in Hf. cbn in Hf.
  rewrite <-(span_app (fun c => negb (isc ">" c)) t), Hs. cbn. rewrite app_nil_r. intros Hin.
  by apply (proj1 (Forall_forall _ _) Hf) in Hin.
Qed.
Lemma img_at_length l o a r : img_at l = Some (o, a, r) -> (length r < length l)%nat.
Proof using Type.
  intros (-> & t & Hl & _ & -> & _)%img_at_some. apply literal_split in Hl. rewrite Hl, length_app, length_app. cbn. lia.
Qed.
Lemma pieces_enough n m l : (length l <= n)%nat -> (length l <= m)%nat -> pieces n l = pieces m l.
Proof using Type.
  revert m l. induction n as [|n IH]; intros m [|c l] Hn Hm; cbn in *; try lia; [by destruct m..|]. destruct m as [|m]; [lia|]. cbn [pieces].
  destruct (img_at (c :: l)) as [[[o a] r]|] eqn:Hi; [|f_equal; apply IH; lia]. apply img_at_length in Hi. cbn in Hi. f_equal. apply IH; lia.
Qed.
Lemma img_pieces l o a r : img_at l = Some (o, a, r) -> all_pieces l = Img o a :: all_pieces r.
Proof using Type.
  intros Hi. pose proof (img_at_length _ _ _ _ Hi). unfold all_pieces. destruct l as [|c l]; [done|]. cbn [length pieces]. rewrite Hi. f_equal. apply pieces_enough; cbn in *; lia.
Qed.
Lemma char_pieces c l : img_at (c :: l) = None -> all_pieces (c :: l) = Char c :: all_pieces l.
Proof using Type. intros Hi. unfold all_pieces. cbn [length pieces]. by rewrite Hi. Qed.

(** *** Characters *)

Definition whole_char (c : string) : Prop := exists a r, c = String a r /\ char_start a = true /\ sforall (fun b => negb (char_start b)) r = true.
Definition starts_char (s : string) : bool := match s with String a _ => char_start a | EmptyString => true end.
Lemma chars_head a s : exists r l, chars (String a s) = String a r :: l.
Proof using Type. cbn. destruct (chars s) as [|c l]; [by eexists _, _|]. destruct (continues c); by eexists _, _. Qed.
Lemma chars_cons a s : starts_char s = true -> chars (String a s) = String a "" :: chars s.
Proof using Type.
  intros Hs. destruct s as [|b s]; [done|]. destruct (chars_head b s) as (r & l & Hc). cbn [chars]. cbn [chars] in Hc. rewrite Hc. cbn in *. by rewrite Hs.
Qed.
Lemma chars_app s t : starts_char t = true -> chars (s +:+ t) = chars s ++ chars t.
Proof using Type.
  intros Ht. induction s as [|a s IH]; [done|]. change (String a s +:+ t) with (String a (s +:+ t)). cbn [chars]. rewrite IH.
  destruct (chars s) as [|c l] eqn:Hc; cbn [app]; [|by destruct (continues c)].
  destruct t as [|b t]; [done|]. destruct (chars_head b t) as (r & l & ->). cbn in *. by rewrite Ht.
Qed.
Lemma text_cons c l : text (c :: l) = c +:+ text l.
Proof using Type. unfold text. destruct l; cbn; [by rewrite app_nil_r_s|done]. Qed.
Lemma text_app l l' : text (l ++ l') = text l +:+ text l'.
Proof using Type. induction l as [|c l IH]; [done|]. cbn [app]. by rewrite !text_cons, IH, app_assoc_s. Qed.
Lemma text_chars s : text (chars s) = s.
Proof using Type.
  induction s as [|a s IH]; [done|]. cbn [chars]. destruct (chars s) as [|c l]; [by rewrite <-IH|]. rewrite text_cons in IH. by destruct (continues c); rewrite !text_cons, <-IH.
Qed.
Lemma chars_char c s : whole_char c -> starts_char s = true -> chars (c +:+ s) = c :: chars s.
Proof using Type.
  intros (a & r & -> & Ha & Hr) Hs. rewrite chars_app by done. change (String a r :: chars s) with ([String a r] ++ chars s). f_equal. clear Hs s.
  assert (Hrest : r = "" \/ exists b r', r = String b r' /\ chars r = [r] /\ char_start b = false).
  { clear Ha a. induction r as [|b r IH]; [by left|right]. cbn in Hr. apply andb_true_iff in Hr as [Hb%negb_true_iff Hr]. exists b, r. split; [done|]. split; [|done].
    destruct (IH Hr) as [->|(b' & r' & -> & Hc & Hb')]; [done|]. cbn [chars] in *. rewrite Hc. cbn. by rewrite Hb'. }
  destruct Hrest as [->|(b & r' & -> & Hc & Hb)]; [done|]. cbn [chars] in *. rewrite Hc. cbn. by rewrite Hb.
Qed.
Lemma starts_text l : Forall whole_char l -> starts_char (text l) = true.
Proof using Type. intros [|c l' (a & r & -> & Ha & _) _]; [done|]. rewrite text_cons. done. Qed.
Lemma chars_text l : Forall whole_char l -> chars (text l) = l.
Proof using Type. induction 1 as [|c l Hc Hl IH]; [done|]. rewrite text_cons, chars_char by (done || by apply starts_text). by rewrite IH. Qed.
Lemma chars_whole s : starts_char s = true -> Forall whole_char (chars s).
Proof using Type.
  assert (Hall : forall s, exists c l, chars s = [] \/ chars s = c :: l /\ Forall whole_char l /\
            exists a r, c = String a r /\ sforall (fun b => negb (char_start b)) r = true).
  { clear s. intros s. induction s as [|a s IH]; [exists "", []; by left|]. destruct IH as (c & l & [Hc|(Hc & Hl & b & r & -> & Hr)]); cbn [chars]; rewrite Hc.
    - exists (String a ""), []. right. split; [done|]. split; [constructor|by exists a, ""].
    - cbn [continues]. destruct (char_start b) eqn:Hb; cbn [negb].
      + exists (String a ""), (String b r :: l). right. split; [done|]. split; [|by exists a, ""]. constructor; [by exists b, r|done].
      + exists (String a (String b r)), l. right. split; [done|]. split; [done|]. exists a, (String b r). split; [done|]. cbn. by rewrite Hb. }
  intros Hs. destruct s as [|a s]; [constructor|]. destruct (Hall (String a s)) as (c & l & [Hc|(Hc & Hl & b & r & -> & Hr)]); rewrite Hc; [constructor|].
  constructor; [|done]. exists b, r. split; [done|]. split; [|done]. destruct (chars_head a s) as (r' & l' & Hh). rewrite Hh in Hc. by injection Hc as <- _ _.
Qed.
Lemma chars_free a s : sforall (fun b => negb (Ascii.eqb b a)) s = true -> Forall (fun c => c <> String a "") (chars s).
Proof using Type.
  intros Hs. apply Forall_forall. intros c Hc ->. apply list_elem_of_split in Hc as (l1 & l2 & Hc).
  rewrite <-(text_chars s), Hc, text_app, text_cons, sforall_app in Hs. apply andb_true_iff in Hs as [_ Hs]. rewrite app_cons_s in Hs. cbn in Hs. by rewrite Ascii.eqb_refl in Hs.
Qed.

(** *** The rewritten text *)

Definition out_piece (p : piece) : txt :=
  match p with
  | Char c => [c]
  | Img opening attrs => if remote attrs then chars (placeholder attrs) else opening ++ attrs ++ [">"]
  end.
Definition out_chars (l : txt) : txt := concat (map out_piece (all_pieces l)).

Lemma literal_open p l x : literal p l = Some x -> forall y, literal p (take (String.length p) l ++ y) = Some y.
Proof using Type.
  revert l. induction p as [|a p IH]; intros [|c l]; cbn; try done. destruct (folds a c); [|done]. apply IH.
Qed.
Lemma folds_open c : folds "<" c = true -> c = "<".
Proof using Type.
  unfold folds. cbn [Ascii.eqb]. rewrite !andb_false_l, !orb_false_r. destruct c as [|b [|]]; cbn [single]; try done.
  intros Hb%Ascii.eqb_eq. f_equal. destruct b as [[] [] [] [] [] [] [] []]; vm_compute in Hb; congruence.
Qed.
Lemma no_tag_at c l : c <> "<" -> img_at (c :: l) = None.
Proof using Type. intros Hc. unfold img_at. cbn [literal]. destruct (folds "<" c) eqn:Hf; [|done]. by apply folds_open in Hf. Qed.
Lemma skip_plain a l : Forall (fun c => c <> "<") a -> tags (all_pieces (a ++ l)) = tags (all_pieces l).
Proof using Type. induction 1 as [|c a Hc _ IH]; [done|]. cbn [app]. rewrite char_pieces by (by apply no_tag_at). exact IH. Qed.
Lemma skip_other c d l : folds "i" d = false -> tags (all_pieces (c :: d :: l)) = tags (all_pieces (d :: l)).
Proof using Type.
  intros Hd. rewrite char_pieces; [done|]. unfold img_at. cbn [literal]. rewrite Hd. by destruct (folds "<" c).
Qed.

(** The placeholder has no image in it, whatever the alternative text. *)
Lemma escape_no_lt s : sforall not_lt (escape_attr s) = true.
Proof using Type.
  unfold escape_attr. rewrite replace_char. generalize (replace quote "&quot;" (replace "&" "&amp;" s)). clear s. intros s.
  induction s as [|a s IH]; [done|]. cbn [each_char]. rewrite sforall_app, IH, andb_true_r. unfold swap. destruct (Ascii.eqb_spec a "<") as [->|Ha]; [done|].
  cbn. rewrite andb_true_r. by apply negb_true_iff, Ascii.eqb_neq.
Qed.
Lemma skip_one c l : c <> "<" -> tags (all_pieces (c :: l)) = tags (all_pieces l).
Proof using Type. intros Hc. apply (skip_plain [c]). by constructor. Qed.
Definition placeholder_inside (attrs : txt) : string :=
  let title := escape_attr (default "Image" (extract_alt attrs)) in
  "pan data-lyra-blocked-img=" +:+ quoted "1" +:+ " class=" +:+ quoted "lyra-blocked-img" +:+ " title=" +:+ quoted title
    +:+ " aria-label=" +:+ quoted title +:+ ">[Image]".
Lemma placeholder_parts attrs : placeholder attrs = "<" +:+ ("s" +:+ placeholder_inside attrs) +:+ "<" +:+ "/span>".
Proof using Type. unfold placeholder, placeholder_inside. cbn zeta. rewrite !app_assoc_s. reflexivity. Qed.
Lemma skip_placeholder attrs l : tags (all_pieces (chars (placeholder attrs) ++ l)) = tags (all_pieces l).
Proof using Type.
  rewrite placeholder_parts. change ("<" +:+ ("s" +:+ placeholder_inside attrs) +:+ "<" +:+ "/span>") with (String "<" (String "s" (placeholder_inside attrs +:+ "<" +:+ "/span>"))).
  rewrite !chars_cons, chars_app by (done || reflexivity). cbn [app]. rewrite skip_other by done. rewrite skip_one by done.
  rewrite <-app_assoc, skip_plain; [|apply chars_free].
  - change (chars ("<" +:+ "/span>")) with (["<"; "/"; "s"; "p"; "a"; "n"; ">"]). cbn [app]. rewrite skip_other by done.
    apply (skip_plain ["/"; "s"; "p"; "a"; "n"; ">"]). repeat constructor; done.
  - unfold placeholder_inside. cbn zeta. rewrite !sforall_app. unfold quoted. rewrite !sforall_app. change (fun b => negb (Ascii.eqb b "<")) with not_lt. by rewrite !escape_no_lt.
Qed.
(** Induction along the pieces of a text. *)
Lemma tag_ind (P : txt -> Prop) : P [] -> (forall c l, img_at (c :: l) = None -> P l -> P (c :: l)) ->
  (forall l o a r, img_at l = Some (o, a, r) -> P r -> P l) -> forall l, P l.
Proof using Type.
  intros Hnil Hchar Himg l. remember (length l) as n eqn:Hn. revert l Hn. induction (lt_wf n) as [n _ IH]. intros [|c l] ->; [done|].
  destruct (img_at (c :: l)) as [[[o a] r]|] eqn:Hi; [|apply Hchar; [done|]; eapply IH; [|reflexivity]; cbn; lia].
  eapply Himg; [exact Hi|]. eapply IH; [|reflexivity]. by eapply img_at_length.
Qed.
Definition whole_piece (p : piece) : Prop :=
  match p with Char c => whole_char c | Img o a => o <> [] /\ Forall whole_char (o ++ a ++ [">"]) end.
Lemma literal_took l t : literal "<img" l = Some t -> l = take 4 l ++ t /\ take 4 l <> [].
Proof using Type. intros Hl. pose proof (literal_split _ _ _ Hl) as Hs. split; [done|]. by destruct l. Qed.
Lemma pieces_whole l : Forall whole_char l -> Forall whole_piece (all_pieces l).
Proof using Type.
  induction l as [|c l Hi IH|l o a r Hi IH] using tag_ind; intros Hl; [constructor| |].
  - rewrite char_pieces by done. apply Forall_cons in Hl as [Hc Hl]. constructor; [done|by apply IH].
  - rewrite (img_pieces _ _ _ _ Hi). apply img_at_some in Hi as (-> & t & Ht & _ & -> & _). apply literal_took in Ht as [Ht Hne].
    rewrite Ht in Hl. apply Forall_app in Hl as [H4 [Ha [Hg Hr]%Forall_cons]%Forall_app].
    constructor; [|by apply IH]. split; [done|]. apply Forall_app; split; [done|]. apply Forall_app; split; [done|]. by constructor.
Qed.
Lemma whole_text o a : whole o a = text (o ++ a ++ [">"]).
Proof using Type. unfold whole. by rewrite !text_app. Qed.
Lemma piece_starts p : whole_piece p -> starts_char (blocked_piece p) = true /\ chars (blocked_piece p) = out_piece p.
Proof using Type.
  destruct p as [c|o a]; cbn.
  - intros Hc. pose proof (starts_text [c] ltac:(by constructor)) as Hs. pose proof (chars_text [c] ltac:(by constructor)) as Ht. done.
  - intros [Hne Hf]. destruct (remote a); [done|]. rewrite whole_text. split; [by apply starts_text|by apply chars_text].
Qed.
Lemma join_cons s l : join "" (s :: l) = s +:+ join "" l.
Proof using Type. exact (text_cons s l). Qed.
Lemma rewritten_chars l : Forall whole_piece l ->
  starts_char (join "" (map blocked_piece l)) = true /\ chars (join "" (map blocked_piece l)) = concat (map out_piece l).
Proof using Type.
  induction 1 as [|p l Hp _ [IH1 IH2]]; [done|]. cbn [map concat]. rewrite join_cons. apply piece_starts in Hp as [Hs Hc].
  split; [|by rewrite chars_app, Hc, IH2]. destruct (blocked_piece p); [exact IH1|exact Hs].
Qed.
Lemma rewrite_chars html : starts_char html = true -> chars (rr_html (rewrite_blocked html)) = out_chars (chars html).
Proof using Type. intros Hs. apply rewritten_chars, pieces_whole, chars_whole, Hs. Qed.

(** The rewritten text agrees with the text up to the next tag: both end there, or both go on with an opening bracket -
    the text with a tag that is closed. *)
Lemma out_agrees l : exists pre t u, l = pre ++ t /\ out_chars l = pre ++ u /\
  (t = [] /\ u = [] \/ ">" ∈ t /\ exists t' u', t = "<" :: t' /\ u = "<" :: u').
Proof using Type.
  induction l as [|c l Hi IH|l o a r Hi _] using tag_ind.
  - exists [], [], []. split_and!; [done..|by left].
  - destruct IH as (pre & t & u & Hl & Hu & Htu). exists (c :: pre), t, u. unfold out_chars in *. rewrite char_pieces by done.
    cbn [map concat out_piece]. rewrite Hu. by rewrite Hl at 1.
  - exists [], l, (out_chars l). split_and!; [done..|right]. unfold out_chars. rewrite (img_pieces _ _ _ _ Hi).
    apply img_at_some in Hi as (-> & t & Ht & _ & -> & _). pose proof (literal_took _ _ Ht) as [Hl _].
    split; [rewrite Hl; set_solver|]. destruct l as [|c l]; [done|]. cbn [literal] in Ht. destruct (folds "<" c) eqn:Hc; [|done].
    apply folds_open in Hc as ->. exists l. cbn [map concat out_piece]. destruct (remote a).
    + rewrite placeholder_parts. change ("<" +:+ ("s" +:+ placeholder_inside a) +:+ "<" +:+ "/span>") with (String "<" ("s" +:+ placeholder_inside a +:+ "<" +:+ "/span>")).
      rewrite chars_cons by done. by eexists.
    + by eexists.
Qed.
(** What [literal] reads before an opening bracket or the end does not depend on what follows. *)
Lemma literal_agree p pre u x : sforall (fun a => negb (folds a "<")) p = true -> (u = [] \/ exists u', u = "<" :: u') ->
  literal p (pre ++ u) = Some x -> exists pre', x = pre' ++ u /\ forall t, literal p (pre ++ t) = Some (pre' ++ t).
Proof using Type.
  intros Hp Hu. revert pre. induction p as [|a p IH]; intros pre; [intros [= <-]; by exists pre|]. cbn in Hp. apply andb_true_iff in Hp as [Ha%negb_true_iff Hp].
  destruct pre as [|c pre]; cbn [app literal].
  - destruct Hu as [->|[u' ->]]; cbn; [done|]. by rewrite Ha.
  - destruct (folds a c); [|done]. by apply IH.
Qed.
Lemma still_no_tag c l : img_at (c :: l) = None -> img_at (c :: out_chars l) = None.
Proof using Type.
  intros Hn. destruct (img_at (c :: out_chars l)) as [[[o a] r]|] eqn:Hi; [|done]. exfalso. apply img_at_some in Hi as (-> & x & Hx & Hw & Hxa & _).
  destruct (out_agrees l) as (pre & t & u & Hl & Ho & Htu). rewrite Ho in Hx. cbn [literal] in Hx. destruct (folds "<" c) eqn:Hc; [|done].
  apply (literal_agree "img") in Hx as (pre' & -> & Hsame); [|reflexivity|destruct Htu as [[_ ->]|(_ & t' & u' & _ & ->)]; eauto].
  pose proof (img_at_none _ Hn (pre' ++ t)) as Hnone. cbn [literal] in Hnone. rewrite Hc, Hl in Hnone. specialize (Hnone (Hsame t)).
  apply Hnone.
  - destruct pre' as [|d pre']; [|exact Hw]. cbn in Hw |- *. by destruct Htu as [[-> ->]|(_ & t' & u' & -> & ->)].
  - apply elem_of_app. destruct Htu as [[-> ->]|(Hin & _)]; [left|by right]. rewrite app_nil_r in Hxa. rewrite Hxa. set_solver.
Qed.
(** A tag that is kept is found again. *)
Lemma still_tag l o a r x : img_at l = Some (o, a, r) -> img_at (o ++ a ++ [">"] ++ x) = Some (o, a, x).
Proof using Type.
  intros (-> & t & Ht & Hw & -> & Ha)%img_at_some. apply img_at_some. pose proof (literal_open _ _ _ Ht) as Ho.
  assert (length (take 4 l) = 4%nat) as H4.
  { apply literal_split in Ht. apply (f_equal length) in Ht. revert Ht. rewrite !length_app, !length_take. change (String.length "<img") with 4%nat. cbn [length]. lia. }
  split; [by rewrite take_app_le, take_take by lia|]. exists (a ++ ">" :: x). split; [apply (Ho (a ++ ">" :: x))|]. split; [|done]. by destruct a.
Qed.
Lemma tags_out l : tags (all_pieces (out_chars l)) = List.filter (fun a => negb (remote a)) (tags (all_pieces l)).
Proof using Type.
  induction l as [|c l Hi IH|l o a r Hi IH] using tag_ind; [done| |].
  - unfold out_chars. rewrite char_pieces by done. cbn [map concat out_piece app]. rewrite char_pieces by (by apply still_no_tag). exact IH.
  - unfold out_chars. rewrite (img_pieces _ _ _ _ Hi). cbn [map concat out_piece]. fold (out_chars r).
    change (tags (Img o a :: all_pieces r)) with (a :: tags (all_pieces r)). cbn [List.filter]. destruct (remote a); cbn [negb].
    + by rewrite skip_placeholder.
    + rewrite <-!app_assoc, (img_pieces _ _ _ _ (still_tag _ _ _ _ _ Hi)). change (tags (Img o a :: ?x)) with (a :: tags x). by rewrite IH.
Qed.
Lemma blocks_tags l : existsb blocks l = existsb remote (tags l).
Proof using Type. induction l as [|[c|o a] l IH]; [done|exact IH|]. cbn. by rewrite IH. Qed.

(** A mail shown with remote images blocked has, read again the same way, exactly the image tags it had that are not
    remote - none was hidden, none comes out of two halves, and no alternative text brings one in - and it is told to have
    had some blocked exactly when it had a remote one. *)
Theorem blocked_mail_has_no_remote_image `{MediaLib} now signer html : starts_char html = true ->
  let r := rewrite_remote_images now html false signer in
  img_tags (rr_html r) = List.filter (fun a => negb (remote a)) (img_tags html) /\ existsb remote (img_tags (rr_html r)) = false /\
  rr_blocked r = existsb remote (img_tags html).
Proof using Type.
  intros Hs. cbn zeta. assert (Hr : rewrite_remote_images now html false signer = rewrite_blocked html) by (by destruct html).
  rewrite Hr. assert (Ht : img_tags (rr_html (rewrite_blocked html)) = List.filter (fun a => negb (remote a)) (img_tags html))
    by (unfold img_tags; by rewrite rewrite_chars, tags_out). rewrite Ht. split; [done|]. split; [|apply blocks_tags].
  clear; induction (img_tags html) as [|a l IH]; [done|]. cbn. destruct (remote a) eqn:Ha; cbn; [exact IH|]. by rewrite Ha.
Qed.
End Blocked.

(** ** The settings as a mode and a set of senders *)

Inductive privacy_request := ShowPrivacy | PatchPrivacy (mode : option string) (gravatar : option bool) | AllowSender (sender : string)
  | RemoveSender (sender : string).
Record allowance := mkAllowance { al_proxy : bool; al_senders : gset string; al_gravatar : bool }.
Definition allowance_of (s : PrivacySettings) : allowance :=
  mkAllowance (negb (String.eqb (ps_remote_images s) DEFAULT_REMOTE_IMAGES)) (list_to_set (ps_allowlist s)) (ps_gravatar s).

(** Documented behaviour of serde: settings it wrote come back. *)
Class PrivacyJsonLaws `{JsonLib} := privacy_roundtrip : forall s, json_parse (json_text (privacy_json s)) = Some (privacy_json s).

Section SettingsProofs.
Local Open Scope list_scope.
Context {K R : Type} `{KvLaws K} `{HasRng R} `{!RngLaws R} `{CryptoLib} `{StoreLib} `{PrivacyJsonLaws} `{PrivacyTexts}.
Local Abbreviation W := (world K R).
Implicit Types w : W.

Definition on_privacy (user_id : string) (q : privacy_request) : io W SyncError PrivacySettings :=
  match q with
  | ShowPrivacy => get_privacy user_id
  | PatchPrivacy mode gravatar => patch_privacy user_id mode gravatar
  | AllowSender sender => allow_sender user_id sender
  | RemoveSender sender => remove_allow_sender user_id sender
  end.
(** What a request does to the abstract settings; a mode or an address that is not one is refused. *)
Definition allows (q : privacy_request) (a : allowance) : option allowance :=
  match q with
  | ShowPrivacy => Some a
  | PatchPrivacy mode gravatar =>
      proxy ← match mode with
              | None => Some (al_proxy a)
              | Some m => if String.eqb m "block" then Some false else if String.eqb m "proxy" then Some true else None
              end;
      Some (mkAllowance proxy (al_senders a) (default (al_gravatar a) gravatar))
  | AllowSender s =>
      let s := to_lowercase (trim s) in
      if contains_char "@" s then Some (mkAllowance (al_proxy a) ({[s]} ∪ al_senders a) (al_gravatar a)) else None
  | RemoveSender s => Some (mkAllowance (al_proxy a) (al_senders a ∖ {[to_lowercase (trim s)]}) (al_gravatar a))
  end.
Definition stored_privacy (user_id : string) w : option PrivacySettings :=
  match now_look w (privacy_key user_id) with None => Some default_privacy | Some json => json_parse json ≫= privacy_of_json end.

Lemma privacy_read_back s : privacy_of_json (privacy_json s) = Some s.
Proof using Type.
  unfold privacy_of_json, privacy_json, field_or. cbn -[mapM]. assert (mapM json_str (map JString (ps_allowlist s)) = Some (ps_allowlist s)) as ->
    by (apply mapM_Some_2; induction (ps_allowlist s) as [|x l IH]; constructor; [reflexivity|exact IH]). by destruct s.
Qed.
Lemma load_privacy_run user_id w s : stored_privacy user_id w = Some s ->
  exists w', load_settings user_id w = (Ok s, w') /\ kv_only w w' /\ views w w'.
Proof using Type*.
  unfold stored_privacy. intros Hs. destruct (kvget_run (privacy_key user_id) w) as (w' & Hg & Hk & Hv). exists w'. split; [|done].
  unfold load_settings. rewrite (bind_step _ _ _ _ _ (map_err_Ok kv_internal _ _ _ _ Hg)). destruct (now_look w (privacy_key user_id)) as [j|]; [|by injection Hs as <-].
  by rewrite Hs.
Qed.
Lemma privacy_key_inj u v : privacy_key u = privacy_key v -> u = v.
Proof using Type. unfold privacy_key. intros Hk%app_inj_l_s. by apply app_inj_r_s in Hk. Qed.
Lemma save_privacy_run user_id s w : exists w', save_settings user_id s w = (Ok tt, w') /\ kv_only w w' /\
  stored_privacy user_id w' = Some s /\ forall v, v <> user_id -> stored_privacy v w' = stored_privacy v w.
Proof using Type*.
  destruct (kvset_run (privacy_key user_id) (json_text (privacy_json s)) None w) as (w' & Hr & Hk & Hl). exists w'. split; [by apply map_err_Ok|].
  split; [done|]. unfold stored_privacy, now_look. rewrite (kv_only_now _ _ Hk). split.
  - rewrite Hl, decide_True by (done || lia). cbn. by rewrite privacy_roundtrip, <-(privacy_read_back s).
  - intros v Hv. rewrite Hl, decide_False by (lia || intros Hkey%privacy_key_inj; congruence). done.
Qed.
Definition known_mode (s : PrivacySettings) : bool := existsb (String.eqb (ps_remote_images s)) ["block"; "proxy"].
Definition others_kept (user_id : string) w w' : Prop := forall v, v <> user_id -> stored_privacy v w' = stored_privacy v w.
Lemma stored_views v w w' : kv_only w w' -> views w w' -> stored_privacy v w' = stored_privacy v w.
Proof using Type. intros Hk Hv. unfold stored_privacy. by rewrite (views_now _ _ _ Hk Hv). Qed.
Lemma saved_run user_id s w w1 : kv_only w w1 -> views w w1 -> exists w',
  (let! _ := save_settings user_id s in ret s) w1 = (Ok s, w') /\ others_kept user_id w w' /\ stored_privacy user_id w' = Some s.
Proof using Type*.
  intros Hk Hv. destruct (save_privacy_run user_id s w1) as (w2 & Hsave & _ & Hu & Ho). exists w2. rewrite (bind_step _ _ _ _ _ Hsave).
  split; [done|]. split; [|done]. intros v Hne. rewrite Ho by done. by apply stored_views.
Qed.
Lemma sender_listed x l : existsb (String.eqb x) l = true <-> x ∈ l.
Proof using Type.
  rewrite existsb_exists. split; [intros (y & Hy & ->%String.eqb_eq); by apply list_elem_of_In|]. intros Hx. exists x.
  split; [by apply list_elem_of_In|apply String.eqb_refl].
Qed.

(** The privacy routes keep a mode and a set of senders: a request the abstract settings allow answers with, and
    stores, settings that stand for the new ones - a mode is only ever block or proxy, a sender is in at most once however
    often and in whatever case it is allowed, and out once it is removed -; any other is refused and changes nothing; and
    nobody else's settings change. *)
Theorem privacy_requests_refine (user_id : string) (q : privacy_request) (w : W) (s : PrivacySettings) :
  stored_privacy user_id w = Some s -> known_mode s = true ->
  exists r w', on_privacy user_id q w = (r, w') /\ others_kept user_id w w' /\
    match allows q (allowance_of s) with
    | Some a => exists s', r = Ok s' /\ allowance_of s' = a /\ stored_privacy user_id w' = Some s' /\ known_mode s' = true
    | None => (exists why, r = Err (InvalidInput why)) /\ stored_privacy user_id w' = Some s
    end.
Proof using Type*.
  intros Hs Hmode. pose proof (load_privacy_run user_id w s Hs) as (w1 & Hl & Hk & Hv).
  assert (Hkept : others_kept user_id w w1) by (intros v _; by apply stored_views).
  destruct q as [|mode gravatar|sender|sender]; cbn [on_privacy allows].
  - exists (Ok s), w1. split; [exact Hl|]. split; [done|]. exists s. by rewrite (stored_views user_id w w1).
  - unfold patch_privacy. rewrite (bind_step _ _ _ _ _ Hl). destruct mode as [mode|].
    + destruct (String.eqb_spec mode "block") as [->|Hb]; [|destruct (String.eqb_spec mode "proxy") as [->|Hp]]; cbn [negb andb].
      1, 2: edestruct (saved_run user_id) as (w2 & Hr & Ho & Hst); [exact Hk|exact Hv|];
        eexists (Ok _), w2; split; [exact Hr|]; split; [done|]; eexists; by split_and!.
      exists (Err (InvalidInput "remoteImages must be block or proxy")), w1. split; [done|]. split; [done|]. split; [by eexists|]. by rewrite (stored_views user_id w w1).
    + edestruct (saved_run user_id) as (w2 & Hr & Ho & Hst); [exact Hk|exact Hv|].
      eexists (Ok _), w2; split; [exact Hr|]; split; [done|]; eexists; by split_and!.
  - unfold allow_sender. destruct (contains_char "@" (to_lowercase (trim sender))); cbn [negb].
    + rewrite (bind_step _ _ _ _ _ Hl). destruct (existsb _ _) eqn:Hin.
      * exists (Ok s), w1. split; [done|]. split; [done|]. exists s. rewrite (stored_views user_id w w1) by done. split_and!; [done| |done..].
        apply sender_listed in Hin. unfold allowance_of. cbn. f_equal. set_solver.
      * edestruct (saved_run user_id) as (w2 & Hr & Ho & Hst); [exact Hk|exact Hv|].
        eexists (Ok _), w2; split; [exact Hr|]; split; [done|]; eexists; split_and!; [done| |done..].
        unfold allowance_of. cbn. f_equal. rewrite list_to_set_app_L. set_solver.
    + exists (Err (InvalidInput "sender must be an email address")), w. split; [done|]. split; [done|]. split; [by eexists|done].
  - unfold remove_allow_sender. rewrite (bind_step _ _ _ _ _ Hl). edestruct (saved_run user_id) as (w2 & Hr & Ho & Hst); [exact Hk|exact Hv|].
    eexists (Ok _), w2; split; [exact Hr|]; split; [done|]; eexists; split_and!; [done| |done..].
    unfold allowance_of. cbn. f_equal. apply leibniz_equiv. intros x. rewrite elem_of_list_to_set, elem_of_difference, elem_of_list_to_set, elem_of_singleton.
    rewrite !list_elem_of_In, filter_In. rewrite negb_true_iff, String.eqb_neq. done.
Qed.
End SettingsProofs.

(** ** Pictures that are not blocked

    What the patterns do on three tags the sanitizer lets through: its attributes are between double quotes, where a single
    quote stays as it is. *)

Module Slips.
Definition ascii_only : UnicodeLib := {| wide_word := fun _ => false; wide_digit := fun _ => false |}.
#[local] Existing Instance ascii_only.
Definition tag (attrs : string) : string := "<img " +:+ attrs +:+ ">".
Definition shown_as_is (html : string) : Prop := rewrite_blocked html = mkRewrite html false.

Example shouted_scheme_is_shown : shown_as_is (tag ("src=" +:+ quoted "HTTPS://t.example/p.gif")).
Proof. vm_compute. reflexivity. Qed.
Example scheme_relative_is_shown : shown_as_is (tag ("src=" +:+ quoted "//t.example/p.gif")).
Proof. vm_compute. reflexivity. Qed.
Example decoy_in_title_is_shown :
  shown_as_is (tag ("title=" +:+ quoted "src='cid:x'" +:+ " src=" +:+ quoted "https://t.example/p.gif")).
Proof. vm_compute. reflexivity. Qed.
Example plain_picture_is_blocked : rr_blocked (rewrite_blocked (tag ("src=" +:+ quoted "https://t.example/p.gif"))) = true.
Proof. vm_compute. reflexivity. Qed.
End Slips.
